(* ===== verification/_CoqProject ===== *)
-Q . S2P
Prelude.v
Types.v
Logic.v
Nor.v
Bits.v
Flash.v
Sector.v
AllocMap.v
OpenFiles.v
FileMd.v
MdSpec.v
MdWrite.v
IndexCache.v
Resolve.v
HashIndex.v
RamIndex.v
NoCacheIndex.v
IndexLog.v
Journal.v
RotateSpec.v
Replay.v
Discovery.v
FileMdCommit.v
Fsinfo.v
Gc.v
GcMem.v
FinishMem.v
GcSpec.v
Inspect.v
InspectSpec.v
InspectAgree.v
InspectDump.v
Alloc.v
File.v
WriteSpec.v
CloseSpec.v
ReadSpec.v
Fastffs.v
Mount.v
RoundTrip.v
Deletion.v
Replacement.v
RoundRuns.v
ReplaceRuns.v
Workload.v
SlotProbe.v
ChurnModel.v
ChurnSpec.v
ChurnEnds.v
ApiWorkload.v
ApiModel.v
Torn.v
Crash.v
CrashReplay.v
EmuBd.v
VerifyFlash.v
EmuSpec.v
VerifySpec.v
VerifyImage.v
HostFlash.v
HostRun.v
DeviceCalls.v
HostCalls.v
CrashSweep.v
SweepRuns.v
ApiHash.v
ApiSweep.v
ApiVerdict.v
ApiMain.v
Dispatch.v
ApiRuns.v
ChurnProbe.v
ChurnProbeSpec.v
ProbeRuns.v
Tool.v
ToolSpec.v
ToolRuns.v
TimeProbe.v
TimeRuns.v
Instances.v
