(* ===== verification/Prelude.v ===== *)
(** * FASTFFS verification library

    FASTFFS is a file system for NOR flash.  A device is a ring of two to
    fifteen index sectors, followed by data sectors.  The index sectors hold the
    namespace as a journal of four-byte records (slot, head sector); a name is
    hashed to a slot and probed over 51 candidates.  A file is a chain of
    extents; each data sector has a footer, metadata records that grow down
    from it, and data that grow up from its start.  Records and footers change
    state by clearing mirrored pairs of bits.  The namespace is kept in RAM by
    one of three index caches and rebuilt at mount by replaying the journal; a
    garbage collector finds dead records by following the chains of the index.

    ** Reading order

    Foundations.
    - [Prelude]: machine integers, byte buffers, shared lemmas and tactics.
    - [Types]: the structures and constants of [include/fastffs/fastffs.h] and
      [src/fffs_internal.h], the state [world] (device, [struct fffs], open
      handles), the device callbacks as the class [Backend], and the state and
      error monad [M], whose results are [Ok], [Err status] or [NoFuel].
      [struct fffs] is split into the parts its components own.
    - [Logic]: weakest preconditions [wp], and [keeps], for what a call leaves
      alone.  [Nor]: the contract of a working NOR device (class [NorFlash]), a
      simulated device that satisfies it, and the demonstration device [Demo].

    Components, each with its operations named as in the C file.
    - [Bits]: encodings, lifecycle pairs, bit sets and slots
      ([fffs_bitmirror.h], [fffs_bitset.c], [fffs_internal.h]).
    - [Flash]: reads, aligned programming, blank check ([fffs_flash.c]).
    - [Sector]: sector footers and the buffered reader ([fffs_sector.c],
      [fffs_sector_reader.c]).
    - [AllocMap]: the bitmap of used sectors ([fffs_alloc_map.c]).
    - [OpenFiles]: the list of open handles.
    - [FileMd], [MdSpec], [MdWrite], [FileMdCommit]: metadata records
      ([fffs_file_md.c]).  [MdSpec] has the records of a sector as a function
      of its bytes; [MdWrite] the windows and the writers.
    - [IndexCache]: the index API as the class [IndexCache] and, for its
      clients, the class [CachedIndex]: an index that stands for a finite map.
      [HashIndex], [RamIndex] ([fffs_hashtable_index.c], [fffs_ram_index.c])
      have instances of both, [NoCacheIndex] ([fffs_nocache_index.c]) of the
      first.  [Resolve]: names to slots.
    - [IndexLog] ([fffs_index_log.c]): headers, discovery, append, rotation,
      compaction, replay.  [Journal] has the journal as a function of the flash
      and the append; [RotateSpec] the rotation and compaction; [Replay] the
      replay; [Discovery] the search for the sequence.
    - [Fsinfo], [Fastffs]: space accounting and the public API ([fastffs.c]);
      [Mount]: format and mount as a whole.
    - [Gc], [GcMem], [GcSpec]: collection and compaction ([fffs_gc.c]).
      [Alloc]: the sector allocator ([fffs_alloc.c]).  [FinishMem]: a sector
      before and after its last record is finished.
    - [File], [WriteSpec], [ReadSpec], [CloseSpec]: file handles
      ([fffs_file.c]): their operations, write, read and close.
    - [RoundTrip]: close, mount, name resolution, open and read put together.
      [Deletion], [Replacement]: the same for a deletion and for the close of a
      writer on an existing name, with the release of the old chain.
      [RoundRuns], [ReplaceRuns]: the theorems at concrete sessions.
    - [Inspect] and [Workload] ([fffs_inspect.c]): the image inspector and the
      workload generator; [InspectSpec], [InspectAgree], [InspectDump] relate
      the inspector to the image and to the file system's own lookups.

    Power loss and the test device.
    - [Torn], [Crash], [CrashReplay]: what an interrupted program may leave, the
      class [CrashFlash] of devices that may lose power, an interrupted append
      and its replay.
    - [EmuBd] ([tests/littlefs/bd/lfs_emubd.c]): the emulated block device;
      [EmuSpec]: its memory.  [VerifyFlash] ([verify_flash.c]): the flash
      harness, in a monad of its own whose failure is a failed assertion or an
      access outside an array; [VerifySpec], [VerifyImage]: its effect on the
      memory, its image and its snapshots.
    - [HostFlash] ([fastffs_host.c]): the harness as a [Backend], with its
      instances of [NorFlash] and [CrashFlash].
    - [Instances]: the theorems at concrete devices, and counterexamples.

    The tools, which run the file system over the harness.  They share
    [HostRun]: a call of the monad [M] on a device, as a result or none.
    [DeviceCalls]: every operation reaches its device by calls of the backend
    only; [HostCalls]: the numbers and the log records that the harness gives to
    these calls.
    - [SlotProbe] ([tools/fffs_slot_resolution_probe.c]): the probe of the name
      slots.
    - [ChurnModel] ([benchmarks/churn_model/]): the generator of writes and
      deletions; [ChurnSpec]: its books; [ChurnEnds]: it ends.
    - [CrashSweep] ([tools/fffs_crash_sweep.c]): every operation with a power loss
      at every program and erase.  [SweepRuns]: the tool, evaluated.
    - [ApiWorkload], [ApiModel], [ApiHash], [ApiSweep], [ApiMain]
      ([tools/fffs_api_crash_sweep.c]): the steps of a workload, the files that
      are expected, the two hashes that are compared, the run with its crash
      points, and the threads as a step relation.  [ApiVerdict]: what a
      successful run has shown; [Dispatch]: what every interleaving of the
      threads does; [ApiRuns]: a seed, evaluated.
    - [ChurnProbe] ([tools/fffs_churn_probe.c]): the churn model on a file system,
      with the collector, checks and profiles; [ChurnProbeSpec]: what a passing
      run has shown; [ProbeRuns]: a small build, evaluated.
    - [Tool] ([tools/fffs_tool.c]): the commands on image files; [ToolSpec]: the
      load of a tree of host files; [ToolRuns]: a session, evaluated.
    - [TimeProbe] ([tools/fffs_time_probe.c]): single calls with their time;
      [TimeRuns]: the first of them, evaluated.

    ** What the theorems show

    Whole operations: closing a new file puts its data and one live record into
    the flash and its slot into the journal and the index, and keeps every other
    file ([close_commits_file]); its name then opens and reads as exactly the
    bytes that were written, in the same session ([written_file_reads_back])
    and after the device was mounted again from its flash alone
    ([file_survives_power_cycle]).  The close of a writer on an existing name
    commits the new root before it releases the old chain, also when the
    collector has moved the old root and the file took its sector; no sector of
    that chain has a live record of the slot then, the new contents are read
    back and the other files stay ([close_replaces_file],
    [replacement_survives_power_cycle]).  A deletion removes exactly its name
    ([delete_removes_file], [deletion_survives_power_cycle]).  The file that is
    closed in these theorems fits in its first extent and finds room in the
    active index sector; what is released may be a chain of any length, and
    reading by name is proved for a chain of any number of extents
    ([open_reads_file]).  The power cycles assume that discovery sees the
    headers of the ring in the flash ([ring_headers]): file data that looks like
    a header can mislead it ([discovery_accepts_file_data]).
    Durability: a freshly formatted device mounts as an empty namespace,
    whatever it held ([format_then_mount]); a mount of a clean journal recovers
    the namespace it spells ([mount_recovers_namespace], from discovery and
    replay); the namespace after an append is the one that the next mount
    recovers ([append_survives_remount]), across rotation and compaction
    ([rotate_keeps_namespace], [append_rotates_full_sector]).  Refinement: the
    index caches are finite maps, name resolution is a function of that map,
    metadata lookup is a function of the sector's bytes.  Data: what is written
    is staged and flushed exactly, what is read is exactly the chain's bytes, a
    programmed extent is read back.  Safety: the collector keeps every extent
    that the namespace reaches, from any state of its resumable walk
    ([gc_keeps_namespace]); a torn lifecycle transition never revives a record.
    Errors: a mount with bad arguments changes nothing, and one that fails later
    leaves the structure unmounted and returns the status of the failed step
    ([failed_mount_unmounts]).  Power loss: whatever an
    interrupted append leaves, the next mount recovers the namespace before or
    after it ([interrupted_append_recovers]).  The test device: under the host
    backend it is the NOR flash that the library's theorems assume, with a fault
    sampler or without ([host_backend_is_nor]); an injected failure leaves a
    torn program or a partly erased range ([program_outcomes],
    [erase_outcomes]); snapshots restore it ([snapshot_reopen]).  The
    inspector: it is a function of the image and never writes, and it agrees
    with the file system on records and reachability.

    Of the tools the theorems say what their success means.  The crash sweeps:
    every step was executed, and a power loss at every program and erase of it
    leaves a flash that mounts and has the files from before or from after
    ([sweep_op_verdict], [api_sweep_verdict]); for the API sweep these are the
    programs and erases among the calls of the backend that the log of the
    harness, with its limit of 300000 records, had room for, and the steps after
    that are not tested; the expected files are those of
    the workload ([workload_matches_names]) and the right files are accepted
    ([right_files_accepted]); the exhaustive part covers all sequences
    ([tiny_exhaustive_complete]); whatever the interleaving of the threads,
    every seed is run once, an error is the first one that was reported and has
    happened, and the dispatcher neither runs on nor locks up, whether or not
    the runs end ([dispatch_verdict], [dispatch_terminates]).  The churn probe: the loop ends and its writes fit
    the buffer ([churn_probe_ends]), and a run whose checks pass has read back
    the last write of every file on a new mount ([churn_probe_verdict]); the
    books of the model are proved for its default profile
    ([churn_accounting]); its profiles divide by
    zero ([churn_probe_divides_by_zero]).  The tool: a load writes exactly the
    files of the tree ([tool_load_writes_tree]).  The evaluated runs take the
    programs through the kernel, from the tool to the emulated blocks.

    ** Conventions and bounds

    [size_t] is 64 bits wide.  A structure that C passes by pointer is a value
    or a part of [world]; the guards against null pointers are not modelled.
    Names are compared as byte lists; [strcmp] differs for a stored name with a
    zero byte in it, which the file system does not write.
    Out-parameters and the contents of buffers after an error are not returned,
    except where the code uses them.  A loop without a structural bound takes
    one: the probe of a hash table is bounded by the table size (enough when a
    bucket is free; without one the code does not terminate, which
    [hash_remove_full_diverges] shows), chains by the sector count as in the
    code, walks of a sector by its size, the open list by the number of
    handles, replay by the records that fit in a sector, discovery by its 16
    probes.  The class [Fuel] bounds read, write, collection and enumeration
    loops: a number of bytes suffices for a write, of bytes and extents for a
    read, as their theorems state.  The theorems about flash contents assume a
    device that obeys [NorFlash] (every operation succeeds, programming clears
    bits, and whole erase units are erased); [EraseUnit] says that the sectors
    of the file system consist of such units.  Those of termination and of
    failed mounts hold for any backend.  [GeoOk] is the geometry that a mount establishes; sectors of more
    than 64 KiB, whose offsets do not fit in a record, are excluded where
    offsets matter.  The collector's theorem asks for sectors whose records are
    consistent ([sector_sane]).

    In the harness the copies of the block device are values (the reference
    counts of its blocks make the sharing invisible), the cached image is
    computed from the blocks (in C it can stay behind after an erase or a program
    over several sectors that fails midway), and the loops over a range take as many rounds as
    the range has bytes.  Its theorems assume a device without wear limit.

    The modelled configuration is the default one: profiling hooks, the
    paranoid reachability option, best-fit allocation and lazy deletion are off.
    In the inspector, counters are unbounded, allocation failures and the
    formatting of reports are left out; a report is a list of [report_line].

    In the tools a call out of fuel, a failed assertion of the harness and an
    operation that C leaves undefined have no result ([None]); the theorems on
    verdicts are about runs that have one.  The loops of the generators take as
    many rounds as there is room for steps or bytes to write
    ([churn_rounds_enough], [churn_probe_ends]); the evaluated runs have their
    fuel in the statement.  The threads of the API sweep interleave at the calls
    of the dispatcher, which its mutex protects; a run of a seed is one step.

    ** Not modelled

    The file input and output of the harness, the parts of the emulated block
    device that it does not use, the command lines of the tools and what they
    print, the trace of profiling scopes, the tests, and the benchmarks of
    other file systems on the target. *)

From Stdlib Require Export ZArith Lia Bool.
From stdpp Require Export base list gmap.

#[global] Open Scope Z_scope.

(** ** Notation scope of the library *)

Declare Scope fffs_scope.
Delimit Scope fffs_scope with fffs.

(** ** Machine integers

    Fixed-width C integers are [Z] values; the conversions below are the C
    conversions to an unsigned type of the given width ([size_t] is 64 bits
    wide, as on the host builds). *)

Definition u8 (x : Z) : Z := x mod 2 ^ 8.
Definition u16 (x : Z) : Z := x mod 2 ^ 16.
Definition u32 (x : Z) : Z := x mod 2 ^ 32.
Definition usz (x : Z) : Z := x mod 2 ^ 64.

Abbreviation UINT16_MAX := 65535.
Abbreviation UINT32_MAX := 4294967295.

Definition is_u8 (x : Z) : Prop := 0 <= x < 2 ^ 8.
Definition is_u16 (x : Z) : Prop := 0 <= x < 2 ^ 16.
Definition is_u32 (x : Z) : Prop := 0 <= x < 2 ^ 32.

(** ** Byte buffers

    A C buffer is a list of byte values, addressed by a [Z] offset. *)

Definition byte_at (l : list Z) (i : Z) : Z := nth (Z.to_nat i) l 0.

Definition sublist (off n : Z) (l : list Z) : list Z :=
  take (Z.to_nat n) (drop (Z.to_nat off) l).

(** [memcpy(buf + off, src, length src)] *)
Definition splice (off : Z) (src buf : list Z) : list Z :=
  take (Z.to_nat off) buf ++ src ++
    drop (Z.to_nat off + length src) buf.

Definition zlen {A} (l : list A) : Z := Z.of_nat (length l).

Definition fill (n : Z) (v : Z) : list Z := replicate (Z.to_nat n) v.

(** A strict prefix test, [strncmp(s, prefix, strlen(prefix)) == 0]. *)
Fixpoint has_prefix (p s : list Z) : bool :=
  match p, s with
  | [], _ => true
  | _ :: _, [] => false
  | x :: p', y :: s' => (x =? y) && has_prefix p' s'
  end.

(** ** Generic lemmas *)

Lemma u16_small x : is_u16 x -> u16 x = x.
Proof. intros H. apply Z.mod_small. exact H. Qed.

Lemma u32_small x : is_u32 x -> u32 x = x.
Proof. intros H. apply Z.mod_small. exact H. Qed.

Lemma u8_small x : is_u8 x -> u8 x = x.
Proof. intros H. apply Z.mod_small. exact H. Qed.

Lemma usz_small x : 0 <= x < 2 ^ 64 -> usz x = x.
Proof. intros H. apply Z.mod_small. exact H. Qed.

Lemma u8_range x : is_u8 (u8 x).
Proof. apply Z.mod_pos_bound. lia. Qed.

Lemma u16_range x : is_u16 (u16 x).
Proof. apply Z.mod_pos_bound. lia. Qed.

Lemma u32_range x : is_u32 (u32 x).
Proof. apply Z.mod_pos_bound. lia. Qed.

Lemma zlen_nonneg {A} (l : list A) : 0 <= zlen l.
Proof. unfold zlen. lia. Qed.

Lemma zlen_nil {A} : zlen (@nil A) = 0.
Proof. reflexivity. Qed.

Lemma zlen_cons {A} (x : A) l : zlen (x :: l) = 1 + zlen l.
Proof. unfold zlen. simpl length. lia. Qed.

Lemma zlen_app {A} (l1 l2 : list A) : zlen (l1 ++ l2) = zlen l1 + zlen l2.
Proof. unfold zlen. rewrite length_app. lia. Qed.

Lemma zlen_snoc {A} (l : list A) (x : A) : zlen (l ++ [x]) = zlen l + 1.
Proof. by rewrite zlen_app. Qed.

Lemma zlen_fill n v : 0 <= n -> zlen (fill n v) = n.
Proof. intros. unfold zlen, fill. rewrite length_replicate. lia. Qed.

Lemma zlen_sublist off n l :
  0 <= off -> 0 <= n -> off + n <= zlen l -> zlen (sublist off n l) = n.
Proof.
  unfold zlen, sublist. intros. rewrite length_take, length_drop. lia.
Qed.

Lemma byte_at_sublist off n l i :
  0 <= off -> 0 <= i < n -> byte_at (sublist off n l) i = byte_at l (off + i).
Proof.
  intros Ho Hi. unfold byte_at, sublist.
  rewrite !nth_lookup, lookup_take_lt, lookup_drop by lia.
  do 2 f_equal. lia.
Qed.

Lemma byte_at_app_l (l1 l2 : list Z) i :
  0 <= i < zlen l1 -> byte_at (l1 ++ l2) i = byte_at l1 i.
Proof. unfold zlen, byte_at. intros H. rewrite app_nth1; [done | lia]. Qed.

Lemma byte_at_app_r (l1 l2 : list Z) i :
  zlen l1 <= i -> byte_at (l1 ++ l2) i = byte_at l2 (i - zlen l1).
Proof.
  unfold zlen, byte_at. intros H. rewrite app_nth2 by lia. f_equal. lia.
Qed.

Lemma list_eq_byte_at (l1 l2 : list Z) :
  zlen l1 = zlen l2 ->
  (forall i, 0 <= i < zlen l1 -> byte_at l1 i = byte_at l2 i) -> l1 = l2.
Proof.
  unfold zlen, byte_at. intros Hlen H.
  apply (nth_ext _ _ 0 0); [lia|]. intros n Hn.
  specialize (H (Z.of_nat n) ltac:(lia)). by rewrite !Nat2Z.id in H.
Qed.

Lemma byte_at_cons_0 x l : byte_at (x :: l) 0 = x.
Proof. done. Qed.

Lemma byte_at_cons_pos x l i : 0 < i -> byte_at (x :: l) i = byte_at l (i - 1).
Proof.
  intros Hi. unfold byte_at. replace (Z.to_nat i) with (S (Z.to_nat (i - 1))) by lia.
  done.
Qed.

Lemma byte_at_is_u8 l i : Forall is_u8 l -> 0 <= i < zlen l -> is_u8 (byte_at l i).
Proof.
  intros Hl Hi. unfold zlen in Hi. unfold byte_at.
  rewrite Forall_lookup in Hl.
  destruct (lookup_lt_is_Some_2 l (Z.to_nat i)) as [x Hx]; [lia|].
  rewrite nth_lookup, Hx. simpl. by eapply Hl.
Qed.

Lemma is_u8_iff_land x : is_u8 x <-> Z.land x 255 = x.
Proof.
  unfold is_u8. change 255 with (Z.ones 8). rewrite Z.land_ones by lia. split.
  - apply Z.mod_small.
  - intros <-. apply Z.mod_pos_bound. lia.
Qed.

Lemma is_u8_land a b : is_u8 b -> is_u8 (Z.land a b).
Proof. rewrite !is_u8_iff_land. intros Hb. by rewrite <- Z.land_assoc, Hb. Qed.

Lemma byte_at_fill n v i : 0 <= i < n -> byte_at (fill n v) i = v.
Proof.
  intros Hi. unfold byte_at, fill. rewrite nth_lookup.
  by rewrite lookup_replicate_2 by lia.
Qed.

Lemma zlen_splice off src buf :
  0 <= off -> off + zlen src <= zlen buf -> zlen (splice off src buf) = zlen buf.
Proof.
  unfold zlen, splice. intros. rewrite !length_app, length_take, length_drop.
  lia.
Qed.

Lemma byte_at_splice off src buf i :
  0 <= off -> off + zlen src <= zlen buf -> 0 <= i ->
  byte_at (splice off src buf) i =
  if (off <=? i) && (i <? off + zlen src) then byte_at src (i - off)
  else byte_at buf i.
Proof.
  intros Ho Hl Hi. pose proof (zlen_nonneg src). unfold splice.
  assert (Ht : zlen (take (Z.to_nat off) buf) = off).
  { unfold zlen in *. rewrite length_take. lia. }
  destruct (Z.leb_spec off i), (Z.ltb_spec i (off + zlen src)); simpl.
  - rewrite byte_at_app_r, Ht, byte_at_app_l by lia. done.
  - rewrite byte_at_app_r, Ht, byte_at_app_r by lia.
    unfold byte_at. rewrite !nth_lookup, lookup_drop. do 2 f_equal.
    unfold zlen in *. lia.
  - rewrite byte_at_app_l by lia. unfold byte_at.
    rewrite !nth_lookup, lookup_take_lt by lia. done.
  - lia.
Qed.

Lemma is_u8_255 : is_u8 255.
Proof. unfold is_u8. lia. Qed.

Lemma Forall_splice (P : Z -> Prop) off src buf :
  Forall P src -> Forall P buf -> Forall P (splice off src buf).
Proof.
  intros Hs Hb. unfold splice. rewrite !Forall_app.
  auto using Forall_take, Forall_drop.
Qed.

Lemma Forall_sublist (P : Z -> Prop) off n l :
  Forall P l -> Forall P (sublist off n l).
Proof. intros. unfold sublist. auto using Forall_take, Forall_drop. Qed.

Lemma Forall_fill (P : Z -> Prop) n v : P v -> Forall P (fill n v).
Proof. intros. unfold fill. by apply Forall_replicate. Qed.

Lemma sublist_all n l : zlen l <= n -> sublist 0 n l = l.
Proof.
  unfold zlen, sublist. intros. rewrite drop_0. apply take_ge. lia.
Qed.

Lemma sublist_app_split i j k l :
  0 <= i -> 0 <= j -> 0 <= k ->
  sublist i j l ++ sublist (i + j) k l = sublist i (j + k) l.
Proof.
  intros. unfold sublist.
  rewrite (Z2Nat.inj_add i j), (Z2Nat.inj_add j k), <- drop_drop by lia.
  apply take_take_drop.
Qed.

(** A low part joined with a shifted high part is their sum. *)
Lemma lor_shiftl a b n :
  0 <= n -> 0 <= a < 2 ^ n -> Z.lor a (Z.shiftl b n) = a + b * 2 ^ n.
Proof.
  intros Hn Ha.
  assert (Hl : Z.land a (Z.shiftl b n) = 0).
  { apply Z.bits_inj'. intros k Hk. rewrite Z.land_spec, Z.bits_0.
    destruct (Z.lt_ge_cases k n).
    - by rewrite Z.shiftl_spec_low, andb_false_r by done.
    - rewrite <- (Z.mod_small a (2 ^ n)) by done.
      by rewrite Z.mod_pow2_bits_high. }
  rewrite <- Z.lxor_lor by done.
  by rewrite <- Z.add_nocarry_lxor, Z.shiftl_mul_pow2 by done.
Qed.

Lemma lxor_bound n a b :
  0 <= n -> 0 <= a < 2 ^ n -> 0 <= b < 2 ^ n -> 0 <= Z.lxor a b < 2 ^ n.
Proof.
  intros Hn Ha Hb. assert (Hmod : Z.lxor a b = Z.lxor a b mod 2 ^ n).
  { apply Z.bits_inj'. intros k Hk. destruct (Z.lt_ge_cases k n).
    - by rewrite Z.mod_pow2_bits_low.
    - rewrite Z.mod_pow2_bits_high, Z.lxor_spec by lia.
      rewrite <- (Z.mod_small a (2 ^ n)), <- (Z.mod_small b (2 ^ n)) by done.
      by rewrite !Z.mod_pow2_bits_high by lia. }
  rewrite Hmod. apply Z.mod_pos_bound. lia.
Qed.

Lemma div_256_range x n : 0 <= n -> 0 <= x < 2 ^ (8 + n) -> 0 <= x / 2 ^ 8 < 2 ^ n.
Proof.
  intros Hn Hx. rewrite Z.pow_add_r in Hx by lia.
  split; [apply Z.div_pos; lia | apply Z.div_lt_upper_bound; lia].
Qed.

Lemma byte_at_zip_land (l1 l2 : list Z) i :
  0 <= i < zlen l1 -> i < zlen l2 ->
  byte_at (zip_with Z.land l1 l2) i = Z.land (byte_at l1 i) (byte_at l2 i).
Proof.
  unfold zlen, byte_at. intros Hi Hl. rewrite !nth_lookup, lookup_zip_with.
  destruct (lookup_lt_is_Some_2 l1 (Z.to_nat i)) as [x ->]; [lia |].
  by destruct (lookup_lt_is_Some_2 l2 (Z.to_nat i)) as [y ->]; [lia |].
Qed.
