(* ===== verification/Types.v ===== *)
(** * Data model of FASTFFS

    Constants, on-flash and in-memory structures of
    [include/fastffs/fastffs.h], [include/fastffs/fffs_opts.h] and
    [src/fffs_internal.h], the flash backend interface, the program state and
    the state-and-error monad the operations are written in.

    [struct fffs] is split into records by the component that owns the
    fields; each field keeps its C name.  Records are updated with the
    [set_<field>] functions. *)

From S2P Require Export Prelude.

(** ** Constants (fastffs.h, fffs_opts.h, fffs_internal.h) *)

Abbreviation FFFS_MAX_NAME := 32.
Abbreviation FFFS_MAX_PROBE_DISTANCE := 50.
Abbreviation FFFS_SLOT_COUNT := 65536.
Abbreviation FFFS_DEFAULT_SECTOR_SIZE := 4096.
Abbreviation FFFS_DEFAULT_SECTOR_SHIFT := 4.
Abbreviation FFFS_MIN_SECTOR_SHIFT := 0.
Abbreviation FFFS_MAX_SECTOR_SHIFT := 15.
Abbreviation FFFS_DEFAULT_INDEX_SECTORS := 2.
Abbreviation FFFS_INDEX_HASH_TABLE_SIZE_MAX := 16384.
Abbreviation FFFS_ALLOC_RECOVERY_LOOKAHEAD := 4.
Abbreviation FFFS_ALLOC_RESERVE_SECTORS := 4.
Abbreviation FFFS_ALLOC_MIN_USABLE_FREE := 128.
Abbreviation FFFS_ALLOC_MAX_MD_RECORDS_PER_SECTOR := 32.
Abbreviation FFFS_ALLOC_TARGET_DENSITY := 6.
Abbreviation FFFS_COMPACTION_CANDIDATE_COUNT := 4.
Abbreviation FFFS_COMPACTION_RESERVE_SECTORS := 5.
Abbreviation FFFS_INDEX_COMPACT_OUTER_SCAN_SIZE := 64.
Abbreviation FFFS_MD_PRELOAD_MAX := 128.
Abbreviation FFFS_MIN_SCRATCH_SIZE := 64.
Abbreviation FFFS_FILE_CACHE_SIZE := 256.
Abbreviation FFFS_INDEX_VERSION := 1.
Abbreviation FFFS_HEADER_SIZE := 8.
Abbreviation FFFS_INDEX_FLAG_VALID := 0x80.
Abbreviation FFFS_INDEX_FLAG_TOMBSTONED := 0x40.
Abbreviation FFFS_INDEX_FLAG_MD_CRC_REQUIRED := 0x20.
Abbreviation FFFS_INDEX_FLAGS_VALID := 0x7f.
Abbreviation FFFS_MD_FILE_RECORD_SIZE := 16.
Abbreviation FFFS_LIFECYCLE_VALID := 0x7e.
Abbreviation FFFS_LIFECYCLE_TOMBSTONED := 0x3c.
Abbreviation FFFS_LIFECYCLE_FULL := 0x5a.
Abbreviation FFFS_MD_TYPE_FILE_ROOT_V1 := 0x11.
Abbreviation FFFS_MD_TYPE_FILE_CONT_V1 := 0x12.
Abbreviation FFFS_SECTOR_FOOTER_SIZE := 10.
Abbreviation FFFS_SECTOR_TYPE_FILE := 0x01.
Abbreviation FFFS_SECTORS_PER_FILE_Q8_ONE := 256.

(** ['F','F','F','S'] and ['F','F','S','D'] *)
Abbreviation FFFS_INDEX_MAGIC := [70; 70; 70; 83].
Abbreviation FFFS_SECTOR_MAGIC := [70; 70; 83; 68].

(** enum fffs_open_flags *)
Abbreviation FFFS_O_RDONLY := 0x01.
Abbreviation FFFS_O_WRONLY := 0x02.
Abbreviation FFFS_O_CREATE := 0x04.
Abbreviation FFFS_O_TRUNC := 0x08.
Abbreviation FFFS_O_EXCL := 0x10.

(** enum fffs_fsinfo_flags and enum fffs_fsinfo_valid_flags *)
Abbreviation FFFS_FSINFO_REFRESH_COMMITTED := 0x01.
Abbreviation FFFS_FSINFO_ESTIMATE_METADATA := 0x02.
Abbreviation FFFS_FSINFO_REFRESH_IF_NEEDED := 0x04.
Abbreviation FFFS_FSINFO_TOTAL_VALID := 0x01.
Abbreviation FFFS_FSINFO_COMMITTED_FILES_VALID := 0x02.
Abbreviation FFFS_FSINFO_COMMITTED_BYTES_VALID := 0x04.
Abbreviation FFFS_FSINFO_PENDING_VALID := 0x08.
Abbreviation FFFS_FSINFO_METADATA_ESTIMATE_VALID := 0x10.

(** ** Enumerations *)

Inductive fffs_status : Type :=
  | FFFS_OK
  | FFFS_ERR_INVALID
  | FFFS_ERR_NOMEM
  | FFFS_ERR_RANGE
  | FFFS_ERR_NO_SPACE
  | FFFS_ERR_NOT_FOUND
  | FFFS_ERR_EXISTS
  | FFFS_ERR_NAME_TOO_LONG
  | FFFS_ERR_CORRUPT
  | FFFS_ERR_IO.

#[global] Instance fffs_status_eq_dec : EqDecision fffs_status.
Proof. solve_decision. Defined.

Definition status_eqb (a b : fffs_status) : bool := bool_decide (a = b).

Inductive fffs_seek_whence : Type :=
  | FFFS_SEEK_SET
  | FFFS_SEEK_CUR
  | FFFS_SEEK_END.

Inductive fffs_gc_action : Type :=
  | FFFS_GC_IDLE
  | FFFS_GC_SCANNED
  | FFFS_GC_TOMBSTONED
  | FFFS_GC_ERASED.

#[global] Instance fffs_gc_action_eq_dec : EqDecision fffs_gc_action.
Proof. solve_decision. Defined.

Inductive fffs_bitmirror : Type :=
  | FFFS_BITMIRROR_SET
  | FFFS_BITMIRROR_CLEARED
  | FFFS_BITMIRROR_MIXED.

#[global] Instance fffs_bitmirror_eq_dec : EqDecision fffs_bitmirror.
Proof. solve_decision. Defined.

Inductive fffs_md_walk_result : Type :=
  | FFFS_MD_WALK_RECORD
  | FFFS_MD_WALK_END_ERASED
  | FFFS_MD_WALK_END_CLAIMED_DATA
  | FFFS_MD_WALK_END_INVALID.

#[global] Instance fffs_md_walk_result_eq_dec : EqDecision fffs_md_walk_result.
Proof. solve_decision. Defined.

Inductive fffs_tombstone_accounting : Type :=
  | FFFS_TOMBSTONE_NO_ACCOUNTING
  | FFFS_TOMBSTONE_COMMITTED_DELETE.

#[global] Instance fffs_tombstone_accounting_eq_dec :
  EqDecision fffs_tombstone_accounting.
Proof. solve_decision. Defined.

(** ** Structures *)

Record fffs_stat : Type := mk_stat { st_name : list Z; st_size : Z }.

#[global] Instance fffs_stat_eq_dec : EqDecision fffs_stat.
Proof. solve_decision. Defined.

Record fffs_index_bucket : Type := mk_bucket { b_slot : Z; b_head : Z }.

#[global] Instance fffs_index_bucket_eq_dec : EqDecision fffs_index_bucket.
Proof. solve_decision. Defined.

Record fffs_compaction_candidate : Type := mk_candidate {
  cc_sector : Z;
  cc_trapped_reclaimable : Z;
  cc_live_root_count : Z;
}.

#[global] Instance fffs_compaction_candidate_eq_dec :
  EqDecision fffs_compaction_candidate.
Proof. solve_decision. Defined.

Record fffs_fsinfo : Type := mk_fsinfo {
  info_valid_flags : Z;
  info_total_bytes : Z;
  info_committed_file_count : Z;
  info_committed_data_bytes : Z;
  info_pending_file_count : Z;
  info_pending_data_bytes : Z;
  info_estimated_metadata_bytes : Z;
}.

Record fffs_sector_footer : Type := mk_footer {
  ft_serial : Z;
  ft_type : Z;
  ft_state : Z;
  ft_erased : bool;
  ft_magic_valid : bool;
  ft_valid_bits : fffs_bitmirror;
  ft_tombstone_bits : fffs_bitmirror;
  ft_full_bits : fffs_bitmirror;
}.

Record fffs_md_record : Type := mk_md_record {
  md_type : Z;
  md_state : Z;
  md_live : bool;
  md_slot : Z;
  md_next : Z;
  md_span_len : Z;
  md_data_off : Z;
  md_data_len : Z;
  md_size_or_offset : Z;
  md_record_start : Z;
  md_record_len : Z;
}.

(** [memset(record, 0, sizeof( *record))] *)
Definition md_record_zero : fffs_md_record :=
  mk_md_record 0 0 false 0 0 0 0 0 0 0 0.

Record fffs_index_sequence : Type := mk_sequence {
  seq_index_sectors : Z;
  seq_sector_shift : Z;
  seq_active_serial : Z;
  seq_active_sector : Z;
  seq_oldest_sector : Z;
  seq_count : Z;
}.

#[global] Instance fffs_index_sequence_eq_dec : EqDecision fffs_index_sequence.
Proof. solve_decision. Defined.

Record fffs_sector_reader : Type := mk_reader {
  rd_data : list Z;
  rd_capacity : Z;
  rd_sector : Z;
  rd_start : Z;
  rd_len : Z;
  rd_reverse : bool;
}.

Record fffs_read_cache_view : Type := mk_cache_view {
  cv_data : list Z;
  cv_capacity : Z;
  cv_len : Z;
  cv_data_pos : Z;
}.

Record fffs_index_iter : Type := mk_iter {
  it_pos : Z;
  it_cursor_seq_pos : Z;
  it_cursor_offset : Z;
  it_status : fffs_status;
}.

Record fffs_format_options : Type := mk_format_options {
  opt_index_sectors : Z;
  opt_sector_size : Z;
}.

Record fffs_mount_options : Type := mk_mount_options {
  opt_index_cache : bool;
  opt_index_cache_size : Z;
  opt_index_hash_table_size : Z;
  opt_scratch : option (list Z);
  opt_scratch_size : Z;
  opt_strict : bool;
  opt_alloc_map : option (list Z);
  opt_alloc_map_words : Z;
}.

Record fffs_md_walk : Type := mk_walk {
  wk_cursor : Z;
  wk_claimed_data_end : Z;
  wk_live_bytes : Z;
  wk_sector : Z;
  wk_live_root_count : Z;
  wk_live_seen : bool;
  wk_live_root_seen : bool;
  wk_live_continuation_seen : bool;
  wk_open_seen : bool;
  wk_active : bool;
}.

Definition set_wk_cursor (v : Z) (s : fffs_md_walk) : fffs_md_walk :=
  mk_walk
    v s.(wk_claimed_data_end) s.(wk_live_bytes) s.(wk_sector)
    s.(wk_live_root_count) s.(wk_live_seen) s.(wk_live_root_seen)
    s.(wk_live_continuation_seen) s.(wk_open_seen) s.(wk_active).
Definition set_wk_claimed_data_end (v : Z) (s : fffs_md_walk) : fffs_md_walk :=
  mk_walk
    s.(wk_cursor) v s.(wk_live_bytes) s.(wk_sector) s.(wk_live_root_count)
    s.(wk_live_seen) s.(wk_live_root_seen) s.(wk_live_continuation_seen)
    s.(wk_open_seen) s.(wk_active).
Definition set_wk_live_bytes (v : Z) (s : fffs_md_walk) : fffs_md_walk :=
  mk_walk
    s.(wk_cursor) s.(wk_claimed_data_end) v s.(wk_sector)
    s.(wk_live_root_count) s.(wk_live_seen) s.(wk_live_root_seen)
    s.(wk_live_continuation_seen) s.(wk_open_seen) s.(wk_active).
Definition set_wk_sector (v : Z) (s : fffs_md_walk) : fffs_md_walk :=
  mk_walk
    s.(wk_cursor) s.(wk_claimed_data_end) s.(wk_live_bytes) v
    s.(wk_live_root_count) s.(wk_live_seen) s.(wk_live_root_seen)
    s.(wk_live_continuation_seen) s.(wk_open_seen) s.(wk_active).
Definition set_wk_live_root_count (v : Z) (s : fffs_md_walk) : fffs_md_walk :=
  mk_walk
    s.(wk_cursor) s.(wk_claimed_data_end) s.(wk_live_bytes) s.(wk_sector) v
    s.(wk_live_seen) s.(wk_live_root_seen) s.(wk_live_continuation_seen)
    s.(wk_open_seen) s.(wk_active).
Definition set_wk_live_seen (v : bool) (s : fffs_md_walk) : fffs_md_walk :=
  mk_walk
    s.(wk_cursor) s.(wk_claimed_data_end) s.(wk_live_bytes) s.(wk_sector)
    s.(wk_live_root_count) v s.(wk_live_root_seen)
    s.(wk_live_continuation_seen) s.(wk_open_seen) s.(wk_active).
Definition set_wk_live_root_seen (v : bool) (s : fffs_md_walk) : fffs_md_walk :=
  mk_walk
    s.(wk_cursor) s.(wk_claimed_data_end) s.(wk_live_bytes) s.(wk_sector)
    s.(wk_live_root_count) s.(wk_live_seen) v s.(wk_live_continuation_seen)
    s.(wk_open_seen) s.(wk_active).
Definition set_wk_live_continuation_seen (v : bool) (s : fffs_md_walk) : fffs_md_walk :=
  mk_walk
    s.(wk_cursor) s.(wk_claimed_data_end) s.(wk_live_bytes) s.(wk_sector)
    s.(wk_live_root_count) s.(wk_live_seen) s.(wk_live_root_seen) v
    s.(wk_open_seen) s.(wk_active).
Definition set_wk_open_seen (v : bool) (s : fffs_md_walk) : fffs_md_walk :=
  mk_walk
    s.(wk_cursor) s.(wk_claimed_data_end) s.(wk_live_bytes) s.(wk_sector)
    s.(wk_live_root_count) s.(wk_live_seen) s.(wk_live_root_seen)
    s.(wk_live_continuation_seen) v s.(wk_active).
Definition set_wk_active (v : bool) (s : fffs_md_walk) : fffs_md_walk :=
  mk_walk
    s.(wk_cursor) s.(wk_claimed_data_end) s.(wk_live_bytes) s.(wk_sector)
    s.(wk_live_root_count) s.(wk_live_seen) s.(wk_live_root_seen)
    s.(wk_live_continuation_seen) s.(wk_open_seen) v.

(** Geometry and mount parameters of [struct fffs], fixed by [fffs_mount]. *)
Record fs_geometry : Type := mk_geometry {
  sector_size : Z;
  sector_count : Z;
  sector_shift : Z;
  index_sectors : Z;
  strict : bool;
  scratch_size : Z;
  index_hash_table_size : Z;
}.

(** The namespace journal position. *)
Record fs_log_state : Type := mk_log {
  oldest_index_sector : Z;
  index_sequence_count : Z;
  active_index_sector : Z;
  next_index_offset : Z;
  active_index_serial : Z;
}.

Definition set_oldest_index_sector (v : Z) (s : fs_log_state) : fs_log_state :=
  mk_log
    v s.(index_sequence_count) s.(active_index_sector)
    s.(next_index_offset) s.(active_index_serial).
Definition set_index_sequence_count (v : Z) (s : fs_log_state) : fs_log_state :=
  mk_log
    s.(oldest_index_sector) v s.(active_index_sector) s.(next_index_offset)
    s.(active_index_serial).
Definition set_active_index_sector (v : Z) (s : fs_log_state) : fs_log_state :=
  mk_log
    s.(oldest_index_sector) s.(index_sequence_count) v
    s.(next_index_offset) s.(active_index_serial).
Definition set_next_index_offset (v : Z) (s : fs_log_state) : fs_log_state :=
  mk_log
    s.(oldest_index_sector) s.(index_sequence_count)
    s.(active_index_sector) v s.(active_index_serial).
Definition set_active_index_serial (v : Z) (s : fs_log_state) : fs_log_state :=
  mk_log
    s.(oldest_index_sector) s.(index_sequence_count)
    s.(active_index_sector) s.(next_index_offset) v.

(** Allocator hints and reserves. *)
Record fs_alloc_state : Type := mk_alloc {
  alloc_map : option (list Z);
  alloc_cursor : Z;
  compaction_reserve_count : Z;
  compaction_reserve_sectors : list Z;
  next_sector_serial : Z;
}.

Definition set_alloc_map (v : option (list Z)) (s : fs_alloc_state) : fs_alloc_state :=
  mk_alloc
    v s.(alloc_cursor) s.(compaction_reserve_count)
    s.(compaction_reserve_sectors) s.(next_sector_serial).
Definition set_alloc_cursor (v : Z) (s : fs_alloc_state) : fs_alloc_state :=
  mk_alloc
    s.(alloc_map) v s.(compaction_reserve_count)
    s.(compaction_reserve_sectors) s.(next_sector_serial).
Definition set_compaction_reserve_count (v : Z) (s : fs_alloc_state) : fs_alloc_state :=
  mk_alloc
    s.(alloc_map) s.(alloc_cursor) v s.(compaction_reserve_sectors)
    s.(next_sector_serial).
Definition set_compaction_reserve_sectors (v : list Z) (s : fs_alloc_state) : fs_alloc_state :=
  mk_alloc
    s.(alloc_map) s.(alloc_cursor) s.(compaction_reserve_count) v
    s.(next_sector_serial).
Definition set_next_sector_serial (v : Z) (s : fs_alloc_state) : fs_alloc_state :=
  mk_alloc
    s.(alloc_map) s.(alloc_cursor) s.(compaction_reserve_count)
    s.(compaction_reserve_sectors) v.

(** Garbage collector state. *)
Record fs_gc_state : Type := mk_gc {
  gc_cursor : Z;
  gc_md : fffs_md_walk;
  compaction_candidates : list fffs_compaction_candidate;
}.

Definition set_gc_cursor (v : Z) (s : fs_gc_state) : fs_gc_state :=
  mk_gc
    v s.(gc_md) s.(compaction_candidates).
Definition set_gc_md (v : fffs_md_walk) (s : fs_gc_state) : fs_gc_state :=
  mk_gc
    s.(gc_cursor) v s.(compaction_candidates).
Definition set_compaction_candidates (v : list fffs_compaction_candidate) (s : fs_gc_state) : fs_gc_state :=
  mk_gc
    s.(gc_cursor) s.(gc_md) v.

(** Space accounting. *)
Record fs_info_state : Type := mk_info {
  fsinfo_valid_flags : Z;
  committed_file_count : Z;
  committed_data_bytes : Z;
  avg_sectors_per_file_q8 : Z;
}.

Definition set_fsinfo_valid_flags (v : Z) (s : fs_info_state) : fs_info_state :=
  mk_info
    v s.(committed_file_count) s.(committed_data_bytes)
    s.(avg_sectors_per_file_q8).
Definition set_committed_file_count (v : Z) (s : fs_info_state) : fs_info_state :=
  mk_info
    s.(fsinfo_valid_flags) v s.(committed_data_bytes)
    s.(avg_sectors_per_file_q8).
Definition set_committed_data_bytes (v : Z) (s : fs_info_state) : fs_info_state :=
  mk_info
    s.(fsinfo_valid_flags) s.(committed_file_count) v
    s.(avg_sectors_per_file_q8).
Definition set_avg_sectors_per_file_q8 (v : Z) (s : fs_info_state) : fs_info_state :=
  mk_info
    s.(fsinfo_valid_flags) s.(committed_file_count)
    s.(committed_data_bytes) v.

(** [struct fffs].  [index_cache] is the bucket array of the hash-table cache,
    [index_heads] the head array of the full slot-head cache, [scratch] the
    contents of the caller's scratch buffer; [open_files] is a handle
    identifier, 0 for [NULL]. *)
Record fffs : Type := mk_fffs {
  fs_geo : fs_geometry;
  fs_log : fs_log_state;
  fs_alloc : fs_alloc_state;
  fs_gc : fs_gc_state;
  fs_info : fs_info_state;
  index_cache : list fffs_index_bucket;
  index_heads : list Z;
  scratch : list Z;
  scratch_serial : Z;
  open_files : Z;
}.

Definition set_fs_geo (v : fs_geometry) (s : fffs) : fffs :=
  mk_fffs
    v s.(fs_log) s.(fs_alloc) s.(fs_gc) s.(fs_info) s.(index_cache)
    s.(index_heads) s.(scratch) s.(scratch_serial) s.(open_files).
Definition set_fs_log (v : fs_log_state) (s : fffs) : fffs :=
  mk_fffs
    s.(fs_geo) v s.(fs_alloc) s.(fs_gc) s.(fs_info) s.(index_cache)
    s.(index_heads) s.(scratch) s.(scratch_serial) s.(open_files).
Definition set_fs_alloc (v : fs_alloc_state) (s : fffs) : fffs :=
  mk_fffs
    s.(fs_geo) s.(fs_log) v s.(fs_gc) s.(fs_info) s.(index_cache)
    s.(index_heads) s.(scratch) s.(scratch_serial) s.(open_files).
Definition set_fs_gc (v : fs_gc_state) (s : fffs) : fffs :=
  mk_fffs
    s.(fs_geo) s.(fs_log) s.(fs_alloc) v s.(fs_info) s.(index_cache)
    s.(index_heads) s.(scratch) s.(scratch_serial) s.(open_files).
Definition set_fs_info (v : fs_info_state) (s : fffs) : fffs :=
  mk_fffs
    s.(fs_geo) s.(fs_log) s.(fs_alloc) s.(fs_gc) v s.(index_cache)
    s.(index_heads) s.(scratch) s.(scratch_serial) s.(open_files).
Definition set_index_cache (v : list fffs_index_bucket) (s : fffs) : fffs :=
  mk_fffs
    s.(fs_geo) s.(fs_log) s.(fs_alloc) s.(fs_gc) s.(fs_info) v
    s.(index_heads) s.(scratch) s.(scratch_serial) s.(open_files).
Definition set_index_heads (v : list Z) (s : fffs) : fffs :=
  mk_fffs
    s.(fs_geo) s.(fs_log) s.(fs_alloc) s.(fs_gc) s.(fs_info)
    s.(index_cache) v s.(scratch) s.(scratch_serial) s.(open_files).
Definition set_scratch (v : list Z) (s : fffs) : fffs :=
  mk_fffs
    s.(fs_geo) s.(fs_log) s.(fs_alloc) s.(fs_gc) s.(fs_info)
    s.(index_cache) s.(index_heads) v s.(scratch_serial) s.(open_files).
Definition set_scratch_serial (v : Z) (s : fffs) : fffs :=
  mk_fffs
    s.(fs_geo) s.(fs_log) s.(fs_alloc) s.(fs_gc) s.(fs_info)
    s.(index_cache) s.(index_heads) s.(scratch) v s.(open_files).
Definition set_open_files (v : Z) (s : fffs) : fffs :=
  mk_fffs
    s.(fs_geo) s.(fs_log) s.(fs_alloc) s.(fs_gc) s.(fs_info)
    s.(index_cache) s.(index_heads) s.(scratch) s.(scratch_serial) v.

(** [struct fffs_file].  [f_fs] tells whether [file->fs] is set; [f_open_next]
    is the identifier of the next open handle, 0 for [NULL]. *)
Record fffs_file : Type := mk_file {
  f_fs : bool;
  f_open_next : Z;
  f_flags : Z;
  f_slot : Z;
  f_head : Z;
  f_current : Z;
  f_data_offset : Z;
  f_current_data_len : Z;
  f_current_next : Z;
  f_current_write_offset : Z;
  f_current_metadata_offset : Z;
  f_root_payload_offset : Z;
  f_span_head : Z;
  f_span_len : Z;
  f_old_head : Z;
  f_old_next : Z;
  f_reserve_first : Z;
  f_reserve_count : Z;
  f_size : Z;
  f_pos : Z;
  f_current_data_pos : Z;
  f_cache_data_pos : Z;
  f_current_file_offset : Z;
  f_cache_len : Z;
  f_name : list Z;
  f_cache : list Z;
  f_current_needs_footer : bool;
  f_closed : bool;
  f_open_registered : bool;
}.

Definition set_f_fs (v : bool) (s : fffs_file) : fffs_file :=
  mk_file
    v s.(f_open_next) s.(f_flags) s.(f_slot) s.(f_head) s.(f_current)
    s.(f_data_offset) s.(f_current_data_len) s.(f_current_next)
    s.(f_current_write_offset) s.(f_current_metadata_offset)
    s.(f_root_payload_offset) s.(f_span_head) s.(f_span_len) s.(f_old_head)
    s.(f_old_next) s.(f_reserve_first) s.(f_reserve_count) s.(f_size)
    s.(f_pos) s.(f_current_data_pos) s.(f_cache_data_pos)
    s.(f_current_file_offset) s.(f_cache_len) s.(f_name) s.(f_cache)
    s.(f_current_needs_footer) s.(f_closed) s.(f_open_registered).
Definition set_f_open_next (v : Z) (s : fffs_file) : fffs_file :=
  mk_file
    s.(f_fs) v s.(f_flags) s.(f_slot) s.(f_head) s.(f_current)
    s.(f_data_offset) s.(f_current_data_len) s.(f_current_next)
    s.(f_current_write_offset) s.(f_current_metadata_offset)
    s.(f_root_payload_offset) s.(f_span_head) s.(f_span_len) s.(f_old_head)
    s.(f_old_next) s.(f_reserve_first) s.(f_reserve_count) s.(f_size)
    s.(f_pos) s.(f_current_data_pos) s.(f_cache_data_pos)
    s.(f_current_file_offset) s.(f_cache_len) s.(f_name) s.(f_cache)
    s.(f_current_needs_footer) s.(f_closed) s.(f_open_registered).
Definition set_f_flags (v : Z) (s : fffs_file) : fffs_file :=
  mk_file
    s.(f_fs) s.(f_open_next) v s.(f_slot) s.(f_head) s.(f_current)
    s.(f_data_offset) s.(f_current_data_len) s.(f_current_next)
    s.(f_current_write_offset) s.(f_current_metadata_offset)
    s.(f_root_payload_offset) s.(f_span_head) s.(f_span_len) s.(f_old_head)
    s.(f_old_next) s.(f_reserve_first) s.(f_reserve_count) s.(f_size)
    s.(f_pos) s.(f_current_data_pos) s.(f_cache_data_pos)
    s.(f_current_file_offset) s.(f_cache_len) s.(f_name) s.(f_cache)
    s.(f_current_needs_footer) s.(f_closed) s.(f_open_registered).
Definition set_f_slot (v : Z) (s : fffs_file) : fffs_file :=
  mk_file
    s.(f_fs) s.(f_open_next) s.(f_flags) v s.(f_head) s.(f_current)
    s.(f_data_offset) s.(f_current_data_len) s.(f_current_next)
    s.(f_current_write_offset) s.(f_current_metadata_offset)
    s.(f_root_payload_offset) s.(f_span_head) s.(f_span_len) s.(f_old_head)
    s.(f_old_next) s.(f_reserve_first) s.(f_reserve_count) s.(f_size)
    s.(f_pos) s.(f_current_data_pos) s.(f_cache_data_pos)
    s.(f_current_file_offset) s.(f_cache_len) s.(f_name) s.(f_cache)
    s.(f_current_needs_footer) s.(f_closed) s.(f_open_registered).
Definition set_f_head (v : Z) (s : fffs_file) : fffs_file :=
  mk_file
    s.(f_fs) s.(f_open_next) s.(f_flags) s.(f_slot) v s.(f_current)
    s.(f_data_offset) s.(f_current_data_len) s.(f_current_next)
    s.(f_current_write_offset) s.(f_current_metadata_offset)
    s.(f_root_payload_offset) s.(f_span_head) s.(f_span_len) s.(f_old_head)
    s.(f_old_next) s.(f_reserve_first) s.(f_reserve_count) s.(f_size)
    s.(f_pos) s.(f_current_data_pos) s.(f_cache_data_pos)
    s.(f_current_file_offset) s.(f_cache_len) s.(f_name) s.(f_cache)
    s.(f_current_needs_footer) s.(f_closed) s.(f_open_registered).
Definition set_f_current (v : Z) (s : fffs_file) : fffs_file :=
  mk_file
    s.(f_fs) s.(f_open_next) s.(f_flags) s.(f_slot) s.(f_head) v
    s.(f_data_offset) s.(f_current_data_len) s.(f_current_next)
    s.(f_current_write_offset) s.(f_current_metadata_offset)
    s.(f_root_payload_offset) s.(f_span_head) s.(f_span_len) s.(f_old_head)
    s.(f_old_next) s.(f_reserve_first) s.(f_reserve_count) s.(f_size)
    s.(f_pos) s.(f_current_data_pos) s.(f_cache_data_pos)
    s.(f_current_file_offset) s.(f_cache_len) s.(f_name) s.(f_cache)
    s.(f_current_needs_footer) s.(f_closed) s.(f_open_registered).
Definition set_f_data_offset (v : Z) (s : fffs_file) : fffs_file :=
  mk_file
    s.(f_fs) s.(f_open_next) s.(f_flags) s.(f_slot) s.(f_head)
    s.(f_current) v s.(f_current_data_len) s.(f_current_next)
    s.(f_current_write_offset) s.(f_current_metadata_offset)
    s.(f_root_payload_offset) s.(f_span_head) s.(f_span_len) s.(f_old_head)
    s.(f_old_next) s.(f_reserve_first) s.(f_reserve_count) s.(f_size)
    s.(f_pos) s.(f_current_data_pos) s.(f_cache_data_pos)
    s.(f_current_file_offset) s.(f_cache_len) s.(f_name) s.(f_cache)
    s.(f_current_needs_footer) s.(f_closed) s.(f_open_registered).
Definition set_f_current_data_len (v : Z) (s : fffs_file) : fffs_file :=
  mk_file
    s.(f_fs) s.(f_open_next) s.(f_flags) s.(f_slot) s.(f_head)
    s.(f_current) s.(f_data_offset) v s.(f_current_next)
    s.(f_current_write_offset) s.(f_current_metadata_offset)
    s.(f_root_payload_offset) s.(f_span_head) s.(f_span_len) s.(f_old_head)
    s.(f_old_next) s.(f_reserve_first) s.(f_reserve_count) s.(f_size)
    s.(f_pos) s.(f_current_data_pos) s.(f_cache_data_pos)
    s.(f_current_file_offset) s.(f_cache_len) s.(f_name) s.(f_cache)
    s.(f_current_needs_footer) s.(f_closed) s.(f_open_registered).
Definition set_f_current_next (v : Z) (s : fffs_file) : fffs_file :=
  mk_file
    s.(f_fs) s.(f_open_next) s.(f_flags) s.(f_slot) s.(f_head)
    s.(f_current) s.(f_data_offset) s.(f_current_data_len) v
    s.(f_current_write_offset) s.(f_current_metadata_offset)
    s.(f_root_payload_offset) s.(f_span_head) s.(f_span_len) s.(f_old_head)
    s.(f_old_next) s.(f_reserve_first) s.(f_reserve_count) s.(f_size)
    s.(f_pos) s.(f_current_data_pos) s.(f_cache_data_pos)
    s.(f_current_file_offset) s.(f_cache_len) s.(f_name) s.(f_cache)
    s.(f_current_needs_footer) s.(f_closed) s.(f_open_registered).
Definition set_f_current_write_offset (v : Z) (s : fffs_file) : fffs_file :=
  mk_file
    s.(f_fs) s.(f_open_next) s.(f_flags) s.(f_slot) s.(f_head)
    s.(f_current) s.(f_data_offset) s.(f_current_data_len)
    s.(f_current_next) v s.(f_current_metadata_offset)
    s.(f_root_payload_offset) s.(f_span_head) s.(f_span_len) s.(f_old_head)
    s.(f_old_next) s.(f_reserve_first) s.(f_reserve_count) s.(f_size)
    s.(f_pos) s.(f_current_data_pos) s.(f_cache_data_pos)
    s.(f_current_file_offset) s.(f_cache_len) s.(f_name) s.(f_cache)
    s.(f_current_needs_footer) s.(f_closed) s.(f_open_registered).
Definition set_f_current_metadata_offset (v : Z) (s : fffs_file) : fffs_file :=
  mk_file
    s.(f_fs) s.(f_open_next) s.(f_flags) s.(f_slot) s.(f_head)
    s.(f_current) s.(f_data_offset) s.(f_current_data_len)
    s.(f_current_next) s.(f_current_write_offset) v
    s.(f_root_payload_offset) s.(f_span_head) s.(f_span_len) s.(f_old_head)
    s.(f_old_next) s.(f_reserve_first) s.(f_reserve_count) s.(f_size)
    s.(f_pos) s.(f_current_data_pos) s.(f_cache_data_pos)
    s.(f_current_file_offset) s.(f_cache_len) s.(f_name) s.(f_cache)
    s.(f_current_needs_footer) s.(f_closed) s.(f_open_registered).
Definition set_f_root_payload_offset (v : Z) (s : fffs_file) : fffs_file :=
  mk_file
    s.(f_fs) s.(f_open_next) s.(f_flags) s.(f_slot) s.(f_head)
    s.(f_current) s.(f_data_offset) s.(f_current_data_len)
    s.(f_current_next) s.(f_current_write_offset)
    s.(f_current_metadata_offset) v s.(f_span_head) s.(f_span_len)
    s.(f_old_head) s.(f_old_next) s.(f_reserve_first) s.(f_reserve_count)
    s.(f_size) s.(f_pos) s.(f_current_data_pos) s.(f_cache_data_pos)
    s.(f_current_file_offset) s.(f_cache_len) s.(f_name) s.(f_cache)
    s.(f_current_needs_footer) s.(f_closed) s.(f_open_registered).
Definition set_f_span_head (v : Z) (s : fffs_file) : fffs_file :=
  mk_file
    s.(f_fs) s.(f_open_next) s.(f_flags) s.(f_slot) s.(f_head)
    s.(f_current) s.(f_data_offset) s.(f_current_data_len)
    s.(f_current_next) s.(f_current_write_offset)
    s.(f_current_metadata_offset) s.(f_root_payload_offset) v
    s.(f_span_len) s.(f_old_head) s.(f_old_next) s.(f_reserve_first)
    s.(f_reserve_count) s.(f_size) s.(f_pos) s.(f_current_data_pos)
    s.(f_cache_data_pos) s.(f_current_file_offset) s.(f_cache_len)
    s.(f_name) s.(f_cache) s.(f_current_needs_footer) s.(f_closed)
    s.(f_open_registered).
Definition set_f_span_len (v : Z) (s : fffs_file) : fffs_file :=
  mk_file
    s.(f_fs) s.(f_open_next) s.(f_flags) s.(f_slot) s.(f_head)
    s.(f_current) s.(f_data_offset) s.(f_current_data_len)
    s.(f_current_next) s.(f_current_write_offset)
    s.(f_current_metadata_offset) s.(f_root_payload_offset) s.(f_span_head)
    v s.(f_old_head) s.(f_old_next) s.(f_reserve_first) s.(f_reserve_count)
    s.(f_size) s.(f_pos) s.(f_current_data_pos) s.(f_cache_data_pos)
    s.(f_current_file_offset) s.(f_cache_len) s.(f_name) s.(f_cache)
    s.(f_current_needs_footer) s.(f_closed) s.(f_open_registered).
Definition set_f_old_head (v : Z) (s : fffs_file) : fffs_file :=
  mk_file
    s.(f_fs) s.(f_open_next) s.(f_flags) s.(f_slot) s.(f_head)
    s.(f_current) s.(f_data_offset) s.(f_current_data_len)
    s.(f_current_next) s.(f_current_write_offset)
    s.(f_current_metadata_offset) s.(f_root_payload_offset) s.(f_span_head)
    s.(f_span_len) v s.(f_old_next) s.(f_reserve_first) s.(f_reserve_count)
    s.(f_size) s.(f_pos) s.(f_current_data_pos) s.(f_cache_data_pos)
    s.(f_current_file_offset) s.(f_cache_len) s.(f_name) s.(f_cache)
    s.(f_current_needs_footer) s.(f_closed) s.(f_open_registered).
Definition set_f_old_next (v : Z) (s : fffs_file) : fffs_file :=
  mk_file
    s.(f_fs) s.(f_open_next) s.(f_flags) s.(f_slot) s.(f_head)
    s.(f_current) s.(f_data_offset) s.(f_current_data_len)
    s.(f_current_next) s.(f_current_write_offset)
    s.(f_current_metadata_offset) s.(f_root_payload_offset) s.(f_span_head)
    s.(f_span_len) s.(f_old_head) v s.(f_reserve_first) s.(f_reserve_count)
    s.(f_size) s.(f_pos) s.(f_current_data_pos) s.(f_cache_data_pos)
    s.(f_current_file_offset) s.(f_cache_len) s.(f_name) s.(f_cache)
    s.(f_current_needs_footer) s.(f_closed) s.(f_open_registered).
Definition set_f_reserve_first (v : Z) (s : fffs_file) : fffs_file :=
  mk_file
    s.(f_fs) s.(f_open_next) s.(f_flags) s.(f_slot) s.(f_head)
    s.(f_current) s.(f_data_offset) s.(f_current_data_len)
    s.(f_current_next) s.(f_current_write_offset)
    s.(f_current_metadata_offset) s.(f_root_payload_offset) s.(f_span_head)
    s.(f_span_len) s.(f_old_head) s.(f_old_next) v s.(f_reserve_count)
    s.(f_size) s.(f_pos) s.(f_current_data_pos) s.(f_cache_data_pos)
    s.(f_current_file_offset) s.(f_cache_len) s.(f_name) s.(f_cache)
    s.(f_current_needs_footer) s.(f_closed) s.(f_open_registered).
Definition set_f_reserve_count (v : Z) (s : fffs_file) : fffs_file :=
  mk_file
    s.(f_fs) s.(f_open_next) s.(f_flags) s.(f_slot) s.(f_head)
    s.(f_current) s.(f_data_offset) s.(f_current_data_len)
    s.(f_current_next) s.(f_current_write_offset)
    s.(f_current_metadata_offset) s.(f_root_payload_offset) s.(f_span_head)
    s.(f_span_len) s.(f_old_head) s.(f_old_next) s.(f_reserve_first) v
    s.(f_size) s.(f_pos) s.(f_current_data_pos) s.(f_cache_data_pos)
    s.(f_current_file_offset) s.(f_cache_len) s.(f_name) s.(f_cache)
    s.(f_current_needs_footer) s.(f_closed) s.(f_open_registered).
Definition set_f_size (v : Z) (s : fffs_file) : fffs_file :=
  mk_file
    s.(f_fs) s.(f_open_next) s.(f_flags) s.(f_slot) s.(f_head)
    s.(f_current) s.(f_data_offset) s.(f_current_data_len)
    s.(f_current_next) s.(f_current_write_offset)
    s.(f_current_metadata_offset) s.(f_root_payload_offset) s.(f_span_head)
    s.(f_span_len) s.(f_old_head) s.(f_old_next) s.(f_reserve_first)
    s.(f_reserve_count) v s.(f_pos) s.(f_current_data_pos)
    s.(f_cache_data_pos) s.(f_current_file_offset) s.(f_cache_len)
    s.(f_name) s.(f_cache) s.(f_current_needs_footer) s.(f_closed)
    s.(f_open_registered).
Definition set_f_pos (v : Z) (s : fffs_file) : fffs_file :=
  mk_file
    s.(f_fs) s.(f_open_next) s.(f_flags) s.(f_slot) s.(f_head)
    s.(f_current) s.(f_data_offset) s.(f_current_data_len)
    s.(f_current_next) s.(f_current_write_offset)
    s.(f_current_metadata_offset) s.(f_root_payload_offset) s.(f_span_head)
    s.(f_span_len) s.(f_old_head) s.(f_old_next) s.(f_reserve_first)
    s.(f_reserve_count) s.(f_size) v s.(f_current_data_pos)
    s.(f_cache_data_pos) s.(f_current_file_offset) s.(f_cache_len)
    s.(f_name) s.(f_cache) s.(f_current_needs_footer) s.(f_closed)
    s.(f_open_registered).
Definition set_f_current_data_pos (v : Z) (s : fffs_file) : fffs_file :=
  mk_file
    s.(f_fs) s.(f_open_next) s.(f_flags) s.(f_slot) s.(f_head)
    s.(f_current) s.(f_data_offset) s.(f_current_data_len)
    s.(f_current_next) s.(f_current_write_offset)
    s.(f_current_metadata_offset) s.(f_root_payload_offset) s.(f_span_head)
    s.(f_span_len) s.(f_old_head) s.(f_old_next) s.(f_reserve_first)
    s.(f_reserve_count) s.(f_size) s.(f_pos) v s.(f_cache_data_pos)
    s.(f_current_file_offset) s.(f_cache_len) s.(f_name) s.(f_cache)
    s.(f_current_needs_footer) s.(f_closed) s.(f_open_registered).
Definition set_f_cache_data_pos (v : Z) (s : fffs_file) : fffs_file :=
  mk_file
    s.(f_fs) s.(f_open_next) s.(f_flags) s.(f_slot) s.(f_head)
    s.(f_current) s.(f_data_offset) s.(f_current_data_len)
    s.(f_current_next) s.(f_current_write_offset)
    s.(f_current_metadata_offset) s.(f_root_payload_offset) s.(f_span_head)
    s.(f_span_len) s.(f_old_head) s.(f_old_next) s.(f_reserve_first)
    s.(f_reserve_count) s.(f_size) s.(f_pos) s.(f_current_data_pos) v
    s.(f_current_file_offset) s.(f_cache_len) s.(f_name) s.(f_cache)
    s.(f_current_needs_footer) s.(f_closed) s.(f_open_registered).
Definition set_f_current_file_offset (v : Z) (s : fffs_file) : fffs_file :=
  mk_file
    s.(f_fs) s.(f_open_next) s.(f_flags) s.(f_slot) s.(f_head)
    s.(f_current) s.(f_data_offset) s.(f_current_data_len)
    s.(f_current_next) s.(f_current_write_offset)
    s.(f_current_metadata_offset) s.(f_root_payload_offset) s.(f_span_head)
    s.(f_span_len) s.(f_old_head) s.(f_old_next) s.(f_reserve_first)
    s.(f_reserve_count) s.(f_size) s.(f_pos) s.(f_current_data_pos)
    s.(f_cache_data_pos) v s.(f_cache_len) s.(f_name) s.(f_cache)
    s.(f_current_needs_footer) s.(f_closed) s.(f_open_registered).
Definition set_f_cache_len (v : Z) (s : fffs_file) : fffs_file :=
  mk_file
    s.(f_fs) s.(f_open_next) s.(f_flags) s.(f_slot) s.(f_head)
    s.(f_current) s.(f_data_offset) s.(f_current_data_len)
    s.(f_current_next) s.(f_current_write_offset)
    s.(f_current_metadata_offset) s.(f_root_payload_offset) s.(f_span_head)
    s.(f_span_len) s.(f_old_head) s.(f_old_next) s.(f_reserve_first)
    s.(f_reserve_count) s.(f_size) s.(f_pos) s.(f_current_data_pos)
    s.(f_cache_data_pos) s.(f_current_file_offset) v s.(f_name) s.(f_cache)
    s.(f_current_needs_footer) s.(f_closed) s.(f_open_registered).
Definition set_f_name (v : list Z) (s : fffs_file) : fffs_file :=
  mk_file
    s.(f_fs) s.(f_open_next) s.(f_flags) s.(f_slot) s.(f_head)
    s.(f_current) s.(f_data_offset) s.(f_current_data_len)
    s.(f_current_next) s.(f_current_write_offset)
    s.(f_current_metadata_offset) s.(f_root_payload_offset) s.(f_span_head)
    s.(f_span_len) s.(f_old_head) s.(f_old_next) s.(f_reserve_first)
    s.(f_reserve_count) s.(f_size) s.(f_pos) s.(f_current_data_pos)
    s.(f_cache_data_pos) s.(f_current_file_offset) s.(f_cache_len) v
    s.(f_cache) s.(f_current_needs_footer) s.(f_closed)
    s.(f_open_registered).
Definition set_f_cache (v : list Z) (s : fffs_file) : fffs_file :=
  mk_file
    s.(f_fs) s.(f_open_next) s.(f_flags) s.(f_slot) s.(f_head)
    s.(f_current) s.(f_data_offset) s.(f_current_data_len)
    s.(f_current_next) s.(f_current_write_offset)
    s.(f_current_metadata_offset) s.(f_root_payload_offset) s.(f_span_head)
    s.(f_span_len) s.(f_old_head) s.(f_old_next) s.(f_reserve_first)
    s.(f_reserve_count) s.(f_size) s.(f_pos) s.(f_current_data_pos)
    s.(f_cache_data_pos) s.(f_current_file_offset) s.(f_cache_len)
    s.(f_name) v s.(f_current_needs_footer) s.(f_closed)
    s.(f_open_registered).
Definition set_f_current_needs_footer (v : bool) (s : fffs_file) : fffs_file :=
  mk_file
    s.(f_fs) s.(f_open_next) s.(f_flags) s.(f_slot) s.(f_head)
    s.(f_current) s.(f_data_offset) s.(f_current_data_len)
    s.(f_current_next) s.(f_current_write_offset)
    s.(f_current_metadata_offset) s.(f_root_payload_offset) s.(f_span_head)
    s.(f_span_len) s.(f_old_head) s.(f_old_next) s.(f_reserve_first)
    s.(f_reserve_count) s.(f_size) s.(f_pos) s.(f_current_data_pos)
    s.(f_cache_data_pos) s.(f_current_file_offset) s.(f_cache_len)
    s.(f_name) s.(f_cache) v s.(f_closed) s.(f_open_registered).
Definition set_f_closed (v : bool) (s : fffs_file) : fffs_file :=
  mk_file
    s.(f_fs) s.(f_open_next) s.(f_flags) s.(f_slot) s.(f_head)
    s.(f_current) s.(f_data_offset) s.(f_current_data_len)
    s.(f_current_next) s.(f_current_write_offset)
    s.(f_current_metadata_offset) s.(f_root_payload_offset) s.(f_span_head)
    s.(f_span_len) s.(f_old_head) s.(f_old_next) s.(f_reserve_first)
    s.(f_reserve_count) s.(f_size) s.(f_pos) s.(f_current_data_pos)
    s.(f_cache_data_pos) s.(f_current_file_offset) s.(f_cache_len)
    s.(f_name) s.(f_cache) s.(f_current_needs_footer) v
    s.(f_open_registered).
Definition set_f_open_registered (v : bool) (s : fffs_file) : fffs_file :=
  mk_file
    s.(f_fs) s.(f_open_next) s.(f_flags) s.(f_slot) s.(f_head)
    s.(f_current) s.(f_data_offset) s.(f_current_data_len)
    s.(f_current_next) s.(f_current_write_offset)
    s.(f_current_metadata_offset) s.(f_root_payload_offset) s.(f_span_head)
    s.(f_span_len) s.(f_old_head) s.(f_old_next) s.(f_reserve_first)
    s.(f_reserve_count) s.(f_size) s.(f_pos) s.(f_current_data_pos)
    s.(f_cache_data_pos) s.(f_current_file_offset) s.(f_cache_len)
    s.(f_name) s.(f_cache) s.(f_current_needs_footer) s.(f_closed) v.

(** [(struct fffs_file){0}] *)
Definition file_zero : fffs_file :=
  mk_file false 0 0 0 0 0 0 0 0 0 0 0 0 0 0 0 0 0 0 0 0 0 0 0
    [] (fill FFFS_FILE_CACHE_SIZE 0) false false false.

Record fffs_dir : Type := mk_dir {
  d_pos : Z;
  d_cursor_seq_pos : Z;
  d_cursor_offset : Z;
  d_scratch_serial : Z;
  d_cached_seq_pos : Z;
  d_cached_offset : Z;
  d_cached_len : Z;
  d_prefix_len : Z;
  d_status : fffs_status;
  d_prefix : list Z;
  d_closed : bool;
}.

Definition set_d_pos (v : Z) (s : fffs_dir) : fffs_dir :=
  mk_dir
    v s.(d_cursor_seq_pos) s.(d_cursor_offset) s.(d_scratch_serial)
    s.(d_cached_seq_pos) s.(d_cached_offset) s.(d_cached_len)
    s.(d_prefix_len) s.(d_status) s.(d_prefix) s.(d_closed).
Definition set_d_cursor_seq_pos (v : Z) (s : fffs_dir) : fffs_dir :=
  mk_dir
    s.(d_pos) v s.(d_cursor_offset) s.(d_scratch_serial)
    s.(d_cached_seq_pos) s.(d_cached_offset) s.(d_cached_len)
    s.(d_prefix_len) s.(d_status) s.(d_prefix) s.(d_closed).
Definition set_d_cursor_offset (v : Z) (s : fffs_dir) : fffs_dir :=
  mk_dir
    s.(d_pos) s.(d_cursor_seq_pos) v s.(d_scratch_serial)
    s.(d_cached_seq_pos) s.(d_cached_offset) s.(d_cached_len)
    s.(d_prefix_len) s.(d_status) s.(d_prefix) s.(d_closed).
Definition set_d_scratch_serial (v : Z) (s : fffs_dir) : fffs_dir :=
  mk_dir
    s.(d_pos) s.(d_cursor_seq_pos) s.(d_cursor_offset) v
    s.(d_cached_seq_pos) s.(d_cached_offset) s.(d_cached_len)
    s.(d_prefix_len) s.(d_status) s.(d_prefix) s.(d_closed).
Definition set_d_cached_seq_pos (v : Z) (s : fffs_dir) : fffs_dir :=
  mk_dir
    s.(d_pos) s.(d_cursor_seq_pos) s.(d_cursor_offset) s.(d_scratch_serial)
    v s.(d_cached_offset) s.(d_cached_len) s.(d_prefix_len) s.(d_status)
    s.(d_prefix) s.(d_closed).
Definition set_d_cached_offset (v : Z) (s : fffs_dir) : fffs_dir :=
  mk_dir
    s.(d_pos) s.(d_cursor_seq_pos) s.(d_cursor_offset) s.(d_scratch_serial)
    s.(d_cached_seq_pos) v s.(d_cached_len) s.(d_prefix_len) s.(d_status)
    s.(d_prefix) s.(d_closed).
Definition set_d_cached_len (v : Z) (s : fffs_dir) : fffs_dir :=
  mk_dir
    s.(d_pos) s.(d_cursor_seq_pos) s.(d_cursor_offset) s.(d_scratch_serial)
    s.(d_cached_seq_pos) s.(d_cached_offset) v s.(d_prefix_len)
    s.(d_status) s.(d_prefix) s.(d_closed).
Definition set_d_prefix_len (v : Z) (s : fffs_dir) : fffs_dir :=
  mk_dir
    s.(d_pos) s.(d_cursor_seq_pos) s.(d_cursor_offset) s.(d_scratch_serial)
    s.(d_cached_seq_pos) s.(d_cached_offset) s.(d_cached_len) v
    s.(d_status) s.(d_prefix) s.(d_closed).
Definition set_d_status (v : fffs_status) (s : fffs_dir) : fffs_dir :=
  mk_dir
    s.(d_pos) s.(d_cursor_seq_pos) s.(d_cursor_offset) s.(d_scratch_serial)
    s.(d_cached_seq_pos) s.(d_cached_offset) s.(d_cached_len)
    s.(d_prefix_len) v s.(d_prefix) s.(d_closed).
Definition set_d_prefix (v : list Z) (s : fffs_dir) : fffs_dir :=
  mk_dir
    s.(d_pos) s.(d_cursor_seq_pos) s.(d_cursor_offset) s.(d_scratch_serial)
    s.(d_cached_seq_pos) s.(d_cached_offset) s.(d_cached_len)
    s.(d_prefix_len) s.(d_status) v s.(d_closed).
Definition set_d_closed (v : bool) (s : fffs_dir) : fffs_dir :=
  mk_dir
    s.(d_pos) s.(d_cursor_seq_pos) s.(d_cursor_offset) s.(d_scratch_serial)
    s.(d_cached_seq_pos) s.(d_cached_offset) s.(d_cached_len)
    s.(d_prefix_len) s.(d_status) s.(d_prefix) v.

Definition dir_zero : fffs_dir := mk_dir 0 0 0 0 0 0 0 0 FFFS_OK [] false.

Definition walk_zero : fffs_md_walk :=
  mk_walk 0 0 0 0 0 false false false false false.

Definition candidate_zero : fffs_compaction_candidate := mk_candidate 0 0 0.

(** [(struct fffs){0}] *)
Definition fffs_zero : fffs :=
  mk_fffs (mk_geometry 0 0 0 0 false 0 0)
    (mk_log 0 0 0 0 0)
    (mk_alloc None 0 0 (fill FFFS_COMPACTION_RESERVE_SECTORS 0) 0)
    (mk_gc 0 walk_zero (replicate 4 candidate_zero))
    (mk_info 0 0 0 0) [] [] [] 0 0.

(** ** The flash backend

    [struct fffs_backend]: the device behind the three callbacks is supplied
    by the application, so it is a parameter.  A callback returns the C status
    (0 for success) and the new device state; [be_read] also returns what it
    put in the buffer. *)

Class Backend : Type := mk_backend {
  be_ctx : Type;
  be_size : Z;
  be_granule : Z;
  be_read : be_ctx -> Z -> Z -> Z * list Z * be_ctx;
  be_program : be_ctx -> Z -> list Z -> Z * be_ctx;
  be_erase : be_ctx -> Z -> Z -> Z * be_ctx;
}.

(** ** Program state

    The device, the file system structure and the store of file handles:
    [fs->open_files] and [file->open_next] alias handles that callers also
    hold, so handles live in a store indexed by their identifier. *)

Record world `{Backend} : Type := mk_world {
  w_ctx : be_ctx;
  w_fs : fffs;
  w_files : gmap Z fffs_file;
}.
Arguments mk_world {_} _ _ _.

(** ** The monad

    A C function returning [int] is a function from the program state to an
    outcome and a new state: success with its out-parameters, an error status,
    or [NoFuel] when a loop used up its bound.  The state is kept on error, as
    in C. *)

Inductive outcome (A : Type) : Type :=
  | Ok (a : A)
  | Err (e : fffs_status)
  | NoFuel.
Arguments Ok {A} a.
Arguments Err {A} e.
Arguments NoFuel {A}.

Definition M `{Backend} (A : Type) : Type := world -> outcome A * world.

(** The bound of the loops whose number of iterations the code does not
    bound by itself. *)
Class Fuel : Type := fuel : nat.

Section Monad.
Context `{Backend}.

Definition ret {A} (a : A) : M A := fun w => (Ok a, w).

Definition fail {A} (e : fffs_status) : M A := fun w => (Err e, w).

Definition diverge {A} : M A := fun w => (NoFuel, w).

Definition bind {A B} (m : M A) (k : A -> M B) : M B := fun w =>
  match m w with
  | (Ok a, w') => k a w'
  | (Err e, w') => (Err e, w')
  | (NoFuel, w') => (NoFuel, w')
  end.

(** Keep the status of a call instead of returning it. *)
Definition try_ {A} (m : M A) : M (fffs_status + A) := fun w =>
  match m w with
  | (Ok a, w') => (Ok (inr a), w')
  | (Err e, w') => (Ok (inl e), w')
  | (NoFuel, w') => (NoFuel, w')
  end.

Definition get_fs : M fffs := fun w => (Ok (w_fs w), w).

Definition get_geo : M fs_geometry := fun w => (Ok (fs_geo (w_fs w)), w).

Definition mod_fs (f : fffs -> fffs) : M unit := fun w =>
  (Ok tt, mk_world (w_ctx w) (f (w_fs w)) (w_files w)).

Definition mod_log (f : fs_log_state -> fs_log_state) : M unit :=
  mod_fs (fun s => set_fs_log (f (fs_log s)) s).

Definition mod_alloc (f : fs_alloc_state -> fs_alloc_state) : M unit :=
  mod_fs (fun s => set_fs_alloc (f (fs_alloc s)) s).

Definition mod_gc (f : fs_gc_state -> fs_gc_state) : M unit :=
  mod_fs (fun s => set_fs_gc (f (fs_gc s)) s).

Definition mod_info (f : fs_info_state -> fs_info_state) : M unit :=
  mod_fs (fun s => set_fs_info (f (fs_info s)) s).

Definition get_files : M (gmap Z fffs_file) := fun w => (Ok (w_files w), w).

(** [*file] for a handle identifier; an identifier that was never opened
    reads as a zeroed handle. *)
Definition file_of (files : gmap Z fffs_file) (id : Z) : fffs_file :=
  default file_zero (files !! id).

Definition get_file (id : Z) : M fffs_file := fun w =>
  (Ok (file_of (w_files w) id), w).

Definition put_file (id : Z) (f : fffs_file) : M unit := fun w =>
  (Ok tt, mk_world (w_ctx w) (w_fs w) (<[id := f]> (w_files w))).

Definition mod_file (id : Z) (g : fffs_file -> fffs_file) : M unit := fun w =>
  (Ok tt, mk_world (w_ctx w) (w_fs w)
    (<[id := g (file_of (w_files w) id)]> (w_files w))).
End Monad.

Notation "x <- m ;; k" := (bind m (fun x => k))
  (at level 100, m at next level, right associativity) : fffs_scope.
Notation "'let*' p := m 'in' k" := (bind m (fun p => k))
  (at level 100, p pattern, m at next level, k at level 200,
   right associativity) : fffs_scope.
Notation "m ;; k" := (bind m (fun _ => k)) : fffs_scope.

#[global] Open Scope fffs_scope.

(** [if (c) { m }] and [if (c) return e] *)
Definition when `{Backend} (c : bool) (m : M unit) : M unit :=
  if c then m else ret tt.

Definition guard_err `{Backend} (c : bool) (e : fffs_status) : M unit :=
  if c then fail e else ret tt.

(** [(void)m()] for a function that cannot diverge *)
Definition ignore `{Backend} {A} (m : M A) : M unit := try_ m ;; ret tt.
