(* ===== verification/Logic.v ===== *)
(** * A program logic for the monad

    Weakest preconditions for total correctness: the call returns a value that
    satisfies [Q] or an error that satisfies [E], and no loop runs out of
    bound.  [keeps R m] says that [m], started in a state with [R w w],
    terminates and relates the states before and after by [R], whatever it
    returns.  [R] is transitive and reflexive on the states it relates, so that
    its domain [R w w] is an invariant. *)

From S2P Require Export Types.

Section Wp.
Context `{Backend}.

Definition wp {A} (m : M A) (Q : A -> world -> Prop)
    (E : fffs_status -> world -> Prop) (w : world) : Prop :=
  match m w with
  | (Ok a, w') => Q a w'
  | (Err e, w') => E e w'
  | (NoFuel, _) => False
  end.

(** What a [wp] with no error says about the result. *)
Lemma wp_returns {A} (m : M A) (Q : A -> world -> Prop) w :
  wp m Q (fun _ _ => False) w ->
  exists a w', m w = (Ok a, w') /\ Q a w'.
Proof. unfold wp. destruct (m w) as [[a|e|] w']; [eauto | done..]. Qed.

Lemma returns_wp {A} (m : M A) (Q : A -> world -> Prop) E w a w' :
  m w = (Ok a, w') -> Q a w' -> wp m Q E w.
Proof. unfold wp. by intros ->. Qed.

Lemma wp_fails {A} (m : M A) (E : fffs_status -> world -> Prop) w :
  wp m (fun _ _ => False) E w ->
  exists e w', m w = (Err e, w') /\ E e w'.
Proof. unfold wp. destruct (m w) as [[a|e|] w']; [done | eauto | done]. Qed.

(** The call terminates. *)
Definition total {A} (m : M A) : Prop :=
  forall w, wp m (fun _ _ => True) (fun _ _ => True) w.

Definition keeps (R : world -> world -> Prop) {A} (m : M A) : Prop :=
  forall w, R w w -> wp m (fun _ w' => R w w') (fun _ w' => R w w') w.

(** A relation between the states before and after a step. *)
Class StepRel (R : world -> world -> Prop) : Prop := {
  step_trans :: Transitive R;
  step_refl : forall w w', R w w' -> R w' w';
}.

Lemma wp_ret {A} (a : A) Q E w : Q a w -> wp (ret a) Q E w.
Proof. done. Qed.

Lemma wp_fail {A} e (Q : A -> world -> Prop) E w :
  E e w -> wp (fail e) Q E w.
Proof. done. Qed.

Lemma wp_bind {A B} (m : M A) (k : A -> M B) Q E w :
  wp m (fun a => wp (k a) Q E) E w -> wp (bind m k) Q E w.
Proof. unfold wp, bind. by destruct (m w) as [[a|e|] w']. Qed.

Lemma wp_bind_inv {A B} (m : M A) (k : A -> M B) Q E w :
  wp (bind m k) Q E w -> wp m (fun a => wp (k a) Q E) E w.
Proof. unfold wp, bind. by destruct (m w) as [[a|e|] w']. Qed.

Lemma bind_ok {A B} (f : M A) (k : A -> M B) w b w' :
  bind f k w = (Ok b, w') -> exists a w1, f w = (Ok a, w1) /\ k a w1 = (Ok b, w').
Proof.
  unfold bind. destruct (f w) as [[a | e |] w1]; [| done..]. intros Hk. by exists a, w1.
Qed.

Lemma wp_mono {A} (m : M A) (Q Q' : A -> world -> Prop) E E' w :
  wp m Q E w -> (forall a w', Q a w' -> Q' a w') ->
  (forall e w', E e w' -> E' e w') -> wp m Q' E' w.
Proof. unfold wp. destruct (m w) as [[a|e|] w']; auto. Qed.

Lemma wp_try {A} (m : M A) Q E w :
  wp m (fun a => Q (inr a)) (fun e => Q (inl e)) w -> wp (try_ m) Q E w.
Proof. unfold wp, try_. by destruct (m w) as [[a|e|] w']. Qed.

(** What is known of every result of the call. *)
Lemma wp_result {A} (m : M A) (P : A -> Prop) Q E w :
  (forall a w', m w = (Ok a, w') -> P a) ->
  wp m (fun a w' => P a -> Q a w') E w -> wp m Q E w.
Proof. unfold wp. destruct (m w) as [[a|e|] w']; eauto. Qed.

Lemma wp_get_fs Q E w : Q (w_fs w) w -> wp get_fs Q E w.
Proof. done. Qed.

Lemma wp_get_geo Q E w : Q (fs_geo (w_fs w)) w -> wp get_geo Q E w.
Proof. done. Qed.

Lemma wp_get_files Q E w : Q (w_files w) w -> wp get_files Q E w.
Proof. done. Qed.

Lemma wp_get_file id Q E w :
  Q (file_of (w_files w) id) w -> wp (get_file id) Q E w.
Proof. done. Qed.

Lemma wp_mod_fs f Q E w :
  Q tt (mk_world (w_ctx w) (f (w_fs w)) (w_files w)) -> wp (mod_fs f) Q E w.
Proof. done. Qed.

Lemma wp_mod_file id g Q E w :
  Q tt (mk_world (w_ctx w) (w_fs w)
          (<[id := g (file_of (w_files w) id)]> (w_files w))) ->
  wp (mod_file id g) Q E w.
Proof. done. Qed.

Lemma wp_put_file id f Q E w :
  Q tt (mk_world (w_ctx w) (w_fs w) (<[id := f]> (w_files w))) ->
  wp (put_file id f) Q E w.
Proof. done. Qed.

Lemma wp_when c m Q E w :
  (c = true -> wp m Q E w) -> (c = false -> Q tt w) -> wp (when c m) Q E w.
Proof. intros H1 H2. destruct c; [exact (H1 eq_refl) | exact (H2 eq_refl)]. Qed.

Lemma wp_guard c e Q E w :
  (c = true -> E e w) -> (c = false -> Q tt w) -> wp (guard_err c e) Q E w.
Proof. intros H1 H2. destruct c; [exact (H1 eq_refl) | exact (H2 eq_refl)]. Qed.

Lemma wp_ignore {A} (m : M A) Q E w :
  wp m (fun _ => Q tt) (fun _ => Q tt) w -> wp (ignore m) Q E w.
Proof. unfold wp, ignore, bind, try_. by destruct (m w) as [[a|e|] w']. Qed.

Lemma wp_keeps R {A} (m : M A) (Q : A -> world -> Prop) E w :
  keeps R m -> R w w -> (forall a w', R w w' -> Q a w') ->
  (forall e w', R w w' -> E e w') -> wp m Q E w.
Proof. intros Hk Hw HQ HE. eapply wp_mono; [by apply Hk | auto | auto]. Qed.

Lemma wp_total {A} (m : M A) (Q : A -> world -> Prop)
    (E : fffs_status -> world -> Prop) w :
  total m -> (forall a w', Q a w') -> (forall e w', E e w') -> wp m Q E w.
Proof. intros Hk HQ HE. eapply wp_mono; [apply Hk | auto | auto]. Qed.

(** A terminating call returns a value or an error status. *)
Lemma total_returns {A} (m : M A) w :
  total m ->
  (exists a w', m w = (Ok a, w')) \/ (exists e w', m w = (Err e, w')).
Proof.
  intros Ht. specialize (Ht w). unfold wp in Ht.
  destruct (m w) as [[a|e|] w']; [left; eauto | right; eauto | done].
Qed.

Lemma keeps_weaken (R R' : world -> world -> Prop) {A} (m : M A) :
  (forall w, R' w w -> R w w) ->
  (forall w w', R' w w -> R w w' -> R' w w') -> keeps R m -> keeps R' m.
Proof. intros H1 H2 Hk w Hw. eapply wp_keeps; eauto. Qed.

Section StepRelation.
Context (R : world -> world -> Prop) `{!StepRel R}.

Lemma keeps_ret {A} (a : A) : keeps R (ret a).
Proof. intros w Hw. by apply wp_ret. Qed.

Lemma keeps_fail {A} e : keeps R (@fail _ A e).
Proof. intros w Hw. by apply wp_fail. Qed.

(** What a call keeps after others have kept [R] since [w0]. *)
Lemma keeps_from (w0 : world) {A} (m : M A) (Q : A -> world -> Prop) E w :
  R w0 w -> keeps R m -> (forall a w', R w0 w' -> Q a w') ->
  (forall e w', R w0 w' -> E e w') -> wp m Q E w.
Proof.
  intros H0 Hm HQ HE.
  eapply wp_keeps; [exact Hm | by eapply step_refl | |]; intros x w' H1;
    [apply HQ | apply HE]; by etransitivity.
Qed.

Lemma keeps_bind {A B} (m : M A) (k : A -> M B) :
  keeps R m -> (forall a, keeps R (k a)) -> keeps R (bind m k).
Proof.
  intros Hm Hk w Hw. apply wp_bind.
  eapply wp_keeps; [exact Hm | done | | auto]. intros a w1 H1.
  eapply keeps_from; [exact H1 | apply Hk | |]; auto.
Qed.

Lemma keeps_try {A} (m : M A) : keeps R m -> keeps R (try_ m).
Proof. intros Hm w Hw. apply wp_try. eapply wp_keeps; eauto. Qed.

Lemma keeps_ignore {A} (m : M A) : keeps R m -> keeps R (ignore m).
Proof. intros Hm w Hw. apply wp_ignore. eapply wp_keeps; eauto. Qed.

Lemma keeps_when c m : (c = true -> keeps R m) -> keeps R (when c m).
Proof. intros Hm. destruct c; [by apply Hm | apply keeps_ret]. Qed.

Lemma keeps_guard c e : keeps R (guard_err c e).
Proof. destruct c; [apply keeps_fail | apply keeps_ret]. Qed.

Lemma keeps_get_fs : keeps R get_fs.
Proof. intros w Hw. by apply wp_get_fs. Qed.

Lemma keeps_get_geo : keeps R get_geo.
Proof. intros w Hw. by apply wp_get_geo. Qed.

Lemma keeps_get_files : keeps R get_files.
Proof. intros w Hw. by apply wp_get_files. Qed.

Lemma keeps_get_file id : keeps R (get_file id).
Proof. intros w Hw. by apply wp_get_file. Qed.
End StepRelation.

(** [keeps] with a postcondition on the value returned. *)
Definition keeps_val (R : world -> world -> Prop) {A} (m : M A)
    (P : A -> Prop) : Prop :=
  forall w, R w w ->
    wp m (fun a w' => R w w' /\ P a) (fun _ w' => R w w') w.

Section KeepsVal.
Context (R : world -> world -> Prop) `{!StepRel R}.

Lemma keeps_val_keeps {A} (m : M A) P : keeps_val R m P -> keeps R m.
Proof.
  intros Hm w Hw. eapply wp_mono; [by apply Hm | by intros ? ? [] | done].
Qed.

Lemma keeps_val_ret {A} (a : A) (P : A -> Prop) : P a -> keeps_val R (ret a) P.
Proof. intros Hp w Hw. by apply wp_ret. Qed.

Lemma keeps_val_fail {A} e (P : A -> Prop) : keeps_val R (fail e) P.
Proof. intros w Hw. by apply wp_fail. Qed.

Lemma keeps_val_bind {A B} (m : M A) (k : A -> M B) (P : A -> Prop)
    (P' : B -> Prop) :
  keeps_val R m P -> (forall a, P a -> keeps_val R (k a) P') ->
  keeps_val R (bind m k) P'.
Proof.
  intros Hm Hk w Hw. apply wp_bind.
  eapply wp_mono; [by apply Hm | | done]. intros a w1 [H1 Hp].
  eapply wp_mono; [eapply (Hk a Hp w1); by eapply step_refl | |].
  - intros b w2 [H2 Hb]. split; [by etransitivity | done].
  - intros e w2 H2. simpl in *. by etransitivity.
Qed.

Lemma keeps_val_bind' {A B} (m : M A) (k : A -> M B) (P' : B -> Prop) :
  keeps R m -> (forall a, keeps_val R (k a) P') -> keeps_val R (bind m k) P'.
Proof.
  intros Hm Hk. apply (keeps_val_bind _ _ (fun _ => True)); [| auto].
  intros w Hw. eapply wp_mono; [by apply Hm | done | done].
Qed.

Lemma keeps_bind_val {A B} (m : M A) (k : A -> M B) (P : A -> Prop) :
  keeps_val R m P -> (forall a, P a -> keeps R (k a)) -> keeps R (bind m k).
Proof.
  intros Hm Hk. apply (keeps_val_keeps _ (fun _ => True)).
  eapply keeps_val_bind; [exact Hm |]. intros a Ha w Hw.
  eapply wp_mono; [by apply Hk | done | done].
Qed.
End KeepsVal.

Lemma keeps_terminates (R : world -> world -> Prop) {A} (m : M A) w :
  keeps R m -> R w w -> fst (m w) <> NoFuel.
Proof.
  intros Hk Hw. specialize (Hk w Hw). unfold wp in Hk.
  by destruct (m w) as [[a|e|] w'].
Qed.

(** ** The state that an operation leaves alone *)

(** The geometry a successful mount establishes. *)
Class GeoOk (g : fs_geometry) : Prop := {
  geo_shift : 0 <= sector_shift g <= FFFS_MAX_SECTOR_SHIFT;
  geo_sector_size : sector_size g = Z.shiftl 256 (sector_shift g);
  geo_index : 2 <= index_sectors g <= 15;
  geo_count : index_sectors g <= sector_count g <= UINT16_MAX;
  geo_image : sector_count g * sector_size g = be_size;
  geo_scratch : FFFS_MIN_SCRATCH_SIZE <= scratch_size g;
}.

(** [struct fffs] without the scratch buffer. *)
Definition fs_core (fs : fffs) : fffs :=
  set_scratch [] (set_scratch_serial 0 fs).

(** Relations between states mounted with the geometry [g]: only the device
    and the scratch buffer change; the handles stay; everything may change
    but the geometry. *)
Record only_device (g : fs_geometry) (w w' : world) : Prop := {
  od_geo : fs_geo (w_fs w) = g;
  od_core : fs_core (w_fs w') = fs_core (w_fs w);
  od_files : w_files w' = w_files w;
}.

Record same_files (g : fs_geometry) (w w' : world) : Prop := {
  sf_geo : fs_geo (w_fs w) = g;
  sf_same : fs_geo (w_fs w') = g;
  sf_files : w_files w' = w_files w;
}.

Record same_mount (g : fs_geometry) (w w' : world) : Prop := {
  sm_geo : fs_geo (w_fs w) = g;
  sm_same : fs_geo (w_fs w') = g;
}.

Class MountRel (g : fs_geometry) (R : world -> world -> Prop) : Prop := {
  mr_step :: StepRel R;
  mr_geo : forall w w', R w w' -> fs_geo (w_fs w) = g;
}.

Lemma fs_core_geo fs fs' : fs_core fs' = fs_core fs -> fs_geo fs' = fs_geo fs.
Proof. intros Heq. exact (f_equal fs_geo Heq). Qed.

#[global] Instance only_device_rel g : MountRel g (only_device g).
Proof.
  split; [split |].
  - intros w1 w2 w3 [] []. split; congruence.
  - intros w w' [Hg Hc Hf]. split; [| done..].
    by rewrite (fs_core_geo _ _ Hc).
  - by intros w w' [].
Qed.

#[global] Instance same_files_rel g : MountRel g (same_files g).
Proof.
  split; [split |].
  - intros w1 w2 w3 [] []. split; congruence.
  - intros w w' []. by split.
  - by intros w w' [].
Qed.

#[global] Instance same_mount_rel g : MountRel g (same_mount g).
Proof.
  split; [split |].
  - intros w1 w2 w3 [] []. split; congruence.
  - intros w w' []. by split.
  - by intros w w' [].
Qed.

Lemma only_device_same_files g w w' : only_device g w w' -> same_files g w w'.
Proof. intros [Hg Hc Hf]. apply fs_core_geo in Hc. split; congruence. Qed.

Lemma keeps_device_files g {A} (m : M A) :
  keeps (only_device g) m -> keeps (same_files g) m.
Proof.
  apply keeps_weaken.
  - intros w []. by split.
  - intros w w' _. apply only_device_same_files.
Qed.

Lemma keeps_files_mount g {A} (m : M A) :
  keeps (same_files g) m -> keeps (same_mount g) m.
Proof.
  apply keeps_weaken; [by intros w [] | by intros w w' _ []].
Qed.

Section MountRelation.
Context g (R : world -> world -> Prop) `{!MountRel g R}.

Lemma keeps_geo_bind {A} (k : fs_geometry -> M A) :
  keeps R (k g) -> keeps R (bind get_geo k).
Proof.
  intros Hk w Hw. apply wp_bind, wp_get_geo.
  rewrite (mr_geo _ _ Hw). by apply Hk.
Qed.

Lemma keeps_fs_bind {A} (k : fffs -> M A) :
  (forall fs, fs_geo fs = g -> keeps R (k fs)) -> keeps R (bind get_fs k).
Proof.
  intros Hk w Hw. apply wp_bind, wp_get_fs.
  apply Hk; [by apply (mr_geo _ _ Hw) | done].
Qed.
End MountRelation.
End Wp.

Create HintDb fffs_keeps discriminated.
#[export] Hint Resolve keeps_ret keeps_fail keeps_guard keeps_get_fs
  keeps_get_geo keeps_get_files keeps_get_file : fffs_keeps.
#[export] Hint Extern 1 (StepRel _) => typeclasses eauto : fffs_keeps.
#[export] Hint Resolve keeps_device_files keeps_files_mount | 10 : fffs_keeps.

(** One step of a [keeps] goal: the structure of the program, then the hint
    database for the calls.  [keeps_special] is redefined by the components
    for the calls whose result bounds the loop that follows. *)
Ltac keeps_special := fail.

Ltac keeps_step :=
  first [keeps_special |
  match goal with
  | |- keeps _ (bind get_geo _) => apply (keeps_geo_bind _ _); cbv beta zeta
  | |- keeps _ (bind get_fs _) =>
      apply (keeps_fs_bind _ _);
      let fs := fresh "fs" in let H := fresh "Hfs" in
      intros fs H; cbv beta zeta; rewrite ?H
  | |- keeps _ (bind _ _) =>
      apply (keeps_bind _); [| let a := fresh "a" in intros a; cbv beta zeta]
  | |- keeps _ (try_ _) => apply (keeps_try _)
  | |- keeps _ (ignore _) => apply (keeps_ignore _)
  | |- keeps _ (when _ _) => apply (keeps_when _); intros ?
  | |- keeps _ (ret _) => apply (keeps_ret _)
  | |- keeps _ (fail _) => apply (keeps_fail _)
  | |- keeps _ (guard_err _ _) => apply (keeps_guard _)
  | |- keeps _ (let '(_, _) := ?p in _) => destruct p
  | |- keeps _ (if ?c then _ else _) =>
      first [progress cbn [negb andb orb] | destruct c]
  | |- keeps _ (match ?x with _ => _ end) => destruct x
  | |- keeps _ _ => solve [eauto 4 with fffs_keeps]
  end].

Ltac keeps_tac := intros; cbv zeta; repeat keeps_step.

(** One step of a [wp] goal. *)
Ltac wp_step :=
  match goal with
  | |- wp (bind _ _) _ _ _ => apply wp_bind
  | |- wp (ret _) _ _ _ => apply wp_ret
  | |- wp (fail _) _ _ _ => apply wp_fail
  | |- wp (try_ _) _ _ _ => apply wp_try
  | |- wp (ignore _) _ _ _ => apply wp_ignore
  | |- wp get_fs _ _ _ => apply wp_get_fs
  | |- wp get_geo _ _ _ => apply wp_get_geo
  | |- wp get_files _ _ _ => apply wp_get_files
  | |- wp (get_file _) _ _ _ => apply wp_get_file
  | |- wp (mod_fs _) _ _ _ => apply wp_mod_fs
  | |- wp (mod_file _ _) _ _ _ => apply wp_mod_file
  | |- wp (put_file _ _) _ _ _ => apply wp_put_file
  | |- wp (when _ _) _ _ _ => apply wp_when; intros ?
  | |- wp (guard_err _ _) _ _ _ => apply wp_guard; intros ?
  end.
