(* ===== verification/Nor.v ===== *)
(** * NOR flash

    What the library relies on from the application's flash device, as
    documented for the backend of the test harness ([docs/verify_flash_api.md],
    [include/fastffs/verify_flash.h]): reads are byte-addressed, programs are
    aligned to the program granule and can only clear bits, erases are
    sector-aligned and set every byte to [0xff].  [NorFlash] states it as laws
    over the [Backend] callbacks; [dev_backend] is a device that satisfies
    them, with one injected failure. *)

From S2P Require Export Logic.

(** [n] consecutive addresses from [off]. *)
Definition addrs (off n : Z) : list Z :=
  (fun i => off + Z.of_nat i) <$> seq 0 (Z.to_nat n).

Definition is_bytes (l : list Z) : Prop := Forall is_u8 l.

(** The bytes of a memory. *)
Definition mem_bytes (m : Z -> Z) (off n : Z) : list Z := m <$> addrs off n.

(** The effect of programming and of erasing. *)
Definition mem_program (m : Z -> Z) (off : Z) (buf : list Z) (a : Z) : Z :=
  if (off <=? a) && (a <? off + zlen buf)
  then Z.land (m a) (byte_at buf (a - off)) else m a.

Definition mem_erase (m : Z -> Z) (off n : Z) (a : Z) : Z :=
  if (off <=? a) && (a <? off + n) then 0xff else m a.

Class NorFlash `{Backend} : Type := {
  nor_ok : be_ctx -> Prop;
  nor_mem : be_ctx -> Z -> Z;
  nor_byte : forall c a, nor_ok c -> is_u8 (nor_mem c a);
  nor_read : forall c off n,
    nor_ok c -> 0 <= off -> 0 <= n -> off + n <= be_size ->
    exists c', be_read c off n = (0, mem_bytes (nor_mem c) off n, c') /\
      nor_ok c' /\ forall a, nor_mem c' a = nor_mem c a;
  nor_program : forall c off buf,
    nor_ok c -> 0 <= off -> off + zlen buf <= be_size -> is_bytes buf ->
    off mod be_granule = 0 -> zlen buf mod be_granule = 0 ->
    exists c', be_program c off buf = (0, c') /\
      nor_ok c' /\ forall a, nor_mem c' a = mem_program (nor_mem c) off buf a;
  nor_unit : Z;
  nor_erase : forall c off n,
    nor_ok c -> 0 <= off -> 0 <= n -> off + n <= be_size ->
    off mod nor_unit = 0 -> n mod nor_unit = 0 ->
    exists c', be_erase c off n = (0, c') /\
      nor_ok c' /\ forall a, nor_mem c' a = mem_erase (nor_mem c) off n a;
}.

(** The erase unit of the device divides the sectors of the file system. *)
Class EraseUnit `{NorFlash} (g : fs_geometry) : Prop := {
  unit_pos : 0 < nor_unit;
  unit_sector : sector_size g mod nor_unit = 0;
}.

(** A backend that [fffs_valid_backend] accepts. *)
Class ValidBackend `{Backend} : Prop := {
  granule_pos : 0 < be_granule;
  granule_le : be_granule <= FFFS_FILE_CACHE_SIZE;
  size_pos : 0 < be_size;
  size_granule : be_size mod be_granule = 0;
}.

(** ** Address ranges *)

Lemma length_addrs off n : length (addrs off n) = Z.to_nat n.
Proof. unfold addrs. by rewrite length_fmap, length_seq. Qed.

Lemma zlen_mem_bytes m off n : 0 <= n -> zlen (mem_bytes m off n) = n.
Proof. intros. unfold zlen, mem_bytes. rewrite length_fmap, length_addrs. lia. Qed.

Lemma byte_at_mem_bytes m off n i :
  0 <= i < n -> byte_at (mem_bytes m off n) i = m (off + i).
Proof.
  intros Hi. unfold byte_at, mem_bytes, addrs.
  rewrite nth_lookup, !list_lookup_fmap.
  rewrite lookup_seq_lt by lia. simpl. f_equal. lia.
Qed.

Lemma mem_bytes_ext m m' off n :
  (forall a, off <= a < off + n -> m a = m' a) ->
  mem_bytes m off n = mem_bytes m' off n.
Proof.
  intros Heq. destruct (Z.le_gt_cases 0 n) as [Hn|Hn].
  - apply list_eq_byte_at; [by rewrite !zlen_mem_bytes by lia|].
    rewrite zlen_mem_bytes by lia. intros i Hi.
    rewrite !byte_at_mem_bytes by lia. apply Heq. lia.
  - unfold mem_bytes, addrs. by replace (Z.to_nat n) with O by lia.
Qed.

Lemma sublist_mem_bytes m off n i k :
  0 <= i -> 0 <= k -> i + k <= n ->
  sublist i k (mem_bytes m off n) = mem_bytes m (off + i) k.
Proof.
  intros. apply list_eq_byte_at.
  - rewrite zlen_sublist, zlen_mem_bytes; rewrite ?zlen_mem_bytes; lia.
  - intros j. rewrite zlen_sublist by (rewrite ?zlen_mem_bytes; lia). intros Hj.
    rewrite byte_at_sublist, !byte_at_mem_bytes by lia. f_equal. lia.
Qed.

Lemma is_bytes_mem_bytes m off n :
  (forall a, is_u8 (m a)) -> is_bytes (mem_bytes m off n).
Proof. intros Hm. unfold is_bytes, mem_bytes. rewrite Forall_fmap.
  apply Forall_true. intros. apply Hm. Qed.

(** ** A simulated device

    Memory as a finite map (absent bytes are erased); [dv_fault = Some k] makes
    the operation after [k] further operations fail, once. *)

Record dev : Type := mk_dev {
  dv_mem : gmap Z Z;
  dv_fault : option nat;
}.

Definition dev_byte (m : gmap Z Z) (a : Z) : Z := default 0xff (m !! a).

Definition dev_blank : dev := mk_dev ∅ None.

(** Whether the operation fails, and the state of the fault counter after. *)
Definition dev_tick (d : dev) : bool * option nat :=
  match dv_fault d with
  | Some O => (true, None)
  | Some (S k) => (false, Some k)
  | None => (false, None)
  end.

Fixpoint dev_program_bytes (m : gmap Z Z) (off : Z) (buf : list Z) : gmap Z Z :=
  match buf with
  | [] => m
  | b :: rest =>
      dev_program_bytes (<[off := Z.land (dev_byte m off) b]> m) (off + 1) rest
  end.

Fixpoint dev_erase_bytes (m : gmap Z Z) (off : Z) (n : nat) : gmap Z Z :=
  match n with
  | O => m
  | S n' => dev_erase_bytes (delete off m) (off + 1) n'
  end.

Definition dev_backend (size granule : Z) : Backend := {|
  be_ctx := dev;
  be_size := size;
  be_granule := granule;
  be_read d off n :=
    let '(bad, fault) := dev_tick d in
    (if bad then -1 else 0, mem_bytes (dev_byte (dv_mem d)) off n,
     mk_dev (dv_mem d) fault);
  be_program d off buf :=
    let '(bad, fault) := dev_tick d in
    if bad then (-1, mk_dev (dv_mem d) fault)
    else (0, mk_dev (dev_program_bytes (dv_mem d) off buf) fault);
  be_erase d off n :=
    let '(bad, fault) := dev_tick d in
    if bad then (-1, mk_dev (dv_mem d) fault)
    else (0, mk_dev (dev_erase_bytes (dv_mem d) off (Z.to_nat n)) fault);
|}.

Definition dev_ok (d : dev) : Prop :=
  dv_fault d = None /\ forall a, is_u8 (dev_byte (dv_mem d) a).

Lemma dev_byte_program m off buf a :
  dev_byte (dev_program_bytes m off buf) a =
  mem_program (dev_byte m) off buf a.
Proof.
  unfold mem_program. revert m off. induction buf as [|b buf IH]; intros m off.
  - simpl. rewrite zlen_nil. destruct (Z.leb_spec off a), (Z.ltb_spec a (off + 0)); simpl; done || lia.
  - simpl. rewrite IH, zlen_cons. clear IH. unfold dev_byte.
    destruct (decide (a = off)) as [->|Hne].
    + rewrite lookup_insert_eq. simpl.
      replace (off - off) with 0 by lia. rewrite byte_at_cons_0.
      pose proof (zlen_nonneg buf).
      destruct (Z.leb_spec (off + 1) off), (Z.leb_spec off off),
        (Z.ltb_spec off (off + (1 + zlen buf))); simpl; done || lia.
    + rewrite lookup_insert_ne by done.
      destruct (Z.leb_spec (off + 1) a), (Z.leb_spec off a),
        (Z.ltb_spec a (off + 1 + zlen buf)), (Z.ltb_spec a (off + (1 + zlen buf)));
        simpl; try lia; try done.
      rewrite byte_at_cons_pos by lia. do 2 f_equal. lia.
Qed.

Lemma dev_byte_erase m off n a :
  dev_byte (dev_erase_bytes m off n) a = mem_erase (dev_byte m) off (Z.of_nat n) a.
Proof.
  unfold mem_erase. revert m off. induction n as [|n IH]; intros m off.
  - destruct (Z.leb_spec off a), (Z.ltb_spec a (off + Z.of_nat 0)); simpl;
      done || lia.
  - cbn [dev_erase_bytes]. rewrite IH. unfold dev_byte.
    destruct (decide (a = off)) as [->|Hne].
    + rewrite lookup_delete_eq.
      destruct (Z.leb_spec (off + 1) off), (Z.leb_spec off off),
        (Z.ltb_spec off (off + Z.of_nat (S n))); simpl; done || lia.
    + rewrite lookup_delete_ne by done.
      destruct (Z.leb_spec (off + 1) a), (Z.leb_spec off a),
        (Z.ltb_spec a (off + 1 + Z.of_nat n)),
        (Z.ltb_spec a (off + Z.of_nat (S n))); simpl; done || lia.
Qed.

Lemma mem_program_u8 m off buf a :
  (forall a, is_u8 (m a)) -> is_bytes buf -> is_u8 (mem_program m off buf a).
Proof.
  intros Hm Hb. unfold mem_program.
  destruct (Z.leb_spec off a), (Z.ltb_spec a (off + zlen buf)); simpl; auto.
  apply is_u8_land. apply byte_at_is_u8; [done | lia].
Qed.

#[global] Program Instance dev_nor (size granule : Z)
  : @NorFlash (dev_backend size granule) := {|
  nor_ok := dev_ok;
  nor_mem := fun d => dev_byte (dv_mem d);
  nor_unit := 1;
|}.
Next Obligation. intros size granule c a [_ Hb]. apply Hb. Qed.
Next Obligation.
  intros size granule c off n [Hf Hb] _ _ _. simpl. unfold dev_tick.
  rewrite Hf. eexists. split; [done|]. done.
Qed.
Next Obligation.
  intros size granule c off buf [Hf Hb] _ _ Hbuf _ _. simpl. unfold dev_tick.
  rewrite Hf. eexists. split; [done|]. split.
  - split; [done|]. simpl. intros a. rewrite dev_byte_program.
    by apply mem_program_u8.
  - intros a. apply dev_byte_program.
Qed.
Next Obligation.
  intros size granule c off n [Hf Hb] _ Hn _ _ _. simpl. unfold dev_tick.
  rewrite Hf. eexists. split; [done|].
  assert (Hmem : forall a, dev_byte (dev_erase_bytes (dv_mem c) off (Z.to_nat n)) a
    = mem_erase (dev_byte (dv_mem c)) off n a).
  { intros a. rewrite dev_byte_erase. by rewrite Z2Nat.id. }
  split; [split; [done|] | exact Hmem].
  simpl. intros a. rewrite Hmem. unfold mem_erase.
  case_match; [unfold is_u8; lia | apply Hb].
Qed.

(** ** A concrete mounted device

    A simulated device of eight 256-byte sectors with 4-byte granules, and a
    file system structure mounted on it: the inputs at which the theorems are
    instantiated. *)

Module Demo.
Definition backend : Backend := dev_backend 2048 4.

#[global] Instance valid : @ValidBackend backend.
Proof. split; simpl; lia || reflexivity. Qed.

Definition geo : fs_geometry := mk_geometry 256 8 0 2 false 64 16.

#[global] Instance geo_valid : @GeoOk backend geo.
Proof. split; simpl; lia || reflexivity. Qed.

#[global] Instance erase_unit : @EraseUnit backend (dev_nor 2048 4) geo.
Proof. split; simpl; lia || reflexivity. Qed.

(** A freshly mounted file system over the device state [d]. *)
Definition fs : fffs :=
  mk_fffs geo (mk_log 0 1 0 8 0)
    (mk_alloc (Some (fill 1 3)) 2 0 (fill 5 0) 1)
    (mk_gc 2 walk_zero (replicate 4 candidate_zero))
    (mk_info 0 0 0 256) (replicate 16 (mk_bucket 0 0)) [] (fill 64 0) 0 0.

Definition start (d : dev) : @world backend := @mk_world backend d fs ∅.

Definition blank : @world backend := start dev_blank.

Lemma blank_ok : @nor_ok backend (dev_nor 2048 4) (w_ctx blank).
Proof. split; [reflexivity |]. intros a. apply is_u8_255. Qed.

Lemma blank_mem a : @nor_mem backend (dev_nor 2048 4) (w_ctx blank) a = 0xff.
Proof. reflexivity. Qed.
End Demo.
