(* ===== verification/Bits.v ===== *)
(** * Encodings, mirrored lifecycle bits, bitsets and slot arithmetic

    [src/fffs_internal.h] (little-endian loads and stores, lifecycle pairs),
    [src/fffs_bitmirror.h], [src/fffs_bitset.c], and the slot helpers of
    [src/fffs_index_log.c]. *)

From S2P Require Export Nor.

(** ** Little-endian integers *)

Definition fffs_load_le16 (p : list Z) : Z :=
  u16 (Z.lor (byte_at p 0) (Z.shiftl (byte_at p 1) 8)).

Definition fffs_load_le32 (p : list Z) : Z :=
  Z.lor (Z.lor (Z.lor (byte_at p 0) (Z.shiftl (byte_at p 1) 8))
    (Z.shiftl (byte_at p 2) 16)) (Z.shiftl (byte_at p 3) 24).

Definition fffs_store_le16 (v : Z) : list Z := [u8 v; u8 (Z.shiftr v 8)].

Definition fffs_store_le32 (v : Z) : list Z :=
  [u8 v; u8 (Z.shiftr v 8); u8 (Z.shiftr v 16); u8 (Z.shiftr v 24)].

(** Loads at an offset of a buffer, [fffs_load_le16(p + off)]. *)
Definition load16_at (p : list Z) (off : Z) : Z :=
  fffs_load_le16 (sublist off 2 p).

Definition load32_at (p : list Z) (off : Z) : Z :=
  fffs_load_le32 (sublist off 4 p).

(** ** Mirrored bits *)

Definition fffs_bitmirror_state (value mask : Z) : fffs_bitmirror :=
  let set := Z.land value mask in
  if negb (mask =? 0) && (set =? mask) then FFFS_BITMIRROR_SET
  else if negb (mask =? 0) && (set =? 0) then FFFS_BITMIRROR_CLEARED
  else FFFS_BITMIRROR_MIXED.

Definition fffs_lifecycle_valid_pair (state : Z) : fffs_bitmirror :=
  fffs_bitmirror_state state 0x81.

Definition fffs_lifecycle_tombstone_pair (state : Z) : fffs_bitmirror :=
  fffs_bitmirror_state state 0x42.

Definition fffs_lifecycle_hint_pair (state : Z) : fffs_bitmirror :=
  fffs_bitmirror_state state 0x24.

Definition fffs_lifecycle_is_live (valid_bits tombstone_bits : fffs_bitmirror)
  : bool :=
  bool_decide (valid_bits = FFFS_BITMIRROR_CLEARED) &&
  bool_decide (tombstone_bits = FFFS_BITMIRROR_SET).

(** Liveness of a state byte, as every reader of a footer or record tests it. *)
Definition state_is_live (s : Z) : bool :=
  fffs_lifecycle_is_live (fffs_lifecycle_valid_pair s)
    (fffs_lifecycle_tombstone_pair s).

(** ** Bitsets *)

Abbreviation FFFS_BITSET_WORD_BITS := 32.

Definition fffs_bitset_clear (word_count : Z) : list Z := fill word_count 0.

Definition fffs_bitset_get (words : list Z) (bit : Z) : bool :=
  negb (Z.land (byte_at words (bit / FFFS_BITSET_WORD_BITS))
    (u32 (Z.shiftl 1 (bit mod FFFS_BITSET_WORD_BITS))) =? 0).

Definition fffs_bitset_set (words : list Z) (bit : Z) : list Z :=
  let i := bit / FFFS_BITSET_WORD_BITS in
  <[Z.to_nat i := Z.lor (byte_at words i)
      (u32 (Z.shiftl 1 (bit mod FFFS_BITSET_WORD_BITS)))]> words.

(** ** Slots *)

(** FNV-1a over the bytes of the name, folded to 16 bits. *)
Fixpoint hash16_loop (h : Z) (name : list Z) : Z :=
  match name with
  | [] => h
  | c :: rest => hash16_loop (u32 (Z.lxor h c * 16777619)) rest
  end.

Definition fffs_hash16 (name : list Z) : Z :=
  let h := hash16_loop 2166136261 name in
  u16 (Z.lxor (Z.shiftr h 16) h).

Definition fffs_normalize_slot_base (slot : Z) : Z :=
  if slot =? 0 then 1 else if slot =? UINT16_MAX then 0x7fff else slot.

Definition fffs_next_slot (slot : Z) : Z :=
  let slot := u16 (slot + 1) in
  if (slot =? 0) || (slot =? UINT16_MAX) then 1 else slot.

(** ** Little-endian round trips *)

Lemma is_u8_u8 v : is_u8 (u8 v).
Proof. apply Z.mod_pos_bound. lia. Qed.

Lemma is_bytes_store16 v : Forall is_u8 (fffs_store_le16 v).
Proof. repeat constructor; apply is_u8_u8. Qed.

Lemma is_bytes_store32 v : Forall is_u8 (fffs_store_le32 v).
Proof. repeat constructor; apply is_u8_u8. Qed.

Lemma load_le16_bytes b0 b1 rest :
  is_u8 b0 -> is_u8 b1 -> fffs_load_le16 (b0 :: b1 :: rest) = b0 + b1 * 256.
Proof.
  unfold is_u8. intros H0 H1. unfold fffs_load_le16.
  rewrite byte_at_cons_0, byte_at_cons_pos, byte_at_cons_0 by lia.
  rewrite lor_shiftl by lia. apply u16_small. unfold is_u16. lia.
Qed.

Lemma load_le32_bytes b0 b1 b2 b3 rest :
  is_u8 b0 -> is_u8 b1 -> is_u8 b2 -> is_u8 b3 ->
  fffs_load_le32 (b0 :: b1 :: b2 :: b3 :: rest) =
  b0 + b1 * 256 + b2 * 65536 + b3 * 16777216.
Proof.
  unfold is_u8. intros H0 H1 H2 H3. unfold fffs_load_le32.
  change (Z.lor (Z.lor (Z.lor b0 (Z.shiftl b1 8)) (Z.shiftl b2 16))
    (Z.shiftl b3 24) = b0 + b1 * 256 + b2 * 65536 + b3 * 16777216).
  rewrite (lor_shiftl b0 b1 8), (lor_shiftl _ b2 16), (lor_shiftl _ b3 24) by lia.
  lia.
Qed.

Lemma u8_div v : v / 2 ^ 8 * 256 + u8 v = v.
Proof. unfold u8. pose proof (Z.div_mod v (2 ^ 8)). lia. Qed.

Lemma load_store_le16 v rest :
  is_u16 v -> fffs_load_le16 (fffs_store_le16 v ++ rest) = v.
Proof.
  intros Hv. cbn [fffs_store_le16 app].
  rewrite load_le16_bytes by apply is_u8_u8.
  rewrite Z.shiftr_div_pow2 by lia.
  rewrite (u8_small (v / 2 ^ 8)) by (apply (div_256_range v 8); [lia | done]).
  pose proof (u8_div v). lia.
Qed.

Lemma load_store_le32 v rest :
  is_u32 v -> fffs_load_le32 (fffs_store_le32 v ++ rest) = v.
Proof.
  intros Hv. cbn [fffs_store_le32 app].
  rewrite load_le32_bytes by apply is_u8_u8.
  rewrite !Z.shiftr_div_pow2 by lia.
  replace (v / 2 ^ 16) with (v / 2 ^ 8 / 2 ^ 8) by (by rewrite Z.div_div).
  replace (v / 2 ^ 24) with (v / 2 ^ 8 / 2 ^ 8 / 2 ^ 8)
    by (by rewrite !Z.div_div).
  pose proof (div_256_range v 24 ltac:(lia) Hv) as H1.
  pose proof (div_256_range _ 16 ltac:(lia) H1) as H2.
  pose proof (div_256_range _ 8 ltac:(lia) H2) as H3.
  rewrite (u8_small (v / 2 ^ 8 / 2 ^ 8 / 2 ^ 8)) by done.
  pose proof (u8_div v). pose proof (u8_div (v / 2 ^ 8)).
  pose proof (u8_div (v / 2 ^ 8 / 2 ^ 8)). lia.
Qed.

Lemma zlen_store16 v : zlen (fffs_store_le16 v) = 2.
Proof. done. Qed.

Lemma zlen_store32 v : zlen (fffs_store_le32 v) = 4.
Proof. done. Qed.

(** ** Probe sequence *)

(** The candidate slots of a name, from its base. *)
Fixpoint probe_slot (base : Z) (i : nat) : Z :=
  match i with O => base | S i' => fffs_next_slot (probe_slot base i') end.

Lemma probe_slot_closed base i :
  1 <= base < UINT16_MAX ->
  probe_slot base i = 1 + (base - 1 + Z.of_nat i) mod 65534.
Proof.
  intros Hb. induction i as [|i IH].
  - simpl. rewrite Z.mod_small by lia. lia.
  - cbn [probe_slot]. rewrite IH.
    pose proof (Z.mod_pos_bound (base - 1 + Z.of_nat i) 65534 ltac:(lia)).
    unfold fffs_next_slot.
    replace (base - 1 + Z.of_nat (S i)) with (base - 1 + Z.of_nat i + 1) by lia.
    rewrite (Z.add_mod (base - 1 + Z.of_nat i) 1) by lia.
    change (1 mod 65534) with 1.
    set (r := (base - 1 + Z.of_nat i) mod 65534) in *.
    rewrite u16_small by (unfold is_u16; lia).
    destruct (Z.eqb_spec (1 + r + 1) 0); [lia |].
    destruct (Z.eqb_spec (1 + r + 1) 65535); simpl.
    + replace (r + 1) with 65534 by lia. rewrite Z.mod_same; lia.
    + rewrite (Z.mod_small (r + 1)); lia.
Qed.

Lemma probe_slot_range base i :
  1 <= base < UINT16_MAX -> 1 <= probe_slot base i < UINT16_MAX.
Proof.
  intros Hb. rewrite probe_slot_closed by done.
  pose proof (Z.mod_pos_bound (base - 1 + Z.of_nat i) 65534). lia.
Qed.

Lemma probe_slot_inj base i j :
  1 <= base < UINT16_MAX -> Z.of_nat i < 65534 -> Z.of_nat j < 65534 ->
  probe_slot base i = probe_slot base j -> i = j.
Proof.
  intros Hb Hi Hj. rewrite !probe_slot_closed by done. intros Heq.
  assert (Hm : (base - 1 + Z.of_nat i) mod 65534 =
    (base - 1 + Z.of_nat j) mod 65534) by lia.
  apply Nat2Z.inj.
  pose proof (Z.div_mod (base - 1 + Z.of_nat i) 65534 ltac:(done)).
  pose proof (Z.div_mod (base - 1 + Z.of_nat j) 65534 ltac:(done)). lia.
Qed.

Lemma hash16_range name : 0 <= fffs_hash16 name < FFFS_SLOT_COUNT.
Proof. apply u16_range. Qed.

Lemma normalize_range slot :
  0 <= slot < FFFS_SLOT_COUNT -> 1 <= fffs_normalize_slot_base slot < UINT16_MAX.
Proof.
  unfold fffs_normalize_slot_base. intros Hs.
  destruct (Z.eqb_spec slot 0); [lia |].
  destruct (Z.eqb_spec slot 65535); lia.
Qed.

(** ** Lifecycle bytes under partial programming *)

(** [p] is a state that programming [new] over [old] can leave: every bit that
    the whole program clears is either cleared or still set. *)
Definition torn (old new p : Z) : bool :=
  (Z.land p old =? p) && (Z.land p (Z.land old new) =? Z.land old new).

(** All byte values satisfy the boolean predicate. *)
Definition all_bytes (f : Z -> bool) : bool := forallb f (addrs 0 256).

Lemma all_bytes_spec f p : all_bytes f = true -> is_u8 p -> f p = true.
Proof.
  unfold all_bytes. rewrite forallb_forall. intros Hf Hp. apply Hf.
  unfold addrs. apply list_elem_of_In, list_elem_of_fmap.
  exists (Z.to_nat p). unfold is_u8 in Hp. split; [lia |].
  apply elem_of_seq. lia.
Qed.

(** ** Properties *)

(** C24: crash safety of the lifecycle byte.  Whatever subset of the bits of a
    lifecycle transition reached the flash, a record is live exactly when it
    was before the transition or when the transition completed: a torn commit
    is not live, a torn tombstone is not live, a torn full hint stays live, and
    a tombstone is final. *)
Theorem lifecycle_torn (p : Z) (Hp : is_u8 p) :
  (torn 0xff FFFS_LIFECYCLE_VALID p = true ->
     state_is_live p = (p =? FFFS_LIFECYCLE_VALID)) /\
  (torn FFFS_LIFECYCLE_VALID FFFS_LIFECYCLE_TOMBSTONED p = true ->
     state_is_live p = (p =? FFFS_LIFECYCLE_VALID)) /\
  (torn FFFS_LIFECYCLE_VALID FFFS_LIFECYCLE_FULL p = true ->
     state_is_live p = true) /\
  (torn FFFS_LIFECYCLE_FULL FFFS_LIFECYCLE_TOMBSTONED p = true ->
     state_is_live p = (p =? FFFS_LIFECYCLE_FULL)) /\
  state_is_live (Z.land p FFFS_LIFECYCLE_TOMBSTONED) = false.
Proof.
  assert (Hall : all_bytes (fun p =>
    (negb (torn 0xff FFFS_LIFECYCLE_VALID p) ||
       Bool.eqb (state_is_live p) (p =? FFFS_LIFECYCLE_VALID)) &&
    (negb (torn FFFS_LIFECYCLE_VALID FFFS_LIFECYCLE_TOMBSTONED p) ||
       Bool.eqb (state_is_live p) (p =? FFFS_LIFECYCLE_VALID)) &&
    (negb (torn FFFS_LIFECYCLE_VALID FFFS_LIFECYCLE_FULL p) ||
       state_is_live p) &&
    (negb (torn FFFS_LIFECYCLE_FULL FFFS_LIFECYCLE_TOMBSTONED p) ||
       Bool.eqb (state_is_live p) (p =? FFFS_LIFECYCLE_FULL)) &&
    negb (state_is_live (Z.land p FFFS_LIFECYCLE_TOMBSTONED))) = true)
    by (vm_compute; reflexivity).
  pose proof (all_bytes_spec _ _ Hall Hp) as H. cbv beta in H.
  rewrite !andb_true_iff, negb_true_iff in H.
  destruct H as [[[[H1 H2] H3] H4] H5].
  rewrite orb_true_iff, negb_true_iff in H1, H2, H3, H4.
  repeat split; [..| exact H5]; intros Ht; rewrite Ht in *.
  - destruct H1 as [|H1]; [done | by apply eqb_prop].
  - destruct H2 as [|H2]; [done | by apply eqb_prop].
  - destruct H3 as [|H3]; done.
  - destruct H4 as [|H4]; [done | by apply eqb_prop].
Qed.

Lemma lifecycle_torn_witness :
  is_u8 0xfe /\ torn 0xff FFFS_LIFECYCLE_VALID 0xfe = true /\
  state_is_live 0xfe = false.
Proof.
  assert (Hp : is_u8 0xfe) by (unfold is_u8; lia).
  split; [exact Hp | split; [reflexivity |]].
  exact (proj1 (lifecycle_torn 0xfe Hp) eq_refl).
Defined.

(** C31: the probe window.  The candidates that the namespace probes for a name
    are pairwise distinct slots, and none is the reserved slot 0 or 0xffff. *)
Theorem probe_window_distinct (name : list Z) (i j : nat) :
  let base := fffs_normalize_slot_base (fffs_hash16 name) in
  Z.of_nat i <= FFFS_MAX_PROBE_DISTANCE -> Z.of_nat j <= FFFS_MAX_PROBE_DISTANCE ->
  0 < probe_slot base i < UINT16_MAX /\
  (probe_slot base i = probe_slot base j -> i = j).
Proof.
  intros base Hi Hj.
  assert (Hb : 1 <= base < UINT16_MAX) by apply normalize_range, hash16_range.
  split; [pose proof (probe_slot_range base i Hb); lia |].
  apply probe_slot_inj; [done | lia..].
Qed.

Lemma probe_window_distinct_witness :
  0 < probe_slot (fffs_normalize_slot_base (fffs_hash16 [97])) 50 < UINT16_MAX.
Proof.
  refine (proj1 (probe_window_distinct [97] 50 0 _ _)); vm_compute; discriminate.
Defined.
