(* ===== verification/Flash.v ===== *)
(** * Flash access

    [src/fffs_flash.c]: backend status mapping, reads, plain and aligned
    programming, scratch invalidation; the blank check of
    [src/fffs_alloc.c]. *)

From S2P Require Export Bits Nor.

Definition fffs_map_backend_status (status : Z) : fffs_status :=
  if status =? 0 then FFFS_OK else FFFS_ERR_IO.

Fixpoint fffs_flash_bytes_erased (bytes : list Z) : bool :=
  match bytes with
  | [] => true
  | b :: rest => if negb (b =? 0xff) then false else fffs_flash_bytes_erased rest
  end.

Section Flash.
Context `{Backend}.

Definition fffs_valid_backend : bool :=
  negb (be_size =? 0) && negb (be_granule =? 0) &&
  (be_granule <=? FFFS_FILE_CACHE_SIZE) && (be_size mod be_granule =? 0).

(** The three callbacks, with the status mapped by
    [fffs_map_backend_status].  [raw_read] keeps the buffer contents on
    failure. *)
Definition raw_read (offset size : Z) : M (fffs_status * list Z) := fun w =>
  let '(st, buf, c) := be_read (w_ctx w) offset size in
  (Ok (fffs_map_backend_status st, buf), mk_world c (w_fs w) (w_files w)).

Definition backend_program (offset : Z) (buffer : list Z) : M unit := fun w =>
  let '(st, c) := be_program (w_ctx w) offset buffer in
  let w' := mk_world c (w_fs w) (w_files w) in
  match fffs_map_backend_status st with
  | FFFS_OK => (Ok tt, w')
  | e => (Err e, w')
  end.

Definition backend_erase (offset size : Z) : M unit := fun w =>
  let '(st, c) := be_erase (w_ctx w) offset size in
  let w' := mk_world c (w_fs w) (w_files w) in
  match fffs_map_backend_status st with
  | FFFS_OK => (Ok tt, w')
  | e => (Err e, w')
  end.

Definition check (st : fffs_status) : M unit :=
  match st with FFFS_OK => ret tt | e => fail e end.

Definition fffs_flash_read (offset size : Z) : M (list Z) :=
  let* (st, buf) := raw_read offset size in
  check st ;; ret buf.

Definition fffs_flash_program (offset : Z) (buffer : list Z) : M unit :=
  backend_program offset buffer.

(** The chunk loop of [fffs_backend_program_aligned]; every round consumes
    at least one byte, so the bound is the buffer size. *)
Fixpoint program_aligned_loop (n : nat) (offset : Z) (src : list Z)
    (done : Z) : M unit :=
  if done <? zlen src then
    match n with
    | O => diverge
    | S n' =>
        let granule := be_granule in
        let pos := offset + done in
        let base := pos - pos mod granule in
        let in_chunk := pos - base in
        let k := Z.min (granule - in_chunk) (zlen src - done) in
        let chunk := splice in_chunk (sublist done k src) (fill granule 0xff) in
        backend_program base chunk ;;
        program_aligned_loop n' offset src (done + k)
    end
  else ret tt.

Definition fffs_backend_program_aligned (offset : Z) (buffer : list Z)
  : M unit :=
  if zlen buffer =? 0 then ret tt
  else if (offset mod be_granule =? 0) && (zlen buffer mod be_granule =? 0)
  then backend_program offset buffer
  else program_aligned_loop (length buffer) offset buffer 0.

Definition fffs_flash_program_aligned (offset : Z) (buffer : list Z)
  : M unit :=
  fffs_backend_program_aligned offset buffer.

Definition fffs_scratch_bump : M unit :=
  mod_fs (fun s =>
    let n := u32 (scratch_serial s + 1) in
    set_scratch_serial (if n =? 0 then 1 else n) s).

(** [fffs_flash_read(fs, offset, fs->scratch, size)]: the data lands in the
    caller's scratch buffer. *)
Definition flash_read_scratch (offset size : Z) : M (list Z) :=
  let* (st, buf) := raw_read offset size in
  mod_fs (fun s => set_scratch (splice 0 buf (scratch s)) s) ;;
  check st ;; ret buf.

(** [fffs_alloc.c]: blank check of a span through the scratch buffer. *)
Fixpoint span_is_erased_loop (n : nat) (offset size : Z) : M unit :=
  if 0 <? size then
    match n with
    | O => diverge
    | S n' =>
        g <- get_geo ;;
        let k := Z.min size (scratch_size g) in
        chunk <- flash_read_scratch offset k ;;
        fffs_scratch_bump ;;
        if negb (fffs_flash_bytes_erased chunk) then fail FFFS_ERR_NO_SPACE
        else span_is_erased_loop n' (offset + k) (size - k)
    end
  else ret tt.

Definition fffs_flash_span_is_erased (offset size : Z) : M unit :=
  span_is_erased_loop (Z.to_nat size) offset size.
End Flash.

(** ** Termination and frame *)

Section FlashKeeps.
Context `{Backend} (g : fs_geometry).

Lemma valid_backend_class :
  0 <= be_size -> 0 <= be_granule -> fffs_valid_backend = true -> ValidBackend.
Proof.
  unfold fffs_valid_backend. rewrite !andb_true_iff, !negb_true_iff,
    !Z.eqb_neq, Z.leb_le, Z.eqb_eq. intros Hs Hg [[[H1 H2] H3] H4].
  split; [lia | done | lia | done].
Qed.

Lemma keeps_raw_read off n : keeps (only_device g) (raw_read off n).
Proof.
  intros w [Hg _ _]. unfold wp, raw_read. by destruct (be_read _ _ _) as [[]].
Qed.

Lemma keeps_backend_program off buf :
  keeps (only_device g) (backend_program off buf).
Proof.
  intros w [Hg _ _]. unfold wp, backend_program.
  destruct (be_program _ _ _). by destruct (fffs_map_backend_status _).
Qed.

Lemma keeps_backend_erase off n : keeps (only_device g) (backend_erase off n).
Proof.
  intros w [Hg _ _]. unfold wp, backend_erase. destruct (be_erase _ _ _).
  by destruct (fffs_map_backend_status _).
Qed.

Lemma keeps_scratch (f : fffs -> fffs) :
  (forall fs, fs_core (f fs) = fs_core fs) -> keeps (only_device g) (mod_fs f).
Proof. intros Hf w [Hg _ _]. apply wp_mod_fs. by split; simpl. Qed.

Lemma keeps_check st : keeps (only_device g) (check st).
Proof. destruct st; [apply keeps_ret | apply keeps_fail..]; apply _. Qed.

Lemma keeps_scratch_bump : keeps (only_device g) fffs_scratch_bump.
Proof. by apply keeps_scratch. Qed.
End FlashKeeps.

#[export] Hint Resolve keeps_raw_read keeps_backend_program keeps_backend_erase
  keeps_check keeps_scratch_bump : fffs_keeps.

Section FlashTotal.
Context `{Backend} (g : fs_geometry).

Lemma keeps_flash_read off n : keeps (only_device g) (fffs_flash_read off n).
Proof. unfold fffs_flash_read. keeps_tac. Qed.

Lemma keeps_read_scratch off n : keeps (only_device g) (flash_read_scratch off n).
Proof. unfold flash_read_scratch. keeps_tac. by apply keeps_scratch. Qed.

(** Every round of the chunk loop consumes a byte. *)
Lemma keeps_program_loop n off src done :
  0 < be_granule -> zlen src - done <= Z.of_nat n ->
  keeps (only_device g) (program_aligned_loop n off src done).
Proof.
  intros Hg. revert done. induction n as [|n IH]; intros done Hn; simpl.
  - destruct (Z.ltb_spec done (zlen src)); [lia | keeps_tac].
  - destruct (Z.ltb_spec done (zlen src)); [| keeps_tac].
    apply (keeps_bind _); [keeps_tac | intros _]. apply IH.
    pose proof (Z.mod_pos_bound (off + done) be_granule Hg). lia.
Qed.

Context `{!ValidBackend} `{!GeoOk g}.

Lemma keeps_program_aligned off buf :
  keeps (only_device g) (fffs_backend_program_aligned off buf).
Proof.
  unfold fffs_backend_program_aligned. keeps_tac.
  apply keeps_program_loop; [apply granule_pos | unfold zlen; lia].
Qed.

Lemma keeps_span_is_erased_loop n off size :
  size <= Z.of_nat n -> keeps (only_device g) (span_is_erased_loop n off size).
Proof.
  pose proof geo_scratch as Hs. revert off size.
  induction n as [|n IH]; intros off size Hn; simpl;
    (destruct (Z.ltb_spec 0 size); [| keeps_tac]); [lia |].
  keeps_tac; [apply keeps_read_scratch | apply IH; lia].
Qed.

Lemma keeps_span_is_erased off size :
  keeps (only_device g) (fffs_flash_span_is_erased off size).
Proof. apply keeps_span_is_erased_loop. lia. Qed.
End FlashTotal.

#[export] Hint Resolve keeps_flash_read keeps_read_scratch keeps_program_aligned
  keeps_span_is_erased : fffs_keeps.
#[export] Hint Extern 0 ValidBackend => eassumption : fffs_keeps.
#[export] Hint Extern 0 (GeoOk _) => eassumption : fffs_keeps.

(** ** Behaviour on a NOR device *)

Section FlashNor.
Context `{Backend} `{!NorFlash}.

Definition flash_ok (w : world) : Prop := nor_ok (w_ctx w).
Definition mem (w : world) : Z -> Z := nor_mem (w_ctx w).

(** The state after the memory became [m] and nothing else changed. *)
Record flash_is (m : Z -> Z) (w w' : world) : Prop := {
  fi_ok : flash_ok w';
  fi_mem : forall a, mem w' a = m a;
  fi_fs : w_fs w' = w_fs w;
  fi_files : w_files w' = w_files w;
}.

Lemma mem_u8 w a : flash_ok w -> is_u8 (mem w a).
Proof. apply nor_byte. Qed.

Lemma flash_is_trans m1 m2 w1 w2 w3 :
  flash_is m1 w1 w2 -> flash_is m2 w2 w3 -> flash_is m2 w1 w3.
Proof. intros [] []. split; congruence. Qed.

Lemma flash_is_ext m1 m2 w w' :
  flash_is m1 w w' -> (forall a, m1 a = m2 a) -> flash_is m2 w w'.
Proof. intros [] Heq. split; [done | | done..]. intros a. by rewrite <- Heq. Qed.

Lemma wp_raw_read off n Q E w :
  flash_ok w -> 0 <= off -> 0 <= n -> off + n <= be_size ->
  (forall w', flash_is (mem w) w w' ->
     Q (FFFS_OK, mem_bytes (mem w) off n) w') ->
  wp (raw_read off n) Q E w.
Proof.
  intros Hok H1 H2 H3 HQ. unfold wp, raw_read.
  destruct (nor_read (w_ctx w) off n) as (c & Hr & Hc & Hm); try done.
  rewrite Hr. by apply HQ.
Qed.

Lemma wp_flash_read off n Q E w :
  flash_ok w -> 0 <= off -> 0 <= n -> off + n <= be_size ->
  (forall w', flash_is (mem w) w w' -> Q (mem_bytes (mem w) off n) w') ->
  wp (fffs_flash_read off n) Q E w.
Proof.
  intros Hok H1 H2 H3 HQ. apply wp_bind, wp_raw_read; [done..|].
  intros w' Hw'. by apply HQ.
Qed.

Lemma wp_backend_program off buf Q E w :
  flash_ok w -> 0 <= off -> off + zlen buf <= be_size -> is_bytes buf ->
  off mod be_granule = 0 -> zlen buf mod be_granule = 0 ->
  (forall w', flash_is (mem_program (mem w) off buf) w w' -> Q tt w') ->
  wp (backend_program off buf) Q E w.
Proof.
  intros Hok H1 H2 H3 H4 H5 HQ. unfold wp, backend_program.
  destruct (nor_program (w_ctx w) off buf) as (c & Hr & Hc & Hm); try done.
  rewrite Hr. by apply HQ.
Qed.

Lemma wp_backend_erase off n Q E w :
  flash_ok w -> 0 <= off -> 0 <= n -> off + n <= be_size ->
  off mod nor_unit = 0 -> n mod nor_unit = 0 ->
  (forall w', flash_is (mem_erase (mem w) off n) w w' -> Q tt w') ->
  wp (backend_erase off n) Q E w.
Proof.
  intros Hok H1 H2 H3 H4 H5 HQ. unfold wp, backend_erase.
  destruct (nor_erase (w_ctx w) off n) as (c & Hr & Hc & Hm); try done.
  rewrite Hr. by apply HQ.
Qed.

(** Whole sectors of the file system. *)
Lemma sectors_of_unit g `{!EraseUnit g} k : (k * sector_size g) mod nor_unit = 0.
Proof.
  rewrite Zmult_mod, (unit_sector (g := g)), Z.mul_0_r.
  apply Z.mod_0_l. pose proof (unit_pos (g := g)). lia.
Qed.

(** ** Aligned programming *)

Lemma mem_program_out m off buf a :
  a < off \/ off + zlen buf <= a -> mem_program m off buf a = m a.
Proof.
  intros Ha. unfold mem_program.
  destruct (Z.leb_spec off a), (Z.ltb_spec a (off + zlen buf)); simpl; lia || done.
Qed.

Lemma mem_program_in m off buf a :
  off <= a < off + zlen buf ->
  mem_program m off buf a = Z.land (m a) (byte_at buf (a - off)).
Proof.
  intros Ha. unfold mem_program.
  destruct (Z.leb_spec off a), (Z.ltb_spec a (off + zlen buf)); simpl; lia || done.
Qed.

(** Programming a chunk padded with erased bytes programs its payload. *)
Lemma mem_program_padded m base k piece g a :
  (forall a, is_u8 (m a)) -> 0 <= k -> k + zlen piece <= g ->
  mem_program m base (splice k piece (fill g 0xff)) a =
  mem_program m (base + k) piece a.
Proof.
  intros Hm Hk Hl. pose proof (zlen_nonneg piece).
  assert (Hlen : zlen (splice k piece (fill g 255)) = g)
    by (rewrite zlen_splice; rewrite ?zlen_fill; lia).
  destruct (decide (base <= a < base + g)) as [Hin|Hout].
  - rewrite mem_program_in by lia.
    rewrite byte_at_splice by (rewrite ?zlen_fill; lia).
    destruct (decide (k <= a - base < k + zlen piece)).
    + rewrite mem_program_in by lia.
      destruct (Z.leb_spec k (a - base)), (Z.ltb_spec (a - base) (k + zlen piece));
        simpl; try lia. do 2 f_equal. lia.
    + rewrite mem_program_out by lia.
      destruct (Z.leb_spec k (a - base)), (Z.ltb_spec (a - base) (k + zlen piece));
        simpl; try lia; rewrite byte_at_fill by lia; by apply is_u8_iff_land.
  - rewrite !mem_program_out by lia. done.
Qed.

Lemma mem_program_app m off l1 l2 a :
  mem_program (mem_program m off l1) (off + zlen l1) l2 a =
  mem_program m off (l1 ++ l2) a.
Proof.
  pose proof (zlen_nonneg l1). pose proof (zlen_nonneg l2).
  destruct (decide (off <= a < off + zlen l1)).
  - rewrite mem_program_out, !mem_program_in by (rewrite ?zlen_app; lia).
    by rewrite byte_at_app_l by lia.
  - destruct (decide (off + zlen l1 <= a < off + zlen l1 + zlen l2)).
    + rewrite mem_program_in, mem_program_out, mem_program_in
        by (rewrite ?zlen_app; lia).
      rewrite byte_at_app_r by lia. do 2 f_equal. lia.
    + by rewrite !mem_program_out by (rewrite ?zlen_app; lia).
Qed.

Lemma mem_program_ext m m' off buf a :
  m a = m' a -> mem_program m off buf a = mem_program m' off buf a.
Proof. unfold mem_program. by intros ->. Qed.

Context `{!ValidBackend}.

(** [k] more bytes from [pos] fit in the device when the whole granule that
    holds them does. *)
Lemma granule_in_device pos :
  0 <= pos < be_size -> pos - pos mod be_granule + be_granule <= be_size.
Proof.
  intros Hp. pose proof granule_pos as Hg. pose proof size_granule as Hd.
  assert (Hnz : be_granule <> 0) by lia.
  apply Z.mod_divide in Hd as [q Hq]; [| done].
  pose proof (Z.div_mod pos be_granule Hnz) as Hdm.
  assert (pos / be_granule < q) by (apply Z.div_lt_upper_bound; nia).
  nia.
Qed.

Lemma wp_program_loop n off src done Q E w :
  flash_ok w -> 0 <= off -> 0 <= done <= zlen src ->
  off + zlen src <= be_size -> is_bytes src ->
  zlen src - done <= Z.of_nat n ->
  (forall w', flash_is (mem_program (mem w) (off + done)
                          (sublist done (zlen src - done) src)) w w' ->
     Q tt w') ->
  wp (program_aligned_loop n off src done) Q E w.
Proof.
  intros Hok Ho Hd Hs Hb. revert done w Hok Hd.
  induction n as [|n IH]; intros done w Hok Hd Hn HQ; simpl;
    destruct (Z.ltb_spec done (zlen src)) as [Hlt|Hge]; try lia.
  1, 3: apply wp_ret, HQ; split; [done | | done..]; intros a;
    rewrite mem_program_out; [done |];
    rewrite zlen_sublist by lia; lia.
  pose proof granule_pos as Hg.
  set (pos := off + done) in *.
  pose proof (Z.mod_pos_bound pos be_granule Hg) as Hmod.
  set (k := Z.min (be_granule - (pos - (pos - pos mod be_granule)))
              (zlen src - done)).
  set (base := pos - pos mod be_granule).
  assert (Hpos : 0 <= pos < be_size) by lia.
  pose proof (granule_in_device pos Hpos) as Hfit.
  assert (Hbase : 0 <= base).
  { unfold base. pose proof (Z.mod_le pos be_granule). lia. }
  assert (Hpiece : zlen (sublist done k src) = k)
    by (apply zlen_sublist; lia).
  assert (Hchunk : zlen (splice (pos - base) (sublist done k src)
    (fill be_granule 0xff)) = be_granule).
  { rewrite zlen_splice; rewrite ?zlen_fill; lia. }
  apply wp_bind, wp_backend_program; rewrite ?Hchunk.
  - done.
  - done.
  - lia.
  - apply Forall_splice; [by apply Forall_sublist | apply Forall_fill, is_u8_255].
  - unfold base. rewrite (Z.div_mod pos be_granule) at 1 by lia.
    replace (be_granule * (pos / be_granule) + pos mod be_granule -
      pos mod be_granule) with (pos / be_granule * be_granule) by lia.
    apply Z.mod_mul. lia.
  - apply Z.mod_same. lia.
  - intros w1 Hw1. apply IH; [apply Hw1 | lia | lia |].
    intros w2 Hw2. apply HQ. eapply flash_is_ext; [by eapply flash_is_trans |].
    intros a.
    replace (off + (done + k)) with (pos + zlen (sublist done k src)) by lia.
    etransitivity.
    { apply mem_program_ext. rewrite (fi_mem _ _ _ Hw1).
      rewrite mem_program_padded; [reflexivity | | lia | lia].
      intros b. by apply mem_u8. }
    replace (base + (pos - base)) with pos by lia.
    rewrite mem_program_app, sublist_app_split by lia.
    f_equal. f_equal. lia.
Qed.

Lemma wp_program_aligned off buf Q E w :
  flash_ok w -> 0 <= off -> off + zlen buf <= be_size -> is_bytes buf ->
  (forall w', flash_is (mem_program (mem w) off buf) w w' -> Q tt w') ->
  wp (fffs_backend_program_aligned off buf) Q E w.
Proof.
  intros Hok Ho Hs Hb HQ. unfold fffs_backend_program_aligned.
  destruct (Z.eqb_spec (zlen buf) 0) as [Hz|Hz].
  { apply wp_ret, HQ. split; [done | | done..]. intros a.
    rewrite mem_program_out; [done | lia]. }
  destruct (Z.eqb_spec (off mod be_granule) 0),
    (Z.eqb_spec (zlen buf mod be_granule) 0); simpl;
    [by apply wp_backend_program | ..];
    (apply wp_program_loop; [done | done | | done | done | unfold zlen; lia |]);
    try (pose proof (zlen_nonneg buf); lia);
    intros w' Hw'; apply HQ; rewrite Z.add_0_r, sublist_all in Hw' by lia;
    done.
Qed.

(** Programming over erased flash stores the bytes. *)
Lemma program_erased m off buf :
  (forall a, off <= a < off + zlen buf -> m a = 0xff) -> is_bytes buf ->
  mem_bytes (mem_program m off buf) off (zlen buf) = buf.
Proof.
  intros He Hb. pose proof (zlen_nonneg buf).
  apply list_eq_byte_at; [by rewrite zlen_mem_bytes |].
  rewrite zlen_mem_bytes by done. intros i Hi.
  rewrite byte_at_mem_bytes, mem_program_in, He by lia.
  replace (off + i - off) with i by lia. rewrite Z.land_comm.
  apply is_u8_iff_land, byte_at_is_u8; [done | lia].
Qed.

Lemma mem_bytes_program_out m off buf o n :
  o + n <= off \/ off + zlen buf <= o ->
  mem_bytes (mem_program m off buf) o n = mem_bytes m o n.
Proof. intros Ho. apply mem_bytes_ext. intros a Ha. apply mem_program_out. lia. Qed.

Lemma mem_program_byte m off b a :
  mem_program m off [b] a = if a =? off then Z.land (m a) b else m a.
Proof.
  destruct (Z.eqb_spec a off) as [->|Hne].
  - rewrite mem_program_in by (rewrite zlen_cons, zlen_nil; lia).
    by rewrite Z.sub_diag.
  - apply mem_program_out. rewrite zlen_cons, zlen_nil. lia.
Qed.

(** [buf] programmed at the offset [k] of the bytes [l]. *)
Definition land_at (k : Z) (buf l : list Z) : list Z :=
  splice k (zip_with Z.land (sublist k (zlen buf) l) buf) l.

Lemma mem_bytes_program m o k buf n :
  0 <= k -> k + zlen buf <= n ->
  mem_bytes (mem_program m (o + k) buf) o n = land_at k buf (mem_bytes m o n).
Proof.
  intros Hk Hn. pose proof (zlen_nonneg buf).
  assert (Hz : zlen (zip_with Z.land (sublist k (zlen buf) (mem_bytes m o n)) buf)
    = zlen buf).
  { rewrite sublist_mem_bytes by lia. unfold zlen.
    rewrite length_zip_with. unfold mem_bytes.
    rewrite length_fmap, length_addrs. unfold zlen. lia. }
  unfold land_at. apply list_eq_byte_at.
  { rewrite zlen_splice; rewrite ?Hz, ?zlen_mem_bytes; lia. }
  rewrite zlen_mem_bytes by lia. intros i Hi.
  rewrite byte_at_splice by (rewrite ?Hz, ?zlen_mem_bytes; lia).
  rewrite Hz, !byte_at_mem_bytes by lia. unfold mem_program.
  destruct (Z.leb_spec (o + k) (o + i)), (Z.leb_spec k i),
    (Z.ltb_spec (o + i) (o + k + zlen buf)), (Z.ltb_spec i (k + zlen buf));
    simpl; try lia; try done.
  rewrite sublist_mem_bytes by lia.
  rewrite byte_at_zip_land by (rewrite ?zlen_mem_bytes; lia).
  rewrite byte_at_mem_bytes by lia. f_equal; f_equal; lia.
Qed.

(** A span is erased. *)
Definition erased_span (m : Z -> Z) (off n : Z) : Prop :=
  forall a, off <= a < off + n -> m a = 0xff.

Lemma flash_bytes_erased_spec l :
  fffs_flash_bytes_erased l = true <-> Forall (fun b => b = 0xff) l.
Proof.
  induction l as [|b l IH]; simpl; [by split |].
  rewrite Forall_cons. destruct (Z.eqb_spec b 255) as [Hb|Hb]; simpl.
  - rewrite IH. by split; [| intros [_ ?]].
  - by split; [| intros [? _]].
Qed.

Lemma mem_bytes_erased m off n :
  fffs_flash_bytes_erased (mem_bytes m off n) = true <-> erased_span m off n.
Proof.
  rewrite flash_bytes_erased_spec. unfold mem_bytes, addrs, erased_span.
  rewrite Forall_fmap, Forall_fmap, Forall_forall. split.
  - intros Hf a Ha. specialize (Hf (Z.to_nat (a - off))).
    rewrite elem_of_seq in Hf. specialize (Hf ltac:(lia)).
    simpl in Hf. by replace (off + Z.of_nat (Z.to_nat (a - off))) with a in Hf by lia.
  - intros Hf i Hi. rewrite elem_of_seq in Hi. apply Hf. lia.
Qed.

(** The state after the memory became [m], the scratch buffer was used and
    nothing else changed. *)
Record flash_core (m : Z -> Z) (w w' : world) : Prop := {
  fc_ok : flash_ok w';
  fc_mem : forall a, mem w' a = m a;
  fc_core : fs_core (w_fs w') = fs_core (w_fs w);
  fc_files : w_files w' = w_files w;
}.

Lemma flash_is_core m w w' : flash_is m w w' -> flash_core m w w'.
Proof. intros []. split; congruence. Qed.

Lemma flash_core_trans m1 m2 w1 w2 w3 :
  flash_core m1 w1 w2 -> flash_core m2 w2 w3 -> flash_core m2 w1 w3.
Proof. intros [] []. split; congruence. Qed.

Lemma flash_core_ext m1 m2 w w' :
  flash_core m1 w w' -> (forall a, m1 a = m2 a) -> flash_core m2 w w'.
Proof. intros [] Heq. split; [done | | done..]. intros a. by rewrite <- Heq. Qed.

Lemma fc_geo m w w' :
  flash_core m w w' -> fs_geo (w_fs w') = fs_geo (w_fs w).
Proof. intros []. by apply fs_core_geo. Qed.

Lemma wp_read_scratch off n Q E w :
  flash_ok w -> 0 <= off -> 0 <= n -> off + n <= be_size ->
  (forall w', flash_core (mem w) w w' -> Q (mem_bytes (mem w) off n) w') ->
  wp (flash_read_scratch off n) Q E w.
Proof.
  intros Hok H1' H2 H3 HQ. apply wp_bind, wp_raw_read; [done..|].
  intros w1 [Ho Hm Hf Hfi]. apply wp_bind, wp_mod_fs. apply wp_bind. simpl.
  apply wp_ret. apply wp_ret, HQ. split; simpl; [done | done | | done].
  by rewrite Hf.
Qed.

(** The blank check through the scratch buffer decides whether the span is
    erased. *)
Lemma wp_span_is_erased_loop g n off size Q E w :
  fs_geo (w_fs w) = g -> 0 < scratch_size g ->
  flash_ok w -> 0 <= off -> off + size <= be_size -> size <= Z.of_nat n ->
  (forall w', flash_core (mem w) w w' ->
     erased_span (mem w) off size -> Q tt w') ->
  (forall w', flash_core (mem w) w w' ->
     ~ erased_span (mem w) off size -> E FFFS_ERR_NO_SPACE w') ->
  wp (span_is_erased_loop n off size) Q E w.
Proof.
  intros Hg Hs. revert off size w Hg.
  induction n as [|n IH]; intros off size w Hg Hok Ho Hsz Hn HQ HE; simpl;
    destruct (Z.ltb_spec 0 size) as [Hlt|Hge]; try lia.
  1, 3: apply wp_ret, HQ; [done | intros a Ha; lia].
  apply wp_bind, wp_get_geo. rewrite Hg.
  set (k := Z.min size (scratch_size g)).
  apply wp_bind, wp_read_scratch; try done; try lia.
  intros w1 Hw1. apply wp_bind. apply wp_mod_fs.
  set (w2 := mk_world _ _ _).
  assert (Hw2 : flash_core (mem w) w w2).
  { destruct Hw1. by split. }
  destruct (fffs_flash_bytes_erased _) eqn:He; simpl.
  - rewrite mem_bytes_erased in He.
    apply IH; [by rewrite (fc_geo _ _ _ Hw2) | apply Hw2 | lia | lia | lia | |].
    + intros w3 Hw3 Her. apply HQ.
      * eapply flash_core_ext; [by eapply flash_core_trans | apply Hw2].
      * intros a Ha. destruct (decide (a < off + k)); [apply He; lia |].
        rewrite <- (fc_mem _ _ _ Hw2). apply Her. lia.
    + intros w3 Hw3 Her. apply HE.
      * eapply flash_core_ext; [by eapply flash_core_trans | apply Hw2].
      * intros Hall. apply Her. intros a Ha. rewrite (fc_mem _ _ _ Hw2).
        apply Hall. lia.
  - apply wp_fail, HE; [done |]. intros Hall.
    apply not_true_iff_false in He. apply He. rewrite mem_bytes_erased.
    intros a Ha. apply Hall. lia.
Qed.

Lemma wp_span_is_erased g off size Q E w :
  fs_geo (w_fs w) = g -> 0 < scratch_size g ->
  flash_ok w -> 0 <= off -> off + size <= be_size ->
  (forall w', flash_core (mem w) w w' ->
     erased_span (mem w) off size -> Q tt w') ->
  (forall w', flash_core (mem w) w w' ->
     ~ erased_span (mem w) off size -> E FFFS_ERR_NO_SPACE w') ->
  wp (fffs_flash_span_is_erased off size) Q E w.
Proof. intros. eapply wp_span_is_erased_loop; eauto. lia. Qed.
End FlashNor.

(** ** Properties *)

(** C21: aligned programming.  Whatever the offset and the length,
    [fffs_flash_program_aligned] terminates, succeeds and programs exactly the
    bytes of the buffer: each byte of the range becomes the bitwise AND of what
    it was and of the buffer, and no other byte of the device changes, although
    the device only accepts whole granules. *)
Theorem program_aligned_exact `{Backend} `{!NorFlash} `{!ValidBackend}
    (off : Z) (buf : list Z) (w : world) :
  flash_ok w -> 0 <= off -> off + zlen buf <= be_size -> is_bytes buf ->
  exists w', fffs_flash_program_aligned off buf w = (Ok tt, w') /\
    flash_is (mem_program (mem w) off buf) w w'.
Proof.
  intros Hok Ho Hl Hb.
  assert (Hwp : wp (fffs_flash_program_aligned off buf)
    (fun _ w' => flash_is (mem_program (mem w) off buf) w w')
    (fun _ _ => False) w) by by apply wp_program_aligned.
  apply wp_returns in Hwp as ([] & w' & Hrun & Hw'). by exists w'.
Qed.

Lemma program_aligned_exact_witness :
  exists w', @fffs_flash_program_aligned Demo.backend 7 [1; 2; 3] Demo.blank =
    (Ok tt, w') /\ @mem Demo.backend (dev_nor 2048 4) w' 8 = 2 /\
    @mem Demo.backend (dev_nor 2048 4) w' 6 = 0xff.
Proof.
  destruct (@program_aligned_exact Demo.backend (dev_nor 2048 4) Demo.valid 7
    [1; 2; 3] Demo.blank Demo.blank_ok) as (w' & Hrun & Hw').
  - lia.
  - simpl. unfold zlen. simpl. lia.
  - repeat constructor; lia || done.
  - exists w'. split; [exact Hrun |].
    rewrite !(fi_mem _ _ _ Hw'). split; reflexivity.
Defined.

(** The blank check.  [fffs_flash_span_is_erased] returns success exactly
    when every byte of the span is erased, [FFFS_ERR_NO_SPACE] exactly when one
    is not; it terminates and changes nothing but the scratch buffer. *)
Theorem span_is_erased_exact `{Backend} `{!NorFlash} `{!ValidBackend}
    (off size : Z) (w : world) :
  flash_ok w -> 0 < scratch_size (fs_geo (w_fs w)) ->
  0 <= off -> off + size <= be_size ->
  exists w', flash_core (mem w) w w' /\
    ((erased_span (mem w) off size /\
      fffs_flash_span_is_erased off size w = (Ok tt, w')) \/
     (~ erased_span (mem w) off size /\
      fffs_flash_span_is_erased off size w = (Err FFFS_ERR_NO_SPACE, w'))).
Proof.
  intros Hok Hs Ho Hl.
  assert (Hwp : wp (fffs_flash_span_is_erased off size)
    (fun _ w' => flash_core (mem w) w w' /\ erased_span (mem w) off size)
    (fun e w' => e = FFFS_ERR_NO_SPACE /\ flash_core (mem w) w w' /\
       ~ erased_span (mem w) off size) w)
    by (by eapply wp_span_is_erased).
  unfold wp in Hwp.
  destruct (fffs_flash_span_is_erased off size w) as [[[] | e |] w'];
    [exists w'; tauto | | done].
  destruct Hwp as (-> & Hc & Hn). exists w'. tauto.
Qed.

Lemma span_is_erased_exact_witness :
  exists w', @fffs_flash_span_is_erased Demo.backend 512 256 Demo.blank =
    (Ok tt, w').
Proof.
  destruct (@span_is_erased_exact Demo.backend (dev_nor 2048 4) Demo.valid 512 256
    Demo.blank Demo.blank_ok) as (w' & _ & [[_ Hrun] | [Hn _]]).
  - reflexivity.
  - lia.
  - simpl. lia.
  - exists w'. exact Hrun.
  - exfalso. apply Hn. intros a _. apply Demo.blank_mem.
Defined.
