(* ===== verification/Sector.v ===== *)
(** * Sector footers and the sector reader

    [src/fffs_sector.c] and [src/fffs_sector_reader.c]. *)

From S2P Require Export Flash.

(** ** Footer encoding *)

Definition fffs_decode_sector_footer (footer : list Z) : fffs_sector_footer :=
  {| ft_serial := fffs_load_le32 footer;
     ft_type := byte_at footer 4;
     ft_state := byte_at footer 5;
     ft_erased := fffs_flash_bytes_erased footer;
     ft_magic_valid := bool_decide (sublist 6 4 footer = FFFS_SECTOR_MAGIC);
     ft_valid_bits := fffs_lifecycle_valid_pair (byte_at footer 5);
     ft_tombstone_bits := fffs_lifecycle_tombstone_pair (byte_at footer 5);
     ft_full_bits := fffs_lifecycle_hint_pair (byte_at footer 5) |}.

Definition fffs_encode_sector_footer (serial : Z) (valid : bool) : list Z :=
  fffs_store_le32 serial ++
  [FFFS_SECTOR_TYPE_FILE; if valid then FFFS_LIFECYCLE_VALID else 0xff] ++
  FFFS_SECTOR_MAGIC.

(** ** Offsets *)

Definition fffs_sector_footer_offset (g : fs_geometry) (sector : Z) : Z :=
  sector * sector_size g + sector_size g - FFFS_SECTOR_FOOTER_SIZE.

Definition fffs_sector_metadata_offset (g : fs_geometry) (sector : Z) : Z :=
  fffs_sector_footer_offset g sector - FFFS_MD_FILE_RECORD_SIZE.

(** A reader over a local buffer, as [(struct fffs_sector_reader){.data = buf,
    .capacity = sizeof(buf), .reverse = true}]. *)
Definition local_reader (capacity sector : Z) : fffs_sector_reader :=
  mk_reader (fill capacity 0) capacity sector 0 0 true.

Section Sector.
Context `{Backend}.

Definition fffs_max_file_data_size (g : fs_geometry) : Z :=
  let raw := usz (sector_size g - FFFS_SECTOR_FOOTER_SIZE -
                  FFFS_MD_FILE_RECORD_SIZE) in
  let raw := if UINT16_MAX <? raw then UINT16_MAX else raw in
  raw - raw mod be_granule.

(** ** The buffered reader *)

Definition fffs_sector_reader_view (reader : fffs_sector_reader)
    (sector offset size : Z) : M (list Z * fffs_sector_reader) :=
  g <- get_geo ;;
  guard_err ((sector_count g <=? sector) || (sector_size g <? offset) ||
             (sector_size g - offset <? size) || (rd_capacity reader <? size))
    FFFS_ERR_INVALID ;;
  let reader :=
    if negb (rd_sector reader =? sector)
    then mk_reader (rd_data reader) (rd_capacity reader) sector 0 0
           (rd_reverse reader)
    else reader in
  if negb (rd_len reader =? 0) && (rd_start reader <=? offset) &&
     (size <=? rd_len reader) &&
     (offset - rd_start reader <=? rd_len reader - size)
  then ret (sublist (offset - rd_start reader) size (rd_data reader), reader)
  else
    let len0 := rd_capacity reader in
    let stop := offset + size in
    let len := if rd_reverse reader
               then (if stop <? len0 then stop else len0)
               else (if sector_size g - offset <? len0
                     then sector_size g - offset else len0) in
    let start := if rd_reverse reader then stop - len else offset in
    buf <- fffs_flash_read (rd_sector reader * sector_size g + start) len ;;
    let reader := mk_reader (splice 0 buf (rd_data reader))
                    (rd_capacity reader) (rd_sector reader) start len
                    (rd_reverse reader) in
    ret (sublist (offset - start) size (rd_data reader), reader).

(** ** Footer operations *)

Definition fffs_read_sector_serial (sector : Z) : M Z :=
  g <- get_geo ;;
  guard_err ((sector <? index_sectors g) || (sector_count g <=? sector))
    FFFS_ERR_CORRUPT ;;
  let* (footer, _) :=
    fffs_sector_reader_view (local_reader FFFS_SECTOR_FOOTER_SIZE 0) sector
      (usz (sector_size g - FFFS_SECTOR_FOOTER_SIZE))
      FFFS_SECTOR_FOOTER_SIZE in
  let view := fffs_decode_sector_footer footer in
  guard_err (negb (ft_type view =? FFFS_SECTOR_TYPE_FILE) ||
             negb (ft_magic_valid view)) FFFS_ERR_CORRUPT ;;
  let live := fffs_lifecycle_is_live (ft_valid_bits view)
                (ft_tombstone_bits view) in
  let tombstoned :=
    negb (bool_decide (ft_valid_bits view = FFFS_BITMIRROR_MIXED)) &&
    bool_decide (ft_tombstone_bits view = FFFS_BITMIRROR_CLEARED) in
  guard_err (negb live && negb tombstoned) FFFS_ERR_CORRUPT ;;
  ret (ft_serial view).

Definition fffs_write_sector_footer (sector serial : Z) : M unit :=
  g <- get_geo ;;
  fffs_flash_program_aligned (fffs_sector_footer_offset g sector)
    (fffs_encode_sector_footer serial false) ;;
  fffs_flash_program_aligned (fffs_sector_footer_offset g sector + 5)
    [FFFS_LIFECYCLE_VALID].

Definition fffs_tombstone_sector (sector : Z) : M unit :=
  g <- get_geo ;;
  fffs_flash_program_aligned (fffs_sector_footer_offset g sector + 4)
    [FFFS_SECTOR_TYPE_FILE; FFFS_LIFECYCLE_TOMBSTONED; 0xff; 0xff].

Definition fffs_mark_sector_full (sector : Z) : M unit :=
  g <- get_geo ;;
  fffs_flash_program_aligned (fffs_sector_footer_offset g sector + 5)
    [FFFS_LIFECYCLE_FULL].
End Sector.

(** ** Termination and frame *)

Section SectorKeeps.
Context `{Backend} `{!ValidBackend} (g : fs_geometry) `{!GeoOk g}.

Lemma keeps_reader_view r sector off size :
  keeps (only_device g) (fffs_sector_reader_view r sector off size).
Proof. unfold fffs_sector_reader_view. keeps_tac. Qed.

Lemma keeps_read_sector_serial sector :
  keeps (only_device g) (fffs_read_sector_serial sector).
Proof.
  unfold fffs_read_sector_serial. keeps_tac. apply keeps_reader_view.
Qed.

Lemma keeps_write_footer sector serial :
  keeps (only_device g) (fffs_write_sector_footer sector serial).
Proof. unfold fffs_write_sector_footer, fffs_flash_program_aligned. keeps_tac. Qed.

Lemma keeps_tombstone_sector sector :
  keeps (only_device g) (fffs_tombstone_sector sector).
Proof. unfold fffs_tombstone_sector, fffs_flash_program_aligned. keeps_tac. Qed.

Lemma keeps_mark_full sector :
  keeps (only_device g) (fffs_mark_sector_full sector).
Proof. unfold fffs_mark_sector_full, fffs_flash_program_aligned. keeps_tac. Qed.
End SectorKeeps.

#[export] Hint Resolve keeps_reader_view keeps_read_sector_serial
  keeps_write_footer keeps_tombstone_sector keeps_mark_full : fffs_keeps.

(** ** Geometry arithmetic *)

Section Geometry.
Context `{Backend} {g : fs_geometry} `{!GeoOk g}.

Lemma sector_size_range : 256 <= sector_size g <= 2 ^ 23.
Proof.
  pose proof geo_shift as Hs. rewrite geo_sector_size, Z.shiftl_mul_pow2 by lia.
  pose proof (Z.pow_le_mono_r 2 0 (sector_shift g)).
  pose proof (Z.pow_le_mono_r 2 (sector_shift g) 15). lia.
Qed.

Lemma sector_in_device sector off n :
  0 <= sector < sector_count g -> 0 <= off -> 0 <= n ->
  off + n <= sector_size g ->
  0 <= sector * sector_size g + off /\
  sector * sector_size g + off + n <= be_size.
Proof.
  intros Hs Ho Hn Hl. pose proof geo_image as Hi.
  pose proof sector_size_range. nia.
Qed.

Lemma usz_footer :
  usz (sector_size g - FFFS_SECTOR_FOOTER_SIZE) = sector_size g - 10.
Proof. pose proof sector_size_range. apply usz_small. lia. Qed.
End Geometry.

(** ** The reader returns the flash contents *)

Section SectorNor.
Context `{Backend} `{!NorFlash} `{!ValidBackend} (g : fs_geometry) `{!GeoOk g}.

(** The buffered bytes are the bytes of the flash. *)
Record reader_ok (m : Z -> Z) (r : fffs_sector_reader) : Prop := {
  ro_capacity : zlen (rd_data r) = rd_capacity r;
  ro_start : 0 <= rd_start r;
  ro_len : 0 <= rd_len r <= rd_capacity r;
  ro_data : forall i, 0 <= i < rd_len r ->
    byte_at (rd_data r) i = m (rd_sector r * sector_size g + rd_start r + i);
}.

Lemma local_reader_ok m capacity sector :
  0 <= capacity -> reader_ok m (local_reader capacity sector).
Proof. intros Hc. split; simpl; [by apply zlen_fill | lia..]. Qed.

Lemma reader_ok_ext m m' r :
  (forall a, m a = m' a) -> reader_ok m r -> reader_ok m' r.
Proof.
  intros Heq []. split; [done..|]. intros i Hi. rewrite <- Heq. auto.
Qed.

(** The hit and the refill of [fffs_sector_reader_view]. *)
Lemma reader_hit m r off size :
  reader_ok m r -> rd_start r <= off -> 0 <= size ->
  off - rd_start r <= rd_len r - size ->
  sublist (off - rd_start r) size (rd_data r) =
  mem_bytes m (rd_sector r * sector_size g + off) size.
Proof.
  intros [] Hst Hsz Hend. apply list_eq_byte_at.
  - rewrite zlen_sublist, zlen_mem_bytes; lia.
  - intros i. rewrite zlen_sublist by lia. intros Hi.
    rewrite byte_at_sublist, byte_at_mem_bytes by lia.
    rewrite ro_data0 by lia. f_equal. lia.
Qed.

Lemma reader_refill m r start len :
  zlen (rd_data r) = rd_capacity r -> 0 <= start ->
  0 <= len <= rd_capacity r ->
  reader_ok m (mk_reader
    (splice 0 (mem_bytes m (rd_sector r * sector_size g + start) len)
       (rd_data r)) (rd_capacity r) (rd_sector r) start len (rd_reverse r)).
Proof.
  intros Hc Hs Hl. split; simpl; [| done | done |].
  - rewrite zlen_splice; rewrite ?zlen_mem_bytes; lia.
  - intros i Hi. rewrite byte_at_splice by (rewrite ?zlen_mem_bytes; lia).
    rewrite zlen_mem_bytes by lia.
    destruct (Z.leb_spec 0 i), (Z.ltb_spec i (0 + len)); simpl; try lia.
    rewrite byte_at_mem_bytes by lia. f_equal. lia.
Qed.

Lemma wp_reader_view r sector off size Q E w :
  fs_geo (w_fs w) = g -> flash_ok w -> reader_ok (mem w) r ->
  0 <= sector < sector_count g -> 0 <= off -> 0 <= size ->
  off + size <= sector_size g -> size <= rd_capacity r ->
  (forall w' r', flash_is (mem w) w w' -> reader_ok (mem w) r' ->
     rd_capacity r' = rd_capacity r -> rd_sector r' = sector ->
     Q (mem_bytes (mem w) (sector * sector_size g + off) size, r') w') ->
  wp (fffs_sector_reader_view r sector off size) Q E w.
Proof.
  intros Hgeo Hok Hr Hsec Ho Hsz Hend Hcap HQ.
  unfold fffs_sector_reader_view. apply wp_bind, wp_get_geo. rewrite Hgeo.
  cbv zeta.
  apply wp_bind, wp_guard; [rewrite !orb_true_iff, Z.leb_le, !Z.ltb_lt; lia |].
  intros _.
  set (r1 := if negb (rd_sector r =? sector) then _ else r).
  assert (Hr1 : reader_ok (mem w) r1 /\ rd_sector r1 = sector /\
    rd_capacity r1 = rd_capacity r).
  { unfold r1. destruct (Z.eqb_spec (rd_sector r) sector); simpl; [done |].
    split; [| done]. destruct Hr. split; simpl; [done | lia..]. }
  destruct Hr1 as (Hr1 & Hs1 & Hc1). clearbody r1.
  destruct (negb _ && _ && _ && _) eqn:Hhit.
  - rewrite !andb_true_iff, !Z.leb_le in Hhit.
    apply wp_ret. rewrite (reader_hit _ _ _ _ Hr1), Hs1 by lia.
    apply HQ; [by split | done..].
  - set (start := if rd_reverse r1 then _ else _).
    set (len := if rd_reverse r1 then _ else _).
    assert (Hb : 0 <= start /\ size <= len <= rd_capacity r /\ start <= off /\
      off + size <= start + len /\ start + len <= sector_size g).
    { unfold start, len. destruct (rd_reverse r1).
      - destruct (Z.ltb_spec (off + size) (rd_capacity r1)); lia.
      - destruct (Z.ltb_spec (sector_size g - off) (rd_capacity r1)); lia. }
    clearbody len start.
    destruct (sector_in_device sector start len) as [Hd1 Hd2]; try lia.
    apply wp_bind, wp_flash_read; rewrite ?Hs1; try lia; [done |].
    intros w1 Hw1. apply wp_ret.
    pose proof (reader_refill (mem w) r1 start len (ro_capacity _ _ Hr1))
      as Hr2.
    specialize (Hr2 ltac:(lia) ltac:(lia)). rewrite Hs1 in Hr2.
    pose proof (reader_hit _ _ off size Hr2) as Hh. simpl in Hh.
    simpl. rewrite Hh by lia. by apply HQ.
Qed.

(** ** Footers *)

Definition footer_bytes (m : Z -> Z) (sector : Z) : list Z :=
  mem_bytes m (fffs_sector_footer_offset g sector) FFFS_SECTOR_FOOTER_SIZE.

Definition footer_at (m : Z -> Z) (sector : Z) : fffs_sector_footer :=
  fffs_decode_sector_footer (footer_bytes m sector).

(** What [fffs_read_sector_serial] makes of a footer. *)
Definition footer_serial (view : fffs_sector_footer) : option Z :=
  if negb (ft_type view =? FFFS_SECTOR_TYPE_FILE) || negb (ft_magic_valid view)
  then None
  else
    let live := fffs_lifecycle_is_live (ft_valid_bits view)
                  (ft_tombstone_bits view) in
    let tombstoned :=
      negb (bool_decide (ft_valid_bits view = FFFS_BITMIRROR_MIXED)) &&
      bool_decide (ft_tombstone_bits view = FFFS_BITMIRROR_CLEARED) in
    if live || tombstoned then Some (ft_serial view) else None.

Lemma footer_in_device sector :
  0 <= sector < sector_count g ->
  0 <= fffs_sector_footer_offset g sector /\
  fffs_sector_footer_offset g sector + 10 <= be_size.
Proof.
  intros Hs. pose proof (sector_size_range (g := g)).
  destruct (sector_in_device sector (sector_size g - 10) 10); try lia.
  unfold fffs_sector_footer_offset. lia.
Qed.

Lemma wp_read_sector_serial sector Q E w :
  fs_geo (w_fs w) = g -> flash_ok w ->
  index_sectors g <= sector < sector_count g ->
  (forall w', flash_is (mem w) w w' ->
     match footer_serial (footer_at (mem w) sector) with
     | Some serial => Q serial w'
     | None => E FFFS_ERR_CORRUPT w'
     end) ->
  wp (fffs_read_sector_serial sector) Q E w.
Proof.
  intros Hgeo Hok Hs HQ. pose proof (sector_size_range (g := g)).
  pose proof geo_index.
  unfold fffs_read_sector_serial. apply wp_bind, wp_get_geo. rewrite Hgeo.
  apply wp_bind, wp_guard;
    [rewrite orb_true_iff, Z.leb_le, Z.ltb_lt; lia | intros _].
  rewrite usz_footer. apply wp_bind. apply wp_reader_view; try done; try lia.
  { by apply local_reader_ok. }
  intros w' r' Hw' _ _ _. specialize (HQ w' Hw').
  unfold footer_at, footer_bytes, fffs_sector_footer_offset in HQ.
  replace (sector * sector_size g + (sector_size g - 10)) with
    (sector * sector_size g + sector_size g - 10) by lia.
  unfold footer_serial in HQ. apply wp_bind.
  apply wp_guard; intros Hc; rewrite Hc in HQ; [done |].
  apply wp_bind. apply wp_guard.
  - intros Hl. rewrite <- negb_orb, negb_true_iff in Hl. by rewrite Hl in HQ.
  - intros Hl. rewrite <- negb_orb, negb_false_iff in Hl. rewrite Hl in HQ.
    by apply wp_ret.
Qed.

Lemma decode_encode_footer serial :
  is_u32 serial ->
  fffs_decode_sector_footer (fffs_encode_sector_footer serial true) =
  {| ft_serial := serial; ft_type := FFFS_SECTOR_TYPE_FILE;
     ft_state := FFFS_LIFECYCLE_VALID; ft_erased := false;
     ft_magic_valid := true; ft_valid_bits := FFFS_BITMIRROR_CLEARED;
     ft_tombstone_bits := FFFS_BITMIRROR_SET;
     ft_full_bits := FFFS_BITMIRROR_SET |}.
Proof.
  intros Hs. unfold fffs_decode_sector_footer, fffs_encode_sector_footer.
  rewrite load_store_le32 by done. f_equal.
  apply not_true_is_false. rewrite flash_bytes_erased_spec. intros Hf.
  rewrite Forall_app in Hf. destruct Hf as [_ Hf]. by inversion Hf.
Qed.

Lemma is_bytes_footer serial valid :
  is_bytes (fffs_encode_sector_footer serial valid).
Proof.
  apply Forall_app. split; [apply is_bytes_store32 |].
  destruct valid; repeat constructor; unfold is_u8; lia.
Qed.

Lemma zlen_footer serial valid : zlen (fffs_encode_sector_footer serial valid) = 10.
Proof. by destruct valid. Qed.

(** The two programs of [fffs_write_sector_footer] together program the
    committed footer. *)
Lemma footer_commit_program m off serial a :
  mem_program (mem_program m off (fffs_encode_sector_footer serial false))
    (off + 5) [FFFS_LIFECYCLE_VALID] a =
  mem_program m off (fffs_encode_sector_footer serial true) a.
Proof.
  assert (H5 : byte_at (fffs_encode_sector_footer serial false) 5 = 0xff) by done.
  assert (H5' : byte_at (fffs_encode_sector_footer serial true) 5 = 0x7e) by done.
  rewrite mem_program_byte. destruct (Z.eqb_spec a (off + 5)) as [->|Hne].
  - rewrite !mem_program_in by (rewrite zlen_footer; lia).
    replace (off + 5 - off) with 5 by lia. rewrite H5, H5'.
    by rewrite <- Z.land_assoc.
  - unfold mem_program. rewrite !zlen_footer.
    destruct (Z.leb_spec off a), (Z.ltb_spec a (off + 10)); simpl; try done.
    f_equal. assert (Hi : a - off = 0 \/ a - off = 1 \/ a - off = 2 \/
      a - off = 3 \/ a - off = 4 \/ a - off = 6 \/ a - off = 7 \/
      a - off = 8 \/ a - off = 9) by lia.
    by destruct Hi as [->|[->|[->|[->|[->|[->|[->|[->| ->]]]]]]]].
Qed.

Lemma wp_write_footer sector serial Q E w :
  fs_geo (w_fs w) = g -> flash_ok w -> 0 <= sector < sector_count g ->
  (forall w', flash_is (mem_program (mem w) (fffs_sector_footer_offset g sector)
       (fffs_encode_sector_footer serial true)) w w' -> Q tt w') ->
  wp (fffs_write_sector_footer sector serial) Q E w.
Proof.
  intros Hgeo Hok Hs HQ. destruct (footer_in_device sector Hs).
  unfold fffs_write_sector_footer, fffs_flash_program_aligned.
  apply wp_bind, wp_get_geo. rewrite Hgeo.
  apply wp_bind, wp_program_aligned; rewrite ?zlen_footer;
    [done | lia | lia | apply is_bytes_footer |].
  intros w1 Hw1. apply wp_program_aligned;
    [apply Hw1 | lia | rewrite zlen_cons, zlen_nil; lia | |].
  { repeat constructor; unfold is_u8; lia. }
  intros w2 Hw2. apply HQ. eapply flash_is_ext; [by eapply flash_is_trans |].
  intros a. rewrite <- footer_commit_program. apply mem_program_ext, Hw1.
Qed.
(** ** The life of a footer *)

(** A committed footer with the state byte [st]. *)
Definition footer_with (serial st : Z) : list Z :=
  fffs_store_le32 serial ++ [FFFS_SECTOR_TYPE_FILE; st] ++ FFFS_SECTOR_MAGIC.

Lemma decode_footer_with serial st :
  is_u32 serial ->
  fffs_decode_sector_footer (footer_with serial st) =
  {| ft_serial := serial; ft_type := FFFS_SECTOR_TYPE_FILE; ft_state := st;
     ft_erased := false; ft_magic_valid := true;
     ft_valid_bits := fffs_lifecycle_valid_pair st;
     ft_tombstone_bits := fffs_lifecycle_tombstone_pair st;
     ft_full_bits := fffs_lifecycle_hint_pair st |}.
Proof.
  intros Hs. unfold fffs_decode_sector_footer, footer_with.
  rewrite load_store_le32 by done. f_equal.
  apply not_true_is_false. rewrite flash_bytes_erased_spec. intros Hf.
  rewrite Forall_app in Hf. destruct Hf as [_ Hf]. by inversion Hf.
Qed.

Lemma footer_write m sector serial :
  erased_span m (fffs_sector_footer_offset g sector) 10 ->
  footer_bytes (mem_program m (fffs_sector_footer_offset g sector)
    (fffs_encode_sector_footer serial true)) sector =
  footer_with serial FFFS_LIFECYCLE_VALID.
Proof.
  intros He. apply program_erased; [exact He |].
  exact (is_bytes_footer serial true).
Qed.

(** Programming a few bytes of a footer. *)
Lemma footer_program m sector k buf :
  0 <= k -> k + zlen buf <= 10 ->
  footer_bytes (mem_program m (fffs_sector_footer_offset g sector + k) buf)
    sector =
  land_at k buf (footer_bytes m sector).
Proof. apply mem_bytes_program. Qed.

Lemma wp_program_footer sector k buf Q E w :
  flash_ok w -> 0 <= sector < sector_count g -> is_bytes buf ->
  0 <= k -> k + zlen buf <= 10 ->
  (forall w', flash_is (mem_program (mem w)
      (fffs_sector_footer_offset g sector + k) buf) w w' -> Q tt w') ->
  wp (fffs_flash_program_aligned (fffs_sector_footer_offset g sector + k) buf)
    Q E w.
Proof.
  intros Hok Hs Hb Hk Hl HQ. destruct (footer_in_device sector Hs).
  apply wp_program_aligned; [done | lia | lia | done | done].
Qed.

Lemma wp_mark_sector_full sector serial st Q E w :
  fs_geo (w_fs w) = g -> flash_ok w -> 0 <= sector < sector_count g ->
  footer_bytes (mem w) sector = footer_with serial st ->
  (forall w', flash_is (mem w') w w' ->
     footer_bytes (mem w') sector =
       footer_with serial (Z.land st FFFS_LIFECYCLE_FULL) -> Q tt w') ->
  wp (fffs_mark_sector_full sector) Q E w.
Proof.
  intros Hgeo Hok Hs Hf HQ. unfold fffs_mark_sector_full.
  apply wp_bind, wp_get_geo. rewrite Hgeo.
  apply wp_program_footer; [done | done | | done | done |].
  { repeat constructor; unfold is_u8; lia. }
  intros w' Hw'. apply HQ; [destruct Hw'; by split |].
  etransitivity; [apply mem_bytes_ext; intros; apply (fi_mem _ _ _ Hw') |].
  etransitivity; [by apply footer_program |]. by rewrite Hf.
Qed.

Lemma wp_tombstone_sector sector serial st Q E w :
  fs_geo (w_fs w) = g -> flash_ok w -> 0 <= sector < sector_count g ->
  footer_bytes (mem w) sector = footer_with serial st ->
  (forall w', flash_is (mem w') w w' ->
     footer_bytes (mem w') sector =
       footer_with serial (Z.land st FFFS_LIFECYCLE_TOMBSTONED) -> Q tt w') ->
  wp (fffs_tombstone_sector sector) Q E w.
Proof.
  intros Hgeo Hok Hs Hf HQ. unfold fffs_tombstone_sector.
  apply wp_bind, wp_get_geo. rewrite Hgeo.
  apply wp_program_footer; [done | done | | done | done |].
  { repeat constructor; unfold is_u8; lia. }
  intros w' Hw'. apply HQ; [destruct Hw'; by split |].
  etransitivity; [apply mem_bytes_ext; intros; apply (fi_mem _ _ _ Hw') |].
  etransitivity; [by apply footer_program |]. by rewrite Hf.
Qed.

(** The serial of a committed footer is readable. *)
Lemma read_serial_with sector serial st w :
  fs_geo (w_fs w) = g -> flash_ok w ->
  index_sectors g <= sector < sector_count g -> is_u32 serial ->
  st = FFFS_LIFECYCLE_VALID \/ st = FFFS_LIFECYCLE_FULL \/
    st = 0x3c \/ st = 0x18 ->
  footer_bytes (mem w) sector = footer_with serial st ->
  exists w', fffs_read_sector_serial sector w = (Ok serial, w').
Proof.
  intros Hgeo Hok Hs Hu Hst Hf.
  assert (Hv : footer_serial (footer_at (mem w) sector) = Some serial).
  { unfold footer_at. rewrite Hf, decode_footer_with by done.
    by destruct Hst as [-> | [-> | [-> | ->]]]. }
  assert (Hwp : wp (fffs_read_sector_serial sector)
    (fun s _ => s = serial) (fun _ _ => False) w).
  { apply wp_read_sector_serial; [done.. |]. intros w' _. by rewrite Hv. }
  apply wp_returns in Hwp as (s & w' & Hrun & ->). by exists w'.
Qed.
End SectorNor.

(** ** Properties *)

(** Whether the sector's footer says that the sector is in use, and full. *)
Definition sector_live `{Backend} (g : fs_geometry) (m : Z -> Z) (sector : Z)
  : bool :=
  fffs_lifecycle_is_live (ft_valid_bits (footer_at g m sector))
    (ft_tombstone_bits (footer_at g m sector)).

Definition sector_full `{Backend} (g : fs_geometry) (m : Z -> Z) (sector : Z)
  : bool :=
  bool_decide (ft_full_bits (footer_at g m sector) = FFFS_BITMIRROR_CLEARED).

(** The life of a data sector.  Writing a footer in erased flash, marking
    the sector full and tombstoning it each terminate and succeed; the sector
    is live and not full, then live and full, then neither live; and after each
    of the three steps [fffs_read_sector_serial] returns the serial the footer
    was written with. *)
Theorem sector_footer_life `{Backend} `{!NorFlash} `{!ValidBackend}
    (g : fs_geometry) `{!GeoOk g} (sector serial : Z) (w : world) :
  fs_geo (w_fs w) = g -> flash_ok w ->
  index_sectors g <= sector < sector_count g -> is_u32 serial ->
  erased_span (mem w) (fffs_sector_footer_offset g sector)
    FFFS_SECTOR_FOOTER_SIZE ->
  exists w1 w2 w3,
    fffs_write_sector_footer sector serial w = (Ok tt, w1) /\
    fffs_mark_sector_full sector w1 = (Ok tt, w2) /\
    fffs_tombstone_sector sector w2 = (Ok tt, w3) /\
    (sector_live g (mem w1) sector = true /\
     sector_full g (mem w1) sector = false) /\
    (sector_live g (mem w2) sector = true /\
     sector_full g (mem w2) sector = true) /\
    sector_live g (mem w3) sector = false /\
    Forall (fun wi => exists w', fffs_read_sector_serial sector wi =
      (Ok serial, w')) ([w1; w2; w3] : list world).
Proof.
  intros Hgeo Hok Hs Hu He. pose proof (geo_index (g := g)).
  assert (Hs' : 0 <= sector < sector_count g) by lia.
  assert (Hwp : wp (fffs_write_sector_footer sector serial)
    (fun _ w1 => flash_is (mem w1) w w1 /\ footer_bytes g (mem w1) sector =
       footer_with serial FFFS_LIFECYCLE_VALID) (fun _ _ => False) w).
  { apply (wp_write_footer g); [done.. |]. intros w1 Hw1. split.
    - destruct Hw1; by split.
    - rewrite <- (footer_write g (mem w) sector serial) by done.
      apply mem_bytes_ext. intros; apply Hw1. }
  apply wp_returns in Hwp as ([] & w1 & Hr1 & Hw1 & Hf1).
  assert (Hg1 : fs_geo (w_fs w1) = g) by by rewrite (fi_fs _ _ _ Hw1).
  assert (Hwp : wp (fffs_mark_sector_full sector)
    (fun _ w2 => flash_is (mem w2) w1 w2 /\ footer_bytes g (mem w2) sector =
       footer_with serial FFFS_LIFECYCLE_FULL) (fun _ _ => False) w1).
  { eapply (wp_mark_sector_full g); [done | apply Hw1 | done | done | by split]. }
  apply wp_returns in Hwp as ([] & w2 & Hr2 & Hw2 & Hf2).
  assert (Hg2 : fs_geo (w_fs w2) = g) by by rewrite (fi_fs _ _ _ Hw2).
  assert (Hwp : wp (fffs_tombstone_sector sector)
    (fun _ w3 => flash_is (mem w3) w2 w3 /\ footer_bytes g (mem w3) sector =
       footer_with serial 0x18) (fun _ _ => False) w2).
  { eapply (wp_tombstone_sector g); [done | apply Hw2 | done | done | by split]. }
  apply wp_returns in Hwp as ([] & w3 & Hr3 & Hw3 & Hf3).
  assert (Hg3 : fs_geo (w_fs w3) = g) by by rewrite (fi_fs _ _ _ Hw3).
  exists w1, w2, w3. unfold sector_live, sector_full, footer_at.
  rewrite Hf1, Hf2, Hf3, !decode_footer_with by done.
  repeat (split; [done || (split; reflexivity) |]).
  repeat apply Forall_cons_2; [.. | apply Forall_nil_2];
    [eapply (read_serial_with g _ _ _ _ Hg1 (fi_ok _ _ _ Hw1) Hs Hu) |
     eapply (read_serial_with g _ _ _ _ Hg2 (fi_ok _ _ _ Hw2) Hs Hu) |
     eapply (read_serial_with g _ _ _ _ Hg3 (fi_ok _ _ _ Hw3) Hs Hu)];
    [| exact Hf1 | | exact Hf2 | | exact Hf3]; tauto.
Qed.

Lemma sector_footer_life_witness :
  exists w1 : world, @fffs_write_sector_footer Demo.backend 3 77 Demo.blank =
    (Ok tt, w1) /\ exists w', fffs_read_sector_serial 3 w1 = (Ok 77, w').
Proof.
  destruct (@sector_footer_life Demo.backend (dev_nor 2048 4) Demo.valid
    Demo.geo Demo.geo_valid 3 77 Demo.blank eq_refl Demo.blank_ok)
    as (w1 & w2 & w3 & Hr & _ & _ & _ & _ & _ & Hf).
  - simpl. lia.
  - unfold is_u32. lia.
  - intros a _. apply Demo.blank_mem.
  - exists w1. split; [exact Hr |]. by inversion Hf.
Defined.
