(* ===== verification/AllocMap.v ===== *)
(** * Allocation map

    [src/fffs_alloc_map.c] in its default mode, the full bitmap
    ([FFFS_ALLOC_MAP_FULL_BITMAP]). *)

From S2P Require Export Flash.

Definition map_words_for_sectors (count : Z) : Z := (count + 31) / 32.

Definition map_mask (sector : Z) : Z := u32 (Z.shiftl 1 (Z.land sector 31)).

Definition fffs_alloc_map_config_valid (count : Z) (opts : fffs_mount_options)
  : bool :=
  match opt_alloc_map opts with
  | None => false
  | Some _ => map_words_for_sectors count <=? opt_alloc_map_words opts
  end.

(** [fs->alloc_map[sector / 32u] & map_mask(sector)] and its two updates, on
    the words of the map. *)
Definition map_get (words : list Z) (sector : Z) : bool :=
  negb (Z.land (byte_at words (sector / 32)) (map_mask sector) =? 0).

Definition map_set (words : list Z) (sector : Z) : list Z :=
  <[Z.to_nat (sector / 32) :=
      Z.lor (byte_at words (sector / 32)) (map_mask sector)]> words.

Definition map_clear (words : list Z) (sector : Z) : list Z :=
  <[Z.to_nat (sector / 32) :=
      Z.land (byte_at words (sector / 32))
        (UINT32_MAX - map_mask sector)]> words.

Section AllocMap.
Context `{Backend}.

Definition fffs_alloc_map_maybe_used (fs : fffs) (sector : Z) : bool :=
  match alloc_map (fs_alloc fs) with
  | None => false
  | Some words =>
      if sector_count (fs_geo fs) <=? sector then false
      else map_get words sector
  end.

Definition alloc_map_update (f : list Z -> Z -> list Z) (sector : Z)
  : M unit :=
  mod_fs (fun fs =>
    match alloc_map (fs_alloc fs) with
    | None => fs
    | Some words =>
        if sector_count (fs_geo fs) <=? sector then fs
        else set_fs_alloc (set_alloc_map (Some (f words sector))
                             (fs_alloc fs)) fs
    end).

Definition fffs_alloc_map_mark_used (sector : Z) : M unit :=
  alloc_map_update map_set sector.

Definition fffs_alloc_map_mark_unknown (sector : Z) : M unit :=
  alloc_map_update map_clear sector.

Fixpoint mark_range_unknown_loop (n : nat) (first i : Z) : M unit :=
  match n with
  | O => ret tt
  | S n' =>
      fffs_alloc_map_mark_unknown (u16 (first + i)) ;;
      mark_range_unknown_loop n' first (i + 1)
  end.

Definition fffs_alloc_map_mark_range_unknown (first count : Z) : M unit :=
  mark_range_unknown_loop (Z.to_nat count) first 0.

Fixpoint mark_index_used_loop (n : nat) (sector : Z) : M unit :=
  match n with
  | O => ret tt
  | S n' =>
      fffs_alloc_map_mark_used sector ;;
      mark_index_used_loop n' (sector + 1)
  end.

Definition fffs_alloc_map_mount_init (opts : fffs_mount_options) : M unit :=
  g <- get_geo ;;
  let words := map_words_for_sectors (sector_count g) in
  if negb (fffs_alloc_map_config_valid (sector_count g) opts)
  then fail FFFS_ERR_INVALID
  else
    match opt_alloc_map opts with
    | None => fail FFFS_ERR_INVALID
    | Some buf =>
        mod_alloc (set_alloc_map (Some (splice 0 (fill words 0) buf))) ;;
        mark_index_used_loop (Z.to_nat (index_sectors g)) 0
    end.
End AllocMap.

(** ** The map as a set of sectors *)

Lemma land_pow2_testbit x k :
  0 <= k -> negb (Z.land x (2 ^ k) =? 0) = Z.testbit x k.
Proof.
  intros Hk. destruct (Z.testbit x k) eqn:Hb.
  - apply negb_true_iff, Z.eqb_neq. intros H0.
    assert (Ht : Z.testbit (Z.land x (2 ^ k)) k = true)
      by (rewrite Z.land_spec, Hb, Z.pow2_bits_true; done).
    by rewrite H0, Z.bits_0 in Ht.
  - apply negb_false_iff, Z.eqb_eq, Z.bits_inj'. intros i Hi.
    rewrite Z.land_spec, Z.bits_0, Z.pow2_bits_eqb by done.
    destruct (Z.eqb_spec k i) as [<- |]; [by rewrite Hb | by rewrite andb_false_r].
Qed.

Lemma map_mask_pow sector : map_mask sector = 2 ^ (sector mod 32).
Proof.
  unfold map_mask. change 31 with (Z.ones 5). rewrite Z.land_ones by lia.
  change (2 ^ 5) with 32. pose proof (Z.mod_pos_bound sector 32 ltac:(lia)).
  rewrite Z.shiftl_1_l. apply u32_small. unfold is_u32. split; [lia |].
  apply Z.pow_lt_mono_r; lia.
Qed.

Lemma map_get_testbit words sector :
  map_get words sector = Z.testbit (byte_at words (sector / 32)) (sector mod 32).
Proof.
  unfold map_get. rewrite map_mask_pow. apply land_pow2_testbit.
  apply Z.mod_pos_bound. lia.
Qed.

(** [sector] has a bit in the words. *)
Definition map_covers (words : list Z) (sector : Z) : Prop :=
  0 <= sector /\ sector / 32 < zlen words.

Lemma byte_at_insert_word (words : list Z) i v j :
  0 <= i < zlen words -> 0 <= j ->
  byte_at (<[Z.to_nat i := v]> words) j = if j =? i then v else byte_at words j.
Proof.
  unfold byte_at, zlen. intros Hi Hj. rewrite !nth_lookup.
  destruct (Z.eqb_spec j i) as [-> | Hne].
  - by rewrite list_lookup_insert_eq by lia.
  - by rewrite list_lookup_insert_ne by lia.
Qed.

Lemma map_get_set words s s' :
  map_covers words s -> 0 <= s' ->
  map_get (map_set words s) s' = (s' =? s) || map_get words s'.
Proof.
  intros [Hs Hl] Hs'. rewrite !map_get_testbit. unfold map_set.
  pose proof (Z.mod_pos_bound s 32 ltac:(lia)).
  pose proof (Z.mod_pos_bound s' 32 ltac:(lia)).
  pose proof (Z.div_mod s 32). pose proof (Z.div_mod s' 32).
  assert (0 <= s / 32) by (apply Z.div_pos; lia).
  assert (0 <= s' / 32) by (apply Z.div_pos; lia).
  rewrite byte_at_insert_word by lia.
  destruct (Z.eqb_spec (s' / 32) (s / 32)) as [Heq | Hne].
  - rewrite Z.lor_spec, map_mask_pow, Z.pow2_bits_eqb, Heq by lia.
    rewrite orb_comm. f_equal.
    destruct (Z.eqb_spec (s mod 32) (s' mod 32)), (Z.eqb_spec s' s); lia || done.
  - destruct (Z.eqb_spec s' s); [congruence | done].
Qed.

Lemma testbit_clear_mask k i :
  0 <= k < 32 -> 0 <= i < 32 ->
  Z.testbit (UINT32_MAX - 2 ^ k) i = negb (i =? k).
Proof.
  intros Hk Hi. change UINT32_MAX with (Z.ones 32).
  rewrite Z.sub_nocarry_ldiff.
  - rewrite Z.ldiff_spec, Z.ones_spec_low, Z.pow2_bits_eqb by lia. simpl.
    by rewrite Z.eqb_sym.
  - apply Z.bits_inj'. intros j Hj. rewrite Z.ldiff_spec, Z.bits_0.
    rewrite Z.pow2_bits_eqb by lia. destruct (Z.eqb_spec k j) as [<- |]; [| done].
    by rewrite Z.ones_spec_low by lia.
Qed.

Lemma map_get_clear words s s' :
  map_covers words s -> 0 <= s' ->
  map_get (map_clear words s) s' = negb (s' =? s) && map_get words s'.
Proof.
  intros [Hs Hl] Hs'. rewrite !map_get_testbit. unfold map_clear.
  pose proof (Z.mod_pos_bound s 32 ltac:(lia)).
  pose proof (Z.mod_pos_bound s' 32 ltac:(lia)).
  pose proof (Z.div_mod s 32). pose proof (Z.div_mod s' 32).
  assert (0 <= s / 32) by (apply Z.div_pos; lia).
  assert (0 <= s' / 32) by (apply Z.div_pos; lia).
  rewrite byte_at_insert_word by lia.
  destruct (Z.eqb_spec (s' / 32) (s / 32)) as [Heq | Hne].
  - rewrite Z.land_spec, map_mask_pow, testbit_clear_mask, Heq by lia.
    rewrite andb_comm. f_equal. f_equal.
    destruct (Z.eqb_spec (s' mod 32) (s mod 32)), (Z.eqb_spec s' s); lia || done.
  - destruct (Z.eqb_spec s' s); [congruence | done].
Qed.

Lemma zlen_map_set words s : zlen (map_set words s) = zlen words.
Proof. unfold zlen, map_set. by rewrite length_insert. Qed.

Lemma zlen_map_clear words s : zlen (map_clear words s) = zlen words.
Proof. unfold zlen, map_clear. by rewrite length_insert. Qed.

(** The allocation map of a mounted file system has a bit per sector. *)
Definition map_ok (fs : fffs) : Prop :=
  exists words, alloc_map (fs_alloc fs) = Some words /\
    sector_count (fs_geo fs) <= 32 * zlen words.

(** All of [struct fffs] but the allocation map. *)
Definition fs_less_map (fs : fffs) : fffs :=
  set_fs_alloc (set_alloc_map None (fs_alloc fs)) fs.

(** The state after a change of the map. *)
Record map_step `{Backend} (w w' : world) : Prop := {
  ms_ctx : w_ctx w' = w_ctx w;
  ms_fs : fs_less_map (w_fs w') = fs_less_map (w_fs w);
  ms_files : w_files w' = w_files w;
  ms_ok : map_ok (w_fs w');
}.

Section AllocMapSpec.
Context `{Backend}.

(** What the map says of the sectors of the image. *)
Definition used (w : world) (s : Z) : bool :=
  fffs_alloc_map_maybe_used (w_fs w) s.

Lemma covers_ok words count s :
  count <= 32 * zlen words -> 0 <= s < count -> map_covers words s.
Proof.
  intros Hc Hs. split; [lia |]. apply Z.div_lt_upper_bound; lia.
Qed.

Lemma map_update_run f sector w :
  map_ok (w_fs w) -> 0 <= sector < sector_count (fs_geo (w_fs w)) ->
  (forall words, zlen (f words sector) = zlen words) ->
  exists words w', alloc_map (fs_alloc (w_fs w)) = Some words /\
    map_covers words sector /\ alloc_map_update f sector w = (Ok tt, w') /\
    map_step w w' /\
    alloc_map (fs_alloc (w_fs w')) = Some (f words sector).
Proof.
  intros (words & Hw & Hc) Hs Hf. exists words.
  unfold alloc_map_update, mod_fs. rewrite Hw.
  destruct (Z.leb_spec (sector_count (fs_geo (w_fs w))) sector); [lia |].
  eexists. split; [done |]. split; [by eapply covers_ok |]. split; [done |].
  split; [| done]. split; try done. exists (f words sector).
  split; [done |]. by rewrite Hf.
Qed.

Lemma maybe_used_words w words s :
  alloc_map (fs_alloc (w_fs w)) = Some words ->
  s < sector_count (fs_geo (w_fs w)) -> used w s = map_get words s.
Proof.
  intros Hw Hs. unfold used, fffs_alloc_map_maybe_used. rewrite Hw.
  destruct (Z.leb_spec (sector_count (fs_geo (w_fs w))) s); [lia | done].
Qed.

Lemma map_step_geo w w' : map_step w w' -> fs_geo (w_fs w') = fs_geo (w_fs w).
Proof. intros Hst. exact (f_equal fs_geo (ms_fs _ _ Hst)). Qed.

Lemma map_step_trans w1 w2 w3 : map_step w1 w2 -> map_step w2 w3 -> map_step w1 w3.
Proof. intros [] []. split; congruence. Qed.

Lemma mark_used_run sector w :
  map_ok (w_fs w) -> 0 <= sector < sector_count (fs_geo (w_fs w)) ->
  exists w', fffs_alloc_map_mark_used sector w = (Ok tt, w') /\ map_step w w' /\
    forall s, 0 <= s < sector_count (fs_geo (w_fs w)) ->
      used w' s = (s =? sector) || used w s.
Proof.
  intros Hok Hs.
  destruct (map_update_run map_set sector w Hok Hs (fun _ => zlen_map_set _ _))
    as (words & w' & Hw & Hc & Hrun & Hst & Hw').
  exists w'. split; [done |]. split; [done |]. intros s Hs'.
  rewrite (maybe_used_words _ _ _ Hw') by (rewrite (map_step_geo _ _ Hst); lia).
  rewrite (maybe_used_words _ _ _ Hw) by lia. apply map_get_set; [done | lia].
Qed.

Lemma mark_unknown_run sector w :
  map_ok (w_fs w) -> 0 <= sector < sector_count (fs_geo (w_fs w)) ->
  exists w', fffs_alloc_map_mark_unknown sector w = (Ok tt, w') /\
    map_step w w' /\
    forall s, 0 <= s < sector_count (fs_geo (w_fs w)) ->
      used w' s = negb (s =? sector) && used w s.
Proof.
  intros Hok Hs.
  destruct (map_update_run map_clear sector w Hok Hs (fun _ => zlen_map_clear _ _))
    as (words & w' & Hw & Hc & Hrun & Hst & Hw').
  exists w'. split; [done |]. split; [done |]. intros s Hs'.
  rewrite (maybe_used_words _ _ _ Hw') by (rewrite (map_step_geo _ _ Hst); lia).
  rewrite (maybe_used_words _ _ _ Hw) by lia. apply map_get_clear; [done | lia].
Qed.

Lemma mark_range_run n first i w :
  map_ok (w_fs w) -> 0 <= first + i ->
  first + i + Z.of_nat n <= sector_count (fs_geo (w_fs w)) ->
  sector_count (fs_geo (w_fs w)) <= UINT16_MAX ->
  exists w', mark_range_unknown_loop n first i w = (Ok tt, w') /\
    map_step w w' /\
    forall s, 0 <= s < sector_count (fs_geo (w_fs w)) ->
      used w' s =
        negb ((first + i <=? s) && (s <? first + i + Z.of_nat n)) && used w s.
Proof.
  revert i w. induction n as [|n IH]; intros i w Hok Hi Hn Hc.
  - exists w. split; [done |]. split; [by split |]. intros s _.
    destruct (Z.leb_spec (first + i) s), (Z.ltb_spec s (first + i + Z.of_nat 0));
      simpl; done || lia.
  - cbn [mark_range_unknown_loop]. unfold bind.
    rewrite u16_small by (unfold is_u16; lia).
    destruct (mark_unknown_run (first + i) w Hok) as (w1 & -> & Hst & Hu); [lia |].
    pose proof (map_step_geo _ _ Hst) as Hg.
    destruct (IH (i + 1) w1) as (w2 & -> & Hst2 & Hu2);
      [apply Hst | lia | rewrite Hg; lia | by rewrite Hg |].
    exists w2. split; [done |]. split; [by eapply map_step_trans |].
    intros s Hs. rewrite Hu2 by (rewrite Hg; lia). rewrite Hu by lia.
    rewrite andb_assoc. f_equal.
    destruct (Z.leb_spec (first + (i + 1)) s), (Z.leb_spec (first + i) s),
      (Z.ltb_spec s (first + (i + 1) + Z.of_nat n)),
      (Z.ltb_spec s (first + i + Z.of_nat (S n))), (Z.eqb_spec s (first + i));
      simpl; done || lia.
Qed.

Lemma mark_index_run n sector w :
  map_ok (w_fs w) -> 0 <= sector ->
  sector + Z.of_nat n <= sector_count (fs_geo (w_fs w)) ->
  exists w', mark_index_used_loop n sector w = (Ok tt, w') /\ map_step w w' /\
    forall s, 0 <= s < sector_count (fs_geo (w_fs w)) ->
      used w' s =
        ((sector <=? s) && (s <? sector + Z.of_nat n)) || used w s.
Proof.
  revert sector w. induction n as [|n IH]; intros sector w Hok Hi Hn.
  - exists w. split; [done |]. split; [by split |]. intros s _.
    destruct (Z.leb_spec sector s), (Z.ltb_spec s (sector + Z.of_nat 0));
      simpl; done || lia.
  - cbn [mark_index_used_loop]. unfold bind.
    destruct (mark_used_run sector w Hok) as (w1 & -> & Hst & Hu); [lia |].
    pose proof (map_step_geo _ _ Hst) as Hg.
    destruct (IH (sector + 1) w1) as (w2 & -> & Hst2 & Hu2);
      [apply Hst | lia | rewrite Hg; lia |].
    exists w2. split; [done |]. split; [by eapply map_step_trans |].
    intros s Hs. rewrite Hu2 by (rewrite Hg; lia). rewrite Hu by lia.
    rewrite orb_assoc. f_equal.
    destruct (Z.leb_spec (sector + 1) s), (Z.leb_spec sector s),
      (Z.ltb_spec s (sector + 1 + Z.of_nat n)),
      (Z.ltb_spec s (sector + Z.of_nat (S n))), (Z.eqb_spec s sector);
      simpl; done || lia.
Qed.

Lemma map_get_zero n rest s :
  0 <= s -> s / 32 < n -> map_get (fill n 0 ++ rest) s = false.
Proof.
  intros Hs Hn. rewrite map_get_testbit.
  assert (0 <= s / 32) by (apply Z.div_pos; lia).
  rewrite byte_at_app_l by (rewrite zlen_fill; lia).
  rewrite byte_at_fill by lia. apply Z.bits_0.
Qed.

(** The initialisation at mount: exactly the index sectors are in use. *)
Lemma mount_init_run opts buf w :
  let g := fs_geo (w_fs w) in
  opt_alloc_map opts = Some buf -> opt_alloc_map_words opts = zlen buf ->
  map_words_for_sectors (sector_count g) <= zlen buf ->
  0 <= index_sectors g <= sector_count g ->
  exists w', fffs_alloc_map_mount_init opts w = (Ok tt, w') /\
    w_ctx w' = w_ctx w /\ fs_less_map (w_fs w') = fs_less_map (w_fs w) /\
    w_files w' = w_files w /\ map_ok (w_fs w') /\
    forall s, 0 <= s < sector_count g -> used w' s = (s <? index_sectors g).
Proof.
  intros g Hbuf Hwords Hfit Hidx.
  unfold fffs_alloc_map_mount_init, bind at 1, get_geo. fold g.
  unfold fffs_alloc_map_config_valid. rewrite Hbuf, Hwords.
  rewrite (proj2 (Z.leb_le _ _) Hfit). cbn [negb]. unfold bind, mod_alloc, mod_fs.
  set (n := map_words_for_sectors (sector_count g)) in *.
  assert (Hn : sector_count g <= 32 * n /\ 0 <= n).
  { unfold n, map_words_for_sectors.
    pose proof (Z.div_mod (sector_count g + 31) 32).
    pose proof (Z.mod_pos_bound (sector_count g + 31) 32). lia. }
  set (w1 := mk_world _ _ _).
  assert (Hm1 : alloc_map (fs_alloc (w_fs w1)) = Some (splice 0 (fill n 0) buf)) by done.
  assert (Hok1 : map_ok (w_fs w1)).
  { eexists. split; [exact Hm1 |].
    rewrite zlen_splice by (rewrite ?zlen_fill; lia). simpl. fold g. lia. }
  destruct (mark_index_run (Z.to_nat (index_sectors g)) 0 w1 Hok1)
    as (w2 & -> & Hst & Hu); [lia | simpl; fold g; lia |].
  exists w2. split; [done |]. split; [by rewrite (ms_ctx _ _ Hst) |].
  split; [by rewrite (ms_fs _ _ Hst) |]. split; [by rewrite (ms_files _ _ Hst) |].
  split; [apply Hst |]. intros s Hs. rewrite Hu by exact Hs.
  rewrite (maybe_used_words _ _ _ Hm1) by apply Hs.
  unfold splice. change (take (Z.to_nat 0) buf) with (@nil Z). cbn [app].
  rewrite map_get_zero by (try apply Z.div_lt_upper_bound; lia).
  destruct (Z.leb_spec 0 s), (Z.ltb_spec s (0 + Z.of_nat (Z.to_nat (index_sectors g)))),
    (Z.ltb_spec s (index_sectors g)); simpl; done || lia.
Qed.
End AllocMapSpec.

(** ** Properties *)

(** The allocation map is a set of sectors.  On a map with a bit per sector,
    marking a sector used adds exactly it, marking it unknown removes exactly
    it, and marking a range unknown removes exactly the range; nothing but the
    map changes. *)
Theorem alloc_map_set_laws `{Backend} (sector count : Z) (w : world) :
  let n := sector_count (fs_geo (w_fs w)) in
  map_ok (w_fs w) -> n <= UINT16_MAX ->
  0 <= sector < n -> 0 <= count -> sector + count <= n ->
  (exists w', fffs_alloc_map_mark_used sector w = (Ok tt, w') /\
     map_step w w' /\
     forall s, 0 <= s < n -> used w' s = (s =? sector) || used w s) /\
  (exists w', fffs_alloc_map_mark_unknown sector w = (Ok tt, w') /\
     map_step w w' /\
     forall s, 0 <= s < n -> used w' s = negb (s =? sector) && used w s) /\
  (exists w', fffs_alloc_map_mark_range_unknown sector count w = (Ok tt, w') /\
     map_step w w' /\
     forall s, 0 <= s < n ->
       used w' s =
         negb ((sector <=? s) && (s <? sector + count)) && used w s).
Proof.
  intros n Hok Hn Hs Hc Hsc. split; [by apply mark_used_run |].
  split; [by apply mark_unknown_run |].
  unfold fffs_alloc_map_mark_range_unknown.
  destruct (mark_range_run (Z.to_nat count) sector 0 w) as (w' & Hrun & Hst & Hu);
    [done | lia | lia | done |].
  exists w'. split; [done |]. split; [done |]. intros s Hs'.
  rewrite Hu by done. by rewrite Z.add_0_r, Z2Nat.id by done.
Qed.

Lemma alloc_map_set_laws_witness :
  exists w', @fffs_alloc_map_mark_used Demo.backend 5 Demo.blank = (Ok tt, w') /\
    used w' 5 = true /\ used w' 6 = false.
Proof.
  destruct (@alloc_map_set_laws Demo.backend 5 2 Demo.blank) as
    ((w' & Hr & _ & Hu) & _ & _).
  - exists [3]. split; [reflexivity | simpl; unfold zlen; simpl; lia].
  - simpl. lia.
  - simpl. lia.
  - lia.
  - simpl. lia.
  - exists w'. split; [exact Hr |].
    split; (etransitivity; [apply Hu; simpl; lia | reflexivity]).
Defined.

(** The allocation map after mount.  With a buffer large enough for a bit
    per sector, [fffs_alloc_map_mount_init] succeeds and leaves exactly the
    index sectors marked used, whatever the buffer held. *)
Theorem alloc_map_mount_exact `{Backend} (opts : fffs_mount_options)
    (buf : list Z) (w : world) :
  let g := fs_geo (w_fs w) in
  opt_alloc_map opts = Some buf -> opt_alloc_map_words opts = zlen buf ->
  map_words_for_sectors (sector_count g) <= zlen buf ->
  0 <= index_sectors g <= sector_count g ->
  exists w', fffs_alloc_map_mount_init opts w = (Ok tt, w') /\
    map_ok (w_fs w') /\
    forall s, 0 <= s < sector_count g -> used w' s = (s <? index_sectors g).
Proof.
  intros g Hb Hw Hf Hi.
  destruct (mount_init_run opts buf w Hb Hw Hf Hi) as (w' & Hr & _ & _ & _ & Hok & Hu).
  by exists w'.
Qed.

Lemma alloc_map_mount_exact_witness :
  exists w', @fffs_alloc_map_mount_init Demo.backend
      (mk_mount_options true 64 16 (Some (fill 64 0)) 64 false (Some [0xffff]) 1)
      Demo.blank = (Ok tt, w') /\ used w' 1 = true /\ used w' 2 = false.
Proof.
  destruct (@alloc_map_mount_exact Demo.backend
    (mk_mount_options true 64 16 (Some (fill 64 0)) 64 false (Some [0xffff]) 1)
    [0xffff] Demo.blank) as (w' & Hr & _ & Hu).
  - reflexivity.
  - reflexivity.
  - vm_compute. discriminate.
  - simpl. lia.
  - exists w'. split; [exact Hr |].
    split; (etransitivity; [apply Hu; simpl; lia | reflexivity]).
Defined.
