(* ===== verification/OpenFiles.v ===== *)
(** * Open file handles

    The list of open handles of [src/fffs_file.c] ([register_open_file],
    [unregister_open_file]) and the queries over it: writers that hold a
    sector, handles that pin a slot, reservations ([src/fffs_alloc.c]). *)

From S2P Require Export AllocMap.

(** The identifiers met by
    [for (file = fs->open_files; file; file = file->open_next)]; [n] bounds
    the walk and is the number of handles in the store. *)
Fixpoint open_list_from (n : nat) (files : gmap Z fffs_file) (id : Z)
  : list Z :=
  if id =? 0 then []
  else match n with
       | O => []
       | S n' =>
           match files !! id with
           | None => []
           | Some f => id :: open_list_from n' files (f_open_next f)
           end
       end.

Definition open_list (fs : fffs) (files : gmap Z fffs_file) : list Z :=
  open_list_from (size files) files (open_files fs).

Definition open_handles (fs : fffs) (files : gmap Z fffs_file)
  : list fffs_file :=
  file_of files <$> open_list fs files.

Definition has_flag (flags bit : Z) : bool := negb (Z.land flags bit =? 0).

(** A handle that is an open writer. *)
Definition is_open_writer (f : fffs_file) : bool :=
  negb (f_closed f) && has_flag (f_flags f) FFFS_O_WRONLY.

Definition holds_sector (sector : Z) (f : fffs_file) : bool :=
  is_open_writer f &&
  ((f_head f =? sector) || (f_current f =? sector) ||
   (negb (f_span_head f =? 0) && (f_span_head f <=? sector) &&
    (sector <=? f_current f))).

Definition fffs_sector_is_open_for_writing (fs : fffs)
    (files : gmap Z fffs_file) (sector : Z) : bool :=
  existsb (holds_sector sector) (open_handles fs files).

Definition pins_slot (slot : Z) (f : fffs_file) : bool :=
  negb (f_closed f) && (f_slot f =? slot).

Definition fffs_slot_is_pinned (fs : fffs) (files : gmap Z fffs_file)
    (slot : Z) : bool :=
  existsb (pins_slot slot) (open_handles fs files).

Definition sector_in_reservation (f : fffs_file) (sector : Z) : bool :=
  if f_reserve_count f =? 0 then false
  else (f_reserve_first f <=? sector) &&
       (sector <? u16 (f_reserve_first f + f_reserve_count f)).

Definition sector_reserved_by_other (fs : fffs) (files : gmap Z fffs_file)
    (owner sector : Z) : bool :=
  existsb (fun id =>
      let f := file_of files id in
      if (id =? owner) || f_closed f || negb (has_flag (f_flags f) FFFS_O_WRONLY)
      then false
      else sector_in_reservation f sector)
    (open_list fs files).

Section OpenFiles.
Context `{Backend}.

Definition is_open_for_writing (sector : Z) : M bool := fun w =>
  (Ok (fffs_sector_is_open_for_writing (w_fs w) (w_files w) sector), w).

Definition slot_is_pinned (slot : Z) : M bool := fun w =>
  (Ok (fffs_slot_is_pinned (w_fs w) (w_files w) slot), w).

Definition reserved_by_other (owner sector : Z) : M bool := fun w =>
  (Ok (sector_reserved_by_other (w_fs w) (w_files w) owner sector), w).

Definition register_open_file (id : Z) : M unit :=
  f <- get_file id ;;
  if f_open_registered f then ret tt
  else
    fs <- get_fs ;;
    mod_file id (set_f_open_next (open_files fs)) ;;
    mod_fs (set_open_files id) ;;
    mod_file id (set_f_open_registered true).

(** The walk over the links: [prev] is the handle whose [open_next] field is
    [*p], 0 when [*p] is [fs->open_files]. *)
Fixpoint unlink_loop (n : nat) (id prev cur : Z) : M unit :=
  if cur =? 0 then ret tt
  else match n with
       | O => diverge
       | S n' =>
           f <- get_file cur ;;
           if cur =? id then
             (if prev =? 0 then mod_fs (set_open_files (f_open_next f))
              else mod_file prev (set_f_open_next (f_open_next f)))
           else unlink_loop n' id cur (f_open_next f)
       end.

Definition unregister_open_file (id : Z) : M unit :=
  f <- get_file id ;;
  if negb (f_open_registered f) || negb (f_fs f) then ret tt
  else
    fs <- get_fs ;;
    files <- get_files ;;
    unlink_loop (size files) id 0 (open_files fs) ;;
    mod_file id (fun f => set_f_open_registered false (set_f_open_next 0 f)).
End OpenFiles.

(** ** The list as a value *)

(** The chain of handles that starts at [id]. *)
Fixpoint linked (files : gmap Z fffs_file) (id : Z) (l : list Z) : Prop :=
  match l with
  | [] => id = 0
  | x :: rest => id = x /\ x <> 0 /\
      exists f, files !! x = Some f /\ linked files (f_open_next f) rest
  end.

(** A well-formed list: a chain without repetition. *)
Definition open_ok (fs : fffs) (files : gmap Z fffs_file) : Prop :=
  exists l, linked files (open_files fs) l /\ NoDup l.

(** A handle without its links. *)
Definition unlinked (f : fffs_file) : fffs_file :=
  set_f_open_next 0 (set_f_open_registered false f).

Lemma linked_dom files id l : linked files id l -> Forall (fun x => x <> 0 /\ is_Some (files !! x)) l.
Proof.
  revert id. induction l as [| x l IH]; intros id Hl; [constructor |].
  destruct Hl as (_ & Hne & f & Hf & Hl). constructor; [| by eapply IH].
  split; [done | by exists f].
Qed.

Lemma linked_length files id l :
  linked files id l -> NoDup l -> (length l <= size files)%nat.
Proof.
  intros Hl Hnd. apply linked_dom in Hl.
  rewrite <- size_dom, <- (size_list_to_set (C := gset Z) l) by done.
  apply subseteq_size. intros x Hx. apply elem_of_list_to_set in Hx.
  rewrite Forall_forall in Hl. apply elem_of_dom. by apply Hl.
Qed.

Lemma open_list_linked files id l n :
  linked files id l -> (length l <= n)%nat -> open_list_from n files id = l.
Proof.
  revert id n. induction l as [| x l IH]; intros id n Hl Hn.
  - rewrite Hl. by destruct n.
  - destruct Hl as (-> & Hne & f & Hf & Hl). destruct n as [| n]; simpl in Hn; [lia |].
    simpl. rewrite (proj2 (Z.eqb_neq _ _) Hne), Hf. f_equal. apply IH; [done | lia].
Qed.

Lemma open_list_eq fs files l :
  linked files (open_files fs) l -> NoDup l -> open_list fs files = l.
Proof. intros Hl Hnd. apply open_list_linked; [done | by eapply linked_length]. Qed.

Lemma file_of_insert (files : gmap Z fffs_file) id f :
  file_of (<[id := f]> files) id = f.
Proof. unfold file_of. by rewrite lookup_insert_eq. Qed.

Lemma file_of_insert_ne (files : gmap Z fffs_file) id j f :
  j <> id -> file_of (<[id := f]> files) j = file_of files j.
Proof. intros Hne. unfold file_of. by rewrite lookup_insert_ne. Qed.

(** Changes off the chain, and changes that keep the links. *)
Lemma linked_frame files files' id l :
  linked files id l ->
  (forall x f, x ∈ l -> files !! x = Some f ->
     exists f', files' !! x = Some f' /\ f_open_next f' = f_open_next f) ->
  linked files' id l.
Proof.
  revert id. induction l as [| x l IH]; intros id Hl Hf; [done |].
  destruct Hl as (-> & Hne & f & Hx & Hl). split; [done |]. split; [done |].
  destruct (Hf x f) as (f' & Hx' & Hn); [by left | done |].
  exists f'. split; [done |]. rewrite Hn. apply IH; [done |].
  intros y g Hy. apply Hf. by right.
Qed.

(** Skipping the successor of [p]. *)
Lemma linked_relink files id k p l l' next :
  linked files id (k ++ p :: l) -> NoDup (k ++ p :: l') ->
  linked files next l' ->
  linked (<[p := set_f_open_next next (file_of files p)]> files) id
    (k ++ p :: l').
Proof.
  revert id. induction k as [| x k IH]; intros id Hl Hnd Hn.
  - destruct Hl as (-> & Hne & f & Hf & _). simpl in *.
    apply NoDup_cons in Hnd as [Hp _].
    split; [done |]. split; [done |]. rewrite lookup_insert_eq.
    eexists. split; [done |]. simpl. eapply linked_frame; [exact Hn |].
    intros y g Hy Hg. exists g. rewrite lookup_insert_ne; [done | congruence].
  - destruct Hl as (-> & Hne & f & Hf & Hl). simpl in Hnd.
    apply NoDup_cons in Hnd as [Hx Hnd].
    split; [done |]. split; [done |]. exists f.
    rewrite lookup_insert_ne; [split; [done | by apply IH] |].
    intros <-. apply Hx. apply elem_of_app. right. by left.
Qed.

Lemma linked_suffix files id k x l :
  linked files id (k ++ x :: l) ->
  x <> 0 /\ exists f, files !! x = Some f /\ linked files (f_open_next f) l.
Proof.
  revert id. induction k as [| y k IH]; intros id Hl;
    destruct Hl as (_ & Hne & f & Hf & Hl); [split; eauto | by eapply IH].
Qed.

Section OpenFilesSpec.
Context `{Backend}.

(** [*p = next], where [prev] owns [*p]. *)
Definition relink (prev next : Z) (w : world) : world :=
  if prev =? 0
  then mk_world (w_ctx w) (set_open_files next (w_fs w)) (w_files w)
  else mk_world (w_ctx w) (w_fs w)
    (<[prev := set_f_open_next next (file_of (w_files w) prev)]> (w_files w)).

Lemma unlink_loop_absent n id prev cur l w :
  linked (w_files w) cur l -> (length l <= n)%nat -> id ∉ l ->
  unlink_loop n id prev cur w = (Ok tt, w).
Proof.
  revert n prev cur. induction l as [| x l IH]; intros n prev cur Hl Hn Hid.
  - rewrite Hl. by destruct n.
  - destruct Hl as (-> & Hne & f & Hf & Hl). destruct n as [| n]; simpl in Hn; [lia |].
    apply not_elem_of_cons in Hid as [Hx Hid].
    simpl. rewrite (proj2 (Z.eqb_neq x 0) Hne).
    unfold bind, get_file, file_of. rewrite Hf. simpl.
    rewrite (proj2 (Z.eqb_neq x id)) by done. apply IH; [done | lia | done].
Qed.

Lemma unlink_loop_at n id prev cur l1 l2 w :
  linked (w_files w) cur (l1 ++ id :: l2) -> (length l1 < n)%nat -> id ∉ l1 ->
  unlink_loop n id prev cur w =
    (Ok tt, relink (default prev (last l1))
       (f_open_next (file_of (w_files w) id)) w).
Proof.
  revert n prev cur. induction l1 as [| x l1 IH]; intros n prev cur Hl Hn Hid;
    destruct Hl as (-> & Hne & f & Hf & Hl); destruct n as [| n]; simpl in Hn;
    try lia; cbn [unlink_loop]; rewrite (proj2 (Z.eqb_neq _ 0) Hne);
    unfold bind, get_file.
  - rewrite Z.eqb_refl. unfold relink. simpl. by destruct (prev =? 0).
  - apply not_elem_of_cons in Hid as [Hx Hid].
    rewrite (proj2 (Z.eqb_neq x id)) by done.
    unfold file_of at 1. rewrite Hf. simpl.
    rewrite (IH n x) by (done || lia). do 2 f_equal.
    destruct l1 as [| y l1]; [done |].
    change (last (x :: y :: l1)) with (last (y :: l1)).
    rewrite last_cons. by destruct (last l1).
Qed.
Lemma relink_unlinked prev next w j :
  unlinked (file_of (w_files (relink prev next w)) j) =
  unlinked (file_of (w_files w) j).
Proof.
  unfold relink. destruct (prev =? 0); [done |]. simpl. unfold file_of at 1.
  destruct (decide (j = prev)) as [-> | Hne].
  - by rewrite lookup_insert_eq.
  - by rewrite lookup_insert_ne.
Qed.

Lemma filter_ne_absent (id : Z) (l : list Z) :
  id ∉ l -> filter (fun x => x <> id) l = l.
Proof.
  induction l as [| x l IH]; intros Hid; [done |].
  apply not_elem_of_cons in Hid as [Hx Hid].
  rewrite filter_cons. case_decide; [by rewrite IH | congruence].
Qed.

Lemma filter_ne_split (id : Z) (l1 l2 : list Z) :
  NoDup (l1 ++ id :: l2) ->
  filter (fun x => x <> id) (l1 ++ id :: l2) = l1 ++ l2.
Proof.
  intros Hnd. apply NoDup_app in Hnd as (_ & H1 & H2).
  apply NoDup_cons in H2 as [H2 _].
  rewrite filter_app, filter_cons. case_decide; [done |].
  rewrite !filter_ne_absent; [done | done |].
  intros Hin. apply (H1 id Hin). by left.
Qed.

(** The chain after a handle was unlinked. *)
Lemma relink_chain id l1 l2 w :
  linked (w_files w) (open_files (w_fs w)) (l1 ++ id :: l2) ->
  NoDup (l1 ++ id :: l2) ->
  let w' := relink (default 0 (last l1)) (f_open_next (file_of (w_files w) id)) w in
  linked (w_files w') (open_files (w_fs w')) (l1 ++ l2).
Proof.
  intros Hl Hnd w'.
  destruct (linked_suffix _ _ _ _ _ Hl) as (Hne & f & Hf & Hl2).
  assert (Hn : file_of (w_files w) id = f) by (unfold file_of; by rewrite Hf).
  destruct l1 as [| p k _] using rev_ind.
  - unfold w', relink. simpl. by rewrite Hn.
  - rewrite <- app_assoc in *. simpl in *.
    destruct (linked_suffix _ _ _ _ _ Hl) as (Hp & _).
    unfold w', relink. rewrite last_snoc. simpl.
    rewrite (proj2 (Z.eqb_neq p 0) Hp). simpl. rewrite Hn.
    eapply linked_relink; [exact Hl | | exact Hl2].
    apply NoDup_app in Hnd as (Hk & Hd & Hr). apply NoDup_cons in Hr as [Hpr Hr].
    apply NoDup_cons in Hr as [_ Hr]. apply NoDup_app. split; [done |].
    split; [| apply NoDup_cons; split; [intros Hin; apply Hpr; by right | done]].
    intros x Hx Hin. apply (Hd x Hx). apply elem_of_cons in Hin as [-> | Hin];
      [by left | by right; right].
Qed.
End OpenFilesSpec.

(** ** Properties *)

(** Opening a handle.  On a well-formed list [register_open_file] of a handle
    that is not registered puts it at the head, keeps the list well-formed and
    changes nothing but the links. *)
Theorem register_open_spec `{Backend} (id : Z) (w : world) :
  open_ok (w_fs w) (w_files w) -> id <> 0 ->
  f_open_registered (file_of (w_files w) id) = false ->
  id ∉ open_list (w_fs w) (w_files w) ->
  exists w', register_open_file id w = (Ok tt, w') /\
    w_ctx w' = w_ctx w /\ open_ok (w_fs w') (w_files w') /\
    open_list (w_fs w') (w_files w') = id :: open_list (w_fs w) (w_files w) /\
    set_open_files 0 (w_fs w') = set_open_files 0 (w_fs w) /\
    (forall j, unlinked (file_of (w_files w') j) =
       unlinked (file_of (w_files w) j)).
Proof.
  intros (l & Hl & Hnd) Hid Hreg Hin.
  rewrite (open_list_eq _ _ _ Hl Hnd) in Hin.
  unfold register_open_file, bind at 1, get_file at 1. rewrite Hreg.
  eexists. split; [reflexivity |]. split; [reflexivity |].
  cbn [w_fs w_files].
  set (files := <[_ := _]> _).
  assert (Hl' : linked files id (id :: l)).
  { split; [done |]. split; [done |]. unfold files. rewrite lookup_insert_eq.
    eexists. split; [reflexivity |].
    rewrite file_of_insert. simpl. eapply linked_frame; [exact Hl |].
    intros x f Hx Hf. exists f.
    rewrite !lookup_insert_ne; [done | intros <-; done..]. }
  assert (Hnd' : NoDup (id :: l)) by by apply NoDup_cons.
  split; [by exists (id :: l) |].
  split; [rewrite (open_list_eq _ _ (id :: l)) by done;
    by rewrite (open_list_eq _ _ l) |].
  split; [done |]. intros j. unfold files, file_of.
  destruct (decide (j = id)) as [-> | Hne].
  - rewrite !lookup_insert_eq. simpl. done.
  - by rewrite !lookup_insert_ne.
Qed.

(** Closing a handle.  [unregister_open_file] of a registered handle
    terminates and takes exactly that handle out of the list, wherever it is,
    keeps the list well-formed and changes nothing but the links. *)
Theorem unregister_open_spec `{Backend} (id : Z) (w : world) :
  open_ok (w_fs w) (w_files w) ->
  f_open_registered (file_of (w_files w) id) = true ->
  f_fs (file_of (w_files w) id) = true ->
  exists w', unregister_open_file id w = (Ok tt, w') /\
    w_ctx w' = w_ctx w /\ open_ok (w_fs w') (w_files w') /\
    open_list (w_fs w') (w_files w') =
      filter (fun x => x <> id) (open_list (w_fs w) (w_files w)) /\
    set_open_files 0 (w_fs w') = set_open_files 0 (w_fs w) /\
    (forall j, unlinked (file_of (w_files w') j) =
       unlinked (file_of (w_files w) j)).
Proof.
  intros (l & Hl & Hnd) Hreg Hfs.
  rewrite (open_list_eq _ _ _ Hl Hnd).
  assert (Hrun : exists w1,
    unlink_loop (size (w_files w)) id 0 (open_files (w_fs w)) w = (Ok tt, w1) /\
    w_ctx w1 = w_ctx w /\
    linked (w_files w1) (open_files (w_fs w1)) (filter (fun x => x <> id) l) /\
    set_open_files 0 (w_fs w1) = set_open_files 0 (w_fs w) /\
    forall j, unlinked (file_of (w_files w1) j) =
      unlinked (file_of (w_files w) j)).
  { pose proof (linked_length _ _ _ Hl Hnd) as Hlen.
    destruct (decide (id ∈ l)) as [Hin | Hin].
    - apply list_elem_of_split in Hin as (l1 & l2 & ->).
      rewrite length_app in Hlen. simpl in Hlen.
      assert (Hl1 : id ∉ l1).
      { intros Hin. apply NoDup_app in Hnd as (_ & Hd & _).
        apply (Hd id Hin). by left. }
      eexists. split; [apply (unlink_loop_at _ _ _ _ l1 l2); done || lia |].
      split; [unfold relink; by destruct (_ =? 0) |].
      rewrite filter_ne_split by done. split; [by apply relink_chain |].
      split; [unfold relink; by destruct (_ =? 0) | apply relink_unlinked].
    - exists w. rewrite filter_ne_absent by done.
      split; [by eapply unlink_loop_absent | done]. }
  destruct Hrun as (w1 & Hrun & Hctx & Hl1 & Hfs1 & Hun).
  assert (Hnd1 : NoDup (filter (fun x => x <> id) l)) by by apply NoDup_filter.
  set (f1 := set_f_open_registered false
    (set_f_open_next 0 (file_of (w_files w1) id))).
  assert (Hl2 : linked (<[id := f1]> (w_files w1)) (open_files (w_fs w1))
    (filter (fun x => x <> id) l)).
  { eapply linked_frame; [exact Hl1 |]. intros x f Hx Hf. exists f.
    apply list_elem_of_filter in Hx as [Hne _]. by rewrite lookup_insert_ne. }
  exists (mk_world (w_ctx w1) (w_fs w1) (<[id := f1]> (w_files w1))).
  split; [unfold unregister_open_file, bind at 1, get_file at 1; rewrite Hreg, Hfs;
    simpl; unfold bind, get_fs, get_files; by rewrite Hrun |].
  split; [done |]. split; [by eexists |]. split; [by apply open_list_eq |].
  split; [done |]. intros j. cbn [w_files].
  destruct (decide (j = id)) as [-> | Hne].
  - rewrite file_of_insert, <- Hun. done.
  - by rewrite file_of_insert_ne.
Qed.

(** Two open handles, 1 before 2. *)
Definition demo_open : @world Demo.backend :=
  @mk_world Demo.backend dev_blank (set_open_files 1 Demo.fs)
    (<[1 := set_f_fs true (set_f_open_registered true
        (set_f_open_next 2 file_zero))]>
     {[2 := set_f_fs true (set_f_open_registered true file_zero)]}).

Lemma demo_open_ok : open_ok (w_fs demo_open) (w_files demo_open).
Proof.
  exists [1; 2]. split.
  - split; [done |]. split; [done |]. eexists. split; [reflexivity |].
    split; [done |]. split; [done |]. eexists. split; reflexivity.
  - apply (bool_decide_unpack _). exact I.
Qed.

Lemma register_open_spec_witness :
  exists w', register_open_file 3 demo_open = (Ok tt, w') /\
    open_list (w_fs w') (w_files w') = [3; 1; 2].
Proof.
  destruct (register_open_spec 3 demo_open demo_open_ok) as (w' & Hr & _ & _ & Hl & _).
  - discriminate.
  - reflexivity.
  - apply (bool_decide_unpack _). exact I.
  - exists w'. split; [exact Hr | exact Hl].
Defined.

Lemma unregister_open_spec_witness :
  exists w', unregister_open_file 2 demo_open = (Ok tt, w') /\
    open_list (w_fs w') (w_files w') = [1].
Proof.
  destruct (unregister_open_spec 2 demo_open demo_open_ok eq_refl eq_refl)
    as (w' & Hr & _ & _ & Hl & _).
  exists w'. split; [exact Hr | exact Hl].
Defined.
