(* ===== verification/FileMd.v ===== *)
(** * File metadata records

    [src/fffs_file_md.c] up to the metadata writers that append to the
    journal (those are in [FileMdCommit]): record decoding, the metadata
    walker, lookup of a slot's record and of a file's root, tombstones, the
    free-window scan and the extent writer.  The two accounting helpers of
    [src/fastffs.c] that tombstones call are here too. *)

From S2P Require Export Sector OpenFiles.

(** ** Accounting notes (fastffs.c) *)

Definition committed_mask : Z :=
  Z.lor FFFS_FSINFO_COMMITTED_FILES_VALID FFFS_FSINFO_COMMITTED_BYTES_VALID.

(** [flags &= ~mask] on a 32-bit word *)
Definition clear_flags (flags mask : Z) : Z :=
  Z.land flags (UINT32_MAX - mask).

Definition fffs_fsinfo_invalidate_committed (i : fs_info_state)
  : fs_info_state :=
  set_fsinfo_valid_flags
    (clear_flags (fsinfo_valid_flags i)
       (Z.lor committed_mask FFFS_FSINFO_METADATA_ESTIMATE_VALID)) i.

Definition fffs_fsinfo_committed_valid (i : fs_info_state) : bool :=
  Z.land (fsinfo_valid_flags i) committed_mask =? committed_mask.

Definition fffs_fsinfo_note_committed_add (size : Z) (i : fs_info_state)
  : fs_info_state :=
  if negb (fffs_fsinfo_committed_valid i) then i
  else
    let i := set_committed_file_count (u32 (committed_file_count i + 1)) i in
    let i := set_committed_data_bytes (u32 (committed_data_bytes i + size)) i in
    set_fsinfo_valid_flags
      (clear_flags (fsinfo_valid_flags i) FFFS_FSINFO_METADATA_ESTIMATE_VALID) i.

Definition fffs_fsinfo_note_committed_delete (size : Z) (i : fs_info_state)
  : fs_info_state :=
  if negb (fffs_fsinfo_committed_valid i) then i
  else if (committed_file_count i =? 0) || (committed_data_bytes i <? size)
  then fffs_fsinfo_invalidate_committed i
  else
    let i := set_committed_file_count (u32 (committed_file_count i - 1)) i in
    let i := set_committed_data_bytes (u32 (committed_data_bytes i - size)) i in
    set_fsinfo_valid_flags
      (clear_flags (fsinfo_valid_flags i) FFFS_FSINFO_METADATA_ESTIMATE_VALID) i.

Definition valid_data_sector (g : fs_geometry) (sector : Z) : bool :=
  (index_sectors g <=? sector) && (sector <? sector_count g).

Inductive fffs_md_slot_match : Type :=
  | FFFS_MD_MATCH_LIVE
  | FFFS_MD_MATCH_UNCOMMITTED.

Definition md_record_matches_slot (record : fffs_md_record) (want_slot : Z)
    (m : fffs_md_slot_match) : bool :=
  if negb (md_slot record =? want_slot) then false
  else match m with
       | FFFS_MD_MATCH_UNCOMMITTED => md_state record =? 0xff
       | FFFS_MD_MATCH_LIVE => md_live record
       end.

(** The fields of a 16-byte record, and the checks that decide whether it is a
    walkable record: the part of [decode_file_md_record] after the record has
    been read. *)
Definition decode_md_fields (type record_start : Z) (buf : list Z)
  : fffs_md_record :=
  {| md_type := type;
     md_state := byte_at buf 0;
     md_live := state_is_live (byte_at buf 0);
     md_slot := load16_at buf 1;
     md_next := load16_at buf 3;
     md_span_len := load16_at buf 5;
     md_data_off := load16_at buf 7;
     md_data_len := load16_at buf 9;
     md_size_or_offset := load32_at buf 11;
     md_record_start := record_start;
     md_record_len := FFFS_MD_FILE_RECORD_SIZE |}.

Definition md_fields_valid (g : fs_geometry) (sector record_start : Z)
    (r : fffs_md_record) : bool :=
  let valid := fffs_lifecycle_valid_pair (md_state r) in
  let uncommitted := md_state r =? 0xff in
  if negb uncommitted && negb (md_live r) &&
     negb (bool_decide (valid = FFFS_BITMIRROR_CLEARED)) then false
  else if record_start <? md_data_off r + md_data_len r then false
  else if uncommitted then true
  else if (md_span_len r =? 0) || (sector_count g <? sector + md_span_len r)
  then false
  else if negb (md_next r =? 0) &&
          ((md_next r <? index_sectors g) || (sector_count g <=? md_next r))
  then false
  else true.

Section FileMd.
Context `{Backend}.

(** ** Record decoding *)

Definition decode_file_md_record (reader : fffs_sector_reader)
    (sector cursor : Z)
  : M (fffs_md_record * fffs_md_walk_result * fffs_sector_reader) :=
  g <- get_geo ;;
  let* (tbuf, reader) :=
    fffs_sector_reader_view reader sector (usz (cursor - 1)) 1 in
  let type := byte_at tbuf 0 in
  if type =? 0xff
  then ret (md_record_zero, FFFS_MD_WALK_END_ERASED, reader)
  else if cursor <? FFFS_SECTOR_FOOTER_SIZE + FFFS_MD_FILE_RECORD_SIZE
  then fail FFFS_ERR_CORRUPT
  else
    let record_start := cursor - FFFS_MD_FILE_RECORD_SIZE in
    if negb (type =? FFFS_MD_TYPE_FILE_ROOT_V1) &&
       negb (type =? FFFS_MD_TYPE_FILE_CONT_V1)
    then ret (mk_md_record type 0 false 0 0 0 0 0 0 record_start
                FFFS_MD_FILE_RECORD_SIZE,
              FFFS_MD_WALK_END_INVALID, reader)
    else
      let* (buf, reader) :=
        fffs_sector_reader_view reader sector record_start
          FFFS_MD_FILE_RECORD_SIZE in
      if fffs_flash_bytes_erased buf
      then ret (mk_md_record type 0 false 0 0 0 0 0 0 record_start
                  FFFS_MD_FILE_RECORD_SIZE,
                FFFS_MD_WALK_END_ERASED, reader)
      else
        let r := decode_md_fields type record_start buf in
        ret (r, if md_fields_valid g sector record_start r
                then FFFS_MD_WALK_RECORD else FFFS_MD_WALK_END_INVALID,
             reader).

(** ** The metadata walker *)

Definition fffs_md_walk_init (sector : Z) (window : fffs_sector_reader)
  : M (fffs_md_walk * fffs_sector_reader) :=
  g <- get_geo ;;
  guard_err ((rd_capacity window <?
                FFFS_MD_FILE_RECORD_SIZE + FFFS_SECTOR_FOOTER_SIZE) ||
             (sector <? index_sectors g) || (sector_count g <=? sector))
    FFFS_ERR_INVALID ;;
  let walk := mk_walk (usz (sector_size g - FFFS_SECTOR_FOOTER_SIZE)) 0
                FFFS_SECTOR_FOOTER_SIZE sector 0 false false false false
                true in
  let window :=
    if negb (rd_sector window =? sector)
    then mk_reader (rd_data window) (rd_capacity window) sector 0 0
           (rd_reverse window)
    else window in
  ret (walk, window).

Definition fffs_md_walk_next (walk : fffs_md_walk)
    (window : fffs_sector_reader)
  : M (fffs_md_walk * fffs_sector_reader * fffs_md_record *
       fffs_md_walk_result) :=
  if negb (wk_active walk) || negb (wk_sector walk =? rd_sector window)
  then fail FFFS_ERR_INVALID
  else if wk_cursor walk <=? FFFS_SECTOR_FOOTER_SIZE
  then ret (set_wk_active false walk, window, md_record_zero,
            FFFS_MD_WALK_END_CLAIMED_DATA)
  else
    let* (record, result, window) :=
      decode_file_md_record window (wk_sector walk) (wk_cursor walk) in
    if negb (bool_decide (result = FFFS_MD_WALK_RECORD))
    then ret (set_wk_active false walk, window, record, result)
    else
      let walk := set_wk_cursor (md_record_start record) walk in
      let data_end := md_data_off record + md_data_len record in
      let walk := if wk_claimed_data_end walk <? data_end
                  then set_wk_claimed_data_end data_end walk else walk in
      let walk := if wk_cursor walk <=? wk_claimed_data_end walk
                  then set_wk_active false walk else walk in
      ret (walk, window, record, result).

(** Every walk below starts from a sector footer and steps back by one record
    per round, so the sector size bounds the number of rounds. *)
Definition walk_bound (g : fs_geometry) : nat := Z.to_nat (sector_size g).

(** The footer view every metadata scan starts with, through its window. *)
Definition view_footer (window : fffs_sector_reader) (sector : Z)
  : M (fffs_sector_footer * fffs_sector_reader) :=
  g <- get_geo ;;
  let* (bytes, window) :=
    fffs_sector_reader_view window sector
      (usz (sector_size g - FFFS_SECTOR_FOOTER_SIZE))
      FFFS_SECTOR_FOOTER_SIZE in
  ret (fffs_decode_sector_footer bytes, window).

(** ** Lookup of a slot's record *)

Definition no_match_status (m : fffs_md_slot_match) : fffs_status :=
  match m with
  | FFFS_MD_MATCH_UNCOMMITTED => FFFS_ERR_NOT_FOUND
  | FFFS_MD_MATCH_LIVE => FFFS_ERR_CORRUPT
  end.

Fixpoint find_record_loop (n : nat) (want_slot : Z) (m : fffs_md_slot_match)
    (walk : fffs_md_walk) (window : fffs_sector_reader)
  : M fffs_md_record :=
  if negb (wk_active walk) then fail (no_match_status m)
  else match n with
       | O => diverge
       | S n' =>
           let* (walk, window, record, result) :=
             fffs_md_walk_next walk window in
           if negb (bool_decide (result = FFFS_MD_WALK_RECORD))
           then fail FFFS_ERR_CORRUPT
           else if negb (md_record_matches_slot record want_slot m)
           then find_record_loop n' want_slot m walk window
           else ret record
       end.

Definition read_md_for_slot (sector want_slot : Z) (m : fffs_md_slot_match)
  : M fffs_md_record :=
  g <- get_geo ;;
  guard_err (negb (valid_data_sector g sector)) FFFS_ERR_CORRUPT ;;
  let* (footer, window) := view_footer (local_reader FFFS_MD_PRELOAD_MAX 0)
                             sector in
  if ft_erased footer || negb (ft_type footer =? FFFS_SECTOR_TYPE_FILE) ||
     negb (ft_magic_valid footer) ||
     negb (fffs_lifecycle_is_live (ft_valid_bits footer)
             (ft_tombstone_bits footer))
  then fail (no_match_status m)
  else
    let* (walk, window) := fffs_md_walk_init sector window in
    find_record_loop (walk_bound g) want_slot m walk window.

Definition fffs_read_md_for_slot (sector want_slot : Z) : M fffs_md_record :=
  read_md_for_slot sector want_slot FFFS_MD_MATCH_LIVE.

Definition read_uncommitted_metadata_for_slot (sector want_slot : Z)
  : M fffs_md_record :=
  read_md_for_slot sector want_slot FFFS_MD_MATCH_UNCOMMITTED.

(** ** File roots *)

(** The name, the payload window and the read cache out of a root's
    data-side prefix. *)
Definition read_root_prefix (sector data_off data_len size : Z)
    (cache : option fffs_read_cache_view)
  : M (fffs_stat * Z * Z * option fffs_read_cache_view) :=
  guard_err (data_len <? 2) FFFS_ERR_CORRUPT ;;
  g <- get_geo ;;
  let use_cache := match cache with
                   | Some c => FFFS_MAX_NAME + 2 <=? cv_capacity c
                   | None => false
                   end in
  let buf_size := match cache with
                  | Some c => if use_cache then cv_capacity c
                              else FFFS_MAX_NAME + 2
                  | None => FFFS_MAX_NAME + 2
                  end in
  let nread := if data_len <? buf_size then data_len else buf_size in
  buf <- fffs_flash_read (sector * sector_size g + data_off) nread ;;
  let name_len := byte_at buf 0 in
  let vmeta_len_off := 1 + name_len in
  guard_err ((name_len =? 0) || (FFFS_MAX_NAME <? name_len) ||
             (data_len <=? vmeta_len_off) || (nread <=? vmeta_len_off))
    FFFS_ERR_CORRUPT ;;
  let vmeta_len := byte_at buf vmeta_len_off in
  let payload_off := 1 + name_len + 1 + vmeta_len in
  guard_err (data_len <? payload_off) FFFS_ERR_CORRUPT ;;
  let st := mk_stat (sublist 1 name_len buf) size in
  let cached_payload := if payload_off <? nread then nread - payload_off
                        else 0 in
  let cache := match cache with
               | Some c =>
                   if use_cache then
                     let data := splice 0 buf (cv_data c) in
                     Some (mk_cache_view
                             (splice 0 (sublist payload_off cached_payload
                                          data) data)
                             (cv_capacity c) cached_payload 0)
                   else Some c
               | None => None
               end in
  ret (st, u16 (data_off + payload_off), u16 (data_len - payload_off), cache).

(** The out-parameters of [fffs_read_file_root_md] that are requested
    unconditionally, and those that need the data-side prefix
    ([st], [data_off], [data_len]): [want_prefix] says whether the caller
    passed any of them. *)
Record root_md : Type := mk_root_md {
  root_st : fffs_stat;
  root_payload_off : Z;
  root_payload_len : Z;
  root_next : Z;
  root_span_len : Z;
  root_size : Z;
  root_cache : option fffs_read_cache_view;
}.

Definition fffs_read_file_root_md (sector want_slot : Z) (want_prefix : bool)
    (cache : option fffs_read_cache_view) : M root_md :=
  record <- fffs_read_md_for_slot sector want_slot ;;
  guard_err (negb (md_type record =? FFFS_MD_TYPE_FILE_ROOT_V1))
    FFFS_ERR_CORRUPT ;;
  if want_prefix || bool_decide (is_Some cache) then
    let* (st, off, len, cache) :=
      read_root_prefix sector (md_data_off record) (md_data_len record)
        (md_size_or_offset record) cache in
    ret (mk_root_md st off len (md_next record) (md_span_len record)
           (md_size_or_offset record) cache)
  else
    ret (mk_root_md (mk_stat [] 0) (md_data_off record) (md_data_len record)
           (md_next record) (md_span_len record) (md_size_or_offset record)
           cache).

(** ** Tombstones *)

Fixpoint tombstone_loop (n : nat) (sector want_slot : Z)
    (accounting : fffs_tombstone_accounting) (walk : fffs_md_walk)
    (window : fffs_sector_reader) : M bool :=
  if negb (wk_active walk) then ret false
  else match n with
       | O => diverge
       | S n' =>
           let* (walk, window, record, result) :=
             fffs_md_walk_next walk window in
           if bool_decide (result = FFFS_MD_WALK_END_INVALID)
           then fail FFFS_ERR_CORRUPT
           else if negb (bool_decide (result = FFFS_MD_WALK_RECORD))
           then ret false
           else if negb (md_live record) || negb (md_slot record =? want_slot)
           then tombstone_loop n' sector want_slot accounting walk window
           else
             g <- get_geo ;;
             fffs_flash_program_aligned
               (sector * sector_size g + md_record_start record)
               [FFFS_LIFECYCLE_TOMBSTONED] ;;
             if bool_decide (accounting = FFFS_TOMBSTONE_COMMITTED_DELETE) &&
                (md_type record =? FFFS_MD_TYPE_FILE_ROOT_V1)
             then mod_info (fffs_fsinfo_note_committed_delete
                              (md_size_or_offset record)) ;;
                  ret true
             else ret false
       end.

(** The result is [*accounted]. *)
Definition fffs_tombstone_metadata_for_slot (sector want_slot : Z)
    (accounting : fffs_tombstone_accounting) : M bool :=
  g <- get_geo ;;
  guard_err (negb (valid_data_sector g sector)) FFFS_ERR_CORRUPT ;;
  let* (footer, window) := view_footer (local_reader FFFS_MD_PRELOAD_MAX 0)
                             sector in
  if ft_erased footer then ret false
  else if negb (ft_type footer =? FFFS_SECTOR_TYPE_FILE) ||
          negb (ft_magic_valid footer)
  then fail FFFS_ERR_CORRUPT
  else
    let live := fffs_lifecycle_is_live (ft_valid_bits footer)
                  (ft_tombstone_bits footer) in
    let tombstoned :=
      negb (bool_decide (ft_valid_bits footer = FFFS_BITMIRROR_MIXED)) &&
      bool_decide (ft_tombstone_bits footer = FFFS_BITMIRROR_CLEARED) in
    if tombstoned then ret false
    else if negb live then fail FFFS_ERR_CORRUPT
    else
      let* (walk, window) := fffs_md_walk_init sector window in
      tombstone_loop (walk_bound g) sector want_slot accounting walk window.

(** ** Free-window scan *)

Record free_window : Type := mk_free_window {
  fw_data_off : Z;
  fw_record_off : Z;
  fw_needs_footer : bool;
  fw_md_records : Z;
}.

(** The walk over the sector's records: the number of records, the highest
    data end and the lowest record start. *)
Fixpoint free_window_loop (n : nat) (sector reject_slot : Z)
    (normal_allocation : bool) (walk : fffs_md_walk)
    (window : fffs_sector_reader) (record_count max_data_end metadata_start : Z)
  : M (Z * Z * Z) :=
  if negb (wk_active walk)
  then ret (record_count, max_data_end, metadata_start)
  else match n with
       | O => diverge
       | S n' =>
           let* (walk, window, record, result) :=
             fffs_md_walk_next walk window in
           match result with
           | FFFS_MD_WALK_END_ERASED | FFFS_MD_WALK_END_CLAIMED_DATA =>
               ret (record_count, max_data_end, metadata_start)
           | FFFS_MD_WALK_END_INVALID => fail FFFS_ERR_NO_SPACE
           | FFFS_MD_WALK_RECORD =>
               if normal_allocation &&
                  (md_type record =? FFFS_MD_TYPE_FILE_CONT_V1)
               then ignore (fffs_mark_sector_full sector) ;;
                    fail FFFS_ERR_NO_SPACE
               else if md_live record && (md_slot record =? reject_slot)
               then fail FFFS_ERR_NO_SPACE
               else
                 let data_end := md_data_off record + md_data_len record in
                 free_window_loop n' sector reject_slot normal_allocation
                   walk window (record_count + 1)
                   (if max_data_end <? data_end then data_end
                    else max_data_end)
                   (md_record_start record)
           end
       end.

Definition fffs_find_sector_free_window (sector min_free reject_slot : Z)
    (normal_allocation : bool) : M free_window :=
  g <- get_geo ;;
  guard_err ((sector <? index_sectors g) || (sector_count g <=? sector))
    FFFS_ERR_INVALID ;;
  let* (view, window) := view_footer (local_reader FFFS_MD_PRELOAD_MAX 0)
                           sector in
  let footer_off := usz (sector_size g - FFFS_SECTOR_FOOTER_SIZE) in
  if ft_erased view then
    fffs_flash_span_is_erased (sector * sector_size g) (sector_size g) ;;
    guard_err ((footer_off <? FFFS_MD_FILE_RECORD_SIZE) ||
               (footer_off - FFFS_MD_FILE_RECORD_SIZE <? min_free))
      FFFS_ERR_NO_SPACE ;;
    ret (mk_free_window 0 (u16 (footer_off - FFFS_MD_FILE_RECORD_SIZE)) true 0)
  else if negb (ft_type view =? FFFS_SECTOR_TYPE_FILE) ||
          negb (ft_magic_valid view) ||
          negb (fffs_lifecycle_is_live (ft_valid_bits view)
                  (ft_tombstone_bits view))
  then fail FFFS_ERR_NO_SPACE
  else if normal_allocation &&
          bool_decide (ft_full_bits view = FFFS_BITMIRROR_CLEARED)
  then fail FFFS_ERR_NO_SPACE
  else
    let* (walk, window) := fffs_md_walk_init sector window in
    let* (record_count, max_data_end, metadata_start) :=
      free_window_loop (walk_bound g) sector reject_slot normal_allocation
        walk window 0 0 footer_off in
    if FFFS_ALLOC_MAX_MD_RECORDS_PER_SECTOR <=? record_count
    then ignore (fffs_mark_sector_full sector) ;; fail FFFS_ERR_NO_SPACE
    else
      let new_record_off := usz (metadata_start - FFFS_MD_FILE_RECORD_SIZE) in
      if (new_record_off <? max_data_end) ||
         (usz (new_record_off - max_data_end) <? min_free)
      then when normal_allocation (ignore (fffs_mark_sector_full sector)) ;;
           fail FFFS_ERR_NO_SPACE
      else
        fffs_flash_span_is_erased (sector * sector_size g + max_data_end)
          (usz (new_record_off - max_data_end)) ;;
        ret (mk_free_window (u16 max_data_end) (u16 new_record_off) false
               (u16 record_count)).

(** ** Extent records *)

Definition claim_sector_serial : M Z :=
  fs <- get_fs ;;
  let serial := next_sector_serial (fs_alloc fs) in
  let next := u32 (serial + 1) in
  mod_alloc (set_next_sector_serial (if next =? 0 then 1 else next)) ;;
  ret serial.

(** The 16 bytes of a record. *)
Definition encode_md_record (slot type data_off data_len span_len
    size_or_offset next : Z) (live : bool) : list Z :=
  [if live then FFFS_LIFECYCLE_VALID else 0xff] ++
  fffs_store_le16 slot ++
  (if live then fffs_store_le16 next ++ fffs_store_le16 span_len
   else fill 4 0xff) ++
  fffs_store_le16 data_off ++
  fffs_store_le16 data_len ++
  (if (type =? FFFS_MD_TYPE_FILE_ROOT_V1) && negb live then fill 4 0xff
   else fffs_store_le32 size_or_offset) ++
  [type].

Definition fffs_program_extent_metadata (sector slot type data_off record_off
    : Z) (write_footer : bool) (data_len span_len size_or_offset next : Z)
    (live : bool) : M unit :=
  guard_err (negb (type =? FFFS_MD_TYPE_FILE_ROOT_V1) &&
             negb (type =? FFFS_MD_TYPE_FILE_CONT_V1)) FFFS_ERR_INVALID ;;
  let md := encode_md_record slot type data_off data_len span_len
              size_or_offset next live in
  g <- get_geo ;;
  let off := sector * sector_size g + record_off in
  (if write_footer then
     serial <- claim_sector_serial ;;
     fffs_flash_program_aligned off
       (md ++ fffs_encode_sector_footer serial true)
   else fffs_flash_program_aligned off md) ;;
  let data_end := data_off + data_len in
  let low_free := (record_off <=? data_end) ||
                  (record_off - data_end <? FFFS_ALLOC_MIN_USABLE_FREE) in
  when ((type =? FFFS_MD_TYPE_FILE_CONT_V1) || low_free)
    (fffs_mark_sector_full sector ;; fffs_alloc_map_mark_used sector).
End FileMd.

(** ** Termination and frame

    Every walk steps back by one record per round, so the walk bound is
    enough, whatever the flash returns. *)

Section FileMdKeeps.
Context `{Backend} `{!ValidBackend} (g : fs_geometry) `{!GeoOk g}.

Lemma keeps_decode reader sector cursor :
  keeps_val (only_device g) (decode_file_md_record reader sector cursor)
    (fun '(r, res, _) => res = FFFS_MD_WALK_RECORD ->
       26 <= cursor /\
       md_record_start r = cursor - FFFS_MD_FILE_RECORD_SIZE).
Proof.
  unfold decode_file_md_record.
  apply (keeps_val_bind' _); [keeps_tac | intros g'].
  apply (keeps_val_bind' _); [keeps_tac | intros [tbuf rd]]. cbv zeta.
  destruct (_ =? 255); [by apply (keeps_val_ret _) |].
  destruct (Z.ltb_spec cursor (10 + 16)); [by apply (keeps_val_fail _) |].
  destruct (_ && _); [by apply (keeps_val_ret _) |].
  apply (keeps_val_bind' _); [keeps_tac | intros [buf rd']].
  destruct (fffs_flash_bytes_erased buf); [by apply (keeps_val_ret _) |].
  apply (keeps_val_ret _). by destruct (md_fields_valid _ _ _ _).
Qed.

Lemma keeps_walk_init sector window :
  keeps_val (only_device g) (fffs_md_walk_init sector window)
    (fun '(walk, _) => wk_cursor walk = sector_size g - 10).
Proof.
  unfold fffs_md_walk_init.
  intros w Hw. apply wp_bind, wp_get_geo. rewrite (mr_geo _ _ Hw).
  apply wp_bind, wp_guard; intros _; [done |]. apply wp_ret.
  split; [done |]. simpl. apply usz_footer.
Qed.

(** The measure of a walk: its cursor while it is active. *)
Lemma keeps_walk_next walk window :
  keeps_val (only_device g) (fffs_md_walk_next walk window)
    (fun '(walk', _, _, res) => res = FFFS_MD_WALK_RECORD ->
       26 <= wk_cursor walk /\ wk_cursor walk' = wk_cursor walk - 16 /\
       wk_active walk = true).
Proof.
  unfold fffs_md_walk_next.
  destruct (wk_active walk) eqn:Ha; [| by apply (keeps_val_fail _)].
  destruct (wk_sector walk =? rd_sector window); [| by apply (keeps_val_fail _)].
  simpl. destruct (Z.leb_spec (wk_cursor walk) 10); [by apply (keeps_val_ret _) |].
  eapply (keeps_val_bind _); [apply keeps_decode |].
  intros [[record res] rd] Hrec.
  case_bool_decide as Hr; simpl; [| by apply (keeps_val_ret _)].
  apply (keeps_val_ret _). intros _. destruct (Hrec Hr) as [Hc Hst].
  split; [done | split; [| done]]. rewrite <- Hst.
  by destruct (_ <? _); simpl; destruct (_ <=? _).
Qed.

Lemma keeps_walk_next' walk window :
  keeps (only_device g) (fffs_md_walk_next walk window).
Proof. eapply (keeps_val_keeps _), keeps_walk_next. Qed.

Lemma keeps_walk_init' sector window :
  keeps (only_device g) (fffs_md_walk_init sector window).
Proof. eapply (keeps_val_keeps _), keeps_walk_init. Qed.

Lemma keeps_view_footer window sector :
  keeps (only_device g) (view_footer window sector).
Proof. unfold view_footer. keeps_tac. Qed.

(** An active walk has room for as many rounds as its cursor. *)
Definition walk_fuel (n : nat) (walk : fffs_md_walk) : Prop :=
  wk_active walk = true -> 0 <= wk_cursor walk < Z.of_nat n.

Lemma walk_fuel_init walk :
  wk_cursor walk = sector_size g - 10 -> walk_fuel (walk_bound g) walk.
Proof.
  intros Hc _. pose proof (sector_size_range (g := g)).
  unfold walk_bound. lia.
Qed.

(** One round of a walk loop: [k] is the rest of the round. *)
Lemma keeps_walk_round R `{!MountRel g R} {A} n walk window
    (k : fffs_md_walk * fffs_sector_reader * fffs_md_record *
         fffs_md_walk_result -> M A) :
  keeps R (fffs_md_walk_next walk window) ->
  (forall w, R w w -> only_device g w w) ->
  walk_fuel (S n) walk ->
  (forall walk' window' record res,
     (res = FFFS_MD_WALK_RECORD -> walk_fuel n walk') ->
     keeps R (k (walk', window', record, res))) ->
  keeps R (bind (fffs_md_walk_next walk window) k).
Proof.
  intros HR Hd Hf Hk. eapply (keeps_bind_val _ _ _ (fun '(walk', _, _, res) =>
    res = FFFS_MD_WALK_RECORD -> walk_fuel n walk')).
  - intros w Hw. pose proof (HR w Hw) as H1.
    pose proof (keeps_walk_next walk window w (Hd w Hw)) as H2.
    unfold wp in *. destruct (fffs_md_walk_next walk window w) as [[a|e|] w'];
      [| done..].
    split; [done |]. destruct H2 as [_ H2]. destruct a as [[[walk' ?] ?] res].
    intros Hr. destruct (H2 Hr) as (H3 & H4 & H5).
    intros _. specialize (Hf H5). lia.
  - intros [[[walk' window'] record] res] Hr. by apply Hk.
Qed.

Lemma walk_fuel_0 walk : walk_fuel 0 walk -> wk_active walk = false.
Proof.
  intros Hf. apply not_true_is_false. intros Ha. specialize (Hf Ha). lia.
Qed.

Lemma keeps_find_record_loop n slot m walk window :
  walk_fuel n walk ->
  keeps (only_device g) (find_record_loop n slot m walk window).
Proof.
  revert walk window. induction n as [|n IH]; intros walk window Hf; simpl.
  - rewrite (walk_fuel_0 walk Hf). simpl. keeps_tac.
  - destruct (wk_active walk); [| keeps_tac].
    apply (keeps_walk_round _ n); [apply keeps_walk_next' | done | done |].
    intros walk' window' record res Hr. case_bool_decide; simpl; [| keeps_tac].
    destruct (md_record_matches_slot _ _ _); simpl; [keeps_tac | auto].
Qed.

Lemma keeps_walk_init_bind R `{!MountRel g R} {A} sector window
    (k : fffs_md_walk * fffs_sector_reader -> M A) :
  keeps R (fffs_md_walk_init sector window) ->
  (forall w, R w w -> only_device g w w) ->
  (forall walk window', walk_fuel (walk_bound g) walk ->
     keeps R (k (walk, window'))) ->
  keeps R (bind (fffs_md_walk_init sector window) k).
Proof.
  intros HR Hd Hk. eapply (keeps_bind_val _ _ _ (fun '(walk, _) =>
    walk_fuel (walk_bound g) walk)).
  - intros w Hw. pose proof (HR w Hw) as H1.
    pose proof (keeps_walk_init sector window w (Hd w Hw)) as H2.
    unfold wp in *. destruct (fffs_md_walk_init sector window w) as [[a|e|] w'];
      [| done..].
    split; [done |]. destruct H2 as [_ H2]. destruct a as [walk ?].
    by apply walk_fuel_init.
  - intros [walk window'] Hf. by apply Hk.
Qed.

Lemma device_refl w : same_files g w w -> only_device g w w.
Proof. intros []. by split. Qed.

Ltac keeps_special ::=
  lazymatch goal with
  | |- keeps _ (bind (fffs_md_walk_init _ _) _) =>
      apply (keeps_walk_init_bind _);
      [ first [apply keeps_walk_init'
              | apply keeps_device_files, keeps_walk_init']
      | first [done | apply device_refl]
      | let walk := fresh "walk" in let window := fresh "window" in
        let Hf := fresh "Hf" in intros walk window Hf; cbv beta iota zeta ]
  end.

Lemma keeps_read_md sector slot m :
  keeps (only_device g) (read_md_for_slot sector slot m).
Proof.
  unfold read_md_for_slot. keeps_tac; [apply keeps_view_footer |].
  by apply keeps_find_record_loop.
Qed.

Lemma keeps_read_root_prefix sector off len size cache :
  keeps (only_device g) (read_root_prefix sector off len size cache).
Proof. unfold read_root_prefix. keeps_tac. Qed.

Lemma keeps_read_root sector slot want cache :
  keeps (only_device g) (fffs_read_file_root_md sector slot want cache).
Proof.
  unfold fffs_read_file_root_md, fffs_read_md_for_slot. keeps_tac;
    apply keeps_read_md || apply keeps_read_root_prefix.
Qed.

Lemma keeps_mod_info f : keeps (same_files g) (mod_info f).
Proof. intros w [Hg Hs Hf]. apply wp_mod_fs. by split. Qed.

Lemma keeps_mod_alloc f : keeps (same_files g) (mod_alloc f).
Proof. intros w [Hg Hs Hf]. apply wp_mod_fs. by split. Qed.

Lemma keeps_tombstone_loop n sector slot acc walk window :
  walk_fuel n walk ->
  keeps (same_files g) (tombstone_loop n sector slot acc walk window).
Proof.
  revert walk window. induction n as [|n IH]; intros walk window Hf; simpl.
  - rewrite (walk_fuel_0 walk Hf). simpl. keeps_tac.
  - destruct (wk_active walk); [| keeps_tac].
    apply (keeps_walk_round _ n);
      [apply keeps_device_files, keeps_walk_next' | apply device_refl | done |].
    intros walk' window' record res Hr. case_bool_decide; [keeps_tac |].
    case_bool_decide; simpl; [| keeps_tac].
    destruct (_ || _); [auto |]. keeps_tac; first [apply keeps_mod_info
      | by apply keeps_device_files, keeps_program_aligned].
Qed.

Lemma keeps_tombstone sector slot acc :
  keeps (same_files g) (fffs_tombstone_metadata_for_slot sector slot acc).
Proof.
  unfold fffs_tombstone_metadata_for_slot. keeps_tac;
    [apply keeps_device_files, keeps_view_footer |].
  by apply keeps_tombstone_loop.
Qed.

Lemma keeps_free_window_loop n sector slot normal walk window rc md ms :
  walk_fuel n walk ->
  keeps (only_device g)
    (free_window_loop n sector slot normal walk window rc md ms).
Proof.
  revert walk window rc md ms.
  induction n as [|n IH]; intros walk window rc md ms Hf; simpl.
  - rewrite (walk_fuel_0 walk Hf). simpl. keeps_tac.
  - destruct (wk_active walk); [| keeps_tac].
    apply (keeps_walk_round _ n); [apply keeps_walk_next' | done | done |].
    intros walk' window' record res Hr. destruct res; keeps_tac.
Qed.

Lemma keeps_find_free_window sector min_free slot normal :
  keeps (only_device g)
    (fffs_find_sector_free_window sector min_free slot normal).
Proof.
  unfold fffs_find_sector_free_window. keeps_tac; [apply keeps_view_footer |].
  by apply keeps_free_window_loop.
Qed.

Lemma keeps_mark_used sector : keeps (same_files g) (fffs_alloc_map_mark_used sector).
Proof.
  intros w [Hg Hs Hf]. apply wp_mod_fs. split; [done | | done].
  simpl. destruct (alloc_map _); [| done]. by destruct (_ <=? _).
Qed.

Lemma keeps_mark_unknown sector :
  keeps (same_files g) (fffs_alloc_map_mark_unknown sector).
Proof.
  intros w [Hg Hs Hf]. apply wp_mod_fs. split; [done | | done].
  simpl. destruct (alloc_map _); [| done]. by destruct (_ <=? _).
Qed.

Lemma keeps_program_extent sector slot type doff roff wf dlen span size next live :
  keeps (same_files g)
    (fffs_program_extent_metadata sector slot type doff roff wf dlen span size
       next live).
Proof.
  unfold fffs_program_extent_metadata, claim_sector_serial,
    fffs_flash_program_aligned.
  keeps_tac; first [apply keeps_mod_alloc | apply keeps_mark_used
    | apply keeps_device_files, keeps_program_aligned; done
    | apply keeps_device_files, keeps_mark_full; done].
Qed.
End FileMdKeeps.

#[export] Hint Resolve keeps_walk_next' keeps_walk_init' keeps_view_footer
  keeps_read_md keeps_read_root keeps_tombstone keeps_find_free_window
  keeps_mark_used keeps_mark_unknown keeps_program_extent keeps_mod_alloc
  keeps_mod_info : fffs_keeps.
#[export] Hint Unfold fffs_read_md_for_slot read_uncommitted_metadata_for_slot
  fffs_flash_program_aligned : fffs_keeps.

(** ** Properties *)

(** Metadata operations terminate.  On any backend, whatever it returns and
    whatever the flash holds, the metadata lookup, the root read, the
    tombstone, the free-window scan and the extent writer end with a value or
    an error status. *)
Theorem metadata_terminates `{Backend} `{!ValidBackend} (g : fs_geometry)
    `{!GeoOk g} (sector slot min_free : Z) (record : fffs_md_record)
    (write_footer want_prefix : bool) (acc : fffs_tombstone_accounting)
    (cache : option fffs_read_cache_view) (w : world) :
  fs_geo (w_fs w) = g ->
  fst (fffs_read_md_for_slot sector slot w) <> NoFuel /\
  fst (fffs_read_file_root_md sector slot want_prefix cache w) <> NoFuel /\
  fst (fffs_tombstone_metadata_for_slot sector slot acc w) <> NoFuel /\
  fst (fffs_find_sector_free_window sector min_free slot want_prefix w) <> NoFuel /\
  fst (fffs_program_extent_metadata sector slot (md_type record)
         (md_data_off record) (md_record_start record) write_footer
         (md_data_len record) (md_span_len record) (md_size_or_offset record)
         (md_next record) (md_live record) w) <> NoFuel.
Proof.
  intros Hg.
  assert (Hd : only_device g w w) by by split.
  assert (Hf : same_files g w w) by by split.
  split; [eapply (keeps_terminates _); [apply (keeps_read_md g) | done] |].
  split; [eapply (keeps_terminates _); [apply (keeps_read_root g) | done] |].
  split; [eapply (keeps_terminates _); [apply (keeps_tombstone g) | done] |].
  split; [eapply (keeps_terminates _); [apply (keeps_find_free_window g) | done] |].
  eapply (keeps_terminates _); [apply (keeps_program_extent g) | done].
Qed.

Lemma metadata_terminates_witness :
  fst (@fffs_tombstone_metadata_for_slot Demo.backend 3 9
    FFFS_TOMBSTONE_NO_ACCOUNTING Demo.blank) <> NoFuel.
Proof.
  exact (proj1 (proj2 (proj2 (@metadata_terminates Demo.backend Demo.valid Demo.geo
    Demo.geo_valid 3 9 0 md_record_zero false false FFFS_TOMBSTONE_NO_ACCOUNTING
    None Demo.blank eq_refl)))).
Defined.
