(* ===== verification/MdSpec.v ===== *)
(** * The metadata of a sector as a value

    An abstract reading of a sector's metadata out of the flash memory: the
    record at a cursor, the records of a sector and how the walk over them
    ends, and the record of a slot.  The operations of [FileMd] are proved to
    compute these functions of the memory. *)

From S2P Require Export FileMd.

(** What a walk finds at a cursor. *)
Inductive parsed : Type :=
  | PErased
  | PCorrupt
  | PInvalid
  | PRecord (r : fffs_md_record).

Definition parse_at (g : fs_geometry) (m : Z -> Z) (sector cursor : Z)
  : parsed :=
  let base := sector * sector_size g in
  let type := m (base + (cursor - 1)) in
  if type =? 0xff then PErased
  else if cursor <? FFFS_SECTOR_FOOTER_SIZE + FFFS_MD_FILE_RECORD_SIZE
  then PCorrupt
  else
    let start := cursor - FFFS_MD_FILE_RECORD_SIZE in
    if negb (type =? FFFS_MD_TYPE_FILE_ROOT_V1) &&
       negb (type =? FFFS_MD_TYPE_FILE_CONT_V1) then PInvalid
    else
      let r := decode_md_fields type start
                 (mem_bytes m (base + start) FFFS_MD_FILE_RECORD_SIZE) in
      if md_fields_valid g sector start r then PRecord r else PInvalid.

(** How a walk ends: at erased flash, at the data, at an unreadable record, at
    a type byte with no room for a record, or after a record that reaches the
    data. *)
Inductive walk_end : Type :=
  | WEnd_erased
  | WEnd_data
  | WEnd_invalid
  | WEnd_corrupt
  | WEnd_full.

Definition data_end (r : fffs_md_record) : Z := md_data_off r + md_data_len r.

(** The records from [cursor] down, given the data claimed so far. *)
Fixpoint walk_from (n : nat) (g : fs_geometry) (m : Z -> Z)
    (sector cursor claimed : Z) : list fffs_md_record * walk_end :=
  if cursor <=? FFFS_SECTOR_FOOTER_SIZE then ([], WEnd_data)
  else match n with
       | O => ([], WEnd_data)
       | S n' =>
           match parse_at g m sector cursor with
           | PErased => ([], WEnd_erased)
           | PCorrupt => ([], WEnd_corrupt)
           | PInvalid => ([], WEnd_invalid)
           | PRecord r =>
               let claimed := Z.max claimed (data_end r) in
               let cursor := cursor - FFFS_MD_FILE_RECORD_SIZE in
               if cursor <=? claimed then ([r], WEnd_full)
               else
                 let '(l, e) := walk_from n' g m sector cursor claimed in
                 (r :: l, e)
           end
       end.

Definition sector_records (g : fs_geometry) (m : Z -> Z) (sector : Z)
  : list fffs_md_record * walk_end :=
  walk_from (walk_bound g) g m sector
    (sector_size g - FFFS_SECTOR_FOOTER_SIZE) 0.

(** A footer that metadata lookups accept. *)
Definition footer_live (view : fffs_sector_footer) : bool :=
  negb (ft_erased view) && (ft_type view =? FFFS_SECTOR_TYPE_FILE) &&
  ft_magic_valid view &&
  fffs_lifecycle_is_live (ft_valid_bits view) (ft_tombstone_bits view).

(** The first record of the slot, or the status of the lookup. *)
Definition pick_record (slot : Z) (m : fffs_md_slot_match)
    (records : list fffs_md_record * walk_end) : fffs_status + fffs_md_record :=
  match List.find (fun r => md_record_matches_slot r slot m) (fst records) with
  | Some r => inr r
  | None => inl match snd records with
                | WEnd_full => no_match_status m
                | _ => FFFS_ERR_CORRUPT
                end
  end.

Section MdSpec.
Context `{Backend} `{!NorFlash} `{!ValidBackend} (g : fs_geometry) `{!GeoOk g}.

(** [read_md_for_slot] as a function of the memory. *)
Definition lookup_md (m : Z -> Z) (sector slot : Z) (k : fffs_md_slot_match)
  : fffs_status + fffs_md_record :=
  if negb (footer_live (footer_at g m sector)) then inl (no_match_status k)
  else pick_record slot k (sector_records g m sector).

(** The result of a call that only reads the flash. *)
Definition reads {A} (c : M A) (res : fffs_status + A) (w : world) : Prop :=
  exists w', flash_is (mem w) w w' /\
    c w = (match res with inl e => Err e | inr a => Ok a end, w').

(** ** The walker *)

(** The state of an active walk at [cursor] that has claimed [claimed]. *)
Definition walk_at (sector cursor claimed : Z) (walk : fffs_md_walk) : Prop :=
  wk_active walk = true /\ wk_sector walk = sector /\
  wk_cursor walk = cursor /\ wk_claimed_data_end walk = claimed.

(** A metadata window over [sector]. *)
Definition window_ok (m : Z -> Z) (sector : Z) (r : fffs_sector_reader)
  : Prop :=
  reader_ok g m r /\ rd_sector r = sector /\ 26 <= rd_capacity r.

Lemma window_ok_ext m m' sector r :
  (forall a, m a = m' a) -> window_ok m sector r -> window_ok m' sector r.
Proof.
  intros Heq (Hr & Hs & Hc). split; [by eapply reader_ok_ext | done].
Qed.

Lemma wp_view_footer window sector Q E w :
  fs_geo (w_fs w) = g -> flash_ok w -> reader_ok g (mem w) window ->
  26 <= rd_capacity window -> 0 <= sector < sector_count g ->
  (forall w' window', flash_is (mem w) w w' ->
     window_ok (mem w) sector window' ->
     Q (footer_at g (mem w) sector, window') w') ->
  wp (view_footer window sector) Q E w.
Proof.
  intros Hgeo Hok Hr Hc Hs HQ. pose proof (sector_size_range (g := g)).
  unfold view_footer. apply wp_bind, wp_get_geo. rewrite Hgeo.
  rewrite usz_footer. apply wp_bind, (wp_reader_view g); try done; try lia.
  intros w' r' Hw' Hr' Hc' Hs'. apply wp_ret.
  unfold footer_at, footer_bytes, fffs_sector_footer_offset in HQ.
  replace (sector * sector_size g + sector_size g - 10) with
    (sector * sector_size g + (sector_size g - 10)) in HQ by lia.
  apply HQ; [done |]. split; [done | split; [done | lia]].
Qed.

Lemma wp_walk_init sector window Q E w :
  fs_geo (w_fs w) = g -> flash_ok w -> window_ok (mem w) sector window ->
  index_sectors g <= sector < sector_count g ->
  (forall walk, walk_at sector (sector_size g - 10) 0 walk ->
     Q (walk, window) w) ->
  wp (fffs_md_walk_init sector window) Q E w.
Proof.
  intros Hgeo Hok (Hr & Hs & Hc) Hsec HQ. unfold fffs_md_walk_init.
  apply wp_bind, wp_get_geo. rewrite Hgeo.
  apply wp_bind, wp_guard;
    [rewrite !orb_true_iff, Z.leb_le, !Z.ltb_lt; lia | intros _].
  apply wp_ret. rewrite Hs, Z.eqb_refl, usz_footer. apply HQ.
  by repeat split.
Qed.

(** The 16 bytes of a record end with its type, so a record that is not
    erased is not all [0xff]. *)
Lemma record_not_erased m off :
  m (off + 15) <> 0xff ->
  fffs_flash_bytes_erased (mem_bytes m off 16) = false.
Proof.
  intros Hne. apply not_true_is_false. rewrite mem_bytes_erased.
  intros He. apply Hne, He. lia.
Qed.

Lemma wp_decode reader sector cursor Q E w :
  fs_geo (w_fs w) = g -> flash_ok w -> window_ok (mem w) sector reader ->
  0 <= sector < sector_count g -> 10 < cursor <= sector_size g ->
  (forall w' reader' record, flash_is (mem w) w w' ->
     window_ok (mem w) sector reader' ->
     match parse_at g (mem w) sector cursor with
     | PErased => Q (record, FFFS_MD_WALK_END_ERASED, reader') w'
     | PCorrupt => E FFFS_ERR_CORRUPT w'
     | PInvalid => Q (record, FFFS_MD_WALK_END_INVALID, reader') w'
     | PRecord r => Q (r, FFFS_MD_WALK_RECORD, reader') w'
     end) ->
  wp (decode_file_md_record reader sector cursor) Q E w.
Proof.
  intros Hgeo Hok (Hr & Hs & Hc) Hsec Hcur HQ.
  pose proof (sector_size_range (g := g)).
  unfold decode_file_md_record. apply wp_bind, wp_get_geo. rewrite Hgeo.
  rewrite usz_small by lia.
  apply wp_bind, (wp_reader_view g); try done; try lia.
  intros w1 r1 Hw1 Hr1 Hc1 Hs1. cbv zeta.
  rewrite byte_at_mem_bytes, Z.add_0_r by lia.
  assert (Hwin : window_ok (mem w) sector r1) by (split; [done | lia]).
  unfold parse_at in HQ. cbv zeta in HQ.
  set (type := mem w (sector * sector_size g + (cursor - 1))) in *.
  destruct (Z.eqb_spec type 255) as [|Hty]; [apply wp_ret, HQ; done |].
  destruct (Z.ltb_spec cursor (10 + 16)).
  { exact (HQ w1 r1 md_record_zero Hw1 Hwin). }
  destruct (_ && _) eqn:Htype; [apply wp_ret, HQ; done |].
  apply wp_bind, (wp_reader_view g); try lia.
  { by rewrite (fi_fs _ _ _ Hw1). }
  { apply Hw1. }
  { eapply reader_ok_ext; [| apply Hr1]. intros a. by rewrite (fi_mem _ _ _ Hw1). }
  intros w2 r2 Hw2 Hr2 Hc2 Hs2.
  assert (Heq : forall a, mem w1 a = mem w a) by apply Hw1.
  rewrite (mem_bytes_ext (mem w1) (mem w)) by (intros; apply Heq).
  rewrite record_not_erased.
  2: { replace (sector * sector_size g + (cursor - 16) + 15) with
         (sector * sector_size g + (cursor - 1)) by lia. done. }
  assert (Hw2' : flash_is (mem w) w w2).
  { eapply flash_is_ext; [by eapply flash_is_trans | done]. }
  assert (Hwin2 : window_ok (mem w) sector r2).
  { split; [by eapply reader_ok_ext | lia]. }
  apply wp_ret. specialize (HQ w2 r2 (decode_md_fields type (cursor - 16)
    (mem_bytes (mem w) (sector * sector_size g + (cursor - 16)) 16)) Hw2' Hwin2).
  by destruct (md_fields_valid _ _ _ _).
Qed.

Lemma parse_record_inv m sector cursor r :
  parse_at g m sector cursor = PRecord r ->
  26 <= cursor /\ md_record_start r = cursor - 16 /\
  md_fields_valid g sector (cursor - 16) r = true /\
  (md_type r = FFFS_MD_TYPE_FILE_ROOT_V1 \/
   md_type r = FFFS_MD_TYPE_FILE_CONT_V1).
Proof.
  unfold parse_at. cbv zeta. destruct (_ =? 255); [done |].
  destruct (Z.ltb_spec cursor (10 + 16)); [done |].
  destruct (_ && _) eqn:Ht; [done |].
  destruct (md_fields_valid _ _ _ _) eqn:Hv; [| done].
  intros [= <-]. split; [lia |]. split; [done |]. split; [done |].
  rewrite andb_false_iff, !negb_false_iff, !Z.eqb_eq in Ht. exact Ht.
Qed.

(** The walk after the record [r]. *)
Definition walk_after (sector cursor claimed : Z) (r : fffs_md_record)
    (walk : fffs_md_walk) : Prop :=
  let claimed := Z.max claimed (data_end r) in
  wk_sector walk = sector /\ wk_cursor walk = cursor - 16 /\
  wk_claimed_data_end walk = claimed /\
  wk_active walk = negb (cursor - 16 <=? claimed).

Lemma wp_walk_next sector cursor claimed walk window Q E w :
  fs_geo (w_fs w) = g -> flash_ok w -> window_ok (mem w) sector window ->
  0 <= sector < sector_count g -> cursor <= sector_size g ->
  walk_at sector cursor claimed walk ->
  (forall w' window' walk' record, flash_is (mem w) w w' ->
     window_ok (mem w) sector window' ->
     if cursor <=? FFFS_SECTOR_FOOTER_SIZE
     then Q (walk', window', record, FFFS_MD_WALK_END_CLAIMED_DATA) w'
     else match parse_at g (mem w) sector cursor with
          | PErased => Q (walk', window', record, FFFS_MD_WALK_END_ERASED) w'
          | PCorrupt => E FFFS_ERR_CORRUPT w'
          | PInvalid => Q (walk', window', record, FFFS_MD_WALK_END_INVALID) w'
          | PRecord r => walk_after sector cursor claimed r walk' ->
              Q (walk', window', r, FFFS_MD_WALK_RECORD) w'
          end) ->
  wp (fffs_md_walk_next walk window) Q E w.
Proof.
  intros Hgeo Hok Hwin Hsec Hcur (Ha & Hws & Hwc & Hwd) HQ.
  unfold fffs_md_walk_next. pose proof Hwin as (Hr & Hs & Hc).
  rewrite Ha, Hws, Hs, Z.eqb_refl, Hwc. cbn [negb orb].
  destruct (Z.leb_spec cursor 10).
  { apply wp_ret, HQ; [done |]. by split. }
  apply wp_bind. apply (wp_decode _ sector _); try done; try lia.
  intros w' r' record Hw' Hwin'.
  destruct (parse_at g (mem w) sector cursor) as [| | | r] eqn:Hp;
    [by apply HQ | by eapply (HQ w' r' walk md_record_zero) | by apply HQ |].
  rewrite bool_decide_true by done. cbn [negb].
  apply wp_ret, (HQ w' r' _ record); [done | done |].
  destruct (parse_record_inv _ _ _ _ Hp) as (_ & Hst & _).
  unfold walk_after. rewrite Hst.
  replace (if wk_claimed_data_end _ <? _ then _ else _) with
    (set_wk_claimed_data_end (Z.max claimed (data_end r))
       (set_wk_cursor (cursor - 16) walk)).
  2: { cbn [wk_claimed_data_end set_wk_cursor]. rewrite Hwd. unfold data_end.
       destruct (Z.ltb_spec claimed (md_data_off r + md_data_len r)).
       - f_equal. lia.
       - rewrite Z.max_l by lia. rewrite <- Hwd. by destruct walk. }
  cbn [wk_cursor wk_claimed_data_end set_wk_cursor set_wk_claimed_data_end].
  destruct (_ <=? _); cbn; by rewrite ?Ha.
Qed.

(** ** Lookup of a slot's record *)

Lemma walk_after_at sector cursor claimed r walk :
  walk_after sector cursor claimed r walk ->
  (cursor - 16 <=? Z.max claimed (data_end r)) = false ->
  walk_at sector (cursor - 16) (Z.max claimed (data_end r)) walk.
Proof. intros (? & ? & ? & Ha) Hc. rewrite Hc in Ha. by repeat split. Qed.

Lemma find_loop_inactive n slot k walk window :
  wk_active walk = false ->
  find_record_loop n slot k walk window = fail (no_match_status k).
Proof. intros Ha. destruct n; simpl; by rewrite Ha. Qed.

Lemma parse_at_ext m m' sector cursor :
  (forall a, m a = m' a) -> parse_at g m sector cursor = parse_at g m' sector cursor.
Proof.
  intros Heq. unfold parse_at. cbv zeta. rewrite Heq.
  by rewrite (mem_bytes_ext m m') by (intros; apply Heq).
Qed.

Lemma walk_from_ext n m m' sector cursor claimed :
  (forall a, m a = m' a) ->
  walk_from n g m sector cursor claimed = walk_from n g m' sector cursor claimed.
Proof.
  intros Heq. revert cursor claimed.
  induction n as [|n IH]; intros cursor claimed; simpl; [done |].
  rewrite (parse_at_ext _ _ _ _ Heq). destruct (_ <=? 10); [done |].
  destruct (parse_at _ _ _ _); try done. by rewrite IH.
Qed.

Lemma wp_find_record_loop n sector slot k cursor claimed walk window Q E w :
  fs_geo (w_fs w) = g -> flash_ok w -> window_ok (mem w) sector window ->
  0 <= sector < sector_count g -> 0 <= cursor <= sector_size g ->
  cursor < Z.of_nat n -> walk_at sector cursor claimed walk ->
  (forall w', flash_is (mem w) w w' ->
     match pick_record slot k (walk_from n g (mem w) sector cursor claimed)
     with inr r => Q r w' | inl e => E e w' end) ->
  wp (find_record_loop n slot k walk window) Q E w.
Proof.
  revert cursor claimed walk window w.
  induction n as [|n IH];
    intros cursor claimed walk window w Hgeo Hok Hwin Hsec Hc Hn Hat HQ; [lia |].
  pose proof Hat as (Ha & _). cbn [find_record_loop]. rewrite Ha. cbn [negb].
  apply wp_bind. apply (wp_walk_next sector cursor claimed); try done; try lia.
  intros w1 window1 walk1 record Hw1 Hwin1.
  cbn [walk_from] in HQ. destruct (Z.leb_spec cursor 10);
    [apply wp_fail; by apply (HQ w1) |].
  destruct (parse_at g (mem w) sector cursor) as [| | | r] eqn:Hp;
    [apply wp_fail | | apply wp_fail |]; try by apply (HQ w1).
  intros Hafter. cbv zeta in HQ. rewrite bool_decide_true by done. cbn [negb].
  destruct (parse_record_inv _ _ _ _ Hp) as (Hge & _).
  destruct (cursor - 16 <=? Z.max claimed (data_end r)) eqn:Hfull.
  - unfold pick_record in HQ. cbn [fst List.find snd] in HQ.
    destruct (md_record_matches_slot r slot k); cbn [negb];
      [by apply wp_ret, HQ |].
    rewrite find_loop_inactive; [by apply wp_fail, (HQ w1) |].
    destruct Hafter as (_ & _ & _ & ->). by rewrite Hfull.
  - destruct (walk_from n g (mem w) sector (cursor - 16) _) as [l e] eqn:Hl.
    unfold pick_record in HQ. cbn [fst List.find snd] in HQ.
    destruct (md_record_matches_slot r slot k); cbn [negb];
      [by apply wp_ret, HQ |].
    eapply IH; [| | | done | | | by apply walk_after_at |].
    + by rewrite (fi_fs _ _ _ Hw1).
    + apply Hw1.
    + eapply window_ok_ext; [| done]. intros a. symmetry. apply Hw1.
    + lia.
    + lia.
    + intros w2 Hw2.
      rewrite (walk_from_ext n (mem w1) (mem w)) by apply Hw1.
      rewrite Hl. unfold pick_record. cbn [fst snd]. apply HQ.
      eapply flash_is_ext; [by eapply flash_is_trans | apply Hw1].
Qed.

(** [read_md_for_slot] computes [lookup_md]. *)
Lemma wp_read_md sector slot k Q E w :
  fs_geo (w_fs w) = g -> flash_ok w ->
  (forall w', flash_is (mem w) w w' ->
     match (if valid_data_sector g sector then lookup_md (mem w) sector slot k
            else inl FFFS_ERR_CORRUPT) with
     | inr r => Q r w'
     | inl e => E e w'
     end) ->
  wp (read_md_for_slot sector slot k) Q E w.
Proof.
  intros Hgeo Hok HQ. pose proof (sector_size_range (g := g)).
  pose proof geo_index. unfold read_md_for_slot.
  apply wp_bind, wp_get_geo. rewrite Hgeo.
  assert (Hrefl : flash_is (mem w) w w) by done.
  apply wp_bind, wp_guard; intros Hv.
  { rewrite negb_true_iff in Hv. specialize (HQ w Hrefl). by rewrite Hv in HQ. }
  rewrite negb_false_iff in Hv. rewrite Hv in HQ.
  unfold valid_data_sector in Hv. rewrite andb_true_iff, Z.leb_le, Z.ltb_lt in Hv.
  apply wp_bind, wp_view_footer; try done; [by apply local_reader_ok | lia |].
  intros w1 window1 Hw1 Hwin1. unfold lookup_md in HQ.
  replace (_ || _ || _ || _) with (negb (footer_live (footer_at g (mem w) sector))).
  2: { unfold footer_live. by rewrite !negb_andb, negb_involutive. }
  destruct (negb _); [by apply wp_fail, (HQ w1) |].
  assert (Hwin1' : window_ok (mem w1) sector window1).
  { eapply window_ok_ext; [| done]. intros a. symmetry. apply Hw1. }
  apply wp_bind, wp_walk_init; try done;
    [by rewrite (fi_fs _ _ _ Hw1) | apply Hw1 |].
  intros walk Hwalk.
  eapply wp_find_record_loop; [| | done | | | | done |].
  - by rewrite (fi_fs _ _ _ Hw1).
  - apply Hw1.
  - lia.
  - lia.
  - unfold walk_bound. lia.
  - intros w2 Hw2. rewrite (walk_from_ext _ (mem w1) (mem w)) by apply Hw1.
    apply HQ. eapply flash_is_ext; [by eapply flash_is_trans | apply Hw1].
Qed.

(** ** Records written and read back *)

(** The record of an extent as it is read back. *)
Definition extent_record (slot type data_off data_len span_len size_or_offset
    next record_off : Z) (live : bool) : fffs_md_record :=
  {| md_type := type;
     md_state := if live then FFFS_LIFECYCLE_VALID else 0xff;
     md_live := live;
     md_slot := slot;
     md_next := if live then next else UINT16_MAX;
     md_span_len := if live then span_len else UINT16_MAX;
     md_data_off := data_off;
     md_data_len := data_len;
     md_size_or_offset :=
       if (type =? FFFS_MD_TYPE_FILE_ROOT_V1) && negb live then UINT32_MAX
       else size_or_offset;
     md_record_start := record_off;
     md_record_len := FFFS_MD_FILE_RECORD_SIZE |}.

Lemma decode_encode_md slot type data_off data_len span_len size next record_off
    live :
  is_u16 slot -> is_u16 data_off -> is_u16 data_len -> is_u16 span_len ->
  is_u16 next -> is_u32 size ->
  decode_md_fields type record_off
    (encode_md_record slot type data_off data_len span_len size next live) =
  extent_record slot type data_off data_len span_len size next record_off live.
Proof.
  intros Hs Ho Hl Hp Hn Hz.
  pose proof (load_store_le16 slot [] Hs) as E1.
  pose proof (load_store_le16 data_off [] Ho) as E2.
  pose proof (load_store_le16 data_len [] Hl) as E3.
  pose proof (load_store_le16 span_len [] Hp) as E4.
  pose proof (load_store_le16 next [] Hn) as E5.
  pose proof (load_store_le32 size [] Hz) as E6.
  unfold extent_record, decode_md_fields, encode_md_record.
  destruct live, (type =? 17) eqn:Ht; f_equal; assumption || reflexivity.
Qed.

Lemma zlen_encode_md slot type doff dlen span size next live :
  zlen (encode_md_record slot type doff dlen span size next live) = 16.
Proof. unfold encode_md_record. by destruct live, (type =? 17). Qed.

Lemma is_bytes_encode_md slot type doff dlen span size next live :
  is_u8 type ->
  is_bytes (encode_md_record slot type doff dlen span size next live).
Proof.
  intros Ht. unfold encode_md_record, is_bytes. rewrite !Forall_app.
  assert (H255 : is_u8 0xff) by apply is_u8_255.
  assert (H126 : is_u8 0x7e) by (unfold is_u8; lia).
  repeat split; try apply is_bytes_store16.
  - destruct live; by repeat constructor.
  - destruct live; [apply Forall_app; split; apply is_bytes_store16 |].
    by apply Forall_fill.
  - destruct (_ && _); [by apply Forall_fill | apply is_bytes_store32].
  - by constructor.
Qed.

(** [parse_at] reads the 16 bytes below the cursor. *)
Lemma parse_at_local m m' sector cursor :
  (forall a, sector * sector_size g + cursor - 16 <= a <
     sector * sector_size g + cursor -> m a = m' a) ->
  parse_at g m sector cursor = parse_at g m' sector cursor.
Proof.
  intros Heq. unfold parse_at. cbv zeta.
  rewrite Heq by lia.
  by rewrite (mem_bytes_ext m m') by (intros; apply Heq; lia).
Qed.

Lemma parse_written m sector cursor slot type doff dlen span size next live :
  is_u16 slot -> is_u16 doff -> is_u16 dlen -> is_u16 span ->
  is_u16 next -> is_u32 size ->
  type = FFFS_MD_TYPE_FILE_ROOT_V1 \/ type = FFFS_MD_TYPE_FILE_CONT_V1 ->
  26 <= cursor ->
  mem_bytes m (sector * sector_size g + (cursor - 16)) 16 =
    encode_md_record slot type doff dlen span size next live ->
  let r := extent_record slot type doff dlen span size next (cursor - 16) live
  in
  md_fields_valid g sector (cursor - 16) r = true ->
  parse_at g m sector cursor = PRecord r.
Proof.
  intros Hs Ho Hl Hp Hn Hz Ht Hc Hb r Hv. unfold parse_at. cbv zeta.
  assert (Hty : m (sector * sector_size g + (cursor - 1)) = type).
  { replace (sector * sector_size g + (cursor - 1)) with
      (sector * sector_size g + (cursor - 16) + 15) by lia.
    rewrite <- (byte_at_mem_bytes m _ 16 15) by lia. rewrite Hb.
    unfold encode_md_record. by destruct live, (type =? 17). }
  rewrite Hty, Hb, decode_encode_md by done. fold r. rewrite Hv.
  destruct (Z.ltb_spec cursor (10 + 16)); [lia |].
  by destruct Ht as [-> | ->].
Qed.

(** The cursor and the claimed data after the records [l]. *)
Definition cursor_after (cursor : Z) (l : list fffs_md_record) : Z :=
  cursor - 16 * zlen l.

Definition claimed_after (claimed : Z) (l : list fffs_md_record) : Z :=
  foldl (fun c r => Z.max c (data_end r)) claimed l.

Lemma walk_from_more n m sector cursor claimed :
  cursor < Z.of_nat n ->
  forall n', (n <= n')%nat ->
  walk_from n' g m sector cursor claimed = walk_from n g m sector cursor claimed.
Proof.
  revert cursor claimed.
  induction n as [|n IH]; intros cursor claimed Hn n' Hle.
  - destruct n'; simpl; destruct (Z.leb_spec cursor 10); lia || done.
  - destruct n' as [|n']; [lia |]. cbn [walk_from].
    destruct (Z.leb_spec cursor 10); [done |].
    destruct (parse_at _ _ _ _) as [| | | r] eqn:Hp; try done.
    destruct (parse_record_inv _ _ _ _ Hp) as (Hge & _).
    cbv zeta. by rewrite IH by lia.
Qed.

(** A walk that ended at erased flash continues with what is written there. *)
Lemma walk_from_append n m m' sector cursor claimed l r :
  0 <= cursor < Z.of_nat n ->
  walk_from n g m sector cursor claimed = (l, WEnd_erased) ->
  let c := cursor_after cursor l in
  let d := Z.max (claimed_after claimed l) (data_end r) in
  (forall a, sector * sector_size g + c <= a <
     sector * sector_size g + cursor -> m' a = m a) ->
  parse_at g m' sector c = PRecord r ->
  10 < c /\
  walk_from n g m' sector cursor claimed =
  (if c - 16 <=? d then (l ++ [r], WEnd_full)
   else let '(l', e) := walk_from n g m' sector (c - 16) d in
        (l ++ r :: l', e)).
Proof.
  revert cursor claimed l.
  induction n as [|n IH]; intros cursor claimed l Hc Hw; [lia |].
  cbn [walk_from] in Hw. destruct (Z.leb_spec cursor 10); [done |].
  destruct (parse_at g m sector cursor) as [| | | r0] eqn:Hp; try done.
  - injection Hw as <-. unfold cursor_after, claimed_after. cbv zeta.
    cbn [foldl]. change (zlen (@nil fffs_md_record)) with 0.
    replace (cursor - 16 * 0) with cursor by lia.
    intros Heq Hpr. split; [done |]. cbn [walk_from].
    destruct (Z.leb_spec cursor 10); [lia |]. rewrite Hpr. cbv zeta.
    destruct (_ <=? Z.max claimed _); [done |]. cbn [app].
    rewrite <- (walk_from_more n _ _ (cursor - 16) _) with (n' := S n); [| | lia].
    + done.
    + destruct (parse_record_inv _ _ _ _ Hpr). lia.
  - cbv zeta in Hw. destruct (_ <=? _) eqn:Hfull in Hw; [done |].
    destruct (walk_from n g m sector (cursor - 16) _) as [l0 e0] eqn:Hl0.
    injection Hw as <- ->. cbv zeta. intros Heq Hpr.
    destruct (parse_record_inv _ _ _ _ Hp) as (Hge & _).
    assert (Hca : cursor_after cursor (r0 :: l0) = cursor_after (cursor - 16) l0).
    { unfold cursor_after. rewrite zlen_cons. lia. }
    rewrite Hca in *.
    destruct (IH (cursor - 16) _ l0 ltac:(lia) Hl0) as [H10 IHw]; [| exact Hpr |].
    { intros a Ha. apply Heq. lia. }
    split; [done |].
    rewrite (walk_from_more n _ _ (cursor_after (cursor - 16) l0 - 16)
      _ ltac:(unfold cursor_after; pose proof (zlen_nonneg l0); lia)
      (S n)) by lia.
    cbn [walk_from]. destruct (Z.leb_spec cursor 10); [lia |].
    rewrite (parse_at_local m' m), Hp.
    2: { intros a Ha. apply Heq. unfold cursor_after in *.
         pose proof (zlen_nonneg l0). lia. }
    cbv zeta. rewrite Hfull, IHw. unfold claimed_after. cbn [foldl].
    destruct (cursor_after (cursor - 16) l0 - 16 <=? _); [done |].
    by destruct (walk_from n g m' sector (cursor_after _ _ - 16) _).
Qed.
End MdSpec.

(** ** File roots as values *)

Section RootSpec.
Context `{Backend} `{!NorFlash} `{!ValidBackend} (g : fs_geometry) `{!GeoOk g}.

(** The record of the slot in [sector], wherever [sector] points. *)
Definition slot_md (m : Z -> Z) (sector slot : Z) (k : fffs_md_slot_match)
  : fffs_status + fffs_md_record :=
  if valid_data_sector g sector then lookup_md g m sector slot k
  else inl FFFS_ERR_CORRUPT.

(** The name and the payload window of a root record. *)
Definition parse_root (m : Z -> Z) (sector : Z) (r : fffs_md_record)
  : fffs_status + root_md :=
  let a := sector * sector_size g + md_data_off r in
  let name_len := m a in
  let payload_off := 1 + name_len + 1 + m (a + (1 + name_len)) in
  if (md_data_len r <? 2) || (name_len =? 0) || (FFFS_MAX_NAME <? name_len) ||
     (md_data_len r <=? 1 + name_len) || (md_data_len r <? payload_off)
  then inl FFFS_ERR_CORRUPT
  else inr (mk_root_md (mk_stat (mem_bytes m (a + 1) name_len)
                          (md_size_or_offset r))
              (u16 (md_data_off r + payload_off))
              (u16 (md_data_len r - payload_off)) (md_next r) (md_span_len r)
              (md_size_or_offset r) None).

(** [fffs_read_file_root_md] as a function of the memory. *)
Definition root_value (m : Z -> Z) (sector slot : Z) : fffs_status + root_md :=
  match slot_md m sector slot FFFS_MD_MATCH_LIVE with
  | inl e => inl e
  | inr r => if negb (md_type r =? FFFS_MD_TYPE_FILE_ROOT_V1)
             then inl FFFS_ERR_CORRUPT else parse_root m sector r
  end.

Definition with_root_cache (c : option fffs_read_cache_view) (r : root_md)
  : root_md :=
  mk_root_md (root_st r) (root_payload_off r) (root_payload_len r)
    (root_next r) (root_span_len r) (root_size r) c.

(** A record lies above its data, in the sector. *)
Definition record_fits (r : fffs_md_record) : Prop :=
  0 <= md_data_off r /\ 0 <= md_data_len r /\
  data_end r <= md_record_start r /\
  md_record_start r + 16 <= sector_size g - 10.

Lemma parse_record_fits m sector cursor r :
  cursor <= sector_size g - 10 ->
  parse_at g m sector cursor = PRecord r -> record_fits r.
Proof.
  intros Hc Hp. pose proof (parse_record_inv _ _ _ _ _ Hp) as (H26 & Hst & Hv & _).
  assert (Hpos : 0 <= md_data_off r /\ 0 <= md_data_len r).
  { unfold parse_at in Hp. cbv zeta in Hp.
    repeat match type of Hp with
    | (if ?c then _ else _) = _ => destruct c; try done
    end.
    injection Hp as <-. split; apply u16_range. }
  unfold md_fields_valid in Hv. unfold record_fits, data_end.
  destruct (_ && _ && _); [done |].
  destruct (Z.ltb_spec (cursor - 16) (md_data_off r + md_data_len r)); [done |].
  lia.
Qed.

Lemma walk_from_fits n m sector cursor claimed :
  cursor <= sector_size g - 10 ->
  Forall record_fits (fst (walk_from n g m sector cursor claimed)).
Proof.
  revert cursor claimed. induction n as [|n IH]; intros cursor claimed Hc; simpl;
    (destruct (cursor <=? 10); [by constructor |]); [by constructor |].
  destruct (parse_at g m sector cursor) as [| | | r] eqn:Hp; try by constructor.
  apply parse_record_fits in Hp as Hfit; [| done]. cbv zeta.
  destruct (_ <=? _); [by apply Forall_singleton |].
  specialize (IH (cursor - 16) (Z.max claimed (data_end r)) ltac:(lia)).
  destruct (walk_from _ _ _ _ _ _). by constructor.
Qed.

Lemma slot_md_fits m sector slot k r :
  slot_md m sector slot k = inr r ->
  index_sectors g <= sector < sector_count g /\ record_fits r.
Proof.
  unfold slot_md, valid_data_sector, lookup_md, pick_record.
  destruct (Z.leb_spec (index_sectors g) sector),
    (Z.ltb_spec sector (sector_count g)); simpl; try done.
  destruct (negb _); [done |].
  destruct (List.find _ _) as [r' |] eqn:Hf; [| done]. intros [= <-].
  split; [lia |]. apply List.find_some in Hf as [Hin _].
  pose proof (walk_from_fits (walk_bound g) m sector (sector_size g - 10) 0
    ltac:(lia)) as Hall.
  rewrite Forall_forall in Hall. apply Hall. by apply list_elem_of_In.
Qed.

(** Both depend on the bytes only. *)
Lemma slot_md_ext m m' sector slot k :
  (forall a, m a = m' a) ->
  slot_md m sector slot k = slot_md m' sector slot k.
Proof.
  intros Heq. unfold slot_md, lookup_md, sector_records, footer_at, footer_bytes.
  by rewrite (mem_bytes_ext m m'), (walk_from_ext g _ m m') by auto.
Qed.

Lemma root_value_ext m m' sector slot :
  (forall a, m a = m' a) -> root_value m sector slot = root_value m' sector slot.
Proof.
  intros Heq. unfold root_value. rewrite (slot_md_ext m m') by done.
  destruct (slot_md _ _ _ _); [done |]. destruct (negb _); [done |].
  unfold parse_root. rewrite !Heq. by rewrite (mem_bytes_ext m m') by auto.
Qed.

(** The read cache a caller passes: a buffer of its capacity. *)
Definition cache_ok (cache : option fffs_read_cache_view) : Prop :=
  match cache with
  | Some c => 0 <= cv_capacity c /\ zlen (cv_data c) = cv_capacity c
  | None => True
  end.

(** Where the payload of a root starts, from the start of its data. *)
Definition payload_skip (m : Z -> Z) (sector : Z) (r : fffs_md_record) : Z :=
  let a := sector * sector_size g + md_data_off r in
  1 + m a + 1 + m (a + (1 + m a)).

(** The cache holds the start of the payload of the root [r]. *)
Definition cache_reads (m : Z -> Z) (sector : Z) (r : fffs_md_record)
    (c : fffs_read_cache_view) : Prop :=
  cv_data_pos c = 0 /\ 0 <= cv_len c <= cv_capacity c /\
  cv_len c <= Z.max 0 (md_data_len r - payload_skip m sector r) /\
  forall i, 0 <= i < cv_len c -> byte_at (cv_data c) i =
    m (sector * sector_size g + md_data_off r + payload_skip m sector r + i).

(** What becomes of the caller's cache: a large enough one is filled. *)
Definition cache_filled (m : Z -> Z) (sector : Z) (r : fffs_md_record)
    (c0 c : option fffs_read_cache_view) : Prop :=
  cache_ok c /\ cv_capacity <$> c = cv_capacity <$> c0 /\
  forall v, c = Some v -> FFFS_MAX_NAME + 2 <= cv_capacity v ->
    cache_reads m sector r v.

Lemma cache_filled_ext m m' sector r c0 c :
  (forall a, m' a = m a) -> cache_filled m sector r c0 c ->
  cache_filled m' sector r c0 c.
Proof.
  intros Heq (Hok & Hc & Hr). split; [done | split; [done |]]. intros v Hv Hcap.
  destruct (Hr v Hv Hcap) as (Hp & Hl & Hlen & Hb).
  assert (Hs : payload_skip m' sector r = payload_skip m sector r)
    by (unfold payload_skip; by rewrite !Heq).
  unfold cache_reads. rewrite Hs. repeat split; try done; try lia.
  intros i Hi. rewrite Heq. by apply Hb.
Qed.

(** The two copies that fill the cache. *)
Lemma fill_cache m a n skip data :
  0 <= skip -> 0 <= n <= zlen data ->
  let buf := mem_bytes m a n in
  let k := if skip <? n then n - skip else 0 in
  let data1 := splice 0 buf data in
  let data2 := splice 0 (sublist skip k data1) data1 in
  zlen data2 = zlen data /\ 0 <= k <= n /\ k = Z.max 0 (n - skip) /\
  forall i, 0 <= i < k -> byte_at data2 i = m (a + skip + i).
Proof.
  intros Hs Hn buf k data1 data2.
  assert (Hk : k = Z.max 0 (n - skip))
    by (unfold k; destruct (Z.ltb_spec skip n); lia).
  assert (Hb : zlen buf = n) by (apply zlen_mem_bytes; lia).
  assert (Hd1 : zlen data1 = zlen data) by (apply zlen_splice; lia).
  assert (Hsub : k = 0 \/ zlen (sublist skip k data1) = k).
  { destruct (Z.eq_dec k 0); [by left | right]. apply zlen_sublist; lia. }
  destruct Hsub as [Hk0 | Hsub].
  - assert (He : sublist skip k data1 = []) by (rewrite Hk0; done).
    unfold data2. rewrite He. split; [| split; [lia | split; [done | lia]]].
    by rewrite <- Hd1.
  - split; [unfold data2; rewrite zlen_splice; lia |].
    split; [lia |]. split; [done |]. intros i Hi.
    unfold data2. rewrite byte_at_splice by lia. rewrite Hsub.
    destruct (Z.leb_spec 0 i), (Z.ltb_spec i (0 + k)); cbn [andb]; try lia.
    rewrite Z.sub_0_r, byte_at_sublist by lia.
    unfold data1. rewrite byte_at_splice by lia. rewrite Hb.
    destruct (Z.leb_spec 0 (skip + i)), (Z.ltb_spec (skip + i) (0 + n)); cbn [andb];
      try lia.
    rewrite Z.sub_0_r. unfold buf. rewrite byte_at_mem_bytes by lia. f_equal. lia.
Qed.

Lemma wp_read_root_prefix sector r cache Q E w :
  fs_geo (w_fs w) = g -> flash_ok w -> cache_ok cache ->
  0 <= sector < sector_count g -> record_fits r ->
  (forall w' cache', flash_is (mem w) w w' ->
     match parse_root (mem w) sector r with
     | inr v => cache_filled (mem w) sector r cache cache' ->
         Q (root_st v, root_payload_off v, root_payload_len v, cache') w'
     | inl e => E e w'
     end) ->
  wp (read_root_prefix sector (md_data_off r) (md_data_len r)
        (md_size_or_offset r) cache) Q E w.
Proof.
  intros Hgeo Hok Hcache Hs (Ho & Hl & Hend & Hst) HQ.
  pose proof (sector_size_range (g := g)).
  unfold read_root_prefix, parse_root in *. unfold data_end in Hend.
  apply wp_bind, wp_guard; intros Hl2; rewrite Hl2 in HQ;
    [by apply (HQ w None) |]. apply Z.ltb_ge in Hl2.
  apply wp_bind, wp_get_geo. rewrite Hgeo. cbv zeta.
  set (use := match cache with Some c => 32 + 2 <=? cv_capacity c | None => false end).
  set (bs := match cache with Some c => if use then cv_capacity c else 32 + 2
             | None => 32 + 2 end).
  assert (Hbs : 34 <= bs).
  { unfold bs, use. destruct cache as [c |]; [| lia].
    destruct (Z.leb_spec (32 + 2) (cv_capacity c)); lia. }
  set (nread := if md_data_len r <? bs then md_data_len r else bs).
  assert (Hn : nread = Z.min (md_data_len r) bs)
    by (unfold nread; destruct (Z.ltb_spec (md_data_len r) bs); lia).
  set (a := sector * sector_size g + md_data_off r) in *.
  destruct (sector_in_device sector (md_data_off r) nread) as [Hd1 Hd2];
    [lia.. |].
  apply wp_bind, wp_flash_read; [done | done | lia | done |].
  intros w1 Hw1. rewrite byte_at_mem_bytes, Z.add_0_r by lia.
  pose proof (mem_u8 w a Hok) as Hu. unfold is_u8 in Hu.
  set (nl := mem w a) in *. simpl orb in HQ.
  assert (Hg : (nl =? 0) || (32 <? nl) || (md_data_len r <=? 1 + nl) ||
    (nread <=? 1 + nl) = (nl =? 0) || (32 <? nl) || (md_data_len r <=? 1 + nl)).
  { destruct (Z.eqb_spec nl 0), (Z.ltb_spec 32 nl),
      (Z.leb_spec (md_data_len r) (1 + nl)), (Z.leb_spec nread (1 + nl)); simpl;
      done || lia. }
  rewrite Hg. apply wp_bind, wp_guard; intros Hc.
  { rewrite Hc in HQ. by apply (HQ w1 None). }
  rewrite Hc in HQ. simpl in HQ.
  rewrite !orb_false_iff, Z.eqb_neq, Z.ltb_ge, Z.leb_gt in Hc.
  rewrite byte_at_mem_bytes by lia.
  pose proof (mem_u8 w (a + (1 + nl)) Hok) as Hu2. unfold is_u8 in Hu2.
  apply wp_bind, wp_guard; intros Hp; rewrite Hp in HQ;
    [by apply (HQ w1 None) |].
  apply wp_ret. rewrite sublist_mem_bytes by lia.
  apply HQ; [done |].
  assert (Hskip : payload_skip (mem w) sector r =
    Z.of_nat 1 + nl + 1 + mem w (a + (1 + nl))) by done.
  destruct cache as [c |]; [| by repeat split].
  destruct Hcache as [Hc0 Hcz].
  destruct use eqn:Huse; unfold use in Huse.
  - apply Z.leb_le in Huse. assert (Hbc : bs = cv_capacity c) by done.
    destruct (fill_cache (mem w) a nread (1 + nl + 1 + mem w (a + (1 + nl)))
      (cv_data c)) as (Hz & Hk & Hkm & Hb); [lia | lia |].
    split; [by split; cbn [cv_capacity cv_data]; [| rewrite Hz] |].
    split; [done |]. intros v [= <-] _. unfold cache_reads.
    cbn [cv_data_pos cv_len cv_capacity cv_data]. rewrite Hskip.
    split; [done |]. split; [lia |]. split; [lia |]. intros i Hi. by apply Hb.
  - apply Z.leb_gt in Huse. split; [done |]. split; [done |]. intros v [= <-]. lia.
Qed.

Lemma wp_read_root sector slot cache Q E w :
  fs_geo (w_fs w) = g -> flash_ok w -> cache_ok cache ->
  (forall w' cache', flash_is (mem w) w w' ->
     match root_value (mem w) sector slot with
     | inr v => (forall r, slot_md (mem w) sector slot FFFS_MD_MATCH_LIVE = inr r ->
           cache_filled (mem w) sector r cache cache') ->
         cache_ok cache' -> Q (with_root_cache cache' v) w'
     | inl e => E e w'
     end) ->
  wp (fffs_read_file_root_md sector slot true cache) Q E w.
Proof.
  intros Hgeo Hok Hcache HQ. unfold fffs_read_file_root_md, root_value in *.
  apply wp_bind, (wp_read_md g); [done | done |]. intros w1 Hw1.
  fold (slot_md (mem w) sector slot FFFS_MD_MATCH_LIVE).
  destruct (slot_md _ _ _ _) as [e | r] eqn:Hr; [by apply (HQ w1 None) |].
  apply wp_bind, wp_guard; intros Ht; rewrite Ht in HQ;
    [by apply (HQ w1 None) |].
  apply slot_md_fits in Hr as [Hs Hfit]. pose proof (geo_index (g := g)).
  apply wp_bind, (wp_read_root_prefix sector r);
    [by rewrite (fi_fs _ _ _ Hw1) | apply Hw1 | done | lia | done |].
  intros w2 cache' Hw2.
  assert (Heq : parse_root (mem w1) sector r = parse_root (mem w) sector r).
  { unfold parse_root. rewrite !(fi_mem _ _ _ Hw1).
    by rewrite (mem_bytes_ext (mem w1) (mem w)) by (intros; apply Hw1). }
  rewrite Heq. specialize (HQ w2 cache').
  assert (Hw : flash_is (mem w) w w2).
  { eapply flash_is_ext; [by eapply flash_is_trans | apply Hw1]. }
  specialize (HQ Hw).
  assert (Hfill : cache_filled (mem w1) sector r cache cache' ->
    cache_filled (mem w) sector r cache cache').
  { apply cache_filled_ext. intros a. symmetry. apply Hw1. }
  unfold parse_root in *. destruct (_ || _); [done |]. intros Hf.
  apply wp_ret, HQ; [intros r' [= <-]; by apply Hfill | apply Hf].
Qed.
End RootSpec.

(** ** Properties *)

(** C20: metadata lookup.  On a working NOR device [fffs_read_md_for_slot]
    terminates, changes nothing, and its result is a function of the sector's
    bytes: the first live record of the slot in the list of records that the
    bytes spell ([lookup_md]), or the status of the way the list ends. *)
Theorem read_md_refines `{Backend} `{!NorFlash} `{!ValidBackend}
    (g : fs_geometry) `{!GeoOk g} (sector slot : Z) (w : world) :
  fs_geo (w_fs w) = g -> flash_ok w ->
  reads (fffs_read_md_for_slot sector slot)
    (slot_md g (mem w) sector slot FFFS_MD_MATCH_LIVE) w.
Proof.
  intros Hgeo Hok.
  assert (Hwp : wp (fffs_read_md_for_slot sector slot)
    (fun r w' => flash_is (mem w) w w' /\
       slot_md g (mem w) sector slot FFFS_MD_MATCH_LIVE = inr r)
    (fun e w' => flash_is (mem w) w w' /\
       slot_md g (mem w) sector slot FFFS_MD_MATCH_LIVE = inl e) w).
  { apply (wp_read_md g); [done | done |]. intros w' Hw'.
    fold (slot_md g (mem w) sector slot FFFS_MD_MATCH_LIVE).
    by destruct (slot_md _ _ _ _ _). }
  unfold wp in Hwp. unfold reads.
  destruct (fffs_read_md_for_slot sector slot w) as [[r | e |] w'];
    [| | done]; destruct Hwp as [Hw' ->]; by exists w'.
Qed.

Lemma read_md_refines_witness :
  exists w', @fffs_read_md_for_slot Demo.backend 3 9 Demo.blank =
    (Err FFFS_ERR_CORRUPT, w').
Proof.
  destruct (@read_md_refines Demo.backend (dev_nor 2048 4) Demo.valid Demo.geo
    Demo.geo_valid 3 9 Demo.blank eq_refl Demo.blank_ok) as (w' & _ & Hr).
  exists w'. exact Hr.
Defined.
