(* ===== verification/MdWrite.v ===== *)
(** * Free windows and extent records

    The free-window scan and the extent writer of [FileMd] against the
    abstract sector metadata of [MdSpec]: the window returned is free, above
    the data and below the records; a record written there is read back and
    the records that were there stay. *)

From S2P Require Export MdSpec.

Section MdWrite.
Context `{Backend} `{!NorFlash} `{!ValidBackend} (g : fs_geometry) `{!GeoOk g}.

Abbreviation base sector := (sector * sector_size g).

(** A place for one more record: the first of a blank sector, or below the
    records [l] of a live sector. *)
Record free_place (m : Z -> Z) (sector : Z) (l : list fffs_md_record)
    (record_off : Z) (blank : bool) : Prop := {
  fp_sector : index_sectors g <= sector < sector_count g;
  fp_footer :
    if blank
    then l = [] /\ record_off = sector_size g - 26 /\
         erased_span m (base sector + record_off) 26
    else footer_live (footer_at g m sector) = true /\
         sector_records g m sector = (l, WEnd_erased) /\
         record_off = cursor_after (sector_size g - 10) l - 16 /\
         10 <= record_off /\ erased_span m (base sector + record_off) 16;
}.

(** ** The free-window scan *)

Lemma free_loop_inactive n sector slot normal walk window rc md ms :
  wk_active walk = false ->
  free_window_loop n sector slot normal walk window rc md ms =
  ret (rc, md, ms).
Proof. intros Ha. destruct n; simpl; by rewrite Ha. Qed.

(** What the scan over the records returns. *)
Lemma wp_free_window_loop n sector slot normal cursor claimed walk window rc md
    w :
  fs_geo (w_fs w) = g -> flash_ok w -> window_ok g (mem w) sector window ->
  index_sectors g <= sector < sector_count g -> 0 <= cursor <= sector_size g ->
  cursor < Z.of_nat n -> walk_at sector cursor claimed walk ->
  md = claimed ->
  wp (free_window_loop n sector slot normal walk window rc md cursor)
    (fun '(rc', md', ms') w' =>
       let '(l, e) := walk_from n g (mem w) sector cursor claimed in
       flash_is (mem w) w w' /\ rc' = rc + zlen l /\
       md' = claimed_after claimed l /\ ms' = cursor_after cursor l /\
       (e = WEnd_erased \/ e = WEnd_data \/ e = WEnd_full) /\
       Forall (fun r => md_live r && (md_slot r =? slot) = false) l)
    (fun _ _ => True) w.
Proof.
  pose proof geo_index as Hgi.
  revert cursor claimed walk window rc md w.
  induction n as [|n IH];
    intros cursor claimed walk window rc md w Hgeo Hok Hwin Hsec Hc Hn Hat ->;
    [lia |].
  pose proof Hat as (Ha & _). cbn [free_window_loop]. rewrite Ha. cbn [negb].
  apply wp_bind. apply (wp_walk_next g sector cursor claimed); try done; try lia.
  intros w1 window1 walk1 record Hw1 Hwin1.
  assert (Hdone : forall e, e = WEnd_erased \/ e = WEnd_data ->
    wp (ret (rc, claimed, cursor))
      (fun '(rc', md', ms') w' =>
       let '(l, e) := ([], e) in
       flash_is (mem w) w w' /\ rc' = rc + zlen l /\
       md' = claimed_after claimed l /\ ms' = cursor_after cursor l /\
       (e = WEnd_erased \/ e = WEnd_data \/ e = WEnd_full) /\
       Forall (fun r => md_live r && (md_slot r =? slot) = false) l)
      (fun _ _ => True) w1).
  { intros e He. apply wp_ret. split; [done |].
    change (zlen (@nil fffs_md_record)) with 0.
    unfold claimed_after, cursor_after. cbn [foldl].
    change (zlen (@nil fffs_md_record)) with 0.
    repeat split; [lia | lia | tauto | done]. }
  cbn [walk_from]. destruct (Z.leb_spec cursor 10); [by apply Hdone; right |].
  destruct (parse_at g (mem w) sector cursor) as [| | | r] eqn:Hp;
    [by apply Hdone; left | done | by apply wp_fail |].
  intros Hafter. cbv zeta.
  destruct (parse_record_inv g _ _ _ _ Hp) as (Hge & Hst & _).
  destruct (normal && _).
  { (* a continuation record *)
    apply wp_bind, wp_ignore. eapply wp_keeps;
      [apply (keeps_mark_full g) | | intros; by apply wp_fail
      | intros; by apply wp_fail].
    split; [| done..]. by rewrite (fi_fs _ _ _ Hw1). }
  destruct (md_live r && _) eqn:Hrej; [by apply wp_fail |].
  change (md_data_off r + md_data_len r) with (data_end r).
  replace (if claimed <? data_end r then data_end r else claimed) with
    (Z.max claimed (data_end r))
    by (destruct (Z.ltb_spec claimed (data_end r)); lia).
  rewrite Hst.
  assert (Hstep : forall l, cursor_after cursor (r :: l) =
    cursor_after (cursor - 16) l).
  { intros l. unfold cursor_after. rewrite zlen_cons. lia. }
  destruct (cursor - 16 <=? _) eqn:Hfull.
  - rewrite free_loop_inactive.
    2: { destruct Hafter as (_ & _ & _ & ->). by rewrite Hfull. }
    apply wp_ret. split; [done |]. rewrite Hstep.
    unfold cursor_after, claimed_after.
    change (zlen (@nil fffs_md_record)) with 0.
    change (zlen [r]) with 1. repeat split; [lia | tauto |].
    by repeat constructor.
  - assert (Hwin1' : window_ok g (mem w1) sector window1).
    { eapply window_ok_ext; [| done]. intros a. symmetry. apply Hw1. }
    pose proof (IH (cursor - 16) (Z.max claimed (data_end r)) walk1 window1
      (rc + 1) _ w1 ltac:(by rewrite (fi_fs _ _ _ Hw1)) (fi_ok _ _ _ Hw1)
      Hwin1' Hsec ltac:(lia) ltac:(lia)
      ltac:(by apply walk_after_at) eq_refl) as IHw.
    rewrite (walk_from_ext g n (mem w1) (mem w)) in IHw by apply Hw1.
    destruct (walk_from n g (mem w) sector _ _) as [l e].
    eapply wp_mono; [exact IHw | | done]. intros [[rc' md'] ms'] w2.
    intros (Hw2 & -> & -> & -> & He & Hl). split.
    { eapply flash_is_ext; [by eapply flash_is_trans | apply Hw1]. }
    rewrite Hstep, zlen_cons. repeat split; [lia | done |].
    by constructor.
Qed.

(** Record boundaries are 6 modulo 16, so the walk never runs into the first
    bytes of the sector. *)
Lemma walk_end_cursor n m sector cursor claimed l e :
  22 <= cursor -> cursor mod 16 = 6 -> cursor < Z.of_nat n ->
  walk_from n g m sector cursor claimed = (l, e) ->
  22 <= cursor_after cursor l /\ e <> WEnd_data /\
  (e = WEnd_full -> cursor_after cursor l <= claimed_after claimed l).
Proof.
  revert cursor claimed l.
  induction n as [|n IH]; intros cursor claimed l Hc Hm Hn Hw; [lia |].
  cbn [walk_from] in Hw. destruct (Z.leb_spec cursor 10); [lia |].
  assert (Hnil : 22 <= cursor_after cursor []).
  { unfold cursor_after. change (zlen (@nil fffs_md_record)) with 0. lia. }
  destruct (parse_at g m sector cursor) as [| | | r] eqn:Hp;
    [injection Hw as <- <-; done.. |].
  destruct (parse_record_inv g _ _ _ _ Hp) as (Hge & _). cbv zeta in Hw.
  assert (Hc' : 22 <= cursor - 16).
  { pose proof (Z.div_mod cursor 16 ltac:(lia)). lia. }
  destruct (cursor - 16 <=? _) eqn:Hfull.
  - injection Hw as <- <-. unfold cursor_after, claimed_after. cbn [foldl].
    change (zlen [r]) with 1. rewrite Z.leb_le in Hfull.
    split; [lia | split; [done | lia]].
  - destruct (walk_from n g m sector _ _) as [l' e'] eqn:Hl'.
    injection Hw as <- <-.
    replace (cursor_after cursor (r :: l')) with (cursor_after (cursor - 16) l')
      by (unfold cursor_after; rewrite zlen_cons; lia).
    change (claimed_after claimed (r :: l')) with
      (claimed_after (Z.max claimed (data_end r)) l').
    eapply IH; [done | | lia | exact Hl'].
    replace (cursor - 16) with (cursor + (-1) * 16) by lia. by rewrite Z.mod_add.
Qed.

Lemma sector_size_mod : (sector_size g - 10) mod 16 = 6.
Proof.
  pose proof geo_shift. rewrite geo_sector_size, Z.shiftl_mul_pow2 by lia.
  replace (256 * 2 ^ sector_shift g - 10) with
    (6 + (16 * 2 ^ sector_shift g - 1) * 16) by lia.
  by rewrite Z.mod_add.
Qed.

(** The window that a scan may return for [sector]. *)
Record window_sound (m : Z -> Z) (sector min_free slot : Z)
    (l : list fffs_md_record) (win : free_window) : Prop := {
  ws_records :
    if fw_needs_footer win
    then l = [] /\ fw_record_off win = sector_size g - 26 /\
         erased_span m (base sector) (sector_size g)
    else footer_live (footer_at g m sector) = true /\
         sector_records g m sector = (l, WEnd_erased) /\
         fw_record_off win = cursor_after (sector_size g - 10) l - 16;
  ws_count : fw_md_records win = zlen l /\
    zlen l < FFFS_ALLOC_MAX_MD_RECORDS_PER_SECTOR;
  ws_data : fw_data_off win = claimed_after 0 l;
  ws_room : 0 <= fw_data_off win /\
    fw_data_off win + min_free <= fw_record_off win <= sector_size g - 26;
  ws_erased : erased_span m (base sector + fw_data_off win)
    (fw_record_off win - fw_data_off win);
  ws_slot : Forall (fun r => md_live r && (md_slot r =? slot) = false) l;
}.

Lemma claimed_after_ge claimed l : claimed <= claimed_after claimed l.
Proof.
  unfold claimed_after. revert claimed. induction l as [|r l IH]; intros c;
    cbn [foldl]; [lia |]. etransitivity; [| apply IH]. lia.
Qed.

Lemma wp_find_free_window sector min_free slot normal w :
  fs_geo (w_fs w) = g -> flash_ok w -> sector_size g <= 2 ^ 16 ->
  0 <= min_free ->
  wp (fffs_find_sector_free_window sector min_free slot normal)
    (fun win w' => flash_core (mem w) w w' /\
       exists l, window_sound (mem w) sector min_free slot l win)
    (fun _ _ => True) w.
Proof.
  intros Hgeo Hok Hss Hmin. pose proof (sector_size_range (g := g)) as Hssr.
  pose proof geo_index as Hgi. pose proof geo_scratch as Hscr.
  unfold fffs_find_sector_free_window. apply wp_bind, wp_get_geo. rewrite Hgeo.
  apply wp_bind, wp_guard; [done |].
  rewrite orb_false_iff, Z.leb_gt, Z.ltb_ge. intros Hsec.
  apply wp_bind, (wp_view_footer g); try done; try lia;
    [by apply (local_reader_ok g) |].
  intros w1 window1 Hw1 Hwin1. rewrite usz_footer.
  assert (Hm1 : forall a, mem w1 a = mem w a) by apply Hw1.
  assert (Hgeo1 : fs_geo (w_fs w1) = g) by by rewrite (fi_fs _ _ _ Hw1).
  destruct (sector_in_device (g := g) sector 0 (sector_size g)); try lia.
  destruct (ft_erased (footer_at g (mem w) sector)) eqn:Hne.
  { (* blank sector *)
    apply wp_bind, (wp_span_is_erased g); try done; try lia; [apply Hw1 |].
    intros w2 Hw2 Her. apply wp_bind, wp_guard; [done |].
    rewrite orb_false_iff, !Z.ltb_ge. intros [Hr1 Hr2]. apply wp_ret. split.
    { eapply flash_core_ext; [| exact Hm1].
      eapply flash_core_trans; [by apply flash_is_core | done]. }
    exists []. rewrite u16_small by (unfold is_u16; lia).
    split; cbn [fw_needs_footer fw_record_off fw_data_off fw_md_records].
    - repeat split; [lia |]. intros a Ha. rewrite <- Hm1. by apply Her.
    - done.
    - done.
    - lia.
    - intros a Ha. rewrite <- Hm1. apply Her. lia.
    - done. }
  destruct (negb _ || negb _ || negb _) eqn:Hlive; [by apply wp_fail |].
  destruct (normal && _); [by apply wp_fail |].
  assert (Hwin1' : window_ok g (mem w1) sector window1).
  { by eapply window_ok_ext; [symmetry; apply Hm1 |]. }
  apply wp_bind, (wp_walk_init g); try done; [apply Hw1 |].
  intros walk Hwalk. apply wp_bind.
  pose proof (wp_free_window_loop (walk_bound g) sector slot normal
    (sector_size g - 10) 0 walk window1 0 0 w1 Hgeo1 (fi_ok _ _ _ Hw1) Hwin1'
    ltac:(lia) ltac:(lia) ltac:(unfold walk_bound; lia) Hwalk eq_refl) as Hloop.
  rewrite (walk_from_ext g _ (mem w1) (mem w)) in Hloop by done.
  fold (sector_records g (mem w) sector) in Hloop.
  destruct (sector_records g (mem w) sector) as [l e] eqn:Hrec.
  eapply wp_mono; [exact Hloop | | done].
  intros [[rc md] ms] w2 (Hw2 & -> & -> & -> & He & Hl). rewrite Z.add_0_l.
  pose proof sector_size_mod as Hmod.
  destruct (walk_end_cursor (walk_bound g) (mem w) sector (sector_size g - 10) 0 l e
    ltac:(lia) Hmod ltac:(unfold walk_bound; lia) Hrec) as (Hca & Hnd & Hfull).
  set (ms := cursor_after (sector_size g - 10) l) in *.
  set (md := claimed_after 0 l) in *.
  assert (Hms : ms <= sector_size g - 10).
  { unfold ms, cursor_after. pose proof (zlen_nonneg l). lia. }
  assert (Hmd : 0 <= md) by apply claimed_after_ge.
  destruct (Z.leb_spec 32 (zlen l)) as [|Hcount].
  { apply wp_bind, wp_ignore.
    eapply wp_keeps; [by apply (keeps_mark_full g) | | |];
      intros; try by apply wp_fail. split; [| done..].
    by rewrite (fi_fs _ _ _ Hw2). }
  rewrite (usz_small (ms - 16)) by lia.
  destruct ((ms - 16 <? md) || _) eqn:Hroom.
  { apply wp_bind. destruct normal; cbn [when].
    - apply wp_ignore. eapply wp_keeps; [by apply (keeps_mark_full g) | | |];
        intros; try by apply wp_fail. split; [| done..].
      by rewrite (fi_fs _ _ _ Hw2).
    - by apply wp_ret, wp_fail. }
  rewrite orb_false_iff, Z.ltb_ge in Hroom. destruct Hroom as [Hr1 Hr2].
  rewrite usz_small in * by lia. rewrite Z.ltb_ge in Hr2.
  assert (Hm2 : forall a, mem w2 a = mem w a).
  { intros a. by rewrite (fi_mem _ _ _ Hw2). }
  destruct (sector_in_device (g := g) sector md (ms - 16 - md)); try lia.
  apply wp_bind, (wp_span_is_erased g); try done; try lia;
    [by rewrite (fi_fs _ _ _ Hw2) | apply Hw2 |].
  intros w3 Hw3 Her. apply wp_ret. split.
  { eapply flash_core_ext; [| exact Hm2].
    eapply flash_core_trans; [| exact Hw3].
    eapply flash_core_trans; [by apply flash_is_core |].
    by apply flash_is_core. }
  exists l. rewrite !u16_small by (unfold is_u16; lia).
  split; cbn [fw_needs_footer fw_record_off fw_data_off fw_md_records].
  - rewrite Hrec. split; [| split; [| done]].
    + unfold footer_live. rewrite !orb_false_iff, !negb_false_iff in Hlive.
      destruct Hlive as [[Ht Hmv] Hl']. by rewrite Hne, Ht, Hmv, Hl'.
    + destruct He as [-> | [-> | ->]]; [done | done |].
      specialize (Hfull eq_refl). lia.
  - pose proof (zlen_nonneg l). by rewrite u16_small by (unfold is_u16; lia).
  - done.
  - lia.
  - intros a Ha. rewrite <- Hm2. by apply Her.
  - done.
Qed.

(** ** The extent writer *)

Lemma walk_from_local n m m' sector cursor claimed :
  (forall a, a < base sector + cursor -> m a = m' a) ->
  walk_from n g m sector cursor claimed = walk_from n g m' sector cursor claimed.
Proof.
  revert cursor claimed. induction n as [|n IH]; intros cursor claimed Heq; [done |].
  cbn [walk_from]. destruct (cursor <=? 10); [done |].
  rewrite (parse_at_local g m m') by (intros; apply Heq; lia).
  destruct (parse_at g m' sector cursor) as [| | | r]; try done. cbv zeta.
  rewrite IH; [done |]. intros a Ha. apply Heq. lia.
Qed.

Lemma footer_live_bytes l :
  zlen l = 10 ->
  footer_live (fffs_decode_sector_footer l) =
  (byte_at l 4 =? FFFS_SECTOR_TYPE_FILE) &&
  bool_decide (sublist 6 4 l = FFFS_SECTOR_MAGIC) && state_is_live (byte_at l 5).
Proof.
  intros Hlen. unfold footer_live, fffs_decode_sector_footer. simpl.
  destruct (fffs_flash_bytes_erased l) eqn:He; simpl; [| done].
  rewrite flash_bytes_erased_spec, Forall_lookup in He.
  destruct (Z.eqb_spec (byte_at l 4) 1) as [H4|]; [| done].
  unfold byte_at in H4. rewrite nth_lookup in H4.
  destruct (l !! Z.to_nat 4) as [x|] eqn:Hx; simpl in H4; [| done].
  apply He in Hx. lia.
Qed.

Lemma live_after_full s :
  is_u8 s -> state_is_live s = true ->
  state_is_live (Z.land s FFFS_LIFECYCLE_FULL) = true.
Proof.
  intros Hs Hl.
  assert (Hall : all_bytes (fun s => negb (state_is_live s) ||
    state_is_live (Z.land s FFFS_LIFECYCLE_FULL)) = true) by (vm_compute; done).
  pose proof (all_bytes_spec _ _ Hall Hs) as Hb. cbv beta in Hb.
  by rewrite Hl in Hb.
Qed.

Lemma footer_bytes_at m sector i :
  0 <= i < 10 ->
  byte_at (footer_bytes g m sector) i =
  m (fffs_sector_footer_offset g sector + i).
Proof. intros Hi. unfold footer_bytes. by rewrite byte_at_mem_bytes. Qed.

(** The full hint keeps a live footer live. *)
Lemma footer_live_full m sector :
  (forall a, is_u8 (m a)) ->
  footer_live (footer_at g m sector) = true ->
  footer_live (footer_at g
    (mem_program m (fffs_sector_footer_offset g sector + 5)
       [FFFS_LIFECYCLE_FULL]) sector) = true.
Proof.
  intros Hm. unfold footer_at.
  assert (Hz : forall m', zlen (footer_bytes g m' sector) = 10)
    by (intros; by apply zlen_mem_bytes).
  rewrite !footer_live_bytes by apply Hz. rewrite !andb_true_iff.
  intros [[H4 H6] H5]. set (off := fffs_sector_footer_offset g sector).
  rewrite !footer_bytes_at in * by lia. rewrite !mem_program_byte.
  fold off in H4. fold off in H5. fold off.
  rewrite Z.eqb_refl. replace (off + 4 =? off + 5) with false
    by (symmetry; apply Z.eqb_neq; lia).
  split; [split; [done |] |]; [| by apply live_after_full].
  rewrite bool_decide_eq_true in *. rewrite <- H6. unfold footer_bytes.
  rewrite !sublist_mem_bytes by lia. apply mem_bytes_program_out.
  fold off. change (zlen [90]) with 1. lia.
Qed.

Lemma full_keeps_records m sector :
  sector_records g (mem_program m (fffs_sector_footer_offset g sector + 5)
     [FFFS_LIFECYCLE_FULL]) sector = sector_records g m sector.
Proof.
  pose proof (sector_size_range (g := g)).
  apply walk_from_local. intros a Ha. apply mem_program_out.
  unfold fffs_sector_footer_offset. lia.
Qed.

(** What one extent record does to the memory. *)
Record extent_written (m m' : Z -> Z) (sector : Z) (l : list fffs_md_record)
    (r : fffs_md_record) : Prop := {
  ew_footer : footer_live (footer_at g m' sector) = true;
  ew_records : exists e, sector_records g m' sector = (l ++ [r], e);
  ew_frame : forall a, a < base sector + md_record_start r \/
    base sector + sector_size g <= a -> m' a = m a;
}.

(** The memory after the record was programmed, before the full hint. *)
Lemma extent_programmed m sector slot type doff roff (blank : bool) dlen span
    size next live serial l :
  (forall a, is_u8 (m a)) ->
  free_place m sector l roff blank ->
  is_u16 slot -> is_u16 doff -> is_u16 dlen -> is_u16 span -> is_u16 next ->
  is_u32 size -> is_u32 serial ->
  type = FFFS_MD_TYPE_FILE_ROOT_V1 \/ type = FFFS_MD_TYPE_FILE_CONT_V1 ->
  let r := extent_record slot type doff dlen span size next roff live in
  md_fields_valid g sector roff r = true ->
  roff <= doff + dlen \/ m (base sector + roff - 1) = 0xff ->
  let md := encode_md_record slot type doff dlen span size next live in
  let buf := if blank then md ++ fffs_encode_sector_footer serial true else md
  in
  extent_written m (mem_program m (base sector + roff) buf) sector l r.
Proof.
  intros Hm [Hsec Hplace] Hs Ho Hl Hp Hn Hz Hser Hty r Hv Hbelow md buf.
  pose proof (sector_size_range (g := g)) as Hss.
  assert (Hmdl : zlen md = 16) by apply zlen_encode_md.
  assert (Hmdb : is_bytes md).
  { apply is_bytes_encode_md. unfold is_u8. lia. }
  assert (Hbuf : is_bytes buf /\ zlen buf = if blank then 26 else 16).
  { unfold buf. destruct blank; [| done]. split.
    - apply Forall_app. split; [done | apply is_bytes_footer].
    - by rewrite zlen_app, Hmdl, zlen_footer. }
  destruct Hbuf as [Hbb Hbl].
  assert (Hroff : 10 <= roff <= sector_size g - 26 /\
    roff + 16 = cursor_after (sector_size g - 10) l /\
    erased_span m (base sector + roff) (zlen buf) /\
    (blank = true -> roff = sector_size g - 26)).
  { rewrite Hbl. unfold cursor_after. pose proof (zlen_nonneg l).
    destruct blank.
    - destruct Hplace as (-> & -> & He). change (zlen (@nil fffs_md_record)) with 0.
      repeat split; try lia. done.
    - destruct Hplace as (_ & _ & -> & Hge & He). unfold cursor_after in *.
      repeat split; try lia; done. }
  destruct Hroff as (Hroff & Hcur & Her & Hblank).
  set (m1 := mem_program m (base sector + roff) buf).
  assert (Hm1 : mem_bytes m1 (base sector + roff) 16 = md).
  { pose proof (program_erased m (base sector + roff) buf Her Hbb) as Hpe.
    fold m1 in Hpe.
    assert (H16 : sublist 0 16 buf = md).
    { unfold buf. destruct blank.
      - unfold sublist. rewrite drop_0, take_app_le;
          [apply take_ge | ]; unfold zlen in Hmdl; lia.
      - apply sublist_all. lia. }
    rewrite <- H16, <- Hpe, sublist_mem_bytes by (rewrite ?Hbl; destruct blank; lia).
    by rewrite Z.add_0_r. }
  assert (Hout : forall a, a < base sector + roff \/
    base sector + roff + zlen buf <= a -> m1 a = m a).
  { intros a Ha. by apply mem_program_out. }
  assert (Hparse : parse_at g m1 sector (roff + 16) = PRecord r).
  { pose proof (parse_written g m1 sector (roff + 16) slot type doff dlen span
      size next live) as Hpw.
    replace (roff + 16 - 16) with roff in Hpw by lia. apply Hpw; try done. lia. }
  assert (Hnext : forall c d, c = roff -> roff <= d \/ roff <= doff + dlen \/
    parse_at g m1 sector c = PErased).
  { intros c d ->. destruct Hbelow as [Hb|Hb]; [tauto |].
    right. right. unfold parse_at. cbv zeta.
    replace (base sector + (roff - 1)) with (base sector + roff - 1) by lia.
    rewrite Hout by lia. by rewrite Hb. }
  split.
  - destruct blank.
    + unfold footer_at, footer_bytes.
      assert (Hft : mem_bytes m1 (fffs_sector_footer_offset g sector) 10 =
        fffs_encode_sector_footer serial true).
      { pose proof (program_erased m (base sector + roff) buf Her Hbb) as Hpe.
        fold m1 in Hpe. rewrite Hblank in * by done. rewrite Hbl in Hpe.
        assert (Hd : sublist 16 10 buf = fffs_encode_sector_footer serial true).
        { unfold buf, sublist. rewrite drop_app_ge by (unfold zlen in Hmdl; lia).
          replace (Z.to_nat 16 - length md)%nat with O
            by (unfold zlen in Hmdl; lia).
          rewrite drop_0. by apply take_ge. }
        rewrite <- Hd, <- Hpe, sublist_mem_bytes by lia. f_equal.
        unfold fffs_sector_footer_offset. lia. }
      rewrite Hft, decode_encode_footer by done. done.
    + destruct Hplace as (Hft & _). rewrite <- Hft. unfold footer_at, footer_bytes.
      f_equal. f_equal. apply mem_bytes_ext. intros a Ha. apply Hout.
      unfold fffs_sector_footer_offset in Ha. rewrite Hbl. lia.
  - destruct blank.
    + destruct Hplace as (-> & -> & _). unfold sector_records, walk_bound.
      destruct (Z.to_nat (sector_size g)) as [|n] eqn:Hn'; [lia |].
      cbn [walk_from]. destruct (Z.leb_spec (sector_size g - 10) 10); [lia |].
      replace (sector_size g - 26 + 16) with (sector_size g - 10) in Hparse by lia.
      rewrite Hparse. cbv zeta.
      replace (sector_size g - 10 - 16) with (sector_size g - 26) by lia.
      destruct (Z.leb_spec (sector_size g - 26) (Z.max 0 (data_end r))) as [|Hd];
        [by eexists |].
      unfold data_end, r in Hd. cbn [extent_record md_data_off md_data_len] in Hd.
      destruct (Hnext (sector_size g - 26) 0 eq_refl) as [|[|Hpe]]; [lia | lia |].
      destruct n; [lia |]. cbn [walk_from]. rewrite Hpe.
      destruct (_ <=? 10); by eexists.
    + destruct Hplace as (_ & Hrec & Hro & _).
      destruct (walk_from_append g (walk_bound g) m m1 sector
        (sector_size g - 10) 0 l r) as (H10 & Hw); try done.
      * unfold walk_bound. lia.
      * intros a Ha. apply Hout. rewrite Hbl. lia.
      * by rewrite <- Hcur.
      * unfold sector_records. rewrite Hw. rewrite <- Hcur.
        replace (roff + 16 - 16) with roff by lia.
        destruct (Z.leb_spec roff (Z.max (claimed_after 0 l) (data_end r)))
          as [|Hd]; [by eexists |].
        unfold data_end, r in Hd. cbn [extent_record md_data_off md_data_len] in Hd.
        destruct (Hnext roff (claimed_after 0 l) eq_refl) as [|[|Hpe]]; [lia | lia |].
        unfold walk_bound. destruct (Z.to_nat (sector_size g)) eqn:Hn'; [lia |].
        cbn [walk_from]. rewrite Hpe. destruct (_ <=? 10); by eexists.
  - intros a Ha. cbn [r extent_record md_record_start] in Ha. apply Hout.
    rewrite Hbl. destruct blank; lia.
Qed.

(** Everything but the allocator state and the device stays. *)
Record alloc_step (w w' : world) : Prop := {
  as_ok : flash_ok w';
  as_geo : fs_geo (w_fs w') = fs_geo (w_fs w);
  as_log : fs_log (w_fs w') = fs_log (w_fs w);
  as_info : fs_info (w_fs w') = fs_info (w_fs w);
  as_cache : index_cache (w_fs w') = index_cache (w_fs w);
  as_heads : index_heads (w_fs w') = index_heads (w_fs w);
  as_files : w_files w' = w_files w;
  as_open : open_files (w_fs w') = open_files (w_fs w);
}.

Lemma wp_claim_serial Q E w :
  Q (next_sector_serial (fs_alloc (w_fs w)))
    (mk_world (w_ctx w)
       (set_fs_alloc (set_next_sector_serial
          (let next := u32 (next_sector_serial (fs_alloc (w_fs w)) + 1) in
           if next =? 0 then 1 else next) (fs_alloc (w_fs w))) (w_fs w))
       (w_files w)) ->
  wp claim_sector_serial Q E w.
Proof. intros HQ. exact HQ. Qed.

Lemma mark_used_step sector w :
  flash_ok w ->
  wp (fffs_alloc_map_mark_used sector)
    (fun _ w' => alloc_step w w' /\ mem w' = mem w) (fun _ _ => False) w.
Proof.
  intros Hok. apply wp_mod_fs. split; [| done].
  split; simpl; try done; destruct (alloc_map _); try done;
    by destruct (_ <=? _).
Qed.

Lemma wp_mark_full sector Q E w :
  fs_geo (w_fs w) = g -> flash_ok w -> 0 <= sector < sector_count g ->
  (forall w', flash_is (mem_program (mem w)
       (fffs_sector_footer_offset g sector + 5) [FFFS_LIFECYCLE_FULL]) w w' ->
     Q tt w') ->
  wp (fffs_mark_sector_full sector) Q E w.
Proof.
  intros Hgeo Hok Hs HQ. destruct (footer_in_device g sector Hs).
  unfold fffs_mark_sector_full, fffs_flash_program_aligned.
  apply wp_bind, wp_get_geo. rewrite Hgeo.
  apply wp_program_aligned; [done | lia | | | done];
    [rewrite zlen_cons, zlen_nil; lia |].
  repeat constructor; unfold is_u8; lia.
Qed.

Lemma alloc_step_trans w1 w2 w3 :
  alloc_step w1 w2 -> alloc_step w2 w3 -> alloc_step w1 w3.
Proof. intros [] []. split; congruence. Qed.

Lemma flash_is_alloc m w w' : flash_is m w w' -> alloc_step w w'.
Proof. intros [Hok _ Hfs Hfi]. split; by rewrite ?Hfs. Qed.

Lemma extent_written_full m m1 sector l r :
  (forall a, is_u8 (m1 a)) -> 0 <= md_record_start r <= sector_size g - 10 ->
  extent_written m m1 sector l r ->
  extent_written m (mem_program m1 (fffs_sector_footer_offset g sector + 5)
    [FFFS_LIFECYCLE_FULL]) sector l r.
Proof.
  intros Hm Hst [Hf Hr Hfr]. split.
  - by apply footer_live_full.
  - by rewrite full_keeps_records.
  - intros a Ha. rewrite mem_program_out; [by apply Hfr |].
    unfold fffs_sector_footer_offset. rewrite zlen_cons, zlen_nil. lia.
Qed.

Lemma extent_written_ext m m1 m2 sector l r :
  (forall a, m1 a = m2 a) -> extent_written m m1 sector l r ->
  extent_written m m2 sector l r.
Proof.
  intros Heq [Hf [e Hr] Hfr]. split.
  - rewrite <- Hf. unfold footer_at, footer_bytes. do 2 f_equal.
    apply mem_bytes_ext. intros. by rewrite Heq.
  - exists e. rewrite <- Hr. apply walk_from_ext. intros. by rewrite Heq.
  - intros a Ha. rewrite <- Heq. by apply Hfr.
Qed.

Lemma free_place_range m sector l roff blank :
  free_place m sector l roff blank -> 10 <= roff <= sector_size g - 26.
Proof.
  pose proof (sector_size_range (g := g)). pose proof (zlen_nonneg l).
  intros [Hs Hp]. destruct blank.
  - destruct Hp as (_ & -> & _). lia.
  - destruct Hp as (_ & _ & -> & ? & _). unfold cursor_after in *. lia.
Qed.

Lemma wp_program_extent sector slot type doff roff (blank : bool) dlen span size
    next live l w :
  fs_geo (w_fs w) = g -> flash_ok w ->
  free_place (mem w) sector l roff blank ->
  is_u16 slot -> is_u16 doff -> is_u16 dlen -> is_u16 span -> is_u16 next ->
  is_u32 size -> is_u32 (next_sector_serial (fs_alloc (w_fs w))) ->
  type = FFFS_MD_TYPE_FILE_ROOT_V1 \/ type = FFFS_MD_TYPE_FILE_CONT_V1 ->
  let r := extent_record slot type doff dlen span size next roff live in
  md_fields_valid g sector roff r = true ->
  roff <= doff + dlen \/ mem w (base sector + roff - 1) = 0xff ->
  wp (fffs_program_extent_metadata sector slot type doff roff blank dlen span
        size next live)
    (fun _ w' => alloc_step w w' /\
       extent_written (mem w) (mem w') sector l r)
    (fun _ _ => False) w.
Proof.
  intros Hgeo Hok Hpl Hs Ho Hl Hp Hn Hz Hser Hty r Hv Hbelow.
  pose proof (extent_programmed (mem w) sector slot type doff roff blank dlen
    span size next live (next_sector_serial (fs_alloc (w_fs w))) l
    ltac:(intros; by apply mem_u8) Hpl Hs Ho Hl Hp Hn Hz Hser Hty Hv Hbelow)
    as Hew. fold r in Hew. cbv zeta in Hew.
  pose proof (free_place_range _ _ _ _ _ Hpl) as Hroff.
  assert (Hsec : 0 <= sector < sector_count g).
  { destruct Hpl as [? _]. pose proof geo_index. lia. }
  destruct (sector_in_device (g := g) sector roff 26); try lia.
  set (md := encode_md_record slot type doff dlen span size next live) in *.
  assert (Hmdl : zlen md = 16) by apply zlen_encode_md.
  assert (Hmdb : is_bytes md).
  { apply is_bytes_encode_md. unfold is_u8. lia. }
  unfold fffs_program_extent_metadata, fffs_flash_program_aligned.
  apply wp_bind, wp_guard;
    [intros Hc; by destruct Hty as [-> | ->] | intros _].
  apply wp_bind, wp_get_geo. rewrite Hgeo. fold md. apply wp_bind.
  set (m1 := mem_program (mem w) (base sector + roff) _) in Hew.
  assert (Hprog : wp (if blank then
      bind claim_sector_serial (fun serial =>
        fffs_backend_program_aligned (base sector + roff)
          (md ++ fffs_encode_sector_footer serial true))
    else fffs_backend_program_aligned (base sector + roff) md)
    (fun _ w1 => alloc_step w w1 /\ forall a, mem w1 a = m1 a)
    (fun _ _ => False) w).
  { unfold m1. destruct blank.
    - apply wp_bind. apply wp_claim_serial.
      apply wp_program_aligned; [done | lia | | |].
      + rewrite zlen_app, Hmdl, zlen_footer. lia.
      + apply Forall_app. split; [done | apply is_bytes_footer].
      + intros w1 Hw1. split; [| apply Hw1].
        apply flash_is_alloc in Hw1. by destruct Hw1.
    - apply wp_program_aligned; [done | lia | lia | done |].
      intros w1 Hw1. split; [by eapply flash_is_alloc | apply Hw1]. }
  eapply wp_mono; [exact Hprog | | done]. clear Hprog.
  intros _ w1 [Hst1 Hm1]. apply wp_when; intros _.
  - apply wp_bind, wp_mark_full; [by rewrite (as_geo _ _ Hst1) | apply Hst1
      | done |].
    intros w2 Hw2. eapply wp_mono; [apply mark_used_step, Hw2 | | done].
    intros _ w3 [Hst3 Hm3]. split.
    { eapply alloc_step_trans; [done |].
      eapply alloc_step_trans; [by eapply flash_is_alloc | done]. }
    rewrite Hm3. eapply extent_written_ext; [intros a; symmetry; apply Hw2 |].
    apply extent_written_full; [| cbn; lia |].
    + intros a. apply mem_u8, Hst1.
    + by eapply extent_written_ext; [intros a; symmetry; apply Hm1 |].
  - split; [done |].
    by eapply extent_written_ext; [intros a; symmetry; apply Hm1 |].
Qed.
End MdWrite.

(** The lookup passes over the other records to the one appended. *)
Lemma find_appended slot l r :
  Forall (fun r => md_live r && (md_slot r =? slot) = false) l ->
  md_live r = true -> md_slot r = slot ->
  List.find (fun r => md_record_matches_slot r slot FFFS_MD_MATCH_LIVE)
    (l ++ [r]) = Some r.
Proof.
  intros Hno Hl Hs. induction Hno as [|r0 l0 H0 _ IH]; simpl.
  - unfold md_record_matches_slot. by rewrite Hs, Z.eqb_refl, Hl.
  - unfold md_record_matches_slot at 1.
    destruct (md_slot r0 =? slot); simpl; [| exact IH].
    rewrite andb_true_r in H0. by rewrite H0.
Qed.

(** ** Properties *)

Section MdWriteProperties.
Context `{Backend} `{!NorFlash} `{!ValidBackend} (g : fs_geometry) `{!GeoOk g}.

(** C10: soundness of the free-window scan.  When [fffs_find_sector_free_window]
    returns a window, the window is inside the sector below all its records,
    above the data of every record, blank, of the length asked for, and the
    sector has no live record of the slot; the scan does not change the
    flash.  Otherwise it returns an error: it always terminates. *)
Theorem free_window_sound (sector min_free slot : Z) (normal : bool) (w : world) :
  fs_geo (w_fs w) = g -> flash_ok w -> sector_size g <= 2 ^ 16 ->
  0 <= min_free ->
  match fffs_find_sector_free_window sector min_free slot normal w with
  | (Ok win, w') =>
      flash_core (mem w) w w' /\
      exists l, window_sound g (mem w) sector min_free slot l win
  | (Err _, _) => True
  | (NoFuel, _) => False
  end.
Proof. intros. by apply (wp_find_free_window g). Qed.

(** C9: an extent record written in a free place is read back.  After
    [fffs_program_extent_metadata] the sector's records are the ones that
    were there followed by the new one, no byte outside the record and the
    footer changed, and when the record was written live for a slot with no
    live record in the sector, [fffs_read_md_for_slot] returns exactly its
    fields. *)
Theorem extent_readback (sector slot type doff roff : Z) (blank : bool)
    (dlen span size next : Z) (l : list fffs_md_record) (w : world) :
  fs_geo (w_fs w) = g -> flash_ok w ->
  free_place g (mem w) sector l roff blank ->
  is_u16 slot -> is_u16 doff -> is_u16 dlen -> is_u16 span -> is_u16 next ->
  is_u32 size -> is_u32 (next_sector_serial (fs_alloc (w_fs w))) ->
  type = FFFS_MD_TYPE_FILE_ROOT_V1 \/ type = FFFS_MD_TYPE_FILE_CONT_V1 ->
  md_fields_valid g sector roff
    (extent_record slot type doff dlen span size next roff true) = true ->
  roff <= doff + dlen \/ mem w (sector * sector_size g + roff - 1) = 0xff ->
  Forall (fun r => md_live r && (md_slot r =? slot) = false) l ->
  let r := extent_record slot type doff dlen span size next roff true in
  exists w1 w2,
    fffs_program_extent_metadata sector slot type doff roff blank dlen span
      size next true w = (Ok tt, w1) /\
    extent_written g (mem w) (mem w1) sector l r /\
    fffs_read_md_for_slot sector slot w1 = (Ok r, w2) /\
    flash_is (mem w1) w1 w2.
Proof.
  intros Hgeo Hok Hpl Hs Ho Hl Hp Hn Hz Hser Hty Hv Hbelow Hno r.
  pose proof (wp_program_extent g sector slot type doff roff blank dlen span size
    next true l w Hgeo Hok Hpl Hs Ho Hl Hp Hn Hz Hser Hty Hv Hbelow) as Hwp.
  apply wp_returns in Hwp as ([] & w1 & Hrun & Hst & Hew). fold r in Hew.
  exists w1.
  assert (Hread : wp (fffs_read_md_for_slot sector slot)
    (fun a w2 => a = r /\ flash_is (mem w1) w1 w2) (fun _ _ => False) w1).
  { apply (wp_read_md g); [by rewrite (as_geo _ _ Hst) | apply Hst |].
    intros w2 Hw2.
    assert (Hvs : valid_data_sector g sector = true).
    { unfold valid_data_sector. destruct Hpl as [Hsec _].
      rewrite andb_true_iff, Z.leb_le, Z.ltb_lt. done. }
    rewrite Hvs. unfold lookup_md. destruct Hew as [Hf [e Hr] _].
    rewrite Hf, Hr. unfold pick_record. simpl fst.
    by rewrite find_appended. }
  apply wp_returns in Hread as (a & w2 & Hrun2 & -> & Hw2).
  by exists w2.
Qed.
End MdWriteProperties.

Lemma free_window_sound_witness :
  match @fffs_find_sector_free_window Demo.backend 3 128 7 true Demo.blank with
  | (Ok win, _) => fw_record_off win = 230
  | _ => False
  end.
Proof.
  pose proof (@free_window_sound Demo.backend (dev_nor 2048 4) Demo.valid
    Demo.geo Demo.geo_valid 3 128 7 true Demo.blank eq_refl Demo.blank_ok
    ltac:(simpl; lia) ltac:(lia)) as Hs.
  destruct (@fffs_find_sector_free_window Demo.backend 3 128 7 true Demo.blank)
    as [[win | e |] w'] eqn:Hrun; [| vm_compute in Hrun; discriminate | exact Hs].
  vm_compute in Hrun. injection Hrun as <- _. reflexivity.
Defined.

Lemma extent_readback_witness :
  exists w1 w2,
    @fffs_program_extent_metadata Demo.backend 3 7 FFFS_MD_TYPE_FILE_ROOT_V1 0 230
      true 5 1 2 0 true Demo.blank = (Ok tt, w1) /\
    @fffs_read_md_for_slot Demo.backend 3 7 w1 =
      (Ok (extent_record 7 FFFS_MD_TYPE_FILE_ROOT_V1 0 5 1 2 0 230 true), w2).
Proof.
  destruct (@extent_readback Demo.backend (dev_nor 2048 4) Demo.valid Demo.geo
    Demo.geo_valid 3 7 FFFS_MD_TYPE_FILE_ROOT_V1 0 230 true 5 1 2 0 []
    Demo.blank) as (w1 & w2 & H1 & _ & H2 & _);
    try (unfold is_u16, is_u32; simpl; lia); try reflexivity.
  - apply Demo.blank_ok.
  - split; [simpl; lia |]. split; [reflexivity | split; [reflexivity |]].
    intros a _. apply Demo.blank_mem.
  - right. reflexivity.
  - constructor.
  - exists w1, w2. split; assumption.
Defined.
