(* ===== verification/IndexCache.v ===== *)
(** * The namespace index interface

    The namespace index backend API of [src/fffs_internal.h] as a class: the
    three implementations selected by [FFFS_INDEX_CACHE_MODE] are in
    [HashIndex], [RamIndex] and [NoCacheIndex], and every client (journal,
    file handles, garbage collector, public API) is written against the
    class.  The bounded probe loop of [fffs_index_resolve], which the two
    cached modes share up to the way they look a slot up, is here. *)

From S2P Require Export FileMd.

(** What [fffs_index_resolve] stores through its out-parameters. *)
Record index_resolution : Type := mk_resolution {
  rs_slot : Z;
  rs_head : Z;
  rs_found : bool;
  rs_root : option root_md;
  rs_cache : option fffs_read_cache_view;
}.

Class IndexCache `{Backend} : Type := mk_index_cache {
  index_cache_config_valid : Z -> bool;
  index_cache_required_size : Z -> Z;
  index_needs_storage : bool;
  index_clear : Z -> fffs -> fffs;
  index_insert : Z -> Z -> M unit;
  index_remove : Z -> M unit;
  index_set : Z -> Z -> M unit;
  index_resolve : list Z -> option fffs_read_cache_view -> M index_resolution;
  index_head_for_slot : Z -> M (Z * bool);
  index_dir_read : fffs_dir -> M (option fffs_stat * fffs_dir);
  index_iter_read : fffs_index_iter -> M (option (Z * Z) * fffs_index_iter);
  index_record_is_current : Z -> Z -> Z -> Z -> M bool;
}.

Section Probe.
Context `{Backend}.

(** The checks on the length of the name. *)
Definition check_name (name : list Z) : M unit :=
  guard_err (zlen name =? 0) FFFS_ERR_INVALID ;;
  guard_err (FFFS_MAX_NAME <? zlen name) FFFS_ERR_NAME_TOO_LONG.

(** The probe loop, over the lookup [head_of] of a slot's current head;
    [n] is the number of candidates left. *)
Fixpoint resolve_loop (head_of : Z -> M (Z * bool)) (n : nat)
    (name : list Z) (candidate : Z) (first_free : option Z)
    (cache : option fffs_read_cache_view) : M index_resolution :=
  match n with
  | O =>
      match first_free with
      | None => fail FFFS_ERR_NO_SPACE
      | Some slot => ret (mk_resolution slot 0 false None cache)
      end
  | S n' =>
      let* (candidate_head, occupied) := head_of candidate in
      if negb occupied then
        pinned <- slot_is_pinned candidate ;;
        resolve_loop head_of n' name (fffs_next_slot candidate)
          (match first_free with
           | None => if pinned then None else Some candidate
           | Some s => Some s
           end) cache
      else
        root <- fffs_read_file_root_md candidate_head candidate true cache ;;
        if bool_decide (st_name (root_st root) = name)
        then ret (mk_resolution candidate candidate_head true (Some root)
                    (root_cache root))
        else resolve_loop head_of n' name (fffs_next_slot candidate)
               first_free (root_cache root)
  end.

Definition resolve_by_heads (head_of : Z -> M (Z * bool)) (name : list Z)
    (cache : option fffs_read_cache_view) : M index_resolution :=
  check_name name ;;
  resolve_loop head_of (Z.to_nat (FFFS_MAX_PROBE_DISTANCE + 1)) name
    (fffs_normalize_slot_base (fffs_hash16 name)) None cache.

(** A directory entry for [(slot, head)]: [None] when the name does not have
    the directory's prefix. *)
Definition dir_entry (dir : fffs_dir) (slot head : Z)
  : M (option fffs_stat) :=
  root <- fffs_read_file_root_md head slot true None ;;
  if negb (d_prefix_len dir =? 0) &&
     negb (has_prefix (d_prefix dir) (st_name (root_st root)))
  then ret None
  else ret (Some (root_st root)).
End Probe.

(** ** What a cached index promises

    A cached index stands for a finite map from slots to head sectors; updates
    succeed as long as the map has less than [idx_capacity] entries.  The
    clients' theorems are proved against this class; [HashIndex] and
    [RamIndex] have the instances. *)

Section CachedIndex.
Context `{Backend}.

(** [struct fffs] without the index cache. *)
Definition fs_less_index (fs : fffs) : fffs :=
  set_index_cache [] (set_index_heads [] fs).

(** The state after an index update. *)
Record index_step (w w' : world) : Prop := {
  is_ctx : w_ctx w' = w_ctx w;
  is_fs : fs_less_index (w_fs w') = fs_less_index (w_fs w);
  is_files : w_files w' = w_files w;
}.

(** The answer of [fffs_index_head_for_slot]. *)
Definition head_answer (r : option Z) : Z * bool :=
  match r with Some head => (head, true) | None => (0, false) end.

Class CachedIndex (I : IndexCache) : Type := {
  idx_ok : fffs -> Prop;
  idx_map : fffs -> gmap Z Z;
  idx_capacity : fs_geometry -> nat;
  idx_ok_ext : forall fs fs', idx_ok fs -> fs_geo fs' = fs_geo fs ->
    index_cache fs' = index_cache fs -> index_heads fs' = index_heads fs ->
    idx_ok fs' /\ idx_map fs' = idx_map fs;
  idx_head : forall slot w, idx_ok (w_fs w) -> 0 < slot <= UINT16_MAX ->
    index_head_for_slot slot w =
      (Ok (head_answer (idx_map (w_fs w) !! slot)), w);
  idx_set : forall slot head w,
    idx_ok (w_fs w) -> 0 < slot <= UINT16_MAX -> 0 < head ->
    (size (idx_map (w_fs w)) < idx_capacity (fs_geo (w_fs w)))%nat \/
      is_Some (idx_map (w_fs w) !! slot) ->
    exists w', index_set slot head w = (Ok tt, w') /\ index_step w w' /\
      idx_ok (w_fs w') /\
      idx_map (w_fs w') = <[slot := head]> (idx_map (w_fs w));
  idx_unset : forall slot w,
    idx_ok (w_fs w) -> 0 < slot <= UINT16_MAX ->
    (size (idx_map (w_fs w)) < idx_capacity (fs_geo (w_fs w)))%nat ->
    exists w', index_set slot 0 w = (Ok tt, w') /\ index_step w w' /\
      idx_ok (w_fs w') /\ idx_map (w_fs w') = delete slot (idx_map (w_fs w));
  idx_insert_set : forall slot head, head <> 0 ->
    index_insert slot head = index_set slot head;
  idx_remove_set : forall slot, index_remove slot = index_set slot 0;
  idx_resolve : forall name cache, index_resolve name cache =
    resolve_by_heads index_head_for_slot name cache;
  idx_cleared : forall fs, index_cache_config_valid
      (index_hash_table_size (fs_geo fs)) = true ->
    0 < index_hash_table_size (fs_geo fs) ->
    let fs' := index_clear (index_hash_table_size (fs_geo fs)) fs in
    idx_ok fs' /\ idx_map fs' = ∅ /\ fs_less_index fs' = fs_less_index fs;
  idx_clear_geo : forall table g fs,
    index_clear table (set_fs_geo g fs) = set_fs_geo g (index_clear table fs);
  idx_current : forall pos off slot head w,
    idx_ok (w_fs w) -> 0 < slot <= UINT16_MAX ->
    index_record_is_current pos off slot head w =
      (Ok (bool_decide (idx_map (w_fs w) !! slot = Some head)), w);
}.
End CachedIndex.

#[global] Instance index_step_refl `{Backend} : Reflexive index_step.
Proof. by split. Qed.

#[global] Instance index_step_trans `{Backend} : Transitive index_step.
Proof. intros w1 w2 w3 [] []. split; congruence. Qed.
