(* ===== verification/Resolve.v ===== *)
(** * Name resolution over a cached index

    [fffs_index_resolve] of the two cached modes, against the [CachedIndex]
    interface: which slot a name resolves to, as a function of the index map,
    of the open handles and of the flash memory. *)

From S2P Require Export MdSpec IndexCache.

(** The 51 candidate slots of a name, in probe order. *)
Definition candidates (name : list Z) : list Z :=
  probe_slot (fffs_normalize_slot_base (fffs_hash16 name)) <$> seq 0 51.

(** The first occupied candidate whose root cannot be read or has the name. *)
Fixpoint name_scan (root : Z -> Z -> fffs_status + root_md) (idx : gmap Z Z)
    (name : list Z) (slots : list Z)
  : fffs_status + option (Z * Z * root_md) :=
  match slots with
  | [] => inr None
  | slot :: rest =>
      match idx !! slot with
      | None => name_scan root idx name rest
      | Some head =>
          match root head slot with
          | inl e => inl e
          | inr r => if bool_decide (st_name (root_st r) = name)
                     then inr (Some (slot, head, r))
                     else name_scan root idx name rest
          end
      end
  end.

(** The first candidate that a new file can take. *)
Definition free_slot (idx : gmap Z Z) (pinned : Z -> bool) (slots : list Z)
  : option Z :=
  List.find (fun slot => bool_decide (idx !! slot = None) && negb (pinned slot))
    slots.

(** What resolving the name should answer. *)
Definition resolution_of (root : Z -> Z -> fffs_status + root_md)
    (idx : gmap Z Z) (pinned : Z -> bool) (name slots : list Z)
    (first_free : option Z) : fffs_status + (Z * Z * option root_md) :=
  match name_scan root idx name slots with
  | inl e => inl e
  | inr (Some (slot, head, r)) => inr (slot, head, Some r)
  | inr None =>
      match first_free with
      | Some slot => inr (slot, 0, None)
      | None => match free_slot idx pinned slots with
                | Some slot => inr (slot, 0, None)
                | None => inl FFFS_ERR_NO_SPACE
                end
      end
  end.

(** The resolution as the code returns it. *)
Definition resolution_is (v : Z * Z * option root_md) (r : index_resolution)
  : Prop :=
  let '(slot, head, root) := v in
  rs_slot r = slot /\ rs_head r = head /\
  match root with
  | Some root => rs_found r = true /\
      exists c, rs_root r = Some (with_root_cache c root)
  | None => rs_found r = false /\ rs_root r = None
  end.

(** The root's payload in the caller's cache. *)
Definition resolved_cache `{Backend} (g : fs_geometry) (m : Z -> Z)
    (cache : option fffs_read_cache_view) (r : index_resolution) : Prop :=
  rs_found r = true ->
  forall record, slot_md g m (rs_head r) (rs_slot r) FFFS_MD_MATCH_LIVE = inr record ->
    cache_filled g m (rs_head r) record cache (rs_cache r).

Section Resolve.
Context `{Backend} `{!NorFlash} `{!ValidBackend} (g : fs_geometry) `{!GeoOk g}.
Context (I : IndexCache) `{!CachedIndex I}.

(** The candidates from the [i]-th. *)
Lemma candidates_range name : Forall (fun s => 1 <= s < UINT16_MAX) (candidates name).
Proof.
  apply Forall_fmap, Forall_true. intros i. apply probe_slot_range.
  apply normalize_range, hash16_range.
Qed.

(** The loop over the [n] candidates from [candidate]. *)
Lemma wp_resolve_loop n name base i first_free cache0 cache w0 Q E w :
  1 <= base < UINT16_MAX ->
  fs_geo (w_fs w) = g -> flash_ok w -> cache_ok cache ->
  cv_capacity <$> cache = cv_capacity <$> cache0 ->
  idx_ok (w_fs w) -> flash_is (mem w0) w0 w ->
  (forall w' r, flash_is (mem w0) w0 w' ->
     match resolution_of (root_value g (mem w0)) (idx_map (w_fs w0))
             (fffs_slot_is_pinned (w_fs w0) (w_files w0)) name
             (probe_slot base <$> seq i n) first_free with
     | inl e => E e w'
     | inr v => resolution_is v r -> resolved_cache g (mem w0) cache0 r -> Q r w'
     end) ->
  wp (resolve_loop index_head_for_slot n name (probe_slot base i) first_free
        cache) Q E w.
Proof.
  intros Hbase. revert i first_free cache w.
  induction n as [|n IH]; intros i ff cache w Hgeo Hok Hc Hcap Hidx Hw0 HQ.
  - unfold resolution_of in HQ. simpl in *. destruct ff as [s |].
    + apply wp_ret. by apply (HQ w).
    + apply wp_fail. by apply (HQ w (mk_resolution 0 0 false None None)).
  - cbn [resolve_loop]. pose proof (probe_slot_range base i Hbase).
    set (s := probe_slot base i) in *.
    unfold resolution_of in HQ. cbn [seq fmap list_fmap name_scan] in HQ.
    fold s in HQ.
    assert (Hidx0 : idx_map (w_fs w) = idx_map (w_fs w0))
      by by rewrite (fi_fs _ _ _ Hw0).
    apply wp_bind. eapply returns_wp; [apply idx_head; [done | lia] |].
    rewrite Hidx0. destruct (idx_map (w_fs w0) !! s) as [head |] eqn:Hlk; simpl.
    + apply wp_bind, (wp_read_root g); [done | done | done |].
      intros w1 c1 Hw1.
      assert (Hroot : root_value g (mem w) head s = root_value g (mem w0) head s)
        by (apply root_value_ext, Hw0).
      rewrite Hroot. assert (Hw01 : flash_is (mem w0) w0 w1).
      { eapply flash_is_ext; [by eapply flash_is_trans | apply Hw0]. }
      destruct (root_value g (mem w0) head s) as [e | r];
        [by apply (HQ w1 (mk_resolution 0 0 false None None)) |].
      intros Hfill Hc1.
      assert (Hfill0 : forall record,
        slot_md g (mem w0) head s FFFS_MD_MATCH_LIVE = inr record ->
        cache_filled g (mem w0) head record cache0 c1).
      { intros record Hrec.
        rewrite (slot_md_ext g (mem w0) (mem w)) in Hrec by (intros; symmetry; apply Hw0).
        destruct (cache_filled_ext g (mem w) (mem w0) head record cache c1)
          as (Hf1 & Hf2 & Hf3); [intros; symmetry; apply Hw0 | by apply Hfill |].
        split; [done | split; [congruence | done]]. }
      assert (Hcap1 : cv_capacity <$> c1 = cv_capacity <$> cache0).
      { unfold root_value in Hroot.
        destruct (slot_md g (mem w) head s _) as [| record]; [done |].
        destruct (Hfill record eq_refl) as (_ & Hcc & _). congruence. }
      simpl. case_bool_decide as Hname.
      * apply wp_ret, HQ; [done | by repeat split; exists c1 |].
        intros _. exact Hfill0.
      * apply (IH (S i)); try done; [| apply Hw1 | by rewrite (fi_fs _ _ _ Hw1) |].
        { by rewrite (fi_fs _ _ _ Hw1). }
        intros w2 r2 Hw2. specialize (HQ w2 r2 Hw2). unfold resolution_of.
        destruct (name_scan _ _ _ _) as [e | [[[? ?] ?] |]]; [done | done |].
        destruct ff; [done |]. unfold free_slot in HQ. cbn [List.find] in HQ.
        by rewrite Hlk in HQ.
    + apply wp_bind. eapply returns_wp; [done |].
      assert (Hpin : fffs_slot_is_pinned (w_fs w) (w_files w) s =
        fffs_slot_is_pinned (w_fs w0) (w_files w0) s)
        by by rewrite (fi_fs _ _ _ Hw0), (fi_files _ _ _ Hw0).
      rewrite Hpin.
      apply (IH (S i)); try done.
      intros w2 r2 Hw2. specialize (HQ w2 r2 Hw2). unfold resolution_of.
      destruct (name_scan _ _ _ _) as [e | [[[? ?] ?] |]]; [done | done |].
      destruct ff; [done |]. unfold free_slot in HQ. cbn [List.find] in HQ.
      rewrite Hlk in HQ. by destruct (fffs_slot_is_pinned _ _ _).
Qed.

Lemma wp_resolve name cache Q E w :
  fs_geo (w_fs w) = g -> flash_ok w -> cache_ok cache -> idx_ok (w_fs w) ->
  0 < zlen name <= FFFS_MAX_NAME ->
  (forall w' r, flash_is (mem w) w w' ->
     match resolution_of (root_value g (mem w)) (idx_map (w_fs w))
             (fffs_slot_is_pinned (w_fs w) (w_files w)) name
             (candidates name) None with
     | inl e => E e w'
     | inr v => resolution_is v r -> resolved_cache g (mem w) cache r -> Q r w'
     end) ->
  wp (index_resolve name cache) Q E w.
Proof.
  intros Hgeo Hok Hc Hidx Hn HQ. rewrite idx_resolve.
  unfold resolve_by_heads, check_name.
  apply wp_bind, wp_bind, wp_guard; [rewrite Z.eqb_eq; lia | intros _].
  apply wp_guard; [rewrite Z.ltb_lt; lia | intros _].
  apply (wp_resolve_loop _ _ _ 0 None cache cache w); try done.
  apply normalize_range, hash16_range.
Qed.
End Resolve.

(** ** Properties *)

(** C17: name resolution.  Over any index that keeps the [CachedIndex] contract,
    [fffs_index_resolve] of a name of 1 to 32 bytes terminates and changes
    nothing, and its answer is a function of the index map, the open handles
    and the flash: among the name's 51 candidate slots, the first occupied one
    whose root carries the name, with its head and root; failing that, the
    first slot that is neither occupied nor pinned by an open handle; failing
    that, [FFFS_ERR_NO_SPACE]; and the error of the first root on the way that
    cannot be read.  When the name is found, the caller's read cache holds the
    start of the file's payload. *)
Theorem resolve_refines `{Backend} `{!NorFlash} `{!ValidBackend}
    (g : fs_geometry) `{!GeoOk g} (I : IndexCache) `{!CachedIndex I}
    (name : list Z) (cache : option fffs_read_cache_view) (w : world) :
  fs_geo (w_fs w) = g -> flash_ok w -> cache_ok cache -> idx_ok (w_fs w) ->
  0 < zlen name <= FFFS_MAX_NAME ->
  exists w', flash_is (mem w) w w' /\
    match resolution_of (root_value g (mem w)) (idx_map (w_fs w))
            (fffs_slot_is_pinned (w_fs w) (w_files w)) name
            (candidates name) None with
    | inl e => index_resolve name cache w = (Err e, w')
    | inr v => exists r, index_resolve name cache w = (Ok r, w') /\
        resolution_is v r /\ resolved_cache g (mem w) cache r
    end.
Proof.
  intros Hgeo Hok Hc Hidx Hn.
  set (v := resolution_of _ _ _ _ _ _).
  assert (Hwp : wp (index_resolve name cache)
    (fun r w' => flash_is (mem w) w w' /\
       match v with
       | inl _ => False
       | inr v => resolution_is v r /\ resolved_cache g (mem w) cache r
       end)
    (fun e w' => flash_is (mem w) w w' /\ v = inl e) w).
  { apply (wp_resolve g I); try done. intros w' r Hw'. fold v.
    by destruct v. }
  unfold wp in Hwp.
  destruct (index_resolve name cache w) as [[r | e |] w']; [| | done];
    destruct Hwp as [Hw' Hv]; exists w'; (split; [done |]).
  - destruct v; [done | by exists r].
  - by rewrite Hv.
Qed.
