(* ===== verification/HashIndex.v ===== *)
(** * Hash-table index cache

    [src/fffs_hashtable_index.c] ([FFFS_INDEX_CACHE_HASH_HEADS]): an
    open-addressed table of [(slot, head)] buckets with linear probing and
    backward-shift deletion. *)

From S2P Require Export Resolve.

Definition is_power_of_two (n : Z) : bool :=
  negb (n =? 0) && (Z.land n (n - 1) =? 0).

Definition bucket_zero : fffs_index_bucket := mk_bucket 0 0.

(** [table[i]] *)
Definition bucket_at (table : list fffs_index_bucket) (i : Z)
  : fffs_index_bucket :=
  nth (Z.to_nat i) table bucket_zero.

(** [table[i] = b] *)
Definition bucket_put (i : Z) (b : fffs_index_bucket)
    (table : list fffs_index_bucket) : list fffs_index_bucket :=
  <[Z.to_nat i := b]> table.

Definition bucket_for (n slot : Z) : Z := Z.land slot (usz (n - 1)).

Definition probe_distance (mask from to : Z) : Z := Z.land (usz (to - from)) mask.

(** The probe of [find_slot_bucket]: the status, the index and whether the
    slot was found. *)
Fixpoint find_slot_loop (k : nat) (table : list fffs_index_bucket)
    (mask slot pos : Z) : fffs_status * Z * bool :=
  match k with
  | O => (FFFS_ERR_NO_SPACE, 0, false)
  | S k' =>
      let bucket := bucket_at table pos in
      if b_slot bucket =? 0 then (FFFS_OK, pos, false)
      else if b_slot bucket =? slot then (FFFS_OK, pos, true)
      else find_slot_loop k' table mask slot (Z.land (usz (pos + 1)) mask)
  end.

Definition find_slot_bucket (table : list fffs_index_bucket) (n slot : Z)
  : fffs_status * Z * bool :=
  if slot =? 0 then (FFFS_ERR_INVALID, 0, false)
  else find_slot_loop (Z.to_nat n) table (usz (n - 1)) slot (bucket_for n slot).

(** The backward-shift loop of [remove_bucket_at].  The code runs it until it
    meets an empty bucket; [None] when [k] rounds do not reach one.  The bound
    that [fffs_index_remove] uses, the size of the table, is enough when a
    bucket is empty ([remove_loop_spec]); when none is, no bound is
    ([remove_loop_full]). *)
Fixpoint remove_loop (k : nat) (n : Z) (table : list fffs_index_bucket)
    (hole idx : Z) : option (list fffs_index_bucket) :=
  let mask := usz (n - 1) in
  if b_slot (bucket_at table idx) =? 0
  then Some (bucket_put hole bucket_zero table)
  else match k with
       | O => None
       | S k' =>
           let home := bucket_for n (b_slot (bucket_at table idx)) in
           let next := Z.land (usz (idx + 1)) mask in
           if probe_distance mask home hole <? probe_distance mask home idx
           then remove_loop k' n (bucket_put hole (bucket_at table idx) table)
                  idx next
           else remove_loop k' n table hole next
       end.

Definition remove_bucket_at (k : nat) (n : Z) (table : list fffs_index_bucket)
    (remove_idx : Z) : option (list fffs_index_bucket) :=
  remove_loop k n table remove_idx
    (Z.land (usz (remove_idx + 1)) (usz (n - 1))).

Definition fffs_index_cache_config_valid (count : Z) : bool :=
  is_power_of_two count && (count <=? FFFS_INDEX_HASH_TABLE_SIZE_MAX).

Definition fffs_index_cache_required_size (count : Z) : Z := 4 * count.

Section HashIndex.
Context `{Backend}.

Definition buckets (fs : fffs) : list fffs_index_bucket := index_cache fs.

Definition fffs_index_insert (slot head : Z) : M unit :=
  fs <- get_fs ;;
  let '(err, idx, _) :=
    find_slot_bucket (buckets fs) (index_hash_table_size (fs_geo fs)) slot in
  check err ;;
  mod_fs (fun fs =>
    set_index_cache (bucket_put idx (mk_bucket slot head) (buckets fs)) fs).

Definition fffs_index_remove (slot : Z) : M unit :=
  fs <- get_fs ;;
  let n := index_hash_table_size (fs_geo fs) in
  let '(err, idx, found) := find_slot_bucket (buckets fs) n slot in
  if negb (bool_decide (err = FFFS_OK)) &&
     negb (bool_decide (err = FFFS_ERR_NO_SPACE))
  then fail err
  else if negb found then ret tt
  else match remove_bucket_at (Z.to_nat n) n (buckets fs) idx with
       | Some table => mod_fs (set_index_cache table)
       | None => diverge
       end.

Definition fffs_index_set (slot head : Z) : M unit :=
  if head =? 0 then fffs_index_remove slot else fffs_index_insert slot head.

Definition fffs_index_head_for_slot (slot : Z) : M (Z * bool) :=
  fs <- get_fs ;;
  let '(err, idx, slot_found) :=
    find_slot_bucket (buckets fs) (index_hash_table_size (fs_geo fs)) slot in
  if negb (bool_decide (err = FFFS_OK)) &&
     negb (bool_decide (err = FFFS_ERR_NO_SPACE))
  then fail err
  else if negb slot_found then ret (0, false)
  else ret (b_head (bucket_at (buckets fs) idx), true).

Definition fffs_index_resolve (name : list Z)
    (cache : option fffs_read_cache_view) : M index_resolution :=
  resolve_by_heads fffs_index_head_for_slot name cache.

(** [n] is the number of buckets from [dir->pos] to the end of the table. *)
Fixpoint dir_read_loop (n : nat) (dir : fffs_dir)
  : M (option fffs_stat * fffs_dir) :=
  fs <- get_fs ;;
  if negb (d_pos dir <? index_hash_table_size (fs_geo fs))
  then ret (None, set_d_status FFFS_OK dir)
  else match n with
       | O => diverge
       | S n' =>
           let bucket := bucket_at (buckets fs) (d_pos dir) in
           let dir := set_d_pos (d_pos dir + 1) dir in
           if b_slot bucket =? 0 then dir_read_loop n' dir
           else
             r <- try_ (dir_entry dir (b_slot bucket) (b_head bucket)) ;;
             match r with
             | inl err => ret (None, set_d_status err dir)
             | inr None => dir_read_loop n' dir
             | inr (Some st) => ret (Some st, set_d_status FFFS_OK dir)
             end
       end.

Definition fffs_index_dir_read (dir : fffs_dir)
  : M (option fffs_stat * fffs_dir) :=
  g <- get_geo ;;
  dir_read_loop (Z.to_nat (index_hash_table_size g - d_pos dir)) dir.

Fixpoint iter_read_loop (n : nat) (iter : fffs_index_iter)
  : M (option (Z * Z) * fffs_index_iter) :=
  fs <- get_fs ;;
  let done := mk_iter (it_pos iter) (it_cursor_seq_pos iter)
                (it_cursor_offset iter) FFFS_OK in
  if negb (it_pos iter <? index_hash_table_size (fs_geo fs))
  then ret (None, done)
  else match n with
       | O => diverge
       | S n' =>
           let bucket := bucket_at (buckets fs) (it_pos iter) in
           let next st := mk_iter (it_pos iter + 1) (it_cursor_seq_pos iter)
                            (it_cursor_offset iter) st in
           if b_slot bucket =? 0
           then iter_read_loop n' (next (it_status iter))
           else ret (Some (b_slot bucket, b_head bucket), next FFFS_OK)
       end.

Definition fffs_index_iter_read (iter : fffs_index_iter)
  : M (option (Z * Z) * fffs_index_iter) :=
  g <- get_geo ;;
  iter_read_loop (Z.to_nat (index_hash_table_size g - it_pos iter)) iter.

Definition fffs_index_record_is_current (seq_pos offset slot head : Z)
  : M bool :=
  let* (current_head, found) := fffs_index_head_for_slot slot in
  ret (found && (current_head =? head)).

Definition hash_index_clear (count : Z) (fs : fffs) : fffs :=
  set_index_cache (replicate (Z.to_nat count) bucket_zero) fs.

Definition hash_index : IndexCache :=
  {| index_cache_config_valid := fffs_index_cache_config_valid;
     index_cache_required_size := fffs_index_cache_required_size;
     index_needs_storage := true;
     index_clear := hash_index_clear;
     index_insert := fffs_index_insert;
     index_remove := fffs_index_remove;
     index_set := fffs_index_set;
     index_resolve := fffs_index_resolve;
     index_head_for_slot := fffs_index_head_for_slot;
     index_dir_read := fffs_index_dir_read;
     index_iter_read := fffs_index_iter_read;
     index_record_is_current := fffs_index_record_is_current |}.
End HashIndex.

(** ** The table as a finite map

    Positions are taken modulo [n]; [dist n a b] is the number of steps from
    [a] to [b].  In a well-formed table no slot occurs twice, and every bucket
    between the home of an entry and the entry is occupied. *)

Definition slot_at (table : list fffs_index_bucket) (i : Z) : Z :=
  b_slot (bucket_at table i).

Definition dist (n a b : Z) : Z := if a <=? b then b - a else b - a + n.

Definition next_pos (n p : Z) : Z := if p + 1 =? n then 0 else p + 1.

Definition in_table (n i : Z) : Prop := 0 <= i < n.

Record table_wf (n : Z) (table : list fffs_index_bucket) : Prop := {
  tw_len : zlen table = n;
  tw_uniq : forall i j, in_table n i -> in_table n j ->
    slot_at table i <> 0 -> slot_at table i = slot_at table j -> i = j;
  tw_reach : forall i p, in_table n i -> in_table n p ->
    slot_at table i <> 0 ->
    dist n (slot_at table i mod n) p < dist n (slot_at table i mod n) i ->
    slot_at table p <> 0;
}.

Lemma filter_all {A} (P : A -> Prop) `{!forall x, Decision (P x)} (l : list A) :
  Forall P l -> filter P l = l.
Proof.
  induction 1 as [| x l Hx Hl IH]; [done |].
  rewrite filter_cons. case_decide; [by f_equal | done].
Qed.

(** The map a table stands for. *)
Definition table_entries (table : list fffs_index_bucket) : list (Z * Z) :=
  (fun b => (b_slot b, b_head b)) <$>
    filter (fun b => b_slot b <> 0) table.

Definition table_map (table : list fffs_index_bucket) : gmap Z Z :=
  list_to_map (table_entries table).

(** A bucket is free. *)
Definition table_room (n : Z) (table : list fffs_index_bucket) : Prop :=
  exists i, in_table n i /\ slot_at table i = 0.

Ltac circ :=
  unfold dist, next_pos, in_table in *;
  repeat match goal with
  | |- context [?a <=? ?b] => destruct (Z.leb_spec a b)
  | H : context [?a <=? ?b] |- _ => destruct (Z.leb_spec a b)
  | |- context [?a =? ?b] => destruct (Z.eqb_spec a b)
  | H : context [?a =? ?b] |- _ => destruct (Z.eqb_spec a b)
  end; try lia.

Section Members.
Context (n : Z).

(** ** Updates *)

Lemma bucket_at_put table i j b :
  zlen table = n -> in_table n i -> in_table n j ->
  bucket_at (bucket_put i b table) j = if j =? i then b else bucket_at table j.
Proof.
  unfold bucket_at, bucket_put, zlen, in_table. intros Hl Hi Hj.
  rewrite !nth_lookup. destruct (Z.eqb_spec j i) as [-> | Hne].
  - rewrite list_lookup_insert_eq by lia. done.
  - rewrite list_lookup_insert_ne by lia. done.
Qed.

Lemma slot_at_put table i j b :
  zlen table = n -> in_table n i -> in_table n j ->
  slot_at (bucket_put i b table) j =
  if j =? i then b_slot b else slot_at table j.
Proof.
  intros. unfold slot_at. rewrite bucket_at_put by done. by destruct (j =? i).
Qed.

Lemma zlen_put i b table : zlen (bucket_put i b table) = zlen table.
Proof. unfold zlen, bucket_put. by rewrite length_insert. Qed.

(** ** Membership *)

Lemma table_entries_elem table slot head :
  zlen table = n ->
  (slot, head) ∈ table_entries table <->
  slot <> 0 /\ exists i, in_table n i /\ bucket_at table i = mk_bucket slot head.
Proof.
  intros Hl. unfold table_entries. rewrite list_elem_of_fmap. split.
  - intros ([s h] & Heq & Hin). injection Heq as -> ->.
    rewrite list_elem_of_filter, list_elem_of_lookup in Hin.
    destruct Hin as [Hne [i Hi]]. split; [done |].
    exists (Z.of_nat i). apply lookup_lt_Some in Hi as Hlt.
    unfold in_table, zlen, bucket_at in *. split; [lia |].
    by rewrite Nat2Z.id, nth_lookup, Hi.
  - intros (Hne & i & Hi & Hb). exists (mk_bucket slot head). split; [done |].
    rewrite list_elem_of_filter. split; [done |].
    unfold bucket_at, in_table, zlen in *. rewrite nth_lookup in Hb.
    destruct (lookup_lt_is_Some_2 table (Z.to_nat i)) as [b Hlk]; [lia |].
    rewrite Hlk in Hb. simpl in Hb. subst b. by eapply list_elem_of_lookup_2.
Qed.

Lemma table_entries_nodup table :
  table_wf n table -> NoDup (table_entries table).*1.
Proof.
  intros [Hl Hu _]. unfold table_entries. rewrite <- list_fmap_compose.
  assert (Hlk : forall i j b c, table !! i = Some b -> table !! j = Some c ->
    b_slot b <> 0 -> b_slot b = b_slot c -> i = j).
  { intros i j b c Hi Hj Hne Heq.
    apply lookup_lt_Some in Hi as Hli. apply lookup_lt_Some in Hj as Hlj.
    specialize (Hu (Z.of_nat i) (Z.of_nat j)).
    unfold slot_at, bucket_at, in_table, zlen in *.
    rewrite !Nat2Z.id, !nth_lookup, Hi, Hj in Hu. simpl in Hu. lia. }
  clear Hl Hu. induction table as [|b table IH]; [constructor |].
  assert (Hrec : NoDup (((fun b => (b_slot b, b_head b).1)) <$>
    filter (fun b => b_slot b <> 0) table)).
  { apply IH. intros i j b1 c1 Hi Hj ? ?.
    specialize (Hlk (S i) (S j) b1 c1 Hi Hj). lia. }
  rewrite filter_cons. case_decide as Hne; [| exact Hrec].
  rewrite fmap_cons. apply NoDup_cons_2; [| exact Hrec].
  rewrite list_elem_of_fmap. intros (c & Heq & Hin).
  rewrite list_elem_of_filter, list_elem_of_lookup in Hin.
  destruct Hin as [_ [j Hj]].
  by specialize (Hlk O (S j) b c eq_refl Hj Hne Heq).
Qed.

Lemma table_map_lookup table slot head :
  table_wf n table ->
  table_map table !! slot = Some head <->
  slot <> 0 /\ exists i, in_table n i /\ bucket_at table i = mk_bucket slot head.
Proof.
  intros Hwf. unfold table_map. rewrite <- table_entries_elem by apply Hwf.
  symmetry. by apply elem_of_list_to_map, table_entries_nodup.
Qed.

Lemma table_map_at table i :
  table_wf n table -> in_table n i -> slot_at table i <> 0 ->
  table_map table !! slot_at table i = Some (b_head (bucket_at table i)).
Proof.
  intros Hwf Hi Hne. apply table_map_lookup; [done |]. split; [done |].
  exists i. split; [done |]. unfold slot_at. by destruct (bucket_at table i).
Qed.

Lemma table_map_none table slot :
  table_wf n table -> slot <> 0 ->
  (forall p, in_table n p -> slot_at table p <> slot) ->
  table_map table !! slot = None.
Proof.
  intros Hwf Hs Ha. destruct (table_map table !! slot) as [h|] eqn:Hlk; [| done].
  apply table_map_lookup in Hlk as (_ & i & Hi & Hb); [| done].
  destruct (Ha i Hi). unfold slot_at. by rewrite Hb.
Qed.

(** Two tables that hold the same entries apart from [slot]'s. *)
Lemma table_map_insert table table' slot head :
  table_wf n table -> table_wf n table' -> slot <> 0 ->
  (exists i, in_table n i /\ bucket_at table' i = mk_bucket slot head) ->
  (forall s h, s <> slot -> s <> 0 ->
     (exists i, in_table n i /\ bucket_at table' i = mk_bucket s h) <->
     exists i, in_table n i /\ bucket_at table i = mk_bucket s h) ->
  table_map table' = <[slot := head]> (table_map table).
Proof.
  intros Hwf Hwf' Hs Hnew Hold. apply map_eq. intros s. apply option_eq.
  intros h. rewrite table_map_lookup by done.
  destruct (decide (s = slot)) as [-> | Hne].
  - rewrite lookup_insert_eq. split; [| intros [= <-]; done].
    intros [_ (i & Hi & Hb)]. destruct Hnew as (j & Hj & Hbj).
    assert (i = j) as ->; [| congruence].
    apply (tw_uniq _ _ Hwf'); try done; unfold slot_at; rewrite Hb; [done |].
    by rewrite Hbj.
  - rewrite lookup_insert_ne, table_map_lookup by done.
    split; intros [? He]; (split; [done |]); by apply Hold.
Qed.

Lemma table_map_delete table table' slot :
  table_wf n table -> table_wf n table' ->
  (forall i, in_table n i -> slot <> 0 -> slot_at table' i <> slot) ->
  (forall s h, s <> slot -> s <> 0 ->
     (exists i, in_table n i /\ bucket_at table' i = mk_bucket s h) <->
     exists i, in_table n i /\ bucket_at table i = mk_bucket s h) ->
  table_map table' = delete slot (table_map table).
Proof.
  intros Hwf Hwf' Hgone Hold. apply map_eq. intros s. apply option_eq.
  intros h. rewrite table_map_lookup by done.
  destruct (decide (s = slot)) as [-> | Hne].
  - rewrite lookup_delete_eq. split; [| done].
    intros [Hs (i & Hi & Hb)]. destruct (Hgone i Hi Hs). unfold slot_at.
    by rewrite Hb.
  - rewrite lookup_delete_ne, table_map_lookup by done.
    split; intros [? He]; (split; [done |]); by apply Hold.
Qed.

End Members.

Section Table.
Context (k n : Z) (Hk : 0 <= k <= 14) (Hn : n = 2 ^ k).

Lemma table_size_range : 1 <= n <= 16384.
Proof.
  subst n. pose proof (Z.pow_le_mono_r 2 0 k). pose proof (Z.pow_le_mono_r 2 k 14).
  lia.
Qed.

(** The masks of the code are operations modulo [n]. *)
Lemma land_mask x : Z.land x (usz (n - 1)) = x mod n.
Proof.
  pose proof table_size_range. rewrite usz_small by lia.
  replace (n - 1) with (Z.ones k) by (rewrite Z.ones_equiv; lia).
  rewrite Z.land_ones by lia. by rewrite Hn.
Qed.

Lemma next_mask p :
  in_table n p -> Z.land (usz (p + 1)) (usz (n - 1)) = next_pos n p.
Proof.
  intros Hp. pose proof table_size_range. unfold in_table in Hp.
  rewrite land_mask, usz_small by lia. unfold next_pos.
  destruct (Z.eqb_spec (p + 1) n) as [-> | Hne].
  - apply Z.mod_same. lia.
  - apply Z.mod_small. lia.
Qed.

Lemma probe_distance_dist a b :
  in_table n a -> in_table n b -> probe_distance (usz (n - 1)) a b = dist n a b.
Proof.
  intros Ha Hb. pose proof table_size_range. unfold in_table in *.
  unfold probe_distance. rewrite land_mask. unfold dist, usz.
  assert (Hm : (b - a) mod 2 ^ 64 mod n = (b - a) mod n).
  { rewrite Hn. replace (2 ^ 64) with (2 ^ k * 2 ^ (64 - k))
      by (rewrite <- Z.pow_add_r by lia; f_equal; lia).
    pose proof (Z.pow_pos_nonneg 2 k). pose proof (Z.pow_pos_nonneg 2 (64 - k)).
    rewrite Z.rem_mul_r, Z.mul_comm, Z_mod_plus_full, Z.mod_mod by lia. done. }
  rewrite Hm. destruct (Z.leb_spec a b); [by apply Z.mod_small; lia |].
  symmetry. apply Z.mod_unique_pos with (q := -1); lia.
Qed.

Lemma home_in slot : in_table n (slot mod n).
Proof. pose proof table_size_range. apply Z.mod_pos_bound. lia. Qed.

Lemma next_in p : in_table n p -> in_table n (next_pos n p).
Proof. pose proof table_size_range. intros. circ. Qed.

(** ** The probe *)

(** What [find_slot_bucket] returns. *)
Definition find_result (table : list fffs_index_bucket) (slot : Z)
    (r : fffs_status * Z * bool) : Prop :=
  match r with
  | (FFFS_OK, i, true) => in_table n i /\ slot_at table i = slot
  | (FFFS_OK, i, false) =>
      in_table n i /\ slot_at table i = 0 /\
      (forall p, in_table n p ->
         dist n (slot mod n) p < dist n (slot mod n) i -> slot_at table p <> 0) /\
      forall p, in_table n p -> slot_at table p <> slot
  | (FFFS_ERR_NO_SPACE, _, false) =>
      forall p, in_table n p -> slot_at table p <> 0 /\ slot_at table p <> slot
  | _ => False
  end.

Lemma find_slot_loop_spec table slot c pos :
  table_wf n table -> slot <> 0 -> in_table n pos -> Z.of_nat c <= n ->
  (0 < Z.of_nat c -> dist n (slot mod n) pos = n - Z.of_nat c) ->
  (forall p, in_table n p -> dist n (slot mod n) p < n - Z.of_nat c ->
     slot_at table p <> 0 /\ slot_at table p <> slot) ->
  find_result table slot (find_slot_loop c table (usz (n - 1)) slot pos).
Proof.
  intros Hwf Hs. pose proof (home_in slot) as Hh. revert pos.
  induction c as [|c IH]; intros pos Hp Hc Hd Hseen.
  - simpl. intros p Hpin. apply Hseen; [done | circ].
  - cbn [find_slot_loop]. fold (slot_at table pos).
    specialize (Hd ltac:(lia)).
    destruct (Z.eqb_spec (slot_at table pos) 0) as [H0 | H0].
    { split; [done |]. split; [done |].
      split; [intros p ? ?; apply Hseen; [done | lia] |].
      intros p Hpin Heq.
      destruct (Z.lt_ge_cases (dist n (slot mod n) pos) (dist n (slot mod n) p)).
      - apply (tw_reach _ _ Hwf p pos); rewrite ?Heq; done.
      - destruct (decide (p = pos)) as [-> | Hne]; [congruence |].
        apply (Hseen p); [done | circ | done]. }
    destruct (Z.eqb_spec (slot_at table pos) slot) as [H1 | H1]; [by split |].
    rewrite next_mask by done. apply IH; [by apply next_in | lia | circ |].
    intros p Hpin Hlt. destruct (decide (p = pos)) as [-> | Hne]; [done |].
    apply Hseen; [done | circ].
Qed.

Lemma find_slot_bucket_spec table slot :
  table_wf n table -> slot <> 0 ->
  find_result table slot (find_slot_bucket table n slot).
Proof.
  intros Hwf Hs. unfold find_slot_bucket, bucket_for.
  destruct (Z.eqb_spec slot 0); [done |].
  pose proof table_size_range. pose proof (home_in slot). rewrite land_mask.
  apply find_slot_loop_spec; [done | done | done | lia | circ |].
  intros p Hp Hd. circ.
Qed.

(** ** Insertion *)

Lemma insert_wf table slot head i found :
  table_wf n table -> slot <> 0 ->
  find_result table slot (FFFS_OK, i, found) ->
  table_wf n (bucket_put i (mk_bucket slot head) table).
Proof.
  intros Hwf Hs Hf.
  assert (Hi : in_table n i) by (destruct found; apply Hf).
  assert (Hp : forall j, in_table n j ->
    slot_at (bucket_put i (mk_bucket slot head) table) j =
    if j =? i then slot else slot_at table j).
  { intros j Hj. rewrite (slot_at_put n) by (done || apply Hwf). done. }
  assert (Habs : forall p, in_table n p -> p <> i -> slot_at table p <> slot).
  { destruct found; [| intros p Hpin _; by apply Hf].
    destruct Hf as [_ Hf]. intros p Hpin Hne Heq. apply Hne.
    apply (tw_uniq _ _ Hwf); congruence. }
  split.
  - rewrite zlen_put. apply Hwf.
  - intros a b Ha Hb. rewrite !Hp by done.
    destruct (Z.eqb_spec a i) as [-> |], (Z.eqb_spec b i) as [-> |]; try done.
    + intros _ Heq. by destruct (Habs b).
    + intros _ Heq. by destruct (Habs a).
    + by apply Hwf.
  - intros a p Ha Hpin. rewrite !Hp by done.
    destruct (Z.eqb_spec p i) as [| Hpi]; [done |].
    destruct (Z.eqb_spec a i) as [-> |]; [| by apply Hwf].
    intros _ Hd. destruct found.
    + destruct Hf as [_ Hf]. rewrite <- Hf in Hd.
      apply (tw_reach _ _ Hwf i p); congruence.
    + by apply Hf.
Qed.

Lemma insert_map table slot head i found :
  table_wf n table -> slot <> 0 ->
  find_result table slot (FFFS_OK, i, found) ->
  table_map (bucket_put i (mk_bucket slot head) table) =
  <[slot := head]> (table_map table).
Proof.
  intros Hwf Hs Hf. pose proof (insert_wf _ _ head _ _ Hwf Hs Hf) as Hwf'.
  assert (Hi : in_table n i) by (destruct found; apply Hf).
  assert (Hold : slot_at table i = slot \/ slot_at table i = 0).
  { destruct found; [left | right]; apply Hf. }
  apply (table_map_insert n); [done | done | done | |].
  - exists i. split; [done |]. rewrite (bucket_at_put n) by (done || apply Hwf).
    by rewrite Z.eqb_refl.
  - intros s h Hne Hs0. split; intros (j & Hj & Hb); exists j;
      (split; [done |]).
    + rewrite (bucket_at_put n) in Hb by (done || apply Hwf).
      by destruct (Z.eqb_spec j i); [congruence |].
    + rewrite (bucket_at_put n) by (done || apply Hwf).
      destruct (Z.eqb_spec j i) as [-> |]; [| done].
      unfold slot_at in Hold. rewrite Hb in Hold. simpl in Hold. lia.
Qed.

(** ** Backward-shift deletion *)

(** The state of the loop: the bucket at [hole] counts as empty; every entry
    is reachable but for the hole; the buckets passed since the hole are
    occupied by entries whose probe does not cross the hole. *)
Record shifting (table : list fffs_index_bucket) (hole idx : Z) : Prop := {
  sh_len : zlen table = n;
  sh_hole : in_table n hole;
  sh_idx : in_table n idx;
  sh_ne : hole <> idx;
  sh_uniq : forall i j, in_table n i -> in_table n j -> i <> hole ->
    j <> hole -> slot_at table i <> 0 -> slot_at table i = slot_at table j ->
    i = j;
  sh_reach : forall i p, in_table n i -> in_table n p -> i <> hole ->
    p <> hole -> slot_at table i <> 0 ->
    dist n (slot_at table i mod n) p < dist n (slot_at table i mod n) i ->
    slot_at table p <> 0;
  sh_passed : forall i, in_table n i -> i <> hole ->
    slot_at table i <> 0 -> dist n hole i < dist n hole idx ->
    dist n (slot_at table i mod n) i <= dist n (slot_at table i mod n) hole;
  sh_between : forall p, in_table n p -> p <> hole ->
    dist n hole p < dist n hole idx -> slot_at table p <> 0;
}.

(** The loop stops at an empty bucket: the hole can be closed there. *)
Lemma shifting_stop table hole idx :
  shifting table hole idx -> slot_at table idx = 0 ->
  table_wf n (bucket_put hole bucket_zero table).
Proof.
  intros Hsh H0. destruct Hsh as [Hl Hh Hi Hne Hu Hr Hpa Hbt].
  assert (Hp : forall j, in_table n j ->
    slot_at (bucket_put hole bucket_zero table) j =
    if j =? hole then 0 else slot_at table j)
    by (intros j Hj; by rewrite (slot_at_put n)).
  split.
  - by rewrite zlen_put.
  - intros a b Ha Hb. rewrite !Hp by done.
    destruct (Z.eqb_spec a hole), (Z.eqb_spec b hole); intros Ho Heq;
      [done | done | congruence | by apply Hu].
  - intros a p Ha Hpin. rewrite !Hp by done.
    destruct (Z.eqb_spec a hole); [done |]. intros Hocc Hd.
    pose proof (home_in (slot_at table a)) as Hha.
    destruct (Z.eqb_spec p hole) as [-> | Hph]; [| by apply (Hr a p)].
    exfalso. destruct (Z.lt_ge_cases (dist n hole a) (dist n hole idx)) as [Hlt | Hge].
    + specialize (Hpa a Ha ltac:(done) Hocc Hlt). lia.
    + destruct (decide (a = idx)) as [-> | Hai]; [done |].
      apply (Hr a idx Ha Hi ltac:(done) ltac:(done) Hocc); [circ | done].
Qed.

(** An entry whose probe crosses the hole moves into it. *)
Lemma shifting_move table hole idx :
  shifting table hole idx -> slot_at table idx <> 0 ->
  dist n (slot_at table idx mod n) hole < dist n (slot_at table idx mod n) idx ->
  next_pos n idx <> idx ->
  shifting (bucket_put hole (bucket_at table idx) table) idx (next_pos n idx).
Proof.
  intros [Hl Hh Hi Hne Hu Hr Hpa Hbt] Hocc Hd Hnx.
  pose proof (home_in (slot_at table idx)) as Hhi.
  assert (Hp : forall j, in_table n j ->
    slot_at (bucket_put hole (bucket_at table idx) table) j =
    if j =? hole then slot_at table idx else slot_at table j)
    by (intros j Hj; by rewrite (slot_at_put n)).
  assert (Hone : forall p, in_table n p -> p <> idx ->
    ~ dist n idx p < dist n idx (next_pos n idx))
    by (intros p Hpin Hpi; clear -Hpin Hpi Hi Hnx; circ).
  split.
  - by rewrite zlen_put.
  - done.
  - by apply next_in.
  - done.
  - intros a b Ha Hb Hai Hbi. rewrite !Hp by done.
    destruct (Z.eqb_spec a hole), (Z.eqb_spec b hole); intros Ho Heq;
      [congruence | | | by apply Hu].
    + destruct Hbi. symmetry. by apply Hu.
    + destruct Hai. by apply Hu.
  - intros a p Ha Hpin Hai Hpi. rewrite !Hp by done.
    destruct (Z.eqb_spec p hole) as [| Hph]; [done |].
    destruct (Z.eqb_spec a hole) as [-> | Hah]; intros Ho Hda.
    + by apply (Hr idx p); try done; lia.
    + by apply (Hr a p).
  - intros a Ha Hai _ Hda. by destruct (Hone a).
  - intros p Hpin Hpi Hdp. by destruct (Hone p).
Qed.

(** Any other entry stays. *)
Lemma shifting_skip table hole idx :
  shifting table hole idx -> slot_at table idx <> 0 ->
  ~ dist n (slot_at table idx mod n) hole < dist n (slot_at table idx mod n) idx ->
  next_pos n idx <> hole ->
  shifting table hole (next_pos n idx).
Proof.
  intros [Hl Hh Hi Hne Hu Hr Hpa Hbt] Hocc Hd Hnx.
  assert (Hlast : forall p, in_table n p -> p <> idx ->
    dist n hole p < dist n hole (next_pos n idx) ->
    dist n hole p < dist n hole idx)
    by (intros p Hpin Hpi; clear -Hpin Hpi Hi Hnx Hh Hne; circ).
  split; try done.
  - by apply next_in.
  - intros a Ha Hah Ho Hda. destruct (decide (a = idx)) as [-> |]; [lia |].
    by apply Hpa, Hlast.
  - intros p Hpin Hph Hdp. destruct (decide (p = idx)) as [-> |]; [done |].
    by apply Hbt, Hlast.
Qed.

(** The entries outside the hole. *)
Definition entry_off (table : list fffs_index_bucket) (hole s h : Z) : Prop :=
  exists i, in_table n i /\ i <> hole /\ bucket_at table i = mk_bucket s h.

Lemma entry_off_move table hole idx s h :
  zlen table = n -> in_table n hole -> in_table n idx -> hole <> idx ->
  entry_off (bucket_put hole (bucket_at table idx) table) idx s h <->
  entry_off table hole s h.
Proof.
  intros Hl Hh Hi Hne. split; intros (j & Hj & Hji & Hb).
  - rewrite (bucket_at_put n) in Hb by done.
    destruct (Z.eqb_spec j hole); [by exists idx | by exists j].
  - destruct (decide (j = idx)) as [-> | Hjx].
    + exists hole. split; [done |]. split; [done |].
      by rewrite (bucket_at_put n), Z.eqb_refl.
    + exists j. split; [done |]. split; [done |]. rewrite (bucket_at_put n) by done.
      by destruct (Z.eqb_spec j hole).
Qed.

Lemma entry_off_close table hole s h :
  zlen table = n -> in_table n hole -> s <> 0 ->
  entry_off (bucket_put hole bucket_zero table) (-1) s h <->
  entry_off table hole s h.
Proof.
  intros Hl Hh Hs. split; intros (j & Hj & Hji & Hb); exists j.
  - rewrite (bucket_at_put n) in Hb by done.
    destruct (Z.eqb_spec j hole); [by injection Hb as <- | done].
  - rewrite (bucket_at_put n) by done.
    destruct (Z.eqb_spec j hole); [done |].
    split; [done |]. split; [unfold in_table in *; lia | done].
Qed.

(** The loop reaches the empty bucket [e], closes the hole there and keeps the
    entries. *)
Lemma remove_loop_spec c table hole idx e :
  shifting table hole idx -> in_table n e -> e <> hole ->
  slot_at table e = 0 -> dist n hole idx <= dist n hole e ->
  dist n idx e <= Z.of_nat c ->
  exists table', remove_loop c n table hole idx = Some table' /\
    table_wf n table' /\
    forall s h, s <> 0 -> entry_off table' (-1) s h <-> entry_off table hole s h.
Proof.
  revert table hole idx. induction c as [|c IH];
    intros table hole idx Hsh He Heh He0 Hord Hc;
    pose proof (sh_len _ _ _ Hsh); pose proof (sh_hole _ _ _ Hsh) as Hh;
    pose proof (sh_idx _ _ _ Hsh) as Hi; pose proof (sh_ne _ _ _ Hsh) as Hne;
    cbn [remove_loop]; fold (slot_at table idx);
    (destruct (Z.eqb_spec (slot_at table idx) 0) as [Hz | Hocc];
     [eexists; split; [done |]; split; [by eapply shifting_stop |] |]).
  1, 3: intros s h Hs; by apply entry_off_close.
  - assert (idx = e) as -> by circ. done.
  - assert (Hie : idx <> e) by congruence.
    pose proof (home_in (slot_at table idx)) as Hhome.
    unfold bucket_for. rewrite land_mask, !probe_distance_dist, next_mask by done.
    fold (slot_at table idx).
    destruct (Z.ltb_spec (dist n (slot_at table idx mod n) hole)
      (dist n (slot_at table idx mod n) idx)) as [Hlt | Hge].
    + assert (next_pos n idx <> idx) by circ.
      edestruct IH as (table' & Hr & Hwf & Hent).
      * by apply shifting_move.
      * exact He.
      * congruence.
      * by rewrite (slot_at_put n), (proj2 (Z.eqb_neq _ _) Heh).
      * circ.
      * circ.
      * exists table'. split; [done |]. split; [done |].
        intros s h Hs. by rewrite Hent, entry_off_move.
    + edestruct IH as (table' & Hr & Hwf & Hent); [| exact He | done | done | | |].
      * apply shifting_skip; [done | done | lia | circ].
      * circ.
      * circ.
      * by exists table'.
Qed.

(** A full table has no empty bucket to stop at. *)
Lemma remove_loop_full c table hole idx :
  zlen table = n -> in_table n hole -> in_table n idx ->
  (forall i, in_table n i -> slot_at table i <> 0) ->
  remove_loop c n table hole idx = None.
Proof.
  revert table hole idx.
  induction c as [|c IH]; intros table hole idx Hl Hh Hi Hfull;
    cbn [remove_loop]; fold (slot_at table idx);
    (destruct (Z.eqb_spec (slot_at table idx) 0) as [H0 | _];
     [by destruct (Hfull idx Hi) |]); [done |].
  rewrite next_mask by done. pose proof (next_in idx Hi).
  destruct (_ <? _); apply IH; rewrite ?zlen_put; try done.
  intros i Hin. rewrite (slot_at_put n) by done.
  destruct (i =? hole); [by apply (Hfull idx) | by apply Hfull].
Qed.

Lemma remove_bucket_spec c table slot i :
  table_wf n table -> slot <> 0 -> table_room n table ->
  find_result table slot (FFFS_OK, i, true) -> n <= Z.of_nat c ->
  exists table', remove_bucket_at c n table i = Some table' /\
    table_wf n table' /\ table_map table' = delete slot (table_map table).
Proof.
  intros Hwf Hs (e & He & He0) [Hi Hslot] Hc. destruct Hwf as [Hl Hu Hr].
  assert (Hie : i <> e) by congruence.
  unfold remove_bucket_at. rewrite next_mask by done.
  assert (Hnx : next_pos n i <> i) by (clear -Hie Hi He; circ).
  destruct (remove_loop_spec c table i (next_pos n i) e)
    as (table' & Hrun & Hwf' & Hent); try done;
    [| clear -Hie Hi He; circ | pose proof (next_in i Hi); clear -Hie Hi He Hc; circ |].
  - split; try done; try (by apply next_in).
    + intros a b Ha Hb _ _. by apply Hu.
    + intros a p Ha Hp _ _. by apply Hr.
    + intros a Ha Hai _ Hd. exfalso. clear -Ha Hai Hd Hi Hnx. circ.
    + intros p Hp Hpi Hd. exfalso. clear -Hp Hpi Hd Hi Hnx. circ.
  - exists table'. split; [done |]. split; [done |].
    apply (table_map_delete n); [by split | done | |].
    + intros j Hj _ Hsj.
      destruct (proj1 (Hent slot (b_head (bucket_at table' j)) Hs))
        as (j' & Hj' & Hne & Hb).
      { exists j. split; [done |]. split; [unfold in_table in *; lia |].
        unfold slot_at in Hsj. destruct (bucket_at table' j). simpl in *.
        by subst. }
      apply Hne, Hu; unfold slot_at in *; rewrite ?Hb; simpl; done || lia.
    + intros s h Hne Hs0. specialize (Hent s h Hs0). split.
      * intros (j & Hj & Hb). destruct (proj1 Hent) as (j' & ? & ? & ?).
        { exists j. unfold in_table in *. repeat split; done || lia. }
        by exists j'.
      * intros (j & Hj & Hb). destruct (proj2 Hent) as (j' & ? & ? & ?).
        { exists j. repeat split; [apply Hj.. | | done]. intros ->.
          unfold slot_at in Hslot. rewrite Hb in Hslot. simpl in Hslot. lia. }
        by exists j'.
Qed.
End Table.

(** ** The operations on the finite map *)

(** The table of a mounted file system. *)
Definition hash_ok (fs : fffs) : Prop :=
  let n := index_hash_table_size (fs_geo fs) in
  (exists k, 0 <= k <= 14 /\ n = 2 ^ k) /\ table_wf n (index_cache fs).

Definition hash_map (fs : fffs) : gmap Z Z := table_map (index_cache fs).

Definition hash_room (fs : fffs) : Prop :=
  table_room (index_hash_table_size (fs_geo fs)) (index_cache fs).

(** Every bucket is in use. *)
Definition hash_full (fs : fffs) : Prop :=
  forall i, in_table (index_hash_table_size (fs_geo fs)) i ->
    slot_at (index_cache fs) i <> 0.

(** Either a bucket is free or the table is full. *)
Lemma hash_room_dec fs : hash_ok fs -> hash_room fs \/ hash_full fs.
Proof.
  intros [_ Hwf]. unfold hash_room, hash_full, table_room, in_table, slot_at, bucket_at.
  pose proof (tw_len _ _ Hwf) as Hl. unfold zlen in Hl.
  destruct (decide (Exists (fun b => b_slot b = 0) (index_cache fs))) as [He | He].
  - left. apply Exists_exists in He as (b & Hin & Hb).
    apply list_elem_of_lookup in Hin as [i Hi]. exists (Z.of_nat i).
    apply lookup_lt_Some in Hi as Hlt. split; [lia |].
    by rewrite Nat2Z.id, nth_lookup, Hi.
  - right. intros i Hi H0. apply He, Exists_exists.
    destruct (lookup_lt_is_Some_2 (index_cache fs) (Z.to_nat i)) as [b Hb]; [lia |].
    rewrite nth_lookup, Hb in H0. exists b.
    split; [by eapply list_elem_of_lookup_2 | done].
Qed.

(** A table with less entries than buckets has a free one. *)
Lemma hash_size_room fs :
  hash_ok fs ->
  (size (hash_map fs) < Z.to_nat (index_hash_table_size (fs_geo fs)))%nat ->
  hash_room fs.
Proof.
  intros Hok Hsz. destruct (hash_room_dec fs Hok) as [| Hfull]; [done | exfalso].
  destruct Hok as [_ Hwf]. pose proof (tw_len _ _ Hwf) as Hl.
  unfold hash_map, table_map in Hsz.
  rewrite map_size_list_to_map in Hsz by by eapply table_entries_nodup.
  unfold table_entries in Hsz. rewrite length_fmap in Hsz.
  rewrite filter_all in Hsz; [unfold zlen in Hl; lia |].
  apply Forall_lookup. intros i b Hi. apply lookup_lt_Some in Hi as Hlt.
  specialize (Hfull (Z.of_nat i)). unfold in_table, slot_at, bucket_at, zlen in *.
  rewrite Nat2Z.id, nth_lookup, Hi in Hfull. apply Hfull. lia.
Qed.

Section HashRun.
Context `{Backend}.

Lemma hash_head_run slot w :
  hash_ok (w_fs w) -> slot <> 0 ->
  fffs_index_head_for_slot slot w =
    (Ok (head_answer (hash_map (w_fs w) !! slot)), w).
Proof.
  intros [(k & Hk & Hn) Hwf] Hs.
  unfold fffs_index_head_for_slot, bind, get_fs, buckets, hash_map.
  pose proof (find_slot_bucket_spec k _ Hk Hn _ _ Hwf Hs) as Hf.
  destruct (find_slot_bucket _ _ _) as [[st i] found].
  destruct st, found; try done; simpl.
  - destruct Hf as [Hi Heq].
    rewrite <- Heq at 1. rewrite (table_map_at _ _ _ Hwf Hi) by congruence. done.
  - rewrite (table_map_none _ _ _ Hwf Hs) by apply Hf. done.
  - rewrite (table_map_none _ _ _ Hwf Hs) by (intros p Hp; by apply Hf). done.
Qed.

(** Insertion replaces the entry of the slot or takes a free bucket. *)
Lemma hash_insert_run slot head w :
  hash_ok (w_fs w) -> slot <> 0 ->
  hash_room (w_fs w) \/ is_Some (hash_map (w_fs w) !! slot) ->
  exists w', fffs_index_insert slot head w = (Ok tt, w') /\ index_step w w' /\
    hash_ok (w_fs w') /\
    hash_map (w_fs w') = <[slot := head]> (hash_map (w_fs w)).
Proof.
  intros [(k & Hk & Hn) Hwf] Hs Hroom.
  unfold fffs_index_insert, bind, get_fs, buckets.
  pose proof (find_slot_bucket_spec k _ Hk Hn _ _ Hwf Hs) as Hf.
  destruct (find_slot_bucket _ _ _) as [[st i] found].
  destruct st; try done.
  - eexists. split; [done |]. split; [done |]. simpl. split.
    + split; [by exists k |]. by eapply insert_wf.
    + by eapply insert_map.
  - exfalso. destruct found; [done |]. destruct Hroom as [(e & He & He0) | [h Hh]].
    + by destruct (Hf e He).
    + apply (table_map_lookup (index_hash_table_size (fs_geo (w_fs w))))
        in Hh as (_ & i' & Hi & Hb); [| done].
      destruct (Hf i' Hi) as [_ Hne]. apply Hne. unfold slot_at. by rewrite Hb.
Qed.

(** A new slot does not enter a full table. *)
Lemma hash_insert_full slot head w :
  hash_ok (w_fs w) -> slot <> 0 -> hash_full (w_fs w) ->
  hash_map (w_fs w) !! slot = None ->
  fffs_index_insert slot head w = (Err FFFS_ERR_NO_SPACE, w).
Proof.
  intros [(k & Hk & Hn) Hwf] Hs Hfull Hnone.
  unfold fffs_index_insert, bind, get_fs, buckets.
  pose proof (find_slot_bucket_spec k _ Hk Hn _ _ Hwf Hs) as Hf.
  destruct (find_slot_bucket _ _ _) as [[st i] found].
  destruct st, found; try done; exfalso.
  - destruct Hf as [Hi Heq]. unfold hash_map in Hnone.
    rewrite <- Heq in Hnone. by rewrite (table_map_at _ _ _ Hwf Hi) in Hnone by congruence.
  - destruct Hf as (Hi & H0 & _). by apply (Hfull i).
Qed.

Lemma hash_remove_run slot w :
  hash_ok (w_fs w) -> slot <> 0 -> hash_room (w_fs w) ->
  exists w', fffs_index_remove slot w = (Ok tt, w') /\ index_step w w' /\
    hash_ok (w_fs w') /\
    hash_map (w_fs w') = delete slot (hash_map (w_fs w)).
Proof.
  intros [(k & Hk & Hn) Hwf] Hs Hroom.
  unfold fffs_index_remove, bind, get_fs, buckets.
  pose proof (find_slot_bucket_spec k _ Hk Hn _ _ Hwf Hs) as Hf.
  pose proof (table_size_range k _ Hk Hn).
  destruct (find_slot_bucket _ _ _) as [[st i] found].
  destruct st, found; try done; simpl.
  - destruct (remove_bucket_spec k _ Hk Hn
      (Z.to_nat (index_hash_table_size (fs_geo (w_fs w)))) _ _ _ Hwf Hs Hroom Hf)
      as (table & -> & Hwf' & Hmap); [lia |].
    eexists. split; [done |]. split; [done |]. simpl.
    split; [split; [by exists k | done] | done].
  - exists w. split; [done |]. split; [done |].
    split; [split; [by exists k | done] |].
    unfold hash_map. rewrite delete_id; [done |].
    apply (table_map_none _ _ _ Hwf Hs), Hf.
  - destruct Hroom as (e & He & He0). by destruct (Hf e He).
Qed.

Lemma power_of_two n :
  0 < n -> is_power_of_two n = true -> n <= 16384 ->
  exists k, 0 <= k <= 14 /\ n = 2 ^ k.
Proof.
  intros Hpos Hp Hle. unfold is_power_of_two in Hp.
  apply andb_true_iff in Hp as [_ Hp]. apply Z.eqb_eq in Hp.
  pose proof (Z.log2_spec n Hpos) as [Hlo Hhi]. pose proof (Z.log2_nonneg n).
  exists (Z.log2 n). split.
  { pose proof (Z.log2_le_mono n (2 ^ 14) Hle) as Hm.
    rewrite Z.log2_pow2 in Hm by lia. lia. }
  destruct (Z.eq_dec n (2 ^ Z.log2 n)) as [| Hne]; [done | exfalso].
  assert (Hb : Z.testbit (Z.land n (n - 1)) (Z.log2 n) = true).
  { rewrite Z.land_spec, Z.bit_log2 by done. simpl.
    replace (Z.log2 n) with (Z.log2 (n - 1)) at 1; [apply Z.bit_log2; lia |].
    apply Z.log2_unique; [done | lia]. }
  by rewrite Hp, Z.bits_0 in Hb.
Qed.

Lemma empty_table_wf n :
  0 <= n -> table_wf n (replicate (Z.to_nat n) bucket_zero).
Proof.
  intros Hn.
  assert (Hz : forall i, in_table n i ->
    slot_at (replicate (Z.to_nat n) bucket_zero) i = 0).
  { intros i Hi. unfold slot_at, bucket_at, in_table in *.
    by rewrite nth_lookup, lookup_replicate_2 by lia. }
  split.
  - unfold zlen. rewrite length_replicate. lia.
  - intros i j Hi _ Hne. by rewrite Hz in Hne.
  - intros i j Hi _ Hne. by rewrite Hz in Hne.
Qed.

Lemma empty_table_map n : table_map (replicate n bucket_zero) = ∅.
Proof.
  unfold table_map, table_entries. induction n as [|n IH]; [done |]. apply IH.
Qed.
End HashRun.

#[export] Program Instance hash_cached `{Backend} : CachedIndex hash_index := {|
  idx_ok := hash_ok;
  idx_map := hash_map;
  idx_capacity := fun g => Z.to_nat (index_hash_table_size g);
|}.
Next Obligation.
  simpl. unfold hash_ok, hash_map. intros ? fs fs' Hok -> -> _. done.
Qed.
Next Obligation. simpl. intros. apply hash_head_run; [done | lia]. Qed.
Next Obligation.
  simpl. intros ? slot head w Hok Hs Hh Hr. unfold fffs_index_set.
  rewrite (proj2 (Z.eqb_neq head 0)) by lia. apply hash_insert_run; [done | lia |].
  destruct Hr as [Hr | Hr]; [left | by right]. by apply hash_size_room.
Qed.
Next Obligation.
  simpl. intros ? slot w Hok Hs Hr. unfold fffs_index_set. simpl.
  apply hash_remove_run; [done | lia | by apply hash_size_room].
Qed.
Next Obligation.
  simpl. intros ? slot head Hh. unfold fffs_index_set.
  by rewrite (proj2 (Z.eqb_neq _ _) Hh).
Qed.
Next Obligation. done. Qed.
Next Obligation. done. Qed.
Next Obligation.
  simpl. intros ? fs Hv Hpos. unfold fffs_index_cache_config_valid in Hv.
  rewrite andb_true_iff, Z.leb_le in Hv. destruct Hv as [Hp Hle].
  split; [| split; [apply empty_table_map | done]].
  split; [by apply power_of_two | by apply empty_table_wf, Z.lt_le_incl].
Qed.
Next Obligation. done. Qed.
Next Obligation.
  simpl. intros ? pos off slot head w Hok Hs. unfold fffs_index_record_is_current.
  unfold bind. rewrite hash_head_run by (done || lia).
  destruct (hash_map (w_fs w) !! slot) as [h |] eqn:Hh; cbn [head_answer andb];
    [| done]. unfold ret. do 2 f_equal. symmetry.
  destruct (Z.eqb_spec h head) as [-> | Hne]; [by apply bool_decide_true |].
  apply bool_decide_false. congruence.
Qed.

(** ** Properties *)

Lemma demo_hash_ok : hash_ok Demo.fs.
Proof.
  split; [by exists 4 |]. apply (empty_table_wf 16). lia.
Qed.

Lemma demo_hash_room : hash_room Demo.fs.
Proof. exists 0. split; [split; simpl; lia | reflexivity]. Qed.

(** Hash-table lookup.  On every well-formed table, full or not,
    [fffs_index_head_for_slot] terminates, changes nothing and returns the
    entry of the slot in the finite map the table stands for, or "not found"
    when there is none. *)
Theorem hash_head_refines `{Backend} (slot : Z) (w : world) :
  hash_ok (w_fs w) -> slot <> 0 ->
  fffs_index_head_for_slot slot w =
    (Ok (head_answer (hash_map (w_fs w) !! slot)), w).
Proof. apply hash_head_run. Qed.

Lemma hash_head_refines_witness :
  @fffs_index_head_for_slot Demo.backend 9 Demo.blank =
    (Ok (0, false), Demo.blank).
Proof.
  exact (@hash_head_refines Demo.backend 9 Demo.blank demo_hash_ok
    ltac:(discriminate)).
Defined.

(** C19: hash-table insertion.  [fffs_index_insert] keeps the table well-formed
    and inserts the entry in the map the table stands for (replacing the
    slot's entry, if any) whenever a bucket is free or the slot has an entry;
    otherwise it returns [FFFS_ERR_NO_SPACE] and changes nothing.  Nothing but
    the table ever changes. *)
Theorem hash_insert_refines `{Backend} (slot head : Z) (w : world) :
  hash_ok (w_fs w) -> slot <> 0 ->
  (exists w', fffs_index_insert slot head w = (Ok tt, w') /\ index_step w w' /\
     hash_ok (w_fs w') /\
     hash_map (w_fs w') = <[slot := head]> (hash_map (w_fs w))) \/
  (hash_full (w_fs w) /\ hash_map (w_fs w) !! slot = None /\
   fffs_index_insert slot head w = (Err FFFS_ERR_NO_SPACE, w)).
Proof.
  intros Hok Hs. destruct (hash_map (w_fs w) !! slot) as [h |] eqn:Hlk;
    [left; apply hash_insert_run; eauto |].
  destruct (hash_room_dec _ Hok) as [Hr | Hf];
    [left; apply hash_insert_run; eauto | right].
  split; [done |]. split; [done |]. by apply hash_insert_full.
Qed.

Lemma hash_insert_refines_witness :
  exists w', @fffs_index_insert Demo.backend 9 3 Demo.blank = (Ok tt, w') /\
    hash_map (w_fs w') = {[9 := 3]}.
Proof.
  destruct (@hash_insert_refines Demo.backend 9 3 Demo.blank demo_hash_ok
    ltac:(discriminate)) as [(w' & Hr & _ & _ & Hm) | (Hf & _)].
  - exists w'. split; [exact Hr | exact Hm].
  - destruct (Hf 0); [split; simpl; lia | reflexivity].
Defined.

(** C18: hash-table deletion.  When a bucket is free, [fffs_index_remove]
    terminates, keeps the table well-formed and deletes exactly the slot's
    entry from the map the table stands for: the backward shift loses no other
    entry and leaves none unreachable. *)
Theorem hash_remove_refines `{Backend} (slot : Z) (w : world) :
  hash_ok (w_fs w) -> slot <> 0 -> hash_room (w_fs w) ->
  exists w', fffs_index_remove slot w = (Ok tt, w') /\ index_step w w' /\
    hash_ok (w_fs w') /\
    hash_map (w_fs w') = delete slot (hash_map (w_fs w)).
Proof. apply hash_remove_run. Qed.

Lemma hash_remove_refines_witness :
  exists w', @fffs_index_remove Demo.backend 9 Demo.blank = (Ok tt, w') /\
    hash_map (w_fs w') = ∅.
Proof.
  destruct (@hash_remove_refines Demo.backend 9 Demo.blank demo_hash_ok
    ltac:(discriminate) demo_hash_room) as (w' & Hr & _ & _ & Hm).
  exists w'. split; [exact Hr | exact Hm].
Defined.

(** Deletion from a full table.  When every bucket is in use and the slot
    has an entry, the shift loop of [remove_bucket_at] finds no empty bucket to
    stop at: no number of rounds ends it, so [fffs_index_remove] does not
    terminate. *)
Theorem hash_remove_full_diverges `{Backend} (slot head : Z) (w : world) :
  hash_ok (w_fs w) -> hash_full (w_fs w) ->
  hash_map (w_fs w) !! slot = Some head ->
  let n := index_hash_table_size (fs_geo (w_fs w)) in
  exists i, find_slot_bucket (index_cache (w_fs w)) n slot = (FFFS_OK, i, true) /\
    (forall rounds, remove_bucket_at rounds n (index_cache (w_fs w)) i = None) /\
    fffs_index_remove slot w = (NoFuel, w).
Proof.
  intros [(k & Hk & Hn) Hwf] Hfull Hlk.
  apply (table_map_lookup (index_hash_table_size (fs_geo (w_fs w))))
    in Hlk as (Hs & i' & Hi' & Hb); [| done].
  intros n.
  pose proof (find_slot_bucket_spec k n Hk Hn _ _ Hwf Hs) as Hf.
  unfold fffs_index_remove, bind, get_fs, buckets. fold n.
  destruct (find_slot_bucket _ n slot) as [[st i] found].
  destruct st, found; try done.
  - assert (Hnone : forall rounds,
      remove_bucket_at rounds n (index_cache (w_fs w)) i = None).
    { intros rounds. destruct Hf as [Hi _].
      apply (remove_loop_full k n Hk Hn); [apply Hwf | done | | exact Hfull].
      rewrite (next_mask k n Hk Hn) by done. by apply (next_in k n Hk Hn). }
    exists i. split; [done |]. split; [done |]. simpl. by rewrite Hnone.
  - destruct Hf as (Hi & H0 & _). by destruct (Hfull i).
  - destruct (Hf i' Hi') as [_ Hne]. destruct Hne. unfold slot_at. by rewrite Hb.
Qed.

(** A table of one bucket, in use. *)
Definition demo_full : fffs :=
  set_index_cache [mk_bucket 9 3]
    (set_fs_geo (mk_geometry 256 8 0 2 false 64 1) Demo.fs).

Lemma hash_remove_full_diverges_witness :
  @fffs_index_remove Demo.backend 9 (@mk_world Demo.backend dev_blank demo_full ∅) =
    (NoFuel, @mk_world Demo.backend dev_blank demo_full ∅).
Proof.
  assert (Ht : forall i, in_table 1 i -> i = 0) by (unfold in_table; lia).
  destruct (@hash_remove_full_diverges Demo.backend 9 3
    (@mk_world Demo.backend dev_blank demo_full ∅)) as (i & _ & _ & Hr).
  - split; [by exists 0 |]. split; [reflexivity | |].
    + intros i j Hi Hj _ _. by rewrite (Ht i Hi), (Ht j Hj).
    + intros i p Hi Hp _ _. by rewrite (Ht p Hp).
  - intros i Hi. by rewrite (Ht i Hi).
  - reflexivity.
  - exact Hr.
Defined.

(** Resolution on the blank device: the name's base slot is free. *)
Lemma resolve_refines_witness :
  exists w' r, @index_resolve Demo.backend hash_index [97] None Demo.blank =
    (Ok r, w') /\ rs_slot r = 0xcd20 /\ rs_found r = false.
Proof.
  destruct (@resolve_refines Demo.backend (dev_nor 2048 4) Demo.valid Demo.geo
    Demo.geo_valid hash_index hash_cached [97] None Demo.blank eq_refl
    Demo.blank_ok I demo_hash_ok) as (w' & _ & Hv).
  - unfold zlen. simpl. lia.
  - assert (Hr : resolution_of (root_value Demo.geo (@mem Demo.backend (dev_nor 2048 4) Demo.blank))
      (hash_map (w_fs Demo.blank))
      (fffs_slot_is_pinned (w_fs Demo.blank) (w_files Demo.blank)) [97]
      (candidates [97]) None = inr (0xcd20, 0, None))
      by (vm_compute; reflexivity).
    change (idx_map (w_fs Demo.blank)) with (hash_map (w_fs Demo.blank)) in Hv.
    rewrite Hr in Hv. destruct Hv as (r & Hrun & (Hs & _ & Hf & _) & _).
    exists w', r. split; [exact Hrun | split; [exact Hs | exact Hf]].
Defined.
