(* ===== verification/RamIndex.v ===== *)
(** * Full slot-head index cache

    [src/fffs_ram_index.c] ([FFFS_INDEX_CACHE_FULL_SLOT_HEADS]): one head per
    slot, looked up directly. *)

From S2P Require Export IndexCache.

Definition fffs_index_cache_config_valid (count : Z) : bool :=
  FFFS_SLOT_COUNT <=? count.

Definition fffs_index_cache_required_size (count : Z) : Z :=
  2 * FFFS_SLOT_COUNT.

Section RamIndex.
Context `{Backend}.

Definition head_at (fs : fffs) (slot : Z) : Z := byte_at (index_heads fs) slot.

Definition fffs_index_insert (slot head : Z) : M unit :=
  mod_fs (fun fs =>
    set_index_heads (<[Z.to_nat slot := head]> (index_heads fs)) fs).

Definition fffs_index_remove (slot : Z) : M unit :=
  mod_fs (fun fs =>
    set_index_heads (<[Z.to_nat slot := 0]> (index_heads fs)) fs).

Definition fffs_index_set (slot head : Z) : M unit :=
  if head =? 0 then fffs_index_remove slot else fffs_index_insert slot head.

Definition fffs_index_head_for_slot (slot : Z) : M (Z * bool) :=
  fs <- get_fs ;;
  ret (head_at fs slot, negb (head_at fs slot =? 0)).

Definition fffs_index_resolve (name : list Z)
    (cache : option fffs_read_cache_view) : M index_resolution :=
  resolve_by_heads fffs_index_head_for_slot name cache.

Fixpoint dir_read_loop (n : nat) (dir : fffs_dir)
  : M (option fffs_stat * fffs_dir) :=
  fs <- get_fs ;;
  if negb (d_pos dir <? FFFS_SLOT_COUNT)
  then ret (None, set_d_status FFFS_OK dir)
  else match n with
       | O => diverge
       | S n' =>
           let head := head_at fs (d_pos dir) in
           let dir := set_d_pos (d_pos dir + 1) dir in
           if head =? 0 then dir_read_loop n' dir
           else
             r <- try_ (dir_entry dir (u16 (d_pos dir - 1)) head) ;;
             match r with
             | inl err => ret (None, set_d_status err dir)
             | inr None => dir_read_loop n' dir
             | inr (Some st) => ret (Some st, set_d_status FFFS_OK dir)
             end
       end.

Definition fffs_index_dir_read (dir : fffs_dir)
  : M (option fffs_stat * fffs_dir) :=
  dir_read_loop (Z.to_nat (FFFS_SLOT_COUNT - d_pos dir)) dir.

Fixpoint iter_read_loop (n : nat) (iter : fffs_index_iter)
  : M (option (Z * Z) * fffs_index_iter) :=
  fs <- get_fs ;;
  let done := mk_iter (it_pos iter) (it_cursor_seq_pos iter)
                (it_cursor_offset iter) FFFS_OK in
  if negb (it_pos iter <? FFFS_SLOT_COUNT) then ret (None, done)
  else match n with
       | O => diverge
       | S n' =>
           let head := head_at fs (it_pos iter) in
           let next st := mk_iter (it_pos iter + 1) (it_cursor_seq_pos iter)
                            (it_cursor_offset iter) st in
           if head =? 0 then iter_read_loop n' (next (it_status iter))
           else ret (Some (u16 (it_pos iter), head), next FFFS_OK)
       end.

Definition fffs_index_iter_read (iter : fffs_index_iter)
  : M (option (Z * Z) * fffs_index_iter) :=
  iter_read_loop (Z.to_nat (FFFS_SLOT_COUNT - it_pos iter)) iter.

Definition fffs_index_record_is_current (seq_pos offset slot head : Z)
  : M bool :=
  let* (current_head, found) := fffs_index_head_for_slot slot in
  ret (found && (current_head =? head)).

Definition ram_index_clear (count : Z) (fs : fffs) : fffs :=
  set_index_heads (fill FFFS_SLOT_COUNT 0) fs.

Definition ram_index : IndexCache :=
  {| index_cache_config_valid := fffs_index_cache_config_valid;
     index_cache_required_size := fffs_index_cache_required_size;
     index_needs_storage := true;
     index_clear := ram_index_clear;
     index_insert := fffs_index_insert;
     index_remove := fffs_index_remove;
     index_set := fffs_index_set;
     index_resolve := fffs_index_resolve;
     index_head_for_slot := fffs_index_head_for_slot;
     index_dir_read := fffs_index_dir_read;
     index_iter_read := fffs_index_iter_read;
     index_record_is_current := fffs_index_record_is_current |}.
End RamIndex.

(** ** The heads as a finite map *)

Definition heads_map (heads : list Z) : gmap Z Z :=
  list_to_map ((fun slot => (slot, byte_at heads slot)) <$>
    filter (fun slot => byte_at heads slot <> 0)
      (Z.of_nat <$> seq 0 (length heads))).

Lemma heads_map_lookup heads slot head :
  heads_map heads !! slot = Some head <->
  0 <= slot < zlen heads /\ byte_at heads slot = head /\ head <> 0.
Proof.
  unfold heads_map. rewrite <- elem_of_list_to_map.
  - rewrite list_elem_of_fmap. setoid_rewrite list_elem_of_filter.
    setoid_rewrite list_elem_of_fmap. setoid_rewrite elem_of_seq.
    unfold zlen. split.
    + intros (s & [= -> ->] & Hne & n & -> & Hin). split; [lia | done].
    + intros (Hr & <- & Hne). exists slot. split; [done |]. split; [done |].
      exists (Z.to_nat slot). lia.
  - rewrite <- list_fmap_compose. rewrite list_fmap_id.
    apply NoDup_filter, (NoDup_fmap_2 _), NoDup_seq.
Qed.

Lemma byte_at_insert (l : list Z) i j v :
  0 <= i < zlen l -> 0 <= j ->
  byte_at (<[Z.to_nat i := v]> l) j = if j =? i then v else byte_at l j.
Proof.
  unfold byte_at, zlen. intros Hi Hj. rewrite !nth_lookup.
  destruct (Z.eqb_spec j i) as [-> | Hne].
  - by rewrite list_lookup_insert_eq by lia.
  - by rewrite list_lookup_insert_ne by lia.
Qed.

Lemma heads_map_insert heads slot head :
  0 <= slot < zlen heads -> head <> 0 ->
  heads_map (<[Z.to_nat slot := head]> heads) =
  <[slot := head]> (heads_map heads).
Proof.
  intros Hs Hh. apply map_eq. intros s. apply option_eq. intros h.
  rewrite heads_map_lookup. unfold zlen. rewrite length_insert.
  fold (zlen heads). destruct (decide (s = slot)) as [-> | Hne].
  - rewrite lookup_insert_eq, byte_at_insert, Z.eqb_refl by lia.
    split; [intros (_ & -> & _); done | intros [= ->]; done].
  - rewrite lookup_insert_ne, heads_map_lookup by done.
    split; intros (Hr & Hb & ?); rewrite ?byte_at_insert in * by lia;
      by destruct (Z.eqb_spec s slot).
Qed.

Lemma heads_map_delete heads slot :
  0 <= slot < zlen heads ->
  heads_map (<[Z.to_nat slot := 0]> heads) = delete slot (heads_map heads).
Proof.
  intros Hs. apply map_eq. intros s. apply option_eq. intros h.
  rewrite heads_map_lookup. unfold zlen. rewrite length_insert.
  fold (zlen heads). destruct (decide (s = slot)) as [-> | Hne].
  - rewrite lookup_delete_eq, byte_at_insert, Z.eqb_refl by lia.
    split; [intros (_ & <- & []); done | done].
  - rewrite lookup_delete_ne, heads_map_lookup by done.
    split; intros (Hr & Hb & ?); rewrite ?byte_at_insert in * by lia;
      by destruct (Z.eqb_spec s slot).
Qed.

Lemma heads_map_size heads :
  zlen heads = FFFS_SLOT_COUNT ->
  (size (heads_map heads) < S (Z.to_nat FFFS_SLOT_COUNT))%nat.
Proof.
  intros Hl. unfold heads_map. rewrite map_size_list_to_map.
  - rewrite length_fmap.
    pose proof (length_filter (fun slot => byte_at heads slot <> 0)
      (Z.of_nat <$> seq 0 (length heads))) as Hf.
    rewrite length_fmap, length_seq in Hf. unfold zlen in Hl. lia.
  - rewrite <- list_fmap_compose, list_fmap_id.
    apply NoDup_filter, (NoDup_fmap_2 _), NoDup_seq.
Qed.

Lemma heads_map_empty n : heads_map (fill n 0) = ∅.
Proof.
  apply map_empty. intros s. apply eq_None_not_Some. intros [h Hh].
  apply heads_map_lookup in Hh as ([Hs Hl] & <- & Hne). apply Hne.
  destruct (Z.le_gt_cases 0 n).
  - rewrite zlen_fill in Hl by done. by apply byte_at_fill.
  - unfold fill in *. replace (Z.to_nat n) with O in * by lia.
    unfold zlen in Hl. simpl in Hl. lia.
Qed.

#[export] Program Instance ram_cached `{Backend} : CachedIndex ram_index := {|
  idx_ok := fun fs => zlen (index_heads fs) = FFFS_SLOT_COUNT;
  idx_map := fun fs => heads_map (index_heads fs);
  idx_capacity := fun _ => S (Z.to_nat FFFS_SLOT_COUNT);
|}.
Next Obligation. simpl. intros ? fs fs' Hok _ _ ->. done. Qed.
Next Obligation.
  simpl. intros ? slot w Hok Hs. unfold fffs_index_head_for_slot, bind, get_fs,
    ret, head_at. do 2 f_equal. unfold head_answer.
  destruct (heads_map (index_heads (w_fs w)) !! slot) as [h |] eqn:Hlk.
  - apply heads_map_lookup in Hlk as (_ & -> & Hne).
    by rewrite (proj2 (Z.eqb_neq _ _) Hne).
  - destruct (Z.eqb_spec (byte_at (index_heads (w_fs w)) slot) 0) as [-> | Hne];
      [done |].
    exfalso. rewrite eq_None_not_Some in Hlk. apply Hlk. eexists.
    apply heads_map_lookup. split; [lia | done].
Qed.
Next Obligation.
  simpl. intros ? slot head w Hok Hs Hh _. unfold fffs_index_set.
  rewrite (proj2 (Z.eqb_neq head 0)) by lia.
  eexists. split; [done |]. split; [done |]. simpl. split.
  - unfold zlen in *. by rewrite length_insert.
  - apply heads_map_insert; lia.
Qed.
Next Obligation.
  simpl. intros ? slot w Hok Hs _. unfold fffs_index_set. simpl.
  eexists. split; [done |]. split; [done |]. simpl. split.
  - unfold zlen in *. by rewrite length_insert.
  - apply heads_map_delete; lia.
Qed.
Next Obligation.
  simpl. intros ? slot head Hh. unfold fffs_index_set.
  by rewrite (proj2 (Z.eqb_neq _ _) Hh).
Qed.
Next Obligation. done. Qed.
Next Obligation. done. Qed.
Next Obligation.
  simpl. intros ? fs _ _. split; [by apply zlen_fill |].
  split; [apply heads_map_empty | done].
Qed.
Next Obligation. done. Qed.
Next Obligation.
  simpl. intros ? pos off slot head w Hok Hs.
  unfold fffs_index_record_is_current, fffs_index_head_for_slot, bind, get_fs, ret,
    head_at. do 2 f_equal.
  destruct (Z.eqb_spec (byte_at (index_heads (w_fs w)) slot) 0) as [Hz | Hz];
    cbn [negb andb]; symmetry.
  - apply bool_decide_false. intros Hm. apply heads_map_lookup in Hm as (_ & Heq & Hne).
    congruence.
  - destruct (Z.eqb_spec (byte_at (index_heads (w_fs w)) slot) head) as [<- | Hne].
    + apply bool_decide_true, heads_map_lookup. split; [lia | done].
    + apply bool_decide_false. intros Hm. apply heads_map_lookup in Hm as (_ & Heq & _).
      congruence.
Qed.

(** ** Properties *)

(** The full slot-head cache.  [fffs_index_set] with a head stores it, with
    0 forgets the slot, and a later [fffs_index_head_for_slot] of any slot
    answers from the updated map; both terminate, succeed, and change nothing
    but the head array. *)
Theorem ram_index_refines `{Backend} (slot head probe : Z) (w : world) :
  zlen (index_heads (w_fs w)) = FFFS_SLOT_COUNT ->
  0 < slot <= UINT16_MAX -> 0 <= head -> 0 < probe <= UINT16_MAX ->
  exists w', fffs_index_set slot head w = (Ok tt, w') /\ index_step w w' /\
    fffs_index_head_for_slot probe w' =
      (Ok (head_answer (if probe =? slot
         then (if head =? 0 then None else Some head)
         else heads_map (index_heads (w_fs w)) !! probe)), w').
Proof.
  intros Hl Hs Hh Hp. destruct (Z.eqb_spec head 0) as [-> | Hne].
  - assert (Hsz : (size (heads_map (index_heads (w_fs w))) <
      S (Z.to_nat FFFS_SLOT_COUNT))%nat) by by apply heads_map_size.
    destruct (@idx_unset _ _ ram_cached slot w Hl Hs Hsz) as (w' & Hr & Hst & Hok & Hm).
    exists w'. split; [exact Hr |]. split; [exact Hst |].
    etransitivity; [by apply (@idx_head _ _ ram_cached probe w') |]. rewrite Hm.
    destruct (Z.eqb_spec probe slot) as [-> | Hps];
      [by rewrite lookup_delete_eq | by rewrite lookup_delete_ne].
  - assert (Hsz : (size (heads_map (index_heads (w_fs w))) <
      S (Z.to_nat FFFS_SLOT_COUNT))%nat) by by apply heads_map_size.
    destruct (@idx_set _ _ ram_cached slot head w Hl Hs ltac:(lia) (or_introl Hsz))
      as (w' & Hr & Hst & Hok & Hm).
    exists w'. split; [exact Hr |]. split; [exact Hst |].
    etransitivity; [by apply (@idx_head _ _ ram_cached probe w') |]. rewrite Hm.
    destruct (Z.eqb_spec probe slot) as [-> | Hps];
      [by rewrite lookup_insert_eq | by rewrite lookup_insert_ne].
Qed.

(** The demonstration file system with a cleared head array. *)
Definition demo_heads : fffs := ram_index_clear FFFS_SLOT_COUNT Demo.fs.

Lemma ram_index_refines_witness :
  exists w', @fffs_index_set Demo.backend 9 3
      (@mk_world Demo.backend dev_blank demo_heads ∅) = (Ok tt, w') /\
    @fffs_index_head_for_slot Demo.backend 9 w' = (Ok (3, true), w').
Proof.
  destruct (@ram_index_refines Demo.backend 9 3 9
    (@mk_world Demo.backend dev_blank demo_heads ∅)) as (w' & Hr & _ & Hh).
  - apply (zlen_fill FFFS_SLOT_COUNT 0). lia.
  - lia.
  - lia.
  - lia.
  - exists w'. split; [exact Hr | exact Hh].
Defined.
