(* ===== verification/NoCacheIndex.v ===== *)
(** * No-cache index

    [src/fffs_nocache_index.c] ([FFFS_INDEX_CACHE_NONE]): every query scans
    the on-flash journal through the caller's scratch buffer. *)

From S2P Require Export IndexCache.

Abbreviation FFFS_PROBE_BITSET_WORDS := 2.

Record logical_pos : Type := mk_pos { lp_seq_pos : Z; lp_offset : Z }.

(** [struct index_scan]; the window itself is [fs->scratch]. *)
Record index_scan : Type := mk_scan {
  sc_dir : option fffs_dir;
  sc_window_size : Z;
  sc_window_start : Z;
  sc_window_len : Z;
}.

Definition logical_sector (fs : fffs) (seq_pos : Z) : Z :=
  (oldest_index_sector (fs_log fs) + seq_pos) mod index_sectors (fs_geo fs).

Definition logical_sector_begin (fs : fffs) (seq_pos : Z) : Z :=
  logical_sector fs seq_pos * sector_size (fs_geo fs) + FFFS_HEADER_SIZE.

Definition logical_sector_end (fs : fffs) (seq_pos : Z) : Z :=
  let sector := logical_sector fs seq_pos in
  if sector =? active_index_sector (fs_log fs)
  then next_index_offset (fs_log fs)
  else (sector + 1) * sector_size (fs_geo fs).

Fixpoint candidate_offset_loop (n : nat) (candidate slot d : Z) : option Z :=
  match n with
  | O => None
  | S n' => if candidate =? slot then Some d
            else candidate_offset_loop n' (fffs_next_slot candidate) slot (d + 1)
  end.

Definition candidate_offset (base slot : Z) : option Z :=
  candidate_offset_loop (Z.to_nat (FFFS_MAX_PROBE_DISTANCE + 1)) base slot 0.

Definition candidate_slot (base offset : Z) : Z :=
  Nat.iter (Z.to_nat offset) fffs_next_slot base.

Definition index_scan_init (fs : fffs) (dir : option fffs_dir) : index_scan :=
  let size := scratch_size (fs_geo fs) - scratch_size (fs_geo fs) mod 4 in
  match dir with
  | Some d =>
      if (d_scratch_serial d =? scratch_serial fs) &&
         negb (d_cached_len d =? 0)
      then mk_scan dir size (d_cached_offset d) (d_cached_len d)
      else mk_scan dir size 0 0
  | None => mk_scan dir size 0 0
  end.

(** A record position of the scan is erased space. *)
Definition record_erased (slot head : Z) : bool :=
  (slot =? UINT16_MAX) && (head =? UINT16_MAX).

Section NoCacheIndex.
Context `{Backend}.

Definition index_scan_load (scan : index_scan) (offset : Z) : M index_scan :=
  if (sc_window_start scan <=? offset) &&
     (offset + 4 <=? sc_window_start scan + sc_window_len scan)
  then ret scan
  else
    g <- get_geo ;;
    let sector := offset / sector_size g in
    let start := sector * sector_size g + FFFS_HEADER_SIZE in
    let stop := (sector + 1) * sector_size g in
    let rel := offset - start in
    let base := start + rel - rel mod sc_window_size scan in
    let nread := stop - base in
    let nread := if sc_window_size scan <? nread then sc_window_size scan
                 else nread in
    let nread := nread - nread mod 4 in
    guard_err (nread <? 4) FFFS_ERR_CORRUPT ;;
    flash_read_scratch base nread ;;
    fffs_scratch_bump ;;
    fs <- get_fs ;;
    let dir := match sc_dir scan with
               | Some d =>
                   Some (set_d_scratch_serial (scratch_serial fs)
                           (set_d_cached_seq_pos sector
                              (set_d_cached_offset base
                                 (set_d_cached_len nread d))))
               | None => None
               end in
    ret (mk_scan dir (sc_window_size scan) base nread).

Definition read_index_at (scan : index_scan) (offset : Z)
  : M (Z * Z * bool * index_scan) :=
  scan <- index_scan_load scan offset ;;
  fs <- get_fs ;;
  let at_ := offset - sc_window_start scan in
  let slot := load16_at (scratch fs) at_ in
  let head := load16_at (scratch fs) (at_ + 2) in
  ret (slot, head, record_erased slot head, scan).

(** One sector of [newer_record_for_slot]'s walk. *)
Fixpoint newer_in_sector (n : nat) (scan : index_scan) (off stop slot : Z)
  : M (bool * index_scan) :=
  if negb (off + 4 <=? stop) then ret (false, scan)
  else match n with
       | O => diverge
       | S n' =>
           let* (rec_slot, head, erased, scan) := read_index_at scan off in
           if erased then ret (false, scan)
           else if (rec_slot =? 0) && (head =? 0)
           then newer_in_sector n' scan (off + 4) stop slot
           else if rec_slot =? slot then ret (true, scan)
           else newer_in_sector n' scan (off + 4) stop slot
       end.

Fixpoint newer_loop (n : nat) (scan : index_scan) (seq_pos off slot : Z)
  : M (bool * index_scan) :=
  fs <- get_fs ;;
  if negb (seq_pos <? index_sequence_count (fs_log fs)) then ret (false, scan)
  else match n with
       | O => diverge
       | S n' =>
           let stop := logical_sector_end fs seq_pos in
           let* (newer, scan) :=
             newer_in_sector (Z.to_nat (stop - off)) scan off stop slot in
           if newer then ret (true, scan)
           else
             let off :=
               if seq_pos + 1 <? index_sequence_count (fs_log fs)
               then logical_sector_begin fs (seq_pos + 1) else off in
             newer_loop n' scan (seq_pos + 1) off slot
       end.

Definition newer_record_for_slot (scan : index_scan) (pos : logical_pos)
    (slot : Z) : M (bool * index_scan) :=
  fs <- get_fs ;;
  newer_loop (Z.to_nat (index_sequence_count (fs_log fs) - lp_seq_pos pos))
    scan (lp_seq_pos pos) (lp_offset pos + 4) slot.

Fixpoint reached_slot_loop (n : nat) (base d : Z) (occupied : list Z) : M Z :=
  match n with
  | O => fail FFFS_ERR_NO_SPACE
  | S n' =>
      let candidate := candidate_slot base d in
      pinned <- slot_is_pinned candidate ;;
      if negb (fffs_bitset_get occupied d) && negb pinned
      then ret candidate
      else reached_slot_loop n' base (d + 1) occupied
  end.

Definition resolve_reached_slot (base : Z) (occupied : list Z) : M Z :=
  reached_slot_loop (Z.to_nat (FFFS_MAX_PROBE_DISTANCE + 1)) base 0 occupied.

Definition fffs_index_cache_config_valid (count : Z) : bool := true.

Definition fffs_index_cache_required_size (count : Z) : Z := 0.

Definition fffs_index_insert (slot head : Z) : M unit := ret tt.

Definition fffs_index_remove (slot : Z) : M unit := ret tt.

Definition fffs_index_set (slot head : Z) : M unit := ret tt.

(** One index sector of [fffs_index_resolve], scanned backwards. *)
Fixpoint resolve_in_sector (n : nat) (name : list Z) (base : Z)
    (scan : index_scan) (start off : Z) (occupied deleted : list Z)
    (cache : option fffs_read_cache_view)
  : M (index_resolution +
       (index_scan * list Z * list Z * option fffs_read_cache_view)) :=
  if negb (start + 4 <=? off) then ret (inr (scan, occupied, deleted, cache))
  else match n with
       | O => diverge
       | S n' =>
           let off := off - 4 in
           let* (rec_slot, rec_head, erased, scan) :=
             read_index_at scan off in
           let continue_ occupied deleted cache :=
             resolve_in_sector n' name base scan start off occupied deleted
               cache in
           if erased then continue_ occupied deleted cache
           else if (rec_slot =? 0) && (rec_head =? 0)
           then continue_ occupied deleted cache
           else match candidate_offset base rec_slot with
                | None => continue_ occupied deleted cache
                | Some d =>
                    if fffs_bitset_get occupied d || fffs_bitset_get deleted d
                    then continue_ occupied deleted cache
                    else if rec_head =? 0
                    then continue_ occupied (fffs_bitset_set deleted d) cache
                    else
                      g <- get_geo ;;
                      guard_err ((rec_head <? index_sectors g) ||
                                 (sector_count g <=? rec_head))
                        FFFS_ERR_CORRUPT ;;
                      root <- fffs_read_file_root_md rec_head rec_slot true
                                cache ;;
                      if bool_decide (st_name (root_st root) = name)
                      then ret (inl (mk_resolution rec_slot rec_head true
                                       (Some root) (root_cache root)))
                      else continue_ (fffs_bitset_set occupied d) deleted
                             (root_cache root)
                end
       end.

Fixpoint resolve_sectors (seq_count : nat) (name : list Z) (base : Z)
    (scan : index_scan) (occupied deleted : list Z)
    (cache : option fffs_read_cache_view) : M index_resolution :=
  match seq_count with
  | O =>
      slot <- resolve_reached_slot base occupied ;;
      ret (mk_resolution slot 0 false None cache)
  | S seq_pos =>
      fs <- get_fs ;;
      let start := logical_sector_begin fs (Z.of_nat seq_pos) in
      let off := logical_sector_end fs (Z.of_nat seq_pos) in
      r <- resolve_in_sector (Z.to_nat (off - start)) name base scan start off
             occupied deleted cache ;;
      match r with
      | inl res => ret res
      | inr (scan, occupied, deleted, cache) =>
          resolve_sectors seq_pos name base scan occupied deleted cache
      end
  end.

Definition fffs_index_resolve (name : list Z)
    (cache : option fffs_read_cache_view) : M index_resolution :=
  check_name name ;;
  fs <- get_fs ;;
  resolve_sectors (Z.to_nat (index_sequence_count (fs_log fs))) name
    (fffs_normalize_slot_base (fffs_hash16 name))
    (index_scan_init fs None)
    (fffs_bitset_clear FFFS_PROBE_BITSET_WORDS)
    (fffs_bitset_clear FFFS_PROBE_BITSET_WORDS) cache.

(** ** Enumeration of the current entries *)

(** The state of an enumeration: the cursor and the scan.  A failed read is
    part of the result, [*status = err; return false]. *)
Inductive entry_result : Type :=
  | entry_found (slot head : Z)
  | entry_status (status : fffs_status).

Fixpoint current_in_sector (n : nat) (scan : index_scan)
    (seq_pos off stop cur_seq cur_off : Z)
  : M (option entry_result * (Z * Z * Z) * index_scan) :=
  if negb (off + 4 <=? stop) then ret (None, (off, cur_seq, cur_off), scan)
  else match n with
       | O => diverge
       | S n' =>
           let cur_seq := seq_pos in
           let cur_off := off + 4 in
           let here r scan := ret (Some r, (off, cur_seq, cur_off), scan) in
           r <- try_ (read_index_at scan off) ;;
           match r with
           | inl err => here (entry_status err) scan
           | inr (rec_slot, rec_head, erased, scan) =>
               let continue_ scan :=
                 current_in_sector n' scan seq_pos (off + 4) stop cur_seq
                   cur_off in
               if erased then ret (None, (off, cur_seq, cur_off), scan)
               else if rec_head =? 0 then continue_ scan
               else
                 r <- try_ (newer_record_for_slot scan (mk_pos seq_pos off)
                              rec_slot) ;;
                 match r with
                 | inl err => here (entry_status err) scan
                 | inr (newer, scan) =>
                     if newer then continue_ scan
                     else here (entry_found rec_slot rec_head) scan
                 end
           end
       end.

Fixpoint current_loop (n : nat) (scan : index_scan)
    (seq_pos off cur_seq cur_off : Z)
  : M (entry_result * Z * Z * index_scan) :=
  fs <- get_fs ;;
  if negb (seq_pos <? index_sequence_count (fs_log fs))
  then ret (entry_status FFFS_OK, cur_seq, cur_off, scan)
  else match n with
       | O => diverge
       | S n' =>
           let stop := logical_sector_end fs seq_pos in
           let* (r, (off, cur_seq, cur_off), scan) :=
             current_in_sector (Z.to_nat (stop - off)) scan seq_pos off stop
               cur_seq cur_off in
           match r with
           | Some res => ret (res, cur_seq, cur_off, scan)
           | None =>
               if seq_pos + 1 <? index_sequence_count (fs_log fs) then
                 let off := logical_sector_begin fs (seq_pos + 1) in
                 current_loop n' scan (seq_pos + 1) off (seq_pos + 1) off
               else current_loop n' scan (seq_pos + 1) off cur_seq cur_off
           end
       end.

Definition current_index_entry_read (cursor_seq_pos cursor_offset : Z)
    (dir : option fffs_dir) : M (entry_result * Z * Z * index_scan) :=
  fs <- get_fs ;;
  let scan := index_scan_init fs dir in
  let off := if (cursor_seq_pos =? 0) && (cursor_offset =? 0)
             then logical_sector_begin fs 0 else cursor_offset in
  current_loop (Z.to_nat (index_sequence_count (fs_log fs) - cursor_seq_pos))
    scan cursor_seq_pos off cursor_seq_pos cursor_offset.

Fixpoint dir_read_loop (n : nat) (dir : fffs_dir)
  : M (option fffs_stat * fffs_dir) :=
  match n with
  | O => diverge
  | S n' =>
      let* (res, cur_seq, cur_off, scan) :=
        current_index_entry_read (d_cursor_seq_pos dir) (d_cursor_offset dir)
          (Some dir) in
      let dir := set_d_cursor_seq_pos cur_seq
                   (set_d_cursor_offset cur_off
                      (default dir (sc_dir scan))) in
      match res with
      | entry_status st => ret (None, set_d_status st dir)
      | entry_found slot head =>
          let dir := set_d_status FFFS_OK dir in
          r <- try_ (dir_entry dir slot head) ;;
          match r with
          | inl err => ret (None, set_d_status err dir)
          | inr None => dir_read_loop n' dir
          | inr (Some st) => ret (Some st, set_d_status FFFS_OK dir)
          end
      end
  end.

(** Every round moves the cursor forward, over at most all index sectors. *)
Definition fffs_index_dir_read (dir : fffs_dir)
  : M (option fffs_stat * fffs_dir) :=
  g <- get_geo ;;
  dir_read_loop (S (Z.to_nat (index_sectors g * sector_size g))) dir.

Definition fffs_index_iter_read (iter : fffs_index_iter)
  : M (option (Z * Z) * fffs_index_iter) :=
  let* (res, cur_seq, cur_off, _) :=
    current_index_entry_read (it_cursor_seq_pos iter) (it_cursor_offset iter)
      None in
  match res with
  | entry_status st => ret (None, mk_iter (it_pos iter) cur_seq cur_off st)
  | entry_found slot head =>
      ret (Some (slot, head), mk_iter (it_pos iter) cur_seq cur_off FFFS_OK)
  end.

(** ** Slot lookup *)

Fixpoint head_in_sector (n : nat) (scan : index_scan) (start off slot : Z)
  : M (option Z * index_scan) :=
  if negb (start + 4 <=? off) then ret (None, scan)
  else match n with
       | O => diverge
       | S n' =>
           let off := off - 4 in
           let* (rec_slot, rec_head, erased, scan) :=
             read_index_at scan off in
           if erased || negb (rec_slot =? slot)
           then head_in_sector n' scan start off slot
           else ret (Some rec_head, scan)
       end.

Fixpoint head_in_sectors (seq_count : nat) (scan : index_scan) (slot : Z)
  : M (Z * bool) :=
  match seq_count with
  | O => ret (0, false)
  | S seq_pos =>
      fs <- get_fs ;;
      let start := logical_sector_begin fs (Z.of_nat seq_pos) in
      let off := logical_sector_end fs (Z.of_nat seq_pos) in
      let* (r, scan) :=
        head_in_sector (Z.to_nat (off - start)) scan start off slot in
      match r with
      | Some rec_head => ret (rec_head, negb (rec_head =? 0))
      | None => head_in_sectors seq_pos scan slot
      end
  end.

Definition fffs_index_head_for_slot (slot : Z) : M (Z * bool) :=
  fs <- get_fs ;;
  head_in_sectors (Z.to_nat (index_sequence_count (fs_log fs)))
    (index_scan_init fs None) slot.

Definition fffs_index_record_is_current (seq_pos offset slot head : Z)
  : M bool :=
  fs <- get_fs ;;
  let* (newer, _) :=
    newer_record_for_slot (index_scan_init fs None) (mk_pos seq_pos offset)
      slot in
  ret (negb newer).

Definition nocache_index : IndexCache :=
  {| index_cache_config_valid := fffs_index_cache_config_valid;
     index_cache_required_size := fffs_index_cache_required_size;
     index_needs_storage := false;
     index_clear := fun _ fs => fs;
     index_insert := fffs_index_insert;
     index_remove := fffs_index_remove;
     index_set := fffs_index_set;
     index_resolve := fffs_index_resolve;
     index_head_for_slot := fffs_index_head_for_slot;
     index_dir_read := fffs_index_dir_read;
     index_iter_read := fffs_index_iter_read;
     index_record_is_current := fffs_index_record_is_current |}.
End NoCacheIndex.
