(* ===== verification/IndexLog.v ===== *)
(** * The circular namespace journal

    [src/fffs_index_log.c]: index-sector headers, discovery of the newest
    index sequence, record append, rotation, compaction of the oldest sector
    and replay with recovery of a torn tail. *)

From S2P Require Export IndexCache.

(** ** Index-sector headers *)

(** [fffs_valid_index_header]: the index-sector count, the sector shift and
    the serial of a valid header. *)
Definition fffs_valid_index_header (hdr : list Z) : option (Z * Z * Z) :=
  let flags := byte_at hdr 7 in
  if negb (bool_decide (sublist 0 4 hdr = FFFS_INDEX_MAGIC)) ||
     negb (byte_at hdr 4 =? FFFS_INDEX_VERSION) then None
  else if negb (Z.land flags FFFS_INDEX_FLAG_VALID =? 0) ||
          (Z.land flags FFFS_INDEX_FLAG_TOMBSTONED =? 0) ||
          (Z.land flags FFFS_INDEX_FLAG_MD_CRC_REQUIRED =? 0) ||
          negb (Z.land flags 0x1f =? 0x1f) then None
  else
    let count := Z.shiftr (byte_at hdr 5) 4 in
    if (count <? 2) || (15 <? count) then None
    else
      let shift := byte_at hdr 6 in
      if (shift <? FFFS_MIN_SECTOR_SHIFT) || (FFFS_MAX_SECTOR_SHIFT <? shift)
      then None
      else Some (count, shift, Z.land (byte_at hdr 5) 0x0f).

(** The header bytes before the commit of the flags byte. *)
Definition index_header_bytes (count shift serial : Z) : list Z :=
  FFFS_INDEX_MAGIC ++
  [FFFS_INDEX_VERSION;
   u8 (Z.lor (Z.shiftl count 4) (Z.land serial 0x0f));
   shift; 0xff].

Definition index_serial_newer (serial best_serial : Z) : bool :=
  negb (serial =? best_serial) && (Z.land (serial - best_serial) 0x0f <? 8).

(** The selection of the active sector over the headers seen so far. *)
Record header_scan : Type := mk_header_scan {
  hs_found : bool;
  hs_conflict : bool;
  hs_best_active : Z;
  hs_best_serial : Z;
  hs_valid : list bool;
  hs_serials : list Z;
}.

Definition consider_index_header (off count shift serial : Z) (s : header_scan)
  : option header_scan :=
  let sector_size := Z.shiftl 256 shift in
  if negb (off mod sector_size =? 0) then None
  else
    let active := off / sector_size in
    if count <=? active then None
    else if negb (hs_found s) || index_serial_newer serial (hs_best_serial s)
    then Some (mk_header_scan true (hs_conflict s) active serial (hs_valid s)
                 (hs_serials s))
    else Some s.

Definition prev_index_sector (sector count : Z) : Z :=
  if sector =? 0 then count - 1 else sector - 1.

Definition bool_at (l : list bool) (i : Z) : bool := nth (Z.to_nat i) l false.

(** The walk back from the active sector: [k] is the number of sectors the
    loop may still add. *)
Fixpoint find_oldest_loop (k : nat) (valid : list bool) (serials : list Z)
    (count current current_serial n : Z) : Z * Z :=
  match k with
  | O => (current, n)
  | S k' =>
      let prev := prev_index_sector current count in
      let expected := u8 (Z.land (current_serial - 1) 0x0f) in
      if negb (bool_at valid prev) || negb (byte_at serials prev =? expected)
      then (current, n)
      else find_oldest_loop k' valid serials count prev (byte_at serials prev)
             (n + 1)
  end.

(** The oldest sector and the length of the sequence. *)
Definition find_oldest_index_sector (valid : list bool) (serials : list Z)
    (count active active_serial : Z) : Z * Z :=
  find_oldest_loop (Z.to_nat (count - 1)) valid serials count active
    active_serial 1.

Definition discovery_probe_shift (probe : Z) : option Z :=
  if probe =? 0 then Some FFFS_DEFAULT_SECTOR_SHIFT
  else if probe <=? FFFS_DEFAULT_SECTOR_SHIFT - FFFS_MIN_SECTOR_SHIFT
  then Some (u8 (FFFS_DEFAULT_SECTOR_SHIFT - probe))
  else
    let larger := u8 (FFFS_DEFAULT_SECTOR_SHIFT +
      (probe - (FFFS_DEFAULT_SECTOR_SHIFT - FFFS_MIN_SECTOR_SHIFT))) in
    if FFFS_MAX_SECTOR_SHIFT <? larger then None else Some larger.

(** ** Positions of the journal in the image *)

Definition logical_index_sector (fs : fffs) (seq_pos : Z) : Z :=
  (oldest_index_sector (fs_log fs) + seq_pos) mod index_sectors (fs_geo fs).

Definition index_sector_begin (fs : fffs) (sector : Z) : Z :=
  sector * sector_size (fs_geo fs) + FFFS_HEADER_SIZE.

Definition index_sector_end (fs : fffs) (sector : Z) : Z :=
  if sector =? active_index_sector (fs_log fs)
  then next_index_offset (fs_log fs)
  else (sector + 1) * sector_size (fs_geo fs).

(** The active sector has no room for one more record. *)
Definition active_sector_full (fs : fffs) : bool :=
  (active_index_sector (fs_log fs) + 1) * sector_size (fs_geo fs) <?
    next_index_offset (fs_log fs) + 4.

Definition fffs_next_data_sector (g : fs_geometry) (sector : Z) : Z :=
  let sector := sector + 1 in
  if (sector <? index_sectors g) || (sector_count g <=? sector)
  then index_sectors g else sector.

(** [struct index_record_reader] and [struct index_record_writer] *)
Record index_record_reader : Type := mk_record_reader {
  rr_window : list Z;
  rr_window_start : Z;
  rr_window_len : Z;
}.

Record index_record_writer : Type := mk_record_writer {
  rw_buf : list Z;
  rw_len : Z;
  rw_pending_rotation : bool;
}.

Section Discovery.
Context `{Backend}.

Definition fffs_program_index_header (offset count shift serial : Z)
  : M unit :=
  fffs_backend_program_aligned offset (index_header_bytes count shift serial) ;;
  fffs_backend_program_aligned (offset + 7) [FFFS_INDEX_FLAGS_VALID].

(** The scan of the headers of one candidate geometry; [n] is the number of
    sectors left. *)
Fixpoint scan_headers (n : nat) (i count shift discovered_off : Z)
    (discovered_hdr : list Z) (s : header_scan) : M header_scan :=
  match n with
  | O => ret s
  | S n' =>
      let off := i * Z.shiftl 256 shift in
      hdr <- (if off =? discovered_off then ret discovered_hdr
              else fffs_flash_read off FFFS_HEADER_SIZE) ;;
      match fffs_valid_index_header hdr with
      | None => scan_headers n' (i + 1) count shift discovered_off
                  discovered_hdr s
      | Some (c, sh, serial) =>
          let conflict := mk_header_scan (hs_found s) true (hs_best_active s)
                            (hs_best_serial s) (hs_valid s) (hs_serials s) in
          if negb (c =? count) || negb (sh =? shift) then ret conflict
          else
            let s := mk_header_scan (hs_found s) (hs_conflict s)
                       (hs_best_active s) (hs_best_serial s)
                       (<[Z.to_nat i := true]> (hs_valid s))
                       (<[Z.to_nat i := serial]> (hs_serials s)) in
            match consider_index_header off c sh serial s with
            | None => ret (mk_header_scan (hs_found s) true
                             (hs_best_active s) (hs_best_serial s)
                             (hs_valid s) (hs_serials s))
            | Some s => scan_headers n' (i + 1) count shift discovered_off
                          discovered_hdr s
            end
      end
  end.

Definition header_scan_init : header_scan :=
  mk_header_scan false false 0 0 (replicate 15 false) (fill 15 0).

(** One discovered header: [None] continues the search. *)
Definition try_header (probe_shift sector : Z)
  : M (option fffs_index_sequence) :=
  let size := Z.shiftl 256 probe_shift in
  let off := sector * size in
  if be_size <? off + FFFS_HEADER_SIZE then ret None
  else
    hdr <- fffs_flash_read off FFFS_HEADER_SIZE ;;
    match fffs_valid_index_header hdr with
    | None => ret None
    | Some (count, shift, _) =>
        if negb (shift =? probe_shift) then ret None
        else if negb (be_size mod size =? 0) then ret None
        else if be_size / size <? count then ret None
        else
          s <- scan_headers (Z.to_nat count) 0 count shift off hdr
                 header_scan_init ;;
          if hs_conflict s || negb (hs_found s) then ret None
          else
            let '(oldest, n) :=
              find_oldest_index_sector (hs_valid s) (hs_serials s) count
                (hs_best_active s) (hs_best_serial s) in
            ret (Some (mk_sequence count shift (hs_best_serial s)
                         (hs_best_active s) oldest n))
    end.

(** The probe loop over sector sizes; [discovery_probe_shift] ends it after
    16 candidates. *)
Fixpoint find_sequence_loop (n : nat) (probe : Z) : M fffs_index_sequence :=
  match n with
  | O => diverge
  | S n' =>
      match discovery_probe_shift probe with
      | None => fail FFFS_ERR_CORRUPT
      | Some shift =>
          if negb (be_size mod Z.shiftl 256 shift =? 0)
          then find_sequence_loop n' (probe + 1)
          else
            r0 <- try_header shift 0 ;;
            match r0 with
            | Some s => ret s
            | None =>
                r1 <- try_header shift 1 ;;
                match r1 with
                | Some s => ret s
                | None => find_sequence_loop n' (probe + 1)
                end
            end
      end
  end.

Definition fffs_find_index_sequence : M fffs_index_sequence :=
  find_sequence_loop 17 0.
End Discovery.

Section IndexLog.
Context `{Backend} `{!IndexCache}.

Definition fffs_read_index_record (offset : Z) : M (Z * Z) :=
  rec <- fffs_flash_read offset 4 ;;
  ret (fffs_load_le16 rec, load16_at rec 2).

Definition program_index_record_at (offset slot head : Z) : M unit :=
  fffs_flash_program_aligned offset (fffs_store_le16 slot) ;;
  fffs_flash_program_aligned (offset + 2) (fffs_store_le16 head).

Definition set_next_offset (off : Z) : M unit :=
  mod_log (set_next_index_offset off).

(** ** Torn tail recovery *)

Definition clobber_active_tail (rec_off : Z) : M unit :=
  fffs_flash_program_aligned rec_off (fill 4 0) ;;
  set_next_offset (rec_off + 4).

Definition clobber_or_reject_active_tail (rec_off : Z)
    (terminal_active_tail : bool) : M unit :=
  fs <- get_fs ;;
  if strict (fs_geo fs) || negb terminal_active_tail
  then fail FFFS_ERR_CORRUPT
  else clobber_active_tail rec_off.

Fixpoint index_span_erased_loop (n : nat) (offset size : Z) : M bool :=
  if 0 <? size then
    match n with
    | O => diverge
    | S n' =>
        let k := Z.min size 32 in
        buf <- fffs_flash_read offset k ;;
        if negb (fffs_flash_bytes_erased buf) then ret false
        else index_span_erased_loop n' (offset + k) (size - k)
    end
  else ret true.

Definition index_flash_span_erased (offset size : Z) : M bool :=
  index_span_erased_loop (Z.to_nat size) offset size.

Definition active_index_record_is_terminal (rec_off : Z) (chunk : list Z)
    (pos nread stop : Z) : M bool :=
  if rec_off + 4 =? stop then ret true
  else
    next_rec <- (if pos + 8 <=? nread then ret (sublist (pos + 4) 4 chunk)
                 else fffs_flash_read (rec_off + 4) 4) ;;
    if negb (fffs_flash_bytes_erased next_rec) then ret false
    else
      let rest_off := rec_off + 8 in
      let chunk_end := rec_off + (nread - pos) in
      if (rest_off <? chunk_end) &&
         negb (fffs_flash_bytes_erased
                 (sublist (pos + 8) (chunk_end - rest_off) chunk))
      then ret false
      else
        let rest_off := if rest_off <? chunk_end then chunk_end
                        else rest_off in
        if stop <=? rest_off then ret true
        else index_flash_span_erased rest_off (stop - rest_off).

Definition tombstone_index_sector (sector : Z) : M unit :=
  g <- get_geo ;;
  fffs_flash_program_aligned (sector * sector_size g + 7)
    [Z.land FFFS_INDEX_FLAGS_VALID (u8 (Z.lnot FFFS_INDEX_FLAG_TOMBSTONED))].

(** ** Rotation *)

Definition rotate_index_begin : M unit :=
  fs <- get_fs ;;
  let g := fs_geo fs in
  let l := fs_log fs in
  let new_active := active_index_sector l + 1 in
  let new_active := if index_sectors g <=? new_active then 0 else new_active in
  let new_base := new_active * sector_size g in
  backend_erase new_base (sector_size g) ;;
  let serial := u8 (Z.land (active_index_serial l + 1) 0x0f) in
  mod_log (fun l =>
    let l := set_active_index_sector new_active l in
    let l := set_active_index_serial serial l in
    let l := set_next_index_offset (new_base + FFFS_HEADER_SIZE) l in
    if index_sequence_count l <? index_sectors g
    then set_index_sequence_count (index_sequence_count l + 1) l else l).

Definition rotate_index_commit : M unit :=
  fs <- get_fs ;;
  fffs_program_index_header
    (active_index_sector (fs_log fs) * sector_size (fs_geo fs))
    (index_sectors (fs_geo fs)) (sector_shift (fs_geo fs))
    (active_index_serial (fs_log fs)).

(** ** Compaction *)

Definition index_record_reader_load (reader : index_record_reader)
    (offset : Z) : M index_record_reader :=
  if (rr_window_start reader <=? offset) &&
     (offset + 4 <=? rr_window_start reader + rr_window_len reader)
  then ret reader
  else
    fs <- get_fs ;;
    let size := sector_size (fs_geo fs) in
    let sector := offset / size in
    let start := sector * size + FFFS_HEADER_SIZE in
    let stop := index_sector_end fs sector in
    let rel := offset - start in
    let base := start + rel - rel mod FFFS_INDEX_COMPACT_OUTER_SCAN_SIZE in
    let nread := usz (stop - base) in
    let nread := if FFFS_INDEX_COMPACT_OUTER_SCAN_SIZE <? nread
                 then FFFS_INDEX_COMPACT_OUTER_SCAN_SIZE else nread in
    let nread := nread - nread mod 4 in
    guard_err (nread <? 4) FFFS_ERR_CORRUPT ;;
    buf <- fffs_flash_read base nread ;;
    ret (mk_record_reader (splice 0 buf (rr_window reader)) base nread).

Definition read_compact_source_record (reader : index_record_reader)
    (offset : Z) : M (Z * Z * bool * index_record_reader) :=
  reader <- index_record_reader_load reader offset ;;
  let at_ := offset - rr_window_start reader in
  let slot := load16_at (rr_window reader) at_ in
  let head := load16_at (rr_window reader) (at_ + 2) in
  ret (slot, head, (slot =? UINT16_MAX) && (head =? UINT16_MAX), reader).

Definition index_record_writer_prepare_spill (writer : index_record_writer)
  : M index_record_writer :=
  fs <- get_fs ;;
  guard_err (rw_pending_rotation writer ||
             (index_sectors (fs_geo fs) <=? index_sequence_count (fs_log fs)))
    FFFS_ERR_NO_SPACE ;;
  rotate_index_begin ;;
  ret (mk_record_writer (rw_buf writer) (rw_len writer) true).

Definition index_record_writer_commit_spill (writer : index_record_writer)
  : M index_record_writer :=
  if negb (rw_pending_rotation writer) then ret writer
  else
    rotate_index_commit ;;
    ret (mk_record_writer (rw_buf writer) (rw_len writer) false).

Definition index_record_writer_flush (writer : index_record_writer)
  : M index_record_writer :=
  if rw_len writer =? 0 then ret writer
  else
    fs <- get_fs ;;
    fffs_flash_program_aligned (next_index_offset (fs_log fs))
      (sublist 0 (rw_len writer) (rw_buf writer)) ;;
    mod_log (fun l =>
      set_next_index_offset (next_index_offset l + rw_len writer) l) ;;
    ret (mk_record_writer (rw_buf writer) 0 (rw_pending_rotation writer)).

Definition index_record_writer_append (writer : index_record_writer)
    (slot head : Z) : M index_record_writer :=
  writer <- index_record_writer_flush writer ;;
  fs <- get_fs ;;
  writer <- (if active_sector_full fs
             then index_record_writer_prepare_spill writer
             else ret writer) ;;
  fs <- get_fs ;;
  program_index_record_at (next_index_offset (fs_log fs)) slot head ;;
  mod_log (fun l => set_next_index_offset (next_index_offset l + 4) l) ;;
  ret writer.

(** The copy loop over the records of the source sector, [n] of them left. *)
Fixpoint compact_copy_loop (n : nat) (off stop : Z)
    (reader : index_record_reader) (writer : index_record_writer)
  : M index_record_writer :=
  if negb (off + 4 <=? stop) then ret writer
  else match n with
       | O => diverge
       | S n' =>
           let* (slot, head, erased, reader) :=
             read_compact_source_record reader off in
           if erased then ret writer
           else if ((slot =? 0) && (head =? 0)) || (head =? 0)
           then compact_copy_loop n' (off + 4) stop reader writer
           else
             current <- index_record_is_current 0 off slot head ;;
             if negb current
             then compact_copy_loop n' (off + 4) stop reader writer
             else
               writer <- index_record_writer_append writer slot head ;;
               compact_copy_loop n' (off + 4) stop reader writer
       end.

(** The result is [*source_out], unset when there is nothing to compact. *)
Definition index_compact_oldest_copy : M (option Z) :=
  fs <- get_fs ;;
  if index_sequence_count (fs_log fs) <=? 1 then ret None
  else
    let source_sector := oldest_index_sector (fs_log fs) in
    let source_begin := index_sector_begin fs source_sector in
    let source_end := index_sector_end fs source_sector in
    writer <- compact_copy_loop (Z.to_nat (source_end - source_begin))
                source_begin source_end
                (mk_record_reader
                   (fill FFFS_INDEX_COMPACT_OUTER_SCAN_SIZE 0) 0 0)
                (mk_record_writer [] 0 false) ;;
    writer <- index_record_writer_flush writer ;;
    index_record_writer_commit_spill writer ;;
    ret (Some source_sector).

Definition index_compact_oldest_finish (source_sector : Z) : M unit :=
  tombstone_index_sector source_sector ;;
  fs <- get_fs ;;
  mod_log (fun l =>
    set_index_sequence_count (index_sequence_count l - 1)
      (set_oldest_index_sector (logical_index_sector fs 1) l)).

Definition fffs_index_compact_oldest : M unit :=
  source <- index_compact_oldest_copy ;;
  fs <- get_fs ;;
  if index_sequence_count (fs_log fs) <=? 1 then ret tt
  else index_compact_oldest_finish (default 0 source).

Definition fffs_index_finish_interrupted_compaction : M unit :=
  fs <- get_fs ;;
  if index_sequence_count (fs_log fs) <? index_sectors (fs_geo fs)
  then ret tt
  else index_compact_oldest_finish (oldest_index_sector (fs_log fs)).

Definition fffs_rotate_index : M unit :=
  rotate_index_begin ;;
  fs <- get_fs ;;
  if index_sequence_count (fs_log fs) =? index_sectors (fs_geo fs) then
    source <- index_compact_oldest_copy ;;
    rotate_index_commit ;;
    index_compact_oldest_finish (default 0 source)
  else rotate_index_commit.

(** ** Append *)

Definition fffs_append_index_record (slot head : Z) : M unit :=
  fs <- get_fs ;;
  when (active_sector_full fs)
    (fffs_rotate_index ;;
     fs <- get_fs ;;
     guard_err (active_sector_full fs) FFFS_ERR_NO_SPACE) ;;
  fs <- get_fs ;;
  program_index_record_at (next_index_offset (fs_log fs)) slot head ;;
  mod_log (fun l => set_next_index_offset (next_index_offset l + 4) l) ;;
  index_set slot head.

(** ** Replay *)

Fixpoint recover_loop (n : nat) (sector : Z) : M unit :=
  match n with
  | O => ret tt
  | S n' =>
      g <- get_geo ;;
      if (sector <? index_sectors g) || (sector_count g <=? sector)
      then ret tt
      else
        r <- try_ (fffs_read_sector_serial (u16 sector)) ;;
        (match r with
         | inr serial =>
             mod_alloc (fun a =>
               if next_sector_serial a <=? serial then
                 let next := u32 (serial + 1) in
                 set_next_sector_serial (if next =? 0 then 1 else next) a
               else a)
         | inl _ => ret tt
         end) ;;
        let next := fffs_next_data_sector g sector in
        if next <=? sector then ret tt else recover_loop n' next
  end.

Definition recover_allocator_hint (head : Z) : M unit :=
  g <- get_geo ;;
  mod_alloc (set_alloc_cursor (fffs_next_data_sector g head)) ;;
  recover_loop (Z.to_nat (FFFS_ALLOC_RECOVERY_LOOKAHEAD + 1)) head.

(** One record of the replay.  The result is whether the sector ends here
    ([goto next_sector]) and the last head seen. *)
Definition replay_record (active : bool) (rec_off : Z) (chunk : list Z)
    (pos nread stop tail_head : Z) : M (bool * Z) :=
  g <- get_geo ;;
  let slot := load16_at chunk pos in
  let head := load16_at chunk (pos + 2) in
  if (slot =? UINT16_MAX) && (head =? UINT16_MAX) then
    when active (set_next_offset rec_off) ;;
    ret (true, tail_head)
  else if (slot =? 0) && (head =? 0) then
    when active (set_next_offset (rec_off + 4)) ;;
    ret (false, tail_head)
  else
    terminal <- (if active
                 then active_index_record_is_terminal rec_off chunk pos nread
                        stop
                 else ret false) ;;
    if (slot =? 0) || (slot =? UINT16_MAX) || (head =? UINT16_MAX) then
      clobber_or_reject_active_tail rec_off terminal ;;
      ret (true, tail_head)
    else if head =? 0 then
      index_remove slot ;;
      ret (false, tail_head)
    else if (head <? index_sectors g) || (sector_count g <=? head) then
      clobber_or_reject_active_tail rec_off terminal ;;
      ret (true, tail_head)
    else
      r <- (if terminal
            then try_ (fffs_read_file_root_md head slot false None)
            else ret (inr (mk_root_md (mk_stat [] 0) 0 0 0 0 0 None))) ;;
      match r with
      | inl _ =>
          clobber_or_reject_active_tail rec_off terminal ;;
          ret (true, tail_head)
      | inr _ =>
          index_insert slot head ;;
          ret (false, head)
      end.

Fixpoint replay_chunk (n : nat) (active : bool) (off : Z) (chunk : list Z)
    (pos nread stop tail_head : Z) : M (bool * Z) :=
  if negb (pos <? nread) then ret (false, tail_head)
  else match n with
       | O => diverge
       | S n' =>
           let* (next_sector, tail_head) :=
             replay_record active (off + pos) chunk pos nread stop tail_head
           in
           if next_sector then ret (true, tail_head)
           else replay_chunk n' active off chunk (pos + 4) nread stop tail_head
       end.

Fixpoint replay_sector (n : nat) (active : bool) (off stop tail_head : Z)
  : M Z :=
  if negb (off + 4 <=? stop) then ret tail_head
  else match n with
       | O => diverge
       | S n' =>
           g <- get_geo ;;
           let remaining := stop - off in
           let nread := if remaining <? scratch_size g then remaining
                        else scratch_size g in
           let nread := nread - nread mod 4 in
           chunk <- flash_read_scratch off nread ;;
           fffs_scratch_bump ;;
           let* (next_sector, tail_head) :=
             replay_chunk (Z.to_nat nread) active off chunk 0 nread stop
               tail_head in
           if next_sector then ret tail_head
           else
             when active (set_next_offset (off + nread)) ;;
             replay_sector n' active (off + nread) stop tail_head
       end.

Fixpoint replay_sectors (n : nat) (sector tail_head : Z) : M Z :=
  match n with
  | O => ret tail_head
  | S n' =>
      fs <- get_fs ;;
      let size := sector_size (fs_geo fs) in
      let active := sector =? active_index_sector (fs_log fs) in
      tail_head <- replay_sector (Z.to_nat size) active
                     (sector * size + FFFS_HEADER_SIZE) ((sector + 1) * size)
                     tail_head ;;
      let sector := sector + 1 in
      let sector := if index_sectors (fs_geo fs) <=? sector then 0
                    else sector in
      replay_sectors n' sector tail_head
  end.

Definition fffs_replay_index : M unit :=
  fs <- get_fs ;;
  set_next_offset
    (index_sector_begin fs (active_index_sector (fs_log fs))) ;;
  tail_head <- replay_sectors (Z.to_nat (index_sequence_count (fs_log fs)))
                 (oldest_index_sector (fs_log fs)) 0 ;;
  when (negb (tail_head =? 0)) (recover_allocator_hint tail_head).
End IndexLog.
