(* ===== verification/Journal.v ===== *)
(** * The contents of the journal as values

    Index-sector headers and records as they are written and read back, the
    journal of an index sector as a list of records, and the index map that a
    list of records stands for.  The operations of [IndexLog] are proved
    against them, over any index that keeps the [CachedIndex] contract. *)

From S2P Require Export IndexLog Resolve.

(** ** Headers *)

(** A committed header. *)
Definition index_header (count shift serial : Z) : list Z :=
  take 7 (index_header_bytes count shift serial) ++ [FFFS_INDEX_FLAGS_VALID].

Lemma header_byte5 count serial :
  2 <= count <= 15 -> 0 <= serial <= 15 ->
  let b := u8 (Z.lor (Z.shiftl count 4) (Z.land serial 0x0f)) in
  Z.shiftr b 4 = count /\ Z.land b 0x0f = serial.
Proof.
  intros Hc Hs b.
  assert (Hl : forall x, Z.land x 15 = x mod 16).
  { intros x. change 15 with (Z.ones 4). by rewrite Z.land_ones. }
  assert (Hb : b = serial + count * 2 ^ 4).
  { unfold b. rewrite Hl, Z.mod_small, Z.lor_comm, lor_shiftl by lia.
    apply u8_small. unfold is_u8. lia. }
  rewrite Hb, Hl, Z.shiftr_div_pow2 by lia. split.
  - rewrite Z.div_add by lia. rewrite Z.div_small by lia. lia.
  - change 16 with (2 ^ 4). rewrite Z_mod_plus_full. apply Z.mod_small. lia.
Qed.

Lemma valid_index_header count shift serial :
  2 <= count <= 15 -> 0 <= shift <= FFFS_MAX_SECTOR_SHIFT -> 0 <= serial <= 15 ->
  fffs_valid_index_header (index_header count shift serial) =
    Some (count, shift, serial).
Proof.
  intros Hc Hsh Hs. destruct (header_byte5 count serial Hc Hs) as [H1 H2].
  set (h := index_header count shift serial).
  assert (Hm : sublist 0 4 h = FFFS_INDEX_MAGIC) by done.
  assert (H4 : byte_at h 4 = 1) by done.
  assert (H5 : byte_at h 5 = u8 (Z.lor (Z.shiftl count 4) (Z.land serial 0x0f)))
    by done.
  assert (H6 : byte_at h 6 = shift) by done.
  assert (H7 : byte_at h 7 = 0x7f) by done.
  unfold fffs_valid_index_header. rewrite Hm, H4, H5, H6, H7.
  rewrite bool_decide_true by done. cbn [negb orb Z.eqb Z.land Pos.land Pos.eqb].
  rewrite H1, H2. simpl.
  destruct (Z.ltb_spec count 2), (Z.ltb_spec 15 count); simpl; try lia.
  destruct (Z.ltb_spec shift 0), (Z.ltb_spec 15 shift); simpl; done || lia.
Qed.

Lemma uncommitted_index_header count shift serial :
  fffs_valid_index_header (index_header_bytes count shift serial) = None.
Proof. done. Qed.

Lemma zlen_header_bytes count shift serial :
  zlen (index_header_bytes count shift serial) = 8.
Proof. done. Qed.

Lemma is_bytes_header count shift serial :
  0 <= shift <= FFFS_MAX_SECTOR_SHIFT ->
  is_bytes (index_header_bytes count shift serial).
Proof.
  intros Hs. unfold index_header_bytes, is_bytes. simpl.
  repeat constructor; unfold is_u8; try lia; apply is_u8_u8.
Qed.

(** ** Records *)

Definition record_bytes (slot head : Z) : list Z :=
  fffs_store_le16 slot ++ fffs_store_le16 head.

Definition record_at (m : Z -> Z) (off : Z) : Z * Z :=
  (fffs_load_le16 (mem_bytes m off 2), fffs_load_le16 (mem_bytes m (off + 2) 2)).

Lemma record_at_ext m m' off :
  (forall a, off <= a < off + 4 -> m a = m' a) -> record_at m off = record_at m' off.
Proof.
  intros Heq. unfold record_at.
  rewrite (mem_bytes_ext m m' off), (mem_bytes_ext m m' (off + 2)); try done;
    intros; apply Heq; lia.
Qed.

(** A record programmed over erased flash. *)
Lemma record_at_program m off slot head :
  erased_span m off 4 -> is_u16 slot -> is_u16 head ->
  record_at (mem_program m off (record_bytes slot head)) off = (slot, head).
Proof.
  intros He Hs Hh.
  assert (Hb : mem_bytes (mem_program m off (record_bytes slot head)) off 4 =
    record_bytes slot head).
  { apply (program_erased m off (record_bytes slot head)); [exact He |].
    apply Forall_app. split; apply is_bytes_store16. }
  unfold record_at.
  rewrite <- (sublist_mem_bytes _ off 4 2 2) by lia.
  replace (mem_bytes (mem_program m off (record_bytes slot head)) off 2) with
    (sublist 0 2 (mem_bytes (mem_program m off (record_bytes slot head)) off 4))
    by (rewrite sublist_mem_bytes by lia; f_equal; lia).
  rewrite Hb. change (sublist 0 2 _) with (fffs_store_le16 slot).
  change (sublist 2 2 _) with (fffs_store_le16 head).
  rewrite <- (app_nil_r (fffs_store_le16 slot)), <- (app_nil_r (fffs_store_le16 head)).
  by rewrite !load_store_le16 by done.
Qed.

Lemma record_at_erased m off :
  erased_span m off 4 -> record_at m off = (UINT16_MAX, UINT16_MAX).
Proof.
  intros He. unfold record_at, fffs_load_le16.
  rewrite !byte_at_mem_bytes by lia.
  by rewrite !He by lia.
Qed.

Section JournalWrite.
Context `{Backend} `{!NorFlash} `{!ValidBackend}.

Lemma wp_program_index_header off count shift serial Q E w :
  flash_ok w -> 0 <= off -> off + 8 <= be_size ->
  0 <= shift <= FFFS_MAX_SECTOR_SHIFT ->
  erased_span (mem w) off 8 ->
  (forall w', flash_is (mem w') w w' ->
     mem_bytes (mem w') off 8 = index_header count shift serial ->
     (forall a, ~ off <= a < off + 8 -> mem w' a = mem w a) -> Q tt w') ->
  wp (fffs_program_index_header off count shift serial) Q E w.
Proof.
  intros Hok Ho Hl Hs He HQ. unfold fffs_program_index_header.
  apply wp_bind, wp_program_aligned;
    [done | done | by rewrite zlen_header_bytes | by apply is_bytes_header |].
  intros w1 Hw1. apply wp_program_aligned;
    [apply Hw1 | lia | rewrite zlen_cons, zlen_nil; lia | |].
  { repeat constructor; unfold is_u8; lia. }
  intros w2 Hw2. apply HQ.
  - assert (Hw : flash_is (mem_program (mem w1) (off + 7) [127]) w w2)
      by by eapply flash_is_trans.
    destruct Hw. by split.
  - etransitivity; [apply mem_bytes_ext; intros; apply (fi_mem _ _ _ Hw2) |].
    rewrite mem_bytes_program by (rewrite ?zlen_cons, ?zlen_nil; lia).
    rewrite (mem_bytes_ext (mem w1) _ off 8) by (intros; apply (fi_mem _ _ _ Hw1)).
    rewrite <- (zlen_header_bytes count shift serial).
    rewrite program_erased; [reflexivity | exact He | by apply is_bytes_header].
  - intros a Ha. rewrite (fi_mem _ _ _ Hw2), mem_program_byte.
    destruct (Z.eqb_spec a (off + 7)); [lia |]. rewrite (fi_mem _ _ _ Hw1).
    apply mem_program_out. rewrite zlen_header_bytes. lia.
Qed.

Lemma wp_program_record off slot head Q E w :
  flash_ok w -> 0 <= off -> off + 4 <= be_size ->
  (forall w', flash_is (mem_program (mem w) off (record_bytes slot head)) w w' ->
     Q tt w') ->
  wp (program_index_record_at off slot head) Q E w.
Proof.
  intros Hok Ho Hl HQ. unfold program_index_record_at.
  apply wp_bind, wp_program_aligned;
    [done | done | rewrite zlen_store16; lia | apply is_bytes_store16 |].
  intros w1 Hw1. apply wp_program_aligned;
    [apply Hw1 | lia | rewrite zlen_store16; lia | apply is_bytes_store16 |].
  intros w2 Hw2. apply HQ. eapply flash_is_ext; [by eapply flash_is_trans |].
  intros a. unfold record_bytes. rewrite <- mem_program_app, zlen_store16.
  apply mem_program_ext, Hw1.
Qed.
End JournalWrite.

(** ** Journals as lists of records *)

(** The effect of a record on the index map. *)
Definition apply_record (idx : gmap Z Z) (r : Z * Z) : gmap Z Z :=
  let '(slot, head) := r in
  if (slot =? 0) && (head =? 0) then idx
  else if head =? 0 then delete slot idx
  else <[slot := head]> idx.

Definition replay_map (idx : gmap Z Z) (l : list (Z * Z)) : gmap Z Z :=
  foldl apply_record idx l.

(** A record adds at most one entry. *)
Lemma size_apply_record idx r : (size (apply_record idx r) <= S (size idx))%nat.
Proof.
  destruct r as [slot head]. unfold apply_record.
  destruct (_ && _); [lia |]. destruct (head =? 0).
  - rewrite map_size_delete. destruct (idx !! slot); simpl; lia.
  - rewrite map_size_insert. destruct (idx !! slot); simpl; lia.
Qed.

Lemma size_replay_map idx l :
  (size (replay_map idx l) <= size idx + length l)%nat.
Proof.
  revert idx. induction l as [| r l IH]; intros idx; [simpl; lia |].
  specialize (IH (apply_record idx r)). pose proof (size_apply_record idx r).
  cbn [length].
  change (replay_map idx (r :: l)) with (replay_map (apply_record idx r) l). lia.
Qed.

Definition record_erased (r : Z * Z) : bool :=
  (fst r =? UINT16_MAX) && (snd r =? UINT16_MAX).

(** At most [n] records from [off], up to the first erased one. *)
Fixpoint records_from (n : nat) (m : Z -> Z) (off : Z) : list (Z * Z) :=
  match n with
  | O => []
  | S n' => if record_erased (record_at m off) then []
            else record_at m off :: records_from n' m (off + 4)
  end.

Definition sector_journal (g : fs_geometry) (m : Z -> Z) (sector : Z)
  : list (Z * Z) :=
  records_from (Z.to_nat ((sector_size g - FFFS_HEADER_SIZE) / 4)) m
    (sector * sector_size g + FFFS_HEADER_SIZE).

(** The [n] sectors of a sequence, oldest first. *)
Fixpoint sequence_from (n : nat) (count sector : Z) : list Z :=
  match n with
  | O => []
  | S n' => sector ::
      sequence_from n' count (if count <=? sector + 1 then 0 else sector + 1)
  end.

Definition journal (g : fs_geometry) (m : Z -> Z) (l : fs_log_state)
  : list (Z * Z) :=
  List.concat (sector_journal g m <$>
    sequence_from (Z.to_nat (index_sequence_count l)) (index_sectors g)
      (oldest_index_sector l)).

Lemma records_from_app a b m off :
  records_from (a + b) m off =
  if (length (records_from a m off) <? a)%nat then records_from a m off
  else records_from a m off ++ records_from b m (off + 4 * Z.of_nat a).
Proof.
  revert off. induction a as [|a IH]; intros off.
  - simpl. by rewrite Z.add_0_r.
  - cbn [Nat.add records_from]. destruct (record_erased (record_at m off)); [done |].
    cbn [length]. rewrite IH.
    destruct (Nat.ltb_spec (length (records_from a m (off + 4))) a),
      (Nat.ltb_spec (S (length (records_from a m (off + 4)))) (S a)); try lia;
      [done |].
    simpl. do 3 f_equal. lia.
Qed.

Lemma length_records_from n m off : (length (records_from n m off) <= n)%nat.
Proof.
  revert off. induction n as [|n IH]; intros off; simpl; [lia |].
  destruct (record_erased _); simpl; [lia |]. specialize (IH (off + 4)). lia.
Qed.

Lemma records_from_erased n m off len :
  erased_span m off len -> 4 <= len -> records_from n m off = [].
Proof.
  intros He Hl. destruct n; [done |]. simpl.
  rewrite record_at_erased; [done |]. intros a Ha. apply He. lia.
Qed.

Lemma records_from_ext n m m' off :
  (forall a, m a = m' a) -> records_from n m off = records_from n m' off.
Proof.
  intros Heq. revert off. induction n as [|n IH]; intros off; [done |]. simpl.
  rewrite (record_at_ext m m') by auto. destruct (record_erased _); [done |].
  by rewrite IH.
Qed.

(** The records depend on their bytes. *)
Lemma records_from_local n m m' off :
  (forall a, off <= a < off + 4 * Z.of_nat n -> m' a = m a) ->
  records_from n m' off = records_from n m off.
Proof.
  revert off. induction n as [| n IH]; intros off Heq; [done |]. cbn [records_from].
  rewrite (record_at_ext m' m) by (intros; apply Heq; lia).
  destruct (record_erased _); [done |]. f_equal. apply IH. intros a Ha. apply Heq. lia.
Qed.

(** A record appended at the end of the records. *)
Lemma records_from_append n m off r l :
  records_from n m off = l -> (length l < n)%nat ->
  let pos := off + 4 * Z.of_nat (length l) in
  erased_span m pos 4 -> is_u16 (fst r) -> is_u16 (snd r) ->
  record_erased r = false ->
  ((length l + 1 < n)%nat -> erased_span m (pos + 4) 4) ->
  records_from n (mem_program m pos (record_bytes (fst r) (snd r))) off =
    l ++ [r].
Proof.
  revert off l. induction n as [|n IH]; intros off l Hl Hlen pos He H1 H2 Hr Hnext;
    [lia |].
  set (m' := mem_program m pos (record_bytes (fst r) (snd r))).
  assert (Hout : forall a, a < pos \/ pos + 4 <= a -> m' a = m a)
    by (intros; by apply mem_program_out).
  simpl in Hl. destruct (record_erased (record_at m off)) eqn:Hre.
  - subst l. cbn [length Z.of_nat] in *.
    assert (Hpos : pos = off) by (unfold pos; lia).
    assert (Hrec : record_at m' off = r).
    { unfold m'. rewrite Hpos. destruct r. apply record_at_program; try done.
      by rewrite <- Hpos. }
    cbn [records_from app]. rewrite Hrec, Hr. f_equal. destruct n as [|n]; [done |].
    apply (records_from_erased _ _ _ 4); [| lia].
    intros a Ha. rewrite Hout by lia. apply Hnext; lia.
  - destruct l as [| x l]; [done |]. injection Hl as Hx Hl. cbn [length] in *.
    assert (Hlt : off + 4 <= pos) by (unfold pos; lia).
    cbn [records_from app].
    rewrite (record_at_ext m' m) by (intros; apply Hout; lia).
    rewrite Hre, Hx. f_equal.
    assert (Hpos : pos = off + 4 + 4 * Z.of_nat (length l)) by (unfold pos; lia).
    unfold m'. rewrite Hpos in *. apply IH; try done; lia || auto.
    intros Hn. apply Hnext. lia.
Qed.

(** ** The position of the journal *)

Lemma sequence_from_closed n count sector :
  0 <= sector < count ->
  sequence_from n count sector =
    (fun i => (sector + Z.of_nat i) mod count) <$> seq 0 n.
Proof.
  revert sector. induction n as [|n IH]; intros sector Hs; [done |].
  cbn [sequence_from seq fmap list_fmap].
  rewrite Z.add_0_r, Z.mod_small by lia. f_equal.
  set (next := if count <=? sector + 1 then 0 else sector + 1).
  assert (Hn : 0 <= next < count)
    by (unfold next; destruct (Z.leb_spec count (sector + 1)); lia).
  rewrite IH by done. rewrite <- seq_shift, <- list_fmap_compose.
  apply list_fmap_ext. intros i x _. cbn [compose].
  unfold next. destruct (Z.leb_spec count (sector + 1)).
  - replace (sector + Z.of_nat (S x)) with (0 + Z.of_nat x + 1 * count) by lia.
    by rewrite Z_mod_plus_full.
  - f_equal. lia.
Qed.

Section LogOk.
Context `{Backend} (g : fs_geometry) `{!GeoOk g}.

(** The journal position agrees with the flash: the active sector ends the
    sequence, and its records end at the next offset, where the rest of the
    sector is erased. *)
Record log_ok (m : Z -> Z) (l : fs_log_state) : Prop := {
  lk_oldest : 0 <= oldest_index_sector l < index_sectors g;
  lk_count : 1 <= index_sequence_count l <= index_sectors g;
  lk_active : active_index_sector l =
    (oldest_index_sector l + index_sequence_count l - 1) mod index_sectors g;
  lk_next : next_index_offset l =
    active_index_sector l * sector_size g + FFFS_HEADER_SIZE +
    4 * zlen (sector_journal g m (active_index_sector l));
  lk_tail : erased_span m (next_index_offset l)
    ((active_index_sector l + 1) * sector_size g - next_index_offset l);
}.

Lemma sector_size_div4 : exists k, (sector_size g - 8) / 4 = k /\
  sector_size g = 4 * k + 8 /\ 62 <= k.
Proof.
  pose proof (sector_size_range (g := g)). pose proof (geo_shift (g := g)).
  assert (Hs : sector_size g = 4 * (64 * 2 ^ sector_shift g - 2) + 8)
    by (rewrite geo_sector_size, Z.shiftl_mul_pow2; lia).
  exists (64 * 2 ^ sector_shift g - 2). split; [| lia].
  rewrite Hs. rewrite Z.add_simpl_r, Z.mul_comm. by apply Z.div_mul.
Qed.

(** The slots of a sector for records. *)
Lemma sector_journal_bound m sector :
  4 * zlen (sector_journal g m sector) <= sector_size g - 8.
Proof.
  destruct sector_size_div4 as (k & Hk & Hsz & Hk62).
  unfold sector_journal, zlen. rewrite Hk.
  pose proof (length_records_from (Z.to_nat k) m (sector * sector_size g + 8)).
  lia.
Qed.

Lemma log_ok_range m l :
  log_ok m l ->
  0 <= active_index_sector l < index_sectors g /\
  active_index_sector l * sector_size g + 8 <= next_index_offset l <=
    (active_index_sector l + 1) * sector_size g.
Proof.
  intros Hl. pose proof (sector_journal_bound m (active_index_sector l)).
  pose proof (lk_next _ _ Hl). pose proof (zlen_nonneg (sector_journal g m (active_index_sector l))).
  pose proof (geo_index (g := g)).
  split; [| lia]. rewrite (lk_active _ _ Hl). apply Z.mod_pos_bound. lia.
Qed.

(** The sectors of the sequence before the active one. *)
Definition closed_sectors (l : fs_log_state) : list Z :=
  (fun i => (oldest_index_sector l + Z.of_nat i) mod index_sectors g) <$>
    seq 0 (Z.to_nat (index_sequence_count l - 1)).

Lemma journal_split m l :
  log_ok m l ->
  journal g m l =
    List.concat (sector_journal g m <$> closed_sectors l) ++
    sector_journal g m (active_index_sector l).
Proof.
  intros Hl. pose proof (lk_oldest _ _ Hl). pose proof (lk_count _ _ Hl).
  unfold journal, closed_sectors. rewrite sequence_from_closed by done.
  replace (Z.to_nat (index_sequence_count l)) with
    (Z.to_nat (index_sequence_count l - 1) + 1)%nat by lia.
  rewrite seq_app, !fmap_app, concat_app. f_equal. simpl.
  rewrite app_nil_r, (lk_active _ _ Hl). do 2 f_equal. lia.
Qed.

Lemma closed_sectors_other m l :
  log_ok m l -> Forall (fun s => 0 <= s < index_sectors g /\
    s <> active_index_sector l) (closed_sectors l).
Proof.
  intros Hl. pose proof (lk_oldest _ _ Hl). pose proof (lk_count _ _ Hl).
  pose proof (geo_index (g := g)).
  apply Forall_fmap, Forall_forall. intros i Hi. apply elem_of_seq in Hi.
  simpl. split; [apply Z.mod_pos_bound; lia |].
  rewrite (lk_active _ _ Hl). intros Heq.
  set (o := oldest_index_sector l) in *. set (n := index_sequence_count l) in *.
  assert (Hd : (o + n - 1 - (o + Z.of_nat i)) mod index_sectors g = 0).
  { rewrite Zminus_mod, <- Heq, Z.sub_diag. by apply Z.mod_0_l; lia. }
  rewrite Z.mod_small in Hd by lia. lia.
Qed.

(** The bytes of one sector's journal. *)
Lemma sector_journal_local m m' sector :
  (forall a, sector * sector_size g <= a < (sector + 1) * sector_size g ->
     m a = m' a) ->
  sector_journal g m sector = sector_journal g m' sector.
Proof.
  destruct sector_size_div4 as (k & Hk & Hsz & Hk62). intros Heq.
  unfold sector_journal. rewrite Hk.
  assert (Hgen : forall n off, sector * sector_size g <= off ->
    off + 4 * Z.of_nat n <= (sector + 1) * sector_size g ->
    records_from n m off = records_from n m' off).
  { induction n as [|n IH]; intros off H1 H2; [done |]. simpl.
    rewrite (record_at_ext m m') by (intros; apply Heq; lia).
    destruct (record_erased _); [done |]. f_equal. apply IH; lia. }
  apply Hgen; lia.
Qed.

(** A record that a client appends. *)
Definition record_proper (r : Z * Z) : Prop :=
  0 < fst r < UINT16_MAX /\ is_u16 (snd r).

(** A record programmed at the next offset extends the journal by it. *)
Lemma log_ok_program m m' l r :
  log_ok m l -> is_u16 (fst r) -> is_u16 (snd r) -> record_erased r = false ->
  next_index_offset l + 4 <= (active_index_sector l + 1) * sector_size g ->
  (forall a, m' a = mem_program m (next_index_offset l)
     (record_bytes (fst r) (snd r)) a) ->
  let l' := set_next_index_offset (next_index_offset l + 4) l in
  log_ok m' l' /\ journal g m' l' = journal g m l ++ [r].
Proof.
  intros Hl Hs Hh Hr Hroom Hm' l'.
  pose proof (log_ok_range m l Hl) as [Hact Hnext].
  destruct sector_size_div4 as (k & Hk & Hsz & Hk62).
  pose proof (sector_size_range (g := g)) as Hsize.
  pose proof (lk_next _ _ Hl) as Hn. pose proof (lk_tail _ _ Hl) as Ht.
  set (s := active_index_sector l) in *. set (p := next_index_offset l) in *.
  assert (Hout : forall a, a < p \/ p + 4 <= a -> m' a = m a)
    by (intros a Ha; rewrite Hm'; by apply mem_program_out).
  assert (Hj : sector_journal g m' s = sector_journal g m s ++ [r]).
  { unfold sector_journal in *. unfold zlen in Hn.
    rewrite (records_from_ext _ m' (mem_program m p (record_bytes (fst r) (snd r))))
      by done.
    rewrite Hk in *. rewrite Hn. apply records_from_append; try done.
    - lia.
    - rewrite <- Hn. intros a Ha. apply Ht. lia.
    - rewrite <- Hn. intros Hlt a Ha. apply Ht. lia. }
  assert (Hl' : log_ok m' l').
  { split; simpl; fold s p; try apply Hl.
    - rewrite Hj. unfold zlen in *. rewrite length_app. simpl. lia.
    - intros a Ha. rewrite Hout by lia. apply Ht. lia. }
  split; [done |]. rewrite (journal_split _ _ Hl), (journal_split _ _ Hl').
  simpl. fold s. rewrite Hj, app_assoc. do 2 f_equal.
  f_equal. apply list_fmap_ext. intros i x Hx.
  pose proof (closed_sectors_other _ _ Hl) as Hall.
  rewrite Forall_lookup in Hall. destruct (Hall i x Hx) as [Hxr Hxs]. fold s in Hxs.
  apply sector_journal_local. intros a Ha. apply Hout.
  destruct (Z.lt_ge_cases x s); [left; nia | right; nia].
Qed.

(** The record that a client appends. *)
Lemma log_ok_append m m' l r :
  log_ok m l -> record_proper r ->
  next_index_offset l + 4 <= (active_index_sector l + 1) * sector_size g ->
  (forall a, m' a = mem_program m (next_index_offset l)
     (record_bytes (fst r) (snd r)) a) ->
  let l' := set_next_index_offset (next_index_offset l + 4) l in
  log_ok m' l' /\ journal g m' l' = journal g m l ++ [r].
Proof.
  intros Hl [Hs Hh]. apply log_ok_program; [done | unfold is_u16; lia | done |].
  unfold record_erased. destruct (Z.eqb_spec (fst r) 65535); [lia | done].
Qed.
End LogOk.

(** ** Appending *)

Section Append.
Context `{Backend} `{!NorFlash} `{!ValidBackend} (g : fs_geometry) `{!GeoOk g}.
Context (I : IndexCache) `{!CachedIndex I}.

(** The index takes the record. *)
Definition index_takes (fs : fffs) (r : Z * Z) : Prop :=
  (size (idx_map fs) < idx_capacity (fs_geo fs))%nat \/
  (0 < snd r /\ is_Some (idx_map fs !! fst r)).

Lemma index_set_record slot head w :
  idx_ok (w_fs w) -> record_proper (slot, head) ->
  index_takes (w_fs w) (slot, head) ->
  exists w', index_set slot head w = (Ok tt, w') /\ index_step w w' /\
    idx_ok (w_fs w') /\
    idx_map (w_fs w') = apply_record (idx_map (w_fs w)) (slot, head).
Proof.
  intros Hok [Hs Hh] Ht. simpl in *. unfold is_u16 in Hh.
  replace (slot =? 0) with false by (symmetry; apply Z.eqb_neq; lia). simpl.
  destruct (Z.eqb_spec head 0) as [-> | Hne].
  - apply idx_unset; [done | lia | destruct Ht as [| [? _]]; done || (simpl in *; lia)].
  - apply idx_set; [done | lia | lia |].
    destruct Ht as [| [_ ?]]; [by left | by right].
Qed.

(** The state after an append that does not rotate. *)
Record appended (slot head : Z) (w w' : world) : Prop := {
  ap_ok : flash_ok w';
  ap_mem : forall a, mem w' a =
    mem_program (mem w) (next_index_offset (fs_log (w_fs w)))
      (record_bytes slot head) a;
  ap_fs : fs_less_index (w_fs w') = fs_less_index (set_fs_log
    (set_next_index_offset (next_index_offset (fs_log (w_fs w)) + 4)
       (fs_log (w_fs w))) (w_fs w));
  ap_files : w_files w' = w_files w;
  ap_idx : idx_ok (w_fs w');
  ap_map : idx_map (w_fs w') = apply_record (idx_map (w_fs w)) (slot, head);
}.

Lemma wp_append slot head Q E w :
  fs_geo (w_fs w) = g -> flash_ok w -> idx_ok (w_fs w) ->
  log_ok g (mem w) (fs_log (w_fs w)) ->
  active_sector_full (w_fs w) = false ->
  record_proper (slot, head) -> index_takes (w_fs w) (slot, head) ->
  (forall w', appended slot head w w' -> Q tt w') ->
  wp (fffs_append_index_record slot head) Q E w.
Proof.
  intros Hgeo Hok Hidx Hlog Hfull Hr Ht HQ.
  destruct (log_ok_range g _ _ Hlog) as [Hact Hnext].
  pose proof Hfull as Hroom. unfold active_sector_full in Hroom.
  rewrite Hgeo, Z.ltb_ge in Hroom.
  pose proof (geo_index (g := g)). pose proof (geo_count (g := g)).
  pose proof (sector_size_range (g := g)).
  destruct (sector_in_device (g := g) (active_index_sector (fs_log (w_fs w)))
    (next_index_offset (fs_log (w_fs w)) -
     active_index_sector (fs_log (w_fs w)) * sector_size g) 4) as [Hd1 Hd2];
    try lia.
  unfold fffs_append_index_record. apply wp_bind, wp_get_fs.
  apply wp_bind, wp_when; [congruence | intros _].
  apply wp_bind, wp_get_fs. apply wp_bind, wp_program_record; [done | lia | lia |].
  intros w1 Hw1. apply wp_bind, wp_mod_fs. rewrite (fi_fs _ _ _ Hw1).
  set (w2 := mk_world _ _ _).
  destruct (idx_ok_ext (w_fs w) (w_fs w2) Hidx eq_refl eq_refl eq_refl)
    as [Hok2 Hmap2].
  destruct (index_set_record slot head w2) as (w3 & Hrun & Hst & Hok3 & Hmap3);
    [done | done | |].
  { unfold index_takes. by rewrite Hmap2. }
  eapply returns_wp; [exact Hrun |]. apply HQ. split.
  - unfold flash_ok. rewrite (is_ctx _ _ Hst). apply Hw1.
  - intros a. unfold mem. rewrite (is_ctx _ _ Hst). apply Hw1.
  - by rewrite (is_fs _ _ Hst).
  - rewrite (is_files _ _ Hst). apply Hw1.
  - done.
  - by rewrite Hmap3, Hmap2.
Qed.

Lemma fs_less_index_log fs fs' :
  fs_less_index fs = fs_less_index fs' ->
  fs_geo fs = fs_geo fs' /\ fs_log fs = fs_log fs'.
Proof.
  intros Heq. split; [exact (f_equal fs_geo Heq) | exact (f_equal fs_log Heq)].
Qed.
End Append.

(** C13: the append of a journal record.  When the active index sector has room
    and the index takes the entry, [fffs_append_index_record] succeeds; the
    flash changes by exactly the record's four bytes, where the record reads
    back; the journal of the flash grows by exactly that record, the journal
    position still agrees with the flash, and an in-memory index that agreed
    with the journal still does. *)
Theorem append_extends_journal `{Backend} `{!NorFlash} `{!ValidBackend}
    (g : fs_geometry) `{!GeoOk g} (I : IndexCache) `{!CachedIndex I}
    (slot head : Z) (w : world) :
  fs_geo (w_fs w) = g -> flash_ok w -> idx_ok (w_fs w) ->
  log_ok g (mem w) (fs_log (w_fs w)) ->
  idx_map (w_fs w) = replay_map ∅ (journal g (mem w) (fs_log (w_fs w))) ->
  active_sector_full (w_fs w) = false ->
  record_proper (slot, head) -> index_takes I (w_fs w) (slot, head) ->
  exists w', fffs_append_index_record slot head w = (Ok tt, w') /\
    (forall a, mem w' a = mem_program (mem w)
       (next_index_offset (fs_log (w_fs w))) (record_bytes slot head) a) /\
    log_ok g (mem w') (fs_log (w_fs w')) /\
    journal g (mem w') (fs_log (w_fs w')) =
      journal g (mem w) (fs_log (w_fs w)) ++ [(slot, head)] /\
    idx_ok (w_fs w') /\
    idx_map (w_fs w') = replay_map ∅ (journal g (mem w') (fs_log (w_fs w'))).
Proof.
  intros Hgeo Hok Hidx Hlog Hmap Hfull Hr Ht.
  assert (Hwp : wp (fffs_append_index_record slot head)
    (fun _ w' => appended I slot head w w') (fun _ _ => False) w)
    by by apply (wp_append g I).
  apply wp_returns in Hwp as ([] & w' & Hrun & Hw').
  exists w'. split; [done |]. split; [apply Hw' |].
  pose proof (ap_fs _ _ _ _ _ Hw') as Hfs.
  apply fs_less_index_log in Hfs as [_ Hlg]. simpl in Hlg. rewrite Hlg.
  assert (Hroom : next_index_offset (fs_log (w_fs w)) + 4 <=
    (active_index_sector (fs_log (w_fs w)) + 1) * sector_size g).
  { unfold active_sector_full in Hfull. by rewrite Hgeo, Z.ltb_ge in Hfull. }
  destruct (log_ok_append g _ (mem w') _ (slot, head) Hlog Hr Hroom
    (ap_mem _ _ _ _ _ Hw')) as [Hl' Hj'].
  split; [done |]. split; [done |]. split; [apply Hw' |].
  rewrite Hj', (ap_map _ _ _ _ _ Hw'), Hmap. unfold replay_map.
  by rewrite foldl_app.
Qed.
