(* ===== verification/RotateSpec.v ===== *)
(** * Rotation of the namespace journal

    What [fffs_rotate_index] of [src/fffs_index_log.c] does to the journal: it
    opens the next index sector, moves the records of the oldest one that are
    still current into it when the sequence is at its longest, and leaves a
    journal that spells the same namespace. *)

From S2P Require Export Journal.

(** ** Compaction of a list of records *)

(** The records of the oldest sector that the copy loop keeps. *)
Definition still_current (idx : gmap Z Z) (r : Z * Z) : bool :=
  negb (snd r =? 0) && bool_decide (idx !! fst r = Some (snd r)).

Definition kept_records (idx : gmap Z Z) (l : list (Z * Z)) : list (Z * Z) :=
  List.filter (still_current idx) l.

(** The last word of a list of records on a slot. *)
Lemma replay_lookup l : forall idx slot, slot <> 0 ->
  ((forall head, (slot, head) ∉ l) /\ replay_map idx l !! slot = idx !! slot) \/
  exists head, (slot, head) ∈ l /\
    replay_map idx l !! slot = if head =? 0 then None else Some head.
Proof.
  induction l as [| [s h] l IH]; intros idx slot Hs.
  { left. split; [intros head; apply not_elem_of_nil | done]. }
  change (replay_map idx ((s, h) :: l)) with (replay_map (apply_record idx (s, h)) l).
  destruct (IH (apply_record idx (s, h)) slot Hs) as [[Hno Heq] | (head & Hin & Heq)].
  - rewrite Heq. unfold apply_record. destruct (decide (s = slot)) as [-> | Hne].
    + right. exists h. split; [by left |]. destruct (Z.eqb_spec slot 0); [done |].
      cbn [andb]. destruct (h =? 0); [apply lookup_delete_eq | apply lookup_insert_eq].
    + left. split.
      * intros head Hin. apply elem_of_cons in Hin as [[= -> ->] | Hin]; [done |].
        by apply (Hno head).
      * destruct (_ && _); [done |].
        destruct (h =? 0); [by apply lookup_delete_ne | by apply lookup_insert_ne].
  - right. exists head. split; [by right | done].
Qed.

(** A list that does not mention the slot says nothing about it, whatever comes
    before; a list that does, decides. *)
Lemma replay_decides l slot : slot <> 0 ->
  (forall idx, replay_map idx l !! slot = idx !! slot) \/
  (exists v, forall idx, replay_map idx l !! slot = v).
Proof.
  intros Hs. induction l as [| [s h] l IH] using rev_ind; [by left |].
  assert (Hr : forall idx, replay_map idx (l ++ [(s, h)]) =
    apply_record (replay_map idx l) (s, h))
    by (intros; unfold replay_map; by rewrite foldl_app).
  unfold apply_record in Hr. destruct (decide (s = slot)) as [-> | Hne].
  - right. destruct (Z.eqb_spec slot 0); [done |]. cbn [andb] in Hr.
    destruct (h =? 0).
    + exists None. intros idx. rewrite Hr. apply lookup_delete_eq.
    + exists (Some h). intros idx. rewrite Hr. apply lookup_insert_eq.
  - assert (Hk : forall idx, replay_map idx (l ++ [(s, h)]) !! slot =
      replay_map idx l !! slot).
    { intros idx. rewrite Hr. destruct (_ && _); [done |].
      destruct (h =? 0); [by apply lookup_delete_ne | by apply lookup_insert_ne]. }
    destruct IH as [IH | [v IH]]; [left | right; exists v]; intros idx; by rewrite Hk.
Qed.

(** A record that spells something, or a clobbered one. *)
Definition record_known (r : Z * Z) : Prop :=
  r = (0, 0) \/ (0 < fst r < UINT16_MAX /\ is_u16 (snd r)).

Definition slots_proper (l : list (Z * Z)) : Prop := Forall record_known l.

Lemma replay_zero l : slots_proper l -> forall idx : gmap Z Z, idx !! 0 = None ->
  replay_map idx l !! 0 = None.
Proof.
  induction 1 as [| [s h] l Hs Hl IH]; intros idx Hz; [done |].
  change (replay_map idx ((s, h) :: l)) with (replay_map (apply_record idx (s, h)) l).
  apply IH. destruct Hs as [[= -> ->] | [Hs _]]; [done |].
  unfold apply_record. cbn [fst] in Hs. destruct (_ && _); [done |].
  destruct (h =? 0); [rewrite lookup_delete_ne by lia | rewrite lookup_insert_ne by lia];
    done.
Qed.

(** Moving the current records of the oldest part behind the rest keeps the
    namespace. *)
Lemma replay_compact oldest rest idx :
  slots_proper oldest -> slots_proper rest ->
  idx = replay_map ∅ (oldest ++ rest) ->
  replay_map ∅ (rest ++ kept_records idx oldest) = idx.
Proof.
  intros Ho Hr Hidx.
  assert (Hk : slots_proper (kept_records idx oldest)).
  { unfold slots_proper in *. rewrite Forall_forall in *. intros x Hx.
    apply Ho, list_elem_of_In. apply list_elem_of_In, filter_In in Hx. apply Hx. }
  assert (Hcat : forall l1 l2 slot, replay_map ∅ (l1 ++ l2) !! slot =
    replay_map (replay_map ∅ l1) l2 !! slot)
    by (intros; unfold replay_map; by rewrite foldl_app).
  apply map_eq. intros slot. destruct (Z.eq_dec slot 0) as [-> | Hs].
  { assert (Hz : forall l, slots_proper l -> replay_map ∅ l !! 0 = None)
      by (intros l Hl; by apply replay_zero).
    rewrite Hidx at 2. rewrite (Hz (rest ++ _)), (Hz (oldest ++ _)); [done | |];
      by apply Forall_app. }
  rewrite Hcat.
  destruct (replay_lookup (kept_records idx oldest) (replay_map ∅ rest) slot Hs)
    as [[Hnk Heq] | (head & Hin & Heq)].
  2: { rewrite Heq. apply list_elem_of_In, filter_In in Hin as [_ Hc].
       unfold still_current in Hc. rewrite andb_true_iff, bool_decide_eq_true in Hc.
       cbn [fst snd] in Hc. destruct Hc as [Hh Hc]. apply negb_true_iff in Hh.
       by rewrite Hh, Hc. }
  rewrite Heq.
  destruct (replay_decides rest slot Hs) as [Hno | [v Hyes]];
    [| by rewrite Hidx, Hcat, !Hyes].
  assert (Hi : idx !! slot = replay_map ∅ oldest !! slot) by by rewrite Hidx, Hcat, Hno.
  rewrite Hi, Hno, lookup_empty.
  destruct (replay_lookup oldest ∅ slot Hs) as [[_ Hn] | (head & Hin & Hv)];
    [by rewrite Hn, lookup_empty |].
  rewrite Hv in *. destruct (Z.eqb_spec head 0) as [| Hh]; [done |]. exfalso.
  apply (Hnk head), list_elem_of_In, filter_In. split; [by apply list_elem_of_In |].
  unfold still_current. cbn [fst snd]. rewrite bool_decide_true by done.
  destruct (Z.eqb_spec head 0); done.
Qed.

(** ** The steps of the rotation *)

Section Rotate.
Context `{Backend} `{!NorFlash} `{!ValidBackend} (g : fs_geometry) `{!GeoOk g}
  `{!EraseUnit g}.
Context (I : IndexCache) `{!CachedIndex I}.
#[local] Abbreviation base s := (s * sector_size g).

(** The journal position depends on the record areas of the index sectors. *)
Lemma sector_journal_records m m' s :
  (forall a, base s + 8 <= a < base (s + 1) -> m' a = m a) ->
  sector_journal g m' s = sector_journal g m s.
Proof.
  destruct (sector_size_div4 g) as (k & Hk & Hsz & Hk62). intros Heq.
  unfold sector_journal. rewrite Hk. apply records_from_local.
  intros a Ha. apply Heq. lia.
Qed.

Lemma closed_range l s :
  s ∈ closed_sectors g l -> 0 <= s < index_sectors g.
Proof.
  pose proof (geo_index (g := g)). intros Hs.
  apply list_elem_of_fmap in Hs as (i & -> & _). apply Z.mod_pos_bound. lia.
Qed.

Lemma log_ok_records m m' l :
  (forall s a, 0 <= s < index_sectors g -> base s + 8 <= a < base (s + 1) ->
     m' a = m a) ->
  log_ok g m l -> log_ok g m' l /\ journal g m' l = journal g m l.
Proof.
  intros Heq Hl. destruct (log_ok_range g _ _ Hl) as [Ha Hn].
  assert (Hj : forall s, 0 <= s < index_sectors g ->
    sector_journal g m' s = sector_journal g m s)
    by (intros s Hs; apply sector_journal_records; intros a Har; by apply (Heq s)).
  assert (Hl' : log_ok g m' l).
  { split; try apply Hl.
    - rewrite Hj by done. apply Hl.
    - intros a Har. rewrite (Heq (active_index_sector l)) by lia.
      apply (lk_tail _ _ _ Hl). lia. }
  split; [done |]. rewrite (journal_split g _ _ Hl), (journal_split g _ _ Hl').
  rewrite Hj by done. do 2 f_equal. apply list_fmap_ext. intros i s Hs.
  apply Hj, (closed_range l). by apply list_elem_of_lookup_2 in Hs.
Qed.

(** The log once the next index sector was opened. *)
Definition rotated (l : fs_log_state) : fs_log_state :=
  let new_active := active_index_sector l + 1 in
  let new_active := if index_sectors g <=? new_active then 0 else new_active in
  mk_log (oldest_index_sector l) (index_sequence_count l + 1) new_active
    (new_active * sector_size g + FFFS_HEADER_SIZE)
    (u8 (Z.land (active_index_serial l + 1) 0x0f)).

Lemma rotated_log_ok m m' l :
  log_ok g m l -> index_sequence_count l < index_sectors g ->
  let s := active_index_sector (rotated l) in
  (forall a, m' a = mem_erase m (base s) (sector_size g) a) ->
  log_ok g m' (rotated l) /\ journal g m' (rotated l) = journal g m l /\
  sector_journal g m' s = [] /\ 0 <= s < index_sectors g.
Proof.
  intros Hl Hc s Hm. pose proof (geo_index (g := g)).
  pose proof (sector_size_range (g := g)).
  destruct (log_ok_range g _ _ Hl) as [Ha Hn].
  pose proof (lk_oldest _ _ _ Hl) as Ho. pose proof (lk_count _ _ _ Hl) as Hcnt.
  assert (Hs : s = (active_index_sector l + 1) mod index_sectors g).
  { unfold s, rotated. cbn [active_index_sector].
    destruct (Z.leb_spec (index_sectors g) (active_index_sector l + 1)).
    - replace (active_index_sector l + 1) with (0 + 1 * index_sectors g) by lia.
      rewrite Z_mod_plus_full. symmetry. apply Z.mod_small. lia.
    - symmetry. apply Z.mod_small. lia. }
  assert (Hsr : 0 <= s < index_sectors g) by (rewrite Hs; apply Z.mod_pos_bound; lia).
  assert (Her : forall a, base s <= a < base (s + 1) -> m' a = 0xff).
  { intros a Har. rewrite Hm. unfold mem_erase.
    destruct (Z.leb_spec (base s) a), (Z.ltb_spec a (base s + sector_size g));
      simpl; lia || done. }
  assert (Hj : sector_journal g m' s = []).
  { unfold sector_journal. apply (records_from_erased _ _ _ (sector_size g - 8)); [| lia].
    intros a Har. apply Her. lia. }
  assert (Hact : (oldest_index_sector l + index_sequence_count l) mod index_sectors g = s).
  { rewrite Hs, (lk_active _ _ _ Hl), Z.add_mod_idemp_l by lia. f_equal. lia. }
  assert (Hl' : log_ok g m' (rotated l)).
  { split; [done | cbn [rotated index_sequence_count]; lia | | |].
    - change (s = (oldest_index_sector l + (index_sequence_count l + 1) - 1)
        mod index_sectors g).
      rewrite <- Hact. f_equal. lia.
    - change (base s + 8 = base s + 8 + 4 * zlen (sector_journal g m' s)).
      rewrite Hj. change (zlen []) with 0. lia.
    - intros a Har. change (base s + 8 <= a < base s + 8 + ((s + 1) * sector_size g -
        (base s + 8))) in Har. apply Her. lia. }
  split; [done |]. split; [| done].
  rewrite (journal_split g _ _ Hl'). fold s. rewrite Hj, app_nil_r.
  unfold journal. rewrite sequence_from_closed by done.
  unfold closed_sectors. cbn [rotated oldest_index_sector index_sequence_count].
  replace (index_sequence_count l + 1 - 1) with (index_sequence_count l) by lia.
  f_equal. apply list_fmap_ext. intros i x Hx.
  apply list_lookup_fmap_Some in Hx as (j & Hj1 & Hj2).
  apply lookup_seq in Hj2 as [-> Hj2]. subst x.
  apply sector_journal_records. intros a Har. rewrite Hm. unfold mem_erase.
  set (x := (oldest_index_sector l + Z.of_nat (0 + i)) mod index_sectors g) in *.
  assert (Hne : x <> s).
  { intros Heq. rewrite <- Hact in Heq. unfold x in Heq.
    assert (Hd : (oldest_index_sector l + index_sequence_count l -
      (oldest_index_sector l + Z.of_nat (0 + i))) mod index_sectors g = 0).
    { rewrite Zminus_mod, Heq, Z.sub_diag. by apply Z.mod_0_l; lia. }
    rewrite Z.mod_small in Hd by lia. lia. }
  destruct (Z.leb_spec (base s) a), (Z.ltb_spec a (base s + sector_size g));
    simpl; try done.
  assert (x < s \/ s < x) as [Hlt | Hlt] by lia; nia.
Qed.

Lemma wp_rotate_begin w (Q : unit -> world -> Prop) E :
  fs_geo (w_fs w) = g -> flash_ok w ->
  log_ok g (mem w) (fs_log (w_fs w)) ->
  index_sequence_count (fs_log (w_fs w)) < index_sectors g ->
  (let l := rotated (fs_log (w_fs w)) in
   forall w', flash_ok w' ->
     (forall a, mem w' a =
        mem_erase (mem w) (base (active_index_sector l)) (sector_size g) a) ->
     w_fs w' = set_fs_log l (w_fs w) -> w_files w' = w_files w -> Q tt w') ->
  wp rotate_index_begin Q E w.
Proof.
  intros Hgeo Hok Hl Hc HQ.
  pose proof (geo_index (g := g)). pose proof (geo_count (g := g)).
  pose proof (sector_size_range (g := g)).
  assert (Hs : 0 <= active_index_sector (rotated (fs_log (w_fs w))) < index_sectors g).
  { destruct (log_ok_range g _ _ Hl) as [Ha _]. cbn [rotated active_index_sector].
    destruct (Z.leb_spec (index_sectors g) (active_index_sector (fs_log (w_fs w)) + 1));
      lia. }
  unfold rotate_index_begin. apply wp_bind, wp_get_fs. cbv zeta. rewrite Hgeo.
  set (s := if index_sectors g <=? _ then _ else _).
  change (active_index_sector (rotated (fs_log (w_fs w)))) with s in *.
  destruct (sector_in_device s 0 (sector_size g)) as [Hd1 Hd2]; [lia.. |].
  apply wp_bind, wp_backend_erase; [done | lia | lia | lia |
    apply (sectors_of_unit g) | apply (unit_sector (g := g)) |].
  intros w1 Hw1. apply wp_mod_fs, HQ; cbn [w_fs w_files].
  - apply Hw1.
  - apply Hw1.
  - rewrite (fi_fs _ _ _ Hw1). f_equal. unfold rotated. fold s.
    destruct (fs_log (w_fs w)) as [o n a nx se].
    cbn [set_active_index_sector set_active_index_serial set_next_index_offset
      index_sequence_count set_index_sequence_count oldest_index_sector
      active_index_sector next_index_offset active_index_serial] in *.
    destruct (Z.ltb_spec n (index_sectors g)); [done | lia].
  - apply Hw1.
Qed.

(** ** Reading the source sector *)

(** The reader's window holds bytes of the sector [src]. *)
Record reader_of (m : Z -> Z) (src : Z) (r : index_record_reader) : Prop := {
  ro_size : zlen (rr_window r) = FFFS_INDEX_COMPACT_OUTER_SCAN_SIZE;
  ro_len : 0 <= rr_window_len r <= FFFS_INDEX_COMPACT_OUTER_SCAN_SIZE;
  ro_in : rr_window_len r <> 0 -> base src <= rr_window_start r /\
    rr_window_start r + rr_window_len r <= base (src + 1);
  ro_bytes : forall i, 0 <= i < rr_window_len r ->
    byte_at (rr_window r) i = m (rr_window_start r + i);
}.

Lemma reader_of_ext m m' src r :
  (forall a, base src <= a < base (src + 1) -> m' a = m a) ->
  reader_of m src r -> reader_of m' src r.
Proof.
  intros Heq []. split; try done. intros i Hi. rewrite ro_bytes0 by done.
  symmetry. apply Heq. lia.
Qed.

(** The chunk that a load reads starts at a record and reaches past the one
    that was asked for. *)
Lemma load_bounds start stop rel :
  0 <= rel -> rel mod 4 = 0 -> (stop - start) mod 4 = 0 -> start + rel + 4 <= stop ->
  let b := start + rel - rel mod 64 in
  let n := Z.min 64 (stop - b) in
  start <= b <= start + rel /\ n mod 4 = 0 /\ start + rel + 4 <= b + n /\ b + n <= stop.
Proof.
  intros Hr0 Hr4 Hss Hle b n.
  pose proof (Z.mod_pos_bound rel 64 ltac:(lia)). pose proof (Z.mod_le rel 64 ltac:(lia)).
  assert (Hm4 : (rel mod 64) mod 4 = 0).
  { rewrite Z.mod_mod_divide; [done | by exists 16]. }
  pose proof (Z.div_mod (rel mod 64) 4 ltac:(lia)).
  pose proof (Z.div_mod rel 4 ltac:(lia)).
  pose proof (Z.div_mod (stop - start) 4 ltac:(lia)).
  assert (Hn : n mod 4 = 0).
  { unfold n, b. apply Z.min_case; [done |].
    replace (stop - (start + rel - rel mod 64)) with
      (0 + ((stop - start) / 4 - rel / 4 + (rel mod 64) / 4) * 4) by lia.
    by rewrite Z_mod_plus_full. }
  split; [unfold b; lia |]. split; [done |]. unfold n, b in *. lia.
Qed.

Lemma wp_reader_load src r off w (Q : index_record_reader -> world -> Prop) E :
  fs_geo (w_fs w) = g -> flash_ok w -> reader_of (mem w) src r ->
  0 <= src < index_sectors g -> src <> active_index_sector (fs_log (w_fs w)) ->
  base src + 8 <= off -> off + 4 <= base (src + 1) ->
  (off - (base src + 8)) mod 4 = 0 ->
  (forall w' r', flash_is (mem w) w w' -> reader_of (mem w) src r' ->
     rr_window_start r' <= off -> off + 4 <= rr_window_start r' + rr_window_len r' ->
     Q r' w') ->
  wp (index_record_reader_load r off) Q E w.
Proof.
  intros Hgeo Hok Hr Hsrc Hact Hlo Hhi Hmod HQ.
  pose proof (sector_size_range (g := g)). pose proof (geo_count (g := g)).
  pose proof (geo_index (g := g)).
  destruct (sector_size_div4 g) as (k & _ & Hsz & Hk).
  unfold index_record_reader_load.
  destruct (andb _ _) eqn:Hin.
  { rewrite andb_true_iff, !Z.leb_le in Hin. apply wp_ret, HQ; try lia || done. }
  apply wp_bind, wp_get_fs. cbv zeta. rewrite Hgeo.
  assert (Hdiv : off / sector_size g = src)
    by (symmetry; apply (Z.div_unique off _ src (off - base src)); lia).
  rewrite Hdiv. unfold index_sector_end. rewrite Hgeo.
  destruct (Z.eqb_spec src (active_index_sector (fs_log (w_fs w)))) as [Heq | _]; [done |].
  destruct (load_bounds (base src + 8) (base (src + 1)) (off - (base src + 8)))
    as (Hb & Hn4 & Hcov & Hend); [lia | done | | lia |].
  { replace (base (src + 1) - (base src + 8)) with (0 + k * 4) by lia.
    by rewrite Z_mod_plus_full. }
  change FFFS_INDEX_COMPACT_OUTER_SCAN_SIZE with 64.
  change FFFS_HEADER_SIZE with 8.
  set (b := base src + 8 + (off - (base src + 8)) - (off - (base src + 8)) mod 64) in *.
  destruct (sector_in_device src 0 (sector_size g)) as [Hd1 Hd2]; [lia.. |].
  assert (Husz : usz (base (src + 1) - b) = base (src + 1) - b)
    by (unfold usz; apply Z.mod_small; lia).
  rewrite Husz.
  assert (Hmin : (if 64 <? base (src + 1) - b then 64 else base (src + 1) - b) =
    Z.min 64 (base (src + 1) - b)) by (destruct (Z.ltb_spec 64 (base (src + 1) - b)); lia).
  rewrite Hmin. rewrite Hn4, Z.sub_0_r.
  set (nread := Z.min 64 (base (src + 1) - b)) in *.
  apply wp_bind, wp_guard; [intros Hlt%Z.ltb_lt; lia | intros _].
  apply wp_bind, wp_flash_read; [done | lia | lia | lia |].
  intros w' Hw'. apply wp_ret, HQ; [done | | cbn [rr_window_start rr_window_len]; lia..].
  pose proof (ro_size _ _ _ Hr) as Hsize.
  assert (Hzl : zlen (mem_bytes (mem w) b nread) = nread) by (apply zlen_mem_bytes; lia).
  change FFFS_INDEX_COMPACT_OUTER_SCAN_SIZE with 64 in *.
  split; cbn [rr_window rr_window_len rr_window_start].
  - rewrite zlen_splice; lia.
  - lia.
  - lia.
  - intros i Hi. rewrite byte_at_splice by lia. rewrite Hzl.
    destruct (Z.leb_spec 0 i), (Z.ltb_spec i (0 + nread)); simpl; try lia.
    rewrite byte_at_mem_bytes by lia. f_equal. lia.
Qed.

Lemma load16_window m (l : list Z) start len i :
  (forall j, 0 <= j < len -> byte_at l j = m (start + j)) -> 0 <= i -> i + 2 <= len ->
  load16_at l i = fffs_load_le16 (mem_bytes m (start + i) 2).
Proof.
  intros Hl Hi Hlen. unfold load16_at, fffs_load_le16.
  rewrite !byte_at_sublist, !byte_at_mem_bytes by lia. rewrite !Hl by lia.
  by rewrite !Z.add_assoc.
Qed.

Lemma wp_read_source r src off w
    (Q : Z * Z * bool * index_record_reader -> world -> Prop) E :
  fs_geo (w_fs w) = g -> flash_ok w -> reader_of (mem w) src r ->
  0 <= src < index_sectors g -> src <> active_index_sector (fs_log (w_fs w)) ->
  base src + 8 <= off -> off + 4 <= base (src + 1) ->
  (off - (base src + 8)) mod 4 = 0 ->
  (forall w' r', flash_is (mem w) w w' -> reader_of (mem w) src r' ->
     let rec := record_at (mem w) off in
     Q (fst rec, snd rec, record_erased rec, r') w') ->
  wp (read_compact_source_record r off) Q E w.
Proof.
  intros Hgeo Hok Hr Hsrc Hact Hlo Hhi Hmod HQ. unfold read_compact_source_record.
  apply wp_bind, (wp_reader_load src r); [done.. |].
  intros w' r' Hw' Hr' Hs Hl. pose proof (ro_bytes _ _ _ Hr') as Hb.
  assert (Hslot : load16_at (rr_window r') (off - rr_window_start r') =
    fst (record_at (mem w) off)).
  { rewrite (load16_window (mem w) _ _ _ _ Hb) by lia. cbn [fst record_at].
    do 2 f_equal. lia. }
  assert (Hhead : load16_at (rr_window r') (off - rr_window_start r' + 2) =
    snd (record_at (mem w) off)).
  { rewrite (load16_window (mem w) _ _ _ _ Hb) by lia. cbn [snd record_at].
    do 2 f_equal. lia. }
  rewrite Hslot, Hhead. apply wp_ret, (HQ w' r'); done.
Qed.

(** ** The copy loop *)

(** The state after [recs] were moved to the active sector. *)
Record copied (recs : list (Z * Z)) (w w' : world) : Prop := {
  cp_ok : flash_ok w';
  cp_log : log_ok g (mem w') (fs_log (w_fs w'));
  cp_journal : journal g (mem w') (fs_log (w_fs w')) =
    journal g (mem w) (fs_log (w_fs w)) ++ recs;
  cp_out : forall a, ~ (base (active_index_sector (fs_log (w_fs w))) + 8 <= a <
    base (active_index_sector (fs_log (w_fs w)) + 1)) -> mem w' a = mem w a;
  cp_fs : w_fs w' = set_fs_log
    (set_next_index_offset (next_index_offset (fs_log (w_fs w)) + 4 * zlen recs)
       (fs_log (w_fs w))) (w_fs w);
  cp_files : w_files w' = w_files w;
}.

Lemma copied_nil w w' :
  log_ok g (mem w) (fs_log (w_fs w)) -> flash_is (mem w) w w' -> copied [] w w'.
Proof.
  intros Hl Hw.
  destruct (log_ok_records (mem w) (mem w') (fs_log (w_fs w))) as [Hl' Hj];
    [intros; apply (fi_mem _ _ _ Hw) | done |].
  split; rewrite ?(fi_fs _ _ _ Hw); try done.
  - apply Hw.
  - by rewrite app_nil_r.
  - intros a _. apply (fi_mem _ _ _ Hw).
  - change (zlen []) with 0. rewrite Z.mul_0_r, Z.add_0_r.
    destruct (w_fs w) as [? [] ? ? ? ? ? ? ? ?]. done.
  - apply Hw.
Qed.

Lemma copied_trans l1 l2 w w1 w2 :
  copied l1 w w1 -> copied l2 w1 w2 -> copied (l1 ++ l2) w w2.
Proof.
  intros Hw Hw'. pose proof (cp_fs _ _ _ Hw) as Hfs.
  assert (Hlg : fs_log (w_fs w1) =
    set_next_index_offset (next_index_offset (fs_log (w_fs w)) + 4 * zlen l1)
      (fs_log (w_fs w))) by by rewrite Hfs.
  split; try apply Hw'.
  - by rewrite (cp_journal _ _ _ Hw'), (cp_journal _ _ _ Hw), app_assoc.
  - intros a Ha. rewrite (cp_out _ _ _ Hw') by by rewrite Hlg.
    by apply (cp_out _ _ _ Hw).
  - rewrite (cp_fs _ _ _ Hw'), Hfs, zlen_app.
    cbn [fs_log set_fs_log next_index_offset set_next_index_offset].
    rewrite Z.mul_add_distr_l, Z.add_assoc. done.
  - by rewrite (cp_files _ _ _ Hw'), (cp_files _ _ _ Hw).
Qed.

Lemma wp_writer_append slot head w Q E :
  fs_geo (w_fs w) = g -> flash_ok w ->
  log_ok g (mem w) (fs_log (w_fs w)) ->
  active_sector_full (w_fs w) = false -> record_proper (slot, head) ->
  (forall w', copied [(slot, head)] w w' -> Q (mk_record_writer [] 0 false) w') ->
  wp (index_record_writer_append (mk_record_writer [] 0 false) slot head) Q E w.
Proof.
  intros Hgeo Hok Hl Hfull Hr HQ. destruct (log_ok_range g _ _ Hl) as [Hact Hnext].
  pose proof Hfull as Hroom. unfold active_sector_full in Hroom.
  rewrite Hgeo, Z.ltb_ge in Hroom.
  pose proof (geo_index (g := g)). pose proof (geo_count (g := g)).
  pose proof (sector_size_range (g := g)).
  destruct (sector_in_device (g := g) (active_index_sector (fs_log (w_fs w)))
    (next_index_offset (fs_log (w_fs w)) -
     active_index_sector (fs_log (w_fs w)) * sector_size g) 4) as [Hd1 Hd2];
    try lia.
  unfold index_record_writer_append. apply wp_bind, wp_ret. apply wp_bind, wp_get_fs.
  rewrite Hfull. apply wp_bind, wp_ret. apply wp_bind, wp_get_fs.
  apply wp_bind, wp_program_record; [done | lia | lia |].
  intros w1 Hw1. apply wp_bind, wp_mod_fs, wp_ret, HQ.
  rewrite (fi_fs _ _ _ Hw1).
  destruct (log_ok_append g _ (mem w1) _ (slot, head) Hl Hr Hroom
    (fi_mem _ _ _ Hw1)) as [Hl' Hj'].
  split; cbn [w_fs w_files fs_log set_fs_log]; try done.
  - apply Hw1.
  - intros a Ha. change (mem w1 a = mem w a). rewrite (fi_mem _ _ _ Hw1).
    apply mem_program_out.
    change (zlen (record_bytes slot head)) with 4. lia.
  - apply Hw1.
Qed.

(** The records that fit before the end of the active sector. *)
Lemma not_full_room w n :
  fs_geo (w_fs w) = g ->
  next_index_offset (fs_log (w_fs w)) + 4 * Z.of_nat (S n) <=
    base (active_index_sector (fs_log (w_fs w)) + 1) ->
  active_sector_full (w_fs w) = false.
Proof.
  intros Hgeo Hroom. unfold active_sector_full. rewrite Hgeo. apply Z.ltb_ge. lia.
Qed.

Lemma copied_idx recs w w' :
  copied recs w w' -> idx_ok (w_fs w) ->
  idx_ok (w_fs w') /\ idx_map (w_fs w') = idx_map (w_fs w).
Proof.
  intros Hw Hi. rewrite (cp_fs _ _ _ Hw). by apply (idx_ok_ext (w_fs w)).
Qed.

(** Copying the rest of the source sector. *)
Lemma wp_copy_loop src n : forall fuel off r w Q E,
  fs_geo (w_fs w) = g -> flash_ok w -> idx_ok (w_fs w) ->
  log_ok g (mem w) (fs_log (w_fs w)) ->
  0 <= src < index_sectors g -> src <> active_index_sector (fs_log (w_fs w)) ->
  base src + 8 <= off -> off + 4 * Z.of_nat n = base (src + 1) ->
  (off - (base src + 8)) mod 4 = 0 ->
  reader_of (mem w) src r -> (n <= fuel)%nat ->
  slots_proper (records_from n (mem w) off) ->
  next_index_offset (fs_log (w_fs w)) + 4 * Z.of_nat n <=
    base (active_index_sector (fs_log (w_fs w)) + 1) ->
  (forall w', copied (kept_records (idx_map (w_fs w)) (records_from n (mem w) off)) w w' ->
     Q (mk_record_writer [] 0 false) w') ->
  wp (compact_copy_loop fuel off (base (src + 1)) r (mk_record_writer [] 0 false))
    Q E w.
Proof.
  pose proof (sector_size_range (g := g)).
  induction n as [| n IH];
    intros fuel off r w Q E Hgeo Hok Hi Hl Hsrc Hact Hlo Hend Hmod Hr Hfuel Hp Hroom HQ.
  { unfold compact_copy_loop. destruct fuel;
      (destruct (Z.leb_spec (off + 4) (base (src + 1))); [lia |]);
      apply wp_ret, HQ; by apply copied_nil. }
  destruct fuel as [| fuel]; [lia |]. cbn [compact_copy_loop].
  destruct (Z.leb_spec (off + 4) (base (src + 1))); [| lia]. cbn [negb].
  apply wp_bind, (wp_read_source r src); [done.. | lia | done |].
  intros w1 r1 Hw1 Hr1 rec. pose proof (fi_fs _ _ _ Hw1) as Hfs1.
  assert (Hrec1 : forall a, mem w1 a = mem w a) by apply Hw1.
  destruct (log_ok_records (mem w) (mem w1) (fs_log (w_fs w1))) as [Hl1 Hj1];
    [intros; apply Hrec1 | by rewrite Hfs1 |].
  cbn [records_from] in Hp, HQ. fold rec in Hp, HQ.
  destruct (record_erased rec) eqn:Her; [apply wp_ret, HQ; by apply copied_nil |].
  apply Forall_cons in Hp as [Hrec Hp].
  assert (Hcat : forall recs w2 w3, copied recs w1 w2 -> copied
      (kept_records (idx_map (w_fs w)) (records_from n (mem w) (off + 4))) w2 w3 ->
    still_current (idx_map (w_fs w)) rec = negb (bool_decide (recs = [])) ->
    recs = [] \/ recs = [rec] ->
    Q (mk_record_writer [] 0 false) w3).
  { intros recs w2 w3 Hc1 Hc2 Hsc Hrecs. apply HQ. unfold kept_records. cbn [List.filter].
    rewrite Hsc. fold (kept_records (idx_map (w_fs w)) (records_from n (mem w) (off + 4))).
    assert (Hc0 : copied [] w w1) by by apply copied_nil.
    pose proof (copied_trans _ _ _ _ _ Hc0 (copied_trans _ _ _ _ _ Hc1 Hc2)) as Hc.
    destruct Hrecs as [-> | ->]; exact Hc. }
  assert (Hnext : forall recs w2, copied recs w1 w2 ->
    still_current (idx_map (w_fs w)) rec = negb (bool_decide (recs = [])) ->
    recs = [] \/ recs = [rec] ->
    wp (compact_copy_loop fuel (off + 4) (base (src + 1)) r1
      (mk_record_writer [] 0 false)) Q E w2).
  { intros recs w2 Hc Hsc Hrecs. pose proof (cp_fs _ _ _ Hc) as Hfs2.
    destruct (copied_idx _ _ _ Hc) as [Hi2 Hm2]; [by rewrite Hfs1 |].
    assert (Hlen : 0 <= zlen recs <= 1)
      by (destruct Hrecs as [-> | ->]; [change (zlen (@nil (Z * Z))) with 0 |
            change (zlen [rec]) with 1]; lia).
    assert (Hsrcm : forall a, base src <= a < base (src + 1) -> mem w2 a = mem w a).
    { intros a Ha. rewrite <- Hrec1. apply (cp_out _ _ _ Hc). rewrite Hfs1.
      assert (src < active_index_sector (fs_log (w_fs w)) \/
        active_index_sector (fs_log (w_fs w)) < src) as [|] by lia; nia. }
    assert (Hrecs2 : records_from n (mem w2) (off + 4) =
      records_from n (mem w) (off + 4)).
    { apply records_from_local. intros a Ha. apply Hsrcm. lia. }
    apply IH; rewrite ?Hfs2, ?Hfs1; cbn [fs_geo fs_log set_fs_log next_index_offset
      active_index_sector set_next_index_offset]; try done; try lia.
    - apply Hc.
    - rewrite <- Hfs1, <- Hfs2. done.
    - rewrite <- Hfs1. pose proof (cp_log _ _ _ Hc) as Hl2. by rewrite Hfs2 in Hl2.
    - replace (off + 4 - (base src + 8)) with (off - (base src + 8) + 1 * 4) by lia.
      by rewrite Z_mod_plus_full.
    - eapply reader_of_ext; [exact Hsrcm |]. done.
    - by rewrite Hrecs2.
    - intros w3 Hc3. apply (Hcat recs w2 w3); try done.
      rewrite <- Hfs1, <- Hfs2, Hm2, Hrecs2, Hfs1 in Hc3. done. }
  assert (Hnil : copied [] w1 w1) by (apply copied_nil; [done | by split; try apply Hw1]).
  destruct (Z.eqb_spec (snd rec) 0) as [Hz | Hz].
  { rewrite orb_true_r. apply (Hnext [] w1); [done | | by left].
    unfold still_current. by rewrite Hz. }
  rewrite andb_false_r. cbn [orb].
  destruct Hrec as [Hzero | [Hslot Hhead]]; [by rewrite Hzero in Hz |].
  apply wp_bind. eapply returns_wp.
  { apply idx_current; [by rewrite Hfs1 | lia]. }
  rewrite Hfs1. destruct (bool_decide _) eqn:Hcur; cbn [negb].
  - apply wp_bind, wp_writer_append; rewrite ?Hfs1; try done.
    + apply Hw1.
    + by rewrite <- Hfs1.
    + apply (not_full_room w n); done.
    + intros w2 Hw2. apply (Hnext [rec] w2); [by destruct rec | | by right].
      unfold still_current. rewrite Hcur. destruct (Z.eqb_spec (snd rec) 0); done.
  - apply (Hnext [] w1); [done | | by left]. unfold still_current.
    rewrite Hcur. by rewrite andb_false_r.
Qed.

Lemma sector_journal_slots m s :
  sector_journal g m s =
    records_from (Z.to_nat ((sector_size g - 8) / 4)) m (base s + 8).
Proof. done. Qed.

(** The oldest sector leaves the sequence. *)
Definition without_oldest (l : fs_log_state) : fs_log_state :=
  set_index_sequence_count (index_sequence_count l - 1)
    (set_oldest_index_sector ((oldest_index_sector l + 1) mod index_sectors g) l).

Lemma drop_oldest m l :
  log_ok g m l -> 2 <= index_sequence_count l ->
  log_ok g m (without_oldest l) /\
  journal g m l =
    sector_journal g m (oldest_index_sector l) ++ journal g m (without_oldest l).
Proof.
  intros Hl Hc. pose proof (geo_index (g := g)). pose proof (lk_oldest _ _ _ Hl) as Ho.
  pose proof (lk_count _ _ _ Hl). unfold without_oldest. split.
  - split; cbn [oldest_index_sector index_sequence_count active_index_sector
      next_index_offset set_oldest_index_sector set_index_sequence_count];
      try apply Hl; try lia.
    + apply Z.mod_pos_bound. lia.
    + rewrite (lk_active _ _ _ Hl).
      replace ((oldest_index_sector l + 1) mod index_sectors g +
        (index_sequence_count l - 1) - 1) with
        ((oldest_index_sector l + 1) mod index_sectors g + (index_sequence_count l - 2))
        by lia.
      rewrite Z.add_mod_idemp_l by lia. f_equal. lia.
  - unfold journal. cbn [oldest_index_sector index_sequence_count
      set_oldest_index_sector set_index_sequence_count].
    replace (Z.to_nat (index_sequence_count l)) with
      (S (Z.to_nat (index_sequence_count l - 1))) by lia.
    cbn [sequence_from fmap list_fmap List.concat]. do 4 f_equal.
    destruct (Z.leb_spec (index_sectors g) (oldest_index_sector l + 1)).
    + replace (oldest_index_sector l + 1) with (0 + 1 * index_sectors g) by lia.
      rewrite Z_mod_plus_full. symmetry. apply Z.mod_small. lia.
    + symmetry. apply Z.mod_small. lia.
Qed.

(** The current records of the oldest sector, in the new sector. *)
Lemma wp_compact_copy w (Q : option Z -> world -> Prop) E :
  fs_geo (w_fs w) = g -> flash_ok w -> idx_ok (w_fs w) ->
  log_ok g (mem w) (fs_log (w_fs w)) -> 2 <= index_sequence_count (fs_log (w_fs w)) ->
  slots_proper (journal g (mem w) (fs_log (w_fs w))) ->
  sector_journal g (mem w) (active_index_sector (fs_log (w_fs w))) = [] ->
  (let old := oldest_index_sector (fs_log (w_fs w)) in
   forall w', copied (kept_records (idx_map (w_fs w)) (sector_journal g (mem w) old)) w w' ->
     Q (Some old) w') ->
  wp index_compact_oldest_copy Q E w.
Proof.
  intros Hgeo Hok Hi Hl Hc Hp He HQ. destruct (log_ok_range g _ _ Hl) as [Hact Hnext].
  destruct (sector_size_div4 g) as (k & Hk & Hsz & Hk62).
  pose proof (lk_oldest _ _ _ Hl) as Ho. pose proof (lk_count _ _ _ Hl).
  pose proof (lk_next _ _ _ Hl) as Hn. rewrite He in Hn. change (zlen []) with 0 in Hn.
  assert (Hne : oldest_index_sector (fs_log (w_fs w)) <>
    active_index_sector (fs_log (w_fs w))).
  { pose proof (closed_sectors_other g _ _ Hl) as Hall. rewrite Forall_forall in Hall.
    apply (Hall (oldest_index_sector (fs_log (w_fs w)))). unfold closed_sectors.
    apply list_elem_of_fmap. exists 0%nat. split.
    - rewrite Z.add_0_r. symmetry. by apply Z.mod_small.
    - apply elem_of_seq. lia. }
  destruct (drop_oldest _ _ Hl Hc) as [_ Hj]. rewrite Hj in Hp.
  apply Forall_app in Hp as [Hp _].
  unfold index_compact_oldest_copy. apply wp_bind, wp_get_fs.
  destruct (Z.leb_spec (index_sequence_count (fs_log (w_fs w))) 1); [lia |].
  cbv zeta in *. unfold index_sector_begin, index_sector_end. rewrite Hgeo.
  destruct (Z.eqb_spec (oldest_index_sector (fs_log (w_fs w)))
    (active_index_sector (fs_log (w_fs w)))) as [| _]; [done |].
  set (old := oldest_index_sector (fs_log (w_fs w))) in *.
  rewrite sector_journal_slots, Hk in Hp, HQ.
  apply wp_bind. change FFFS_HEADER_SIZE with 8.
  apply (wp_copy_loop old (Z.to_nat k)); try done; try lia.
  - by rewrite Z.sub_diag.
  - split; cbn [rr_window rr_window_start rr_window_len]; intros; done || lia.
Qed.

(** ** The header of the new sector and of the dropped one *)

(** The state after the change of an index header. *)
Record header_step (s : Z) (w w' : world) : Prop := {
  hd_ok : flash_ok w';
  hd_out : forall a, ~ base s <= a < base s + 8 -> mem w' a = mem w a;
  hd_fs : w_fs w' = w_fs w;
  hd_files : w_files w' = w_files w;
}.

Lemma header_step_log s w w' l :
  header_step s w w' -> 0 <= s < index_sectors g -> log_ok g (mem w) l ->
  log_ok g (mem w') l /\ journal g (mem w') l = journal g (mem w) l.
Proof.
  intros Hw Hs. apply log_ok_records. intros s' a Hs' Ha.
  pose proof (sector_size_range (g := g)).
  apply (hd_out _ _ _ Hw). assert (s' < s \/ s' = s \/ s < s') as [|[|]] by lia; nia.
Qed.

Lemma wp_rotate_commit w Q E :
  let s := active_index_sector (fs_log (w_fs w)) in
  fs_geo (w_fs w) = g -> flash_ok w -> 0 <= s < index_sectors g ->
  erased_span (mem w) (base s) 8 ->
  (forall w', header_step s w w' ->
     mem_bytes (mem w') (base s) 8 =
       index_header (index_sectors g) (sector_shift g)
         (active_index_serial (fs_log (w_fs w))) -> Q tt w') ->
  wp rotate_index_commit Q E w.
Proof.
  intros s Hgeo Hok Hs He HQ. pose proof (sector_size_range (g := g)).
  pose proof (geo_count (g := g)). pose proof (geo_shift (g := g)).
  destruct (sector_in_device s 0 (sector_size g)) as [Hd1 Hd2]; [lia.. |].
  unfold rotate_index_commit. apply wp_bind, wp_get_fs. rewrite Hgeo. fold s.
  apply wp_program_index_header; [done | lia | lia | lia | done |].
  intros w' Hw' Hb Hout. apply HQ; [| done]. split; try apply Hw'. done.
Qed.

Lemma wp_tombstone_index s w Q E :
  fs_geo (w_fs w) = g -> flash_ok w -> 0 <= s < index_sectors g ->
  (forall w', header_step s w w' -> Q tt w') ->
  wp (tombstone_index_sector s) Q E w.
Proof.
  intros Hgeo Hok Hs HQ. pose proof (sector_size_range (g := g)).
  pose proof (geo_count (g := g)).
  destruct (sector_in_device s 0 (sector_size g)) as [Hd1 Hd2]; [lia.. |].
  unfold tombstone_index_sector. apply wp_bind, wp_get_geo. rewrite Hgeo.
  set (b := [Z.land _ _]). assert (Hb : zlen b = 1) by done.
  apply wp_program_aligned; [done | lia | lia | |].
  { apply Forall_singleton. by vm_compute. }
  intros w' Hw'. apply HQ. split; try apply Hw'.
  intros a Ha. rewrite (fi_mem _ _ _ Hw'). apply mem_program_out. lia.
Qed.

(** ** The whole rotation *)

(** The records that the rotation moves to the new sector. *)
Definition moved_records (w : world) : list (Z * Z) :=
  let l := fs_log (w_fs w) in
  if index_sequence_count l + 1 =? index_sectors g
  then kept_records (idx_map (w_fs w))
         (sector_journal g (mem w) (oldest_index_sector l))
  else [].

Record rotation (w w' : world) : Prop := {
  rt_ok : flash_ok w';
  rt_log : log_ok g (mem w') (fs_log (w_fs w'));
  rt_short : index_sequence_count (fs_log (w_fs w')) < index_sectors g;
  rt_proper : slots_proper (journal g (mem w') (fs_log (w_fs w')));
  rt_replay : replay_map ∅ (journal g (mem w') (fs_log (w_fs w'))) = idx_map (w_fs w);
  rt_active : active_index_sector (fs_log (w_fs w')) =
    active_index_sector (rotated (fs_log (w_fs w)));
  rt_serial : active_index_serial (fs_log (w_fs w')) =
    (active_index_serial (fs_log (w_fs w)) + 1) mod 16;
  rt_next : next_index_offset (fs_log (w_fs w')) =
    base (active_index_sector (fs_log (w_fs w'))) + 8 + 4 * zlen (moved_records w);
  rt_header : mem_bytes (mem w') (base (active_index_sector (fs_log (w_fs w')))) 8 =
    index_header (index_sectors g) (sector_shift g)
      (active_index_serial (fs_log (w_fs w')));
  rt_out : forall a, base (index_sectors g) <= a -> mem w' a = mem w a;
  rt_fs : w_fs w' = set_fs_log (fs_log (w_fs w')) (w_fs w);
  rt_files : w_files w' = w_files w;
}.

Lemma index_sector_below s a :
  0 <= s < index_sectors g -> base (index_sectors g) <= a -> base (s + 1) <= a.
Proof. pose proof (sector_size_range (g := g)). nia. Qed.

Lemma u8_serial x : u8 (Z.land x 0x0f) = x mod 16.
Proof.
  change 15 with (Z.ones 4). rewrite Z.land_ones by lia. change (2 ^ 4) with 16.
  pose proof (Z.mod_pos_bound x 16 ltac:(lia)). apply u8_small. unfold is_u8. lia.
Qed.

Lemma header_differs s s' w w' :
  header_step s w w' -> s <> s' ->
  mem_bytes (mem w') (base s') 8 = mem_bytes (mem w) (base s') 8.
Proof.
  intros Hw Hne. pose proof (sector_size_range (g := g)). apply mem_bytes_ext.
  intros a Ha. apply (hd_out _ _ _ Hw).
  assert (s < s' \/ s' < s) as [|] by lia; nia.
Qed.

(** The erased header of the sector that the rotation opened. *)
Lemma begun_header w w1 :
  log_ok g (mem w) (fs_log (w_fs w)) ->
  (forall a, mem w1 a = mem_erase (mem w)
     (base (active_index_sector (rotated (fs_log (w_fs w))))) (sector_size g) a) ->
  erased_span (mem w1) (base (active_index_sector (rotated (fs_log (w_fs w))))) 8.
Proof.
  intros Hl Hm a Ha. pose proof (sector_size_range (g := g)). rewrite Hm. unfold mem_erase.
  destruct (Z.leb_spec (base (active_index_sector (rotated (fs_log (w_fs w))))) a),
    (Z.ltb_spec a (base (active_index_sector (rotated (fs_log (w_fs w)))) + sector_size g));
    simpl; done || lia.
Qed.

Lemma begun_out w w1 a :
  log_ok g (mem w) (fs_log (w_fs w)) -> base (index_sectors g) <= a ->
  (forall a, mem w1 a = mem_erase (mem w)
     (base (active_index_sector (rotated (fs_log (w_fs w))))) (sector_size g) a) ->
  0 <= active_index_sector (rotated (fs_log (w_fs w))) < index_sectors g ->
  mem w1 a = mem w a.
Proof.
  intros Hl Ha Hm Hs. pose proof (index_sector_below _ _ Hs Ha). rewrite Hm.
  unfold mem_erase.
  destruct (Z.ltb_spec a (base (active_index_sector (rotated (fs_log (w_fs w)))) +
    sector_size g)); [lia |]. by rewrite andb_false_r.
Qed.

(** Without compaction. *)
Lemma wp_rotate_short w (Q : unit -> world -> Prop) E :
  fs_geo (w_fs w) = g -> flash_ok w -> log_ok g (mem w) (fs_log (w_fs w)) ->
  slots_proper (journal g (mem w) (fs_log (w_fs w))) ->
  idx_map (w_fs w) = replay_map ∅ (journal g (mem w) (fs_log (w_fs w))) ->
  index_sequence_count (fs_log (w_fs w)) + 1 < index_sectors g ->
  (forall w', rotation w w' -> Q tt w') -> wp fffs_rotate_index Q E w.
Proof.
  intros Hgeo Hok Hl Hp Hmap Hc HQ. unfold fffs_rotate_index.
  apply wp_bind, wp_rotate_begin; [done | done | done | lia |].
  intros l w1 Hok1 Hm1 Hfs1 Hfi1.
  destruct (rotated_log_ok _ (mem w1) _ Hl ltac:(lia) Hm1) as (Hl1 & Hj1 & He1 & Hs).
  fold l in Hl1, Hj1, He1, Hs. pose proof (begun_header w w1 Hl Hm1) as Hh. fold l in Hh.
  apply wp_bind, wp_get_fs. rewrite Hfs1. cbn [fs_log set_fs_log fs_geo]. rewrite Hgeo.
  assert (Hcl : index_sequence_count l = index_sequence_count (fs_log (w_fs w)) + 1)
    by done.
  destruct (Z.eqb_spec (index_sequence_count l) (index_sectors g)); [lia |].
  apply wp_rotate_commit; rewrite ?Hfs1; try done.
  cbn [fs_log set_fs_log]. intros w2 Hw2 Hb2. apply HQ.
  destruct (header_step_log _ _ _ l Hw2 Hs Hl1) as [Hl2 Hj2].
  assert (Hlog : fs_log (w_fs w2) = l) by by rewrite (hd_fs _ _ _ Hw2), Hfs1.
  split; rewrite ?Hlog; try done.
  - apply Hw2.
  - by rewrite Hj2, Hj1.
  - by rewrite Hj2, Hj1.
  - apply u8_serial.
  - unfold moved_records. destruct (Z.eqb_spec (index_sequence_count (fs_log (w_fs w)) + 1)
      (index_sectors g)); [lia |]. change (zlen []) with 0. by rewrite Z.mul_0_r, Z.add_0_r.
  - intros a Ha. rewrite (hd_out _ _ _ Hw2); [by apply begun_out |].
    pose proof (index_sector_below _ _ Hs Ha). pose proof (sector_size_range (g := g)). lia.
  - rewrite (hd_fs _ _ _ Hw2), Hfs1. done.
  - by rewrite (hd_files _ _ _ Hw2), Hfi1.
Qed.

Lemma slots_proper_app l1 l2 :
  slots_proper (l1 ++ l2) <-> slots_proper l1 /\ slots_proper l2.
Proof. apply Forall_app. Qed.

Lemma slots_proper_kept idx l : slots_proper l -> slots_proper (kept_records idx l).
Proof.
  unfold slots_proper. rewrite !Forall_forall. intros Hl x Hx.
  apply list_elem_of_In, filter_In in Hx as [Hx _]. apply Hl. by apply list_elem_of_In.
Qed.

(** The state before the two header writes of a rotation with compaction. *)
Record compacted (w w2 : world) : Prop := {
  ct_ok : flash_ok w2;
  ct_log : log_ok g (mem w2) (fs_log (w_fs w2));
  ct_journal : journal g (mem w2) (fs_log (w_fs w2)) =
    journal g (mem w) (fs_log (w_fs w)) ++ moved_records w;
  ct_erased : erased_span (mem w2) (base (active_index_sector (fs_log (w_fs w2)))) 8;
  ct_oldest : sector_journal g (mem w2) (oldest_index_sector (fs_log (w_fs w2))) =
    sector_journal g (mem w) (oldest_index_sector (fs_log (w_fs w)));
  ct_fs : w_fs w2 = set_fs_log (set_next_index_offset
    (next_index_offset (rotated (fs_log (w_fs w))) + 4 * zlen (moved_records w))
    (rotated (fs_log (w_fs w)))) (w_fs w);
  ct_data : forall a, base (index_sectors g) <= a -> mem w2 a = mem w a;
  ct_files : w_files w2 = w_files w;
}.

(** The oldest sector is not the one that the rotation opens. *)
Lemma oldest_not_rotated m l :
  log_ok g m l -> index_sequence_count l < index_sectors g ->
  oldest_index_sector l <> active_index_sector (rotated l).
Proof.
  intros Hl Hc. pose proof (lk_oldest _ _ _ Hl). pose proof (lk_count _ _ _ Hl).
  pose proof (lk_active _ _ _ Hl) as Ha. cbn [rotated active_index_sector].
  destruct (log_ok_range g _ _ Hl) as [Har _].
  destruct (Z.lt_ge_cases (oldest_index_sector l + index_sequence_count l - 1)
    (index_sectors g)).
  - rewrite Z.mod_small in Ha by lia.
    destruct (Z.leb_spec (index_sectors g) (active_index_sector l + 1)); lia.
  - replace (oldest_index_sector l + index_sequence_count l - 1) with
      (oldest_index_sector l + index_sequence_count l - 1 - index_sectors g +
        1 * index_sectors g) in Ha by lia.
    rewrite Z_mod_plus_full, Z.mod_small in Ha by lia.
    destruct (Z.leb_spec (index_sectors g) (active_index_sector l + 1)); lia.
Qed.

Lemma wp_begin_copy w (Q : option Z -> world -> Prop) E :
  fs_geo (w_fs w) = g -> flash_ok w -> idx_ok (w_fs w) ->
  log_ok g (mem w) (fs_log (w_fs w)) ->
  slots_proper (journal g (mem w) (fs_log (w_fs w))) ->
  index_sequence_count (fs_log (w_fs w)) + 1 = index_sectors g ->
  (forall w', compacted w w' -> Q (Some (oldest_index_sector (fs_log (w_fs w)))) w') ->
  wp rotate_index_begin (fun _ w1 =>
    (index_sequence_count (fs_log (w_fs w1)) =? index_sectors (fs_geo (w_fs w1))) = true
    /\ wp index_compact_oldest_copy Q E w1) E w.
Proof.
  intros Hgeo Hok Hi Hl Hp Hc HQ. pose proof (geo_index (g := g)).
  apply wp_rotate_begin; [done | done | done | lia |].
  intros l w1 Hok1 Hm1 Hfs1 Hfi1.
  destruct (rotated_log_ok _ (mem w1) _ Hl ltac:(lia) Hm1) as (Hl1 & Hj1 & He1 & Hs).
  pose proof (begun_header w w1 Hl Hm1) as Hh.
  pose proof (oldest_not_rotated _ _ Hl ltac:(lia)) as Hold.
  fold l in Hl1, Hj1, He1, Hs, Hh, Hold, Hm1.
  assert (Hlog1 : fs_log (w_fs w1) = l) by by rewrite Hfs1.
  assert (Hcl : index_sequence_count l = index_sequence_count (fs_log (w_fs w)) + 1)
    by done.
  assert (Hol : oldest_index_sector l = oldest_index_sector (fs_log (w_fs w))) by done.
  split.
  { rewrite Hlog1, Hfs1. cbn [set_fs_log fs_geo]. by rewrite Hgeo, Hcl, Hc, Z.eqb_refl. }
  destruct (idx_ok_ext (w_fs w) (w_fs w1) Hi) as [Hi1 Him1]; [by rewrite Hfs1..|].
  assert (Hsj : forall m, (forall a, ~ base (active_index_sector l) <= a <
        base (active_index_sector l + 1) -> m a = mem w a) ->
      sector_journal g m (oldest_index_sector l) =
      sector_journal g (mem w) (oldest_index_sector (fs_log (w_fs w)))).
  { intros m Hm. rewrite Hol. apply (sector_journal_local g). intros a Ha. apply Hm.
    pose proof (sector_size_range (g := g)).
    assert (active_index_sector l < oldest_index_sector (fs_log (w_fs w)) \/
      oldest_index_sector (fs_log (w_fs w)) < active_index_sector l) as [|] by lia; nia. }
  assert (Hout1 : forall a, ~ base (active_index_sector l) <= a <
    base (active_index_sector l + 1) -> mem w1 a = mem w a).
  { intros a Ha. rewrite Hm1. unfold mem_erase.
    destruct (Z.leb_spec (base (active_index_sector l)) a),
      (Z.ltb_spec a (base (active_index_sector l) + sector_size g)); simpl; done || lia. }
  apply wp_compact_copy; rewrite ?Hlog1; try done; try lia.
  { by rewrite Hfs1. }
  { by rewrite Hj1. }
  intros old w2. unfold old. clear old. rewrite Hsj, Him1 by done. intros Hw2.
  assert (Hmv : kept_records (idx_map (w_fs w)) (sector_journal g (mem w)
      (oldest_index_sector (fs_log (w_fs w)))) = moved_records w)
    by (unfold moved_records; by rewrite Hc, Z.eqb_refl).
  rewrite Hmv in Hw2. rewrite Hol. pose proof (cp_out _ _ _ Hw2) as Hout2.
  pose proof (cp_fs _ _ _ Hw2) as Hfs2. rewrite Hlog1 in Hout2, Hfs2.
  apply HQ. split; try apply Hw2.
  - by rewrite (cp_journal _ _ _ Hw2), Hlog1, Hj1.
  - rewrite Hfs2. cbn [fs_log set_fs_log active_index_sector set_next_index_offset].
    intros a Ha. rewrite Hout2 by lia. by apply Hh.
  - rewrite Hfs2. apply Hsj. intros a Ha. rewrite Hout2 by lia. by apply Hout1.
  - rewrite Hfs2, Hfs1. done.
  - intros a Ha. pose proof (index_sector_below _ _ Hs Ha). rewrite Hout2 by lia.
    apply Hout1. lia.
  - by rewrite (cp_files _ _ _ Hw2), Hfi1.
Qed.

(** The journal without the oldest sector, once its records were moved. *)
Lemma drop_rest w rest :
  log_ok g (mem w) (fs_log (w_fs w)) ->
  slots_proper (journal g (mem w) (fs_log (w_fs w))) ->
  idx_map (w_fs w) = replay_map ∅ (journal g (mem w) (fs_log (w_fs w))) ->
  index_sequence_count (fs_log (w_fs w)) + 1 = index_sectors g ->
  journal g (mem w) (fs_log (w_fs w)) ++ moved_records w =
    sector_journal g (mem w) (oldest_index_sector (fs_log (w_fs w))) ++ rest ->
  slots_proper rest /\ replay_map ∅ rest = idx_map (w_fs w).
Proof.
  intros Hl Hp Hmap Hc. unfold moved_records. rewrite Hc, Z.eqb_refl.
  set (idx := idx_map (w_fs w)) in *.
  set (old := sector_journal g (mem w) (oldest_index_sector (fs_log (w_fs w)))).
  assert (Hsplit : exists r, journal g (mem w) (fs_log (w_fs w)) = old ++ r).
  { pose proof (lk_count _ _ _ Hl). unfold journal.
    destruct (Z.to_nat (index_sequence_count (fs_log (w_fs w)))) eqn:Hn; [lia |].
    cbn [sequence_from fmap list_fmap List.concat]. by eexists. }
  destruct Hsplit as [r Hr]. rewrite Hr in *. rewrite <- app_assoc.
  intros <-%app_inv_head. apply slots_proper_app in Hp as [Hpo Hpr]. split.
  - apply slots_proper_app. split; [done | by apply slots_proper_kept].
  - by apply replay_compact.
Qed.

(** The two header writes, and the step of the sequence. *)
Lemma wp_rotate_end w w2 (Q : unit -> world -> Prop) E :
  fs_geo (w_fs w) = g -> log_ok g (mem w) (fs_log (w_fs w)) ->
  slots_proper (journal g (mem w) (fs_log (w_fs w))) ->
  idx_map (w_fs w) = replay_map ∅ (journal g (mem w) (fs_log (w_fs w))) ->
  index_sequence_count (fs_log (w_fs w)) + 1 = index_sectors g ->
  compacted w w2 -> (forall w', rotation w w' -> Q tt w') ->
  wp (rotate_index_commit ;;
      index_compact_oldest_finish (oldest_index_sector (fs_log (w_fs w)))) Q E w2.
Proof.
  intros Hgeo Hl Hp Hmap Hc Hct HQ. pose proof (geo_index (g := g)) as Hidx.
  set (l := rotated (fs_log (w_fs w))). set (old := oldest_index_sector (fs_log (w_fs w))).
  pose proof (ct_fs _ _ Hct) as Hfs2. fold l in Hfs2.
  set (l2 := set_next_index_offset _ l) in Hfs2.
  assert (Hlog2 : fs_log (w_fs w2) = l2) by by rewrite Hfs2.
  pose proof (ct_log _ _ Hct) as Hl2. rewrite Hlog2 in Hl2.
  destruct (log_ok_range g _ _ Hl2) as [Hs _].
  pose proof (oldest_not_rotated _ _ Hl ltac:(lia)) as Hne.
  pose proof (lk_oldest _ _ _ Hl) as Hold. fold old in Hne, Hold.
  apply wp_bind, wp_rotate_commit; rewrite ?Hlog2.
  { by rewrite Hfs2. } { apply Hct. } { done. }
  { pose proof (ct_erased _ _ Hct) as He. by rewrite Hlog2 in He. }
  intros w3 Hw3 Hhdr. pose proof (hd_fs _ _ _ Hw3) as Hfs3.
  destruct (header_step_log _ _ _ _ Hw3 Hs Hl2) as [Hl3 Hj3].
  unfold index_compact_oldest_finish.
  apply wp_bind, wp_tombstone_index; [by rewrite Hfs3, Hfs2 | apply Hw3 | done |].
  intros w4 Hw4. pose proof (hd_fs _ _ _ Hw4) as Hfs4.
  destruct (header_step_log _ _ _ _ Hw4 Hold Hl3) as [Hl4 Hj4].
  destruct (drop_oldest _ _ Hl4) as [Hl5 Hj5].
  { change (2 <= index_sequence_count (fs_log (w_fs w)) + 1). lia. }
  assert (Hold4 : sector_journal g (mem w4) old = sector_journal g (mem w) old).
  { pose proof (ct_oldest _ _ Hct) as Ho. rewrite Hlog2 in Ho.
    transitivity (sector_journal g (mem w2) old); [| exact Ho].
    transitivity (sector_journal g (mem w3) old); apply sector_journal_records;
      intros a Ha; pose proof (sector_size_range (g := g)).
    - apply (hd_out _ _ _ Hw4). lia.
    - apply (hd_out _ _ _ Hw3).
      assert (old < active_index_sector l2 \/ old = active_index_sector l2 \/
        active_index_sector l2 < old) as [|[|]] by lia; nia. }
  pose proof (ct_journal _ _ Hct) as Hj2. rewrite Hlog2 in Hj2.
  rewrite Hj4, Hj3, Hj2 in Hj5. change (oldest_index_sector l2) with old in Hj5.
  rewrite Hold4 in Hj5.
  destruct (drop_rest w _ Hl Hp Hmap Hc Hj5) as [Hp5 Hr5].
  apply wp_bind, wp_get_fs, wp_mod_fs, HQ.
  rewrite Hfs4, Hfs3, Hfs2. unfold logical_index_sector.
  cbn [fs_log fs_geo set_fs_log w_fs]. rewrite Hgeo.
  split; cbn [w_fs w_files fs_log set_fs_log]; try done.
  - apply Hw4.
  - change (index_sequence_count (fs_log (w_fs w)) + 1 - 1 < index_sectors g). lia.
  - apply u8_serial.
  - change (mem_bytes (mem w4) (base (active_index_sector l2)) 8 =
      index_header (index_sectors g) (sector_shift g) (active_index_serial l2)).
    rewrite (header_differs old (active_index_sector l2) w3 w4 Hw4 Hne). exact Hhdr.
  - intros a Ha. change (mem w4 a = mem w a).
    pose proof (index_sector_below _ _ Hs Ha). pose proof (index_sector_below _ _ Hold Ha).
    pose proof (sector_size_range (g := g)).
    rewrite (hd_out _ _ _ Hw4), (hd_out _ _ _ Hw3) by lia. by apply (ct_data _ _ Hct).
  - rewrite (hd_files _ _ _ Hw4), (hd_files _ _ _ Hw3). apply Hct.
Qed.

Lemma wp_rotate w (Q : unit -> world -> Prop) E :
  fs_geo (w_fs w) = g -> flash_ok w -> idx_ok (w_fs w) ->
  log_ok g (mem w) (fs_log (w_fs w)) ->
  slots_proper (journal g (mem w) (fs_log (w_fs w))) ->
  idx_map (w_fs w) = replay_map ∅ (journal g (mem w) (fs_log (w_fs w))) ->
  index_sequence_count (fs_log (w_fs w)) < index_sectors g ->
  (forall w', rotation w w' -> Q tt w') -> wp fffs_rotate_index Q E w.
Proof.
  intros Hgeo Hok Hi Hl Hp Hmap Hc HQ.
  destruct (Z.eq_dec (index_sequence_count (fs_log (w_fs w)) + 1) (index_sectors g))
    as [Heq | Hne]; [| apply wp_rotate_short; done || lia].
  unfold fffs_rotate_index. apply wp_bind.
  eapply wp_mono; [apply (wp_begin_copy w
    (fun source w2 => source = Some (oldest_index_sector (fs_log (w_fs w))) /\
       compacted w w2) E); try done | | done].
  intros [] w1 [Hfull Hcopy]. apply wp_bind, wp_get_fs. rewrite Hfull.
  apply wp_bind. eapply wp_mono; [exact Hcopy | | done].
  intros source w2 [-> Hw2]. cbn [default]. by apply (wp_rotate_end w w2).
Qed.

(** The part of the append after the rotation. *)
Lemma append_not_full slot head w :
  active_sector_full (w_fs w) = false ->
  fffs_append_index_record slot head w =
  (fs <- get_fs ;;
   program_index_record_at (next_index_offset (fs_log fs)) slot head ;;
   mod_log (fun l => set_next_index_offset (next_index_offset l + 4) l) ;;
   index_set slot head) w.
Proof.
  intros Hfull. unfold fffs_append_index_record, bind, get_fs, when. cbv beta iota.
  by rewrite Hfull.
Qed.

(** The records that the rotation moves leave room for one more. *)
Definition rotation_room (w : world) : bool :=
  4 * zlen (moved_records w) + 12 <=? sector_size g.

Lemma rotation_full w w' :
  fs_geo (w_fs w) = g -> rotation w w' ->
  active_sector_full (w_fs w') = negb (rotation_room w).
Proof.
  intros Hgeo Hw. unfold active_sector_full, rotation_room.
  rewrite (rt_next _ _ Hw), (rt_fs _ _ Hw). cbn [fs_geo set_fs_log fs_log]. rewrite Hgeo.
  destruct (Z.ltb_spec ((active_index_sector (fs_log (w_fs w')) + 1) * sector_size g)
    (base (active_index_sector (fs_log (w_fs w'))) + 8 + 4 * zlen (moved_records w) + 4)),
    (Z.leb_spec (4 * zlen (moved_records w) + 12) (sector_size g)); done || lia.
Qed.

Lemma rotation_idx w w' :
  rotation w w' -> idx_ok (w_fs w) ->
  idx_ok (w_fs w') /\ idx_map (w_fs w') = idx_map (w_fs w).
Proof. intros Hw Hi. rewrite (rt_fs _ _ Hw). by apply (idx_ok_ext (w_fs w)). Qed.

Lemma wp_append_full slot head w Q E :
  fs_geo (w_fs w) = g -> flash_ok w -> idx_ok (w_fs w) ->
  log_ok g (mem w) (fs_log (w_fs w)) ->
  slots_proper (journal g (mem w) (fs_log (w_fs w))) ->
  idx_map (w_fs w) = replay_map ∅ (journal g (mem w) (fs_log (w_fs w))) ->
  active_sector_full (w_fs w) = true ->
  index_sequence_count (fs_log (w_fs w)) < index_sectors g ->
  record_proper (slot, head) -> index_takes I (w_fs w) (slot, head) ->
  (forall w1 w2, rotation w w1 -> rotation_room w = true ->
     appended I slot head w1 w2 -> Q tt w2) ->
  (forall w1, rotation w w1 -> rotation_room w = false -> E FFFS_ERR_NO_SPACE w1) ->
  wp (fffs_append_index_record slot head) Q E w.
Proof.
  intros Hgeo Hok Hi Hl Hp Hmap Hfull Hc Hr Ht HQ HE.
  unfold fffs_append_index_record. apply wp_bind, wp_get_fs. rewrite Hfull.
  apply wp_bind. cbn [when]. apply wp_bind, wp_rotate; try done. intros w1 Hw1.
  pose proof (rotation_full _ _ Hgeo Hw1) as Hroom.
  destruct (rotation_idx _ _ Hw1 Hi) as [Hi1 Hm1].
  apply wp_bind, wp_get_fs. unfold guard_err.
  destruct (rotation_room w) eqn:Hrm; cbn [negb] in Hroom; rewrite Hroom.
  2: { apply wp_fail. by apply HE. }
  apply wp_ret. cut (wp (fffs_append_index_record slot head) Q E w1).
  { unfold wp. by rewrite append_not_full. }
  apply (wp_append g I); try done.
  - by rewrite (rt_fs _ _ Hw1).
  - apply Hw1.
  - apply Hw1.
  - unfold index_takes. rewrite Hm1, (rt_fs _ _ Hw1). exact Ht.
  - intros w2 Hw2. by apply (HQ w1 w2).
Qed.

(** The log after an append that does not rotate. *)
Lemma append_keeps_log slot head w w' :
  fs_geo (w_fs w) = g -> log_ok g (mem w) (fs_log (w_fs w)) ->
  active_sector_full (w_fs w) = false -> record_proper (slot, head) ->
  appended I slot head w w' ->
  log_ok g (mem w') (fs_log (w_fs w')) /\
  journal g (mem w') (fs_log (w_fs w')) =
    journal g (mem w) (fs_log (w_fs w)) ++ [(slot, head)] /\
  index_sequence_count (fs_log (w_fs w')) = index_sequence_count (fs_log (w_fs w)).
Proof.
  intros Hgeo Hl Hfull Hr Hw.
  pose proof (fs_less_index_log _ _ (ap_fs _ _ _ _ _ Hw)) as [_ Hlog].
  cbn [fs_log set_fs_log] in Hlog. rewrite Hlog.
  unfold active_sector_full in Hfull. rewrite Hgeo, Z.ltb_ge in Hfull.
  destruct (log_ok_append g _ (mem w') _ (slot, head) Hl Hr Hfull (ap_mem _ _ _ _ _ Hw)).
  done.
Qed.
End Rotate.

(** C14: the rotation of the namespace journal.  While the sequence does not
    occupy every index sector, [fffs_rotate_index] succeeds: the next sector in
    the ring becomes the active one, under a committed header that discovery
    recognises and the next serial; at the longest sequence the records of the
    oldest sector that are still current are moved there and the oldest sector
    leaves the sequence, so another rotation is always possible; the journal
    that results spells the namespace it spelled before, the in-memory index
    is untouched, and no data sector changes. *)
Theorem rotate_keeps_namespace `{Backend} `{!NorFlash} `{!ValidBackend}
    (g : fs_geometry) `{!GeoOk g}
  `{!EraseUnit g} (I : IndexCache) `{!CachedIndex I} (w : world) :
  let l := fs_log (w_fs w) in
  fs_geo (w_fs w) = g -> flash_ok w -> idx_ok (w_fs w) ->
  log_ok g (mem w) l -> slots_proper (journal g (mem w) l) ->
  idx_map (w_fs w) = replay_map ∅ (journal g (mem w) l) ->
  index_sequence_count l < index_sectors g ->
  exists w', fffs_rotate_index w = (Ok tt, w') /\
    let l' := fs_log (w_fs w') in
    log_ok g (mem w') l' /\ index_sequence_count l' < index_sectors g /\
    active_index_sector l' = (active_index_sector l + 1) mod index_sectors g /\
    fffs_valid_index_header
        (mem_bytes (mem w') (active_index_sector l' * sector_size g) FFFS_HEADER_SIZE) =
      Some (index_sectors g, sector_shift g, (active_index_serial l + 1) mod 16) /\
    slots_proper (journal g (mem w') l') /\
    replay_map ∅ (journal g (mem w') l') = replay_map ∅ (journal g (mem w) l) /\
    w_fs w' = set_fs_log l' (w_fs w) /\
    (forall a, index_sectors g * sector_size g <= a -> mem w' a = mem w a).
Proof.
  intros l Hgeo Hok Hi Hl Hp Hmap Hc.
  assert (Hwp : wp fffs_rotate_index (fun _ => rotation g I w) (fun _ _ => False) w)
    by by apply (wp_rotate g I).
  apply wp_returns in Hwp as ([] & w' & Hrun & Hw'). exists w'. split; [done |].
  pose proof (geo_index (g := g)). pose proof (geo_shift (g := g)).
  destruct (log_ok_range g _ _ Hl) as [Hact _].
  split; [apply Hw' |]. split; [apply Hw' |]. split.
  { rewrite (rt_active _ _ _ _ Hw'). cbn [rotated active_index_sector]. fold l.
    destruct (Z.leb_spec (index_sectors g) (active_index_sector l + 1)).
    - replace (active_index_sector l + 1) with (0 + 1 * index_sectors g) by lia.
      rewrite Z_mod_plus_full. symmetry. apply Z.mod_small. lia.
    - symmetry. apply Z.mod_small. lia. }
  split.
  { rewrite (rt_header _ _ _ _ Hw'), valid_index_header, (rt_serial _ _ _ _ Hw');
      [done | lia | lia |].
    rewrite (rt_serial _ _ _ _ Hw').
    pose proof (Z.mod_pos_bound (active_index_serial (fs_log (w_fs w)) + 1) 16
      ltac:(lia)). lia. }
  split; [apply Hw' |]. split; [by rewrite (rt_replay _ _ _ _ Hw') |].
  split; apply Hw'.
Qed.

(** C15: the append to a full index sector.  The append rotates first.  When
    the records that the rotation moves leave room for one more it succeeds,
    and the namespace takes exactly the new record; otherwise it fails with
    NO_SPACE and the namespace is the one before.  In both cases the journal
    spells the in-memory index, the position of the journal agrees with the
    flash, another rotation stays possible, and no data sector changes. *)
Theorem append_rotates_full_sector `{Backend} `{!NorFlash} `{!ValidBackend}
    (g : fs_geometry) `{!GeoOk g} `{!EraseUnit g} (I : IndexCache) `{!CachedIndex I}
    (slot head : Z) (w : world) :
  let l := fs_log (w_fs w) in
  fs_geo (w_fs w) = g -> flash_ok w -> idx_ok (w_fs w) ->
  log_ok g (mem w) l -> slots_proper (journal g (mem w) l) ->
  idx_map (w_fs w) = replay_map ∅ (journal g (mem w) l) ->
  active_sector_full (w_fs w) = true -> index_sequence_count l < index_sectors g ->
  record_proper (slot, head) -> index_takes I (w_fs w) (slot, head) ->
  exists r w', fffs_append_index_record slot head w = (r, w') /\
    (if rotation_room g I w
     then r = Ok tt /\ idx_map (w_fs w') = apply_record (idx_map (w_fs w)) (slot, head)
     else r = Err FFFS_ERR_NO_SPACE /\ idx_map (w_fs w') = idx_map (w_fs w)) /\
    let l' := fs_log (w_fs w') in
    log_ok g (mem w') l' /\ index_sequence_count l' < index_sectors g /\
    slots_proper (journal g (mem w') l') /\ idx_ok (w_fs w') /\
    idx_map (w_fs w') = replay_map ∅ (journal g (mem w') l') /\
    (forall a, index_sectors g * sector_size g <= a -> mem w' a = mem w a).
Proof.
  intros l Hgeo Hok Hi Hl Hp Hmap Hfull Hc Hr Ht.
  assert (Hwp : wp (fffs_append_index_record slot head)
    (fun _ w2 => exists w1, rotation g I w w1 /\ rotation_room g I w = true /\
       appended I slot head w1 w2)
    (fun e w1 => e = FFFS_ERR_NO_SPACE /\ rotation g I w w1 /\
       rotation_room g I w = false) w).
  { apply (wp_append_full g I); try done; eauto. }
  unfold wp in Hwp.
  destruct (fffs_append_index_record slot head w) as [[[] | e |] w2]; [| | done].
  - destruct Hwp as (w1 & Hw1 & Hroom & Hw2). exists (Ok tt), w2. split; [done |].
    rewrite Hroom. destruct (rotation_idx g I _ _ Hw1 Hi) as [Hi1 Hm1].
    pose proof (rotation_full g I _ _ Hgeo Hw1) as Hf. rewrite Hroom in Hf.
    destruct (append_keeps_log g I slot head w1 w2) as (Hl2 & Hj2 & Hn2);
      try done; try apply Hw1.
    { by rewrite (rt_fs _ _ _ _ Hw1). }
    split; [by rewrite (ap_map _ _ _ _ _ Hw2), Hm1 |].
    cbv zeta. rewrite Hj2. split; [done |]. split; [rewrite Hn2; apply Hw1 |].
    split; [apply slots_proper_app; split; [apply Hw1 | by apply Forall_singleton; right] |].
    split; [apply Hw2 |].
    split.
    { rewrite (ap_map _ _ _ _ _ Hw2), Hm1, <- (rt_replay _ _ _ _ Hw1).
      unfold replay_map. by rewrite foldl_app. }
    intros a Ha. rewrite (ap_mem _ _ _ _ _ Hw2).
    destruct (log_ok_range g _ _ (rt_log _ _ _ _ Hw1)) as [Hs1 Hn1].
    rewrite mem_program_out; [by apply (rt_out _ _ _ _ Hw1) |].
    change (zlen (record_bytes slot head)) with 4.
    pose proof (index_sector_below g _ _ Hs1 Ha).
    unfold active_sector_full in Hf. rewrite (rt_fs _ _ _ _ Hw1) in Hf.
    cbn [fs_geo fs_log set_fs_log] in Hf. rewrite Hgeo in Hf.
    apply Z.ltb_ge in Hf. lia.
  - destruct Hwp as (-> & Hw1 & Hroom). exists (Err FFFS_ERR_NO_SPACE), w2.
    split; [done |]. rewrite Hroom.
    destruct (rotation_idx g I _ _ Hw1 Hi) as [Hi1 Hm1].
    split; [done |]. split; [apply Hw1 |]. split; [apply Hw1 |].
    split; [apply Hw1 |]. split; [done |].
    split; [by rewrite Hm1, (rt_replay _ _ _ _ Hw1) | apply Hw1].
Qed.
