(* ===== verification/Replay.v ===== *)
(** * Replay of the journal

    [fffs_replay_index] rebuilds, over any index that keeps the [CachedIndex]
    contract, the index map that the journal's records stand for, and finds
    the position where the journal continues. *)

From S2P Require Export Journal.

Section Replay.
Context `{Backend} `{!NorFlash} `{!ValidBackend} (g : fs_geometry) `{!GeoOk g}.

(** ** The terminal record *)

Lemma wp_index_span_erased_loop n off size (Q : bool -> world -> Prop) E w :
  flash_ok w -> 0 <= off -> off + size <= be_size -> size <= Z.of_nat n ->
  (forall b w', flash_is (mem w) w w' ->
     (b = true <-> erased_span (mem w) off size) -> Q b w') ->
  wp (index_span_erased_loop n off size) Q E w.
Proof.
  revert off size w. induction n as [|n IH]; intros off size w Hok Ho Hs Hn HQ;
    simpl; destruct (Z.ltb_spec 0 size) as [Hlt | Hge]; try lia.
  1, 3: apply wp_ret, HQ; [done | split; [intros _ a Ha; lia | done]].
  set (k := Z.min size 32). apply wp_bind, wp_flash_read; try done; try lia.
  intros w1 Hw1. destruct (fffs_flash_bytes_erased _) eqn:He; simpl.
  - rewrite mem_bytes_erased in He.
    apply IH; [apply Hw1 | lia | lia | lia |]. intros b w2 Hw2 Hb. apply HQ.
    + eapply flash_is_ext; [by eapply flash_is_trans | apply Hw1].
    + rewrite Hb. unfold erased_span. setoid_rewrite (fi_mem _ _ _ Hw1).
      split; intros Hall a Ha; [| apply Hall; lia].
      destruct (decide (a < off + k)); [apply He; lia | apply Hall; lia].
  - apply wp_ret, HQ; [done |]. split; [done |]. intros Hall. exfalso.
    apply not_true_iff_false in He. apply He. rewrite mem_bytes_erased.
    intros a Ha. apply Hall. lia.
Qed.

(** Whether the rest of the sector after a record is erased, out of the chunk
    that holds the record and of further reads. *)
Lemma wp_terminal rec_off pos nread stop (Q : bool -> world -> Prop) E w :
  flash_ok w -> 0 <= pos -> pos + 4 <= nread -> 0 <= rec_off - pos ->
  rec_off - pos + nread <= stop -> stop <= be_size ->
  (stop - rec_off) mod 4 = 0 ->
  (forall b w', flash_is (mem w) w w' ->
     (b = true <-> erased_span (mem w) (rec_off + 4) (stop - (rec_off + 4))) ->
     Q b w') ->
  wp (active_index_record_is_terminal rec_off
        (mem_bytes (mem w) (rec_off - pos) nread) pos nread stop) Q E w.
Proof.
  intros Hok Hp Hn Hr Hs Hdev Hmod HQ. unfold active_index_record_is_terminal.
  destruct (Z.eqb_spec (rec_off + 4) stop) as [He | Hne].
  { apply wp_ret, HQ; [done |]. split; [intros _ a Ha; lia | done]. }
  assert (Hroom : rec_off + 8 <= stop).
  { pose proof (Z.div_mod (stop - rec_off) 4). lia. }
  set (m := mem w) in *.
  assert (Hnot : forall o k, rec_off + 4 <= o -> 0 <= k -> o + k <= stop ->
    fffs_flash_bytes_erased (mem_bytes m o k) = false ->
    ~ erased_span m (rec_off + 4) (stop - (rec_off + 4))).
  { intros o k Ho Hk Hok' Hf Hall. apply not_true_iff_false in Hf. apply Hf.
    rewrite mem_bytes_erased. intros a Ha. apply Hall. lia. }
  apply wp_bind.
  assert (Hnext : forall w1, flash_is m w w1 ->
    wp (if negb (fffs_flash_bytes_erased (mem_bytes m (rec_off + 4) 4))
        then ret false
        else let rest_off := rec_off + 8 in
          let chunk_end := rec_off + (nread - pos) in
          if (rest_off <? chunk_end) && negb (fffs_flash_bytes_erased
               (sublist (pos + 8) (chunk_end - rest_off)
                  (mem_bytes m (rec_off - pos) nread)))
          then ret false
          else let rest_off := if rest_off <? chunk_end then chunk_end
                               else rest_off in
            if stop <=? rest_off then ret true
            else index_flash_span_erased rest_off (stop - rest_off)) Q E w1).
  { intros w1 Hw1. cbv zeta.
    destruct (fffs_flash_bytes_erased (mem_bytes m (rec_off + 4) 4)) eqn:Hnx; simpl.
    2: { apply wp_ret, HQ; [done |]. split; [done |]. intros Hall. exfalso.
         by apply (Hnot (rec_off + 4) 4); [lia.. | | ]. }
    set (ce := rec_off + (nread - pos)).
    set (rest := if rec_off + 8 <? ce then ce else rec_off + 8).
    destruct ((rec_off + 8 <? ce) && _) eqn:Hck.
    { apply andb_true_iff in Hck as [Hcka Hckb]. apply Z.ltb_lt in Hcka.
      rewrite negb_true_iff, sublist_mem_bytes in Hckb by lia.
      apply wp_ret, HQ; [done |]. split; [done |]. intros Hall. exfalso.
      by apply (Hnot (rec_off - pos + (pos + 8)) (ce - (rec_off + 8))); [lia.. | |]. }
    rewrite mem_bytes_erased in Hnx.
    assert (Hrest : rec_off + 8 <= rest /\ erased_span m (rec_off + 4) (rest - (rec_off + 4))).
    { unfold rest. destruct (Z.ltb_spec (rec_off + 8) ce) as [Hlt | Hge]; simpl in Hck.
      - split; [lia |].
        rewrite negb_false_iff, sublist_mem_bytes, mem_bytes_erased in Hck by lia.
        intros a Ha. destruct (decide (a < rec_off + 8)); [apply Hnx | apply Hck]; lia.
      - split; [lia |]. intros a Ha. apply Hnx. lia. }
    destruct Hrest as [Hr8 Her].
    destruct (Z.leb_spec stop rest) as [Hle | Hgt].
    { apply wp_ret, HQ; [done |]. split; [| done]. intros _ a Ha. apply Her. lia. }
    apply wp_index_span_erased_loop; [apply Hw1 | lia | lia | lia |].
    intros b w2 Hw2 Hb. apply HQ.
    - eapply flash_is_ext; [by eapply flash_is_trans | apply Hw1].
    - rewrite Hb. unfold erased_span. setoid_rewrite (fi_mem _ _ _ Hw1).
      split; intros Hall a Ha; [| apply Hall; lia].
      destruct (decide (a < rest)); [apply Her; lia | apply Hall; lia]. }
  destruct (Z.leb_spec (pos + 8) nread).
  - apply wp_ret. rewrite (sublist_mem_bytes _ _ _ (pos + 4) 4) by lia.
    replace (rec_off - pos + (pos + 4)) with (rec_off + 4) by lia. by apply Hnext.
  - apply wp_flash_read; [done | lia | lia | lia |]. intros w1 Hw1.
    by apply Hnext.
Qed.
End Replay.

(** ** Records that replay accepts *)

Section Clean.
Context `{Backend} (g : fs_geometry) `{!GeoOk g}.

Definition record_valid (r : Z * Z) : Prop :=
  r = (0, 0) \/
  (0 < fst r < UINT16_MAX /\
   (snd r = 0 \/ index_sectors g <= snd r < sector_count g)).

(** The slot has a live root in the sector. *)
Definition root_present (m : Z -> Z) (head slot : Z) : Prop :=
  exists r, slot_md g m head slot FFFS_MD_MATCH_LIVE = inr r /\
    md_type r = FFFS_MD_TYPE_FILE_ROOT_V1.

(** When the last record inserts an entry, the root it names is there. *)
Definition tail_ok (m : Z -> Z) (l : list (Z * Z)) : Prop :=
  forall slot head, last l = Some (slot, head) -> head <> 0 ->
    root_present m head slot.

(** The map stays below the capacity of the index all along. *)
Definition fits (cap : nat) (idx : gmap Z Z) (l : list (Z * Z)) : Prop :=
  forall l1 l2, l = l1 ++ l2 -> (size (replay_map idx l1) < cap)%nat.

Lemma fits_cons cap idx r l :
  fits cap idx (r :: l) ->
  (size idx < cap)%nat /\ fits cap (apply_record idx r) l.
Proof.
  intros Hf. split; [by apply (Hf [] (r :: l)) |].
  intros l1 l2 ->. by apply (Hf (r :: l1) l2).
Qed.

Lemma fits_app cap idx l1 l2 :
  fits cap idx (l1 ++ l2) ->
  fits cap idx l1 /\ fits cap (replay_map idx l1) l2.
Proof.
  intros Hf. split.
  - intros a b ->. apply (Hf a (b ++ l2)). by rewrite app_assoc.
  - intros a b ->. unfold replay_map. rewrite <- foldl_app.
    apply (Hf (l1 ++ a) b). by rewrite app_assoc.
Qed.

Lemma replay_map_app idx l1 l2 :
  replay_map idx (l1 ++ l2) = replay_map (replay_map idx l1) l2.
Proof. apply foldl_app. Qed.

Lemma tail_ok_cons m r l : l <> [] -> tail_ok m (r :: l) -> tail_ok m l.
Proof.
  intros Hl Ht slot head Hlast. apply Ht. destruct l; [done |].
  by rewrite last_cons_cons.
Qed.
End Clean.

Definition mem_eq `{Backend} `{!NorFlash} (m : Z -> Z) (w : world) : Prop :=
  forall a, mem w a = m a.

Section ReplayClean.
Context `{Backend} `{!NorFlash} `{!ValidBackend} (g : fs_geometry) `{!GeoOk g}.
Context (I : IndexCache) `{!CachedIndex I}.

Lemma wp_root_present head slot Q E w :
  fs_geo (w_fs w) = g -> flash_ok w -> root_present g (mem w) head slot ->
  (forall r w', flash_is (mem w) w w' -> Q r w') ->
  wp (fffs_read_file_root_md head slot false None) Q E w.
Proof.
  intros Hgeo Hok (r & Hr & Ht) HQ. unfold fffs_read_file_root_md.
  apply wp_bind, (wp_read_md g); [done | done |]. intros w1 Hw1.
  fold (slot_md g (mem w) head slot FFFS_MD_MATCH_LIVE). rewrite Hr.
  apply wp_bind, wp_guard; intros Hg; [by rewrite Ht in Hg |].
  cbn [orb]. rewrite bool_decide_false by by intros [? ?]. by apply wp_ret, HQ.
Qed.

(** What replay leaves alone: all of [struct fffs] but the index, the scratch
    buffer, the allocator state and the next offset of the journal. *)
Definition replay_frame (fs : fffs) : fffs :=
  fs_core (fs_less_index (set_fs_alloc (mk_alloc None 0 0 [] 0)
    (set_fs_log (set_next_index_offset 0 (fs_log fs)) fs))).

(** The state during a replay that started in [w0] and has the map [idx]. *)
Record replaying (w0 : world) (idx : gmap Z Z) (w : world) : Prop := {
  rp_ok : flash_ok w;
  rp_mem : forall a, mem w a = mem w0 a;
  rp_frame : replay_frame (w_fs w) = replay_frame (w_fs w0);
  rp_files : w_files w = w_files w0;
  rp_idx_ok : idx_ok (w_fs w);
  rp_idx : idx_map (w_fs w) = idx;
}.

Lemma replaying_geo w0 idx w :
  replaying w0 idx w -> fs_geo (w_fs w) = fs_geo (w_fs w0).
Proof. intros Hr. exact (f_equal fs_geo (rp_frame _ _ _ Hr)). Qed.

Lemma replaying_flash w0 idx w w' :
  replaying w0 idx w -> flash_is (mem w) w w' -> replaying w0 idx w'.
Proof.
  intros [] []. split; try congruence; by rewrite fi_fs0.
Qed.

Lemma replaying_core w0 idx w w' :
  replaying w0 idx w -> flash_core (mem w) w w' -> replaying w0 idx w'.
Proof.
  intros [] Hc. pose proof (fc_core _ _ _ Hc) as Hcore.
  assert (Hframe : replay_frame (w_fs w') = replay_frame (w_fs w))
    by exact (f_equal replay_frame Hcore).
  destruct (idx_ok_ext (w_fs w) (w_fs w')) as [Hio Him]; [done | | | |].
  - exact (f_equal fs_geo Hcore).
  - exact (f_equal index_cache Hcore).
  - exact (f_equal index_heads Hcore).
  - split; try congruence; [apply Hc | | by rewrite (fc_files _ _ _ Hc)].
    intros a. by rewrite (fc_mem _ _ _ Hc).
Qed.

(** Changes of the journal's next offset and of the allocator. *)
Lemma replaying_mod w0 idx w f :
  replaying w0 idx w ->
  (forall fs, replay_frame (f fs) = replay_frame fs /\
     index_cache (f fs) = index_cache fs /\ index_heads (f fs) = index_heads fs) ->
  replaying w0 idx (mk_world (w_ctx w) (f (w_fs w)) (w_files w)).
Proof.
  intros [] Hf. destruct (Hf (w_fs w)) as (Hframe & Hc & Hh).
  destruct (idx_ok_ext (w_fs w) (f (w_fs w))) as [Hio Him]; try done.
  { exact (f_equal fs_geo Hframe). }
  split; simpl; try done; congruence.
Qed.

Lemma wp_set_next_offset w0 idx w off (Q : unit -> world -> Prop) E :
  replaying w0 idx w ->
  (forall w', replaying w0 idx w' ->
     next_index_offset (fs_log (w_fs w')) = off -> Q tt w') ->
  wp (set_next_offset off) Q E w.
Proof.
  intros Hr HQ. apply wp_mod_fs. apply HQ; [| done].
  by apply (replaying_mod _ _ _ (fun s => set_fs_log
    (set_next_index_offset off (fs_log s)) s)).
Qed.

(** An index update during the replay. *)
Lemma replaying_index w0 idx w w' r :
  replaying w0 idx w -> index_step w w' -> idx_ok (w_fs w') ->
  idx_map (w_fs w') = apply_record (idx_map (w_fs w)) r ->
  replaying w0 (apply_record idx r) w'.
Proof.
  intros [] Hst Hio Him. pose proof (is_ctx _ _ Hst) as Hctx.
  split; try done.
  - unfold flash_ok. by rewrite Hctx.
  - intros a. unfold mem in *. by rewrite Hctx.
  - etransitivity; [| eassumption]. exact (f_equal replay_frame (is_fs _ _ Hst)).
  - by rewrite (is_files _ _ Hst).
  - rewrite Him. congruence.
Qed.

Lemma wp_index_update w0 idx slot head w (Q : unit -> world -> Prop) E :
  replaying w0 idx w -> 0 < slot < UINT16_MAX -> 0 <= head < UINT16_MAX ->
  (size idx < idx_capacity (fs_geo (w_fs w0)))%nat ->
  (forall w', replaying w0 (apply_record idx (slot, head)) w' -> Q tt w') ->
  wp (index_set slot head) Q E w.
Proof.
  intros Hr Hs Hh Hsz HQ.
  destruct (index_set_record I slot head w) as (w' & Hrun & Hst & Hio & Him).
  - apply Hr.
  - split; simpl; [done | unfold is_u16; lia].
  - left. by rewrite (rp_idx _ _ _ Hr), (replaying_geo _ _ _ Hr).
  - eapply returns_wp; [exact Hrun |]. apply HQ. by eapply replaying_index.
Qed.
(** The pieces of a record in a chunk. *)
Lemma chunk_record m start pos nread :
  0 <= pos -> pos + 4 <= nread ->
  load16_at (mem_bytes m start nread) pos = fst (record_at m (start + pos)) /\
  load16_at (mem_bytes m start nread) (pos + 2) = snd (record_at m (start + pos)).
Proof.
  intros Hp Hn. unfold load16_at, record_at. simpl.
  rewrite !sublist_mem_bytes by lia. split; do 2 f_equal. lia.
Qed.

(** A record that is not erased. *)
Lemma wp_replay_record w0 idx active off pos nread stop tail w Q E :
  let m := mem w in
  let r := record_at m (off + pos) in
  replaying w0 idx w -> fs_geo (w_fs w0) = g ->
  0 <= off -> 0 <= pos -> pos + 4 <= nread -> off + nread <= stop ->
  stop <= be_size -> (stop - (off + pos)) mod 4 = 0 ->
  record_erased r = false -> record_valid g r ->
  (size idx < idx_capacity g)%nat ->
  (active = true ->
     erased_span m (off + pos + 4) (stop - (off + pos + 4)) ->
     snd r <> 0 -> root_present g m (snd r) (fst r)) ->
  (forall tail' w', replaying w0 (apply_record idx r) w' -> Q (false, tail') w') ->
  wp (replay_record active (off + pos) (mem_bytes m off nread) pos nread stop
        tail) Q E w.
Proof.
  intros m r Hrp Hg0 Ho Hp Hn Hs Hdev Hmod Her Hval Hsz Hroot HQ.
  pose proof (geo_count (g := g)) as Hgc. pose proof (geo_index (g := g)) as Hgi.
  assert (Hgeo : fs_geo (w_fs w) = g) by by rewrite (replaying_geo _ _ _ Hrp).
  unfold replay_record. apply wp_bind, wp_get_geo. rewrite Hgeo.
  destruct (chunk_record m off pos nread Hp Hn) as [-> ->]. fold r.
  unfold record_erased in Her. destruct r as [slot head] eqn:Hr.
  cbn [fst snd] in *. rewrite Her.
  destruct ((slot =? 0) && (head =? 0)) eqn:Hpad.
  { assert (Hap : apply_record idx (slot, head) = idx)
      by (unfold apply_record; by rewrite Hpad).
    rewrite Hap in HQ. apply wp_bind, wp_when; intros _; [| by apply HQ].
    eapply wp_set_next_offset; [exact Hrp |]. intros w' Hw' _. by apply HQ. }
  destruct Hval as [[= -> ->] | [Hslot Hhead]]; [done |]. cbn [fst snd] in *.
  apply wp_bind.
  assert (Hgo : forall terminal w1, replaying w0 idx w1 -> mem_eq m w1 ->
    (terminal = true -> head <> 0 -> root_present g m head slot) ->
    wp (if (slot =? 0) || (slot =? 65535) || (head =? 65535)
        then clobber_or_reject_active_tail (off + pos) terminal ;;
             ret (true, tail)
        else if head =? 0 then index_remove slot ;; ret (false, tail)
        else if (head <? index_sectors g) || (sector_count g <=? head)
        then clobber_or_reject_active_tail (off + pos) terminal ;;
             ret (true, tail)
        else r <- (if terminal
                   then try_ (fffs_read_file_root_md head slot false None)
                   else ret (inr (mk_root_md (mk_stat [] 0) 0 0 0 0 0 None))) ;;
             match r with
             | inl _ => clobber_or_reject_active_tail (off + pos) terminal ;;
                        ret (true, tail)
             | inr _ => index_insert slot head ;; ret (false, head)
             end) Q E w1).
  { intros terminal w1 Hw1 Hm1 Hrt.
    destruct (Z.eqb_spec slot 0), (Z.eqb_spec slot 65535), (Z.eqb_spec head 65535);
      try lia. cbn [orb].
    destruct (Z.eqb_spec head 0) as [-> | Hh0].
    { rewrite idx_remove_set. apply wp_bind.
      eapply (wp_index_update w0 idx); [done | lia | lia | by rewrite Hg0 |].
      intros w2 Hw2. apply wp_ret. by apply HQ. }
    destruct (Z.ltb_spec head (index_sectors g)),
      (Z.leb_spec (sector_count g) head); try lia. cbn [orb].
    assert (Hins : forall w2, replaying w0 idx w2 ->
      wp (index_insert slot head ;; ret (false, head)) Q E w2).
    { intros w2 Hw2. rewrite idx_insert_set by done. apply wp_bind.
      eapply (wp_index_update w0 idx); [done | lia | lia | by rewrite Hg0 |].
      intros w3 Hw3. apply wp_ret. by apply HQ. }
    apply wp_bind. destruct terminal; [| by apply wp_ret, Hins].
    apply wp_try. apply wp_root_present.
    - by rewrite (replaying_geo _ _ _ Hw1).
    - apply Hw1.
    - destruct (Hrt eq_refl Hh0) as (rr & Hrr & Htt). exists rr.
      split; [| done]. rewrite <- Hrr. apply slot_md_ext. exact Hm1.
    - intros rr w2 Hw2. apply Hins. by eapply replaying_flash. }
  destruct active.
  - replace off with (off + pos - pos) at 2 by lia.
    apply wp_terminal; try done; try lia; [apply Hrp |].
    intros b w1 Hw1 Hb. apply Hgo.
    + by eapply replaying_flash.
    + intros a. apply Hw1.
    + intros -> Hh. apply Hroot; [done | by apply Hb | done].
  - apply wp_ret, Hgo; [done | done | done].
Qed.
(** The first erased record ends the sector. *)
Lemma wp_replay_erased w0 idx active off pos nread stop tail w Q E :
  let m := mem w in
  replaying w0 idx w -> 0 <= pos -> pos + 4 <= nread ->
  record_erased (record_at m (off + pos)) = true ->
  (forall w', replaying w0 idx w' ->
     (active = true -> next_index_offset (fs_log (w_fs w')) = off + pos) ->
     Q (true, tail) w') ->
  wp (replay_record active (off + pos) (mem_bytes m off nread) pos nread stop
        tail) Q E w.
Proof.
  intros m Hrp Hp Hn Her HQ. unfold replay_record. apply wp_bind, wp_get_geo.
  destruct (chunk_record m off pos nread Hp Hn) as [-> ->].
  unfold record_erased in Her. rewrite Her. apply wp_bind, wp_when; intros Ha.
  - eapply wp_set_next_offset; [exact Hrp |]. intros w' Hw' Hoff.
    apply wp_ret. by apply HQ.
  - apply wp_ret, HQ; [done |]. by rewrite Ha.
Qed.

(** The records of a chunk; [k] of them lie between [pos] and its end, and [j]
    between [pos] and the end of the sector. *)
Lemma wp_replay_chunk n k j w0 idx active off pos nread stop tail w
    (Q : bool * Z -> world -> Prop) E :
  let m := mem w0 in
  let R := records_from k m (off + pos) in
  replaying w0 idx w -> fs_geo (w_fs w0) = g -> (k <= n)%nat ->
  0 <= off -> 0 <= pos -> nread = pos + 4 * Z.of_nat k ->
  stop = off + pos + 4 * Z.of_nat j -> (k <= j)%nat -> stop <= be_size ->
  Forall (record_valid g) R -> fits (idx_capacity g) idx R ->
  (active = true -> tail_ok g m (records_from j m (off + pos))) ->
  (forall (b : bool) tail' w', replaying w0 (replay_map idx R) w' ->
     (if b then (length R < k)%nat /\ (active = true ->
        next_index_offset (fs_log (w_fs w')) = off + pos + 4 * zlen R)
      else length R = k) -> Q (b, tail') w') ->
  wp (replay_chunk n active off (mem_bytes m off nread) pos nread stop tail)
    Q E w.
Proof.
  intros m. revert n j idx pos tail w.
  induction k as [|k IH]; intros n j idx pos tail w R Hrp Hg0 Hkn Ho Hp Hn Hst
    Hkj Hdev Hval Hfit Htail HQ.
  { destruct n; simpl; destruct (Z.ltb_spec pos nread); try lia;
      by apply wp_ret, HQ. }
  destruct n as [|n]; [lia |]. destruct j as [|j]; [lia |].
  cbn [replay_chunk]. destruct (Z.ltb_spec pos nread); [| lia]. cbn [negb].
  assert (Hm : mem_bytes m off nread = mem_bytes (mem w) off nread)
    by (apply mem_bytes_ext; intros; symmetry; apply Hrp).
  assert (Hrec : record_at m (off + pos) = record_at (mem w) (off + pos))
    by (apply record_at_ext; intros; symmetry; apply Hrp).
  apply wp_bind. unfold R in *. cbn [records_from] in *.
  destruct (record_erased (record_at m (off + pos))) eqn:Her.
  - rewrite Hm. apply (wp_replay_erased w0 idx); [done | done | lia | by rewrite <- Hrec |].
    intros w1 Hw1 Hoff. apply wp_ret, HQ; [done |]. split; [simpl; lia |].
    intros Ha. rewrite (Hoff Ha). unfold zlen. simpl. lia.
  - apply Forall_cons in Hval as [Hv1 Hv]. apply fits_cons in Hfit as [Hsz Hfit].
    rewrite Hm. apply (wp_replay_record w0 idx); rewrite <- ?Hrec; try done; try lia.
    + assert (Hj : stop - (off + pos) = Z.of_nat (S j) * 4) by lia. rewrite Hj.
      by apply Z.mod_mul.
    + intros Ha Hers Hhead. specialize (Htail Ha).
      assert (Hj : records_from j m (off + pos + 4) = []).
      { destruct j as [|j]; [done |]. apply (records_from_erased _ _ _ 4); [| lia].
        intros a Har. rewrite <- (rp_mem _ _ _ Hrp). apply Hers. lia. }
      rewrite Hj in Htail.
      destruct (record_at m (off + pos)) as [slot head] eqn:Hr.
      destruct (Htail slot head eq_refl Hhead) as (rr & Hrr & Htt).
      exists rr. split; [| done]. rewrite <- Hrr. apply slot_md_ext, Hrp.
    + intros tail1 w1 Hw1.
      replace (off + pos + 4) with (off + (pos + 4)) in * by lia.
      rewrite <- Hm. apply (IH n j (apply_record idx (record_at m (off + pos))));
        try done; try lia.
      * intros Ha. specialize (Htail Ha).
        destruct (records_from j m (off + (pos + 4))) eqn:Hl; [by intros ? ? [=] |].
        by apply tail_ok_cons in Htail.
      * intros b tail2 w2 Hw2 Hb. apply HQ; [done |]. destruct b.
        -- destruct Hb as [Hb1 Hb2]. split; [simpl; lia |]. intros Ha.
           rewrite (Hb2 Ha), zlen_cons. lia.
        -- simpl. by rewrite Hb.
Qed.
Lemma tail_ok_app m l1 l2 : l2 <> [] -> tail_ok g m (l1 ++ l2) -> tail_ok g m l2.
Proof.
  intros Hl Ht slot head Hlast. apply Ht. rewrite last_app.
  by rewrite Hlast.
Qed.

(** One sector, chunk by chunk. *)
Lemma wp_replay_sector n j w0 idx active off stop tail w
    (Q : Z -> world -> Prop) E :
  let m := mem w0 in
  let R := records_from j m off in
  replaying w0 idx w -> fs_geo (w_fs w0) = g -> (j <= n)%nat ->
  0 <= off -> stop = off + 4 * Z.of_nat j -> stop <= be_size ->
  Forall (record_valid g) R -> fits (idx_capacity g) idx R ->
  (active = true -> tail_ok g m R) ->
  (j = O -> active = true -> next_index_offset (fs_log (w_fs w)) = off) ->
  (forall tail' w', replaying w0 (replay_map idx R) w' ->
     (active = true -> next_index_offset (fs_log (w_fs w')) = off + 4 * zlen R) ->
     Q tail' w') ->
  wp (replay_sector n active off stop tail) Q E w.
Proof.
  intros m. revert j idx off tail w.
  induction n as [|n IH]; intros j idx off tail w R Hrp Hg0 Hjn Ho Hst Hdev Hval
    Hfit Htail Hnext HQ; cbn [replay_sector];
    destruct (Z.leb_spec (off + 4) stop) as [Hle | Hgt]; cbn [negb]; try lia.
  1, 3: assert (j = O) as -> by lia; apply wp_ret, HQ; [done |];
    unfold R; simpl; rewrite Z.add_0_r; by apply Hnext.
  apply wp_bind, wp_get_geo. rewrite (replaying_geo _ _ _ Hrp), Hg0.
  cbv zeta. pose proof (geo_scratch (g := g)) as Hscr.
  set (n0 := if stop - off <? scratch_size g then stop - off else scratch_size g).
  set (nread := n0 - n0 mod 4).
  assert (Hk : exists k, nread = 4 * Z.of_nat k /\ (0 < k <= j)%nat).
  { pose proof (Z.div_mod n0 4). pose proof (Z.mod_pos_bound n0 4).
    exists (Z.to_nat (n0 / 4)). unfold nread, n0 in *.
    destruct (Z.ltb_spec (stop - off) (scratch_size g)); lia. }
  destruct Hk as (k & Hk & Hkj). clearbody nread.
  apply wp_bind, wp_read_scratch; [apply Hrp | done | lia | lia |].
  intros w1 Hw1. apply wp_bind, wp_mod_fs.
  assert (Hrp1 : replaying w0 idx w1) by by eapply replaying_core.
  set (w2 := mk_world _ _ _).
  assert (Hrp2 : replaying w0 idx w2) by by apply replaying_mod.
  assert (Hchunk : mem_bytes (mem w) off nread = mem_bytes m off nread)
    by (apply mem_bytes_ext; intros; apply Hrp).
  rewrite Hchunk. apply wp_bind.
  assert (HR : R = if (length (records_from k m off) <? k)%nat
    then records_from k m off
    else records_from k m off ++
      records_from (j - k) m (off + 4 * Z.of_nat k)).
  { unfold R. replace j with (k + (j - k))%nat at 1 by lia. apply records_from_app. }
  assert (Hpre : exists l, R = records_from k m off ++ l).
  { rewrite HR. destruct (_ <? _)%nat; [exists [] | by eexists].
    by rewrite app_nil_r. }
  destruct Hpre as [l Hl].
  rewrite Hl in Hval, Hfit. apply Forall_app in Hval as [Hv1 Hv2].
  apply fits_app in Hfit as [Hf1 Hf2].
  apply (wp_replay_chunk _ k j w0 idx); try done; try lia;
    rewrite ?Z.add_0_r; try done; try lia.
  intros b tail1 w3 Hw3 Hb. fold m in Hw3, Hb. destruct b.
  - destruct Hb as [Hb1 Hb2]. apply wp_ret. apply Nat.ltb_lt in Hb1.
    rewrite Hb1 in HR. rewrite HR in HQ. apply HQ; [done |].
    intros Ha. rewrite (Hb2 Ha). done.
  - rewrite Hb, Nat.ltb_irrefl in HR.
    assert (l = records_from (j - k) m (off + 4 * Z.of_nat k)) as ->
      by (rewrite HR in Hl; by apply app_inv_head in Hl).
    assert (Hgo : forall w4, replaying w0 (replay_map idx (records_from k m off)) w4 ->
      (active = true -> next_index_offset (fs_log (w_fs w4)) = off + nread) ->
      wp (replay_sector n active (off + nread) stop tail1) Q E w4).
    { intros w4 Hw4 Hoff. rewrite Hk. rewrite Hk in Hoff.
      eapply (IH (j - k)%nat); try done; try lia.
      - intros Ha. destruct (records_from (j - k) m (off + 4 * Z.of_nat k)) eqn:Hl2;
          [by intros ? ? [=] |]. specialize (Htail Ha). rewrite Hl in Htail.
        by apply tail_ok_app in Htail.
      - intros tail2 w5 Hw5 Hoff5. apply HQ.
        + rewrite Hl, replay_map_app. exact Hw5.
        + intros Ha. rewrite (Hoff5 Ha), Hl, zlen_app. unfold zlen at 2.
          rewrite Hb. lia. }
    apply wp_bind, wp_when; intros Ha.
    + eapply wp_set_next_offset; [exact Hw3 |]. intros w4 Hw4 Hoff. by apply Hgo.
    + apply Hgo; [done | by rewrite Ha].
Qed.

(** ** The allocator hint *)

Lemma wp_recover_loop n sector w0 idx w (Q : unit -> world -> Prop) E :
  replaying w0 idx w -> fs_geo (w_fs w0) = g ->
  (forall w', replaying w0 idx w' -> fs_log (w_fs w') = fs_log (w_fs w) ->
     Q tt w') ->
  wp (recover_loop n sector) Q E w.
Proof.
  intros Hrp Hg0. revert sector w Hrp.
  induction n as [|n IH]; intros sector w Hrp HQ; simpl; [by apply wp_ret, HQ |].
  apply wp_bind, wp_get_geo. rewrite (replaying_geo _ _ _ Hrp), Hg0.
  pose proof (geo_count (g := g)). pose proof (geo_index (g := g)).
  destruct (Z.ltb_spec sector (index_sectors g)),
    (Z.leb_spec (sector_count g) sector); simpl; try by apply wp_ret, HQ.
  rewrite u16_small by (unfold is_u16; lia).
  assert (Hgo : forall f w1, flash_is (mem w) w w1 ->
    (forall fs, replay_frame (set_fs_alloc (f (fs_alloc fs)) fs) = replay_frame fs) ->
    wp (mod_alloc f ;;
      (let next := fffs_next_data_sector g sector in
       if next <=? sector then ret tt else recover_loop n next)) Q E w1).
  { intros f w1 Hw1 Hf.
    assert (Hrp1 : replaying w0 idx w1) by by eapply replaying_flash.
    apply wp_bind, wp_mod_fs.
    set (w2 := mk_world _ _ _).
    assert (Hrp2 : replaying w0 idx w2)
      by (apply (replaying_mod _ _ _ (fun s => set_fs_alloc (f (fs_alloc s)) s)); done).
    assert (Hlog : fs_log (w_fs w2) = fs_log (w_fs w))
      by (simpl; by rewrite (fi_fs _ _ _ Hw1)).
    cbv zeta. destruct (_ <=? _); [by apply wp_ret, HQ |].
    apply IH; [done |]. intros w3 Hw3 Hl3. apply HQ; [done |]. by rewrite Hl3. }
  apply wp_bind, wp_try, (wp_read_sector_serial g);
    [by rewrite (replaying_geo _ _ _ Hrp) | apply Hrp | lia |].
  intros w1 Hw1. destruct (footer_serial _) as [serial |]; [by apply Hgo |].
  assert (Hrp1 : replaying w0 idx w1) by by eapply replaying_flash.
  assert (Hlog1 : fs_log (w_fs w1) = fs_log (w_fs w)) by by rewrite (fi_fs _ _ _ Hw1).
  apply wp_bind, wp_ret. cbv zeta. destruct (_ <=? _).
  - by apply wp_ret, HQ.
  - apply IH; [done |]. intros w2 Hw2 Hl2. apply HQ; [done |]. by rewrite Hl2.
Qed.
(** ** The sectors of the sequence *)

Lemma wp_replay_sectors n sector tail w0 idx w (Q : Z -> world -> Prop) E :
  let m := mem w0 in
  let active := active_index_sector (fs_log (w_fs w0)) in
  let sectors := sequence_from n (index_sectors g) sector in
  let l := List.concat (sector_journal g m <$> sectors) in
  replaying w0 idx w -> fs_geo (w_fs w0) = g ->
  0 <= sector < index_sectors g ->
  Forall (record_valid g) l -> fits (idx_capacity g) idx l ->
  tail_ok g m (sector_journal g m active) ->
  (forall tail' w', replaying w0 (replay_map idx l) w' ->
     (last sectors = Some active ->
      next_index_offset (fs_log (w_fs w')) =
        active * sector_size g + FFFS_HEADER_SIZE +
        4 * zlen (sector_journal g m active)) ->
     Q tail' w') ->
  wp (replay_sectors n sector tail) Q E w.
Proof.
  intros m active. revert sector tail idx w.
  induction n as [|n IH]; intros sector tail idx w sectors l Hrp Hg0 Hs Hval Hfit
    Htail HQ; [by apply wp_ret, HQ |].
  cbn [replay_sectors]. apply wp_bind, wp_get_fs.
  assert (Hgeo : fs_geo (w_fs w) = g) by by rewrite (replaying_geo _ _ _ Hrp).
  assert (Hact : active_index_sector (fs_log (w_fs w)) = active)
    by exact (f_equal (fun fs => active_index_sector (fs_log fs)) (rp_frame _ _ _ Hrp)).
  rewrite Hgeo, Hact. cbv zeta.
  unfold l, sectors in *. cbn [sequence_from fmap list_fmap List.concat] in *.
  set (next := if index_sectors g <=? sector + 1 then 0 else sector + 1) in *.
  apply Forall_app in Hval as [Hv1 Hv2]. apply fits_app in Hfit as [Hf1 Hf2].
  destruct (sector_size_div4 g) as (k & Hk & Hsz & Hk62).
  pose proof (geo_count (g := g)).
  destruct (sector_in_device (g := g) sector 0 (sector_size g)) as [_ Hdev]; try lia.
  assert (Hj : sector_journal g m sector =
    records_from (Z.to_nat k) m (sector * sector_size g + 8))
    by (unfold sector_journal; by rewrite Hk).
  rewrite Hj in *.
  apply wp_bind. apply (wp_replay_sector _ (Z.to_nat k) w0 idx);
    [done | done | lia | lia | lia | lia | done | done | | lia |].
  { rewrite Z.eqb_eq. intros Heq. fold m. rewrite <- Hj. by rewrite Heq. }
  intros tail1 w1 Hw1 Hoff. fold m in Hw1, Hoff.
  destruct n as [|n].
  { apply wp_ret, HQ; cbn [sequence_from fmap list_fmap List.concat];
      [by rewrite app_nil_r |].
    intros [= Heq]. rewrite Heq in *. rewrite Hj. apply Hoff, Z.eqb_refl. }
  apply (IH next tail1 (replay_map idx (records_from (Z.to_nat k) m
    (sector * sector_size g + 8)))); try done.
  { unfold next. destruct (Z.leb_spec (index_sectors g) (sector + 1)); lia. }
  intros tail2 w2 Hw2 Hlast. apply HQ; [by rewrite replay_map_app |].
  intros Hl. apply Hlast. cbn [sequence_from] in *. by rewrite last_cons_cons in Hl.
Qed.
(** ** The whole replay *)

(** The sequence found by discovery. *)
Record sequence_ok (l : fs_log_state) : Prop := {
  sq_oldest : 0 <= oldest_index_sector l < index_sectors g;
  sq_count : 1 <= index_sequence_count l <= index_sectors g;
  sq_active : active_index_sector l =
    (oldest_index_sector l + index_sequence_count l - 1) mod index_sectors g;
}.

Lemma last_sequence l :
  sequence_ok l ->
  last (sequence_from (Z.to_nat (index_sequence_count l)) (index_sectors g)
    (oldest_index_sector l)) = Some (active_index_sector l).
Proof.
  intros [Ho Hc Ha]. rewrite sequence_from_closed by done.
  replace (Z.to_nat (index_sequence_count l)) with
    (S (Z.to_nat (index_sequence_count l - 1))) by lia.
  rewrite seq_S, fmap_app, last_app. simpl. f_equal. rewrite Ha. f_equal. lia.
Qed.

(** A journal that replay accepts as it is. *)
Record clean_journal (m : Z -> Z) (l : fs_log_state) : Prop := {
  cj_sequence : sequence_ok l;
  cj_valid : Forall (record_valid g) (journal g m l);
  cj_fits : fits (idx_capacity g) ∅ (journal g m l);
  cj_tail : tail_ok g m (sector_journal g m (active_index_sector l));
}.

(** The journal depends on the bytes and on the sequence. *)
Lemma clean_journal_ext m m' l off :
  (forall a, m' a = m a) -> clean_journal m l ->
  let l' := set_next_index_offset off l in
  clean_journal m' l' /\ journal g m' l' = journal g m l.
Proof.
  intros Hm [[] Hv Hf Htl] l'.
  assert (Hj : journal g m' l' = journal g m l).
  { unfold journal. simpl. f_equal. apply list_fmap_ext. intros.
    apply records_from_ext, Hm. }
  split; [| done]. split; [by split | by rewrite Hj | by rewrite Hj |].
  intros s h. unfold sector_journal. rewrite (records_from_ext _ m' m) by done.
  intros Hlast Hh. destruct (Htl s h Hlast Hh) as (rr & Hrr & Htt). exists rr.
  split; [| done]. rewrite <- Hrr. by apply slot_md_ext.
Qed.

Lemma wp_replay w (Q : unit -> world -> Prop) E :
  fs_geo (w_fs w) = g -> flash_ok w -> idx_ok (w_fs w) ->
  idx_map (w_fs w) = ∅ -> clean_journal (mem w) (fs_log (w_fs w)) ->
  (forall w', let l := fs_log (w_fs w) in
     replaying w (replay_map ∅ (journal g (mem w) l)) w' ->
     next_index_offset (fs_log (w_fs w')) =
       active_index_sector l * sector_size g + FFFS_HEADER_SIZE +
       4 * zlen (sector_journal g (mem w) (active_index_sector l)) ->
     Q tt w') ->
  wp fffs_replay_index Q E w.
Proof.
  intros Hgeo Hok Hidx Hempty [Hseq Hval Hfit Htail] HQ.
  assert (Hrp : replaying w ∅ w) by by split.
  unfold fffs_replay_index. apply wp_bind, wp_get_fs. apply wp_bind.
  eapply wp_set_next_offset; [exact Hrp |]. intros w1 Hw1 _.
  apply wp_bind. apply (wp_replay_sectors _ _ _ w ∅); try done; [apply Hseq |].
  intros tail w2 Hw2 Hoff. specialize (Hoff (last_sequence _ Hseq)).
  apply wp_when; intros _; [| by apply HQ].
  unfold recover_allocator_hint. apply wp_bind, wp_get_geo.
  apply wp_bind, wp_mod_fs. set (w3 := mk_world _ _ _).
  assert (Hw3 : replaying w (replay_map ∅ (journal g (mem w) (fs_log (w_fs w)))) w3)
    by (by apply (replaying_mod _ _ _ (fun s => set_fs_alloc
      (set_alloc_cursor _ (fs_alloc s)) s))).
  eapply wp_recover_loop; [exact Hw3 | done |]. intros w4 Hw4 Hlog.
  apply HQ; [done |]. by rewrite Hlog.
Qed.

Lemma replaying_log w0 idx w :
  replaying w0 idx w ->
  fs_log (w_fs w) = set_next_index_offset (next_index_offset (fs_log (w_fs w)))
    (fs_log (w_fs w0)).
Proof.
  intros Hr. pose proof (f_equal fs_log (rp_frame _ _ _ Hr)) as Heq.
  simpl in Heq. destruct (fs_log (w_fs w)), (fs_log (w_fs w0)).
  unfold set_next_index_offset in *. simpl in *. congruence.
Qed.
End ReplayClean.

(** ** Properties *)

(** Replay.  On a journal whose records are all well-formed and whose last
    record names an existing root, [fffs_replay_index] over a cleared index
    terminates and succeeds without changing the flash; the index then stands
    for the map that the records of the sequence, oldest first, spell, and the
    next offset is the end of the active sector's records. *)
Theorem replay_rebuilds_index `{Backend} `{!NorFlash} `{!ValidBackend}
    (g : fs_geometry) `{!GeoOk g} (I : IndexCache) `{!CachedIndex I} (w : world) :
  fs_geo (w_fs w) = g -> flash_ok w -> idx_ok (w_fs w) ->
  idx_map (w_fs w) = ∅ -> clean_journal g I (mem w) (fs_log (w_fs w)) ->
  let l := fs_log (w_fs w) in
  exists w', fffs_replay_index w = (Ok tt, w') /\
    (forall a, mem w' a = mem w a) /\ w_files w' = w_files w /\
    idx_ok (w_fs w') /\
    idx_map (w_fs w') = replay_map ∅ (journal g (mem w) l) /\
    fs_log (w_fs w') = set_next_index_offset
      (active_index_sector l * sector_size g + FFFS_HEADER_SIZE +
       4 * zlen (sector_journal g (mem w) (active_index_sector l))) l.
Proof.
  intros Hgeo Hok Hidx Hempty Hclean l.
  assert (Hwp : wp fffs_replay_index
    (fun _ w' => replaying I w (replay_map ∅ (journal g (mem w) l)) w' /\
       next_index_offset (fs_log (w_fs w')) =
         active_index_sector l * sector_size g + FFFS_HEADER_SIZE +
         4 * zlen (sector_journal g (mem w) (active_index_sector l)))
    (fun _ _ => False) w) by (eapply (wp_replay g I); eauto).
  apply wp_returns in Hwp as ([] & w' & Hrun & Hw' & Hoff).
  exists w'. split; [done |]. split; [apply Hw' |]. split; [apply Hw' |].
  split; [apply Hw' |]. split; [apply Hw' |].
  rewrite (replaying_log _ _ _ _ Hw'). by rewrite Hoff.
Qed.

(** Durability of the namespace.  After an append to a journal that the
    in-memory index agrees with, mounting any file system structure that has
    the same flash contents, the same sequence and a cleared index makes
    replay rebuild exactly the index map of the running system, and the same
    journal position. *)
Theorem append_survives_remount `{Backend} `{!NorFlash} `{!ValidBackend}
    (g : fs_geometry) `{!GeoOk g} (I : IndexCache) `{!CachedIndex I}
    (slot head : Z) (w w1 : world) :
  fs_geo (w_fs w) = g -> flash_ok w -> idx_ok (w_fs w) ->
  log_ok g (mem w) (fs_log (w_fs w)) ->
  idx_map (w_fs w) = replay_map ∅ (journal g (mem w) (fs_log (w_fs w))) ->
  active_sector_full (w_fs w) = false ->
  record_proper (slot, head) -> index_takes I (w_fs w) (slot, head) ->
  fffs_append_index_record slot head w = (Ok tt, w1) ->
  clean_journal g I (mem w1) (fs_log (w_fs w1)) ->
  forall w2, fs_geo (w_fs w2) = g -> flash_ok w2 ->
    (forall a, mem w2 a = mem w1 a) ->
    idx_ok (w_fs w2) -> idx_map (w_fs w2) = ∅ ->
    (exists off, fs_log (w_fs w2) = set_next_index_offset off (fs_log (w_fs w1))) ->
    exists w3, fffs_replay_index w2 = (Ok tt, w3) /\
      idx_map (w_fs w3) = idx_map (w_fs w1) /\
      fs_log (w_fs w3) = fs_log (w_fs w1).
Proof.
  intros Hgeo Hok Hidx Hlog Hmap Hfull Hr Ht Hrun Hclean w2 Hg2 Hok2 Hm2 Hidx2
    Hempty2 [off Hlog2].
  assert (Hwp : wp (fffs_append_index_record slot head)
    (fun _ w' => appended I slot head w w') (fun _ _ => False) w)
    by by apply (wp_append g I).
  apply wp_returns in Hwp as ([] & w1' & Hrun' & Hw1).
  rewrite Hrun in Hrun'. injection Hrun' as <-.
  pose proof (ap_fs _ _ _ _ _ Hw1) as Hfs.
  apply fs_less_index_log in Hfs as [_ Hlg]. simpl in Hlg.
  assert (Hroom : next_index_offset (fs_log (w_fs w)) + 4 <=
    (active_index_sector (fs_log (w_fs w)) + 1) * sector_size g).
  { unfold active_sector_full in Hfull. by rewrite Hgeo, Z.ltb_ge in Hfull. }
  destruct (log_ok_append g _ (mem w1) _ (slot, head) Hlog Hr Hroom
    (ap_mem _ _ _ _ _ Hw1)) as [Hl' Hj']. rewrite <- Hlg in Hl', Hj'.
  destruct (clean_journal_ext g I _ _ _ off Hm2 Hclean) as [Hc2 Hjeq].
  rewrite <- Hlog2 in Hc2, Hjeq.
  assert (Hwp : wp fffs_replay_index
    (fun _ w' => replaying I w2 (idx_map (w_fs w1)) w' /\
       next_index_offset (fs_log (w_fs w')) = next_index_offset (fs_log (w_fs w1)))
    (fun _ _ => False) w2).
  { eapply (wp_replay g I); try done. intros w3 l2 Hw3 Hoff. split.
    - assert (Hidx1 : idx_map (w_fs w1) =
        replay_map ∅ (journal g (mem w2) (fs_log (w_fs w2)))).
      { rewrite (ap_map _ _ _ _ _ Hw1), Hmap, Hjeq, Hj'. unfold replay_map.
        by rewrite foldl_app. }
      by rewrite Hidx1.
    - pose proof (lk_next _ _ _ Hl') as Hnext.
      rewrite Hoff. unfold l2, sector_journal.
      rewrite (records_from_ext _ _ _ _ Hm2), Hlog2. by rewrite Hnext. }
  apply wp_returns in Hwp as ([] & w3 & Hrun3 & Hw3 & Hoff3).
  exists w3. split; [done |]. split; [apply Hw3 |].
  rewrite (replaying_log _ _ _ _ Hw3), Hoff3, Hlog2.
  by destruct (fs_log (w_fs w1)).
Qed.
