(* ===== verification/Discovery.v ===== *)
(** * Discovery of the index sequence

    What [fffs_find_index_sequence] of [src/fffs_index_log.c] finds on a device
    whose index-sector headers are those of a running journal: the journal's
    own sequence.  The theorem asks that the sequence is no longer than the
    window in which two 4-bit serials compare, and that no probe of another
    sector size meets a header of that size. *)

From S2P Require Export Replay.

Section Discovery.
Context `{Backend} `{!NorFlash} `{!ValidBackend} (g : fs_geometry) `{!GeoOk g}.
#[local] Abbreviation base s := (s * sector_size g).
#[local] Abbreviation N := (index_sectors g).

(** ** Positions in the ring *)

(** The position of a sector in the sequence that starts at the oldest. *)
Definition ring_pos (l : fs_log_state) (s : Z) : Z :=
  (s - oldest_index_sector l) mod N.

Definition in_sequence (l : fs_log_state) (s : Z) : bool :=
  ring_pos l s <? index_sequence_count l.

(** The serial of a sector of the sequence. *)
Definition ring_serial (l : fs_log_state) (s : Z) : Z :=
  (active_index_serial l - (index_sequence_count l - 1 - ring_pos l s)) mod 16.

Definition header_at (m : Z -> Z) (off : Z) : option (Z * Z * Z) :=
  fffs_valid_index_header (mem_bytes m off FFFS_HEADER_SIZE).

(** The sector sizes probed before the device's own: the default, the smaller
    ones downwards and then the larger ones upwards. *)
Definition probed_first (p shift : Z) : bool :=
  if shift <=? 4 then (shift <? p) && (p <=? 4) else p <? shift.

(** The headers of a running journal. *)
Record ring_headers (m : Z -> Z) (l : fs_log_state) : Prop := {
  rh_sequence : sequence_ok g l;
  rh_window : index_sequence_count l <= 8;
  rh_serial : 0 <= active_index_serial l < 16;
  rh_headers : forall s, 0 <= s < N ->
    header_at m (base s) =
      if in_sequence l s then Some (N, sector_shift g, ring_serial l s) else None;
  rh_near : in_sequence l 0 = true \/ in_sequence l 1 = true;
  rh_quiet : forall p, 0 <= p <= FFFS_MAX_SECTOR_SHIFT ->
    probed_first p (sector_shift g) = true ->
    Z.shiftl 256 p + FFFS_HEADER_SIZE <= be_size ->
    forall c serial, header_at m (Z.shiftl 256 p) <> Some (c, p, serial);
}.

Lemma ring_pos_range l s : 0 <= ring_pos l s < N.
Proof. pose proof (geo_index (g := g)). apply Z.mod_pos_bound. lia. Qed.

Lemma ring_pos_cases l s : 0 <= oldest_index_sector l < N -> 0 <= s < N ->
  ring_pos l s = (if oldest_index_sector l <=? s then s - oldest_index_sector l
                  else s - oldest_index_sector l + N).
Proof.
  intros Ho Hs. unfold ring_pos. destruct (Z.leb_spec (oldest_index_sector l) s).
  - apply Z.mod_small. lia.
  - replace (s - oldest_index_sector l + N) with (s - oldest_index_sector l + 1 * N)
      by lia.
    rewrite <- (Z_mod_plus_full _ 1). apply Z.mod_small. lia.
Qed.

Lemma ring_pos_inj l s s' : 0 <= oldest_index_sector l < N ->
  0 <= s < N -> 0 <= s' < N -> ring_pos l s = ring_pos l s' -> s = s'.
Proof.
  intros Ho Hs Hs'. rewrite !ring_pos_cases by done.
  destruct (Z.leb_spec (oldest_index_sector l) s),
    (Z.leb_spec (oldest_index_sector l) s'); lia.
Qed.

Lemma ring_pos_active l : sequence_ok g l ->
  0 <= active_index_sector l < N /\
  ring_pos l (active_index_sector l) = index_sequence_count l - 1.
Proof.
  intros [Ho Hc Ha]. pose proof (geo_index (g := g)). rewrite Ha.
  split; [apply Z.mod_pos_bound; lia |]. unfold ring_pos.
  rewrite Zminus_mod_idemp_l. rewrite Z.mod_small; lia.
Qed.

Lemma ring_pos_prev l s : 0 <= oldest_index_sector l < N -> 0 <= s < N ->
  let p := prev_index_sector s N in
  0 <= p < N /\
  ring_pos l p = (if ring_pos l s =? 0 then N - 1 else ring_pos l s - 1).
Proof.
  intros Ho Hs p. pose proof (geo_index (g := g)).
  assert (Hp : 0 <= p < N /\ p = (if s =? 0 then N - 1 else s - 1))
    by (unfold p, prev_index_sector; destruct (Z.eqb_spec s 0); lia).
  destruct Hp as [Hp Heq]. split; [done |].
  rewrite (ring_pos_cases l p), (ring_pos_cases l s) by done. rewrite Heq.
  destruct (Z.eqb_spec s 0); destruct (Z.leb_spec (oldest_index_sector l) s);
    repeat match goal with
    | |- context [?a <=? ?b] => destruct (Z.leb_spec a b)
    | |- context [?a =? ?b] => destruct (Z.eqb_spec a b)
    end; lia.
Qed.

(** ** The walk back *)

(** What the two arrays of the scan hold after the first [i] sectors. *)
Record scanned (l : fs_log_state) (i : Z) (valid : list bool) (serials : list Z)
  : Prop := {
  sn_len : length valid = 15%nat /\ length serials = 15%nat;
  sn_valid : forall s, 0 <= s < 15 -> bool_at valid s = (s <? i) && in_sequence l s;
  sn_serials : forall s, 0 <= s < i -> in_sequence l s = true ->
    byte_at serials s = ring_serial l s;
}.

Lemma serial_prev l s : 0 <= oldest_index_sector l < N -> 0 <= s < N ->
  0 < ring_pos l s ->
  u8 (Z.land (ring_serial l s - 1) 0x0f) = ring_serial l (prev_index_sector s N).
Proof.
  intros Ho Hs Hpos. destruct (ring_pos_prev l s Ho Hs) as [Hp Hpp].
  change 15 with (Z.ones 4). rewrite Z.land_ones by lia. change (2 ^ 4) with 16.
  unfold ring_serial. rewrite Hpp.
  destruct (Z.eqb_spec (ring_pos l s) 0); [lia |].
  rewrite Zminus_mod_idemp_l.
  rewrite u8_small.
  - f_equal. lia.
  - pose proof (Z.mod_pos_bound (active_index_serial l -
      (index_sequence_count l - 1 - ring_pos l s) - 1) 16 ltac:(lia)).
    unfold is_u8. lia.
Qed.

Lemma find_oldest_ok l valid serials k : sequence_ok g l -> scanned l N valid serials ->
  forall s c, 0 <= s < N -> ring_pos l s < index_sequence_count l ->
  Z.of_nat k - ring_pos l s = N - index_sequence_count l ->
  find_oldest_loop k valid serials N s (ring_serial l s) c =
    (oldest_index_sector l, c + ring_pos l s).
Proof.
  intros [Ho Hc Ha] [Hlen Hv Hs]. pose proof (geo_index (g := g)).
  assert (Hzero : forall s, 0 <= s < N -> ring_pos l s = 0 -> s = oldest_index_sector l).
  { intros s Hr Hz. apply (ring_pos_inj l); [done.. |]. rewrite Hz. unfold ring_pos.
    by rewrite Z.sub_diag, Z.mod_0_l by lia. }
  induction k as [| k IH]; intros s c Hr Hp Hk; pose proof (ring_pos_range l s);
    cbn [find_oldest_loop].
  { assert (Hz : ring_pos l s = 0) by lia. rewrite Hz, (Hzero s Hr Hz).
    by rewrite Z.add_0_r. }
  destruct (ring_pos_prev l s Ho Hr) as [Hpr Hpp].
  rewrite Hv by lia. destruct (Z.ltb_spec (prev_index_sector s N) N); [| lia].
  cbn [andb]. unfold in_sequence. rewrite Hpp.
  destruct (Z.eqb_spec (ring_pos l s) 0) as [Hz | Hnz].
  - destruct (Z.ltb_spec (N - 1) (index_sequence_count l)); [lia |]. cbn [negb orb].
    by rewrite Hz, (Hzero s Hr Hz), Z.add_0_r.
  - destruct (Z.ltb_spec (ring_pos l s - 1) (index_sequence_count l)); [| lia].
    assert (Hin : in_sequence l (prev_index_sector s N) = true).
    { unfold in_sequence. rewrite Hpp. destruct (Z.eqb_spec (ring_pos l s) 0); [lia |].
      apply Z.ltb_lt. lia. }
    rewrite (Hs (prev_index_sector s N)) by (lia || done).
    rewrite serial_prev by (done || lia). rewrite Z.eqb_refl. cbn [negb orb].
    assert (Hpp' : ring_pos l (prev_index_sector s N) = ring_pos l s - 1)
      by (rewrite Hpp; destruct (Z.eqb_spec (ring_pos l s) 0); [lia | done]).
    rewrite IH by lia. f_equal. lia.
Qed.

(** ** The scan *)

(** The selection after the first [i] sectors. *)
Record selected (l : fs_log_state) (i : Z) (s : header_scan) : Prop := {
  sl_conflict : hs_conflict s = false;
  sl_scanned : scanned l i (hs_valid s) (hs_serials s);
  sl_none : hs_found s = false -> forall j, 0 <= j < i -> in_sequence l j = false;
  sl_best : hs_found s = true ->
    0 <= hs_best_active s < i /\ in_sequence l (hs_best_active s) = true /\
    hs_best_serial s = ring_serial l (hs_best_active s) /\
    forall j, 0 <= j < i -> in_sequence l j = true ->
      ring_pos l j <= ring_pos l (hs_best_active s);
}.

Lemma selected_init l : selected l 0 header_scan_init.
Proof.
  split; cbn [header_scan_init hs_conflict hs_valid hs_serials hs_found]; try done.
  - split; [done | | intros; lia]. intros s Hs.
    replace (s <? 0) with false by (symmetry; apply Z.ltb_ge; lia). cbn [andb].
    unfold bool_at. rewrite nth_lookup.
    destruct (replicate 15 false !! Z.to_nat s) as [b |] eqn:Hb; [| done].
    by apply lookup_replicate in Hb as [-> _].
  - intros _ j Hj. lia.
Qed.

(** In a window of eight, the newer serial is the one further in the ring. *)
Lemma serial_newer l j b : index_sequence_count l <= 8 ->
  in_sequence l j = true -> in_sequence l b = true ->
  index_serial_newer (ring_serial l j) (ring_serial l b) =
    (ring_pos l b <? ring_pos l j).
Proof.
  intros Hw Hj%Z.ltb_lt Hb%Z.ltb_lt.
  pose proof (ring_pos_range l j). pose proof (ring_pos_range l b).
  unfold index_serial_newer. change 15 with (Z.ones 4). rewrite Z.land_ones by lia.
  change (2 ^ 4) with 16. unfold ring_serial. rewrite <- Zminus_mod.
  replace (active_index_serial l - (index_sequence_count l - 1 - ring_pos l j) -
    (active_index_serial l - (index_sequence_count l - 1 - ring_pos l b))) with
    (ring_pos l j - ring_pos l b) by lia.
  set (a := active_index_serial l - (index_sequence_count l - 1)).
  replace (active_index_serial l - (index_sequence_count l - 1 - ring_pos l j)) with
    (a + ring_pos l j) by (unfold a; lia).
  replace (active_index_serial l - (index_sequence_count l - 1 - ring_pos l b)) with
    (a + ring_pos l b) by (unfold a; lia).
  destruct (Z.ltb_spec (ring_pos l b) (ring_pos l j)) as [Hlt | Hge].
  - rewrite (Z.mod_small (ring_pos l j - ring_pos l b)) by lia.
    destruct (Z.ltb_spec (ring_pos l j - ring_pos l b) 8); [| lia].
    rewrite andb_true_r. destruct (Z.eqb_spec ((a + ring_pos l j) mod 16)
      ((a + ring_pos l b) mod 16)) as [Heq |]; [| done]. exfalso.
    assert (Hd : ((a + ring_pos l j) - (a + ring_pos l b)) mod 16 = 0)
      by (rewrite Zminus_mod, Heq, Z.sub_diag; done).
    rewrite Z.mod_small in Hd by lia. lia.
  - destruct (Z.eq_dec (ring_pos l j) (ring_pos l b)) as [-> | Hne];
      [by rewrite Z.eqb_refl |].
    rewrite <- (Z_mod_plus_full (ring_pos l j - ring_pos l b) 1 16).
    rewrite (Z.mod_small (ring_pos l j - ring_pos l b + 1 * 16)) by lia.
    destruct (Z.ltb_spec (ring_pos l j - ring_pos l b + 1 * 16) 8); [lia |].
    apply andb_false_r.
Qed.
Lemma size_shift : Z.shiftl 256 (sector_shift g) = sector_size g.
Proof. symmetry. apply geo_sector_size. Qed.

(** The arrays after one more sector. *)
Lemma scanned_skip l i valid serials :
  0 <= i -> in_sequence l i = false -> scanned l i valid serials ->
  scanned l (i + 1) valid serials.
Proof.
  intros Hi Hno [Hlen Hv Hs]. split; [done | |].
  - intros s Hr. rewrite Hv by done. destruct (Z.eq_dec s i) as [-> | Hne].
    + by rewrite Hno, !andb_false_r.
    + f_equal. destruct (Z.ltb_spec s i), (Z.ltb_spec s (i + 1)); lia || done.
  - intros s Hr Hin. apply Hs; [| done].
    destruct (Z.eq_dec s i) as [-> | Hne]; [congruence | lia].
Qed.

Lemma scanned_add l i valid serials serial :
  0 <= i < 15 -> in_sequence l i = true -> serial = ring_serial l i ->
  scanned l i valid serials ->
  scanned l (i + 1) (<[Z.to_nat i := true]> valid) (<[Z.to_nat i := serial]> serials).
Proof.
  intros Hi Hin -> [[Hlv Hls] Hv Hs].
  assert (Hat : forall A (l : list A) (d v : A) s, 0 <= s -> length l = 15%nat ->
    nth (Z.to_nat s) (<[Z.to_nat i := v]> l) d =
    if s =? i then v else nth (Z.to_nat s) l d).
  { intros A l0 d v s Hr Hlen. rewrite !nth_lookup. destruct (Z.eqb_spec s i) as [-> | Hne].
    - by rewrite list_lookup_insert_eq by lia.
    - by rewrite list_lookup_insert_ne by lia. }
  split; [by rewrite !length_insert | |].
  - intros s Hr. unfold bool_at. rewrite Hat by (lia || done).
    destruct (Z.eqb_spec s i) as [-> | Hne].
    + rewrite Hin. by destruct (Z.ltb_spec i (i + 1)); [| lia].
    + fold (bool_at valid s). rewrite Hv by done. f_equal.
      destruct (Z.ltb_spec s i), (Z.ltb_spec s (i + 1)); lia || done.
  - intros s Hr Hins. unfold byte_at. rewrite Hat by (lia || done).
    destruct (Z.eqb_spec s i) as [-> | Hne]; [done |].
    apply Hs; [lia | done].
Qed.

Lemma selected_skip l i s : 0 <= i -> in_sequence l i = false ->
  selected l i s -> selected l (i + 1) s.
Proof.
  intros Hi Hno [Hc Hsc Hn Hb]. split; [done | by apply scanned_skip | |].
  - intros Hf j Hj. destruct (Z.eq_dec j i) as [-> | Hne]; [done |]. apply Hn; [done | lia].
  - intros Hf. destruct (Hb Hf) as (Hr & Hin & Hser & Hmax). split; [lia |].
    split; [done |]. split; [done |]. intros j Hj Hinj.
    destruct (Z.eq_dec j i) as [-> | Hne]; [congruence |]. apply Hmax; [lia | done].
Qed.

Lemma selected_add l i s : index_sequence_count l <= 8 -> 0 <= i < N ->
  in_sequence l i = true -> selected l i s ->
  exists s', consider_index_header (base i) N (sector_shift g) (ring_serial l i)
      (mk_header_scan (hs_found s) (hs_conflict s) (hs_best_active s) (hs_best_serial s)
         (<[Z.to_nat i := true]> (hs_valid s))
         (<[Z.to_nat i := ring_serial l i]> (hs_serials s))) = Some s' /\
    selected l (i + 1) s'.
Proof.
  intros Hw Hi Hin [Hc Hsc Hn Hb]. pose proof (geo_index (g := g)).
  pose proof (sector_size_range (g := g)).
  pose proof (scanned_add l i _ _ _ ltac:(lia) Hin eq_refl Hsc) as Hsc'.
  unfold consider_index_header. rewrite size_shift.
  rewrite Z.mod_mul, Z.div_mul by lia. change (negb (0 =? 0)) with false. cbv iota zeta.
  destruct (Z.leb_spec N i); [lia |]. cbn [hs_found hs_best_serial].
  destruct (hs_found s) eqn:Hf; cbn [negb orb].
  - destruct (Hb eq_refl) as (Hr & Hinb & Hser & Hmax).
    rewrite Hser, serial_newer by done.
    destruct (Z.ltb_spec (ring_pos l (hs_best_active s)) (ring_pos l i)) as [Hlt | Hge];
      (eexists; split; [reflexivity |]); split;
      cbn [hs_conflict hs_valid hs_serials hs_found hs_best_active hs_best_serial];
      try done; intros _.
    + split; [lia |]. split; [done |]. split; [done |]. intros j Hj Hinj.
      destruct (Z.eq_dec j i) as [-> | Hne]; [done |].
      specialize (Hmax j ltac:(lia) Hinj). lia.
    + split; [lia |]. split; [done |]. split; [done |]. intros j Hj Hinj.
      destruct (Z.eq_dec j i) as [-> | Hne]; [done |]. apply Hmax; [lia | done].
  - eexists. split; [reflexivity |]. split;
      cbn [hs_conflict hs_valid hs_serials hs_found hs_best_active hs_best_serial];
      try done.
    intros _. split; [lia |]. split; [done |]. split; [done |]. intros j Hj Hinj.
    destruct (Z.eq_dec j i) as [-> | Hne]; [done |].
    by rewrite (Hn eq_refl j ltac:(lia)) in Hinj.
Qed.

(** The sector that is further in the ring than all others is the active one. *)
Lemma selected_active l s : sequence_ok g l -> selected l N s ->
  hs_found s = true /\ hs_best_active s = active_index_sector l /\
  hs_best_serial s = active_index_serial l mod 16.
Proof.
  intros Hseq [Hc Hsc Hn Hb]. destruct (ring_pos_active l Hseq) as [Ha Hp].
  assert (Hin : in_sequence l (active_index_sector l) = true)
    by (unfold in_sequence; rewrite Hp; apply Z.ltb_lt; lia).
  destruct (hs_found s) eqn:Hf; [| by rewrite (Hn eq_refl _ Ha) in Hin].
  destruct (Hb eq_refl) as (Hr & Hinb & Hser & Hmax). split; [done |].
  specialize (Hmax _ Ha Hin). unfold in_sequence in Hinb. apply Z.ltb_lt in Hinb.
  assert (Heq : hs_best_active s = active_index_sector l)
    by (apply (ring_pos_inj l); [apply Hseq | done | done | lia]).
  split; [done |]. rewrite Hser, Heq. unfold ring_serial. rewrite Hp. f_equal. lia.
Qed.

Lemma wp_scan m l doff k : ring_headers m l ->
  forall i s w (Q : header_scan -> world -> Prop) E,
  flash_ok w -> (forall a, mem w a = m a) ->
  0 <= i -> i + Z.of_nat k = N -> selected l i s ->
  (forall w' s', flash_is m w w' -> selected l N s' -> Q s' w') ->
  wp (scan_headers k i N (sector_shift g) doff (mem_bytes m doff FFFS_HEADER_SIZE) s)
    Q E w.
Proof.
  intros Hrh. pose proof (sector_size_range (g := g)). pose proof (geo_count (g := g)).
  pose proof (geo_index (g := g)).
  induction k as [| k IH]; intros i s w Q E Hok Hm Hi Hk Hsel HQ; cbn [scan_headers].
  { replace i with N in Hsel by lia. apply wp_ret, HQ; [| done]. by split. }
  rewrite size_shift. cbv zeta.
  destruct (sector_in_device i 0 (sector_size g)) as [Hd1 Hd2]; [lia.. |].
  assert (Hcont : forall w1, flash_is m w w1 ->
    wp (match fffs_valid_index_header (mem_bytes m (base i) FFFS_HEADER_SIZE) with
        | Some (c, sh, serial) =>
            let conflict := mk_header_scan (hs_found s) true (hs_best_active s)
                              (hs_best_serial s) (hs_valid s) (hs_serials s) in
            if negb (c =? N) || negb (sh =? sector_shift g) then ret conflict
            else
              let s := mk_header_scan (hs_found s) (hs_conflict s) (hs_best_active s)
                         (hs_best_serial s) (<[Z.to_nat i := true]> (hs_valid s))
                         (<[Z.to_nat i := serial]> (hs_serials s)) in
              match consider_index_header (base i) c sh serial s with
              | None => ret (mk_header_scan (hs_found s) true (hs_best_active s)
                               (hs_best_serial s) (hs_valid s) (hs_serials s))
              | Some s => scan_headers k (i + 1) N (sector_shift g) doff
                            (mem_bytes m doff FFFS_HEADER_SIZE) s
              end
        | None => scan_headers k (i + 1) N (sector_shift g) doff
                    (mem_bytes m doff FFFS_HEADER_SIZE) s
        end) Q E w1).
  { intros w1 Hw1. pose proof (rh_headers _ _ Hrh i ltac:(lia)) as Hh.
    unfold header_at in Hh. rewrite Hh. destruct (in_sequence l i) eqn:Hin.
    - rewrite !Z.eqb_refl. cbn [negb orb]. cbv zeta.
      destruct (selected_add l i s (rh_window _ _ Hrh) ltac:(lia) Hin Hsel)
        as (s' & Hs' & Hsel'). rewrite Hs'.
      apply IH; [apply Hw1 | apply Hw1 | lia | lia | done |].
      intros w2 s2 Hw2 Hs2. apply HQ; [| done].
      by eapply flash_is_trans.
    - apply IH; [apply Hw1 | apply Hw1 | lia | lia | by apply selected_skip |].
      intros w2 s2 Hw2 Hs2. apply HQ; [| done].
      by eapply flash_is_trans. }
  destruct (Z.eqb_spec (base i) doff) as [Heq | Hne].
  - apply wp_bind, wp_ret. rewrite <- Heq at 1. apply Hcont. by split.
  - apply wp_bind, wp_flash_read; [done | lia.. |]. intros w1 Hw1.
    rewrite (mem_bytes_ext (mem w) m) by (intros; apply Hm). apply Hcont.
    by eapply flash_is_ext.
Qed.
(** ** The probes *)

(** The sequence of the running journal, as discovery reports it. *)
Definition sequence_of (l : fs_log_state) : fffs_index_sequence :=
  mk_sequence N (sector_shift g) (active_index_serial l) (active_index_sector l)
    (oldest_index_sector l) (index_sequence_count l).

Lemma image_divides : be_size mod sector_size g = 0 /\ be_size / sector_size g = sector_count g.
Proof.
  pose proof (geo_image (g := g)) as Heq. pose proof (sector_size_range (g := g)).
  rewrite <- Heq. split; [by apply Z.mod_mul; lia | by apply Z.div_mul; lia].
Qed.

Lemma wp_try_found m l sector w (Q : option fffs_index_sequence -> world -> Prop) E :
  ring_headers m l -> flash_ok w -> (forall a, mem w a = m a) -> 0 <= sector < N ->
  (forall w', flash_is m w w' ->
     Q (if in_sequence l sector then Some (sequence_of l) else None) w') ->
  wp (try_header (sector_shift g) sector) Q E w.
Proof.
  intros Hrh Hok Hm Hs HQ. pose proof (sector_size_range (g := g)).
  pose proof (geo_count (g := g)). pose proof (geo_index (g := g)).
  destruct (sector_in_device sector 0 (sector_size g)) as [Hd1 Hd2]; [lia.. |].
  destruct image_divides as [Hmod Hdiv].
  unfold try_header. rewrite size_shift. cbv zeta. change FFFS_HEADER_SIZE with 8.
  destruct (Z.ltb_spec be_size (base sector + 8)); [lia |].
  apply wp_bind, wp_flash_read; [done | lia.. |]. intros w1 Hw1.
  rewrite (mem_bytes_ext (mem w) m) by (intros; apply Hm).
  assert (Hw1' : flash_is m w w1) by by eapply flash_is_ext.
  pose proof (rh_headers _ _ Hrh sector Hs) as Hh. unfold header_at in Hh.
  change FFFS_HEADER_SIZE with 8 in Hh. rewrite Hh.
  destruct (in_sequence l sector); [| by apply wp_ret, HQ].
  rewrite Z.eqb_refl, Hmod, Z.eqb_refl, Hdiv. cbn [negb].
  destruct (Z.ltb_spec (sector_count g) N); [lia |].
  apply wp_bind, (wp_scan m l (base sector) _ Hrh 0); try (apply Hw1'); try lia.
  { apply selected_init. }
  intros w2 s Hw2 Hsel.
  destruct (selected_active l s (rh_sequence _ _ Hrh) Hsel) as (Hf & Hb & Hser).
  rewrite (sl_conflict _ _ _ Hsel), Hf. cbn [negb orb].
  pose proof (rh_serial _ _ Hrh) as Hsr. rewrite Z.mod_small in Hser by lia.
  destruct (ring_pos_active l (rh_sequence _ _ Hrh)) as [Ha Hp].
  assert (Hrs : ring_serial l (active_index_sector l) = active_index_serial l).
  { unfold ring_serial. rewrite Hp. rewrite Z.sub_diag, Z.sub_0_r. by apply Z.mod_small. }
  unfold find_oldest_index_sector. rewrite Hb, Hser, <- Hrs.
  rewrite (find_oldest_ok l); [| apply Hrh | apply Hsel | done | lia | rewrite Hp; lia].
  apply wp_ret. rewrite Hp, Hrs.
  replace (1 + (index_sequence_count l - 1)) with (index_sequence_count l) by lia.
  apply HQ. by eapply flash_is_trans.
Qed.

(** A probe of another sector size finds nothing. *)
Lemma wp_try_quiet m l p sector w (Q : option fffs_index_sequence -> world -> Prop) E :
  ring_headers m l -> flash_ok w -> (forall a, mem w a = m a) ->
  0 <= p <= FFFS_MAX_SECTOR_SHIFT -> probed_first p (sector_shift g) = true ->
  sector = 0 \/ sector = 1 ->
  (forall w', flash_is m w w' -> Q None w') -> wp (try_header p sector) Q E w.
Proof.
  intros Hrh Hok Hm Hp Hfirst Hs HQ. unfold try_header. cbv zeta.
  assert (Hne : p <> sector_shift g).
  { intros ->. unfold probed_first in Hfirst. destruct (_ <=? 4).
    - by rewrite Z.ltb_irrefl in Hfirst.
    - by rewrite Z.ltb_irrefl in Hfirst. }
  change FFFS_HEADER_SIZE with 8.
  assert (Hpos : 0 <= Z.shiftl 256 p) by (apply Z.shiftl_nonneg; lia).
  destruct (Z.ltb_spec be_size (sector * Z.shiftl 256 p + 8)) as [| Hin];
    [apply wp_ret, HQ; by split |].
  apply wp_bind, wp_flash_read; [done | nia | lia | lia |]. intros w1 Hw1.
  rewrite (mem_bytes_ext (mem w) m) by (intros; apply Hm).
  assert (Hw1' : flash_is m w w1) by by eapply flash_is_ext.
  destruct (fffs_valid_index_header _) as [[[c sh] serial] |] eqn:Hv;
    [| by apply wp_ret, HQ].
  destruct (Z.eqb_spec sh p) as [-> |]; [| by apply wp_ret, HQ]. exfalso.
  pose proof (geo_index (g := g)).
  destruct Hs as [-> | ->].
  - pose proof (rh_headers _ _ Hrh 0 ltac:(lia)) as Hh. unfold header_at in Hh.
    change FFFS_HEADER_SIZE with 8 in Hh.
    change (0 * Z.shiftl 256 p) with 0 in Hv. change (base 0) with 0 in Hh.
    rewrite Hv in Hh. destruct (in_sequence l 0); congruence.
  - rewrite Z.mul_1_l in Hv, Hin.
    by apply (rh_quiet _ _ Hrh p Hp Hfirst Hin c serial).
Qed.

Lemma probe_shift_some q : 0 <= q <= 15 ->
  exists p, discovery_probe_shift q = Some p /\ 0 <= p <= FFFS_MAX_SECTOR_SHIFT.
Proof.
  intros Hq. unfold discovery_probe_shift. cbv zeta.
  destruct (Z.eqb_spec q 0); [eexists; split; [reflexivity | lia] |].
  change (4 - 0) with 4. destruct (Z.leb_spec q 4).
  - exists (4 - q). rewrite u8_small by (unfold is_u8; lia). split; [done | lia].
  - rewrite u8_small by (unfold is_u8; lia). destruct (Z.ltb_spec 15 (4 + (q - 4))); [lia |].
    eexists. split; [reflexivity | lia].
Qed.

(** Every sector size is probed. *)
Lemma probe_of_shift p : 0 <= p <= FFFS_MAX_SECTOR_SHIFT ->
  exists q, 0 <= q <= 15 /\ discovery_probe_shift q = Some p.
Proof.
  intros Hp. unfold discovery_probe_shift. cbv zeta. change (4 - 0) with 4.
  destruct (Z.lt_trichotomy p 4) as [Hlt | [-> | Hgt]].
  - exists (4 - p). split; [lia |]. destruct (Z.eqb_spec (4 - p) 0); [lia |].
    destruct (Z.leb_spec (4 - p) 4); [| lia]. rewrite u8_small by (unfold is_u8; lia).
    f_equal. lia.
  - exists 0. done.
  - exists p. split; [lia |]. destruct (Z.eqb_spec p 0); [lia |].
    destruct (Z.leb_spec p 4); [lia |]. rewrite u8_small by (unfold is_u8; lia).
    destruct (Z.ltb_spec 15 (4 + (p - 4))); [lia |]. f_equal. lia.
Qed.

(** The shift of a probe. *)
Lemma probe_shift_cases q p : 0 <= q <= 15 -> discovery_probe_shift q = Some p ->
  (q <= 4 /\ p = 4 - q) \/ (4 < q /\ p = q).
Proof.
  unfold discovery_probe_shift. cbv zeta. change (4 - 0) with 4. intros Hq.
  destruct (Z.eqb_spec q 0) as [-> |]; [intros [= <-]; left; done |].
  destruct (Z.leb_spec q 4).
  - rewrite u8_small by (unfold is_u8; lia). intros [= <-]. left. lia.
  - rewrite u8_small by (unfold is_u8; lia).
    destruct (Z.ltb_spec 15 (4 + (q - 4))); [done |]. intros [= <-]. right. lia.
Qed.

Lemma probe_before q q' p p' : 0 <= q < q' -> q' <= 15 ->
  discovery_probe_shift q = Some p -> discovery_probe_shift q' = Some p' ->
  probed_first p p' = true.
Proof.
  intros Hq Hq' Hp Hp'. apply probe_shift_cases in Hp; [| lia].
  apply probe_shift_cases in Hp'; [| lia]. unfold probed_first.
  destruct (Z.leb_spec p' 4), (Z.ltb_spec p' p), (Z.leb_spec p 4), (Z.ltb_spec p p');
    simpl; done || lia.
Qed.

Lemma wp_find_loop m l q n : ring_headers m l ->
  discovery_probe_shift q = Some (sector_shift g) -> q <= 15 ->
  forall probe w (Q : fffs_index_sequence -> world -> Prop) E,
  flash_ok w -> (forall a, mem w a = m a) -> 0 <= probe <= q ->
  q < probe + Z.of_nat n ->
  (forall w', flash_is m w w' -> Q (sequence_of l) w') ->
  wp (find_sequence_loop n probe) Q E w.
Proof.
  intros Hrh Hq Hq15. pose proof (geo_index (g := g)).
  induction n as [| n IH]; intros probe w Q E Hok Hm Hp Hn HQ; [lia |].
  cbn [find_sequence_loop].
  assert (Hstep : forall w1, flash_is m w w1 -> probe < q ->
    wp (find_sequence_loop n (probe + 1)) Q E w1).
  { intros w1 Hw1 Hlt. apply IH; [apply Hw1 | apply Hw1 | lia | lia |].
    intros w2 Hw2. apply HQ. by eapply flash_is_trans. }
  assert (Hw0 : flash_is m w w) by by split.
  destruct (probe_shift_some probe ltac:(lia)) as (p & Hps & Hpr). rewrite Hps.
  destruct (Z.eq_dec p (sector_shift g)) as [-> | Hne].
  - rewrite size_shift. destruct image_divides as [Hmod _]. rewrite Hmod. cbn [negb Z.eqb].
    apply wp_bind, (wp_try_found m l); [done | done | done | lia |]. intros w1 Hw1.
    destruct (in_sequence l 0) eqn:Hin0; [by apply wp_ret, HQ |].
    apply wp_bind, (wp_try_found m l); [done | apply Hw1 | apply Hw1 | lia |].
    intros w2 Hw2. destruct (rh_near _ _ Hrh) as [Hin | Hin]; [congruence |]. rewrite Hin.
    apply wp_ret, HQ. by eapply flash_is_trans.
  - assert (Hlt : probe < q)
      by (destruct (Z.eq_dec probe q) as [-> |]; [congruence | lia]).
    assert (Hfirst : probed_first p (sector_shift g) = true)
      by (by eapply (probe_before probe q); [lia | ..]).
    destruct (negb (be_size mod _ =? 0)); [by apply Hstep |].
    apply wp_bind, (wp_try_quiet m l); [done | done | done | done | done | by left |].
    intros w1 Hw1.
    apply wp_bind, (wp_try_quiet m l); [done | apply Hw1 | apply Hw1 | done | done | by right |].
    intros w2 Hw2. apply Hstep; [by eapply flash_is_trans | done].
Qed.

Lemma wp_find_sequence l w (Q : fffs_index_sequence -> world -> Prop) E :
  flash_ok w -> ring_headers (mem w) l ->
  (forall w', flash_is (mem w) w w' -> Q (sequence_of l) w') ->
  wp fffs_find_index_sequence Q E w.
Proof.
  intros Hok Hrh HQ. destruct (probe_of_shift (sector_shift g)) as (q & Hqr & Hq);
    [apply geo_shift |].
  by apply (wp_find_loop (mem w) l q 17 Hrh Hq ltac:(lia) 0); [| | lia | lia |].
Qed.
End Discovery.

(** C16: discovery.  On a device whose index-sector headers are those of a
    journal (the sectors of the ring from the oldest to the active one carry
    consecutive 4-bit serials, the others no valid header), with at most eight
    sectors in the sequence, one of the first two index sectors in it, and no
    header of another sector size where one is probed earlier,
    [fffs_find_index_sequence] returns exactly the journal's geometry, active
    sector and serial, oldest sector and length, and changes nothing. *)
Theorem discovery_finds_sequence `{Backend} `{!NorFlash} `{!ValidBackend}
    (g : fs_geometry) `{!GeoOk g} (l : fs_log_state) (w : world) :
  flash_ok w -> ring_headers g (mem w) l ->
  exists w', fffs_find_index_sequence w = (Ok (sequence_of g l), w') /\
    flash_is (mem w) w w'.
Proof.
  intros Hok Hrh.
  assert (Hwp : wp fffs_find_index_sequence
    (fun s w' => s = sequence_of g l /\ flash_is (mem w) w w') (fun _ _ => False) w)
    by by apply (wp_find_sequence g l).
  apply wp_returns in Hwp as (s & w' & Hrun & -> & Hw'). by exists w'.
Qed.

(** The headers of a ring on the demonstration device, by evaluation. *)
Ltac demo_ring_headers :=
  split;
  [ split; vm_compute; try split; done
  | vm_compute; discriminate
  | vm_compute; by split
  | let s := fresh in let Hs := fresh in intros s Hs; change (0 <= s < 2) in Hs;
    assert (s = 0 \/ s = 1) as [-> | ->] by lia; vm_compute; reflexivity
  | left; vm_compute; reflexivity
  | let p := fresh in let Hp := fresh in let Hfirst := fresh in
    let Hlo := fresh in let Hhi := fresh in
    intros p Hp Hfirst _ ? ?; change FFFS_MAX_SECTOR_SHIFT with 15 in Hp;
    unfold probed_first in Hfirst; simpl in Hfirst;
    apply andb_true_iff in Hfirst as [Hlo Hhi]; apply Z.ltb_lt in Hlo;
    apply Z.leb_le in Hhi;
    assert (p = 1 \/ p = 2 \/ p = 3 \/ p = 4) as [-> | [-> | [-> | ->]]] by lia;
    vm_compute; discriminate ].
