(* ===== verification/FileMdCommit.v ===== *)
(** * Metadata commit

    The part of [src/fffs_file_md.c] that finishes the records of a file being
    written and publishes the root in the journal. *)

From S2P Require Export IndexLog.

Section FileMdCommit.
Context `{Backend} `{!IndexCache}.

Definition fffs_begin_extent_metadata (file : Z) (sector data_off record_off
    : Z) (write_footer : bool) (data_len file_offset : Z) : M unit :=
  f <- get_file file ;;
  let is_root := sector =? f_head f in
  let type := if is_root then FFFS_MD_TYPE_FILE_ROOT_V1
              else FFFS_MD_TYPE_FILE_CONT_V1 in
  let logical_data_len := if is_root
                          then u16 (f_root_payload_offset f + data_len)
                          else data_len in
  let size_or_offset := if is_root then 0 else file_offset in
  fffs_program_extent_metadata sector (f_slot f) type data_off record_off
    write_footer logical_data_len 0 size_or_offset 0 false.

Definition fffs_finish_extent_metadata (file : Z) (sector next span_len
    total_size : Z) (write_size make_live commit_index : bool) : M unit :=
  f <- get_file file ;;
  record <- read_uncommitted_metadata_for_slot sector (f_slot f) ;;
  g <- get_geo ;;
  let off := sector * sector_size g + md_record_start record in
  fffs_flash_program_aligned (off + 3)
    (fffs_store_le16 next ++ fffs_store_le16 span_len) ;;
  when write_size
    (fffs_flash_program_aligned (off + 11) (fffs_store_le32 total_size)) ;;
  when make_live
    (fffs_flash_program_aligned off [FFFS_LIFECYCLE_VALID]) ;;
  when commit_index (fffs_append_index_record (f_slot f) (f_head f)) ;;
  when ((sector =? f_head f) && (negb (next =? 0) || (1 <? span_len)))
    (fffs_mark_sector_full sector ;; fffs_alloc_map_mark_used sector).

Definition fffs_finish_deferred_root_metadata (file : Z) : M unit :=
  f <- get_file file ;;
  root <- read_uncommitted_metadata_for_slot (f_head f) (f_slot f) ;;
  fffs_finish_extent_metadata file (f_head f) (md_next root)
    (md_span_len root) (f_size f) true true true.

Definition fffs_write_extent_metadata (file : Z) (sector data_off record_off
    : Z) (write_footer : bool) (data_len span_len total_size next file_offset
    : Z) (commit_index : bool) : M unit :=
  f <- get_file file ;;
  let is_root := sector =? f_head f in
  let type := if is_root then FFFS_MD_TYPE_FILE_ROOT_V1
              else FFFS_MD_TYPE_FILE_CONT_V1 in
  let logical_data_len := if is_root
                          then u16 (f_root_payload_offset f + data_len)
                          else data_len in
  let size_or_offset := if is_root then total_size else file_offset in
  fffs_program_extent_metadata sector (f_slot f) type data_off record_off
    write_footer logical_data_len span_len size_or_offset next true ;;
  when commit_index (fffs_append_index_record (f_slot f) (f_head f)).
End FileMdCommit.
