(* ===== verification/Fsinfo.v ===== *)
(** * Space accounting

    [fffs_fsinfo] of [src/fastffs.c]: committed totals by enumeration of the
    namespace index, pending totals of the open writers, and the metadata
    estimate. *)

From S2P Require Export FileMdCommit.

Section Fsinfo.
Context `{Backend} `{!IndexCache} `{Fuel}.

(** The enumeration of [fffs_fsinfo]; [n] bounds the number of entries. *)
Fixpoint fsinfo_loop (n : nat) (iter : fffs_index_iter)
    (file_count byte_count : Z) : M (Z * Z * fffs_status) :=
  match n with
  | O => diverge
  | S n' =>
      let* (entry, iter) := index_iter_read iter in
      match entry with
      | None => ret (file_count, byte_count, it_status iter)
      | Some (slot, head) =>
          r <- try_ (fffs_read_file_root_md head slot false None) ;;
          match r with
          | inl err => ret (file_count, byte_count, err)
          | inr root =>
              fsinfo_loop n' iter (u32 (file_count + 1))
                (u32 (byte_count + root_size root))
          end
      end
  end.

Definition fsinfo_refresh : M unit :=
  let* (file_count, byte_count, status) :=
    fsinfo_loop fuel (mk_iter 0 0 0 FFFS_OK) 0 0 in
  if negb (bool_decide (status = FFFS_OK)) then
    mod_info fffs_fsinfo_invalidate_committed ;;
    fail status
  else
    mod_info (fun i =>
      let i := set_committed_file_count file_count i in
      let i := set_committed_data_bytes byte_count i in
      set_fsinfo_valid_flags
        (clear_flags (Z.lor (fsinfo_valid_flags i) committed_mask)
           FFFS_FSINFO_METADATA_ESTIMATE_VALID) i).

(** The totals over the open writers. *)
Fixpoint pending_totals (files : list fffs_file) (count bytes : Z) : Z * Z :=
  match files with
  | [] => (count, bytes)
  | f :: rest =>
      if negb (has_flag (f_flags f) FFFS_O_WRONLY)
      then pending_totals rest count bytes
      else pending_totals rest (u32 (count + 1)) (u32 (bytes + f_size f))
  end.

Definition fffs_fsinfo_query (flags : Z) : M fffs_fsinfo :=
  let known_flags :=
    Z.lor (Z.lor FFFS_FSINFO_REFRESH_COMMITTED FFFS_FSINFO_ESTIMATE_METADATA)
      FFFS_FSINFO_REFRESH_IF_NEEDED in
  guard_err (negb (clear_flags flags known_flags =? 0)) FFFS_ERR_INVALID ;;
  fs <- get_fs ;;
  when (has_flag flags FFFS_FSINFO_REFRESH_COMMITTED ||
        (has_flag flags FFFS_FSINFO_REFRESH_IF_NEEDED &&
         negb (fffs_fsinfo_committed_valid (fs_info fs))))
    fsinfo_refresh ;;
  fs <- get_fs ;;
  files <- get_files ;;
  let g := fs_geo fs in
  let i := fs_info fs in
  let data_sectors := if index_sectors g <? sector_count g
                      then sector_count g - index_sectors g else 0 in
  let total := u32 (data_sectors *
                    (sector_size g - FFFS_SECTOR_FOOTER_SIZE)) in
  let '(pending_count, pending_bytes) :=
    pending_totals (open_handles fs files) 0 0 in
  let committed := fffs_fsinfo_committed_valid i in
  let estimate := has_flag flags FFFS_FSINFO_ESTIMATE_METADATA && committed in
  let valid := Z.lor FFFS_FSINFO_TOTAL_VALID FFFS_FSINFO_PENDING_VALID in
  let valid := if committed then Z.lor valid committed_mask else valid in
  let valid := if estimate
               then Z.lor valid FFFS_FSINFO_METADATA_ESTIMATE_VALID
               else valid in
  ret {| info_valid_flags := valid;
         info_total_bytes := total;
         info_committed_file_count :=
           if committed then committed_file_count i else 0;
         info_committed_data_bytes :=
           if committed then committed_data_bytes i else 0;
         info_pending_file_count := pending_count;
         info_pending_data_bytes := pending_bytes;
         info_estimated_metadata_bytes :=
           if estimate
           then u32 (u32 (committed_file_count i * FFFS_MD_FILE_RECORD_SIZE) *
                     avg_sectors_per_file_q8 i) / FFFS_SECTORS_PER_FILE_Q8_ONE
           else 0 |}.
End Fsinfo.
