(* ===== verification/Gc.v ===== *)
(** * Garbage collection and compaction

    [src/fffs_gc.c], with the placement of compacted roots and the compaction
    reserve of [src/fffs_alloc.c] that it calls. *)

From S2P Require Export Fsinfo.

(** ** Compaction reserve (fffs_alloc.c) *)

Definition reserve_at (l : list Z) (i : Z) : Z := byte_at l i.

Fixpoint reserved_loop (n : nat) (sectors : list Z) (i sector : Z) : bool :=
  match n with
  | O => false
  | S n' => if reserve_at sectors i =? sector then true
            else reserved_loop n' sectors (i + 1) sector
  end.

Definition fffs_alloc_compaction_reserved (a : fs_alloc_state) (sector : Z)
  : bool :=
  reserved_loop (Z.to_nat (compaction_reserve_count a))
    (compaction_reserve_sectors a) 0 sector.

(** The shift of the entries from [j] on, [n] of them. *)
Fixpoint reserve_shift (n : nat) (sectors : list Z) (j : Z) : list Z :=
  match n with
  | O => sectors
  | S n' => reserve_shift n'
              (<[Z.to_nat j := reserve_at sectors (j + 1)]> sectors) (j + 1)
  end.

Fixpoint reserve_remove_loop (n : nat) (a : fs_alloc_state) (i sector : Z)
  : fs_alloc_state :=
  match n with
  | O => a
  | S n' =>
      if negb (reserve_at (compaction_reserve_sectors a) i =? sector)
      then reserve_remove_loop n' a (i + 1) sector
      else
        let count := compaction_reserve_count a - 1 in
        set_compaction_reserve_sectors
          (reserve_shift (Z.to_nat (count - i)) (compaction_reserve_sectors a) i)
          (set_compaction_reserve_count count a)
  end.

Definition fffs_alloc_compaction_reserve_remove (a : fs_alloc_state)
    (sector : Z) : fs_alloc_state :=
  reserve_remove_loop (Z.to_nat (compaction_reserve_count a)) a 0 sector.

(** ** Compaction candidates *)

Definition compaction_candidate_better
    (candidate other : fffs_compaction_candidate) : bool :=
  if cc_sector candidate =? 0 then false
  else if cc_sector other =? 0 then true
  else if negb (cc_trapped_reclaimable candidate =? cc_trapped_reclaimable other)
  then cc_trapped_reclaimable other <? cc_trapped_reclaimable candidate
  else if negb (cc_live_root_count candidate =? cc_live_root_count other)
  then cc_live_root_count other <? cc_live_root_count candidate
  else false.

Definition candidate_at (l : list fffs_compaction_candidate) (i : nat)
  : fffs_compaction_candidate := nth i l candidate_zero.

(** The insertion loop: bubble the entry at [pos] towards the front. *)
Fixpoint candidate_bubble (pos : nat) (l : list fffs_compaction_candidate)
  : list fffs_compaction_candidate :=
  match pos with
  | O => l
  | S p =>
      if compaction_candidate_better (candidate_at l pos) (candidate_at l p)
      then candidate_bubble p
             (<[pos := candidate_at l p]> (<[p := candidate_at l pos]> l))
      else l
  end.

Definition insert_candidate (c : fffs_compaction_candidate)
    (l : list fffs_compaction_candidate) : list fffs_compaction_candidate :=
  let pos := Z.to_nat (FFFS_COMPACTION_CANDIDATE_COUNT - 1) in
  if negb (compaction_candidate_better c (candidate_at l pos)) then l
  else candidate_bubble pos (<[pos := c]> l).

(** The candidate a sector's walk totals make. *)
Definition candidate_of_walk (g : fs_geometry) (md : fffs_md_walk)
    (sector immediate_free : Z) : fffs_compaction_candidate :=
  let accounted := wk_live_bytes md + immediate_free in
  let trapped := if accounted <? sector_size g
                 then sector_size g - accounted else 0 in
  let trapped := if UINT16_MAX <? trapped then UINT16_MAX else trapped in
  mk_candidate sector (u16 trapped) (wk_live_root_count md).

Definition gc_update_compaction_candidate (g : fs_geometry) (sector
    immediate_free : Z) (s : fs_gc_state) : fs_gc_state :=
  set_compaction_candidates
    (insert_candidate (candidate_of_walk g (gc_md s) sector immediate_free)
       (compaction_candidates s)) s.

Definition normalized_data_cursor (g : fs_geometry) (sector : Z) : Z :=
  if (sector <? index_sectors g) || (sector_count g <=? sector)
  then index_sectors g else sector.

Section Gc.
Context `{Backend} `{!IndexCache} `{Fuel}.

(** ** Placement of a compacted root (fffs_alloc.c) *)

Definition reserve_remove (sector : Z) : M unit :=
  mod_alloc (fun a => fffs_alloc_compaction_reserve_remove a sector).

(** The reserve bank: [n] entries left from index [i]. *)
Fixpoint root_window_reserve (n : nat) (i slot data_len : Z)
  : M (option (Z * free_window)) :=
  match n with
  | O => ret None
  | S n' =>
      fs <- get_fs ;;
      let reserved :=
        reserve_at (compaction_reserve_sectors (fs_alloc fs)) i in
      r <- try_ (fffs_find_sector_free_window reserved data_len slot true) ;;
      match r with
      | inl FFFS_ERR_NO_SPACE => root_window_reserve n' (i + 1) slot data_len
      | inl err => fail err
      | inr win =>
          reserve_remove reserved ;;
          fffs_alloc_map_mark_unknown reserved ;;
          ret (Some (reserved, win))
      end
  end.

Fixpoint root_window_scan (n : nat) (s source_sector slot data_len : Z)
    (normal_allocation : bool) : M (option (Z * free_window)) :=
  match n with
  | O => ret None
  | S n' =>
      fs <- get_fs ;;
      let g := fs_geo fs in
      held <- is_open_for_writing (u16 s) ;;
      if (normal_allocation && fffs_alloc_map_maybe_used fs (u16 s)) ||
         (s =? source_sector) || held
      then root_window_scan n' (fffs_next_data_sector g s) source_sector slot
             data_len normal_allocation
      else
        r <- try_ (fffs_find_sector_free_window (u16 s) data_len slot
                     normal_allocation) ;;
        match r with
        | inr win =>
            mod_alloc (set_alloc_cursor
              (if FFFS_ALLOC_TARGET_DENSITY <=? fw_md_records win
               then fffs_next_data_sector g s else s)) ;;
            ret (Some (u16 s, win))
        | inl FFFS_ERR_NO_SPACE =>
            root_window_scan n' (fffs_next_data_sector g s) source_sector slot
              data_len normal_allocation
        | inl err => fail err
        end
  end.

(** One pass of the scan over the data sectors, from the cursor. *)
Definition root_window_pass (source_sector slot data_len : Z)
    (normal_allocation : bool) : M (option (Z * free_window)) :=
  fs <- get_fs ;;
  let g := fs_geo fs in
  let s := alloc_cursor (fs_alloc fs) in
  let s := if (s <? index_sectors g) || (sector_count g <=? s)
           then index_sectors g else s in
  root_window_scan (Z.to_nat (sector_count g - index_sectors g)) s
    source_sector slot data_len normal_allocation.

Definition fffs_alloc_find_compaction_root_window (source_sector slot data_len
    : Z) (allow_relaxed : bool) : M (Z * free_window) :=
  fs <- get_fs ;;
  r <- root_window_reserve
         (Z.to_nat (compaction_reserve_count (fs_alloc fs))) 0 slot data_len ;;
  match r with
  | Some win => ret win
  | None =>
      r <- root_window_pass source_sector slot data_len true ;;
      match r with
      | Some win => ret win
      | None =>
          if allow_relaxed then
            r <- root_window_pass source_sector slot data_len false ;;
            match r with
            | Some win => ret win
            | None => fail FFFS_ERR_NO_SPACE
            end
          else fail FFFS_ERR_NO_SPACE
      end
  end.

(** ** Reachability *)

Fixpoint reachable_loop (n : nat) (slot current sector : Z) : M bool :=
  if current =? 0 then ret false
  else match n with
       | O => fail FFFS_ERR_CORRUPT
       | S n' =>
           g <- get_geo ;;
           record <- fffs_read_md_for_slot current slot ;;
           let span_end := current + md_span_len record in
           guard_err (sector_count g <? span_end) FFFS_ERR_CORRUPT ;;
           if (current <=? sector) && (sector <? span_end) then ret true
           else reachable_loop n' slot (md_next record) sector
       end.

Definition sector_is_reachable_from_chain (slot head sector : Z) : M bool :=
  g <- get_geo ;;
  reachable_loop (Z.to_nat (sector_count g)) slot head sector.

(** ** Root-only compaction *)

Definition gc_fsinfo_allows_compaction (candidate : fffs_compaction_candidate)
  : M bool :=
  info <- fffs_fsinfo_query (Z.lor FFFS_FSINFO_REFRESH_IF_NEEDED
                               FFFS_FSINFO_ESTIMATE_METADATA) ;;
  g <- get_geo ;;
  let required :=
    if cc_trapped_reclaimable candidate <? sector_size g
    then u32 (sector_size g - cc_trapped_reclaimable candidate)
    else FFFS_ALLOC_MIN_USABLE_FREE in
  let needed_flags :=
    Z.lor (Z.lor FFFS_FSINFO_TOTAL_VALID FFFS_FSINFO_COMMITTED_BYTES_VALID)
      (Z.lor FFFS_FSINFO_PENDING_VALID FFFS_FSINFO_METADATA_ESTIMATE_VALID) in
  if negb (Z.land (info_valid_flags info) needed_flags =? needed_flags)
  then ret false
  else
    let used := u32 (info_committed_data_bytes info +
                     info_pending_data_bytes info +
                     info_estimated_metadata_bytes info) in
    if info_total_bytes info <=? used then ret false
    else ret (required <=? info_total_bytes info - used).

Fixpoint copy_root_loop (n : nat) (src dst remaining : Z) : M unit :=
  if remaining =? 0 then ret tt
  else match n with
       | O => diverge
       | S n' =>
           g <- get_geo ;;
           let k := if remaining <? scratch_size g then remaining
                    else scratch_size g in
           chunk <- flash_read_scratch src k ;;
           fffs_scratch_bump ;;
           fffs_flash_program_aligned dst chunk ;;
           copy_root_loop n' (src + k) (dst + k) (remaining - k)
       end.

Definition gc_copy_root_data (source_sector : Z) (record : fffs_md_record)
    (dest_sector dest_data_off : Z) : M unit :=
  g <- get_geo ;;
  copy_root_loop (Z.to_nat (md_data_len record))
    (source_sector * sector_size g + md_data_off record)
    (dest_sector * sector_size g + dest_data_off) (md_data_len record).

Definition gc_copy_root_record (source_sector : Z) (record : fffs_md_record)
    (allow_relaxed_compaction : bool) : M unit :=
  let* (dest_sector, win) :=
    fffs_alloc_find_compaction_root_window source_sector (md_slot record)
      (md_data_len record) allow_relaxed_compaction in
  gc_copy_root_data source_sector record dest_sector (fw_data_off win) ;;
  let next := if 1 <? md_span_len record then u16 (source_sector + 1)
              else md_next record in
  fffs_program_extent_metadata dest_sector (md_slot record)
    FFFS_MD_TYPE_FILE_ROOT_V1 (fw_data_off win) (fw_record_off win)
    (fw_needs_footer win) (md_data_len record) 1 (md_size_or_offset record)
    next true ;;
  fffs_append_index_record (md_slot record) dest_sector.

Fixpoint tombstone_copied_loop (n : nat) (sector : Z) (entry through : Z)
    (walk : fffs_md_walk) (window : fffs_sector_reader) : M unit :=
  if negb (wk_active walk) || negb (entry <? through) then ret tt
  else match n with
       | O => diverge
       | S n' =>
           let* (walk, window, record, result) :=
             fffs_md_walk_next walk window in
           if negb (bool_decide (result = FFFS_MD_WALK_RECORD)) then ret tt
           else
             when (md_live record &&
                   (md_type record =? FFFS_MD_TYPE_FILE_ROOT_V1))
               (fffs_tombstone_metadata_for_slot sector (md_slot record)
                  FFFS_TOMBSTONE_NO_ACCOUNTING ;;
                fffs_alloc_map_mark_unknown sector) ;;
             tombstone_copied_loop n' sector (entry + 1) through walk window
       end.

Definition gc_tombstone_copied_roots (sector copied_through_entry : Z)
  : M unit :=
  g <- get_geo ;;
  let* (walk, window) :=
    fffs_md_walk_init sector (local_reader FFFS_MD_PRELOAD_MAX sector) in
  tombstone_copied_loop (walk_bound g) sector 0 copied_through_entry walk
    window.

(** The copy loop of [gc_compact_root_only_sector]: the status it leaves
    with, [FFFS_OK] when every live root was copied, and the number of
    entries up to the last copied one. *)
Fixpoint compact_roots_loop (n : nat) (source_sector : Z)
    (allow_relaxed : bool) (entry copied_through : Z) (walk : fffs_md_walk)
    (window : fffs_sector_reader) : M (fffs_status * Z) :=
  if negb (wk_active walk) then ret (FFFS_OK, copied_through)
  else match n with
       | O => diverge
       | S n' =>
           r <- try_ (fffs_md_walk_next walk window) ;;
           match r with
           | inl err => ret (err, copied_through)
           | inr (walk, window, record, result) =>
               match result with
               | FFFS_MD_WALK_END_INVALID =>
                   ret (FFFS_ERR_NO_SPACE, copied_through)
               | FFFS_MD_WALK_END_ERASED | FFFS_MD_WALK_END_CLAIMED_DATA =>
                   ret (FFFS_OK, copied_through)
               | FFFS_MD_WALK_RECORD =>
                   if md_live record then
                     pinned <- slot_is_pinned (md_slot record) ;;
                     if negb (md_type record =? FFFS_MD_TYPE_FILE_ROOT_V1) ||
                        pinned
                     then ret (FFFS_ERR_NO_SPACE, copied_through)
                     else
                       r <- try_ (gc_copy_root_record source_sector record
                                    allow_relaxed) ;;
                       match r with
                       | inl err => ret (err, copied_through)
                       | inr _ =>
                           compact_roots_loop n' source_sector allow_relaxed
                             (entry + 1) (entry + 1) walk window
                       end
                   else compact_roots_loop n' source_sector allow_relaxed
                          (entry + 1) copied_through walk window
               end
           end
       end.

Definition gc_compact_root_only_sector (source_sector : Z)
    (allow_relaxed_compaction : bool) : M Z :=
  g <- get_geo ;;
  let* (walk, window) :=
    fffs_md_walk_init source_sector
      (local_reader FFFS_MD_PRELOAD_MAX source_sector) in
  let* (err, copied_through) :=
    compact_roots_loop (walk_bound g) source_sector allow_relaxed_compaction
      0 0 walk window in
  r <- (if bool_decide (err = FFFS_OK)
        then try_ (backend_erase (source_sector * sector_size g)
                     (sector_size g))
        else ret (inl err)) ;;
  match r with
  | inr _ =>
      fffs_alloc_map_mark_unknown source_sector ;;
      ret source_sector
  | inl err =>
      when (negb (copied_through =? 0))
        (gc_tombstone_copied_roots source_sector copied_through) ;;
      fail err
  end.

Fixpoint compact_candidates_loop (n i : nat) (allow_relaxed : bool) : M Z :=
  match n with
  | O => fail FFFS_ERR_NO_SPACE
  | S n' =>
      fs <- get_fs ;;
      let candidate := candidate_at (compaction_candidates (fs_gc fs)) i in
      if cc_sector candidate =? 0 then fail FFFS_ERR_NO_SPACE
      else
        allowed <- gc_fsinfo_allows_compaction candidate ;;
        if negb allowed then compact_candidates_loop n' (S i) allow_relaxed
        else
          r <- try_ (gc_compact_root_only_sector (cc_sector candidate)
                       allow_relaxed) ;;
          match r with
          | inr erased => ret erased
          | inl FFFS_ERR_NO_SPACE =>
              compact_candidates_loop n' (S i) allow_relaxed
          | inl err => fail err
          end
  end.

Definition fffs_gc_compact_until_erased (allow_relaxed_compaction : bool)
  : M Z :=
  compact_candidates_loop (Z.to_nat FFFS_COMPACTION_CANDIDATE_COUNT) 0
    allow_relaxed_compaction.

(** ** The incremental step *)

(** Whether the record is live; a live-looking record that its slot's chain
    does not reach is tombstoned. *)
Definition gc_classify_record (sector : Z) (record : fffs_md_record)
  : M bool :=
  if negb (md_live record) then ret false
  else
    pinned <- slot_is_pinned (md_slot record) ;;
    if pinned then ret true
    else
      let* (head, found) := index_head_for_slot (md_slot record) in
      if negb found then ret false
      else
        reachable <- sector_is_reachable_from_chain (md_slot record) head
                       sector ;;
        if reachable then ret true
        else
          fffs_tombstone_metadata_for_slot (u16 sector) (md_slot record)
            FFFS_TOMBSTONE_NO_ACCOUNTING ;;
          ret false.

Definition set_md (f : fffs_md_walk -> fffs_md_walk) : M unit :=
  mod_gc (fun s => set_gc_md (f (gc_md s)) s).

Definition gc_deactivate : M unit := set_md (set_wk_active false).

(** Advance the cursor past sector [s]. *)
Definition gc_advance (s : Z) (live_seen : bool) : M unit :=
  g <- get_geo ;;
  mod_gc (set_gc_cursor (fffs_next_data_sector g s)) ;;
  set_md (fun md => set_wk_active false (set_wk_live_seen live_seen md)).

Definition gc_tombstone_and_stop (s : Z) : M fffs_gc_action :=
  fffs_tombstone_sector (u16 s) ;;
  fffs_alloc_map_mark_unknown (u16 s) ;;
  ret FFFS_GC_TOMBSTONED.

(** The totals a live record adds to the walk. *)
Definition note_live_record (record : fffs_md_record) (pinned : bool)
    (md : fffs_md_walk) : fffs_md_walk :=
  let md := set_wk_live_seen true md in
  let md := set_wk_live_bytes
              (u32 (wk_live_bytes md + md_data_len record +
                    FFFS_MD_FILE_RECORD_SIZE)) md in
  let md :=
    if md_type record =? FFFS_MD_TYPE_FILE_ROOT_V1
    then set_wk_live_root_count (u16 (wk_live_root_count md + 1))
           (set_wk_live_root_seen true md)
    else if md_type record =? FFFS_MD_TYPE_FILE_CONT_V1
    then set_wk_live_continuation_seen true md
    else md in
  if pinned then set_wk_open_seen true md else md.

(** The end of a sector with live data: candidate selection and the full
    hint. *)
Definition gc_finish_live_sector (s : Z) (walk_result : fffs_md_walk_result)
  : M fffs_gc_action :=
  fs <- get_fs ;;
  let g := fs_geo fs in
  let md := gc_md (fs_gc fs) in
  let root_only := wk_live_root_seen md &&
                   negb (wk_live_continuation_seen md) &&
                   negb (wk_open_seen md) in
  let normal_alloc_full :=
    wk_live_continuation_seen md ||
    (FFFS_ALLOC_MAX_MD_RECORDS_PER_SECTOR <=? wk_live_root_count md) in
  let free_len := wk_cursor md - wk_claimed_data_end md in
  immediate_free <-
    (if (root_only || negb normal_alloc_full) &&
        bool_decide (walk_result = FFFS_MD_WALK_END_ERASED) &&
        (wk_claimed_data_end md <? wk_cursor md) &&
        (FFFS_ALLOC_MIN_USABLE_FREE <=? free_len)
     then
       r <- try_ (fffs_flash_span_is_erased
                    (s * sector_size g + wk_claimed_data_end md) free_len) ;;
       match r with
       | inr _ => ret free_len
       | inl FFFS_ERR_NO_SPACE => ret 0
       | inl err => fail err
       end
     else ret 0) ;;
  when root_only
    (mod_gc (gc_update_compaction_candidate g (u16 s) immediate_free)) ;;
  let normal_alloc_full :=
    normal_alloc_full ||
    (immediate_free <? FFFS_ALLOC_MIN_USABLE_FREE + FFFS_MD_FILE_RECORD_SIZE)
  in
  when normal_alloc_full (fffs_alloc_map_mark_used (u16 s)) ;;
  mod_gc (set_gc_cursor (fffs_next_data_sector g s)) ;;
  gc_deactivate ;;
  ret FFFS_GC_SCANNED.

(** The end of a sector's walk: a sector with nothing live is tombstoned. *)
Definition gc_finish_sector (s : Z) (walk_result : fffs_md_walk_result)
  : M fffs_gc_action :=
  fs <- get_fs ;;
  if wk_live_seen (gc_md (fs_gc fs)) then gc_finish_live_sector s walk_result
  else
    fffs_tombstone_sector (u16 s) ;;
    fffs_alloc_map_mark_unknown (u16 s) ;;
    gc_deactivate ;;
    ret FFFS_GC_TOMBSTONED.

(** One round of the walk. *)
Definition gc_walk_round (s : Z) (window : fffs_sector_reader)
  : M fffs_gc_action :=
  fs <- get_fs ;;
  r <- try_ (fffs_md_walk_next (gc_md (fs_gc fs)) window) ;;
  match r with
  | inl FFFS_ERR_CORRUPT => gc_deactivate ;; gc_tombstone_and_stop s
  | inl err => gc_deactivate ;; fail err
  | inr (md, _, record, walk_result) =>
      set_md (fun _ => md) ;;
      when (bool_decide (walk_result = FFFS_MD_WALK_RECORD))
        (r <- try_ (gc_classify_record s record) ;;
         match r with
         | inl err => gc_deactivate ;; fail err
         | inr live =>
             pinned <- slot_is_pinned (md_slot record) ;;
             when live (set_md (note_live_record record pinned))
         end) ;;
      fs <- get_fs ;;
      let md := gc_md (fs_gc fs) in
      if bool_decide (walk_result = FFFS_MD_WALK_RECORD) && wk_active md
      then ret (if md_live record && negb (wk_live_seen md)
                then FFFS_GC_TOMBSTONED else FFFS_GC_SCANNED)
      else gc_finish_sector s walk_result
  end.

(** The metadata part of the step, on a sector with a live footer. *)
Definition gc_walk_sector (s : Z) (window : fffs_sector_reader)
  : M fffs_gc_action :=
  fs <- get_fs ;;
  let md := gc_md (fs_gc fs) in
  window <- (if negb (wk_active md) || negb (wk_sector md =? s) then
               let* (md, window) := fffs_md_walk_init (u16 s) window in
               set_md (fun _ => md) ;; ret window
             else ret window) ;;
  gc_walk_round s window.

(** The footer says that nothing in the sector is live. *)
Definition footer_says_erase (footer : fffs_sector_footer) : bool :=
  negb (ft_type footer =? FFFS_SECTOR_TYPE_FILE) ||
  negb (ft_magic_valid footer) ||
  bool_decide (ft_valid_bits footer = FFFS_BITMIRROR_MIXED) ||
  bool_decide (ft_tombstone_bits footer = FFFS_BITMIRROR_MIXED) ||
  (ft_state footer =? 0xff) ||
  bool_decide (ft_tombstone_bits footer = FFFS_BITMIRROR_CLEARED).

Definition gc_erase_sector (s : Z) : M fffs_gc_action :=
  g <- get_geo ;;
  backend_erase (s * sector_size g) (sector_size g) ;;
  fffs_alloc_map_mark_unknown (u16 s) ;;
  gc_advance s false ;;
  ret FFFS_GC_ERASED.

(** The flash part of the step. *)
Definition gc_scan_sector (s : Z) : M fffs_gc_action :=
  g <- get_geo ;;
  let* (footer, window) :=
    view_footer (local_reader FFFS_MD_PRELOAD_MAX (u16 s)) (u16 s) in
  if ft_erased footer then
    r <- try_ (fffs_flash_span_is_erased (s * sector_size g) (sector_size g)) ;;
    match r with
    | inr _ =>
        fffs_alloc_map_mark_unknown (u16 s) ;;
        gc_advance s false ;;
        ret FFFS_GC_ERASED
    | inl FFFS_ERR_NO_SPACE => gc_erase_sector s
    | inl err => fail err
    end
  else if footer_says_erase footer then gc_erase_sector s
  else if negb (fffs_lifecycle_is_live (ft_valid_bits footer)
                  (ft_tombstone_bits footer))
  then fail FFFS_ERR_CORRUPT
  else gc_walk_sector s window.

(** The action, and [*out_cheap_skip]. *)
Definition gc_step (use_map : bool) : M (fffs_gc_action * bool) :=
  fs <- get_fs ;;
  let g := fs_geo fs in
  if sector_count g <=? index_sectors g then ret (FFFS_GC_IDLE, true)
  else
    let s := normalized_data_cursor g (gc_cursor (fs_gc fs)) in
    when (negb (s =? gc_cursor (fs_gc fs)))
      (set_md (fun md => set_wk_active false (set_wk_live_seen false md))) ;;
    held <- is_open_for_writing (u16 s) ;;
    if use_map && fffs_alloc_map_maybe_used fs (u16 s) then
      gc_advance s false ;; ret (FFFS_GC_SCANNED, true)
    else if fffs_alloc_compaction_reserved (fs_alloc fs) (u16 s) then
      gc_advance s false ;; ret (FFFS_GC_SCANNED, true)
    else if held then
      gc_advance s true ;; ret (FFFS_GC_SCANNED, true)
    else
      action <- gc_scan_sector s ;;
      ret (action, false).

(** The public step skips over sectors classified from memory, for at most
    one pass over the data sectors. *)
Fixpoint gc_step_loop (n : nat) (skipped data_sectors : Z)
  : M fffs_gc_action :=
  match n with
  | O => diverge
  | S n' =>
      let* (action, cheap_skip) := gc_step true in
      if negb cheap_skip || (data_sectors <=? skipped + 1) then ret action
      else gc_step_loop n' (skipped + 1) data_sectors
  end.

Definition fffs_gc_step : M fffs_gc_action :=
  g <- get_geo ;;
  let data_sectors := if index_sectors g <? sector_count g
                      then sector_count g - index_sectors g else 0 in
  gc_step_loop (S (Z.to_nat data_sectors)) 0 data_sectors.

(** One pass of [fffs_gc_until_erased]: the erased sector, if one was found.
    The code does not bound the number of rounds. *)
Fixpoint until_erased_pass (n : nat) (use_map : bool)
    (advanced data_sectors : Z) : M (option Z) :=
  if negb (advanced <? data_sectors) then ret None
  else match n with
       | O => diverge
       | S n' =>
           fs <- get_fs ;;
           let before := normalized_data_cursor (fs_geo fs)
                           (gc_cursor (fs_gc fs)) in
           let* (action, _) := gc_step use_map in
           if bool_decide (action = FFFS_GC_ERASED) then ret (Some (u16 before))
           else
             fs <- get_fs ;;
             let after := normalized_data_cursor (fs_geo fs)
                            (gc_cursor (fs_gc fs)) in
             if negb (after =? before)
             then until_erased_pass n' use_map (advanced + 1) data_sectors
             else if bool_decide (action = FFFS_GC_IDLE) then ret None
             else until_erased_pass n' use_map advanced data_sectors
       end.

Definition clear_candidates : M unit :=
  mod_gc (set_compaction_candidates
    (replicate (Z.to_nat FFFS_COMPACTION_CANDIDATE_COUNT) candidate_zero)).

Definition fffs_gc_until_erased : M Z :=
  g <- get_geo ;;
  if sector_count g <=? index_sectors g then fail FFFS_ERR_NO_SPACE
  else
    let data_sectors := sector_count g - index_sectors g in
    clear_candidates ;;
    r <- until_erased_pass fuel true 0 data_sectors ;;
    match r with
    | Some s => ret s
    | None =>
        clear_candidates ;;
        r <- until_erased_pass fuel false 0 data_sectors ;;
        match r with
        | Some s => ret s
        | None => fffs_gc_compact_until_erased false
        end
    end.

Fixpoint gc_loop (n : nat) (erased : Z) : M Z :=
  match n with
  | O => ret erased
  | S n' =>
      action <- fffs_gc_step ;;
      gc_loop n' (if bool_decide (action = FFFS_GC_ERASED)
                  then erased + 1 else erased)
  end.

Definition fffs_gc (max_steps : Z) : M Z := gc_loop (Z.to_nat max_steps) 0.
End Gc.
