(* ===== verification/GcMem.v ===== *)
(** * Garbage collection as a change of the flash

    What the collector may do to the flash: the effect of a tombstone on the
    records of a sector, the extents that the chains of the namespace reach,
    and the changes that keep every one of them. *)

From S2P Require Export MdWrite.

Section GcMem.
Context `{Backend} `{!NorFlash} `{!ValidBackend} (g : fs_geometry) `{!GeoOk g}.
#[local] Abbreviation base s := (s * sector_size g).

(** ** The tombstone of a record *)

(** The record once its state byte was programmed. *)
Definition killed (r : fffs_md_record) : fffs_md_record :=
  {| md_type := md_type r;
     md_state := Z.land (md_state r) FFFS_LIFECYCLE_TOMBSTONED;
     md_live := false;
     md_slot := md_slot r; md_next := md_next r; md_span_len := md_span_len r;
     md_data_off := md_data_off r; md_data_len := md_data_len r;
     md_size_or_offset := md_size_or_offset r;
     md_record_start := md_record_start r; md_record_len := md_record_len r |}.

(** The flash once the record [r] of [sector] was tombstoned. *)
Definition kill_at (m : Z -> Z) (sector : Z) (r : fffs_md_record) : Z -> Z :=
  mem_program m (base sector + md_record_start r) [FFFS_LIFECYCLE_TOMBSTONED].

Lemma kill_at_byte m sector r a :
  kill_at m sector r a =
  if a =? base sector + md_record_start r
  then Z.land (m a) FFFS_LIFECYCLE_TOMBSTONED else m a.
Proof. apply mem_program_byte. Qed.

(** A tombstoned state byte is never live, and it stays a valid state when the
    byte was committed. *)
Lemma tombstoned_state s :
  is_u8 s ->
  state_is_live (Z.land s FFFS_LIFECYCLE_TOMBSTONED) = false /\
  fffs_lifecycle_valid_pair (Z.land s FFFS_LIFECYCLE_TOMBSTONED) =
    FFFS_BITMIRROR_CLEARED /\
  Z.land s FFFS_LIFECYCLE_TOMBSTONED <> 0xff.
Proof.
  intros Hs.
  assert (Hall : all_bytes (fun s => let t := Z.land s FFFS_LIFECYCLE_TOMBSTONED in
    negb (state_is_live t) &&
    bool_decide (fffs_lifecycle_valid_pair t = FFFS_BITMIRROR_CLEARED) &&
    negb (t =? 0xff)) = true) by (vm_compute; done).
  pose proof (all_bytes_spec _ _ Hall Hs) as Hb. cbv beta zeta in Hb.
  rewrite !andb_true_iff, !negb_true_iff, bool_decide_eq_true, Z.eqb_neq in Hb.
  tauto.
Qed.

(** The first byte of a record is its state; the others decide the rest. *)
Lemma mem_bytes_cons m off n :
  0 < n -> mem_bytes m off n = m off :: mem_bytes m (off + 1) (n - 1).
Proof.
  intros Hn. apply list_eq_byte_at.
  - rewrite zlen_cons, !zlen_mem_bytes; lia.
  - intros i. rewrite zlen_mem_bytes by lia. intros Hi.
    rewrite byte_at_mem_bytes by lia. destruct (Z.eq_dec i 0) as [-> | Hne].
    + by rewrite byte_at_cons_0, Z.add_0_r.
    + rewrite byte_at_cons_pos, byte_at_mem_bytes by lia. f_equal. lia.
Qed.

Lemma decode_state type start x y l :
  decode_md_fields type start (y :: l) =
  let r := decode_md_fields type start (x :: l) in
  {| md_type := type; md_state := y; md_live := state_is_live y;
     md_slot := md_slot r; md_next := md_next r; md_span_len := md_span_len r;
     md_data_off := md_data_off r; md_data_len := md_data_len r;
     md_size_or_offset := md_size_or_offset r;
     md_record_start := start; md_record_len := FFFS_MD_FILE_RECORD_SIZE |}.
Proof. reflexivity. Qed.

Lemma parse_state m sector cursor r :
  parse_at g m sector cursor = PRecord r ->
  md_state r = m (base sector + (cursor - 16)) /\
  md_live r = state_is_live (md_state r) /\
  md_record_len r = FFFS_MD_FILE_RECORD_SIZE.
Proof.
  unfold parse_at. cbv zeta. destruct (_ =? 255); [done |].
  destruct (cursor <? _); [done |]. destruct (_ && _); [done |].
  destruct (md_fields_valid _ _ _ _); [| done]. intros [= <-].
  rewrite mem_bytes_cons by lia. done.
Qed.

Lemma fields_valid_killed sector start r :
  is_u8 (md_state r) -> md_live r = state_is_live (md_state r) ->
  md_live r = true -> md_fields_valid g sector start r = true ->
  md_fields_valid g sector start (killed r) = true.
Proof.
  intros Hu Hst Hl Hv. destruct (tombstoned_state _ Hu) as (Hd & Hc & Hff).
  unfold md_fields_valid in *. cbn [killed md_state md_live md_span_len md_next
    md_data_off md_data_len]. rewrite Hc.
  replace (Z.land (md_state r) 60 =? 255) with false
    by (symmetry; by apply Z.eqb_neq).
  rewrite bool_decide_true by done. cbn [negb andb].
  rewrite Hl in Hv. cbn [negb] in Hv. rewrite andb_false_r in Hv.
  destruct (_ <? _); [done |].
  destruct (Z.eqb_spec (md_state r) 255) as [He | _]; [| exact Hv].
  rewrite Hst, He in Hl. vm_compute in Hl. done.
Qed.

(** What [kill_at] does at the record's own cursor and at the others. *)
Lemma parse_killed m sector cursor r :
  (forall a, is_u8 (m a)) -> parse_at g m sector cursor = PRecord r ->
  md_live r = true ->
  parse_at g (kill_at m sector r) sector cursor = PRecord (killed r).
Proof.
  intros Hm Hp Hl. pose proof (parse_state _ _ _ _ Hp) as (Hs & Hlive & Hlen).
  destruct (parse_record_inv g _ _ _ _ Hp) as (H26 & Hst & Hv & _).
  assert (Hu : is_u8 (md_state r)) by (rewrite Hs; apply Hm).
  pose proof (fields_valid_killed sector _ r Hu Hlive Hl Hv) as Hv'.
  assert (Hk : forall a, kill_at m sector r a =
    if a =? base sector + (cursor - 16)
    then Z.land (m a) FFFS_LIFECYCLE_TOMBSTONED else m a)
    by (intros a; by rewrite kill_at_byte, Hst).
  unfold parse_at in Hp |- *. cbv zeta in Hp |- *.
  rewrite (Hk (base sector + (cursor - 1))).
  replace (base sector + (cursor - 1) =? base sector + (cursor - 16)) with false
    by (symmetry; apply Z.eqb_neq; lia).
  destruct (_ =? 255); [done |]. destruct (cursor <? _); [done |].
  set (type := m (base sector + (cursor - 1))) in *.
  destruct (_ && _); [done |].
  assert (Hd : decode_md_fields type (cursor - 16)
      (mem_bytes (kill_at m sector r) (base sector + (cursor - 16)) 16) = killed r).
  { rewrite mem_bytes_cons in Hp by lia.
    rewrite mem_bytes_cons, Hk, Z.eqb_refl by lia.
    rewrite (mem_bytes_ext (kill_at m sector r) m).
    2: { intros a Ha. rewrite Hk. destruct (Z.eqb_spec a (base sector + (cursor - 16)));
         [lia | done]. }
    rewrite (decode_state _ _ (m (base sector + (cursor - 16)))). cbv zeta.
    destruct (md_fields_valid _ _ _ _); [| done]. injection Hp as <-.
    unfold killed. f_equal. apply (tombstoned_state _ Hu). }
  rewrite Hd, Hv'. done.
Qed.

Lemma parse_kept m sector cursor r :
  md_record_start r <> cursor - 16 -> (md_record_start r - cursor) mod 16 = 0 ->
  parse_at g (kill_at m sector r) sector cursor = parse_at g m sector cursor.
Proof.
  intros Hne Hmod. apply parse_at_local. intros a Ha. rewrite kill_at_byte.
  destruct (Z.eqb_spec a (base sector + md_record_start r)); [| done].
  pose proof (Z.div_mod (md_record_start r - cursor) 16 ltac:(lia)). lia.
Qed.

(** The records of a sector once [r] was tombstoned. *)
Definition kill_in (r r0 : fffs_md_record) : fffs_md_record :=
  if md_record_start r0 =? md_record_start r then killed r0 else r0.

Lemma data_end_kill_in r r0 : data_end (kill_in r r0) = data_end r0.
Proof. unfold kill_in. by destruct (_ =? _). Qed.

Lemma parse_kill_in m sector cursor r :
  (forall a, is_u8 (m a)) -> md_live r = true ->
  parse_at g m sector (md_record_start r + 16) = PRecord r ->
  (md_record_start r - cursor) mod 16 = 0 ->
  parse_at g (kill_at m sector r) sector cursor =
  match parse_at g m sector cursor with
  | PRecord r0 => PRecord (kill_in r r0)
  | p => p
  end.
Proof.
  intros Hm Hl Hr Hmod. destruct (decide (md_record_start r = cursor - 16)) as [He | Hne].
  - replace (md_record_start r + 16) with cursor in Hr by lia. rewrite Hr.
    unfold kill_in. rewrite Z.eqb_refl. by apply parse_killed.
  - rewrite parse_kept by done.
    destruct (parse_at g m sector cursor) as [| | | r0] eqn:Hp; try done.
    destruct (parse_record_inv g _ _ _ _ Hp) as (_ & Hst & _).
    unfold kill_in. destruct (Z.eqb_spec (md_record_start r0) (md_record_start r));
      [lia | done].
Qed.

Lemma mod_step x c : (x - c) mod 16 = 0 -> (x - (c - 16)) mod 16 = 0.
Proof.
  intros Hm. replace (x - (c - 16)) with (x - c + 1 * 16) by lia.
  by rewrite Z_mod_plus_full.
Qed.

Lemma walk_killed n m sector cursor claimed r :
  (forall a, is_u8 (m a)) -> md_live r = true ->
  parse_at g m sector (md_record_start r + 16) = PRecord r ->
  (md_record_start r - cursor) mod 16 = 0 ->
  walk_from n g (kill_at m sector r) sector cursor claimed =
  (kill_in r <$> fst (walk_from n g m sector cursor claimed),
   snd (walk_from n g m sector cursor claimed)).
Proof.
  intros Hm Hl Hr. revert cursor claimed.
  induction n as [| n IH]; intros cursor claimed Hmod; cbn [walk_from];
    (destruct (cursor <=? 10); [done |]); [done |].
  rewrite (parse_kill_in _ _ _ _ Hm Hl Hr Hmod).
  destruct (parse_at g m sector cursor) as [| | | r0] eqn:Hp; try done.
  cbv zeta. rewrite data_end_kill_in.
  destruct (cursor - 16 <=? Z.max claimed (data_end r0)); [done |].
  rewrite IH by by apply mod_step.
  by destruct (walk_from n g m sector (cursor - 16) _).
Qed.

(** ** Where a sector's metadata is read *)

Lemma parse_at_in m m' sector cursor :
  10 < cursor <= sector_size g ->
  (forall a, base sector <= a < base sector + sector_size g -> m a = m' a) ->
  parse_at g m sector cursor = parse_at g m' sector cursor.
Proof.
  intros Hc Heq. unfold parse_at. cbv zeta. rewrite Heq by lia.
  destruct (_ =? 255); [done |].
  destruct (Z.ltb_spec cursor (10 + 16)); [done |].
  destruct (_ && _); [done |].
  by rewrite (mem_bytes_ext m m') by (intros; apply Heq; lia).
Qed.

Lemma walk_from_in n m m' sector cursor claimed :
  cursor <= sector_size g ->
  (forall a, base sector <= a < base sector + sector_size g -> m a = m' a) ->
  walk_from n g m sector cursor claimed = walk_from n g m' sector cursor claimed.
Proof.
  intros Hc Heq. revert cursor claimed Hc.
  induction n as [| n IH]; intros cursor claimed Hc; [done |]. cbn [walk_from].
  destruct (Z.leb_spec cursor 10); [done |].
  rewrite (parse_at_in m m') by (done || lia).
  destruct (parse_at g m' sector cursor); try done. cbv zeta.
  by rewrite IH by lia.
Qed.

Lemma footer_at_in m m' sector :
  (forall a, base sector <= a < base sector + sector_size g -> m a = m' a) ->
  footer_at g m sector = footer_at g m' sector.
Proof.
  intros Heq. pose proof (sector_size_range (g := g)).
  unfold footer_at, footer_bytes, fffs_sector_footer_offset.
  by rewrite (mem_bytes_ext m m') by (intros; apply Heq; lia).
Qed.

Lemma sector_records_in m m' sector :
  (forall a, base sector <= a < base sector + sector_size g -> m a = m' a) ->
  sector_records g m sector = sector_records g m' sector.
Proof. intros Heq. apply walk_from_in; [lia | done]. Qed.

Lemma slot_md_in m m' sector slot k :
  (forall a, base sector <= a < base sector + sector_size g -> m a = m' a) ->
  slot_md g m sector slot k = slot_md g m' sector slot k.
Proof.
  intros Heq. unfold slot_md, lookup_md.
  by rewrite (footer_at_in m m'), (sector_records_in m m').
Qed.

(** A record that a lookup finds is in its sector's list. *)
Lemma slot_md_record m sector slot r :
  slot_md g m sector slot FFFS_MD_MATCH_LIVE = inr r ->
  footer_live (footer_at g m sector) = true /\
  r ∈ fst (sector_records g m sector) /\ md_live r = true /\ md_slot r = slot.
Proof.
  unfold slot_md, lookup_md, pick_record.
  destruct (valid_data_sector _ _); [| done].
  destruct (footer_live _); [| done]. cbn [negb].
  destruct (List.find _ _) as [r' |] eqn:Hf; [| done]. intros [= <-].
  apply List.find_some in Hf as [Hin Hmatch]. split; [done |].
  split; [by apply list_elem_of_In |].
  unfold md_record_matches_slot in Hmatch.
  destruct (Z.eqb_spec (md_slot r') slot); [| done]. by split.
Qed.

(** Every record of a sector is read at its own cursor. *)
Lemma walk_from_parse n m sector cursor claimed r :
  r ∈ fst (walk_from n g m sector cursor claimed) ->
  parse_at g m sector (md_record_start r + 16) = PRecord r /\
  (md_record_start r - cursor) mod 16 = 0 /\ md_record_start r < cursor.
Proof.
  revert cursor claimed.
  induction n as [| n IH]; intros cursor claimed; cbn [walk_from];
    (destruct (cursor <=? 10); [by rewrite elem_of_nil |]);
    [by rewrite elem_of_nil |].
  destruct (parse_at g m sector cursor) as [| | | r0] eqn:Hp;
    try by rewrite elem_of_nil.
  destruct (parse_record_inv g _ _ _ _ Hp) as (_ & Hst & _).
  assert (Hhd : r = r0 -> parse_at g m sector (md_record_start r + 16) = PRecord r /\
    (md_record_start r - cursor) mod 16 = 0 /\ md_record_start r < cursor).
  { intros ->. rewrite Hst. replace (cursor - 16 + 16) with cursor by lia.
    split; [done |]. split; [| lia]. by replace (cursor - 16 - cursor) with (-1 * 16) by lia. }
  cbv zeta. destruct (_ <=? _); [cbn [fst]; by rewrite list_elem_of_singleton |].
  specialize (IH (cursor - 16) (Z.max claimed (data_end r0))).
  destruct (walk_from n g m sector _ _) as [l e]. cbn [fst] in *.
  rewrite elem_of_cons. intros [He | Hin]; [by apply Hhd |].
  destruct (IH Hin) as (Hpr & Hmod & Hlt). split; [done |]. split; [| lia].
  replace (md_record_start r - cursor) with
    (md_record_start r - (cursor - 16) + -1 * 16) by lia.
  by rewrite Z_mod_plus_full.
Qed.

(** ** Reachability *)

(** [sector_is_reachable_from_chain] as a function of the memory: whether the
    chain of the slot from [current] runs through [sector]. *)
Fixpoint reach (n : nat) (m : Z -> Z) (slot current sector : Z)
  : fffs_status + bool :=
  if current =? 0 then inr false
  else match n with
       | O => inl FFFS_ERR_CORRUPT
       | S n' =>
           match slot_md g m current slot FFFS_MD_MATCH_LIVE with
           | inl e => inl e
           | inr r =>
               let span_end := current + md_span_len r in
               if sector_count g <? span_end then inl FFFS_ERR_CORRUPT
               else if (current <=? sector) && (sector <? span_end)
               then inr true
               else reach n' m slot (md_next r) sector
           end
       end.

Lemma reach_ext n m m' slot current sector :
  (forall a, m a = m' a) ->
  reach n m slot current sector = reach n m' slot current sector.
Proof.
  intros Heq. revert current. induction n as [| n IH]; intros current; [done |].
  cbn [reach]. rewrite (slot_md_ext g m m') by done.
  destruct (current =? 0); [done |]. destruct (slot_md _ _ _ _); [done |].
  cbv zeta. by rewrite IH.
Qed.

(** The namespace [idx] keeps the slot's record in [sector]. *)
Definition protected (idx : gmap Z Z) (m : Z -> Z) (slot sector : Z) : Prop :=
  exists head, idx !! slot = Some head /\
    reach (Z.to_nat (sector_count g)) m slot head sector = inr true.

(** A change of the flash that keeps every extent of the namespace and makes
    no other record appear. *)
Record gc_mem (idx : gmap Z Z) (m m' : Z -> Z) : Prop := {
  gm_byte : forall a, is_u8 (m' a);
  gm_keep : forall slot sector r, protected idx m slot sector ->
    slot_md g m sector slot FFFS_MD_MATCH_LIVE = inr r ->
    slot_md g m' sector slot FFFS_MD_MATCH_LIVE = inr r /\
    forall a, base sector + md_data_off r <= a < base sector + data_end r ->
      m' a = m a;
  gm_back : forall slot sector r',
    slot_md g m' sector slot FFFS_MD_MATCH_LIVE = inr r' ->
    exists r, slot_md g m sector slot FFFS_MD_MATCH_LIVE = inr r;
}.

(** A live record spans at least its own sector, inside the device. *)
Lemma slot_md_span m sector slot r :
  slot_md g m sector slot FFFS_MD_MATCH_LIVE = inr r ->
  1 <= md_span_len r /\ sector + md_span_len r <= sector_count g.
Proof.
  intros Hr. apply slot_md_record in Hr as (_ & Hin & Hl & _).
  apply walk_from_parse in Hin as (Hp & _ & _).
  pose proof (parse_state _ _ _ _ Hp) as (_ & Hlive & _).
  destruct (parse_record_inv g _ _ _ _ Hp) as (_ & _ & Hv & _).
  assert (Hsp : 0 <= md_span_len r).
  { unfold parse_at in Hp. cbv zeta in Hp.
    repeat match type of Hp with (if ?c then _ else _) = _ => destruct c; try done end.
    injection Hp as <-. apply u16_range. }
  unfold md_fields_valid in Hv. rewrite Hl in Hv.
  cbn [negb] in Hv. rewrite andb_false_r in Hv.
  destruct (_ <? _); [done |].
  destruct (Z.eqb_spec (md_state r) 255) as [He | _].
  { rewrite Hlive, He in Hl. vm_compute in Hl. done. }
  destruct (_ || _) eqn:Ho; [done |]. apply orb_false_iff in Ho as [Ho1 Ho2].
  apply Z.eqb_neq in Ho1. apply Z.ltb_ge in Ho2. lia.
Qed.

Lemma reach_cover n m slot current sector r :
  current <> 0 -> slot_md g m current slot FFFS_MD_MATCH_LIVE = inr r ->
  reach (S n) m slot current sector =
  if (current <=? sector) && (sector <? current + md_span_len r) then inr true
  else reach n m slot (md_next r) sector.
Proof.
  intros Hc Hr. cbn [reach]. rewrite Hr. cbv zeta.
  destruct (Z.eqb_spec current 0); [done |].
  apply slot_md_span in Hr. by destruct (Z.ltb_spec (sector_count g)
    (current + md_span_len r)); [lia |].
Qed.

Lemma reach_self n m slot current r :
  current <> 0 -> slot_md g m current slot FFFS_MD_MATCH_LIVE = inr r ->
  reach (S n) m slot current current = inr true.
Proof.
  intros Hc Hr. rewrite (reach_cover _ _ _ _ _ r) by done.
  apply slot_md_span in Hr. rewrite Z.leb_refl.
  by destruct (Z.ltb_spec current (current + md_span_len r)); [| lia].
Qed.

(** The nodes of a chain are protected, so a change that keeps the protected
    records keeps what the chain reaches. *)
Lemma reach_kept idx m m' slot sector :
  gc_mem idx m m' -> forall n current,
  (forall t, reach n m slot current t = inr true -> protected idx m slot t) ->
  reach n m slot current sector = inr true <->
  reach n m' slot current sector = inr true.
Proof.
  intros Hg. induction n as [| n IH]; intros current Hprot.
  { cbn [reach]. by destruct (current =? 0). }
  destruct (Z.eq_dec current 0) as [-> | Hc]; [done |].
  destruct (slot_md g m current slot FFFS_MD_MATCH_LIVE) as [e | r] eqn:Hr.
  - cbn [reach]. rewrite Hr. destruct (current =? 0); [done |]. split; [done |].
    destruct (slot_md g m' current slot FFFS_MD_MATCH_LIVE) as [e' | r'] eqn:Hr';
      [done |].
    destruct (gm_back _ _ _ Hg _ _ _ Hr') as [r Hr2]. congruence.
  - assert (Hp : protected idx m slot current) by (by apply Hprot, (reach_self n m slot _ r)).
    destruct (gm_keep _ _ _ Hg _ _ _ Hp Hr) as [Hr' _].
    rewrite (reach_cover n m _ _ _ r Hc Hr), (reach_cover n m' _ _ _ r Hc Hr').
    destruct (_ && _); [done |]. apply IH. intros t Ht. apply Hprot.
    rewrite (reach_cover n m _ _ _ r Hc Hr). by destruct (_ && _).
Qed.

Lemma protected_kept idx m m' slot sector :
  gc_mem idx m m' ->
  protected idx m slot sector <-> protected idx m' slot sector.
Proof.
  intros Hg.
  assert (Hiff : forall head, idx !! slot = Some head ->
    reach (Z.to_nat (sector_count g)) m slot head sector = inr true <->
    reach (Z.to_nat (sector_count g)) m' slot head sector = inr true).
  { intros head Hh. apply (reach_kept idx); [done |]. intros t Ht. by exists head. }
  split; intros (head & Hh & Hr); exists head; (split; [done | by apply Hiff]).
Qed.

Lemma gc_mem_ext idx m m' :
  (forall a, is_u8 (m a)) -> (forall a, m' a = m a) -> gc_mem idx m m'.
Proof.
  intros Hm Heq. split.
  - intros a. by rewrite Heq.
  - intros slot sector r _ Hr. rewrite (slot_md_ext g m' m) by done. done.
  - intros slot sector r' Hr. rewrite (slot_md_ext g m' m) in Hr by done. by exists r'.
Qed.

Lemma gc_mem_trans idx m1 m2 m3 :
  gc_mem idx m1 m2 -> gc_mem idx m2 m3 -> gc_mem idx m1 m3.
Proof.
  intros H12 H23. split; [apply H23 | |].
  - intros slot sector r Hp Hr. destruct (gm_keep _ _ _ H12 _ _ _ Hp Hr) as [Hr2 Hd2].
    destruct (gm_keep _ _ _ H23 _ _ _
      (proj1 (protected_kept _ _ _ _ _ H12) Hp) Hr2) as [Hr3 Hd3].
    split; [done |]. intros a Ha. rewrite Hd3 by done. auto.
  - intros slot sector r' Hr. destruct (gm_back _ _ _ H23 _ _ _ Hr) as [r Hr2].
    eapply (gm_back _ _ _ H12), Hr2.
Qed.

(** ** The changes the collector makes *)

(** A sector changes as a whole: it holds nothing of the namespace before, and
    nothing at all after. *)
Lemma gc_mem_drop idx m m' sector :
  (forall a, is_u8 (m' a)) ->
  (forall a, ~ base sector <= a < base sector + sector_size g -> m' a = m a) ->
  footer_live (footer_at g m' sector) = false ->
  (forall slot r, protected idx m slot sector ->
     slot_md g m sector slot FFFS_MD_MATCH_LIVE <> inr r) ->
  gc_mem idx m m'.
Proof.
  intros Hm Hout Hdead Hnone.
  assert (Hother : forall t, t <> sector -> forall a,
    base t <= a < base t + sector_size g -> m' a = m a).
  { intros t Ht a Ha. apply Hout. intros Hb. pose proof (sector_size_range (g := g)).
    assert (t < sector \/ sector < t) as [Hlt | Hlt] by lia; nia. }
  split; [done | |].
  - intros slot t r Hp Hr. destruct (Z.eq_dec t sector) as [-> | Ht];
      [by destruct (Hnone slot r) |].
    rewrite (slot_md_in m' m) by by apply Hother. split; [done |].
    apply slot_md_fits in Hr as (_ & Ho & Hl & He & Hs). intros a Ha.
    apply (Hother t Ht). unfold data_end in *. lia.
  - intros slot t r' Hr. destruct (Z.eq_dec t sector) as [-> | Ht].
    + apply slot_md_record in Hr as [Hf _]. congruence.
    + rewrite (slot_md_in m' m) in Hr by by apply Hother. by exists r'.
Qed.

(** A data sector whose metadata can be trusted: its walk does not end at a
    record it has no room for, no data lies over a record, and live records
    name a slot. *)
Definition sector_sane (m : Z -> Z) (sector : Z) : Prop :=
  footer_live (footer_at g m sector) = true ->
  let '(l, e) := sector_records g m sector in
  e <> WEnd_corrupt /\
  (forall r r', r ∈ l -> r' ∈ l -> data_end r <= md_record_start r') /\
  (forall r, r ∈ l -> md_live r = true -> md_slot r <> 0).

Lemma sector_sane_in m m' sector :
  (forall a, base sector <= a < base sector + sector_size g -> m a = m' a) ->
  sector_sane m sector -> sector_sane m' sector.
Proof.
  intros Heq. unfold sector_sane.
  by rewrite (footer_at_in m m'), (sector_records_in m m').
Qed.

Lemma sector_sane_dead m sector :
  footer_live (footer_at g m sector) = false -> sector_sane m sector.
Proof. intros Hf Hl. congruence. Qed.

(** The memory of a sector in which [r] was tombstoned. *)
Lemma records_killed m sector r :
  (forall a, is_u8 (m a)) -> md_live r = true ->
  r ∈ fst (sector_records g m sector) ->
  sector_records g (kill_at m sector r) sector =
  (kill_in r <$> fst (sector_records g m sector), snd (sector_records g m sector)).
Proof.
  intros Hm Hl Hin. apply walk_from_parse in Hin as (Hp & Hmod & _).
  by apply walk_killed.
Qed.

Lemma record_in_fits m sector r :
  r ∈ fst (sector_records g m sector) -> record_fits g r.
Proof.
  intros Hin. pose proof (walk_from_fits g (walk_bound g) m sector
    (sector_size g - 10) 0 ltac:(lia)) as Hall.
  rewrite Forall_forall in Hall. by apply Hall.
Qed.

Lemma footer_killed m sector r :
  r ∈ fst (sector_records g m sector) ->
  footer_at g (kill_at m sector r) sector = footer_at g m sector.
Proof.
  intros Hin. apply record_in_fits in Hin as (_ & _ & _ & Hs).
  pose proof (sector_size_range (g := g)).
  unfold footer_at, footer_bytes, fffs_sector_footer_offset. f_equal.
  apply mem_bytes_ext. intros a Ha. rewrite kill_at_byte.
  destruct (Z.eqb_spec a (base sector + md_record_start r)); [lia | done].
Qed.

Lemma kill_at_out m sector r a :
  r ∈ fst (sector_records g m sector) ->
  ~ base sector <= a < base sector + sector_size g ->
  kill_at m sector r a = m a.
Proof.
  intros Hin Ha. apply record_in_fits in Hin as (Ho & Hl & Hd & Hs).
  pose proof (sector_size_range (g := g)). unfold data_end in *.
  rewrite kill_at_byte. destruct (Z.eqb_spec a (base sector + md_record_start r));
    [lia | done].
Qed.

Lemma sane_killed m sector r t :
  (forall a, is_u8 (m a)) -> md_live r = true ->
  r ∈ fst (sector_records g m sector) ->
  sector_sane m t -> sector_sane (kill_at m sector r) t.
Proof.
  intros Hm Hl Hin Hs. destruct (Z.eq_dec t sector) as [-> | Ht].
  - unfold sector_sane in *. rewrite footer_killed by done.
    rewrite records_killed by done. intros Hf. specialize (Hs Hf).
    destruct (sector_records g m sector) as [l e]. cbn [fst snd] in *.
    destruct Hs as (He & Htidy & Hsl). split; [done |]. split.
    + intros r1 r2 H1' H2'. apply list_elem_of_fmap in H1' as (x1 & -> & H1').
      apply list_elem_of_fmap in H2' as (x2 & -> & H2'). rewrite data_end_kill_in.
      replace (md_record_start (kill_in r x2)) with (md_record_start x2)
        by (unfold kill_in; by destruct (_ =? _)).
      by apply Htidy.
    + intros r1 H1'. apply list_elem_of_fmap in H1' as (x1 & -> & H1').
      unfold kill_in. destruct (_ =? _); [done | by apply Hsl].
  - eapply sector_sane_in; [| done]. intros a Ha. symmetry. apply kill_at_out; [done |].
    pose proof (sector_size_range (g := g)). intros Hb.
    assert (t < sector \/ sector < t) as [Hlt | Hlt] by lia; nia.
Qed.

(** What the tombstone does to the lookups of the sector. *)
Lemma find_killed r slot l :
  (forall x, x ∈ l -> md_record_start x = md_record_start r -> x = r) ->
  let f := fun x => md_record_matches_slot x slot FFFS_MD_MATCH_LIVE in
  (forall x, List.find f (kill_in r <$> l) = Some x ->
     is_Some (List.find f l)) /\
  (md_slot r <> slot -> List.find f (kill_in r <$> l) = List.find f l).
Proof.
  intros Hu f. induction l as [| x l IH]; [by split |].
  destruct IH as [IH1 IH2]; [intros; apply Hu; [by right | done] |].
  assert (Hx : kill_in r x = x \/ (x = r /\ f (kill_in r x) = false)).
  { unfold kill_in. destruct (Z.eqb_spec (md_record_start x) (md_record_start r));
      [right | by left].
    split; [apply Hu; [by left | done] |]. unfold f, md_record_matches_slot.
    cbn [killed md_live md_slot]. by destruct (negb _). }
  cbn [fmap list_fmap List.find]. change (list_fmap _ _ (kill_in r) l) with (kill_in r <$> l).
  destruct Hx as [Hx | [-> Hx]]; rewrite Hx.
  - destruct (f x); [by split | by split].
  - split.
    + intros y Hy. destruct (f r); [by exists r | by eapply IH1].
    + intros Hne. assert (Hfr : f r = false).
      { unfold f, md_record_matches_slot. by destruct (Z.eqb_spec (md_slot r) slot). }
      rewrite Hfr. auto.
Qed.

Lemma record_unique m sector r x :
  r ∈ fst (sector_records g m sector) -> x ∈ fst (sector_records g m sector) ->
  md_record_start x = md_record_start r -> x = r.
Proof.
  intros Hr Hx Heq. apply walk_from_parse in Hr as (Hr & _).
  apply walk_from_parse in Hx as (Hx & _). congruence.
Qed.

(** Tombstoning a live record that the namespace does not keep. *)
Lemma gc_mem_kill idx m sector r :
  (forall a, is_u8 (m a)) -> sector_sane m sector ->
  footer_live (footer_at g m sector) = true ->
  r ∈ fst (sector_records g m sector) -> md_live r = true ->
  ~ protected idx m (md_slot r) sector ->
  gc_mem idx m (kill_at m sector r).
Proof.
  intros Hm Hsane Hfoot Hin Hl Hnp.
  assert (Hother : forall t, t <> sector -> forall a,
    base t <= a < base t + sector_size g -> kill_at m sector r a = m a).
  { intros t Ht a Ha. apply kill_at_out; [done |]. intros Hb.
    pose proof (sector_size_range (g := g)).
    assert (t < sector \/ sector < t) as [Hlt | Hlt] by lia; nia. }
  assert (Hrec := records_killed m sector r Hm Hl Hin).
  assert (Hff := footer_killed m sector r Hin).
  unfold sector_sane in Hsane. specialize (Hsane Hfoot).
  assert (Huniq := fun x => record_unique m sector r x Hin).
  destruct (sector_records g m sector) as [l e] eqn:Hsr. cbn [fst snd] in *.
  destruct Hsane as (_ & Htidy & _).
  split.
  - intros a. rewrite kill_at_byte. destruct (_ =? _); [apply is_u8_land; unfold is_u8; lia | done].
  - intros slot t r1 Hp Hr1. destruct (Z.eq_dec t sector) as [-> | Ht].
    + assert (Hne : md_slot r <> slot) by (intros Hq; apply Hnp; by rewrite Hq).
      pose proof (slot_md_record _ _ _ _ Hr1) as (_ & Hin1 & _).
      unfold slot_md, lookup_md, pick_record in *.
      rewrite Hff, Hrec. rewrite Hsr in Hr1, Hin1.
      destruct (valid_data_sector _ _); [| done]. rewrite Hfoot in *. cbn [negb fst snd] in *.
      destruct (find_killed r slot l Huniq) as [_ Hk]. rewrite Hk by done.
      split; [done |].
      intros a Ha. rewrite kill_at_byte.
      destruct (Z.eqb_spec a (base sector + md_record_start r)); [| done].
      specialize (Htidy r1 r Hin1 Hin). lia.
    + rewrite (slot_md_in (kill_at m sector r) m) by by apply Hother.
      split; [done |]. apply slot_md_fits in Hr1 as (_ & Ho & Hle & He & Hst).
      intros a Ha. apply (Hother t Ht). unfold data_end in *. lia.
  - intros slot t r' Hr'. destruct (Z.eq_dec t sector) as [-> | Ht].
    + unfold slot_md, lookup_md, pick_record in *. rewrite Hff, Hrec in Hr'.
      rewrite Hsr. destruct (valid_data_sector _ _); [| done].
      rewrite Hfoot in *. cbn [negb fst snd] in *.
      destruct (find_killed r slot l Huniq) as [Hback _].
      destruct (List.find _ (kill_in r <$> l)) as [x |] eqn:Hx; [| done].
      destruct (Hback x eq_refl) as [y ->]. by exists y.
    + rewrite (slot_md_in (kill_at m sector r) m) in Hr' by by apply Hother.
      by exists r'.
Qed.

(** ** A walk in progress *)

(** [walked m sector cursor claimed l]: a walk of [sector] that has passed the
    records [l] and goes on at [cursor]. *)
Inductive walked (m : Z -> Z) (sector : Z)
  : Z -> Z -> list fffs_md_record -> Prop :=
  | walked_start : walked m sector (sector_size g - 10) 0 []
  | walked_record cursor claimed l r :
      walked m sector cursor claimed l -> 10 < cursor ->
      parse_at g m sector cursor = PRecord r ->
      (cursor - 16 <=? Z.max claimed (data_end r)) = false ->
      walked m sector (cursor - 16) (Z.max claimed (data_end r)) (l ++ [r]).

Lemma walked_range m sector cursor claimed l :
  walked m sector cursor claimed l ->
  0 <= cursor <= sector_size g - 10 /\ (sector_size g - 10 - cursor) mod 16 = 0.
Proof.
  pose proof (sector_size_range (g := g)).
  induction 1 as [| cursor claimed l r Hw [Hc Hm] H10 Hp _].
  - split; [lia |]. by rewrite Z.sub_diag.
  - apply (parse_record_inv g) in Hp as (H26 & _). split; [lia |].
    replace (sector_size g - 10 - (cursor - 16)) with
      (sector_size g - 10 - cursor + 1 * 16) by lia. by rewrite Z_mod_plus_full.
Qed.

(** The records of the sector are those passed and those ahead. *)
Lemma walked_records m sector cursor claimed l :
  walked m sector cursor claimed l ->
  sector_records g m sector =
    (l ++ fst (walk_from (walk_bound g) g m sector cursor claimed),
     snd (walk_from (walk_bound g) g m sector cursor claimed)).
Proof.
  pose proof (sector_size_range (g := g)).
  induction 1 as [| cursor claimed l r Hw IH H10 Hp Hfull].
  - unfold sector_records. by destruct (walk_from _ _ _ _ _ _).
  - rewrite IH. destruct (walked_range _ _ _ _ _ Hw) as [Hc _].
    assert (Hb : exists n, walk_bound g = S n /\ cursor - 16 < Z.of_nat n).
    { exists (Z.to_nat (sector_size g - 1)). unfold walk_bound. split; lia. }
    destruct Hb as (n & Hb & Hn). rewrite Hb.
    rewrite (walk_from_more g n m sector (cursor - 16) _ Hn (S n)) by lia.
    cbn [walk_from]. destruct (Z.leb_spec cursor 10); [lia |].
    rewrite Hp. cbv zeta. rewrite Hfull.
    destruct (walk_from n g m sector (cursor - 16) _) as [l' e].
    cbn [fst snd]. by rewrite <- app_assoc.
Qed.

Lemma walked_in m m' sector cursor claimed l :
  (forall a, base sector <= a < base sector + sector_size g -> m a = m' a) ->
  walked m sector cursor claimed l -> walked m' sector cursor claimed l.
Proof.
  intros Heq. induction 1 as [| cursor claimed l r Hw IH H10 Hp Hfull];
    [constructor |].
  apply walked_record; [done | done | | done].
  rewrite <- (parse_at_in m m'); [done | | done].
  destruct (walked_range _ _ _ _ _ Hw) as [Hc _]. lia.
Qed.

Lemma walked_killed m sector cursor claimed l r :
  (forall a, is_u8 (m a)) -> md_live r = true ->
  r ∈ fst (sector_records g m sector) ->
  walked m sector cursor claimed l ->
  walked (kill_at m sector r) sector cursor claimed (kill_in r <$> l).
Proof.
  intros Hm Hl Hin. apply walk_from_parse in Hin as (Hr & Hmod & _).
  induction 1 as [| cursor claimed l r0 Hw IH H10 Hp Hfull]; [constructor |].
  rewrite fmap_app. cbn [fmap list_fmap].
  rewrite <- (data_end_kill_in r r0) in *.
  apply walked_record; [done | done | | done].
  rewrite (parse_kill_in _ _ _ _ Hm Hl Hr), Hp; [done |].
  destruct (walked_range _ _ _ _ _ Hw) as [_ Hc].
  replace (md_record_start r - cursor) with
    (md_record_start r - (sector_size g - 10) + (sector_size g - 10 - cursor)) by lia.
  by rewrite Z.add_mod, Hmod, Hc by lia.
Qed.
End GcMem.
