(* ===== verification/FinishMem.v ===== *)
(** * Finishing a record

    A root record is reserved before its file is complete: its state, its
    links and its size stay erased until [fffs_finish_extent_metadata] of
    [src/fffs_file_md.c] programs them.  What this makes of the sector's
    records and of the other files of the flash. *)

From S2P Require Export GcMem.

(** The record [r] once its links, its size and its state were programmed. *)
Definition finished (next span size : Z) (r : fffs_md_record) : fffs_md_record :=
  {| md_type := md_type r;
     md_state := FFFS_LIFECYCLE_VALID;
     md_live := true;
     md_slot := md_slot r; md_next := next; md_span_len := span;
     md_data_off := md_data_off r; md_data_len := md_data_len r;
     md_size_or_offset := size;
     md_record_start := md_record_start r; md_record_len := md_record_len r |}.

(** A root record whose links, size and state are still erased. *)
Record reserved (r : fffs_md_record) : Prop := {
  rv_state : md_state r = 0xff;
  rv_next : md_next r = UINT16_MAX;
  rv_span : md_span_len r = UINT16_MAX;
  rv_size : md_size_or_offset r = UINT32_MAX;
}.

Lemma load16_erased a b :
  is_u8 a -> is_u8 b -> fffs_load_le16 [a; b] = UINT16_MAX -> a = 255 /\ b = 255.
Proof. unfold is_u8. intros Ha Hb. rewrite load_le16_bytes by done. lia. Qed.

Lemma load32_erased a b c d :
  is_u8 a -> is_u8 b -> is_u8 c -> is_u8 d ->
  fffs_load_le32 [a; b; c; d] = UINT32_MAX ->
  a = 255 /\ b = 255 /\ c = 255 /\ d = 255.
Proof. unfold is_u8. intros Ha Hb Hc Hd. rewrite load_le32_bytes by done. lia. Qed.

(** The sixteen bytes of a record. *)
Lemma sixteen_bytes (l : list Z) : zlen l = 16 ->
  exists s a b c d e f h i j k o p q r t,
    l = [s; a; b; c; d; e; f; h; i; j; k; o; p; q; r; t].
Proof.
  unfold zlen. intros Hl.
  do 16 (destruct l as [| ? l]; [simpl in Hl; lia |]).
  destruct l; [| simpl in Hl; lia]. repeat eexists.
Qed.

(** The three programs on the bytes of a reserved record. *)
Lemma decode_finished type start l next span size :
  zlen l = 16 -> is_bytes l -> reserved (decode_md_fields type start l) ->
  is_u16 next -> is_u16 span -> is_u32 size ->
  decode_md_fields type start
    (land_at 0 [FFFS_LIFECYCLE_VALID] (land_at 11 (fffs_store_le32 size)
       (land_at 3 (fffs_store_le16 next ++ fffs_store_le16 span) l))) =
  finished next span size (decode_md_fields type start l).
Proof.
  intros Hl Hb Hr Hn Hs Hz.
  destruct (sixteen_bytes l Hl) as (s & a & b & c & d & e & f & h & i & j & k & o & p &
    q & r & t & ->).
  destruct Hr as [Hst Hnx Hsp Hsz].
  change (s = 255) in Hst. change (fffs_load_le16 [c; d] = 65535) in Hnx.
  change (fffs_load_le16 [e; f] = 65535) in Hsp.
  change (fffs_load_le32 [o; p; q; r] = 4294967295) in Hsz.
  unfold is_bytes in Hb. rewrite !Forall_cons in Hb.
  destruct Hb as (? & ? & ? & Hc & Hd & He & Hf & ? & ? & ? & ? & Ho & Hp & Hq & Hrr & _).
  destruct (load16_erased c d) as [-> ->]; [done.. |].
  destruct (load16_erased e f) as [-> ->]; [done.. |].
  destruct (load32_erased o p q r) as (-> & -> & -> & ->); [done.. |]. subst s.
  pose proof (load_store_le16 next [] Hn) as E1.
  pose proof (load_store_le16 span [] Hs) as E2.
  pose proof (load_store_le32 size [] Hz) as E3.
  rewrite app_nil_r in E1, E2, E3. revert E1 E2 E3.
  pose proof (is_bytes_store16 next) as B1. pose proof (is_bytes_store16 span) as B2.
  pose proof (is_bytes_store32 size) as B3. revert B1 B2 B3.
  unfold fffs_store_le16, fffs_store_le32.
  generalize (u8 next), (u8 (Z.shiftr next 8)), (u8 span), (u8 (Z.shiftr span 8)),
    (u8 size), (u8 (Z.shiftr size 8)), (u8 (Z.shiftr size 16)), (u8 (Z.shiftr size 24)).
  intros n0 n1 s0 s1 z0 z1 z2 z3. rewrite !Forall_cons, !is_u8_iff_land.
  intros (B0 & B1 & _) (B2 & B3 & _) (B4 & B5 & B6 & B7 & _) E1 E2 E3.
  rewrite Z.land_comm in B0, B1, B2, B3, B4, B5, B6, B7.
  change (land_at 3 _ _) with [255; a; b; Z.land 255 n0; Z.land 255 n1;
    Z.land 255 s0; Z.land 255 s1; h; i; j; k; 255; 255; 255; 255; t].
  change (land_at 11 _ _) with [255; a; b; Z.land 255 n0; Z.land 255 n1;
    Z.land 255 s0; Z.land 255 s1; h; i; j; k; Z.land 255 z0; Z.land 255 z1;
    Z.land 255 z2; Z.land 255 z3; t].
  change (land_at 0 _ _) with [126; a; b; Z.land 255 n0; Z.land 255 n1;
    Z.land 255 s0; Z.land 255 s1; h; i; j; k; Z.land 255 z0; Z.land 255 z1;
    Z.land 255 z2; Z.land 255 z3; t].
  rewrite B0, B1, B2, B3, B4, B5, B6, B7.
  unfold finished, decode_md_fields. f_equal; assumption || reflexivity.
Qed.

(** Lookups over a list that grew at its end. *)
Lemma find_snoc_some {A} (P : A -> bool) l r x :
  List.find P l = Some x -> List.find P (l ++ [r]) = Some x.
Proof.
  induction l as [| y l IH]; [done |]. cbn [List.find app]. by destruct (P y).
Qed.

Lemma find_snoc_new {A} (P : A -> bool) l r :
  Forall (fun x => P x = false) l -> P r = true ->
  List.find P (l ++ [r]) = Some r.
Proof.
  intros Hl Hr. induction Hl as [| y l Hy _ IH]; cbn [List.find app];
    [by rewrite Hr | by rewrite Hy].
Qed.

Section FinishMem.
Context `{Backend} `{!NorFlash} `{!ValidBackend} (g : fs_geometry) `{!GeoOk g}.
#[local] Abbreviation base s := (s * sector_size g).

(** The flash once the record [r] of [sector] was finished. *)
Definition finish_at (m : Z -> Z) (sector : Z) (r : fffs_md_record)
    (next span size : Z) : Z -> Z :=
  let off := base sector + md_record_start r in
  mem_program
    (mem_program
       (mem_program m (off + 3) (fffs_store_le16 next ++ fffs_store_le16 span))
       (off + 11) (fffs_store_le32 size))
    off [FFFS_LIFECYCLE_VALID].

Lemma finish_at_ext m m' sector r next span size a :
  (forall x, m x = m' x) ->
  finish_at m sector r next span size a = finish_at m' sector r next span size a.
Proof.
  intros Heq. unfold finish_at. cbv zeta.
  by repeat (apply mem_program_ext; try apply Heq).
Qed.

Lemma finish_at_out m sector r next span size a :
  ~ (base sector + md_record_start r <= a < base sector + md_record_start r + 15) ->
  finish_at m sector r next span size a = m a.
Proof.
  intros Ha. unfold finish_at. cbv zeta.
  rewrite !mem_program_out; [done | | |]; rewrite ?zlen_app, ?zlen_store16,
    ?zlen_store32, ?zlen_cons, ?zlen_nil; lia.
Qed.

Lemma finish_at_u8 m sector r next span size a :
  (forall a, is_u8 (m a)) -> is_u8 (finish_at m sector r next span size a).
Proof.
  intros Hm. unfold finish_at. cbv zeta.
  apply mem_program_u8; [| repeat constructor; unfold is_u8; lia].
  intros b. apply mem_program_u8; [| apply is_bytes_store32].
  intros c. apply mem_program_u8; [done |].
  apply Forall_app. split; apply is_bytes_store16.
Qed.

Lemma finish_at_bytes m sector r next span size :
  let off := base sector + md_record_start r in
  mem_bytes (finish_at m sector r next span size) off 16 =
  land_at 0 [FFFS_LIFECYCLE_VALID] (land_at 11 (fffs_store_le32 size)
    (land_at 3 (fffs_store_le16 next ++ fffs_store_le16 span) (mem_bytes m off 16))).
Proof.
  intros off. unfold finish_at. fold off. cbv zeta.
  rewrite <- (mem_bytes_program m off 3) by (rewrite ?zlen_app, ?zlen_store16; lia).
  rewrite <- (mem_bytes_program _ off 11) by (rewrite ?zlen_store32; lia).
  rewrite <- (mem_bytes_program _ off 0) by (unfold zlen; simpl; lia).
  by rewrite Z.add_0_r.
Qed.

Lemma parse_finished m sector cursor r next span size :
  (forall a, is_u8 (m a)) -> parse_at g m sector cursor = PRecord r -> reserved r ->
  is_u16 next -> is_u16 span -> is_u32 size ->
  md_fields_valid g sector (cursor - 16) (finished next span size r) = true ->
  parse_at g (finish_at m sector r next span size) sector cursor =
    PRecord (finished next span size r).
Proof.
  intros Hm Hp Hr Hn Hs Hz Hv.
  destruct (parse_record_inv g _ _ _ _ Hp) as (H26 & Hst & _).
  pose proof (finish_at_bytes m sector r next span size) as Hb. cbv zeta in Hb.
  rewrite Hst in Hb. unfold parse_at in Hp |- *. cbv zeta in Hp |- *.
  rewrite finish_at_out by lia.
  set (type := m (base sector + (cursor - 1))) in *.
  destruct (_ =? 255); [done |]. destruct (cursor <? _); [done |].
  destruct (_ && _); [done |]. destruct (md_fields_valid _ _ _ _) in Hp; [| done].
  injection Hp as Hdec.
  rewrite Hb, decode_finished, Hdec;
    [by rewrite Hv | by apply zlen_mem_bytes | by apply is_bytes_mem_bytes
    | by rewrite Hdec | done | done | done].
Qed.

(** The last record of a walk is replaced by one with the same data. *)
Lemma walk_from_last n m m' sector cursor claimed l r r' e :
  walk_from n g m sector cursor claimed = (l ++ [r], e) ->
  let c := cursor_after cursor l in
  data_end r' = data_end r ->
  (forall a, ~ (base sector + c - 16 <= a < base sector + c) -> m' a = m a) ->
  parse_at g m' sector c = PRecord r' ->
  walk_from n g m' sector cursor claimed = (l ++ [r'], e).
Proof.
  revert cursor claimed l. induction n as [| n IH]; intros cursor claimed l Hw c Hd Ho Hp;
    cbn [walk_from] in Hw |- *; (destruct (cursor <=? 10); [by destruct l |]);
    [by destruct l |].
  assert (Hcur : l = [] -> c = cursor)
    by (intros ->; unfold c, cursor_after; change (zlen _) with 0; lia).
  destruct l as [| r0 l].
  - rewrite Hcur in * by done. rewrite Hp.
    destruct (parse_at g m sector cursor) as [| | | r0]; try done.
    cbv zeta in Hw |- *. destruct (_ <=? Z.max claimed (data_end r0)) eqn:Hfull.
    + injection Hw as -> <-. by rewrite Hd, Hfull.
    + destruct (walk_from n g m sector _ _) as [l0 e0] eqn:Hl0.
      injection Hw as -> -> ->. rewrite Hd, Hfull.
      rewrite (walk_from_local g n m' m), Hl0; [done |].
      intros a Ha. apply Ho. lia.
  - clear Hcur.
    assert (Hc : c = cursor_after (cursor - 16) l)
      by (unfold c, cursor_after; rewrite zlen_cons; lia).
    assert (Hle : c <= cursor - 16)
      by (rewrite Hc; unfold cursor_after; pose proof (zlen_nonneg l); lia).
    rewrite (parse_at_local g m' m) by (intros; apply Ho; lia).
    destruct (parse_at g m sector cursor) as [| | | r1]; try done.
    cbv zeta in Hw |- *. destruct (_ <=? Z.max claimed (data_end r1)) eqn:Hfull.
    { injection Hw as -> Hn. by destruct l. }
    destruct (walk_from n g m sector _ _) as [l0 e0] eqn:Hl0.
    injection Hw as -> -> ->.
    by rewrite (IH _ _ l Hl0 Hd) by (rewrite <- Hc; done).
Qed.

Lemma walk_from_last_parse n m sector cursor claimed l r e :
  walk_from n g m sector cursor claimed = (l ++ [r], e) ->
  parse_at g m sector (cursor_after cursor l) = PRecord r.
Proof.
  revert cursor claimed l. induction n as [| n IH]; intros cursor claimed l Hw;
    cbn [walk_from] in Hw; (destruct (cursor <=? 10); [by destruct l |]);
    [by destruct l |].
  destruct (parse_at g m sector cursor) as [| | | r0] eqn:Hp; try by destruct l.
  cbv zeta in Hw. destruct l as [| r1 l].
  - unfold cursor_after. change (zlen _) with 0. rewrite Z.sub_0_r.
    destruct (_ <=? _); [by injection Hw as -> |].
    destruct (walk_from n g m sector _ _). by injection Hw as ->.
  - destruct (_ <=? _); [by destruct l |].
    destruct (walk_from n g m sector _ _) as [l0 e0] eqn:Hl0.
    injection Hw as -> -> ->. apply IH in Hl0. rewrite <- Hl0. f_equal.
    unfold cursor_after. rewrite zlen_cons. lia.
Qed.

(** A walk that ends at erased flash reads from its last record slot up. *)
Lemma walk_from_erased n m m' sector cursor claimed l :
  walk_from n g m sector cursor claimed = (l, WEnd_erased) ->
  (forall a, base sector + cursor_after cursor l - 16 <= a < base sector + cursor ->
     m' a = m a) ->
  walk_from n g m' sector cursor claimed = (l, WEnd_erased).
Proof.
  revert cursor claimed l. induction n as [| n IH]; intros cursor claimed l Hw Ho;
    cbn [walk_from] in Hw |- *; (destruct (cursor <=? 10); [done |]); [done |].
  assert (Hhd : parse_at g m' sector cursor = parse_at g m sector cursor).
  { apply parse_at_local. intros a Ha. apply Ho. unfold cursor_after.
    pose proof (zlen_nonneg l). lia. }
  rewrite Hhd. destruct (parse_at g m sector cursor) as [| | | r]; try done.
  cbv zeta in Hw |- *. destruct (_ <=? _); [done |].
  destruct (walk_from n g m sector _ _) as [l0 e0] eqn:Hl0.
  injection Hw as <- ->. rewrite (IH _ _ l0 Hl0); [done |].
  intros a Ha. apply Ho. unfold cursor_after in *. rewrite zlen_cons. lia.
Qed.

(** The records of a sector once its last, reserved one was finished. *)
Lemma records_finished m sector l r e next span size :
  (forall a, is_u8 (m a)) -> sector_records g m sector = (l ++ [r], e) ->
  reserved r -> is_u16 next -> is_u16 span -> is_u32 size ->
  md_fields_valid g sector (md_record_start r) (finished next span size r) = true ->
  let m' := finish_at m sector r next span size in
  sector_records g m' sector = (l ++ [finished next span size r], e) /\
  footer_at g m' sector = footer_at g m sector.
Proof.
  intros Hm Hs Hr Hn Hp Hz Hv m'. unfold sector_records in *.
  pose proof (walk_from_last_parse _ _ _ _ _ _ _ _ Hs) as Hpar.
  destruct (parse_record_inv g _ _ _ _ Hpar) as (H26 & Hst & _).
  assert (Hc : cursor_after (sector_size g - 10) l <= sector_size g - 10)
    by (unfold cursor_after; pose proof (zlen_nonneg l); lia).
  split.
  - eapply walk_from_last; [exact Hs | done | |].
    + intros a Ha. apply finish_at_out. lia.
    + apply parse_finished; try done. by rewrite <- Hst.
  - unfold footer_at, footer_bytes. f_equal. apply mem_bytes_ext. intros a Ha.
    apply finish_at_out. unfold fffs_sector_footer_offset in Ha. lia.
Qed.

(** ** What the other files see *)

(** The live records of [m], with their data, are in [m']. *)
Definition extents_kept (m m' : Z -> Z) : Prop :=
  forall sector slot r, slot_md g m sector slot FFFS_MD_MATCH_LIVE = inr r ->
    slot_md g m' sector slot FFFS_MD_MATCH_LIVE = inr r /\
    forall a, base sector + md_data_off r <= a < base sector + data_end r ->
      m' a = m a.

(** A readable root is still read, with the same name. *)
Lemma root_value_same m m' sector slot v :
  (forall r, slot_md g m sector slot FFFS_MD_MATCH_LIVE = inr r ->
     slot_md g m' sector slot FFFS_MD_MATCH_LIVE = inr r /\
     forall a, base sector + md_data_off r <= a < base sector + data_end r ->
       m' a = m a) ->
  (forall a, is_u8 (m a)) -> root_value g m sector slot = inr v ->
  root_value g m' sector slot = inr v.
Proof.
  intros Hk Hm. unfold root_value.
  destruct (slot_md g m sector slot _) as [e | r] eqn:Hr; [done |].
  destruct (Hk _ eq_refl) as [-> Hd]. destruct (negb _); [done |].
  apply slot_md_fits in Hr as (_ & Ho & Hl & _). unfold parse_root.
  set (a := base sector + md_data_off r) in *.
  destruct (Z.ltb_spec (md_data_len r) 2) as [| Hl2]; [done |].
  unfold data_end in Hd. rewrite (Hd a) by lia.
  pose proof (Hm a) as Ha. unfold is_u8 in Ha. cbn [orb].
  destruct (Z.eqb_spec (m a) 0); [done |].
  destruct (32 <? m a); [done |]. cbn [orb].
  destruct (Z.leb_spec (md_data_len r) (1 + m a)) as [| Hn]; [done |]. cbn [orb].
  rewrite Hd by lia.
  by rewrite (mem_bytes_ext m' m (a + 1)) by (intros; apply Hd; lia).
Qed.

Lemma root_value_kept m m' sector slot v :
  extents_kept m m' -> (forall a, is_u8 (m a)) -> root_value g m sector slot = inr v ->
  root_value g m' sector slot = inr v.
Proof. intros Hk. apply root_value_same. intros r. apply Hk. Qed.

Lemma claimed_after_elem c l r : r ∈ l -> data_end r <= claimed_after c l.
Proof.
  unfold claimed_after. revert c. induction l as [| r0 l IH]; intros c;
    [by rewrite elem_of_nil |]. cbn [foldl]. rewrite elem_of_cons.
  intros [-> | Hin]; [| by apply IH].
  etransitivity; [| apply claimed_after_ge]. lia.
Qed.

(** One sector grows by a record whose data lies above that of the others. *)
Lemma extents_kept_grow m m' sector l r e e' off :
  (l = [] /\ footer_live (footer_at g m sector) = false \/
   sector_records g m sector = (l, e)) ->
  footer_live (footer_at g m' sector) = true ->
  sector_records g m' sector = (l ++ [r], e') ->
  claimed_after 0 l <= off ->
  (forall a, index_sectors g * sector_size g <= a ->
     ~ (base sector + off <= a < base sector + sector_size g) -> m' a = m a) ->
  extents_kept m m'.
Proof.
  intros Hl Hlive' Hr' Hoff Ho s slot x Hx.
  pose proof (sector_size_range (g := g)) as Hss.
  pose proof (slot_md_fits g _ _ _ _ _ Hx) as (Hs & Hdo & Hdl & He & Hst).
  destruct (Z.eq_dec s sector) as [-> | Hne].
  - pose proof (slot_md_record g _ _ _ _ Hx) as (Hlive & Hin & _).
    destruct Hl as [[_ Hd] | Hl]; [congruence |].
    rewrite Hl in Hin. cbn [fst] in Hin. split.
    + unfold slot_md, lookup_md, pick_record in *. rewrite Hlive', Hr'.
      rewrite Hlive, Hl in Hx. cbn [fst snd negb] in *.
      destruct (valid_data_sector _ _); [| done].
      destruct (List.find _ l) as [y |] eqn:Hf; [| done].
      by rewrite (find_snoc_some _ _ _ _ Hf).
    + intros a Ha. pose proof (claimed_after_elem 0 l x Hin). apply Ho; [| lia].
      transitivity (base sector); [| lia]. apply Z.mul_le_mono_nonneg_r; lia.
  - assert (Hin : forall a, base s <= a < base s + sector_size g -> m' a = m a).
    { pose proof (claimed_after_ge 0 l). intros a Ha. apply Ho.
      - transitivity (base s); [| lia]. apply Z.mul_le_mono_nonneg_r; lia.
      - assert (s + 1 <= sector \/ sector + 1 <= s) as [Hlt | Hlt] by lia;
          apply (Z.mul_le_mono_nonneg_r _ _ (sector_size g)) in Hlt; lia. }
    split; [by rewrite (slot_md_in g m' m) |].
    intros a Ha. apply Hin. unfold data_end in *. lia.
Qed.
End FinishMem.
