(* ===== verification/GcSpec.v ===== *)
(** * Safety of garbage collection

    The incremental collector of [src/fffs_gc.c] keeps every extent that the
    namespace reaches, whatever the state of the walk it left off in: the
    operations it is made of as functions of the flash, the invariant of its
    resumable walk, and the steps. *)

From S2P Require Export Gc GcMem.

Section GcParts.
Context `{Backend} `{!NorFlash} `{!ValidBackend} (g : fs_geometry) `{!GeoOk g}.
#[local] Abbreviation base s := (s * sector_size g).

(** ** Reachability *)

Lemma wp_reachable_loop n : forall slot current sector w (Q : bool -> world -> Prop) E,
  fs_geo (w_fs w) = g -> flash_ok w ->
  (forall w', flash_is (mem w) w w' ->
     match reach g n (mem w) slot current sector with
     | inr b => Q b w'
     | inl e => E e w'
     end) ->
  wp (reachable_loop n slot current sector) Q E w.
Proof.
  induction n as [| n IH]; intros slot current sector w Q E Hgeo Hok HQ;
    cbn [reachable_loop reach] in *; (destruct (current =? 0);
      [by apply wp_ret, HQ |]); [by apply wp_fail, HQ |].
  apply wp_bind, wp_get_geo. rewrite Hgeo.
  apply wp_bind, (wp_read_md g); [done | done |]. intros w1 Hw1.
  fold (slot_md g (mem w) current slot FFFS_MD_MATCH_LIVE).
  destruct (slot_md _ _ _ _ _) as [e | r]; [by apply HQ |]. cbv zeta in HQ |- *.
  apply wp_bind, wp_guard; intros Hg; rewrite Hg in HQ; [by apply HQ |].
  destruct (_ && _); [by apply wp_ret, HQ |].
  apply IH; [by rewrite (fi_fs _ _ _ Hw1) | apply Hw1 |]. intros w2 Hw2.
  rewrite (reach_ext g _ (mem w1) (mem w)) by apply Hw1. apply HQ.
  eapply flash_is_ext; [by eapply flash_is_trans | apply Hw1].
Qed.

Lemma wp_reachable slot head sector w (Q : bool -> world -> Prop) E :
  fs_geo (w_fs w) = g -> flash_ok w ->
  (forall w', flash_is (mem w) w w' ->
     match reach g (Z.to_nat (sector_count g)) (mem w) slot head sector with
     | inr b => Q b w'
     | inl e => E e w'
     end) ->
  wp (sector_is_reachable_from_chain slot head sector) Q E w.
Proof.
  intros Hgeo Hok HQ. unfold sector_is_reachable_from_chain.
  apply wp_bind, wp_get_geo. rewrite Hgeo. by apply wp_reachable_loop.
Qed.

(** ** Tombstoning a slot's record *)

(** What a tombstone does once the record [r] is dead. *)
Definition account_tombstone (accounting : fffs_tombstone_accounting)
    (r : fffs_md_record) : M bool :=
  if bool_decide (accounting = FFFS_TOMBSTONE_COMMITTED_DELETE) &&
     (md_type r =? FFFS_MD_TYPE_FILE_ROOT_V1)
  then mod_info (fffs_fsinfo_note_committed_delete (md_size_or_offset r)) ;; ret true
  else ret false.

(** The sector has no live record of the slot. *)
Definition no_live (m : Z -> Z) (sector slot : Z) : Prop :=
  forall r, slot_md g m sector slot FFFS_MD_MATCH_LIVE <> inr r.

Lemma no_live_records m sector slot :
  (forall r, r ∈ fst (sector_records g m sector) -> md_live r = true ->
     md_slot r <> slot) -> no_live m sector slot.
Proof.
  intros Hn r Hr. apply (slot_md_record g) in Hr as (_ & Hin & Hl & Hs). by apply (Hn r).
Qed.

Lemma no_live_dead m sector slot :
  footer_live (footer_at g m sector) = false -> no_live m sector slot.
Proof. intros Hf r Hr. apply (slot_md_record g) in Hr as (Hl & _). congruence. Qed.

Lemma wp_tombstone_loop n sector slot accounting cursor claimed walk window w
    (Q : bool -> world -> Prop) E :
  fs_geo (w_fs w) = g -> flash_ok w -> window_ok g (mem w) sector window ->
  0 <= sector < sector_count g -> 0 <= cursor <= sector_size g - 10 ->
  cursor < Z.of_nat n -> walk_at sector cursor claimed walk ->
  let none := forall r, r ∈ fst (walk_from n g (mem w) sector cursor claimed) ->
    md_live r = true -> md_slot r <> slot in
  (forall w', flash_is (mem w) w w' -> none -> Q false w') ->
  (forall e w', flash_is (mem w) w w' -> none -> E e w') ->
  (forall r w', r ∈ fst (walk_from n g (mem w) sector cursor claimed) ->
     md_live r = true -> md_slot r = slot ->
     flash_is (kill_at g (mem w) sector r) w w' ->
     wp (account_tombstone accounting r) Q E w') ->
  wp (tombstone_loop n sector slot accounting walk window) Q E w.
Proof.
  revert cursor claimed walk window w.
  induction n as [| n IH];
    intros cursor claimed walk window w Hgeo Hok Hwin Hsec Hc Hn Hat none HQ HE HK; [lia |].
  pose proof Hat as (Ha & _). cbn [tombstone_loop]. rewrite Ha. cbn [negb].
  subst none.
  apply wp_bind. apply (wp_walk_next g sector cursor claimed); try done; try lia.
  intros w1 window1 walk1 record Hw1 Hwin1. cbn [walk_from] in HK, HQ, HE.
  destruct (Z.leb_spec cursor 10).
  { rewrite bool_decide_false by done. rewrite bool_decide_false by done.
    apply wp_ret, HQ; [done |]. intros r Hr. by apply elem_of_nil in Hr. }
  destruct (parse_at g (mem w) sector cursor) as [| | | r] eqn:Hp.
  - rewrite bool_decide_false by done. rewrite bool_decide_false by done.
    apply wp_ret, HQ; [done |]. intros r Hr. by apply elem_of_nil in Hr.
  - apply HE; [done |]. intros r Hr. by apply elem_of_nil in Hr.
  - rewrite bool_decide_true by done. apply wp_fail, HE; [done |].
    intros r Hr. by apply elem_of_nil in Hr.
  - intros Hafter. rewrite bool_decide_false by done.
    rewrite bool_decide_true by done. cbn [negb]. cbv zeta in HK, HQ, HE.
    destruct (parse_record_inv g _ _ _ _ Hp) as (H26 & Hst & _).
    assert (Hm1 : forall a, mem w1 a = mem w a) by apply Hw1.
    assert (Hrest : (md_live r && (md_slot r =? slot)) = false ->
      wp (tombstone_loop n sector slot accounting walk1 window1) Q E w1).
    { intros Hne.
      assert (Hner : md_live r = true -> md_slot r <> slot).
      { intros Hl Hs. by rewrite Hl, Hs, Z.eqb_refl in Hne. }
      destruct (cursor - 16 <=? Z.max claimed (data_end r)) eqn:Hfull.
      - destruct Hafter as (_ & _ & _ & Hact). rewrite Hfull in Hact.
        assert (Hlast : forall x, x ∈ [r] -> md_live x = true -> md_slot x <> slot)
          by (by intros x ->%list_elem_of_singleton).
        destruct n; cbn [tombstone_loop]; rewrite Hact; by apply wp_ret, HQ.
      - assert (Hmore : (forall x, x ∈ fst (walk_from n g (mem w1) sector (cursor - 16)
            (Z.max claimed (data_end r))) -> md_live x = true -> md_slot x <> slot) ->
          forall x, x ∈ fst (let '(l, e) := walk_from n g (mem w) sector (cursor - 16)
            (Z.max claimed (data_end r)) in (r :: l, e)) ->
            md_live x = true -> md_slot x <> slot).
        { intros Hnone x Hx. rewrite (walk_from_ext g n (mem w1) (mem w)) in Hnone by done.
          destruct (walk_from n g (mem w) sector _ _) as [l e]. cbn [fst] in *.
          apply elem_of_cons in Hx as [-> | Hx]; [done | by apply Hnone]. }
        apply (IH (cursor - 16) (Z.max claimed (data_end r))); try lia.
        + by rewrite (fi_fs _ _ _ Hw1).
        + apply Hw1.
        + eapply window_ok_ext; [| exact Hwin1]. intros a. by rewrite Hm1.
        + by apply walk_after_at.
        + intros w2 Hw2 Hnone. apply HQ; [| by apply Hmore].
          eapply flash_is_ext; [by eapply flash_is_trans | done].
        + intros e w2 Hw2 Hnone. apply HE; [| by apply Hmore].
          eapply flash_is_ext; [by eapply flash_is_trans | done].
        + intros r2 w2 Hin Hl Hs Hw2. apply (HK r2 w2); try done.
          * destruct (walk_from n g (mem w) sector _ _) as [l e] eqn:Hwf.
            rewrite (walk_from_ext g n (mem w1) (mem w)), Hwf in Hin by done.
            cbn [fst] in *. by right.
          * eapply flash_is_ext; [by eapply flash_is_trans |].
            intros a. rewrite !kill_at_byte, Hm1. done. }
    destruct (md_live r) eqn:Hl; cbn [negb orb]; [| by apply Hrest].
    destruct (Z.eqb_spec (md_slot r) slot) as [Hs | Hs]; cbn [negb]; [| by apply Hrest].
    apply wp_bind, wp_get_geo. rewrite (fi_fs _ _ _ Hw1), Hgeo.
    destruct (sector_in_device sector (md_record_start r) 1) as [Hd1 Hd2]; [lia.. |].
    apply wp_bind, wp_program_aligned.
    + apply Hw1.
    + lia.
    + change (zlen [FFFS_LIFECYCLE_TOMBSTONED]) with 1. lia.
    + repeat constructor; unfold is_u8; lia.
    + intros w2 Hw2. fold (account_tombstone accounting r).
      apply (HK r w2); [| done | done |].
      * destruct (_ <=? _); [cbn [fst]; by rewrite list_elem_of_singleton |].
        destruct (walk_from n g (mem w) sector _ _). by left.
      * eapply flash_is_ext; [eapply flash_is_trans; [exact Hw1 | exact Hw2] |].
        intros a. fold (kill_at g (mem w1) sector r). rewrite !kill_at_byte, Hm1. done.
Qed.

Lemma wp_tombstone sector slot accounting w (Q : bool -> world -> Prop) E :
  fs_geo (w_fs w) = g -> flash_ok w ->
  (forall w', flash_is (mem w) w w' -> no_live (mem w) sector slot -> Q false w') ->
  (forall e w', flash_is (mem w) w w' -> no_live (mem w) sector slot -> E e w') ->
  (forall r w', index_sectors g <= sector < sector_count g ->
     footer_live (footer_at g (mem w) sector) = true ->
     r ∈ fst (sector_records g (mem w) sector) ->
     md_live r = true -> md_slot r = slot ->
     flash_is (kill_at g (mem w) sector r) w w' ->
     wp (account_tombstone accounting r) Q E w') ->
  wp (fffs_tombstone_metadata_for_slot sector slot accounting) Q E w.
Proof.
  intros Hgeo Hok HQ HE HK. pose proof (geo_index (g := g)).
  pose proof (sector_size_range (g := g)).
  unfold fffs_tombstone_metadata_for_slot. apply wp_bind, wp_get_geo. rewrite Hgeo.
  apply wp_bind, wp_guard.
  { intros Hv%negb_true_iff. apply HE; [by split |].
    intros r. unfold slot_md. by rewrite Hv. }
  unfold valid_data_sector. rewrite negb_false_iff, andb_true_iff, Z.leb_le, Z.ltb_lt.
  intros Hsec. apply wp_bind, (wp_view_footer g); try done; try lia.
  { by apply local_reader_ok. }
  intros w1 win Hw1 Hwin. cbv iota beta.
  pose proof (no_live_dead (mem w) sector slot) as Hdead.
  unfold footer_live in Hdead.
  destruct (ft_erased _) eqn:He; [by apply wp_ret, HQ; [| apply Hdead] |].
  destruct (_ || _) eqn:Htm.
  { apply wp_fail, HE; [done |]. apply Hdead.
    apply orb_true_iff in Htm as [-> %negb_true_iff | ->%negb_true_iff];
      cbn [negb andb]; by rewrite ?andb_false_r. }
  apply orb_false_iff in Htm as [Ht Hm]. apply negb_false_iff in Ht, Hm.
  rewrite Ht, Hm in Hdead. cbn [negb andb] in Hdead.
  destruct (negb _ && _) eqn:Htomb.
  { apply wp_ret, HQ; [done |]. apply Hdead. apply andb_true_iff in Htomb as [_ Hc].
    apply bool_decide_eq_true_1 in Hc. unfold fffs_lifecycle_is_live. rewrite Hc.
    by rewrite ?andb_false_r. }
  destruct (negb (fffs_lifecycle_is_live _ _)) eqn:Hl.
  { apply wp_fail, HE; [done |]. apply Hdead. by apply negb_true_iff in Hl. }
  apply negb_false_iff in Hl. clear Hdead.
  assert (Hlive : footer_live (footer_at g (mem w) sector) = true)
    by (unfold footer_live; by rewrite He, Ht, Hm, Hl).
  assert (Hm1 : forall a, mem w1 a = mem w a) by apply Hw1.
  apply wp_bind, (wp_walk_init g); [by rewrite (fi_fs _ _ _ Hw1) | apply Hw1 | | lia |].
  { eapply window_ok_ext; [| exact Hwin]. intros a. by rewrite Hm1. }
  intros walk Hat. cbv iota beta.
  apply (wp_tombstone_loop _ _ _ _ (sector_size g - 10) 0);
    [by rewrite (fi_fs _ _ _ Hw1) | apply Hw1 | | lia | lia | unfold walk_bound; lia |
     done | | |].
  - eapply window_ok_ext; [| exact Hwin]. intros a. by rewrite Hm1.
  - intros w2 Hw2 Hnone. apply HQ; [eapply flash_is_ext; [by eapply flash_is_trans | done] |].
    apply no_live_records. unfold sector_records.
    by rewrite <- (walk_from_ext g _ (mem w1) (mem w)).
  - intros e w2 Hw2 Hnone.
    apply HE; [eapply flash_is_ext; [by eapply flash_is_trans | done] |].
    apply no_live_records. unfold sector_records.
    by rewrite <- (walk_from_ext g _ (mem w1) (mem w)).
  - intros r w2 Hin Hlr Hs Hw2. apply (HK r w2); try done; try lia.
    + unfold sector_records.
      by rewrite (walk_from_ext g _ (mem w1) (mem w)) in Hin by done.
    + eapply flash_is_ext; [by eapply flash_is_trans |].
      intros a. rewrite !kill_at_byte, Hm1. done.
Qed.
End GcParts.

(** ** The invariant of the collector *)

Section GcInv.
Context `{Backend} `{!NorFlash} `{!ValidBackend} (g : fs_geometry) `{!GeoOk g}
  `{!EraseUnit g}.
Context (I : IndexCache) `{!CachedIndex I}.
#[local] Abbreviation base s := (s * sector_size g).

(** The walk that the collector left off in, if one is active: it has passed
    records of its sector, and if it found nothing live, none of them is kept by
    the namespace. *)
Definition walk_sync (idx : gmap Z Z) (m : Z -> Z) (md : fffs_md_walk) : Prop :=
  wk_active md = true ->
  index_sectors g <= wk_sector md < sector_count g /\
  exists l, walked g m (wk_sector md) (wk_cursor md) (wk_claimed_data_end md) l /\
    (wk_live_seen md = false -> forall r, r ∈ l -> md_live r = true ->
       ~ protected g idx m (md_slot r) (wk_sector md)).

Record gc_base (w : world) : Prop := {
  gb_geo : fs_geo (w_fs w) = g;
  gb_ok : flash_ok w;
  gb_idx : idx_ok (w_fs w);
  gb_sane : forall s, index_sectors g <= s < sector_count g ->
    sector_sane g (mem w) s;
}.

Definition gc_inv (w : world) : Prop :=
  gc_base w /\ walk_sync (idx_map (w_fs w)) (mem w) (gc_md (fs_gc (w_fs w))).

(** What the collector does from [w] to [w']. *)
Record gc_safe (w w' : world) : Prop := {
  gs_before : gc_base w;
  gs_after : gc_base w';
  gs_map : idx_map (w_fs w') = idx_map (w_fs w);
  gs_mem : gc_mem g (idx_map (w_fs w)) (mem w) (mem w');
  gs_files : w_files w' = w_files w;
}.

Lemma gc_safe_refl w : gc_base w -> gc_safe w w.
Proof.
  intros Hb. split; try done. apply gc_mem_ext; [| done]. intros a.
  by apply mem_u8, (gb_ok w).
Qed.

Lemma gc_safe_trans w1 w2 w3 : gc_safe w1 w2 -> gc_safe w2 w3 -> gc_safe w1 w3.
Proof.
  intros [Hb1 Ha1 Hi1 Hm1 Hf1] [Hb2 Ha2 Hi2 Hm2 Hf2]. split; try done; try congruence.
  rewrite Hi1 in Hm2. by eapply gc_mem_trans.
Qed.

(** A step that leaves the flash, the geometry, the index and the handles
    alone. *)
Record quiet (w w' : world) : Prop := {
  qu_ok : flash_ok w';
  qu_mem : forall a, mem w' a = mem w a;
  qu_geo : fs_geo (w_fs w') = fs_geo (w_fs w);
  qu_cache : index_cache (w_fs w') = index_cache (w_fs w);
  qu_heads : index_heads (w_fs w') = index_heads (w_fs w);
  qu_files : w_files w' = w_files w;
}.

Lemma flash_core_quiet w w' : flash_core (mem w) w w' -> quiet w w'.
Proof.
  intros [Hok Hm Hc Hf]. split; try done; [exact (f_equal fs_geo Hc) |
    exact (f_equal index_cache Hc) | exact (f_equal index_heads Hc)].
Qed.

Lemma flash_is_quiet w w' : flash_is (mem w) w w' -> quiet w w'.
Proof. intros Hw. by apply flash_core_quiet, flash_is_core. Qed.

Lemma protected_ext idx m m' slot s :
  (forall a, m a = m' a) -> protected g idx m slot s <-> protected g idx m' slot s.
Proof.
  intros Heq. unfold protected.
  by setoid_rewrite (reach_ext g (Z.to_nat (sector_count g)) m m' slot) at 1.
Qed.

(** A step of the flash that keeps the namespace's extents. *)
Lemma gc_safe_step w w' :
  gc_base w -> flash_ok w' -> w_fs w' = w_fs w -> w_files w' = w_files w ->
  gc_mem g (idx_map (w_fs w)) (mem w) (mem w') ->
  (forall s, index_sectors g <= s < sector_count g ->
     sector_sane g (mem w') s) ->
  gc_safe w w'.
Proof.
  intros Hb Hok Hfs Hf Hm Hs. split; try done; [| by rewrite Hfs].
  split; rewrite ?Hfs; try done; apply Hb.
Qed.

Lemma gc_safe_quiet w0 w w' : gc_safe w0 w -> quiet w w' -> gc_safe w0 w'.
Proof.
  intros Hs Hq. eapply gc_safe_trans; [exact Hs |].
  destruct Hs as [_ Hb _ _ _]. destruct Hb as [Hg Hok Hi Hsane].
  destruct (idx_ok_ext (w_fs w) (w_fs w') Hi (qu_geo _ _ Hq) (qu_cache _ _ Hq)
    (qu_heads _ _ Hq)) as [Hi' Hmap].
  split; [by split | | done | | apply Hq].
  - split; [by rewrite (qu_geo _ _ Hq) | apply Hq | done |]. intros s Hr.
    apply (sector_sane_in g (mem w)); [intros a _; symmetry; apply Hq | by apply Hsane].
  - apply gc_mem_ext; [intros a; by apply mem_u8 | apply Hq].
Qed.

(** The walk of the collector after a quiet step that keeps it. *)
Lemma walk_sync_ext idx m m' md :
  (forall a, m' a = m a) -> walk_sync idx m md -> walk_sync idx m' md.
Proof.
  intros Heq Hs Ha. destruct (Hs Ha) as (Hr & l & Hw & Hl). split; [done |].
  exists l. split; [apply (walked_in g m); [intros a _; by rewrite Heq | exact Hw] |].
  intros Hls r Hin Hlive. rewrite (protected_ext idx m' m) by done. by apply Hl.
Qed.

Lemma walk_sync_inactive idx m md : wk_active md = false -> walk_sync idx m md.
Proof. intros Ha Hact. congruence. Qed.

(** ** One record *)

(** The live records of [l'] stand for live records of [l]. *)
Definition no_more_live (l l' : list fffs_md_record) : Prop :=
  forall r', r' ∈ l' -> md_live r' = true ->
    exists r, r ∈ l /\ md_live r = true /\ md_slot r = md_slot r'.

(** A walk of [s] on the flash [m] is also one on [m'], past records that are
    no more alive, and so are the records of the whole sector. *)
Record walk_step (s : Z) (m m' : Z -> Z) : Prop := {
  ws_walk : forall cursor claimed l, walked g m s cursor claimed l ->
    exists l', walked g m' s cursor claimed l' /\ no_more_live l l';
  ws_records : no_more_live (fst (sector_records g m s)) (fst (sector_records g m' s));
}.

Lemma no_more_live_refl l : no_more_live l l.
Proof. intros r Hr Hl. by exists r. Qed.

Lemma no_more_live_kill r l : no_more_live l (kill_in r <$> l).
Proof.
  intros r' Hr' Hl'. apply list_elem_of_fmap in Hr' as (x & -> & Hx).
  unfold kill_in in *. destruct (_ =? _); [done |]. by exists x.
Qed.

Lemma walk_step_ext s m m' : (forall a, m' a = m a) -> walk_step s m m'.
Proof.
  intros Heq. split.
  - intros cursor claimed l Hw. exists l. split; [| apply no_more_live_refl].
    apply (walked_in g m); [intros a _; by rewrite Heq | exact Hw].
  - rewrite (sector_records_in g m' m) by (intros; by rewrite Heq).
    apply no_more_live_refl.
Qed.

Lemma walk_step_kill s m m' r :
  (forall a, is_u8 (m a)) -> md_live r = true ->
  r ∈ fst (sector_records g m s) -> (forall a, m' a = kill_at g m s r a) ->
  walk_step s m m'.
Proof.
  intros Hm Hl Hin Heq. split.
  - intros cursor claimed l Hw. exists (kill_in r <$> l).
    split; [| apply no_more_live_kill].
    apply (walked_in g (kill_at g m s r)); [intros a _; by rewrite Heq |].
    by apply walked_killed.
  - rewrite (sector_records_in g m' (kill_at g m s r)) by (intros; by rewrite Heq).
    rewrite records_killed by done. cbn [fst]. apply no_more_live_kill.
Qed.

Lemma record_slot_range m s r :
  r ∈ fst (sector_records g m s) -> 0 <= md_slot r <= UINT16_MAX.
Proof.
  intros Hin. apply walk_from_parse in Hin as (Hp & _). unfold parse_at in Hp.
  cbv zeta in Hp.
  repeat match type of Hp with (if ?c then _ else _) = _ => destruct c; try done end.
  injection Hp as <-.
  assert (Hu : forall p off, is_u16 (load16_at p off)) by (intros; apply u16_range).
  specialize (Hu (mem_bytes m (base s + (md_record_start r + 16 - 16)) 16) 1).
  unfold is_u16 in Hu. cbn [decode_md_fields md_slot]. lia.
Qed.

(** [gc_classify_record] of a live record tells apart the records that the
    namespace keeps, and what it tombstones is not one of them. *)
Lemma wp_classify s record w (Q : bool -> world -> Prop) E :
  gc_base w -> index_sectors g <= s < sector_count g ->
  footer_live (footer_at g (mem w) s) = true ->
  record ∈ fst (sector_records g (mem w) s) ->
  (forall live w', gc_safe w w' -> w_fs w' = w_fs w ->
     walk_step s (mem w) (mem w') ->
     (live = false -> md_live record = true ->
        ~ protected g (idx_map (w_fs w)) (mem w) (md_slot record) s) ->
     Q live w') ->
  (forall e w', flash_is (mem w) w w' -> E e w') ->
  wp (gc_classify_record s record) Q E w.
Proof.
  intros Hb Hs Hfoot Hin HQ HE.
  pose proof Hb as [Hgeo Hok Hidx Hsane].
  assert (Hsame : forall live w', flash_is (mem w) w w' ->
    (live = false -> md_live record = true ->
       ~ protected g (idx_map (w_fs w)) (mem w) (md_slot record) s) -> Q live w').
  { intros live w' Hw'. apply HQ; [| apply Hw' | by apply walk_step_ext, Hw'].
    eapply gc_safe_quiet; [by apply gc_safe_refl | by apply flash_is_quiet]. }
  assert (Hrefl : flash_is (mem w) w w) by done.
  unfold gc_classify_record. destruct (md_live record) eqn:Hl; cbn [negb];
    [| by apply wp_ret, Hsame].
  apply wp_bind. eapply returns_wp; [reflexivity |].
  destruct (fffs_slot_is_pinned _ _ _); [by apply wp_ret, Hsame |].
  assert (Hslot : 0 < md_slot record <= UINT16_MAX).
  { pose proof (record_slot_range _ _ _ Hin) as Hr. specialize (Hsane s Hs Hfoot).
    destruct (sector_records g (mem w) s) as [l e]. cbn [fst] in Hin.
    destruct Hsane as (_ & _ & Hnz). specialize (Hnz record Hin Hl). lia. }
  apply wp_bind. eapply returns_wp; [by apply idx_head |].
  destruct (idx_map (w_fs w) !! md_slot record) as [head |] eqn:Hhead;
    cbn [head_answer negb].
  2: { apply wp_ret, Hsame; [done |]. intros _ _ (h & Hh & _). congruence. }
  apply wp_bind, (wp_reachable g); [done | done |]. intros w1 Hw1.
  destruct (reach g _ (mem w) (md_slot record) head s) as [e | reachable] eqn:Hr;
    [by apply HE |].
  destruct reachable; [by apply wp_ret, Hsame |].
  assert (Hnp : ~ protected g (idx_map (w_fs w)) (mem w) (md_slot record) s).
  { intros (h & Hh & Hh2). rewrite Hhead in Hh. injection Hh as <-. congruence. }
  assert (Hm1 : forall a, mem w1 a = mem w a) by apply Hw1.
  assert (Hmu : forall a, is_u8 (mem w a)) by (intros; by apply mem_u8).
  pose proof (geo_count (g := g)). pose proof (geo_index (g := g)).
  assert (Hsr : sector_records g (mem w1) s = sector_records g (mem w) s)
    by by apply sector_records_in.
  rewrite u16_small by (unfold is_u16; lia).
  apply wp_bind, (wp_tombstone g).
  - by rewrite (fi_fs _ _ _ Hw1).
  - apply Hw1.
  - intros w2 Hw2 _. apply wp_ret, Hsame; [| done].
    eapply flash_is_ext; [by eapply flash_is_trans | done].
  - intros e w2 Hw2 _. apply HE. eapply flash_is_ext; [by eapply flash_is_trans | done].
  - intros r w2 _ _ Hrin Hrl Hrs Hw2. rewrite Hsr in Hrin.
    assert (Hk : flash_is (kill_at g (mem w) s r) w w2).
    { eapply flash_is_ext; [eapply flash_is_trans; [exact Hw1 | exact Hw2] |].
      intros a. by rewrite !kill_at_byte, Hm1. }
    assert (Hkm : gc_mem g (idx_map (w_fs w)) (mem w) (mem w2)).
    { eapply gc_mem_trans; [apply (gc_mem_kill g _ _ s r); try done;
        [by apply Hsane | by rewrite Hrs] |].
      apply gc_mem_ext; [| apply Hk]. intros a. rewrite kill_at_byte.
      destruct (_ =? _); [apply is_u8_land; unfold is_u8; lia | done]. }
    apply wp_ret, wp_ret, HQ; [| apply Hk | | done].
    + apply gc_safe_step; [done | apply Hk | apply Hk | apply Hk | done |].
      intros t Ht. apply (sector_sane_in g (kill_at g (mem w) s r));
        [intros a _; symmetry; apply Hk |].
      apply (sane_killed g); try done. by apply Hsane.
    + apply (walk_step_kill s _ _ r); try done. apply Hk.
Qed.

(** ** Whole sectors *)

(** Dropping a sector that holds nothing of the namespace. *)
Lemma gc_safe_drop w w' s :
  gc_base w -> flash_ok w' -> w_fs w' = w_fs w -> w_files w' = w_files w ->
  (forall a, ~ base s <= a < base s + sector_size g -> mem w' a = mem w a) ->
  footer_live (footer_at g (mem w') s) = false ->
  (forall slot r, protected g (idx_map (w_fs w)) (mem w) slot s ->
     slot_md g (mem w) s slot FFFS_MD_MATCH_LIVE <> inr r) ->
  gc_safe w w'.
Proof.
  intros Hb Hok Hfs Hf Hout Hdead Hnone.
  assert (Hu : forall a, is_u8 (mem w' a)) by (intros; by apply mem_u8).
  apply gc_safe_step; try done; [by eapply gc_mem_drop |].
  intros t Ht. destruct (Z.eq_dec t s) as [-> | Hne]; [by apply sector_sane_dead |].
  apply (sector_sane_in g (mem w)); [| by apply (gb_sane w)].
  intros a Ha. symmetry. apply Hout. intros Hin.
  pose proof (sector_size_range (g := g)).
  assert (t < s \/ s < t) as [Hlt | Hlt] by lia; nia.
Qed.

Lemma wp_drop_tombstone w s (Q : unit -> world -> Prop) E :
  gc_base w -> index_sectors g <= s < sector_count g ->
  (forall slot r, protected g (idx_map (w_fs w)) (mem w) slot s ->
     slot_md g (mem w) s slot FFFS_MD_MATCH_LIVE <> inr r) ->
  (forall w', gc_safe w w' -> w_fs w' = w_fs w -> Q tt w') ->
  wp (fffs_tombstone_sector (u16 s)) Q E w.
Proof.
  intros Hb Hs Hnone HQ. pose proof (geo_count (g := g)). pose proof (geo_index (g := g)).
  pose proof (sector_size_range (g := g)).
  rewrite u16_small by (unfold is_u16; lia).
  unfold fffs_tombstone_sector. apply wp_bind, wp_get_geo. rewrite (gb_geo _ Hb).
  assert (Hu : forall a, is_u8 (mem w a)) by (intros; apply mem_u8, (gb_ok _ Hb)).
  set (buf := [FFFS_SECTOR_TYPE_FILE; FFFS_LIFECYCLE_TOMBSTONED; 0xff; 0xff]).
  assert (Hz : zlen buf = 4) by done.
  apply (wp_program_footer g); [apply (gb_ok _ Hb) | lia | | lia | lia |].
  { repeat constructor; unfold is_u8; lia. }
  intros w' Hw'. apply HQ; [| apply Hw'].
  apply (gc_safe_drop _ _ s); try apply Hw'; try done.
  - intros a Ha. rewrite (fi_mem _ _ _ Hw'). apply mem_program_out.
    unfold fffs_sector_footer_offset. lia.
  - unfold footer_at. rewrite footer_live_bytes by (by apply zlen_mem_bytes).
    rewrite !footer_bytes_at, !(fi_mem _ _ _ Hw') by lia.
    rewrite (mem_program_in _ _ _ (fffs_sector_footer_offset g s + 5)) by lia.
    replace (fffs_sector_footer_offset g s + 5 - (fffs_sector_footer_offset g s + 4))
      with 1 by lia. change (byte_at buf 1) with FFFS_LIFECYCLE_TOMBSTONED.
    destruct (tombstoned_state _ (Hu (fffs_sector_footer_offset g s + 5))) as [-> _].
    by rewrite andb_false_r.
Qed.

Lemma wp_drop_erase w s (Q : unit -> world -> Prop) E :
  gc_base w -> index_sectors g <= s < sector_count g ->
  footer_live (footer_at g (mem w) s) = false ->
  (forall w', gc_safe w w' -> w_fs w' = w_fs w -> Q tt w') ->
  wp (backend_erase (base s) (sector_size g)) Q E w.
Proof.
  intros Hb Hs Hdead HQ. pose proof (geo_index (g := g)).
  pose proof (sector_size_range (g := g)).
  destruct (sector_in_device s 0 (sector_size g)) as [Hd1 Hd2]; [lia.. |].
  apply wp_backend_erase; [apply (gb_ok _ Hb) | lia | lia | lia |
    apply (sectors_of_unit g) | apply (unit_sector (g := g)) |].
  intros w' Hw'. apply HQ; [| apply Hw'].
  assert (Her : forall a, mem w' a =
    if (base s <=? a) && (a <? base s + sector_size g) then 0xff else mem w a)
    by (intros a; apply Hw').
  apply (gc_safe_drop _ _ s); try apply Hw'; try done.
  - intros a Ha. rewrite Her.
    destruct (Z.leb_spec (base s) a), (Z.ltb_spec a (base s + sector_size g)); simpl;
      lia || done.
  - unfold footer_at. rewrite footer_live_bytes by (by apply zlen_mem_bytes).
    rewrite !footer_bytes_at by lia. rewrite Her. unfold fffs_sector_footer_offset.
    destruct (Z.leb_spec (base s) (base s + sector_size g - 10 + 4)),
      (Z.ltb_spec (base s + sector_size g - 10 + 4) (base s + sector_size g));
      simpl; lia || done.
  - intros slot r _ Hr. apply slot_md_record in Hr as [Hl _]. congruence.
Qed.

(** The allocation map is no concern of the collector's invariant. *)
Lemma wp_quiet_fs f w (Q : unit -> world -> Prop) E :
  flash_ok w ->
  fs_geo (f (w_fs w)) = fs_geo (w_fs w) ->
  index_cache (f (w_fs w)) = index_cache (w_fs w) ->
  index_heads (f (w_fs w)) = index_heads (w_fs w) ->
  (forall w', quiet w w' -> w_fs w' = f (w_fs w) -> Q tt w') -> wp (mod_fs f) Q E w.
Proof. intros Hok Hg Hc Hh HQ. apply wp_mod_fs, HQ; [by split | done]. Qed.

Lemma wp_map_update f s w (Q : unit -> world -> Prop) E :
  flash_ok w ->
  (forall w', quiet w w' -> fs_gc (w_fs w') = fs_gc (w_fs w) -> Q tt w') ->
  wp (alloc_map_update f s) Q E w.
Proof.
  intros Hok HQ. unfold alloc_map_update.
  assert (Hd : forall fs : fffs, let fs' := match alloc_map (fs_alloc fs) with
    | None => fs
    | Some words => if sector_count (fs_geo fs) <=? s then fs
        else set_fs_alloc (set_alloc_map (Some (f words s)) (fs_alloc fs)) fs
    end in fs_geo fs' = fs_geo fs /\ index_cache fs' = index_cache fs /\
    index_heads fs' = index_heads fs /\ fs_gc fs' = fs_gc fs).
  { intros fs. destruct (alloc_map _); [destruct (_ <=? _) |]; done. }
  destruct (Hd (w_fs w)) as (H1' & H2' & H3' & H4').
  apply wp_quiet_fs; try done. intros w' Hq Hf. apply HQ; [done | by rewrite Hf].
Qed.

(** ** The end of a sector *)

(** The result of a step that started in [w0]. *)
Definition safe_to (w0 w : world) : Prop :=
  gc_safe w0 w /\ walk_sync (idx_map (w_fs w)) (mem w) (gc_md (fs_gc (w_fs w))).

Lemma safe_to_inactive w0 w w' :
  gc_safe w0 w -> quiet w w' -> wk_active (gc_md (fs_gc (w_fs w'))) = false ->
  safe_to w0 w'.
Proof.
  intros Hs Hq Ha. split; [by eapply gc_safe_quiet | by apply walk_sync_inactive].
Qed.

Lemma quiet_trans w1 w2 w3 : quiet w1 w2 -> quiet w2 w3 -> quiet w1 w3.
Proof.
  intros [Hok1 Hm1 Hg1 Hc1 Hh1 Hf1] [Hok2 Hm2 Hg2 Hc2 Hh2 Hf2].
  split; congruence.
Qed.

Lemma quiet_refl w : flash_ok w -> quiet w w.
Proof. by split. Qed.

(** A change of the collector's own state. *)
Lemma wp_mod_gc f w (Q : unit -> world -> Prop) E :
  flash_ok w ->
  (forall w', quiet w w' -> fs_gc (w_fs w') = f (fs_gc (w_fs w)) -> Q tt w') ->
  wp (mod_gc f) Q E w.
Proof.
  intros Hok HQ. apply wp_quiet_fs; try done. intros w' Hq Hf. apply HQ; [done |].
  by rewrite Hf.
Qed.

Lemma wp_gc_advance w0 w s b (Q : unit -> world -> Prop) E :
  gc_safe w0 w -> (forall w', safe_to w0 w' -> Q tt w') ->
  wp (gc_advance s b) Q E w.
Proof.
  intros Hs HQ. pose proof (gb_ok _ (gs_after _ _ Hs)) as Hok.
  unfold gc_advance. apply wp_bind, wp_get_geo.
  apply wp_bind, wp_mod_gc; [done |]. intros w1 Hq1 _.
  apply wp_mod_gc; [apply Hq1 |]. intros w2 Hq2 Hgc. apply HQ.
  apply (safe_to_inactive _ w); [done | by eapply quiet_trans | by rewrite Hgc].
Qed.

Lemma wp_gc_deactivate w0 w (Q : unit -> world -> Prop) E :
  gc_safe w0 w -> (forall w', safe_to w0 w' -> Q tt w') -> wp gc_deactivate Q E w.
Proof.
  intros Hs HQ. pose proof (gb_ok _ (gs_after _ _ Hs)) as Hok.
  apply wp_mod_gc; [done |]. intros w1 Hq1 Hgc. apply HQ.
  apply (safe_to_inactive _ w); [done | done | by rewrite Hgc].
Qed.

(** The end of a walk over live data changes no flash. *)
Lemma wp_finish_live w0 w s res (Q : fffs_gc_action -> world -> Prop) E :
  gc_safe w0 w -> 0 <= s < sector_count g ->
  (let md := gc_md (fs_gc (w_fs w)) in
   res = FFFS_MD_WALK_END_ERASED ->
   0 <= wk_claimed_data_end md /\ wk_cursor md <= sector_size g) ->
  (forall w', safe_to w0 w' -> Q FFFS_GC_SCANNED w') ->
  wp (gc_finish_live_sector s res) Q E w.
Proof.
  intros Hs Hsec Hmd HQ. pose proof (gs_after _ _ Hs) as [Hgeo Hok _ _].
  unfold gc_finish_live_sector. apply wp_bind, wp_get_fs. cbv zeta.
  set (md := gc_md (fs_gc (w_fs w))) in *.
  apply wp_bind.
  assert (Hrest : forall free w1, quiet w w1 ->
    wp (when (wk_live_root_seen md && negb (wk_live_continuation_seen md) &&
               negb (wk_open_seen md))
          (mod_gc (gc_update_compaction_candidate (fs_geo (w_fs w)) (u16 s) free)) ;;
        when (wk_live_continuation_seen md ||
              (FFFS_ALLOC_MAX_MD_RECORDS_PER_SECTOR <=? wk_live_root_count md) ||
              (free <? FFFS_ALLOC_MIN_USABLE_FREE + FFFS_MD_FILE_RECORD_SIZE))
          (fffs_alloc_map_mark_used (u16 s)) ;;
        mod_gc (set_gc_cursor (fffs_next_data_sector (fs_geo (w_fs w)) s)) ;;
        gc_deactivate ;; ret FFFS_GC_SCANNED) Q E w1).
  { intros free w1 Hq1.
    assert (Hdone : forall w2, quiet w w2 ->
      wp (mod_gc (set_gc_cursor (fffs_next_data_sector (fs_geo (w_fs w)) s)) ;;
          gc_deactivate ;; ret FFFS_GC_SCANNED) Q E w2).
    { intros w2 Hq2. apply wp_bind, wp_mod_gc; [apply Hq2 |]. intros w3 Hq3 _.
      apply wp_bind, (wp_gc_deactivate w0).
      - apply (gc_safe_quiet w0 w); [done | by eapply quiet_trans].
      - intros w4 H4'. by apply wp_ret, HQ. }
    assert (Hused : forall w2, quiet w w2 ->
      wp (when (wk_live_continuation_seen md ||
              (FFFS_ALLOC_MAX_MD_RECORDS_PER_SECTOR <=? wk_live_root_count md) ||
              (free <? FFFS_ALLOC_MIN_USABLE_FREE + FFFS_MD_FILE_RECORD_SIZE))
          (fffs_alloc_map_mark_used (u16 s)) ;;
        mod_gc (set_gc_cursor (fffs_next_data_sector (fs_geo (w_fs w)) s)) ;;
        gc_deactivate ;; ret FFFS_GC_SCANNED) Q E w2).
    { intros w2 Hq2. apply wp_bind, wp_when; intros _; [| by apply Hdone].
      apply wp_map_update; [apply Hq2 |]. intros w3 Hq3 _. apply Hdone.
      by eapply quiet_trans. }
    apply wp_bind, wp_when; intros _; [| by apply Hused].
    apply wp_mod_gc; [apply Hq1 |]. intros w2 Hq2 _. apply Hused.
    by eapply quiet_trans. }
  pose proof (geo_scratch (g := g)) as Hsc.
  destruct (_ && _ && _ && _) eqn:Hc.
  - rewrite !andb_true_iff in Hc. destruct Hc as [[[_ Hres] Hlt] _].
    rewrite bool_decide_eq_true in Hres. apply Z.ltb_lt in Hlt.
    destruct (Hmd Hres) as [Hd0 Hcs]. rewrite Hgeo.
    destruct (sector_in_device s (wk_claimed_data_end md)
      (wk_cursor md - wk_claimed_data_end md)) as [Hd1 Hd2]; [lia.. |].
    apply wp_bind, wp_try, (wp_span_is_erased g); [done | lia | done | lia | lia | |];
      intros w1 Hw1 _; apply wp_ret; rewrite <- Hgeo; apply Hrest, flash_core_quiet;
      done.
  - apply wp_ret, Hrest, quiet_refl. done.
Qed.

(** ** One round of the walk *)

(** What a round of the walk leaves alone. *)
Lemma walk_next_keeps walk window w walk' window' record res w' :
  fffs_md_walk_next walk window w = (Ok (walk', window', record, res), w') ->
  wk_live_seen walk' = wk_live_seen walk /\
  (res <> FFFS_MD_WALK_RECORD -> walk' = set_wk_active false walk).
Proof.
  unfold fffs_md_walk_next. destruct (_ || _); [done |].
  destruct (_ <=? _); [by intros [= <- _ _ <-] |].
  unfold bind. destruct (decode_file_md_record _ _ _ w) as [[[[r e] win] | |] w1];
    try done.
  destruct (decide (e = FFFS_MD_WALK_RECORD)) as [-> | Hne].
  - rewrite bool_decide_true by done. cbn [negb]. intros [= <- _ _ <-].
    split; [| done]. by repeat destruct (_ <? _) || destruct (_ <=? _).
  - rewrite bool_decide_false by done. by intros [= <- _ _ <-].
Qed.

(** The collector in the middle of a walk of [s] that has passed [l]. *)
Record walking (s : Z) (l : list fffs_md_record) (md : fffs_md_walk) (w : world)
  : Prop := {
  wg_at : exists cursor claimed, walk_at s cursor claimed md /\
    walked g (mem w) s cursor claimed l;
  wg_seen : wk_live_seen md = false -> forall r, r ∈ l -> md_live r = true ->
    ~ protected g (idx_map (w_fs w)) (mem w) (md_slot r) s;
}.

Lemma walking_sync s l md w :
  index_sectors g <= s < sector_count g -> walking s l md w ->
  walk_sync (idx_map (w_fs w)) (mem w) md.
Proof.
  intros Hs [(c & d & (Ha & Hws & Hwc & Hwd) & Hw) Hl] _. rewrite Hws, Hwc, Hwd.
  split; [done |]. by exists l.
Qed.

(** Once every record of the sector is accounted for. *)
Lemma wp_finish_sector w0 w s l res (Q : fffs_gc_action -> world -> Prop) E :
  gc_safe w0 w -> index_sectors g <= s < sector_count g ->
  l = fst (sector_records g (mem w) s) ->
  (let md := gc_md (fs_gc (w_fs w)) in
   wk_live_seen md = false -> forall r, r ∈ l -> md_live r = true ->
     ~ protected g (idx_map (w_fs w)) (mem w) (md_slot r) s) ->
  (let md := gc_md (fs_gc (w_fs w)) in res = FFFS_MD_WALK_END_ERASED ->
   0 <= wk_claimed_data_end md /\ wk_cursor md <= sector_size g) ->
  (forall a w', safe_to w0 w' -> Q a w') ->
  wp (gc_finish_sector s res) Q E w.
Proof.
  intros Hs Hsec Hl Hnone Hmd HQ. pose proof (gs_after _ _ Hs) as Hb.
  pose proof (geo_index (g := g)). unfold gc_finish_sector.
  apply wp_bind, wp_get_fs. cbv zeta in Hnone.
  destruct (wk_live_seen (gc_md (fs_gc (w_fs w)))) eqn:Hls.
  - apply (wp_finish_live w0); [done | lia | done | by intros; apply HQ].
  - apply wp_bind, wp_drop_tombstone; [done | done | |].
    + intros slot r Hp Hr. apply slot_md_record in Hr as (_ & Hin & Hlr & <-).
      rewrite <- Hl in Hin. by apply (Hnone eq_refl r Hin Hlr).
    + intros w1 Hs1 _. apply wp_bind, wp_map_update; [apply Hs1 |].
      intros w2 Hq2 _. apply wp_bind, (wp_gc_deactivate w0).
      * apply (gc_safe_quiet w0 w1); [by eapply gc_safe_trans | done].
      * intros w3 H3'. by apply wp_ret, HQ.
Qed.

(** What the walk makes of the rest of the sector at its cursor. *)
Lemma walked_ahead m s cursor claimed l :
  walked g m s cursor claimed l ->
  sector_records g m s =
  (if cursor <=? 10 then (l, WEnd_data)
   else match parse_at g m s cursor with
        | PErased => (l, WEnd_erased)
        | PCorrupt => (l, WEnd_corrupt)
        | PInvalid => (l, WEnd_invalid)
        | PRecord r =>
            if cursor - 16 <=? Z.max claimed (data_end r) then (l ++ [r], WEnd_full)
            else sector_records g m s
        end).
Proof.
  intros Hw. pose proof (walked_records g _ _ _ _ _ Hw) as Hr.
  pose proof (sector_size_range (g := g)).
  assert (Hb : exists n, walk_bound g = S n).
  { exists (Z.to_nat (sector_size g - 1)). unfold walk_bound. lia. }
  destruct Hb as (n & Hb). rewrite Hb in Hr. cbn [walk_from] in Hr.
  destruct (cursor <=? 10); [by rewrite Hr; cbn [fst snd]; rewrite app_nil_r |].
  destruct (parse_at g m s cursor); cbn [fst snd] in Hr; rewrite ?app_nil_r in Hr;
    try done.
  cbv zeta in Hr. by destruct (_ <=? _).
Qed.

Lemma walked_claimed m s cursor claimed l :
  walked g m s cursor claimed l -> 0 <= claimed.
Proof. induction 1; lia. Qed.

Lemma protected_safe w w' slot s :
  gc_safe w w' ->
  protected g (idx_map (w_fs w')) (mem w') slot s <->
  protected g (idx_map (w_fs w)) (mem w) slot s.
Proof. intros Hs. rewrite (gs_map _ _ Hs). symmetry. apply protected_kept, Hs. Qed.

(** The records passed, after a step that kept the namespace. *)
Lemma seen_kept w w' s (l l' : list fffs_md_record) :
  gc_safe w w' ->
  no_more_live l l' ->
  (forall r, r ∈ l -> md_live r = true ->
     ~ protected g (idx_map (w_fs w)) (mem w) (md_slot r) s) ->
  forall r', r' ∈ l' -> md_live r' = true ->
     ~ protected g (idx_map (w_fs w')) (mem w') (md_slot r') s.
Proof.
  intros Hs Hl Hnone r' Hin Hlive. destruct (Hl r' Hin Hlive) as (r & Hr & Hrl & <-).
  rewrite (protected_safe w w') by done. by apply Hnone.
Qed.

(** The record part of the round: classification and the totals. *)
Lemma wp_note_record w0 w s l record md (Q : unit -> world -> Prop) E :
  gc_safe w0 w -> index_sectors g <= s < sector_count g ->
  footer_live (footer_at g (mem w) s) = true ->
  record ∈ fst (sector_records g (mem w) s) ->
  gc_md (fs_gc (w_fs w)) = md ->
  (wk_live_seen md = false -> forall r, r ∈ l -> md_live r = true ->
     ~ protected g (idx_map (w_fs w)) (mem w) (md_slot r) s) ->
  (forall w', gc_safe w0 w' -> walk_step s (mem w) (mem w') -> gc_safe w w' ->
     let md' := gc_md (fs_gc (w_fs w')) in
     wk_active md' = wk_active md -> wk_sector md' = wk_sector md ->
     wk_cursor md' = wk_cursor md ->
     wk_claimed_data_end md' = wk_claimed_data_end md ->
     (wk_live_seen md' = false -> forall r, r ∈ l ++ [record] ->
        md_live r = true ->
        ~ protected g (idx_map (w_fs w)) (mem w) (md_slot r) s) ->
     Q tt w') ->
  (forall e w', safe_to w0 w' -> E e w') ->
  wp (r <- try_ (gc_classify_record s record) ;;
      match r with
      | inl err => gc_deactivate ;; fail err
      | inr live =>
          pinned <- slot_is_pinned (md_slot record) ;;
          when live (set_md (note_live_record record pinned))
      end) Q E w.
Proof.
  intros Hs Hsec Hfoot Hin Hmd Hseen HQ HE. pose proof (gs_after _ _ Hs) as Hb.
  apply wp_bind, wp_try, (wp_classify s record); try done.
  - intros live w1 Hs1 Hfs1 Hstep Hnot.
    assert (Hs01 : gc_safe w0 w1) by by eapply gc_safe_trans.
    apply wp_bind. eapply returns_wp; [reflexivity |].
    apply wp_when; intros Hlive; subst live.
    + apply wp_mod_gc; [apply Hs1 |]. intros w2 Hq2 Hgc2. rewrite Hfs1 in Hgc2.
      assert (Hm2 : forall a, mem w2 a = mem w1 a) by apply Hq2.
      apply HQ; rewrite ?Hgc2; cbn [gc_md set_gc_md]; rewrite ?Hmd.
      * by apply (gc_safe_quiet w0 w1).
      * split.
        -- intros c d l0 Hw. destruct (ws_walk _ _ _ Hstep c d l0 Hw) as (l1 & Hw1 & Hl1).
           exists l1. split; [| done].
           apply (walked_in g (mem w1)); [intros a _; by rewrite Hm2 | done].
        -- rewrite (sector_records_in g (mem w2) (mem w1)) by done. apply Hstep.
      * by apply (gc_safe_quiet w w1).
      * unfold note_live_record. by repeat (destruct (_ =? _) || destruct (fffs_slot_is_pinned _ _ _)).
      * unfold note_live_record. by repeat (destruct (_ =? _) || destruct (fffs_slot_is_pinned _ _ _)).
      * unfold note_live_record. by repeat (destruct (_ =? _) || destruct (fffs_slot_is_pinned _ _ _)).
      * unfold note_live_record. by repeat (destruct (_ =? _) || destruct (fffs_slot_is_pinned _ _ _)).
      * unfold note_live_record. by repeat (destruct (_ =? _) || destruct (fffs_slot_is_pinned _ _ _)).
    + apply HQ; rewrite ?Hfs1, ?Hmd; try done.
      intros Hls r Hr Hrl. rewrite elem_of_app, list_elem_of_singleton in Hr.
      destruct Hr as [Hr | ->]; [by apply Hseen | by apply Hnot].
  - intros e w1 Hw1. apply wp_bind, (wp_gc_deactivate w0).
    + apply (gc_safe_quiet w0 w); [done | by apply flash_is_quiet].
    + intros w2 H2'. by apply wp_fail, HE.
Qed.

Lemma wp_walk_round w0 w s l window (Q : fffs_gc_action -> world -> Prop) E :
  gc_safe w0 w -> index_sectors g <= s < sector_count g ->
  footer_live (footer_at g (mem w) s) = true ->
  window_ok g (mem w) s window ->
  walking s l (gc_md (fs_gc (w_fs w))) w ->
  (forall a w', safe_to w0 w' -> Q a w') ->
  (forall e w', safe_to w0 w' -> E e w') ->
  wp (gc_walk_round s window) Q E w.
Proof.
  intros Hs Hsec Hfoot Hwin [(cursor & claimed & Hat & Hw) Hseen] HQ HE.
  pose proof (gs_after _ _ Hs) as Hb. pose proof Hb as [Hgeo Hok Hidx Hsane].
  pose proof (geo_index (g := g)). pose proof (sector_size_range (g := g)).
  destruct (walked_range g _ _ _ _ _ Hw) as [Hcur _].
  pose proof (walked_claimed _ _ _ _ _ Hw) as Hcl.
  pose proof (walked_ahead _ _ _ _ _ Hw) as Hahead.
  set (md := gc_md (fs_gc (w_fs w))) in *.
  unfold gc_walk_round. apply wp_bind, wp_get_fs. fold md.
  apply wp_bind, wp_try.
  apply (wp_result _ (fun '(walk', _, _, res) => wk_live_seen walk' = wk_live_seen md /\
    (res <> FFFS_MD_WALK_RECORD -> walk' = set_wk_active false md))).
  { intros [[[walk' window'] record] res] w'. apply walk_next_keeps. }
  apply (wp_walk_next g s cursor claimed); try done; try lia.
  intros w1 window1 md1 record Hw1 Hwin1.
  assert (Hm1 : forall a, mem w1 a = mem w a) by apply Hw1.
  assert (Hs1 : gc_safe w0 w1) by (apply (gc_safe_quiet w0 w); [done | by apply flash_is_quiet]).
  (* the walk ended before a record *)
  assert (Hend : forall res, res <> FFFS_MD_WALK_RECORD ->
    l = fst (sector_records g (mem w) s) ->
    wk_live_seen md1 = wk_live_seen md /\
      (res <> FFFS_MD_WALK_RECORD -> md1 = set_wk_active false md) ->
    wp (set_md (fun _ => md1) ;;
        when (bool_decide (res = FFFS_MD_WALK_RECORD))
          (r <- try_ (gc_classify_record s record) ;;
           match r with
           | inl err => gc_deactivate ;; fail err
           | inr live =>
               pinned <- slot_is_pinned (md_slot record) ;;
               when live (set_md (note_live_record record pinned))
           end) ;;
        fs <- get_fs ;;
        let md := gc_md (fs_gc fs) in
        if bool_decide (res = FFFS_MD_WALK_RECORD) && wk_active md
        then ret (if md_live record && negb (wk_live_seen md)
                  then FFFS_GC_TOMBSTONED else FFFS_GC_SCANNED)
        else gc_finish_sector s res) Q E w1).
  { intros res Hres Hl [Hls Hmd1]. specialize (Hmd1 Hres).
    apply wp_bind, wp_mod_gc; [apply Hw1 |]. intros w2 Hq2 Hgc2.
    rewrite (fi_fs _ _ _ Hw1) in Hgc2.
    assert (Hm2 : forall a, mem w2 a = mem w a)
      by (intros a; rewrite (qu_mem _ _ Hq2); apply Hm1).
    assert (Hs2 : gc_safe w0 w2) by by apply (gc_safe_quiet w0 w1).
    rewrite bool_decide_false by done. apply wp_bind, wp_ret.
    apply wp_bind, wp_get_fs. cbn [andb].
    apply (wp_finish_sector w0 _ _ l); rewrite ?Hgc2; cbn [gc_md set_gc_md]; try done.
    - by rewrite (sector_records_in g (mem w2) (mem w)) by done.
    - cbv zeta. rewrite Hls. intros Hf r Hr Hrl.
      assert (Hss : gc_safe w w2).
      { apply (gc_safe_quiet w w); [by apply gc_safe_refl |].
        eapply quiet_trans; [by apply flash_is_quiet | done]. }
      rewrite (protected_safe w w2) by done. by apply Hseen.
    - cbv zeta. intros _. rewrite Hmd1. destruct Hat as (_ & _ & Hwc & Hwd).
      cbn [set_wk_active wk_claimed_data_end wk_cursor]. lia. }
  destruct (Z.leb_spec cursor 10).
  { intros Hk. apply (Hend FFFS_MD_WALK_END_CLAIMED_DATA); [done | | done].
    destruct (Z.leb_spec cursor 10); [| lia]. by rewrite Hahead. }
  destruct (Z.leb_spec cursor 10) as [| _]; [lia |].
  destruct (parse_at g (mem w) s cursor) as [| | | r] eqn:Hp.
  - intros Hk. apply (Hend FFFS_MD_WALK_END_ERASED); [done | by rewrite Hahead | done].
  - exfalso. specialize (Hsane s Hsec Hfoot). rewrite Hahead in Hsane.
    by destruct Hsane as [Hne _].
  - intros Hk. apply (Hend FFFS_MD_WALK_END_INVALID); [done | by rewrite Hahead | done].
  - intros Hafter [Hls _]. clear Hend.
    apply wp_bind, wp_mod_gc; [apply Hw1 |]. intros w2 Hq2 Hgc2.
    rewrite (fi_fs _ _ _ Hw1) in Hgc2.
    assert (Hm2 : forall a, mem w2 a = mem w a)
      by (intros a; rewrite (qu_mem _ _ Hq2); apply Hm1).
    assert (Hs2 : gc_safe w0 w2) by by apply (gc_safe_quiet w0 w1).
    rewrite bool_decide_true by done. cbn [andb]. cbn [gc_md set_gc_md] in Hgc2.
    assert (Hgm : gc_md (fs_gc (w_fs w2)) = md1) by by rewrite Hgc2.
    assert (Hss : gc_safe w w2).
    { apply (gc_safe_quiet w w); [by apply gc_safe_refl |].
      eapply quiet_trans; [by apply flash_is_quiet | done]. }
    assert (Hsr : sector_records g (mem w2) s = sector_records g (mem w) s)
      by by apply sector_records_in.
    set (full := cursor - 16 <=? Z.max claimed (data_end r)) in *.
    assert (Hw2 : full = false -> walked g (mem w2) s (cursor - 16)
      (Z.max claimed (data_end r)) (l ++ [r])).
    { intros Hf. apply (walked_in g (mem w)); [intros a _; by rewrite Hm2 |].
      by apply walked_record. }
    assert (Hin : r ∈ fst (sector_records g (mem w2) s)).
    { destruct full eqn:Hf.
      - rewrite Hsr, Hahead. cbn [fst]. rewrite elem_of_app, list_elem_of_singleton. by right.
      - rewrite (walked_records g _ _ _ _ _ (Hw2 eq_refl)). cbn [fst].
        rewrite !elem_of_app, list_elem_of_singleton. left. by right. }
    apply wp_bind, (wp_when true); [intros _ | done].
    apply (wp_note_record w0 w2 s l r md1); try done.
    + by rewrite (footer_at_in g (mem w2) (mem w)) by done.
    + rewrite Hls. intros Hf x Hx Hxl. rewrite (protected_safe w w2) by done.
      by apply Hseen.
    + intros w3 Hs3 Hstep Hs23 md3 Hac Hse Hcu Hcd Hseen3.
      apply wp_bind, wp_get_fs. fold md3. rewrite Hac.
      destruct Hafter as (Has & Hacu & Hacd & Haa). rewrite Haa. fold full.
      destruct full eqn:Hf; cbn [negb].
      * apply (wp_finish_sector w0 _ _ (fst (sector_records g (mem w3) s)));
          [done | done | done | | | done].
        -- cbv zeta. intros Hl3. apply (seen_kept w2 w3 s (l ++ [r])); [done | |].
           ++ replace (l ++ [r]) with (fst (sector_records g (mem w2) s))
                by (rewrite Hsr, Hahead; done). apply Hstep.
           ++ by apply Hseen3.
        -- cbv zeta. intros Habs. done.
      * apply wp_ret, HQ. split; [done |].
        destruct (ws_walk _ _ _ Hstep _ _ _ (Hw2 eq_refl)) as (l3 & Hw3 & Hl3).
        apply (walking_sync s l3); [done |]. split.
        -- exists (cursor - 16), (Z.max claimed (data_end r)). split; [| done].
           fold md3. split; [rewrite Hac, Haa; fold full; by rewrite Hf |].
           split; [by rewrite Hse |].
           split; [by rewrite Hcu | by rewrite Hcd].
        -- intros Hl. apply (seen_kept w2 w3 s (l ++ [r])); [done | done |].
           by apply Hseen3.
Qed.

(** ** The step *)

Lemma wp_walk_sector w0 w s window (Q : fffs_gc_action -> world -> Prop) E :
  safe_to w0 w -> index_sectors g <= s < sector_count g ->
  footer_live (footer_at g (mem w) s) = true ->
  window_ok g (mem w) s window ->
  (forall a w', safe_to w0 w' -> Q a w') ->
  (forall e w', safe_to w0 w' -> E e w') ->
  wp (gc_walk_sector s window) Q E w.
Proof.
  intros [Hs Hsync] Hsec Hfoot Hwin HQ HE. pose proof (gs_after _ _ Hs) as Hb.
  pose proof Hb as [Hgeo Hok _ _].
  pose proof (geo_count (g := g)). pose proof (geo_index (g := g)).
  unfold gc_walk_sector. apply wp_bind, wp_get_fs. cbv zeta.
  apply wp_bind. destruct (_ || _) eqn:Hc.
  - rewrite u16_small by (unfold is_u16; lia).
    apply wp_bind, (wp_walk_init g); [done | done | done | lia |]. intros walk Hat.
    cbv iota beta. apply wp_bind, wp_mod_gc; [done |]. intros w1 Hq1 Hgc1.
    assert (Hm1 : forall a, mem w1 a = mem w a) by apply Hq1.
    apply wp_ret, (wp_walk_round w0 _ _ []); try done.
    + by apply (gc_safe_quiet w0 w).
    + by rewrite (footer_at_in g (mem w1) (mem w)).
    + eapply window_ok_ext; [| exact Hwin]. intros a. by rewrite Hm1.
    + rewrite Hgc1. cbn [gc_md set_gc_md]. split.
      * exists (sector_size g - 10), 0. split; [done | constructor].
      * intros _ r Hr. by apply not_elem_of_nil in Hr.
  - apply orb_false_iff in Hc as [Ha Hws]. rewrite negb_false_iff in Ha.
    apply negb_false_iff, Z.eqb_eq in Hws.
    destruct (Hsync Ha) as (_ & l & Hw & Hseen). rewrite Hws in *.
    apply wp_ret, (wp_walk_round w0 _ _ l); try done.
    split; [| exact Hseen].
    exists (wk_cursor (gc_md (fs_gc (w_fs w)))),
      (wk_claimed_data_end (gc_md (fs_gc (w_fs w)))). by repeat split.
Qed.

(** Erasing a sector whose footer is not live. *)
Lemma wp_gc_erase w0 w s (Q : fffs_gc_action -> world -> Prop) E :
  gc_safe w0 w -> index_sectors g <= s < sector_count g ->
  footer_live (footer_at g (mem w) s) = false ->
  (forall a w', safe_to w0 w' -> Q a w') ->
  wp (gc_erase_sector s) Q E w.
Proof.
  intros Hs Hsec Hdead HQ. pose proof (gs_after _ _ Hs) as Hb.
  unfold gc_erase_sector. apply wp_bind, wp_get_geo. rewrite (gb_geo _ Hb).
  apply wp_bind, wp_drop_erase; [done | done | done |]. intros w1 Hs1 _.
  apply wp_bind, wp_map_update; [apply Hs1 |]. intros w2 Hq2 _.
  apply wp_bind, (wp_gc_advance w0).
  - apply (gc_safe_quiet w0 w1); [by eapply gc_safe_trans | done].
  - intros w3 H3'. by apply wp_ret, HQ.
Qed.

(** A footer with live state is a footer that metadata lookups accept. *)
Lemma footer_decided f :
  ft_erased f = false -> footer_says_erase f = false ->
  fffs_lifecycle_is_live (ft_valid_bits f) (ft_tombstone_bits f) = true ->
  footer_live f = true.
Proof.
  unfold footer_says_erase, footer_live. rewrite !orb_false_iff, !negb_false_iff.
  intros -> [[[[[-> ->] _] _] _] _] ->. done.
Qed.

Lemma footer_dead l :
  let f := fffs_decode_sector_footer l in
  ft_erased f = true \/ footer_says_erase f = true -> footer_live f = false.
Proof.
  intros f [He | He]; unfold footer_live; [by rewrite He |].
  unfold footer_says_erase, fffs_lifecycle_is_live in *.
  rewrite !orb_true_iff, !negb_true_iff, !bool_decide_eq_true, Z.eqb_eq in He.
  destruct He as [[[[[-> | ->] | ->] | ->] | Hst] | ->];
    try by rewrite ?andb_false_r.
  assert (Hv : ft_valid_bits f = FFFS_BITMIRROR_SET).
  { change (ft_valid_bits f) with (fffs_lifecycle_valid_pair (ft_state f)).
    by rewrite Hst. }
  rewrite Hv. by rewrite ?andb_false_r.
Qed.

Lemma wp_scan_sector w0 w s (Q : fffs_gc_action -> world -> Prop) E :
  safe_to w0 w -> index_sectors g <= s < sector_count g ->
  (forall a w', safe_to w0 w' -> Q a w') ->
  (forall e w', safe_to w0 w' -> E e w') ->
  wp (gc_scan_sector s) Q E w.
Proof.
  intros Hsafe Hsec HQ HE. pose proof Hsafe as [Hs Hsync].
  pose proof (gs_after _ _ Hs) as Hb. pose proof Hb as [Hgeo Hok _ _].
  pose proof (geo_count (g := g)). pose proof (geo_index (g := g)).
  pose proof (sector_size_range (g := g)).
  unfold gc_scan_sector. apply wp_bind, wp_get_geo. rewrite Hgeo.
  rewrite u16_small by (unfold is_u16; lia).
  apply wp_bind, (wp_view_footer g); try done; try lia.
  { by apply local_reader_ok. }
  intros w1 window Hw1 Hwin. cbv iota beta.
  assert (Hm1 : forall a, mem w1 a = mem w a) by apply Hw1.
  assert (Hs1 : gc_safe w0 w1)
    by (apply (gc_safe_quiet w0 w); [done | by apply flash_is_quiet]).
  assert (Hsafe1 : safe_to w0 w1).
  { split; [done |]. rewrite (fi_fs _ _ _ Hw1). by apply (walk_sync_ext _ (mem w)). }
  rewrite <- (footer_at_in g (mem w1) (mem w)) by done.
  destruct (ft_erased (footer_at g (mem w1) s)) eqn:Her.
  - destruct (sector_in_device s 0 (sector_size g)) as [Hd1 Hd2]; [lia.. |].
    pose proof (geo_scratch (g := g)) as Hsc.
    apply wp_bind, wp_try, (wp_span_is_erased g);
      [by rewrite (fi_fs _ _ _ Hw1) | lia | apply Hw1 | lia | lia | |];
      intros w2 Hw2 _;
      assert (Hs2 : gc_safe w0 w2)
        by (apply (gc_safe_quiet w0 w1); [done | by apply flash_core_quiet]).
    + apply wp_bind, wp_map_update; [apply Hw2 |]. intros w3 Hq3 _.
      apply wp_bind, (wp_gc_advance w0); [by apply (gc_safe_quiet w0 w2) |].
      intros w4 H4'. by apply wp_ret, HQ.
    + apply (wp_gc_erase w0); [done | done | | done].
      rewrite (footer_at_in g (mem w2) (mem w1)) by (intros; apply Hw2).
      apply footer_dead. by left.
  - destruct (footer_says_erase _) eqn:Hers.
    + apply (wp_gc_erase w0); [done | done | | done]. apply footer_dead. by right.
    + destruct (fffs_lifecycle_is_live _ _) eqn:Hlive; cbn [negb];
        [| by apply wp_fail, HE].
      apply (wp_walk_sector w0); try done; [by apply footer_decided |].
      eapply window_ok_ext; [| exact Hwin]. intros a. by rewrite Hm1.
Qed.

Lemma normalized_range s :
  index_sectors g < sector_count g ->
  index_sectors g <= normalized_data_cursor g s < sector_count g.
Proof.
  intros Hlt. unfold normalized_data_cursor.
  destruct (Z.ltb_spec s (index_sectors g)), (Z.leb_spec (sector_count g) s);
    simpl; lia.
Qed.

(** One step of the collector, wherever it left off. *)
Lemma wp_gc_step use_map w0 w (Q : fffs_gc_action * bool -> world -> Prop) E :
  safe_to w0 w -> (forall a w', safe_to w0 w' -> Q a w') ->
  (forall e w', safe_to w0 w' -> E e w') ->
  wp (gc_step use_map) Q E w.
Proof.
  intros Hsafe HQ HE. pose proof Hsafe as [Hs Hsync].
  pose proof (gs_after _ _ Hs) as Hb. pose proof Hb as [Hgeo Hok _ _].
  pose proof (geo_count (g := g)). pose proof (geo_index (g := g)).
  unfold gc_step. apply wp_bind, wp_get_fs. cbv zeta. rewrite Hgeo.
  destruct (Z.leb_spec (sector_count g) (index_sectors g)); [by apply wp_ret, HQ |].
  set (s := normalized_data_cursor g _).
  assert (Hsec : index_sectors g <= s < sector_count g) by by apply normalized_range.
  assert (Hrest : forall w1, safe_to w0 w1 ->
    wp (held <- is_open_for_writing (u16 s) ;;
        if use_map && fffs_alloc_map_maybe_used (w_fs w) (u16 s) then
          gc_advance s false ;; ret (FFFS_GC_SCANNED, true)
        else if fffs_alloc_compaction_reserved (fs_alloc (w_fs w)) (u16 s) then
          gc_advance s false ;; ret (FFFS_GC_SCANNED, true)
        else if held then
          gc_advance s true ;; ret (FFFS_GC_SCANNED, true)
        else
          action <- gc_scan_sector s ;;
          ret (action, false)) Q E w1).
  { intros w1 Hsafe1. pose proof (proj1 Hsafe1) as Hs1.
    apply wp_bind. eapply returns_wp; [reflexivity |].
    destruct (_ && _); [| destruct (fffs_alloc_compaction_reserved _ _);
      [| destruct (fffs_sector_is_open_for_writing _ _ _)]];
      try (apply wp_bind, (wp_gc_advance w0); [done |]; intros w2 H2';
           by apply wp_ret, HQ).
    apply wp_bind, (wp_scan_sector w0); [done | done | | done].
    intros a w2 H2'. by apply wp_ret, HQ. }
  apply wp_bind, wp_when; intros _; [| by apply Hrest].
  apply wp_mod_gc; [done |]. intros w1 Hq1 Hgc1. apply Hrest.
  apply (safe_to_inactive _ w); [done | done |]. by rewrite Hgc1.
Qed.

Lemma wp_gc_step_loop n : forall skipped data w0 w (Q : fffs_gc_action -> world -> Prop) E,
  data - skipped <= Z.of_nat n -> (0 < n)%nat ->
  safe_to w0 w -> (forall a w', safe_to w0 w' -> Q a w') ->
  (forall e w', safe_to w0 w' -> E e w') ->
  wp (gc_step_loop n skipped data) Q E w.
Proof.
  induction n as [| n IH]; intros skipped data w0 w Q E Hn Hpos Hsafe HQ HE; [lia |].
  cbn [gc_step_loop]. apply wp_bind, (wp_gc_step _ w0); [done | | done].
  intros [action cheap] w1 Hs1. cbv iota beta.
  destruct (negb cheap || (data <=? skipped + 1)) eqn:Hc; [by apply wp_ret, HQ |].
  apply orb_false_iff in Hc as [_ Hc]. apply Z.leb_gt in Hc.
  apply (IH _ _ w0); try done; lia.
Qed.

Lemma wp_public_step w0 w (Q : fffs_gc_action -> world -> Prop) E :
  safe_to w0 w -> (forall a w', safe_to w0 w' -> Q a w') ->
  (forall e w', safe_to w0 w' -> E e w') -> wp fffs_gc_step Q E w.
Proof.
  intros Hsafe HQ HE. unfold fffs_gc_step. apply wp_bind, wp_get_geo. cbv zeta.
  apply (wp_gc_step_loop _ _ _ w0); try done; try lia.
Qed.

Lemma wp_gc_loop n : forall erased w0 w (Q : Z -> world -> Prop) E,
  safe_to w0 w -> (forall a w', safe_to w0 w' -> Q a w') ->
  (forall e w', safe_to w0 w' -> E e w') -> wp (gc_loop n erased) Q E w.
Proof.
  induction n as [| n IH]; intros erased w0 w Q E Hsafe HQ HE; cbn [gc_loop];
    [by apply wp_ret, HQ |].
  apply wp_bind, (wp_public_step w0); [done | | done]. intros a w1 Hs1.
  by apply (IH _ w0).
Qed.
End GcInv.

(** ** Properties *)

(** C11: garbage collection is safe.  From any state of its resumable walk, any
    number of collector steps ends, and whether it succeeds or stops at an
    error: every extent that a chain of the namespace runs through keeps its
    record and its data, the chains still run through it, no other live record
    appears, the namespace and the open handles are the same, and the collector
    can go on from where it stopped. *)
Theorem gc_keeps_namespace `{Backend} `{!NorFlash} `{!ValidBackend}
    (g : fs_geometry) `{!GeoOk g} `{!EraseUnit g} (I : IndexCache) `{!CachedIndex I}
    (max_steps : Z) (w : world) :
  gc_inv g I w ->
  exists r w', fffs_gc max_steps w = (r, w') /\ r <> NoFuel /\
    gc_inv g I w' /\ idx_map (w_fs w') = idx_map (w_fs w) /\
    w_files w' = w_files w /\
    (forall slot sector, protected g (idx_map (w_fs w)) (mem w) slot sector ->
       protected g (idx_map (w_fs w')) (mem w') slot sector /\
       forall record, slot_md g (mem w) sector slot FFFS_MD_MATCH_LIVE = inr record ->
         slot_md g (mem w') sector slot FFFS_MD_MATCH_LIVE = inr record /\
         mem_bytes (mem w') (sector * sector_size g + md_data_off record)
           (md_data_len record) =
         mem_bytes (mem w) (sector * sector_size g + md_data_off record)
           (md_data_len record)) /\
    (forall slot sector record,
       slot_md g (mem w') sector slot FFFS_MD_MATCH_LIVE = inr record ->
       exists record', slot_md g (mem w) sector slot FFFS_MD_MATCH_LIVE = inr record').
Proof.
  intros [Hb Hsync].
  assert (Hwp : wp (fffs_gc max_steps) (fun _ w' => safe_to g I w w')
    (fun _ w' => safe_to g I w w') w).
  { apply (wp_gc_loop g I _ _ w); try done. split; [by apply gc_safe_refl | done]. }
  assert (Hrun : exists r w', fffs_gc max_steps w = (r, w') /\ r <> NoFuel /\
    safe_to g I w w').
  { unfold wp in Hwp. destruct (fffs_gc max_steps w) as [[a | e |] w'];
      [by exists (Ok a), w' | by exists (Err e), w' | done]. }
  destruct Hrun as (r & w' & Hrun & Hr & Hsafe & Hsync'). exists r, w'.
  split; [done |]. split; [done |]. split; [by split; [apply Hsafe |] |].
  split; [apply Hsafe |]. split; [apply Hsafe |].
  pose proof (gs_mem _ _ _ _ Hsafe) as Hm. split.
  - intros slot sector Hp. split; [by apply (protected_safe g I w w') |].
    intros record Hrec. destruct (gm_keep _ _ _ _ Hm _ _ _ Hp Hrec) as [Hrec' Hd].
    split; [done |]. apply mem_bytes_ext. intros a Ha. apply Hd. unfold data_end. lia.
  - intros slot sector record. apply (gm_back _ _ _ _ Hm).
Qed.

(** The scan of a sector whose footer says that nothing in it is live. *)
Lemma wp_scan_reclaims `{Backend} `{!NorFlash} `{!ValidBackend}
    (g : fs_geometry) `{!GeoOk g} `{!EraseUnit g} (I : IndexCache) s w
    (Q : fffs_gc_action -> world -> Prop) E :
  fs_geo (w_fs w) = g -> flash_ok w -> index_sectors g <= s < sector_count g ->
  ft_erased (footer_at g (mem w) s) = false ->
  footer_says_erase (footer_at g (mem w) s) = true ->
  (forall w',
     (forall a, mem w' a = mem_erase (mem w) (s * sector_size g) (sector_size g) a) ->
     gc_cursor (fs_gc (w_fs w')) = fffs_next_data_sector g s ->
     wk_active (gc_md (fs_gc (w_fs w'))) = false -> Q FFFS_GC_ERASED w') ->
  wp (gc_scan_sector s) Q E w.
Proof.
  intros Hg1 Hok Hsec Her Hers HQ.
  pose proof (geo_count (g := g)). pose proof (geo_index (g := g)).
  pose proof (sector_size_range (g := g)).
  unfold gc_scan_sector. apply wp_bind, wp_get_geo.
  rewrite Hg1, u16_small by (unfold is_u16; lia).
  apply wp_bind, (wp_view_footer g); [done | done | | done | lia |].
  { by apply local_reader_ok. }
  intros w2 window Hw2 _. cbv iota beta.
  assert (Hm2 : forall a, mem w2 a = mem w a) by apply Hw2.
  rewrite Her, Hers. unfold gc_erase_sector. apply wp_bind, wp_get_geo.
  rewrite (fi_fs _ _ _ Hw2), Hg1.
  destruct (sector_in_device s 0 (sector_size g)) as [Hd1 Hd2]; [lia.. |].
  apply wp_bind, wp_backend_erase; [apply Hw2 | lia | lia | lia |
    apply (sectors_of_unit g) | apply (unit_sector (g := g)) |].
  intros w3 Hw3. apply wp_bind, wp_map_update; [apply Hw3 |]. intros w4 Hq4 Hgc4.
  assert (Hg4 : fs_geo (w_fs w4) = g)
    by (rewrite (qu_geo _ _ Hq4), (fi_fs _ _ _ Hw3), (fi_fs _ _ _ Hw2); done).
  unfold gc_advance. apply wp_bind, wp_bind, wp_get_geo. rewrite Hg4.
  apply wp_bind, wp_mod_gc; [apply Hq4 |]. intros w5 Hq5 Hgc5.
  apply wp_mod_gc; [apply Hq5 |]. intros w6 Hq6 Hgc6.
  apply wp_ret, HQ; rewrite ?Hgc6, ?Hgc5; [| done | done].
  intros a. rewrite (qu_mem _ _ Hq6), (qu_mem _ _ Hq5), (qu_mem _ _ Hq4),
    (fi_mem _ _ _ Hw3). unfold mem_erase. by rewrite Hm2.
Qed.

(** C30: garbage collection reclaims.  When the cursor is at a sector that the
    maps do not rule out and whose footer is tombstoned, torn or foreign, the
    next step succeeds, reports the erase, leaves the sector erased and every
    other byte of the flash as it was, and moves the cursor on. *)
Theorem gc_step_reclaims `{Backend} `{!NorFlash} `{!ValidBackend}
    (g : fs_geometry) `{!GeoOk g}
  `{!EraseUnit g} (I : IndexCache) (use_map : bool) (w : world) :
  let s := normalized_data_cursor g (gc_cursor (fs_gc (w_fs w))) in
  fs_geo (w_fs w) = g -> flash_ok w -> index_sectors g < sector_count g ->
  use_map && fffs_alloc_map_maybe_used (w_fs w) s = false ->
  fffs_alloc_compaction_reserved (fs_alloc (w_fs w)) s = false ->
  fffs_sector_is_open_for_writing (w_fs w) (w_files w) s = false ->
  ft_erased (footer_at g (mem w) s) = false ->
  footer_says_erase (footer_at g (mem w) s) = true ->
  exists w', gc_step use_map w = (Ok (FFFS_GC_ERASED, false), w') /\
    (forall a, mem w' a = mem_erase (mem w) (s * sector_size g) (sector_size g) a) /\
    gc_cursor (fs_gc (w_fs w')) = fffs_next_data_sector g s /\
    wk_active (gc_md (fs_gc (w_fs w'))) = false.
Proof.
  intros s Hgeo Hok Hlt Hmap Hres Hheld Her Hers.
  pose proof (geo_count (g := g)). pose proof (geo_index (g := g)).
  assert (Hsec : index_sectors g <= s < sector_count g) by by apply normalized_range.
  set (post := fun a w' => a = (FFFS_GC_ERASED, false) /\
    (forall a, mem w' a = mem_erase (mem w) (s * sector_size g) (sector_size g) a) /\
    gc_cursor (fs_gc (w_fs w')) = fffs_next_data_sector g s /\
    wk_active (gc_md (fs_gc (w_fs w'))) = false).
  assert (Hwp : wp (gc_step use_map) post (fun _ _ => False) w).
  { unfold gc_step. apply wp_bind, wp_get_fs. cbv zeta. rewrite Hgeo.
    destruct (Z.leb_spec (sector_count g) (index_sectors g)); [lia |].
    fold s. rewrite u16_small, Hmap, Hres by (unfold is_u16; lia).
    assert (Hrest : forall w1, w_ctx w1 = w_ctx w -> fs_geo (w_fs w1) = g ->
      open_files (w_fs w1) = open_files (w_fs w) -> w_files w1 = w_files w ->
      wp (held <- is_open_for_writing s ;;
          if held then gc_advance s true ;; ret (FFFS_GC_SCANNED, true)
          else action <- gc_scan_sector s ;; ret (action, false)) post
        (fun _ _ => False) w1).
    { intros w1 Hc Hg1 Hof Hfi. apply wp_bind. eapply returns_wp; [reflexivity |].
      assert (Hh : fffs_sector_is_open_for_writing (w_fs w1) (w_files w1) s = false).
      { rewrite <- Hheld, Hfi.
        unfold fffs_sector_is_open_for_writing, open_handles, open_list.
        by rewrite Hof. }
      assert (Hm : mem w1 = mem w) by (unfold mem; by rewrite Hc).
      rewrite Hh. apply wp_bind, (wp_scan_reclaims g I); rewrite ?Hm; try done.
      unfold flash_ok. by rewrite Hc. }
    apply wp_bind, wp_when; intros _; [by apply wp_mod_fs, Hrest | by apply Hrest]. }
  apply wp_returns in Hwp as (a & w' & Hrun & -> & Hrest). by exists w'.
Qed.

(** The collector's step over a sector that the allocation map rules out. *)
Lemma gc_step_mapped `{Backend} (I : IndexCache) w :
  let g := fs_geo (w_fs w) in
  index_sectors g < sector_count g ->
  fffs_alloc_map_maybe_used (w_fs w)
    (u16 (normalized_data_cursor g (gc_cursor (fs_gc (w_fs w))))) = true ->
  exists w', gc_step true w = (Ok (FFFS_GC_SCANNED, true), w') /\
    fs_geo (w_fs w') = g /\ fs_alloc (w_fs w') = fs_alloc (w_fs w) /\
    gc_cursor (fs_gc (w_fs w')) =
      fffs_next_data_sector g (normalized_data_cursor g (gc_cursor (fs_gc (w_fs w)))).
Proof.
  intros g Hlt Hmap. unfold gc_step, bind, get_fs, when. cbn beta iota zeta. fold g.
  destruct (Z.leb_spec (sector_count g) (index_sectors g)); [lia |].
  destruct (negb (_ =? _)); cbn -[normalized_data_cursor fffs_next_data_sector];
    fold g; rewrite Hmap; eexists; (split; [reflexivity |]); done.
Qed.

(** The search for an erased sector does not end on a device with a single
    data sector that the allocation map marks used: the cursor comes back to
    where it was, which [fffs_gc_until_erased] takes for no progress, so no
    number of rounds is enough. *)
Theorem gc_single_sector_diverges `{Backend} (I : IndexCache) (N : Fuel) (w : world) :
  let g := fs_geo (w_fs w) in
  sector_count g = index_sectors g + 1 ->
  fffs_alloc_map_maybe_used (w_fs w) (u16 (index_sectors g)) = true ->
  exists w', fffs_gc_until_erased w = (NoFuel, w').
Proof.
  intros g Hone Hmap.
  assert (Hnorm : forall c, normalized_data_cursor g c = index_sectors g).
  { intros c. unfold normalized_data_cursor.
    destruct (Z.ltb_spec c (index_sectors g)), (Z.leb_spec (sector_count g) c);
      simpl; lia. }
  assert (Hloop : forall n w1, fs_geo (w_fs w1) = g ->
    fs_alloc (w_fs w1) = fs_alloc (w_fs w) ->
    exists w', until_erased_pass n true 0 1 w1 = (NoFuel, w')).
  { induction n as [| n IH]; intros w1 Hg1 Ha1; cbn [until_erased_pass];
      change (negb (0 <? 1)) with false; cbn iota; [by eexists |].
    destruct (gc_step_mapped I w1) as (w2 & Hrun & Hg2 & Ha2 & Hc2);
      [rewrite Hg1; lia | |].
    { rewrite Hg1, Hnorm. unfold fffs_alloc_map_maybe_used in *.
      by rewrite Hg1, Ha1. }
    unfold bind, get_fs. cbn beta iota zeta. rewrite Hrun.
    rewrite bool_decide_false by done. rewrite Hg2, Hg1, !Hnorm, Z.eqb_refl.
    cbn [negb]. rewrite bool_decide_false by done.
    apply IH; congruence. }
  unfold fffs_gc_until_erased, bind, get_geo. cbn beta iota zeta. fold g.
  destruct (Z.leb_spec (sector_count g) (index_sectors g)); [lia |].
  replace (sector_count g - index_sectors g) with 1 by lia.
  destruct (Hloop fuel (snd (clear_candidates w))) as (w' & Hrun); [done | done |].
  unfold clear_candidates at 1, mod_gc, mod_fs. cbn beta iota zeta.
  unfold clear_candidates, mod_gc, mod_fs in Hrun. cbn [snd] in Hrun.
  rewrite Hrun. by eexists.
Qed.
