(* ===== verification/Inspect.v ===== *)
(** * The image inspector

    [src/fffs_inspect.c] without the workload generator (that is in
    [Workload]): record decoding over a raw image, the consistency summary,
    the live map, the fragmentation statistics and the dump.  The inspector
    reads the image through the backend callbacks; it has no mounted file
    system.  Arrays that the code allocates with [calloc] are maps or lists
    that start all zero; the failure of an allocation is not modelled. *)

From Stdlib Require Import String.
From S2P Require Export IndexLog.

Abbreviation FFFS_MD_SIZE := FFFS_MD_FILE_RECORD_SIZE.

(** ** Data *)

Inductive md_kind : Type :=
  | MD_ERASED
  | MD_VALID
  | MD_TOMBSTONED
  | MD_CORRUPT
  | MD_UNCOMMITTED.

#[export] Instance md_kind_eq_dec : EqDecision md_kind.
Proof. solve_decision. Defined.

(** [struct decoded_md] *)
Record decoded_md : Type := mk_decoded {
  dm_type : Z;
  dm_state : Z;
  dm_slot : Z;
  dm_data_off : Z;
  dm_data_len : Z;
  dm_next : Z;
  dm_span_len : Z;
  dm_size : Z;
  dm_name : list Z;
}.

Definition decoded_zero : decoded_md := mk_decoded 0 0 0 0 0 0 0 0 [].

Definition set_dm_name (name : list Z) (d : decoded_md) : decoded_md :=
  mk_decoded (dm_type d) (dm_state d) (dm_slot d) (dm_data_off d)
    (dm_data_len d) (dm_next d) (dm_span_len d) (dm_size d) name.

(** [struct fffs_inspect_summary], split by what its fields describe: the
    layout that [discover] finds, and the counters of the journal, of the data
    sectors and of the metadata records. *)
Record inspect_layout : Type := mk_layout {
  il_sector_size : Z;
  il_sector_count : Z;
  il_index_sectors : Z;
  il_active_index_sector : Z;
  il_active_index_serial : Z;
}.

Record index_counts : Type := mk_index_counts {
  ic_records : Z;
  ic_deletes : Z;
  ic_corrupt_records : Z;
  ic_live_entries : Z;
  ic_live_entries_corrupt : Z;
}.

Record sector_counts : Type := mk_sector_counts {
  sc_erased : Z;
  sc_owned : Z;
  sc_tombstoned : Z;
  sc_corrupt : Z;
}.

Record md_counts : Type := mk_md_counts {
  mc_live : Z;
  mc_obsolete_orphaned : Z;
  mc_tombstoned : Z;
  mc_corrupt : Z;
}.

Record fffs_inspect_summary : Type := mk_summary {
  sum_layout : inspect_layout;
  sum_index : index_counts;
  sum_sectors : sector_counts;
  sum_md : md_counts;
}.

Definition index_counts_zero : index_counts := mk_index_counts 0 0 0 0 0.
Definition sector_counts_zero : sector_counts := mk_sector_counts 0 0 0 0.
Definition md_counts_zero : md_counts := mk_md_counts 0 0 0 0.

Definition count_record (c : index_counts) : index_counts :=
  mk_index_counts (ic_records c + 1) (ic_deletes c) (ic_corrupt_records c)
    (ic_live_entries c) (ic_live_entries_corrupt c).

Definition count_delete (c : index_counts) : index_counts :=
  mk_index_counts (ic_records c) (ic_deletes c + 1) (ic_corrupt_records c)
    (ic_live_entries c) (ic_live_entries_corrupt c).

Definition count_corrupt_record (c : index_counts) : index_counts :=
  mk_index_counts (ic_records c) (ic_deletes c) (ic_corrupt_records c + 1)
    (ic_live_entries c) (ic_live_entries_corrupt c).

Definition count_live_entries (n : Z) (c : index_counts) : index_counts :=
  mk_index_counts (ic_records c) (ic_deletes c) (ic_corrupt_records c)
    (ic_live_entries c + n) (ic_live_entries_corrupt c).

Definition count_corrupt_entry (c : index_counts) : index_counts :=
  mk_index_counts (ic_records c) (ic_deletes c) (ic_corrupt_records c)
    (ic_live_entries c) (ic_live_entries_corrupt c + 1).

Definition count_erased_sector (c : sector_counts) : sector_counts :=
  mk_sector_counts (sc_erased c + 1) (sc_owned c) (sc_tombstoned c)
    (sc_corrupt c).

Definition count_owned_sector (c : sector_counts) : sector_counts :=
  mk_sector_counts (sc_erased c) (sc_owned c + 1) (sc_tombstoned c)
    (sc_corrupt c).

Definition count_tombstoned_sector (c : sector_counts) : sector_counts :=
  mk_sector_counts (sc_erased c) (sc_owned c) (sc_tombstoned c + 1)
    (sc_corrupt c).

Definition count_md_live (c : md_counts) : md_counts :=
  mk_md_counts (mc_live c + 1) (mc_obsolete_orphaned c) (mc_tombstoned c)
    (mc_corrupt c).

Definition count_md_orphaned (c : md_counts) : md_counts :=
  mk_md_counts (mc_live c) (mc_obsolete_orphaned c + 1) (mc_tombstoned c)
    (mc_corrupt c).

Definition count_md_tombstoned (c : md_counts) : md_counts :=
  mk_md_counts (mc_live c) (mc_obsolete_orphaned c) (mc_tombstoned c + 1)
    (mc_corrupt c).

Definition count_md_corrupt (c : md_counts) : md_counts :=
  mk_md_counts (mc_live c) (mc_obsolete_orphaned c) (mc_tombstoned c)
    (mc_corrupt c + 1).

(** The head array [live_heads], indexed by slot and zero where absent. *)
Definition head_at (heads : gmap Z Z) (slot : Z) : Z :=
  default 0 (heads !! slot).

Definition flag_at (flags : list bool) (i : Z) : bool :=
  nth (Z.to_nat i) flags false.

(** ** Decoding *)

Definition tombstoned_bits (valid tombstone : fffs_bitmirror) : bool :=
  negb (bool_decide (valid = FFFS_BITMIRROR_MIXED)) &&
  bool_decide (tombstone = FFFS_BITMIRROR_CLEARED).

Definition valid_footer (footer : fffs_sector_footer) : bool :=
  let live := fffs_lifecycle_is_live (ft_valid_bits footer)
                (ft_tombstone_bits footer) in
  let tombstoned := tombstoned_bits (ft_valid_bits footer)
                      (ft_tombstone_bits footer) in
  (ft_type footer =? FFFS_SECTOR_TYPE_FILE) && ft_magic_valid footer &&
  (live || tombstoned).

(** The record is [None] where the code leaves [*out] alone. *)
Definition decode_md (md : list Z) (data_limit : Z)
  : md_kind * option decoded_md :=
  if fffs_flash_bytes_erased md then (MD_ERASED, None)
  else
    let state := byte_at md 0 in
    let valid := fffs_lifecycle_valid_pair state in
    let tombstone := fffs_lifecycle_tombstone_pair state in
    let uncommitted := state =? 0xff in
    let live := fffs_lifecycle_is_live valid tombstone in
    let tombstoned :=
      negb (bool_decide (valid = FFFS_BITMIRROR_MIXED)) &&
      (bool_decide (tombstone = FFFS_BITMIRROR_CLEARED) ||
       bool_decide (tombstone = FFFS_BITMIRROR_MIXED)) in
    let type := byte_at md 15 in
    if negb (type =? FFFS_MD_TYPE_FILE_ROOT_V1) &&
       negb (type =? FFFS_MD_TYPE_FILE_CONT_V1) then (MD_CORRUPT, None)
    else if negb live && negb tombstoned && negb uncommitted
    then (MD_CORRUPT, None)
    else
      let data_off := load16_at md 7 in
      let data_len := load16_at md 9 in
      let span_len := load16_at md 5 in
      if (data_limit <? data_off + data_len) ||
         (negb uncommitted && (span_len =? 0)) then (MD_CORRUPT, None)
      else
        let out := mk_decoded type state (load16_at md 1) data_off data_len
          (load16_at md 3) span_len
          (if type =? FFFS_MD_TYPE_FILE_ROOT_V1 then load32_at md 11 else 0)
          [] in
        (if uncommitted then MD_UNCOMMITTED
         else if tombstoned then MD_TOMBSTONED else MD_VALID, Some out).

Section Inspect.
Context `{Backend}.

(** [backend_read]: a read with its range check. *)
Definition backend_read (offset size : Z) : M (list Z) :=
  guard_err ((be_size <? offset) || (be_size - offset <? size))
    FFFS_ERR_RANGE ;;
  fffs_flash_read offset size.

Definition read_root_name_for_decoded (l : inspect_layout) (sector : Z)
    (decoded : decoded_md) (kind : md_kind) : M (md_kind * decoded_md) :=
  if negb (bool_decide (kind = MD_VALID)) ||
     negb (dm_type decoded =? FFFS_MD_TYPE_FILE_ROOT_V1)
  then ret (kind, decoded)
  else
    let base := sector * il_sector_size l + dm_data_off decoded in
    len <- backend_read base 1 ;;
    let name_len := byte_at len 0 in
    if (name_len =? 0) || (FFFS_MAX_NAME <? name_len) ||
       (dm_data_len decoded <? 1 + name_len + 1)
    then ret (MD_CORRUPT, decoded)
    else
      name <- backend_read (base + 1) name_len ;;
      ret (kind, set_dm_name name decoded).

(** The record that ends at [cursor]: its kind, what was decoded, and where it
    starts.  The decoded record means nothing for an erased or corrupt kind. *)
Definition read_record_before (l : inspect_layout) (sector cursor : Z)
  : M (md_kind * decoded_md * Z) :=
  if cursor <? FFFS_MD_FILE_RECORD_SIZE
  then ret (MD_CORRUPT, decoded_zero, 0)
  else
    type <- backend_read (sector * il_sector_size l + cursor - 1) 1 ;;
    if byte_at type 0 =? 0xff then ret (MD_ERASED, decoded_zero, 0)
    else
      let start := cursor - FFFS_MD_FILE_RECORD_SIZE in
      md <- backend_read (sector * il_sector_size l + start) FFFS_MD_SIZE ;;
      let '(kind, out) := decode_md md start in
      let* (kind, decoded) :=
        read_root_name_for_decoded l sector (default decoded_zero out) kind in
      ret (kind, decoded, start).

Definition discover : M inspect_layout :=
  guard_err (be_size =? 0) FFFS_ERR_INVALID ;;
  sequence <- fffs_find_index_sequence ;;
  let size := Z.shiftl 256 (seq_sector_shift sequence) in
  guard_err (negb (be_size mod size =? 0) || (UINT16_MAX <? be_size / size))
    FFFS_ERR_CORRUPT ;;
  ret (mk_layout size (be_size / size) (seq_index_sectors sequence)
         (seq_active_sector sequence) (seq_active_serial sequence)).

(** ** The journal *)

Definition active_begin (l : inspect_layout) : Z :=
  il_active_index_sector l * il_sector_size l + FFFS_HEADER_SIZE.

Definition active_end (l : inspect_layout) : Z :=
  (il_active_index_sector l + 1) * il_sector_size l.

Definition head_out_of_range (l : inspect_layout) (head : Z) : bool :=
  (head <? il_index_sectors l) || (il_sector_count l <=? head).

(** A sector has fewer records than bytes, which bounds the loops over its
    journal and over its metadata. *)
Definition sector_rounds (l : inspect_layout) : nat := Z.to_nat (il_sector_size l).

Fixpoint replay_active_loop (n : nat) (l : inspect_layout) (off stop : Z)
    (heads : gmap Z Z) : M (gmap Z Z) :=
  if negb (off + 4 <=? stop) then ret heads
  else match n with
       | O => diverge
       | S n' =>
           rec <- backend_read off 4 ;;
           let slot := fffs_load_le16 rec in
           let head := load16_at rec 2 in
           if (slot =? UINT16_MAX) && (head =? UINT16_MAX) then ret heads
           else if (slot =? 0) && (head =? 0)
           then replay_active_loop n' l (off + 4) stop heads
           else if head =? 0
           then replay_active_loop n' l (off + 4) stop (<[slot := 0]> heads)
           else if head_out_of_range l head then fail FFFS_ERR_CORRUPT
           else replay_active_loop n' l (off + 4) stop (<[slot := head]> heads)
       end.

Definition replay_active_index (l : inspect_layout) : M (gmap Z Z) :=
  replay_active_loop (sector_rounds l) l (active_begin l) (active_end l) ∅.

Fixpoint inspect_index_loop (n : nat) (l : inspect_layout) (off stop : Z)
    (heads : gmap Z Z) (c : index_counts) : M (gmap Z Z * index_counts) :=
  if negb (off + 4 <=? stop) then ret (heads, c)
  else match n with
       | O => diverge
       | S n' =>
           rec <- backend_read off 4 ;;
           let slot := fffs_load_le16 rec in
           let head := load16_at rec 2 in
           if (slot =? UINT16_MAX) && (head =? UINT16_MAX) then ret (heads, c)
           else if (slot =? 0) && (head =? 0)
           then inspect_index_loop n' l (off + 4) stop heads c
           else
             let c := count_record c in
             if head =? 0
             then inspect_index_loop n' l (off + 4) stop (<[slot := 0]> heads)
                    (count_delete c)
             else if head_out_of_range l head
             then inspect_index_loop n' l (off + 4) stop heads
                    (count_corrupt_record c)
             else inspect_index_loop n' l (off + 4) stop
                    (<[slot := head]> heads) c
       end.

(** The slots with a head, [n] of them from [slot] on. *)
Fixpoint live_entries_from (n : nat) (slot : Z) (heads : gmap Z Z) : Z :=
  match n with
  | O => 0
  | S n' => (if negb (head_at heads slot =? 0) then 1 else 0) +
            live_entries_from n' (slot + 1) heads
  end.

Definition inspect_index (l : inspect_layout) : M (gmap Z Z * index_counts) :=
  let* (heads, c) :=
    inspect_index_loop (sector_rounds l) l (active_begin l) (active_end l) ∅
      index_counts_zero in
  ret (heads,
       count_live_entries
         (live_entries_from (Z.to_nat FFFS_SLOT_COUNT) 0 heads) c).

(** ** Chains *)

Definition read_footer (l : inspect_layout) (sector : Z)
  : M fffs_sector_footer :=
  footer <- backend_read (sector * il_sector_size l + il_sector_size l -
                            FFFS_SECTOR_FOOTER_SIZE) FFFS_SECTOR_FOOTER_SIZE ;;
  ret (fffs_decode_sector_footer footer).

Definition data_end_max (claimed : Z) (d : decoded_md) : Z :=
  let data_end := dm_data_off d + dm_data_len d in
  if claimed <? data_end then data_end else claimed.

(** The walk back over the records of a sector; the sector size is more than a
    footer, so the first round always runs. *)
Fixpoint read_decoded_loop (n : nat) (l : inspect_layout)
    (sector want_slot cursor claimed : Z) (decoded : decoded_md)
    (kind : md_kind) : M (decoded_md * md_kind) :=
  if negb (FFFS_SECTOR_FOOTER_SIZE <? cursor) then ret (decoded, kind)
  else match n with
       | O => diverge
       | S n' =>
           let* (kind, decoded, start) := read_record_before l sector cursor in
           if bool_decide (kind = MD_ERASED) || bool_decide (kind = MD_CORRUPT)
           then ret (decoded, kind)
           else
             let claimed := data_end_max claimed decoded in
             if bool_decide (kind = MD_TOMBSTONED) ||
                bool_decide (kind = MD_UNCOMMITTED) ||
                negb (dm_slot decoded =? want_slot)
             then if start <=? claimed then ret (decoded, kind)
                  else read_decoded_loop n' l sector want_slot start claimed
                         decoded kind
             else ret (decoded, kind)
       end.

Definition read_decoded_md (l : inspect_layout) (sector want_slot : Z)
  : M (decoded_md * md_kind) :=
  view <- read_footer l sector ;;
  if negb (valid_footer view) then ret (decoded_zero, MD_CORRUPT)
  else read_decoded_loop (sector_rounds l) l sector want_slot
         (il_sector_size l - FFFS_SECTOR_FOOTER_SIZE) 0 decoded_zero MD_CORRUPT.

(** The chain of a slot, [n] extents of it at most. *)
Fixpoint reachable_for_slot_loop (n : nat) (l : inspect_layout)
    (slot sector current : Z) : M bool :=
  match n with
  | O => ret false
  | S n' =>
      if current =? 0 then ret false
      else if head_out_of_range l current then ret false
      else
        let* (decoded, kind) := read_decoded_md l current slot in
        if negb (bool_decide (kind = MD_VALID)) ||
           negb (dm_slot decoded =? slot) then ret false
        else if (current <=? sector) &&
                (sector <? current + dm_span_len decoded) then ret true
        else reachable_for_slot_loop n' l slot sector (dm_next decoded)
  end.

Definition record_reachable_for_slot (l : inspect_layout) (heads : gmap Z Z)
    (slot sector : Z) : M bool :=
  reachable_for_slot_loop (Z.to_nat (il_sector_count l)) l slot sector
    (head_at heads slot).

(** [reachable[owned] = true] over a span; [true] when the span leaves the
    device. *)
Fixpoint mark_span (n : nat) (owned count : Z) (reachable : list bool)
  : bool * list bool :=
  match n with
  | O => (false, reachable)
  | S n' =>
      if count <=? owned then (true, reachable)
      else mark_span n' (owned + 1) count (<[Z.to_nat owned := true]> reachable)
  end.

(** The marks of [mark_live_chains]. *)
Record chain_marks : Type := mk_marks {
  cm_reachable : list bool;
  cm_span_heads : list bool;
  cm_seen_root : gset Z;
}.

Fixpoint mark_chain_loop (n : nat) (l : inspect_layout)
    (slot head current : Z) (marks : chain_marks)
  : M (bool * chain_marks) :=
  match n with
  | O => ret (false, marks)
  | S n' =>
      if current =? 0 then ret (false, marks)
      else if head_out_of_range l current then ret (true, marks)
      else
        let* (decoded, kind) := read_decoded_md l current slot in
        if negb (bool_decide (kind = MD_VALID)) ||
           negb (dm_slot decoded =? slot) then ret (true, marks)
        else
          let span_heads :=
            <[Z.to_nat current := true]> (cm_span_heads marks) in
          let '(corrupt, reachable) :=
            mark_span (Z.to_nat (dm_span_len decoded)) current
              (il_sector_count l) (cm_reachable marks) in
          if corrupt
          then ret (true, mk_marks reachable span_heads (cm_seen_root marks))
          else
            let seen := if current =? head
                        then {[slot]} ∪ cm_seen_root marks
                        else cm_seen_root marks in
            mark_chain_loop n' l slot head (dm_next decoded)
              (mk_marks reachable span_heads seen)
  end.

Fixpoint mark_chains_loop (n : nat) (l : inspect_layout) (heads : gmap Z Z)
    (slot : Z) (marks : chain_marks) (c : index_counts)
  : M (chain_marks * index_counts) :=
  match n with
  | O => ret (marks, c)
  | S n' =>
      let head := head_at heads slot in
      if head =? 0 then mark_chains_loop n' l heads (slot + 1) marks c
      else
        let* (corrupt, marks) :=
          mark_chain_loop (Z.to_nat (il_sector_count l)) l slot head head
            marks in
        let c := if corrupt ||
                    negb (bool_decide (slot ∈ cm_seen_root marks))
                 then count_corrupt_entry c else c in
        mark_chains_loop n' l heads (slot + 1) marks c
  end.

Definition marks_init (l : inspect_layout) : chain_marks :=
  let no := replicate (Z.to_nat (il_sector_count l)) false in
  mk_marks no no ∅.

Definition mark_live_chains (l : inspect_layout) (heads : gmap Z Z)
    (c : index_counts) : M (chain_marks * index_counts) :=
  mark_chains_loop (Z.to_nat FFFS_SLOT_COUNT) l heads 0 (marks_init l) c.

(** ** The summary *)

(** Whether the walk over a sector's records goes on below [start]. *)
Fixpoint inspect_records_loop (n : nat) (l : inspect_layout)
    (heads : gmap Z Z) (sector cursor claimed : Z) (c : md_counts)
  : M md_counts :=
  if negb (FFFS_SECTOR_FOOTER_SIZE <? cursor) then ret c
  else match n with
       | O => diverge
       | S n' =>
           let* (kind, decoded, start) := read_record_before l sector cursor in
           if bool_decide (kind = MD_ERASED) then ret c
           else if bool_decide (kind = MD_CORRUPT) then ret (count_md_corrupt c)
           else
             let claimed := data_end_max claimed decoded in
             c <- (if bool_decide (kind = MD_TOMBSTONED)
                   then ret (count_md_tombstoned c)
                   else if bool_decide (kind = MD_UNCOMMITTED)
                   then ret (count_md_orphaned c)
                   else
                     live <- record_reachable_for_slot l heads
                               (dm_slot decoded) sector ;;
                     ret (if live : bool then count_md_live c
                          else count_md_orphaned c)) ;;
             if start <=? claimed then ret c
             else inspect_records_loop n' l heads sector start claimed c
       end.

Definition inspect_data_sector (l : inspect_layout) (heads : gmap Z Z)
    (marks : chain_marks) (sector : Z) (sc : sector_counts) (mc : md_counts)
  : M (sector_counts * md_counts) :=
  view <- read_footer l sector ;;
  if ft_erased view then ret (count_erased_sector sc, mc)
  else if negb (valid_footer view) then ret (sc, mc)
  else if bool_decide (ft_tombstone_bits view = FFFS_BITMIRROR_CLEARED)
  then ret (count_tombstoned_sector sc, count_md_tombstoned mc)
  else
    let sc := count_owned_sector sc in
    if flag_at (cm_reachable marks) sector &&
       negb (flag_at (cm_span_heads marks) sector)
    then ret (sc, mc)
    else
      mc <- inspect_records_loop (sector_rounds l) l heads sector
              (il_sector_size l - FFFS_SECTOR_FOOTER_SIZE) 0 mc ;;
      ret (sc, mc).

Fixpoint inspect_data_loop (n : nat) (l : inspect_layout)
    (heads : gmap Z Z) (marks : chain_marks) (sector : Z)
    (sc : sector_counts) (mc : md_counts) : M (sector_counts * md_counts) :=
  match n with
  | O => ret (sc, mc)
  | S n' =>
      let* (sc, mc) := inspect_data_sector l heads marks sector sc mc in
      inspect_data_loop n' l heads marks (sector + 1) sc mc
  end.

Definition data_sector_rounds (l : inspect_layout) : nat :=
  Z.to_nat (il_sector_count l - il_index_sectors l).

Definition inspect_data_sectors (l : inspect_layout) (heads : gmap Z Z)
    (marks : chain_marks) : M (sector_counts * md_counts) :=
  inspect_data_loop (data_sector_rounds l) l heads marks (il_index_sectors l)
    sector_counts_zero md_counts_zero.

Definition fffs_inspect_check : M fffs_inspect_summary :=
  l <- discover ;;
  let* (heads, c) := inspect_index l in
  let* (marks, c) := mark_live_chains l heads c in
  let* (sc, mc) := inspect_data_sectors l heads marks in
  ret (mk_summary l c sc mc).

(** ** The live map *)

(** [n] pages from [p]; a page keeps the largest value it was marked with. *)
Fixpoint livemap_loop (n : nat) (p p1 page_count val : Z) (pages : list Z)
  : list Z :=
  match n with
  | O => pages
  | S n' =>
      if (p <=? p1) && (p <? page_count)
      then livemap_loop n' (p + 1) p1 page_count val
             (if byte_at pages p <? val
              then <[Z.to_nat p := val]> pages else pages)
      else pages
  end.

Definition livemap_mark (pages : list Z) (page_size base len val : Z)
  : list Z :=
  if len =? 0 then pages
  else
    livemap_loop (length pages) (base / page_size)
      ((base + len - 1) / page_size) (zlen pages) val pages.

Fixpoint livemap_index_loop (n : nat) (l : inspect_layout) (page_size s : Z)
    (pages : list Z) : list Z :=
  match n with
  | O => pages
  | S n' =>
      livemap_index_loop n' l page_size (s + 1)
        (livemap_mark pages page_size (s * il_sector_size l)
           (il_sector_size l) 1)
  end.

Fixpoint livemap_records_loop (n : nat) (l : inspect_layout)
    (heads : gmap Z Z) (page_size sector cursor claimed : Z) (pages : list Z)
  : M (list Z) :=
  if negb (FFFS_SECTOR_FOOTER_SIZE <? cursor) then ret pages
  else match n with
       | O => diverge
       | S n' =>
           let* (kind, decoded, start) := read_record_before l sector cursor in
           if bool_decide (kind = MD_ERASED) || bool_decide (kind = MD_CORRUPT)
           then ret pages
           else
             let base := sector * il_sector_size l in
             let pages := livemap_mark pages page_size (base + start)
                            (cursor - start) 1 in
             let claimed := data_end_max claimed decoded in
             val <- (if bool_decide (kind = MD_TOMBSTONED) ||
                        bool_decide (kind = MD_UNCOMMITTED)
                     then ret 2
                     else
                       live <- record_reachable_for_slot l heads
                                 (dm_slot decoded) sector ;;
                       ret (if live : bool then 3 else 2)) ;;
             let pages := livemap_mark pages page_size
                            (base + dm_data_off decoded) (dm_data_len decoded)
                            val in
             if start <=? claimed then ret pages
             else livemap_records_loop n' l heads page_size sector start
                    claimed pages
       end.

Definition livemap_sector (l : inspect_layout) (heads : gmap Z Z)
    (page_size sector : Z) (pages : list Z) : M (list Z) :=
  view <- read_footer l sector ;;
  if ft_erased view then ret pages
  else if negb (valid_footer view) then ret pages
  else if bool_decide (ft_tombstone_bits view = FFFS_BITMIRROR_CLEARED)
  then ret (livemap_mark pages page_size (sector * il_sector_size l)
              (il_sector_size l) 2)
  else
    livemap_records_loop (sector_rounds l) l heads page_size sector
      (il_sector_size l - FFFS_SECTOR_FOOTER_SIZE) 0
      (livemap_mark pages page_size
         (sector * il_sector_size l + il_sector_size l -
            FFFS_SECTOR_FOOTER_SIZE) FFFS_SECTOR_FOOTER_SIZE 1).

Fixpoint livemap_sectors_loop (n : nat) (l : inspect_layout)
    (heads : gmap Z Z) (page_size sector : Z) (pages : list Z) : M (list Z) :=
  match n with
  | O => ret pages
  | S n' =>
      pages <- livemap_sector l heads page_size sector pages ;;
      livemap_sectors_loop n' l heads page_size (sector + 1) pages
  end.

Definition fffs_inspect_live_map (page_count page_size : Z) : M (list Z) :=
  guard_err (page_size =? 0) FFFS_ERR_INVALID ;;
  l <- discover ;;
  let pages := fill page_count 0 in
  let* (heads, c) := inspect_index l in
  mark_live_chains l heads c ;;
  let pages := livemap_index_loop (Z.to_nat (il_index_sectors l)) l page_size
                 0 pages in
  livemap_sectors_loop (data_sector_rounds l) l heads page_size
    (il_index_sectors l) pages.

(** ** Fragmentation statistics *)

Inductive frag_pin_class : Type :=
  | FRAG_ROOT_ONLY
  | FRAG_CONTINUATION_ONLY
  | FRAG_MIXED
  | FRAG_NO_LIVE.

Definition frag_class_index (cls : frag_pin_class) : nat :=
  match cls with
  | FRAG_ROOT_ONLY => 0
  | FRAG_CONTINUATION_ONLY => 1
  | FRAG_MIXED => 2
  | FRAG_NO_LIVE => 3
  end.

Record frag_class_summary : Type := mk_class_summary {
  fc_sectors : Z;
  fc_reclaimable_bytes : Z;
  fc_live_bytes : Z;
  fc_immediate_free_bytes : Z;
}.

Definition class_summary_zero : frag_class_summary := mk_class_summary 0 0 0 0.

(** [struct fragstats_summary], with its array of classes. *)
Record fragstats_summary : Type := mk_fragstats {
  fs_data_sectors : Z;
  fs_erased_sectors : Z;
  fs_owned_sectors : Z;
  fs_tombstoned_sectors : Z;
  fs_corrupt_sectors : Z;
  fs_span_tail_sectors : Z;
  fs_full_hint_sectors : Z;
  fs_immediate_free_sectors : Z;
  fs_immediate_free_bytes : Z;
  fs_class_summary : list frag_class_summary;
}.

Definition fragstats_zero : fragstats_summary :=
  mk_fragstats 0 0 0 0 0 0 0 0 0 (replicate 4 class_summary_zero).

(** [mask[off .. off + len) = true], cut at the end of the mask. *)
Definition mark_range (mask : list bool) (off len : Z) : list bool :=
  let size := Z.of_nat (length mask) in
  if size <? off then mask
  else
    let len := if size - off <? len then size - off else len in
    take (Z.to_nat off) mask ++ replicate (Z.to_nat len) true ++
    drop (Z.to_nat off + Z.to_nat len) mask.

Definition count_marked (mask : list bool) : Z :=
  zlen (List.filter id mask).

(** The bytes that neither mask has. *)
Definition count_unmarked (live_mask free_mask : list bool) : Z :=
  zlen (List.filter negb (zip_with orb live_mask free_mask)).

Fixpoint range_erased_loop (n : nat) (off len : Z) : M bool :=
  if negb (0 <? len) then ret true
  else match n with
       | O => diverge
       | S n' =>
           let k := if len <? 64 then len else 64 in
           buf <- backend_read off k ;;
           if forallb (fun b => b =? 0xff) buf
           then range_erased_loop n' (off + k) (len - k)
           else ret false
       end.

Definition range_erased (off len : Z) : M bool :=
  range_erased_loop (Z.to_nat len) off len.

Definition pin_class_for_sector (has_root has_continuation : bool)
  : frag_pin_class :=
  if has_root && has_continuation then FRAG_MIXED
  else if has_continuation then FRAG_CONTINUATION_ONLY
  else if has_root then FRAG_ROOT_ONLY
  else FRAG_NO_LIVE.

Definition frag_class_name (cls : frag_pin_class) : string :=
  match cls with
  | FRAG_ROOT_ONLY => "root-only"%string
  | FRAG_CONTINUATION_ONLY => "continuation-only"%string
  | FRAG_MIXED => "mixed"%string
  | FRAG_NO_LIVE => "erase-only"%string
  end.

(** What the walk over a sector's records has found. *)
Record frag_walk : Type := mk_frag_walk {
  fw_claimed_data_end : Z;
  fw_metadata_start : Z;
  fw_has_root : bool;
  fw_has_continuation : bool;
  fw_parsed_live_record : bool;
  fw_corrupt : bool;
  fw_live_mask : list bool;
}.

Definition frag_live_record (start : Z) (d : decoded_md) (fw : frag_walk)
  : frag_walk :=
  let root := dm_type d =? FFFS_MD_TYPE_FILE_ROOT_V1 in
  mk_frag_walk (fw_claimed_data_end fw) (fw_metadata_start fw)
    (fw_has_root fw || root) (fw_has_continuation fw || negb root) true
    (fw_corrupt fw)
    (mark_range
       (mark_range (fw_live_mask fw) (dm_data_off d) (dm_data_len d)) start
       FFFS_MD_FILE_RECORD_SIZE).

Fixpoint frag_records_loop (n : nat) (l : inspect_layout)
    (heads : gmap Z Z) (sector cursor : Z) (fw : frag_walk) : M frag_walk :=
  if negb (FFFS_SECTOR_FOOTER_SIZE <? cursor) then ret fw
  else match n with
       | O => diverge
       | S n' =>
           let* (kind, decoded, start) := read_record_before l sector cursor in
           if bool_decide (kind = MD_ERASED) then ret fw
           else if bool_decide (kind = MD_CORRUPT)
           then ret (mk_frag_walk (fw_claimed_data_end fw)
                       (fw_metadata_start fw) (fw_has_root fw)
                       (fw_has_continuation fw) (fw_parsed_live_record fw)
                       true (fw_live_mask fw))
           else
             let fw := mk_frag_walk
                         (data_end_max (fw_claimed_data_end fw) decoded) start
                         (fw_has_root fw) (fw_has_continuation fw)
                         (fw_parsed_live_record fw) (fw_corrupt fw)
                         (fw_live_mask fw) in
             live <- (if bool_decide (kind = MD_VALID)
                      then record_reachable_for_slot l heads (dm_slot decoded)
                             sector
                      else ret false) ;;
             let fw := if live : bool then frag_live_record start decoded fw
                       else fw in
             if start <=? fw_claimed_data_end fw then ret fw
             else frag_records_loop n' l heads sector start fw
       end.

Definition add_class (cls : frag_pin_class)
    (reclaimable live_bytes free_bytes : Z) (cs : list frag_class_summary)
  : list frag_class_summary :=
  alter (fun c => mk_class_summary (fc_sectors c + 1)
                    (fc_reclaimable_bytes c + reclaimable)
                    (fc_live_bytes c + live_bytes)
                    (fc_immediate_free_bytes c + free_bytes))
    (frag_class_index cls) cs.

(** The counters of an owned sector. *)
Definition frag_count_owned (full_hint span_tail corrupt : bool)
    (immediate_free : Z) (classes : list frag_class_summary)
    (st : fragstats_summary) : fragstats_summary :=
  let inc (b : bool) (n : Z) := if b then n + 1 else n in
  mk_fragstats (fs_data_sectors st + 1) (fs_erased_sectors st)
    (fs_owned_sectors st + 1) (fs_tombstoned_sectors st)
    (inc corrupt (fs_corrupt_sectors st))
    (inc span_tail (fs_span_tail_sectors st))
    (inc full_hint (fs_full_hint_sectors st))
    (inc (negb (immediate_free =? 0)) (fs_immediate_free_sectors st))
    (fs_immediate_free_bytes st + immediate_free) classes.

(** The masks of an owned sector after the walk: the bytes that live records
    hold, and the erased bytes between the data and the records. *)
Definition frag_owned_sector (l : inspect_layout) (heads : gmap Z Z)
    (span_tail : bool) (sector : Z)
  : M (frag_walk * list bool * list bool * Z) :=
  let size := il_sector_size l in
  let top := size - FFFS_SECTOR_FOOTER_SIZE in
  let no := replicate (Z.to_nat size) false in
  fw <- frag_records_loop (sector_rounds l) l heads sector top
          (mk_frag_walk 0 top false false false false
             (mark_range no top FFFS_SECTOR_FOOTER_SIZE)) ;;
  let live_mask := if span_tail && negb (fw_parsed_live_record fw)
                   then mark_range (fw_live_mask fw) 0 top
                   else fw_live_mask fw in
  let gap := fw_metadata_start fw - fw_claimed_data_end fw in
  erased <- (if fw_claimed_data_end fw <? fw_metadata_start fw
             then range_erased (sector * size + fw_claimed_data_end fw) gap
             else ret false) ;;
  let free_mask := if erased : bool
                   then mark_range no (fw_claimed_data_end fw) gap else no in
  ret (fw, live_mask, free_mask, if erased : bool then gap else 0).

Definition inspect_fragstats_sector (l : inspect_layout) (heads : gmap Z Z)
    (marks : chain_marks) (sector : Z) (st : fragstats_summary)
  : M fragstats_summary :=
  view <- read_footer l sector ;;
  if ft_erased view
  then ret (mk_fragstats (fs_data_sectors st + 1) (fs_erased_sectors st + 1)
              (fs_owned_sectors st) (fs_tombstoned_sectors st)
              (fs_corrupt_sectors st) (fs_span_tail_sectors st)
              (fs_full_hint_sectors st) (fs_immediate_free_sectors st)
              (fs_immediate_free_bytes st) (fs_class_summary st))
  else if negb (valid_footer view)
  then ret (mk_fragstats (fs_data_sectors st + 1) (fs_erased_sectors st)
              (fs_owned_sectors st) (fs_tombstoned_sectors st)
              (fs_corrupt_sectors st + 1) (fs_span_tail_sectors st)
              (fs_full_hint_sectors st) (fs_immediate_free_sectors st)
              (fs_immediate_free_bytes st) (fs_class_summary st))
  else if bool_decide (ft_tombstone_bits view = FFFS_BITMIRROR_CLEARED)
  then ret (mk_fragstats (fs_data_sectors st + 1) (fs_erased_sectors st)
              (fs_owned_sectors st) (fs_tombstoned_sectors st + 1)
              (fs_corrupt_sectors st) (fs_span_tail_sectors st)
              (fs_full_hint_sectors st) (fs_immediate_free_sectors st)
              (fs_immediate_free_bytes st) (fs_class_summary st))
  else
    let span_tail := flag_at (cm_reachable marks) sector &&
                     negb (flag_at (cm_span_heads marks) sector) in
    let* (fw, live_mask, free_mask, immediate_free) :=
      frag_owned_sector l heads span_tail sector in
    let cls := pin_class_for_sector (fw_has_root fw)
                 (fw_has_continuation fw || span_tail) in
    ret (frag_count_owned
           (bool_decide (ft_full_bits view = FFFS_BITMIRROR_CLEARED)) span_tail
           (fw_corrupt fw) immediate_free
           (add_class cls (count_unmarked live_mask free_mask)
              (count_marked live_mask) (count_marked free_mask)
              (fs_class_summary st)) st).

Fixpoint fragstats_loop (n : nat) (l : inspect_layout) (heads : gmap Z Z)
    (marks : chain_marks) (sector : Z) (st : fragstats_summary)
  : M fragstats_summary :=
  match n with
  | O => ret st
  | S n' =>
      st <- inspect_fragstats_sector l heads marks sector st ;;
      fragstats_loop n' l heads marks (sector + 1) st
  end.

(** ** Reports

    What the two dumps print, one value per line with the printed fields; the
    formatting of [fprintf] is left out, and the lines of a dump that fails
    half-way are not returned. *)

Inductive report_line : Type :=
  | Report_fragstats (l : inspect_layout)
  | Report_sectors (st : fragstats_summary)
  | Report_immediate_free (sectors bytes : Z)
  | Report_class (name : string) (c : frag_class_summary)
  | Report_image (l : inspect_layout)
  | Report_summary (s : fffs_inspect_summary)
  | Report_index_sector (sector serial : Z) (active : bool)
  | Report_index_erased (sector : Z)
  | Report_index_invalid (sector : Z)
  | Report_index_record (slot head : Z) (deleted : bool)
  | Report_invalid_footer (sector : Z)
  | Report_span_tail (sector serial : Z)
  | Report_md (sector serial : Z) (md : string)
      (fields : option (Z * Z * list Z)).

Definition frag_classes : list frag_pin_class :=
  [FRAG_ROOT_ONLY; FRAG_CONTINUATION_ONLY; FRAG_MIXED; FRAG_NO_LIVE].

Definition fragstats_report (l : inspect_layout) (st : fragstats_summary)
  : list report_line :=
  [Report_fragstats l; Report_sectors st;
   Report_immediate_free (fs_immediate_free_sectors st)
     (fs_immediate_free_bytes st)] ++
  ((fun cls => Report_class (frag_class_name cls)
      (nth (frag_class_index cls) (fs_class_summary st) class_summary_zero))
     <$> frag_classes).

Definition fffs_inspect_fragstats_dump : M (list report_line) :=
  summary <- fffs_inspect_check ;;
  let l := sum_layout summary in
  heads <- replay_active_index l ;;
  let* (marks, _) := mark_live_chains l heads (sum_index summary) in
  st <- fragstats_loop (data_sector_rounds l) l heads marks
          (il_index_sectors l) fragstats_zero ;;
  ret (fragstats_report l st).

Definition md_state_name (kind : md_kind) (live : bool) : string :=
  match kind with
  | MD_ERASED => "orphaned-empty-md"%string
  | MD_VALID => if live then "live"%string else "obsolete-orphaned"%string
  | MD_TOMBSTONED => "tombstoned"%string
  | MD_CORRUPT => "corrupt"%string
  | MD_UNCOMMITTED => "uncommitted"%string
  end.

Fixpoint dump_headers_loop (n : nat) (l : inspect_layout) (sector : Z)
    (out : list report_line) : M (list report_line) :=
  match n with
  | O => ret out
  | S n' =>
      hdr <- backend_read (sector * il_sector_size l) FFFS_HEADER_SIZE ;;
      let line :=
        match fffs_valid_index_header hdr with
        | Some (_, _, serial) =>
            Report_index_sector sector serial
              (sector =? il_active_index_sector l)
        | None => if fffs_flash_bytes_erased hdr
                  then Report_index_erased sector
                  else Report_index_invalid sector
        end in
      dump_headers_loop n' l (sector + 1) (out ++ [line])
  end.

Definition dump_index_headers (l : inspect_layout) (out : list report_line)
  : M (list report_line) :=
  dump_headers_loop (Z.to_nat (il_index_sectors l)) l 0 out.

Fixpoint dump_active_loop (n : nat) (off stop : Z) (out : list report_line)
  : M (list report_line) :=
  if negb (off + 4 <=? stop) then ret out
  else match n with
       | O => diverge
       | S n' =>
           rec <- backend_read off 4 ;;
           let slot := fffs_load_le16 rec in
           let head := load16_at rec 2 in
           if (slot =? UINT16_MAX) && (head =? UINT16_MAX) then ret out
           else dump_active_loop n' (off + 4) stop
                  (out ++ [Report_index_record slot head (head =? 0)])
       end.

Definition dump_active_index (l : inspect_layout) (out : list report_line)
  : M (list report_line) :=
  dump_active_loop (sector_rounds l) (active_begin l) (active_end l) out.

(** The lines of a sector's records, and whether there was one. *)
Fixpoint dump_records_loop (n : nat) (l : inspect_layout)
    (heads : gmap Z Z) (sector serial cursor claimed : Z) (printed_any : bool)
    (out : list report_line) : M (bool * list report_line) :=
  if negb (FFFS_SECTOR_FOOTER_SIZE <? cursor) then ret (printed_any, out)
  else match n with
       | O => diverge
       | S n' =>
           let* (kind, decoded, start) := read_record_before l sector cursor in
           if bool_decide (kind = MD_ERASED) then ret (printed_any, out)
           else
             live <- (if bool_decide (kind = MD_VALID)
                      then record_reachable_for_slot l heads (dm_slot decoded)
                             sector
                      else ret false) ;;
             let fields := if bool_decide (kind = MD_CORRUPT) then None
                           else Some (dm_slot decoded, dm_size decoded,
                                      dm_name decoded) in
             let out := out ++ [Report_md sector serial
                                  (md_state_name kind live) fields] in
             if bool_decide (kind = MD_CORRUPT) then ret (true, out)
             else
               let claimed := data_end_max claimed decoded in
               if start <=? claimed then ret (true, out)
               else dump_records_loop n' l heads sector serial start claimed
                      true out
       end.

Definition dump_data_sector (l : inspect_layout) (heads : gmap Z Z)
    (marks : chain_marks) (sector : Z) (out : list report_line)
  : M (list report_line) :=
  view <- read_footer l sector ;;
  if ft_erased view then ret out
  else if negb (valid_footer view)
  then ret (out ++ [Report_invalid_footer sector])
  else if flag_at (cm_reachable marks) sector &&
          negb (flag_at (cm_span_heads marks) sector)
  then ret (out ++ [Report_span_tail sector (ft_serial view)])
  else
    let* (printed_any, out) :=
      dump_records_loop (sector_rounds l) l heads sector (ft_serial view)
        (il_sector_size l - FFFS_SECTOR_FOOTER_SIZE) 0 false out in
    ret (if printed_any : bool then out
         else out ++ [Report_md sector (ft_serial view)
                        (md_state_name MD_ERASED false) None]).

Fixpoint dump_data_sectors (n : nat) (l : inspect_layout)
    (heads : gmap Z Z) (marks : chain_marks) (sector : Z)
    (out : list report_line) : M (list report_line) :=
  match n with
  | O => ret out
  | S n' =>
      out <- dump_data_sector l heads marks sector out ;;
      dump_data_sectors n' l heads marks (sector + 1) out
  end.

(** The summary that is printed went through [mark_live_chains] twice: in the
    check, and here. *)
Definition fffs_inspect_dump : M (list report_line) :=
  summary <- fffs_inspect_check ;;
  let l := sum_layout summary in
  heads <- replay_active_index l ;;
  let* (marks, c) := mark_live_chains l heads (sum_index summary) in
  let summary := mk_summary l c (sum_sectors summary) (sum_md summary) in
  out <- dump_index_headers l [Report_image l; Report_summary summary] ;;
  out <- dump_active_index l out ;;
  dump_data_sectors (data_sector_rounds l) l heads marks (il_index_sectors l)
    out.
End Inspect.
