(* ===== verification/InspectSpec.v ===== *)
(** * What the image inspector computes

    The inspector only reads, so every entry point is a function of the bytes
    of the image: it ends, it gives the same answer on two devices with the
    same bytes, and it changes nothing.  Its decoding of metadata records and
    of the journal is compared with the file system's. *)

From S2P Require Export Inspect Journal MdSpec.

(** ** Functions of the image *)

Section Image.
Context `{Backend} `{!NorFlash}.

(** On every device whose memory is [m], the call gives [r] and leaves the
    device's memory, the file system and its handles alone. *)
Definition computes (m : Z -> Z) {A} (f : M A) (r : outcome A) : Prop :=
  r <> NoFuel /\
  forall w, flash_ok w -> (forall a, mem w a = m a) ->
    exists w', f w = (r, w') /\ flash_is m w w'.

(** The call is a function of the image, and its results satisfy [P]. *)
Definition image_fn {A} (P : A -> Prop) (f : M A) : Prop :=
  forall m, (forall a, is_u8 (m a)) ->
    exists r, computes m f r /\ forall a, r = Ok a -> P a.

Definition image {A} (f : M A) : Prop := image_fn (fun _ => True) f.

Lemma image_fn_ret {A} (P : A -> Prop) a : P a -> image_fn P (ret a).
Proof.
  intros HP m _. exists (Ok a). split; [| by intros ? [= <-]]. split; [done |].
  intros w Hok Hm. exists w. split; [done |]. by split.
Qed.

Lemma image_fn_fail {A} (P : A -> Prop) e : image_fn P (fail e).
Proof.
  intros m _. exists (Err e). split; [| done]. split; [done |].
  intros w Hok Hm. exists w. split; [done |]. by split.
Qed.

Lemma image_fn_bind {A B} (P : A -> Prop) (Q : B -> Prop) (f : M A) (k : A -> M B) :
  image_fn P f -> (forall a, P a -> image_fn Q (k a)) -> image_fn Q (bind f k).
Proof.
  intros Hf Hk m Hm. destruct (Hf m Hm) as (r & [Hr Hrun] & HP).
  destruct r as [a | e |]; [| | done].
  - destruct (Hk a (HP a eq_refl) m Hm) as (r' & [Hr' Hrun'] & HQ).
    exists r'. split; [| done]. split; [done |]. intros w Hok Hw.
    destruct (Hrun w Hok Hw) as (w1 & H1' & Hw1).
    destruct (Hrun' w1 (fi_ok _ _ _ Hw1) (fi_mem _ _ _ Hw1)) as (w2 & H2' & Hw2).
    exists w2. unfold bind. rewrite H1'. split; [done |]. by eapply flash_is_trans.
  - exists (Err e). split; [| done]. split; [done |]. intros w Hok Hw.
    destruct (Hrun w Hok Hw) as (w1 & H1' & Hw1). exists w1. unfold bind.
    by rewrite H1'.
Qed.

Lemma image_bind {A B} (Q : B -> Prop) (f : M A) (k : A -> M B) :
  image f -> (forall a, image_fn Q (k a)) -> image_fn Q (bind f k).
Proof. intros Hf Hk. eapply image_fn_bind; [exact Hf |]. intros a _. apply Hk. Qed.

Lemma image_fn_weaken {A} (P Q : A -> Prop) (f : M A) :
  (forall a, P a -> Q a) -> image_fn P f -> image_fn Q f.
Proof.
  intros Hpq Hf m Hm. destruct (Hf m Hm) as (r & Hr & HP). exists r.
  split; [done |]. intros a Ha. by apply Hpq, HP.
Qed.

Lemma image_fn_image {A} (P : A -> Prop) (f : M A) : image_fn P f -> image f.
Proof. by apply image_fn_weaken. Qed.

Lemma image_guard (P : unit -> Prop) c e :
  (c = false -> P tt) -> image_fn P (guard_err c e).
Proof.
  intros HP. unfold guard_err. destruct c; [apply image_fn_fail |].
  apply image_fn_ret. by apply HP.
Qed.

Lemma image_guard_then {A} (P : A -> Prop) c e (k : M A) :
  (c = false -> image_fn P k) -> image_fn P (guard_err c e ;; k).
Proof.
  intros Hk. unfold guard_err. destruct c.
  - intros m Hm. destruct (image_fn_fail P e m Hm) as (r & Hr & HP).
    exists (Err e). split; [| done]. split; [done |]. intros w Hok Hw.
    exists w. split; [done |]. by split.
  - intros m Hm. destruct (Hk eq_refl m Hm) as (r & Hr & HP). by exists r.
Qed.

Lemma image_if {A} (P : A -> Prop) (c : bool) (f1 f2 : M A) :
  (c = true -> image_fn P f1) -> (c = false -> image_fn P f2) ->
  image_fn P (if c then f1 else f2).
Proof. destruct c; auto. Qed.

(** A read inside the device gives the bytes there. *)
Lemma image_flash_read off n : 0 <= off -> 0 <= n -> off + n <= be_size ->
  image_fn (fun buf => zlen buf = n /\ is_bytes buf) (fffs_flash_read off n).
Proof.
  intros Ho Hn Hl m Hm. exists (Ok (mem_bytes m off n)). split.
  - split; [done |]. intros w Hok Hw.
    assert (Hwp : wp (fffs_flash_read off n) (fun buf w' =>
      buf = mem_bytes m off n /\ flash_is m w w') (fun _ _ => False) w).
    { apply wp_flash_read; [done.. |]. intros w' Hw'. split.
      - apply mem_bytes_ext. intros. apply Hw.
      - by eapply flash_is_ext. }
    apply wp_returns in Hwp as (buf & w' & Hrun & -> & Hw'). by exists w'.
  - intros ? [= <-]. split; [by apply zlen_mem_bytes | by apply is_bytes_mem_bytes].
Qed.

(** The inspector's reads check their range. *)
Lemma image_backend_read off n : 0 <= off -> 0 <= n ->
  image_fn (fun buf => zlen buf = n /\ is_bytes buf) (backend_read off n).
Proof.
  intros Ho Hn. unfold backend_read. apply image_guard_then. intros Hc.
  apply orb_false_iff in Hc as [Hc1%Z.ltb_ge Hc2%Z.ltb_ge].
  apply image_flash_read; lia.
Qed.
End Image.

(** One step of an [image_fn] goal. *)
Ltac image_step :=
  match goal with
  | |- image_fn _ (ret _) => apply image_fn_ret; try done
  | |- image_fn _ (fail _) => apply image_fn_fail
  | |- image_fn _ (guard_err _ _ ;; _) => apply image_guard_then; intros ?
  | |- image_fn _ (if _ then _ else _) => apply image_if; intros ?
  | |- image _ => unfold image
  end.

(** ** Every entry point is a function of the image *)

(** What the inspector needs of a layout. *)
Record layout_ok (l : inspect_layout) : Prop := {
  lo_size : 256 <= il_sector_size l;
  lo_index : 0 <= il_index_sectors l;
  lo_active : 0 <= il_active_index_sector l;
}.

Lemma load16_nonneg p off : 0 <= load16_at p off.
Proof. apply Z.mod_pos_bound. lia. Qed.

Lemma byte_at_nonneg l i : is_bytes l -> 0 <= byte_at l i <= 255.
Proof.
  intros Hl. unfold byte_at.
  destruct (Nat.lt_ge_cases (Z.to_nat i) (length l)) as [Hlt | Hge].
  - destruct (nth_lookup_or_length l (Z.to_nat i) 0) as [Hi | Hi]; [| lia].
    unfold is_bytes in Hl. rewrite Forall_lookup in Hl. specialize (Hl _ _ Hi).
    unfold is_u8 in Hl. lia.
  - rewrite nth_overflow by lia. lia.
Qed.

Lemma decode_md_off md limit d :
  snd (decode_md md limit) = Some d -> 0 <= dm_data_off d.
Proof.
  unfold decode_md.
  repeat match goal with |- context [if ?c then _ else _] => destruct c end;
    intros [= <-]; apply load16_nonneg.
Qed.

Section InspectImage.
Context `{Backend} `{!NorFlash} (l : inspect_layout) (Hl : layout_ok l).

Lemma image_root_name sector d kind :
  0 <= sector -> 0 <= dm_data_off d ->
  image (read_root_name_for_decoded l sector d kind).
Proof using Hl.
  intros Hs Hd. destruct Hl. unfold read_root_name_for_decoded.
  repeat image_step. cbv zeta.
  eapply image_fn_bind; [apply image_backend_read; nia |].
  intros len [_ Hlen]. pose proof (byte_at_nonneg len 0 Hlen).
  repeat image_step.
  apply image_bind; [| intros; by repeat image_step].
  eapply image_fn_image, image_backend_read; nia.
Qed.

(** A record that is neither erased nor corrupt starts sixteen bytes below. *)
Definition record_below (cursor : Z) (r : md_kind * decoded_md * Z) : Prop :=
  let '(kind, _, start) := r in
  kind = MD_ERASED \/ kind = MD_CORRUPT \/ start = cursor - 16.

Lemma image_record_before sector cursor :
  0 <= sector -> image_fn (record_below cursor) (read_record_before l sector cursor).
Proof using Hl.
  intros Hs. destruct Hl as [Hsz _ _]. unfold read_record_before. image_step.
  { apply image_fn_ret. right. by left. }
  match goal with Hc : (_ <? _) = false |- _ => apply Z.ltb_ge in Hc end.
  apply image_bind; [eapply image_fn_image, image_backend_read; nia |].
  intros type. image_step; [apply image_fn_ret; by left |].
  apply image_bind; [eapply image_fn_image, image_backend_read; nia |].
  intros md. destruct (decode_md md _) as [kind out] eqn:Hdec.
  eapply image_bind.
  - apply image_root_name; [done |].
    destruct out as [d |]; [| done].
    apply (decode_md_off md (cursor - 16)). by rewrite Hdec.
  - intros [kind' d]. apply image_fn_ret. right. by right.
Qed.

Lemma image_read_footer sector : 0 <= sector -> image (read_footer l sector).
Proof using Hl.
  intros Hs. destruct Hl. unfold read_footer.
  apply image_bind; [eapply image_fn_image, image_backend_read; nia |].
  intros. by repeat image_step.
Qed.

Lemma image_read_decoded_loop n : forall sector slot cursor claimed d kind,
  0 <= sector -> cursor <= Z.of_nat n ->
  image (read_decoded_loop n l sector slot cursor claimed d kind).
Proof using Hl.
  induction n as [| n IH]; intros sector slot cursor claimed d kind Hs Hn;
    cbn [read_decoded_loop]; destruct (Z.ltb_spec 10 cursor); cbn [negb];
    try by (repeat image_step).
  { lia. }
  eapply image_fn_bind; [by apply image_record_before |].
  intros [[kind' d'] start] Hstart. cbn [record_below] in Hstart.
  destruct (bool_decide_reflect (kind' = MD_ERASED)); [by repeat image_step |].
  destruct (bool_decide_reflect (kind' = MD_CORRUPT)); [by repeat image_step |].
  destruct Hstart as [| [| ->]]; [done | done |]. cbn [orb].
  repeat image_step. apply IH; lia.
Qed.

Lemma image_read_decoded sector slot :
  0 <= sector -> image (read_decoded_md l sector slot).
Proof using Hl.
  intros Hs. pose proof (lo_size _ Hl). unfold read_decoded_md.
  apply image_bind; [by apply image_read_footer |]. intros view.
  repeat image_step. apply image_read_decoded_loop; [done |].
  unfold sector_rounds. lia.
Qed.

Lemma image_reachable_loop n slot sector : forall current,
  image (reachable_for_slot_loop n l slot sector current).
Proof using Hl.
  pose proof (lo_index _ Hl).
  induction n as [| n IH]; intros current; cbn [reachable_for_slot_loop];
    [by repeat image_step |].
  repeat image_step.
  match goal with Hc : head_out_of_range _ _ = false |- _ =>
    apply orb_false_iff in Hc as [Hc%Z.ltb_ge _] end.
  apply image_bind; [apply image_read_decoded; lia |].
  intros [d kind]. repeat image_step. apply IH.
Qed.

Lemma image_reachable heads slot sector :
  image (record_reachable_for_slot l heads slot sector).
Proof using Hl. apply image_reachable_loop. Qed.

Lemma image_mark_chain_loop n slot head : forall current marks,
  image (mark_chain_loop n l slot head current marks).
Proof using Hl.
  pose proof (lo_index _ Hl).
  induction n as [| n IH]; intros current marks; cbn [mark_chain_loop];
    [by repeat image_step |].
  repeat image_step.
  match goal with Hc : head_out_of_range _ _ = false |- _ =>
    apply orb_false_iff in Hc as [Hc%Z.ltb_ge _] end.
  apply image_bind; [apply image_read_decoded; lia |].
  intros [d kind]. image_step; [by repeat image_step |]. cbv zeta.
  destruct (mark_span _ _ _ _) as [corrupt reachable].
  repeat image_step. apply IH.
Qed.

Lemma image_mark_chains heads c : image (mark_live_chains l heads c).
Proof using Hl.
  unfold mark_live_chains. generalize (marks_init l) as marks, 0 as slot. revert c.
  induction (Z.to_nat FFFS_SLOT_COUNT) as [| n IH]; intros c marks slot;
    cbn [mark_chains_loop]; [by repeat image_step |]. cbv zeta.
  repeat image_step; [apply IH |].
  apply image_bind; [apply image_mark_chain_loop |]. intros [corrupt marks']. apply IH.
Qed.

(** A read whose result does not matter for the range of the next one. *)
Lemma image_read_then {A} (P : A -> Prop) off n (k : list Z -> M A) :
  0 <= off -> 0 <= n -> (forall buf, is_bytes buf -> image_fn P (k buf)) ->
  image_fn P (buf <- backend_read off n ;; k buf).
Proof.
  intros Ho Hn Hk. eapply image_fn_bind; [by apply image_backend_read |].
  intros buf [_ Hb]. by apply Hk.
Qed.

Lemma active_begin_nonneg : 0 <= active_begin l.
Proof using Hl. destruct Hl. unfold active_begin. nia. Qed.

Lemma active_rounds : active_end l - active_begin l <= Z.of_nat (sector_rounds l).
Proof using Hl. destruct Hl. unfold active_end, active_begin, sector_rounds. lia. Qed.

Lemma image_replay_active_loop n stop : forall off heads,
  0 <= off -> stop - off <= Z.of_nat n -> image (replay_active_loop n l off stop heads).
Proof.
  induction n as [| n IH]; intros off heads Ho Hn; cbn [replay_active_loop];
    destruct (Z.leb_spec (off + 4) stop); cbn [negb]; try by (repeat image_step).
  { lia. }
  apply image_read_then; [lia.. |]. intros rec _. cbv zeta.
  repeat image_step; apply IH; lia.
Qed.

Lemma image_replay_active : image (replay_active_index l).
Proof using Hl.
  apply image_replay_active_loop; [apply active_begin_nonneg | apply active_rounds].
Qed.

Lemma image_index_loop n stop : forall off heads c,
  0 <= off -> stop - off <= Z.of_nat n -> image (inspect_index_loop n l off stop heads c).
Proof.
  induction n as [| n IH]; intros off heads c Ho Hn; cbn [inspect_index_loop];
    destruct (Z.leb_spec (off + 4) stop); cbn [negb]; try by (repeat image_step).
  { lia. }
  apply image_read_then; [lia.. |]. intros rec _. cbv zeta.
  repeat image_step; apply IH; lia.
Qed.

Lemma image_inspect_index : image (inspect_index l).
Proof using Hl.
  unfold inspect_index. apply image_bind.
  - apply image_index_loop; [apply active_begin_nonneg | apply active_rounds].
  - intros [heads c]. by repeat image_step.
Qed.

Lemma image_records_loop n heads sector : 0 <= sector -> forall cursor claimed c,
  cursor <= Z.of_nat n -> image (inspect_records_loop n l heads sector cursor claimed c).
Proof using Hl.
  intros Hs. induction n as [| n IH]; intros cursor claimed c Hn;
    cbn [inspect_records_loop]; destruct (Z.ltb_spec 10 cursor); cbn [negb];
    try by (repeat image_step).
  { lia. }
  eapply image_fn_bind; [by apply image_record_before |].
  intros [[kind d] start] Hstart. cbn [record_below] in Hstart.
  destruct (bool_decide_reflect (kind = MD_ERASED)); [by repeat image_step |].
  destruct (bool_decide_reflect (kind = MD_CORRUPT)); [by repeat image_step |].
  destruct Hstart as [| [| ->]]; [done | done |]. cbv zeta.
  apply image_bind.
  { repeat image_step. apply image_bind; [apply image_reachable |].
    intros. by repeat image_step. }
  intros c'. repeat image_step. apply IH. lia.
Qed.

Lemma image_data_sector heads marks sector sc mc :
  0 <= sector -> image (inspect_data_sector l heads marks sector sc mc).
Proof using Hl.
  intros Hs. pose proof (lo_size _ Hl). unfold inspect_data_sector.
  apply image_bind; [by apply image_read_footer |]. intros view. cbv zeta.
  repeat image_step.
  apply image_bind; [| intros; by repeat image_step].
  apply image_records_loop; [done |]. unfold sector_rounds. lia.
Qed.

Lemma image_data_sectors heads marks : image (inspect_data_sectors l heads marks).
Proof using Hl.
  assert (Hgen : forall n sector sc mc, 0 <= sector ->
    image (inspect_data_loop n l heads marks sector sc mc)).
  { induction n as [| n IH]; intros sector sc mc Hs;
      cbn [inspect_data_loop]; [by repeat image_step |].
    apply image_bind; [by apply image_data_sector |].
    intros [sc' mc']. apply IH. lia. }
  apply Hgen, Hl.
Qed.

Lemma image_livemap_records n heads page_size sector : 0 <= sector ->
  forall cursor claimed pages, cursor <= Z.of_nat n ->
  image (livemap_records_loop n l heads page_size sector cursor claimed pages).
Proof using Hl.
  intros Hs. induction n as [| n IH]; intros cursor claimed pages Hn;
    cbn [livemap_records_loop]; destruct (Z.ltb_spec 10 cursor); cbn [negb];
    try by (repeat image_step).
  { lia. }
  eapply image_fn_bind; [by apply image_record_before |].
  intros [[kind d] start] Hstart. cbn [record_below] in Hstart.
  destruct (bool_decide_reflect (kind = MD_ERASED)); [by repeat image_step |].
  destruct (bool_decide_reflect (kind = MD_CORRUPT)); [by repeat image_step |].
  destruct Hstart as [| [| ->]]; [done | done |]. cbv zeta. cbn [orb].
  apply image_bind.
  { repeat image_step. apply image_bind; [apply image_reachable |].
    intros. by repeat image_step. }
  intros val. repeat image_step. apply IH. lia.
Qed.

Lemma image_livemap_sector heads page_size sector pages :
  0 <= sector -> image (livemap_sector l heads page_size sector pages).
Proof using Hl.
  intros Hs. pose proof (lo_size _ Hl). unfold livemap_sector.
  apply image_bind; [by apply image_read_footer |]. intros view. cbv zeta.
  repeat image_step. apply image_livemap_records; [done |]. unfold sector_rounds. lia.
Qed.

Lemma image_livemap_sectors heads page_size n : forall sector pages,
  0 <= sector -> image (livemap_sectors_loop n l heads page_size sector pages).
Proof using Hl.
  induction n as [| n IH]; intros sector pages Hs; cbn [livemap_sectors_loop];
    [by repeat image_step |].
  apply image_bind; [by apply image_livemap_sector |]. intros. apply IH. lia.
Qed.

Lemma image_range_erased n : forall off len,
  0 <= off -> len <= Z.of_nat n -> image (range_erased_loop n off len).
Proof.
  induction n as [| n IH]; intros off len Ho Hn; cbn [range_erased_loop];
    destruct (Z.ltb_spec 0 len); cbn [negb]; try by (repeat image_step).
  { lia. }
  cbv zeta. assert (0 < (if len <? 64 then len else 64) <= len)
    by (destruct (Z.ltb_spec len 64); lia).
  apply image_read_then; [lia.. |]. intros buf _. repeat image_step. apply IH; lia.
Qed.

Lemma data_end_max_le claimed d : claimed <= data_end_max claimed d.
Proof.
  unfold data_end_max. destruct (Z.ltb_spec claimed (dm_data_off d + dm_data_len d)); lia.
Qed.

Definition frag_walk_ok (fw : frag_walk) : Prop := 0 <= fw_claimed_data_end fw.

Lemma image_frag_records n heads sector : 0 <= sector -> forall cursor fw,
  cursor <= Z.of_nat n -> frag_walk_ok fw ->
  image_fn frag_walk_ok (frag_records_loop n l heads sector cursor fw).
Proof using Hl.
  intros Hs. unfold frag_walk_ok. induction n as [| n IH]; intros cursor fw Hn Hfw;
    cbn [frag_records_loop]; destruct (Z.ltb_spec 10 cursor); cbn [negb];
    try by (repeat image_step).
  { lia. }
  eapply image_fn_bind; [by apply image_record_before |].
  intros [[kind d] start] Hstart. cbn [record_below] in Hstart.
  destruct (bool_decide_reflect (kind = MD_ERASED)); [by repeat image_step |].
  destruct (bool_decide_reflect (kind = MD_CORRUPT)); [by repeat image_step |].
  destruct Hstart as [| [| ->]]; [done | done |]. cbv zeta.
  pose proof (data_end_max_le (fw_claimed_data_end fw) d) as Hle.
  apply image_bind.
  { repeat image_step. apply image_reachable. }
  intros live.
  set (fw' := if live then frag_live_record _ _ _ else _).
  assert (Hfw' : 0 <= fw_claimed_data_end fw')
    by (unfold fw'; destruct live; cbn [frag_live_record fw_claimed_data_end]; lia).
  repeat image_step. apply IH; [lia | done].
Qed.

Lemma image_frag_owned heads tail sector :
  0 <= sector -> image (frag_owned_sector l heads tail sector).
Proof using Hl.
  intros Hs. pose proof (lo_size _ Hl). unfold frag_owned_sector. cbv zeta.
  eapply image_fn_bind.
  { apply image_frag_records; [done | unfold sector_rounds; lia |].
    unfold frag_walk_ok. done. }
  intros fw Hfw. unfold frag_walk_ok in Hfw. apply image_bind.
  - repeat image_step. apply image_range_erased; [nia |].
    unfold range_erased. lia.
  - intros. by repeat image_step.
Qed.

Lemma image_fragstats heads marks n : forall sector st,
  0 <= sector -> image (fragstats_loop n l heads marks sector st).
Proof using Hl.
  induction n as [| n IH]; intros sector st Hs; cbn [fragstats_loop];
    [by repeat image_step |].
  apply image_bind; [| intros; apply IH; lia].
  unfold inspect_fragstats_sector.
  apply image_bind; [by apply image_read_footer |]. intros view.
  repeat image_step. cbv zeta. apply image_bind; [by apply image_frag_owned |].
  intros [[[fw live] free] imm]. by repeat image_step.
Qed.

Lemma image_dump_headers n : forall sector out,
  0 <= sector -> image (dump_headers_loop n l sector out).
Proof using Hl.
  pose proof (lo_size _ Hl).
  induction n as [| n IH]; intros sector out Hs; cbn [dump_headers_loop];
    [by repeat image_step |].
  apply image_read_then; [nia | lia |]. intros hdr _. apply IH. lia.
Qed.

Lemma image_dump_active n stop : forall off out,
  0 <= off -> stop - off <= Z.of_nat n -> image (dump_active_loop n off stop out).
Proof.
  induction n as [| n IH]; intros off out Ho Hn; cbn [dump_active_loop];
    destruct (Z.leb_spec (off + 4) stop); cbn [negb]; try by (repeat image_step).
  { lia. }
  apply image_read_then; [lia.. |]. intros rec _. cbv zeta.
  repeat image_step; apply IH; lia.
Qed.

Lemma image_dump_records n heads sector serial : 0 <= sector ->
  forall cursor claimed printed out, cursor <= Z.of_nat n ->
  image (dump_records_loop n l heads sector serial cursor claimed printed out).
Proof using Hl.
  intros Hs. induction n as [| n IH]; intros cursor claimed printed out Hn;
    cbn [dump_records_loop]; destruct (Z.ltb_spec 10 cursor); cbn [negb];
    try by (repeat image_step).
  { lia. }
  eapply image_fn_bind; [by apply image_record_before |].
  intros [[kind d] start] Hstart. cbn [record_below] in Hstart.
  destruct (bool_decide_reflect (kind = MD_ERASED)); [by repeat image_step |].
  apply image_bind.
  { repeat image_step. apply image_reachable. }
  intros live. cbv zeta.
  destruct (bool_decide_reflect (kind = MD_CORRUPT)); [by repeat image_step |].
  destruct Hstart as [| [| ->]]; [done | done |].
  repeat image_step. apply IH. lia.
Qed.

Lemma image_dump_data heads marks n : forall sector out,
  0 <= sector -> image (dump_data_sectors n l heads marks sector out).
Proof using Hl.
  pose proof (lo_size _ Hl).
  induction n as [| n IH]; intros sector out Hs; cbn [dump_data_sectors];
    [by repeat image_step |].
  apply image_bind; [| intros; apply IH; lia].
  unfold dump_data_sector. apply image_bind; [by apply image_read_footer |].
  intros view. repeat image_step. apply image_bind.
  - apply image_dump_records; [done |]. unfold sector_rounds. lia.
  - intros [printed out']. by repeat image_step.
Qed.
End InspectImage.

Section Discover.
Context `{Backend} `{!NorFlash}.

Lemma valid_header_range hdr count shift serial :
  fffs_valid_index_header hdr = Some (count, shift, serial) ->
  2 <= count <= 15 /\ 0 <= shift <= 15.
Proof.
  unfold fffs_valid_index_header.
  destruct (_ || _); [done |]. destruct (_ || _); [done |].
  destruct (Z.ltb_spec (Z.shiftr (byte_at hdr 5) 4) 2),
    (Z.ltb_spec 15 (Z.shiftr (byte_at hdr 5) 4)); try done.
  destruct (Z.ltb_spec (byte_at hdr 6) FFFS_MIN_SECTOR_SHIFT),
    (Z.ltb_spec FFFS_MAX_SECTOR_SHIFT (byte_at hdr 6)); try done.
  intros [= <- <- _]. lia.
Qed.

Lemma sector_size_pos shift : 0 <= shift -> 256 <= Z.shiftl 256 shift.
Proof. intros Hs. rewrite Z.shiftl_mul_pow2 by done. pose proof (Z.pow_pos_nonneg 2 shift). lia. Qed.

(** The selection never leaves the headers that were scanned. *)
Definition scan_ok (s : header_scan) : Prop := 0 <= hs_best_active s.

Lemma consider_ok off count shift serial s s' :
  0 <= off -> 0 <= shift -> scan_ok s ->
  consider_index_header off count shift serial s = Some s' -> scan_ok s'.
Proof.
  intros Ho Hsh Hs. unfold consider_index_header, scan_ok in *.
  pose proof (sector_size_pos shift Hsh).
  destruct (negb _); [done |]. destruct (count <=? _); [done |].
  destruct (_ || _); intros [= <-]; [| done]. cbn [hs_best_active].
  apply Z.div_pos; lia.
Qed.

Lemma image_scan_headers n : forall i count shift off hdr s,
  0 <= i -> 0 <= shift -> (i + Z.of_nat n) * Z.shiftl 256 shift <= be_size ->
  scan_ok s -> image_fn scan_ok (scan_headers n i count shift off hdr s).
Proof.
  induction n as [| n IH]; intros i count shift off hdr s Hi Hsh Hn Hs;
    cbn [scan_headers]; [by apply image_fn_ret |]. cbv zeta.
  pose proof (sector_size_pos shift Hsh).
  apply image_bind.
  { repeat image_step. eapply image_fn_image, image_flash_read; nia. }
  intros hdr'. destruct (fffs_valid_index_header hdr') as [[[c sh] serial] |] eqn:Hv.
  2: { apply IH; done || nia. }
  apply valid_header_range in Hv as [_ Hshr]. image_step.
  { by apply image_fn_ret. }
  destruct (consider_index_header _ _ _ _ _) as [s' |] eqn:Hc;
    [| by apply image_fn_ret].
  apply IH; [lia | done | nia |]. eapply consider_ok; [| | | exact Hc]; nia || done.
Qed.

Definition sequence_fine (s : fffs_index_sequence) : Prop :=
  0 <= seq_active_sector s /\ 2 <= seq_index_sectors s <= 15 /\
  0 <= seq_sector_shift s <= 15.

Lemma image_try_header shift sector :
  0 <= shift -> 0 <= sector ->
  image_fn (fun r => forall s, r = Some s -> sequence_fine s) (try_header shift sector).
Proof.
  intros Hsh Hsec. pose proof (sector_size_pos shift Hsh). unfold try_header. cbv zeta.
  image_step; [by apply image_fn_ret |].
  match goal with Hc : (_ <? _) = false |- _ => apply Z.ltb_ge in Hc end.
  apply image_bind; [eapply image_fn_image, image_flash_read; nia |].
  intros hdr. destruct (fffs_valid_index_header hdr) as [[[c sh] serial] |] eqn:Hv;
    [| by apply image_fn_ret].
  apply valid_header_range in Hv as [Hc Hshr].
  do 3 (image_step; [by apply image_fn_ret |]).
  repeat match goal with
  | Hx : (_ <? _) = false |- _ => apply Z.ltb_ge in Hx
  end.
  eapply image_fn_bind.
  { apply image_scan_headers; [done | lia | | done].
    assert (Hsq : sh = shift) by (apply Z.eqb_eq, negb_false_iff; done). subst sh.
    rewrite Z2Nat.id by lia.
    pose proof (Z.mul_div_le be_size (Z.shiftl 256 shift)). nia. }
  intros s Hs. image_step; [by apply image_fn_ret |].
  destruct (find_oldest_index_sector _ _ _ _ _) as [oldest n].
  apply image_fn_ret. intros ? [= <-]. by split.
Qed.

Lemma probe_shift_range probe shift :
  0 <= probe -> discovery_probe_shift probe = Some shift -> 0 <= shift.
Proof.
  intros Hp. unfold discovery_probe_shift. destruct (probe =? 0); [by intros [= <-] |].
  destruct (probe <=? _); [intros [= <-]; apply Z.mod_pos_bound; lia |].
  cbv zeta. destruct (_ <? _); [done |]. intros [= <-]. apply Z.mod_pos_bound. lia.
Qed.

Lemma image_find_loop n : forall probe,
  (1 <= n)%nat -> 0 <= probe -> Z.of_nat n + probe = 17 ->
  image_fn sequence_fine (find_sequence_loop n probe).
Proof.
  induction n as [| n IH]; intros probe Hn1 Hp Hn; [lia |]. cbn [find_sequence_loop].
  destruct (discovery_probe_shift probe) as [shift |] eqn:Hsh; [| apply image_fn_fail].
  assert (Hn' : (1 <= n)%nat).
  { destruct n; [| lia]. replace probe with 16 in Hsh by lia. by vm_compute in Hsh. }
  apply probe_shift_range in Hsh; [| done].
  assert (Hnext : image_fn sequence_fine (find_sequence_loop n (probe + 1)))
    by (apply IH; lia).
  image_step; [done |].
  eapply image_fn_bind; [apply image_try_header; lia |].
  intros [s |] Hs; [apply image_fn_ret; by apply Hs |].
  eapply image_fn_bind; [apply image_try_header; lia |].
  intros [s |] Hs'; [apply image_fn_ret; by apply Hs' | done].
Qed.

Lemma image_discover : image_fn layout_ok discover.
Proof.
  unfold discover. image_step. eapply image_fn_bind.
  { apply (image_find_loop 17); lia. }
  intros s (Ha & Hi & Hsh). cbv zeta. image_step. apply image_fn_ret.
  split; cbn [il_sector_size il_index_sectors il_active_index_sector]; [| lia..].
  apply sector_size_pos. lia.
Qed.

Lemma image_check :
  image_fn (fun s => layout_ok (sum_layout s)) fffs_inspect_check.
Proof.
  unfold fffs_inspect_check. eapply image_fn_bind; [apply image_discover |].
  intros l Hl. apply image_bind; [by apply image_inspect_index |].
  intros [heads c]. apply image_bind; [by apply image_mark_chains |].
  intros [marks c']. apply image_bind; [by apply image_data_sectors |].
  intros [sc mc]. by apply image_fn_ret.
Qed.

Lemma image_live_map page_count page_size :
  image (fffs_inspect_live_map page_count page_size).
Proof.
  unfold fffs_inspect_live_map. image_step. image_step.
  eapply image_fn_bind; [apply image_discover |].
  intros l Hl. cbv zeta. apply image_bind; [by apply image_inspect_index |].
  intros [heads c]. apply image_bind; [by apply image_mark_chains |].
  intros _. apply image_livemap_sectors; [done | apply Hl].
Qed.

Lemma image_fragstats_dump : image fffs_inspect_fragstats_dump.
Proof.
  unfold fffs_inspect_fragstats_dump. eapply image_fn_bind; [apply image_check |].
  intros s Hl. cbv zeta. apply image_bind; [by apply image_replay_active |].
  intros heads. apply image_bind; [by apply image_mark_chains |].
  intros [marks c]. apply image_bind; [apply image_fragstats; [done | apply Hl] |].
  intros. by apply image_fn_ret.
Qed.

Lemma image_dump : image fffs_inspect_dump.
Proof.
  unfold fffs_inspect_dump. eapply image_fn_bind; [apply image_check |].
  intros s Hl. cbv zeta. apply image_bind; [by apply image_replay_active |].
  intros heads. apply image_bind; [by apply image_mark_chains |].
  intros [marks c]. apply image_bind; [by apply image_dump_headers |].
  intros out. apply image_bind.
  { apply image_dump_active; [by apply active_begin_nonneg | by apply active_rounds]. }
  intros out'. apply image_dump_data; [done | apply Hl].
Qed.

(** A function of the image, on two devices with the same bytes. *)
Definition same_on_images {A} (f : M A) : Prop :=
  forall w1 w2, flash_ok w1 -> flash_ok w2 -> (forall a, mem w1 a = mem w2 a) ->
    fst (f w1) <> NoFuel /\ fst (f w1) = fst (f w2) /\
    flash_is (mem w1) w1 (snd (f w1)).

Lemma image_same {A} (f : M A) : image f -> same_on_images f.
Proof.
  intros Hf w1 w2 Hok1 Hok2 Heq.
  destruct (Hf (mem w1) (fun a => mem_u8 w1 a Hok1)) as (r & [Hr Hrun] & _).
  destruct (Hrun w1 Hok1 (fun a => eq_refl)) as (w1' & -> & Hw1).
  destruct (Hrun w2 Hok2 (fun a => eq_sym (Heq a))) as (w2' & -> & _).
  done.
Qed.
End Discover.

(** The inspector is a read-only function of the image.  On any device
    whatever its bytes, each of the four entry points (the consistency check,
    the live map, the fragmentation statistics and the dump) ends, answers
    the same (a report or an error) on any two devices with the same bytes,
    whichever file system is mounted on them, and changes neither the flash
    nor the mounted file system nor its handles. *)
Theorem inspect_is_image_function `{Backend} `{!NorFlash} (page_count page_size : Z) :
  same_on_images fffs_inspect_check /\
  same_on_images (fffs_inspect_live_map page_count page_size) /\
  same_on_images fffs_inspect_fragstats_dump /\
  same_on_images fffs_inspect_dump.
Proof.
  split; [eapply image_same, image_fn_image, image_check |].
  split; [apply image_same, image_live_map |].
  split; [apply image_same, image_fragstats_dump | apply image_same, image_dump].
Qed.
