(* ===== verification/InspectAgree.v ===== *)
(** * The inspector and the file system agree

    The inspector decodes sectors with code of its own.  A record that the
    file system walks is the record that the inspector decodes; the record
    that a lookup finds is the one the inspector finds; and a sector that the
    garbage collector keeps for a slot is one that the inspector calls live. *)

From S2P Require Export InspectSpec GcSpec.

Section Agree.
Context `{Backend} `{!NorFlash} `{!ValidBackend} (g : fs_geometry) `{!GeoOk g}.
#[local] Abbreviation base s := (s * sector_size g).

(** The inspector's layout of a file system with the geometry [g]. *)
Definition layout_of (l : inspect_layout) : Prop :=
  il_sector_size l = sector_size g /\ il_sector_count l = sector_count g /\
  il_index_sectors l = index_sectors g.

(** The kind of a record that the file system walks. *)
Definition kind_of (r : fffs_md_record) : md_kind :=
  if md_state r =? 0xff then MD_UNCOMMITTED
  else if md_live r then MD_VALID else MD_TOMBSTONED.

Definition is_root (r : fffs_md_record) : bool :=
  md_type r =? FFFS_MD_TYPE_FILE_ROOT_V1.

(** The fields of the record, before its name is read. *)
Definition fields_of (r : fffs_md_record) : decoded_md :=
  mk_decoded (md_type r) (md_state r) (md_slot r) (md_data_off r)
    (md_data_len r) (md_next r) (md_span_len r)
    (if is_root r then md_size_or_offset r else 0) [].

Lemma valid_pair_255 : fffs_lifecycle_valid_pair 255 = FFFS_BITMIRROR_SET.
Proof. done. Qed.

Lemma tombstone_pair_255 : fffs_lifecycle_tombstone_pair 255 = FFFS_BITMIRROR_SET.
Proof. done. Qed.

Lemma decode_agrees m sector cursor r :
  parse_at g m sector cursor = PRecord r ->
  decode_md (mem_bytes m (base sector + (cursor - 16)) 16) (cursor - 16) =
    (kind_of r, Some (fields_of r)).
Proof.
  unfold parse_at. cbv zeta.
  set (type := m (base sector + (cursor - 1))).
  destruct (Z.eqb_spec type 255) as [| Hty]; [done |].
  destruct (Z.ltb_spec cursor (10 + 16)); [done |].
  destruct (_ && _) eqn:Htype; [done |].
  set (buf := mem_bytes m (base sector + (cursor - 16)) 16).
  assert (H15 : byte_at buf 15 = type).
  { unfold buf, type. rewrite byte_at_mem_bytes by lia. f_equal. lia. }
  assert (Her : fffs_flash_bytes_erased buf = false).
  { apply record_not_erased. intros Heq. apply Hty. unfold type. rewrite <- Heq.
    f_equal. lia. }
  destruct (md_fields_valid _ _ _ _) eqn:Hv; [| done]. intros [= <-].
  unfold decode_md. rewrite Her, H15, Htype. cbv zeta. clearbody buf type.
  unfold md_fields_valid, kind_of, fields_of, is_root, decode_md_fields,
    state_is_live in *.
  cbn [md_state md_live md_type md_slot md_next md_span_len md_data_off md_data_len
    md_size_or_offset] in *.
  destruct (Z.eqb_spec (byte_at buf 0) 255) as [Hs | Hs].
  - rewrite Hs, valid_pair_255, tombstone_pair_255 in *. cbn in Hv |- *.
    destruct (cursor - 16 <? _); [done |]. cbn. done.
  - destruct (fffs_lifecycle_valid_pair (byte_at buf 0)),
      (fffs_lifecycle_tombstone_pair (byte_at buf 0)); cbn in Hv |- *; try done;
      (destruct (cursor - 16 <? _); [done |]; cbn in Hv |- *;
       destruct (load16_at buf 5 =? 0); [done |]; done).
Qed.

(** ** Reading a sector *)

(** The name of a live root, as the inspector checks it. *)
Definition root_named (m : Z -> Z) (sector : Z) (r : fffs_md_record) : bool :=
  let name_len := m (base sector + md_data_off r) in
  negb (md_live r) || negb (is_root r) ||
  (negb (name_len =? 0) && (name_len <=? FFFS_MAX_NAME) &&
   (1 + name_len + 1 <=? md_data_len r)).

Definition decoded_of (m : Z -> Z) (sector : Z) (r : fffs_md_record) : decoded_md :=
  if md_live r && is_root r
  then set_dm_name (mem_bytes m (base sector + md_data_off r + 1)
                      (m (base sector + md_data_off r))) (fields_of r)
  else fields_of r.

Lemma wp_inspector_read off n w (Q : list Z -> world -> Prop) E :
  flash_ok w -> 0 <= off -> 0 <= n -> off + n <= be_size ->
  (forall w', flash_is (mem w) w w' -> Q (mem_bytes (mem w) off n) w') ->
  wp (backend_read off n) Q E w.
Proof.
  intros Hok Ho Hn Hl HQ. unfold backend_read.
  apply wp_bind, wp_guard; [rewrite orb_true_iff, !Z.ltb_lt; lia | intros _].
  by apply wp_flash_read.
Qed.

Lemma live_kind r : md_live r = true -> kind_of r = MD_VALID \/ kind_of r = MD_UNCOMMITTED.
Proof. unfold kind_of. intros ->. destruct (_ =? _); auto. Qed.

(** A live record is not an uncommitted one. *)
Lemma parse_live_kind m sector cursor r :
  parse_at g m sector cursor = PRecord r ->
  kind_of r = MD_VALID <-> md_live r = true.
Proof.
  intros Hp. unfold kind_of. destruct (Z.eqb_spec (md_state r) 255) as [Hs | Hs].
  - split; [done |]. intros Hlive. exfalso.
    unfold parse_at in Hp. cbv zeta in Hp. destruct (_ =? 255); [done |].
    destruct (cursor <? _); [done |]. destruct (_ && _); [done |].
    destruct (md_fields_valid _ _ _ _); [| done]. injection Hp as <-.
    cbn [md_state md_live decode_md_fields] in *. by rewrite Hs in Hlive.
  - destruct (md_live r); done.
Qed.

Lemma wp_record_before l sector cursor r w (Q : md_kind * decoded_md * Z -> world -> Prop) E :
  layout_of l -> flash_ok w -> 0 <= sector < sector_count g ->
  cursor <= sector_size g - 10 ->
  parse_at g (mem w) sector cursor = PRecord r -> root_named (mem w) sector r = true ->
  (forall w', flash_is (mem w) w w' ->
     Q (kind_of r, decoded_of (mem w) sector r, cursor - 16) w') ->
  wp (read_record_before l sector cursor) Q E w.
Proof.
  intros (Hsz & _ & _) Hok Hs Hcur Hp Hname HQ.
  destruct (parse_record_inv _ _ _ _ _ Hp) as (Hge & Hst & _ & _).
  destruct (parse_record_fits _ _ _ _ _ Hcur Hp) as (Ho & Hlen & Hend & _).
  pose proof (parse_live_kind _ _ _ _ Hp) as Hkind.
  pose proof (sector_size_range (g := g)).
  destruct (sector_in_device sector 0 (sector_size g)) as [Hd1 Hd2]; [lia.. |].
  unfold read_record_before. destruct (Z.ltb_spec cursor 16); [lia |]. rewrite Hsz.
  apply wp_bind, wp_inspector_read; [done | lia.. |]. intros w1 Hw1.
  rewrite byte_at_mem_bytes, Z.add_0_r by lia.
  replace (base sector + cursor - 1) with (base sector + (cursor - 1)) by lia.
  destruct (Z.eqb_spec (mem w (base sector + (cursor - 1))) 255) as [Hty |].
  { exfalso. unfold parse_at in Hp. cbv zeta in Hp. by rewrite Hty in Hp. }
  apply wp_bind, wp_inspector_read; [apply Hw1 | lia.. |]. intros w2 Hw2.
  assert (Hm1 : forall a, mem w1 a = mem w a) by apply Hw1.
  rewrite (mem_bytes_ext (mem w1) (mem w)) by (intros; apply Hm1).
  rewrite (decode_agrees _ _ _ _ Hp).
  change (default decoded_zero (Some (fields_of r))) with (fields_of r).
  assert (Hw02 : flash_is (mem w) w w2).
  { eapply flash_is_ext; [by eapply flash_is_trans | done]. }
  apply wp_bind. unfold read_root_name_for_decoded.
  change (dm_type (fields_of r)) with (md_type r). fold (is_root r).
  change (dm_data_off (fields_of r)) with (md_data_off r).
  change (dm_data_len (fields_of r)) with (md_data_len r).
  unfold root_named, decoded_of in *.
  destruct (bool_decide_reflect (kind_of r = MD_VALID)) as [Hk | Hk].
  2: { apply wp_ret, wp_ret. cbn [negb orb].
       assert (Hnl : md_live r = false)
         by (destruct (md_live r); [by destruct Hk; apply Hkind | done]).
       rewrite Hnl in HQ. by apply HQ. }
  apply Hkind in Hk as Hlive. rewrite Hlive in *. cbn [negb orb andb] in *.
  destruct (is_root r); cbn [negb orb] in *; [| by apply wp_ret, wp_ret, HQ].
  rewrite !andb_true_iff, negb_true_iff, !Z.leb_le, Z.eqb_neq in Hname.
  destruct Hname as [[Hn0 Hnmax] Hnlen].
  pose proof (mem_u8 w (base sector + md_data_off r) Hok) as Hu8. unfold is_u8 in Hu8.
  unfold data_end in Hend. rewrite Hsz.
  apply wp_bind, wp_inspector_read; [apply Hw2 | lia.. |]. intros w3 Hw3.
  assert (Hm2 : forall a, mem w2 a = mem w a) by apply Hw02.
  rewrite byte_at_mem_bytes, Z.add_0_r, Hm2 by lia.
  set (len := mem w (base sector + md_data_off r)) in *.
  destruct (Z.eqb_spec len 0), (Z.ltb_spec 32 len),
    (Z.ltb_spec (md_data_len r) (1 + len + 1)); try lia; cbn [orb].
  apply wp_bind, wp_inspector_read; [apply Hw3 | lia.. |]. intros w4 Hw4.
  assert (Hm3 : forall a, mem w3 a = mem w a)
    by (intros a; by rewrite (fi_mem _ _ _ Hw3)).
  rewrite (mem_bytes_ext (mem w3) (mem w)) by (intros; apply Hm3).
  apply wp_ret, wp_ret, HQ.
  eapply flash_is_ext; [| exact Hm3]. eapply flash_is_trans; [| exact Hw4].
  eapply flash_is_trans; [exact Hw02 | exact Hw3].
Qed.
(** ** The record of a slot *)

(** Every live root of the sector has a readable name. *)
Definition names_readable (m : Z -> Z) (sector : Z) : Prop :=
  Forall (fun r => root_named m sector r = true) (fst (sector_records g m sector)).

Lemma root_named_ext m m' sector r :
  (forall a, m a = m' a) -> root_named m' sector r = root_named m sector r.
Proof. intros Heq. unfold root_named. by rewrite Heq. Qed.

Lemma decoded_of_ext m m' sector r :
  (forall a, m a = m' a) -> decoded_of m' sector r = decoded_of m sector r.
Proof.
  intros Heq. unfold decoded_of. rewrite <- Heq.
  by rewrite (mem_bytes_ext m m') by (intros; apply Heq).
Qed.

Lemma data_end_max_record claimed m sector r :
  data_end_max claimed (decoded_of m sector r) = Z.max claimed (data_end r).
Proof.
  assert (Hd : dm_data_off (decoded_of m sector r) + dm_data_len (decoded_of m sector r)
    = data_end r) by (unfold decoded_of; destruct (_ && _); done).
  unfold data_end_max. rewrite Hd. destruct (Z.ltb_spec claimed (data_end r)); lia.
Qed.

Lemma decoded_slot m sector r : dm_slot (decoded_of m sector r) = md_slot r.
Proof. unfold decoded_of. by destruct (_ && _). Qed.

Lemma decoded_span m sector r : dm_span_len (decoded_of m sector r) = md_span_len r.
Proof. unfold decoded_of. by destruct (_ && _). Qed.

Lemma decoded_next m sector r : dm_next (decoded_of m sector r) = md_next r.
Proof. unfold decoded_of. by destruct (_ && _). Qed.

Lemma kind_of_walked r : kind_of r <> MD_ERASED /\ kind_of r <> MD_CORRUPT.
Proof. unfold kind_of. destruct (_ =? _), (md_live r); done. Qed.

Lemma wp_read_decoded_loop l sector slot found n :
  forall cursor claimed d k w (Q : decoded_md * md_kind -> world -> Prop) E,
  layout_of l -> flash_ok w -> 0 <= sector < sector_count g ->
  cursor <= sector_size g - 10 ->
  let '(records, e) := walk_from n g (mem w) sector cursor claimed in
  Forall (fun r => root_named (mem w) sector r = true) records ->
  List.find (fun r => md_record_matches_slot r slot FFFS_MD_MATCH_LIVE) records =
    Some found ->
  (forall w', flash_is (mem w) w w' ->
     Q (decoded_of (mem w) sector found, MD_VALID) w') ->
  wp (read_decoded_loop n l sector slot cursor claimed d k) Q E w.
Proof.
  induction n as [| n IH]; intros cursor claimed d k w Q E Hlay Hok Hs Hcur;
    cbn [walk_from read_decoded_loop]; destruct (Z.leb_spec cursor 10); try done.
  destruct (parse_at g (mem w) sector cursor) as [| | | r] eqn:Hp; try done. cbv zeta.
  set (claimed' := Z.max claimed (data_end r)).
  set (rest := if cursor - 16 <=? claimed' then ([r], WEnd_full) else _).
  destruct rest as [records e] eqn:Hrest. intros Hnames Hfind HQ.
  assert (Hhd : exists tl, records = r :: tl).
  { unfold rest in Hrest. destruct (cursor - 16 <=? claimed');
      [injection Hrest as <- _; by eexists |].
    destruct (walk_from _ _ _ _ _ _); injection Hrest as <- _; by eexists. }
  destruct Hhd as [tl ->]. apply Forall_cons in Hnames as [Hname Hnames].
  destruct (Z.ltb_spec 10 cursor); [| lia]. cbn [negb].
  apply wp_bind, (wp_record_before l sector cursor r); try done.
  intros w1 Hw1. destruct (kind_of_walked r) as [Hk1 Hk2].
  rewrite (bool_decide_false (kind_of r = MD_ERASED)) by done.
  rewrite (bool_decide_false (kind_of r = MD_CORRUPT)) by done.
  cbn [orb]. cbv zeta. rewrite data_end_max_record, decoded_slot. fold claimed'.
  pose proof (parse_live_kind _ _ _ _ Hp) as Hkind.
  assert (Hmatch : bool_decide (kind_of r = MD_TOMBSTONED) ||
      bool_decide (kind_of r = MD_UNCOMMITTED) || negb (md_slot r =? slot) =
    negb (md_record_matches_slot r slot FFFS_MD_MATCH_LIVE)).
  { unfold md_record_matches_slot. destruct (md_slot r =? slot); cbn [negb];
      [| by rewrite orb_true_r].
    destruct (md_live r) eqn:Hlive.
    - by rewrite (proj2 Hkind eq_refl).
    - destruct (kind_of r); try done. by discriminate (proj1 Hkind eq_refl). }
  rewrite Hmatch. cbn [List.find] in Hfind.
  destruct (md_record_matches_slot r slot FFFS_MD_MATCH_LIVE) eqn:Hm; cbn [negb].
  { injection Hfind as ->. rewrite (proj2 Hkind).
    - by apply wp_ret, HQ.
    - unfold md_record_matches_slot in Hm. by destruct (negb _). }
  unfold rest in Hrest. destruct (cursor - 16 <=? claimed').
  { injection Hrest as <- _. done. }
  specialize (IH (cursor - 16) claimed' (decoded_of (mem w) sector r) (kind_of r) w1 Q E
    Hlay (fi_ok _ _ _ Hw1) Hs ltac:(lia)).
  rewrite (walk_from_ext g n (mem w1) (mem w)) in IH by apply Hw1.
  destruct (walk_from n g (mem w) sector (cursor - 16) claimed') as [tl' e'].
  injection Hrest as -> _. apply IH; [| done |].
  - eapply Forall_impl; [exact Hnames |]. intros x Hx.
    rewrite (root_named_ext (mem w)); [done |]. intros a. symmetry. apply Hw1.
  - intros w2 Hw2. rewrite (decoded_of_ext (mem w)) by (intros; symmetry; apply Hw1).
    apply HQ. eapply flash_is_ext; [by eapply flash_is_trans | apply Hw1].
Qed.

(** The footer as the inspector reads it. *)
Lemma wp_inspector_footer l sector w (Q : fffs_sector_footer -> world -> Prop) E :
  layout_of l -> flash_ok w -> 0 <= sector < sector_count g ->
  (forall w', flash_is (mem w) w w' -> Q (footer_at g (mem w) sector) w') ->
  wp (read_footer l sector) Q E w.
Proof.
  intros (Hsz & _ & _) Hok Hs HQ. pose proof (sector_size_range (g := g)).
  destruct (sector_in_device sector 0 (sector_size g)) as [Hd1 Hd2]; [lia.. |].
  unfold read_footer. rewrite Hsz.
  apply wp_bind, wp_inspector_read; [done | lia.. |]. intros w1 Hw1. by apply wp_ret, HQ.
Qed.

Lemma footer_live_valid f : footer_live f = true -> valid_footer f = true.
Proof.
  unfold footer_live, valid_footer. rewrite !andb_true_iff.
  intros [[[_ Ht] Hm] Hlive]. rewrite Ht, Hm, Hlive. done.
Qed.

(** What the inspector reads for a slot whose record the file system finds. *)
Lemma wp_read_decoded l sector slot r w (Q : decoded_md * md_kind -> world -> Prop) E :
  layout_of l -> flash_ok w -> names_readable (mem w) sector ->
  slot_md g (mem w) sector slot FFFS_MD_MATCH_LIVE = inr r ->
  (forall w', flash_is (mem w) w w' -> Q (decoded_of (mem w) sector r, MD_VALID) w') ->
  wp (read_decoded_md l sector slot) Q E w.
Proof.
  intros Hlay Hok Hnames Hmd HQ. pose proof (sector_size_range (g := g)).
  pose proof (geo_index (g := g)). pose proof (geo_count (g := g)).
  unfold slot_md, valid_data_sector in Hmd. destruct (_ && _) eqn:Hr; [| done].
  apply andb_true_iff in Hr as [Hr1%Z.leb_le Hr2%Z.ltb_lt].
  unfold lookup_md in Hmd. destruct (negb (footer_live _)) eqn:Hf; [done |].
  apply negb_false_iff in Hf. unfold read_decoded_md.
  apply wp_bind, wp_inspector_footer; [done | done | lia |]. intros w1 Hw1.
  rewrite (footer_live_valid _ Hf). cbn [negb].
  pose proof Hlay as (Hsz & _ & _). unfold sector_rounds. rewrite Hsz.
  fold (walk_bound g).
  pose proof (wp_read_decoded_loop l sector slot r (walk_bound g) (sector_size g - 10) 0
    decoded_zero MD_CORRUPT w1 Q E Hlay (fi_ok _ _ _ Hw1) ltac:(lia) ltac:(lia)) as Hwp.
  rewrite (walk_from_ext g _ (mem w1) (mem w)) in Hwp by apply Hw1.
  unfold names_readable, sector_records in *. unfold pick_record in Hmd.
  destruct (walk_from _ g (mem w) sector _ 0) as [records e]. cbn [fst snd] in *.
  destruct (List.find _ records) as [r' |] eqn:Hfind; [| done]. injection Hmd as ->.
  apply Hwp; [| done |].
  - eapply Forall_impl; [exact Hnames |]. intros x Hx.
    rewrite (root_named_ext (mem w)); [done |]. intros a. symmetry. apply Hw1.
  - intros w2 Hw2. rewrite (decoded_of_ext (mem w)) by (intros; symmetry; apply Hw1).
    apply HQ. eapply flash_is_ext; [by eapply flash_is_trans | apply Hw1].
Qed.

(** ** Chains *)

(** The chain of [slot] from [current] runs through [sector]: as the collector
    decides it, and as the inspector does. *)
Lemma wp_inspector_reachable l slot sector b n : forall current w
    (Q : bool -> world -> Prop) E,
  layout_of l -> flash_ok w ->
  (forall s, index_sectors g <= s < sector_count g -> names_readable (mem w) s) ->
  reach g n (mem w) slot current sector = inr b ->
  (forall w', flash_is (mem w) w w' -> Q b w') ->
  wp (reachable_for_slot_loop n l slot sector current) Q E w.
Proof.
  induction n as [| n IH]; intros current w Q E Hlay Hok Hnames Hreach HQ;
    cbn [reach reachable_for_slot_loop] in *.
  { destruct (current =? 0); [| done]. injection Hreach as <-. by apply wp_ret, HQ. }
  destruct (current =? 0); [injection Hreach as <-; by apply wp_ret, HQ |].
  destruct (slot_md g (mem w) current slot FFFS_MD_MATCH_LIVE) as [e | r] eqn:Hmd;
    [done |].
  assert (Hrange : index_sectors g <= current < sector_count g).
  { unfold slot_md, valid_data_sector in Hmd. destruct (_ && _) eqn:Hr; [| done].
    by apply andb_true_iff in Hr as [?%Z.leb_le ?%Z.ltb_lt]. }
  assert (Hslot : md_slot r = slot).
  { unfold slot_md in Hmd. destruct (valid_data_sector _ _); [| done].
    unfold lookup_md in Hmd. destruct (negb _); [done |]. unfold pick_record in Hmd.
    destruct (List.find _ _) as [r' |] eqn:Hfind; [| done]. injection Hmd as ->.
    apply find_some in Hfind as [_ Hm]. unfold md_record_matches_slot in Hm.
    destruct (Z.eqb_spec (md_slot r) slot); done. }
  pose proof Hlay as (_ & Hcnt & Hidx).
  assert (Hout : head_out_of_range l current = false).
  { unfold head_out_of_range. rewrite Hcnt, Hidx.
    destruct (Z.ltb_spec current (index_sectors g)),
      (Z.leb_spec (sector_count g) current); done || lia. }
  rewrite Hout. apply wp_bind, (wp_read_decoded l current slot r);
    [done | done | by apply Hnames | done |].
  intros w1 Hw1. rewrite bool_decide_true by done. rewrite decoded_slot, Hslot, Z.eqb_refl.
  cbn [negb orb]. cbv zeta in Hreach.
  rewrite decoded_span, decoded_next.
  destruct (sector_count g <? current + md_span_len r); [done |].
  destruct (_ && _); [injection Hreach as <-; by apply wp_ret, HQ |].
  apply IH; [done | apply Hw1 | | |].
  - intros s Hs. unfold names_readable.
    rewrite (sector_records_in g (mem w1) (mem w)) by (intros; apply Hw1).
    eapply Forall_impl; [by apply Hnames |]. intros x Hx.
    rewrite (root_named_ext (mem w)); [done |]. intros a. symmetry. apply Hw1.
  - rewrite <- Hreach. apply reach_ext. apply Hw1.
  - intros w2 Hw2. apply HQ. eapply flash_is_ext; [by eapply flash_is_trans | apply Hw1].
Qed.
(** ** The active index sector *)

(** What a record does to the inspector's heads and counters. *)
Definition inspect_record (l : inspect_layout) (st : gmap Z Z * index_counts)
    (r : Z * Z) : gmap Z Z * index_counts :=
  let '(heads, c) := st in
  let '(slot, head) := r in
  if (slot =? 0) && (head =? 0) then st
  else if head =? 0 then (<[slot := 0]> heads, count_delete (count_record c))
  else if head_out_of_range l head
  then (heads, count_corrupt_record (count_record c))
  else (<[slot := head]> heads, count_record c).

Lemma wp_index_loop l s k n : forall fuel off heads c w
    (Q : gmap Z Z * index_counts -> world -> Prop) E,
  layout_of l -> flash_ok w -> 0 <= s < sector_count g ->
  base s + 8 <= off -> off + 4 * Z.of_nat n = base (s + 1) -> (n <= fuel)%nat ->
  k = base (s + 1) ->
  (forall w', flash_is (mem w) w w' ->
     Q (foldl (inspect_record l) (heads, c) (records_from n (mem w) off)) w') ->
  wp (inspect_index_loop fuel l off k heads c) Q E w.
Proof.
  pose proof (sector_size_range (g := g)).
  induction n as [| n IH];
    intros fuel off heads c w Q E Hlay Hok Hs Hlo Hend Hfuel -> HQ.
  { destruct fuel; cbn [inspect_index_loop];
      (destruct (Z.leb_spec (off + 4) (base (s + 1))); [lia |]);
      apply wp_ret, HQ; by split. }
  destruct fuel as [| fuel]; [lia |]. cbn [inspect_index_loop].
  destruct (Z.leb_spec (off + 4) (base (s + 1))); [| lia]. cbn [negb].
  destruct (sector_in_device s 0 (sector_size g)) as [Hd1 Hd2]; [lia.. |].
  apply wp_bind, wp_inspector_read; [done | lia.. |]. intros w1 Hw1. cbv zeta.
  assert (Hslot : fffs_load_le16 (mem_bytes (mem w) off 4) = fst (record_at (mem w) off)).
  { unfold fffs_load_le16. cbn [fst record_at]. unfold fffs_load_le16.
    by rewrite !byte_at_mem_bytes by lia. }
  assert (Hhead : load16_at (mem_bytes (mem w) off 4) 2 = snd (record_at (mem w) off)).
  { unfold load16_at. by rewrite sublist_mem_bytes by lia. }
  rewrite Hslot, Hhead. cbn [records_from] in HQ. unfold record_erased in HQ.
  destruct (record_at (mem w) off) as [slot head]. cbn [fst snd] in *.
  destruct (_ && _); [by apply wp_ret, HQ |].
  assert (Hnext : forall st, st = inspect_record l (heads, c) (slot, head) ->
    wp (inspect_index_loop fuel l (off + 4) (base (s + 1)) (fst st) (snd st)) Q E w1).
  { intros st ->. apply (IH fuel (off + 4)); try done; try lia; [apply Hw1 |].
    intros w2 Hw2. rewrite (records_from_ext n (mem w1) (mem w)) by apply Hw1.
    rewrite <- surjective_pairing. apply HQ.
    eapply flash_is_ext; [by eapply flash_is_trans | apply Hw1]. }
  unfold inspect_record in Hnext.
  destruct ((slot =? 0) && (head =? 0)); [exact (Hnext _ eq_refl) |].
  destruct (head =? 0); [exact (Hnext _ eq_refl) |].
  destruct (head_out_of_range l head); exact (Hnext _ eq_refl).
Qed.

(** Records whose heads are data sectors, deletions, and clobbered ones. *)
Definition heads_proper (records : list (Z * Z)) : Prop :=
  Forall (fun r => snd r = 0 \/ index_sectors g <= snd r < sector_count g) records.

Lemma inspect_record_map l heads c r idx :
  layout_of l -> snd r = 0 \/ index_sectors g <= snd r < sector_count g ->
  (forall slot, head_at heads slot = default 0 (idx !! slot)) ->
  forall slot, head_at (fst (inspect_record l (heads, c) r)) slot =
    default 0 (apply_record idx r !! slot).
Proof.
  intros (_ & Hcnt & Hidx) Hr Heq slot. destruct r as [s head].
  unfold inspect_record, apply_record. destruct (_ && _); [apply Heq |].
  destruct (Z.eqb_spec head 0) as [-> | Hne]; cbn [fst snd] in *.
  - unfold head_at. destruct (decide (s = slot)) as [-> | Hs].
    + by rewrite lookup_insert_eq, lookup_delete_eq.
    + rewrite lookup_insert_ne, lookup_delete_ne by done. apply Heq.
  - assert (Hout : head_out_of_range l head = false).
    { unfold head_out_of_range. rewrite Hcnt, Hidx.
      destruct (Z.ltb_spec head (index_sectors g)),
        (Z.leb_spec (sector_count g) head); done || lia. }
    rewrite Hout. cbn [fst]. unfold head_at. destruct (decide (s = slot)) as [-> | Hs].
    + by rewrite !lookup_insert_eq.
    + rewrite !lookup_insert_ne by done. apply Heq.
Qed.

Lemma inspect_records_map l records : layout_of l -> heads_proper records ->
  forall heads c idx,
  (forall slot, head_at heads slot = default 0 (idx !! slot)) ->
  forall slot, head_at (fst (foldl (inspect_record l) (heads, c) records)) slot =
    default 0 (replay_map idx records !! slot).
Proof.
  intros Hlay. induction 1 as [| r records Hr Hrs IH]; intros heads c idx Heq slot;
    [apply Heq |].
  cbn [foldl]. change (replay_map idx (r :: records)) with
    (replay_map (apply_record idx r) records).
  pose proof (inspect_record_map l heads c r idx Hlay Hr Heq) as Hstep.
  destruct (inspect_record l (heads, c) r) as [heads' c']. by apply IH.
Qed.

Lemma wp_inspect_index l w (Q : gmap Z Z * index_counts -> world -> Prop) E :
  layout_of l -> flash_ok w -> 0 <= il_active_index_sector l < index_sectors g ->
  (let '(heads, c) := foldl (inspect_record l) (∅, index_counts_zero)
     (sector_journal g (mem w) (il_active_index_sector l)) in
   forall w', flash_is (mem w) w w' ->
     Q (heads, count_live_entries
          (live_entries_from (Z.to_nat FFFS_SLOT_COUNT) 0 heads) c) w') ->
  wp (inspect_index l) Q E w.
Proof.
  intros Hlay Hok Ha HQ. pose proof (geo_count (g := g)).
  destruct (sector_size_div4 g) as (k & Hk & Hsz & Hk62).
  pose proof Hlay as (Hs & _ & _).
  unfold inspect_index, active_begin, active_end, sector_rounds. rewrite Hs.
  set (s := il_active_index_sector l) in *.
  apply wp_bind. apply (wp_index_loop l s _ (Z.to_nat k)); try done; try lia.
  change (sector_journal g (mem w) s) with
    (records_from (Z.to_nat ((sector_size g - 8) / 4)) (mem w) (base s + 8)) in HQ.
  rewrite Hk in HQ. intros w1 Hw1.
  destruct (foldl _ _ _) as [heads c]. by apply wp_ret, HQ.
Qed.

(** How the counters grow. *)
Lemma inspect_counts l records : forall heads c,
  let c' := snd (foldl (inspect_record l) (heads, c) records) in
  ic_records c' = ic_records c +
    zlen (List.filter (fun r => negb ((fst r =? 0) && (snd r =? 0))) records) /\
  ic_live_entries c' = ic_live_entries c /\
  ic_live_entries_corrupt c' = ic_live_entries_corrupt c /\
  (layout_of l -> heads_proper records -> ic_corrupt_records c' = ic_corrupt_records c).
Proof.
  induction records as [| [slot head] records IH]; intros heads c; cbn [foldl].
  { cbn. rewrite Z.add_0_r. done. }
  set (st := inspect_record l (heads, c) (slot, head)).
  destruct (IH (fst st) (snd st)) as (H1' & H2' & H3' & H4').
  rewrite <- surjective_pairing in H1', H2', H3', H4'. cbv zeta.
  rewrite H1', H2', H3'. unfold st in *. clear st IH H1' H2' H3'.
  unfold inspect_record in *. cbn [List.filter fst snd] in *.
  destruct ((slot =? 0) && (head =? 0)); cbn [negb] in *;
    [| destruct (Z.eqb_spec head 0); [| destruct (head_out_of_range l head) eqn:Ho]];
    cbn [snd count_record count_delete count_corrupt_record ic_records ic_live_entries
      ic_live_entries_corrupt ic_corrupt_records] in *; rewrite ?zlen_cons;
    (repeat split; try lia); intros Hlay Hp; apply Forall_cons in Hp as [Hr Hp];
    try (by apply H4').
  exfalso. cbn [snd] in Hr. destruct Hlay as (_ & Hcnt & Hidx).
  unfold head_out_of_range in Ho. rewrite Hcnt, Hidx in Ho.
  apply orb_true_iff in Ho as [?%Z.ltb_lt | ?%Z.leb_le]; lia.
Qed.
End Agree.

(** The inspector decodes what the file system reads.  Whenever
    [fffs_read_md_for_slot] finds a record in a data sector whose live roots
    have readable names, the inspector's lookup of the same slot in the same
    sector finds a committed record with exactly that record's type, extent,
    chain pointer, span and size, and the name bytes of a root. *)
Theorem inspector_decodes_lookup `{Backend} `{!NorFlash} `{!ValidBackend}
    (g : fs_geometry) `{!GeoOk g} (l : inspect_layout) (sector slot : Z)
    (r : fffs_md_record) (w w1 : world) :
  fs_geo (w_fs w) = g -> flash_ok w -> layout_of g l ->
  names_readable g (mem w) sector ->
  fffs_read_md_for_slot sector slot w = (Ok r, w1) ->
  exists w2, read_decoded_md l sector slot w =
      (Ok (decoded_of g (mem w) sector r, MD_VALID), w2) /\
    flash_is (mem w) w w2.
Proof.
  intros Hgeo Hok Hlay Hnames Hrun.
  assert (Hmd : slot_md g (mem w) sector slot FFFS_MD_MATCH_LIVE = inr r).
  { assert (Hwp : wp (fffs_read_md_for_slot sector slot)
      (fun r' _ => slot_md g (mem w) sector slot FFFS_MD_MATCH_LIVE = inr r')
      (fun _ _ => True) w).
    { apply (wp_read_md g); [done | done |]. intros w' Hw'.
      fold (slot_md g (mem w) sector slot FFFS_MD_MATCH_LIVE).
      by destruct (slot_md _ _ _ _ _). }
    unfold wp in Hwp. by rewrite Hrun in Hwp. }
  assert (Hwp : wp (read_decoded_md l sector slot)
    (fun a w2 => a = (decoded_of g (mem w) sector r, MD_VALID) /\ flash_is (mem w) w w2)
    (fun _ _ => False) w) by by apply (wp_read_decoded g l sector slot r).
  apply wp_returns in Hwp as (a & w2 & Ha & -> & Hw2). by exists w2.
Qed.

(** C25: the inspector's liveness is the collector's.  When the collector
    decides whether the chain of a slot runs through a sector (it does not
    fail), and the live roots of the data sectors have readable names, the
    inspector decides the same from the same head: a record that the
    inspector counts as orphaned is one that no lookup through the namespace
    reaches. *)
Theorem inspector_agrees_with_collector `{Backend} `{!NorFlash} `{!ValidBackend}
    (g : fs_geometry) `{!GeoOk g} (l : inspect_layout) (heads : gmap Z Z)
    (slot sector : Z) (b : bool) (w w1 : world) :
  fs_geo (w_fs w) = g -> flash_ok w -> layout_of g l ->
  (forall s, index_sectors g <= s < sector_count g -> names_readable g (mem w) s) ->
  sector_is_reachable_from_chain slot (head_at heads slot) sector w = (Ok b, w1) ->
  exists w2, record_reachable_for_slot l heads slot sector w = (Ok b, w2) /\
    flash_is (mem w) w w2.
Proof.
  intros Hgeo Hok Hlay Hnames Hrun.
  assert (Hreach : reach g (Z.to_nat (sector_count g)) (mem w) slot (head_at heads slot)
    sector = inr b).
  { assert (Hwp : wp (sector_is_reachable_from_chain slot (head_at heads slot) sector)
      (fun b' _ => reach g (Z.to_nat (sector_count g)) (mem w) slot (head_at heads slot)
         sector = inr b') (fun _ _ => True) w).
    { apply (wp_reachable g); [done | done |]. intros w' Hw'. by destruct (reach _ _ _ _ _ _). }
    unfold wp in Hwp. by rewrite Hrun in Hwp. }
  assert (Hwp : wp (record_reachable_for_slot l heads slot sector)
    (fun a w2 => a = b /\ flash_is (mem w) w w2) (fun _ _ => False) w).
  { unfold record_reachable_for_slot. pose proof Hlay as (_ & -> & _).
    by apply (wp_inspector_reachable g l slot sector b). }
  apply wp_returns in Hwp as (a & w2 & Ha & -> & Hw2). by exists w2.
Qed.

(** The inspector's journal scan reads the active index sector and no
    other.  On a device whose active index sector names only data sectors and
    deletions, [inspect_index] succeeds without changing anything; its heads
    are the map that the records of the active sector spell (the records of
    the closed sectors of the sequence are not seen), it counts every record
    that is not clobbered, and finds no corrupt one. *)
Theorem inspect_index_reads_active_sector `{Backend} `{!NorFlash} `{!ValidBackend}
    (g : fs_geometry) `{!GeoOk g} (l : inspect_layout) (w : world) :
  let records := sector_journal g (mem w) (il_active_index_sector l) in
  flash_ok w -> layout_of g l ->
  0 <= il_active_index_sector l < index_sectors g -> heads_proper g records ->
  exists heads c w', inspect_index l w = (Ok (heads, c), w') /\
    flash_is (mem w) w w' /\
    (forall slot, head_at heads slot = default 0 (replay_map ∅ records !! slot)) /\
    ic_records c =
      zlen (List.filter (fun r => negb ((fst r =? 0) && (snd r =? 0))) records) /\
    ic_corrupt_records c = 0 /\
    ic_live_entries c = live_entries_from (Z.to_nat FFFS_SLOT_COUNT) 0 heads.
Proof.
  intros records Hok Hlay Ha Hp.
  pose proof (inspect_records_map g l records Hlay Hp ∅ index_counts_zero ∅
    ltac:(intros slot; unfold head_at; by rewrite lookup_empty)) as Hmap.
  pose proof (inspect_counts g l records ∅ index_counts_zero) as (Hr & Hle & _ & Hc).
  specialize (Hc Hlay Hp).
  assert (Hwp : wp (inspect_index l) (fun a w' =>
    let st := foldl (inspect_record l) (∅, index_counts_zero) records in
    a = (fst st, count_live_entries
           (live_entries_from (Z.to_nat FFFS_SLOT_COUNT) 0 (fst st)) (snd st)) /\
    flash_is (mem w) w w') (fun _ _ => False) w).
  { apply (wp_inspect_index g); [done.. |]. fold records.
    destruct (foldl _ _ records) as [heads c]. by intros w' Hw'. }
  apply wp_returns in Hwp as (a & w' & Hrun & -> & Hw').
  set (st := foldl (inspect_record l) (∅, index_counts_zero) records) in *.
  exists (fst st), (count_live_entries
    (live_entries_from (Z.to_nat FFFS_SLOT_COUNT) 0 (fst st)) (snd st)), w'.
  split; [done |]. split; [done |]. split; [done |].
  unfold count_live_entries. cbn [ic_records ic_corrupt_records ic_live_entries].
  rewrite Hr, Hc, Hle. done.
Qed.
