(* ===== verification/InspectDump.v ===== *)
(** * The dump and the live map

    [fffs_inspect_dump] prints the summary of [fffs_inspect_check] after it has
    passed it to [mark_live_chains] once more, which counts the broken entries
    a second time; and [fffs_inspect_live_map] returns one state per page. *)

From S2P Require Export InspectSpec.

(** Scans of all the slots are not to be evaluated. *)
#[local] Opaque live_entries_from.

Section Dump.
Context `{Backend} `{!NorFlash}.

(** Two devices with the same bytes. *)
Definition same_image (w1 w2 : world) : Prop :=
  flash_ok w1 /\ flash_ok w2 /\ forall a, mem w1 a = mem w2 a.

Lemma same_image_step {A} (f : M A) w1 w2 : image f -> same_image w1 w2 ->
  fst (f w1) = fst (f w2) /\ same_image (snd (f w1)) (snd (f w2)).
Proof.
  intros Hf (Hok1 & Hok2 & Heq).
  destruct (image_same f Hf w1 w2 Hok1 Hok2 Heq) as (_ & Hres & Hw1).
  destruct (image_same f Hf w2 w1 Hok2 Hok1 (fun a => eq_sym (Heq a))) as (_ & _ & Hw2).
  split; [done |]. split; [apply Hw1 |]. split; [apply Hw2 |].
  intros a. by rewrite (fi_mem _ _ _ Hw1), (fi_mem _ _ _ Hw2).
Qed.

Lemma same_image_run {A} (f : M A) w1 w2 r w1' : image f -> same_image w1 w2 ->
  f w1 = (r, w1') -> exists w2', f w2 = (r, w2') /\ same_image w1' w2'.
Proof.
  intros Hf Hs Hrun. destruct (same_image_step f w1 w2 Hf Hs) as [Hr Hw].
  rewrite Hrun in Hr, Hw. cbn [fst snd] in *. exists (snd (f w2)).
  rewrite Hr. by rewrite <- surjective_pairing.
Qed.

(** What a call leaves behind has the same bytes. *)
Lemma same_image_after {A} (f : M A) w r w' : image f -> flash_ok w ->
  f w = (r, w') -> same_image w w'.
Proof.
  intros Hf Hok Hrun.
  destruct (image_same f Hf w w Hok Hok (fun a => eq_refl)) as (_ & _ & Hw).
  rewrite Hrun in Hw. cbn [snd] in Hw. split; [done |]. split; [apply Hw |].
  intros a. symmetry. apply Hw.
Qed.

Lemma same_image_trans w1 w2 w3 :
  same_image w1 w2 -> same_image w2 w3 -> same_image w1 w3.
Proof.
  intros (? & _ & Heq1) (_ & ? & Heq2). split; [done |]. split; [done |].
  intros a. by rewrite Heq1.
Qed.

Lemma same_image_sym w1 w2 : same_image w1 w2 -> same_image w2 w1.
Proof. intros (? & ? & Heq). split; [done |]. split; [done |]. intros a. by rewrite Heq. Qed.

(** ** The heads *)

(** The strict replay and the counting scan give the same heads. *)
Lemma replay_scan_heads n l stop : forall off heads c w1 w2 h w1',
  0 <= off -> same_image w1 w2 ->
  replay_active_loop n l off stop heads w1 = (Ok h, w1') ->
  exists c' w2', inspect_index_loop n l off stop heads c w2 = (Ok (h, c'), w2').
Proof.
  induction n as [| n IH]; intros off heads c w1 w2 h w1' Ho Hs;
    cbn [replay_active_loop inspect_index_loop];
    destruct (negb (off + 4 <=? stop)); try done.
  1, 2: intros [= <- <-]; by exists c, w2.
  intros Hrun. apply bind_ok in Hrun as (rec & w3 & Hread & Hrun).
  assert (Himg : image (backend_read off 4))
    by (eapply image_fn_image, image_backend_read; lia).
  destruct (same_image_run _ _ _ _ _ Himg Hs Hread) as (w4 & Hread' & Hs').
  cbv zeta in Hrun |- *. unfold bind. rewrite Hread'. cbv beta iota.
  destruct (_ && _).
  { injection Hrun as <- <-. by exists c, w4. }
  destruct (_ && _); [by eapply IH; [lia | exact Hs' | exact Hrun] |].
  destruct (load16_at rec 2 =? 0); [by eapply IH; [lia | exact Hs' | exact Hrun] |].
  destruct (head_out_of_range l _); [done |].
  by eapply IH; [lia | exact Hs' | exact Hrun].
Qed.

(** ** Counting twice *)

(** The counters [c] grew by [k] broken entries. *)
Definition more_corrupt (k : Z) (c c' : index_counts) : Prop :=
  c' = mk_index_counts (ic_records c) (ic_deletes c) (ic_corrupt_records c)
         (ic_live_entries c) (ic_live_entries_corrupt c + k).

Lemma more_corrupt_step k c c' :
  more_corrupt k (count_corrupt_entry c) c' -> more_corrupt (1 + k) c c'.
Proof. unfold more_corrupt, count_corrupt_entry. intros ->. cbn. f_equal. lia. Qed.

(** The marking of the chains is the same for any counters, and adds the same
    number to them. *)
Lemma mark_chains_grows n l heads : forall slot marks c w marks' c' w',
  mark_chains_loop n l heads slot marks c w = (Ok (marks', c'), w') ->
  exists k, more_corrupt k c c' /\ forall d, exists d',
    mark_chains_loop n l heads slot marks d w = (Ok (marks', d'), w') /\
    more_corrupt k d d'.
Proof.
  induction n as [| n IH]; intros slot marks c w marks' c' w';
    cbn [mark_chains_loop].
  { intros [= <- <- <-]. exists 0. unfold more_corrupt. split.
    - destruct c. cbn. f_equal. lia.
    - intros d. exists d. split; [done |]. destruct d. cbn. f_equal. lia. }
  cbv zeta. destruct (head_at heads slot =? 0); [apply IH |].
  intros Hrun. apply bind_ok in Hrun as ([corrupt marks1] & w1 & Hchain & Hrun).
  destruct (corrupt || _) eqn:Hbad; apply IH in Hrun as (k & Hk & Hall).
  - exists (1 + k). split; [by apply more_corrupt_step |]. intros d.
    destruct (Hall (count_corrupt_entry d)) as (d' & Hd & Hkd).
    exists d'. unfold bind. rewrite Hchain. cbv beta iota. rewrite Hbad.
    split; [done | by apply more_corrupt_step].
  - exists k. split; [done |]. intros d. destruct (Hall d) as (d' & Hd & Hkd).
    exists d'. unfold bind. rewrite Hchain. cbv beta iota. by rewrite Hbad.
Qed.

Lemma mark_live_chains_grows l heads c w marks c' w' :
  mark_live_chains l heads c w = (Ok (marks, c'), w') ->
  exists k, more_corrupt k c c' /\ forall d, exists d',
    mark_live_chains l heads d w = (Ok (marks, d'), w') /\ more_corrupt k d d'.
Proof. unfold mark_live_chains. apply mark_chains_grows. Qed.

(** ** The lines *)

Lemma dump_headers_prefix n l : forall sector out w out' w',
  dump_headers_loop n l sector out w = (Ok out', w') -> out `prefix_of` out'.
Proof.
  induction n as [| n IH]; intros sector out w out' w'; cbn [dump_headers_loop].
  { by intros [= <- _]. }
  intros Hrun. apply bind_ok in Hrun as (hdr & w1 & _ & Hrun).
  etransitivity; [| exact (IH _ _ _ _ _ Hrun)]. by eexists.
Qed.

Lemma dump_active_prefix n stop : forall off out w out' w',
  dump_active_loop n off stop out w = (Ok out', w') -> out `prefix_of` out'.
Proof.
  induction n as [| n IH]; intros off out w out' w'; cbn [dump_active_loop];
    destruct (negb _); try done; try by intros [= <- _].
  intros Hrun. apply bind_ok in Hrun as (rec & w1 & _ & Hrun). cbv zeta in Hrun.
  destruct (_ && _); [by injection Hrun as <- _ |].
  etransitivity; [| exact (IH _ _ _ _ _ Hrun)]. by eexists.
Qed.

Lemma dump_records_prefix n l heads sector serial :
  forall cursor claimed printed out w printed' out' w',
  dump_records_loop n l heads sector serial cursor claimed printed out w =
    (Ok (printed', out'), w') -> out `prefix_of` out'.
Proof.
  induction n as [| n IH]; intros cursor claimed printed out w printed' out' w';
    cbn [dump_records_loop]; destruct (negb _); try done; try by intros [= _ <- _].
  intros Hrun. apply bind_ok in Hrun as ([[kind d] start] & w1 & _ & Hrun).
  destruct (bool_decide (kind = MD_ERASED)); [by injection Hrun as _ <- _ |].
  apply bind_ok in Hrun as (live & w2 & _ & Hrun). cbv zeta in Hrun.
  destruct (bool_decide (kind = MD_CORRUPT));
    [injection Hrun as _ <- _; by eexists |].
  destruct (start <=? _); [injection Hrun as _ <- _; by eexists |].
  etransitivity; [| exact (IH _ _ _ _ _ _ _ _ Hrun)]. by eexists.
Qed.

Lemma dump_data_prefix n l heads marks : forall sector out w out' w',
  dump_data_sectors n l heads marks sector out w = (Ok out', w') ->
  out `prefix_of` out'.
Proof.
  induction n as [| n IH]; intros sector out w out' w'; cbn [dump_data_sectors].
  { by intros [= <- _]. }
  intros Hrun. apply bind_ok in Hrun as (out1 & w1 & Hsec & Hrun).
  etransitivity; [| exact (IH _ _ _ _ _ Hrun)]. clear Hrun IH.
  unfold dump_data_sector in Hsec. apply bind_ok in Hsec as (view & w2 & _ & Hsec).
  destruct (ft_erased view); [by injection Hsec as <- _ |].
  destruct (negb (valid_footer view)); [injection Hsec as <- _; by eexists |].
  destruct (_ && _); [injection Hsec as <- _; by eexists |].
  apply bind_ok in Hsec as ([printed out2] & w3 & Hrec & Hsec).
  apply dump_records_prefix in Hrec. injection Hsec as <- _.
  destruct printed; [done |]. etransitivity; [exact Hrec |]. by eexists.
Qed.
(** ** The check, and the dump after it *)

Lemma image_fn_result {A} (P : A -> Prop) (f : M A) w a w' :
  image_fn P f -> flash_ok w -> f w = (Ok a, w') -> P a.
Proof.
  intros Hf Hok Hrun.
  destruct (Hf (mem w) (fun x => mem_u8 w x Hok)) as (r & [_ Hall] & HP).
  destruct (Hall w Hok (fun x => eq_refl)) as (w1 & Hrun1 & _).
  rewrite Hrun in Hrun1. injection Hrun1 as <- _. by apply HP.
Qed.

(** The runs that a check is made of. *)
Lemma check_runs w s w1 :
  fffs_inspect_check w = (Ok s, w1) ->
  exists heads c marks wa wb wc,
    discover w = (Ok (sum_layout s), wa) /\
    inspect_index (sum_layout s) wa = (Ok (heads, c), wb) /\
    mark_live_chains (sum_layout s) heads c wb = (Ok (marks, sum_index s), wc) /\
    inspect_data_sectors (sum_layout s) heads marks wc =
      (Ok (sum_sectors s, sum_md s), w1).
Proof.
  unfold fffs_inspect_check. intros Hrun.
  apply bind_ok in Hrun as (l & wa & Hl & Hrun).
  apply bind_ok in Hrun as ([heads c] & wb & Hidx & Hrun).
  apply bind_ok in Hrun as ([marks c'] & wc & Hmark & Hrun).
  apply bind_ok in Hrun as ([sc mc] & wd & Hdata & Hrun).
  injection Hrun as <- <-. by exists heads, c, marks, wa, wb, wc.
Qed.

(** The counters of the scan have no broken entry yet. *)
Lemma index_loop_entries n l stop : forall off heads c w h c' w',
  inspect_index_loop n l off stop heads c w = (Ok (h, c'), w') ->
  ic_live_entries_corrupt c' = ic_live_entries_corrupt c.
Proof.
  induction n as [| n IH]; intros off heads c w h c' w'; cbn [inspect_index_loop];
    destruct (negb _); try done; try by intros [= _ <- _].
  intros Hrun. apply bind_ok in Hrun as (rec & w1 & _ & Hrun). cbv zeta in Hrun.
  destruct (_ && _); [by injection Hrun as _ <- _ |].
  destruct (_ && _); [by eapply IH |].
  destruct (load16_at rec 2 =? 0); [by apply IH in Hrun |].
  destruct (head_out_of_range _ _); by apply IH in Hrun.
Qed.

(** Replaying the index after a check gives the heads of the check. *)
Lemma replay_after_index l wa wb heads c w1 h w2 :
  layout_ok l -> same_image w1 wa -> inspect_index l wa = (Ok (heads, c), wb) ->
  replay_active_index l w1 = (Ok h, w2) -> h = heads.
Proof.
  intros Hl Hs Hidx Hrun. unfold inspect_index in Hidx.
  apply bind_ok in Hidx as ([heads1 c1] & wb' & Hidx & Hret). injection Hret as <- _ _.
  destruct (replay_scan_heads _ _ _ _ _ index_counts_zero _ _ _ _
    (active_begin_nonneg l Hl) Hs Hrun) as (c' & w2' & Hscan).
  unfold active_begin, active_end in *. rewrite Hidx in Hscan. by injection Hscan.
Qed.
End Dump.

(** The dump counts broken entries twice.  Whenever the check of an image
    succeeds and its dump is printed, the second line of the dump is the
    check's summary, except that its number of corrupt live entries is twice
    the one that the check reports. *)
Theorem dump_doubles_corrupt_entries `{Backend} `{!NorFlash} (w w1 w2 : world)
    (s : fffs_inspect_summary) (lines : list report_line) :
  flash_ok w -> fffs_inspect_check w = (Ok s, w1) ->
  fffs_inspect_dump w = (Ok lines, w2) ->
  exists c, nth_error lines 1 = Some (Report_summary
      (mk_summary (sum_layout s) c (sum_sectors s) (sum_md s))) /\
    ic_live_entries_corrupt c = 2 * ic_live_entries_corrupt (sum_index s) /\
    ic_live_entries c = ic_live_entries (sum_index s) /\
    ic_records c = ic_records (sum_index s).
Proof.
  intros Hok Hcheck Hdump.
  destruct (check_runs w s w1 Hcheck) as (heads & c & marks & wa & wb & wc & Hdisc &
    Hidx & Hmark & Hdata).
  assert (Hl : layout_ok (sum_layout s))
    by exact (image_fn_result _ _ _ _ _ image_discover Hok Hdisc).
  assert (Hsa : same_image w wa)
    by (eapply same_image_after; [eapply image_fn_image, image_discover | done | done]).
  assert (Hsb : same_image wa wb)
    by (eapply same_image_after; [by apply image_inspect_index | apply Hsa | done]).
  assert (Hs1 : same_image w w1)
    by (eapply same_image_after; [eapply image_fn_image, image_check | done | done]).
  unfold fffs_inspect_dump in Hdump.
  apply bind_ok in Hdump as (s' & w1' & Hcheck' & Hdump).
  rewrite Hcheck in Hcheck'. injection Hcheck' as <- <-.
  apply bind_ok in Hdump as (h & w3 & Hrep & Hdump).
  assert (Hs3 : same_image w1 w3)
    by (eapply same_image_after; [by apply image_replay_active | apply Hs1 | done]).
  assert (Hs1a : same_image w1 wa)
    by (eapply same_image_trans; [by apply same_image_sym | done]).
  rewrite (replay_after_index _ _ _ _ _ _ _ _ Hl Hs1a Hidx Hrep) in Hdump.
  apply bind_ok in Hdump as ([marks2 c2] & w4 & Hmark2 & Hdump).
  assert (Hs3b : same_image w3 wb).
  { eapply same_image_trans; [by apply same_image_sym |].
    by eapply same_image_trans. }
  destruct (same_image_run _ _ _ _ _ (image_mark_chains _ Hl heads (sum_index s)) Hs3b
    Hmark2) as (wb' & Hmark2' & _).
  destruct (mark_live_chains_grows _ _ _ _ _ _ _ Hmark) as (k & Hk & Hall).
  destruct (Hall (sum_index s)) as (c2' & Hmark3 & Hk2).
  rewrite Hmark2' in Hmark3.
  injection Hmark3 as _ <- _.
  exists c2. split.
  - apply bind_ok in Hdump as (out1 & w5 & Hh & Hdump).
    apply bind_ok in Hdump as (out2 & w6 & Ha & Hd).
    apply dump_headers_prefix in Hh as [t1 ->].
    apply dump_active_prefix in Ha as [t2 ->].
    by apply dump_data_prefix in Hd as [t3 ->].
  - unfold inspect_index in Hidx.
    apply bind_ok in Hidx as ([h1 c1] & wb1 & Hloop & Hret). injection Hret as _ <- _.
    apply index_loop_entries in Hloop. unfold more_corrupt in Hk, Hk2.
    unfold count_live_entries in Hk. cbn [index_counts_zero ic_live_entries_corrupt] in Hloop.
    rewrite Hk2, Hk. cbn [ic_live_entries_corrupt ic_live_entries ic_records].
    rewrite Hloop. split; [lia | done].
Qed.

(** ** The live map *)

(** One state per page: erased, metadata, obsolete or live. *)
Definition page_states (page_count : Z) (pages : list Z) : Prop :=
  zlen pages = page_count /\ Forall (fun v => 0 <= v <= 3) pages.

(** The marking only raises a state. *)
Definition pages_raised (pages pages' : list Z) : Prop :=
  Forall2 Z.le pages pages'.

Lemma pages_raised_insert pages p v :
  byte_at pages p < v -> 0 <= p < zlen pages ->
  pages_raised pages (<[Z.to_nat p := v]> pages).
Proof.
  unfold zlen. intros Hv Hp. apply Forall2_same_length_lookup_2.
  - by rewrite length_insert.
  - intros i x y Hx Hy. destruct (decide (i = Z.to_nat p)) as [-> | Hne].
    + rewrite list_lookup_insert_eq in Hy by lia. injection Hy as <-.
      unfold byte_at in Hv. rewrite (nth_lookup_Some _ _ _ _ Hx) in Hv. lia.
    + rewrite list_lookup_insert_ne in Hy by done. rewrite Hx in Hy.
      injection Hy as <-. done.
Qed.

Lemma pages_raised_refl pages : pages_raised pages pages.
Proof. unfold pages_raised. reflexivity. Qed.

Lemma pages_raised_trans l1 l2 l3 :
  pages_raised l1 l2 -> pages_raised l2 l3 -> pages_raised l1 l3.
Proof. unfold pages_raised. intros H12 H23. by etransitivity. Qed.

Definition marks_ok (n : Z) (pages pages' : list Z) : Prop :=
  page_states n pages -> page_states n pages' /\ pages_raised pages pages'.

Lemma marks_ok_refl n pages : marks_ok n pages pages.
Proof. intros Hp. split; [done | apply pages_raised_refl]. Qed.

Lemma marks_ok_trans n l1 l2 l3 : marks_ok n l1 l2 -> marks_ok n l2 l3 -> marks_ok n l1 l3.
Proof.
  intros H12 H23 Hp. destruct (H12 Hp) as [Hp2 Hr12]. destruct (H23 Hp2) as [Hp3 Hr23].
  split; [done | by eapply pages_raised_trans].
Qed.

Lemma livemap_loop_ok n k : forall p p1 val pages,
  0 <= p -> 0 <= val <= 3 -> marks_ok n pages (livemap_loop k p p1 (zlen pages) val pages).
Proof.
  induction k as [| k IH]; intros p p1 val pages Hp Hv; cbn [livemap_loop];
    [apply marks_ok_refl |].
  destruct (_ && _) eqn:Hin; [| apply marks_ok_refl].
  apply andb_true_iff in Hin as [_ Hlt%Z.ltb_lt].
  set (pages1 := if byte_at pages p <? val then _ else pages).
  assert (Hlen : zlen pages1 = zlen pages).
  { unfold pages1, zlen. destruct (_ <? _); [by rewrite length_insert | done]. }
  rewrite <- Hlen. eapply marks_ok_trans; [| apply IH; lia].
  intros [Hn Hall]. unfold pages1.
  destruct (Z.ltb_spec (byte_at pages p) val);
    [| split; [done | apply pages_raised_refl]].
  split; [| apply pages_raised_insert; lia]. split.
  - unfold zlen in *. by rewrite length_insert.
  - apply Forall_insert; done.
Qed.

Lemma livemap_mark_ok n pages page_size base len val :
  0 <= base -> 0 < page_size -> 0 <= val <= 3 ->
  marks_ok n pages (livemap_mark pages page_size base len val).
Proof.
  intros Hb Hp Hv. unfold livemap_mark. destruct (len =? 0); [apply marks_ok_refl |].
  apply livemap_loop_ok; [apply Z.div_pos; lia | done].
Qed.

Lemma livemap_index_ok n l page_size k : layout_ok l -> 0 < page_size ->
  forall s pages, 0 <= s -> marks_ok n pages (livemap_index_loop k l page_size s pages).
Proof.
  intros Hl Hp. pose proof (lo_size _ Hl).
  induction k as [| k IH]; intros s pages Hs; cbn [livemap_index_loop];
    [apply marks_ok_refl |].
  eapply marks_ok_trans; [apply (livemap_mark_ok n _ page_size (s * il_sector_size l)
    (il_sector_size l) 1); nia || lia |].
  apply IH. lia.
Qed.

(** The decoded data offset of a record. *)
Section LiveMap.
Context `{Backend}.

Lemma record_before_off l sector cursor w kind d start w' :
  read_record_before l sector cursor w = (Ok (kind, d, start), w') ->
  0 <= dm_data_off d.
Proof.
  unfold read_record_before. destruct (cursor <? _); [by intros [= <- <- <- _] |].
  intros Hrun. apply bind_ok in Hrun as (type & w1 & _ & Hrun).
  destruct (byte_at type 0 =? 255); [by injection Hrun as _ <- _ _ |].
  apply bind_ok in Hrun as (md & w2 & _ & Hrun).
  destruct (decode_md md _) as [k out] eqn:Hdec.
  apply bind_ok in Hrun as ([k' d'] & w3 & Hname & Hrun).
  injection Hrun as _ <- _ _.
  assert (Hd : 0 <= dm_data_off (default decoded_zero out)).
  { destruct out as [d0 |]; [| done].
    apply (decode_md_off md (cursor - 16)). by rewrite Hdec. }
  unfold read_root_name_for_decoded in Hname.
  destruct (_ || _); [by injection Hname as _ <- _ |].
  apply bind_ok in Hname as (len & w4 & _ & Hname). cbv zeta in Hname.
  destruct (_ || _); [by injection Hname as _ <- _ |].
  apply bind_ok in Hname as (name & w5 & _ & Hname). by injection Hname as _ <- _.
Qed.

Lemma record_before_start l sector cursor w kind d start w' :
  read_record_before l sector cursor w = (Ok (kind, d, start), w') -> 0 <= start.
Proof.
  unfold read_record_before.
  destruct (Z.ltb_spec cursor 16); [by intros [= <- <- <- _] |].
  intros Hrun. apply bind_ok in Hrun as (type & w1 & _ & Hrun).
  destruct (byte_at type 0 =? 255); [by injection Hrun as _ _ <- _ |].
  apply bind_ok in Hrun as (md & w2 & _ & Hrun).
  destruct (decode_md md _) as [k out].
  apply bind_ok in Hrun as ([k' d'] & w3 & _ & Hrun). injection Hrun as _ _ <- _. lia.
Qed.

Lemma livemap_records_ok n l heads page_size sector k :
  layout_ok l -> 0 < page_size -> 0 <= sector ->
  forall cursor claimed pages w pages' w',
  livemap_records_loop k l heads page_size sector cursor claimed pages w =
    (Ok pages', w') -> marks_ok n pages pages'.
Proof.
  intros Hl Hp Hs. pose proof (lo_size _ Hl).
  induction k as [| k IH]; intros cursor claimed pages w pages' w';
    cbn [livemap_records_loop]; destruct (negb _); try done;
    try (intros [= <- _]; apply marks_ok_refl).
  intros Hrun. apply bind_ok in Hrun as ([[kind d] start] & w1 & Hrec & Hrun).
  pose proof (record_before_off _ _ _ _ _ _ _ _ Hrec).
  pose proof (record_before_start _ _ _ _ _ _ _ _ Hrec).
  destruct (_ || _); [injection Hrun as <- _; apply marks_ok_refl |].
  cbv zeta in Hrun. apply bind_ok in Hrun as (val & w2 & Hval & Hrun).
  assert (Hv : 0 <= val <= 3).
  { destruct (_ || _); [injection Hval as <- _; lia |].
    apply bind_ok in Hval as (live & w3 & _ & Hval).
    injection Hval as <- _. destruct live; lia. }
  eapply marks_ok_trans; [apply (livemap_mark_ok n _ page_size
    (sector * il_sector_size l + start) (cursor - start) 1); nia || lia |].
  eapply marks_ok_trans; [apply (livemap_mark_ok n _ page_size
    (sector * il_sector_size l + dm_data_off d) (dm_data_len d) val); nia || lia |].
  destruct (start <=? _); [injection Hrun as <- _; apply marks_ok_refl |].
  exact (IH _ _ _ _ _ _ Hrun).
Qed.

Lemma livemap_sectors_ok n l heads page_size k :
  layout_ok l -> 0 < page_size -> forall sector pages w pages' w', 0 <= sector ->
  livemap_sectors_loop k l heads page_size sector pages w = (Ok pages', w') ->
  marks_ok n pages pages'.
Proof.
  intros Hl Hp. pose proof (lo_size _ Hl).
  induction k as [| k IH]; intros sector pages w pages' w' Hs;
    cbn [livemap_sectors_loop]; [intros [= <- _]; apply marks_ok_refl |].
  intros Hrun. apply bind_ok in Hrun as (pages1 & w1 & Hsec & Hrun).
  eapply marks_ok_trans; [| exact (IH (sector + 1) _ _ _ _ ltac:(lia) Hrun)].
  unfold livemap_sector in Hsec. apply bind_ok in Hsec as (view & w2 & _ & Hsec).
  destruct (ft_erased view); [injection Hsec as <- _; apply marks_ok_refl |].
  destruct (negb _); [injection Hsec as <- _; apply marks_ok_refl |].
  destruct (bool_decide _).
  - injection Hsec as <- _. apply livemap_mark_ok; nia || lia.
  - eapply marks_ok_trans; [| by eapply livemap_records_ok; [.. | exact Hsec]].
    apply livemap_mark_ok; nia || lia.
Qed.
End LiveMap.

(** The shape of the live map.  When [fffs_inspect_live_map] succeeds, its
    result has exactly one state per page, each one of the four values
    (erased, metadata, obsolete, live data). *)
Theorem live_map_page_states `{Backend} `{!NorFlash} (page_count page_size : Z)
    (w w' : world) (pages : list Z) :
  flash_ok w -> 0 <= page_count -> 0 < page_size ->
  fffs_inspect_live_map page_count page_size w = (Ok pages, w') ->
  page_states page_count pages.
Proof.
  intros Hok Hn Hp Hrun. unfold fffs_inspect_live_map, guard_err in Hrun.
  destruct (page_size =? 0); [done |].
  apply bind_ok in Hrun as ([] & w1 & Hret & Hrun). injection Hret as <-.
  apply bind_ok in Hrun as (l & w2 & Hdisc & Hrun). cbv zeta in Hrun.
  assert (Hl : layout_ok l)
    by exact (image_fn_result _ _ _ _ _ image_discover Hok Hdisc).
  apply bind_ok in Hrun as ([heads c] & w3 & _ & Hrun).
  apply bind_ok in Hrun as (marks & w4 & _ & Hrun).
  assert (Hzero : page_states page_count (fill page_count 0)).
  { split; [by apply zlen_fill | apply Forall_fill; lia]. }
  destruct (livemap_index_ok page_count l page_size (Z.to_nat (il_index_sectors l)) Hl Hp
    0 _ ltac:(lia) Hzero) as [Hidx _].
  by destruct (livemap_sectors_ok page_count l heads page_size _ Hl Hp _ _ _ _ _
    (lo_index _ Hl) Hrun Hidx).
Qed.
