(* ===== verification/Alloc.v ===== *)
(** * Sector allocation for file extents

    The writer side of [src/fffs_alloc.c]: reservations of consecutive
    sectors, the scan for a free window, and the order in which
    [fffs_alloc_next_sector] falls back to garbage collection, to the
    compaction reserve and to relaxed compaction. *)

From S2P Require Export Gc.

(** [file->reserve_first] and [file->reserve_count] *)
Definition set_reserve (first count : Z) (f : fffs_file) : fffs_file :=
  set_f_reserve_first first (set_f_reserve_count count f).

(** The offset of the first record of an erased sector. *)
Definition erased_record_off (g : fs_geometry) : Z :=
  u16 (sector_size g - FFFS_SECTOR_FOOTER_SIZE - FFFS_MD_FILE_RECORD_SIZE).

Section Alloc.
Context `{Backend} `{!IndexCache} `{Fuel}.

Definition fffs_alloc_release_reservation (file : Z) : M unit :=
  f <- get_file file ;;
  if negb (f_fs f) || (f_reserve_count f =? 0) then ret tt
  else
    mark_range_unknown_loop (Z.to_nat (f_reserve_count f)) (f_reserve_first f)
      0 ;;
    mod_file file (set_reserve 0 0).

Definition sector_can_be_reserved (file sector : Z) : M bool :=
  fs <- get_fs ;;
  if negb (valid_data_sector (fs_geo fs) sector) then ret false
  else if fffs_alloc_map_maybe_used fs sector then ret false
  else
    held <- is_open_for_writing sector ;;
    if held then ret false
    else other <- reserved_by_other file sector ;; ret (negb other).

(** The walk of [halve_reservations] over the handles still to visit; the
    result is [releasedAny]. *)
Fixpoint halve_loop (ids : list Z) (released_any : bool) : M bool :=
  match ids with
  | [] => ret released_any
  | id :: rest =>
      f <- get_file id ;;
      if f_closed f || negb (has_flag (f_flags f) FFFS_O_WRONLY) ||
         (f_reserve_count f =? 0)
      then halve_loop rest released_any
      else
        let keep_count := Z.shiftr (f_reserve_count f) 1 in
        let release_first := u16 (f_reserve_first f + keep_count) in
        let release_count := u16 (f_reserve_count f - keep_count) in
        mark_range_unknown_loop (Z.to_nat release_count) release_first 0 ;;
        mod_file id (set_reserve
          (if keep_count =? 0 then 0 else f_reserve_first f) keep_count) ;;
        halve_loop rest true
  end.

Definition halve_reservations : M bool :=
  fs <- get_fs ;;
  files <- get_files ;;
  halve_loop (open_list fs files) false.

(** The loop of [reserve_after]: every round adds a sector to the
    reservation, which holds at most [FFFS_ALLOC_RESERVE_SECTORS]. *)
Fixpoint reserve_after_loop (n : nat) (file next : Z) : M unit :=
  match n with
  | O => ret tt
  | S n' =>
      f <- get_file file ;;
      g <- get_geo ;;
      if negb ((f_reserve_count f <? FFFS_ALLOC_RESERVE_SECTORS) &&
               (next <? sector_count g))
      then ret tt
      else
        can <- sector_can_be_reserved file next ;;
        if negb can then ret tt
        else
          mod_file file (set_reserve
            (if f_reserve_count f =? 0 then next else f_reserve_first f)
            (f_reserve_count f + 1)) ;;
          fffs_alloc_map_mark_used next ;;
          reserve_after_loop n' file (u16 (next + 1))
  end.

Definition reserve_after (file sector : Z) : M unit :=
  f <- get_file file ;;
  let next := if negb (f_reserve_count f =? 0)
              then u16 (f_reserve_first f + f_reserve_count f)
              else u16 (sector + 1) in
  reserve_after_loop (Z.to_nat FFFS_ALLOC_RESERVE_SECTORS) file next.

Definition use_alloc_window (file sector data_off record_off : Z)
    (needs_footer : bool) : M unit :=
  mod_file file (fun f =>
    let f := set_f_data_offset data_off f in
    let f := set_f_current_write_offset data_off f in
    let f := set_f_current_metadata_offset record_off f in
    set_f_current_needs_footer needs_footer f) ;;
  when needs_footer (reserve_after file sector).

(** [use_alloc_window] of a blank sector. *)
Definition use_erased_sector (file sector : Z) : M unit :=
  g <- get_geo ;;
  use_alloc_window file sector 0 (erased_record_off g) true.

(** The sector allocated, or the sector to skip when [have_skip]: [inl]
    stands for the status [FFFS_ERR_NO_SPACE]. *)
Definition try_reserved_sector (file : Z) : M (option Z + Z) :=
  f <- get_file file ;;
  if f_reserve_count f =? 0 then ret (inl None)
  else
    let candidate := f_reserve_first f in
    held <- is_open_for_writing candidate ;;
    other <- reserved_by_other file candidate ;;
    if held || other then
      fffs_alloc_release_reservation file ;;
      ret (inl (Some candidate))
    else
      g <- get_geo ;;
      r <- try_ (fffs_flash_span_is_erased (candidate * sector_size g)
                   (sector_size g)) ;;
      match r with
      | inr _ =>
          fffs_alloc_map_mark_unknown candidate ;;
          mod_file file (fun f =>
            let count := f_reserve_count f - 1 in
            set_reserve (if count =? 0 then 0
                         else u16 (f_reserve_first f + 1)) count f) ;;
          use_erased_sector file candidate ;;
          ret (inr candidate)
      | inl err =>
          fffs_alloc_release_reservation file ;;
          if negb (bool_decide (err = FFFS_ERR_NO_SPACE)) then fail err
          else ret (inl (Some candidate))
      end.

(** The scan of [alloc_sector_once], [n] sectors left.  [skip] is the sector
    to skip; [None] as a result stands for [FFFS_ERR_NO_SPACE]. *)
Fixpoint alloc_scan (n : nat) (file s : Z) (skip : option Z)
    (continuation : bool) : M (option Z) :=
  match n with
  | O => ret None
  | S n' =>
      fs <- get_fs ;;
      let g := fs_geo fs in
      let next := alloc_scan n' file (fffs_next_data_sector g s) skip
                    continuation in
      held <- is_open_for_writing (u16 s) ;;
      other <- reserved_by_other file (u16 s) ;;
      if bool_decide (skip = Some s) then next
      else if held || other then next
      else if fffs_alloc_compaction_reserved (fs_alloc fs) (u16 s) then next
      else if fffs_alloc_map_maybe_used fs (u16 s) then next
      else
        f <- get_file file ;;
        r <- try_ (fffs_find_sector_free_window (u16 s)
                     FFFS_ALLOC_MIN_USABLE_FREE (f_slot f) true) ;;
        match r with
        | inl FFFS_ERR_NO_SPACE => next
        | inl err => fail err
        | inr win =>
            if continuation && negb (fw_needs_footer win) then next
            else if negb continuation &&
                    (compaction_reserve_count (fs_alloc fs) <?
                       FFFS_COMPACTION_RESERVE_SECTORS) then
              mod_alloc (fun a =>
                set_compaction_reserve_count (compaction_reserve_count a + 1)
                  (set_compaction_reserve_sectors
                     (<[Z.to_nat (compaction_reserve_count a) := u16 s]>
                        (compaction_reserve_sectors a)) a)) ;;
              fffs_alloc_map_mark_used (u16 s) ;;
              next
            else
              use_alloc_window file (u16 s) (fw_data_off win)
                (fw_record_off win) (fw_needs_footer win) ;;
              when (FFFS_ALLOC_TARGET_DENSITY <=? fw_md_records win)
                (mod_alloc (set_alloc_cursor (fffs_next_data_sector g s))) ;;
              ret (Some (u16 s))
        end
  end.

Definition alloc_sector_once (file : Z) (skip : option Z)
  : M (option Z) :=
  f <- get_file file ;;
  fs <- get_fs ;;
  let g := fs_geo fs in
  let continuation := negb (f_current f =? 0) in
  if sector_count g <=? index_sectors g then ret None
  else
    let s := alloc_cursor (fs_alloc fs) in
    let s := if (s <? index_sectors g) || (sector_count g <=? s)
             then index_sectors g else s in
    alloc_scan (Z.to_nat (sector_count g - index_sectors g)) file s skip
      continuation.

Definition allocate_erased_gc_sector (file : Z) : M Z :=
  erased_sector <- fffs_gc_until_erased ;;
  use_erased_sector file erased_sector ;;
  ret erased_sector.

(** [n] entries of the reserve left from index [i]. *)
Fixpoint reserve_for_alloc_loop (n : nat) (file i : Z) (continuation : bool)
  : M Z :=
  match n with
  | O => fail FFFS_ERR_NO_SPACE
  | S n' =>
      fs <- get_fs ;;
      let reserved :=
        reserve_at (compaction_reserve_sectors (fs_alloc fs)) i in
      f <- get_file file ;;
      r <- try_ (fffs_find_sector_free_window reserved
                   FFFS_ALLOC_MIN_USABLE_FREE (f_slot f) true) ;;
      match r with
      | inl FFFS_ERR_NO_SPACE =>
          reserve_for_alloc_loop n' file (i + 1) continuation
      | inl err => fail err
      | inr win =>
          if continuation && negb (fw_needs_footer win)
          then reserve_for_alloc_loop n' file (i + 1) continuation
          else
            reserve_remove reserved ;;
            fffs_alloc_map_mark_unknown reserved ;;
            use_alloc_window file reserved (fw_data_off win)
              (fw_record_off win) (fw_needs_footer win) ;;
            mod_alloc (set_alloc_cursor reserved) ;;
            ret reserved
      end
  end.

Definition try_compaction_reserve_for_alloc (file : Z) : M Z :=
  fs <- get_fs ;;
  f <- get_file file ;;
  reserve_for_alloc_loop
    (Z.to_nat (compaction_reserve_count (fs_alloc fs))) file 0
    (negb (f_current f =? 0)).

(** [if (err == FFFS_ERR_NO_SPACE) err = m()] *)
Definition or_no_space (m1 m2 : M Z) : M Z :=
  r <- try_ m1 ;;
  match r with
  | inr sector => ret sector
  | inl FFFS_ERR_NO_SPACE => m2
  | inl err => fail err
  end.

(** [alloc_sector_once], again after halving the reservations. *)
Definition alloc_sector_twice (file : Z) (skip : option Z) : M Z :=
  r <- alloc_sector_once file skip ;;
  match r with
  | Some sector => ret sector
  | None =>
      released_any <- halve_reservations ;;
      r <- (if (released_any : bool) then alloc_sector_once file skip
            else ret None) ;;
      match r with
      | Some sector => ret sector
      | None => fail FFFS_ERR_NO_SPACE
      end
  end.

Definition fffs_alloc_next_sector (file : Z) : M Z :=
  f <- get_file file ;;
  guard_err (negb (f_fs f)) FFFS_ERR_INVALID ;;
  r <- try_reserved_sector file ;;
  match r with
  | inr sector => ret sector
  | inl skip =>
      or_no_space (or_no_space (or_no_space
        (alloc_sector_twice file skip)
        (allocate_erased_gc_sector file))
        (fs <- get_fs ;;
         if negb (compaction_reserve_count (fs_alloc fs) =? 0)
         then try_compaction_reserve_for_alloc file
         else fail FFFS_ERR_NO_SPACE))
        (erased_sector <- fffs_gc_compact_until_erased true ;;
         use_erased_sector file erased_sector ;;
         ret erased_sector)
  end.
End Alloc.
