(* ===== verification/File.v ===== *)
(** * File handles

    [src/fffs_file.c]: open, read, seek, write, fstat and close, and the
    invalidation of a replaced chain.  A handle is named by its identifier in
    the store of handles. *)

From S2P Require Export Alloc.

(** The prefix of the root extent: name length, name, empty variable
    metadata. *)
Definition root_prefix (name : list Z) : list Z :=
  u8 (zlen name) :: name ++ [0].

Definition stage_root_prefix (name : list Z) (f : fffs_file) : fffs_file :=
  let off := u16 (1 + zlen name + 1) in
  set_f_cache_len off
    (set_f_cache (splice 0 (root_prefix name) (f_cache f))
       (set_f_root_payload_offset off f)).

Definition current_extent_capacity (f : fffs_file) : Z :=
  let data_off := f_data_offset f in
  let record_off := f_current_metadata_offset f in
  let prefix := if f_current f =? f_head f then f_root_payload_offset f else 0 in
  if record_off <=? data_off + prefix then 0
  else record_off - data_off - prefix.

Definition pending_span_len (f : fffs_file) : Z :=
  u16 (f_current f - f_span_head f + 1).

Definition read_cache_has_remaining (f : fffs_file) : bool :=
  negb (f_cache_len f =? 0) && (f_cache_data_pos f <=? f_current_data_pos f) &&
  (f_current_data_pos f <? f_cache_data_pos f + f_cache_len f).

(** The handle positioned on the extent [record] in [sector]. *)
Definition enter_extent (sector file_offset data_pos : Z)
    (record : fffs_md_record) (f : fffs_file) : fffs_file :=
  let f := set_f_data_offset (md_data_off record) f in
  let f := set_f_current sector f in
  let f := set_f_current_data_len (md_data_len record) f in
  let f := set_f_span_len (md_span_len record) f in
  let f := set_f_current_next (md_next record) f in
  let f := set_f_current_data_pos data_pos f in
  let f := set_f_current_file_offset file_offset f in
  set_f_cache_len 0 f.

(** The sector that follows the current extent, 0 at the end of the chain. *)
Definition next_extent_sector (f : fffs_file) : Z :=
  if 1 <? f_span_len f then u16 (f_current f + 1) else f_current_next f.

Definition known_open_flags : Z :=
  Z.lor (Z.lor (Z.lor FFFS_O_RDONLY FFFS_O_WRONLY)
           (Z.lor FFFS_O_CREATE FFFS_O_TRUNC)) FFFS_O_EXCL.

(** The running average of sectors per file after a chain of [visited]
    sectors was released. *)
Definition avg_sectors_update (avg visited : Z) : Z :=
  u16 (u32 (u32 (avg * 7) + u32 (visited * FFFS_SECTORS_PER_FILE_Q8_ONE)) / 8).

Section File.
Context `{Backend} `{!IndexCache} `{Fuel}.

(** ** Replaced chains *)

(** The tombstones of one span: sectors [current + i], [n] of them left.
    The result is [None] when a tombstone failed, and otherwise
    [root_accounted]. *)
Fixpoint tombstone_span (n : nat) (slot current i : Z) (root : bool)
    (root_accounted : bool) : M (option bool) :=
  match n with
  | O => ret (Some root_accounted)
  | S n' =>
      let delete := root && (i =? 0) in
      r <- try_ (fffs_tombstone_metadata_for_slot (u16 (current + i)) slot
                   (if delete then FFFS_TOMBSTONE_COMMITTED_DELETE
                    else FFFS_TOMBSTONE_NO_ACCOUNTING)) ;;
      match r with
      | inl _ => ret None
      | inr accounted =>
          tombstone_span n' slot current (i + 1) root
            (if delete then accounted else root_accounted)
      end
  end.

(** The chain walk, [n] extents left; [next] is the next sector when the
    caller knows it.  The result: whether the walk reached the end of the
    chain, the number of sectors visited and [root_accounted]. *)
Fixpoint old_chain_loop (n : nat) (slot current : Z) (next : option Z)
    (root tombstone : bool) (visited : Z) (root_accounted : bool)
  : M (bool * Z * bool) :=
  if current =? 0 then ret (true, visited, root_accounted)
  else match n with
       | O => ret (false, visited, root_accounted)
       | S n' =>
           r <- try_ (fffs_read_md_for_slot current slot) ;;
           match r with
           | inl _ => ret (false, visited, root_accounted)
           | inr record =>
               g <- get_geo ;;
               if sector_count g <? current + md_span_len record
               then ret (false, visited, root_accounted)
               else
                 fffs_alloc_map_mark_range_unknown current
                   (md_span_len record) ;;
                 let visited := visited + md_span_len record in
                 r <- (if tombstone
                       then tombstone_span (Z.to_nat (md_span_len record))
                              slot current 0 root root_accounted
                       else ret (Some root_accounted)) ;;
                 match r with
                 | None => ret (false, visited, root_accounted)
                 | Some root_accounted =>
                     old_chain_loop n' slot (default (md_next record) next)
                       None false tombstone visited root_accounted
                 end
           end
       end.

(** The result and [*root_accounted]. *)
Definition fffs_invalidate_old_chain (slot head next : Z) (tombstone : bool)
  : M (bool * bool) :=
  g <- get_geo ;;
  let* (complete, visited, root_accounted) :=
    old_chain_loop (Z.to_nat (sector_count g)) slot head (Some next) true
      tombstone 0 false in
  if negb complete then ret (false, root_accounted)
  else
    when (0 <? visited)
      (mod_info (fun i =>
         let i := set_avg_sectors_per_file_q8
                    (avg_sectors_update (avg_sectors_per_file_q8 i) visited) i
         in
         set_fsinfo_valid_flags
           (clear_flags (fsinfo_valid_flags i)
              FFFS_FSINFO_METADATA_ESTIMATE_VALID) i)) ;;
    ret (true, root_accounted).

(** The accounting of a released chain, in [fffs_close] and
    [fffs_delete_file]. *)
Definition invalidate_and_account (slot head next : Z) : M unit :=
  let* (_, root_accounted) := fffs_invalidate_old_chain slot head next true in
  mod_info (fun i =>
    if fffs_fsinfo_committed_valid i && negb root_accounted
    then fffs_fsinfo_invalidate_committed i else i).

(** ** Open *)

(** The part of [fffs_open] that fills a read handle. *)
Definition open_reader (file slot head : Z) (root : root_md)
    (cache : fffs_read_cache_view) : M unit :=
  record <- fffs_read_md_for_slot head slot ;;
  mod_file file (fun f =>
    let f := set_f_cache (cv_data cache) f in
    let f := set_f_cache_len (cv_len cache) f in
    let f := set_f_cache_data_pos (cv_data_pos cache) f in
    let f := set_f_data_offset (root_payload_off root) f in
    let f := set_f_size (st_size (root_st root)) f in
    let f := set_f_current head f in
    let f := set_f_current_data_len (root_payload_len root) f in
    let f := set_f_span_len (md_span_len record) f in
    let f := set_f_current_next (root_next root) f in
    set_f_name (st_name (root_st root)) f) ;;
  register_open_file file.

(** The part of [fffs_open] that starts a new file. *)
Definition open_writer (file : Z) (name : list Z) (old_root : option (Z * Z))
  : M unit :=
  (match old_root with
   | Some (head, next) =>
       mod_file file (fun f => set_f_old_next next (set_f_old_head head f))
   | None => ret tt
   end) ;;
  sector <- fffs_alloc_next_sector file ;;
  mod_file file (fun f =>
    let f := set_f_head sector f in
    let f := set_f_current sector f in
    let f := set_f_name name f in
    let f := stage_root_prefix name f in
    let f := set_f_span_head (f_current f) f in
    set_f_span_len 0 f) ;;
  register_open_file file.

Definition fffs_open (file : Z) (name : list Z) (flags : Z) : M unit :=
  put_file file file_zero ;;
  let read := has_flag flags FFFS_O_RDONLY in
  let write := has_flag flags FFFS_O_WRONLY in
  guard_err (Bool.eqb read write ||
             negb (clear_flags flags known_open_flags =? 0))
    FFFS_ERR_INVALID ;;
  rs <- index_resolve name
          (if read
           then Some (mk_cache_view (fill FFFS_FILE_CACHE_SIZE 0)
                        FFFS_FILE_CACHE_SIZE 0 0)
           else None) ;;
  let found := rs_found rs in
  guard_err (read && negb found) FFFS_ERR_NOT_FOUND ;;
  guard_err (write && negb found && negb (has_flag flags FFFS_O_CREATE))
    FFFS_ERR_NOT_FOUND ;;
  guard_err (write && found && has_flag flags FFFS_O_EXCL) FFFS_ERR_EXISTS ;;
  guard_err (write && found && negb (has_flag flags FFFS_O_TRUNC))
    FFFS_ERR_EXISTS ;;
  mod_file file (fun f =>
    let f := set_f_fs true f in
    let f := set_f_flags flags f in
    let f := set_f_slot (rs_slot rs) f in
    set_f_head (rs_head rs) f) ;;
  match read, rs_root rs, rs_cache rs with
  | true, Some root, Some cache =>
      open_reader file (rs_slot rs) (rs_head rs) root cache
  | _, root, _ =>
      open_writer file name
        (match root with
         | Some root => Some (rs_head rs, root_next root)
         | None => None
         end)
  end.

(** ** Seek *)

Definition reset_read_position_to_root (file : Z) : M unit :=
  f <- get_file file ;;
  root <- fffs_read_file_root_md (f_head f) (f_slot f) true None ;;
  mod_file file (fun f =>
    let f := set_f_data_offset (root_payload_off root) f in
    let f := set_f_current (f_head f) f in
    let f := set_f_current_data_len (root_payload_len root) f in
    let f := set_f_span_len (root_span_len root) f in
    let f := set_f_current_next (root_next root) f in
    let f := set_f_current_data_pos 0 f in
    let f := set_f_current_file_offset 0 f in
    let f := set_f_cache_len 0 f in
    set_f_cache_data_pos 0 f).

(** The interpolation search over the sectors of the current span, between
    [low] and [high]; every round narrows the interval, [n] bounds its
    length.  The result is [*found]. *)
Fixpoint hunt_loop (n : nat) (file low high rel estimate target : Z)
  : M bool :=
  if negb (low <=? high) then ret false
  else match n with
       | O => diverge
       | S n' =>
           let guess := u16 (rel / estimate) in
           let guess := if guess <? low then low else guess in
           let guess := if high <? guess then high else guess in
           f <- get_file file ;;
           let sector := u16 (f_current f + guess) in
           record <- fffs_read_md_for_slot sector (f_slot f) ;;
           let file_offset := if md_type record =? FFFS_MD_TYPE_FILE_ROOT_V1
                              then 0 else md_size_or_offset record in
           if target <? file_offset then
             if guess =? 0 then ret false
             else hunt_loop n' file low (u16 (guess - 1)) rel estimate target
           else if target <=? u32 (file_offset + md_data_len record) then
             mod_file file (fun f =>
               set_f_pos target
                 (enter_extent sector file_offset (target - file_offset)
                    record f)) ;;
             ret true
           else hunt_loop n' file (u16 (guess + 1)) high rel estimate target
       end.

Definition hunt_current_span (file target : Z) : M bool :=
  f <- get_file file ;;
  if (f_span_len f <=? 1) ||
     (target <=? u32 (f_current_file_offset f + f_current_data_len f))
  then ret false
  else
    g <- get_geo ;;
    let high := u16 (f_span_len f - 1) in
    let rel := u32 (target - f_current_file_offset f) in
    let estimate := u32 (fffs_max_file_data_size g) in
    let estimate := if estimate =? 0 then 1 else estimate in
    hunt_loop (Z.to_nat high) file 1 high rel estimate target.

(** The chain walk; [n] is the number of extents it may still enter. *)
Fixpoint seek_loop (n : nat) (file target : Z) : M unit :=
  f <- get_file file ;;
  if negb (u32 (f_current_file_offset f + f_current_data_len f) <? target)
  then
    mod_file file (fun f =>
      set_f_pos target
        (set_f_current_data_pos (u32 (target - f_current_file_offset f)) f))
  else
    found_in_span <- hunt_current_span file target ;;
    if (found_in_span : bool) then ret tt
    else
      let next_sector := next_extent_sector f in
      if next_sector =? 0 then fail FFFS_ERR_CORRUPT
      else match n with
           | O => fail FFFS_ERR_CORRUPT
           | S n' =>
               let next_file_offset :=
                 u32 (f_current_file_offset f + f_current_data_len f) in
               record <- fffs_read_md_for_slot next_sector (f_slot f) ;;
               mod_file file
                 (enter_extent next_sector next_file_offset 0 record) ;;
               seek_loop n' file target
           end.

Definition seek_from_current_position (file target : Z) : M unit :=
  g <- get_geo ;;
  seek_loop (Z.to_nat (sector_count g - 1)) file target.

Definition seek_read_position (file target : Z) : M unit :=
  f <- get_file file ;;
  when (target <? f_current_file_offset f)
    (reset_read_position_to_root file) ;;
  seek_from_current_position file target.

Definition seek_base (f : fffs_file) (whence : fffs_seek_whence) : Z :=
  match whence with
  | FFFS_SEEK_SET => 0
  | FFFS_SEEK_CUR => f_pos f
  | FFFS_SEEK_END => f_size f
  end.

(** The result is [*out_pos]. *)
Definition fffs_seek (file offset : Z) (whence : fffs_seek_whence) : M Z :=
  f <- get_file file ;;
  guard_err (f_closed f || negb (has_flag (f_flags f) FFFS_O_RDONLY))
    FFFS_ERR_INVALID ;;
  let target := seek_base f whence + offset in
  guard_err ((target <? 0) || (f_size f <? target)) FFFS_ERR_RANGE ;;
  seek_read_position file target ;;
  f <- get_file file ;;
  ret (f_pos f).

(** ** Read *)

(** A read into [file->cache]: the buffer is overwritten even when the read
    fails. *)
Definition fill_read_cache (file : Z) : M unit :=
  f <- get_file file ;;
  g <- get_geo ;;
  let remaining := f_current_data_len f - f_current_data_pos f in
  let n := if remaining <? FFFS_FILE_CACHE_SIZE then remaining
           else FFFS_FILE_CACHE_SIZE in
  let* (st, buf) :=
    raw_read (f_current f * sector_size g + f_data_offset f +
              f_current_data_pos f) n in
  mod_file file (fun f => set_f_cache (splice 0 buf (f_cache f)) f) ;;
  check st ;;
  mod_file file (fun f =>
    set_f_cache_len n (set_f_cache_data_pos (f_current_data_pos f) f)).

(** The next extent of the chain, entered at its start. *)
Definition read_next_extent (file : Z) : M unit :=
  f <- get_file file ;;
  let next_sector := next_extent_sector f in
  guard_err (next_sector =? 0) FFFS_ERR_CORRUPT ;;
  let next_file_offset :=
    u32 (f_current_file_offset f + f_current_data_len f) in
  record <- fffs_read_md_for_slot next_sector (f_slot f) ;;
  mod_file file (enter_extent next_sector next_file_offset 0 record).

(** The bytes copied by one round, at most [want] of them. *)
Definition read_piece (file want : Z) : M (list Z) :=
  f <- get_file file ;;
  g <- get_geo ;;
  let in_current_data := f_current_data_len f - f_current_data_pos f in
  let n := if want <? in_current_data then want else in_current_data in
  if read_cache_has_remaining f then
    let cache_pos := f_current_data_pos f - f_cache_data_pos f in
    let cached := f_cache_len f - cache_pos in
    let n := if cached <? n then cached else n in
    ret (sublist cache_pos n (f_cache f))
  else if n <? FFFS_FILE_CACHE_SIZE then
    fill_read_cache file ;;
    f <- get_file file ;;
    let n := if want <? f_cache_len f then want else f_cache_len f in
    ret (sublist 0 n (f_cache f))
  else
    mod_file file (set_f_cache_len 0) ;;
    fffs_flash_read (f_current f * sector_size g + f_data_offset f +
                     f_current_data_pos f) n.

(** [want] bytes left to copy, after [acc].  An extent may hold no data, so
    the rounds are bounded by [fuel]. *)
Fixpoint read_loop (n : nat) (file want : Z) (acc : list Z) : M (list Z) :=
  if negb (0 <? want) then ret acc
  else match n with
       | O => diverge
       | S n' =>
           f <- get_file file ;;
           when (f_current_data_len f <=? f_current_data_pos f)
             (read_next_extent file) ;;
           piece <- read_piece file want ;;
           let k := zlen piece in
           mod_file file (fun f =>
             set_f_pos (u32 (f_pos f + k))
               (set_f_current_data_pos (u32 (f_current_data_pos f + k)) f)) ;;
           read_loop n' file (want - k) (acc ++ piece)
       end.

(** The bytes read; [*out_read] is their number. *)
Definition fffs_read (file size : Z) : M (list Z) :=
  f <- get_file file ;;
  guard_err (f_closed f || negb (has_flag (f_flags f) FFFS_O_RDONLY))
    FFFS_ERR_INVALID ;;
  let remaining := u32 (f_size f - f_pos f) in
  let want := if size <? remaining then size else remaining in
  read_loop fuel file want [].

(** ** Write *)

(** The padding of the last granule; [memset] runs past the end of the cache
    when the padded length exceeds it, and then [splice] grows the buffer. *)
Definition pad_write_cache (n : Z) (f : fffs_file) : fffs_file :=
  set_f_cache (splice (f_cache_len f) (fill (n - f_cache_len f) 0xff)
                 (f_cache f)) f.

(** The number of bytes [flush_write_cache] programs. *)
Definition flush_len (granule cache_len : Z) (final : bool) : Z :=
  let n := cache_len - cache_len mod granule in
  if final && negb (n =? cache_len)
  then (cache_len + granule - 1) / granule * granule else n.

(** The cache after [n] bytes were programmed. *)
Definition drop_flushed (n : Z) (f : fffs_file) : fffs_file :=
  let f := set_f_current_write_offset
             (u16 (f_current_write_offset f + n)) f in
  let len := f_cache_len f in
  let f := if n <? len
           then set_f_cache (splice 0 (sublist n (len - n) (f_cache f))
                               (f_cache f)) f
           else f in
  set_f_cache_len (len - (if n <? len then n else len)) f.

Definition flush_write_cache (file : Z) (final : bool) : M unit :=
  f <- get_file file ;;
  let granule := be_granule in
  if f_cache_len f =? 0 then ret tt
  else if negb final && (f_cache_len f <? granule) then ret tt
  else
    let n := flush_len granule (f_cache_len f) final in
    when (final && negb (f_cache_len f mod granule =? 0))
      (mod_file file (pad_write_cache n)) ;;
    if n =? 0 then ret tt
    else
      f <- get_file file ;;
      g <- get_geo ;;
      fffs_flash_program_aligned
        (f_current f * sector_size g + f_current_write_offset f)
        (sublist 0 n (f_cache f)) ;;
      mod_file file (drop_flushed n).

Definition flush_pending_span_head (file next_sector : Z) (final : bool)
  : M unit :=
  f <- get_file file ;;
  if f_span_head f =? 0 then ret tt
  else
    let is_root := f_span_head f =? f_head f in
    let span_len := pending_span_len f in
    (if is_root && negb final
     then fffs_finish_extent_metadata file (f_span_head f) next_sector
            span_len 0 false false false
     else fffs_finish_extent_metadata file (f_span_head f) next_sector
            span_len (f_size f) is_root true is_root) ;;
    mod_file file (set_f_span_head 0).

(** The record of the extent being left or closed: reserved when the extent
    heads the pending span, written live otherwise. *)
Definition write_current_extent (file : Z) (f : fffs_file) (next : Z)
  : M unit :=
  if f_current f =? f_span_head f
  then fffs_begin_extent_metadata file (f_current f) (f_data_offset f)
         (f_current_metadata_offset f) (f_current_needs_footer f)
         (f_current_data_len f) (f_current_file_offset f)
  else fffs_write_extent_metadata file (f_current f) (f_data_offset f)
         (f_current_metadata_offset f) (f_current_needs_footer f)
         (f_current_data_len f) 1 0 next (f_current_file_offset f) false.

Definition start_next_extent (file : Z) : M unit :=
  flush_write_cache file true ;;
  old <- get_file file ;;
  next_sector <- fffs_alloc_next_sector file ;;
  f <- get_file file ;;
  let can_extend_span :=
    (next_sector =? f_current old + 1) && (pending_span_len f <? UINT16_MAX)
  in
  let next_file_offset :=
    u32 (f_current_file_offset old + f_current_data_len old) in
  write_current_extent file old next_sector ;;
  when (negb can_extend_span)
    (flush_pending_span_head file next_sector false) ;;
  mod_file file (fun f =>
    let f := set_f_current next_sector f in
    let f := set_f_current_data_len 0 f in
    let f := set_f_current_next 0 f in
    let f := set_f_current_file_offset next_file_offset f in
    let f := set_f_cache_len 0 f in
    if can_extend_span then f
    else set_f_span_len 0 (set_f_span_head (f_current f) f)).

(** The handle after [chunk] was copied into its cache. *)
Definition stage_bytes (chunk : list Z) (f : fffs_file) : fffs_file :=
  let n := zlen chunk in
  let f := set_f_cache (splice (f_cache_len f) chunk (f_cache f)) f in
  let f := set_f_cache_len (f_cache_len f + n) f in
  let f := set_f_current_data_len (u16 (f_current_data_len f + n)) f in
  set_f_size (u32 (f_size f + n)) f.

(** The number of bytes one round of the write loop stages. *)
Definition write_chunk_len (f : fffs_file) (remaining : Z) : Z :=
  let extent_space := current_extent_capacity f - f_current_data_len f in
  let buffer_space := FFFS_FILE_CACHE_SIZE - f_cache_len f in
  let space := if extent_space <? buffer_space then extent_space
               else buffer_space in
  if remaining <? space then remaining else space.

Fixpoint write_loop (n : nat) (file : Z) (src : list Z) : M unit :=
  match src with
  | [] => ret tt
  | _ :: _ =>
      match n with
      | O => diverge
      | S n' =>
          f <- get_file file ;;
          when (current_extent_capacity f <=? f_current_data_len f)
            (start_next_extent file) ;;
          f <- get_file file ;;
          let k := write_chunk_len f (zlen src) in
          mod_file file (stage_bytes (sublist 0 k src)) ;;
          f <- get_file file ;;
          when (f_cache_len f =? FFFS_FILE_CACHE_SIZE)
            (flush_write_cache file false) ;;
          write_loop n' file (drop (Z.to_nat k) src)
      end
  end.

Definition fffs_write (file : Z) (buffer : list Z) : M unit :=
  f <- get_file file ;;
  guard_err (f_closed f || negb (has_flag (f_flags f) FFFS_O_WRONLY))
    FFFS_ERR_INVALID ;;
  write_loop fuel file buffer.

(** ** fstat and close *)

Definition fffs_fstat (file : Z) : M fffs_stat :=
  f <- get_file file ;;
  guard_err (f_closed f) FFFS_ERR_INVALID ;;
  if has_flag (f_flags f) FFFS_O_WRONLY
  then ret (mk_stat (f_name f) (f_size f))
  else
    root <- fffs_read_file_root_md (f_head f) (f_slot f) true None ;;
    ret (root_st root).

(** The old chain, looked up again when compaction moved the old root and
    its sector became the new root's. *)
Definition refresh_old_chain (file : Z) : M unit :=
  f <- get_file file ;;
  let* (current_old_head, found) := index_head_for_slot (f_slot f) in
  if (found : bool) then
    root <- fffs_read_file_root_md current_old_head (f_slot f) false None ;;
    mod_file file (fun f =>
      set_f_old_next (root_next root) (set_f_old_head current_old_head f))
  else mod_file file (set_f_old_head 0).

(** The commit of a written file.  The status of [refresh_old_chain] is
    overwritten by that of [flush_pending_span_head]. *)
Definition close_writer (file : Z) : M unit :=
  flush_write_cache file true ;;
  f <- get_file file ;;
  write_current_extent file f 0 ;;
  f <- get_file file ;;
  let root_deferred := negb (f_current f =? f_head f) &&
                       negb (f_span_head f =? f_head f) in
  when (f_old_head f =? f_head f) (ignore (refresh_old_chain file)) ;;
  flush_pending_span_head file 0 true ;;
  when root_deferred (fffs_finish_deferred_root_metadata file) ;;
  f <- get_file file ;;
  mod_info (fffs_fsinfo_note_committed_add (f_size f)) ;;
  when (negb (f_old_head f =? 0))
    (invalidate_and_account (f_slot f) (f_old_head f) (f_old_next f)).

Definition fffs_close (file : Z) : M unit :=
  f <- get_file file ;;
  guard_err (f_closed f) FFFS_ERR_INVALID ;;
  r <- (if has_flag (f_flags f) FFFS_O_WRONLY then
          r <- try_ (close_writer file) ;;
          fffs_alloc_release_reservation file ;;
          ret r
        else ret (inr tt)) ;;
  unregister_open_file file ;;
  mod_file file (set_f_closed true) ;;
  match r with
  | inl err => fail err
  | inr _ => ret tt
  end.
End File.
