(* ===== verification/WriteSpec.v ===== *)
(** * Writing an extent

    What the write path of [src/fffs_file.c] promises while a file stays in
    one extent: the bytes already programmed and the bytes still in the
    handle's cache are together the bytes written so far, and flushing moves
    bytes from one to the other. *)

From S2P Require Export File HashIndex.

(** ** The number of bytes a flush programs *)

Lemma div_round_up a b : 0 < b -> (a + b - 1) / b * b = a + (- a) mod b.
Proof.
  intros Hb. pose proof (Z.div_mod (a + b - 1) b).
  pose proof (Z.mod_pos_bound (a + b - 1) b Hb).
  assert (Hm : (- a) mod b = b - 1 - (a + b - 1) mod b).
  { symmetry. apply Z.mod_unique_pos with (q := - ((a + b - 1) / b)); lia. }
  lia.
Qed.

Lemma flush_len_final g len :
  0 < g -> 0 <= len -> flush_len g len true = len + (- len) mod g.
Proof.
  intros Hg Hl. unfold flush_len. pose proof (Z.mod_pos_bound len g Hg).
  destruct (Z.eqb_spec (len - len mod g) len) as [He | Hne]; cbn [negb andb].
  - assert (H0 : len mod g = 0) by lia.
    rewrite (Z_mod_zero_opp_full _ _ H0). lia.
  - by apply div_round_up.
Qed.

Lemma flush_len_partial g len : flush_len g len false = len - len mod g.
Proof. done. Qed.

Section WriteSpec.
Context `{Backend} `{!NorFlash} `{!ValidBackend} (g : fs_geometry) `{!GeoOk g}.
Context `{!IndexCache} `{Fuel}.

(** Where the extent starts in the image, and the length of the root prefix. *)
Definition extent_base (f : fffs_file) : Z :=
  f_current f * sector_size g + f_data_offset f.

Definition prefix_len (f : fffs_file) : Z :=
  if f_current f =? f_head f then f_root_payload_offset f else 0.

Definition flushed_len (f : fffs_file) : Z :=
  f_current_write_offset f - f_data_offset f.

(** The bytes of the extent written so far. *)
Definition staged (m : Z -> Z) (f : fffs_file) : list Z :=
  mem_bytes m (extent_base f) (flushed_len f) ++
  sublist 0 (f_cache_len f) (f_cache f).

(** A handle that writes in an extent of erased flash.  The padding of the last
    granule stays inside the device when the writes are aligned, and when it
    is shorter than the record and the footer above them. *)
Record writer (m : Z -> Z) (f : fffs_file) : Prop := {
  wr_cache : zlen (f_cache f) = FFFS_FILE_CACHE_SIZE;
  wr_cache_len : 0 <= f_cache_len f <= FFFS_FILE_CACHE_SIZE;
  wr_bytes : is_bytes (f_cache f);
  wr_sector : 0 <= f_current f < sector_count g;
  wr_offset : 0 <= f_data_offset f <= f_current_write_offset f;
  wr_aligned : (f_current f * sector_size g + f_current_write_offset f)
    mod be_granule = 0 \/
    be_granule <= FFFS_SECTOR_FOOTER_SIZE + FFFS_MD_FILE_RECORD_SIZE;
  wr_total : flushed_len f + f_cache_len f =
    prefix_len f + f_current_data_len f;
  wr_room : f_data_offset f + prefix_len f + f_current_data_len f <=
    f_current_metadata_offset f;
  wr_record : f_current_metadata_offset f <=
    sector_size g - FFFS_SECTOR_FOOTER_SIZE - FFFS_MD_FILE_RECORD_SIZE;
  wr_u16 : is_u16 (f_current_metadata_offset f);
  wr_data_len : 0 <= f_current_data_len f;
  wr_prefix : 0 <= prefix_len f;
  wr_erased : erased_span m
    (f_current f * sector_size g + f_current_write_offset f)
    (f_current_metadata_offset f - f_current_write_offset f);
}.

(** Two handles that differ in what the write path changes. *)
Definition write_frame (f : fffs_file) : fffs_file :=
  set_f_cache [] (set_f_cache_len 0 (set_f_current_write_offset 0
    (set_f_current_data_len 0 (set_f_size 0 f)))).

(** A step of the write path on the handle [id]: the device and the handle
    change, the file system structure and the other handles do not. *)
Record write_step (id : Z) (w w' : world) : Prop := {
  ws_ok : flash_ok w';
  ws_fs : w_fs w' = w_fs w;
  ws_files : forall j, j <> id -> w_files w' !! j = w_files w !! j;
  ws_handle : write_frame (file_of (w_files w') id) =
    write_frame (file_of (w_files w) id);
  ws_mem : forall a, ~ (extent_base (file_of (w_files w) id) <= a <
      f_current (file_of (w_files w) id) * sector_size g +
      f_current_metadata_offset (file_of (w_files w) id)) ->
    mem w' a = mem w a;
}.

Lemma write_frame_fields f f' :
  write_frame f' = write_frame f ->
  f_current f' = f_current f /\ f_data_offset f' = f_data_offset f /\
  f_current_metadata_offset f' = f_current_metadata_offset f /\
  prefix_len f' = prefix_len f.
Proof.
  intros Heq. assert (Hc : f_current f' = f_current f) by exact (f_equal f_current Heq).
  assert (Hh : f_head f' = f_head f) by exact (f_equal f_head Heq).
  assert (Hp : f_root_payload_offset f' = f_root_payload_offset f)
    by exact (f_equal f_root_payload_offset Heq).
  split; [done |]. split; [exact (f_equal f_data_offset Heq) |].
  split; [exact (f_equal f_current_metadata_offset Heq) |].
  unfold prefix_len. by rewrite Hc, Hh, Hp.
Qed.

Lemma write_step_refl id w : flash_ok w -> write_step id w w.
Proof. by split. Qed.

Lemma write_step_trans id w1 w2 w3 :
  write_step id w1 w2 -> write_step id w2 w3 -> write_step id w1 w3.
Proof.
  intros [Hok1 Hfs1 Hfl1 Hh1 Hm1] Hst.
  pose proof (write_frame_fields _ _ Hh1) as (Hc & Hd & Hm & _).
  split; [apply Hst | | | |].
  - by rewrite (ws_fs _ _ _ Hst).
  - intros j Hj. rewrite (ws_files _ _ _ Hst) by done. auto.
  - by rewrite (ws_handle _ _ _ Hst).
  - intros a Ha. rewrite (ws_mem _ _ _ Hst); [by apply Hm1 |].
    unfold extent_base in *. by rewrite Hc, Hd, Hm.
Qed.

Lemma mem_bytes_split m off a b :
  0 <= a -> 0 <= b ->
  mem_bytes m off (a + b) = mem_bytes m off a ++ mem_bytes m (off + a) b.
Proof.
  intros Ha Hb. apply list_eq_byte_at.
  - rewrite zlen_app, !zlen_mem_bytes; lia.
  - rewrite zlen_mem_bytes by lia. intros i Hi.
    destruct (Z.lt_ge_cases i a).
    + rewrite byte_at_app_l by (rewrite zlen_mem_bytes; lia).
      by rewrite !byte_at_mem_bytes by lia.
    + rewrite byte_at_app_r by (rewrite zlen_mem_bytes; lia).
      rewrite zlen_mem_bytes by lia. rewrite !byte_at_mem_bytes by lia.
      f_equal. lia.
Qed.

(** The cache after a flush of [n] bytes. *)
Lemma drop_flushed_cache n f :
  zlen (f_cache f) = FFFS_FILE_CACHE_SIZE -> 0 < n <= f_cache_len f ->
  f_cache_len f <= FFFS_FILE_CACHE_SIZE -> is_bytes (f_cache f) ->
  zlen (f_cache (drop_flushed n f)) = FFFS_FILE_CACHE_SIZE /\
  is_bytes (f_cache (drop_flushed n f)) /\
  f_cache_len (drop_flushed n f) = f_cache_len f - n /\
  sublist 0 (f_cache_len f - n) (f_cache (drop_flushed n f)) =
    sublist n (f_cache_len f - n) (f_cache f).
Proof.
  intros Hz Hn Hl Hb. set (len := f_cache_len f) in *.
  assert (Hp : zlen (sublist n (len - n) (f_cache f)) = len - n)
    by (apply zlen_sublist; lia).
  unfold drop_flushed. fold len. cbn [f_cache_len set_f_current_write_offset].
  fold len. destruct (Z.ltb_spec n len) as [Hlt | Hge]; cbn [f_cache f_cache_len
    set_f_cache set_f_cache_len set_f_current_write_offset].
  - split; [rewrite zlen_splice; rewrite ?Hp; lia |].
    split; [apply Forall_splice; [by apply Forall_sublist | done] |].
    split; [done |]. apply list_eq_byte_at.
    + rewrite !zlen_sublist; rewrite ?zlen_splice; rewrite ?Hp; lia.
    + intros i. rewrite zlen_sublist by (rewrite ?zlen_splice; rewrite ?Hp; lia).
      intros Hi. rewrite byte_at_sublist, byte_at_splice by (rewrite ?Hp; lia).
      rewrite Hp. destruct (Z.leb_spec 0 (0 + i)), (Z.ltb_spec (0 + i) (0 + (len - n)));
        simpl; try lia. f_equal. lia.
  - split; [done |]. split; [done |]. split; [lia |].
    by replace (len - n) with 0 by lia.
Qed.

Lemma drop_flushed_fields n f :
  write_frame (drop_flushed n f) = write_frame f /\
  f_current_data_len (drop_flushed n f) = f_current_data_len f /\
  f_size (drop_flushed n f) = f_size f /\
  f_current_write_offset (drop_flushed n f) = u16 (f_current_write_offset f + n).
Proof. unfold drop_flushed. cbv zeta. by destruct (n <? _). Qed.

Lemma drop_flushed_all n f :
  f_cache_len f <= n -> f_cache_len (drop_flushed n f) = 0.
Proof.
  intros Hn. unfold drop_flushed. cbn. destruct (Z.ltb_spec n (f_cache_len f));
    cbn; lia.
Qed.

(** Programming the first [n] bytes of the cache moves them to the flash. *)
Lemma drop_flushed_writer m m' n f :
  (forall a, is_u8 (m a)) -> writer m f -> 0 < n <= f_cache_len f ->
  n mod be_granule = 0 ->
  (forall a, m' a = mem_program m
     (f_current f * sector_size g + f_current_write_offset f)
     (sublist 0 n (f_cache f)) a) ->
  writer m' (drop_flushed n f) /\ staged m' (drop_flushed n f) = staged m f.
Proof.
  intros Hm Hw Hn Hng Hm'. destruct Hw as [Hc Hcl Hb Hs Ho Hal Htot Hroom Hrec Hu Hdl
    Hpre Her].
  destruct (drop_flushed_cache n f Hc Hn ltac:(lia) Hb) as (Hc' & Hb' & Hl' & Hsub).
  destruct (drop_flushed_fields n f) as (Hfr & Hdl' & _ & Hwo').
  destruct (write_frame_fields _ _ Hfr) as (Hcur & Hdo & Hmo & Hpl).
  unfold flushed_len in Htot. unfold is_u16 in Hu.
  rewrite u16_small in Hwo' by (unfold is_u16; lia).
  set (p := f_current f * sector_size g + f_current_write_offset f) in *.
  assert (Hz : zlen (sublist 0 n (f_cache f)) = n) by (apply zlen_sublist; lia).
  pose proof granule_pos as Hg. split.
  - split; rewrite ?Hl', ?Hcur, ?Hdo, ?Hmo, ?Hpl, ?Hdl', ?Hwo'; try done; try lia.
    + replace (_ + (_ + n)) with (p + n) by lia.
      destruct Hal as [Hal |]; [left | by right].
      rewrite Z.add_mod, Hal, Hng by lia. apply Z.mod_0_l. lia.
    + unfold flushed_len. rewrite Hdo, Hwo'. lia.
    + intros a Ha. rewrite Hm', mem_program_out by (rewrite Hz; lia).
      apply Her. lia.
  - unfold staged, extent_base, flushed_len. rewrite Hcur, Hdo, Hwo', Hl', Hsub.
    replace (f_current_write_offset f + n - f_data_offset f) with
      (f_current_write_offset f - f_data_offset f + n) by lia.
    rewrite mem_bytes_split by lia. rewrite <- app_assoc. f_equal.
    + apply mem_bytes_ext. intros a Ha. rewrite Hm'. apply mem_program_out. lia.
    + replace (_ + _ + (_ - _)) with p by lia.
      rewrite <- Hz at 1.
      rewrite (mem_bytes_ext m' (mem_program m p (sublist 0 n (f_cache f)))) by auto.
      rewrite program_erased.
      * pose proof (sublist_app_split 0 n (f_cache_len f - n) (f_cache f)) as Hs'.
        rewrite Z.add_0_l in Hs'. rewrite Hs' by lia. f_equal. lia.
      * rewrite Hz. intros a Ha. apply Her. lia.
      * by apply Forall_sublist.
Qed.

(** ** Flushing without padding *)

Lemma wp_flush id w (Q : unit -> world -> Prop) E :
  let f := file_of (w_files w) id in
  fs_geo (w_fs w) = g -> flash_ok w -> writer (mem w) f ->
  (forall w', write_step id w w' ->
     writer (mem w') (file_of (w_files w') id) ->
     staged (mem w') (file_of (w_files w') id) = staged (mem w) f ->
     f_cache_len (file_of (w_files w') id) = f_cache_len f mod be_granule ->
     f_current_data_len (file_of (w_files w') id) = f_current_data_len f ->
     f_size (file_of (w_files w') id) = f_size f -> Q tt w') ->
  wp (flush_write_cache id false) Q E w.
Proof.
  intros f Hgeo Hok Hw HQ. pose proof granule_pos as Hg. pose proof granule_le as Hgl.
  unfold flush_write_cache. apply wp_bind, wp_get_file. fold f.
  pose proof (wr_cache_len _ _ Hw) as Hlen.
  pose proof (Z.mod_pos_bound (f_cache_len f) be_granule Hg) as Hmod.
  pose proof (Z.mod_le (f_cache_len f) be_granule) as Hmle.
  assert (Hsame : f_cache_len f mod be_granule = f_cache_len f -> Q tt w).
  { intros Heq. by apply HQ. }
  destruct (Z.eqb_spec (f_cache_len f) 0) as [H0' | Hn0].
  { apply wp_ret, Hsame. by rewrite H0', Z.mod_0_l by lia. }
  cbn [negb andb]. destruct (Z.ltb_spec (f_cache_len f) be_granule) as [Hlt | Hge].
  { apply wp_ret, Hsame, Z.mod_small. lia. }
  rewrite flush_len_partial. set (n := f_cache_len f - f_cache_len f mod be_granule).
  apply wp_bind, wp_when; [done | intros _].
  destruct (Z.eqb_spec n 0) as [Hz | Hn]; [unfold n in Hz; lia |].
  apply wp_bind, wp_get_file. fold f. apply wp_bind, wp_get_geo. rewrite Hgeo.
  assert (Hn2 : 0 < n <= f_cache_len f) by (unfold n; lia).
  pose proof (wr_cache _ _ Hw). pose proof (wr_total _ _ Hw) as Htot.
  pose proof (wr_room _ _ Hw). pose proof (wr_record _ _ Hw).
  pose proof (wr_offset _ _ Hw). pose proof (wr_sector _ _ Hw).
  unfold flushed_len in Htot.
  set (p := f_current f * sector_size g + f_current_write_offset f).
  destruct (sector_in_device (f_current f) (f_current_write_offset f) n) as [Hd1 Hd2];
    [lia.. |]. fold p in Hd1, Hd2.
  assert (Hchunk : zlen (sublist 0 n (f_cache f)) = n)
    by (apply zlen_sublist; lia).
  apply wp_bind, wp_program_aligned; rewrite ?Hchunk;
    [done | lia | lia | apply Forall_sublist, Hw |].
  intros w1 Hw1. apply wp_mod_file. rewrite (fi_files _ _ _ Hw1). fold f.
  set (f' := drop_flushed n f). set (w2 := mk_world _ _ _).
  assert (Hf' : file_of (w_files w2) id = f')
    by (unfold w2; cbn [w_files]; by rewrite file_of_insert).
  assert (Hm2 : forall a, mem w2 a = mem_program (mem w) p (sublist 0 n (f_cache f)) a)
    by (intros a; apply (fi_mem _ _ _ Hw1)).
  assert (Hng : n mod be_granule = 0).
  { unfold n. rewrite Zminus_mod_idemp_r, Z.sub_diag. apply Z.mod_0_l. lia. }
  destruct (drop_flushed_writer (mem w) (mem w2) n f) as [Hw2 Hst2]; try done.
  { intros a. by apply mem_u8. }
  destruct (drop_flushed_fields n f) as (Hfr & Hdl & Hsz & _).
  apply HQ; rewrite ?Hf'; try done.
  - split; [apply Hw1 | apply Hw1 | | by rewrite Hf' |].
    + intros j Hj. unfold w2. cbn [w_files]. by rewrite lookup_insert_ne.
    + intros a Ha. fold f in Ha. rewrite Hm2. apply mem_program_out.
      rewrite Hchunk. unfold extent_base, p in *. lia.
  - unfold f'. destruct (drop_flushed_cache n f) as (_ & _ & -> & _);
      [done | lia | lia | apply Hw |]. unfold n. lia.
Qed.
(** ** Staging bytes *)

Lemma capacity_writer m f :
  writer m f ->
  current_extent_capacity f =
    f_current_metadata_offset f - f_data_offset f - prefix_len f.
Proof.
  intros Hw. unfold current_extent_capacity. fold (prefix_len f).
  pose proof (wr_room _ _ Hw). pose proof (wr_data_len _ _ Hw).
  destruct (Z.leb_spec (f_current_metadata_offset f) (f_data_offset f + prefix_len f));
    lia.
Qed.

Lemma stage_writer m f chunk :
  writer m f -> is_bytes chunk ->
  f_cache_len f + zlen chunk <= FFFS_FILE_CACHE_SIZE ->
  f_current_data_len f + zlen chunk <= current_extent_capacity f ->
  is_u32 (f_size f + zlen chunk) ->
  let f' := stage_bytes chunk f in
  writer m f' /\ staged m f' = staged m f ++ chunk /\
  write_frame f' = write_frame f /\
  f_cache_len f' = f_cache_len f + zlen chunk /\
  f_current_data_len f' = f_current_data_len f + zlen chunk /\
  f_size f' = f_size f + zlen chunk.
Proof.
  intros Hw Hcb Hfit Hcap Hsz f'. rewrite (capacity_writer m) in Hcap by done.
  destruct Hw as [Hc Hcl Hb Hs Ho Hal Htot Hroom Hrec Hu Hdl Hpre Her].
  pose proof (zlen_nonneg chunk) as Hnn. unfold is_u16, flushed_len in *.
  assert (Hdl' : f_current_data_len f' = f_current_data_len f + zlen chunk)
    by (apply u16_small; unfold is_u16; lia).
  assert (Hsz' : f_size f' = f_size f + zlen chunk) by by apply u32_small.
  assert (Hcl' : f_cache_len f' = f_cache_len f + zlen chunk) by done.
  assert (Hc' : f_cache f' = splice (f_cache_len f) chunk (f_cache f)) by done.
  split; [| split; [| by repeat split]].
  - split; rewrite ?Hdl', ?Hcl', ?Hc'; try done;
      try (change (prefix_len f') with (prefix_len f); simpl; lia).
    + rewrite zlen_splice by lia. done.
    + by apply Forall_splice.
    + unfold flushed_len. change (prefix_len f') with (prefix_len f). simpl. lia.
  - unfold staged. change (extent_base f') with (extent_base f).
    change (flushed_len f') with (flushed_len f). rewrite <- app_assoc. f_equal.
    rewrite Hcl', Hc'. apply list_eq_byte_at.
    + rewrite zlen_app, !zlen_sublist; rewrite ?zlen_splice; lia.
    + intros i. rewrite zlen_sublist by (rewrite ?zlen_splice; lia). intros Hi.
      rewrite byte_at_sublist, byte_at_splice by lia. rewrite Z.add_0_l.
      destruct (Z.leb_spec (f_cache_len f) i),
        (Z.ltb_spec i (f_cache_len f + zlen chunk)); simpl; try lia.
      * rewrite byte_at_app_r by (rewrite zlen_sublist; lia).
        by rewrite zlen_sublist by lia.
      * rewrite byte_at_app_l by (rewrite zlen_sublist; lia).
        by rewrite byte_at_sublist by lia.
Qed.

(** ** The write loop within the extent *)

Lemma wp_write_loop n id src w (Q : unit -> world -> Prop) E :
  let f := file_of (w_files w) id in
  fs_geo (w_fs w) = g -> flash_ok w -> writer (mem w) f ->
  f_cache_len f < FFFS_FILE_CACHE_SIZE -> is_bytes src ->
  zlen src <= Z.of_nat n ->
  f_current_data_len f + zlen src <= current_extent_capacity f ->
  is_u32 (f_size f + zlen src) -> 0 <= f_size f ->
  (forall w', let f' := file_of (w_files w') id in
     write_step id w w' -> writer (mem w') f' ->
     staged (mem w') f' = staged (mem w) f ++ src ->
     f_cache_len f' < FFFS_FILE_CACHE_SIZE ->
     f_current_data_len f' = f_current_data_len f + zlen src ->
     f_size f' = f_size f + zlen src -> Q tt w') ->
  wp (write_loop n id src) Q E w.
Proof.
  intros f. revert src w f.
  induction n as [|n IH]; intros src w f Hgeo Hok Hw Hcl Hb Hn Hcap Hsz Hsz0 HQ;
    destruct src as [| b src].
  1, 3: apply wp_ret, HQ; try done; rewrite ?app_nil_r, ?zlen_nil, ?Z.add_0_r; done.
  { rewrite zlen_cons in Hn. pose proof (zlen_nonneg src). lia. }
  set (l := b :: src) in *.
  assert (Hl : 0 < zlen l)
    by (unfold l; rewrite zlen_cons; pose proof (zlen_nonneg src); lia).
  unfold l at 1. cbn [write_loop]. fold l.
  apply wp_bind, wp_get_file. fold f. apply wp_bind, wp_when.
  { rewrite Z.leb_le. lia. }
  intros _. apply wp_bind, wp_get_file. fold f.
  pose proof (wr_cache_len _ _ Hw) as Hlen. pose proof (wr_data_len _ _ Hw) as Hdl.
  set (k := write_chunk_len f (zlen l)).
  assert (Hk : k = Z.min (zlen l) (256 - f_cache_len f)).
  { unfold k, write_chunk_len.
    destruct (Z.ltb_spec (current_extent_capacity f - f_current_data_len f)
      (256 - f_cache_len f)) as [H1' | H1'].
    - destruct (Z.ltb_spec (zlen l) (current_extent_capacity f - f_current_data_len f));
        lia.
    - destruct (Z.ltb_spec (zlen l) (256 - f_cache_len f)); lia. }
  assert (Hck : zlen (sublist 0 k l) = k) by (apply zlen_sublist; lia).
  unfold is_u32 in Hsz.
  destruct (stage_writer (mem w) f (sublist 0 k l)) as (Hw1 & Hst1 & Hfr1 & Hcl1 & Hdl1 & Hsz1);
    [done | by apply Forall_sublist | lia | lia | unfold is_u32; lia |].
  apply wp_bind, wp_mod_file. fold f. set (f1 := stage_bytes (sublist 0 k l) f) in *.
  set (w1 := mk_world _ _ _).
  assert (Hf1 : file_of (w_files w1) id = f1)
    by (unfold w1; cbn [w_files]; by rewrite file_of_insert).
  assert (Hstep1 : write_step id w w1).
  { split; [done | done | | by rewrite Hf1 | done].
    intros j Hj. unfold w1. cbn [w_files]. by rewrite lookup_insert_ne. }
  apply wp_bind, wp_get_file. rewrite Hf1.
  assert (Hrest : zlen (drop (Z.to_nat k) l) = zlen l - k)
    by (unfold zlen in *; rewrite length_drop; lia).
  assert (Hsplit : sublist 0 k l ++ drop (Z.to_nat k) l = l)
    by (unfold sublist; rewrite drop_0; apply take_drop).
  assert (Hgo : forall w2, write_step id w w2 ->
    let f2 := file_of (w_files w2) id in
    writer (mem w2) f2 -> staged (mem w2) f2 = staged (mem w) f ++ sublist 0 k l ->
    f_cache_len f2 < 256 -> f_current_data_len f2 = f_current_data_len f + k ->
    f_size f2 = f_size f + k ->
    wp (write_loop n id (drop (Z.to_nat k) l)) Q E w2).
  { intros w2 Hstep2 f2 Hw2 Hst2 Hcl2 Hdl2 Hsz2.
    destruct (write_frame_fields _ _ (ws_handle _ _ _ Hstep2)) as (Hc2 & Hd2 & Hm2 & Hp2).
    fold f2 f in Hc2, Hd2, Hm2, Hp2.
    apply IH; fold f2; try done.
    - by rewrite (ws_fs _ _ _ Hstep2).
    - apply Hstep2.
    - unfold is_bytes. by apply Forall_drop.
    - rewrite Hrest. lia.
    - rewrite (capacity_writer _ _ Hw2), Hd2, Hm2, Hp2, Hrest, Hdl2.
      rewrite (capacity_writer _ _ Hw) in Hcap. lia.
    - rewrite Hrest, Hsz2. unfold is_u32. lia.
    - lia.
    - intros w3 f3 Hstep3 Hw3 Hst3 Hcl3 Hdl3 Hsz3. apply HQ; try done.
      + by eapply write_step_trans.
      + fold f3. rewrite Hst3. fold f2. by rewrite Hst2, <- app_assoc, Hsplit.
      + fold f3. rewrite Hdl3, Hrest, Hdl2. lia.
      + fold f3. rewrite Hsz3, Hrest, Hsz2. lia. }
  apply wp_bind, wp_when; [rewrite Z.eqb_eq | rewrite Z.eqb_neq]; intros Hfull.
  - apply wp_flush; rewrite ?Hf1; [done | done | done |].
    intros w2 Hstep2 Hw2 Hst2 Hcl2 Hdl2 Hsz2. apply Hgo; try done.
    + by eapply write_step_trans.
    + rewrite Hst2. apply Hst1.
    + rewrite Hcl2, Hfull. pose proof granule_pos. pose proof granule_le.
      pose proof (Z.mod_pos_bound 256 be_granule). lia.
    + rewrite Hdl2, Hdl1, Hck. done.
    + rewrite Hsz2, Hsz1, Hck. done.
  - apply Hgo; rewrite ?Hf1; try done; try lia.
Qed.
(** ** The final flush *)

Lemma round_up_fits p len :
  0 <= p -> 0 <= len -> p mod be_granule = 0 -> p + len <= be_size ->
  p + (len + (- len) mod be_granule) <= be_size.
Proof.
  intros Hp Hl Hpm Hfit. pose proof granule_pos as Hg. pose proof size_granule as Hs.
  assert (Hq : (len + (- len) mod be_granule) mod be_granule = 0).
  { rewrite Z.add_mod_idemp_r by lia. rewrite Z.add_opp_diag_r.
    apply Z.mod_0_l. lia. }
  pose proof (Z.mod_pos_bound (- len) be_granule Hg).
  apply Z.mod_divide in Hpm as [a Ha]; [| lia].
  apply Z.mod_divide in Hq as [b Hb]; [| lia].
  apply Z.mod_divide in Hs as [c Hc]; [| lia].
  assert (Hlt : (a + b - c) * be_granule < 1 * be_granule) by lia.
  apply Z.mul_lt_mono_pos_r in Hlt; [| done].
  assert (Hle : (a + b) * be_granule <= c * be_granule)
    by (apply Z.mul_le_mono_nonneg_r; lia).
  lia.
Qed.

Lemma round_up_cache len :
  256 mod be_granule = 0 -> 0 <= len <= 256 ->
  len + (- len) mod be_granule <= 256.
Proof.
  intros Hd Hl. pose proof granule_pos as Hg.
  pose proof (Z.mod_pos_bound (- len) be_granule Hg).
  assert (Hq : (len + (- len) mod be_granule) mod be_granule = 0).
  { rewrite Z.add_mod_idemp_r by lia. rewrite Z.add_opp_diag_r.
    apply Z.mod_0_l. lia. }
  apply Z.mod_divide in Hd as [a Ha]; [| lia].
  apply Z.mod_divide in Hq as [b Hb]; [| lia].
  assert (Hlt : (b - a) * be_granule < 1 * be_granule) by lia.
  apply Z.mul_lt_mono_pos_r in Hlt; [| done].
  assert (Hle : b * be_granule <= a * be_granule)
    by (apply Z.mul_le_mono_nonneg_r; lia).
  lia.
Qed.

(** A chunk padded with erased bytes programs its payload. *)
Lemma mem_program_pad m p l n a :
  (forall a, is_u8 (m a)) -> 0 <= n ->
  mem_program m p (l ++ fill n 0xff) a = mem_program m p l a.
Proof.
  intros Hm Hn. rewrite <- mem_program_app.
  destruct (decide (p + zlen l <= a < p + zlen l + n)) as [Hin | Hout].
  - rewrite mem_program_in by (rewrite zlen_fill; lia).
    rewrite byte_at_fill by lia. rewrite mem_program_out by lia.
    by apply is_u8_iff_land.
  - apply mem_program_out. rewrite zlen_fill by done. lia.
Qed.

Lemma wp_flush_final id w (Q : unit -> world -> Prop) E :
  let f := file_of (w_files w) id in
  fs_geo (w_fs w) = g -> flash_ok w -> writer (mem w) f ->
  256 mod be_granule = 0 ->
  (forall w', flash_ok w' -> w_fs w' = w_fs w ->
     (forall j, j <> id -> w_files w' !! j = w_files w !! j) ->
     write_frame (file_of (w_files w') id) = write_frame f ->
     f_cache_len (file_of (w_files w') id) = 0 ->
     f_current_data_len (file_of (w_files w') id) = f_current_data_len f ->
     f_size (file_of (w_files w') id) = f_size f ->
     (forall a, mem w' a = mem_program (mem w)
        (f_current f * sector_size g + f_current_write_offset f)
        (sublist 0 (f_cache_len f) (f_cache f)) a) -> Q tt w') ->
  wp (flush_write_cache id true) Q E w.
Proof.
  intros f Hgeo Hok Hw Hdiv HQ. pose proof granule_pos as Hg.
  unfold flush_write_cache. apply wp_bind, wp_get_file. fold f.
  pose proof (wr_cache_len _ _ Hw) as Hlen. pose proof (wr_cache _ _ Hw) as Hc.
  set (len := f_cache_len f) in *.
  destruct (Z.eqb_spec len 0) as [Hz | Hnz].
  { apply wp_ret, HQ; try done. intros a.
    replace len with 0 by lia. symmetry. apply mem_program_out.
    unfold sublist, zlen. simpl. lia. }
  cbn [negb andb]. rewrite flush_len_final by lia.
  set (n := len + (- len) mod be_granule).
  pose proof (Z.mod_pos_bound (- len) be_granule Hg) as Hpad.
  assert (Hn : len <= n <= 256)
    by (pose proof (round_up_cache len Hdiv ltac:(lia)); lia).
  pose proof (wr_total _ _ Hw) as Htot. pose proof (wr_room _ _ Hw).
  pose proof (wr_record _ _ Hw). pose proof (wr_offset _ _ Hw).
  pose proof (wr_sector _ _ Hw). unfold flushed_len in Htot. fold len in Htot.
  set (p := f_current f * sector_size g + f_current_write_offset f).
  destruct (sector_in_device (f_current f) (f_current_write_offset f) len) as [Hd1 Hd2];
    [lia.. |]. fold p in Hd1, Hd2.
  assert (Hfit : p + n <= be_size).
  { destruct (wr_aligned _ _ Hw) as [Hal | Hsmall];
      [exact (round_up_fits p len Hd1 ltac:(lia) Hal Hd2) |].
    destruct (sector_in_device (f_current f) (f_current_write_offset f) (len + 26))
      as [_ Hd3]; [lia.. |]. fold p in Hd3. unfold n. lia. }
  assert (Hsub : zlen (sublist 0 len (f_cache f)) = len) by (apply zlen_sublist; lia).
  (* the handle whose cache holds [n] bytes, the padding included *)
  assert (Hgo : forall w1 f1, w_ctx w1 = w_ctx w -> w_fs w1 = w_fs w ->
    (forall j, j <> id -> w_files w1 !! j = w_files w !! j) ->
    file_of (w_files w1) id = f1 -> write_frame f1 = write_frame f ->
    f_current_data_len f1 = f_current_data_len f -> f_size f1 = f_size f ->
    f_cache_len f1 = len -> f_current_write_offset f1 = f_current_write_offset f ->
    sublist 0 n (f_cache f1) = sublist 0 len (f_cache f) ++ fill (n - len) 0xff ->
    wp (f <- get_file id ;; g0 <- get_geo ;;
        fffs_flash_program_aligned
          (f_current f * sector_size g0 + f_current_write_offset f)
          (sublist 0 n (f_cache f)) ;;
        mod_file id (drop_flushed n)) Q E w1).
  { intros w1 f1 Hctx Hfs Hfiles Hf1 Hfr Hdl1 Hsz1 Hl1 Hwo Hs1.
    destruct (write_frame_fields _ _ Hfr) as (Hcur & _).
    apply wp_bind, wp_get_file. rewrite Hf1. apply wp_bind, wp_get_geo.
    rewrite Hfs, Hgeo, Hcur, Hwo, Hs1. fold p.
    assert (Hmem : forall a, mem w1 a = mem w a) by (intros a; unfold mem; by rewrite Hctx).
    assert (Hz1 : zlen (sublist 0 len (f_cache f) ++ fill (n - len) 255) = n)
      by (rewrite zlen_app, Hsub, zlen_fill; lia).
    apply wp_bind, wp_program_aligned;
      [unfold flash_ok; by rewrite Hctx | done | by rewrite Hz1 | |].
    { apply Forall_app. split; [apply Forall_sublist, Hw |].
      apply Forall_fill, is_u8_255. }
    intros w2 Hw2. apply wp_mod_file. rewrite (fi_files _ _ _ Hw2), Hf1.
    destruct (drop_flushed_fields n f1) as (Hfr' & Hdl' & Hsz' & _).
    apply HQ; cbn [w_fs w_files].
    - apply Hw2.
    - by rewrite (fi_fs _ _ _ Hw2).
    - intros j Hj. rewrite lookup_insert_ne by done. by apply Hfiles.
    - rewrite file_of_insert. by rewrite Hfr'.
    - rewrite file_of_insert. apply drop_flushed_all. lia.
    - by rewrite file_of_insert, Hdl'.
    - by rewrite file_of_insert, Hsz'.
    - intros a. etransitivity; [apply (fi_mem _ _ _ Hw2) |].
      rewrite (mem_program_ext _ (mem w)) by apply Hmem.
      apply mem_program_pad; [intros b; by apply mem_u8 | lia]. }
  apply wp_bind, wp_when; [rewrite negb_true_iff, Z.eqb_neq |
    rewrite negb_false_iff, Z.eqb_eq]; intros Hm.
  - apply wp_mod_file. fold f. destruct (Z.eqb_spec n 0); [lia |].
    apply (Hgo _ (pad_write_cache n f)); cbn [w_ctx w_fs w_files]; try done.
    + intros j Hj. by rewrite lookup_insert_ne.
    + by rewrite file_of_insert.
    + unfold pad_write_cache. cbn [f_cache set_f_cache]. fold len.
      apply list_eq_byte_at.
      * rewrite zlen_app, Hsub, zlen_fill, zlen_sublist;
          rewrite ?zlen_splice; rewrite ?zlen_fill; lia.
      * intros i. rewrite zlen_sublist
          by (rewrite ?zlen_splice; rewrite ?zlen_fill; lia). intros Hi.
        rewrite byte_at_sublist, byte_at_splice by (rewrite ?zlen_fill; lia).
        rewrite zlen_fill, Z.add_0_l by lia.
        destruct (Z.leb_spec len i), (Z.ltb_spec i (len + (n - len))); simpl; try lia.
        -- rewrite byte_at_app_r by lia. rewrite Hsub. done.
        -- rewrite byte_at_app_l by lia. by rewrite byte_at_sublist by lia.
  - destruct (Z.eqb_spec n 0); [lia |].
    assert (Hnl : n = len).
    { unfold n. rewrite (Z_mod_zero_opp_full _ _ Hm). lia. }
    apply (Hgo w f); try done. rewrite Hnl, Z.sub_diag. by rewrite app_nil_r.
Qed.

(** The data region of the extent after the final flush. *)
Lemma staged_programmed m m' f :
  writer m f -> (forall a, is_u8 (m a)) ->
  (forall a, m' a = mem_program m
     (f_current f * sector_size g + f_current_write_offset f)
     (sublist 0 (f_cache_len f) (f_cache f)) a) ->
  mem_bytes m' (extent_base f) (prefix_len f + f_current_data_len f) = staged m f.
Proof.
  intros [Hc Hcl Hb Hs Ho Hal Htot Hroom Hrec Hu Hdl Hpre Her] Hm Hm'.
  rewrite <- Htot. unfold staged, extent_base, flushed_len in *.
  set (p := f_current f * sector_size g + f_current_write_offset f) in *.
  assert (Hz : zlen (sublist 0 (f_cache_len f) (f_cache f)) = f_cache_len f)
    by (apply zlen_sublist; lia).
  rewrite mem_bytes_split by lia. f_equal.
  - apply mem_bytes_ext. intros a Ha. rewrite Hm'. apply mem_program_out. lia.
  - replace (_ + _ + (_ - _)) with p by lia. rewrite <- Hz at 1.
    rewrite (mem_bytes_ext m' (mem_program m p (sublist 0 (f_cache_len f) (f_cache f))))
      by auto.
    apply program_erased; [| by apply Forall_sublist].
    rewrite Hz. intros a Ha. apply Her. lia.
Qed.
End WriteSpec.

(** ** Properties *)

(** A new file "abc" in sector 3, its root prefix staged. *)
Definition demo_writer : fffs_file :=
  stage_root_prefix [97; 98; 99]
    (set_f_cache (fill 256 0) (set_f_current_metadata_offset 230
      (set_f_current 3 (set_f_head 3 (set_f_span_head 3
        (set_f_flags FFFS_O_WRONLY (set_f_fs true file_zero))))))).

Definition demo_writing : @world Demo.backend :=
  @mk_world Demo.backend dev_blank Demo.fs {[1 := demo_writer]}.

Lemma demo_writer_ok :
  @writer Demo.backend Demo.geo
    (@mem Demo.backend (dev_nor 2048 4) demo_writing) demo_writer.
Proof.
  split; try (vm_compute; try split; done).
  - apply (bool_decide_unpack _). vm_compute. exact I.
  - by left.
Qed.

(** C28: writing within an extent.  For a writer positioned in erased flash whose
    extent has room for the buffer, [fffs_write] terminates and succeeds; the
    bytes written so far, in the flash and in the handle's cache together, are
    extended by exactly the buffer, the size grows by its length, and nothing
    outside the extent's free region and the handle changes. *)
Theorem write_extends_file `{Backend} `{!NorFlash} `{!ValidBackend}
    (g : fs_geometry) `{!GeoOk g} (I : IndexCache) (N : Fuel) (id : Z)
    (buffer : list Z) (w : world) :
  let f := file_of (w_files w) id in
  fs_geo (w_fs w) = g -> flash_ok w -> writer g (mem w) f ->
  f_cache_len f < FFFS_FILE_CACHE_SIZE -> f_closed f = false ->
  has_flag (f_flags f) FFFS_O_WRONLY = true -> is_bytes buffer ->
  zlen buffer <= Z.of_nat N ->
  f_current_data_len f + zlen buffer <= current_extent_capacity f ->
  is_u32 (f_size f + zlen buffer) -> 0 <= f_size f ->
  exists w',
    fffs_write id buffer w = (Ok tt, w') /\ write_step g id w w' /\
    let f' := file_of (w_files w') id in
    writer g (mem w') f' /\
    staged g (mem w') f' = staged g (mem w) f ++ buffer /\
    f_size f' = f_size f + zlen buffer.
Proof.
  intros f Hgeo Hok Hw Hcl Hclosed Hflag Hb Hn Hcap Hsz Hsz0.
  assert (Hwp : wp (fffs_write id buffer)
    (fun _ w' => let f' := file_of (w_files w') id in
       write_step g id w w' /\ writer g (mem w') f' /\
       staged g (mem w') f' = staged g (mem w) f ++ buffer /\
       f_size f' = f_size f + zlen buffer) (fun _ _ => False) w).
  { unfold fffs_write. apply wp_bind, wp_get_file. fold f.
    apply wp_bind, wp_guard; [by rewrite Hclosed, Hflag | intros _].
    by apply (wp_write_loop g). }
  apply wp_returns in Hwp as ([] & w' & Hrun & Hst & Hw' & Hs' & Hsz').
  by exists w'.
Qed.

Lemma write_extends_file_witness :
  exists w', @fffs_write Demo.backend hash_index 10%nat 1 [1; 2; 3] demo_writing =
    (Ok tt, w') /\
    staged Demo.geo (@mem Demo.backend (dev_nor 2048 4) w')
      (file_of (w_files w') 1) = [3; 97; 98; 99; 0; 1; 2; 3].
Proof.
  destruct (@write_extends_file Demo.backend (dev_nor 2048 4) Demo.valid Demo.geo
    Demo.geo_valid hash_index 10%nat 1 [1; 2; 3] demo_writing eq_refl Demo.blank_ok
    demo_writer_ok) as (w' & Hr & _ & _ & Hs & _);
    try (vm_compute; try split; done).
  - repeat constructor; lia || done.
  - exists w'. split; [exact Hr |]. etransitivity; [exact Hs |].
    vm_compute. reflexivity.
Defined.

(** The final flush.  When the program granule divides the cache, the last
    [flush_write_cache] of a writer terminates and succeeds with everything
    written so far in the data region of its extent, the cache empty, and no
    other byte of the flash changed. *)
Theorem final_flush_programs_all `{Backend} `{!NorFlash} `{!ValidBackend}
    (g : fs_geometry) `{!GeoOk g} (id : Z) (w : world) :
  let f := file_of (w_files w) id in
  fs_geo (w_fs w) = g -> flash_ok w -> writer g (mem w) f ->
  FFFS_FILE_CACHE_SIZE mod be_granule = 0 ->
  exists w',
    flush_write_cache id true w = (Ok tt, w') /\
    mem_bytes (mem w') (extent_base g f) (prefix_len f + f_current_data_len f) =
      staged g (mem w) f /\
    f_cache_len (file_of (w_files w') id) = 0 /\
    (forall a, ~ (extent_base g f <= a <
        extent_base g f + prefix_len f + f_current_data_len f) ->
      mem w' a = mem w a).
Proof.
  intros f Hgeo Hok Hw Hdiv.
  assert (Hwp : wp (flush_write_cache id true)
    (fun _ w' => f_cache_len (file_of (w_files w') id) = 0 /\
       forall a, mem w' a = mem_program (mem w)
        (f_current f * sector_size g + f_current_write_offset f)
        (sublist 0 (f_cache_len f) (f_cache f)) a) (fun _ _ => False) w)
    by by apply (wp_flush_final g).
  apply wp_returns in Hwp as ([] & w' & Hrun & Hcl & Hm). exists w'.
  split; [done |].
  split; [apply staged_programmed; [done | intros a; by apply mem_u8 | done] |].
  split; [done |]. intros a Ha. rewrite Hm. apply mem_program_out.
  pose proof (wr_total _ _ _ Hw) as Ht. pose proof (wr_offset _ _ _ Hw).
  pose proof (wr_cache_len _ _ _ Hw). pose proof (wr_cache _ _ _ Hw).
  rewrite zlen_sublist by lia. unfold extent_base, flushed_len in *. lia.
Qed.

Lemma final_flush_programs_all_witness :
  exists w', @flush_write_cache Demo.backend 1 true demo_writing = (Ok tt, w') /\
    mem_bytes (@mem Demo.backend (dev_nor 2048 4) w') 768 5 = [3; 97; 98; 99; 0].
Proof.
  destruct (@final_flush_programs_all Demo.backend (dev_nor 2048 4) Demo.valid
    Demo.geo Demo.geo_valid 1 demo_writing eq_refl Demo.blank_ok demo_writer_ok
    eq_refl) as (w' & Hr & Hm & _).
  exists w'. split; [exact Hr |]. etransitivity; [exact Hm |].
  vm_compute. reflexivity.
Defined.

(** The padding of the last granule.  The number of bytes that the final
    flush of [len] cached bytes programs is a whole number of granules, at
    least [len] and less than a granule more; it stays within the 256-byte
    cache for every [len] up to 256 exactly when the granule divides 256. *)
Theorem flush_padding_bound (granule : Z) :
  0 < granule <= FFFS_FILE_CACHE_SIZE ->
  (forall len, 0 <= len -> let n := flush_len granule len true in
     len <= n < len + granule /\ n mod granule = 0) /\
  ((forall len, 0 < len <= FFFS_FILE_CACHE_SIZE ->
      flush_len granule len true <= FFFS_FILE_CACHE_SIZE) <->
   FFFS_FILE_CACHE_SIZE mod granule = 0).
Proof.
  intros Hg. split.
  - intros len Hl n. unfold n. rewrite flush_len_final by lia.
    pose proof (Z.mod_pos_bound (- len) granule ltac:(lia)). split; [lia |].
    rewrite Z.add_mod_idemp_r by lia. rewrite Z.add_opp_diag_r.
    apply Z.mod_0_l. lia.
  - split.
    + intros Hall. specialize (Hall 256 ltac:(lia)).
      rewrite flush_len_final in Hall by lia.
      pose proof (Z.mod_pos_bound (- 256) granule ltac:(lia)).
      change (- (256)) with (-256) in Hall.
      assert (Hz : (-256) mod granule = 0) by lia.
      by apply (Z_mod_zero_opp_full _ _ Hz).
    + intros Hd len Hl. rewrite flush_len_final by lia.
      pose proof (Z.mod_pos_bound (- len) granule ltac:(lia)).
      apply Z.mod_divide in Hd as [a Ha]; [| lia].
      assert (Hq : (len + (- len) mod granule) mod granule = 0).
      { rewrite Z.add_mod_idemp_r by lia. rewrite Z.add_opp_diag_r.
        apply Z.mod_0_l. lia. }
      apply Z.mod_divide in Hq as [b Hb]; [| lia].
      assert (Hlt : (b - a) * granule < 1 * granule) by lia.
      apply Z.mul_lt_mono_pos_r in Hlt; [| lia].
      assert (Hle : b * granule <= a * granule)
        by (apply Z.mul_le_mono_nonneg_r; lia).
      lia.
Qed.

Lemma flush_padding_bound_witness :
  (flush_len 200 256 true = 400) /\
  ~ (forall len, 0 < len <= FFFS_FILE_CACHE_SIZE ->
       flush_len 200 len true <= FFFS_FILE_CACHE_SIZE).
Proof.
  split; [reflexivity |]. intros Hall.
  assert (Hd : FFFS_FILE_CACHE_SIZE mod 200 = 0)
    by (apply (proj2 (flush_padding_bound 200 ltac:(lia))), Hall).
  discriminate Hd.
Defined.
