(* ===== verification/CloseSpec.v ===== *)
(** * Closing a file

    What [fffs_close] of [src/fffs_file.c] makes of a new file that was
    written in one extent: the rest of its data is programmed, its root record
    is reserved and finished, and its journal record is appended, in this
    order; the other files of the flash stay as they were. *)

From S2P Require Export FinishMem WriteSpec Journal.

Section CloseSpec.
Context `{Backend} `{!NorFlash} `{!ValidBackend} (g : fs_geometry) `{!GeoOk g}.
Context (I : IndexCache) `{!CachedIndex I}.
#[local] Abbreviation base s := (s * sector_size g).
#[local] Abbreviation N := (index_sectors g).

(** The journal lies in the index sectors. *)
Lemma log_ok_data m m' l :
  log_ok g m l -> (forall a, a < N * sector_size g -> m' a = m a) ->
  log_ok g m' l /\ journal g m' l = journal g m l.
Proof.
  intros Hl Heq. pose proof (log_ok_range g _ _ Hl) as [Hact Hnext].
  pose proof (sector_size_range (g := g)) as Hss.
  assert (Hs : forall s, 0 <= s < N -> sector_journal g m' s = sector_journal g m s).
  { intros s Hs. apply sector_journal_local; [done |]. intros a Ha. apply Heq.
    assert (Hle : (s + 1) * sector_size g <= N * sector_size g)
      by (apply Z.mul_le_mono_nonneg_r; lia). lia. }
  assert (Hl' : log_ok g m' l).
  { split; try apply Hl.
    - rewrite Hs by done. apply Hl.
    - intros a Ha. rewrite Heq; [by apply (lk_tail _ _ _ Hl) |].
      assert (Hle : (active_index_sector l + 1) * sector_size g <= N * sector_size g)
        by (apply Z.mul_le_mono_nonneg_r; lia). lia. }
  split; [done |]. rewrite (journal_split g _ _ Hl), (journal_split g _ _ Hl').
  rewrite Hs by done. do 2 f_equal. apply list_fmap_ext. intros i s Hi.
  pose proof (closed_sectors_other g _ _ Hl) as Hall. rewrite Forall_lookup in Hall.
  destruct (Hall i s Hi) as [Hr _]. by apply Hs.
Qed.

(** ** Finishing the root *)

(** The record of the root is where the record says. *)
Lemma last_record_start m sector l r e :
  sector_records g m sector = (l ++ [r], e) ->
  10 <= md_record_start r /\ md_record_start r + 16 <= sector_size g - 10.
Proof.
  intros Hs. pose proof (walk_from_last_parse g _ _ _ _ _ _ _ _ Hs) as Hp.
  destruct (parse_record_inv g _ _ _ _ Hp) as (H26 & Hst & _).
  unfold cursor_after in *. pose proof (zlen_nonneg l). lia.
Qed.

Lemma wp_finish_root id l r e size w (Q : unit -> world -> Prop) E :
  let f := file_of (w_files w) id in
  fs_geo (w_fs w) = g -> flash_ok w -> N <= f_head f < sector_count g ->
  footer_live (footer_at g (mem w) (f_head f)) = true ->
  sector_records g (mem w) (f_head f) = (l ++ [r], e) ->
  md_slot r = f_slot f -> reserved r ->
  Forall (fun x => md_record_matches_slot x (f_slot f) FFFS_MD_MATCH_UNCOMMITTED =
    false) l ->
  is_u32 size ->
  idx_ok (w_fs w) -> log_ok g (mem w) (fs_log (w_fs w)) ->
  active_sector_full (w_fs w) = false -> record_proper (f_slot f, f_head f) ->
  index_takes I (w_fs w) (f_slot f, f_head f) ->
  (forall w1 w2, flash_is (finish_at g (mem w) (f_head f) r 0 1 size) w w1 ->
     appended I (f_slot f) (f_head f) w1 w2 -> Q tt w2) ->
  wp (fffs_finish_extent_metadata id (f_head f) 0 1 size true true true) Q E w.
Proof.
  intros f Hgeo Hok Hs Hlive Hrec Hslot Hres Hno Hsz Hidx Hlog Hfull Hprop Htake HQ.
  pose proof (last_record_start _ _ _ _ _ Hrec) as Hst.
  destruct (sector_in_device (g := g) (f_head f) (md_record_start r) 16) as [Hd1 Hd2];
    [pose proof (geo_index (g := g)); lia | lia.. |].
  unfold fffs_finish_extent_metadata. apply wp_bind, wp_get_file. fold f.
  apply wp_bind, (wp_read_md g); [done | done |]. intros w1 Hw1.
  assert (Hread : (if valid_data_sector g (f_head f)
      then lookup_md g (mem w) (f_head f) (f_slot f) FFFS_MD_MATCH_UNCOMMITTED
      else inl FFFS_ERR_CORRUPT) = inr r).
  { unfold valid_data_sector. rewrite (proj2 (Z.leb_le _ _)), (proj2 (Z.ltb_lt _ _)) by lia.
    unfold lookup_md, pick_record. rewrite Hlive, Hrec. cbn [andb negb fst].
    rewrite find_snoc_new; [done | done |]. unfold md_record_matches_slot.
    by rewrite Hslot, Z.eqb_refl, (rv_state _ Hres). }
  rewrite Hread. apply wp_bind, wp_get_geo. rewrite (fi_fs _ _ _ Hw1), Hgeo.
  set (off := base (f_head f) + md_record_start r) in *.
  apply wp_bind, wp_program_aligned; [apply Hw1 | lia | | |].
  { rewrite zlen_app, !zlen_store16. lia. }
  { apply Forall_app. split; apply is_bytes_store16. }
  intros w2 Hw2. apply wp_bind, wp_program_aligned; [apply Hw2 | lia | | |].
  { rewrite zlen_store32. lia. }
  { apply is_bytes_store32. }
  intros w3 Hw3. apply wp_bind, wp_program_aligned; [apply Hw3 | lia | | |].
  { rewrite zlen_cons, zlen_nil. lia. }
  { repeat constructor; unfold is_u8; lia. }
  intros w4 Hw4.
  assert (Hfin : flash_is (finish_at g (mem w) (f_head f) r 0 1 size) w w4).
  { eapply flash_is_ext; [exact (flash_is_trans _ _ _ _ _ Hw1 (flash_is_trans _ _ _ _ _ Hw2
      (flash_is_trans _ _ _ _ _ Hw3 Hw4))) |].
    intros a. unfold finish_at. fold off. cbv zeta.
    apply mem_program_ext. rewrite (fi_mem _ _ _ Hw3).
    apply mem_program_ext. rewrite (fi_mem _ _ _ Hw2).
    apply mem_program_ext. apply Hw1. }
  clear w1 Hw1 w2 Hw2 w3 Hw3 Hw4.
  assert (Hfs : w_fs w4 = w_fs w) by apply Hfin.
  destruct (log_ok_data (mem w) (mem w4) (fs_log (w_fs w)) Hlog) as [Hlog4 _].
  { intros a Ha. rewrite (fi_mem _ _ _ Hfin). apply finish_at_out.
    assert (Hle : N * sector_size g <= base (f_head f))
      by (apply Z.mul_le_mono_nonneg_r; pose proof (sector_size_range (g := g)); lia).
    lia. }
  apply wp_bind, (wp_append g I); rewrite ?Hfs; try done; [apply Hfin |].
  intros w5 Hw5. rewrite Z.eqb_refl. by apply wp_ret, (HQ w4).
Qed.

(** ** The handle that is closed *)

(** The root record that [write_current_extent] reserves, and what it becomes. *)
Definition reserved_root (f : fffs_file) : fffs_md_record :=
  extent_record (f_slot f) FFFS_MD_TYPE_FILE_ROOT_V1 (f_data_offset f)
    (prefix_len f + f_current_data_len f) 0 0 0 (f_current_metadata_offset f) false.

Definition closed_root (f : fffs_file) : fffs_md_record :=
  extent_record (f_slot f) FFFS_MD_TYPE_FILE_ROOT_V1 (f_data_offset f)
    (prefix_len f + f_current_data_len f) 1 (f_size f) 0
    (f_current_metadata_offset f) true.

Lemma finished_root f : finished 0 1 (f_size f) (reserved_root f) = closed_root f.
Proof. done. Qed.

Lemma reserved_root_reserved f : reserved (reserved_root f).
Proof. by split. Qed.

(** The chain that the close releases: the one of the open, or when its sector
    was collected and given to the file itself, the one that the index names. *)
Definition old_chain (idx : gmap Z Z) (m : Z -> Z) (f : fffs_file) : Z * Z :=
  if f_old_head f =? f_head f then
    match idx !! f_slot f with
    | Some head =>
        (head, match slot_md g m head (f_slot f) FFFS_MD_MATCH_LIVE with
               | inr r => md_next r
               | inl _ => 0
               end)
    | None => (0, f_old_next f)
    end
  else (f_old_head f, f_old_next f).

(** A file in its first extent, [l] the other records of the sector, and a
    journal and an index that take its record without a rotation.  The file is
    new, or it replaces one whose root is in another sector. *)
Record closing (id : Z) (l : list fffs_md_record) (w : world) : Prop := {
  cl_geo : fs_geo (w_fs w) = g;
  cl_ok : flash_ok w;
  cl_granule : FFFS_FILE_CACHE_SIZE mod be_granule = 0;
  cl_serial : is_u32 (next_sector_serial (fs_alloc (w_fs w)));
  cl_writer : writer g (mem w) (file_of (w_files w) id);
  cl_current : f_current (file_of (w_files w) id) = f_head (file_of (w_files w) id);
  cl_span : f_span_head (file_of (w_files w) id) = f_head (file_of (w_files w) id);
  cl_old : let f := file_of (w_files w) id in
    f_old_head f = f_head f ->
    match idx_map (w_fs w) !! f_slot f with
    | Some head => head <> f_head f /\
        exists r, slot_md g (mem w) head (f_slot f) FFFS_MD_MATCH_LIVE = inr r /\
          md_type r = FFFS_MD_TYPE_FILE_ROOT_V1
    | None => True
    end;
  cl_slot : 0 < f_slot (file_of (w_files w) id) < UINT16_MAX;
  cl_size : is_u32 (f_size (file_of (w_files w) id));
  cl_place : free_place g (mem w) (f_head (file_of (w_files w) id)) l
    (f_current_metadata_offset (file_of (w_files w) id))
    (f_current_needs_footer (file_of (w_files w) id));
  cl_above : claimed_after 0 l <= f_data_offset (file_of (w_files w) id);
  cl_dead : Forall (fun r => md_slot r = f_slot (file_of (w_files w) id) ->
    md_live r = false /\ md_state r <> 0xff) l;
  cl_idx : idx_ok (w_fs w);
  cl_log : log_ok g (mem w) (fs_log (w_fs w));
  cl_room : active_sector_full (w_fs w) = false;
  cl_takes : index_takes I (w_fs w) (f_slot (file_of (w_files w) id),
    f_head (file_of (w_files w) id));
}.

(** What the steps on the handle [id] leave of the handles and their list. *)
Record links_kept (id : Z) (w w' : world) : Prop := {
  lk_geo : fs_geo (w_fs w') = fs_geo (w_fs w);
  lk_open : open_files (w_fs w') = open_files (w_fs w);
  lk_others : forall j, j <> id -> w_files w' !! j = w_files w !! j;
  lk_open_next : f_open_next (file_of (w_files w') id) =
    f_open_next (file_of (w_files w) id);
  lk_registered : f_open_registered (file_of (w_files w') id) =
    f_open_registered (file_of (w_files w) id);
  lk_fs : f_fs (file_of (w_files w') id) = f_fs (file_of (w_files w) id);
}.

Lemma links_kept_trans id w1 w2 w3 :
  links_kept id w1 w2 -> links_kept id w2 w3 -> links_kept id w1 w3.
Proof.
  intros [] []. split; try congruence. intros j Hj. rewrite lk_others1 by done. auto.
Qed.

(** The file of the handle is in the flash, in the journal and in the index. *)
Record file_committed (id : Z) (l : list fffs_md_record) (w w' : world) : Prop := {
  fc_ok : flash_ok w';
  fc_live : footer_live (footer_at g (mem w') (f_head (file_of (w_files w) id))) = true;
  fc_records : exists e, sector_records g (mem w') (f_head (file_of (w_files w) id)) =
    (l ++ [closed_root (file_of (w_files w) id)], e);
  fc_data : let f := file_of (w_files w) id in
    mem_bytes (mem w') (extent_base g f) (prefix_len f + f_current_data_len f) =
    staged g (mem w) f;
  fc_frame : let f := file_of (w_files w) id in
    forall a, N * sector_size g <= a ->
      ~ (base (f_head f) + f_data_offset f <= a < base (f_head f) + sector_size g) ->
      mem w' a = mem w a;
  fc_log : log_ok g (mem w') (fs_log (w_fs w'));
  fc_next : fs_log (w_fs w') = set_next_index_offset
    (next_index_offset (fs_log (w_fs w)) + 4) (fs_log (w_fs w));
  fc_journal : journal g (mem w') (fs_log (w_fs w')) =
    journal g (mem w) (fs_log (w_fs w)) ++
      [(f_slot (file_of (w_files w) id), f_head (file_of (w_files w) id))];
  fc_idx : idx_ok (w_fs w');
  fc_map : idx_map (w_fs w') =
    <[f_slot (file_of (w_files w) id) := f_head (file_of (w_files w) id)]>
      (idx_map (w_fs w));
}.

(** The place of the record depends on the bytes from the record up. *)
Lemma free_place_above m m' sector l roff blank :
  free_place g m sector l roff blank ->
  (forall a, base sector + roff <= a < base sector + sector_size g -> m' a = m a) ->
  free_place g m' sector l roff blank.
Proof.
  intros Hp Heq. pose proof (free_place_range g _ _ _ _ _ Hp) as Hr.
  destruct Hp as [Hs Hf]. split; [done |]. destruct blank.
  - destruct Hf as (-> & -> & He). repeat split.
    intros a Ha. rewrite Heq by lia. by apply He.
  - destruct Hf as (Hft & Hrec & Hro & Hge & He).
    split; [| split; [| split; [done | split; [done |]]]].
    + rewrite <- Hft. unfold footer_at, footer_bytes. do 2 f_equal.
      apply mem_bytes_ext. intros a Ha. apply Heq.
      unfold fffs_sector_footer_offset in Ha. lia.
    + unfold sector_records in *. eapply walk_from_erased; [exact Hrec |].
      intros a Ha. apply Heq. lia.
    + intros a Ha. rewrite Heq by lia. by apply He.
Qed.

Lemma reserved_valid f :
  f_data_offset f + (prefix_len f + f_current_data_len f) <=
    f_current_metadata_offset f ->
  md_fields_valid g (f_head f) (f_current_metadata_offset f) (reserved_root f) = true.
Proof.
  intros Hd. unfold md_fields_valid, reserved_root, extent_record. cbn [md_state md_live
    md_data_off md_data_len md_span_len md_next].
  change (255 =? 255) with true. cbn [negb andb].
  by rewrite (proj2 (Z.ltb_ge _ _)) by lia.
Qed.

Lemma closed_valid f :
  N <= f_head f < sector_count g ->
  f_data_offset f + (prefix_len f + f_current_data_len f) <=
    f_current_metadata_offset f ->
  md_fields_valid g (f_head f) (f_current_metadata_offset f) (closed_root f) = true.
Proof.
  intros Hs Hd. unfold md_fields_valid, closed_root, extent_record. cbn [md_state md_live
    md_data_off md_data_len md_span_len md_next negb].
  rewrite andb_false_r. cbn [andb]. rewrite (proj2 (Z.ltb_ge _ _)) by lia.
  change (126 =? 255) with false. cbn [orb].
  by rewrite (proj2 (Z.ltb_ge _ _)) by lia.
Qed.

(** The record of the extent is reserved. *)
Lemma wp_reserve_root id l w (Q : unit -> world -> Prop) E :
  let f := file_of (w_files w) id in
  fs_geo (w_fs w) = g -> flash_ok w ->
  f_current f = f_head f -> f_span_head f = f_head f ->
  free_place g (mem w) (f_head f) l (f_current_metadata_offset f)
    (f_current_needs_footer f) ->
  is_u32 (next_sector_serial (fs_alloc (w_fs w))) ->
  is_u16 (f_slot f) -> 0 <= f_data_offset f -> 0 <= prefix_len f ->
  0 <= f_current_data_len f -> is_u16 (f_current_metadata_offset f) ->
  f_data_offset f + (prefix_len f + f_current_data_len f) <=
    f_current_metadata_offset f ->
  f_current_metadata_offset f <= f_data_offset f + (prefix_len f + f_current_data_len f) \/
    mem w (base (f_head f) + f_current_metadata_offset f - 1) = 0xff ->
  (forall w', alloc_step w w' ->
     extent_written g (mem w) (mem w') (f_head f) l (reserved_root f) -> Q tt w') ->
  wp (write_current_extent id f 0) Q E w.
Proof.
  intros f Hgeo Hok Hcur Hspan Hpl Hser Hslot Hdo Hp Hdl Hu Hd Hbelow HQ.
  unfold is_u16 in *. pose proof (reserved_valid f Hd) as Hv.
  unfold write_current_extent. rewrite Hcur, Hspan, Z.eqb_refl.
  unfold fffs_begin_extent_metadata. apply wp_bind, wp_get_file. fold f.
  rewrite Z.eqb_refl. cbv zeta.
  assert (Hpre : prefix_len f = f_root_payload_offset f)
    by (unfold prefix_len; by rewrite Hcur, Z.eqb_refl).
  rewrite <- Hpre, u16_small by (unfold is_u16; lia).
  eapply wp_mono; [apply (wp_program_extent g _ _ _ _ _ _ _ _ _ _ _ l w);
    try done; try (unfold is_u16, is_u32; lia); by left | | by intros ? ? []].
  intros [] w' [Hst Hew]. by apply HQ.
Qed.

(** What the final flush changes. *)
Lemma flushed_out m m1 f :
  writer g m f ->
  (forall a, m1 a = mem_program m
     (f_current f * sector_size g + f_current_write_offset f)
     (sublist 0 (f_cache_len f) (f_cache f)) a) ->
  (forall a, ~ (extent_base g f <= a <
     extent_base g f + (prefix_len f + f_current_data_len f)) -> m1 a = m a) /\
  (f_current_metadata_offset f <=
     f_data_offset f + (prefix_len f + f_current_data_len f) \/
   m1 (base (f_current f) + f_current_metadata_offset f - 1) = 0xff).
Proof.
  intros Hw Hm1. pose proof (wr_cache _ _ _ Hw). pose proof (wr_cache_len _ _ _ Hw).
  pose proof (wr_total _ _ _ Hw) as Ht. pose proof (wr_offset _ _ _ Hw).
  pose proof (wr_room _ _ _ Hw). unfold flushed_len, extent_base in *.
  assert (Hz : zlen (sublist 0 (f_cache_len f) (f_cache f)) = f_cache_len f)
    by (apply zlen_sublist; lia).
  assert (Hout : forall a, ~ (base (f_current f) + f_data_offset f <= a <
     base (f_current f) + f_data_offset f + (prefix_len f + f_current_data_len f)) ->
     m1 a = m a) by (intros a Ha; rewrite Hm1; apply mem_program_out; lia).
  split; [done |].
  destruct (Z.le_gt_cases (f_current_metadata_offset f)
    (f_data_offset f + (prefix_len f + f_current_data_len f))) as [| Hlt]; [by left |].
  right. rewrite Hout by lia. apply (wr_erased _ _ _ Hw). lia.
Qed.

(** The flash after the record was reserved, finished and indexed. *)
Lemma committed_records m1 m2 m3 m4 f l p buf :
  N <= f_head f < sector_count g -> (forall a, is_u8 (m2 a)) -> is_u32 (f_size f) ->
  f_data_offset f + (prefix_len f + f_current_data_len f) <=
    f_current_metadata_offset f ->
  extent_written g m1 m2 (f_head f) l (reserved_root f) ->
  (forall a, m3 a = finish_at g m2 (f_head f) (reserved_root f) 0 1 (f_size f) a) ->
  (forall a, m4 a = mem_program m3 p buf a) -> p + zlen buf <= N * sector_size g ->
  footer_live (footer_at g m4 (f_head f)) = true /\
  (exists e, sector_records g m4 (f_head f) = (l ++ [closed_root f], e)) /\
  (forall a, N * sector_size g <= a ->
     ~ (base (f_head f) + f_current_metadata_offset f <= a <
        base (f_head f) + sector_size g) -> m4 a = m1 a).
Proof.
  intros Hs Hm2 Hsz Hd [Hlive [e Hrec] Hfr] Hm3 Hm4 Hp.
  pose proof (last_record_start _ _ _ _ _ Hrec) as Hst.
  cbn [reserved_root extent_record md_record_start] in Hst, Hfr.
  destruct (records_finished g m2 (f_head f) l (reserved_root f) e 0 1 (f_size f))
    as [Hrec3 Hft3]; try done; [by apply closed_valid |].
  rewrite finished_root in Hrec3.
  assert (Hm43 : forall a, N * sector_size g <= a -> m4 a =
    finish_at g m2 (f_head f) (reserved_root f) 0 1 (f_size f) a).
  { intros a Ha. rewrite Hm4, mem_program_out by lia. apply Hm3. }
  assert (Hhead : N * sector_size g <= base (f_head f))
    by (apply Z.mul_le_mono_nonneg_r; pose proof (sector_size_range (g := g)); lia).
  split; [| split].
  - rewrite (footer_at_in g m4 (finish_at g m2 (f_head f) (reserved_root f) 0 1 (f_size f))),
      Hft3; [done |]. intros a Ha. apply Hm43. lia.
  - exists e. rewrite <- Hrec3. apply sector_records_in.
    intros a Ha. apply Hm43. lia.
  - intros a Ha Hn. rewrite Hm43 by done.
    rewrite finish_at_out by (cbn [reserved_root extent_record md_record_start]; lia).
    apply Hfr. lia.
Qed.

(** The projections of the handle that the final flush leaves alone. *)
Lemma frame_project f f' {A} (p : fffs_file -> A) :
  write_frame f' = write_frame f ->
  (forall x, p (write_frame x) = p x) -> p f' = p f.
Proof. intros Hfr Hp. by rewrite <- (Hp f'), Hfr, Hp. Qed.

(** The state after the root was committed: [w] before the flush, [w3] and [w4]
    before and after the append. *)
Lemma committed_world id l w m1 w2 w3 w4 :
  closing id l w -> let f := file_of (w_files w) id in
  (forall a, m1 a = mem_program (mem w)
     (f_current f * sector_size g + f_current_write_offset f)
     (sublist 0 (f_cache_len f) (f_cache f)) a) ->
  flash_ok w2 -> fs_geo (w_fs w2) = g -> fs_log (w_fs w2) = fs_log (w_fs w) ->
  idx_map (w_fs w2) = idx_map (w_fs w) ->
  extent_written g m1 (mem w2) (f_head f) l (reserved_root f) ->
  flash_is (finish_at g (mem w2) (f_head f) (reserved_root f) 0 1 (f_size f)) w2 w3 ->
  appended I (f_slot f) (f_head f) w3 w4 ->
  file_committed id l w w4.
Proof.
  intros Hcl f Hm1 Hok2 Hgeo2 Hlog2 Hmap2 Hew Hw3 Hw4. subst f.
  set (f := file_of (w_files w) id) in *. destruct Hcl. fold f in cl_writer0,
    cl_current0, cl_span0, cl_old0, cl_slot0, cl_size0, cl_place0, cl_above0, cl_dead0,
    cl_takes0.
  pose proof (fp_sector _ _ _ _ _ _ cl_place0) as Hs.
  pose proof (wr_room _ _ _ cl_writer0) as Hroom.
  destruct (flushed_out _ _ _ cl_writer0 Hm1) as [Hout _].
  pose proof (staged_programmed g _ _ _ cl_writer0 (fun a => mem_u8 w a cl_ok0) Hm1)
    as Hstaged.
  pose proof (log_ok_range g _ _ cl_log0) as [Hact Hnext].
  pose proof (geo_index (g := g)). pose proof (sector_size_range (g := g)) as Hss.
  assert (Hlog3 : fs_log (w_fs w3) = fs_log (w_fs w)) by by rewrite (fi_fs _ _ _ Hw3).
  assert (Hfull : next_index_offset (fs_log (w_fs w)) + 4 <=
    (active_index_sector (fs_log (w_fs w)) + 1) * sector_size g).
  { unfold active_sector_full in cl_room0. by rewrite cl_geo0, Z.ltb_ge in cl_room0. }
  assert (Hend : (active_index_sector (fs_log (w_fs w)) + 1) * sector_size g <=
    N * sector_size g) by (apply Z.mul_le_mono_nonneg_r; lia).
  destruct (committed_records m1 (mem w2) (mem w3) (mem w4) f l
    (next_index_offset (fs_log (w_fs w3))) (record_bytes (f_slot f) (f_head f)))
    as (Hlive & Hrec & Hfr); try done; [intros a; by apply mem_u8 | lia | apply Hw3 |
    apply Hw4 | rewrite Hlog3; change (zlen (record_bytes _ _)) with 4; lia |].
  assert (Hhead : N * sector_size g <= base (f_head f))
    by (apply Z.mul_le_mono_nonneg_r; lia).
  unfold extent_base in *. rewrite cl_current0 in *.
  pose proof (wr_offset _ _ _ cl_writer0). pose proof (wr_prefix _ _ _ cl_writer0).
  pose proof (wr_record _ _ _ cl_writer0).
  pose proof (wr_data_len _ _ _ cl_writer0).
  destruct (log_ok_data (mem w) (mem w3) _ cl_log0) as [Hl3 Hj3].
  { intros a Ha. rewrite (fi_mem _ _ _ Hw3).
    pose proof (free_place_range g _ _ _ _ _ cl_place0).
    rewrite finish_at_out by (cbn [reserved_root extent_record md_record_start]; lia).
    rewrite (ew_frame _ _ _ _ _ _ Hew) by (cbn [reserved_root extent_record
      md_record_start]; lia). apply Hout. lia. }
  destruct (log_ok_append g (mem w3) (mem w4) (fs_log (w_fs w)) (f_slot f, f_head f))
    as [Hl4 Hj4]; try done.
  { split; [done |]. cbn [snd]. pose proof (geo_count (g := g)). unfold is_u16. lia. }
  { intros a. rewrite <- Hlog3. apply Hw4. }
  pose proof (ap_fs _ _ _ _ _ Hw4) as Hfs4.
  apply fs_less_index_log in Hfs4 as [_ Hlg4]. simpl in Hlg4. rewrite Hlog3 in Hlg4.
  split; fold f; rewrite ?Hlg4; try done.
  - apply Hw4.
  - cbv zeta. rewrite <- Hstaged. unfold extent_base. rewrite cl_current0.
    apply mem_bytes_ext. intros a Ha. apply Hfr; lia.
  - cbv zeta. intros a Ha Hn. rewrite Hfr by lia. apply Hout. lia.
  - by rewrite Hj4, Hj3.
  - apply Hw4.
  - rewrite (ap_map _ _ _ _ _ Hw4). unfold apply_record.
    rewrite (proj2 (Z.eqb_neq (f_slot f) 0)), (proj2 (Z.eqb_neq (f_head f) 0)) by lia.
    cbn [andb]. f_equal. rewrite <- Hmap2. by rewrite (fi_fs _ _ _ Hw3).
Qed.

(** A later state with the same flash, journal position and index. *)
Lemma file_committed_later id l w w1 w2 :
  file_committed id l w w1 -> w_ctx w2 = w_ctx w1 ->
  fs_geo (w_fs w2) = fs_geo (w_fs w1) -> fs_log (w_fs w2) = fs_log (w_fs w1) ->
  index_cache (w_fs w2) = index_cache (w_fs w1) ->
  index_heads (w_fs w2) = index_heads (w_fs w1) ->
  file_committed id l w w2.
Proof.
  intros [] Hc Hg Hl Hi Hh. destruct (idx_ok_ext (w_fs w1) (w_fs w2) fc_idx0) as [Hok Hm];
    [done.. |].
  split; rewrite ?Hl, ?Hm; try done; unfold flash_ok, mem in *; by rewrite Hc.
Qed.

(** A lookup outside of the sector that changes. *)
Lemma slot_md_apart m m' s0 s slot k : s <> s0 ->
  (forall a, ~ base s0 <= a < base s0 + sector_size g -> m' a = m a) ->
  slot_md g m' s slot k = slot_md g m s slot k.
Proof.
  intros Hne Heq. apply (slot_md_in g m' m). intros a Ha. apply Heq. intros Hb.
  pose proof (sector_size_range (g := g)).
  assert (s + 1 <= s0 \/ s0 + 1 <= s) as [Hlt | Hlt] by lia;
    apply (Z.mul_le_mono_nonneg_r _ _ (sector_size g)) in Hlt; lia.
Qed.

(** The end of [close_writer], for the chain that the file replaces. *)
Definition retire_old (slot old next : Z) : M unit :=
  when (negb (old =? 0)) (invalidate_and_account slot old next).

Lemma old_chain_ext idx m m' f :
  (forall head, idx !! f_slot f = Some head -> f_old_head f = f_head f ->
     slot_md g m' head (f_slot f) FFFS_MD_MATCH_LIVE =
     slot_md g m head (f_slot f) FFFS_MD_MATCH_LIVE) ->
  old_chain idx m' f = old_chain idx m f.
Proof.
  intros Hs. unfold old_chain. destruct (Z.eqb_spec (f_old_head f) (f_head f)); [| done].
  destruct (idx !! f_slot f) as [h |] eqn:Hh; [| done]. by rewrite (Hs h).
Qed.

Lemma wp_refresh id w (Q : unit -> world -> Prop) E :
  let f := file_of (w_files w) id in
  let old := old_chain (idx_map (w_fs w)) (mem w) f in
  fs_geo (w_fs w) = g -> flash_ok w -> idx_ok (w_fs w) -> 0 < f_slot f < UINT16_MAX ->
  (forall head, f_old_head f = f_head f -> idx_map (w_fs w) !! f_slot f = Some head ->
     exists r, slot_md g (mem w) head (f_slot f) FFFS_MD_MATCH_LIVE = inr r /\
       md_type r = FFFS_MD_TYPE_FILE_ROOT_V1) ->
  (forall w', flash_ok w' -> (forall a, mem w' a = mem w a) -> w_fs w' = w_fs w ->
     (forall j, j <> id -> w_files w' !! j = w_files w !! j) ->
     file_of (w_files w') id = set_f_old_next (snd old) (set_f_old_head (fst old) f) ->
     Q tt w') ->
  wp (when (f_old_head f =? f_head f) (ignore (refresh_old_chain id))) Q E w.
Proof.
  intros f old Hgeo Hok Hidx Hslot Hroot HQ. unfold old, old_chain in HQ.
  destruct (Z.eqb_spec (f_old_head f) (f_head f)) as [He | Hne]; cbn [when].
  2: { apply wp_ret, HQ; try done. cbn [fst snd]. fold f. by destruct f. }
  apply wp_ignore. unfold refresh_old_chain. apply wp_bind, wp_get_file. fold f.
  apply wp_bind. eapply returns_wp; [apply idx_head; [done | lia] |].
  destruct (idx_map (w_fs w) !! f_slot f) as [head |] eqn:Hh; cbn [head_answer fst snd].
  - destruct (Hroot head He eq_refl) as (r & Hr & Ht). rewrite Hr in HQ.
    unfold fffs_read_file_root_md. apply wp_bind, wp_bind, (wp_read_md g); [done.. |].
    intros w1 Hw1. fold (slot_md g (mem w) head (f_slot f) FFFS_MD_MATCH_LIVE).
    rewrite Hr. apply wp_bind, wp_guard; [by rewrite Ht | intros _].
    apply wp_ret, wp_mod_file. rewrite (fi_files _ _ _ Hw1), (fi_fs _ _ _ Hw1).
    apply HQ; try apply Hw1; try done; cbn [w_files].
    + intros j Hj. by rewrite lookup_insert_ne.
    + by rewrite file_of_insert.
  - apply wp_mod_file. apply HQ; try done; cbn [w_files].
    + intros j Hj. by rewrite lookup_insert_ne.
    + rewrite file_of_insert. fold f. by destruct f.
Qed.

(** The state in which the root is reserved: the data and an uncommitted record
    are in the sector of the handle, nothing else of the flash changed. *)
Record root_reserved (id : Z) (l : list fffs_md_record) (w w2 : world) : Prop := {
  rs_ok : flash_ok w2;
  rs_log : fs_log (w_fs w2) = fs_log (w_fs w);
  rs_idx : idx_ok (w_fs w2);
  rs_map : idx_map (w_fs w2) = idx_map (w_fs w);
  rs_links : links_kept id w w2;
  rs_handle : write_frame (file_of (w_files w2) id) =
    write_frame (file_of (w_files w) id);
  rs_size : f_size (file_of (w_files w2) id) = f_size (file_of (w_files w) id);
  rs_out : let f := file_of (w_files w) id in
    forall a, ~ (base (f_head f) + f_data_offset f <= a <
                 base (f_head f) + sector_size g) -> mem w2 a = mem w a;
  rs_written : let f := file_of (w_files w) id in
    exists m1, (forall a, m1 a = mem_program (mem w)
        (f_current f * sector_size g + f_current_write_offset f)
        (sublist 0 (f_cache_len f) (f_cache f)) a) /\
      extent_written g m1 (mem w2) (f_head f) l (reserved_root f);
}.

(** [close_writer] after the root is reserved. *)
Definition commit_root (file : Z) : M unit :=
  f <- get_file file ;;
  let root_deferred := negb (f_current f =? f_head f) &&
                       negb (f_span_head f =? f_head f) in
  when (f_old_head f =? f_head f) (ignore (refresh_old_chain file)) ;;
  flush_pending_span_head file 0 true ;;
  when root_deferred (fffs_finish_deferred_root_metadata file) ;;
  f <- get_file file ;;
  mod_info (fffs_fsinfo_note_committed_add (f_size f)) ;;
  retire_old (f_slot f) (f_old_head f) (f_old_next f).

(** The reservation does not change the chain that the close releases. *)
Lemma reserved_old id l w w2 :
  closing id l w -> root_reserved id l w w2 ->
  let f := file_of (w_files w) id in let f1 := file_of (w_files w2) id in
  old_chain (idx_map (w_fs w2)) (mem w2) f1 = old_chain (idx_map (w_fs w)) (mem w) f /\
  forall head, f_old_head f1 = f_head f1 -> idx_map (w_fs w2) !! f_slot f1 = Some head ->
    exists r, slot_md g (mem w2) head (f_slot f1) FFFS_MD_MATCH_LIVE = inr r /\
      md_type r = FFFS_MD_TYPE_FILE_ROOT_V1.
Proof.
  intros [] [] f f1. fold f f1 in rs_handle0.
  assert (Hhead : f_head f1 = f_head f) by (by apply (frame_project f f1 f_head)).
  assert (Hslot : f_slot f1 = f_slot f) by (by apply (frame_project f f1 f_slot)).
  assert (Hold : f_old_head f1 = f_old_head f)
    by (by apply (frame_project f f1 f_old_head)).
  assert (Hnext : f_old_next f1 = f_old_next f)
    by (by apply (frame_project f f1 f_old_next)).
  assert (Hmd : forall h, h <> f_head f ->
    slot_md g (mem w2) h (f_slot f) FFFS_MD_MATCH_LIVE =
    slot_md g (mem w) h (f_slot f) FFFS_MD_MATCH_LIVE).
  { intros h Hh. apply (slot_md_apart _ _ (f_head f)); [done |]. intros a Ha.
    apply rs_out0. fold f. pose proof (wr_offset _ _ _ cl_writer0) as Ho. fold f in Ho. lia. }
  unfold old_chain. rewrite rs_map0, Hold, Hhead, Hslot, Hnext. fold f in cl_old0.
  destruct (Z.eqb_spec (f_old_head f) (f_head f)) as [He |]; [| done].
  specialize (cl_old0 He). destruct (idx_map (w_fs w) !! f_slot f) as [h |]; [| done].
  destruct cl_old0 as [Hne Hroot]. rewrite Hmd by done. split; [done |].
  intros head _ [= <-]. by rewrite Hmd.
Qed.

Lemma wp_reserve id l w (Q : unit -> world -> Prop) E :
  closing id l w -> (forall w2, root_reserved id l w w2 -> wp (commit_root id) Q E w2) ->
  wp (close_writer id) Q E w.
Proof.
  intros Hcl HQ. pose proof Hcl as Hcl'. destruct Hcl'.
  set (f := file_of (w_files w) id) in *.
  pose proof (fp_sector _ _ _ _ _ _ cl_place0) as Hs. pose proof (geo_index (g := g)).
  unfold close_writer. apply wp_bind, (wp_flush_final g); try done. fold f.
  intros w1 Hok1 Hfs1 Hoth1 Hfr Hc1 Hdl1 Hsz1 Hm1.
  destruct (flushed_out _ _ _ cl_writer0 Hm1) as [Hout Hbelow].
  set (f1 := file_of (w_files w1) id) in *.
  assert (Hcur : f_current f1 = f_head f)
    by (by rewrite (frame_project f f1 f_current Hfr)).
  assert (Hhead : f_head f1 = f_head f) by (by apply (frame_project f f1 f_head)).
  assert (Hspan : f_span_head f1 = f_head f)
    by (by rewrite (frame_project f f1 f_span_head Hfr)).
  assert (Hslot : f_slot f1 = f_slot f) by (by apply (frame_project f f1 f_slot)).
  destruct (write_frame_fields _ _ Hfr) as (_ & Hdo & Hmo & Hpl).
  assert (Hneed : f_current_needs_footer f1 = f_current_needs_footer f)
    by (by apply (frame_project f f1 f_current_needs_footer)).
  assert (Hres : reserved_root f1 = reserved_root f)
    by (unfold reserved_root; by rewrite Hslot, Hdo, Hpl, Hdl1, Hmo).
  destruct cl_writer0. unfold extent_base in Hout. rewrite cl_current0 in *.
  apply wp_bind, wp_get_file. fold f1.
  apply wp_bind, (wp_reserve_root id l w1); fold f1;
    rewrite ?Hhead, ?Hcur, ?Hspan, ?Hslot, ?Hdo, ?Hmo, ?Hpl, ?Hdl1, ?Hneed, ?Hres, ?Hfs1;
    try done; try lia; try (unfold is_u16; lia).
  { eapply free_place_above; [exact cl_place0 |]. intros a Ha. apply Hout. lia. }
  intros w2 Hst2 Hew2. apply HQ.
  destruct (idx_ok_ext (w_fs w) (w_fs w2) cl_idx0) as [Hidx2 Hmap2];
    [by rewrite (as_geo _ _ Hst2), Hfs1 | by rewrite (as_cache _ _ Hst2), Hfs1 |
     by rewrite (as_heads _ _ Hst2), Hfs1 |].
  split; rewrite ?(as_files _ _ Hst2), ?(as_log _ _ Hst2), ?Hfs1; try done.
  - apply Hst2.
  - split; rewrite ?(as_files _ _ Hst2), ?(as_geo _ _ Hst2), ?(as_open _ _ Hst2), ?Hfs1;
      try done.
    + by apply (frame_project f f1 f_open_next).
    + by apply (frame_project f f1 f_open_registered).
    + by apply (frame_project f f1 f_fs).
  - cbv zeta. fold f. intros a Ha.
    pose proof (free_place_range g _ _ _ _ _ cl_place0).
    rewrite (ew_frame _ _ _ _ _ _ Hew2)
      by (cbn [reserved_root extent_record md_record_start]; lia).
    apply Hout. lia.
  - cbv zeta. fold f. exists (mem w1). by rewrite cl_current0.
Qed.

Lemma wp_commit id l w w2 (Q : unit -> world -> Prop) E :
  closing id l w -> root_reserved id l w w2 ->
  (forall w', links_kept id w w' -> file_committed id l w w' ->
     let f := file_of (w_files w) id in
     let old := old_chain (idx_map (w_fs w)) (mem w) f in
     wp (retire_old (f_slot f) (fst old) (snd old)) Q E w') ->
  wp (commit_root id) Q E w2.
Proof.
  intros Hcl [] HQ. pose proof Hcl as Hcl'. destruct Hcl'.
  set (f := file_of (w_files w) id) in *. set (f1 := file_of (w_files w2) id) in *.
  pose proof (fp_sector _ _ _ _ _ _ cl_place0) as Hs. pose proof (geo_index (g := g)).
  destruct rs_written0 as (m1 & Hm1 & Hew2). fold f in Hm1, Hew2.
  assert (Hcur : f_current f1 = f_head f)
    by (by rewrite (frame_project f f1 f_current rs_handle0)).
  assert (Hhead : f_head f1 = f_head f) by (by apply (frame_project f f1 f_head)).
  assert (Hspan : f_span_head f1 = f_head f)
    by (by rewrite (frame_project f f1 f_span_head rs_handle0)).
  assert (Hslot : f_slot f1 = f_slot f) by (by apply (frame_project f f1 f_slot)).
  assert (Hgeo2 : fs_geo (w_fs w2) = g) by (by rewrite (lk_geo _ _ _ rs_links0)).
  set (old := old_chain (idx_map (w_fs w)) (mem w) f).
  destruct (reserved_old id l w w2) as [Hoc Hroot]; [done | by split; eauto |].
  fold f f1 old in Hoc, Hroot.
  unfold commit_root. apply wp_bind, wp_get_file. fold f1. cbv zeta.
  pose proof (wp_refresh id w2) as Hre. cbv zeta in Hre. fold f1 in Hre. rewrite Hoc in Hre.
  apply wp_bind, Hre; [done | done | done | by rewrite Hslot | done |].
  clear Hre. intros w2' Hok2' Hm2' Hfs2' Hoth2' Hf2'.
  set (f2 := set_f_old_next _ _) in Hf2'.
  change (f_current f1) with (f_current f2) in *. change (f_head f1) with (f_head f2) in *.
  change (f_span_head f1) with (f_span_head f2) in *.
  change (f_slot f1) with (f_slot f2) in *.
  rewrite Hcur, Hhead, Hspan, Z.eqb_refl. cbn [negb andb]. apply wp_bind.
  unfold flush_pending_span_head. apply wp_bind, wp_get_file. rewrite Hf2', Hspan, Hhead.
  rewrite (proj2 (Z.eqb_neq (f_head f) 0)), Z.eqb_refl by lia. cbn [andb negb].
  assert (Hone : pending_span_len f2 = 1).
  { unfold pending_span_len. rewrite Hcur, Hspan. by rewrite Z.sub_diag. }
  change (f_size f2) with (f_size f1).
  rewrite Hone, rs_size0, <- Hhead, <- Hf2'.
  destruct (ew_records _ _ _ _ _ _ Hew2) as [e He].
  apply wp_bind, (wp_finish_root id l (reserved_root f) e (f_size f) w2');
    rewrite ?Hf2', ?Hhead, ?Hfs2', ?rs_log0, ?Hslot; try done.
  - rewrite (footer_at_in g (mem w2') (mem w2)) by done. apply Hew2.
  - by rewrite (sector_records_in g (mem w2') (mem w2)) by done.
  - eapply Forall_impl; [exact cl_dead0 |]. intros r Hr. unfold md_record_matches_slot.
    destruct (Z.eqb_spec (md_slot r) (f_slot f)) as [Heq |]; [| done]. cbn [negb].
    apply Z.eqb_neq, Hr, Heq.
  - apply (log_ok_data (mem w)); [done |]. intros a Ha.
    assert (Hle : N * sector_size g <= base (f_head f))
      by (apply Z.mul_le_mono_nonneg_r; pose proof (sector_size_range (g := g)); lia).
    pose proof (wr_offset _ _ _ cl_writer0). rewrite Hm2'. apply rs_out0. lia.
  - unfold active_sector_full in *. by rewrite rs_log0, Hgeo2, <- cl_geo0.
  - split; [done |]. cbn [snd]. pose proof (geo_count (g := g)). unfold is_u16. lia.
  - unfold index_takes in *. by rewrite rs_map0, Hgeo2, <- cl_geo0.
  - intros w3 w4 Hw3 Hw4.
    assert (Hf4 : w_files w4 = w_files w2')
      by by rewrite (ap_files _ _ _ _ _ Hw4), (fi_files _ _ _ Hw3).
    assert (Hfs4 : fs_less_index (w_fs w4) = fs_less_index (set_fs_log
      (set_next_index_offset (next_index_offset (fs_log (w_fs w2)) + 4)
         (fs_log (w_fs w2))) (w_fs w2)))
      by (by rewrite (ap_fs _ _ _ _ _ Hw4), (fi_fs _ _ _ Hw3), Hfs2').
    assert (Hw4' : file_committed id l w w4).
    { apply (file_committed_later id l w
        (mk_world (w_ctx w4) (w_fs w4) (w_files w2))); [| done..].
      apply (committed_world id l w m1 w2 (mk_world (w_ctx w3) (w_fs w3) (w_files w2)));
        try done.
      - destruct Hw3 as [Hok3 Hm3 Hfs3 Hfl3].
        split; [done | | by rewrite <- Hfs2' | done]. intros a.
        rewrite <- (finish_at_ext g (mem w2') (mem w2)) by done. apply Hm3.
      - by destruct Hw4. }
    apply wp_mod_file. rewrite Hf4, Hf2'. apply wp_bind, wp_ret.
    apply wp_bind, wp_get_file. cbn [w_files]. rewrite file_of_insert. unfold f2.
    cbn [f_old_head f_old_next f_slot f_size set_f_span_head set_f_old_next set_f_old_head].
    change (f_slot f1) with (f_slot f2). rewrite Hslot.
    apply wp_bind, wp_mod_fs. cbn [w_ctx w_fs w_files].
    set (fs5 := set_fs_info _ _).
    destruct (idx_ok_ext (w_fs w4) fs5 (fc_idx _ _ _ _ Hw4')) as [Hidx5 Hmap5];
      [done.. |].
    apply HQ.
    + apply (links_kept_trans id w w2); [done |].
      split; cbn [w_fs w_files]; rewrite ?file_of_insert; try done.
      * exact (f_equal fs_geo Hfs4).
      * exact (f_equal open_files Hfs4).
      * intros j Hj. by rewrite lookup_insert_ne, Hoth2' by done.
    + destruct Hw4'. split; try done. cbn [w_fs]. by rewrite Hmap5.
Qed.

(** ** The reservation and the list of handles *)

Lemma mark_range_unknown_alloc n first i w :
  exists alloc, mark_range_unknown_loop n first i w =
    (Ok tt, mk_world (w_ctx w) (set_fs_alloc alloc (w_fs w)) (w_files w)).
Proof.
  revert i w. induction n as [| n IH]; intros i w.
  - exists (fs_alloc (w_fs w)). by destruct w as [c [] fl].
  - cbn [mark_range_unknown_loop].
    assert (Hstep : exists alloc, fffs_alloc_map_mark_unknown (u16 (first + i)) w =
      (Ok tt, mk_world (w_ctx w) (set_fs_alloc alloc (w_fs w)) (w_files w))).
    { unfold fffs_alloc_map_mark_unknown, alloc_map_update, mod_fs.
      assert (Hsame : exists alloc, w_fs w = set_fs_alloc alloc (w_fs w))
        by (exists (fs_alloc (w_fs w)); by destruct (w_fs w)).
      destruct (alloc_map _) as [words |];
        [destruct (_ <=? _) |]; try (destruct Hsame as [a Ha]; exists a; by rewrite <- Ha).
      by eexists. }
    destruct Hstep as [alloc Hstep]. unfold bind. rewrite Hstep.
    destruct (IH (i + 1) (mk_world (w_ctx w) (set_fs_alloc alloc (w_fs w)) (w_files w)))
      as [alloc' ->]. by exists alloc'.
Qed.

Lemma wp_release id w (Q : unit -> world -> Prop) E :
  (forall alloc w', links_kept id w w' -> w_ctx w' = w_ctx w ->
     w_fs w' = set_fs_alloc alloc (w_fs w) -> Q tt w') ->
  wp (fffs_alloc_release_reservation id) Q E w.
Proof.
  intros HQ. unfold fffs_alloc_release_reservation. apply wp_bind, wp_get_file.
  destruct (_ || _).
  { apply wp_ret, (HQ (fs_alloc (w_fs w))); [by split | done |]. by destruct (w_fs w). }
  apply wp_bind. destruct (mark_range_unknown_alloc
    (Z.to_nat (f_reserve_count (file_of (w_files w) id)))
    (f_reserve_first (file_of (w_files w) id)) 0 w) as [alloc Hrun].
  eapply returns_wp; [exact Hrun |]. apply wp_mod_file. cbn [w_ctx w_fs w_files].
  apply (HQ alloc); [| done | done].
  split; cbn [w_fs w_files]; rewrite ?file_of_insert; try done.
  intros j Hj. by rewrite lookup_insert_ne.
Qed.

(** The list of handles survives the steps on one of them. *)
Lemma open_ok_links id w w' :
  links_kept id w w' -> f_fs (file_of (w_files w) id) = true ->
  open_ok (w_fs w) (w_files w) ->
  open_ok (w_fs w') (w_files w') /\
  open_list (w_fs w') (w_files w') = open_list (w_fs w) (w_files w).
Proof.
  intros [] Hfs (l & Hl & Hnd).
  assert (Hl' : linked (w_files w') (open_files (w_fs w')) l).
  { rewrite lk_open0. eapply linked_frame; [exact Hl |]. intros x f Hx Hf.
    destruct (decide (x = id)) as [-> | Hne].
    - rewrite Hfs in lk_fs0. unfold file_of in *. rewrite Hf in lk_open_next0.
      destruct (w_files w' !! id) as [f' |]; [by exists f' | done].
    - exists f. by rewrite lk_others0. }
  split; [by exists l |]. by rewrite !(open_list_eq _ _ l).
Qed.

Lemma blank_not_live m sector roff l :
  free_place g m sector l roff true -> footer_live (footer_at g m sector) = false.
Proof.
  intros [_ (_ & -> & He)]. unfold footer_at, footer_bytes.
  rewrite footer_live_bytes by (by rewrite zlen_mem_bytes).
  rewrite byte_at_mem_bytes by lia. rewrite He; [done |].
  unfold fffs_sector_footer_offset. lia.
Qed.

(** The close keeps the other files of the flash. *)
Lemma close_keeps_extents id l w w' :
  closing id l w -> file_committed id l w w' -> extents_kept g (mem w) (mem w').
Proof.
  intros Hcl [Hok Hlive [e' Hrec] _ Hfr _ _ _ _ _]. destruct Hcl.
  apply (extents_kept_grow g _ _ (f_head (file_of (w_files w) id)) l
    (closed_root (file_of (w_files w) id)) WEnd_erased e'
    (f_data_offset (file_of (w_files w) id))); try done.
  destruct (f_current_needs_footer (file_of (w_files w) id)).
  - left. split; [by destruct cl_place0 as [_ [-> _]] | by eapply blank_not_live].
  - right. by destruct cl_place0 as [_ (_ & -> & _)].
Qed.

(** The handle [id] is an open writer in a well-formed list of handles. *)
Record open_writer_handle (id : Z) (w : world) : Prop := {
  ow_list : open_ok (w_fs w) (w_files w);
  ow_closed : f_closed (file_of (w_files w) id) = false;
  ow_registered : f_open_registered (file_of (w_files w) id) = true;
  ow_fs : f_fs (file_of (w_files w) id) = true;
  ow_flags : has_flag (f_flags (file_of (w_files w) id)) FFFS_O_WRONLY = true;
}.

(** What the handle and the list of handles are after [fffs_close]. *)
Record handle_closed (id : Z) (w w' : world) : Prop := {
  hc_list : open_ok (w_fs w') (w_files w') /\
    open_list (w_fs w') (w_files w') =
      filter (fun x => x <> id) (open_list (w_fs w) (w_files w));
  hc_others : forall j, j <> id ->
    unlinked (file_of (w_files w') j) = unlinked (file_of (w_files w) j);
  hc_closed : f_closed (file_of (w_files w') id) = true;
}.

(** What the rest of the close does to the committed state [w], [R] to its
    device. *)
Record retired (R : be_ctx -> be_ctx -> Prop) (w w' : world) : Prop := {
  rd_ctx : R (w_ctx w) (w_ctx w');
  rd_geo : fs_geo (w_fs w') = fs_geo (w_fs w);
  rd_log : fs_log (w_fs w') = fs_log (w_fs w);
  rd_cache : index_cache (w_fs w') = index_cache (w_fs w);
  rd_heads : index_heads (w_fs w') = index_heads (w_fs w);
}.

Lemma retired_fs R w w1 w2 :
  retired R w w1 -> w_ctx w2 = w_ctx w1 -> fs_geo (w_fs w2) = fs_geo (w_fs w1) ->
  fs_log (w_fs w2) = fs_log (w_fs w1) -> index_cache (w_fs w2) = index_cache (w_fs w1) ->
  index_heads (w_fs w2) = index_heads (w_fs w1) -> retired R w w2.
Proof. intros [] Hc. split; congruence. Qed.

Lemma wp_close R id l w (Q : unit -> world -> Prop) E :
  closing id l w -> open_writer_handle id w ->
  (forall w1, file_committed id l w w1 -> fs_geo (w_fs w1) = g ->
     let f := file_of (w_files w) id in
     let old := old_chain (idx_map (w_fs w)) (mem w) f in
     wp (retire_old (f_slot f) (fst old) (snd old))
       (fun _ w2 => retired R w1 w2 /\ open_files (w_fs w2) = open_files (w_fs w1) /\
          w_files w2 = w_files w1) (fun _ _ => False) w1) ->
  (forall w1 w', file_committed id l w w1 -> fs_geo (w_fs w1) = g -> retired R w1 w' ->
     handle_closed id w w' -> Q tt w') ->
  wp (fffs_close id) Q E w.
Proof.
  intros Hcl [Hopen Hc Hreg Hfs Hflag] Hret HQ. unfold fffs_close.
  apply wp_bind, wp_get_file. apply wp_bind, wp_guard; [by rewrite Hc | intros _].
  rewrite Hflag. apply wp_bind, wp_bind, wp_try, (wp_reserve id l); [done |]. intros wr Hwr.
  apply (wp_commit id l w); [done | done |]. intros w0 Hk0 Hw0.
  assert (Hgeo0 : fs_geo (w_fs w0) = g) by (rewrite (lk_geo _ _ _ Hk0); apply Hcl).
  eapply wp_mono; [by apply Hret | | done]. intros [] w1 (Hrd1 & Ho1 & Hf1).
  assert (Hk1 : links_kept id w w1).
  { destruct Hk0. destruct Hrd1. split; rewrite ?Hf1; congruence || done. }
  apply wp_bind, wp_release. intros alloc w2 Hk2 Hctx2 Hfs2.
  pose proof (links_kept_trans _ _ _ _ Hk1 Hk2) as Hk.
  assert (Hw2 : retired R w0 w2)
    by (eapply retired_fs; [exact Hrd1 | done | by rewrite Hfs2..]).
  destruct (open_ok_links id w w2 Hk Hfs Hopen) as [Hopen2 Hlist2].
  apply wp_ret.
  destruct (unregister_open_spec id w2 Hopen2) as (w3 & Hrun & Hctx & Hopen3 & Hlist3 &
    Hsame & Hun).
  { by rewrite (lk_registered _ _ _ Hk). }
  { by rewrite (lk_fs _ _ _ Hk). }
  apply wp_bind. eapply returns_wp; [exact Hrun |].
  apply wp_bind, wp_mod_file, wp_ret. set (w4 := mk_world _ _ _).
  assert (Hw4 : retired R w0 w4).
  { eapply retired_fs; [exact Hw2 | done | | | |].
    - exact (f_equal fs_geo Hsame).
    - exact (f_equal fs_log Hsame).
    - exact (f_equal index_cache Hsame).
    - exact (f_equal index_heads Hsame). }
  assert (Hk4 : links_kept id w3 w4).
  { split; unfold w4; cbn [w_fs w_files]; rewrite ?file_of_insert; try done.
    intros j Hj. by rewrite lookup_insert_ne. }
  destruct (open_ok_links id w3 w4 Hk4) as [Hopen4 Hlist4]; [| done |].
  { rewrite (f_equal f_fs (Hun id) : f_fs (file_of (w_files w3) id) =
      f_fs (file_of (w_files w2) id)). by rewrite (lk_fs _ _ _ Hk). }
  apply (HQ w0); try done. split.
  - split; [done |]. by rewrite Hlist4, Hlist3, Hlist2.
  - intros j Hj. unfold w4. cbn [w_files]. rewrite file_of_insert_ne by done.
    rewrite Hun. unfold file_of. by rewrite (lk_others _ _ _ Hk).
  - unfold w4. cbn [w_files]. by rewrite file_of_insert.
Qed.

(** What [fffs_close] of a new file does. *)
Record file_closed (id : Z) (l : list fffs_md_record) (w w' : world) : Prop := {
  cd_committed : file_committed id l w w';
  cd_extents : extents_kept g (mem w) (mem w');
  cd_geo : fs_geo (w_fs w') = g;
  cd_handle : handle_closed id w w';
}.

Lemma wp_close_new id l w (Q : unit -> world -> Prop) E :
  closing id l w -> f_old_head (file_of (w_files w) id) = 0 ->
  open_writer_handle id w ->
  (forall w', file_closed id l w w' -> Q tt w') ->
  wp (fffs_close id) Q E w.
Proof.
  intros Hcl Hnew Hopen HQ.
  apply (wp_close (fun c c' => c' = c) id l); try done.
  - intros w1 _ _. cbv zeta. unfold old_chain. rewrite Hnew.
    pose proof (fp_sector _ _ _ _ _ _ (cl_place _ _ _ Hcl)). pose proof (geo_index (g := g)).
    rewrite (proj2 (Z.eqb_neq 0 _)) by lia. by apply wp_ret.
  - intros w1 w' Hw1 Hg1 [] Hh.
    assert (Hw' : file_committed id l w w') by by eapply file_committed_later.
    apply HQ. split; [done | by eapply close_keeps_extents | congruence | done].
Qed.
End CloseSpec.
