(* ===== verification/ReadSpec.v ===== *)
(** * Reading a file

    What the read path of [src/fffs_file.c] returns: the bytes of the current
    extent from the read position on, followed by those of the extents that the
    chain of metadata records leads to. *)

From S2P Require Export WriteSpec.

Section ReadSpec.
Context `{Backend} `{!NorFlash} `{!ValidBackend} (g : fs_geometry) `{!GeoOk g}.

(** The extent of a record. *)
Definition extent_bytes (m : Z -> Z) (sector : Z) (r : fffs_md_record) : list Z :=
  mem_bytes m (sector * sector_size g + md_data_off r) (md_data_len r).

(** [chain m slot sector l]: from [sector] on, the chain of the slot holds the
    extents [l], each with its sector; 0 ends the chain. *)
Fixpoint chain (m : Z -> Z) (slot sector : Z) (l : list (Z * fffs_md_record))
  : Prop :=
  match l with
  | [] => True
  | (s, r) :: rest =>
      sector = s /\ s <> 0 /\ slot_md g m s slot FFFS_MD_MATCH_LIVE = inr r /\
      chain m slot
        (if 1 <? md_span_len r then u16 (s + 1) else md_next r) rest
  end.

Definition chain_bytes (m : Z -> Z) (l : list (Z * fffs_md_record)) : list Z :=
  List.concat ((fun '(s, r) => extent_bytes m s r) <$> l).

(** The flash address of the position [pos] of the current extent. *)
Definition data_at (f : fffs_file) (pos : Z) : Z :=
  f_current f * sector_size g + f_data_offset f + pos.

(** A handle that reads, and whose cache agrees with the flash. *)
Record reading (m : Z -> Z) (f : fffs_file) : Prop := {
  rg_sector : 0 <= f_current f < sector_count g;
  rg_data : 0 <= f_data_offset f /\
    f_data_offset f + f_current_data_len f <= sector_size g;
  rg_pos : 0 <= f_current_data_pos f <= f_current_data_len f;
  rg_cache : zlen (f_cache f) = FFFS_FILE_CACHE_SIZE;
  rg_cached : 0 <= f_cache_len f <= FFFS_FILE_CACHE_SIZE /\
    (f_cache_len f <> 0 ->
     0 <= f_cache_data_pos f /\
     f_cache_data_pos f + f_cache_len f <= f_current_data_len f);
  rg_agree : forall i, 0 <= i < f_cache_len f ->
    byte_at (f_cache f) i = m (data_at f (f_cache_data_pos f + i));
}.

(** The bytes from the read position to the end of the chain [l] that follows
    the current extent. *)
Definition remaining_bytes (m : Z -> Z) (f : fffs_file)
    (l : list (Z * fffs_md_record)) : list Z :=
  mem_bytes m (data_at f (f_current_data_pos f))
    (f_current_data_len f - f_current_data_pos f) ++ chain_bytes m l.

(** A step of the read path on the handle [id]. *)
Record read_step (id : Z) (w w' : world) : Prop := {
  rs_ok : flash_ok w';
  rs_mem : forall a, mem w' a = mem w a;
  rs_fs : w_fs w' = w_fs w;
  rs_files : forall j, j <> id -> w_files w' !! j = w_files w !! j;
  rs_slot_same : f_slot (file_of (w_files w') id) = f_slot (file_of (w_files w) id);
  rs_size_same : f_size (file_of (w_files w') id) = f_size (file_of (w_files w) id);
}.

Lemma read_step_refl id w : flash_ok w -> read_step id w w.
Proof. by split. Qed.

Lemma read_step_trans id w1 w2 w3 :
  read_step id w1 w2 -> read_step id w2 w3 -> read_step id w1 w3.
Proof.
  intros [Hok1 Hm1 Hf1 Hfl1 Hs1 Hz1] [Hok2 Hm2 Hf2 Hfl2 Hs2 Hz2].
  split; [done | | congruence | | congruence | congruence].
  - intros a. by rewrite Hm2.
  - intros j Hj. rewrite Hfl2 by done. auto.
Qed.

(** A change of the handle over an unchanged flash. *)
Lemma read_step_put id w w1 f :
  flash_is (mem w) w w1 -> f_slot f = f_slot (file_of (w_files w) id) ->
  f_size f = f_size (file_of (w_files w) id) ->
  read_step id w (mk_world (w_ctx w1) (w_fs w1) (<[id := f]> (w_files w1))).
Proof.
  intros Hw1 Hs Hz. split; cbn [w_fs w_files]; rewrite ?file_of_insert; try done;
    try apply Hw1.
  intros j Hj. rewrite lookup_insert_ne, (fi_files _ _ _ Hw1); done.
Qed.

Lemma reading_ext m m' f : (forall a, m' a = m a) -> reading m f -> reading m' f.
Proof. intros Hm []. split; try done. intros i Hi. rewrite Hm. auto. Qed.

(** Bytes out of the cache. *)
Lemma cached_bytes m f k :
  reading m f -> read_cache_has_remaining f = true ->
  0 <= k <= f_cache_len f - (f_current_data_pos f - f_cache_data_pos f) ->
  sublist (f_current_data_pos f - f_cache_data_pos f) k (f_cache f) =
  mem_bytes m (data_at f (f_current_data_pos f)) k.
Proof.
  intros [] Hr Hk. unfold read_cache_has_remaining in Hr.
  rewrite !andb_true_iff, negb_true_iff, Z.eqb_neq, Z.leb_le, Z.ltb_lt in Hr.
  apply list_eq_byte_at.
  - rewrite zlen_sublist, zlen_mem_bytes; lia.
  - intros i. rewrite zlen_sublist by lia. intros Hi.
    rewrite byte_at_sublist, byte_at_mem_bytes, rg_agree0 by lia.
    unfold data_at. f_equal. lia.
Qed.

(** ** One piece *)

Lemma wp_read_piece id want w (Q : list Z -> world -> Prop) E :
  let f := file_of (w_files w) id in
  fs_geo (w_fs w) = g -> flash_ok w -> reading (mem w) f -> 0 < want ->
  (forall k w', let f' := file_of (w_files w') id in
     read_step id w w' -> reading (mem w') f' ->
     0 <= k <= want -> k <= f_current_data_len f - f_current_data_pos f ->
     (f_current_data_pos f < f_current_data_len f -> 0 < k) ->
     f_current f' = f_current f -> f_data_offset f' = f_data_offset f ->
     f_current_data_len f' = f_current_data_len f ->
     f_current_data_pos f' = f_current_data_pos f ->
     f_span_len f' = f_span_len f -> f_current_next f' = f_current_next f ->
     f_pos f' = f_pos f ->
     Q (mem_bytes (mem w) (data_at f (f_current_data_pos f)) k) w') ->
  wp (read_piece id want) Q E w.
Proof.
  intros f Hgeo Hok Hr Hwant HQ.
  pose proof (rg_pos _ _ Hr) as Hpos. pose proof (rg_cached _ _ Hr) as [Hcl Hcd].
  pose proof (rg_data _ _ Hr) as Hdata. pose proof (rg_sector _ _ Hr) as Hsec.
  pose proof (rg_cache _ _ Hr) as Hc.
  unfold read_piece. apply wp_bind, wp_get_file. fold f.
  apply wp_bind, wp_get_geo. rewrite Hgeo. cbv zeta.
  set (avail := f_current_data_len f - f_current_data_pos f) in *.
  set (n := if want <? avail then want else avail).
  assert (Hn : n = Z.min want avail) by (unfold n; destruct (Z.ltb_spec want avail); lia).
  destruct (sector_in_device (f_current f) (f_data_offset f + f_current_data_pos f) avail)
    as [Hd1 Hd2]; [lia.. |].
  destruct (read_cache_has_remaining f) eqn:Hhit.
  { pose proof Hhit as Hh. unfold read_cache_has_remaining in Hh.
    rewrite !andb_true_iff, negb_true_iff, Z.eqb_neq, Z.leb_le, Z.ltb_lt in Hh.
    set (cached := f_cache_len f - (f_current_data_pos f - f_cache_data_pos f)).
    set (k := if cached <? n then cached else n).
    assert (Hk : k = Z.min cached n) by (unfold k; destruct (Z.ltb_spec cached n); lia).
    apply wp_ret. rewrite (cached_bytes _ _ _ Hr Hhit) by lia.
    apply HQ; done || lia. }
  assert (Haddr : data_at f (f_current_data_pos f) =
    f_current f * sector_size g + f_data_offset f + f_current_data_pos f) by done.
  destruct (Z.ltb_spec n 256) as [Hsmall | Hbig].
  - apply wp_bind. unfold fill_read_cache. apply wp_bind, wp_get_file. fold f.
    apply wp_bind, wp_get_geo. rewrite Hgeo. fold avail.
    set (n0 := if avail <? 256 then avail else 256).
    assert (Hn0 : n0 = Z.min avail 256)
      by (unfold n0; destruct (Z.ltb_spec avail 256); lia).
    rewrite <- Haddr.
    apply wp_bind, wp_raw_read; [done | unfold data_at; lia | lia |
      unfold data_at; lia |].
    intros w1 Hw1. cbv iota beta. apply wp_bind, wp_mod_file.
    apply wp_bind, wp_ret. apply wp_mod_file. apply wp_bind, wp_get_file.
    cbn [w_files]. rewrite !file_of_insert, insert_insert_eq.
    rewrite (fi_files _ _ _ Hw1). fold f.
    set (buf := mem_bytes (mem w) (data_at f (f_current_data_pos f)) n0).
    set (f2 := set_f_cache_len _ _).
    assert (Hbuf : zlen buf = n0) by (unfold buf; apply zlen_mem_bytes; lia).
    change (f_cache_len f2) with n0. change (f_cache f2) with (splice 0 buf (f_cache f)).
    set (k := if want <? n0 then want else n0).
    assert (Hk : k = Z.min want n0) by (unfold k; destruct (Z.ltb_spec want n0); lia).
    apply wp_ret.
    assert (Hpiece : sublist 0 k (splice 0 buf (f_cache f)) =
      mem_bytes (mem w) (data_at f (f_current_data_pos f)) k).
    { apply list_eq_byte_at.
      - rewrite zlen_sublist, zlen_mem_bytes; rewrite ?zlen_splice; lia.
      - intros i. rewrite zlen_sublist by (rewrite ?zlen_splice; lia). intros Hi.
        rewrite byte_at_sublist, byte_at_splice by lia.
        destruct (Z.leb_spec 0 (0 + i)), (Z.ltb_spec (0 + i) (0 + zlen buf));
          simpl; try lia.
        unfold buf. rewrite !byte_at_mem_bytes by lia. f_equal. lia. }
    rewrite Hpiece. rewrite <- (fi_files _ _ _ Hw1).
    set (w2 := mk_world _ _ _).
    assert (Hf2 : file_of (w_files w2) id = f2)
      by (unfold w2; cbn [w_files]; by rewrite file_of_insert).
    apply HQ; rewrite ?Hf2; try done; try lia.
    + apply (read_step_put id w w1 f2 Hw1); done.
    + apply (reading_ext (mem w)); [intros a; apply (fi_mem _ _ _ Hw1) |].
      split; try done.
      * change (f_cache f2) with (splice 0 buf (f_cache f)).
        rewrite zlen_splice by lia. done.
      * change (f_cache_len f2) with n0. split; [lia |]. intros _.
        change (f_cache_data_pos f2) with (f_current_data_pos f).
        change (f_current_data_len f2) with (f_current_data_len f). lia.
      * intros i Hi. change (f_cache_len f2) with n0 in Hi.
        change (f_cache f2) with (splice 0 buf (f_cache f)).
        rewrite byte_at_splice by lia.
        destruct (Z.leb_spec 0 i), (Z.ltb_spec i (0 + zlen buf)); simpl; try lia.
        unfold buf. rewrite byte_at_mem_bytes by lia.
        change (f_cache_data_pos f2) with (f_current_data_pos f).
        change (data_at f2) with (data_at f). unfold data_at. f_equal. lia.
  - apply wp_bind, wp_mod_file. fold f. rewrite <- Haddr.
    set (f2 := set_f_cache_len 0 f). set (w1 := mk_world _ _ _).
    assert (Hf1 : file_of (w_files w1) id = f2)
      by (unfold w1; cbn [w_files]; by rewrite file_of_insert).
    apply (wp_flash_read _ _ _ _ w1); [done | unfold data_at; lia | lia |
      unfold data_at; lia |].
    intros w2 Hw2. change (mem w1) with (mem w).
    apply HQ; rewrite ?(fi_files _ _ _ Hw2), ?Hf1; try done; try lia.
    + eapply read_step_trans; [by apply (read_step_put id w w f2) |].
      split; try apply Hw2; try done; by rewrite (fi_files _ _ _ Hw2).
    + apply (reading_ext (mem w)); [intros a; apply (fi_mem _ _ _ Hw2) |].
      split; try done; try (split; done || lia).
      intros i Hi. change (f_cache_len f2) with 0 in Hi. lia.
Qed.

(** ** The next extent *)

Lemma chain_ext m m' slot : (forall a, m' a = m a) ->
  forall l sector, chain m slot sector l -> chain m' slot sector l.
Proof.
  intros Hm. induction l as [| [s r] l IH]; intros sector; [done |].
  intros (-> & Hs & Hr & Hl). split; [done | split; [done | split; [| by apply IH]]].
  by rewrite (slot_md_ext g m' m).
Qed.

Lemma chain_bytes_ext m m' l :
  (forall a, m' a = m a) -> chain_bytes m' l = chain_bytes m l.
Proof.
  intros Hm. unfold chain_bytes. f_equal. apply list_fmap_ext. intros i [s r] _.
  apply mem_bytes_ext. auto.
Qed.

Lemma mem_bytes_empty m off n : n <= 0 -> mem_bytes m off n = [].
Proof. intros Hn. unfold mem_bytes, addrs. by replace (Z.to_nat n) with 0%nat by lia. Qed.

Lemma remaining_bytes_ext m m' f l :
  (forall a, m' a = m a) -> remaining_bytes m' f l = remaining_bytes m f l.
Proof.
  intros Hm. unfold remaining_bytes. rewrite (chain_bytes_ext m m') by done.
  f_equal. apply mem_bytes_ext. auto.
Qed.

Lemma reading_enter m f s r off :
  slot_md g m s (f_slot f) FFFS_MD_MATCH_LIVE = inr r -> reading m f ->
  reading m (enter_extent s off 0 r f).
Proof.
  intros Hr []. apply slot_md_fits in Hr as [Hs Hfit].
  destruct Hfit as (Ho & Hl & He & Hst). unfold data_end in He.
  pose proof (geo_index (g := g)). pose proof (sector_size_range (g := g)).
  split; cbn [enter_extent f_current f_data_offset f_current_data_len
    f_current_data_pos f_cache f_cache_len set_f_cache_len set_f_data_offset
    set_f_current set_f_current_data_len set_f_span_len set_f_current_next
    set_f_current_data_pos set_f_current_file_offset]; try done; try lia.
Qed.

Lemma wp_read_next_extent id w s r l (Q : unit -> world -> Prop) E :
  let f := file_of (w_files w) id in
  fs_geo (w_fs w) = g -> flash_ok w -> reading (mem w) f ->
  chain (mem w) (f_slot f) (next_extent_sector f) ((s, r) :: l) ->
  f_current_data_pos f = f_current_data_len f ->
  (forall w', let f' := file_of (w_files w') id in
     read_step id w w' -> reading (mem w') f' -> f_pos f' = f_pos f ->
     chain (mem w') (f_slot f') (next_extent_sector f') l ->
     remaining_bytes (mem w') f' l = remaining_bytes (mem w) f ((s, r) :: l) ->
     Q tt w') ->
  wp (read_next_extent id) Q E w.
Proof.
  intros f Hgeo Hok Hrd (Hs & Hs0 & Hr & Hl) Hend HQ.
  unfold read_next_extent. apply wp_bind, wp_get_file. fold f. rewrite Hs.
  apply wp_bind, wp_guard; [intros Hz; apply Z.eqb_eq in Hz; done | intros _].
  apply wp_bind, (wp_read_md g); [done | done |]. intros w1 Hw1.
  fold (slot_md g (mem w) s (f_slot f) FFFS_MD_MATCH_LIVE). rewrite Hr.
  apply wp_mod_file. rewrite (fi_files _ _ _ Hw1). fold f.
  set (f2 := enter_extent _ _ _ _ f). rewrite <- (fi_files _ _ _ Hw1).
  set (w2 := mk_world _ _ _).
  assert (Hf2 : file_of (w_files w2) id = f2)
    by (unfold w2; cbn [w_files]; by rewrite file_of_insert).
  assert (Hm : forall a, mem w2 a = mem w a) by (intros a; apply (fi_mem _ _ _ Hw1)).
  apply HQ; rewrite ?Hf2.
  - apply (read_step_put id w w1 f2 Hw1); done.
  - apply (reading_ext (mem w)); [done |]. by apply reading_enter.
  - done.
  - apply (chain_ext (mem w)); [done |]. exact Hl.
  - rewrite (remaining_bytes_ext (mem w)) by done. unfold remaining_bytes.
    rewrite Hend, Z.sub_diag, (mem_bytes_empty _ _ 0) by lia.
    cbn [app]. unfold chain_bytes. cbn [fmap list_fmap List.concat].
    unfold extent_bytes, data_at.
    change (f_current f2) with s. change (f_data_offset f2) with (md_data_off r).
    change (f_current_data_pos f2) with 0.
    change (f_current_data_len f2) with (md_data_len r).
    by rewrite Z.sub_0_r, Z.add_0_r.
Qed.

(** ** The loop *)

(** The next [k] bytes of the current extent are consumed. *)
Lemma remaining_advance m f l k f' :
  reading m f -> 0 <= k <= f_current_data_len f - f_current_data_pos f ->
  f_current f' = f_current f -> f_data_offset f' = f_data_offset f ->
  f_current_data_len f' = f_current_data_len f ->
  f_current_data_pos f' = f_current_data_pos f + k ->
  remaining_bytes m f l =
    mem_bytes m (data_at f (f_current_data_pos f)) k ++ remaining_bytes m f' l.
Proof.
  intros Hr Hk Hc Ho Hl Hp. unfold remaining_bytes. rewrite app_assoc.
  unfold data_at. rewrite Hc, Ho, Hl, Hp.
  replace (f_current_data_len f - f_current_data_pos f) with
    (k + (f_current_data_len f - (f_current_data_pos f + k))) at 1 by lia.
  rewrite (mem_bytes_split m _ k) by lia. by rewrite Z.add_assoc.
Qed.

Lemma wp_read_loop n : forall id want acc l w (Q : list Z -> world -> Prop) E,
  let f := file_of (w_files w) id in
  fs_geo (w_fs w) = g -> flash_ok w -> reading (mem w) f ->
  chain (mem w) (f_slot f) (next_extent_sector f) l ->
  want <= zlen (remaining_bytes (mem w) f l) ->
  0 <= f_pos f -> f_pos f + want < 2 ^ 32 ->
  Z.max want 0 + Z.of_nat (length l) <= Z.of_nat n ->
  (forall w' l', let f' := file_of (w_files w') id in
     read_step id w w' -> reading (mem w') f' ->
     chain (mem w') (f_slot f') (next_extent_sector f') l' ->
     remaining_bytes (mem w') f' l' =
       drop (Z.to_nat want) (remaining_bytes (mem w) f l) ->
     f_pos f' = f_pos f + Z.max want 0 ->
     Q (acc ++ take (Z.to_nat want) (remaining_bytes (mem w) f l)) w') ->
  wp (read_loop n id want acc) Q E w.
Proof.
  induction n as [| n IH]; intros id want acc l w Q E f Hgeo Hok Hr Hch Hlen Hp0 Hp32
    Hn HQ; cbn [read_loop]; destruct (Z.ltb_spec 0 want) as [Hw | Hw]; cbn [negb].
  1: lia.
  1, 3: apply wp_ret; replace (Z.to_nat want) with 0%nat in HQ by lia;
    specialize (HQ w l (read_step_refl id w Hok) Hr Hch eq_refl);
    rewrite take_0, app_nil_r in HQ; apply HQ; fold f; lia.
  apply wp_bind, wp_get_file. fold f.
  pose proof (rg_pos _ _ Hr) as Hpos. pose proof (rg_data _ _ Hr) as Hdata.
  assert (Hpiece : forall w1 l1, let f1 := file_of (w_files w1) id in
    read_step id w w1 -> reading (mem w1) f1 -> f_pos f1 = f_pos f ->
    chain (mem w1) (f_slot f1) (next_extent_sector f1) l1 ->
    remaining_bytes (mem w1) f1 l1 = remaining_bytes (mem w) f l ->
    Z.of_nat (length l1) <= Z.of_nat (length l) ->
    (f_current_data_pos f1 < f_current_data_len f1 \/
     Z.of_nat (length l1) < Z.of_nat (length l)) ->
    wp (piece <- read_piece id want ;;
        let k := zlen piece in
        mod_file id (fun f =>
          set_f_pos (u32 (f_pos f + k))
            (set_f_current_data_pos (u32 (f_current_data_pos f + k)) f)) ;;
        read_loop n id (want - k) (acc ++ piece)) Q E w1).
  { intros w1 l1 f1 Hst1 Hr1 Hfp1 Hch1 Hrem1 Hl1 Hprog.
    pose proof (rg_pos _ _ Hr1) as Hpos1. pose proof (rg_data _ _ Hr1) as Hd1.
    pose proof (sector_size_range (g := g)).
    apply wp_bind, wp_read_piece;
      [by rewrite (rs_fs _ _ _ Hst1) | apply Hst1 | done | done |].
    intros k w2. fold f1. intros f2 Hst2 Hr2 Hk Hkl Hkpos Hc2 Ho2 Hl2 Hp2 Hsp2 Hn2 Hfp2.
    assert (Hz : zlen (mem_bytes (mem w1) (data_at f1 (f_current_data_pos f1)) k) = k)
      by (apply zlen_mem_bytes; lia).
    rewrite Hz. apply wp_bind, wp_mod_file. fold f2.
    set (f3 := set_f_pos _ _). set (w3 := mk_world _ _ _).
    assert (Hf3 : file_of (w_files w3) id = f3)
      by (unfold w3; cbn [w_files]; by rewrite file_of_insert).
    assert (Hp3 : f_current_data_pos f3 = f_current_data_pos f1 + k).
    { unfold f3. cbn [set_f_pos set_f_current_data_pos f_current_data_pos].
      unfold u32. rewrite Z.mod_small; lia. }
    assert (Hfp3 : f_pos f3 = f_pos f + k).
    { unfold f3. cbn [set_f_pos set_f_current_data_pos f_pos].
      unfold u32. rewrite Z.mod_small; lia. }
    assert (Hst3 : read_step id w w3).
    { eapply read_step_trans; [exact Hst1 |]. eapply read_step_trans; [exact Hst2 |].
      assert (Hrefl : flash_is (mem w2) w2 w2) by (split; try apply Hst2; done).
      apply (read_step_put id w2 w2 f3); done. }
    assert (Hr3 : reading (mem w3) f3).
    { change (mem w3) with (mem w2). destruct Hr2. split; try done; try lia.
      unfold f3 in *. cbn [set_f_pos set_f_current_data_pos f_current_data_pos
        f_current_data_len] in *. rewrite Hp3. fold f1. lia. }
    assert (Hm3 : forall a, mem w3 a = mem w1 a) by apply Hst2.
    assert (Hadv : remaining_bytes (mem w) f l =
      mem_bytes (mem w1) (data_at f1 (f_current_data_pos f1)) k ++
      remaining_bytes (mem w3) f3 l1).
    { rewrite (remaining_bytes_ext (mem w1) (mem w3)), <- Hrem1 by done.
      apply remaining_advance; done || lia. }
    assert (Hlen3 : zlen (remaining_bytes (mem w3) f3 l1) =
      zlen (remaining_bytes (mem w) f l) - k)
      by (rewrite Hadv, zlen_app, Hz; lia).
    apply (IH id (want - k) _ l1 w3); rewrite ?Hf3; try done.
    - rewrite (rs_fs _ _ _ Hst3). done.
    - apply Hst3.
    - apply (chain_ext (mem w1)); [done |]. unfold next_extent_sector.
      change (f_slot f3) with (f_slot f2). rewrite (rs_slot_same _ _ _ Hst2 : f_slot f2 = f_slot f1).
      change (f_span_len f3) with (f_span_len f2). rewrite Hsp2.
      change (f_current f3) with (f_current f2). rewrite Hc2.
      change (f_current_next f3) with (f_current_next f2). by rewrite Hn2.
    - lia.
    - lia.
    - lia.
    - lia.
    - intros w4 l4 f4 Hst4 Hr4 Hch4 Hrem4 Hfp4.
      rewrite Hadv in HQ.
      assert (Hlk : length (mem_bytes (mem w1) (data_at f1 (f_current_data_pos f1)) k)
        = Z.to_nat k) by (unfold zlen in Hz; lia).
      rewrite take_app, drop_app, (take_ge (mem_bytes _ _ _)),
        (drop_ge (mem_bytes _ _ _)), Hlk in HQ by lia.
      replace (Z.to_nat want - Z.to_nat k)%nat with (Z.to_nat (want - k)) in HQ by lia.
      rewrite <- app_assoc. apply (HQ w4 l4); try done.
      + by eapply read_step_trans.
      + fold f4. lia. }
  destruct (Z.leb_spec (f_current_data_len f) (f_current_data_pos f)) as [Hend | Hin];
    cbn [when].
  - assert (Heq : f_current_data_pos f = f_current_data_len f) by lia.
    destruct l as [| [s r] l].
    { unfold remaining_bytes in Hlen. rewrite Heq, Z.sub_diag, mem_bytes_empty in Hlen
        by lia. change (zlen _) with 0 in Hlen. lia. }
    apply wp_bind, (wp_read_next_extent id w s r l); try done.
    intros w1 f1 Hst1 Hr1 Hfp1 Hch1 Hrem1. apply (Hpiece w1 l); try done.
    + cbn [length]. lia.
    + right. cbn [length]. lia.
  - apply wp_bind, wp_ret. apply (Hpiece w l); try done; try lia.
    by left.
Qed.

(** ** The whole read *)

Lemma wp_read (N : Fuel) id size l w :
  let f := file_of (w_files w) id in
  let want := Z.min size (f_size f - f_pos f) in
  fs_geo (w_fs w) = g -> flash_ok w -> reading (mem w) f ->
  f_closed f = false -> has_flag (f_flags f) FFFS_O_RDONLY = true ->
  0 <= size -> 0 <= f_pos f <= f_size f -> is_u32 (f_size f) ->
  chain (mem w) (f_slot f) (next_extent_sector f) l ->
  f_size f - f_pos f <= zlen (remaining_bytes (mem w) f l) ->
  want + Z.of_nat (length l) <= Z.of_nat N ->
  wp (fffs_read id size)
    (fun bytes w' => bytes = take (Z.to_nat want) (remaining_bytes (mem w) f l) /\
       exists l', read_step id w w' /\
       let f' := file_of (w_files w') id in
       reading (mem w') f' /\ f_pos f' = f_pos f + want /\
       chain (mem w') (f_slot f') (next_extent_sector f') l' /\
       remaining_bytes (mem w') f' l' =
         drop (Z.to_nat want) (remaining_bytes (mem w) f l))
    (fun _ _ => False) w.
Proof.
  intros f want Hgeo Hok Hr Hcl Hfl Hsz Hpos [_ Hu32] Hch Hlen Hn.
  unfold fffs_read. apply wp_bind, wp_get_file. fold f.
  apply wp_bind, wp_guard; [by rewrite Hcl, Hfl | intros _].
  assert (Hw : (if size <? u32 (f_size f - f_pos f) then size
                else u32 (f_size f - f_pos f)) = want).
  { unfold u32. rewrite Z.mod_small by lia. unfold want.
    destruct (Z.ltb_spec size (f_size f - f_pos f)); lia. }
  cbv zeta. rewrite Hw.
  apply (wp_read_loop _ _ _ _ l); fold f; try done; try lia.
  { unfold fuel. lia. }
  intros w' l' f' Hst Hr' Hch' Hrem Hp. split; [done |]. exists l'.
  repeat split; try apply Hst; try apply Hr'; try done. fold f'. lia.
Qed.
End ReadSpec.

(** ** Properties *)

(** C27: reading.  On an open handle whose chain of extents holds the rest of
    the file, [fffs_read] terminates and succeeds within fuel for the bytes
    asked for and the extents left, and returns exactly the next bytes of the
    chain, at most [size] and at most up to the end of the file; the position
    advances by their number, what remains is the rest of the chain, and
    neither the flash nor any other handle changes. *)
Theorem read_returns_chain `{Backend} `{!NorFlash} `{!ValidBackend}
    (g : fs_geometry) `{!GeoOk g} (N : Fuel) (id size : Z)
    (l : list (Z * fffs_md_record)) (w : world) :
  let f := file_of (w_files w) id in
  let want := Z.min size (f_size f - f_pos f) in
  fs_geo (w_fs w) = g -> flash_ok w -> reading g (mem w) f ->
  f_closed f = false -> has_flag (f_flags f) FFFS_O_RDONLY = true ->
  0 <= size -> 0 <= f_pos f <= f_size f -> is_u32 (f_size f) ->
  chain g (mem w) (f_slot f) (next_extent_sector f) l ->
  f_size f - f_pos f <= zlen (remaining_bytes g (mem w) f l) ->
  want + Z.of_nat (length l) <= Z.of_nat N ->
  exists w' l',
    fffs_read id size w =
      (Ok (take (Z.to_nat want) (remaining_bytes g (mem w) f l)), w') /\
    read_step id w w' /\
    let f' := file_of (w_files w') id in
    reading g (mem w') f' /\ f_pos f' = f_pos f + want /\
    chain g (mem w') (f_slot f') (next_extent_sector f') l' /\
    remaining_bytes g (mem w') f' l' =
      drop (Z.to_nat want) (remaining_bytes g (mem w) f l).
Proof.
  intros f want Hgeo Hok Hr Hcl Hfl Hsz Hpos Hu32 Hch Hlen Hn.
  pose proof (wp_read g N id size l w Hgeo Hok Hr Hcl Hfl Hsz Hpos Hu32 Hch Hlen Hn)
    as Hwp.
  apply wp_returns in Hwp as (bytes & w' & Hrun & -> & l' & Hst & Hrest).
  by exists w', l'.
Qed.

Definition demo_script : @M Demo.backend unit :=
  (@fffs_open Demo.backend hash_index 1000%nat 1 [97]
     (Z.lor FFFS_O_WRONLY FFFS_O_CREATE) ;;
  @fffs_write Demo.backend hash_index 1000%nat 1 (fill 250 7 ++ fill 50 9) ;;
  @fffs_close Demo.backend hash_index 1 ;;
  @fffs_open Demo.backend hash_index 1000%nat 1 [97] FFFS_O_RDONLY).

Definition demo_reading : @world Demo.backend := snd (demo_script Demo.blank).

Definition demo_mem : Z -> Z := @mem Demo.backend (dev_nor 2048 4) demo_reading.

Definition demo_handle : fffs_file := file_of (w_files demo_reading) 1.

(** The record of the second extent, in sector 2. *)
Definition demo_extent : fffs_md_record :=
  match slot_md Demo.geo demo_mem 2 (f_slot demo_handle) FFFS_MD_MATCH_LIVE with
  | inr r => r
  | inl _ => md_record_zero
  end.

Lemma demo_reading_ok : @flash_ok Demo.backend (dev_nor 2048 4) demo_reading.
Proof.
  split; [vm_compute; reflexivity |].
  assert (Hall : map_Forall (fun _ v => is_u8 v) (dv_mem (w_ctx demo_reading)))
    by (apply (bool_decide_unpack _); vm_compute; exact I).
  intros a. unfold dev_byte. destruct (_ !! _) as [v |] eqn:Hv; simpl.
  - by apply (Hall _ _ Hv).
  - unfold is_u8. lia.
Qed.

Lemma demo_handle_reading : @reading Demo.geo demo_mem demo_handle.
Proof.
  split; [vm_compute; split; done | vm_compute; split; done | vm_compute; split; done |
    vm_compute; done | vm_compute; repeat split; done |].
  - assert (Hc : sublist 0 (f_cache_len demo_handle) (f_cache demo_handle) =
      mem_bytes demo_mem (data_at Demo.geo demo_handle 0) (f_cache_len demo_handle))
      by (vm_compute; reflexivity).
    assert (Hp : f_cache_data_pos demo_handle = 0) by (vm_compute; reflexivity).
    assert (Hl : zlen (f_cache demo_handle) = 256) by (vm_compute; reflexivity).
    assert (Hn : f_cache_len demo_handle = 227) by (vm_compute; reflexivity).
    intros i Hi. apply (f_equal (fun l => byte_at l i)) in Hc.
    rewrite byte_at_sublist, byte_at_mem_bytes in Hc by lia.
    rewrite Z.add_0_l in Hc. rewrite Hc, Hp. unfold data_at. f_equal; lia.
Qed.

Lemma demo_chain :
  chain Demo.geo demo_mem (f_slot demo_handle) (next_extent_sector demo_handle)
    [(2, demo_extent)].
Proof.
  split; [vm_compute; reflexivity |]. split; [done |].
  split; [vm_compute; reflexivity | exact I].
Qed.

Lemma read_returns_chain_witness :
  exists w', @fffs_read Demo.backend 300%nat 1 280 demo_reading =
    (Ok (fill 250 7 ++ fill 30 9), w').
Proof.
  destruct (@read_returns_chain Demo.backend (dev_nor 2048 4) Demo.valid Demo.geo
    Demo.geo_valid 300%nat 1 280 [(2, demo_extent)] demo_reading)
    as (w' & l' & Hr & _).
  - vm_compute. reflexivity.
  - exact demo_reading_ok.
  - exact demo_handle_reading.
  - vm_compute. reflexivity.
  - vm_compute. reflexivity.
  - done.
  - vm_compute. split; done.
  - vm_compute. split; done.
  - exact demo_chain.
  - vm_compute. done.
  - vm_compute. done.
  - exists w'. etransitivity; [exact Hr |]. vm_compute. reflexivity.
Defined.
