(* ===== verification/Fastffs.v ===== *)
(** * Public API

    [src/fastffs.c]: format, mount and unmount, stat, exists, delete and the
    directory iterator. *)

From Stdlib Require Import String.
From S2P Require Export File.

#[local] Open Scope string_scope.
#[local] Open Scope Z_scope.
#[local] Open Scope fffs_scope.

(** The shift loop of [format_sector_shift]: [n] shifts left from [shift]. *)
Fixpoint sector_shift_loop (n : nat) (shift size : Z) : option Z :=
  match n with
  | O => None
  | S n' => if Z.shiftl 256 shift =? size then Some shift
            else sector_shift_loop n' (shift + 1) size
  end.

(** [FFFS_SECTOR_DEFAULT] is 0. *)
Definition format_sector_shift (opt_size : Z) : option Z :=
  let size := if opt_size =? 0 then FFFS_DEFAULT_SECTOR_SIZE else opt_size in
  sector_shift_loop
    (Z.to_nat (FFFS_MAX_SECTOR_SHIFT - FFFS_MIN_SECTOR_SHIFT + 1))
    FFFS_MIN_SECTOR_SHIFT size.

Definition fffs_status_name (s : fffs_status) : string :=
  match s with
  | FFFS_OK => "ok"
  | FFFS_ERR_INVALID => "invalid"
  | FFFS_ERR_NOMEM => "nomem"
  | FFFS_ERR_RANGE => "range"
  | FFFS_ERR_NO_SPACE => "no_space"
  | FFFS_ERR_NOT_FOUND => "not_found"
  | FFFS_ERR_EXISTS => "exists"
  | FFFS_ERR_NAME_TOO_LONG => "name_too_long"
  | FFFS_ERR_CORRUPT => "corrupt"
  | FFFS_ERR_IO => "io"
  end.

(** The mounted [struct fffs] before the journal is replayed. *)
Definition mount_fs (backend_size : Z) (opts : fffs_mount_options)
    (scratch_buf : list Z) (sequence : fffs_index_sequence) (fs : fffs)
  : fffs :=
  let size := Z.shiftl 256 (seq_sector_shift sequence) in
  let sectors := seq_index_sectors sequence in
  mk_fffs
    (mk_geometry size (backend_size / size) (seq_sector_shift sequence) sectors
       (opt_strict opts) (opt_scratch_size opts)
       (opt_index_hash_table_size opts))
    (mk_log (seq_oldest_sector sequence) (seq_count sequence)
       (seq_active_sector sequence)
       (seq_active_sector sequence * size + FFFS_HEADER_SIZE)
       (seq_active_serial sequence))
    (mk_alloc None sectors 0 (compaction_reserve_sectors (fs_alloc fs)) 1)
    (mk_gc sectors (gc_md (fs_gc fs)) (compaction_candidates (fs_gc fs)))
    (mk_info 0 0 0 FFFS_SECTORS_PER_FILE_Q8_ONE)
    (index_cache fs) (index_heads fs) scratch_buf 0 0.

Section Fastffs.
Context `{Backend} `{!IndexCache} `{Fuel}.

Definition fffs_format (opts : fffs_format_options) : M unit :=
  guard_err (negb fffs_valid_backend) FFFS_ERR_INVALID ;;
  let count := if negb (opt_index_sectors opts =? 0)
               then opt_index_sectors opts else FFFS_DEFAULT_INDEX_SECTORS in
  match format_sector_shift (opt_sector_size opts) with
  | None => fail FFFS_ERR_INVALID
  | Some shift =>
      let size := Z.shiftl 256 shift in
      guard_err ((count <? 2) || (15 <? count) ||
                 negb (be_size mod size =? 0) || (be_size / size <? count) ||
                 (UINT16_MAX <? be_size / size)) FFFS_ERR_INVALID ;;
      let index_area_size := size * count in
      let erase_size := if 8192 <? size then size else 8192 in
      let erase_size := if erase_size <? index_area_size
                        then index_area_size else erase_size in
      let erase_size := if be_size <? erase_size then be_size
                        else erase_size in
      backend_erase 0 erase_size ;;
      fffs_program_index_header 0 count shift 0
  end.

Definition fffs_unmount : M unit := mod_fs (fun _ => fffs_zero).

(** The steps of the mount after the structure is filled; a failure unmounts. *)
Definition mount_steps (opts : fffs_mount_options) : M unit :=
  fffs_index_finish_interrupted_compaction ;;
  fffs_alloc_map_mount_init opts ;;
  fffs_replay_index.

Definition fffs_mount (opts : fffs_mount_options) : M unit :=
  let table := opt_index_hash_table_size opts in
  guard_err (negb fffs_valid_backend || negb (index_cache_config_valid table))
    FFFS_ERR_INVALID ;;
  guard_err (index_needs_storage &&
             (negb (opt_index_cache opts) ||
              (opt_index_cache_size opts <? index_cache_required_size table)))
    FFFS_ERR_INVALID ;;
  match opt_scratch opts with
  | None => fail FFFS_ERR_INVALID
  | Some scratch_buf =>
      guard_err (opt_scratch_size opts <? FFFS_MIN_SCRATCH_SIZE)
        FFFS_ERR_INVALID ;;
      mod_fs (fun _ => fffs_zero) ;;
      sequence <- fffs_find_index_sequence ;;
      let size := Z.shiftl 256 (seq_sector_shift sequence) in
      guard_err (negb (be_size mod size =? 0) ||
                 (UINT16_MAX <? be_size / size)) FFFS_ERR_CORRUPT ;;
      mod_fs (fun fs =>
        mount_fs be_size opts scratch_buf sequence (index_clear table fs)) ;;
      r <- try_ (mount_steps opts) ;;
      match r with
      | inl err => fffs_unmount ;; fail err
      | inr _ => ret tt
      end
  end.

Definition fffs_stat_file (name : list Z) : M fffs_stat :=
  rs <- index_resolve name None ;;
  match rs_root rs with
  | Some root => ret (root_st root)
  | None => fail FFFS_ERR_NOT_FOUND
  end.

Definition fffs_exists (name : list Z) : M bool :=
  r <- try_ (fffs_stat_file name) ;;
  match r with
  | inr _ => ret true
  | inl FFFS_ERR_NOT_FOUND => ret false
  | inl err => fail err
  end.

Definition fffs_delete_file (name : list Z) : M unit :=
  rs <- index_resolve name None ;;
  guard_err (negb (rs_found rs)) FFFS_ERR_NOT_FOUND ;;
  fffs_append_index_record (rs_slot rs) 0 ;;
  invalidate_and_account (rs_slot rs) (rs_head rs)
    (match rs_root rs with Some root => root_next root | None => 0 end).

(** ** Directory iteration *)

Definition fffs_dir_open (prefix : option (list Z))
  : fffs_status * fffs_dir :=
  match prefix with
  | None => (FFFS_OK, dir_zero)
  | Some p =>
      if FFFS_MAX_NAME <? zlen p
      then (FFFS_ERR_NAME_TOO_LONG,
            set_d_closed true (set_d_status FFFS_ERR_NAME_TOO_LONG dir_zero))
      else (FFFS_OK, set_d_prefix_len (zlen p) (set_d_prefix p dir_zero))
  end.

Definition fffs_dir_read (dir : fffs_dir) : M (option fffs_stat * fffs_dir) :=
  if d_closed dir then ret (None, set_d_status FFFS_ERR_INVALID dir)
  else index_dir_read dir.

Definition fffs_dir_status (dir : fffs_dir) : fffs_status := d_status dir.

Definition fffs_dir_close (dir : fffs_dir) : fffs_status * fffs_dir :=
  if d_closed dir then (FFFS_ERR_INVALID, dir)
  else (FFFS_OK, set_d_closed true dir).

Fixpoint list_loop (n : nat) (dir : fffs_dir) (acc : list fffs_stat)
  : M (list fffs_stat * fffs_dir) :=
  match n with
  | O => diverge
  | S n' =>
      let* (entry, dir) := fffs_dir_read dir in
      match entry with
      | None => ret (acc, dir)
      | Some st => list_loop n' dir (acc ++ [st])
      end
  end.

(** The entries stored and [*out_count]. *)
Definition fffs_list (capacity : Z) : M (list fffs_stat * Z) :=
  let '(err, dir) := fffs_dir_open None in
  check err ;;
  let* (entries, dir) := list_loop fuel dir [] in
  check (fffs_dir_status dir) ;;
  check (fst (fffs_dir_close dir)) ;;
  ret (take (Z.to_nat capacity) entries, zlen entries).
End Fastffs.
