(* ===== verification/Mount.v ===== *)
(** * Mounting

    What [fffs_mount] of [src/fastffs.c] makes of a device: the composition of
    discovery ([Discovery]), the allocation map ([AllocMap]) and replay
    ([Replay]).  A clean journal is mounted as the namespace it spells; a
    freshly formatted device, whatever it held before, as an empty one.  A
    mount that fails leaves the structure as it was, when an argument is at
    fault, or zeroed. *)

From S2P Require Export Discovery Fastffs.

Section Mount.
Context `{Backend} `{!NorFlash} `{!ValidBackend} (g : fs_geometry) `{!GeoOk g}.
Context (I : IndexCache) `{!CachedIndex I}.
#[local] Abbreviation base s := (s * sector_size g).
#[local] Abbreviation N := (index_sectors g).

(** Options that the mount of a device with geometry [g] accepts. *)
Record mount_accepts (opts : fffs_mount_options) : Prop := {
  ma_valid : index_cache_config_valid (opt_index_hash_table_size opts) = true;
  ma_storage : index_needs_storage = true -> opt_index_cache opts = true /\
    index_cache_required_size (opt_index_hash_table_size opts) <=
      opt_index_cache_size opts;
  ma_table : opt_index_hash_table_size opts = index_hash_table_size g;
  ma_positive : 0 < index_hash_table_size g;
  ma_scratch : is_Some (opt_scratch opts);
  ma_scratch_size : opt_scratch_size opts = scratch_size g;
  ma_strict : opt_strict opts = strict g;
  ma_map : exists buf, opt_alloc_map opts = Some buf /\
    opt_alloc_map_words opts = zlen buf /\
    map_words_for_sectors (sector_count g) <= zlen buf;
}.

(** The end of the active sector's records. *)
Definition journal_end (m : Z -> Z) (l : fs_log_state) : Z :=
  base (active_index_sector l) + FFFS_HEADER_SIZE +
  4 * zlen (sector_journal g m (active_index_sector l)).

(** The state after a successful mount. *)
Record mounted (m : Z -> Z) (l : fs_log_state) (w w' : world) : Prop := {
  mt_ok : flash_ok w';
  mt_mem : forall a, mem w' a = m a;
  mt_files : w_files w' = w_files w;
  mt_geo : fs_geo (w_fs w') = g;
  mt_idx_ok : idx_ok (w_fs w');
  mt_map : idx_map (w_fs w') = replay_map ∅ (journal g m l);
  mt_log : fs_log (w_fs w') = set_next_index_offset (journal_end m l) l;
  mt_open : open_files (w_fs w') = 0;
}.

Lemma valid_backend : fffs_valid_backend = true.
Proof.
  pose proof granule_pos. pose proof granule_le. pose proof size_pos.
  unfold fffs_valid_backend. rewrite !andb_true_iff, !negb_true_iff, !Z.eqb_neq,
    Z.leb_le, Z.eqb_eq, size_granule. lia.
Qed.

Lemma fs_geometry_eta : mk_geometry (sector_size g) (sector_count g)
  (sector_shift g) N (strict g) (scratch_size g) (index_hash_table_size g) = g.
Proof. by destruct g. Qed.

(** The structure that the mount fills in. *)
Lemma mount_fs_spec opts buf l : mount_accepts opts ->
  let fs := mount_fs be_size opts buf (sequence_of g l)
              (index_clear (opt_index_hash_table_size opts) fffs_zero) in
  fs_geo fs = g /\ idx_ok fs /\ idx_map fs = ∅ /\
  fs_log fs = set_next_index_offset (base (active_index_sector l) + FFFS_HEADER_SIZE) l /\
  open_files fs = 0.
Proof.
  intros [] fs. destruct (image_divides g) as [_ Hdiv].
  assert (Hg : fs_geo fs = g).
  { unfold fs, mount_fs. simpl. rewrite (size_shift g), Hdiv, ma_strict0,
      ma_scratch_size0, ma_table0. apply fs_geometry_eta. }
  split; [done |].
  destruct (idx_cleared (set_fs_geo g fffs_zero)) as (Hok & Hmap & _);
    [simpl; by rewrite <- ma_table0 | done |].
  rewrite idx_clear_geo in Hok, Hmap. simpl fs_geo in Hok, Hmap.
  rewrite <- ma_table0 in Hok, Hmap.
  destruct (idx_ok_ext _ fs Hok) as [Hok' Hmap']; [done.. |].
  split; [done |]. split; [by rewrite Hmap' |].
  split; [unfold fs, mount_fs; simpl; rewrite (size_shift g); by destruct l |].
  done.
Qed.

Lemma wp_mount_init opts w (Q : unit -> world -> Prop) E :
  fs_geo (w_fs w) = g -> mount_accepts opts ->
  (forall w', w_ctx w' = w_ctx w -> w_files w' = w_files w ->
     fs_less_map (w_fs w') = fs_less_map (w_fs w) -> Q tt w') ->
  wp (fffs_alloc_map_mount_init opts) Q E w.
Proof.
  intros Hg [] HQ. destruct ma_map0 as (buf & Hb & Hw & Hfit).
  pose proof (geo_index (g := g)). pose proof (geo_count (g := g)).
  destruct (mount_init_run opts buf w) as (w' & Hrun & Hc & Hf & Hfl & _);
    rewrite ?Hg; try done; [lia |].
  eapply returns_wp; [exact Hrun | by apply HQ].
Qed.

Lemma wp_mount_steps opts l w (Q : unit -> world -> Prop) E :
  fs_geo (w_fs w) = g -> flash_ok w -> idx_ok (w_fs w) -> idx_map (w_fs w) = ∅ ->
  mount_accepts opts -> index_sequence_count l < N -> clean_journal g I (mem w) l ->
  fs_log (w_fs w) = set_next_index_offset (base (active_index_sector l) +
    FFFS_HEADER_SIZE) l -> open_files (w_fs w) = 0 ->
  (forall w', mounted (mem w) l w w' -> Q tt w') ->
  wp (mount_steps opts) Q E w.
Proof.
  intros Hg Hok Hidx Hempty Hma Hcnt Hcj Hlog Hopen HQ. unfold mount_steps.
  apply wp_bind. unfold fffs_index_finish_interrupted_compaction.
  apply wp_bind, wp_get_fs. rewrite Hg, Hlog. cbn [set_next_index_offset
    index_sequence_count].
  rewrite (proj2 (Z.ltb_lt _ _) Hcnt). apply wp_ret.
  apply wp_bind, wp_mount_init; [done | done |]. intros w1 Hc1 Hf1 Hl1.
  assert (Hmem1 : forall a, mem w1 a = mem w a) by (intros; unfold mem; by rewrite Hc1).
  assert (Hg1 : fs_geo (w_fs w1) = g) by (rewrite <- Hg; exact (f_equal fs_geo Hl1)).
  assert (Hlog1 : fs_log (w_fs w1) = fs_log (w_fs w)) by exact (f_equal fs_log Hl1).
  destruct (idx_ok_ext (w_fs w) (w_fs w1) Hidx) as [Hidx1 Hmap1];
    [exact (f_equal fs_geo Hl1) | exact (f_equal index_cache Hl1)
    | exact (f_equal index_heads Hl1) |].
  destruct (clean_journal_ext g I (mem w) (mem w1) l (base (active_index_sector l) +
    FFFS_HEADER_SIZE) Hmem1 Hcj) as [Hcj1 Hj1].
  rewrite <- Hlog, <- Hlog1 in Hcj1, Hj1.
  eapply (wp_replay g I); try done.
  - unfold flash_ok. by rewrite Hc1.
  - by rewrite Hmap1.
  - intros w2 l2 Hw2 Hoff. apply HQ. split.
    + apply Hw2.
    + intros a. by rewrite (rp_mem _ _ _ _ Hw2), Hmem1.
    + by rewrite (rp_files _ _ _ _ Hw2).
    + by rewrite (replaying_geo _ _ _ _ Hw2).
    + apply Hw2.
    + rewrite (rp_idx _ _ _ _ Hw2). unfold l2. by rewrite Hj1.
    + rewrite (replaying_log _ _ _ _ Hw2), Hoff, Hlog1, Hlog. unfold l2, journal_end,
        sector_journal. rewrite Hlog1, Hlog, (records_from_ext _ _ _ _ Hmem1).
      by destruct l.
    + rewrite (f_equal open_files (rp_frame _ _ _ _ Hw2) : open_files (w_fs w2) =
        open_files (w_fs w1)).
      rewrite <- Hopen. exact (f_equal open_files Hl1).
Qed.

Lemma wp_mount opts l w (Q : unit -> world -> Prop) E :
  flash_ok w -> mount_accepts opts -> ring_headers g (mem w) l ->
  index_sequence_count l < N -> clean_journal g I (mem w) l ->
  (forall w', mounted (mem w) l w w' -> Q tt w') ->
  wp (fffs_mount opts) Q E w.
Proof.
  intros Hok Hma Hrh Hcnt Hcj HQ. pose proof Hma as Hma'. destruct Hma'.
  unfold fffs_mount. cbv zeta. rewrite valid_backend, ma_valid0.
  apply wp_bind, wp_ret. apply wp_bind, wp_guard; intros Hst.
  { exfalso. apply andb_true_iff in Hst as [Hns Hst].
    destruct (ma_storage0 Hns) as [Hc Hsz]. rewrite Hc in Hst. cbn [negb orb] in Hst.
    apply Z.ltb_lt in Hst. lia. }
  destruct ma_scratch0 as [buf Hbuf]. rewrite Hbuf.
  pose proof (geo_scratch (g := g)).
  apply wp_bind, wp_guard; intros Hsc; [apply Z.ltb_lt in Hsc; lia |].
  apply wp_bind, wp_mod_fs. set (w1 := mk_world _ _ _).
  apply wp_bind, (wp_find_sequence g l w1); [exact Hok | exact Hrh |]. intros w2 Hw2.
  destruct (image_divides g) as [Hmod Hdiv]. pose proof (geo_count (g := g)).
  cbn [sequence_of seq_sector_shift]. rewrite (size_shift g), Hmod, Hdiv.
  rewrite (proj2 (Z.ltb_ge UINT16_MAX (sector_count g))) by lia.
  apply wp_bind, wp_ret. apply wp_bind, wp_mod_fs. rewrite (fi_fs _ _ _ Hw2).
  set (w3 := mk_world _ _ _).
  destruct (mount_fs_spec opts buf l Hma) as (Hg & Hio & Him & Hlog & Hopen).
  assert (Hmem3 : forall a, mem w3 a = mem w a) by apply Hw2.
  assert (Hj3 : journal g (mem w3) l = journal g (mem w) l)
    by (by destruct (clean_journal_ext g I (mem w) (mem w3) l 0 Hmem3 Hcj)).
  apply wp_bind, wp_try.
  apply (wp_mount_steps opts l w3); [exact Hg | apply Hw2 | exact Hio | exact Him |
    exact Hma | exact Hcnt | | exact Hlog | exact Hopen |].
  - destruct (clean_journal_ext g I (mem w) (mem w3) l (next_index_offset l) Hmem3 Hcj)
      as [Hcj' _]. by destruct l.
  - intros w4 Hw4. apply wp_ret, HQ. destruct Hw4. split; try done.
    + intros a. by rewrite mt_mem0.
    + rewrite mt_files0. exact (fi_files _ _ _ Hw2).
    + by rewrite mt_map0, Hj3.
    + rewrite mt_log0. unfold journal_end, sector_journal.
      by rewrite (records_from_ext _ _ _ _ Hmem3).
Qed.

End Mount.

(** ** Formatting *)

Section Format.
Context `{Backend} `{!NorFlash} `{!ValidBackend} (g : fs_geometry) `{!GeoOk g}
  `{!EraseUnit g}.
Context (I : IndexCache) `{!CachedIndex I}.
#[local] Abbreviation base s := (s * sector_size g).
#[local] Abbreviation N := (index_sectors g).

(** The bytes that [fffs_format] erases. *)
Definition format_span : Z :=
  Z.min be_size (Z.max (Z.max 8192 (sector_size g)) (sector_size g * N)).

Record formatted (m : Z -> Z) : Prop := {
  fm_header : mem_bytes m 0 8 = index_header N (sector_shift g) 0;
  fm_erased : erased_span m 8 (format_span - 8);
}.

(** The journal of a formatted device. *)
Definition format_log : fs_log_state := mk_log 0 1 0 FFFS_HEADER_SIZE 0.

Lemma erased_no_header m off : erased_span m off FFFS_HEADER_SIZE ->
  header_at m off = None.
Proof.
  intros He. unfold header_at, fffs_valid_index_header. cbv zeta.
  rewrite byte_at_mem_bytes by (change FFFS_HEADER_SIZE with 8; lia).
  rewrite He by (change FFFS_HEADER_SIZE with 8; lia).
  by rewrite orb_true_r.
Qed.

Lemma format_span_bounds : 8192 <= format_span \/ format_span = be_size.
Proof. unfold format_span. lia. Qed.

Lemma format_span_index : N * sector_size g <= format_span.
Proof.
  pose proof (geo_count (g := g)). pose proof (geo_image (g := g)).
  pose proof (sector_size_range (g := g)). unfold format_span. nia.
Qed.

(** Whole sectors are erased. *)
Lemma format_span_sectors : exists k, format_span = k * sector_size g.
Proof.
  pose proof (geo_image (g := g)) as Himg. pose proof (geo_shift (g := g)).
  pose proof (geo_sector_size (g := g)) as Hss. rewrite Z.shiftl_mul_pow2 in Hss by lia.
  unfold format_span.
  destruct (Z.min_spec be_size (Z.max (Z.max 8192 (sector_size g)) (sector_size g * N)))
    as [[_ ->] | [_ ->]]; [by exists (sector_count g) |].
  destruct (Z.max_spec (Z.max 8192 (sector_size g)) (sector_size g * N))
    as [[_ ->] | [_ ->]]; [exists N; lia |].
  destruct (Z.max_spec 8192 (sector_size g)) as [[_ ->] | [Hle ->]]; [exists 1; lia |].
  destruct (Z.le_gt_cases (sector_shift g) 5).
  - exists (2 ^ (5 - sector_shift g)). rewrite Hss.
    replace 8192 with (256 * 2 ^ 5) by done.
    replace 5 with (5 - sector_shift g + sector_shift g) at 1 by lia.
    rewrite Z.pow_add_r by lia. lia.
  - pose proof (Z.pow_le_mono_r 2 6 (sector_shift g)). lia.
Qed.

Lemma formatted_none m off : formatted m -> 8 <= off -> off + 8 <= format_span ->
  header_at m off = None.
Proof.
  intros [_ He] Ho Hl. apply erased_no_header. intros a Ha. apply He.
  change FFFS_HEADER_SIZE with 8 in Ha. lia.
Qed.

Lemma format_log_serial s : 0 <= s < N -> in_sequence g format_log s = (s =? 0).
Proof.
  intros Hs. unfold in_sequence. rewrite ring_pos_cases by (simpl; lia).
  simpl oldest_index_sector. rewrite (proj2 (Z.leb_le 0 s)) by lia. simpl.
  destruct (Z.ltb_spec (s - 0) 1), (Z.eqb_spec s 0); done || lia.
Qed.

Lemma formatted_headers m : formatted m -> ring_headers g m format_log.
Proof.
  intros Hm. pose proof (geo_index (g := g)). pose proof (sector_size_range (g := g)).
  pose proof (geo_shift (g := g)). pose proof format_span_index.
  split; cbn [format_log index_sequence_count active_index_serial]; [| lia | lia | | |].
  - split; simpl; [lia | lia | by rewrite Z.mod_0_l by lia].
  - intros s Hs. rewrite format_log_serial by done. destruct (Z.eqb_spec s 0) as [-> | Hs0].
    + unfold header_at. change FFFS_HEADER_SIZE with 8. change (base 0) with 0.
      rewrite (fm_header _ Hm).
      rewrite valid_index_header by lia. unfold ring_serial.
      rewrite ring_pos_cases by (simpl; lia). done.
    + apply formatted_none; [done | nia | nia].
  - left. by rewrite format_log_serial by lia.
  - intros p Hp Hfirst Hin c serial.
    rewrite Z.shiftl_mul_pow2 in * by lia. change FFFS_HEADER_SIZE with 8 in Hin.
    assert (Hpow : 1 <= 2 ^ p) by (pose proof (Z.pow_pos_nonneg 2 p); lia).
    rewrite formatted_none; [done | done | lia |].
    destruct format_span_bounds as [Hb | ->]; [| done].
    unfold probed_first in Hfirst. destruct (Z.leb_spec (sector_shift g) 4).
    + apply andb_true_iff in Hfirst as [_ Hp4]. apply Z.leb_le in Hp4.
      pose proof (Z.pow_le_mono_r 2 p 4). lia.
    + apply Z.ltb_lt in Hfirst. pose proof (Z.pow_le_mono_r 2 (p + 1) (sector_shift g)).
      rewrite Z.pow_add_r in * by lia.
      pose proof (geo_sector_size (g := g)) as Hss.
      rewrite Z.shiftl_mul_pow2 in Hss by lia. nia.
Qed.

Lemma formatted_journal m : formatted m -> journal g m format_log = [] /\
  sector_journal g m 0 = [].
Proof.
  intros Hm. pose proof (sector_size_range (g := g)). pose proof format_span_index.
  pose proof (geo_index (g := g)).
  assert (Hs : sector_journal g m 0 = []).
  { unfold sector_journal. eapply (records_from_erased _ _ _ 4); [| lia].
    intros a Ha. change FFFS_HEADER_SIZE with 8 in Ha. apply (fm_erased _ Hm). nia. }
  split; [| done]. unfold journal. simpl. by rewrite Hs.
Qed.

Lemma formatted_clean m : formatted m -> (0 < idx_capacity g)%nat ->
  clean_journal g I m format_log.
Proof.
  intros Hm Hcap. destruct (formatted_journal m Hm) as [Hj Hs].
  split; [apply (rh_sequence _ _ _ (formatted_headers m Hm)) | by rewrite Hj | |].
  - rewrite Hj. intros l1 l2 Heq. symmetry in Heq. apply app_nil in Heq as [-> _].
    unfold replay_map. cbn [foldl]. by rewrite map_size_empty.
  - simpl active_index_sector. rewrite Hs. by intros ? ? [=].
Qed.

Lemma wp_format opts w (Q : unit -> world -> Prop) E :
  flash_ok w -> format_sector_shift (opt_sector_size opts) = Some (sector_shift g) ->
  (if negb (opt_index_sectors opts =? 0) then opt_index_sectors opts
   else FFFS_DEFAULT_INDEX_SECTORS) = N ->
  (forall w', flash_is (mem w') w w' -> formatted (mem w') ->
     (forall a, format_span <= a -> mem w' a = mem w a) -> Q tt w') ->
  wp (fffs_format opts) Q E w.
Proof.
  intros Hok Hshift Hcount HQ. unfold fffs_format. cbv zeta.
  rewrite valid_backend, Hshift, Hcount, (size_shift g).
  destruct (image_divides g) as [Hmod Hdiv]. rewrite Hmod, Hdiv.
  pose proof (geo_index (g := g)). pose proof (geo_count (g := g)).
  pose proof (geo_shift (g := g)). pose proof (sector_size_range (g := g)).
  pose proof format_span_index. pose proof size_pos.
  apply wp_bind, wp_ret. apply wp_bind, wp_guard; intros Hg.
  { exfalso. rewrite !orb_true_iff, negb_true_iff, !Z.ltb_lt in Hg.
    destruct Hg as [[[[] |] |] |]; lia || done. }
  assert (Hspan : (let e := if 8192 <? sector_size g then sector_size g else 8192 in
    let e := if e <? sector_size g * N then sector_size g * N else e in
    if be_size <? e then be_size else e) = format_span).
  { cbv zeta. unfold format_span.
    destruct (Z.ltb_spec 8192 (sector_size g));
      match goal with |- context [?x <? sector_size g * N] =>
        destruct (Z.ltb_spec x (sector_size g * N)) end;
      match goal with |- context [be_size <? ?x] =>
        destruct (Z.ltb_spec be_size x) end; lia. }
  cbv zeta in Hspan. rewrite Hspan.
  assert (Hsp : 0 <= format_span <= be_size) by (unfold format_span; nia).
  destruct format_span_sectors as [k Hk].
  apply wp_bind, wp_backend_erase; [done | lia | lia | lia | | |].
  { apply (sectors_of_unit g 0). }
  { rewrite Hk. apply (sectors_of_unit g). }
  intros w1 Hw1.
  assert (He1 : erased_span (mem w1) 0 format_span).
  { intros a Ha. rewrite (fi_mem _ _ _ Hw1). unfold mem_erase.
    rewrite (proj2 (Z.leb_le 0 a)), (proj2 (Z.ltb_lt a (0 + format_span))) by lia. done. }
  apply wp_program_index_header; [apply Hw1 | lia | nia | done | |].
  { intros a Ha. apply He1. nia. }
  intros w2 Hw2 Hhdr Hrest. apply HQ.
  - by eapply flash_is_trans.
  - split; [done |]. intros a Ha. rewrite Hrest by lia. apply He1. lia.
  - intros a Ha. rewrite Hrest by nia. rewrite (fi_mem _ _ _ Hw1). unfold mem_erase.
    rewrite (proj2 (Z.ltb_ge a (0 + format_span))) by lia. by rewrite andb_false_r.
Qed.
End Format.

(** ** Failures *)

Section Failures.
Context `{Backend}.

(** Steps that leave [struct fffs] alone. *)
Definition fs_same (w w' : world) : Prop := w_fs w' = w_fs w.

#[local] Instance fs_same_rel : StepRel fs_same.
Proof. split; [intros w1 w2 w3; unfold fs_same; congruence | done]. Qed.

Lemma fs_same_read off size : keeps fs_same (fffs_flash_read off size).
Proof.
  unfold fffs_flash_read. apply (keeps_bind _).
  - intros w _. unfold wp, raw_read. by destruct (be_read (w_ctx w) off size) as [[]].
  - intros [st buf]. apply (keeps_bind _).
    + destruct st; [apply keeps_ret | apply keeps_fail..]; apply _.
    + intros []. by apply keeps_ret.
Qed.

Lemma fs_same_scan n i count shift off hdr s :
  keeps fs_same (scan_headers n i count shift off hdr s).
Proof.
  revert i s. induction n as [| n IH]; intros i s; [by apply keeps_ret |].
  simpl. apply (keeps_bind _).
  - case_match; [by apply keeps_ret | by apply fs_same_read].
  - intros hdr'. repeat (case_match; try apply IH; try by apply keeps_ret).
Qed.

Lemma fs_same_try shift sector : keeps fs_same (try_header shift sector).
Proof.
  unfold try_header. cbv zeta. case_match; [by apply keeps_ret |].
  apply (keeps_bind _); [by apply fs_same_read |]. intros hdr.
  repeat (case_match; try by apply keeps_ret).
  apply (keeps_bind _); [by apply fs_same_scan |]. intros s.
  repeat (case_match; try by apply keeps_ret).
Qed.

(** The probe table ends before the bound of the loop. *)
Lemma fs_same_find n probe : 0 <= probe <= 16 -> 17 <= probe + Z.of_nat n ->
  keeps fs_same (find_sequence_loop n probe).
Proof.
  revert probe. induction n as [| n IH]; intros probe Hp Hn; [lia |].
  cbn [find_sequence_loop].
  destruct (Z.eq_dec probe 16) as [-> |]; [by apply keeps_fail |].
  destruct (discovery_probe_shift probe) as [shift |]; [| by apply keeps_fail].
  assert (Hnext : keeps fs_same (find_sequence_loop n (probe + 1))) by (apply IH; lia).
  case_match; [done |].
  apply (keeps_bind _); [by apply fs_same_try |].
  intros [r0 |]; [by apply keeps_ret |].
  apply (keeps_bind _); [by apply fs_same_try |].
  intros [r1 |]; [by apply keeps_ret | done].
Qed.

(** What [fffs_mount] asks of its arguments before it touches anything. *)
Definition mount_args_ok (I : IndexCache) (opts : fffs_mount_options) : bool :=
  let table := opt_index_hash_table_size opts in
  fffs_valid_backend && index_cache_config_valid table &&
  (negb index_needs_storage ||
   (opt_index_cache opts && (index_cache_required_size table <=? opt_index_cache_size opts))) &&
  match opt_scratch opts with
  | Some _ => FFFS_MIN_SCRATCH_SIZE <=? opt_scratch_size opts
  | None => false
  end.

(** The sectors of a sequence divide the device into at most [UINT16_MAX]. *)
Definition sequence_fits (sequence : fffs_index_sequence) : bool :=
  let size := Z.shiftl 256 (seq_sector_shift sequence) in
  (be_size mod size =? 0) && (be_size / size <=? UINT16_MAX).

Definition zeroed (w : world) : world := mk_world (w_ctx w) fffs_zero (w_files w).

(** The state in which the last steps of the mount start. *)
Definition filled (I : IndexCache) (opts : fffs_mount_options)
    (sequence : fffs_index_sequence) (w : world) : world :=
  mk_world (w_ctx w)
    (mount_fs be_size opts (default [] (opt_scratch opts)) sequence
       (index_clear (opt_index_hash_table_size opts) (w_fs w))) (w_files w).

(** Why a mount with good arguments ends with [e]. *)
Inductive mount_failure (I : IndexCache) (opts : fffs_mount_options) (w : world)
  : fffs_status -> Prop :=
| failed_discovery e w1 :
    fffs_find_index_sequence (zeroed w) = (Err e, w1) -> mount_failure I opts w e
| failed_geometry sequence w1 :
    fffs_find_index_sequence (zeroed w) = (Ok sequence, w1) ->
    sequence_fits sequence = false -> mount_failure I opts w FFFS_ERR_CORRUPT
| failed_steps sequence w1 w2 e :
    fffs_find_index_sequence (zeroed w) = (Ok sequence, w1) ->
    sequence_fits sequence = true ->
    mount_steps opts (filled I opts sequence w1) = (Err e, w2) -> mount_failure I opts w e.

Lemma mount_rejects (I : IndexCache) opts w : mount_args_ok I opts = false ->
  fffs_mount opts w = (Err FFFS_ERR_INVALID, w).
Proof.
  unfold mount_args_ok, fffs_mount. cbv zeta. unfold bind, guard_err, ret, fail.
  destruct fffs_valid_backend; [| done]. destruct (index_cache_config_valid _); [| done].
  destruct index_needs_storage; cbn [negb orb andb].
  - destruct (opt_index_cache opts); cbn [negb orb andb]; [| done].
    rewrite Z.ltb_antisym. destruct (_ <=? opt_index_cache_size opts); cbn [negb andb]; [| done].
    destruct (opt_scratch opts); [| done].
    rewrite Z.ltb_antisym. by destruct (FFFS_MIN_SCRATCH_SIZE <=? _).
  - destruct (opt_scratch opts); [| done].
    rewrite Z.ltb_antisym. by destruct (FFFS_MIN_SCRATCH_SIZE <=? _).
Qed.

(** The mount after the checks of its arguments. *)
Definition mount_checked (I : IndexCache) (opts : fffs_mount_options) (scratch : list Z)
  : M unit :=
  sequence <- fffs_find_index_sequence ;;
  guard_err (negb (sequence_fits sequence)) FFFS_ERR_CORRUPT ;;
  mod_fs (fun fs => mount_fs be_size opts scratch sequence
    (index_clear (opt_index_hash_table_size opts) fs)) ;;
  r <- try_ (mount_steps opts) ;;
  match r with
  | inl err => fffs_unmount ;; fail err
  | inr _ => ret tt
  end.

Lemma mount_args_split (I : IndexCache) opts w : mount_args_ok I opts = true ->
  exists scratch, opt_scratch opts = Some scratch /\
    fffs_mount opts w = mount_checked I opts scratch (zeroed w).
Proof.
  unfold mount_args_ok, fffs_mount. cbv zeta. rewrite !andb_true_iff.
  intros [[[-> ->] Hst] Hscr]. destruct (opt_scratch opts) as [scratch |]; [| done].
  exists scratch. split; [done |].
  assert (Hno : (index_needs_storage && (negb (opt_index_cache opts) ||
    (opt_index_cache_size opts <?
      index_cache_required_size (opt_index_hash_table_size opts)))) = false).
  { rewrite Z.ltb_antisym. destruct index_needs_storage; [| done].
    destruct (opt_index_cache opts); [| done].
    by destruct (_ <=? opt_index_cache_size opts). }
  rewrite Hno, Z.ltb_antisym, Hscr. cbn [negb orb guard_err].
  unfold mount_checked, bind, ret, mod_fs, zeroed, sequence_fits. cbv zeta.
  destruct (fffs_find_index_sequence _) as [[sequence | e |] w1]; try done.
  rewrite Z.ltb_antisym. by destruct (_ =? 0), (_ <=? UINT16_MAX).
Qed.

Lemma mount_fails (I : IndexCache) opts w e w' : mount_args_ok I opts = true ->
  fffs_mount opts w = (Err e, w') -> w_fs w' = fffs_zero /\ mount_failure I opts w e.
Proof.
  intros Hargs. destruct (mount_args_split I opts w Hargs) as (scratch & Hs & ->).
  unfold mount_checked.
  pose proof (fs_same_find 17 0 ltac:(lia) ltac:(lia) (zeroed w) eq_refl) as Hfind.
  unfold wp in Hfind. change (find_sequence_loop 17 0) with fffs_find_index_sequence in Hfind.
  unfold bind at 1.
  destruct (fffs_find_index_sequence (zeroed w)) as [[sequence | err |] w1] eqn:Hseq; [| | done].
  2: { intros [= <- <-]. split; [exact Hfind | by eapply failed_discovery]. }
  unfold bind at 1. destruct (sequence_fits sequence) eqn:Hfit; cbn [negb guard_err].
  2: { intros [= <- <-]. split; [exact Hfind | by eapply failed_geometry]. }
  unfold ret at 1, bind at 1, mod_fs at 1, bind, try_.
  assert (Hfill : mk_world (w_ctx w1) (mount_fs be_size opts scratch sequence
    (index_clear (opt_index_hash_table_size opts) (w_fs w1))) (w_files w1) =
    filled I opts sequence w1) by (unfold filled; by rewrite Hs).
  rewrite Hfill. destruct (mount_steps opts _) as [[[] | err |] w2] eqn:Hsteps; try done.
  unfold fffs_unmount, mod_fs, fail. intros [= <- <-].
  split; [done | by eapply failed_steps].
Qed.
End Failures.

(** ** Properties *)

(** C8: mounting.  With a scratch buffer, an index cache and an allocation map
    that suit the device, [fffs_mount] of a device whose headers and records
    are those of a clean journal (with a sector of the ring free) terminates
    and succeeds, whatever [struct fffs] held before: the geometry is the
    device's, the index stands for the namespace the journal spells, the next
    record goes after the last one, and the flash is unchanged. *)
Theorem mount_recovers_namespace `{Backend} `{!NorFlash} `{!ValidBackend}
    (g : fs_geometry) `{!GeoOk g} (I : IndexCache) `{!CachedIndex I}
    (opts : fffs_mount_options) (l : fs_log_state) (w : world) :
  flash_ok w -> mount_accepts g I opts -> ring_headers g (mem w) l ->
  index_sequence_count l < index_sectors g -> clean_journal g I (mem w) l ->
  exists w', fffs_mount opts w = (Ok tt, w') /\
    (forall a, mem w' a = mem w a) /\ fs_geo (w_fs w') = g /\
    idx_ok (w_fs w') /\ idx_map (w_fs w') = replay_map ∅ (journal g (mem w) l) /\
    fs_log (w_fs w') = set_next_index_offset (journal_end g (mem w) l) l.
Proof.
  intros Hok Hma Hrh Hcnt Hcj.
  assert (Hwp : wp (fffs_mount opts) (fun _ w' => mounted g I (mem w) l w w')
    (fun _ _ => False) w) by by apply (wp_mount g I opts l).
  apply wp_returns in Hwp as ([] & w' & Hrun & []). by exists w'.
Qed.

(** C7: formatting.  [fffs_format] of a device, whatever it held, terminates
    and succeeds, and every later mount of what it left succeeds with an empty
    namespace, the geometry asked for and the first record position of the
    first sector: the format erases enough that no stale header is ever taken
    for the new one.  The bytes after the erased range are unchanged. *)
Theorem format_then_mount `{Backend} `{!NorFlash} `{!ValidBackend}
    (g : fs_geometry) `{!GeoOk g} `{!EraseUnit g} (I : IndexCache) `{!CachedIndex I}
    (fopts : fffs_format_options) (opts : fffs_mount_options) (w : world) :
  flash_ok w -> format_sector_shift (opt_sector_size fopts) = Some (sector_shift g) ->
  (if negb (opt_index_sectors fopts =? 0) then opt_index_sectors fopts
   else FFFS_DEFAULT_INDEX_SECTORS) = index_sectors g ->
  mount_accepts g I opts -> (0 < idx_capacity g)%nat ->
  exists w1, fffs_format fopts w = (Ok tt, w1) /\
    (forall a, format_span g <= a -> mem w1 a = mem w a) /\
    forall w2, flash_ok w2 -> (forall a, mem w2 a = mem w1 a) ->
      exists w3, fffs_mount opts w2 = (Ok tt, w3) /\
        (forall a, mem w3 a = mem w1 a) /\ fs_geo (w_fs w3) = g /\
        idx_ok (w_fs w3) /\ idx_map (w_fs w3) = ∅ /\ fs_log (w_fs w3) = format_log.
Proof.
  intros Hok Hshift Hcount Hma Hcap.
  assert (Hwp : wp (fffs_format fopts) (fun _ w1 => formatted g (mem w1) /\
    forall a, format_span g <= a -> mem w1 a = mem w a) (fun _ _ => False) w)
    by (apply (wp_format g); auto).
  apply wp_returns in Hwp as ([] & w1 & Hrun & Hfm & Hrest).
  exists w1. split; [done |]. split; [done |]. intros w2 Hok2 Hm2.
  assert (Hfm2 : formatted g (mem w2)).
  { destruct Hfm as [Hh He]. split.
    - by rewrite (mem_bytes_ext (mem w2) (mem w1)) by (intros; apply Hm2).
    - intros a Ha. rewrite Hm2. by apply He. }
  destruct (formatted_journal g _ Hfm2) as [Hj Hs].
  assert (Hwp : wp (fffs_mount opts) (fun _ w' =>
    mounted g I (mem w2) format_log w2 w') (fun _ _ => False) w2).
  { pose proof (geo_index (g := g)). apply (wp_mount g I opts format_log); auto.
    - by apply formatted_headers.
    - simpl. lia.
    - by apply formatted_clean. }
  apply wp_returns in Hwp as ([] & w3 & Hrun3 & Hmt). exists w3. destruct Hmt.
  split; [done |]. split; [intros a; by rewrite mt_mem0 |]. split; [done |].
  split; [done |]. split; [by rewrite mt_map0, Hj |].
  rewrite mt_log0. unfold journal_end. cbn [format_log active_index_sector].
  by rewrite Hs.
Qed.

(** C29: failed mounts.  Over any backend and any index, a mount whose arguments
    do not pass the checks at its start returns [FFFS_ERR_INVALID] and changes
    nothing at all, neither the structure nor the device nor the handles.  With
    arguments that pass, a mount that fails leaves [struct fffs] zeroed, that is,
    unmounted, and its status is the one of the step that failed: of the
    discovery of the sequence, [FFFS_ERR_CORRUPT] for a geometry that does not
    fit the device, or the one of the compaction, of the allocation map (whose
    buffer is only checked here) or of the replay. *)
Theorem failed_mount_unmounts `{Backend} (I : IndexCache)
    (opts : fffs_mount_options) (w : world) :
  if mount_args_ok I opts
  then forall e w', fffs_mount opts w = (Err e, w') ->
    w_fs w' = fffs_zero /\ mount_failure I opts w e
  else fffs_mount opts w = (Err FFFS_ERR_INVALID, w).
Proof.
  destruct (mount_args_ok I opts) eqn:Hargs; [| by apply mount_rejects].
  intros e w'. by apply mount_fails.
Qed.
