(* ===== verification/RoundTrip.v ===== *)
(** * Written files read back

    The composition of close ([CloseSpec]), mount ([Mount]), name resolution
    ([Resolve]), open and read ([ReadSpec]): a file that was written and closed
    is read back under its name, in the same session and after the device was
    mounted again. *)

From S2P Require Export CloseSpec ReadSpec Mount.

(** ** Opening for reading *)

Section OpenRead.
Context `{Backend} `{!NorFlash} `{!ValidBackend} (g : fs_geometry) `{!GeoOk g}.
Context (I : IndexCache) `{!CachedIndex I} `{Fuel}.
#[local] Abbreviation base s := (s * sector_size g).

(** The payload of the root record [r] in [sector]. *)
Definition root_payload (m : Z -> Z) (sector : Z) (r : fffs_md_record) : list Z :=
  mem_bytes m (base sector + md_data_off r + payload_skip g m sector r)
    (md_data_len r - payload_skip g m sector r).

(** The handle [id] after [fffs_open] of the file of [slot], whose root record
    [r] is in [head]. *)
Record opened (id slot head : Z) (r : fffs_md_record) (w w' : world) : Prop := {
  on_ok : flash_ok w';
  on_mem : forall a, mem w' a = mem w a;
  on_geo : fs_geo (w_fs w') = fs_geo (w_fs w);
  on_reading : reading g (mem w') (file_of (w_files w') id);
  on_slot : f_slot (file_of (w_files w') id) = slot;
  on_pos : f_pos (file_of (w_files w') id) = 0;
  on_size : f_size (file_of (w_files w') id) = md_size_or_offset r;
  on_closed : f_closed (file_of (w_files w') id) = false;
  on_flags : has_flag (f_flags (file_of (w_files w') id)) FFFS_O_RDONLY = true;
  on_next : next_extent_sector (file_of (w_files w') id) =
    if 1 <? md_span_len r then u16 (head + 1) else md_next r;
  on_bytes : forall l, remaining_bytes g (mem w') (file_of (w_files w') id) l =
    root_payload (mem w) head r ++ chain_bytes g (mem w) l;
}.

(** What a readable root says of its record. *)
Lemma root_value_inv m sector slot v :
  (forall a, is_u8 (m a)) -> sector_size g <= 2 ^ 16 ->
  root_value g m sector slot = inr v ->
  exists r, slot_md g m sector slot FFFS_MD_MATCH_LIVE = inr r /\
    0 <= md_data_off r /\ md_data_off r + md_data_len r <= sector_size g /\
    0 <= payload_skip g m sector r <= md_data_len r /\
    root_payload_off v = md_data_off r + payload_skip g m sector r /\
    root_payload_len v = md_data_len r - payload_skip g m sector r /\
    root_next v = md_next r /\ st_size (root_st v) = md_size_or_offset r.
Proof.
  intros Hm Hss. unfold root_value.
  destruct (slot_md g m sector slot _) as [| r] eqn:Hr; [done |].
  apply slot_md_fits in Hr as Hfit. destruct Hfit as (_ & Ho & Hl & He & Hst).
  unfold data_end in He. destruct (negb _); [done |]. unfold parse_root.
  cbv zeta. set (a := base sector + md_data_off r).
  pose proof (Hm a) as Hb1. pose proof (Hm (a + (1 + m a))) as Hb2. unfold is_u8 in *.
  assert (Hs : payload_skip g m sector r = 1 + m a + 1 + m (a + (1 + m a))) by done.
  rewrite <- Hs. destruct (_ || _) eqn:Hc; [done |]. intros [= <-].
  rewrite !orb_false_iff, !Z.ltb_ge in Hc. destruct Hc as [_ Hlen].
  exists r. cbn [root_payload_off root_payload_len root_next root_st st_size].
  rewrite !u16_small by (unfold is_u16; lia).
  repeat split; lia || done.
Qed.

Lemma name_scan_inv root idx name slots slot head v :
  name_scan root idx name slots = inr (Some (slot, head, v)) ->
  root head slot = inr v /\ idx !! slot = Some head /\ st_name (root_st v) = name.
Proof.
  induction slots as [| s rest IH]; [done |]. cbn [name_scan].
  destruct (idx !! s) as [h |] eqn:Hs; [| done].
  destruct (root h s) as [e | r] eqn:Hr; [done |].
  case_bool_decide; [| done]. intros [= -> -> ->]. done.
Qed.

Lemma wp_open_read id name slot head v w (Q : unit -> world -> Prop) E :
  fs_geo (w_fs w) = g -> flash_ok w -> idx_ok (w_fs w) -> sector_size g <= 2 ^ 16 ->
  0 < zlen name <= FFFS_MAX_NAME ->
  name_scan (root_value g (mem w)) (idx_map (w_fs w)) name (candidates name) =
    inr (Some (slot, head, v)) ->
  (forall r w', slot_md g (mem w) head slot FFFS_MD_MATCH_LIVE = inr r ->
     opened id slot head r w w' -> Q tt w') ->
  wp (fffs_open id name FFFS_O_RDONLY) Q E w.
Proof.
  intros Hgeo Hok Hidx Hss Hname Hscan HQ.
  destruct (name_scan_inv _ _ _ _ _ _ _ Hscan) as (Hroot & _ & _).
  destruct (root_value_inv (mem w) head slot v (fun a => mem_u8 w a Hok) Hss Hroot)
    as (r & Hr & Hdo & Hdl & Hskip & Hpo & Hpl & Hnx & Hsz).
  pose proof (slot_md_fits g _ _ _ _ _ Hr) as [Hs _]. pose proof (geo_index (g := g)).
  unfold fffs_open. apply wp_bind, wp_put_file. set (w0 := mk_world _ _ _).
  change (has_flag FFFS_O_RDONLY FFFS_O_RDONLY) with true.
  change (has_flag FFFS_O_RDONLY FFFS_O_WRONLY) with false. cbv zeta.
  apply wp_bind, wp_guard; [by vm_compute | intros _].
  apply wp_bind, (wp_resolve g I); try done. intros w1 rs Hw1.
  change (mem w0) with (mem w). change (idx_map (w_fs w0)) with (idx_map (w_fs w)).
  unfold resolution_of. rewrite Hscan.
  intros (Hslot & Hhead & Hfound & c & Hc) Hcache.
  specialize (Hcache Hfound r). rewrite Hslot, Hhead in Hcache.
  destruct (Hcache Hr) as (Hcok & Hcap & Hread).
  destruct (rs_cache rs) as [cv |]; [| done]. injection Hcap as Hcap.
  specialize (Hread cv eq_refl ltac:(rewrite Hcap; done)). destruct Hcok as [_ Hcz].
  rewrite Hfound, Hc. cbn [negb andb].
  do 4 (apply wp_bind, wp_guard; [done | intros _]).
  apply wp_bind, wp_mod_file. rewrite (fi_files _ _ _ Hw1), (fi_fs _ _ _ Hw1).
  unfold w0. cbn [w_fs w_files]. rewrite file_of_insert, insert_insert_eq.
  rewrite Hslot, Hhead. set (w2 := mk_world _ _ _).
  assert (Hm2 : forall a, mem w2 a = mem w a) by apply Hw1.
  unfold open_reader. apply wp_bind, (wp_read_md g); [done | apply Hw1 |]. intros w3 Hw3.
  fold (slot_md g (mem w2) head slot FFFS_MD_MATCH_LIVE).
  rewrite (slot_md_ext g (mem w2) (mem w)), Hr by done.
  apply wp_bind, wp_mod_file. rewrite (fi_files _ _ _ Hw3), (fi_fs _ _ _ Hw3).
  unfold w2. cbn [w_fs w_files]. rewrite file_of_insert, insert_insert_eq.
  set (f := set_f_name _ _). unfold register_open_file.
  apply wp_bind, wp_get_file. cbn [w_files]. rewrite file_of_insert.
  change (f_open_registered f) with false.
  apply wp_bind, wp_get_fs. apply wp_bind, wp_mod_file. apply wp_bind, wp_mod_fs.
  apply wp_mod_file. cbn [w_ctx w_fs w_files].
  rewrite !file_of_insert, !insert_insert_eq.
  set (f' := set_f_open_registered true _). set (w4 := mk_world _ _ _).
  assert (Hf4 : file_of (w_files w4) id = f')
    by (unfold w4; cbn [w_files]; by rewrite file_of_insert).
  assert (Hm4 : forall a, mem w4 a = mem w a).
  { intros a. etransitivity; [apply (fi_mem _ _ _ Hw3) | apply Hm2]. }
  destruct Hread as (Hcp & Hcl & Hcn & Hcb).
  set (skip := payload_skip g (mem w) head r) in *.
  assert (Hfields : f_current f' = head /\ f_data_offset f' = md_data_off r + skip /\
    f_current_data_len f' = md_data_len r - skip /\ f_current_data_pos f' = 0 /\
    f_cache f' = cv_data cv /\ f_cache_len f' = cv_len cv /\ f_cache_data_pos f' = 0 /\
    f_size f' = md_size_or_offset r /\ f_span_len f' = md_span_len r /\
    f_current_next f' = md_next r /\ f_slot f' = slot /\ f_pos f' = 0 /\
    f_closed f' = false /\ f_flags f' = FFFS_O_RDONLY).
  { unfold f', f. cbn. repeat split; done. }
  clearbody f'. destruct Hfields as (E1 & E2 & E3 & E4 & E5 & E6 & E7 & E8 & E9 & E10 &
    E11 & E12 & E13 & E14).
  apply (HQ r); [done |].
  split; rewrite ?Hf4; try done.
  - apply Hw3.
  - split; unfold data_at; rewrite ?E1, ?E2, ?E3, ?E4, ?E5, ?E6, ?E7; try lia.
    intros i Hi. rewrite Hm4, Hcb by lia. f_equal. lia.
  - by rewrite E14.
  - unfold next_extent_sector. by rewrite E1, E9, E10.
  - intros l. unfold remaining_bytes, root_payload, data_at.
    rewrite E1, E2, E3, E4, (chain_bytes_ext g (mem w)) by done.
    fold skip. rewrite Z.add_0_r, Z.sub_0_r. f_equal.
    rewrite (mem_bytes_ext (mem w4) (mem w)) by (intros; apply Hm4). f_equal. lia.
Qed.
End OpenRead.

(** ** The root that a close leaves *)

Lemma root_prefix_parts name data : zlen name <= 255 ->
  let b := root_prefix name ++ data in
  zlen b = 2 + zlen name + zlen data /\ byte_at b 0 = zlen name /\
  byte_at b (1 + zlen name) = 0 /\ sublist 1 (zlen name) b = name /\
  sublist (2 + zlen name) (zlen data) b = data.
Proof.
  intros Hn b. pose proof (zlen_nonneg name) as H0n.
  assert (Hb : b = zlen name :: name ++ 0 :: data).
  { unfold b, root_prefix. rewrite u8_small by (unfold is_u8; lia). cbn [app].
    by rewrite <- app_assoc. }
  rewrite Hb. split; [rewrite zlen_cons, zlen_app, zlen_cons; lia |].
  split; [apply byte_at_cons_0 |].
  split.
  { rewrite byte_at_cons_pos by lia. rewrite byte_at_app_r by lia.
    replace (1 + zlen name - 1 - zlen name) with 0 by lia. apply byte_at_cons_0. }
  unfold sublist, zlen. split.
  - change (Z.to_nat 1) with 1%nat. cbn [drop]. rewrite drop_0, Nat2Z.id, take_app_le by lia.
    by apply take_ge.
  - replace (Z.to_nat (2 + Z.of_nat (length name))) with (S (length name + 1)) by lia.
    cbn [drop]. rewrite Nat2Z.id, drop_app_ge by lia.
    replace (length name + 1 - length name)%nat with 1%nat by lia. cbn [drop]. rewrite drop_0.
    by apply take_ge.
Qed.

(** A new file is found by its name once it is in the index. *)
Lemma name_scan_new root root' idx name slots slot head v :
  (forall s h u, idx !! s = Some h -> root h s = inr u -> root' h s = inr u) ->
  name_scan root idx name slots = inr None -> slot ∈ slots -> idx !! slot = None ->
  root' head slot = inr v -> st_name (root_st v) = name ->
  name_scan root' (<[slot := head]> idx) name slots = inr (Some (slot, head, v)).
Proof.
  intros Hkeep. induction slots as [| s rest IH]; [by rewrite elem_of_nil |].
  intros Hscan Hin Hnone Hv Hname. cbn [name_scan] in *.
  destruct (decide (s = slot)) as [-> | Hne].
  - by rewrite lookup_insert_eq, Hv, bool_decide_true by done.
  - rewrite lookup_insert_ne by done. apply elem_of_cons in Hin as [| Hin]; [done |].
    destruct (idx !! s) as [h |] eqn:Hs; [| by apply IH].
    destruct (root h s) as [e | u] eqn:Hu; [done |].
    rewrite (Hkeep s h u Hs Hu). case_bool_decide; [done |]. by apply IH.
Qed.

Section RoundTrip.
Context `{Backend} `{!NorFlash} `{!ValidBackend} (g : fs_geometry) `{!GeoOk g}.
Context (I : IndexCache) `{!CachedIndex I} `{Fuel}.
#[local] Abbreviation base s := (s * sector_size g).

Lemma closed_slot_md id l w w' :
  closing g I id l w -> file_committed g I id l w w' ->
  let f := file_of (w_files w) id in
  slot_md g (mem w') (f_head f) (f_slot f) FFFS_MD_MATCH_LIVE = inr (closed_root f).
Proof.
  intros Hcl [_ Hlive [e Hrec] _ _ _ _ _ _ _] f.
  unfold slot_md, valid_data_sector, lookup_md, pick_record. fold f in Hlive, Hrec.
  pose proof (fp_sector _ _ _ _ _ _ (cl_place _ _ _ _ _ Hcl)) as Hs. fold f in Hs.
  rewrite (proj2 (Z.leb_le _ _)), (proj2 (Z.ltb_lt _ _)), Hlive, Hrec by lia.
  cbn [andb negb fst]. rewrite find_snoc_new; [done | | ].
  - eapply Forall_impl; [exact (cl_dead _ _ _ _ _ Hcl) |]. intros r Hr. unfold md_record_matches_slot.
    destruct (Z.eqb_spec (md_slot r) (f_slot f)) as [Heq |]; [| done]. cbn [negb].
    by apply Hr.
  - unfold md_record_matches_slot. cbn [closed_root extent_record md_slot md_live].
    by rewrite Z.eqb_refl.
Qed.

(** What was written: [data], under [name]. *)
Record wrote (id : Z) (name data : list Z) (w : world) : Prop := {
  wt_name : 0 < zlen name <= FFFS_MAX_NAME;
  wt_bytes : staged g (mem w) (file_of (w_files w) id) = root_prefix name ++ data;
  wt_prefix : f_root_payload_offset (file_of (w_files w) id) = 2 + zlen name;
  wt_size : f_size (file_of (w_files w) id) = zlen data;
}.

(** The record and the data of the closed file of the handle [f] are in [m]. *)
Record in_flash (m0 m : Z -> Z) (f : fffs_file) : Prop := {
  if_md : slot_md g m (f_head f) (f_slot f) FFFS_MD_MATCH_LIVE = inr (closed_root f);
  if_data : mem_bytes m (extent_base g f) (prefix_len f + f_current_data_len f) =
    staged g m0 f;
}.

Lemma in_flash_ext m0 m m' f :
  (forall a, m' a = m a) -> in_flash m0 m f -> in_flash m0 m' f.
Proof.
  intros Heq [Hmd Hd]. split; [by rewrite (slot_md_ext g m' m) |].
  rewrite <- Hd. apply mem_bytes_ext. intros a _. apply Heq.
Qed.

Lemma committed_in_flash id l w w' :
  closing g I id l w -> file_committed g I id l w w' ->
  in_flash (mem w) (mem w') (file_of (w_files w) id).
Proof. intros Hcl Hw'. split; [by eapply closed_slot_md | apply Hw']. Qed.

Lemma closed_root_value id l name data w m :
  closing g I id l w -> in_flash (mem w) m (file_of (w_files w) id) ->
  wrote id name data w ->
  let f := file_of (w_files w) id in
  (exists v, root_value g m (f_head f) (f_slot f) = inr v /\
     st_name (root_st v) = name) /\
  root_payload g m (f_head f) (closed_root f) = data.
Proof.
  intros Hcl [Hmd Hd] [Hn Hst Hpre Hsz] f.
  fold f in Hmd, Hd, Hst, Hpre, Hsz.
  destruct (root_prefix_parts name data ltac:(lia)) as (Hz & Hb0 & Hb1 & Hs1 & Hs2).
  rewrite Hst in Hd.
  pose proof (wr_prefix _ _ _ (cl_writer _ _ _ _ _ Hcl)) as Hp0.
  pose proof (wr_data_len _ _ _ (cl_writer _ _ _ _ _ Hcl)) as Hd0. fold f in Hp0, Hd0.
  pose proof (cl_current _ _ _ _ _ Hcl) as Hcur. fold f in Hcur.
  assert (Hp : prefix_len f = 2 + zlen name)
    by (unfold prefix_len; by rewrite Hcur, Z.eqb_refl).
  set (n := prefix_len f + f_current_data_len f) in *.
  assert (Hn2 : n = 2 + zlen name + zlen data)
    by (rewrite <- Hz, <- Hd, zlen_mem_bytes by lia; done).
  unfold extent_base in Hd. rewrite Hcur in Hd.
  pose proof (zlen_nonneg data) as Hdn.
  set (a := base (f_head f) + f_data_offset f) in *.
  rewrite <- Hd in Hb0, Hb1, Hs1, Hs2.
  rewrite byte_at_mem_bytes, Z.add_0_r in Hb0 by lia.
  rewrite byte_at_mem_bytes in Hb1 by lia.
  rewrite sublist_mem_bytes in Hs1, Hs2 by lia.
  assert (Hskip : payload_skip g m (f_head f) (closed_root f) = 2 + zlen name).
  { unfold payload_skip. cbn [closed_root extent_record md_data_off]. fold a.
    rewrite Hb0, Hb1. lia. }
  split.
  - unfold root_value. rewrite Hmd.
    change (md_type (closed_root f) =? FFFS_MD_TYPE_FILE_ROOT_V1) with true.
    cbn [negb]. unfold parse_root. cbn [closed_root extent_record md_data_off md_data_len].
    fold a n. rewrite Hb0, Hb1.
    rewrite (proj2 (Z.ltb_ge n 2)), (proj2 (Z.eqb_neq (zlen name) 0)),
      (proj2 (Z.ltb_ge 32 (zlen name))), (proj2 (Z.leb_gt n (1 + zlen name))),
      (proj2 (Z.ltb_ge n (1 + zlen name + 1 + 0))) by lia.
    cbn [orb]. eexists. split; [done |]. cbn [root_st st_name]. exact Hs1.
  - unfold root_payload. rewrite Hskip. cbn [closed_root extent_record md_data_off
      md_data_len]. fold a n. rewrite Hn2.
    replace (2 + zlen name + zlen data - (2 + zlen name)) with (zlen data) by lia. done.
Qed.

(** ** Open and read *)

Definition read_named (id : Z) (name : list Z) (size : Z) : M (list Z) :=
  fffs_open id name FFFS_O_RDONLY ;; fffs_read id size.

Lemma wp_read_named id name size slot head v r l w :
  fs_geo (w_fs w) = g -> flash_ok w -> idx_ok (w_fs w) -> sector_size g <= 2 ^ 16 ->
  0 < zlen name <= FFFS_MAX_NAME ->
  name_scan (root_value g (mem w)) (idx_map (w_fs w)) name (candidates name) =
    inr (Some (slot, head, v)) ->
  slot_md g (mem w) head slot FFFS_MD_MATCH_LIVE = inr r ->
  chain g (mem w) slot (if 1 <? md_span_len r then u16 (head + 1) else md_next r) l ->
  let content := root_payload g (mem w) head r ++ chain_bytes g (mem w) l in
  md_size_or_offset r = zlen content -> is_u32 (zlen content) -> 0 <= size ->
  Z.min size (zlen content) + Z.of_nat (length l) <= Z.of_nat fuel ->
  wp (read_named id name size)
    (fun bytes w' => bytes = take (Z.to_nat size) content /\
       forall a, mem w' a = mem w a) (fun _ _ => False) w.
Proof.
  intros Hgeo Hok Hidx Hss Hname Hscan Hr Hch content Hsz Hu Hsize Hfuel.
  apply wp_bind, (wp_open_read g I id name slot head v); try done.
  intros r' w1 Hr' []. rewrite Hr in Hr'. injection Hr' as <-.
  set (f := file_of (w_files w1) id) in *.
  assert (Hrem : remaining_bytes g (mem w1) f l = content) by apply on_bytes0.
  pose proof (wp_read g fuel id size l w1) as Hwp. cbv zeta in Hwp. fold f in Hwp.
  rewrite Hrem, on_pos0, on_size0, on_slot0, on_next0, Hsz, Z.sub_0_r in Hwp.
  pose proof (zlen_nonneg content).
  eapply wp_mono; [apply Hwp; try done; try lia | | done].
  - by rewrite on_geo0.
  - by apply (chain_ext g (mem w)).
  - intros bytes w2 (-> & l' & Hst & _). split.
    + destruct (Z.min_spec size (zlen content)) as [[_ ->] | [Hle ->]]; [done |].
      unfold zlen in *. rewrite !take_ge by lia. done.
    + intros a. by rewrite (rs_mem _ _ _ Hst), on_mem0.
Qed.

(** A file that a session wrote, in any state whose flash and index have it. *)
Lemma wp_read_written id rid l name data w w2 :
  closing g I id l w -> wrote id name data w ->
  let f := file_of (w_files w) id in
  in_flash (mem w) (mem w2) f ->
  (forall v, root_value g (mem w2) (f_head f) (f_slot f) = inr v ->
     st_name (root_st v) = name ->
     name_scan (root_value g (mem w2)) (idx_map (w_fs w2)) name (candidates name) =
       inr (Some (f_slot f, f_head f, v))) ->
  sector_size g <= 2 ^ 16 -> zlen data <= Z.of_nat fuel ->
  fs_geo (w_fs w2) = g -> flash_ok w2 -> idx_ok (w_fs w2) ->
  wp (read_named rid name (zlen data)) (fun bytes _ => bytes = data)
    (fun _ _ => False) w2.
Proof.
  intros Hcl Hwt f Hin Hscan Hss Hfuel Hgeo2 Hok2 Hidx2.
  destruct (closed_root_value _ _ _ _ _ _ Hcl Hin Hwt) as [(v & Hv & Hvn) Hpay].
  fold f in Hv, Hpay. specialize (Hscan v Hv Hvn).
  assert (Hsize : md_size_or_offset (closed_root f) = zlen data) by apply Hwt.
  assert (Hu : is_u32 (zlen data)) by (rewrite <- Hsize; apply Hcl).
  pose proof (wp_read_named rid name (zlen data) (f_slot f) (f_head f) v (closed_root f)
    [] w2) as Hwp. cbv zeta in Hwp.
  change (chain_bytes g (mem w2) []) with (@nil Z) in Hwp.
  rewrite app_nil_r, Hpay, Z.min_id in Hwp. pose proof (zlen_nonneg data).
  eapply wp_mono; [apply Hwp; try done | | done].
  - apply Hwt.
  - apply Hin.
  - cbn [length Z.of_nat]. lia.
  - intros bytes w3 [-> _]. unfold zlen. rewrite Nat2Z.id. by apply take_ge.
Qed.

Lemma wp_read_back id rid l name data w w1 w2 :
  closing g I id l w -> file_committed g I id l w w1 ->
  extents_kept g (mem w) (mem w1) -> wrote id name data w ->
  f_slot (file_of (w_files w) id) ∈ candidates name ->
  idx_map (w_fs w) !! f_slot (file_of (w_files w) id) = None ->
  name_scan (root_value g (mem w)) (idx_map (w_fs w)) name (candidates name) =
    inr None ->
  sector_size g <= 2 ^ 16 -> zlen data <= Z.of_nat fuel ->
  fs_geo (w_fs w2) = g -> flash_ok w2 -> idx_ok (w_fs w2) ->
  (forall a, mem w2 a = mem w1 a) -> idx_map (w_fs w2) = idx_map (w_fs w1) ->
  wp (read_named rid name (zlen data)) (fun bytes _ => bytes = data)
    (fun _ _ => False) w2.
Proof.
  intros Hcl Hw1 Hext Hwt Hin Hnone Hscan Hss Hfuel Hgeo2 Hok2 Hidx2 Hm2 Hmap2.
  apply (wp_read_written id rid l name data w w2); try done.
  - eapply in_flash_ext; [exact Hm2 | by eapply committed_in_flash].
  - intros v Hv Hvn. rewrite Hmap2, (fc_map _ _ _ _ _ _ Hw1).
    apply (name_scan_new (root_value g (mem w))); try done.
    intros s h u _ Hu. rewrite (root_value_ext g (mem w2) (mem w1)) by done.
    apply (root_value_kept g (mem w)); [done | | done].
    intros a. by apply mem_u8, Hcl.
Qed.

(** ** The journal after a close *)

Lemma ring_headers_ext m m' l :
  (forall a, m' a = m a) -> ring_headers g m l -> ring_headers g m' l.
Proof.
  intros Heq. assert (Hh : forall off, header_at m' off = header_at m off).
  { intros off. unfold header_at. by rewrite (mem_bytes_ext m' m) by (intros; apply Heq). }
  intros []. split; try done.
  - intros s Hs. rewrite Hh. auto.
  - intros p Hp H2' H3' c serial. rewrite Hh. auto.
Qed.

(** A clean journal that grew by one record. *)
Lemma clean_snoc m m1 l off slot head :
  let l1 := set_next_index_offset off l in
  clean_journal g I m l -> log_ok g m1 l1 ->
  journal g m1 l1 = journal g m l ++ [(slot, head)] ->
  0 < slot < UINT16_MAX -> head = 0 \/ index_sectors g <= head < sector_count g ->
  (size (replay_map ∅ (journal g m l ++ [(slot, head)])) < idx_capacity g)%nat ->
  (head <> 0 -> root_present g m1 head slot) ->
  clean_journal g I m1 l1.
Proof.
  intros l1 [Hseq Hval Hfits Htail] Hlog Hj Hslot Hhead Hcap Hroot. split.
  - destruct Hseq. by split.
  - rewrite Hj. apply Forall_app. split; [done |]. apply Forall_singleton. by right.
  - rewrite Hj. intros j1 j2 Heq. destruct j2 as [| x j2 _] using rev_ind.
    + rewrite app_nil_r in Heq. by rewrite <- Heq.
    + rewrite app_assoc in Heq. apply app_inj_tail in Heq as [Heq _].
      by apply (Hfits j1 j2).
  - intros s h Hlast Hh. rewrite (journal_split g _ _ Hlog) in Hj.
    apply (f_equal last) in Hj. rewrite !last_app, Hlast in Hj. cbn [last] in Hj.
    injection Hj as -> ->. auto.
Qed.

Lemma clean_after_close id l w w1 :
  closing g I id l w -> file_committed g I id l w w1 ->
  clean_journal g I (mem w) (fs_log (w_fs w)) ->
  (S (size (replay_map ∅ (journal g (mem w) (fs_log (w_fs w))))) < idx_capacity g)%nat ->
  clean_journal g I (mem w1) (fs_log (w_fs w1)).
Proof.
  intros Hcl Hw1 Hclean Hcap.
  pose proof (fc_journal _ _ _ _ _ _ Hw1) as Hj. set (f := file_of (w_files w) id) in *.
  pose proof (fp_sector _ _ _ _ _ _ (cl_place _ _ _ _ _ Hcl)) as Hs.
  pose proof (cl_slot _ _ _ _ _ Hcl) as Hslot. fold f in Hs, Hslot.
  pose proof (fc_log _ _ _ _ _ _ Hw1) as Hlog.
  rewrite (fc_next _ _ _ _ _ _ Hw1) in *.
  eapply clean_snoc; try done; [by right | |].
  - rewrite replay_map_app. eapply Nat.le_lt_trans; [apply size_apply_record | done].
  - intros _. exists (closed_root f). split; [| done]. by apply (closed_slot_md id l w w1).
Qed.

Lemma index_after_close id l w w1 :
  closing g I id l w -> file_committed g I id l w w1 ->
  idx_map (w_fs w) = replay_map ∅ (journal g (mem w) (fs_log (w_fs w))) ->
  idx_map (w_fs w1) = replay_map ∅ (journal g (mem w1) (fs_log (w_fs w1))).
Proof.
  intros Hcl Hw1 Hidx. rewrite (fc_map _ _ _ _ _ _ Hw1), (fc_journal _ _ _ _ _ _ Hw1).
  rewrite replay_map_app, <- Hidx. set (f := file_of (w_files w) id).
  pose proof (fp_sector _ _ _ _ _ _ (cl_place _ _ _ _ _ Hcl)) as Hs.
  pose proof (cl_slot _ _ _ _ _ Hcl) as Hslot. fold f in Hs, Hslot.
  pose proof (geo_index (g := g)).
  unfold replay_map. cbn [foldl apply_record].
  by rewrite (proj2 (Z.eqb_neq (f_slot f) 0)), (proj2 (Z.eqb_neq (f_head f) 0)) by lia.
Qed.

(** A mount of any state with the flash of [w1], whose journal is clean. *)
Lemma wp_mount_same opts w1 w2 (Q : unit -> world -> Prop) E :
  let l := fs_log (w_fs w1) in
  clean_journal g I (mem w1) l -> ring_headers g (mem w1) l ->
  index_sequence_count l < index_sectors g ->
  mount_accepts g I opts -> flash_ok w2 -> (forall a, mem w2 a = mem w1 a) ->
  (forall w3, flash_ok w3 -> (forall a, mem w3 a = mem w1 a) -> fs_geo (w_fs w3) = g ->
     idx_ok (w_fs w3) -> idx_map (w_fs w3) = replay_map ∅ (journal g (mem w1) l) ->
     open_files (w_fs w3) = 0 -> Q tt w3) ->
  wp (fffs_mount opts) Q E w2.
Proof.
  intros l Hclean Hrh Hcnt Hma Hok2 Hm2 HQ.
  destruct (clean_journal_ext g I _ _ _ (next_index_offset l) Hm2 Hclean) as [Hcl2 Hj2].
  assert (Heta : set_next_index_offset (next_index_offset l) l = l) by by destruct l.
  rewrite Heta in Hcl2, Hj2.
  apply (wp_mount g I opts l); try done; [by eapply ring_headers_ext |].
  intros w3 []. apply HQ; try done; [intros a; by rewrite mt_mem | by rewrite mt_map, Hj2].
Qed.
End RoundTrip.

(** ** Properties *)

(** A writer that is about to close the new file [name] with the contents
    [data], through the handle [id]. *)
Record ready_to_close `{Backend} `{!NorFlash} (g : fs_geometry)
    (I : IndexCache) `{!CachedIndex I} (id : Z) (l : list fffs_md_record)
    (name data : list Z) (w : world) : Prop := {
  rc_closing : closing g I id l w;
  rc_wrote : wrote g id name data w;
  rc_old : f_old_head (file_of (w_files w) id) = 0;
  rc_handle : open_writer_handle id w;
  rc_slot : f_slot (file_of (w_files w) id) ∈ candidates name;
  rc_free : idx_map (w_fs w) !! f_slot (file_of (w_files w) id) = None;
  rc_new : name_scan (root_value g (mem w)) (idx_map (w_fs w)) name
    (candidates name) = inr None;
}.

(** C2: closing a new file.  For a writer in its first extent with a place for
    its record, [fffs_close] terminates and succeeds: the data region of the
    extent holds everything written; the sector's records are those that were
    there followed by one live root record with the file's size; the journal
    and the index gain exactly the file's slot; the handle leaves the list of
    open handles; and every live record of the flash, with its data, stays. *)
Theorem close_commits_file `{Backend} `{!NorFlash} `{!ValidBackend}
    (g : fs_geometry) `{!GeoOk g} (I : IndexCache) `{!CachedIndex I}
    (id : Z) (l : list fffs_md_record) (name data : list Z) (w : world) :
  ready_to_close g I id l name data w ->
  exists w', fffs_close id w = (Ok tt, w') /\ file_closed g I id l w w'.
Proof.
  intros [].
  assert (Hwp : wp (fffs_close id) (fun _ w' => file_closed g I id l w w')
    (fun _ _ => False) w) by by apply (wp_close_new g I id l).
  apply wp_returns in Hwp as ([] & w' & Hrun & Hw'). by exists w'.
Qed.

(** C26: reading by name.  When resolution finds the name and the file's chain
    of extents is complete, opening it for reading and reading [size] bytes
    terminates, succeeds, returns the first [size] bytes of the payload of the
    root followed by the data of the chain, and does not change the flash. *)
Theorem open_reads_file `{Backend} `{!NorFlash} `{!ValidBackend}
    (g : fs_geometry) `{!GeoOk g} (I : IndexCache) `{!CachedIndex I} (N : Fuel)
    (id : Z) (name : list Z) (size slot head : Z) (v : root_md) (r : fffs_md_record)
    (l : list (Z * fffs_md_record)) (w : world) :
  fs_geo (w_fs w) = g -> flash_ok w -> idx_ok (w_fs w) -> sector_size g <= 2 ^ 16 ->
  0 < zlen name <= FFFS_MAX_NAME ->
  name_scan (root_value g (mem w)) (idx_map (w_fs w)) name (candidates name) =
    inr (Some (slot, head, v)) ->
  slot_md g (mem w) head slot FFFS_MD_MATCH_LIVE = inr r ->
  chain g (mem w) slot (if 1 <? md_span_len r then u16 (head + 1) else md_next r) l ->
  let content := root_payload g (mem w) head r ++ chain_bytes g (mem w) l in
  md_size_or_offset r = zlen content -> is_u32 (zlen content) -> 0 <= size ->
  Z.min size (zlen content) + Z.of_nat (length l) <= Z.of_nat N ->
  exists w1 w2, fffs_open id name FFFS_O_RDONLY w = (Ok tt, w1) /\
    fffs_read id size w1 = (Ok (take (Z.to_nat size) content), w2) /\
    (forall a, mem w2 a = mem w a).
Proof.
  intros Hgeo Hok Hidx Hss Hname Hscan Hr Hch content Hsz Hu Hsize Hfuel.
  pose proof (wp_read_named g I id name size slot head v r l w Hgeo Hok Hidx Hss Hname
    Hscan Hr Hch Hsz Hu Hsize Hfuel) as Hwp.
  apply wp_returns in Hwp as (bytes & w2 & Hrun & -> & Hm).
  apply bind_ok in Hrun as ([] & w1 & Hopen & Hread). by exists w1, w2.
Qed.

(** A written file reads back.  After a successful close of a new file,
    opening its name for reading and reading its length returns exactly the
    bytes that were written. *)
Theorem written_file_reads_back `{Backend} `{!NorFlash} `{!ValidBackend}
    (g : fs_geometry) `{!GeoOk g} (I : IndexCache) `{!CachedIndex I} (N : Fuel)
    (id rid : Z) (l : list fffs_md_record) (name data : list Z) (w : world) :
  ready_to_close g I id l name data w -> sector_size g <= 2 ^ 16 ->
  zlen data <= Z.of_nat N ->
  exists w1 w2 w3, fffs_close id w = (Ok tt, w1) /\
    fffs_open rid name FFFS_O_RDONLY w1 = (Ok tt, w2) /\
    fffs_read rid (zlen data) w2 = (Ok data, w3).
Proof.
  intros [] Hss Hfuel.
  assert (Hwp : wp (fffs_close id ;; read_named I rid name (zlen data))
    (fun bytes _ => bytes = data) (fun _ _ => False) w).
  { apply wp_bind, (wp_close_new g I id l); try done. intros w1 [].
    by eapply (wp_read_back g I id rid l name data w w1 w1); try done; apply cd_committed. }
  apply wp_returns in Hwp as (bytes & w3 & Hrun & ->).
  apply bind_ok in Hrun as ([] & w1 & Hclose & Hrest).
  apply bind_ok in Hrest as ([] & w2 & Hopen & Hread). by exists w1, w2, w3.
Qed.

(** C1: a written file survives a power cycle.  When the journal is clean and
    the index agrees with it, [fffs_close] of a new file leaves a flash that
    every later [fffs_mount] accepts, as long as discovery sees the headers of
    the ring in it, whatever [struct fffs] held before; and in the mounted file
    system opening the name and reading returns exactly the bytes that were
    written before the power was cut. *)
Theorem file_survives_power_cycle `{Backend} `{!NorFlash} `{!ValidBackend}
    (g : fs_geometry) `{!GeoOk g} (I : IndexCache) `{!CachedIndex I} (N : Fuel)
    (id rid : Z) (l : list fffs_md_record) (name data : list Z) (w : world) :
  ready_to_close g I id l name data w -> sector_size g <= 2 ^ 16 ->
  zlen data <= Z.of_nat N ->
  clean_journal g I (mem w) (fs_log (w_fs w)) ->
  idx_map (w_fs w) = replay_map ∅ (journal g (mem w) (fs_log (w_fs w))) ->
  (S (size (idx_map (w_fs w))) < idx_capacity g)%nat ->
  index_sequence_count (fs_log (w_fs w)) < index_sectors g ->
  exists w1, fffs_close id w = (Ok tt, w1) /\
    (ring_headers g (mem w1) (fs_log (w_fs w1)) ->
     forall opts w2, mount_accepts g I opts -> flash_ok w2 ->
       (forall a, mem w2 a = mem w1 a) ->
       exists w3 w4 w5, fffs_mount opts w2 = (Ok tt, w3) /\
         fffs_open rid name FFFS_O_RDONLY w3 = (Ok tt, w4) /\
         fffs_read rid (zlen data) w4 = (Ok data, w5)).
Proof.
  intros [] Hss Hfuel Hclean Hidx Hcap Hcnt.
  assert (Hwp : wp (fffs_close id) (fun _ w' => file_closed g I id l w w')
    (fun _ _ => False) w) by by apply (wp_close_new g I id l).
  apply wp_returns in Hwp as ([] & w1 & Hclose & Hw1). exists w1. split; [done |].
  intros Hrh opts w2 Hma Hok2 Hm2. destruct Hw1.
  assert (Hcl1 : clean_journal g I (mem w1) (fs_log (w_fs w1)))
    by (eapply clean_after_close; try done; by rewrite <- Hidx).
  assert (Hwp : wp (fffs_mount opts ;; read_named I rid name (zlen data))
    (fun bytes _ => bytes = data) (fun _ _ => False) w2).
  { apply wp_bind, (wp_mount_same g I opts w1); try done.
    - by rewrite (fc_next _ _ _ _ _ _ cd_committed).
    - intros w3 Hok3 Hm3 Hgeo3 Hidx3 Hmap3 _.
      eapply (wp_read_back g I id rid l name data w w1 w3); try done.
      rewrite Hmap3. symmetry. by eapply index_after_close. }
  apply wp_returns in Hwp as (bytes & w5 & Hrun & ->).
  apply bind_ok in Hrun as ([] & w3 & Hmount & Hrest).
  apply bind_ok in Hrest as ([] & w4 & Hopen & Hread). by exists w3, w4, w5.
Qed.
