(* ===== verification/Deletion.v ===== *)
(** * Deleting a file

    [fffs_delete_file] in the namespace: the journal and the index lose the
    name's slot, the records of its chain are tombstoned, and what the rest of
    the namespace reaches stays. *)

From S2P Require Export RoundTrip GcSpec.

Section Dropping.
Context `{Backend} `{!NorFlash} `{!ValidBackend} (g : fs_geometry) `{!GeoOk g}.
Context (spared : Z).
#[local] Abbreviation base s := (s * sector_size g).
#[local] Abbreviation N := (index_sectors g).

(** ** What a chain's invalidation leaves alone *)

(** The sectors other than [spared], which the step does not touch. *)
Definition sectors_sane (m : Z -> Z) : Prop :=
  forall s, N <= s < sector_count g -> s <> spared -> sector_sane g m s.

(** No sector has two live records of the slot. *)
Definition slot_once (m : Z -> Z) (slot : Z) : Prop :=
  forall s x y, N <= s < sector_count g -> footer_live (footer_at g m s) = true ->
    x ∈ fst (sector_records g m s) -> y ∈ fst (sector_records g m s) ->
    md_live x = true -> md_live y = true -> md_slot x = slot -> md_slot y = slot ->
    x = y.

(** The live records of the slot in [m'] are records that [m] has. *)
Definition only_fewer (m m' : Z -> Z) : Prop :=
  forall slot, slot_once m slot -> slot_once m' slot /\
    forall s r, slot_md g m' s slot FFFS_MD_MATCH_LIVE = inr r ->
      slot_md g m s slot FFFS_MD_MATCH_LIVE = inr r.

Lemma only_fewer_ext m m' : (forall a, m' a = m a) -> only_fewer m m'.
Proof.
  intros Heq slot Hs. split.
  - intros s x y. rewrite (footer_at_in g m' m), (sector_records_in g m' m) by auto.
    apply Hs.
  - intros s r. by rewrite (slot_md_ext g m' m) by done.
Qed.

Lemma only_fewer_trans m1 m2 m3 :
  only_fewer m1 m2 -> only_fewer m2 m3 -> only_fewer m1 m3.
Proof.
  intros H12 H23 slot Hs. destruct (H12 slot Hs) as [Hs2 Hb2].
  destruct (H23 slot Hs2) as [Hs3 Hb3]. split; [done |]. auto.
Qed.

Lemma kill_in_live r x : md_live (kill_in r x) = true -> kill_in r x = x.
Proof. unfold kill_in. by destruct (_ =? _). Qed.

Lemma only_fewer_kill m sector r :
  (forall a, is_u8 (m a)) -> md_live r = true ->
  r ∈ fst (sector_records g m sector) -> only_fewer m (kill_at g m sector r).
Proof.
  intros Hu Hl Hin slot Hs.
  assert (Hrec := records_killed g m sector r Hu Hl Hin).
  assert (Hfoot := footer_killed g m sector r Hin).
  assert (Hother : forall t, t <> sector -> forall a,
    base t <= a < base t + sector_size g -> kill_at g m sector r a = m a).
  { intros t Ht a Ha. apply (kill_at_out g); [done |]. intros Hb.
    pose proof (sector_size_range (g := g)).
    assert (t < sector \/ sector < t) as [Hlt | Hlt] by lia; nia. }
  assert (Hlive : forall x, x ∈ fst (sector_records g (kill_at g m sector r) sector) ->
    md_live x = true -> x ∈ fst (sector_records g m sector)).
  { intros x Hx Hxl. rewrite Hrec in Hx. cbn [fst] in Hx.
    apply list_elem_of_fmap in Hx as (x0 & -> & Hx). by rewrite kill_in_live. }
  assert (Honce : slot_once (kill_at g m sector r) slot).
  { intros s x y. destruct (Z.eq_dec s sector) as [-> | Hne].
    - rewrite Hfoot. intros Hsec Hf Hx Hy Hxl Hyl. by apply (Hs sector); auto.
    - rewrite (footer_at_in g (kill_at g m sector r) m),
        (sector_records_in g (kill_at g m sector r) m) by (by apply Hother). apply Hs. }
  split; [done |]. intros s x Hx. destruct (Z.eq_dec s sector) as [-> | Hne].
  - pose proof (slot_md_record g _ _ _ _ Hx) as (Hf & Hxin & Hxl & Hxs).
    rewrite Hfoot in Hf. specialize (Hlive x Hxin Hxl).
    pose proof (slot_md_fits g _ _ _ _ _ Hx) as [Hsec _].
    unfold slot_md, lookup_md, pick_record, valid_data_sector.
    rewrite Hf, (proj2 (Z.leb_le _ _)), (proj2 (Z.ltb_lt _ _)) by lia. cbn [andb negb].
    destruct (List.find _ _) as [y |] eqn:Hy.
    + apply List.find_some in Hy as [Hyin Hym]. apply list_elem_of_In in Hyin.
      unfold md_record_matches_slot in Hym.
      destruct (Z.eqb_spec (md_slot y) slot) as [Hys |]; [| done]. cbn [negb] in Hym.
      by rewrite (Hs sector x y).
    + exfalso. apply list_elem_of_In in Hlive.
      eapply List.find_none in Hy; [| exact Hlive]. unfold md_record_matches_slot in Hy.
      by rewrite Hxs, Z.eqb_refl, Hxl in Hy.
  - by rewrite (slot_md_in g (kill_at g m sector r) m) in Hx by (by apply Hother).
Qed.

(** The lookups in the sectors outside of [ts] have the same results. *)
Definition same_but (ts : list Z) (m m' : Z -> Z) : Prop :=
  forall s slot k, s ∉ ts -> slot_md g m' s slot k = slot_md g m s slot k.

Lemma same_but_ext ts m m' : (forall a, m' a = m a) -> same_but ts m m'.
Proof. intros Heq s slot k _. by apply slot_md_ext. Qed.

Lemma same_but_trans ts ts' m1 m2 m3 :
  same_but ts m1 m2 -> same_but ts' m2 m3 -> same_but (ts ++ ts') m1 m3.
Proof.
  intros H12 H23 s slot k Hs. rewrite H23, H12; [done | |];
    intros Hin; apply Hs, elem_of_app; auto.
Qed.

Lemma kill_other m sector r s a : r ∈ fst (sector_records g m sector) -> s <> sector ->
  base s <= a < base s + sector_size g -> kill_at g m sector r a = m a.
Proof.
  intros Hin Hne Ha. apply (kill_at_out g); [done |]. intros Hb.
  pose proof (sector_size_range (g := g)).
  assert (s < sector \/ sector < s) as [Hlt | Hlt] by lia; nia.
Qed.

Lemma same_but_kill m sector r : r ∈ fst (sector_records g m sector) ->
  same_but [sector] m (kill_at g m sector r).
Proof.
  intros Hin s slot k Hs. apply (slot_md_in g (kill_at g m sector r) m). intros a Ha.
  apply (kill_other m sector r s); [done | | done].
  intros ->. by apply Hs, list_elem_of_singleton.
Qed.

(** A slot that the sector had once is gone with its record. *)
Lemma killed_no_live m sector r slot : (forall a, is_u8 (m a)) -> slot_once m slot ->
  N <= sector < sector_count g -> footer_live (footer_at g m sector) = true ->
  r ∈ fst (sector_records g m sector) -> md_live r = true -> md_slot r = slot ->
  no_live g (kill_at g m sector r) sector slot.
Proof.
  intros Hu Ho Hsec Hf Hin Hl Hs. apply no_live_records. intros x Hx Hxl Hxs.
  rewrite (records_killed g m sector r Hu Hl Hin) in Hx. cbn [fst] in Hx.
  apply list_elem_of_fmap in Hx as (x0 & -> & Hx). pose proof (kill_in_live _ _ Hxl) as He.
  rewrite He in Hxl, Hxs. assert (x0 = r) as -> by by apply (Ho sector); congruence.
  unfold kill_in in He. rewrite Z.eqb_refl in He. by rewrite <- He in Hl.
Qed.

(** A step in which records that the namespace [idx] does not reach may become
    tombstones, and only the accounting of [struct fffs] changes. *)
Record dropping (idx : gmap Z Z) (w w' : world) : Prop := {
  dr_ok : flash_ok w';
  dr_mem : gc_mem g idx (mem w) (mem w');
  dr_only : only_fewer (mem w) (mem w');
  dr_index : forall a, a < N * sector_size g -> mem w' a = mem w a;
  dr_sane : sectors_sane (mem w');
  dr_geo : fs_geo (w_fs w') = fs_geo (w_fs w);
  dr_log : fs_log (w_fs w') = fs_log (w_fs w);
  dr_cache : index_cache (w_fs w') = index_cache (w_fs w);
  dr_heads : index_heads (w_fs w') = index_heads (w_fs w);
  dr_open : open_files (w_fs w') = open_files (w_fs w);
  dr_files : w_files w' = w_files w;
}.

Lemma dropping_refl idx w : flash_ok w -> sectors_sane (mem w) -> dropping idx w w.
Proof.
  intros Hok Hs. split; try done.
  apply gc_mem_ext; [| done]. intros a. by apply mem_u8.
Qed.

Lemma dropping_trans idx w1 w2 w3 :
  dropping idx w1 w2 -> dropping idx w2 w3 -> dropping idx w1 w3.
Proof.
  intros [] []. split; try congruence.
  - by eapply gc_mem_trans.
  - by eapply only_fewer_trans.
  - intros a Ha. rewrite dr_index1 by done. auto.
  - done.
Qed.

(** A change of [struct fffs] outside the parts that matter here. *)
Lemma dropping_fs idx w w' fs :
  dropping idx w w' -> fs_geo fs = fs_geo (w_fs w') -> fs_log fs = fs_log (w_fs w') ->
  index_cache fs = index_cache (w_fs w') -> index_heads fs = index_heads (w_fs w') ->
  open_files fs = open_files (w_fs w') ->
  dropping idx w (mk_world (w_ctx w') fs (w_files w')).
Proof. intros [] Hg Hl Hc Hh Ho. split; try done; cbn [w_fs]; congruence. Qed.

Lemma dropping_flash idx w w' :
  sectors_sane (mem w) -> flash_ok w -> flash_is (mem w) w w' -> dropping idx w w'.
Proof.
  intros Hs Hok [Hok' Hm Hfs Hfl]. split; rewrite ?Hfs; try done.
  - apply gc_mem_ext; [| done]. intros a. by apply mem_u8.
  - by apply only_fewer_ext.
  - intros s Hr Hx. apply (sector_sane_in g (mem w)); [intros a _; symmetry; apply Hm |].
    by apply Hs.
Qed.

(** ** Tombstones of a slot that the namespace does not have *)

Lemma unprotected idx m slot sector : idx !! slot = None -> ~ protected g idx m slot sector.
Proof. intros Hn (head & Hh & _). congruence. Qed.

Lemma dropping_kill idx w w' sector r :
  sectors_sane (mem w) -> flash_ok w -> sector <> spared ->
  ~ protected g idx (mem w) (md_slot r) sector -> N <= sector < sector_count g ->
  footer_live (footer_at g (mem w) sector) = true ->
  r ∈ fst (sector_records g (mem w) sector) -> md_live r = true ->
  flash_is (kill_at g (mem w) sector r) w w' -> dropping idx w w'.
Proof.
  intros Hs Hok Hsp Hn Hsec Hf Hin Hl [Hok' Hm Hfs Hfl].
  assert (Hu : forall a, is_u8 (mem w a)) by (intros a; by apply mem_u8).
  split; rewrite ?Hfs; try done.
  - eapply gc_mem_trans.
    { apply (gc_mem_kill g idx (mem w) sector r); try done. by apply Hs. }
    apply gc_mem_ext; [| done]. intros a. rewrite <- Hm. by apply mem_u8.
  - eapply only_fewer_trans; [by apply only_fewer_kill | by apply only_fewer_ext].
  - intros a Ha. rewrite Hm. apply (kill_at_out g); [done |].
    pose proof (sector_size_range (g := g)).
    assert (N * sector_size g <= base sector) by (apply Z.mul_le_mono_nonneg_r; lia). lia.
  - intros s Hr Hx. apply (sector_sane_in g (kill_at g (mem w) sector r));
      [intros a _; symmetry; apply Hm |].
    apply (sane_killed g); try done. by apply Hs.
Qed.

(** What the walk over a released chain does: [ts] are the sectors passed. *)
Record dropped (idx : gmap Z Z) (ts : list Z) (w w' : world) : Prop := {
  dp_dropping : dropping idx w w';
  dp_same : same_but ts (mem w) (mem w');
}.

Lemma dropped_none idx w : flash_ok w -> sectors_sane (mem w) -> dropped idx [] w w.
Proof. intros Hok Hs. split; [by apply dropping_refl | by apply same_but_ext]. Qed.

Lemma dropped_app idx ts ts' w1 w2 w3 :
  dropped idx ts w1 w2 -> dropped idx ts' w2 w3 -> dropped idx (ts ++ ts') w1 w3.
Proof.
  intros [] []. split; [by eapply dropping_trans | by eapply same_but_trans].
Qed.

(** The slot's record, if the sector has one. *)
Definition has_live (m : Z -> Z) (slot sector : Z) : Prop :=
  exists r, slot_md g m sector slot FFFS_MD_MATCH_LIVE = inr r.

Lemma no_live_later idx w w' sector slot : dropping idx w w' -> slot_once (mem w) slot ->
  no_live g (mem w) sector slot -> no_live g (mem w') sector slot.
Proof. intros [] Ho Hn r Hr. by apply dr_only0 in Hr; [apply Hn in Hr |]. Qed.

Lemma once_later idx w w' slot : dropping idx w w' -> slot_once (mem w) slot ->
  slot_once (mem w') slot.
Proof. intros [] Ho. by apply dr_only0. Qed.

Lemma has_live_later idx ts w w' slot sector : dropped idx ts w w' -> sector ∉ ts ->
  has_live (mem w) slot sector -> has_live (mem w') slot sector.
Proof. intros [] Hn [r Hr]. exists r. by rewrite dp_same0. Qed.

Lemma wp_drop_record idx sector slot accounting w (Q : bool -> world -> Prop) E :
  fs_geo (w_fs w) = g -> flash_ok w -> sectors_sane (mem w) ->
  sector <> spared -> ~ protected g idx (mem w) slot sector ->
  (forall b w', dropped idx [sector] w w' ->
     (slot_once (mem w) slot -> no_live g (mem w') sector slot) -> Q b w') ->
  (forall e w', dropped idx [sector] w w' -> no_live g (mem w) sector slot -> E e w') ->
  wp (fffs_tombstone_metadata_for_slot sector slot accounting) Q E w.
Proof.
  intros Hgeo Hok Hs Hsp Hn HQ HE.
  apply (wp_tombstone g); [done.. | | |].
  - intros w' Hw' Hnone. assert (Hd : dropped idx [sector] w w')
      by (split; [by apply dropping_flash | apply same_but_ext, Hw']).
    apply HQ; [done |]. intros Ho. by eapply no_live_later; [apply Hd |..].
  - intros e w' Hw' Hnone. apply HE; [| done].
    split; [by apply dropping_flash | apply same_but_ext, Hw'].
  - intros r w' Hsec Hf Hin Hl <- Hw'.
    assert (Hu : forall a, is_u8 (mem w a)) by (intros a; by apply mem_u8).
    assert (Hd : dropping idx w w') by by eapply dropping_kill.
    assert (Hsame : same_but [sector] (mem w) (mem w')).
    { intros s slot k Hk. rewrite (slot_md_ext g _ (kill_at g (mem w) sector r)) by apply Hw'.
      by apply same_but_kill. }
    assert (Hgone : slot_once (mem w) (md_slot r) -> no_live g (mem w') sector (md_slot r)).
    { intros Ho x Hx. rewrite (slot_md_ext g _ (kill_at g (mem w) sector r)) in Hx
        by apply Hw'. by eapply killed_no_live in Hx. }
    unfold account_tombstone. destruct (_ && _).
    + apply wp_bind, wp_mod_fs, wp_ret, HQ; [| done]. split; [by apply dropping_fs | done].
    + by apply wp_ret, HQ.
Qed.

Lemma spare_kept idx w w' slot t :
  dropping idx w w' -> ~ protected g idx (mem w) slot t -> ~ protected g idx (mem w') slot t.
Proof. intros [] Hn Hp. by apply Hn, (protected_kept g idx (mem w) (mem w')). Qed.

(** The sectors of a span from the [i]-th on. *)
Definition span_from (current i : Z) (n : nat) : list Z :=
  (fun j => u16 (current + j)) <$> seqZ i (Z.of_nat n).

Lemma span_from_S current i n :
  span_from current i (S n) = u16 (current + i) :: span_from current (i + 1) n.
Proof.
  unfold span_from. rewrite seqZ_cons by lia. rewrite fmap_cons. do 2 f_equal.
  f_equal; lia.
Qed.

Lemma wp_drop_span idx n slot : forall current i root accounted w
    (Q : option bool -> world -> Prop) E,
  let ts := span_from current i n in
  fs_geo (w_fs w) = g -> flash_ok w -> sectors_sane (mem w) ->
  Forall (fun t => t <> spared /\ ~ protected g idx (mem w) slot t) ts ->
  (forall b w', dropped idx ts w w' ->
     (slot_once (mem w) slot -> NoDup ts -> Forall (has_live (mem w) slot) ts ->
      is_Some b /\ Forall (fun t => no_live g (mem w') t slot) ts) -> Q b w') ->
  wp (tombstone_span n slot current i root accounted) Q E w.
Proof.
  induction n as [| n IH]; intros current i root accounted w Q E ts Hgeo Hok Hs Hn HQ;
    cbn [tombstone_span].
  { apply wp_ret, HQ; [by apply dropped_none |]. intros _ _ _. split; [by eexists | done]. }
  subst ts. rewrite span_from_S in Hn, HQ. set (t := u16 (current + i)) in *.
  set (ts := span_from current (i + 1) n) in *. apply Forall_cons in Hn as [[Hne Hp] Hn].
  apply wp_bind, wp_try, (wp_drop_record idx); try done.
  - intros b w1 Hw1 Hgone. pose proof (dp_dropping _ _ _ _ Hw1) as Hd1.
    apply IH; try apply Hd1; [by rewrite (dr_geo _ _ _ Hd1) | |].
    + eapply Forall_impl; [exact Hn |]. intros x [Hx Hpx].
      split; [done | by apply (spare_kept idx w)].
    + intros b' w2 Hw2 Hrest. pose proof (dp_dropping _ _ _ _ Hw2) as Hd2.
      apply HQ; [exact (dropped_app _ _ _ _ _ _ Hw1 Hw2) |].
      intros Ho [Hnin Hnd]%NoDup_cons [_ Hlive]%Forall_cons.
      pose proof (once_later _ _ _ _ Hd1 Ho) as Ho1.
      destruct Hrest as [Hb Hall]; [done | done | |].
      { rewrite Forall_forall in Hlive |- *. intros x Hx.
        eapply has_live_later; [exact Hw1 | | by apply Hlive].
        by intros ->%list_elem_of_singleton. }
      split; [done |]. apply Forall_cons. split; [| done].
      by eapply no_live_later; [apply Hd2 | | apply Hgone].
  - intros e w1 Hw1 Hnone. apply wp_ret, HQ.
    + destruct Hw1 as [Hd1 Hsame]. split; [done |]. intros x sl k Hx. apply Hsame.
      intros ->%list_elem_of_singleton. apply Hx. by left.
    + intros _ _ [[r Hr] _]%Forall_cons. by apply Hnone in Hr.
Qed.

(** The sectors that the walk of a released chain passes in any state after
    [w], [n] nodes of it, are not kept by the namespace. *)
Fixpoint spare_walk (idx : gmap Z Z) (w : world) (n : nat) (slot current : Z)
    (next : option Z) : Prop :=
  match n with
  | O => True
  | S n' => forall r w', dropping idx w w' ->
      slot_md g (mem w') current slot FFFS_MD_MATCH_LIVE = inr r ->
      (forall t, current <= t < current + md_span_len r ->
         t <> spared /\ ~ protected g idx (mem w) slot t) /\
      spare_walk idx w n' slot (default (md_next r) next) None
  end.

Lemma spare_later idx w w' n slot : forall current next,
  dropping idx w w' -> spare_walk idx w n slot current next ->
  spare_walk idx w' n slot current next.
Proof.
  induction n as [| n IH]; [done |]. intros current next Hw Hsp r w2 Hw2 Hr.
  destruct (Hsp r w2 (dropping_trans _ _ _ _ Hw Hw2) Hr) as [Ht Hrest].
  split; [| by apply IH]. intros t Hin. destruct (Ht t Hin) as [Hne Hp].
  split; [done |]. by eapply spare_kept.
Qed.

(** A slot that the namespace does not have. *)
Lemma spare_absent idx w n slot : idx !! slot = None -> spared < N ->
  forall current next, spare_walk idx w n slot current next.
Proof.
  intros Hn Hsp. induction n as [| n IH]; [done |]. intros current next r w' _ Hr.
  pose proof (slot_md_fits g _ _ _ _ _ Hr) as [Hs _].
  split; [| apply IH]. intros t Ht. split; [lia | by apply unprotected].
Qed.

(** A chain whose sectors are all outside of what the namespace keeps. *)
Lemma spare_chain idx w n slot : slot_once (mem w) slot -> forall current next,
  (forall t, reach g n (mem w) slot current t = inr true ->
     t <> spared /\ ~ protected g idx (mem w) slot t) ->
  (forall x r, next = Some x ->
     slot_md g (mem w) current slot FFFS_MD_MATCH_LIVE = inr r -> md_next r = x) ->
  spare_walk idx w n slot current next.
Proof.
  intros Honce. induction n as [| n IH]; [done |]. intros current next Hnp Hnext r w' Hw' Hr.
  apply (dr_only _ _ _ Hw' slot Honce) in Hr.
  pose proof (slot_md_fits g _ _ _ _ _ Hr) as [Hs _]. pose proof (geo_index (g := g)).
  assert (Hc : current <> 0) by lia.
  assert (Hd : default (md_next r) next = md_next r)
    by (destruct next as [x |]; [by rewrite (Hnext x r) | done]).
  rewrite Hd. split.
  - intros t Ht. apply Hnp. rewrite (reach_cover g _ _ _ _ _ r Hc Hr).
    by rewrite (proj2 (Z.leb_le _ _)), (proj2 (Z.ltb_lt _ _)) by lia.
  - apply IH; [| done]. intros t Ht. apply Hnp.
    rewrite (reach_cover g _ _ _ _ _ r Hc Hr). by destruct (_ && _).
Qed.

(** The sectors of a chain of extents, span after span. *)
Fixpoint chain_sectors (n : nat) (m : Z -> Z) (slot current : Z) : list Z :=
  if current =? 0 then []
  else match n with
       | O => []
       | S n' =>
           match slot_md g m current slot FFFS_MD_MATCH_LIVE with
           | inl _ => []
           | inr r =>
               seqZ current (md_span_len r) ++ chain_sectors n' m slot (md_next r)
           end
       end.

(** No sector comes twice, and each has its record. *)
Definition chain_whole (n : nat) (m : Z -> Z) (slot current : Z) : Prop :=
  NoDup (chain_sectors n m slot current) /\
  Forall (has_live m slot) (chain_sectors n m slot current).

Lemma chain_sectors_later n m m' slot : 
  (forall s r, slot_md g m' s slot FFFS_MD_MATCH_LIVE = inr r ->
     slot_md g m s slot FFFS_MD_MATCH_LIVE = inr r) -> forall current,
  (forall s, s ∈ chain_sectors n m slot current ->
     slot_md g m' s slot FFFS_MD_MATCH_LIVE = slot_md g m s slot FFFS_MD_MATCH_LIVE) ->
  chain_sectors n m' slot current = chain_sectors n m slot current.
Proof.
  intros Hback. induction n as [| n IH]; intros current Hsame; cbn [chain_sectors] in *;
    (destruct (current =? 0); [done |]); [done |].
  destruct (slot_md g m current slot _) as [e | r] eqn:Hr.
  - destruct (slot_md g m' current slot _) as [| r'] eqn:Hr'; [done |].
    apply Hback in Hr'. congruence.
  - pose proof (slot_md_span g _ _ _ _ Hr) as [Hlen _]. rewrite Hsame, Hr.
    + f_equal. apply IH. intros s Hs. apply Hsame, elem_of_app. by right.
    + apply elem_of_app. left. apply elem_of_seqZ. lia.
Qed.

Lemma span_from_seqZ current len : 0 <= current -> current + len <= 2 ^ 16 ->
  span_from current 0 (Z.to_nat len) = seqZ current len.
Proof.
  intros Hc Hl. unfold span_from, seqZ. rewrite <- list_fmap_compose.
  rewrite Nat2Z.id. apply list_fmap_ext. intros i x Hx. apply lookup_seq in Hx as [-> Hi].
  cbn [compose]. rewrite u16_small by (unfold is_u16; lia). lia.
Qed.

(** The chain from [current] has been released: no sector of it has a live
    record of the slot, if it was whole and [next], where the caller gives the
    second link, is the one in the flash. *)
Definition chain_gone (n : nat) (slot current : Z) (next : option Z) (w w' : world) : Prop :=
  slot_once (mem w) slot -> chain_whole n (mem w) slot current ->
  (forall x r, next = Some x ->
     slot_md g (mem w) current slot FFFS_MD_MATCH_LIVE = inr r -> md_next r = x) ->
  Forall (fun t => no_live g (mem w') t slot) (chain_sectors n (mem w) slot current).

Lemma chain_gone_nil n slot next w w' : chain_gone n slot 0 next w w'.
Proof. intros _ _ _. by destruct n. Qed.

Lemma wp_drop_chain idx n slot : forall current next root visited accounted w
    (Q : bool * Z * bool -> world -> Prop) E,
  fs_geo (w_fs w) = g -> flash_ok w -> sectors_sane (mem w) ->
  spare_walk idx w n slot current next ->
  (forall b w', dropping idx w w' -> chain_gone n slot current next w w' -> Q b w') ->
  wp (old_chain_loop n slot current next root true visited accounted) Q E w.
Proof.
  induction n as [| n IH];
    intros current next root visited accounted w Q E Hgeo Hok Hs Hsp HQ;
    cbn [old_chain_loop]; (destruct (Z.eqb_spec current 0) as [-> | Hc];
      [apply wp_ret, HQ; [by apply dropping_refl | apply chain_gone_nil] |]).
  { apply wp_ret, HQ; [by apply dropping_refl |]. intros _ _ _. cbn [chain_sectors].
    by destruct (_ =? _). }
  apply wp_bind, wp_try, (wp_read_md g); [done.. |]. intros w1 Hw1.
  apply (dropping_flash idx) in Hw1 as Hd1; [| done..].
  fold (slot_md g (mem w) current slot FFFS_MD_MATCH_LIVE).
  destruct (slot_md g (mem w) current slot _) as [e | record] eqn:Hr.
  { apply wp_ret, HQ; [done |]. intros _ _ _. cbn [chain_sectors].
    rewrite Hr. by destruct (_ =? _). }
  destruct (Hsp record w (dropping_refl _ _ Hok Hs) Hr) as [Hspan Hrest].
  pose proof (slot_md_span g _ _ _ _ Hr) as [Hlen Hfit].
  pose proof (slot_md_fits g _ _ _ _ _ Hr) as [Hsec _].
  pose proof (geo_count (g := g)). pose proof (geo_index (g := g)).
  apply wp_bind, wp_get_geo. rewrite (dr_geo _ _ _ Hd1), Hgeo.
  rewrite (proj2 (Z.ltb_ge _ _)) by lia.
  apply wp_bind. unfold fffs_alloc_map_mark_range_unknown.
  destruct (mark_range_unknown_alloc (Z.to_nat (md_span_len record)) current 0 w1)
    as [alloc Hrun].
  eapply returns_wp; [exact Hrun |]. clear Hrun. set (w2 := mk_world _ _ _).
  assert (Hw2 : dropped idx [] w w2).
  { split; [by apply dropping_fs | apply same_but_ext, Hw1]. }
  clearbody w2. clear w1 Hw1 Hd1. pose proof (dp_dropping _ _ _ _ Hw2) as Hd2.
  apply wp_bind, (wp_drop_span idx); try apply Hd2; [by rewrite (dr_geo _ _ _ Hd2) | |];
    rewrite span_from_seqZ by lia.
  { apply Forall_forall. intros t [Ht1 Ht2]%elem_of_seqZ.
    destruct (Hspan t) as [Hne Hp]; [lia |]. split; [done | by apply (spare_kept idx w)]. }
  intros r w3 Hw3 Hgone. pose proof (dropped_app _ _ _ _ _ _ Hw2 Hw3) as Hw.
  cbn [app] in Hw. clear Hw3. pose proof (dp_dropping _ _ _ _ Hw) as Hd.
  assert (Hsw : forall t, has_live (mem w2) slot t <-> has_live (mem w) slot t).
  { intros t. split; intros [x Hx]; exists x;
      rewrite (dp_same _ _ _ _ Hw2) in * by apply not_elem_of_nil; done. }
  assert (Hfirst : slot_once (mem w) slot -> chain_whole (S n) (mem w) slot current ->
    is_Some r /\ Forall (fun t => no_live g (mem w3) t slot)
      (seqZ current (md_span_len record))).
  { intros Ho [Hnd Hall]. cbn [chain_sectors] in Hnd, Hall.
    rewrite (proj2 (Z.eqb_neq current 0)), Hr in Hnd, Hall by done.
    apply NoDup_app in Hnd as (Hnd & _ & _). apply Forall_app in Hall as [Hall _].
    apply Hgone; [by eapply once_later | done |].
    eapply Forall_impl; [exact Hall |]. intros t. apply Hsw. }
  clear Hgone Hsw. destruct r as [accounted' |].
  2: { apply wp_ret, HQ; [done |]. intros Ho Hwh _.
       by destruct (Hfirst Ho Hwh) as [[? ?] _]. }
  apply IH; try apply Hd; [by rewrite (dr_geo _ _ _ Hd) | by eapply spare_later |].
  intros b w4 Hd4 Hlater. apply HQ; [by eapply dropping_trans |]. intros Ho Hwh Hnx.
  destruct (Hfirst Ho Hwh) as [_ Hspanned]. destruct Hwh as [Hnd Hall].
  assert (Hnext : default (md_next record) next = md_next record).
  { destruct next as [x |]; [by rewrite (Hnx x record) | done]. }
  rewrite Hnext in Hlater. cbn [chain_sectors] in Hnd, Hall |- *.
  rewrite (proj2 (Z.eqb_neq current 0)), Hr in Hnd, Hall |- * by done.
  apply NoDup_app in Hnd as (_ & Hapart & Hnd). apply Forall_app in Hall as [_ Hall].
  pose proof (once_later _ _ _ _ Hd Ho) as Ho3.
  assert (Hsame : chain_sectors n (mem w3) slot (md_next record) =
    chain_sectors n (mem w) slot (md_next record)).
  { apply chain_sectors_later; [intros s x; by apply (dr_only _ _ _ Hd slot) |].
    intros s Hin. apply (dp_same _ _ _ _ Hw). intros Hin'. by eapply Hapart. }
  apply Forall_app. split.
  - eapply Forall_impl; [exact Hspanned |]. intros t. by eapply no_live_later.
  - rewrite <- Hsame. apply Hlater; [done | | done]. split; rewrite Hsame; [done |].
    rewrite Forall_forall in Hall |- *. intros t Ht.
    eapply has_live_later; [exact Hw | | by apply Hall]. intros Hin. by eapply Hapart.
Qed.

Lemma wp_invalidate idx slot head next w (Q : unit -> world -> Prop) E :
  let n := Z.to_nat (sector_count g) in
  fs_geo (w_fs w) = g -> flash_ok w -> sectors_sane (mem w) ->
  spare_walk idx w n slot head (Some next) ->
  (forall w', dropping idx w w' -> chain_gone n slot head (Some next) w w' -> Q tt w') ->
  wp (invalidate_and_account slot head next) Q E w.
Proof.
  intros n Hgeo Hok Hs Hn HQ. unfold invalidate_and_account, fffs_invalidate_old_chain.
  apply wp_bind, wp_bind, wp_get_geo. rewrite Hgeo. fold n.
  apply wp_bind, (wp_drop_chain idx); try done.
  intros [[complete visited] accounted] w1 Hw1 Hgone. cbv iota beta.
  destruct complete; cbn [negb].
  - apply wp_bind, wp_when; intros _.
    + apply wp_mod_fs, wp_ret, wp_mod_fs, HQ; [| exact Hgone].
      by do 2 (apply dropping_fs; [| done..]).
    + apply wp_ret, wp_mod_fs, HQ; [by apply dropping_fs | exact Hgone].
  - apply wp_ret, wp_mod_fs, HQ; [by apply dropping_fs | exact Hgone].
Qed.

(** A change of the index sectors. *)
Lemma gc_mem_index idx m m' :
  (forall a, is_u8 (m' a)) -> (forall a, N * sector_size g <= a -> m' a = m a) ->
  gc_mem g idx m m' /\ (sectors_sane m -> sectors_sane m').
Proof.
  intros Hu Heq. pose proof (sector_size_range (g := g)).
  assert (Hin : forall s, N <= s -> forall a, base s <= a < base s + sector_size g ->
    m' a = m a).
  { intros s Hs a Ha. apply Heq.
    assert (N * sector_size g <= base s) by (apply Z.mul_le_mono_nonneg_r; lia). lia. }
  split.
  - split; [done | |].
    + intros slot s r _ Hr. pose proof (slot_md_fits g _ _ _ _ _ Hr) as (Hs & Ho & Hl & He & Hst).
      split; [by rewrite (slot_md_in g m' m) by (apply Hin; lia) |].
      intros a Ha. apply (Hin s); unfold data_end in *; lia.
    + intros slot s r Hr. pose proof (slot_md_fits g _ _ _ _ _ Hr) as [Hs _].
      exists r. by rewrite <- (slot_md_in g m' m) by (apply Hin; lia).
  - intros Hsane s Hs Hx. apply (sector_sane_in g m); [| by apply Hsane].
    intros a Ha. symmetry. apply (Hin s); [lia | done].
Qed.

End Dropping.

(** ** Deletion *)

Section Deletion.
Context `{Backend} `{!NorFlash} `{!ValidBackend} (g : fs_geometry) `{!GeoOk g}.
Context (I : IndexCache) `{!CachedIndex I} `{Fuel}.
#[local] Abbreviation base s := (s * sector_size g).
#[local] Abbreviation N := (index_sectors g).

(** A file [name] in [slot] that can be deleted: the active index sector and
    the index take the record, and the sectors are consistent. *)
Record deleting (name : list Z) (slot head : Z) (v : root_md) (w : world) : Prop := {
  de_geo : fs_geo (w_fs w) = g;
  de_ok : flash_ok w;
  de_name : 0 < zlen name <= FFFS_MAX_NAME;
  de_found : name_scan (root_value g (mem w)) (idx_map (w_fs w)) name
    (candidates name) = inr (Some (slot, head, v));
  de_idx : idx_ok (w_fs w);
  de_log : log_ok g (mem w) (fs_log (w_fs w));
  de_room : active_sector_full (w_fs w) = false;
  de_size : (size (idx_map (w_fs w)) < idx_capacity g)%nat;
  de_sane : sectors_sane g 0 (mem w);
}.

(** The namespace without [slot]. *)
Record file_deleted (slot : Z) (w w' : world) : Prop := {
  fd_ok : flash_ok w';
  fd_geo : fs_geo (w_fs w') = g;
  fd_idx : idx_ok (w_fs w');
  fd_map : idx_map (w_fs w') = delete slot (idx_map (w_fs w));
  fd_log : log_ok g (mem w') (fs_log (w_fs w'));
  fd_next : fs_log (w_fs w') = set_next_index_offset
    (next_index_offset (fs_log (w_fs w)) + 4) (fs_log (w_fs w));
  fd_journal : journal g (mem w') (fs_log (w_fs w')) =
    journal g (mem w) (fs_log (w_fs w)) ++ [(slot, 0)];
  fd_kept : gc_mem g (delete slot (idx_map (w_fs w))) (mem w) (mem w');
  fd_sane : sectors_sane g 0 (mem w');
  fd_open : open_files (w_fs w') = open_files (w_fs w);
  fd_files : w_files w' = w_files w;
}.

Lemma name_scan_slot root idx name slots slot head v :
  name_scan root idx name slots = inr (Some (slot, head, v)) -> slot ∈ slots.
Proof.
  induction slots as [| s rest IH]; [done |]. cbn [name_scan]. rewrite elem_of_cons.
  destruct (idx !! s) as [h |]; [| auto].
  destruct (root h s) as [| r]; [done |]. case_bool_decide; [| auto]. intros [=]. by left.
Qed.

Lemma candidate_range name slot : slot ∈ candidates name -> 1 <= slot < UINT16_MAX.
Proof.
  intros Hin. pose proof (candidates_range name) as Hall. rewrite Forall_forall in Hall.
  by apply Hall.
Qed.

Lemma appended_mem slot head w w' :
  fs_geo (w_fs w) = g -> log_ok g (mem w) (fs_log (w_fs w)) ->
  active_sector_full (w_fs w) = false -> record_proper (slot, head) ->
  appended I slot head w w' ->
  log_ok g (mem w') (fs_log (w_fs w')) /\
  journal g (mem w') (fs_log (w_fs w')) =
    journal g (mem w) (fs_log (w_fs w)) ++ [(slot, head)] /\
  (forall a, N * sector_size g <= a -> mem w' a = mem w a).
Proof.
  intros Hgeo Hlog Hfull Hr Hw'. pose proof (log_ok_range g _ _ Hlog) as [Hact Hnext].
  destruct (fs_less_index_log _ _ (ap_fs _ _ _ _ _ Hw')) as [_ Hlg]. cbn in Hlg.
  unfold active_sector_full in Hfull. rewrite Hgeo, Z.ltb_ge in Hfull.
  destruct (log_ok_append g _ (mem w') _ (slot, head) Hlog Hr Hfull
    (ap_mem _ _ _ _ _ Hw')) as [Hl' Hj'].
  rewrite Hlg. split; [done |]. split; [done |]. intros a Ha.
  rewrite (ap_mem _ _ _ _ _ Hw'). apply mem_program_out.
  pose proof (sector_size_range (g := g)).
  assert ((active_index_sector (fs_log (w_fs w)) + 1) * sector_size g <=
    N * sector_size g) by (apply Z.mul_le_mono_nonneg_r; lia).
  change (zlen (record_bytes slot head)) with 4. lia.
Qed.

Lemma wp_delete name slot head v w (Q : unit -> world -> Prop) E :
  deleting name slot head v w ->
  (forall w', file_deleted slot w w' -> Q tt w') ->
  wp (fffs_delete_file name) Q E w.
Proof.
  intros Hde HQ. pose proof Hde as Hde'. destruct Hde'.
  pose proof (candidate_range _ _ (name_scan_slot _ _ _ _ _ _ _ de_found0)) as Hslot.
  unfold fffs_delete_file. apply wp_bind, (wp_resolve g I); try done. intros w1 rs Hw1.
  unfold resolution_of. rewrite de_found0. intros (-> & -> & Hf & _) _. rewrite Hf.
  apply wp_bind, wp_guard; [done | intros _].
  assert (Hm1 : forall a, mem w1 a = mem w a) by apply Hw1.
  assert (Hfs1 : w_fs w1 = w_fs w) by apply Hw1.
  destruct (log_ok_data g (mem w) (mem w1) _ de_log0) as [Hlog1 Hj1]; [auto |].
  assert (Hprop : record_proper (slot, 0)) by (split; [cbn; lia | by split]).
  apply wp_bind, (wp_append g I); rewrite ?Hfs1; try done; [apply Hw1 | |].
  { left. by rewrite de_geo0. }
  intros w2 Hw2.
  destruct (appended_mem slot 0 w1 w2) as (Hlog2 & Hj2 & Hm2); rewrite ?Hfs1; try done.
  rewrite Hfs1, Hj1 in Hj2.
  pose proof (ap_map _ _ _ _ _ Hw2) as Hmap2. rewrite Hfs1 in Hmap2.
  cbn [apply_record] in Hmap2.
  rewrite (proj2 (Z.eqb_neq slot 0)), Z.eqb_refl in Hmap2 by lia. cbn [andb] in Hmap2.
  set (idx := delete slot (idx_map (w_fs w))) in *.
  pose proof (ap_fs _ _ _ _ _ Hw2) as Hfs2. rewrite Hfs1 in Hfs2.
  destruct (gc_mem_index g 0 idx (mem w) (mem w2)) as [Hgc Hsane].
  { intros a. apply mem_u8, Hw2. }
  { intros a Ha. by rewrite Hm2, Hm1. }
  assert (Hgeo2 : fs_geo (w_fs w2) = g) by (rewrite <- de_geo0; exact (f_equal fs_geo Hfs2)).
  apply (wp_invalidate g 0 idx); [done | apply Hw2 | by apply Hsane |
    apply (spare_absent g); [by apply lookup_delete_eq |]; pose proof (geo_index (g := g));
    lia |].
  intros w3 [] _. apply HQ.
  destruct (idx_ok_ext (w_fs w2) (w_fs w3)) as [Hidx3 Hmap3]; [apply Hw2 | done.. |].
  destruct (log_ok_data g (mem w2) (mem w3) _ Hlog2) as [Hlog3 Hj3]; [done |].
  split; rewrite ?dr_log0, ?dr_open0, ?dr_files0, ?Hmap3; try done; try congruence.
  - exact (f_equal fs_log Hfs2).
  - by eapply gc_mem_trans.
  - exact (f_equal open_files Hfs2).
  - rewrite (ap_files _ _ _ _ _ Hw2). apply Hw1.
Qed.

(** The journal after a deletion. *)
Lemma deleted_journal slot w w1 :
  file_deleted slot w w1 -> 1 <= slot < UINT16_MAX ->
  clean_journal g I (mem w) (fs_log (w_fs w)) ->
  idx_map (w_fs w) = replay_map ∅ (journal g (mem w) (fs_log (w_fs w))) ->
  (size (idx_map (w_fs w)) < idx_capacity g)%nat ->
  clean_journal g I (mem w1) (fs_log (w_fs w1)) /\
  replay_map ∅ (journal g (mem w1) (fs_log (w_fs w1))) =
    delete slot (idx_map (w_fs w)).
Proof.
  intros [] Hslot Hclean Hidx Hcap.
  assert (Hmap : replay_map ∅ (journal g (mem w) (fs_log (w_fs w)) ++ [(slot, 0)]) =
    delete slot (idx_map (w_fs w))).
  { rewrite replay_map_app, <- Hidx. cbn [replay_map foldl apply_record].
    by rewrite (proj2 (Z.eqb_neq slot 0)), Z.eqb_refl by lia. }
  split; [| by rewrite fd_journal0]. rewrite fd_next0 in *.
  eapply (clean_snoc g I); try done; [lia | by left |].
  rewrite Hmap. eapply Nat.le_lt_trans; [| exact Hcap]. rewrite map_size_delete.
  destruct (_ !! slot); simpl; lia.
Qed.

(** ** The rest of the namespace *)

(** What the namespace [idx] reads of a root is the same after the step. *)
Lemma root_value_gc idx m m' slot head v :
  gc_mem g idx m m' -> (forall a, is_u8 (m a)) -> idx !! slot = Some head ->
  root_value g m head slot = inr v -> root_value g m' head slot = inr v.
Proof.
  intros Hg Hu Hh. apply root_value_same; [| done]. intros r Hr.
  apply (gm_keep _ _ _ _ Hg); [| done]. exists head. split; [done |].
  pose proof (slot_md_fits g _ _ _ _ _ Hr) as [Hs _]. pose proof (geo_index (g := g)).
  destruct (Z.to_nat (sector_count g)) as [| n] eqn:Hn; [lia |].
  eapply (reach_self g); [lia | exact Hr].
Qed.

Lemma name_scan_gc idx m m' name slots res :
  gc_mem g idx m m' -> (forall a, is_u8 (m a)) ->
  name_scan (root_value g m) idx name slots = inr res ->
  name_scan (root_value g m') idx name slots = inr res.
Proof.
  intros Hg Hu. induction slots as [| s rest IH]; [done |]. cbn [name_scan].
  destruct (idx !! s) as [h |] eqn:Hs; [| done].
  destruct (root_value g m h s) as [e | r] eqn:Hr; [done |].
  rewrite (root_value_gc idx m m' s h r) by done. case_bool_decide; auto.
Qed.

(** Another name is found as before. *)
Lemma name_scan_delete root idx slot name slots found head v :
  found <> slot -> name_scan root idx name slots = inr (Some (found, head, v)) ->
  name_scan root (delete slot idx) name slots = inr (Some (found, head, v)).
Proof.
  intros Hne. induction slots as [| s rest IH]; [done |]. cbn [name_scan].
  destruct (decide (s = slot)) as [-> | Hs].
  - rewrite lookup_delete_eq. destruct (idx !! slot) as [h |]; [| done].
    destruct (root h slot) as [| r]; [done |]. case_bool_decide; [| done]. by intros [=].
  - rewrite lookup_delete_ne by done. destruct (idx !! s) as [h |]; [| done].
    destruct (root h s) as [| r]; [done |]. by case_bool_decide.
Qed.

(** ** Opening a name that is not there *)

(** The handle that an open resets pins nothing. *)
Lemma pinned_reset id slot n : forall files cur l,
  slot <> 0 -> linked files cur l ->
  let files' := <[id := file_zero]> files in
  existsb (pins_slot slot) (file_of files' <$> open_list_from n files' cur) = true ->
  existsb (pins_slot slot) (file_of files <$> l) = true.
Proof.
  induction n as [| n IH]; intros files cur l Hslot Hl files'.
  { cbn [open_list_from]. by destruct (cur =? 0). }
  destruct l as [| x rest]; cbn [linked] in Hl.
  { subst cur. done. }
  destruct Hl as (-> & Hx & f & Hf & Hrest). cbn [open_list_from].
  destruct (Z.eqb_spec x 0); [done |].
  destruct (decide (x = id)) as [-> | Hne].
  - unfold files'. rewrite lookup_insert_eq. cbn [f_open_next file_zero].
    replace (open_list_from n _ _) with (@nil Z) by by destruct n.
    cbn [fmap list_fmap existsb]. rewrite file_of_insert. unfold pins_slot.
    cbn [f_closed f_slot file_zero]. by destruct (Z.eqb_spec 0 slot).
  - unfold files'. rewrite lookup_insert_ne, Hf by done.
    cbn [fmap list_fmap existsb]. rewrite !orb_true_iff. intros [Hp | Hp].
    + left. unfold file_of in *. by rewrite lookup_insert_ne in Hp.
    + right. by eapply IH.
Qed.

Lemma wp_open_missing id name slot w (Q : unit -> world -> Prop) :
  fs_geo (w_fs w) = g -> flash_ok w -> idx_ok (w_fs w) ->
  0 < zlen name <= FFFS_MAX_NAME ->
  name_scan (root_value g (mem w)) (idx_map (w_fs w)) name (candidates name) = inr None ->
  slot ∈ candidates name -> idx_map (w_fs w) !! slot = None ->
  fffs_slot_is_pinned (w_fs w) (<[id := file_zero]> (w_files w)) slot = false ->
  wp (fffs_open id name FFFS_O_RDONLY) Q
    (fun e w' => e = FFFS_ERR_NOT_FOUND /\ forall a, mem w' a = mem w a) w.
Proof.
  intros Hgeo Hok Hidx Hname Hscan Hin Hfree Hpin.
  unfold fffs_open. apply wp_bind, wp_put_file. set (w0 := mk_world _ _ _).
  change (has_flag FFFS_O_RDONLY FFFS_O_RDONLY) with true.
  change (has_flag FFFS_O_RDONLY FFFS_O_WRONLY) with false. cbv zeta.
  apply wp_bind, wp_guard; [by vm_compute | intros _].
  apply wp_bind, (wp_resolve g I); try done. intros w1 rs Hw1.
  change (mem w0) with (mem w). change (w_fs w0) with (w_fs w).
  change (w_files w0) with (<[id := file_zero]> (w_files w)).
  unfold resolution_of. rewrite Hscan.
  destruct (free_slot _ _ _) as [s |] eqn:Hfs.
  - intros (_ & _ & Hfound & _) _. rewrite Hfound.
    apply wp_bind, wp_guard; [| done]. intros _. split; [done | apply Hw1].
  - exfalso. eapply List.find_none in Hfs; [| by apply list_elem_of_In].
    cbn in Hfs. by rewrite bool_decide_true, Hpin in Hfs.
Qed.
End Deletion.

(** ** Properties *)

(** C5: deletion.  For a file whose name no other slot has and which no handle
    holds open, [fffs_delete_file] terminates and succeeds: the journal and the
    index lose exactly the file's slot; every extent that the rest of the
    namespace reaches stays, record and data, and every other name resolves as
    before; and opening the deleted name fails with NOT_FOUND. *)
Theorem delete_removes_file `{Backend} `{!NorFlash} `{!ValidBackend}
    (g : fs_geometry) `{!GeoOk g} (I : IndexCache) `{!CachedIndex I} (N : Fuel)
    (rid : Z) (name : list Z) (slot head : Z) (v : root_md) (w : world) :
  deleting g I name slot head v w ->
  name_scan (root_value g (mem w)) (delete slot (idx_map (w_fs w))) name
    (candidates name) = inr None ->
  open_ok (w_fs w) (w_files w) ->
  fffs_slot_is_pinned (w_fs w) (w_files w) slot = false ->
  exists w1 w2, fffs_delete_file name w = (Ok tt, w1) /\ file_deleted g I slot w w1 /\
    (forall other found h v', found <> slot ->
       name_scan (root_value g (mem w)) (idx_map (w_fs w)) other (candidates other) =
         inr (Some (found, h, v')) ->
       name_scan (root_value g (mem w1)) (idx_map (w_fs w1)) other (candidates other) =
         inr (Some (found, h, v'))) /\
    fffs_open rid name FFFS_O_RDONLY w1 = (Err FFFS_ERR_NOT_FOUND, w2).
Proof.
  intros Hde Honly (l & Hl & Hnd) Hpin. pose proof Hde as [].
  assert (Hu : forall a, is_u8 (mem w a)) by (intros a; by apply mem_u8).
  pose proof (name_scan_slot _ _ _ _ _ _ _ de_found0) as Hin.
  pose proof (candidate_range _ _ Hin) as Hslot.
  assert (Hwp : wp (fffs_delete_file name) (fun _ w' => file_deleted g I slot w w')
    (fun _ _ => False) w) by by eapply wp_delete.
  apply wp_returns in Hwp as ([] & w1 & Hdel & Hw1). pose proof Hw1 as [].
  assert (Hwp : wp (fffs_open rid name FFFS_O_RDONLY) (fun _ _ => False)
    (fun e w' => e = FFFS_ERR_NOT_FOUND /\ forall a, mem w' a = mem w1 a) w1).
  { apply (wp_open_missing g I rid name slot); try done.
    - rewrite fd_map0. by eapply name_scan_gc.
    - rewrite fd_map0. apply lookup_delete_eq.
    - rewrite fd_files0. apply not_true_iff_false. intros Hp.
      unfold fffs_slot_is_pinned, open_handles, open_list in Hp, Hpin.
      rewrite fd_open0 in Hp. apply (pinned_reset _ _ _ _ _ l) in Hp; [| lia | done].
      unfold open_list in Hpin. fold (open_list (w_fs w) (w_files w)) in Hpin.
      rewrite (open_list_eq _ _ l) in Hpin by done. congruence. }
  apply wp_fails in Hwp as (e & w2 & Hopen & -> & _).
  exists w1, w2. split; [done |]. split; [done |]. split; [| done].
  intros other found h v' Hne Hs. rewrite fd_map0. eapply name_scan_gc; try done.
  by apply name_scan_delete.
Qed.

(** C6: a deletion survives a power cycle.  When the journal is clean and the
    index agrees with it, [fffs_delete_file] leaves a flash that every later
    [fffs_mount] accepts, as long as discovery sees the headers of the ring in
    it, whatever [struct fffs] held before; the namespace that it mounts is the
    one without the file, and opening the deleted name fails with NOT_FOUND. *)
Theorem deletion_survives_power_cycle `{Backend} `{!NorFlash} `{!ValidBackend}
    (g : fs_geometry) `{!GeoOk g} (I : IndexCache) `{!CachedIndex I} (N : Fuel)
    (rid : Z) (name : list Z) (slot head : Z) (v : root_md) (w : world) :
  deleting g I name slot head v w ->
  name_scan (root_value g (mem w)) (delete slot (idx_map (w_fs w))) name
    (candidates name) = inr None ->
  clean_journal g I (mem w) (fs_log (w_fs w)) ->
  idx_map (w_fs w) = replay_map ∅ (journal g (mem w) (fs_log (w_fs w))) ->
  index_sequence_count (fs_log (w_fs w)) < index_sectors g ->
  exists w1, fffs_delete_file name w = (Ok tt, w1) /\
    (ring_headers g (mem w1) (fs_log (w_fs w1)) ->
     forall opts w2, mount_accepts g I opts -> flash_ok w2 ->
       (forall a, mem w2 a = mem w1 a) ->
       exists w3 w4, fffs_mount opts w2 = (Ok tt, w3) /\
         idx_map (w_fs w3) = delete slot (idx_map (w_fs w)) /\
         fffs_open rid name FFFS_O_RDONLY w3 = (Err FFFS_ERR_NOT_FOUND, w4)).
Proof.
  intros Hde Honly Hclean Hidx Hcnt. pose proof Hde as [].
  assert (Hu : forall a, is_u8 (mem w a)) by (intros a; by apply mem_u8).
  pose proof (name_scan_slot _ _ _ _ _ _ _ de_found0) as Hin.
  assert (Hwp : wp (fffs_delete_file name) (fun _ w' => file_deleted g I slot w w')
    (fun _ _ => False) w) by by eapply wp_delete.
  apply wp_returns in Hwp as ([] & w1 & Hdel & []). exists w1. split; [done |].
  intros Hrh opts w2 Hma Hok2 Hm2.
  destruct (deleted_journal g I slot w w1) as [Hcl1 Hmap1]; try done.
  { by apply (candidate_range name). }
  assert (Hwp : wp (fffs_mount opts) (fun _ w3 => flash_ok w3 /\
      (forall a, mem w3 a = mem w1 a) /\ fs_geo (w_fs w3) = g /\ idx_ok (w_fs w3) /\
      idx_map (w_fs w3) = delete slot (idx_map (w_fs w)) /\ open_files (w_fs w3) = 0)
    (fun _ _ => False) w2).
  { apply (wp_mount_same g I opts w1); try done; [by rewrite fd_next0 |].
    intros w3 Hok3 Hm3 Hgeo3 Hidx3 Hmap3 Ho3. by rewrite Hmap3, Hmap1. }
  apply wp_returns in Hwp as ([] & w3 & Hmount & Hok3 & Hm3 & Hgeo3 & Hidx3 & Hmap3 & Ho3).
  assert (Hwp : wp (fffs_open rid name FFFS_O_RDONLY) (fun _ _ => False)
    (fun e w' => e = FFFS_ERR_NOT_FOUND /\ forall a, mem w' a = mem w3 a) w3).
  { apply (wp_open_missing g I rid name slot); try done.
    - rewrite Hmap3. eapply (name_scan_gc g _ (mem w)); [| done | done].
      eapply gc_mem_trans; [exact fd_kept0 |]. apply gc_mem_ext;
        [intros a; by apply mem_u8 | done].
    - rewrite Hmap3. apply lookup_delete_eq.
    - unfold fffs_slot_is_pinned, open_handles, open_list. rewrite Ho3.
      by destruct (size (<[rid := file_zero]> (w_files w3))). }
  apply wp_fails in Hwp as (e & w4 & Hopen & -> & _). by exists w3, w4.
Qed.
