(* ===== verification/Replacement.v ===== *)
(** * Replacing a file

    The close of a writer that was opened on an existing name: the new root is
    committed first, then the records of the chain that it replaces are
    tombstoned. *)

From S2P Require Export Deletion.

(** The replaced name is found in the new root. *)
Lemma name_scan_replace root root' idx name slots slot head old v0 v :
  (forall s h u, s <> slot -> idx !! s = Some h -> root h s = inr u ->
     root' h s = inr u) ->
  name_scan root idx name slots = inr (Some (slot, old, v0)) ->
  root' head slot = inr v -> st_name (root_st v) = name ->
  name_scan root' (<[slot := head]> idx) name slots = inr (Some (slot, head, v)).
Proof.
  intros Hkeep. induction slots as [| s rest IH]; [done |].
  intros Hscan Hv Hname. cbn [name_scan] in *.
  destruct (decide (s = slot)) as [-> | Hne].
  - by rewrite lookup_insert_eq, Hv, bool_decide_true by done.
  - rewrite lookup_insert_ne by done.
    destruct (idx !! s) as [h |] eqn:Hs; [| by apply IH].
    destruct (root h s) as [e | u] eqn:Hu; [done |].
    rewrite (Hkeep s h u Hne Hs Hu). case_bool_decide; [congruence | by apply IH].
Qed.

Section Replacement.
Context `{Backend} `{!NorFlash} `{!ValidBackend} (g : fs_geometry) `{!GeoOk g}.
Context (I : IndexCache) `{!CachedIndex I} `{Fuel}.
#[local] Abbreviation base s := (s * sector_size g).
#[local] Abbreviation N := (index_sectors g).

(** ** Chains before and after the commit *)

Lemma reach_extents m m' slot t n : extents_kept g m m' -> forall current,
  reach g n m slot current t = inr true -> reach g n m' slot current t = inr true.
Proof.
  intros Hk. induction n as [| n IH]; intros current; cbn [reach];
    (destruct (current =? 0); [done |]); [done |].
  destruct (slot_md g m current slot _) as [e | r] eqn:Hr; [done |].
  destruct (Hk _ _ _ Hr) as [-> _]. cbv zeta.
  destruct (_ <? _); [done |]. destruct (_ && _); [done |]. apply IH.
Qed.

(** A complete chain that does not pass [x] does not see what happens there. *)
Lemma reach_apart m m' slot x n : (forall s, s <> x ->
    slot_md g m' s slot FFFS_MD_MATCH_LIVE = slot_md g m s slot FFFS_MD_MATCH_LIVE) ->
  forall current, reach g n m slot current x = inr false ->
  reach g n m' slot current x = inr false.
Proof.
  intros Hsame. induction n as [| n IH]; intros current; cbn [reach];
    (destruct (current =? 0); [done |]); [done |].
  destruct (Z.eq_dec current x) as [-> | Hne].
  - destruct (slot_md g m x slot _) as [e | r] eqn:Hr; [done |]. cbv zeta.
    apply (slot_md_span g) in Hr as [Hlen _]. destruct (_ <? _); [done |].
    by rewrite (proj2 (Z.leb_le _ _)), (proj2 (Z.ltb_lt _ _)) by lia.
  - rewrite Hsame by done. destruct (slot_md g m current slot _) as [e | r]; [done |].
    cbv zeta. destruct (_ <? _); [done |]. destruct (_ && _); [done |]. apply IH.
Qed.

(** Nor are the sectors of such a chain [x] or others than before. *)
Lemma chain_sectors_apart m m' slot x n : (forall s, s <> x ->
    slot_md g m' s slot FFFS_MD_MATCH_LIVE = slot_md g m s slot FFFS_MD_MATCH_LIVE) ->
  forall current, reach g n m slot current x = inr false ->
  chain_sectors g n m' slot current = chain_sectors g n m slot current /\
  x ∉ chain_sectors g n m slot current.
Proof.
  intros Hsame. induction n as [| n IH]; intros current; cbn [reach chain_sectors];
    (destruct (current =? 0); [split; [done | by apply not_elem_of_nil] |]); [done |].
  destruct (slot_md g m current slot _) as [e | r] eqn:Hr; [done |]. cbv zeta.
  destruct (_ <? _); [done |].
  destruct (Z.leb_spec current x), (Z.ltb_spec x (current + md_span_len r)); cbn [andb];
    try done; intros Hrest; apply IH in Hrest as [Heq Hnin];
    pose proof (slot_md_span g _ _ _ _ Hr) as [Hlen _]; (rewrite Hsame by lia);
    rewrite Hr, Heq; (split; [done |]); intros [Hin | Hin]%elem_of_app; try done;
    apply elem_of_seqZ in Hin; lia.
Qed.

(** A writer that replaces a file: besides what every close asks, the sectors
    are consistent, and the old chain is complete and apart from the new root. *)
Record replacing (id : Z) (l : list fffs_md_record) (w : world) : Prop := {
  rp_closing : closing g I id l w;
  rp_sane : sectors_sane g (f_head (file_of (w_files w) id)) (mem w);
  rp_once : slot_once g (mem w) (f_slot (file_of (w_files w) id));
  rp_apart : let f := file_of (w_files w) id in
    reach g (Z.to_nat (sector_count g)) (mem w) (f_slot f)
      (fst (old_chain g (idx_map (w_fs w)) (mem w) f)) (f_head f) = inr false;
  rp_old_next : let f := file_of (w_files w) id in
    forall r, slot_md g (mem w) (f_old_head f) (f_slot f) FFFS_MD_MATCH_LIVE = inr r ->
      md_next r = f_old_next f;
}.

(** The committed file and the rest of the namespace, after the old chain was
    released. *)
Record file_replaced (id : Z) (l : list fffs_md_record) (w w' : world) : Prop := {
  fr_ok : flash_ok w';
  fr_geo : fs_geo (w_fs w') = g;
  fr_root : in_flash g (mem w) (mem w') (file_of (w_files w) id);
  fr_released : let f := file_of (w_files w) id in
    let n := Z.to_nat (sector_count g) in
    let head := fst (old_chain g (idx_map (w_fs w)) (mem w) f) in
    chain_whole g n (mem w) (f_slot f) head ->
    Forall (fun t => no_live g (mem w') t (f_slot f))
      (chain_sectors g n (mem w) (f_slot f) head);
  fr_others : forall slot sector r, slot <> f_slot (file_of (w_files w) id) ->
    protected g (idx_map (w_fs w)) (mem w) slot sector ->
    slot_md g (mem w) sector slot FFFS_MD_MATCH_LIVE = inr r ->
    slot_md g (mem w') sector slot FFFS_MD_MATCH_LIVE = inr r /\
    forall a, base sector + md_data_off r <= a < base sector + data_end r ->
      mem w' a = mem w a;
  fr_log : log_ok g (mem w') (fs_log (w_fs w'));
  fr_next : fs_log (w_fs w') = set_next_index_offset
    (next_index_offset (fs_log (w_fs w)) + 4) (fs_log (w_fs w));
  fr_journal : journal g (mem w') (fs_log (w_fs w')) =
    journal g (mem w) (fs_log (w_fs w)) ++
      [(f_slot (file_of (w_files w) id), f_head (file_of (w_files w) id))];
  fr_idx : idx_ok (w_fs w');
  fr_map : idx_map (w_fs w') =
    <[f_slot (file_of (w_files w) id) := f_head (file_of (w_files w) id)]>
      (idx_map (w_fs w));
  fr_handle : handle_closed id w w';
}.

(** ** The committed state *)

Section Committed.
Context (id : Z) (l : list fffs_md_record) (w w1 : world).
Hypothesis (Hcl : closing g I id l w) (Hw1 : file_committed g I id l w w1).
Let f := file_of (w_files w) id.

Lemma committed_other s a : N <= s -> s <> f_head f ->
  base s <= a < base s + sector_size g -> mem w1 a = mem w a.
Proof.
  intros Hs Hne Ha. pose proof (sector_size_range (g := g)).
  pose proof (cl_above _ _ _ _ _ Hcl) as Hab. fold f in Hab.
  pose proof (claimed_after_ge 0 l) as Hge.
  assert (Hb : base N <= base s) by (apply Z.mul_le_mono_nonneg_r; lia).
  pose proof (fc_frame _ _ _ _ _ _ Hw1) as Hfr. cbv zeta in Hfr. fold f in Hfr.
  apply Hfr; [lia |].
  assert (s + 1 <= f_head f \/ f_head f + 1 <= s) as [Hlt | Hlt] by lia;
    apply (Z.mul_le_mono_nonneg_r _ _ (sector_size g)) in Hlt; lia.
Qed.

Lemma committed_md s slot k : s <> f_head f ->
  slot_md g (mem w1) s slot k = slot_md g (mem w) s slot k.
Proof.
  intros Hne. unfold slot_md. destruct (valid_data_sector g s) eqn:Hv; [| done].
  fold (slot_md g (mem w1) s slot k). unfold valid_data_sector in Hv.
  apply andb_true_iff in Hv as [Hlo _]. apply Z.leb_le in Hlo.
  unfold lookup_md. rewrite (footer_at_in g (mem w1) (mem w)),
    (sector_records_in g (mem w1) (mem w)) by (intros; by apply (committed_other s)).
  done.
Qed.

Lemma committed_sane : sectors_sane g (f_head f) (mem w) ->
  sectors_sane g (f_head f) (mem w1).
Proof.
  intros Hs s Hr Hne. apply (sector_sane_in g (mem w)); [| by apply Hs].
  intros a Ha. symmetry. apply (committed_other s); [lia | done | done].
Qed.

Lemma committed_once : slot_once g (mem w) (f_slot f) -> slot_once g (mem w1) (f_slot f).
Proof.
  intros Hs s x y Hr. destruct (Z.eq_dec s (f_head f)) as [-> | Hne].
  - destruct (fc_records _ _ _ _ _ _ Hw1) as [e He]. fold f in He. rewrite He.
    cbn [fst]. intros _ Hx Hy Hxl Hyl Hxs Hys.
    assert (Hnew : forall z, z ∈ l ++ [closed_root f] -> md_live z = true ->
      md_slot z = f_slot f -> z = closed_root f).
    { intros z Hz Hzl Hzs. apply elem_of_app in Hz as [Hz | Hz];
        [| by apply list_elem_of_singleton in Hz].
      pose proof (cl_dead _ _ _ _ _ Hcl) as Hdead. rewrite Forall_forall in Hdead.
      destruct (Hdead z Hz Hzs) as [Hd _]. congruence. }
    by rewrite (Hnew x), (Hnew y).
  - rewrite (footer_at_in g (mem w1) (mem w)), (sector_records_in g (mem w1) (mem w))
      by (intros; apply (committed_other s); [lia | done | done]).
    by apply Hs.
Qed.

(** The new root has one sector. *)
Lemma committed_protects t :
  protected g (idx_map (w_fs w1)) (mem w1) (f_slot f) t <-> t = f_head f.
Proof.
  pose proof (closed_slot_md g I _ _ _ _ Hcl Hw1) as Hmd. cbv zeta in Hmd. fold f in Hmd.
  pose proof (slot_md_fits g _ _ _ _ _ Hmd) as [Hs _]. pose proof (geo_index (g := g)).
  unfold protected. rewrite (fc_map _ _ _ _ _ _ Hw1). fold f. rewrite lookup_insert_eq.
  destruct (Z.to_nat (sector_count g)) as [| n] eqn:Hn; [lia |]. split.
  - intros (h & [= <-] & Hr). rewrite (reach_cover g _ _ _ _ _ (closed_root f)) in Hr;
      [| lia | done].
    change (md_span_len (closed_root f)) with 1 in Hr.
    change (md_next (closed_root f)) with 0 in Hr.
    destruct (Z.leb_spec (f_head f) t), (Z.ltb_spec t (f_head f + 1)); cbn [andb] in Hr;
      try lia; destruct n; by cbn in Hr.
  - intros ->. exists (f_head f). split; [done |].
    apply (reach_self g _ _ _ _ (closed_root f)); [lia | done].
Qed.
End Committed.

(** ** The close *)

(** What the release of the chain from [head] does to the device: [m] is the flash
    before the close. *)
Definition chain_released (idx : gmap Z Z) (m : Z -> Z) (slot head : Z)
    (c c' : be_ctx) : Prop :=
  let n := Z.to_nat (sector_count g) in
  nor_ok c' /\ gc_mem g idx (nor_mem c) (nor_mem c') /\
  (forall a, a < N * sector_size g -> nor_mem c' a = nor_mem c a) /\
  (chain_whole g n m slot head ->
   Forall (fun t => no_live g (nor_mem c') t slot) (chain_sectors g n m slot head)).

(** The second link of the old chain is the one in the flash. *)
Lemma old_link id l w w1 :
  replacing id l w -> file_committed g I id l w w1 ->
  let f := file_of (w_files w) id in
  let old := old_chain g (idx_map (w_fs w)) (mem w) f in
  (forall s, s <> f_head f ->
     slot_md g (mem w1) s (f_slot f) FFFS_MD_MATCH_LIVE =
     slot_md g (mem w) s (f_slot f) FFFS_MD_MATCH_LIVE) ->
  reach g (Z.to_nat (sector_count g)) (mem w1) (f_slot f) (fst old) (f_head f) =
    inr false ->
  forall x r, Some (snd old) = Some x ->
    slot_md g (mem w1) (fst old) (f_slot f) FFFS_MD_MATCH_LIVE = inr r -> md_next r = x.
Proof.
  intros [] Hw1 f old Hsame Hapart x r [= <-] Hr. cbv zeta in rp_old_next0.
  fold f in rp_old_next0. pose proof (geo_index (g := g)).
  assert (Hne : fst old <> f_head f).
  { intros He. pose proof (slot_md_fits g _ _ _ _ _ Hr) as [Hs _].
    destruct (Z.to_nat (sector_count g)) as [| n] eqn:Hn; [lia |].
    rewrite <- He, (reach_self g n _ _ _ r) in Hapart; [done | lia | done]. }
  rewrite Hsame in Hr by done. unfold old, old_chain in Hr |- *.
  destruct (Z.eqb_spec (f_old_head f) (f_head f)); [| by apply rp_old_next0].
  destruct (_ !! _) as [h |]; cbn [fst snd] in *; [by rewrite Hr |].
  apply slot_md_fits in Hr as [Hs _]. lia.
Qed.

Lemma wp_retire id l w w1 :
  replacing id l w -> file_committed g I id l w w1 -> fs_geo (w_fs w1) = g ->
  let f := file_of (w_files w) id in
  let old := old_chain g (idx_map (w_fs w)) (mem w) f in
  wp (retire_old (f_slot f) (fst old) (snd old))
    (fun _ w2 =>
       retired (chain_released (idx_map (w_fs w1)) (mem w) (f_slot f) (fst old)) w1 w2 /\
       open_files (w_fs w2) = open_files (w_fs w1) /\ w_files w2 = w_files w1)
    (fun _ _ => False) w1.
Proof.
  intros Hrp Hw1 Hgeo f old. pose proof Hrp as Hrp'. destruct Hrp'. cbv zeta in *.
  fold f in rp_sane0, rp_once0, rp_apart0.
  fold old in rp_apart0. set (n := Z.to_nat (sector_count g)) in *.
  assert (Hsane1 : sectors_sane g (f_head f) (mem w1)) by by eapply committed_sane.
  assert (Honce1 : slot_once g (mem w1) (f_slot f)) by by eapply committed_once.
  assert (Hsame : forall s, s <> f_head f ->
    slot_md g (mem w1) s (f_slot f) FFFS_MD_MATCH_LIVE =
    slot_md g (mem w) s (f_slot f) FFFS_MD_MATCH_LIVE)
    by (intros s Hne; by eapply committed_md).
  destruct (chain_sectors_apart _ _ _ _ _ Hsame _ rp_apart0) as [Hts Hnin].
  apply (reach_apart _ _ _ _ _ Hsame) in rp_apart0.
  pose proof (old_link id l w w1 Hrp Hw1 Hsame rp_apart0) as Hlink.
  unfold retire_old. apply wp_when; intros Hz.
  - apply (wp_invalidate g (f_head f) (idx_map (w_fs w1))); [done | apply Hw1 | done | |].
    + apply (spare_chain g); [done | | done]. intros t Ht.
      assert (Hne : t <> f_head f) by (intros ->; fold n in Ht; congruence).
      split; [done |]. intros Hp. by apply (committed_protects id l w w1) in Hp.
    + intros w2 [] Hgone. split; [split; try done | done]. repeat (split; [done |]).
      fold n in Hgone |- *. intros [Hnd Hall]. rewrite <- Hts in Hnd |- *.
      apply Hgone; [done | | done].
      split; [done |]. rewrite <- Hts, Forall_forall in Hall. apply Forall_forall.
      intros t Ht. destruct (Hall t Ht) as [r Hr]. exists r. rewrite Hsame; [done |].
      intros ->. by rewrite Hts in Ht.
  - destruct (dropping_refl g (f_head f) (idx_map (w_fs w1)) w1); [apply Hw1 | done |].
    split; [split; try done | done]. repeat (split; [done |]). intros _.
    apply negb_false_iff, Z.eqb_eq in Hz. rewrite Hz.
    fold n. by destruct n.
Qed.

Lemma wp_replace id l w (Q : unit -> world -> Prop) E :
  replacing id l w -> open_writer_handle id w ->
  (forall w', file_replaced id l w w' -> Q tt w') ->
  wp (fffs_close id) Q E w.
Proof.
  intros Hrp Hopen HQ. pose proof (rp_closing _ _ _ Hrp) as Hcl.
  set (f := file_of (w_files w) id) in *.
  set (idx := <[f_slot f := f_head f]> (idx_map (w_fs w))).
  set (old := fst (old_chain g (idx_map (w_fs w)) (mem w) f)).
  apply (wp_close g I (chain_released idx (mem w) (f_slot f) old) id l); try done.
  { intros w1 Hw1 Hg1. pose proof (wp_retire id l w w1 Hrp Hw1 Hg1) as Hwp.
    by rewrite (fc_map _ _ _ _ _ _ Hw1) in Hwp. }
  intros w1 w' Hw1 Hg1 [(Hok & Hgc & Hix & Hgone) Hgeo Hlog Hcache Hheads] Hh. apply HQ.
  change (nor_mem (w_ctx w1)) with (mem w1) in *.
  change (nor_mem (w_ctx w')) with (mem w') in *.
  pose proof (fc_map _ _ _ _ _ _ Hw1) as Hmap1. fold f in Hmap1. fold idx in Hmap1.
  destruct (idx_ok_ext (w_fs w1) (w_fs w')) as [Hidx' Hmap']; [apply Hw1 | done.. |].
  destruct (log_ok_data g (mem w1) (mem w') _ (fc_log _ _ _ _ _ _ Hw1) Hix) as [Hl' Hj'].
  pose proof (close_keeps_extents g I id l w w1 Hcl Hw1) as Hext.
  split; rewrite ?Hlog, ?Hmap'; try done; try apply Hw1.
  - by rewrite Hgeo.
  - pose proof (closed_slot_md g I _ _ _ _ Hcl Hw1) as Hmd. cbv zeta in Hmd. fold f in Hmd.
    destruct (gm_keep _ _ _ _ Hgc (f_slot f) (f_head f) (closed_root f)) as [Hmd' Hd'];
      [| done |].
    { rewrite <- Hmap1. by apply (committed_protects id l w w1). }
    split; [done |]. pose proof (fc_data _ _ _ _ _ _ Hw1) as Hd. cbv zeta in Hd.
    fold f in Hd |- *. rewrite <- Hd. apply mem_bytes_ext. intros a Ha. apply Hd'.
    pose proof (cl_current _ _ _ _ _ Hcl) as Hcur. fold f in Hcur.
    unfold extent_base in Ha. rewrite Hcur in Ha.
    unfold data_end. cbn [closed_root extent_record md_data_off md_data_len]. lia.
  - intros slot sector r Hne (h & Hh1 & Hr1) Hr. destruct (Hext _ _ _ Hr) as [Hr2 Hd2].
    destruct (gm_keep _ _ _ _ Hgc slot sector r) as [Hr3 Hd3]; [| done |].
    { exists h. split; [by unfold idx; rewrite lookup_insert_ne by done |].
      by apply (reach_extents (mem w)). }
    split; [done |]. intros a Ha. rewrite Hd3 by done. auto.
  - rewrite Hj'. apply Hw1.
Qed.

(** ** Reading the new file *)

Lemma replaced_scan id l name old v0 w w' w2 :
  replacing id l w -> file_replaced id l w w' ->
  let f := file_of (w_files w) id in
  name_scan (root_value g (mem w)) (idx_map (w_fs w)) name (candidates name) =
    inr (Some (f_slot f, old, v0)) ->
  (forall a, mem w2 a = mem w' a) -> idx_map (w_fs w2) = idx_map (w_fs w') ->
  forall v, root_value g (mem w2) (f_head f) (f_slot f) = inr v ->
    st_name (root_st v) = name ->
    name_scan (root_value g (mem w2)) (idx_map (w_fs w2)) name (candidates name) =
      inr (Some (f_slot f, f_head f, v)).
Proof.
  intros [Hcl _ _ _ _] Hw' f Hscan Hm2 Hmap2 v Hv Hvn. rewrite Hmap2, (fr_map _ _ _ _ Hw').
  eapply (name_scan_replace (root_value g (mem w))); try done.
  intros s h u Hne Hs Hu. rewrite (root_value_ext g (mem w2) (mem w')) by done.
  eapply (root_value_same g (mem w)); [| intros a; by apply mem_u8, Hcl | done].
  intros r Hr. apply (fr_others _ _ _ _ Hw'); [done | | done]. exists h. split; [done |].
  pose proof (slot_md_fits g _ _ _ _ _ Hr) as [Hsec _]. pose proof (geo_index (g := g)).
  destruct (Z.to_nat (sector_count g)) as [| n] eqn:Hn; [lia |].
  eapply (reach_self g); [lia | exact Hr].
Qed.

(** The journal after a replacement. *)
Lemma replaced_journal id l w w1 :
  replacing id l w -> file_replaced id l w w1 ->
  clean_journal g I (mem w) (fs_log (w_fs w)) ->
  idx_map (w_fs w) = replay_map ∅ (journal g (mem w) (fs_log (w_fs w))) ->
  is_Some (idx_map (w_fs w) !! f_slot (file_of (w_files w) id)) ->
  (size (idx_map (w_fs w)) < idx_capacity g)%nat ->
  clean_journal g I (mem w1) (fs_log (w_fs w1)) /\
  idx_map (w_fs w1) = replay_map ∅ (journal g (mem w1) (fs_log (w_fs w1))).
Proof.
  intros [Hcl _ _ _ _] [] Hclean Hidx [h Hh] Hcap. set (f := file_of (w_files w) id) in *.
  pose proof (fp_sector _ _ _ _ _ _ (cl_place _ _ _ _ _ Hcl)) as Hs.
  pose proof (cl_slot _ _ _ _ _ Hcl) as Hslot. fold f in Hs, Hslot.
  pose proof (geo_index (g := g)).
  assert (Hmap : replay_map ∅ (journal g (mem w) (fs_log (w_fs w)) ++
    [(f_slot f, f_head f)]) = <[f_slot f := f_head f]> (idx_map (w_fs w))).
  { rewrite replay_map_app, <- Hidx. cbn [replay_map foldl apply_record].
    by rewrite (proj2 (Z.eqb_neq (f_slot f) 0)), (proj2 (Z.eqb_neq (f_head f) 0)) by lia. }
  split; [| by rewrite fr_journal0, fr_map0]. rewrite fr_next0 in *.
  eapply (clean_snoc g I); try done; [by right | |].
  - rewrite Hmap, map_size_insert, Hh. done.
  - intros _. exists (closed_root f). split; [apply fr_root0 | done].
Qed.
End Replacement.

(** ** Properties *)

(** A writer that is about to close [name] with the contents [data], in place
    of the file that has the name. *)
Record ready_to_replace `{Backend} `{!NorFlash} (g : fs_geometry)
    (I : IndexCache) `{!CachedIndex I} (id : Z) (l : list fffs_md_record)
    (name data : list Z) (old : Z) (v0 : root_md) (w : world) : Prop := {
  rr_replacing : replacing g I id l w;
  rr_wrote : wrote g id name data w;
  rr_handle : open_writer_handle id w;
  rr_found :
    name_scan (root_value g (mem w)) (idx_map (w_fs w)) name (candidates name) =
      inr (Some (f_slot (file_of (w_files w) id), old, v0));
}.

(** C4: replacing a file.  The close of a writer on an existing name, whose old
    chain of extents is complete, terminates and succeeds: the new root and its
    data are in the flash, the journal and the index have the name's slot at the
    new sector, the handle is closed, and the extents of every other file stay,
    record and data.  The old chain is released: it is the one that the writer
    remembered, or, when the collector has moved its root in between, the one
    looked up in the index; if each of its sectors had its record, then none has
    a live record of the slot any more.  Opening the name and reading then returns
    exactly the bytes that were written. *)
Theorem close_replaces_file `{Backend} `{!NorFlash} `{!ValidBackend}
    (g : fs_geometry) `{!GeoOk g} (I : IndexCache) `{!CachedIndex I} (N : Fuel)
    (id rid : Z) (l : list fffs_md_record) (name data : list Z) (old : Z)
    (v0 : root_md) (w : world) :
  ready_to_replace g I id l name data old v0 w -> sector_size g <= 2 ^ 16 ->
  zlen data <= Z.of_nat N ->
  exists w1 w2 w3, fffs_close id w = (Ok tt, w1) /\ file_replaced g I id l w w1 /\
    fffs_open rid name FFFS_O_RDONLY w1 = (Ok tt, w2) /\
    fffs_read rid (zlen data) w2 = (Ok data, w3).
Proof.
  intros [Hrp Hwt Hh Hfound] Hss Hfuel.
  assert (Hwp : wp (fffs_close id) (fun _ w' => file_replaced g I id l w w')
    (fun _ _ => False) w) by by apply (wp_replace g I id l).
  apply wp_returns in Hwp as ([] & w1 & Hclose & Hw1).
  assert (Hwp : wp (read_named I rid name (zlen data)) (fun bytes _ => bytes = data)
    (fun _ _ => False) w1).
  { eapply (wp_read_written g I id rid l name data w w1); try done; try apply Hw1;
      [apply Hrp |]. by eapply replaced_scan. }
  apply wp_returns in Hwp as (bytes & w3 & Hrun & ->).
  apply bind_ok in Hrun as ([] & w2 & Hopen & Hread). by exists w1, w2, w3.
Qed.

(** C3: a replacement survives a power cycle.  When the journal is clean and the
    index agrees with it, the close of a writer on an existing name leaves a
    flash that every later [fffs_mount] accepts, as long as discovery sees the
    headers of the ring in it, whatever [struct fffs] held before; and in the
    mounted file system opening the name and reading returns exactly the new
    contents. *)
Theorem replacement_survives_power_cycle `{Backend} `{!NorFlash} `{!ValidBackend}
    (g : fs_geometry) `{!GeoOk g} (I : IndexCache) `{!CachedIndex I} (N : Fuel)
    (id rid : Z) (l : list fffs_md_record) (name data : list Z) (old : Z)
    (v0 : root_md) (w : world) :
  ready_to_replace g I id l name data old v0 w -> sector_size g <= 2 ^ 16 ->
  zlen data <= Z.of_nat N ->
  clean_journal g I (mem w) (fs_log (w_fs w)) ->
  idx_map (w_fs w) = replay_map ∅ (journal g (mem w) (fs_log (w_fs w))) ->
  (size (idx_map (w_fs w)) < idx_capacity g)%nat ->
  index_sequence_count (fs_log (w_fs w)) < index_sectors g ->
  exists w1, fffs_close id w = (Ok tt, w1) /\
    (ring_headers g (mem w1) (fs_log (w_fs w1)) ->
     forall opts w2, mount_accepts g I opts -> flash_ok w2 ->
       (forall a, mem w2 a = mem w1 a) ->
       exists w3 w4 w5, fffs_mount opts w2 = (Ok tt, w3) /\
         fffs_open rid name FFFS_O_RDONLY w3 = (Ok tt, w4) /\
         fffs_read rid (zlen data) w4 = (Ok data, w5)).
Proof.
  intros [Hrp Hwt Hh Hfound] Hss Hfuel Hclean Hidx Hcap Hcnt.
  assert (Hwp : wp (fffs_close id) (fun _ w' => file_replaced g I id l w w')
    (fun _ _ => False) w) by by apply (wp_replace g I id l).
  apply wp_returns in Hwp as ([] & w1 & Hclose & Hw1). exists w1. split; [done |].
  intros Hrh opts w2 Hma Hok2 Hm2.
  destruct (replaced_journal g I id l w w1) as [Hcl1 Hmap1]; try done.
  { exists old. by apply name_scan_inv in Hfound as (_ & ? & _). }
  assert (Hwp : wp (fffs_mount opts ;; read_named I rid name (zlen data))
    (fun bytes _ => bytes = data) (fun _ _ => False) w2).
  { apply wp_bind, (wp_mount_same g I opts w1); try done.
    - by rewrite (fr_next _ _ _ _ _ _ Hw1).
    - intros w3 Hok3 Hm3 Hgeo3 Hidx3 Hmap3 _.
      eapply (wp_read_written g I id rid l name data w w3); try done; [apply Hrp | |].
      + eapply in_flash_ext; [exact Hm3 | apply Hw1].
      + eapply replaced_scan; try done. by rewrite Hmap3. }
  apply wp_returns in Hwp as (bytes & w5 & Hrun & ->).
  apply bind_ok in Hrun as ([] & w3 & Hmount & Hrest).
  apply bind_ok in Hrest as ([] & w4 & Hopen & Hread). by exists w3, w4, w5.
Qed.
