(* ===== verification/RoundRuns.v ===== *)
(** * A file written, closed, mounted and read

    The round-trip theorems of [RoundTrip] applied to a concrete session: a
    device is formatted and mounted, a file "x" is written and closed, and a
    file "ab", which shares the sector of the first, is written up to its close. *)

From S2P Require Import RoundTrip Deletion HashIndex.

Definition rt_options : fffs_mount_options :=
  mk_mount_options true 64 16 (Some (fill 64 0)) 64 false (Some [0]) 1.

Definition rt_data : list Z := fill 100 7 ++ [1; 2; 3].

Definition rt_create : Z := Z.lor FFFS_O_WRONLY FFFS_O_CREATE.

Definition rt_script : @M Demo.backend unit :=
  (@fffs_format Demo.backend (mk_format_options 2 256) ;;
   @fffs_mount Demo.backend hash_index rt_options ;;
   @fffs_open Demo.backend hash_index 1000%nat 1 [120] rt_create ;;
   @fffs_write Demo.backend hash_index 1000%nat 1 (fill 20 5) ;;
   @fffs_close Demo.backend hash_index 1 ;;
   @fffs_open Demo.backend hash_index 1000%nat 2 [97; 98] rt_create ;;
   @fffs_write Demo.backend hash_index 1000%nat 2 rt_data).

(** The state before "ab" is closed, and after. *)
Definition rt_world : @world Demo.backend := snd (rt_script (Demo.start dev_blank)).

Definition rt_closed : @world Demo.backend :=
  snd (@fffs_close Demo.backend hash_index 2 rt_world).

#[local] Abbreviation rt_mem := (@mem Demo.backend (dev_nor 2048 4) rt_world).
#[local] Abbreviation rt_handle := (file_of (w_files rt_world) 2).

(** The record of "x". *)
Definition rt_first : fffs_md_record :=
  mk_md_record FFFS_MD_TYPE_FILE_ROOT_V1 FFFS_LIFECYCLE_VALID true 44427 0 1 0 23 20
    230 16.

Lemma dev_flash_ok (w : @world Demo.backend) :
  dv_fault (w_ctx w) = None ->
  bool_decide (map_Forall (fun _ v => is_u8 v) (dv_mem (w_ctx w))) = true ->
  @flash_ok Demo.backend (dev_nor 2048 4) w.
Proof.
  intros Hb Hall. apply bool_decide_eq_true in Hall. split; [exact Hb |].
  intros a. unfold dev_byte. destruct (_ !! _) as [v |] eqn:Hv; simpl.
  - by apply (Hall _ _ Hv).
  - unfold is_u8. lia.
Qed.

Lemma rt_flash_ok : @flash_ok Demo.backend (dev_nor 2048 4) rt_world.
Proof. apply dev_flash_ok; vm_compute; reflexivity. Qed.

(** A table with one entry, in its home bucket. *)
Lemma single_table_wf slot head :
  0 < slot ->
  table_wf 16 (<[Z.to_nat (slot mod 16) := mk_bucket slot head]>
    (replicate 16 (mk_bucket 0 0))).
Proof.
  intros Hs. pose proof (Z.mod_pos_bound slot 16 ltac:(lia)) as Hm.
  set (table := <[_ := _]> _).
  assert (Hat : forall i, 0 <= i < 16 -> slot_at table i <> 0 -> i = slot mod 16).
  { intros i Hi Hne. destruct (Z.eq_dec i (slot mod 16)) as [| Hd]; [done |].
    exfalso. apply Hne. unfold slot_at, bucket_at, table.
    rewrite nth_lookup, list_lookup_insert_ne, lookup_replicate_2 by lia. done. }
  split.
  - unfold table, zlen. by rewrite length_insert.
  - intros i j Hi Hj Hne Heq. rewrite (Hat i Hi Hne).
    symmetry. apply Hat; [done | congruence].
  - intros i p Hi Hp Hne Hd. rewrite (Hat i Hi Hne) in *.
    unfold slot_at, bucket_at, table, in_table, dist in *.
    rewrite nth_lookup, list_lookup_insert_eq in Hd by (rewrite length_replicate; lia).
    simpl in Hd. rewrite Z.leb_refl in Hd.
    destruct (Z.leb_spec (slot mod 16) p); lia.
Qed.

Lemma rt_index_ok : @idx_ok Demo.backend hash_index hash_cached (w_fs rt_world).
Proof.
  split; [by exists 4 |].
  assert (Ht : index_cache (w_fs rt_world) =
    <[Z.to_nat (44427 mod 16) := mk_bucket 44427 7]> (replicate 16 (mk_bucket 0 0)))
    by (vm_compute; reflexivity).
  rewrite Ht. by apply single_table_wf.
Qed.

Lemma rt_writer : @writer Demo.backend Demo.geo rt_mem rt_handle.
Proof.
  split; try (vm_compute; try split; done).
  - apply (bool_decide_unpack _). vm_compute. exact I.
  - right. vm_compute. discriminate.
  - apply (mem_bytes_erased rt_mem). vm_compute. reflexivity.
Qed.

Lemma rt_place : free_place Demo.geo rt_mem 7 [rt_first] 214 false.
Proof.
  split; [vm_compute; by split |].
  split; [vm_compute; reflexivity |]. split; [vm_compute; reflexivity |].
  split; [vm_compute; reflexivity |]. split; [done |].
  apply mem_bytes_erased. vm_compute. reflexivity.
Qed.

Lemma rt_log_ok : log_ok Demo.geo rt_mem (fs_log (w_fs rt_world)).
Proof.
  split; try (vm_compute; try split; done).
  apply mem_bytes_erased. vm_compute. reflexivity.
Qed.

Lemma rt_closing : @closing Demo.backend (dev_nor 2048 4) Demo.geo hash_index
  hash_cached 2 [rt_first] rt_world.
Proof.
  split.
  - vm_compute. reflexivity.
  - exact rt_flash_ok.
  - vm_compute. reflexivity.
  - vm_compute. by split.
  - exact rt_writer.
  - vm_compute. reflexivity.
  - vm_compute. reflexivity.
  - vm_compute. discriminate.
  - vm_compute. by split.
  - vm_compute. by split.
  - exact rt_place.
  - vm_compute. discriminate.
  - apply Forall_singleton. vm_compute. discriminate.
  - exact rt_index_ok.
  - exact rt_log_ok.
  - vm_compute. reflexivity.
  - left. vm_compute. lia.
Qed.

Lemma rt_open_ok : open_ok (w_fs rt_world) (w_files rt_world).
Proof.
  exists [2]. split; [| apply NoDup_singleton].
  split; [vm_compute; reflexivity |]. split; [done |].
  eexists. split; [vm_compute; reflexivity |]. reflexivity.
Qed.

Lemma rt_handle_open : open_writer_handle 2 rt_world.
Proof. split; [exact rt_open_ok | vm_compute; reflexivity..]. Qed.

Lemma rt_ready : @ready_to_close Demo.backend (dev_nor 2048 4) Demo.geo hash_index
  hash_cached 2 [rt_first] [97; 98] rt_data rt_world.
Proof.
  split.
  - exact rt_closing.
  - split; vm_compute; done.
  - vm_compute. reflexivity.
  - exact rt_handle_open.
  - apply (bool_decide_unpack _). vm_compute. exact I.
  - vm_compute. reflexivity.
  - vm_compute. reflexivity.
Qed.

(** ** Witnesses *)

Lemma close_commits_file_witness :
  exists w' e, @fffs_close Demo.backend hash_index 2 rt_world = (Ok tt, w') /\
    sector_records Demo.geo (@mem Demo.backend (dev_nor 2048 4) w') 7 =
      ([rt_first; mk_md_record FFFS_MD_TYPE_FILE_ROOT_V1 FFFS_LIFECYCLE_VALID true 18671 0
          1 23 107 103 214 16], e).
Proof.
  destruct (@close_commits_file Demo.backend (dev_nor 2048 4) Demo.valid Demo.geo
    Demo.geo_valid hash_index hash_cached 2 [rt_first] [97; 98] rt_data rt_world rt_ready)
    as (w' & Hrun & [[_ _ [e He] _ _ _ _ _ _ _] _ _ _]).
  exists w', e. split; [exact Hrun |].
  assert (Hc : closed_root rt_handle = mk_md_record FFFS_MD_TYPE_FILE_ROOT_V1
    FFFS_LIFECYCLE_VALID true 18671 0 1 23 107 103 214 16) by (vm_compute; reflexivity).
  rewrite <- Hc. exact He.
Defined.

(** The first file, read while the second is being written. *)
Lemma rt_first_scan : exists v,
  name_scan (root_value Demo.geo rt_mem)
    (@idx_map Demo.backend hash_index hash_cached (w_fs rt_world)) [120]
    (candidates [120]) = inr (Some (44427, 7, v)).
Proof. eexists. vm_compute. reflexivity. Qed.

Lemma rt_first_md :
  slot_md Demo.geo rt_mem 7 44427 FFFS_MD_MATCH_LIVE = inr rt_first.
Proof. vm_compute. reflexivity. Qed.

Lemma rt_first_content :
  root_payload Demo.geo rt_mem 7 rt_first ++ chain_bytes Demo.geo rt_mem [] = fill 20 5.
Proof. vm_compute. reflexivity. Qed.

Lemma open_reads_file_witness :
  exists w1 w2,
    @fffs_open Demo.backend hash_index 1000%nat 5 [120] FFFS_O_RDONLY rt_world = (Ok tt, w1) /\
    @fffs_read Demo.backend 1000%nat 5 50 w1 = (Ok (fill 20 5), w2).
Proof.
  destruct rt_first_scan as [v Hv].
  pose proof (@open_reads_file Demo.backend (dev_nor 2048 4) Demo.valid Demo.geo
    Demo.geo_valid hash_index hash_cached 1000%nat 5 [120] 50 44427 7 v rt_first []
    rt_world) as Hreads.
  cbv zeta in Hreads. rewrite rt_first_content in Hreads.
  destruct Hreads as (w1 & w2 & Hopen & Hread & _).
  - vm_compute. reflexivity.
  - exact rt_flash_ok.
  - exact rt_index_ok.
  - vm_compute. discriminate.
  - by split.
  - exact Hv.
  - exact rt_first_md.
  - constructor.
  - reflexivity.
  - by split.
  - done.
  - vm_compute. discriminate.
  - exists w1, w2. split; [exact Hopen | exact Hread].
Defined.

Lemma written_file_reads_back_witness :
  exists w1 w2 w3,
    @fffs_close Demo.backend hash_index 2 rt_world = (Ok tt, w1) /\
    @fffs_open Demo.backend hash_index 1000%nat 5 [97; 98] FFFS_O_RDONLY w1 = (Ok tt, w2) /\
    @fffs_read Demo.backend 1000%nat 5 103 w2 = (Ok rt_data, w3).
Proof.
  apply (@written_file_reads_back Demo.backend (dev_nor 2048 4) Demo.valid Demo.geo
    Demo.geo_valid hash_index hash_cached 1000%nat 2 5 [rt_first] [97; 98] rt_data
    rt_world rt_ready).
  - vm_compute. discriminate.
  - vm_compute. discriminate.
Defined.

(** ** The power cycle *)

Lemma rt_clean : @clean_journal Demo.backend Demo.geo hash_index hash_cached rt_mem
  (fs_log (w_fs rt_world)).
Proof.
  assert (Hj : journal Demo.geo rt_mem (fs_log (w_fs rt_world)) = [(44427, 7)])
    by (vm_compute; reflexivity).
  split.
  - split; vm_compute; try split; done.
  - rewrite Hj. apply Forall_singleton. right. vm_compute.
    split; [by split |]. right. by split.
  - rewrite Hj. intros l1 l2 Hl. apply (f_equal length) in Hl.
    rewrite length_app in Hl. simpl in Hl.
    pose proof (size_replay_map ∅ l1) as Hsz. rewrite map_size_empty in Hsz.
    assert (Hcap : @idx_capacity Demo.backend hash_index hash_cached Demo.geo = 16%nat)
      by (vm_compute; reflexivity).
    lia.
  - intros slot head Hl Hh. vm_compute in Hl. injection Hl as <- <-.
    exists rt_first. split; vm_compute; reflexivity.
Qed.

Lemma rt_closed_headers : @ring_headers Demo.backend Demo.geo
  (@mem Demo.backend (dev_nor 2048 4) rt_closed) (fs_log (w_fs rt_closed)).
Proof. demo_ring_headers. Qed.

Lemma rt_closed_ok : @flash_ok Demo.backend (dev_nor 2048 4) rt_closed.
Proof. apply dev_flash_ok; vm_compute; reflexivity. Qed.

Lemma rt_accepts : @mount_accepts Demo.backend Demo.geo hash_index rt_options.
Proof.
  split; try reflexivity.
  - intros _. split; [reflexivity |]. vm_compute. discriminate.
  - eexists. reflexivity.
  - exists [0]. split; [reflexivity |]. split; [reflexivity |]. vm_compute. discriminate.
Qed.

(** The device of [w] after the power was cut. *)
Definition power_off (w : @world Demo.backend) : @world Demo.backend :=
  mk_world (w_ctx w) fffs_zero ∅.

Lemma power_off_ok (w : @world Demo.backend) :
  @flash_ok Demo.backend (dev_nor 2048 4) w ->
  @flash_ok Demo.backend (dev_nor 2048 4) (power_off w).
Proof. done. Qed.

Lemma power_off_mem (w : @world Demo.backend) a :
  @mem Demo.backend (dev_nor 2048 4) (power_off w) a =
  @mem Demo.backend (dev_nor 2048 4) w a.
Proof. done. Qed.

Lemma file_survives_power_cycle_witness :
  exists w1 w3 w4 w5,
    @fffs_close Demo.backend hash_index 2 rt_world = (Ok tt, w1) /\
    @fffs_mount Demo.backend hash_index rt_options (power_off w1) =
      (Ok tt, w3) /\
    @fffs_open Demo.backend hash_index 1000%nat 5 [97; 98] FFFS_O_RDONLY w3 = (Ok tt, w4) /\
    @fffs_read Demo.backend 1000%nat 5 103 w4 = (Ok rt_data, w5).
Proof.
  destruct (@file_survives_power_cycle Demo.backend (dev_nor 2048 4) Demo.valid Demo.geo
    Demo.geo_valid hash_index hash_cached 1000%nat 2 5 [rt_first] [97; 98] rt_data
    rt_world rt_ready) as (w1 & Hclose & Hlater).
  - vm_compute. discriminate.
  - vm_compute. discriminate.
  - exact rt_clean.
  - vm_compute. reflexivity.
  - apply Nat.ltb_lt. vm_compute. reflexivity.
  - vm_compute. reflexivity.
  - assert (Hw1 : w1 = rt_closed) by (unfold rt_closed; by rewrite Hclose).
    rewrite Hw1 in Hlater, Hclose.
    destruct (Hlater rt_closed_headers rt_options (power_off rt_closed) rt_accepts
      (power_off_ok _ rt_closed_ok) (power_off_mem _))
      as (w3 & w4 & w5 & Hmount & Hopen & Hread).
    exists rt_closed, w3, w4, w5. exact (conj Hclose (conj Hmount (conj Hopen Hread))).
Defined.

(** ** Deleting the first file *)

Lemma rt_sane : sectors_sane Demo.geo 0 rt_mem.
Proof.
  intros s Hs _. change (2 <= s < 8) in Hs.
  assert (s = 7 \/ s = 2 \/ s = 3 \/ s = 4 \/ s = 5 \/ s = 6) as [-> | Hdead] by lia.
  - unfold sector_sane. intros _.
    assert (Hr : sector_records Demo.geo rt_mem 7 = ([rt_first], WEnd_erased))
      by (vm_compute; reflexivity).
    rewrite Hr. split; [done |]. split.
    + intros r r' Hin Hin'. apply list_elem_of_singleton in Hin as ->.
      apply list_elem_of_singleton in Hin' as ->. vm_compute. discriminate.
    + intros r Hin _. apply list_elem_of_singleton in Hin as ->. discriminate.
  - apply sector_sane_dead.
    destruct Hdead as [-> | [-> | [-> | [-> | ->]]]]; vm_compute; reflexivity.
Qed.

Lemma rt_deleting v :
  name_scan (root_value Demo.geo rt_mem)
    (@idx_map Demo.backend hash_index hash_cached (w_fs rt_world)) [120]
    (candidates [120]) = inr (Some (44427, 7, v)) ->
  @deleting Demo.backend (dev_nor 2048 4) Demo.geo hash_index hash_cached [120] 44427 7 v
    rt_world.
Proof.
  intros Hv. split.
  - vm_compute. reflexivity.
  - exact rt_flash_ok.
  - by split.
  - exact Hv.
  - exact rt_index_ok.
  - exact rt_log_ok.
  - vm_compute. reflexivity.
  - apply Nat.ltb_lt. vm_compute. reflexivity.
  - exact rt_sane.
Qed.

Lemma rt_only : name_scan (root_value Demo.geo rt_mem)
  (delete 44427 (@idx_map Demo.backend hash_index hash_cached (w_fs rt_world))) [120]
  (candidates [120]) = inr None.
Proof. vm_compute. reflexivity. Qed.

Lemma delete_removes_file_witness :
  exists w1 w2, @fffs_delete_file Demo.backend hash_index [120] rt_world = (Ok tt, w1) /\
    @idx_map Demo.backend hash_index hash_cached (w_fs w1) !! 44427 = None /\
    @fffs_open Demo.backend hash_index 1000%nat 5 [120] FFFS_O_RDONLY w1 =
      (Err FFFS_ERR_NOT_FOUND, w2).
Proof.
  destruct rt_first_scan as [v Hv].
  destruct (@delete_removes_file Demo.backend (dev_nor 2048 4) Demo.valid Demo.geo
    Demo.geo_valid hash_index hash_cached 1000%nat 5 [120] 44427 7 v rt_world
    (rt_deleting v Hv) rt_only rt_open_ok) as (w1 & w2 & Hdel & Hw1 & _ & Hopen).
  - vm_compute. reflexivity.
  - exists w1, w2. split; [exact Hdel |]. split; [| exact Hopen].
    rewrite (fd_map _ _ _ _ _ Hw1). apply lookup_delete_eq.
Defined.

Definition rt_deleted : @world Demo.backend :=
  snd (@fffs_delete_file Demo.backend hash_index [120] rt_world).

Lemma rt_deleted_headers : @ring_headers Demo.backend Demo.geo
  (@mem Demo.backend (dev_nor 2048 4) rt_deleted) (fs_log (w_fs rt_deleted)).
Proof. demo_ring_headers. Qed.

Lemma rt_deleted_ok : @flash_ok Demo.backend (dev_nor 2048 4) rt_deleted.
Proof. apply dev_flash_ok; vm_compute; reflexivity. Qed.

Lemma deletion_survives_power_cycle_witness :
  exists w1 w3 w4, @fffs_delete_file Demo.backend hash_index [120] rt_world = (Ok tt, w1) /\
    @fffs_mount Demo.backend hash_index rt_options (power_off w1) = (Ok tt, w3) /\
    @fffs_open Demo.backend hash_index 1000%nat 5 [120] FFFS_O_RDONLY w3 =
      (Err FFFS_ERR_NOT_FOUND, w4).
Proof.
  destruct rt_first_scan as [v Hv].
  destruct (@deletion_survives_power_cycle Demo.backend (dev_nor 2048 4) Demo.valid Demo.geo
    Demo.geo_valid hash_index hash_cached 1000%nat 5 [120] 44427 7 v rt_world
    (rt_deleting v Hv) rt_only rt_clean) as (w1 & Hdel & Hlater).
  - vm_compute. reflexivity.
  - vm_compute. reflexivity.
  - assert (Hw1 : w1 = rt_deleted) by (unfold rt_deleted; by rewrite Hdel).
    rewrite Hw1 in Hlater, Hdel.
    destruct (Hlater rt_deleted_headers rt_options (power_off rt_deleted) rt_accepts
      (power_off_ok _ rt_deleted_ok) (power_off_mem _)) as (w3 & w4 & Hmount & _ & Hopen).
    exists rt_deleted, w3, w4. exact (conj Hdel (conj Hmount Hopen)).
Defined.
