(* ===== verification/ReplaceRuns.v ===== *)
(** * A file replaced

    The theorems of [Replacement] applied to a concrete session: a file "x" is
    written and closed, and written again up to its close.  The allocation for
    the second writer has moved the old root to another sector, and erased and
    handed out the sector where it was, so the close looks the old root up. *)

From S2P Require Import RoundRuns Replacement HashIndex.

Definition rp_script : @M Demo.backend unit :=
  (@fffs_format Demo.backend (mk_format_options 2 256) ;;
   @fffs_mount Demo.backend hash_index rt_options ;;
   @fffs_open Demo.backend hash_index 1000%nat 1 [120] rt_create ;;
   @fffs_write Demo.backend hash_index 1000%nat 1 (fill 20 5) ;;
   @fffs_close Demo.backend hash_index 1 ;;
   @fffs_open Demo.backend hash_index 1000%nat 2 [120] (Z.lor rt_create FFFS_O_TRUNC) ;;
   @fffs_write Demo.backend hash_index 1000%nat 2 rt_data).

(** The state before the second close, and after. *)
Definition rp_world : @world Demo.backend := snd (rp_script (Demo.start dev_blank)).

Definition rp_closed : @world Demo.backend :=
  snd (@fffs_close Demo.backend hash_index 2 rp_world).

#[local] Abbreviation rp_mem := (@mem Demo.backend (dev_nor 2048 4) rp_world).
#[local] Abbreviation rp_handle := (file_of (w_files rp_world) 2).

(** The old root, in sector 2. *)
Definition rp_first : fffs_md_record :=
  mk_md_record FFFS_MD_TYPE_FILE_ROOT_V1 FFFS_LIFECYCLE_VALID true 44427 0 1 0 23 20
    230 16.

Lemma rp_old_root :
  slot_md Demo.geo rp_mem 2 44427 FFFS_MD_MATCH_LIVE = inr rp_first.
Proof. vm_compute. reflexivity. Qed.

Lemma rp_sectors s : 2 <= s < 8 -> s <> 2 ->
  footer_live (footer_at Demo.geo rp_mem s) = false.
Proof.
  intros Hs Hne. assert (s = 3 \/ s = 4 \/ s = 5 \/ s = 6 \/ s = 7) as Hd by lia.
  destruct Hd as [-> | [-> | [-> | [-> | ->]]]]; vm_compute; reflexivity.
Qed.

Lemma rp_records : sector_records Demo.geo rp_mem 2 = ([rp_first], WEnd_erased).
Proof. vm_compute. reflexivity. Qed.

Lemma rp_flash_ok : @flash_ok Demo.backend (dev_nor 2048 4) rp_world.
Proof. apply dev_flash_ok; vm_compute; reflexivity. Qed.

Lemma rp_index_ok : @idx_ok Demo.backend hash_index hash_cached (w_fs rp_world).
Proof.
  split; [by exists 4 |].
  assert (Ht : index_cache (w_fs rp_world) =
    <[Z.to_nat (44427 mod 16) := mk_bucket 44427 2]> (replicate 16 (mk_bucket 0 0)))
    by (vm_compute; reflexivity).
  rewrite Ht. by apply single_table_wf.
Qed.

Lemma rp_writer : @writer Demo.backend Demo.geo rp_mem rp_handle.
Proof.
  split; try (vm_compute; try split; done).
  - apply (bool_decide_unpack _). vm_compute. exact I.
  - right. vm_compute. discriminate.
  - apply (mem_bytes_erased rp_mem). vm_compute. reflexivity.
Qed.

Lemma rp_place : free_place Demo.geo rp_mem 7 [] 230 true.
Proof.
  split; [vm_compute; by split |].
  split; [done |]. split; [vm_compute; reflexivity |].
  apply mem_bytes_erased. vm_compute. reflexivity.
Qed.

Lemma rp_log_ok : log_ok Demo.geo rp_mem (fs_log (w_fs rp_world)).
Proof.
  split; try (vm_compute; try split; done).
  apply mem_bytes_erased. vm_compute. reflexivity.
Qed.

Lemma rp_closing : @closing Demo.backend (dev_nor 2048 4) Demo.geo hash_index
  hash_cached 2 [] rp_world.
Proof.
  split.
  - vm_compute. reflexivity.
  - exact rp_flash_ok.
  - vm_compute. reflexivity.
  - vm_compute. by split.
  - exact rp_writer.
  - vm_compute. reflexivity.
  - vm_compute. reflexivity.
  - cbv zeta. intros _.
    assert (Hh : @idx_map Demo.backend hash_index hash_cached (w_fs rp_world) !!
      f_slot rp_handle = Some 2) by (vm_compute; reflexivity).
    rewrite Hh. split; [vm_compute; discriminate |].
    exists rp_first. split; [| reflexivity].
    assert (Hs : f_slot rp_handle = 44427) by (vm_compute; reflexivity).
    rewrite Hs. exact rp_old_root.
  - vm_compute. by split.
  - vm_compute. by split.
  - exact rp_place.
  - vm_compute. discriminate.
  - by apply Forall_nil.
  - exact rp_index_ok.
  - exact rp_log_ok.
  - vm_compute. reflexivity.
  - left. vm_compute. lia.
Qed.

Lemma rp_replacing : @replacing Demo.backend (dev_nor 2048 4) Demo.geo hash_index
  hash_cached 2 [] rp_world.
Proof.
  split.
  - exact rp_closing.
  - intros s Hs _. change (2 <= s < 8) in Hs. destruct (Z.eq_dec s 2) as [-> | Hne].
    + unfold sector_sane. intros _. rewrite rp_records. split; [done |]. split.
      * intros r r' Hin Hin'. apply list_elem_of_singleton in Hin as ->.
        apply list_elem_of_singleton in Hin' as ->. vm_compute. discriminate.
      * intros r Hin _. apply list_elem_of_singleton in Hin as ->. discriminate.
    + by apply sector_sane_dead, rp_sectors.
  - intros s x y Hs Hf. change (2 <= s < 8) in Hs. destruct (Z.eq_dec s 2) as [-> | Hne].
    + rewrite rp_records. intros Hx Hy _ _ _ _. apply list_elem_of_singleton in Hx as ->.
      by apply list_elem_of_singleton in Hy as ->.
    + rewrite rp_sectors in Hf by done. discriminate Hf.
  - vm_compute. reflexivity.
  - cbv zeta. intros r Hr. exfalso. revert Hr. vm_compute. discriminate.
Qed.

Lemma rp_open : open_writer_handle 2 rp_world.
Proof.
  split; [| vm_compute; reflexivity..].
  exists [2]. split; [| apply NoDup_singleton].
  split; [vm_compute; reflexivity |]. split; [done |].
  eexists. split; [vm_compute; reflexivity |]. reflexivity.
Qed.

Lemma rp_wrote : @wrote Demo.backend (dev_nor 2048 4) Demo.geo 2 [120] rt_data rp_world.
Proof. split; vm_compute; done. Qed.

Lemma rp_found : exists v,
  name_scan (root_value Demo.geo rp_mem)
    (@idx_map Demo.backend hash_index hash_cached (w_fs rp_world)) [120]
    (candidates [120]) = inr (Some (f_slot rp_handle, 2, v)).
Proof. eexists. vm_compute. reflexivity. Qed.

Lemma rp_ready v :
  name_scan (root_value Demo.geo rp_mem)
    (@idx_map Demo.backend hash_index hash_cached (w_fs rp_world)) [120]
    (candidates [120]) = inr (Some (f_slot rp_handle, 2, v)) ->
  @ready_to_replace Demo.backend (dev_nor 2048 4) Demo.geo hash_index hash_cached 2 []
    [120] rt_data 2 v rp_world.
Proof.
  intros Hv. split; [exact rp_replacing | exact rp_wrote | exact rp_open | exact Hv].
Qed.

(** The chain that the close releases: the root in sector 2, which the handle
    does not know. *)
#[local] Abbreviation rp_old_head :=
  (fst (old_chain Demo.geo (@idx_map Demo.backend hash_index hash_cached (w_fs rp_world))
    rp_mem rp_handle)).

Lemma rp_old_sectors : f_old_head rp_handle <> 2 /\
  chain_sectors Demo.geo (Z.to_nat (sector_count Demo.geo)) rp_mem (f_slot rp_handle)
    rp_old_head = [2].
Proof. vm_compute. by split. Qed.

Lemma rp_whole :
  chain_whole Demo.geo (Z.to_nat (sector_count Demo.geo)) rp_mem (f_slot rp_handle)
    rp_old_head.
Proof.
  unfold chain_whole. rewrite (proj2 rp_old_sectors). split; [by apply NoDup_singleton |].
  apply Forall_singleton. exists rp_first. vm_compute. reflexivity.
Qed.

Lemma close_replaces_file_witness :
  exists w1 w2 w3, @fffs_close Demo.backend hash_index 2 rp_world = (Ok tt, w1) /\
    no_live Demo.geo (@mem Demo.backend (dev_nor 2048 4) w1) 2 (f_slot rp_handle) /\
    @fffs_open Demo.backend hash_index 1000%nat 5 [120] FFFS_O_RDONLY w1 = (Ok tt, w2) /\
    @fffs_read Demo.backend 1000%nat 5 103 w2 = (Ok rt_data, w3).
Proof.
  destruct rp_found as [v Hv].
  destruct (@close_replaces_file Demo.backend (dev_nor 2048 4) Demo.valid Demo.geo
    Demo.geo_valid hash_index hash_cached 1000%nat 2 5 [] [120] rt_data 2 v rp_world
    (rp_ready v Hv)) as (w1 & w2 & w3 & Hclose & Hw1 & Hopen & Hread).
  - vm_compute. discriminate.
  - vm_compute. discriminate.
  - pose proof (fr_released _ _ _ _ _ _ Hw1) as Hgone. cbv zeta in Hgone.
    specialize (Hgone rp_whole). rewrite (proj2 rp_old_sectors) in Hgone.
    exists w1, w2, w3.
    exact (conj Hclose (conj (proj1 (Forall_singleton _ _) Hgone) (conj Hopen Hread))).
Defined.

(** ** The power cycle *)

Lemma rp_clean : @clean_journal Demo.backend Demo.geo hash_index hash_cached rp_mem
  (fs_log (w_fs rp_world)).
Proof.
  assert (Hj : journal Demo.geo rp_mem (fs_log (w_fs rp_world)) = [(44427, 7); (44427, 2)])
    by (vm_compute; reflexivity).
  split.
  - split; vm_compute; try split; done.
  - rewrite Hj. repeat (apply Forall_cons; split; [right; vm_compute;
      split; [by split | right; by split] |]). by apply Forall_nil.
  - rewrite Hj. intros l1 l2 Hl. apply (f_equal length) in Hl.
    rewrite length_app in Hl. simpl in Hl.
    pose proof (size_replay_map ∅ l1) as Hsz. rewrite map_size_empty in Hsz.
    assert (Hcap : @idx_capacity Demo.backend hash_index hash_cached Demo.geo = 16%nat)
      by (vm_compute; reflexivity).
    lia.
  - intros slot head Hl Hh. vm_compute in Hl. injection Hl as <- <-.
    exists rp_first. split; [exact rp_old_root | reflexivity].
Qed.

Lemma rp_closed_headers : @ring_headers Demo.backend Demo.geo
  (@mem Demo.backend (dev_nor 2048 4) rp_closed) (fs_log (w_fs rp_closed)).
Proof. demo_ring_headers. Qed.

Lemma rp_closed_ok : @flash_ok Demo.backend (dev_nor 2048 4) rp_closed.
Proof. apply dev_flash_ok; vm_compute; reflexivity. Qed.

Lemma replacement_survives_power_cycle_witness :
  exists w1 w3 w4 w5,
    @fffs_close Demo.backend hash_index 2 rp_world = (Ok tt, w1) /\
    @fffs_mount Demo.backend hash_index rt_options (power_off w1) = (Ok tt, w3) /\
    @fffs_open Demo.backend hash_index 1000%nat 5 [120] FFFS_O_RDONLY w3 = (Ok tt, w4) /\
    @fffs_read Demo.backend 1000%nat 5 103 w4 = (Ok rt_data, w5).
Proof.
  destruct rp_found as [v Hv].
  destruct (@replacement_survives_power_cycle Demo.backend (dev_nor 2048 4) Demo.valid
    Demo.geo Demo.geo_valid hash_index hash_cached 1000%nat 2 5 [] [120] rt_data 2 v
    rp_world (rp_ready v Hv)) as (w1 & Hclose & Hlater).
  - vm_compute. discriminate.
  - vm_compute. discriminate.
  - exact rp_clean.
  - vm_compute. reflexivity.
  - apply Nat.ltb_lt. vm_compute. reflexivity.
  - vm_compute. reflexivity.
  - assert (Hw1 : w1 = rp_closed) by (unfold rp_closed; by rewrite Hclose).
    rewrite Hw1 in Hlater, Hclose.
    destruct (Hlater rp_closed_headers rt_options (power_off rp_closed) rt_accepts
      (power_off_ok _ rp_closed_ok) (power_off_mem _))
      as (w3 & w4 & w5 & Hmount & Hopen & Hread).
    exists rp_closed, w3, w4, w5. exact (conj Hclose (conj Hmount (conj Hopen Hread))).
Defined.

(** ** A refresh that fails

    The root that the index names is unreadable.  The close drops the status of
    the look-up, so that it takes its own sector for the one of the old chain:
    it commits the new root, tombstones it, and reports success. *)
Definition rp_damaged : @world Demo.backend :=
  let d := w_ctx rp_world in
  @mk_world Demo.backend (mk_dev (<[742 := 0]> (dv_mem d)) (dv_fault d)) (w_fs rp_world)
    (w_files rp_world).

Lemma failed_refresh_releases_new_root :
  let '(result, w') := @fffs_close Demo.backend hash_index 2 rp_damaged in
  result = Ok tt /\
  @idx_map Demo.backend hash_index hash_cached (w_fs w') !! 44427 = Some 7 /\
  slot_md Demo.geo (@mem Demo.backend (dev_nor 2048 4) w') 7 44427
    FFFS_MD_MATCH_LIVE = inl FFFS_ERR_CORRUPT.
Proof. vm_compute. by repeat split. Qed.
