(* ===== verification/Workload.v ===== *)
(** * The deterministic workload

    The workload generator of [src/fffs_inspect.c]: a reproducible mix of
    writes, deletions, verified reads and listings over a mounted file system.
    The local [struct fffs_file] of its helpers is the handle [local]; the
    failure of an allocation is not modelled. *)

From Stdlib Require Import Ascii String.
From S2P Require Export Fastffs.

(** ** Names *)

Definition bytes_of_string (s : string) : list Z :=
  (fun a => Z.of_N (N_of_ascii a)) <$> list_ascii_of_string s.

(** The decimal digits of [n] with at least [width] of them, as
    [snprintf("%0<width>zu")] prints them; a [size_t] has at most twenty. *)
Fixpoint digits_loop (k : nat) (width n : Z) (acc : list Z) : list Z :=
  match k with
  | O => acc
  | S k' => if (n =? 0) && (width <=? 0) then acc
            else digits_loop k' (width - 1) (n / 10) (48 + n mod 10 :: acc)
  end.

Definition decimal (width n : Z) : list Z := digits_loop 20 width n [].

Definition tiny_name (i : Z) : list Z := bytes_of_string "tiny/" ++ decimal 3 i.
Definition medium_name (i : Z) : list Z := bytes_of_string "medium/" ++ decimal 2 i.
Definition large_name : list Z := bytes_of_string "large/blob".

(** ** Pseudo-random numbers and patterns *)

(** [next_rand]: the new state, which is also the result. *)
Definition next_rand (state : Z) : Z :=
  let x := if state =? 0 then 1 else state in
  let x := Z.lxor x (u32 (Z.shiftl x 13)) in
  let x := Z.lxor x (Z.shiftr x 17) in
  Z.lxor x (u32 (Z.shiftl x 5)).

Definition fill_pattern (size pattern : Z) : list Z :=
  (fun i => u8 (pattern + Z.of_nat i)) <$> seq 0 (Z.to_nat size).

(** ** Options and results *)

Record fffs_workload_options : Type := mk_workload_options {
  wo_seed : Z;
  wo_rounds : Z;
  wo_file_count : Z;
  wo_max_file_size : Z;
}.

Record fffs_workload_summary : Type := mk_workload_summary {
  ws_writes : Z;
  ws_deletes : Z;
  ws_reads : Z;
  ws_lists : Z;
}.

Definition count_write (s : fffs_workload_summary) : fffs_workload_summary :=
  mk_workload_summary (ws_writes s + 1) (ws_deletes s) (ws_reads s) (ws_lists s).

Definition count_deletion (s : fffs_workload_summary) : fffs_workload_summary :=
  mk_workload_summary (ws_writes s) (ws_deletes s + 1) (ws_reads s) (ws_lists s).

Definition count_read (s : fffs_workload_summary) : fffs_workload_summary :=
  mk_workload_summary (ws_writes s) (ws_deletes s) (ws_reads s + 1) (ws_lists s).

Definition count_list (s : fffs_workload_summary) : fffs_workload_summary :=
  mk_workload_summary (ws_writes s) (ws_deletes s) (ws_reads s) (ws_lists s + 1).

(** An option with its default for a missing or zero value. *)
Definition option_or (field : fffs_workload_options -> Z)
    (options : option fffs_workload_options) (dflt : Z) : Z :=
  match options with
  | Some o => if field o =? 0 then dflt else field o
  | None => dflt
  end.

(** The sizes that the run works with. *)
Record workload_plan : Type := mk_plan {
  wp_rounds : Z;
  wp_seed : Z;
  wp_max_alloc : Z;
  wp_tiny_count : Z;
  wp_tiny_size : Z;
  wp_medium_count : Z;
  wp_medium_size : Z;
  wp_large_size : Z;
  wp_have_large : bool;
}.

Section Workload.
Context `{Backend} `{!IndexCache} `{Fuel} (local : Z).

Definition sectors_for_file (g : fs_geometry) (size : Z) : Z :=
  let extent := fffs_max_file_data_size g in
  (size + extent - 1) / extent.

Definition workload_write_file (name : list Z) (size pattern : Z) : M unit :=
  let buffer := fill_pattern size pattern in
  fffs_open local name
    (Z.lor (Z.lor FFFS_O_WRONLY FFFS_O_CREATE) FFFS_O_TRUNC) ;;
  fffs_write local buffer ;;
  fffs_close local.

(** Every round reads at least one byte. *)
Fixpoint read_verify_loop (n : nat) (size : Z) (readback : list Z)
  : M (list Z) :=
  if negb (zlen readback <? size) then ret readback
  else match n with
       | O => diverge
       | S n' =>
           data <- fffs_read local (size - zlen readback) ;;
           guard_err (zlen data =? 0) FFFS_ERR_CORRUPT ;;
           read_verify_loop n' size (readback ++ data)
       end.

Definition workload_read_verify (name : list Z) (size pattern : Z) : M unit :=
  let expected := fill_pattern size pattern in
  fffs_open local name FFFS_O_RDONLY ;;
  readback <- read_verify_loop (Z.to_nat size) size [] ;;
  fffs_close local ;;
  guard_err (negb (bool_decide (expected = readback))) FFFS_ERR_CORRUPT.

(** The options, checked, and the sizes derived from the geometry. *)
Definition plan_workload (options : option fffs_workload_options)
  : M workload_plan :=
  let rounds := option_or wo_rounds options 100 in
  let file_count := option_or wo_file_count options 224 in
  let max_file_size := option_or wo_max_file_size options (350 * 1024) in
  guard_err ((file_count =? 0) || (1000 <? file_count) || (max_file_size =? 0))
    FFFS_ERR_INVALID ;;
  g <- get_geo ;;
  let max_alloc := if max_file_size <? 350 * 1024 then max_file_size
                   else 350 * 1024 in
  let rng := match options with Some o => wo_seed o | None => 1 end in
  let rng := if rng =? 0 then 1 else rng in
  let data_sectors := if index_sectors g <? sector_count g
                      then sector_count g - index_sectors g else 0 in
  let budget := data_sectors * 2 / 3 in
  let tiny_count := if file_count <? 192 then file_count else 192 in
  let tiny_count := if budget / 4 <? tiny_count then budget / 4
                    else tiny_count in
  let medium_size := if max_alloc <? 50 * 1024 then max_alloc
                     else 50 * 1024 in
  let medium_size := if medium_size <? 512 then max_alloc else medium_size in
  let medium_sectors := sectors_for_file g medium_size in
  let medium_budget := if tiny_count <? budget then budget - tiny_count
                       else 0 in
  let medium_count := if negb (medium_sectors =? 0)
                      then medium_budget / medium_sectors / 2 else 0 in
  let medium_count := if 16 <? medium_count then 16 else medium_count in
  let used := tiny_count + medium_count * medium_sectors in
  let large_sectors := sectors_for_file g max_alloc in
  ret (mk_plan rounds rng max_alloc tiny_count
         (if max_alloc <? 64 then max_alloc else 64) medium_count medium_size
         max_alloc
         ((16 * 1024 <=? max_alloc) && (used + large_sectors <? budget))).

Fixpoint write_tiny_loop (n : nat) (i : Z) (p : workload_plan)
    (s : fffs_workload_summary) : M fffs_workload_summary :=
  match n with
  | O => ret s
  | S n' =>
      workload_write_file (tiny_name i) (wp_tiny_size p) (u8 i) ;;
      write_tiny_loop n' (i + 1) p (count_write s)
  end.

Fixpoint write_medium_loop (n : nat) (i : Z) (p : workload_plan)
    (s : fffs_workload_summary) : M fffs_workload_summary :=
  match n with
  | O => ret s
  | S n' =>
      workload_write_file (medium_name i) (wp_medium_size p) (u8 (0x40 + i)) ;;
      write_medium_loop n' (i + 1) p (count_write s)
  end.

(** One round, chosen by the random number [r]. *)
Definition workload_round (p : workload_plan) (r : Z)
    (s : fffs_workload_summary) : M fffs_workload_summary :=
  let id := if negb (wp_tiny_count p =? 0) then r mod wp_tiny_count p else 0 in
  let name := tiny_name id in
  let action := Z.land (Z.shiftr r 8) 3 in
  if action =? 0 then
    let size := 16 + Z.shiftr r 10 mod 240 in
    let size := if wp_max_alloc p <? size then wp_max_alloc p else size in
    workload_write_file name size (u8 (Z.shiftr r 18)) ;;
    ret (count_write s)
  else if action =? 1 then
    res <- try_ (fffs_delete_file name) ;;
    match res with
    | inl FFFS_ERR_NOT_FOUND | inr _ => ret (count_deletion s)
    | inl err => fail err
    end
  else if action =? 2 then
    if 0 <? wp_medium_count p then
      let mid := Z.shiftr r 16 mod wp_medium_count p in
      workload_read_verify (medium_name mid) (wp_medium_size p)
        (u8 (0x40 + mid)) ;;
      ret (count_read s)
    else ret s
  else
    fffs_list 0 ;;
    ret (count_list s).

Fixpoint workload_rounds_loop (n : nat) (p : workload_plan) (rng : Z)
    (s : fffs_workload_summary) : M fffs_workload_summary :=
  match n with
  | O => ret s
  | S n' =>
      let r := next_rand rng in
      s <- workload_round p r s ;;
      workload_rounds_loop n' p r s
  end.

Definition fffs_workload_run (options : option fffs_workload_options)
  : M fffs_workload_summary :=
  p <- plan_workload options ;;
  s <- write_tiny_loop (Z.to_nat (wp_tiny_count p)) 0 p
         (mk_workload_summary 0 0 0 0) ;;
  s <- write_medium_loop (Z.to_nat (wp_medium_count p)) 0 p s ;;
  s <- (if wp_have_large p then
          workload_write_file large_name (wp_large_size p) 0xa5 ;;
          ret (count_write s)
        else ret s) ;;
  workload_rounds_loop (Z.to_nat (wp_rounds p)) p (wp_seed p) s.
End Workload.

(** ** The random numbers *)

Lemma lxor_u32 a b : 0 <= a < 2 ^ 32 -> 0 <= b < 2 ^ 32 -> 0 <= Z.lxor a b < 2 ^ 32.
Proof. apply lxor_bound. lia. Qed.

(** A shift that pushes bits out of the word never gives the word itself
    back. *)
Lemma lxor_shiftl_nonzero x k : 0 < k -> 0 < x < 2 ^ 32 ->
  Z.lxor x (u32 (Z.shiftl x k)) <> 0.
Proof.
  intros Hk Hx Heq. apply Z.lxor_eq in Heq.
  assert (Hbits : forall n, (n <= 32)%nat -> forall i, 0 <= i < Z.of_nat n ->
    Z.testbit x i = false).
  { induction n as [| n IH]; intros Hn i Hi; [lia |].
    destruct (Z.lt_ge_cases i (Z.of_nat n)); [apply IH; lia |].
    rewrite Heq. unfold u32. rewrite Z.mod_pow2_bits_low by lia.
    rewrite Z.shiftl_spec by lia.
    destruct (Z.lt_ge_cases (i - k) 0); [by apply Z.testbit_neg_r |].
    apply IH; lia. }
  assert (Hz : x = 0); [| lia]. apply Z.bits_inj'. intros i Hi. rewrite Z.bits_0.
  destruct (Z.lt_ge_cases i 32); [apply (Hbits 32%nat); lia |].
  apply Z.bits_above_log2; [lia |].
  assert (Z.log2 x < 32) by (apply Z.log2_lt_pow2; lia). lia.
Qed.

Lemma lxor_shiftr_nonzero x k : 0 < k -> 0 < x -> Z.lxor x (Z.shiftr x k) <> 0.
Proof.
  intros Hk Hx Heq. apply Z.lxor_eq in Heq. rewrite Z.shiftr_div_pow2 in Heq by lia.
  pose proof (Z.div_lt x (2 ^ k) Hx). pose proof (Z.pow_gt_1 2 k). lia.
Qed.

(** The workload's generator.  From any 32-bit state, zero included,
    [next_rand] gives a non-zero 32-bit state, so the sequence of a run never
    gets stuck at zero and every shift of it stays within the word. *)
Theorem next_rand_range (state : Z) :
  0 <= state < 2 ^ 32 -> 0 < next_rand state < 2 ^ 32.
Proof.
  intros Hs. unfold next_rand. set (x := if state =? 0 then 1 else state).
  assert (Hx : 0 < x < 2 ^ 32)
    by (unfold x; destruct (Z.eqb_spec state 0); lia).
  set (y := Z.lxor x (u32 (Z.shiftl x 13))).
  assert (Hy : 0 < y < 2 ^ 32).
  { pose proof (lxor_u32 x (u32 (Z.shiftl x 13)) ltac:(lia) (u32_range _)).
    pose proof (lxor_shiftl_nonzero x 13 ltac:(lia) Hx). unfold y. lia. }
  set (z := Z.lxor y (Z.shiftr y 17)).
  assert (Hz : 0 < z < 2 ^ 32).
  { assert (Hsr : 0 <= Z.shiftr y 17 < 2 ^ 32).
    { rewrite Z.shiftr_div_pow2 by lia. split; [apply Z.div_pos; lia |].
      pose proof (Z.div_lt y (2 ^ 17) ltac:(lia)). lia. }
    pose proof (lxor_u32 y _ ltac:(lia) Hsr).
    pose proof (lxor_shiftr_nonzero y 17 ltac:(lia) ltac:(lia)). unfold z. lia. }
  pose proof (lxor_u32 z (u32 (Z.shiftl z 5)) ltac:(lia) (u32_range _)).
  pose proof (lxor_shiftl_nonzero z 5 ltac:(lia) Hz). lia.
Qed.

Lemma next_rand_range_witness : 0 < next_rand 0 < 2 ^ 32 /\ next_rand 0 = 270369.
Proof. split; [apply (next_rand_range 0); lia | reflexivity]. Defined.

(** ** The plan *)

Section Plan.
Context `{Backend} `{!IndexCache} `{Fuel}.

(** The data sectors that the files of the plan need. *)
Definition plan_sectors (g : fs_geometry) (p : workload_plan) : Z :=
  wp_tiny_count p + wp_medium_count p * sectors_for_file g (wp_medium_size p) +
  (if wp_have_large p then sectors_for_file g (wp_large_size p) else 0).

Lemma sectors_for_file_nonneg g size :
  0 <= size -> 0 < fffs_max_file_data_size g -> 0 <= sectors_for_file g size.
Proof. intros Hs Hg. unfold sectors_for_file. apply Z.div_pos; lia. Qed.

Lemma medium_count_fits budget tiny sectors m :
  0 <= tiny <= budget / 4 -> 0 <= budget -> 0 <= sectors ->
  m = (if negb (sectors =? 0)
       then (if tiny <? budget then budget - tiny else 0) / sectors / 2 else 0) ->
  0 <= m /\ tiny + m * sectors <= budget.
Proof.
  intros Ht Hb Hs ->.
  assert (Hq : budget / 4 <= budget) by (apply Z.div_le_upper_bound; lia).
  destruct (Z.eqb_spec sectors 0) as [| Hne]; cbn [negb]; [lia |].
  set (mb := if tiny <? budget then budget - tiny else 0).
  assert (Hmb : 0 <= mb /\ tiny + mb <= budget)
    by (unfold mb; destruct (Z.ltb_spec tiny budget); lia).
  assert (Hd : 0 <= mb / sectors) by (apply Z.div_pos; lia).
  pose proof (Z.mul_div_le mb sectors ltac:(lia)).
  assert (Hh : 0 <= mb / sectors / 2 <= mb / sectors).
  { split; [apply Z.div_pos; lia | apply Z.div_le_upper_bound; lia]. }
  split; [lia | nia].
Qed.
End Plan.

(** The workload's plan fits the device.  Whatever the options,
    [plan_workload] refuses them with INVALID or plans files that together
    need at most two thirds of the data sectors, and no file is larger than
    the buffer the run allocates; it changes nothing. *)
Theorem plan_fits_device `{Backend} (options : option fffs_workload_options)
    (w : world) :
  let g := fs_geo (w_fs w) in
  (forall o, options = Some o -> 0 <= wo_file_count o /\ 0 <= wo_max_file_size o) ->
  index_sectors g <= sector_count g -> 0 < fffs_max_file_data_size g ->
  plan_workload options w = (Err FFFS_ERR_INVALID, w) \/
  exists p, plan_workload options w = (Ok p, w) /\
    plan_sectors g p <= (sector_count g - index_sectors g) * 2 / 3 /\
    wp_tiny_size p <= wp_max_alloc p /\ wp_medium_size p <= wp_max_alloc p /\
    wp_large_size p <= wp_max_alloc p <= 350 * 1024.
Proof.
  intros g Hopt Hdata Hext. unfold plan_workload. cbv zeta.
  assert (Hfield : forall field d, 0 <= d ->
    (forall o, options = Some o -> 0 <= field o) -> 0 <= option_or field options d).
  { intros field d Hd Hf. unfold option_or. destruct options as [o |]; [| done].
    destruct (Z.eqb_spec (field o) 0); [done | by apply Hf]. }
  assert (Hfiles : 0 <= option_or wo_file_count options 224)
    by (apply Hfield; [lia |]; intros o Ho; by apply Hopt).
  assert (Hmax : 0 <= option_or wo_max_file_size options (350 * 1024))
    by (apply Hfield; [lia |]; intros o Ho; by apply Hopt).
  set (files := option_or wo_file_count options 224) in *.
  set (max_file := option_or wo_max_file_size options (350 * 1024)) in *.
  unfold bind, guard_err. destruct (_ || _) eqn:Hbad; [by left |]. right.
  cbv beta iota. unfold get_geo. fold g.
  set (max_alloc := if max_file <? 350 * 1024 then max_file else 350 * 1024).
  assert (Hma : 0 <= max_alloc <= 350 * 1024)
    by (unfold max_alloc; destruct (Z.ltb_spec max_file (350 * 1024)); lia).
  set (data := if index_sectors g <? sector_count g
               then sector_count g - index_sectors g else 0).
  assert (Hd : data = sector_count g - index_sectors g)
    by (unfold data; destruct (Z.ltb_spec (index_sectors g) (sector_count g)); lia).
  set (budget := data * 2 / 3).
  assert (Hb : 0 <= budget) by (apply Z.div_pos; lia).
  set (tiny0 := if files <? 192 then files else 192).
  set (tiny := if budget / 4 <? tiny0 then budget / 4 else tiny0).
  assert (Ht : 0 <= tiny <= budget / 4).
  { assert (0 <= tiny0) by (unfold tiny0; destruct (files <? 192); lia).
    assert (0 <= budget / 4) by (apply Z.div_pos; lia).
    unfold tiny. destruct (Z.ltb_spec (budget / 4) tiny0); lia. }
  set (medium0 := if max_alloc <? 50 * 1024 then max_alloc else 50 * 1024).
  set (medium := if medium0 <? 512 then max_alloc else medium0).
  assert (Hmed : 0 <= medium <= max_alloc).
  { unfold medium, medium0. destruct (Z.ltb_spec max_alloc (50 * 1024)).
    - destruct (max_alloc <? 512); lia.
    - destruct (50 * 1024 <? 512); lia. }
  pose proof (sectors_for_file_nonneg g medium ltac:(lia) Hext) as Hms.
  set (ms := sectors_for_file g medium) in *.
  set (count0 := if negb (ms =? 0)
    then (if tiny <? budget then budget - tiny else 0) / ms / 2 else 0).
  destruct (medium_count_fits budget tiny ms count0 Ht Hb Hms eq_refl) as [Hc0 Hfit].
  set (count := if 16 <? count0 then 16 else count0).
  assert (Hcount : 0 <= count <= count0)
    by (unfold count; destruct (Z.ltb_spec 16 count0); lia).
  assert (Hused : tiny + count * ms <= budget).
  { assert (count * ms <= count0 * ms) by (apply Z.mul_le_mono_nonneg_r; lia). lia. }
  set (rng := if (match options with Some o => wo_seed o | None => 1 end) =? 0 then 1
              else match options with Some o => wo_seed o | None => 1 end).
  set (large := (16 * 1024 <=? max_alloc) &&
    (tiny + count * ms + sectors_for_file g max_alloc <? budget)).
  exists (mk_plan (option_or wo_rounds options 100) rng max_alloc tiny
    (if max_alloc <? 64 then max_alloc else 64) count medium max_alloc large).
  split; [reflexivity |].
  unfold plan_sectors. cbn [wp_tiny_count wp_medium_count wp_medium_size wp_have_large
    wp_large_size wp_tiny_size wp_max_alloc].
  fold ms. rewrite <- Hd. fold budget. split.
  - destruct large eqn:Hlarge; [| lia].
    apply andb_true_iff in Hlarge as [_ Hlt%Z.ltb_lt]. lia.
  - split; [destruct (Z.ltb_spec max_alloc 64); lia | lia].
Qed.

(** A file system of a quarter megabyte, with the default options. *)
Definition demo_plan_world : @world Demo.backend :=
  @mk_world Demo.backend dev_blank
    (set_fs_geo (mk_geometry 4096 64 4 4 false 64 16) Demo.fs) ∅.

Lemma plan_fits_device_witness :
  exists p, @plan_workload Demo.backend None demo_plan_world = (Ok p, demo_plan_world) /\
    @plan_sectors Demo.backend (fs_geo (w_fs demo_plan_world)) p <= 40.
Proof.
  destruct (@plan_fits_device Demo.backend None demo_plan_world)
    as [Hbad | (p & Hrun & Hfit & _)].
  - discriminate.
  - vm_compute. discriminate.
  - vm_compute. reflexivity.
  - exfalso. vm_compute in Hbad. discriminate Hbad.
  - exists p. split; [exact Hrun | exact Hfit].
Defined.
