(* ===== verification/SlotProbe.v ===== *)
(** * The slot-resolution probe

    [src/tools/fffs_slot_resolution_probe.c]: a simulation of the namespace's
    slots alone.  It fills the slots with a sequence of fresh names up to a
    number of live files, and then replaces live files by new ones for ever,
    counting the names whose probe window is full.  Its hash and its slot
    arithmetic are copies of those of the file system ([Bits]).

    The parsing of the arguments, the clock and the progress reports are not
    modelled; the endless loop is any number of its iterations. *)

From S2P Require Export Bits.

(** ** Data *)

Abbreviation FFFS_USABLE_SLOTS := 65534.
Abbreviation NAME_ALPHABET := 26.
Abbreviation MAX_NAME_LEN := 31.

Inductive slot_source : Type :=
| SLOT_SOURCE_HASH
| SLOT_SOURCE_RANDOM16.

Record name_generator : Type := mk_gen {
  gen_digits : list Z;
  gen_len : Z;
}.

(** The globals and the variables of [main].  The entries of [occupied_slots]
    from [occupied_count] on are stale. *)
Record probe_state : Type := mk_probe {
  slot_full : list Z;
  occupied_slots : list Z;
  occupied_count : Z;
  probe_gen : name_generator;
  base_rng : Z;
  delete_rng : Z;
  probe_attempts : Z;
  probe_inserts : Z;
  probe_failures : Z;
}.

(** ** Names *)

(** The loop over the digits from the last one: the first that is not the last
    letter is incremented, those after it start again. *)
Fixpoint carry_loop (i : nat) (digits : list Z) : bool * list Z :=
  match i with
  | O => (false, digits)
  | S pos =>
      let d := byte_at digits (Z.of_nat pos) in
      if negb (d =? NAME_ALPHABET - 1)
      then (true, <[pos := u8 (d + 1)]> digits)
      else carry_loop pos (<[pos := 0]> digits)
  end.

(** The result, the generator and the name, without its terminating zero. *)
Definition next_name (gen : name_generator) : bool * name_generator * list Z :=
  let len := if gen_len gen =? 0 then 1 else gen_len gen in
  let out := (fun d => u8 (97 + d)) <$> sublist 0 len (gen_digits gen) in
  let (carried, digits) := carry_loop (Z.to_nat len) (gen_digits gen) in
  if carried then (true, mk_gen digits len, out)
  else if len =? MAX_NAME_LEN then (false, mk_gen digits len, out)
  else (true, mk_gen digits (len + 1), out).

(** ** Random numbers and slots *)

(** The result and the new state. *)
Definition random_u64 (state : Z) : Z * Z :=
  let state := usz (state + 0x9e3779b97f4a7c15) in
  let z := state in
  let z := usz (Z.lxor z (Z.shiftr z 30) * 0xbf58476d1ce4e5b9) in
  let z := usz (Z.lxor z (Z.shiftr z 27) * 0x94d049bb133111eb) in
  (Z.lxor z (Z.shiftr z 31), state).

Definition base_slot_for_name (source : slot_source) (rng : Z) (name : list Z)
  : Z * Z :=
  match source with
  | SLOT_SOURCE_RANDOM16 =>
      let (r, rng) := random_u64 rng in
      (fffs_normalize_slot_base (u16 r), rng)
  | SLOT_SOURCE_HASH => (fffs_normalize_slot_base (fffs_hash16 name), rng)
  end.

(** The slot taken and the table after it. *)
Fixpoint resolve_insert_loop (n : nat) (candidate : Z) (full : list Z)
  : option (Z * list Z) :=
  match n with
  | O => None
  | S n' =>
      if byte_at full candidate =? 0
      then Some (candidate, <[Z.to_nat candidate := 1]> full)
      else resolve_insert_loop n' (fffs_next_slot candidate) full
  end.

Definition resolve_insert (base_slot probe_limit : Z) (full : list Z)
  : option (Z * list Z) :=
  resolve_insert_loop (Z.to_nat (probe_limit + 1)) base_slot full.

(** ** The two loops of [main] *)

Section Run.
Context (source : slot_source) (probe_limit : Z).

(** One round of the loop that fills the slots; [None] when the names are
    exhausted. *)
Definition prime_step (s : probe_state) : option probe_state :=
  let '(more, gen, name) := next_name (probe_gen s) in
  if negb more then None
  else
    let attempts := usz (probe_attempts s + 1) in
    let (base_slot, rng) := base_slot_for_name source (base_rng s) name in
    match resolve_insert base_slot probe_limit (slot_full s) with
    | None =>
        Some (mk_probe (slot_full s) (occupied_slots s) (occupied_count s) gen rng
                (delete_rng s) attempts (probe_inserts s)
                (usz (probe_failures s + 1)))
    | Some (slot, full) =>
        Some (mk_probe full
                (<[Z.to_nat (occupied_count s) := slot]> (occupied_slots s))
                (u32 (occupied_count s + 1)) gen rng
                (delete_rng s) attempts (probe_inserts s) (probe_failures s))
    end.

(** The outer [option] is the fuel, the inner one the early return. *)
Fixpoint prime_loop (n : nat) (live_count : Z) (s : probe_state)
  : option (option probe_state) :=
  if negb (occupied_count s <? live_count) then Some (Some s)
  else match n with
       | O => None
       | S n' => match prime_step s with
                 | None => Some None
                 | Some s => prime_loop n' live_count s
                 end
       end.

(** One round of the endless loop. *)
Definition churn_step (s : probe_state) : option probe_state :=
  let '(more, gen, name) := next_name (probe_gen s) in
  if negb more then None
  else
    let attempts := usz (probe_attempts s + 1) in
    let (base_slot, rng) := base_slot_for_name source (base_rng s) name in
    match resolve_insert base_slot probe_limit (slot_full s) with
    | Some (slot, full) =>
        let occupied := <[Z.to_nat (occupied_count s) := slot]> (occupied_slots s) in
        let count := u32 (occupied_count s + 1) in
        let inserts := usz (probe_inserts s + 1) in
        let (r, del_rng) := random_u64 (delete_rng s) in
        let delete_pos := u32 (Z.shiftr (usz (Z.shiftr r 32 * count)) 32) in
        let delete_slot := byte_at occupied delete_pos in
        let last_slot := byte_at occupied (count - 1) in
        Some (mk_probe (<[Z.to_nat delete_slot := 0]> full)
                (<[Z.to_nat delete_pos := last_slot]> occupied)
                (count - 1) gen rng del_rng attempts inserts (probe_failures s))
    | None =>
        Some (mk_probe (slot_full s) (occupied_slots s) (occupied_count s) gen rng
                (delete_rng s) attempts (probe_inserts s)
                (usz (probe_failures s + 1)))
    end.

Fixpoint churn_loop (n : nat) (s : probe_state) : option probe_state :=
  match n with
  | O => Some s
  | S n' => match churn_step s with
            | None => None
            | Some s => churn_loop n' s
            end
  end.
End Run.

(** The state before the first loop, the globals zeroed. *)
Definition probe_start (seed32 : Z) : probe_state :=
  let delete_rng := Z.lor (usz (Z.shiftl seed32 32)) seed32 in
  mk_probe (fill FFFS_SLOT_COUNT 0) (fill (FFFS_USABLE_SLOTS + 1) 0) 0
    (mk_gen (fill MAX_NAME_LEN 0) 0)
    (Z.lxor delete_rng 0xd1b54a32d192ed03) delete_rng 0 0 0.

(** [main] after its arguments are parsed, up to the end of the first loop and
    [rounds] rounds of the second: an exit code or the state. *)
Definition probe_main (fuel rounds : nat) (source : slot_source)
    (live_count probe_limit seed32 : Z) : option (Z + probe_state) :=
  if FFFS_USABLE_SLOTS <? live_count then Some (inl 2)
  else if FFFS_USABLE_SLOTS <=? probe_limit then Some (inl 2)
  else
    match prime_loop source probe_limit fuel live_count (probe_start seed32) with
    | None => None
    | Some None => Some (inl 1)
    | Some (Some s) =>
        let s := mk_probe (slot_full s) (occupied_slots s) (occupied_count s)
                   (probe_gen s) (base_rng s) (delete_rng s) 0 0 0 in
        match churn_loop source probe_limit rounds s with
        | None => Some (inl 1)
        | Some s => Some (inr s)
        end
    end.

(** ** The sequence of names

    The digits are a number in base 26; the names of a length follow those of
    all smaller lengths. *)

Definition digits_value (l : list Z) : Z := foldl (fun acc d => acc * NAME_ALPHABET + d) 0 l.

Definition is_digit (d : Z) : Prop := 0 <= d < NAME_ALPHABET.

(** The number of names shorter than [len]. *)
Fixpoint shorter_names (len : nat) : Z :=
  match len with
  | O | S O => 0
  | S l => shorter_names l + NAME_ALPHABET ^ Z.of_nat l
  end.

(** The place of a name in the sequence. *)
Definition name_rank (name : list Z) : Z :=
  shorter_names (length name) + digits_value ((fun c => c - 97) <$> name).

Definition next_len (gen : name_generator) : Z :=
  if gen_len gen =? 0 then 1 else gen_len gen.

Definition gen_rank (gen : name_generator) : Z :=
  shorter_names (Z.to_nat (next_len gen)) +
  digits_value (sublist 0 (next_len gen) (gen_digits gen)).

Definition last_rank : Z := shorter_names (S (Z.to_nat MAX_NAME_LEN)) - 1.

Record gen_ok (gen : name_generator) : Prop := {
  go_len : 0 <= gen_len gen <= MAX_NAME_LEN;
  go_digits : zlen (gen_digits gen) = MAX_NAME_LEN;
  go_range : Forall is_digit (gen_digits gen);
  go_rest : Forall (eq 0) (drop (Z.to_nat (next_len gen)) (gen_digits gen));
}.

Lemma digits_value_snoc l d : digits_value (l ++ [d]) = digits_value l * NAME_ALPHABET + d.
Proof. unfold digits_value. by rewrite foldl_app. Qed.

Lemma digits_value_range l : Forall is_digit l ->
  0 <= digits_value l < NAME_ALPHABET ^ Z.of_nat (length l).
Proof.
  induction l as [| d l IH] using rev_ind; [done |].
  rewrite Forall_app, Forall_singleton. unfold is_digit. intros [Hl Hd]. specialize (IH Hl).
  rewrite digits_value_snoc, length_app. simpl length.
  rewrite Nat2Z.inj_add, Z.pow_add_r by lia. change (26 ^ Z.of_nat 1) with 26. lia.
Qed.

Lemma digits_value_zeros l : Forall (eq 0) l -> digits_value l = 0.
Proof.
  induction l as [| d l IH] using rev_ind; [done |].
  rewrite Forall_app, Forall_singleton. intros [Hl <-].
  rewrite digits_value_snoc, IH by done. done.
Qed.

(** The carry over the first digits: their number grows by one, or they were
    all the last letter and start again. *)
Lemma carry_loop_spec (pre post : list Z) : Forall is_digit pre ->
  exists b pre', carry_loop (length pre) (pre ++ post) = (b, pre' ++ post) /\
    length pre' = length pre /\ Forall is_digit pre' /\
    if (b : bool) then digits_value pre' = digits_value pre + 1
    else digits_value pre = NAME_ALPHABET ^ Z.of_nat (length pre) - 1 /\ Forall (eq 0) pre'.
Proof.
  revert post. induction pre as [| d pre IH] using rev_ind; intros post.
  { intros _. by exists false, []. }
  rewrite Forall_app, Forall_singleton. unfold is_digit at 2. intros [Hpre Hd].
  rewrite length_app, Nat.add_comm, <- app_assoc. cbn [length Nat.add carry_loop app].
  assert (Hat : byte_at (pre ++ d :: post) (Z.of_nat (length pre)) = d).
  { unfold byte_at. rewrite Nat2Z.id, app_nth2, Nat.sub_diag by lia. done. }
  assert (Hins : forall x, <[length pre := x]> (pre ++ d :: post) = pre ++ x :: post).
  { intros x. by rewrite insert_app_r_alt, Nat.sub_diag by lia. }
  rewrite Hat, !Hins. destruct (Z.eqb_spec d (NAME_ALPHABET - 1)) as [-> | Hne]; simpl negb.
  - destruct (IH (0 :: post) Hpre) as (b & pre' & Hrun & Hlen & Hdig & Hval).
    cbn match. rewrite Hrun. exists b, (pre' ++ [0]). rewrite <- app_assoc, length_app.
    split; [done |]. split; [simpl; lia |].
    split; [apply Forall_app; split; [done |]; by repeat constructor |].
    rewrite !digits_value_snoc. destruct b; [lia |]. destruct Hval as [-> Hz].
    split; [| apply Forall_app; split; [done |]; by repeat constructor].
    rewrite Nat2Z.inj_succ, Z.pow_succ_r by lia. lia.
  - cbn match. exists true, (pre ++ [d + 1]).
    rewrite <- app_assoc, length_app, !digits_value_snoc, u8_small by (unfold is_u8; lia).
    split; [done |]. split; [simpl; lia |]. split; [| lia].
    apply Forall_app. split; [done |]. constructor; [unfold is_digit; lia | done].
Qed.

Lemma shorter_names_S (n : nat) : (0 < n)%nat ->
  shorter_names (S n) = shorter_names n + NAME_ALPHABET ^ Z.of_nat n.
Proof. by destruct n; [lia |]. Qed.

Lemma name_rank_out (l : list Z) : Forall is_digit l ->
  name_rank ((fun d => u8 (97 + d)) <$> l) = shorter_names (length l) + digits_value l.
Proof.
  intros Hl. unfold name_rank. rewrite length_fmap, <- list_fmap_compose. do 2 f_equal.
  induction Hl as [| d l Hd _ IH]; [done |]. rewrite fmap_cons, IH. f_equal.
  unfold is_digit in Hd. simpl. rewrite u8_small by (unfold is_u8; lia). lia.
Qed.

Lemma shorter_names_mono (n m : nat) : (n <= m)%nat -> shorter_names n <= shorter_names m.
Proof.
  induction 1 as [| m Hle IH]; [done |]. destruct m as [| m]; [by destruct n |].
  rewrite shorter_names_S by lia. pose proof (Z.pow_nonneg NAME_ALPHABET (Z.of_nat (S m))). lia.
Qed.

(** Every call gives the name at the place of the generator, and moves it to
    the next place unless it is at the last one. *)
Lemma next_name_spec (gen : name_generator) : gen_ok gen ->
  exists b gen' name, next_name gen = (b, gen', name) /\
    name_rank name = gen_rank gen /\ zlen name = next_len gen /\
    (b = true <-> gen_rank gen < last_rank) /\
    (b = true -> gen_ok gen' /\ gen_rank gen' = gen_rank gen + 1).
Proof.
  intros [Hlen Hsz Hdig Hrest]. unfold next_name, gen_rank.
  fold (next_len gen). set (len := next_len gen) in *.
  assert (Hl : 1 <= len <= MAX_NAME_LEN).
  { unfold len, next_len. destruct (Z.eqb_spec (gen_len gen) 0); lia. }
  set (pre := sublist 0 len (gen_digits gen)).
  set (post := drop (Z.to_nat len) (gen_digits gen)) in *.
  assert (Hsplit : gen_digits gen = pre ++ post).
  { unfold pre, post, sublist. by rewrite drop_0, take_drop. }
  assert (Hpl : length pre = Z.to_nat len).
  { pose proof (zlen_sublist 0 len (gen_digits gen) ltac:(lia) ltac:(lia) ltac:(lia)) as Hp.
    unfold zlen in Hp. fold pre in Hp. lia. }
  assert (Hpd : Forall is_digit pre) by (by apply Forall_sublist).
  destruct (carry_loop_spec pre post Hpd) as (b & pre' & Hrun & Hlen' & Hdig' & Hval).
  rewrite Hpl, <- Hsplit in Hrun. rewrite Hrun.
  assert (Hsub : forall l, sublist 0 len (pre' ++ l) = pre').
  { intros l. unfold sublist. rewrite drop_0, take_app_le by lia. apply take_ge. lia. }
  assert (Hok' : zlen (pre' ++ post) = MAX_NAME_LEN /\ Forall is_digit (pre' ++ post)).
  { rewrite <- Hsz, Hsplit, !zlen_app. unfold zlen. rewrite Hlen'. split; [done |].
    rewrite Hsplit, Forall_app in Hdig. apply Forall_app. tauto. }
  pose proof (digits_value_range pre Hpd) as Hr.
  set (n := Z.to_nat len) in *. rewrite Hpl in *.
  assert (Hname : zlen ((fun d => u8 (97 + d)) <$> pre) = len)
    by (unfold zlen; rewrite length_fmap; lia).
  pose proof (name_rank_out pre Hpd) as Hrank. rewrite Hpl in Hrank.
  pose proof (shorter_names_S n ltac:(lia)) as HS.
  pose proof (shorter_names_mono (S n) (S (Z.to_nat MAX_NAME_LEN)) ltac:(lia)) as Hm.
  assert (Hlast : shorter_names (S n) <= last_rank + 1) by (unfold last_rank; lia). clear Hm.
  assert (Hdrop : drop n (pre' ++ post) = post) by (apply drop_app_length'; lia).
  assert (Hnl : forall l k, 0 < k -> next_len (mk_gen l k) = k).
  { intros l k Hk. unfold next_len. simpl. by destruct (Z.eqb_spec k 0); [lia |]. }
  destruct b; [| destruct (Z.eqb_spec len MAX_NAME_LEN) as [Hend | Hend]].
  - pose proof (digits_value_range pre' Hdig') as Hr'. rewrite Hlen' in Hr'.
    eexists true, _, _. split; [reflexivity |]. repeat (split; [done || lia |]).
    intros _. split; [split; simpl; rewrite ?Hnl by lia; try tauto; [lia | by fold n; rewrite Hdrop] |].
    rewrite Hnl by lia. simpl. rewrite Hsub. fold n. lia.
  - destruct Hval as [Hval _]. eexists false, _, _. split; [reflexivity |].
    repeat (split; [done || lia |]). split; [| done]. split; [done |].
    unfold last_rank. replace (Z.to_nat MAX_NAME_LEN) with n by (unfold n; lia). lia.
  - destruct Hval as [Hval Hz]. eexists true, _, _. split; [reflexivity |].
    pose proof (shorter_names_mono (S (S n)) (S (Z.to_nat MAX_NAME_LEN)) ltac:(lia)) as Hm.
    pose proof (shorter_names_S (S n) ltac:(lia)).
    pose proof (Z.pow_pos_nonneg NAME_ALPHABET (Z.of_nat (S n)) ltac:(lia) ltac:(lia)).
    repeat (split; [done || (unfold last_rank; lia) |]).
    assert (Hzero : Forall (eq 0) (pre' ++ post)) by (by apply Forall_app).
    intros _. split; [split; simpl; rewrite ?Hnl by lia; try tauto; [lia | by apply Forall_drop] |].
    rewrite Hnl by lia. simpl. rewrite digits_value_zeros by (by apply Forall_sublist).
    replace (Z.to_nat (len + 1)) with (S n) by lia. lia.
Qed.

(** The names of at most [n] calls, up to the one that reports the end. *)
Fixpoint names_from (n : nat) (gen : name_generator) : list (list Z) :=
  match n with
  | O => []
  | S n' =>
      let '(more, gen, name) := next_name gen in
      if (more : bool) then name :: names_from n' gen else []
  end.

Lemma gen_start_ok : gen_ok (mk_gen (fill MAX_NAME_LEN 0) 0).
Proof.
  split; simpl; [lia | done | apply Forall_fill; unfold is_digit; lia |].
  by repeat constructor.
Qed.

Lemma ranks_from (n : nat) (gen : name_generator) : gen_ok gen ->
  name_rank <$> names_from n gen =
  (fun i => gen_rank gen + Z.of_nat i) <$>
    seq 0 (Nat.min n (Z.to_nat (last_rank - gen_rank gen))).
Proof.
  revert gen. induction n as [| n IH]; intros gen Hok; [done |]. cbn [names_from].
  destruct (next_name_spec gen Hok) as (b & gen' & name & -> & Hrank & _ & Hb & Hnext).
  destruct b.
  - destruct (Hnext eq_refl) as [Hok' Hr']. pose proof (proj1 Hb eq_refl).
    rewrite fmap_cons, IH, Hr' by done.
    replace (Nat.min (S n) (Z.to_nat (last_rank - gen_rank gen)))
      with (S (Nat.min n (Z.to_nat (last_rank - (gen_rank gen + 1))))) by lia.
    cbn [seq]. rewrite fmap_cons, <- fmap_S_seq, <- list_fmap_compose.
    f_equal; [lia |]. apply list_fmap_ext. intros i x _. simpl. lia.
  - replace (Nat.min (S n) (Z.to_nat (last_rank - gen_rank gen))) with O; [done |].
    assert (~ gen_rank gen < last_rank) by (intros Hlt; by apply Hb in Hlt). lia.
Qed.

(** The names of the probe.  The sequence of the names that the probe tries is
    the enumeration of the words over a-z by length and then by letters, from
    the word "a" on: the ranks of the names are 0, 1, 2 and so on, so that no
    name is tried twice, and the sequence ends only before the last word of 31
    letters. *)
Theorem names_enumerated (n : nat) :
  name_rank <$> names_from n (probe_gen (probe_start 0)) =
  Z.of_nat <$> seq 0 (Nat.min n (Z.to_nat last_rank)).
Proof.
  change (probe_gen (probe_start 0)) with (mk_gen (fill MAX_NAME_LEN 0) 0).
  rewrite ranks_from by apply gen_start_ok.
  assert (Hz : gen_rank (mk_gen (fill MAX_NAME_LEN 0) 0) = 0) by done.
  rewrite Hz, Z.sub_0_r. apply list_fmap_ext. intros i x _. lia.
Qed.

(** ** The slots *)

(** The slots [live] are those that are marked in the table. *)
Record slots_ok (full live : list Z) : Prop := {
  so_full : zlen full = FFFS_SLOT_COUNT;
  so_distinct : NoDup live;
  so_usable : Forall (fun s => 1 <= s < UINT16_MAX) live;
  so_marked : forall s, 0 <= s < FFFS_SLOT_COUNT -> (s ∈ live <-> byte_at full s <> 0);
}.

#[global] Instance slots_ok_perm full : Proper ((≡ₚ) ==> iff) (slots_ok full).
Proof.
  assert (Himp : forall l l', l ≡ₚ l' -> slots_ok full l -> slots_ok full l').
  { intros l l' Hp [? Hn Hu Hm]. split; rewrite <- ?Hp; try done.
    intros s. rewrite <- Hp. apply Hm. }
  intros l l' Hp. split; by apply Himp.
Qed.

Lemma byte_at_mark full i j x : 0 <= i < zlen full -> 0 <= j ->
  byte_at (<[Z.to_nat i := x]> full) j = if i =? j then x else byte_at full j.
Proof.
  unfold zlen, byte_at. intros Hi Hj. rewrite !nth_lookup.
  destruct (Z.eqb_spec i j) as [-> | Hne].
  - by rewrite list_lookup_insert_eq by lia.
  - by rewrite list_lookup_insert_ne by lia.
Qed.

Lemma slots_ok_take full live slot : slots_ok full live ->
  1 <= slot < UINT16_MAX -> byte_at full slot = 0 ->
  slots_ok (<[Z.to_nat slot := 1]> full) (slot :: live).
Proof.
  intros [Hf Hn Hu Hm] Hs Hfree. split.
  - unfold zlen. by rewrite length_insert.
  - constructor; [| done]. intros Hin. by apply Hm in Hin; [| lia].
  - by constructor.
  - intros s Hr. rewrite byte_at_mark, elem_of_cons, (Hm s Hr) by lia.
    destruct (Z.eqb_spec slot s) as [-> | Hne]; [split; [lia | by left] |].
    split; [by intros [-> |] | by right].
Qed.

Lemma slots_ok_free full live slot : slots_ok full (slot :: live) ->
  slots_ok (<[Z.to_nat slot := 0]> full) live.
Proof.
  intros [Hf Hn Hu Hm]. apply NoDup_cons in Hn as [Hnot Hn].
  apply Forall_cons in Hu as [Hs Hu]. split; try done.
  - unfold zlen. by rewrite length_insert.
  - intros s Hr. rewrite byte_at_mark by lia. specialize (Hm s Hr).
    rewrite elem_of_cons in Hm. destruct (Z.eqb_spec slot s) as [-> | Hne]; [done |].
    rewrite <- Hm. split; [by right | by intros [-> |]].
Qed.

(** There are never more live slots than usable ones. *)
Lemma slots_ok_count full live : slots_ok full live -> zlen live <= FFFS_USABLE_SLOTS.
Proof.
  intros [_ Hn Hu _].
  assert (Hsub : live ⊆+ (Z.of_nat <$> seq 1 (Z.to_nat FFFS_USABLE_SLOTS))).
  { apply NoDup_submseteq; [done |]. intros s Hs. rewrite Forall_forall in Hu.
    specialize (Hu s Hs). apply list_elem_of_fmap. exists (Z.to_nat s).
    rewrite elem_of_seq. lia. }
  apply submseteq_length in Hsub. rewrite length_fmap, length_seq in Hsub.
  unfold zlen. lia.
Qed.

(** Removing an entry by moving the last one into its place. *)
Lemma swap_remove_perm (l : list Z) (last y : Z) (i : nat) :
  (l ++ [last]) !! i = Some y ->
  y :: take (length l) (<[i := last]> (l ++ [last])) ≡ₚ l ++ [last].
Proof.
  intros Hi. destruct (decide (i < length l)%nat) as [Hlt | Hge].
  - rewrite lookup_app_l in Hi by done. rewrite insert_app_l by done.
    rewrite take_app_le by (by rewrite length_insert).
    rewrite take_ge by (by rewrite length_insert).
    apply list_elem_of_split_length in Hi as (a & b & -> & ->).
    rewrite insert_app_r_alt, Nat.sub_diag by lia. simpl.
    rewrite <- (Permutation_cons_append (a ++ y :: b) last), <- !Permutation_middle.
    constructor.
  - apply lookup_lt_Some in Hi as Hl. rewrite length_app in Hl. simpl in Hl.
    assert (i = length l) as -> by lia.
    rewrite lookup_app_r, Nat.sub_diag in Hi by lia. injection Hi as ->.
    rewrite insert_app_r_alt, Nat.sub_diag by lia. simpl.
    rewrite take_app_length. by rewrite Permutation_app_comm.
Qed.

(** The insertion takes the first free candidate of the window, and fails only
    when the window has none. *)
Definition first_free (full : list Z) (base probe_limit : Z) (slot : Z) : Prop :=
  exists d : nat, Z.of_nat d <= probe_limit /\ slot = probe_slot base d /\
    byte_at full slot = 0 /\
    forall e : nat, (e < d)%nat -> byte_at full (probe_slot base e) <> 0.

Definition window_full (full : list Z) (base probe_limit : Z) : Prop :=
  forall d : nat, Z.of_nat d <= probe_limit -> byte_at full (probe_slot base d) <> 0.

Lemma resolve_insert_spec full base probe_limit : 0 <= probe_limit ->
  match resolve_insert base probe_limit full with
  | Some (slot, full') => first_free full base probe_limit slot /\
                          full' = <[Z.to_nat slot := 1]> full
  | None => window_full full base probe_limit
  end.
Proof.
  intros Hl. unfold resolve_insert.
  assert (Hgen : forall n k, Z.of_nat (k + n) = probe_limit + 1 ->
    (forall e, (e < k)%nat -> byte_at full (probe_slot base e) <> 0) ->
    match resolve_insert_loop n (probe_slot base k) full with
    | Some (slot, full') => first_free full base probe_limit slot /\
                            full' = <[Z.to_nat slot := 1]> full
    | None => window_full full base probe_limit
    end).
  { induction n as [| n IH]; intros k Hk Hbusy; cbn [resolve_insert_loop].
    - intros d Hd. apply Hbusy. lia.
    - destruct (Z.eqb_spec (byte_at full (probe_slot base k)) 0) as [Hfree | Hfull].
      + split; [| done]. exists k. repeat split; [lia | done..].
      + apply (IH (S k)); [lia |]. intros e He.
        destruct (decide (e = k)) as [-> | Hne]; [done | apply Hbusy; lia]. }
  apply (Hgen _ O); [lia |]. intros e He. lia.
Qed.

Lemma base_slot_range source rng name base rng' :
  base_slot_for_name source rng name = (base, rng') -> 1 <= base < UINT16_MAX.
Proof.
  unfold base_slot_for_name. destruct source; [| destruct (random_u64 rng)];
    intros [= <- <-]; apply normalize_range; [apply hash16_range | apply u16_range].
Qed.

Lemma first_free_range full base probe_limit slot : 1 <= base < UINT16_MAX ->
  first_free full base probe_limit slot -> 1 <= slot < UINT16_MAX /\ byte_at full slot = 0.
Proof.
  intros Hb (d & _ & -> & Hfree & _). split; [by apply probe_slot_range | done].
Qed.

(** ** The state of the probe *)

Definition live_slots (s : probe_state) : list Z :=
  take (Z.to_nat (occupied_count s)) (occupied_slots s).

(** The first [occupied_count] entries are exactly the marked slots, once each. *)
Record probe_ok (s : probe_state) : Prop := {
  po_count : 0 <= occupied_count s;
  po_array : zlen (occupied_slots s) = FFFS_USABLE_SLOTS + 1;
  po_slots : slots_ok (slot_full s) (live_slots s);
  po_gen : gen_ok (probe_gen s);
}.

Lemma probe_count_bound s : probe_ok s -> occupied_count s <= FFFS_USABLE_SLOTS.
Proof.
  intros [Hc Ha Hs _]. pose proof (slots_ok_count _ _ Hs) as Hb. revert Hb.
  unfold zlen, live_slots in *. rewrite length_take. lia.
Qed.

(** Appending a slot that was free. *)
Lemma insert_slot_ok s slot : probe_ok s ->
  1 <= slot < UINT16_MAX -> byte_at (slot_full s) slot = 0 ->
  let occupied := <[Z.to_nat (occupied_count s) := slot]> (occupied_slots s) in
  zlen occupied = FFFS_USABLE_SLOTS + 1 /\
  take (Z.to_nat (occupied_count s + 1)) occupied = live_slots s ++ [slot] /\
  slots_ok (<[Z.to_nat slot := 1]> (slot_full s)) (live_slots s ++ [slot]) /\
  occupied_count s + 1 <= FFFS_USABLE_SLOTS.
Proof.
  intros Hok Hslot Hfree occupied. pose proof (probe_count_bound s Hok) as Hb.
  destruct Hok as [Hc Ha Hs _].
  assert (Htake : take (Z.to_nat (occupied_count s + 1)) occupied = live_slots s ++ [slot]).
  { unfold occupied. rewrite Z2Nat.inj_add, Nat.add_1_r by lia.
    erewrite take_S_r by (apply list_lookup_insert_eq; unfold zlen in Ha; lia).
    by rewrite take_insert_ge by lia. }
  assert (Hs' : slots_ok (<[Z.to_nat slot := 1]> (slot_full s)) (live_slots s ++ [slot])).
  { rewrite <- Permutation_cons_append. by apply slots_ok_take. }
  repeat (split; [done || (unfold occupied, zlen; by rewrite length_insert) |]).
  pose proof (slots_ok_count _ _ Hs') as Hb'. revert Hb'.
  rewrite zlen_app. unfold zlen, live_slots in *. rewrite length_take. simpl. lia.
Qed.

Lemma random_u64_range state r state' : random_u64 state = (r, state') -> 0 <= r < 2 ^ 64.
Proof.
  unfold random_u64. set (z := usz (Z.lxor _ _ * 0x94d049bb133111eb)). intros [= <- _].
  assert (Hz : 0 <= z < 2 ^ 64) by (apply Z.mod_pos_bound; lia).
  apply lxor_bound; [lia | done |]. rewrite Z.shiftr_div_pow2 by lia.
  split; [apply Z.div_pos; lia |]. apply Z.div_lt_upper_bound; lia.
Qed.

(** The scaled random number is an index of the array. *)
Lemma delete_pos_range r count : 0 <= r < 2 ^ 64 -> 0 < count < 2 ^ 32 ->
  0 <= u32 (Z.shiftr (usz (Z.shiftr r 32 * count)) 32) < count.
Proof.
  intros Hr Hc. rewrite !Z.shiftr_div_pow2 by lia.
  assert (Hq : 0 <= r / 2 ^ 32 < 2 ^ 32)
    by (split; [apply Z.div_pos; lia | apply Z.div_lt_upper_bound; lia]).
  assert (Hprod : 0 <= r / 2 ^ 32 * count < 2 ^ 64) by nia.
  rewrite usz_small by done.
  assert (Hd : 0 <= r / 2 ^ 32 * count / 2 ^ 32 < count)
    by (split; [apply Z.div_pos; lia | apply Z.div_lt_upper_bound; nia]).
  rewrite u32_small by (unfold is_u32; lia). done.
Qed.

Lemma usz_add_l a b : usz (usz a + b) = usz (a + b).
Proof. apply Zplus_mod_idemp_l. Qed.

Section Steps.
Context (source : slot_source) (probe_limit : Z) (Hlimit : 0 <= probe_limit).

Lemma prime_step_ok s s' : probe_ok s -> prime_step source probe_limit s = Some s' ->
  probe_ok s' /\ occupied_count s <= occupied_count s' <= occupied_count s + 1 /\
  gen_rank (probe_gen s') = gen_rank (probe_gen s) + 1.
Proof.
  intros Hok. pose proof Hok as [Hc Ha Hs Hg]. unfold prime_step.
  destruct (next_name_spec _ Hg) as (b & gen' & name & -> & _ & _ & _ & Hnext).
  destruct b; [| done]. destruct (Hnext eq_refl) as [Hg' Hrank]. simpl negb. cbv iota.
  destruct (base_slot_for_name source (base_rng s) name) as [base rng] eqn:Hbase.
  apply base_slot_range in Hbase.
  pose proof (resolve_insert_spec (slot_full s) base probe_limit Hlimit) as Hins.
  destruct (resolve_insert base probe_limit (slot_full s)) as [[slot full] |].
  - destruct Hins as [Hff ->]. apply first_free_range in Hff as [Hslot Hfree]; [| done].
    destruct (insert_slot_ok s slot Hok Hslot Hfree) as (Harr & Htake & Hs' & Hmax).
    assert (Hu : u32 (occupied_count s + 1) = occupied_count s + 1)
      by (apply u32_small; unfold is_u32; lia).
    intros [= <-]. rewrite Hu. split; [| simpl; lia].
    split; simpl; [lia | done | unfold live_slots; simpl; by rewrite Htake | done].
  - intros [= <-]. split; [by split | simpl; lia].
Qed.

Lemma churn_step_ok s s' : probe_ok s -> churn_step source probe_limit s = Some s' ->
  probe_ok s' /\ occupied_count s' = occupied_count s /\
  probe_attempts s' = usz (probe_attempts s + 1) /\
  ((probe_inserts s' = usz (probe_inserts s + 1) /\ probe_failures s' = probe_failures s) \/
   (probe_inserts s' = probe_inserts s /\ probe_failures s' = usz (probe_failures s + 1))).
Proof.
  intros Hok. pose proof Hok as [Hc Ha Hs Hg]. unfold churn_step.
  destruct (next_name_spec _ Hg) as (b & gen' & name & -> & _ & _ & _ & Hnext).
  destruct b; [| done]. destruct (Hnext eq_refl) as [Hg' _]. simpl negb. cbv iota.
  destruct (base_slot_for_name source (base_rng s) name) as [base rng] eqn:Hbase.
  apply base_slot_range in Hbase.
  pose proof (resolve_insert_spec (slot_full s) base probe_limit Hlimit) as Hins.
  destruct (resolve_insert base probe_limit (slot_full s)) as [[slot full] |].
  2: { intros [= <-]. split; [by split | auto]. }
  destruct Hins as [Hff ->]. apply first_free_range in Hff as [Hslot Hfree]; [| done].
  destruct (insert_slot_ok s slot Hok Hslot Hfree) as (Harr & Htake & Hs' & Hmax).
  assert (Hu : u32 (occupied_count s + 1) = occupied_count s + 1)
    by (apply u32_small; unfold is_u32; lia).
  rewrite Hu. set (count := occupied_count s + 1) in *.
  set (occupied := <[Z.to_nat (occupied_count s) := slot]> (occupied_slots s)) in *.
  destruct (random_u64 (delete_rng s)) as [r del_rng] eqn:Hr. apply random_u64_range in Hr.
  pose proof (delete_pos_range r count Hr ltac:(lia)) as Hpos.
  set (pos := u32 (Z.shiftr _ 32)) in *. intros Heq. apply (inj Some) in Heq as <-.
  split; [| simpl; split; [lia | auto]].
  assert (Hlen : length (live_slots s) = Z.to_nat (count - 1)).
  { unfold live_slots, count, zlen in *. rewrite length_take. lia. }
  assert (Hlt : Z.of_nat (length occupied) = FFFS_USABLE_SLOTS + 1) by exact Harr.
  (* entries below the count are those of the live slots *)
  assert (Hat : forall i, 0 <= i < count ->
    (live_slots s ++ [slot]) !! Z.to_nat i = Some (byte_at occupied i)).
  { intros i Hi. rewrite <- Htake, lookup_take_lt by lia. unfold byte_at.
    rewrite nth_lookup. destruct (lookup_lt_is_Some_2 occupied (Z.to_nat i)) as [x ->];
      [lia | done]. }
  assert (Hlast : byte_at occupied (count - 1) = slot).
  { pose proof (Hat (count - 1) ltac:(lia)) as Hl.
    rewrite <- Hlen, lookup_app_r, Nat.sub_diag in Hl by done. by injection Hl. }
  rewrite Hlast. pose proof (swap_remove_perm _ slot _ _ (Hat pos Hpos)) as Hperm.
  split; cbn [occupied_count occupied_slots slot_full probe_gen].
  1: lia.
  1: { rewrite <- Harr. unfold zlen. by rewrite length_insert. }
  2: exact Hg'.
  apply slots_ok_free. rewrite <- Hperm, Hlen, <- Htake in Hs'.
  rewrite <- take_insert_lt, take_take, Nat.min_l in Hs' by lia. exact Hs'.
Qed.

Lemma prime_loop_ok n live_count s s' : probe_ok s -> occupied_count s <= live_count ->
  prime_loop source probe_limit n live_count s = Some (Some s') ->
  probe_ok s' /\ occupied_count s' = live_count.
Proof.
  revert s. induction n as [| n IH]; intros s Hok Hle; cbn [prime_loop];
    destruct (Z.ltb_spec (occupied_count s) live_count) as [Hlt | Hge]; simpl negb; try done;
    try (intros Heq; apply (inj Some), (inj Some) in Heq as <-; split; [done | lia]).
  destruct (prime_step source probe_limit s) as [s1 |] eqn:Hstep; [| done].
  apply prime_step_ok in Hstep as (Hok1 & Hc1 & _); [| done]. apply IH; [done | lia].
Qed.

(** Every round uses a name, and there are finitely many. *)
Lemma prime_loop_total n live_count s : probe_ok s ->
  (Z.to_nat (last_rank - gen_rank (probe_gen s)) < n)%nat ->
  exists r, prime_loop source probe_limit n live_count s = Some r.
Proof.
  revert s. induction n as [| n IH]; intros s Hok Hn; [lia |]. cbn [prime_loop].
  destruct (Z.ltb_spec (occupied_count s) live_count) as [Hlt | Hge]; simpl negb; [| eauto].
  destruct (prime_step source probe_limit s) as [s1 |] eqn:Hstep; [| eauto].
  assert (Hmore : gen_rank (probe_gen s) < last_rank).
  { revert Hstep. unfold prime_step.
    destruct (next_name_spec _ (po_gen _ Hok)) as (b & g & name & -> & _ & _ & Hb & _).
    destruct b; [intros _; by apply Hb | done]. }
  apply prime_step_ok in Hstep as (Hok1 & _ & Hr1); [| done]. apply IH; [done | lia].
Qed.

Lemma churn_loop_ok n s s' : probe_ok s -> churn_loop source probe_limit n s = Some s' ->
  probe_ok s' /\ occupied_count s' = occupied_count s /\
  usz (probe_attempts s') = usz (probe_attempts s + Z.of_nat n) /\
  usz (probe_inserts s' + probe_failures s') =
    usz (probe_inserts s + probe_failures s + Z.of_nat n).
Proof.
  revert s. induction n as [| n IH]; intros s Hok; cbn [churn_loop].
  { intros Heq. apply (inj Some) in Heq as <-. by rewrite !Z.add_0_r. }
  destruct (churn_step source probe_limit s) as [s1 |] eqn:Hstep; [| done].
  apply churn_step_ok in Hstep as (Hok1 & Hc1 & Ha1 & Hcnt); [| done]. intros Hrun.
  destruct (IH s1 Hok1 Hrun) as (Hok' & Hc' & Ha' & Hsum).
  rewrite Hc', Ha', Hsum, Ha1, !usz_add_l. split; [done |]. split; [done |].
  split; [f_equal; lia |].
  destruct Hcnt as [[-> ->] | [-> ->]].
  - rewrite <- Z.add_assoc, usz_add_l. f_equal. lia.
  - rewrite (Z.add_comm (probe_inserts s)), <- Z.add_assoc, usz_add_l. f_equal. lia.
Qed.
End Steps.

(** The arrays are variables here, so that no conversion evaluates them. *)
Lemma empty_probe_ok full slots gen base del a i f :
  full = fill FFFS_SLOT_COUNT 0 -> zlen slots = FFFS_USABLE_SLOTS + 1 -> gen_ok gen ->
  probe_ok (mk_probe full slots 0 gen base del a i f).
Proof.
  intros Hfull Hslots Hgen. split; [apply Z.le_refl | exact Hslots | | exact Hgen].
  unfold live_slots. cbn [slot_full occupied_slots occupied_count].
  rewrite Z2Nat.inj_0, take_0. split; [| constructor | constructor |].
  - rewrite Hfull. by apply zlen_fill.
  - intros s Hs. rewrite Hfull, byte_at_fill by exact Hs.
    split; [intros Hin; inversion Hin | intros Hne; by destruct Hne].
Qed.

Lemma probe_start_ok seed32 : probe_ok (probe_start seed32).
Proof.
  unfold probe_start. apply empty_probe_ok; [reflexivity | by apply zlen_fill | apply gen_start_ok].
Qed.

(** The live slots.  Whatever the names, the random numbers and the probe limit,
    after the slots are filled and after any number of rounds of churn the
    probe has exactly [live_count] live files, and the first [occupied_count]
    entries of its array are exactly the slots that its table marks, all usable
    and each once; every round is counted as an insertion or as a failure.  The
    deletion that follows an insertion keeps this by moving the last entry into
    the deleted one's place. *)
Theorem probe_keeps_live (fuel rounds : nat) source (live_count probe_limit seed32 : Z) s :
  0 <= live_count -> 0 <= probe_limit ->
  probe_main fuel rounds source live_count probe_limit seed32 = Some (inr s) ->
  probe_ok s /\ occupied_count s = live_count /\
  usz (probe_attempts s) = usz (Z.of_nat rounds) /\
  usz (probe_inserts s + probe_failures s) = usz (Z.of_nat rounds).
Proof.
  intros Hlive Hlimit. unfold probe_main.
  destruct (FFFS_USABLE_SLOTS <? live_count); [done |].
  destruct (FFFS_USABLE_SLOTS <=? probe_limit); [done |].
  destruct (prime_loop source probe_limit fuel live_count (probe_start seed32))
    as [[s1 |] |] eqn:Hprime; [| done..].
  apply prime_loop_ok in Hprime as [Hok1 Hc1]; [| done | apply probe_start_ok | done].
  destruct (churn_loop _ _ rounds _) as [s2 |] eqn:Hchurn; [| done].
  intros Heq. apply (inj Some), (inj inr) in Heq as <-.
  apply churn_loop_ok in Hchurn as (Hok2 & Hc2 & Ha2 & Hs2); [| done |].
  - rewrite Hs2, Ha2, Hc2. done.
  - destruct Hok1. by split.
Qed.

Lemma probe_keeps_live_witness :
  exists s, probe_main 100 20 SLOT_SOURCE_HASH 8 1 7 = Some (inr s) /\
    occupied_count s = 8.
Proof.
  assert (Hruns : match probe_main 100 20 SLOT_SOURCE_HASH 8 1 7 with
                  | Some (inr _) => true | _ => false end = true) by (vm_compute; reflexivity).
  destruct (probe_main 100 20 SLOT_SOURCE_HASH 8 1 7) as [[c | s] |] eqn:Hrun;
    [discriminate Hruns | | discriminate Hruns].
  exists s. split; [reflexivity |].
  exact (proj1 (proj2 (probe_keeps_live 100 20 SLOT_SOURCE_HASH 8 1 7 s
    ltac:(lia) ltac:(lia) Hrun))).
Defined.

(** The loop that fills the slots ends.  With one round for every name, the
    probe gets past its first loop, or reports that the names are exhausted. *)
Theorem prime_terminates (fuel rounds : nat) source (live_count probe_limit seed32 : Z) :
  0 <= probe_limit -> (Z.to_nat last_rank < fuel)%nat ->
  exists r, probe_main fuel rounds source live_count probe_limit seed32 = Some r.
Proof.
  intros Hlimit Hfuel. unfold probe_main.
  destruct (FFFS_USABLE_SLOTS <? live_count); [eauto |].
  destruct (FFFS_USABLE_SLOTS <=? probe_limit); [eauto |].
  destruct (prime_loop_total source probe_limit Hlimit fuel live_count (probe_start seed32)
    (probe_start_ok _)) as [[s |] ->]; [| | eauto].
  - change (gen_rank (probe_gen (probe_start seed32))) with 0. lia.
  - destruct (churn_loop _ _ _ _); eauto.
Qed.

Lemma prime_terminates_witness :
  exists r, probe_main (S (Z.to_nat last_rank)) 20 SLOT_SOURCE_RANDOM16 8 1 7 = Some r.
Proof. apply (prime_terminates _ 20 SLOT_SOURCE_RANDOM16 8 1 7); lia. Defined.

(** The insertion.  It takes the first free slot of the probe window of the
    name's base, leaves all other slots, and fails exactly when all slots of
    the window are taken. *)
Theorem resolve_insert_first_free (full : list Z) (source : slot_source) (rng : Z)
    (name : list Z) (probe_limit : Z) :
  0 <= probe_limit -> zlen full = FFFS_SLOT_COUNT ->
  let base := fst (base_slot_for_name source rng name) in
  match resolve_insert base probe_limit full with
  | Some (slot, full') =>
      first_free full base probe_limit slot /\ 1 <= slot < UINT16_MAX /\
      forall s, 0 <= s -> byte_at full' s = if slot =? s then 1 else byte_at full s
  | None => window_full full base probe_limit
  end.
Proof.
  intros Hlimit Hlen base. subst base.
  destruct (base_slot_for_name source rng name) as [base rng'] eqn:Hbase. cbn [fst].
  apply base_slot_range in Hbase.
  pose proof (resolve_insert_spec full base probe_limit Hlimit) as Hins.
  destruct (resolve_insert base probe_limit full) as [[slot full'] |]; [| done].
  destruct Hins as [Hff ->]. pose proof (first_free_range _ _ _ _ Hbase Hff) as [Hs _].
  split; [done |]. split; [done |]. intros s Hs0. apply byte_at_mark; lia.
Qed.

Lemma resolve_insert_first_free_witness :
  zlen (fill FFFS_SLOT_COUNT 1) = FFFS_SLOT_COUNT /\
  window_full (fill FFFS_SLOT_COUNT 1) (fst (base_slot_for_name SLOT_SOURCE_HASH 0 [97])) 3.
Proof.
  assert (Hlen : zlen (fill FFFS_SLOT_COUNT 1) = FFFS_SLOT_COUNT) by (apply zlen_fill; lia).
  split; [exact Hlen |].
  pose proof (resolve_insert_first_free (fill FFFS_SLOT_COUNT 1) SLOT_SOURCE_HASH 0 [97] 3
    ltac:(lia) Hlen) as Hspec.
  assert (Hrun : resolve_insert (fst (base_slot_for_name SLOT_SOURCE_HASH 0 [97])) 3
    (fill FFFS_SLOT_COUNT 1) = None) by (vm_compute; reflexivity).
  cbv zeta in Hspec. rewrite Hrun in Hspec. exact Hspec.
Defined.
