(* ===== verification/ChurnModel.v ===== *)
(** * The churn model

    [src/benchmarks/churn_model/churn_model.c]: a deterministic generator of
    file writes and deletions around a target of live bytes.  The caller asks
    for an event, executes it and applies it to the model.

    The slots are the list [ch_slots], of length [slot_count]; a name is the
    bytes of the string without its terminating zero. *)

From Stdlib Require Import String.
From S2P Require Export Workload.

#[local] Open Scope Z_scope.

(** ** Data *)

Abbreviation BENCH_CHURN_MAX_FILES := 256.
Abbreviation BENCH_CHURN_NAME_LEN := 24.

Inductive bench_churn_class_t : Type :=
| BENCH_CHURN_CLASS_SMALL
| BENCH_CHURN_CLASS_MEDIUM
| BENCH_CHURN_CLASS_LARGE.

#[global] Instance churn_class_eq_dec : EqDecision bench_churn_class_t.
Proof. solve_decision. Defined.

Inductive bench_churn_event_type_t : Type :=
| BENCH_CHURN_EVENT_DONE
| BENCH_CHURN_EVENT_DELETE
| BENCH_CHURN_EVENT_WRITE
| BENCH_CHURN_EVENT_NO_SLOT.

Record bench_churn_slot_t : Type := mk_cslot {
  cs_live : bool;
  cs_cls : bench_churn_class_t;
  cs_size : Z;
  cs_write_seed : Z;
  cs_name : list Z;
}.

Definition cslot_zero : bench_churn_slot_t :=
  mk_cslot false BENCH_CHURN_CLASS_SMALL 0 0 [].

Record bench_churn_event_t : Type := mk_event {
  ev_type : bench_churn_event_type_t;
  ev_slot : Z;
  ev_cls : bench_churn_class_t;
  ev_size : Z;
  ev_old_size : Z;
  ev_write_seed : Z;
  ev_replacing : bool;
  ev_name : list Z;
}.

(** The event that is only a type, after the [memset]. *)
Definition bare_event (type : bench_churn_event_type_t) (slot : Z) : bench_churn_event_t :=
  mk_event type slot BENCH_CHURN_CLASS_SMALL 0 0 0 false [].

Record bench_churn_class_profile_t : Type := mk_class_profile {
  cp_name : list Z;
  cp_weight : Z;
  cp_min_size : Z;
  cp_max_size : Z;
}.

Record bench_churn_profile_t : Type := mk_profile {
  pf_name_prefix : option (list Z);
  pf_replace_percent : Z;
  pf_protect_first_large : bool;
  pf_small : bench_churn_class_profile_t;
  pf_medium : bench_churn_class_profile_t;
  pf_large : bench_churn_class_profile_t;
}.

(** The [classes] array, with the class of each index. *)
Definition pf_classes (p : bench_churn_profile_t)
  : list (bench_churn_class_t * bench_churn_class_profile_t) :=
  [(BENCH_CHURN_CLASS_SMALL, pf_small p); (BENCH_CHURN_CLASS_MEDIUM, pf_medium p);
   (BENCH_CHURN_CLASS_LARGE, pf_large p)].

(** The targets, which a run does not change. *)
Record churn_targets : Type := mk_targets {
  target_live_bytes : Z;
  target_written_bytes : Z;
  target_slack_bytes : Z;
  force_large_after_bytes : Z;
}.

(** The counters. *)
Record churn_counts : Type := mk_counts {
  total_written : Z;
  live_bytes : Z;
  op_count : Z;
  create_count : Z;
  replace_count : Z;
  delete_count : Z;
  live_file_count : Z;
  live_file_samples : Z;
  live_file_sum : Z;
}.

(** The write that is under way. *)
Record churn_pending : Type := mk_pending {
  pending_write : bool;
  optional_delete_checked : bool;
  slot_chosen : bool;
  pending_replacing : bool;
  pending_slot : Z;
  pending_cls : bench_churn_class_t;
  pending_size : Z;
}.

(** [bench_churn_model_t], its fields grouped. *)
Record bench_churn_model_t : Type := mk_churn {
  ch_seed : Z;
  ch_state : Z;
  ch_targets : churn_targets;
  ch_counts : churn_counts;
  forced_large_written : bool;
  ch_pending : churn_pending;
  protected_large_slot : Z;
  ch_profile : bench_churn_profile_t;
  ch_slots : list bench_churn_slot_t;
}.

Definition set_ch_state (v : Z) (m : bench_churn_model_t) : bench_churn_model_t :=
  mk_churn (ch_seed m) v (ch_targets m) (ch_counts m) (forced_large_written m)
    (ch_pending m) (protected_large_slot m) (ch_profile m) (ch_slots m).

Definition set_ch_pending (v : churn_pending) (m : bench_churn_model_t)
  : bench_churn_model_t :=
  mk_churn (ch_seed m) (ch_state m) (ch_targets m) (ch_counts m)
    (forced_large_written m) v (protected_large_slot m) (ch_profile m) (ch_slots m).

Definition set_forced_large (m : bench_churn_model_t) : bench_churn_model_t :=
  mk_churn (ch_seed m) (ch_state m) (ch_targets m) (ch_counts m) true
    (ch_pending m) (protected_large_slot m) (ch_profile m) (ch_slots m).

(** [slots[i]] *)
Definition slot_at (m : bench_churn_model_t) (i : Z) : bench_churn_slot_t :=
  nth (Z.to_nat i) (ch_slots m) cslot_zero.

Definition default_profile : bench_churn_profile_t :=
  mk_profile (Some (bytes_of_string "w"%string)) 25 true
    (mk_class_profile (bytes_of_string "small_10_20k"%string) 800 (10 * 1024) (20 * 1024))
    (mk_class_profile (bytes_of_string "medium_20_60k"%string) 150 (20 * 1024) (60 * 1024))
    (mk_class_profile (bytes_of_string "large_350k"%string) 50 (350 * 1024) (350 * 1024)).

(** ** Random choices *)

(** The number, which is also the new [state]. *)
Definition prng_next (m : bench_churn_model_t) : Z * bench_churn_model_t :=
  let r := u32 (ch_state m * 1664525 + 1013904223) in
  (r, set_ch_state r m).

Definition total_class_weight (classes : list (bench_churn_class_t * bench_churn_class_profile_t))
  : Z := foldl (fun acc c => u32 (acc + cp_weight (snd c))) 0 classes.

(** The class in whose weight [r] falls. *)
Fixpoint class_at (classes : list (bench_churn_class_t * bench_churn_class_profile_t)) (r : Z)
  : option (bench_churn_class_t * bench_churn_class_profile_t) :=
  match classes with
  | [] => None
  | (cls, profile) :: classes =>
      if cp_weight profile <=? r then class_at classes (r - cp_weight profile)
      else Some (cls, profile)
  end.

(** The size, the class and the model. *)
Definition choose_churn_size (m : bench_churn_model_t)
  : Z * bench_churn_class_t * bench_churn_model_t :=
  let classes := pf_classes (ch_profile m) in
  let total_weight := total_class_weight classes in
  if total_weight =? 0 then (0, BENCH_CHURN_CLASS_SMALL, m)
  else
    let (r, m) := prng_next m in
    match class_at classes (r mod total_weight) with
    | Some (cls, profile) =>
        if cp_max_size profile <=? cp_min_size profile
        then (cp_min_size profile, cls, m)
        else let (r, m) := prng_next m in
             (u32 (cp_min_size profile +
                r mod u32 (cp_max_size profile - cp_min_size profile + 1)), cls, m)
    | None => (cp_min_size (pf_small (ch_profile m)), BENCH_CHURN_CLASS_SMALL, m)
    end.

(** The slots with their indices. *)
Definition indexed_slots (m : bench_churn_model_t) : list (Z * bench_churn_slot_t) :=
  imap (fun i s => (Z.of_nat i, s)) (ch_slots m).

(** The first slot that satisfies the test, or -1. *)
Definition find_slot (f : Z * bench_churn_slot_t -> bool)
    (slots : list (Z * bench_churn_slot_t)) : Z :=
  match List.find f slots with Some (i, _) => i | None => -1 end.

Definition find_free_slot (m : bench_churn_model_t) : Z :=
  find_slot (fun s => negb (cs_live (snd s))) (indexed_slots m).

(** Live, and not the protected slot. *)
Definition is_candidate (m : bench_churn_model_t) (s : Z * bench_churn_slot_t) : bool :=
  cs_live (snd s) && negb (fst s =? protected_large_slot m).

(** The protected slot, when nothing else is live. *)
Definition fallback_slot (m : bench_churn_model_t) : Z :=
  if (0 <=? protected_large_slot m) && cs_live (slot_at m (protected_large_slot m))
  then protected_large_slot m else -1.

Definition choose_live_slot (m : bench_churn_model_t) : Z * bench_churn_model_t :=
  let candidates := List.filter (is_candidate m) (indexed_slots m) in
  let live_count := zlen candidates in
  if live_count =? 0 then (fallback_slot m, m)
  else
    let (r, m) := prng_next m in
    match candidates !! Z.to_nat (r mod live_count) with
    | Some (i, _) => (i, m)
    | None => (-1, m)
    end.

Definition delete_weight (s : bench_churn_slot_t) : Z :=
  let weight := cs_size s / 4096 in
  if weight =? 0 then 1 else weight.

(** The candidate in whose weight [target] falls, or -1. *)
Fixpoint weighted_slot (candidates : list (Z * bench_churn_slot_t)) (target : Z) : Z :=
  match candidates with
  | [] => -1
  | (i, s) :: candidates =>
      if target <? delete_weight s then i
      else weighted_slot candidates (target - delete_weight s)
  end.

Definition choose_delete_slot (m : bench_churn_model_t) : Z * bench_churn_model_t :=
  let candidates := List.filter (is_candidate m) (indexed_slots m) in
  let total_weight := foldl (fun acc s => u32 (acc + delete_weight (snd s))) 0 candidates in
  if total_weight =? 0 then (fallback_slot m, m)
  else let (r, m) := prng_next m in (weighted_slot candidates (r mod total_weight), m).

(** ** Events *)

(** [snprintf("%0<width>x")] *)
Fixpoint hex_loop (k : nat) (width n : Z) (acc : list Z) : list Z :=
  match k with
  | O => acc
  | S k' =>
      if (n =? 0) && (width <=? 0) then acc
      else let d := n mod 16 in
           hex_loop k' (width - 1) (n / 16) ((if d <? 10 then 48 + d else 87 + d) :: acc)
  end.

Definition hexadecimal (width n : Z) : list Z := hex_loop 16 width n [].

(** [snprintf] into a name field cuts the string. *)
Definition fit_name (name : list Z) : list Z :=
  take (Z.to_nat (BENCH_CHURN_NAME_LEN - 1)) name.

Definition fill_delete_event (m : bench_churn_model_t) (slot : Z) : bench_churn_event_t :=
  let s := slot_at m slot in
  mk_event BENCH_CHURN_EVENT_DELETE slot (cs_cls s) (cs_size s) 0 0 false
    (fit_name (cs_name s)).

Definition new_name (m : bench_churn_model_t) (slot seed : Z) : list Z :=
  fit_name (default (bytes_of_string "w"%string) (pf_name_prefix (ch_profile m)) ++
    decimal 4 slot ++ bytes_of_string "-"%string ++ hexadecimal 8 seed ++ bytes_of_string ".bin"%string).

Definition fill_write_event (m : bench_churn_model_t) : bench_churn_event_t :=
  let p := ch_pending m in
  let s := slot_at m (pending_slot p) in
  let seed := Z.lxor (total_written (ch_counts m)) (u32 (pending_slot p)) in
  mk_event BENCH_CHURN_EVENT_WRITE (pending_slot p) (pending_cls p) (pending_size p)
    (if pending_replacing p then cs_size s else 0) seed (pending_replacing p)
    (if pending_replacing p then fit_name (cs_name s)
     else new_name m (pending_slot p) seed).

(** ** Initialisation *)

Definition bench_churn_model_init_profile (seed : Z) (targets : churn_targets)
    (profile : option bench_churn_profile_t) (slot_count : Z)
  : option bench_churn_model_t :=
  if slot_count =? 0 then None
  else Some (mk_churn seed seed targets (mk_counts 0 0 0 0 0 0 0 0 0) false
    (mk_pending false false false false (-1) BENCH_CHURN_CLASS_SMALL 0) (-1)
    (default default_profile profile) (replicate (Z.to_nat slot_count) cslot_zero)).

Definition bench_churn_model_init (seed : Z) (targets : churn_targets)
  : option bench_churn_model_t :=
  bench_churn_model_init_profile seed targets (Some default_profile) BENCH_CHURN_MAX_FILES.

(** ** The next event *)

(** A write is chosen. *)
Definition start_pending (m : bench_churn_model_t) : bench_churn_model_t :=
  let '(size, cls, m) :=
    if negb (forced_large_written m) &&
       (force_large_after_bytes (ch_targets m) <=? total_written (ch_counts m))
    then (350 * 1024, BENCH_CHURN_CLASS_LARGE, set_forced_large m)
    else choose_churn_size m in
  set_ch_pending (mk_pending true false false false (-1) cls size) m.

(** The live bytes would exceed the target and its slack. *)
Definition over_target (m : bench_churn_model_t) : bool :=
  u32 (target_live_bytes (ch_targets m) + target_slack_bytes (ch_targets m)) <?
  u32 (live_bytes (ch_counts m) + pending_size (ch_pending m)).

Definition set_delete_checked (p : churn_pending) : churn_pending :=
  mk_pending (pending_write p) true (slot_chosen p) (pending_replacing p)
    (pending_slot p) (pending_cls p) (pending_size p).

Definition set_target_slot (chosen replacing : bool) (slot : Z) (p : churn_pending)
  : churn_pending :=
  mk_pending (pending_write p) (optional_delete_checked p) chosen replacing slot
    (pending_cls p) (pending_size p).

(** The optional deletion, tried once for each write: a slot, or -1. *)
Definition optional_delete (m : bench_churn_model_t) : Z * bench_churn_model_t :=
  if optional_delete_checked (ch_pending m) then (-1, m)
  else
    let m := set_ch_pending (set_delete_checked (ch_pending m)) m in
    if target_live_bytes (ch_targets m) <? live_bytes (ch_counts m) then
      let (r, m) := prng_next m in
      if Z.land r 7 =? 0 then choose_delete_slot m else (-1, m)
    else (-1, m).

(** The slot of the write is chosen; the result is a slot to delete first, or
    -1. *)
Definition choose_slot (m : bench_churn_model_t) : Z * bench_churn_model_t :=
  if slot_chosen (ch_pending m) then (-1, m)
  else
    let (r, m) := prng_next m in
    let m :=
      if r mod 100 <? pf_replace_percent (ch_profile m) then
        let (slot, m) := choose_live_slot m in
        if 0 <=? slot
        then set_ch_pending (set_target_slot false true slot (ch_pending m)) m
        else m
      else m in
    let m :=
      if pending_slot (ch_pending m) <? 0
      then set_ch_pending (set_target_slot false false (find_free_slot m) (ch_pending m)) m
      else m in
    let (del, m) :=
      if pending_slot (ch_pending m) <? 0 then choose_delete_slot m else (-1, m) in
    if 0 <=? del
    then (del, set_ch_pending (set_target_slot false false del (ch_pending m)) m)
    else (-1, set_ch_pending (set_target_slot true
                (pending_replacing (ch_pending m)) (pending_slot (ch_pending m))
                (ch_pending m)) m).

(** The part after a write is pending. *)
Definition next_event (m : bench_churn_model_t) : bench_churn_event_t * bench_churn_model_t :=
  let (del, m) := if over_target m then choose_delete_slot m else (-1, m) in
  if 0 <=? del then (fill_delete_event m del, m)
  else
    let (del, m) := optional_delete m in
    if 0 <=? del then (fill_delete_event m del, m)
    else
      let (del, m) := choose_slot m in
      if 0 <=? del then (fill_delete_event m del, m)
      else if pending_slot (ch_pending m) <? 0
      then (bare_event BENCH_CHURN_EVENT_NO_SLOT (-1), m)
      else (fill_write_event m, m).

Definition bench_churn_model_next (m : bench_churn_model_t)
  : bench_churn_event_t * bench_churn_model_t :=
  if pending_write (ch_pending m) then next_event m
  else if target_written_bytes (ch_targets m) <=? total_written (ch_counts m)
  then (bare_event BENCH_CHURN_EVENT_DONE (-1), m)
  else next_event (start_pending m).

(** ** Applying an event *)

Definition sample_live_file_count (c : churn_counts) : churn_counts :=
  mk_counts (total_written c) (live_bytes c) (op_count c) (create_count c)
    (replace_count c) (delete_count c) (live_file_count c)
    (u32 (live_file_samples c + 1)) (usz (live_file_sum c + live_file_count c)).

Definition count_deleted (size : Z) (c : churn_counts) : churn_counts :=
  mk_counts (total_written c) (u32 (live_bytes c - size)) (op_count c) (create_count c)
    (replace_count c) (u32 (delete_count c + 1))
    (if 0 <? live_file_count c then live_file_count c - 1 else live_file_count c)
    (live_file_samples c) (live_file_sum c).

(** [old] is the size of the file that is replaced, if any. *)
Definition count_written (old : option Z) (size : Z) (c : churn_counts) : churn_counts :=
  mk_counts (u32 (total_written c + size))
    (u32 (u32 (live_bytes c - default 0 old) + size)) (u32 (op_count c + 1))
    (match old with Some _ => create_count c | None => u32 (create_count c + 1) end)
    (match old with Some _ => u32 (replace_count c + 1) | None => replace_count c end)
    (delete_count c)
    (match old with Some _ => live_file_count c | None => u32 (live_file_count c + 1) end)
    (live_file_samples c) (live_file_sum c).

Definition bench_churn_model_apply (m : bench_churn_model_t) (e : bench_churn_event_t)
  : bench_churn_model_t :=
  let s := slot_at m (ev_slot e) in
  let i := Z.to_nat (ev_slot e) in
  match ev_type e with
  | BENCH_CHURN_EVENT_DELETE =>
      let counts := if cs_live s then count_deleted (cs_size s) (ch_counts m)
                    else ch_counts m in
      let slots := if cs_live s
                   then <[i := mk_cslot false (cs_cls s) (cs_size s) (cs_write_seed s)
                                (cs_name s)]> (ch_slots m)
                   else ch_slots m in
      mk_churn (ch_seed m) (ch_state m) (ch_targets m) (sample_live_file_count counts)
        (forced_large_written m) (ch_pending m) (protected_large_slot m) (ch_profile m) slots
  | BENCH_CHURN_EVENT_WRITE =>
      let old := if ev_replacing e && cs_live s then Some (cs_size s) else None in
      let counts := count_written old (ev_size e) (ch_counts m) in
      let protected :=
        if pf_protect_first_large (ch_profile m) &&
           bool_decide (ev_cls e = BENCH_CHURN_CLASS_LARGE) && (protected_large_slot m <? 0)
        then ev_slot e else protected_large_slot m in
      let p := ch_pending m in
      mk_churn (ch_seed m) (ch_state m) (ch_targets m) (sample_live_file_count counts)
        (forced_large_written m)
        (mk_pending false (optional_delete_checked p) false (pending_replacing p) (-1)
           (pending_cls p) (pending_size p))
        protected (ch_profile m)
        (<[i := mk_cslot true (ev_cls e) (ev_size e) (ev_write_seed e)
                  (fit_name (ev_name e))]> (ch_slots m))
  | _ => m
  end.

Definition bench_churn_class_name (cls : bench_churn_class_t) : list Z :=
  match cls with
  | BENCH_CHURN_CLASS_SMALL => cp_name (pf_small default_profile)
  | BENCH_CHURN_CLASS_MEDIUM => cp_name (pf_medium default_profile)
  | BENCH_CHURN_CLASS_LARGE => cp_name (pf_large default_profile)
  end.
