(* ===== verification/ChurnSpec.v ===== *)
(** * The churn model's accounting

    The driver of [ChurnModel] asks for an event, executes it and applies it.
    In every state that such a driver reaches, the counters of live files and
    live bytes are those of the slots, every event makes sense for the slots,
    and the live files have different names. *)

From Stdlib Require Import String.
From S2P Require Export ChurnModel.

#[local] Open Scope Z_scope.

(** ** Sums over a list *)

Fixpoint zsum (l : list Z) : Z := match l with [] => 0 | x :: l => x + zsum l end.

Lemma zsum_update (l : list Z) (i : nat) (x y : Z) :
  l !! i = Some x -> zsum (<[i := y]> l) = zsum l - x + y.
Proof.
  revert i. induction l as [| a l IH]; intros [| i] Hi; simpl in *; try done.
  - injection Hi as ->. lia.
  - rewrite (IH i Hi). lia.
Qed.

Lemma zsum_insert {A} (f : A -> Z) (l : list A) (i : nat) (x y : A) :
  l !! i = Some x -> zsum (f <$> <[i := y]> l) = zsum (f <$> l) - f x + f y.
Proof.
  intros Hi. rewrite list_fmap_insert. apply zsum_update. by rewrite list_lookup_fmap, Hi.
Qed.

Lemma zsum_nonneg {A} (f : A -> Z) (l : list A) : (forall x, 0 <= f x) -> 0 <= zsum (f <$> l).
Proof.
  intros Hf. induction l as [| a l IH]; [done |]. rewrite fmap_cons. cbn [zsum].
  specialize (Hf a). lia.
Qed.

Lemma zsum_bound {A} (f : A -> Z) (l : list A) : (forall x, f x <= 1) -> zsum (f <$> l) <= zlen l.
Proof.
  intros Hf. induction l as [| a l IH]; [done |]. rewrite fmap_cons, zlen_cons.
  cbn [zsum]. specialize (Hf a). lia.
Qed.

(** ** The invariant *)

Definition live_size (s : bench_churn_slot_t) : Z := if cs_live s then cs_size s else 0.
Definition live_one (s : bench_churn_slot_t) : Z := if cs_live s then 1 else 0.

(** A live file has the name that its slot gave it, with some seed. *)
Definition name_ok (m : bench_churn_model_t) (i : Z) (s : bench_churn_slot_t) : Prop :=
  cs_live s = true -> exists seed, cs_name s = new_name m i seed.

(** A state between two events. *)
Record churn_ok (m : bench_churn_model_t) : Prop := {
  co_slots : 0 < zlen (ch_slots m) < 2 ^ 31;
  co_files : live_file_count (ch_counts m) = zsum (live_one <$> ch_slots m);
  co_bytes : live_bytes (ch_counts m) = u32 (zsum (live_size <$> ch_slots m));
  co_protected : -1 <= protected_large_slot m < zlen (ch_slots m);
  co_pending : pending_write (ch_pending m) = true ->
    slot_chosen (ch_pending m) = false /\ pending_replacing (ch_pending m) = false /\
    -1 <= pending_slot (ch_pending m) < zlen (ch_slots m) /\
    (0 <= pending_slot (ch_pending m) ->
       cs_live (slot_at m (pending_slot (ch_pending m))) = false);
  co_names : forall i s, ch_slots m !! i = Some s -> name_ok m (Z.of_nat i) s;
}.

(** What the caller may rely on: a deletion is that of a live file, by its name;
    a write replaces a live file, under its name, or takes a free slot and a
    new name for it. *)
Definition event_ok (m : bench_churn_model_t) (e : bench_churn_event_t) : Prop :=
  match ev_type e with
  | BENCH_CHURN_EVENT_DELETE =>
      0 <= ev_slot e < zlen (ch_slots m) /\ cs_live (slot_at m (ev_slot e)) = true /\
      ev_name e = cs_name (slot_at m (ev_slot e)) /\ ev_size e = cs_size (slot_at m (ev_slot e))
  | BENCH_CHURN_EVENT_WRITE =>
      0 <= ev_slot e < zlen (ch_slots m) /\
      ev_replacing e = cs_live (slot_at m (ev_slot e)) /\
      ev_name e = (if ev_replacing e then cs_name (slot_at m (ev_slot e))
                   else new_name m (ev_slot e) (ev_write_seed e))
  | _ => True
  end.

(** ** What the choices keep *)

(** Only the random state and the pending write may differ. *)
Record same_files (m m' : bench_churn_model_t) : Prop := {
  sf_targets : ch_targets m' = ch_targets m;
  sf_counts : ch_counts m' = ch_counts m;
  sf_protected : protected_large_slot m' = protected_large_slot m;
  sf_profile : ch_profile m' = ch_profile m;
  sf_slots : ch_slots m' = ch_slots m;
}.

#[global] Instance same_files_preorder : PreOrder same_files.
Proof.
  split; [by intros m | intros m1 m2 m3 [] []; split; congruence].
Qed.

Lemma same_files_state v m : same_files m (set_ch_state v m).
Proof. done. Qed.

Lemma same_files_pending p m : same_files m (set_ch_pending p m).
Proof. done. Qed.

Lemma slot_at_same m m' i : same_files m m' -> slot_at m' i = slot_at m i.
Proof. intros Hs. unfold slot_at. by rewrite (sf_slots _ _ Hs). Qed.

Lemma slot_at_lookup m i : 0 <= i < zlen (ch_slots m) ->
  ch_slots m !! Z.to_nat i = Some (slot_at m i).
Proof.
  intros Hi. unfold slot_at. rewrite nth_lookup.
  destruct (lookup_lt_is_Some_2 (ch_slots m) (Z.to_nat i)) as [s ->]; [unfold zlen in Hi; lia | done].
Qed.

Lemma indexed_slots_spec m i s : (i, s) ∈ indexed_slots m ->
  0 <= i < zlen (ch_slots m) /\ slot_at m i = s.
Proof.
  unfold indexed_slots. intros (k & Hk)%list_elem_of_lookup. rewrite list_lookup_imap in Hk.
  destruct (ch_slots m !! k) as [s' |] eqn:Hs; [| done]. injection Hk as <- <-.
  pose proof (lookup_lt_Some _ _ _ Hs). unfold zlen. split; [lia |].
  unfold slot_at. by rewrite Nat2Z.id, nth_lookup, Hs.
Qed.

(** A choice gives -1 or a slot that satisfies [P]. *)
Definition slot_choice (m : bench_churn_model_t) (P : bench_churn_slot_t -> Prop) (i : Z) : Prop :=
  i = -1 \/ (0 <= i < zlen (ch_slots m) /\ P (slot_at m i)).

Lemma candidates_live m i s : (i, s) ∈ List.filter (is_candidate m) (indexed_slots m) ->
  0 <= i < zlen (ch_slots m) /\ cs_live (slot_at m i) = true.
Proof.
  intros [Hin Hc]%list_elem_of_In%filter_In. apply list_elem_of_In, indexed_slots_spec in Hin as [Hi <-].
  split; [done |]. by apply andb_true_iff in Hc as [Hc _].
Qed.

Lemma find_free_slot_spec m :
  slot_choice m (fun s => cs_live s = false) (find_free_slot m).
Proof.
  unfold find_free_slot, find_slot.
  destruct (List.find _ (indexed_slots m)) as [[i s] |] eqn:Hf; [| by left].
  apply find_some in Hf as [Hin Hfree].
  apply list_elem_of_In, indexed_slots_spec in Hin as [Hi <-].
  right. split; [done |]. by apply negb_true_iff in Hfree.
Qed.

Lemma fallback_slot_spec m : protected_large_slot m < zlen (ch_slots m) ->
  slot_choice m (fun s => cs_live s = true) (fallback_slot m).
Proof.
  intros Hp. unfold fallback_slot. destruct (Z.leb_spec 0 (protected_large_slot m)); [| by left].
  destruct (cs_live (slot_at m (protected_large_slot m))) eqn:Hl; [| by left].
  by right.
Qed.

Lemma choose_live_slot_spec m i m' : protected_large_slot m < zlen (ch_slots m) ->
  choose_live_slot m = (i, m') ->
  same_files m m' /\ ch_pending m' = ch_pending m /\
  slot_choice m (fun s => cs_live s = true) i.
Proof.
  intros Hp. unfold choose_live_slot. cbv zeta.
  destruct (zlen _ =? 0); [intros [= <- <-]; split; [done |]; split; [done | by apply fallback_slot_spec] |].
  cbn [prng_next]. destruct (_ !! Z.to_nat _) as [[k s] |] eqn:Hk; intros [= <- <-];
    (split; [apply same_files_state |]); (split; [done |]); [| by left].
  right. apply list_elem_of_lookup_2 in Hk. by apply candidates_live in Hk.
Qed.

Lemma weighted_slot_spec l target : weighted_slot l target = -1 \/
  exists s, (weighted_slot l target, s) ∈ l.
Proof.
  revert target. induction l as [| [i s] l IH]; intros target; simpl; [by left |].
  destruct (target <? delete_weight s); [right; exists s; by left |].
  destruct (IH (target - delete_weight s)) as [Hn | [s' Hin]]; [by left | right].
  exists s'. by right.
Qed.

Lemma choose_delete_slot_spec m i m' : protected_large_slot m < zlen (ch_slots m) ->
  choose_delete_slot m = (i, m') ->
  same_files m m' /\ ch_pending m' = ch_pending m /\
  slot_choice m (fun s => cs_live s = true) i.
Proof.
  intros Hp. unfold choose_delete_slot. cbv zeta.
  destruct (_ =? 0); [intros [= <- <-]; split; [done |]; split; [done | by apply fallback_slot_spec] |].
  cbn [prng_next]. intros [= <- <-]. split; [apply same_files_state |]. split; [done |].
  destruct (weighted_slot_spec (List.filter (is_candidate m) (indexed_slots m)) (u32
    (ch_state m * 1664525 + 1013904223) mod
      foldl (fun acc s => u32 (acc + delete_weight (snd s))) 0
        (List.filter (is_candidate m) (indexed_slots m)))) as [Hn | [s Hin]]; [by left | right].
  by apply candidates_live in Hin.
Qed.

(** ** The next event *)

(** The pending write between two events, once [deleted] is gone. *)
Definition pending_ok (m : bench_churn_model_t) (deleted : Z) : Prop :=
  let p := ch_pending m in
  pending_write p = true /\ slot_chosen p = false /\ pending_replacing p = false /\
  (pending_slot p = -1 \/
   (0 <= pending_slot p < zlen (ch_slots m) /\
    (pending_slot p = deleted \/ cs_live (slot_at m (pending_slot p)) = false))).

Lemma churn_ok_same m m' : same_files m m' -> churn_ok m ->
  (pending_write (ch_pending m') = true -> pending_ok m' (-1)) -> churn_ok m'.
Proof.
  intros Hs [Hsl Hf Hb Hp _ Hn] Hpend.
  split; rewrite ?(sf_slots _ _ Hs), ?(sf_counts _ _ Hs), ?(sf_protected _ _ Hs); try done.
  - intros Hw. destruct (Hpend Hw) as (_ & Hc & Hr & Hps). rewrite (sf_slots _ _ Hs) in Hps.
    repeat (split; [done || lia |]). intros Hge. destruct Hps as [He | [_ [He | He]]]; [lia.. | done].
  - intros i s Hi Hl. destruct (Hn i s Hi Hl) as [seed ->]. exists seed.
    unfold new_name. by rewrite (sf_profile _ _ Hs).
Qed.

Lemma churn_pending_ok m : churn_ok m -> pending_write (ch_pending m) = true -> pending_ok m (-1).
Proof.
  intros Hok Hw. destruct (co_pending _ Hok Hw) as (Hc & Hr & Hps & Hfree).
  repeat (split; [done |]). destruct (Z.eq_dec (pending_slot (ch_pending m)) (-1)); [by left |].
  right. split; [lia |]. right. apply Hfree. lia.
Qed.

Lemma start_pending_ok m : churn_ok m ->
  churn_ok (start_pending m) /\ same_files m (start_pending m) /\
  pending_write (ch_pending (start_pending m)) = true.
Proof.
  intros Hok. unfold start_pending.
  destruct (if _ && _ then _ else choose_churn_size m) as [[size cls] m1] eqn:Hc.
  assert (Hs : same_files m m1).
  { revert Hc. destruct (_ && _); [by intros [= _ _ <-] |]. unfold choose_churn_size.
    destruct (_ =? 0); [by intros [= _ _ <-] |]. cbn [prng_next].
    destruct (class_at _ _) as [[c p] |]; [| by intros [= _ _ <-]].
    destruct (_ <=? _); by intros [= _ _ <-]. }
  assert (Hs' : same_files m (set_ch_pending (mk_pending true false false false (-1) cls size) m1)).
  { etransitivity; [exact Hs | apply same_files_pending]. }
  split; [| split; [done | done]]. eapply churn_ok_same; [done | done |].
  intros _. repeat split. by left.
Qed.

Lemma fit_name_fit name : fit_name (fit_name name) = fit_name name.
Proof. unfold fit_name. rewrite take_take. done. Qed.

Lemma fit_live_name m i s : churn_ok m -> ch_slots m !! i = Some s -> cs_live s = true ->
  fit_name (cs_name s) = cs_name s.
Proof.
  intros Hok Hi Hl. destruct (co_names _ Hok i s Hi Hl) as [seed ->].
  unfold new_name. apply fit_name_fit.
Qed.

Lemma event_ok_same m m' e : same_files m m' -> event_ok m' e -> event_ok m e.
Proof.
  intros Hs. unfold event_ok, new_name.
  by rewrite !(slot_at_same _ _ _ Hs), (sf_slots _ _ Hs), (sf_profile _ _ Hs).
Qed.

Lemma fill_delete_event_ok m m' del : churn_ok m -> same_files m m' -> 0 <= del ->
  slot_choice m (fun s => cs_live s = true) del -> event_ok m (fill_delete_event m' del).
Proof.
  intros Hok Hs Hge [Hd | [Hr Hl]]; [lia |]. unfold event_ok, fill_delete_event. simpl.
  rewrite (slot_at_same _ _ _ Hs). repeat (split; [done |]). split; [| done].
  eapply fit_live_name; [done | by apply slot_at_lookup | done].
Qed.

Lemma optional_delete_ok m del m' : churn_ok m -> pending_ok m (-1) ->
  optional_delete m = (del, m') ->
  same_files m m' /\ pending_ok m' (-1) /\ slot_choice m (fun s => cs_live s = true) del.
Proof.
  intros Hok Hp. pose proof (co_protected _ Hok) as [_ Hprot]. unfold optional_delete.
  destruct (optional_delete_checked (ch_pending m)); [intros [= <- <-]; split; [done |]; split; [done | by left] |].
  cbv zeta. destruct (_ <? _); [| intros [= <- <-]; split; [done |]; split; [exact Hp | by left]].
  cbn [prng_next]. destruct (_ =? 0); [| intros [= <- <-]; split; [done |]; split; [exact Hp | by left]].
  intros Hd. apply choose_delete_slot_spec in Hd as (Hs & Hpend & Hc); [| done].
  assert (Hs' : same_files m m') by (etransitivity; [| exact Hs]; done).
  split; [exact Hs' |]. split; [| exact Hc]. unfold pending_ok.
  rewrite Hpend, (slot_at_same _ _ _ Hs'), (sf_slots _ _ Hs'). exact Hp.
Qed.

(** The target of the write under way: none, or a slot that is live exactly when
    its file is replaced. *)
Definition target_ok (m : bench_churn_model_t) (p : churn_pending) : Prop :=
  pending_write p = true /\
  (pending_slot p < 0 \/
   (0 <= pending_slot p < zlen (ch_slots m) /\
    pending_replacing p = cs_live (slot_at m (pending_slot p)))).

Lemma pending_target m : pending_ok m (-1) -> target_ok m (ch_pending m).
Proof.
  intros (Hw & _ & Hr & Hps). split; [done |].
  destruct Hps as [-> | [Hr' [-> | Hl]]]; [left; lia.. | right]. split; [done | congruence].
Qed.

Lemma replace_target_ok m m1 m2 (c : bool) : churn_ok m -> same_files m m1 ->
  target_ok m (ch_pending m1) ->
  m2 = (if c then
          let (slot, m) := choose_live_slot m1 in
          if 0 <=? slot
          then set_ch_pending (set_target_slot false true slot (ch_pending m)) m
          else m
        else m1) ->
  same_files m m2 /\ target_ok m (ch_pending m2).
Proof.
  intros Hok Hs Ht ->. destruct c; [| done].
  destruct (choose_live_slot m1) as [slot m3] eqn:Hc.
  apply choose_live_slot_spec in Hc as (Hs3 & Hp3 & Hslot).
  2: { rewrite (sf_protected _ _ Hs), (sf_slots _ _ Hs). apply (co_protected _ Hok). }
  assert (Hsm : same_files m m3) by (by etransitivity).
  destruct (Z.leb_spec 0 slot); [| by rewrite Hp3].
  split; [by etransitivity |]. split; [simpl; rewrite Hp3; apply Ht |]. right. simpl.
  destruct Hslot as [-> | [Hr Hl]]; [lia |].
  rewrite (slot_at_same _ _ _ Hs) in Hl. rewrite (sf_slots _ _ Hs) in Hr. by rewrite Hl.
Qed.

Lemma free_target_ok m m1 m2 (c : bool) : same_files m m1 -> target_ok m (ch_pending m1) ->
  m2 = (if c
        then set_ch_pending (set_target_slot false false (find_free_slot m1) (ch_pending m1)) m1
        else m1) ->
  same_files m m2 /\ target_ok m (ch_pending m2).
Proof.
  intros Hs Ht ->. destruct c; [| done]. split; [by etransitivity |].
  split; [apply Ht |]. simpl. destruct (find_free_slot_spec m1) as [-> | [Hr Hl]]; [left; lia | right].
  rewrite (slot_at_same _ _ _ Hs) in Hl. rewrite (sf_slots _ _ Hs) in Hr. by rewrite Hl.
Qed.

(** The choice of the slot: a slot to delete first, which the write then takes,
    or the slot of the write. *)
Lemma choose_slot_ok m del m' : churn_ok m -> pending_ok m (-1) -> choose_slot m = (del, m') ->
  same_files m m' /\
  ((0 <= del /\ slot_choice m (fun s => cs_live s = true) del /\ pending_ok m' del) \/
   (del = -1 /\ target_ok m (ch_pending m'))).
Proof.
  intros Hok Hp. pose proof (pending_target m Hp) as Ht. unfold choose_slot.
  destruct Hp as (Hw & -> & _). cbn [prng_next]. cbv iota. cbv zeta.
  set (m2 := if _ <? pf_replace_percent _ then _ else _).
  destruct (replace_target_ok m (set_ch_state (u32 (ch_state m * 1664525 + 1013904223)) m) m2 _
    Hok (same_files_state _ m) Ht eq_refl) as [Hs2 Ht2]. clearbody m2. clear Ht.
  set (m3 := if pending_slot (ch_pending m2) <? 0 then _ else m2).
  destruct (free_target_ok m m2 m3 _ Hs2 Ht2 eq_refl) as [Hs3 Ht3]. clearbody m3. clear m2 Hs2 Ht2.
  assert (Hprot : protected_large_slot m3 < zlen (ch_slots m3)).
  { rewrite (sf_protected _ _ Hs3), (sf_slots _ _ Hs3). apply (co_protected _ Hok). }
  destruct (if pending_slot (ch_pending m3) <? 0 then _ else _) as [d m4] eqn:Hd.
  assert (H4 : same_files m m4 /\ ch_pending m4 = ch_pending m3 /\
    slot_choice m (fun s => cs_live s = true) d).
  { destruct (_ <? 0); [| injection Hd as <- <-; split; [done |]; split; [done | by left]].
    apply choose_delete_slot_spec in Hd as (Hs4 & Hp4 & Hc); [| done].
    split; [by etransitivity |]. split; [done |].
    destruct Hc as [-> | [Hr Hl]]; [by left | right].
    rewrite (slot_at_same _ _ _ Hs3) in Hl. by rewrite (sf_slots _ _ Hs3) in Hr. }
  destruct H4 as (Hs4 & Hp4 & Hc). destruct (Z.leb_spec 0 d); intros [= <- <-];
    (split; [by etransitivity |]); [left | right].
  - split; [done |]. split; [done |]. split; [simpl; rewrite Hp4; apply Ht3 |].
    repeat (split; [done |]). right. simpl. rewrite (sf_slots _ _ Hs4).
    destruct Hc as [-> | [Hr _]]; [lia |]. split; [done | by left].
  - split; [done |]. rewrite Hp4. split; [apply Ht3 |]. simpl. apply Ht3.
Qed.

(** ** One step of the driver *)

Lemma next_event_ok m e m' : churn_ok m -> pending_write (ch_pending m) = true ->
  next_event m = (e, m') ->
  same_files m m' /\ event_ok m e /\
  match ev_type e with
  | BENCH_CHURN_EVENT_DELETE => pending_ok m' (ev_slot e)
  | BENCH_CHURN_EVENT_WRITE | BENCH_CHURN_EVENT_NO_SLOT => True
  | BENCH_CHURN_EVENT_DONE => False
  end.
Proof.
  intros Hok Hw. pose proof (churn_pending_ok m Hok Hw) as Hp.
  assert (Hweak : forall m1 d, pending_ok m1 (-1) -> pending_ok m1 d).
  { intros m1 d (Hp1 & Hp2 & Hp3 & Hps). repeat (split; [done |]).
    destruct Hps as [Hps | [Hr [Hps | Hps]]]; [by left | lia | right; auto]. }
  unfold next_event.
  destruct (if over_target m then choose_delete_slot m else (-1, m)) as [d1 m1] eqn:H1.
  assert (Hm1 : same_files m m1 /\ ch_pending m1 = ch_pending m /\
    slot_choice m (fun s => cs_live s = true) d1).
  { destruct (over_target m).
    - apply choose_delete_slot_spec in H1; [done | apply (co_protected _ Hok)].
    - injection H1 as <- <-. split; [done |]. split; [done | by left]. }
  destruct Hm1 as (Hs1 & Hp1 & Hc1).
  assert (Hpo1 : pending_ok m1 (-1)).
  { unfold pending_ok. by rewrite Hp1, (sf_slots _ _ Hs1), (slot_at_same _ _ _ Hs1). }
  assert (Hok1 : churn_ok m1) by (by eapply churn_ok_same).
  destruct (Z.leb_spec 0 d1).
  { intros [= <- <-]. split; [done |]. split; [by apply fill_delete_event_ok | by apply Hweak]. }
  destruct (optional_delete m1) as [d2 m2] eqn:H2.
  apply optional_delete_ok in H2 as (Hs2 & Hpo2 & Hc2); [| done..].
  assert (Hok2 : churn_ok m2) by (by eapply churn_ok_same).
  destruct (Z.leb_spec 0 d2).
  { intros [= <- <-]. split; [by etransitivity |]. split; [| by apply Hweak].
    apply (event_ok_same _ _ _ Hs1). by apply fill_delete_event_ok. }
  assert (Hs02 : same_files m m2) by (by etransitivity).
  destruct (choose_slot m2) as [d3 m3] eqn:H3.
  apply choose_slot_ok in H3 as (Hs3 & H3); [| done..].
  assert (Hs03 : same_files m m3) by (by etransitivity).
  destruct H3 as [(Hge & Hc3 & Hpo3) | [-> [Hw3 Ht3]]].
  { destruct (Z.leb_spec 0 d3); [| lia]. intros [= <- <-]. split; [done |]. split; [| done].
    apply (event_ok_same _ _ _ Hs02). by apply fill_delete_event_ok. }
  simpl (0 <=? -1). cbv iota.
  destruct (Z.ltb_spec (pending_slot (ch_pending m3)) 0); intros [= <- <-]; [done |].
  split; [done |]. split; [| done]. destruct Ht3 as [Hlt | [Hr Hl]]; [lia |].
  apply (event_ok_same _ _ _ Hs02). unfold event_ok, fill_write_event. simpl.
  rewrite (slot_at_same _ _ _ Hs3). split; [done |]. split; [done |].
  rewrite Hl. destruct (cs_live (slot_at m2 (pending_slot (ch_pending m3)))) eqn:Hlive.
  - eapply fit_live_name; [exact Hok2 | by apply slot_at_lookup | done].
  - unfold new_name. by rewrite (sf_profile _ _ Hs3).
Qed.

Lemma churn_next_ok m e m' : churn_ok m -> bench_churn_model_next m = (e, m') ->
  same_files m m' /\ event_ok m e /\
  match ev_type e with
  | BENCH_CHURN_EVENT_DELETE => pending_ok m' (ev_slot e)
  | _ => True
  end.
Proof.
  intros Hok. unfold bench_churn_model_next.
  destruct (pending_write (ch_pending m)) eqn:Hw.
  - intros Hn. apply next_event_ok in Hn as (Hs & He & Hp); [| done..].
    split; [done |]. split; [done |]. by destruct (ev_type e).
  - destruct (_ <=? _); [by intros [= <- <-] |].
    destruct (start_pending_ok m Hok) as (Hok1 & Hs1 & Hw1). intros Hn.
    apply next_event_ok in Hn as (Hs & He & Hp); [| done..].
    split; [by etransitivity |]. split; [by apply (event_ok_same _ _ _ Hs1) |].
    by destruct (ev_type e).
Qed.

(** ** Applying *)

Lemma u32_sub_l a b : u32 (u32 a - b) = u32 (a - b).
Proof. apply Zminus_mod_idemp_l. Qed.

Lemma u32_add_l a b : u32 (u32 a + b) = u32 (a + b).
Proof. apply Zplus_mod_idemp_l. Qed.

Lemma files_bound m : zsum (live_one <$> ch_slots m) <= zlen (ch_slots m).
Proof. apply zsum_bound. intros s. unfold live_one. destruct (cs_live s); lia. Qed.

Lemma files_nonneg (l : list bench_churn_slot_t) : 0 <= zsum (live_one <$> l).
Proof. apply zsum_nonneg. intros s. unfold live_one. destruct (cs_live s); lia. Qed.

(** The caller may have given the written file another size. *)
Definition resize_event (size : Z) (e : bench_churn_event_t) : bench_churn_event_t :=
  match ev_type e with
  | BENCH_CHURN_EVENT_WRITE =>
      mk_event (ev_type e) (ev_slot e) (ev_cls e) size (ev_old_size e) (ev_write_seed e)
        (ev_replacing e) (ev_name e)
  | _ => e
  end.

Lemma names_update m m' i s' : churn_ok m -> ch_profile m' = ch_profile m ->
  0 <= i -> name_ok m i s' ->
  forall k s, <[Z.to_nat i := s']> (ch_slots m) !! k = Some s -> name_ok m' (Z.of_nat k) s.
Proof.
  intros Hok Hprof Hi Hs' k s Hk Hl. unfold new_name. rewrite Hprof.
  destruct (decide (k = Z.to_nat i)) as [-> | Hne].
  - rewrite Z2Nat.id by done.
    apply list_lookup_insert_Some in Hk as [(_ & <- & _) | [Hne _]]; [| done].
    by apply Hs'.
  - rewrite list_lookup_insert_ne in Hk by done. by apply (co_names _ Hok).
Qed.

Lemma slot_at_update m m' i s' k : 0 <= i < zlen (ch_slots m) -> 0 <= k ->
  ch_slots m' = <[Z.to_nat i := s']> (ch_slots m) ->
  slot_at m' k = if k =? i then s' else slot_at m k.
Proof.
  unfold zlen, slot_at. intros Hi Hk ->. rewrite !nth_lookup.
  destruct (Z.eqb_spec k i) as [-> | Hne].
  - by rewrite list_lookup_insert_eq by lia.
  - by rewrite list_lookup_insert_ne by lia.
Qed.

Lemma apply_delete_ok m m' e : churn_ok m -> same_files m m' -> event_ok m e ->
  ev_type e = BENCH_CHURN_EVENT_DELETE -> pending_ok m' (ev_slot e) ->
  churn_ok (bench_churn_model_apply m' e).
Proof.
  intros Hok Hs He Hty Hp. unfold event_ok in He. rewrite Hty in He.
  destruct He as (Hr & Hl & _ & _). set (i := ev_slot e) in *.
  pose proof (slot_at_lookup m i Hr) as Hi. set (s := slot_at m i) in *.
  unfold bench_churn_model_apply. rewrite Hty. fold i.
  rewrite (slot_at_same _ _ _ Hs). fold s. rewrite Hl. cbv zeta.
  set (s' := mk_cslot false (cs_cls s) (cs_size s) (cs_write_seed s) (cs_name s)).
  assert (Hins : <[Z.to_nat i := s']> (ch_slots m') = <[Z.to_nat i := s']> (ch_slots m))
    by (by rewrite (sf_slots _ _ Hs)).
  rewrite Hins. pose proof (files_nonneg (<[Z.to_nat i := s']> (ch_slots m))) as Hge.
  pose proof (zsum_insert live_one _ _ s s' Hi) as Hones.
  pose proof (zsum_insert live_size _ _ s s' Hi) as Hsizes.
  assert (Hv : live_one s = 1 /\ live_one s' = 0 /\ live_size s = cs_size s /\ live_size s' = 0).
  { unfold live_one, live_size. rewrite Hl. done. }
  destruct Hv as (Hv1 & Hv2 & Hv3 & Hv4). rewrite Hv1, Hv2 in Hones. rewrite Hv3, Hv4 in Hsizes.
  assert (Hlen : zlen (<[Z.to_nat i := s']> (ch_slots m)) = zlen (ch_slots m))
    by (unfold zlen; by rewrite length_insert).
  split; cbn [ch_slots ch_counts sample_live_file_count count_deleted live_file_count
    live_bytes ch_pending protected_large_slot]; rewrite ?Hlen, ?(sf_counts _ _ Hs).
  - apply (co_slots _ Hok).
  - rewrite (co_files _ Hok).
    destruct (Z.ltb_spec 0 (zsum (live_one <$> ch_slots m))); lia.
  - rewrite (co_bytes _ Hok), Hsizes, u32_sub_l. f_equal. lia.
  - rewrite (sf_protected _ _ Hs). apply (co_protected _ Hok).
  - intros _. destruct Hp as (_ & Hc & Hrep & Hps).
    rewrite (sf_slots _ _ Hs), (slot_at_same _ _ _ Hs) in Hps.
    repeat (split; [done || lia |]). intros Hk.
    rewrite (slot_at_update m _ i s') by done.
    destruct (Z.eqb_spec (pending_slot (ch_pending m')) i); [done |].
    destruct Hps as [Hps | [_ [Hps | Hps]]]; [lia | done | done].
  - apply names_update; [done | apply (sf_profile _ _ Hs) | lia | done].
Qed.

Lemma apply_write_ok m m' e : churn_ok m -> same_files m m' -> event_ok m e ->
  ev_type e = BENCH_CHURN_EVENT_WRITE -> churn_ok (bench_churn_model_apply m' e).
Proof.
  intros Hok Hs He Hty. unfold event_ok in He. rewrite Hty in He.
  destruct He as (Hr & Hrep & Hname). set (i := ev_slot e) in *.
  pose proof (slot_at_lookup m i Hr) as Hi. set (s := slot_at m i) in *.
  unfold bench_churn_model_apply. rewrite Hty. fold i.
  rewrite (slot_at_same _ _ _ Hs). fold s. cbv zeta. rewrite Hrep, andb_diag.
  set (s' := mk_cslot true (ev_cls e) (ev_size e) (ev_write_seed e) (fit_name (ev_name e))).
  assert (Hins : <[Z.to_nat i := s']> (ch_slots m') = <[Z.to_nat i := s']> (ch_slots m))
    by (by rewrite (sf_slots _ _ Hs)).
  rewrite Hins. pose proof (files_nonneg (ch_slots m)) as Hge.
  pose proof (zsum_insert live_one _ _ s s' Hi) as Hones.
  pose proof (zsum_insert live_size _ _ s s' Hi) as Hsizes.
  assert (Hlen : zlen (<[Z.to_nat i := s']> (ch_slots m)) = zlen (ch_slots m))
    by (unfold zlen; by rewrite length_insert).
  assert (Hmax : zsum (live_one <$> <[Z.to_nat i := s']> (ch_slots m)) <= zlen (ch_slots m)).
  { rewrite <- Hlen. apply zsum_bound. intros x. unfold live_one. destruct (cs_live x); lia. }
  assert (Hv : live_one s' = 1 /\ live_size s' = ev_size e) by done. destruct Hv as [Hv2 Hv4].
  rewrite Hv2 in Hones. rewrite Hv4 in Hsizes. pose proof (co_slots _ Hok) as Hsl.
  split; cbn [ch_slots ch_counts sample_live_file_count count_written live_file_count
    live_bytes ch_pending protected_large_slot pending_write]; rewrite ?Hlen, ?(sf_counts _ _ Hs);
    rewrite ?(sf_protected _ _ Hs); try done.
  - rewrite (co_files _ Hok). assert (Hv1 : live_one s = if cs_live s then 1 else 0) by done.
    destruct (cs_live s); [lia |]. rewrite u32_small by (unfold is_u32; lia). lia.
  - rewrite (co_bytes _ Hok), Hsizes, u32_sub_l, u32_add_l. f_equal. unfold live_size.
    destruct (cs_live s); simpl; lia.
  - pose proof (co_protected _ Hok). destruct (_ && _); lia.
  - apply names_update; [done | apply (sf_profile _ _ Hs) | lia |].
    intros _. simpl. rewrite Hname, Hrep. destruct (cs_live s) eqn:Hl.
    + destruct (co_names _ Hok _ _ Hi Hl) as [seed Hseed]. exists seed.
      rewrite Z2Nat.id in Hseed by lia. rewrite Hseed. unfold new_name. apply fit_name_fit.
    + exists (ev_write_seed e). unfold new_name. apply fit_name_fit.
Qed.

(** ** Names *)

(** The part of a name that tells the slots apart. *)
Definition slot_tag (i : Z) : list Z := bytes_of_string "w"%string ++ decimal 4 i.

Definition max_slots : list Z := Z.of_nat <$> seq 0 (Z.to_nat BENCH_CHURN_MAX_FILES).

Lemma slot_tags_distinct : NoDup (slot_tag <$> max_slots).
Proof. apply (bool_decide_unpack _). vm_compute. exact I. Qed.

Lemma slot_tags_length : Forall (fun i => length (slot_tag i) = 5%nat) max_slots.
Proof. apply (bool_decide_unpack _). vm_compute. exact I. Qed.

Lemma slot_tag_at i : 0 <= i < BENCH_CHURN_MAX_FILES -> max_slots !! Z.to_nat i = Some i.
Proof.
  intros Hi. unfold max_slots. rewrite list_lookup_fmap, lookup_seq_lt by lia.
  simpl. f_equal. lia.
Qed.

Lemma new_name_tag m i seed : ch_profile m = default_profile ->
  0 <= i < BENCH_CHURN_MAX_FILES -> take 5 (new_name m i seed) = slot_tag i.
Proof.
  intros Hp Hi. pose proof slot_tags_length as Hl. rewrite Forall_lookup in Hl.
  specialize (Hl _ _ (slot_tag_at i Hi)). unfold new_name, fit_name. rewrite Hp, take_take.
  change (default (bytes_of_string "w"%string) (pf_name_prefix default_profile))
    with (bytes_of_string "w"%string).
  rewrite app_assoc. fold (slot_tag i).
  replace (Nat.min 5 _) with (length (slot_tag i)) by (rewrite Hl; reflexivity).
  apply take_app_length.
Qed.

Lemma new_name_inj m i j seed seed' : ch_profile m = default_profile ->
  0 <= i < BENCH_CHURN_MAX_FILES -> 0 <= j < BENCH_CHURN_MAX_FILES ->
  new_name m i seed = new_name m j seed' -> i = j.
Proof.
  intros Hp Hi Hj Heq. apply (f_equal (take 5)) in Heq. rewrite !new_name_tag in Heq by done.
  pose proof slot_tags_distinct as Hd. rewrite NoDup_alt in Hd.
  assert (Hij : Z.to_nat i = Z.to_nat j); [| lia].
  apply (Hd _ _ (slot_tag i)); rewrite list_lookup_fmap, slot_tag_at by done; simpl; congruence.
Qed.

(** ** The states of a run *)

(** A driver with the default profile: it executes each event and applies it,
    possibly with another size for the written file. *)
Inductive churn_reach : bench_churn_model_t -> Prop :=
| reach_init seed targets m :
    bench_churn_model_init seed targets = Some m -> churn_reach m
| reach_step m e m' size :
    churn_reach m -> bench_churn_model_next m = (e, m') ->
    ev_type e = BENCH_CHURN_EVENT_DELETE \/ ev_type e = BENCH_CHURN_EVENT_WRITE ->
    churn_reach (bench_churn_model_apply m' (resize_event size e)).

Lemma churn_init_eq seed targets m : bench_churn_model_init seed targets = Some m ->
  m = mk_churn seed seed targets (mk_counts 0 0 0 0 0 0 0 0 0) false
    (mk_pending false false false false (-1) BENCH_CHURN_CLASS_SMALL 0) (-1)
    default_profile (replicate (Z.to_nat BENCH_CHURN_MAX_FILES) cslot_zero).
Proof. by intros [= <-]. Qed.

Lemma churn_init_ok seed targets m : bench_churn_model_init seed targets = Some m -> churn_ok m.
Proof.
  intros ->%churn_init_eq. split; [by split | reflexivity | reflexivity | by split | done |].
  intros i s Hi Hl. cbn [ch_slots] in Hi. by apply lookup_replicate_1 in Hi as [-> _].
Qed.

Lemma event_ok_resize m size e : event_ok m e -> event_ok m (resize_event size e).
Proof. unfold event_ok, resize_event. by destruct (ev_type e) eqn:Hty; simpl; rewrite ?Hty. Qed.

Lemma churn_reach_ok m : churn_reach m ->
  churn_ok m /\ ch_profile m = default_profile /\ zlen (ch_slots m) = BENCH_CHURN_MAX_FILES.
Proof.
  induction 1 as [seed targets m Hi | m e m' size Hreach IH Hn Hty].
  { split; [by eapply churn_init_ok |]. by apply churn_init_eq in Hi as ->. }
  destruct IH as (Hok & Hprof & Hlen).
  apply churn_next_ok in Hn as (Hs & He & Hp); [| done].
  apply (event_ok_resize _ size) in He.
  destruct Hty as [Hty | Hty]; rewrite Hty in Hp.
  - assert (Hr : resize_event size e = e) by (unfold resize_event; by rewrite Hty).
    rewrite Hr in *. split; [by eapply apply_delete_ok |].
    unfold bench_churn_model_apply. rewrite Hty. cbv zeta. cbn [ch_profile ch_slots].
    rewrite (sf_profile _ _ Hs). split; [done |].
    destruct (cs_live _); rewrite ?(sf_slots _ _ Hs); unfold zlen in *; by rewrite ?length_insert.
  - assert (Hr : ev_type (resize_event size e) = BENCH_CHURN_EVENT_WRITE)
      by (unfold resize_event; by rewrite Hty).
    split; [by eapply apply_write_ok |].
    unfold bench_churn_model_apply. rewrite Hr. cbv zeta. cbn [ch_profile ch_slots].
    rewrite (sf_profile _ _ Hs), (sf_slots _ _ Hs). split; [done |].
    unfold zlen in *. by rewrite length_insert.
Qed.

Lemma live_names_distinct m i j s t : churn_reach m ->
  ch_slots m !! i = Some s -> ch_slots m !! j = Some t ->
  cs_live s = true -> cs_live t = true -> cs_name s = cs_name t -> i = j.
Proof.
  intros Hreach Hi Hj Hs Ht Heq. destruct (churn_reach_ok m Hreach) as (Hok & Hprof & Hlen).
  destruct (co_names _ Hok i s Hi Hs) as [seed1 H1].
  destruct (co_names _ Hok j t Hj Ht) as [seed2 H2].
  apply lookup_lt_Some in Hi, Hj. unfold zlen in Hlen.
  apply Nat2Z.inj, (new_name_inj m _ _ seed1 seed2); [done | lia | lia | congruence].
Qed.

(** A free slot's new name is no live file's name. *)
Lemma new_name_fresh m i j seed t : churn_reach m -> 0 <= i < zlen (ch_slots m) ->
  ch_slots m !! j = Some t -> cs_live t = true -> cs_name t = new_name m i seed ->
  Z.of_nat j = i.
Proof.
  intros Hreach Hi Hj Ht Heq. destruct (churn_reach_ok m Hreach) as (Hok & Hprof & Hlen).
  destruct (co_names _ Hok j t Hj Ht) as [seed2 H2].
  apply lookup_lt_Some in Hj. unfold zlen in *.
  apply (new_name_inj m _ _ seed2 seed); [done | lia | lia | congruence].
Qed.

(** C40: The generator's books.  In every state that a driver reaches, the counter of
    live files is their number and the counter of live bytes is the sum of
    their sizes (modulo 2^32), no two live files have the same name, and the
    next event fits the files: a deletion names a live file, a write either
    replaces a live file under its name or makes one in a free slot. *)
Theorem churn_accounting (m : bench_churn_model_t) : churn_reach m ->
  live_file_count (ch_counts m) = zsum (live_one <$> ch_slots m) /\
  live_bytes (ch_counts m) = u32 (zsum (live_size <$> ch_slots m)) /\
  (forall i j s t, ch_slots m !! i = Some s -> ch_slots m !! j = Some t ->
     cs_live s = true -> cs_live t = true -> cs_name s = cs_name t -> i = j) /\
  event_ok m (fst (bench_churn_model_next m)).
Proof.
  intros Hreach. destruct (churn_reach_ok m Hreach) as (Hok & Hprof & Hlen).
  split; [apply (co_files _ Hok) |]. split; [apply (co_bytes _ Hok) |]. split.
  - intros i j s t Hi Hj Hs Ht. by apply (live_names_distinct m).
  - destruct (bench_churn_model_next m) as [e m'] eqn:Hn.
    by apply churn_next_ok in Hn as (_ & He & _).
Qed.

Definition churn_demo_targets : churn_targets := mk_targets 200000 1000000 10000 100000.

Lemma churn_accounting_witness :
  exists m, bench_churn_model_init 7 churn_demo_targets = Some m /\
    event_ok m (fst (bench_churn_model_next m)).
Proof.
  eexists. split; [reflexivity |]. apply churn_accounting. by apply (reach_init 7 churn_demo_targets).
Defined.
