(* ===== verification/ChurnEnds.v ===== *)
(** * The churn ends

    The events of [ChurnModel], for any profile of file sizes: a write brings the
    bytes written nearer to their target, and a deletion needs a file that has
    been written, so that a bounded number of events leads to the end. *)

From S2P Require Export ChurnSpec.

#[local] Open Scope Z_scope.

(** ** Sizes *)

(** Every class that can be chosen has sizes from 1 to [max]. *)
Definition class_sizes_ok (max : Z) (p : bench_churn_class_profile_t) : Prop :=
  0 < cp_weight p -> 1 <= cp_min_size p <= max /\ 0 <= cp_max_size p <= max.

Record profile_ok (max : Z) (p : bench_churn_profile_t) : Prop := {
  po_max : 1 <= max < 2 ^ 32;
  po_weight : total_class_weight (pf_classes p) <> 0;
  po_small : 1 <= cp_min_size (pf_small p) <= max;
  po_classes : Forall (fun c => 0 <= cp_weight (snd c) /\ class_sizes_ok max (snd c))
                 (pf_classes p);
}.

Lemma class_at_ok max classes : forall r cls p,
  Forall (fun c : bench_churn_class_t * bench_churn_class_profile_t =>
    0 <= cp_weight (snd c) /\ class_sizes_ok max (snd c)) classes ->
  0 <= r -> class_at classes r = Some (cls, p) ->
  1 <= cp_min_size p <= max /\ 0 <= cp_max_size p <= max.
Proof.
  induction classes as [| [c q] classes IH]; intros r cls p Hall Hr; cbn [class_at]; [done |].
  apply Forall_cons in Hall as [[Hw Hq] Hall]. cbn [snd] in *.
  destruct (Z.leb_spec (cp_weight q) r); [apply IH; [done | lia] |].
  intros [= <- <-]. apply Hq. lia.
Qed.

Lemma choose_churn_size_range max m size cls m' : profile_ok max (ch_profile m) ->
  choose_churn_size m = (size, cls, m') -> 1 <= size <= max.
Proof.
  intros [Hmax Hw Hsmall Hall]. unfold choose_churn_size.
  destruct (Z.eqb_spec (total_class_weight (pf_classes (ch_profile m))) 0); [done |].
  cbn [prng_next]. set (r := u32 (ch_state m * 1664525 + 1013904223)).
  set (total := total_class_weight (pf_classes (ch_profile m))).
  destruct (class_at _ _) as [[c p] |] eqn:Hc.
  2: { intros [= <- _ _]. exact Hsmall. }
  assert (Htot : 0 <= total).
  { unfold total, total_class_weight. clear. generalize (pf_classes (ch_profile m)). intros l.
    assert (Hge : forall a, 0 <= a -> 0 <= foldl (fun acc c => u32 (acc + cp_weight (snd c))) a l).
    { induction l as [| x l IH]; intros a Ha; [done |]. apply IH. by apply Z.mod_pos_bound. }
    by apply Hge. }
  apply (class_at_ok max) in Hc as [Hmin Hcmax]; [| done | apply Z.mod_pos_bound; lia].
  destruct (Z.leb_spec (cp_max_size p) (cp_min_size p)).
  { intros [= <- _ _]. exact Hmin. }
  intros [= <- _ _]. rewrite (u32_small (cp_max_size p - cp_min_size p + 1))
    by (unfold is_u32; lia).
  match goal with |- context [?x mod (cp_max_size p - cp_min_size p + 1)] =>
    pose proof (Z.mod_pos_bound x (cp_max_size p - cp_min_size p + 1) ltac:(lia)) end.
  rewrite u32_small by (unfold is_u32; lia). lia.
Qed.

(** ** The pending write *)

Lemma choose_live_slot_pending m i m' : choose_live_slot m = (i, m') ->
  ch_pending m' = ch_pending m.
Proof.
  unfold choose_live_slot. cbv zeta. destruct (_ =? 0); [by intros [= _ <-] |]. cbn [prng_next].
  destruct (_ !! _) as [[j s] |]; by intros [= _ <-].
Qed.

Lemma choose_delete_slot_pending m i m' : choose_delete_slot m = (i, m') ->
  ch_pending m' = ch_pending m.
Proof.
  unfold choose_delete_slot. cbv zeta. destruct (_ =? 0); [by intros [= _ <-] |].
  cbn [prng_next]. by intros [= _ <-].
Qed.

(** That a write is pending, and its size. *)
Definition pends (m : bench_churn_model_t) : bool * Z :=
  (pending_write (ch_pending m), pending_size (ch_pending m)).

Lemma optional_delete_pends m i m' : optional_delete m = (i, m') -> pends m' = pends m.
Proof.
  unfold optional_delete. destruct (optional_delete_checked _); [by intros [= _ <-] |]. cbv zeta.
  destruct (_ <? _); [| by intros [= _ <-]]. cbn [prng_next].
  destruct (_ =? 0); [| by intros [= _ <-]].
  intros Hd%choose_delete_slot_pending. unfold pends. by rewrite Hd.
Qed.

Lemma choose_slot_pends m i m' : choose_slot m = (i, m') -> pends m' = pends m.
Proof.
  unfold choose_slot. destruct (slot_chosen _); [by intros [= _ <-] |]. cbn [prng_next].
  set (m0 := set_ch_state _ m). assert (H0 : pends m0 = pends m) by done.
  set (m1 := if _ <? pf_replace_percent _ then _ else m0).
  assert (H1 : pends m1 = pends m).
  { unfold m1. destruct (_ <? _); [| done].
    destruct (choose_live_slot m0) as [slot ml] eqn:Hl.
    apply choose_live_slot_pending in Hl. unfold pends in *.
    destruct (0 <=? slot); cbn [set_ch_pending ch_pending set_target_slot pending_write
      pending_size]; by rewrite Hl. }
  clearbody m1. cbv zeta.
  set (m2 := if pending_slot (ch_pending m1) <? 0 then _ else m1).
  assert (H2 : pends m2 = pends m).
  { unfold m2. by destruct (_ <? 0). }
  clearbody m2.
  destruct (if pending_slot (ch_pending m2) <? 0 then choose_delete_slot m2 else (-1, m2))
    as [del m3] eqn:Hd.
  assert (H3 : pends m3 = pends m).
  { destruct (_ <? 0); [| by injection Hd as _ <-].
    apply choose_delete_slot_pending in Hd. unfold pends in *. by rewrite Hd. }
  destruct (0 <=? del); intros [= _ <-]; unfold pends in *;
    cbn [set_ch_pending ch_pending set_target_slot pending_write pending_size]; exact H3.
Qed.

Lemma next_event_pends m e m' : next_event m = (e, m') ->
  pends m' = pends m /\
  (ev_type e = BENCH_CHURN_EVENT_WRITE -> ev_size e = pending_size (ch_pending m)).
Proof.
  unfold next_event.
  destruct (if over_target m then choose_delete_slot m else (-1, m)) as [d1 m1] eqn:H1.
  assert (Hp1 : pends m1 = pends m).
  { destruct (over_target m); [| by injection H1 as _ <-].
    apply choose_delete_slot_pending in H1. unfold pends. by rewrite H1. }
  destruct (0 <=? d1); [by intros [= <- <-] |].
  destruct (optional_delete m1) as [d2 m2] eqn:H2. apply optional_delete_pends in H2 as Hp2.
  destruct (0 <=? d2); [intros [= <- <-]; split; [congruence | done] |].
  destruct (choose_slot m2) as [d3 m3] eqn:H3. apply choose_slot_pends in H3 as Hp3.
  destruct (0 <=? d3); [intros [= <- <-]; split; [congruence | done] |].
  destruct (_ <? 0); intros [= <- <-]; (split; [congruence |]); [done |].
  intros _. cbn [fill_write_event ev_size]. unfold pends in *. congruence.
Qed.

(** ** The measure *)

Section Ends.
Context (max : Z).

Record churn_bounds (m : bench_churn_model_t) : Prop := {
  cb_profile_ok : profile_ok max (ch_profile m);
  cb_total : 0 <= total_written (ch_counts m) < 2 ^ 32;
  cb_target : 0 <= target_written_bytes (ch_targets m) <= 2 ^ 32 - max;
  cb_forced : 350 * 1024 <= max \/
    target_written_bytes (ch_targets m) <= force_large_after_bytes (ch_targets m);
  cb_pending : pending_write (ch_pending m) = true ->
    total_written (ch_counts m) < target_written_bytes (ch_targets m) /\
    1 <= pending_size (ch_pending m) <= max;
}.

(** What is left: the bytes to write, twice, and the live files. *)
Definition churn_left (m : bench_churn_model_t) : Z :=
  2 * Z.max 0 (target_written_bytes (ch_targets m) - total_written (ch_counts m)) +
  live_file_count (ch_counts m).

Lemma churn_left_nonneg m : churn_ok m -> 0 <= churn_left m.
Proof.
  intros Hok. unfold churn_left. rewrite (co_files _ Hok).
  pose proof (files_nonneg (ch_slots m)). lia.
Qed.

Lemma start_pending_bounds m : churn_bounds m ->
  total_written (ch_counts m) < target_written_bytes (ch_targets m) ->
  1 <= pending_size (ch_pending (start_pending m)) <= max.
Proof.
  intros Hb Hlt. unfold start_pending.
  destruct (if _ && _ then _ else choose_churn_size m) as [[size cls] m1] eqn:Hc.
  cbn [set_ch_pending ch_pending pending_size].
  destruct (_ && _) eqn:Hf.
  - injection Hc as <- _ _. apply andb_true_iff in Hf as [_ Hf%Z.leb_le].
    destruct (cb_forced _ Hb); lia.
  - by apply (choose_churn_size_range _ _ _ _ _ (cb_profile_ok _ Hb) Hc).
Qed.

(** The next event, from a state within the bounds. *)
Lemma churn_next_bounds m e m' : churn_ok m -> churn_bounds m ->
  bench_churn_model_next m = (e, m') ->
  churn_bounds m' /\
  (ev_type e = BENCH_CHURN_EVENT_WRITE ->
     1 <= ev_size e <= max /\
     total_written (ch_counts m) < target_written_bytes (ch_targets m)).
Proof.
  intros Hok Hb Hn. pose proof (churn_next_ok m e m' Hok Hn) as (Hs & _ & _).
  assert (Hpart : (pending_write (ch_pending m') = true ->
      total_written (ch_counts m) < target_written_bytes (ch_targets m) /\
      1 <= pending_size (ch_pending m') <= max) /\
    (ev_type e = BENCH_CHURN_EVENT_WRITE -> 1 <= ev_size e <= max /\
      total_written (ch_counts m) < target_written_bytes (ch_targets m))).
  { revert Hn. unfold bench_churn_model_next.
    destruct (pending_write (ch_pending m)) eqn:Hw.
    - intros [Hp He]%next_event_pends. destruct (cb_pending _ Hb Hw) as [Hlt Hsz].
      unfold pends in Hp. injection Hp as _ Hp. split; [intros _; by rewrite Hp |].
      intros Hty. by rewrite (He Hty).
    - destruct (Z.leb_spec (target_written_bytes (ch_targets m)) (total_written (ch_counts m))).
      + intros [= <- <-]. split; [by rewrite Hw | done].
      + pose proof (start_pending_bounds m Hb ltac:(lia)) as Hsz.
        intros [Hp He]%next_event_pends. unfold pends in Hp. injection Hp as _ Hp.
        split; [intros _; by rewrite Hp |]. intros Hty. by rewrite (He Hty). }
  destruct Hpart as [Hp He]. split; [| exact He]. destruct Hb as [Hprof Htot Htgt Hfor _].
  split; rewrite ?(sf_profile _ _ Hs), ?(sf_counts _ _ Hs), ?(sf_targets _ _ Hs); done.
Qed.

(** Applying an event keeps the bounds and leaves less to do. *)
Lemma churn_apply_bounds m e m' : churn_ok m -> churn_bounds m ->
  bench_churn_model_next m = (e, m') ->
  ev_type e = BENCH_CHURN_EVENT_DELETE \/ ev_type e = BENCH_CHURN_EVENT_WRITE ->
  churn_ok (bench_churn_model_apply m' e) /\ churn_bounds (bench_churn_model_apply m' e) /\
  churn_left (bench_churn_model_apply m' e) < churn_left m.
Proof.
  intros Hok Hb Hn Hty.
  pose proof (churn_next_ok m e m' Hok Hn) as (Hs & He & Hp).
  pose proof (churn_next_bounds m e m' Hok Hb Hn) as [Hb' Hw].
  destruct Hty as [Hty | Hty]; rewrite Hty in Hp.
  - assert (Hok' : churn_ok (bench_churn_model_apply m' e)) by (by eapply apply_delete_ok).
    split; [exact Hok' |].
    pose proof (churn_left_nonneg _ Hok') as Hge. unfold event_ok in He. rewrite Hty in He.
    destruct He as (Hr & Hl & _). pose proof (slot_at_lookup m _ Hr) as Hi.
    assert (Hfiles : 1 <= live_file_count (ch_counts m)).
    { rewrite (co_files _ Hok). pose proof (zsum_insert live_one _ _ _ cslot_zero Hi) as Hz.
      pose proof (files_nonneg (<[Z.to_nat (ev_slot e) := cslot_zero]> (ch_slots m))).
      assert (H1 : live_one (slot_at m (ev_slot e)) = 1) by (unfold live_one; by rewrite Hl).
      assert (H0 : live_one cslot_zero = 0) by done. lia. }
    unfold churn_left, bench_churn_model_apply. rewrite Hty, (slot_at_same _ _ _ Hs), Hl.
    cbv zeta. destruct Hb' as [Hprof Htot Htgt Hfor Hpend].
    split; [split; done |]. cbn [ch_targets ch_counts sample_live_file_count count_deleted
      total_written live_file_count].
    rewrite (sf_counts _ _ Hs), (sf_targets _ _ Hs).
    destruct (Z.ltb_spec 0 (live_file_count (ch_counts m))); lia.
  - assert (Hok' : churn_ok (bench_churn_model_apply m' e)) by (by eapply apply_write_ok).
    split; [exact Hok' |]. destruct (Hw Hty) as [Hsz Hlt].
    pose proof (co_files _ Hok) as Hf. pose proof (files_nonneg (ch_slots m)) as Hf0.
    pose proof (files_bound m) as Hf1. pose proof (co_slots _ Hok) as Hsl.
    unfold churn_left, bench_churn_model_apply. rewrite Hty. cbv zeta.
    destruct Hb' as [Hprof Htot Htgt Hfor _]. pose proof (po_max _ _ Hprof) as Hmax.
    set (old := if _ && _ then _ else None).
    assert (Htot' : u32 (total_written (ch_counts m') + ev_size e) =
      total_written (ch_counts m) + ev_size e).
    { rewrite (sf_counts _ _ Hs). rewrite (sf_targets _ _ Hs) in Htgt.
      apply u32_small. pose proof (cb_total _ Hb). unfold is_u32. lia. }
    split.
    + split; cbn [ch_profile ch_counts ch_targets ch_pending sample_live_file_count
        count_written total_written pending_write]; rewrite ?Htot'; try done.
      rewrite (sf_targets _ _ Hs) in Htgt. pose proof (cb_total _ Hb). lia.
    + cbn [ch_targets ch_counts sample_live_file_count count_written total_written
        live_file_count]. rewrite Htot', (sf_counts _ _ Hs), (sf_targets _ _ Hs).
      assert (Hl1 : u32 (live_file_count (ch_counts m) + 1) = live_file_count (ch_counts m) + 1).
      { apply u32_small. unfold is_u32. lia. }
      destruct old; rewrite ?Hl1; lia.
Qed.
End Ends.

Lemma churn_init_bounds max seed targets p n m :
  bench_churn_model_init_profile seed targets (Some p) n = Some m ->
  profile_ok max p -> 0 <= target_written_bytes targets <= 2 ^ 32 - max ->
  (350 * 1024 <= max \/ target_written_bytes targets <= force_large_after_bytes targets) ->
  0 < n < 2 ^ 31 ->
  churn_ok m /\ churn_bounds max m /\ churn_left m = 2 * target_written_bytes targets.
Proof.
  unfold bench_churn_model_init_profile. destruct (Z.eqb_spec n 0); [done |].
  cbn [default]. intros Hi Hp Ht Hf Hn.
  assert (Hlen : zlen (replicate (Z.to_nat n) cslot_zero) = n)
    by (unfold zlen; rewrite length_replicate; lia).
  assert (Hzero : forall f : bench_churn_slot_t -> Z, f cslot_zero = 0 ->
    zsum (f <$> replicate (Z.to_nat n) cslot_zero) = 0).
  { intros f Hf0. generalize (Z.to_nat n). intros k. induction k as [| k IH]; [done |].
    cbn. unfold zsum in *. cbn in *. rewrite Hf0. lia. }
  apply (inj Some) in Hi as <-.
  split; [| split].
  - split; cbn [ch_slots ch_counts ch_pending live_file_count live_bytes protected_large_slot
      pending_write]; rewrite ?Hlen, ?Hzero by done; try done; try lia.
    intros i s Hi Hl. by apply lookup_replicate_1 in Hi as [-> _].
  - split; cbn [ch_profile ch_counts ch_targets ch_pending total_written pending_write]; try done.
  - unfold churn_left. cbn [ch_targets ch_counts total_written live_file_count]. lia.
Qed.
