(* ===== verification/ApiWorkload.v ===== *)
(** * The workloads of the API crash sweep

    [src/tools/fffs_api_crash_sweep.c], the generation of workloads: the events
    of the churn model become sequences of API steps (open, writes of random
    sizes, close, delete, collection), and the model of the expected files.

    The array of steps is the list of its used entries; [capacity] bounds its
    length. *)

From S2P Require Export ChurnSpec.

#[local] Open Scope Z_scope.

(** ** Data *)

Abbreviation API_SWEEP_FILE_COUNT := BENCH_CHURN_MAX_FILES.
Abbreviation API_SWEEP_PROGRAM_GRANULE := 4.
Abbreviation API_SWEEP_CHURN_GC_STEPS := 8.

Inductive api_step_type : Type :=
| API_STEP_OPEN_WRITE
| API_STEP_WRITE
| API_STEP_CLOSE
| API_STEP_DELETE
| API_STEP_GC.

#[global] Instance api_step_type_eq_dec : EqDecision api_step_type.
Proof. solve_decision. Defined.

Record api_step : Type := mk_step {
  as_type : api_step_type;
  as_file_id : Z;
  as_tx_id : Z;
  as_offset : Z;
  as_size : Z;
  as_name : list Z;
}.

Record model_file : Type := mk_mfile {
  mf_exists : bool;
  mf_file_id : Z;
  mf_tx_id : Z;
  mf_size : Z;
  mf_name : list Z;
}.

Definition mfile_zero : model_file := mk_mfile false 0 0 0 [].

Abbreviation api_model := (list model_file).

Definition api_model_zero : api_model := replicate (Z.to_nat API_SWEEP_FILE_COUNT) mfile_zero.

Definition model_file_at (model : api_model) (id : Z) : model_file :=
  nth (Z.to_nat id) model mfile_zero.

Record open_tx : Type := mk_tx {
  tx_active : bool;
  tx_file_id : Z;
  tx_id : Z;
  tx_size : Z;
  tx_written : Z;
  tx_name : list Z;
  tx_data : list Z;
}.

Definition tx_zero : open_tx := mk_tx false 0 0 0 0 [] [].

Record api_stats : Type := mk_api_stats {
  st_crash_points : Z;
  st_sampled_faults : Z;
  st_random_workloads : Z;
  st_invariant_failures : Z;
  st_small_writes : Z;
  st_medium_writes : Z;
  st_large_writes : Z;
  st_churn_deletes : Z;
  st_write_bytes : Z;
  st_generated_steps : Z;
  st_truncated_workloads : Z;
}.

Definition api_stats_zero : api_stats := mk_api_stats 0 0 0 0 0 0 0 0 0 0 0.

Record api_sweep_config : Type := mk_api_config {
  ac_sector_size : Z;
  ac_sector_count : Z;
  ac_index_sectors : Z;
  ac_format_sector_size : Z;
}.

Definition api_sweep_image_size (config : api_sweep_config) : Z :=
  usz (ac_sector_size config * ac_sector_count config).

Definition api_sweep_max_content (config : api_sweep_config) : Z :=
  let max := usz (api_sweep_image_size config * 40) / 100 in
  if UINT16_MAX <? max then UINT16_MAX else max.

(** ** Steps *)

Definition rng_next (rng : Z) : Z := u32 (rng * 1664525 + 1013904223).

(** [snprintf] into the name of a step. *)
Definition step_name (name : list Z) : list Z := take (Z.to_nat FFFS_MAX_NAME) name.

Definition gc_step : api_step := mk_step API_STEP_GC 0 0 0 API_SWEEP_CHURN_GC_STEPS [].

Definition append_gc_step (steps : list api_step) (capacity : Z) : list api_step :=
  if zlen steps <? capacity then steps ++ [gc_step] else steps.

(** The chunks of a write from [off] on; each round writes at least a byte, so
    that [size] rounds are enough.  The steps, the end and the generator. *)
Fixpoint append_chunks (n : nat) (steps : list api_step) (capacity file_id : Z)
    (name : list Z) (tx_id size off rng : Z) : list api_step * Z * Z :=
  match n with
  | O => (steps, off, rng)
  | S n' =>
      if (off <? size) && (zlen steps <? capacity) then
        let r := rng_next rng in
        let chunk := 17 + r mod 149 in
        let chunk := if size - off <? chunk then size - off else chunk in
        let steps := steps ++ [mk_step API_STEP_WRITE file_id tx_id (u16 off) (u16 chunk)
                                 (step_name name)] in
        let steps := if Z.land r 1 =? 0 then append_gc_step steps capacity else steps in
        append_chunks n' steps capacity file_id name tx_id size (off + chunk) r
      else (steps, off, rng)
  end.

(** The steps, the generator and [*complete]. *)
Definition append_write_tx (steps : list api_step) (capacity file_id : Z) (name : list Z)
    (tx_id size rng : Z) : list api_step * Z * bool :=
  if capacity <=? zlen steps then (steps, rng, false)
  else
    let open := mk_step API_STEP_OPEN_WRITE file_id tx_id 0 (u16 size) (step_name name) in
    let '(body, _, rng) := append_chunks (Z.to_nat size) (steps ++ [open]) capacity file_id
                             name tx_id size 0 rng in
    if zlen body <? capacity
    then (append_gc_step
            (body ++ [mk_step API_STEP_CLOSE file_id tx_id 0 0 (step_name name)]) capacity,
          rng, true)
    else (steps, rng, false).

(** ** Sizes *)

Definition scaled_churn_size (event : bench_churn_event_t) (config : api_sweep_config) : Z :=
  let max_content := api_sweep_max_content config in
  let large_min := max_content * 3 / 4 in
  let large_span := max_content - large_min + 1 in
  match ev_cls event with
  | BENCH_CHURN_CLASS_SMALL => 16 + ev_write_seed event mod 145
  | BENCH_CHURN_CLASS_MEDIUM => 600 + ev_write_seed event mod 1800
  | BENCH_CHURN_CLASS_LARGE => large_min + ev_write_seed event mod large_span
  end.

Definition api_sweep_file_data_per_sector (config : api_sweep_config) : Z :=
  let raw := usz (ac_sector_size config - FFFS_SECTOR_FOOTER_SIZE - FFFS_MD_FILE_RECORD_SIZE) in
  raw - raw mod API_SWEEP_PROGRAM_GRANULE.

Definition api_sweep_file_sector_count (payload_size : Z) (config : api_sweep_config) : Z :=
  let data_per_sector := api_sweep_file_data_per_sector config in
  if payload_size =? 0 then 1
  else (payload_size + data_per_sector - 1) / data_per_sector.

Definition estimated_file_footprint (payload_size : Z) (config : api_sweep_config) : Z :=
  usz (api_sweep_file_sector_count payload_size config * ac_sector_size config).

(** The size that is written for an event, and the one that is charged. *)
Definition content_size (event : bench_churn_event_t) (config : api_sweep_config) : Z :=
  let size := scaled_churn_size event config in
  if api_sweep_max_content config <? size then api_sweep_max_content config else size.

Definition charged_size (size : Z) (config : api_sweep_config) : Z :=
  let model_size := estimated_file_footprint size config in
  if UINT32_MAX <? model_size then UINT32_MAX else model_size.

(** ** The workload *)

Definition count_churn_delete (s : api_stats) : api_stats :=
  mk_api_stats (st_crash_points s) (st_sampled_faults s) (st_random_workloads s)
    (st_invariant_failures s) (st_small_writes s) (st_medium_writes s) (st_large_writes s)
    (usz (st_churn_deletes s + 1)) (st_write_bytes s) (st_generated_steps s)
    (st_truncated_workloads s).

Definition count_churn_write (cls : bench_churn_class_t) (size : Z) (s : api_stats) : api_stats :=
  let one c := if bool_decide (c = cls) then 1 else 0 in
  mk_api_stats (st_crash_points s) (st_sampled_faults s) (st_random_workloads s)
    (st_invariant_failures s)
    (usz (st_small_writes s + one BENCH_CHURN_CLASS_SMALL))
    (usz (st_medium_writes s + one BENCH_CHURN_CLASS_MEDIUM))
    (usz (st_large_writes s + one BENCH_CHURN_CLASS_LARGE))
    (st_churn_deletes s) (usz (st_write_bytes s + size)) (st_generated_steps s)
    (st_truncated_workloads s).

Section Workload.
Context (seed capacity tx_count target_written : Z) (config : api_sweep_config).

(** The variables of the loop. *)
Record gen_state : Type := mk_genstate {
  gs_steps : list api_step;
  gs_model : bench_churn_model_t;
  gs_rng : Z;
  gs_tx : Z;
  gs_written : Z;
  gs_stats : api_stats;
}.

(** One round; [None] when the loop is left. *)
Definition churn_round (s : gen_state) : option gen_state :=
  let (event, m) := bench_churn_model_next (gs_model s) in
  match ev_type event with
  | BENCH_CHURN_EVENT_DONE | BENCH_CHURN_EVENT_NO_SLOT => None
  | BENCH_CHURN_EVENT_DELETE =>
      let steps :=
        if zlen (gs_steps s) <? capacity
        then gs_steps s ++ [mk_step API_STEP_DELETE (u16 (ev_slot event)) 0 0 0
                              (step_name (ev_name event))]
        else gs_steps s in
      Some (mk_genstate (append_gc_step steps capacity) (bench_churn_model_apply m event)
              (gs_rng s) (gs_tx s + 1) (gs_written s) (count_churn_delete (gs_stats s)))
  | BENCH_CHURN_EVENT_WRITE =>
      let size := content_size event config in
      let event := resize_event (charged_size size config) event in
      let '(steps, rng, complete) :=
        append_write_tx (gs_steps s) capacity (u16 (ev_slot event)) (ev_name event)
          (u16 (Z.lxor (ev_write_seed event) seed)) size (gs_rng s) in
      if negb (complete : bool) then None
      else Some (mk_genstate steps (bench_churn_model_apply m event) rng (gs_tx s + 1)
                   (usz (gs_written s + size))
                   (count_churn_write (ev_cls event) size (gs_stats s)))
  end.

(** Each round adds a step, so that [capacity] rounds are enough. *)
Fixpoint churn_rounds (n : nat) (s : gen_state) : gen_state :=
  match n with
  | O => s
  | S n' =>
      if (gs_tx s <? tx_count) && (zlen (gs_steps s) <? capacity) &&
         (gs_written s <? target_written)
      then match churn_round s with
           | None => s
           | Some s => churn_rounds n' s
           end
      else s
  end.
End Workload.

Definition churn_sweep_targets (config : api_sweep_config) (target_written64 : Z)
  : churn_targets :=
  let image_size := api_sweep_image_size config in
  let force := if UINT32_MAX <? target_written64 / 10 then UINT32_MAX
               else u32 (target_written64 / 10) in
  let force := if force <? 20 * 1024 then 20 * 1024 else force in
  mk_targets (u32 (usz (image_size * 75) / 100)) UINT32_MAX (u32 (image_size / 8)) force.

(** The steps and the counters. *)
Definition churn_workload (seed capacity tx_count target_write_multiple : Z)
    (config : api_sweep_config) (stats : api_stats) : list api_step * api_stats :=
  let target := usz (api_sweep_image_size config * target_write_multiple) in
  match bench_churn_model_init seed (churn_sweep_targets config target) with
  | None => ([], stats)
  | Some m =>
      let s := churn_rounds seed capacity tx_count target config (Z.to_nat capacity)
                 (mk_genstate [] m (Z.lxor seed 0x5eed1234) 0 0 stats) in
      (gs_steps s, gs_stats s)
  end.
