(* ===== verification/ApiModel.v ===== *)
(** * The expected files of the API crash sweep

    The sweep keeps the expected files in an array by slot; the file system
    knows them by name.  The workloads of [ApiWorkload] are such that the two
    agree: every transaction is complete, its writes cover the file in order,
    and a deletion names the file of its slot. *)

From S2P Require Export ApiWorkload.

#[local] Open Scope Z_scope.

(** ** The model of the code *)

Definition model_apply_step (model : api_model) (step : api_step) (before_tx : open_tx)
  : api_model :=
  if bool_decide (as_type step = API_STEP_CLOSE) && tx_active before_tx then
    <[Z.to_nat (tx_file_id before_tx) :=
        mk_mfile true (tx_file_id before_tx) (tx_id before_tx) (tx_size before_tx)
          (tx_name before_tx)]> model
  else if bool_decide (as_type step = API_STEP_DELETE) then
    let f := model_file_at model (as_file_id step) in
    <[Z.to_nat (as_file_id step) :=
        mk_mfile false (mf_file_id f) (mf_tx_id f) (mf_size f) (mf_name f)]> model
  else model.

(** The transaction after a step whose file system call succeeds; [None] when
    the step is refused.  [content] is what the file will hold. *)
Definition tx_next (content : Z -> Z -> Z -> list Z) (tx : open_tx) (step : api_step)
  : option open_tx :=
  match as_type step with
  | API_STEP_OPEN_WRITE =>
      if tx_active tx then None
      else Some (mk_tx true (as_file_id step) (as_tx_id step) (as_size step) 0 (as_name step)
                   (content (as_tx_id step) (as_file_id step) (as_size step)))
  | API_STEP_WRITE =>
      if negb (tx_active tx) || (tx_size tx <? as_offset step) ||
         (tx_size tx - as_offset step <? as_size step) then None
      else Some (mk_tx true (tx_file_id tx) (tx_id tx) (tx_size tx)
                   (tx_written tx + as_size step) (tx_name tx) (tx_data tx))
  | API_STEP_CLOSE =>
      if negb (tx_active tx) || negb (tx_written tx =? tx_size tx) then None
      else Some (mk_tx false (tx_file_id tx) (tx_id tx) (tx_size tx) (tx_written tx)
                   (tx_name tx) (tx_data tx))
  | API_STEP_DELETE => if tx_active tx then None else Some tx
  | API_STEP_GC => Some tx
  end.

(** ** The namespace by name

    What the steps do to a file system that executes them: a file appears when
    it is closed, with the transaction that wrote it, and a deletion removes
    the name. *)

Abbreviation api_namespace := (gmap (list Z) (Z * Z * Z)).

Definition ns_apply_step (ns : api_namespace) (step : api_step) (before_tx : open_tx)
  : api_namespace :=
  match as_type step with
  | API_STEP_CLOSE =>
      <[tx_name before_tx := (tx_file_id before_tx, tx_id before_tx, tx_size before_tx)]> ns
  | API_STEP_DELETE => delete (as_name step) ns
  | _ => ns
  end.

(** The files of the model, by name. *)
Definition model_tracks (model : api_model) (ns : api_namespace) : Prop :=
  forall name file_id tx_id size,
    ns !! name = Some (file_id, tx_id, size) <->
    exists i, model !! i = Some (mk_mfile true file_id tx_id size name).

(** ** A strict reading of the steps *)

Record api_run : Type := mk_run {
  ar_tx : open_tx;
  ar_model : api_model;
  ar_ns : api_namespace;
}.

(** More than [tx_next] asks: a write continues where the last one ended, and a
    deletion is that of the existing file of its slot. *)
Definition step_expected (s : api_run) (step : api_step) : bool :=
  match as_type step with
  | API_STEP_WRITE =>
      (as_offset step =? tx_written (ar_tx s)) && (0 <? as_size step) &&
      bool_decide (as_name step = tx_name (ar_tx s))
  | API_STEP_CLOSE => bool_decide (as_name step = tx_name (ar_tx s))
  | API_STEP_DELETE =>
      let f := model_file_at (ar_model s) (as_file_id step) in
      mf_exists f && bool_decide (mf_name f = as_name step)
  | _ => true
  end.

Section Run.
Context (content : Z -> Z -> Z -> list Z).

Definition run_step (s : api_run) (step : api_step) : option api_run :=
  match tx_next content (ar_tx s) step with
  | None => None
  | Some tx =>
      if step_expected s step
      then Some (mk_run tx (model_apply_step (ar_model s) step (ar_tx s))
                   (ns_apply_step (ar_ns s) step (ar_tx s)))
      else None
  end.

Fixpoint run_steps (s : api_run) (steps : list api_step) : option api_run :=
  match steps with
  | [] => Some s
  | step :: steps =>
      match run_step s step with
      | None => None
      | Some s => run_steps s steps
      end
  end.

Lemma run_steps_app l1 l2 : forall s s1,
  run_steps s l1 = Some s1 -> run_steps s (l1 ++ l2) = run_steps s1 l2.
Proof.
  induction l1 as [| step l1 IH]; intros s s1; simpl; [by intros [= ->] |].
  destruct (run_step s step); [apply IH | done].
Qed.

Lemma run_steps_snoc l step s s1 s2 :
  run_steps s l = Some s1 -> run_step s1 step = Some s2 -> run_steps s (l ++ [step]) = Some s2.
Proof. intros H1 H2. rewrite (run_steps_app _ _ _ _ H1). simpl. by rewrite H2. Qed.

Lemma run_gc_step s : run_step s gc_step = Some s.
Proof. by destruct s. Qed.

Lemma run_append_gc s0 steps s capacity : run_steps s0 steps = Some s ->
  run_steps s0 (append_gc_step steps capacity) = Some s.
Proof.
  intros Hrun. unfold append_gc_step. destruct (_ <? _); [| done].
  eapply run_steps_snoc; [done | apply run_gc_step].
Qed.

Lemma zlen_append_gc steps capacity : zlen steps <= zlen (append_gc_step steps capacity).
Proof.
  unfold append_gc_step. destruct (_ <? _); [| lia]. rewrite zlen_app.
  pose proof (zlen_nonneg [gc_step]). lia.
Qed.

(** ** Transactions *)

(** Inside the transaction of [tx]: the model and the names do not change. *)
Definition in_tx (s : api_run) (file_id tx_id size written : Z) (name : list Z) (s' : api_run)
  : Prop :=
  tx_active (ar_tx s') = true /\ tx_file_id (ar_tx s') = file_id /\
  ApiWorkload.tx_id (ar_tx s') = tx_id /\ tx_size (ar_tx s') = size /\
  tx_written (ar_tx s') = written /\ tx_name (ar_tx s') = name /\
  ar_model s' = ar_model s /\ ar_ns s' = ar_ns s.

Lemma append_chunks_run s0 s file_id tx_id size capacity name : size <= UINT16_MAX ->
  forall n steps off rng s1 steps' off' rng',
  0 <= off <= size -> size - off <= Z.of_nat n ->
  run_steps s0 steps = Some s1 -> in_tx s file_id tx_id size off (step_name name) s1 ->
  append_chunks n steps capacity file_id name tx_id size off rng = (steps', off', rng') ->
  exists s2, run_steps s0 steps' = Some s2 /\
    in_tx s file_id tx_id size off' (step_name name) s2 /\
    (zlen steps' < capacity -> off' = size) /\ zlen steps <= zlen steps'.
Proof.
  intros Hmax. induction n as [| n IH]; intros steps off rng s1 steps' off' rng' Hoff Hn Hrun Htx;
    cbn [append_chunks].
  { intros [= <- <- <-]. exists s1. repeat (split; [done || lia |]). lia. }
  destruct (Z.ltb_spec off size) as [Hlt | Hge]; cbn [andb].
  2: { intros [= <- <- <-]. exists s1. repeat (split; [done || lia |]). lia. }
  destruct (Z.ltb_spec (zlen steps) capacity) as [Hroom | Hfull].
  2: { intros [= <- <- <-]. exists s1. repeat (split; [done || lia |]). lia. }
  cbv zeta. set (r := rng_next rng).
  set (chunk := if size - off <? 17 + r mod 149 then size - off else 17 + r mod 149).
  assert (Hchunk : 0 < chunk <= size - off).
  { unfold chunk. pose proof (Z.mod_pos_bound r 149 ltac:(lia)).
    destruct (Z.ltb_spec (size - off) (17 + r mod 149)); lia. }
  set (w := mk_step API_STEP_WRITE file_id tx_id (u16 off) (u16 chunk) (step_name name)).
  destruct Htx as (Ha & Hf & Ht & Hs & Hw & Hnm & Hmo & Hns).
  assert (Hstep : exists s2, run_step s1 w = Some s2 /\
    in_tx s file_id tx_id size (off + chunk) (step_name name) s2).
  { unfold run_step, tx_next, step_expected, w. cbn [as_type as_offset as_size as_name].
    rewrite !u16_small by (unfold is_u16; lia). rewrite Ha, Hs, Hw, Hnm, Z.eqb_refl.
    destruct (Z.ltb_spec size off); [lia |].
    destruct (Z.ltb_spec (size - off) chunk); [lia |].
    destruct (Z.ltb_spec 0 chunk); [| lia]. rewrite bool_decide_true by done. simpl.
    eexists. split; [reflexivity |]. unfold in_tx. simpl. by repeat split. }
  destruct Hstep as (s2 & Hstep & Htx2).
  pose proof (run_steps_snoc _ _ _ _ _ Hrun Hstep) as Hrun2.
  set (steps2 := if Z.land r 1 =? 0 then append_gc_step (steps ++ [w]) capacity else steps ++ [w]).
  assert (Hrun3 : run_steps s0 steps2 = Some s2).
  { unfold steps2. destruct (_ =? 0); [by apply run_append_gc | done]. }
  assert (Hlen : zlen steps <= zlen steps2).
  { pose proof (zlen_append_gc (steps ++ [w]) capacity). unfold steps2.
    destruct (_ =? 0); rewrite zlen_snoc in *; lia. }
  intros Happ. destruct (IH steps2 (off + chunk) r s2 _ _ _ ltac:(lia) ltac:(lia) Hrun3 Htx2 Happ)
    as (s3 & H1 & H2 & H3 & H4).
  exists s3. repeat (split; [done |]). lia.
Qed.

(** Between two transactions. *)
Definition idle (s : api_run) : Prop := tx_active (ar_tx s) = false.

Lemma append_write_tx_run s0 s steps capacity file_id name tx_id size rng steps' rng' :
  0 <= size <= UINT16_MAX -> run_steps s0 steps = Some s -> idle s ->
  append_write_tx steps capacity file_id name tx_id size rng = (steps', rng', true) ->
  exists s', run_steps s0 steps' = Some s' /\ idle s' /\
    ar_model s' = <[Z.to_nat file_id :=
      mk_mfile true file_id tx_id size (step_name name)]> (ar_model s) /\
    ar_ns s' = <[step_name name := (file_id, tx_id, size)]> (ar_ns s) /\
    zlen steps < zlen steps'.
Proof.
  intros Hsize Hrun Hidle. unfold append_write_tx.
  destruct (capacity <=? zlen steps); [done |]. cbv zeta.
  set (open := mk_step API_STEP_OPEN_WRITE file_id tx_id 0 (u16 size) (step_name name)).
  destruct (append_chunks _ (steps ++ [open]) _ _ _ _ _ _ _) as [[body off] rng1] eqn:Hch.
  assert (Hopen : exists s1, run_step s open = Some s1 /\
    in_tx s file_id tx_id size 0 (step_name name) s1).
  { unfold run_step, tx_next, step_expected, open. cbn [as_type as_size].
    rewrite u16_small by (unfold is_u16; lia). unfold idle in Hidle. rewrite Hidle.
    eexists. split; [reflexivity |]. by repeat split. }
  destruct Hopen as (s1 & Hopen & Htx1).
  pose proof (run_steps_snoc _ _ _ _ _ Hrun Hopen) as Hrun1.
  destruct (append_chunks_run s0 s file_id tx_id size capacity name ltac:(lia)
    (Z.to_nat size) (steps ++ [open]) 0 rng s1 body off rng1 ltac:(lia) ltac:(lia) Hrun1
    Htx1 Hch) as (s2 & Hrun2 & Htx2 & Hend & Hlen).
  destruct (Z.ltb_spec (zlen body) capacity) as [Hroom | Hfull]; [| done].
  rewrite (Hend Hroom) in *. destruct Htx2 as (Ha & Hf & Ht & Hs & Hw & Hnm & Hmo & Hns).
  set (close := mk_step API_STEP_CLOSE file_id tx_id 0 0 (step_name name)).
  intros [= <- <-].
  assert (Hclose : exists s3, run_step s2 close = Some s3 /\ idle s3 /\
    ar_model s3 = <[Z.to_nat file_id :=
      mk_mfile true file_id tx_id size (step_name name)]> (ar_model s) /\
    ar_ns s3 = <[step_name name := (file_id, tx_id, size)]> (ar_ns s)).
  { unfold run_step, tx_next, step_expected, close. cbn [as_type as_name].
    rewrite Ha, Hw, Hs, Z.eqb_refl, Hnm, bool_decide_true by done. simpl.
    eexists. split; [reflexivity |]. split; [done |].
    unfold model_apply_step, ns_apply_step. simpl.
    by rewrite Ha, Hf, Ht, Hs, Hnm, Hmo, Hns. }
  destruct Hclose as (s3 & Hclose & Hidle3 & Hm3 & Hn3).
  exists s3. split; [apply run_append_gc; by eapply run_steps_snoc |].
  repeat (split; [done |]). pose proof (zlen_append_gc (body ++ [close]) capacity) as Hgc.
  rewrite zlen_snoc in *. lia.
Qed.
End Run.

(** ** The model and the names *)

(** The array of the model has the live files of the churn model. *)
Record agrees (m : bench_churn_model_t) (model : api_model) : Prop := {
  ag_len : zlen model = API_SWEEP_FILE_COUNT;
  ag_files : forall i f s, model !! i = Some f -> ch_slots m !! i = Some s ->
    mf_exists f = cs_live s /\ (cs_live s = true -> mf_name f = cs_name s);
}.

Lemma step_name_fit name : step_name (fit_name name) = fit_name name.
Proof. unfold step_name, fit_name. apply take_ge. rewrite length_take. lia. Qed.

Lemma event_name_fit m e : churn_reach m -> event_ok m e ->
  ev_type e = BENCH_CHURN_EVENT_DELETE \/ ev_type e = BENCH_CHURN_EVENT_WRITE ->
  fit_name (ev_name e) = ev_name e.
Proof.
  intros Hreach He Hty. destruct (churn_reach_ok m Hreach) as (Hok & _). unfold event_ok in He.
  assert (Hlive : 0 <= ev_slot e < zlen (ch_slots m) -> cs_live (slot_at m (ev_slot e)) = true ->
    fit_name (cs_name (slot_at m (ev_slot e))) = cs_name (slot_at m (ev_slot e))).
  { intros Hr. apply (fit_live_name m (Z.to_nat (ev_slot e)) _ Hok). by apply slot_at_lookup. }
  destruct Hty as [Hty | Hty]; rewrite Hty in He.
  - destruct He as (Hr & Hl & -> & _). by apply Hlive.
  - destruct He as (Hr & Hrep & ->). destruct (ev_replacing e); [by apply Hlive |].
    apply fit_name_fit.
Qed.

Lemma tracks_set model ns i id tx size name : model_tracks model ns -> (i < length model)%nat ->
  (forall j g, model !! j = Some g -> mf_exists g = true ->
     (mf_name g = name <-> j = i)) ->
  model_tracks (<[i := mk_mfile true id tx size name]> model) (<[name := (id, tx, size)]> ns).
Proof.
  intros Ht Hi Hother nm f t sz. destruct (decide (nm = name)) as [-> | Hne].
  - rewrite lookup_insert_eq. split.
    + intros [= <- <- <-]. exists i. by apply list_lookup_insert_eq.
    + intros (j & Hj). destruct (decide (j = i)) as [-> | Hji].
      * rewrite list_lookup_insert_eq in Hj by done. by injection Hj as <- <- <-.
      * rewrite list_lookup_insert_ne in Hj by done. destruct Hji.
        by apply (Hother j _ Hj eq_refl).
  - rewrite lookup_insert_ne, (Ht nm f t sz) by done.
    split; intros (j & Hj); exists j.
    + rewrite list_lookup_insert_ne; [done |]. intros ->. destruct Hne.
      by apply (Hother j _ Hj eq_refl).
    + destruct (decide (j = i)) as [-> | Hji].
      * rewrite list_lookup_insert_eq in Hj by done. injection Hj as ? ? ? ?. congruence.
      * by rewrite list_lookup_insert_ne in Hj.
Qed.

Lemma tracks_unset model ns i dead name : model_tracks model ns -> (i < length model)%nat ->
  mf_exists dead = false ->
  (forall j g, model !! j = Some g -> mf_exists g = true ->
     (mf_name g = name <-> j = i)) ->
  model_tracks (<[i := dead]> model) (delete name ns).
Proof.
  intros Ht Hi Hdead Hother nm f t sz.
  assert (Hkeep : forall j g, mf_exists g = true -> <[i := dead]> model !! j = Some g <->
    j <> i /\ model !! j = Some g).
  { intros j g Hg. destruct (decide (j = i)) as [-> | Hji].
    - rewrite list_lookup_insert_eq by done. split; [intros [= <-]; congruence | tauto].
    - rewrite list_lookup_insert_ne by done. tauto. }
  destruct (decide (nm = name)) as [-> | Hne].
  - rewrite lookup_delete_eq. split; [done |]. intros (j & Hj).
    apply Hkeep in Hj as [Hji Hj]; [| done]. destruct Hji. by apply (Hother j _ Hj eq_refl).
  - rewrite lookup_delete_ne, (Ht nm f t sz) by done.
    split; intros (j & Hj); exists j.
    + apply Hkeep; [done |]. split; [| done]. intros ->. destruct Hne.
      by apply (Hother i _ Hj eq_refl).
    + by apply Hkeep in Hj as [_ Hj].
Qed.

Lemma agrees_at m model i f : churn_reach m -> agrees m model -> model !! i = Some f ->
  exists s, ch_slots m !! i = Some s /\ mf_exists f = cs_live s /\
    (cs_live s = true -> mf_name f = cs_name s).
Proof.
  intros Hreach [Hlen Hf] Hi. destruct (churn_reach_ok m Hreach) as (_ & _ & Hn).
  apply lookup_lt_Some in Hi as Hlt. unfold zlen in *.
  destruct (lookup_lt_is_Some_2 (ch_slots m) i) as [s Hs]; [lia |].
  exists s. split; [done |]. by apply (Hf i f s).
Qed.

Lemma model_slot m model i s : churn_reach m -> agrees m model -> ch_slots m !! i = Some s ->
  exists f, model !! i = Some f /\ mf_exists f = cs_live s /\
    (cs_live s = true -> mf_name f = cs_name s).
Proof.
  intros Hreach [Hlen Hf] Hi. destruct (churn_reach_ok m Hreach) as (_ & _ & Hn).
  apply lookup_lt_Some in Hi as Hlt. unfold zlen in *.
  destruct (lookup_lt_is_Some_2 model i) as [f Hfi]; [lia |].
  exists f. split; [done |]. by apply (Hf i f s).
Qed.

Lemma agrees_update m m' model i s f : agrees m model -> (i < length (ch_slots m))%nat ->
  ch_slots m' = <[i := s]> (ch_slots m) -> mf_exists f = cs_live s ->
  (cs_live s = true -> mf_name f = cs_name s) -> agrees m' (<[i := f]> model).
Proof.
  intros [Hlen Hf] Hi Hs Hex Hnm. split; [unfold zlen in *; by rewrite length_insert |].
  intros j g t Hg Ht. rewrite Hs in Ht. destruct (decide (j = i)) as [-> | Hne].
  - apply list_lookup_insert_Some in Hg as [(_ & <- & _) | [Hne _]]; [| done].
    apply list_lookup_insert_Some in Ht as [(_ & <- & _) | [Hne _]]; done.
  - rewrite list_lookup_insert_ne in Hg by done. rewrite list_lookup_insert_ne in Ht by done.
    by apply (Hf j).
Qed.

(** ** The rounds of the generator *)

Section Rounds.
Context (content : Z -> Z -> Z -> list Z) (seed capacity tx_count target : Z)
  (config : api_sweep_config).

(** The run from the empty file system. *)
Definition run_start : api_run := mk_run tx_zero api_model_zero ∅.

Record round_ok (g : gen_state) (s : api_run) : Prop := {
  ro_reach : churn_reach (gs_model g);
  ro_run : run_steps content run_start (gs_steps g) = Some s;
  ro_idle : idle s;
  ro_agrees : agrees (gs_model g) (ar_model s);
  ro_tracks : model_tracks (ar_model s) (ar_ns s);
}.

(** A name that belongs to the slot of the event. *)
Lemma event_name_slot m model e : churn_reach m -> agrees m model -> event_ok m e ->
  ev_type e = BENCH_CHURN_EVENT_DELETE \/ ev_type e = BENCH_CHURN_EVENT_WRITE ->
  forall j g, model !! j = Some g -> mf_exists g = true ->
    (mf_name g = ev_name e -> j = Z.to_nat (ev_slot e)).
Proof.
  intros Hreach Hag He Hty j g Hg Hex Hnm.
  destruct (agrees_at m model j g Hreach Hag Hg) as (t & Ht & Hlive & Hname).
  rewrite Hex in Hlive. symmetry in Hlive. rewrite (Hname Hlive) in Hnm. unfold event_ok in He.
  assert (Hold : 0 <= ev_slot e < zlen (ch_slots m) ->
    cs_live (slot_at m (ev_slot e)) = true -> cs_name t = cs_name (slot_at m (ev_slot e)) ->
    j = Z.to_nat (ev_slot e)).
  { intros Hr Hl Heq. by apply (live_names_distinct m j _ t (slot_at m (ev_slot e)) Hreach Ht
      (slot_at_lookup m _ Hr)). }
  destruct Hty as [Hty | Hty]; rewrite Hty in He.
  - destruct He as (Hr & Hl & Hen & _). apply Hold; congruence.
  - destruct He as (Hr & Hrep & Hen). destruct (ev_replacing e).
    + apply Hold; congruence.
    + pose proof (new_name_fresh m (ev_slot e) j (ev_write_seed e) t Hreach Hr Ht Hlive
        ltac:(congruence)). lia.
Qed.

Lemma content_size_range e : 0 <= content_size e config <= UINT16_MAX.
Proof.
  assert (Hmax : 0 <= api_sweep_max_content config <= UINT16_MAX).
  { unfold api_sweep_max_content. cbv zeta.
    set (x := usz _ / 100). assert (0 <= x).
    { apply Z.div_pos; [| lia]. apply Z.mod_pos_bound. lia. }
    destruct (Z.ltb_spec UINT16_MAX x); lia. }
  unfold content_size. cbv zeta.
  assert (Hs : 0 <= scaled_churn_size e config).
  { unfold scaled_churn_size. cbv zeta. set (mx := api_sweep_max_content config) in *.
    destruct (ev_cls e).
    - pose proof (Z.mod_pos_bound (ev_write_seed e) 145 ltac:(lia)). lia.
    - pose proof (Z.mod_pos_bound (ev_write_seed e) 1800 ltac:(lia)). lia.
    - assert (0 <= mx * 3 / 4 <= mx).
      { split; [apply Z.div_pos; lia |]. apply Z.div_le_upper_bound; lia. }
      pose proof (Z.mod_pos_bound (ev_write_seed e) (mx - mx * 3 / 4 + 1) ltac:(lia)). lia. }
  destruct (Z.ltb_spec (api_sweep_max_content config) (scaled_churn_size e config)); lia.
Qed.

Lemma event_step_name m e : churn_reach m -> event_ok m e ->
  ev_type e = BENCH_CHURN_EVENT_DELETE \/ ev_type e = BENCH_CHURN_EVENT_WRITE ->
  step_name (ev_name e) = ev_name e.
Proof.
  intros Hreach He Hty. rewrite <- (event_name_fit m e Hreach He Hty). apply step_name_fit.
Qed.

Lemma event_slot_range m e : churn_reach m -> event_ok m e ->
  ev_type e = BENCH_CHURN_EVENT_DELETE \/ ev_type e = BENCH_CHURN_EVENT_WRITE ->
  0 <= ev_slot e < BENCH_CHURN_MAX_FILES /\ u16 (ev_slot e) = ev_slot e.
Proof.
  intros Hreach He Hty. destruct (churn_reach_ok m Hreach) as (_ & _ & Hn).
  assert (Hr : 0 <= ev_slot e < BENCH_CHURN_MAX_FILES).
  { unfold event_ok in He. rewrite <- Hn. destruct Hty as [Hty | Hty]; rewrite Hty in He; tauto. }
  split; [done |]. apply u16_small. unfold is_u16. lia.
Qed.

Lemma delete_round_ok g s e m' : round_ok g s -> zlen (gs_steps g) < capacity ->
  bench_churn_model_next (gs_model g) = (e, m') -> ev_type e = BENCH_CHURN_EVENT_DELETE ->
  exists s', round_ok
    (mk_genstate
       (append_gc_step (gs_steps g ++ [mk_step API_STEP_DELETE (u16 (ev_slot e)) 0 0 0
          (step_name (ev_name e))]) capacity)
       (bench_churn_model_apply m' e) (gs_rng g) (gs_tx g + 1) (gs_written g)
       (count_churn_delete (gs_stats g))) s'.
Proof.
  intros [Hreach Hrun Hidle Hag Htr] Hroom Hn Hty.
  assert (Hty' : ev_type e = BENCH_CHURN_EVENT_DELETE \/ ev_type e = BENCH_CHURN_EVENT_WRITE)
    by auto.
  destruct (churn_reach_ok _ Hreach) as (Hok & _ & Hlen).
  destruct (churn_next_ok _ _ _ Hok Hn) as (Hs & He & _).
  destruct (event_slot_range _ _ Hreach He Hty') as [Hr ->].
  rewrite (event_step_name _ _ Hreach He Hty').
  pose proof (event_name_slot _ _ _ Hreach Hag He Hty') as Hother.
  pose proof He as He'. unfold event_ok in He'. rewrite Hty in He'.
  destruct He' as (Hr' & Hl & Hnm & _).
  pose proof (slot_at_lookup _ _ Hr') as Hslot.
  destruct (model_slot _ _ _ _ Hreach Hag Hslot) as (f & Hf & Hex & Hfn).
  rewrite Hl in Hex. specialize (Hfn Hl).
  assert (Hat : model_file_at (ar_model s) (ev_slot e) = f).
  { unfold model_file_at. by rewrite nth_lookup, Hf. }
  set (d := mk_step API_STEP_DELETE (ev_slot e) 0 0 0 (ev_name e)).
  set (dead := mk_mfile false (mf_file_id f) (mf_tx_id f) (mf_size f) (mf_name f)).
  assert (Hstep : run_step content s d = Some (mk_run (ar_tx s)
    (<[Z.to_nat (ev_slot e) := dead]> (ar_model s)) (delete (ev_name e) (ar_ns s)))).
  { unfold run_step, tx_next, step_expected, model_apply_step, ns_apply_step, d.
    cbn [as_type as_file_id as_name]. unfold idle in Hidle. rewrite Hidle, Hat, Hex.
    rewrite bool_decide_true by congruence. done. }
  eexists. split; cbn [gs_model gs_steps].
  - replace e with (resize_event 0 e) by (unfold resize_event; by rewrite Hty).
    by apply (reach_step (gs_model g)).
  - apply run_append_gc. eapply run_steps_snoc; [exact Hrun | exact Hstep].
  - exact Hidle.
  - cbn [ar_model].
    assert (Hslots : ch_slots (bench_churn_model_apply m' e) =
      <[Z.to_nat (ev_slot e) := mk_cslot false (cs_cls (slot_at (gs_model g) (ev_slot e)))
          (cs_size (slot_at (gs_model g) (ev_slot e)))
          (cs_write_seed (slot_at (gs_model g) (ev_slot e)))
          (cs_name (slot_at (gs_model g) (ev_slot e)))]> (ch_slots (gs_model g))).
    { unfold bench_churn_model_apply. rewrite Hty, (slot_at_same _ _ _ Hs), Hl. cbv zeta.
      cbn [ch_slots]. by rewrite (sf_slots _ _ Hs). }
    eapply agrees_update; [exact Hag | unfold zlen in Hr'; lia | exact Hslots | done | done].
  - cbn [ar_model ar_ns]. apply tracks_unset; [done | by eapply lookup_lt_Some | done |].
    intros j gf Hj Hgex. split; [by apply Hother |]. intros ->. congruence.
Qed.

Lemma write_round_ok g s e m' steps rng size charged tx stats :
  round_ok g s -> bench_churn_model_next (gs_model g) = (e, m') ->
  ev_type e = BENCH_CHURN_EVENT_WRITE -> 0 <= size <= UINT16_MAX ->
  append_write_tx (gs_steps g) capacity (u16 (ev_slot e)) (ev_name e) tx size (gs_rng g) =
    (steps, rng, true) ->
  exists s', round_ok
    (mk_genstate steps (bench_churn_model_apply m' (resize_event charged e)) rng
       (gs_tx g + 1) (usz (gs_written g + size)) stats) s'.
Proof.
  intros [Hreach Hrun Hidle Hag Htr] Hn Hty Hsize Happ.
  assert (Hty' : ev_type e = BENCH_CHURN_EVENT_DELETE \/ ev_type e = BENCH_CHURN_EVENT_WRITE)
    by auto.
  destruct (churn_reach_ok _ Hreach) as (Hok & _ & Hlen).
  destruct (churn_next_ok _ _ _ Hok Hn) as (Hs & He & _).
  destruct (event_slot_range _ _ Hreach He Hty') as [Hr Hu]. rewrite Hu in Happ.
  pose proof (event_name_slot _ _ _ Hreach Hag He Hty') as Hother.
  destruct (append_write_tx_run content run_start s _ _ _ _ _ _ _ _ _ Hsize Hrun Hidle Happ)
    as (s' & Hrun' & Hidle' & Hmodel & Hns & _).
  rewrite (event_step_name _ _ Hreach He Hty') in Hmodel, Hns.
  pose proof He as He'. unfold event_ok in He'. rewrite Hty in He'.
  destruct He' as (Hr' & Hrep & Hnm).
  pose proof (slot_at_lookup _ _ Hr') as Hslot.
  destruct (model_slot _ _ _ _ Hreach Hag Hslot) as (f & Hf & Hex & Hfn).
  exists s'. split; cbn [gs_model gs_steps]; [by eapply reach_step | exact Hrun' | exact Hidle' | |].
  - rewrite Hmodel.
    assert (Hslots : ch_slots (bench_churn_model_apply m' (resize_event charged e)) =
      <[Z.to_nat (ev_slot e) := mk_cslot true (ev_cls e) charged (ev_write_seed e)
          (fit_name (ev_name e))]> (ch_slots (gs_model g))).
    { unfold bench_churn_model_apply, resize_event. rewrite Hty. cbn [ev_type].
      cbv zeta. cbn [ch_slots ev_slot]. by rewrite (sf_slots _ _ Hs). }
    eapply agrees_update; [exact Hag | unfold zlen in Hr'; lia | exact Hslots | done |].
    intros _. cbn [cs_name mf_name]. by rewrite (event_name_fit _ _ Hreach He Hty').
  - rewrite Hmodel, Hns. apply tracks_set; [done | by eapply lookup_lt_Some |].
    intros j gf Hj Hgex. split; [by apply Hother |]. intros ->.
    rewrite Hf in Hj. injection Hj as <-. rewrite Hex in Hgex.
    rewrite (Hfn Hgex), Hnm, Hrep, Hgex. done.
Qed.

Lemma churn_round_ok g s g' : round_ok g s -> zlen (gs_steps g) < capacity ->
  churn_round seed capacity config g = Some g' -> exists s', round_ok g' s'.
Proof.
  intros Hg Hroom. unfold churn_round.
  destruct (bench_churn_model_next (gs_model g)) as [e m'] eqn:Hn.
  destruct (ev_type e) eqn:Hty; try done.
  - destruct (Z.ltb_spec (zlen (gs_steps g)) capacity); [| lia]. intros [= <-].
    by apply (delete_round_ok g s e m').
  - cbv zeta.
    assert (Hres : forall c, ev_slot (resize_event c e) = ev_slot e /\
      ev_name (resize_event c e) = ev_name e).
    { intros c. unfold resize_event. by rewrite Hty. }
    set (c := charged_size _ config). destruct (Hres c) as [-> ->].
    destruct (append_write_tx _ _ _ _ _ _ _) as [[steps rng] [|]] eqn:Happ; [| done].
    intros [= <-]. eapply write_round_ok; [done | done | done | apply content_size_range | done].
Qed.

Lemma churn_rounds_ok n g s : round_ok g s ->
  exists s', round_ok (churn_rounds seed capacity tx_count target config n g) s'.
Proof.
  revert g s. induction n as [| n IH]; intros g s Hg; [by exists s |]. cbn [churn_rounds].
  destruct (_ <? tx_count); [| by exists s]. cbn [andb].
  destruct (Z.ltb_spec (zlen (gs_steps g)) capacity); [| by exists s]. cbn [andb].
  destruct (_ <? target); [| by exists s].
  destruct (churn_round seed capacity config g) as [g' |] eqn:Hr; [| by exists s].
  destruct (churn_round_ok g s g' Hg ltac:(lia) Hr) as [s' Hg']. by apply (IH g' s').
Qed.
End Rounds.

(** ** The bounds on the rounds *)

Lemma append_chunks_grows n : forall steps capacity file_id name tx size off rng steps' off' rng',
  append_chunks n steps capacity file_id name tx size off rng = (steps', off', rng') ->
  zlen steps <= zlen steps'.
Proof.
  induction n as [| n IH]; intros steps capacity file_id name tx size off rng steps' off' rng';
    cbn [append_chunks]; [intros [= <- <- <-]; lia |].
  destruct (_ && _); [| intros [= <- <- <-]; lia]. cbv zeta. intros Happ. apply IH in Happ.
  etransitivity; [| exact Happ]. destruct (_ =? 0).
  - etransitivity; [| apply zlen_append_gc]. rewrite zlen_snoc. lia.
  - rewrite zlen_snoc. lia.
Qed.

Lemma append_write_tx_grows steps capacity file_id name tx size rng steps' rng' :
  append_write_tx steps capacity file_id name tx size rng = (steps', rng', true) ->
  zlen steps < zlen steps'.
Proof.
  unfold append_write_tx. destruct (capacity <=? zlen steps); [done |]. cbv zeta.
  destruct (append_chunks _ _ _ _ _ _ _ _ _) as [[body off] r] eqn:Happ.
  destruct (_ <? _); [| done]. intros [= <- _]. apply append_chunks_grows in Happ.
  eapply Z.lt_le_trans; [| apply zlen_append_gc]. rewrite !zlen_snoc in *. lia.
Qed.

Lemma churn_round_grows seed capacity config g g' : zlen (gs_steps g) < capacity ->
  churn_round seed capacity config g = Some g' -> zlen (gs_steps g) < zlen (gs_steps g').
Proof.
  intros Hroom. unfold churn_round.
  destruct (bench_churn_model_next (gs_model g)) as [e m']. destruct (ev_type e); try done.
  - destruct (Z.ltb_spec (zlen (gs_steps g)) capacity); [| lia]. intros [= <-].
    eapply Z.lt_le_trans; [| apply zlen_append_gc]. rewrite zlen_snoc. lia.
  - cbv zeta. destruct (append_write_tx _ _ _ _ _ _ _) as [[steps rng] [|]] eqn:Happ; [| done].
    intros [= <-]. by apply append_write_tx_grows in Happ.
Qed.

(** The generator's loop ends by itself.  Each round adds at least a step to the
    array, so that as many rounds as there is room are enough: more of them
    change nothing. *)
Theorem churn_rounds_enough (seed capacity tx_count target : Z) config (n k : nat) g :
  capacity <= zlen (gs_steps g) + Z.of_nat n ->
  churn_rounds seed capacity tx_count target config (n + k) g =
  churn_rounds seed capacity tx_count target config n g.
Proof.
  revert g. induction n as [| n IH]; intros g Hn.
  - destruct k as [| k]; [done |]. cbn [churn_rounds Nat.add].
    destruct (Z.ltb_spec (zlen (gs_steps g)) capacity); [lia |]. by rewrite andb_false_r.
  - cbn [churn_rounds Nat.add]. destruct (_ <? tx_count); [| done]. cbn [andb].
    destruct (Z.ltb_spec (zlen (gs_steps g)) capacity); [| done]. cbn [andb].
    destruct (_ <? target); [| done].
    destruct (churn_round seed capacity config g) as [g' |] eqn:Hr; [| done].
    apply churn_round_grows in Hr; [| done]. apply IH. lia.
Qed.

Definition small_sweep_config : api_sweep_config := mk_api_config 512 8 1 512.

Definition small_sweep_start : gen_state :=
  mk_genstate [] (default (mk_churn 0 0 (mk_targets 0 0 0 0) (mk_counts 0 0 0 0 0 0 0 0 0)
      false (mk_pending false false false false (-1) BENCH_CHURN_CLASS_SMALL 0) (-1)
      default_profile [])
    (bench_churn_model_init 1 (mk_targets 1000 1000 1000 1000))) 1 0 0 api_stats_zero.

Lemma churn_rounds_enough_witness :
  churn_rounds 1 20 5 100000 small_sweep_config (20 + 5) small_sweep_start =
  churn_rounds 1 20 5 100000 small_sweep_config 20 small_sweep_start.
Proof. apply (churn_rounds_enough 1 20 5 100000). vm_compute. discriminate. Defined.

(** C34: The expected files are those of the file system.  Whatever the seed, the
    configuration and the room for steps, the steps of a generated workload are
    accepted one after the other when the file system calls succeed: each write
    continues its file where the last one ended, a file is closed when all of it
    is written, a deletion names the existing file of its slot; the workload
    ends outside of a transaction; and the files that the model has by slot are
    exactly those that the file system has by name. *)
Theorem workload_matches_names (content : Z -> Z -> Z -> list Z)
    (seed capacity tx_count target_write_multiple : Z) config stats :
  exists s,
    run_steps content run_start
      (fst (churn_workload seed capacity tx_count target_write_multiple config stats)) = Some s /\
    tx_active (ar_tx s) = false /\ model_tracks (ar_model s) (ar_ns s).
Proof.
  unfold churn_workload. cbv zeta.
  destruct (bench_churn_model_init _ _) as [m |] eqn:Hinit.
  2: { exists run_start. split; [done |]. split; [done |].
       intros name f t z. split; [done |]. intros (i & Hi).
       apply lookup_replicate_1 in Hi as [Hi _]. done. }
  set (g := mk_genstate [] m _ 0 0 stats).
  assert (Hg : round_ok content g run_start).
  { pose proof (churn_init_eq _ _ _ Hinit) as Hm.
    split; cbn [g gs_model gs_steps]; [by eapply reach_init | done | done | |].
    - split; [done |]. intros i f s Hf Hs. rewrite Hm in Hs. cbn [ch_slots] in Hs.
      apply lookup_replicate_1 in Hf as [-> _]. by apply lookup_replicate_1 in Hs as [-> _].
    - intros name f t z. split; [done |]. intros (i & Hi).
      apply lookup_replicate_1 in Hi as [Hi _]. done. }
  destruct (churn_rounds_ok content seed capacity tx_count
    (usz (api_sweep_image_size config * target_write_multiple)) config (Z.to_nat capacity) g _ Hg)
    as [s [Hreach Hrun Hidle Hag Htr]].
  exists s. split; [exact Hrun | split; [exact Hidle | exact Htr]].
Qed.
