(* ===== verification/Torn.v ===== *)
(** * Torn programs

    What a program that loses power, or that a fault interrupts, may leave: in
    its range every byte has lost only bits that the program clears. *)

From S2P Require Export Flash.

(** [x] has no bit that [y] lacks. *)
Definition bits_within (x y : Z) : Prop := Z.land x y = x.

Lemma bits_within_refl x : bits_within x x.
Proof. apply Z.land_diag. Qed.

Lemma bits_within_trans x y z : bits_within x y -> bits_within y z -> bits_within x z.
Proof. unfold bits_within. intros H1 H2. rewrite <- H1 at 1. by rewrite <- Z.land_assoc, H2. Qed.

Lemma bits_within_land_l x y : bits_within (Z.land x y) x.
Proof.
  unfold bits_within. rewrite Z.land_comm, Z.land_assoc. by rewrite Z.land_diag.
Qed.

Lemma bits_within_lor x y z : bits_within x y -> bits_within x (Z.lor y z).
Proof.
  unfold bits_within. intros Hxy. apply Z.bits_inj'. intros k Hk.
  rewrite Z.land_spec, Z.lor_spec. rewrite <- Hxy, Z.land_spec.
  by destruct (Z.testbit x k), (Z.testbit y k), (Z.testbit z k).
Qed.

(** What a partial program of [buf] at [off] may leave. *)
Definition torn_program (m : Z -> Z) (off : Z) (buf : list Z) (m' : Z -> Z) : Prop :=
  forall a, if (off <=? a) && (a <? off + zlen buf)
    then bits_within (m' a) (m a) /\
         bits_within (Z.land (m a) (byte_at buf (a - off))) (m' a)
    else m' a = m a.

Lemma torn_refl m off buf : torn_program m off buf m.
Proof.
  intros a. destruct (_ && _); [| done].
  split; [apply bits_within_refl | apply bits_within_land_l].
Qed.

Lemma torn_full m off buf : torn_program m off buf (mem_program m off buf).
Proof.
  intros a. unfold mem_program. destruct (_ && _); [| done].
  split; [apply bits_within_land_l | apply bits_within_refl].
Qed.

Lemma torn_ext m off buf m1 m2 : torn_program m off buf m1 -> (forall a, m2 a = m1 a) ->
  torn_program m off buf m2.
Proof.
  intros Ht Heq a. specialize (Ht a). destruct (_ && _); by rewrite Heq.
Qed.

(** Pieces, one after the other. *)
Lemma torn_app m off l1 l2 m1 m2 : torn_program m off l1 m1 ->
  torn_program m1 (off + zlen l1) l2 m2 -> torn_program m off (l1 ++ l2) m2.
Proof.
  intros H1 H2 a. specialize (H1 a). specialize (H2 a). rewrite zlen_app.
  pose proof (zlen_nonneg l1). pose proof (zlen_nonneg l2).
  destruct (Z.leb_spec off a), (Z.ltb_spec a (off + zlen l1)),
    (Z.leb_spec (off + zlen l1) a), (Z.ltb_spec a (off + zlen l1 + zlen l2)),
    (Z.ltb_spec a (off + (zlen l1 + zlen l2))); simpl in *; try lia; try congruence.
  - rewrite byte_at_app_l by lia. by rewrite H2.
  - rewrite byte_at_app_r by lia. rewrite H1 in H2.
    by replace (a - off - zlen l1) with (a - (off + zlen l1)) by lia.
Qed.

(** A torn program of a prefix. *)
Lemma torn_prefix m off buf k m' : torn_program m off (take k buf) m' ->
  torn_program m off buf m'.
Proof.
  intros Ht. rewrite <- (take_drop k buf). eapply torn_app; [exact Ht | apply torn_refl].
Qed.
