(* ===== verification/Crash.v ===== *)
(** * Power loss during an append

    A device that may lose power in any program, leaving a torn program; what
    an interrupted append of a journal record leaves on it; and the replay of
    such a journal at the next mount, which recovers the namespace as it was
    before the append or as it is after it. *)

From S2P Require Export Torn Replay GcMem.

(** ** A device that may lose power *)

Class CrashFlash `{NorFlash} : Type := {
  crash_ok : be_ctx -> Prop;
  crash_byte : forall c a, crash_ok c -> is_u8 (nor_mem c a);
  crash_program : forall c off buf,
    crash_ok c -> 0 <= off -> off + zlen buf <= be_size -> is_bytes buf ->
    off mod be_granule = 0 -> zlen buf mod be_granule = 0 ->
    exists st c', be_program c off buf = (st, c') /\
      ((st = 0 /\ crash_ok c' /\
          forall a, nor_mem c' a = mem_program (nor_mem c) off buf a) \/
       (st <> 0 /\ torn_program (nor_mem c) off buf (nor_mem c')));
}.

Lemma bits_within_antisym x y : bits_within x y -> bits_within y x -> x = y.
Proof. unfold bits_within. intros Hxy Hyx. by rewrite <- Hxy, Z.land_comm. Qed.

(** The padding of a torn chunk is unchanged. *)
Lemma torn_padded m base k piece g m' :
  (forall a, is_u8 (m a)) -> 0 <= k -> k + zlen piece <= g ->
  torn_program m base (splice k piece (fill g 0xff)) m' ->
  torn_program m (base + k) piece m'.
Proof.
  intros Hm Hk Hl Ht a. specialize (Ht a). pose proof (zlen_nonneg piece).
  assert (Hlen : zlen (splice k piece (fill g 255)) = g)
    by (rewrite zlen_splice; rewrite ?zlen_fill; lia).
  rewrite Hlen in Ht.
  destruct (Z.leb_spec base a), (Z.ltb_spec a (base + g)); cbn [andb] in Ht.
  2-4: destruct (Z.leb_spec (base + k) a), (Z.ltb_spec a (base + k + zlen piece));
    cbn [andb]; done || lia.
  rewrite byte_at_splice in Ht by (rewrite ?zlen_fill; lia).
  destruct (Z.leb_spec (base + k) a), (Z.ltb_spec a (base + k + zlen piece)),
    (Z.leb_spec k (a - base)), (Z.ltb_spec (a - base) (k + zlen piece));
    cbn [andb] in *; try lia;
    try (rewrite byte_at_fill in Ht by lia; destruct Ht as [Ht1 Ht2];
      rewrite (proj1 (is_u8_iff_land _) (Hm a)) in Ht2; by apply bits_within_antisym).
  by replace (a - (base + k)) with (a - base - k) by lia.
Qed.

Section CrashProgram.
Context `{Backend} `{!NorFlash} `{!CrashFlash} `{!ValidBackend}.

(** The power is still on. *)
Record crash_is (m : Z -> Z) (w w' : world) : Prop := {
  ci_ok : crash_ok (w_ctx w');
  ci_mem : forall a, mem w' a = m a;
  ci_fs : w_fs w' = w_fs w;
  ci_files : w_files w' = w_files w;
}.

(** What a power loss leaves on the device. *)
Definition crash_left (P : (Z -> Z) -> Prop) (w w' : world) : Prop :=
  P (mem w') /\ w_fs w' = w_fs w /\ w_files w' = w_files w.

Lemma crash_is_trans m1 m2 w1 w2 w3 :
  crash_is m1 w1 w2 -> crash_is m2 w2 w3 -> crash_is m2 w1 w3.
Proof. intros [] []. split; congruence. Qed.

Lemma crash_is_ext m1 m2 w w' :
  crash_is m1 w w' -> (forall a, m1 a = m2 a) -> crash_is m2 w w'.
Proof. intros [] Heq. split; [done | | done..]. intros a. by rewrite <- Heq. Qed.

Lemma crash_left_after P P' m w w1 w' : crash_is m w w1 -> crash_left P w1 w' ->
  (P (mem w') -> P' (mem w')) -> crash_left P' w w'.
Proof. intros [] (HP & Hf & Hfl) Himp. split; [by apply Himp |]. split; congruence. Qed.

Lemma wp_crash_program off buf Q E w :
  crash_ok (w_ctx w) -> 0 <= off -> off + zlen buf <= be_size -> is_bytes buf ->
  off mod be_granule = 0 -> zlen buf mod be_granule = 0 ->
  (forall w', crash_is (mem_program (mem w) off buf) w w' -> Q tt w') ->
  (forall e w', crash_left (torn_program (mem w) off buf) w w' -> E e w') ->
  wp (backend_program off buf) Q E w.
Proof.
  intros Hok Ho Hr Hb Hoa Hba HQ HE. unfold wp, backend_program, fffs_map_backend_status.
  destruct (crash_program (w_ctx w) off buf) as (st & c & Hrun & [(-> & Hc & Hm) | (Hst & Ht)]);
    try done; rewrite Hrun.
  - by apply HQ.
  - destruct (Z.eqb_spec st 0); [done |]. by apply HE.
Qed.

Lemma wp_crash_loop n off src done Q E w :
  crash_ok (w_ctx w) -> 0 <= off -> 0 <= done <= zlen src ->
  off + zlen src <= be_size -> is_bytes src ->
  zlen src - done <= Z.of_nat n ->
  let rest := sublist done (zlen src - done) src in
  (forall w', crash_is (mem_program (mem w) (off + done) rest) w w' -> Q tt w') ->
  (forall e w', crash_left (torn_program (mem w) (off + done) rest) w w' -> E e w') ->
  wp (program_aligned_loop n off src done) Q E w.
Proof.
  intros Hok Ho Hd Hs Hb. revert done w Hok Hd.
  induction n as [|n IH]; intros done w Hok Hd Hn rest HQ HE; simpl;
    destruct (Z.ltb_spec done (zlen src)) as [Hlt|Hge]; try lia.
  1, 3: apply wp_ret, HQ; split; [done | | done..]; intros a;
    rewrite mem_program_out; [done |];
    unfold rest; rewrite zlen_sublist by lia; lia.
  pose proof granule_pos as Hg.
  set (pos := off + done) in *.
  pose proof (Z.mod_pos_bound pos be_granule Hg) as Hmod.
  set (k := Z.min (be_granule - (pos - (pos - pos mod be_granule)))
              (zlen src - done)).
  set (base := pos - pos mod be_granule).
  assert (Hpos : 0 <= pos < be_size) by lia.
  pose proof (granule_in_device pos Hpos) as Hfit.
  assert (Hbase : 0 <= base).
  { unfold base. pose proof (Z.mod_le pos be_granule). lia. }
  set (piece := sublist done k src).
  assert (Hpiece : zlen piece = k) by (apply zlen_sublist; lia).
  assert (Hm8 : forall b, is_u8 (mem w b)) by (intros; by apply crash_byte).
  assert (Hpb : base + (pos - base) = pos) by lia.
  assert (Hchunk : zlen (splice (pos - base) piece (fill be_granule 0xff)) = be_granule).
  { rewrite zlen_splice; rewrite ?zlen_fill; lia. }
  assert (Hrest : rest = piece ++ sublist (done + k) (zlen src - (done + k)) src).
  { unfold rest, piece. rewrite sublist_app_split by lia. f_equal. lia. }
  apply wp_bind, wp_crash_program; rewrite ?Hchunk.
  - done.
  - done.
  - lia.
  - apply Forall_splice; [by apply Forall_sublist | apply Forall_fill, is_u8_255].
  - unfold base. rewrite (Z.div_mod pos be_granule) at 1 by lia.
    replace (be_granule * (pos / be_granule) + pos mod be_granule -
      pos mod be_granule) with (pos / be_granule * be_granule) by lia.
    apply Z.mod_mul. lia.
  - apply Z.mod_same. lia.
  - intros w1 Hw1.
    assert (Hm1 : forall a, mem w1 a = mem_program (mem w) pos piece a).
    { intros a. rewrite (ci_mem _ _ _ Hw1), mem_program_padded by (done || lia).
      by rewrite Hpb. }
    assert (Hnext : off + (done + k) = pos + zlen piece) by lia.
    apply IH; [apply Hw1 | lia | lia | |].
    + intros w2 Hw2. apply HQ. eapply crash_is_ext; [by eapply crash_is_trans |].
      intros a. rewrite Hnext, Hrest, <- mem_program_app.
      by apply mem_program_ext.
    + intros e w2 Hw2. apply HE. eapply crash_left_after; [exact Hw1 | exact Hw2 |].
      rewrite Hnext, Hrest. intros Ht. eapply torn_app; [| exact Ht].
      eapply torn_ext; [apply torn_full | exact Hm1].
  - intros e w1 Hw1. apply HE. destruct Hw1 as (Ht & Hf & Hfl). split; [| done].
    apply torn_padded in Ht; [| done | lia | lia]. rewrite Hpb in Ht. rewrite Hrest.
    eapply torn_app; [exact Ht | apply torn_refl].
Qed.

Lemma wp_crash_program_aligned off buf Q E w :
  crash_ok (w_ctx w) -> 0 <= off -> off + zlen buf <= be_size -> is_bytes buf ->
  (forall w', crash_is (mem_program (mem w) off buf) w w' -> Q tt w') ->
  (forall e w', crash_left (torn_program (mem w) off buf) w w' -> E e w') ->
  wp (fffs_flash_program_aligned off buf) Q E w.
Proof.
  intros Hok Ho Hs Hb HQ HE. unfold fffs_flash_program_aligned, fffs_backend_program_aligned.
  destruct (Z.eqb_spec (zlen buf) 0) as [Hz|Hz].
  { apply wp_ret, HQ. split; [done | | done..]. intros a.
    rewrite mem_program_out; [done | lia]. }
  pose proof (zlen_nonneg buf).
  destruct (Z.eqb_spec (off mod be_granule) 0),
    (Z.eqb_spec (zlen buf mod be_granule) 0); simpl;
    [by apply wp_crash_program | ..];
    (apply wp_crash_loop; [done | done | lia | done | done | unfold zlen; lia | |]);
    rewrite Z.add_0_r, sublist_all by lia; done.
Qed.
End CrashProgram.

(** ** A torn record *)

(** The slot is programmed first, then the head. *)
Definition torn_record (m : Z -> Z) (off slot head : Z) (m' : Z -> Z) : Prop :=
  torn_program m off (fffs_store_le16 slot) m' \/
  torn_program (mem_program m off (fffs_store_le16 slot)) (off + 2)
    (fffs_store_le16 head) m'.

Lemma store_le16_bytes b0 b1 : is_u8 b0 -> is_u8 b1 ->
  fffs_store_le16 (b0 + b1 * 256) = [b0; b1].
Proof.
  unfold is_u8. intros H0 H1. unfold fffs_store_le16, u8. rewrite Z.shiftr_div_pow2 by lia.
  change (2 ^ 8) with 256. rewrite Z_mod_plus_full, Z.div_add by lia.
  by rewrite (Z.div_small b0), !Z.mod_small by lia.
Qed.

(** Torn bytes over erased flash. *)
Lemma torn_erased m off buf m' a : torn_program m off buf m' ->
  off <= a < off + zlen buf -> m a = 0xff ->
  is_u8 (m' a) /\ (is_u8 (byte_at buf (a - off)) -> m' a = 0 -> byte_at buf (a - off) = 0).
Proof.
  intros Ht Ha Hm. specialize (Ht a).
  rewrite (proj2 (Z.leb_le _ _)), (proj2 (Z.ltb_lt _ _)) in Ht by lia.
  rewrite Hm in Ht. destruct Ht as [Hin Hout]. split; [by apply is_u8_iff_land |].
  intros Hb Hz. rewrite Hz in Hout. unfold bits_within in Hout. rewrite Z.land_0_r in Hout.
  symmetry. apply is_u8_iff_land in Hb. by rewrite <- Hb, Z.land_comm.
Qed.

Lemma torn_outside m off buf m' a : torn_program m off buf m' ->
  a < off \/ off + zlen buf <= a -> m' a = m a.
Proof.
  intros Ht Ha. specialize (Ht a).
  destruct (Z.leb_spec off a), (Z.ltb_spec a (off + zlen buf)); simpl in Ht; done || lia.
Qed.

(** Two bytes that hold [v] over erased flash. *)
Lemma program_pair m off b0 b1 a : m off = 0xff -> m (off + 1) = 0xff ->
  is_u8 b0 -> is_u8 b1 ->
  mem_program m off [b0; b1] a =
    if a =? off then b0 else if a =? off + 1 then b1 else m a.
Proof.
  intros Hm0 Hm1 Hb0 Hb1. apply is_u8_iff_land in Hb0, Hb1. unfold mem_program.
  change (zlen [b0; b1]) with 2.
  destruct (Z.leb_spec off a), (Z.ltb_spec a (off + 2)), (Z.eqb_spec a off),
    (Z.eqb_spec a (off + 1)); simpl; try done; try lia; subst a.
  - rewrite Z.sub_diag, Hm0, Z.land_comm. exact Hb0.
  - replace (off + 1 - off) with 1 by lia. rewrite Hm1, Z.land_comm. exact Hb1.
Qed.

(** A memory that differs from an erased one in two bytes. *)
Lemma pair_as_program m off m' : m off = 0xff -> m (off + 1) = 0xff ->
  is_u8 (m' off) -> is_u8 (m' (off + 1)) ->
  (forall a, a < off \/ off + 2 <= a -> m' a = m a) ->
  is_u16 (m' off + m' (off + 1) * 256) /\
  forall a, m' a = mem_program m off (fffs_store_le16 (m' off + m' (off + 1) * 256)) a.
Proof.
  intros Hm0 Hm1 Hb0 Hb1 Hout. split; [unfold is_u16, is_u8 in *; lia |].
  intros a. rewrite store_le16_bytes, program_pair by done.
  destruct (Z.eqb_spec a off) as [-> |]; [done |].
  destruct (Z.eqb_spec a (off + 1)) as [-> |]; [done |]. apply Hout. lia.
Qed.

Lemma store_le16_zero v : is_u16 v -> byte_at (fffs_store_le16 v) 0 = 0 ->
  byte_at (fffs_store_le16 v) 1 = 0 -> v = 0.
Proof.
  intros Hv Hb0 Hb1. rewrite <- (load_store_le16 v []) by done.
  unfold fffs_store_le16, byte_at in *. simpl in *. rewrite Hb0, Hb1. done.
Qed.

(** The record that a torn one reads as: the slot is incomplete and the head
    erased, or the slot is complete and the head is zero only if it was to be. *)
Lemma torn_record_reads m off slot head m' :
  erased_span m off 4 -> is_u16 slot -> is_u16 head -> torn_record m off slot head m' ->
  exists r, is_u16 (fst r) /\ is_u16 (snd r) /\
    (forall a, m' a = mem_program m off (record_bytes (fst r) (snd r)) a) /\
    (snd r = UINT16_MAX \/ (fst r = slot /\ (snd r = 0 -> head = 0))).
Proof.
  intros He Hs Hh [Ht | Ht].
  - assert (Hin : forall a, off <= a < off + 2 -> is_u8 (m' a))
      by (intros a Ha; eapply torn_erased;
          [exact Ht | by rewrite zlen_store16 | apply He; lia]).
    destruct (pair_as_program m off m') as [Hu Hm'];
      [apply He; lia | apply He; lia | apply Hin; lia | apply Hin; lia | |].
    { intros a Ha. eapply torn_outside; [exact Ht | by rewrite zlen_store16]. }
    eexists (_, UINT16_MAX). split; [exact Hu |]. split; [done |].
    split; [| by left]. intros a. rewrite Hm'. unfold record_bytes. cbn [fst snd].
    rewrite <- mem_program_app, zlen_store16.
    set (m1 := mem_program m off _).
    assert (Hm1 : forall b, off + 2 <= b < off + 4 -> m1 b = 0xff)
      by (intros b Hb; unfold m1; rewrite mem_program_out by (rewrite zlen_store16; lia);
          apply He; lia).
    change (fffs_store_le16 65535) with [255; 255].
    rewrite program_pair by (apply Hm1 || apply is_u8_255; lia).
    destruct (Z.eqb_spec a (off + 2)) as [-> |]; [apply Hm1; lia |].
    destruct (Z.eqb_spec a (off + 2 + 1)) as [-> |]; [apply Hm1; lia | done].
  - set (m1 := mem_program m off (fffs_store_le16 slot)) in *.
    assert (Hm1 : forall b, off + 2 <= b < off + 4 -> m1 b = 0xff)
      by (intros b Hb; unfold m1; rewrite mem_program_out by (rewrite zlen_store16; lia);
          apply He; lia).
    assert (Hin : forall a, off + 2 <= a < off + 4 -> is_u8 (m' a) /\
      (is_u8 (byte_at (fffs_store_le16 head) (a - (off + 2))) -> m' a = 0 ->
       byte_at (fffs_store_le16 head) (a - (off + 2)) = 0))
      by (intros a Ha; eapply torn_erased;
          [exact Ht | rewrite zlen_store16; lia | by apply Hm1]).
    destruct (pair_as_program m1 (off + 2) m') as [Hu Hm'];
      [apply Hm1; lia | apply Hm1; lia | apply Hin; lia | apply Hin; lia | |].
    { intros a Ha. eapply torn_outside; [exact Ht | by rewrite zlen_store16]. }
    eexists (slot, _). split; [exact Hs |]. split; [exact Hu |]. split.
    + intros a. rewrite Hm'. unfold record_bytes. cbn [fst snd].
      by rewrite <- mem_program_app, zlen_store16.
    + right. split; [done |]. cbn [snd]. intros Hz.
      destruct (Hin (off + 2)) as [Hb0 Hz0]; [lia |].
      destruct (Hin (off + 2 + 1)) as [Hb1 Hz1]; [lia |].
      unfold is_u8 in Hb0, Hb1. rewrite Z.sub_diag in Hz0.
      replace (off + 2 + 1 - (off + 2)) with 1 in Hz1 by lia.
      pose proof (is_bytes_store16 head) as Hby.
      apply store_le16_zero; [done | apply Hz0 | apply Hz1];
        try lia; apply byte_at_is_u8; rewrite ?zlen_store16; done || lia.
Qed.

(** ** The interrupted append *)

Section CrashAppend.
Context `{Backend} `{!NorFlash} `{!CrashFlash} `{!ValidBackend} (g : fs_geometry)
  `{!GeoOk g}.
Context (I : IndexCache) `{!CachedIndex I}.

Lemma wp_crash_record off slot head Q E w :
  crash_ok (w_ctx w) -> 0 <= off -> off + 4 <= be_size ->
  (forall w', crash_is (mem_program (mem w) off (record_bytes slot head)) w w' -> Q tt w') ->
  (forall e w', crash_left (torn_record (mem w) off slot head) w w' -> E e w') ->
  wp (program_index_record_at off slot head) Q E w.
Proof.
  intros Hok Ho Hl HQ HE. unfold program_index_record_at.
  apply wp_bind, wp_crash_program_aligned;
    [done | done | rewrite zlen_store16; lia | apply is_bytes_store16 | |].
  - intros w1 Hw1. apply wp_crash_program_aligned;
      [apply Hw1 | lia | rewrite zlen_store16; lia | apply is_bytes_store16 | |].
    + intros w2 Hw2. apply HQ. eapply crash_is_ext; [by eapply crash_is_trans |].
      intros a. unfold record_bytes. rewrite <- mem_program_app, zlen_store16.
      apply mem_program_ext, Hw1.
    + intros e w2 Hw2. apply HE. eapply crash_left_after; [exact Hw1 | exact Hw2 |].
      intros Ht. right. intros a. specialize (Ht a). by rewrite (ci_mem _ _ _ Hw1) in Ht.
  - intros e w1 (Ht & Hf & Hfl). apply HE. split; [by left | done].
Qed.

Lemma wp_crash_append slot head Q E w :
  fs_geo (w_fs w) = g -> crash_ok (w_ctx w) -> idx_ok (w_fs w) ->
  log_ok g (mem w) (fs_log (w_fs w)) ->
  active_sector_full (w_fs w) = false ->
  record_proper (slot, head) -> index_takes I (w_fs w) (slot, head) ->
  (forall w', (forall a, mem w' a = mem_program (mem w)
       (next_index_offset (fs_log (w_fs w))) (record_bytes slot head) a) -> Q tt w') ->
  (forall e w', crash_left (torn_record (mem w) (next_index_offset (fs_log (w_fs w)))
       slot head) w w' -> E e w') ->
  wp (fffs_append_index_record slot head) Q E w.
Proof.
  intros Hgeo Hok Hidx Hlog Hfull Hr Ht HQ HE.
  destruct (log_ok_range g _ _ Hlog) as [Hact Hnext].
  pose proof Hfull as Hroom. unfold active_sector_full in Hroom.
  rewrite Hgeo, Z.ltb_ge in Hroom.
  pose proof (geo_index (g := g)). pose proof (geo_count (g := g)).
  pose proof (sector_size_range (g := g)).
  destruct (sector_in_device (g := g) (active_index_sector (fs_log (w_fs w)))
    (next_index_offset (fs_log (w_fs w)) -
     active_index_sector (fs_log (w_fs w)) * sector_size g) 4) as [Hd1 Hd2];
    try lia.
  unfold fffs_append_index_record. apply wp_bind, wp_get_fs.
  apply wp_bind, wp_when; [congruence | intros _].
  apply wp_bind, wp_get_fs. apply wp_bind, wp_crash_record; [done | lia | lia | | done].
  intros w1 Hw1. apply wp_bind, wp_mod_fs. rewrite (ci_fs _ _ _ Hw1).
  set (w2 := mk_world _ _ _).
  destruct (idx_ok_ext (w_fs w) (w_fs w2) Hidx eq_refl eq_refl eq_refl)
    as [Hok2 Hmap2].
  destruct (index_set_record I slot head w2) as (w3 & Hrun & Hst & Hok3 & Hmap3);
    [done | done | |].
  { unfold index_takes. by rewrite Hmap2. }
  eapply returns_wp; [exact Hrun |]. apply HQ.
  intros a. unfold mem. rewrite (is_ctx _ _ Hst). apply Hw1.
Qed.
End CrashAppend.

(** ** The simulated device

    Its injected failure loses power before a program. *)

#[global] Program Instance dev_crash (size granule : Z)
  : @CrashFlash (dev_backend size granule) (dev_nor size granule) := {|
  crash_ok := fun d => forall a, is_u8 (dev_byte (dv_mem d) a);
|}.
Next Obligation. intros size granule d a Hd. apply Hd. Qed.
Next Obligation.
  intros size granule d off buf Hd _ _ Hbuf _ _. simpl. unfold dev_tick.
  destruct (dv_fault d) as [[| k] |].
  - eexists _, _. split; [done |]. right. split; [done |]. apply torn_refl.
  - eexists _, _. split; [done |]. left. split; [done |]. simpl.
    split; intros a; rewrite dev_byte_program; [by apply mem_program_u8 | done].
  - eexists _, _. split; [done |]. left. split; [done |]. simpl.
    split; intros a; rewrite dev_byte_program; [by apply mem_program_u8 | done].
Qed.
