(* ===== verification/CrashReplay.v ===== *)
(** * Replay of a torn journal

    The mount after a power loss: the last record of the active index sector
    may be torn.  Replay takes it when it names an existing root or a deletion,
    and otherwise overwrites it with a padding record. *)

From S2P Require Export Crash.

Section TornReplay.
Context `{Backend} `{!NorFlash} `{!ValidBackend} (g : fs_geometry) `{!GeoOk g}.
Context (I : IndexCache) `{!CachedIndex I}.

Lemma wp_file_root head slot Q E w :
  fs_geo (w_fs w) = g -> flash_ok w ->
  (forall r w', root_present g (mem w) head slot -> flash_is (mem w) w w' -> Q r w') ->
  (forall e w', flash_is (mem w) w w' -> E e w') ->
  wp (fffs_read_file_root_md head slot false None) Q E w.
Proof.
  intros Hgeo Hok HQ HE. unfold fffs_read_file_root_md.
  apply wp_bind, (wp_read_md g); [done | done |]. intros w1 Hw1.
  fold (slot_md g (mem w) head slot FFFS_MD_MATCH_LIVE).
  destruct (slot_md g (mem w) head slot FFFS_MD_MATCH_LIVE) as [e | r] eqn:Hr;
    [by apply HE |].
  apply wp_bind, wp_guard; intros Hg; [by apply HE |].
  apply negb_false_iff, Z.eqb_eq in Hg.
  cbn [orb]. rewrite bool_decide_false by by intros [? ?].
  apply wp_ret, HQ; [by exists r | done].
Qed.

(** ** The torn record *)

(** The torn record at [off] has been overwritten. *)
Record clobbered (w0 : world) (off : Z) (idx : gmap Z Z) (w : world) : Prop := {
  cl_ok : flash_ok w;
  cl_mem : forall a, mem w a = mem_program (mem w0) off (record_bytes 0 0) a;
  cl_frame : replay_frame (w_fs w) = replay_frame (w_fs w0);
  cl_idx_ok : idx_ok (w_fs w);
  cl_idx : idx_map (w_fs w) = idx;
  cl_next : next_index_offset (fs_log (w_fs w)) = off + 4;
}.

Lemma wp_clobber w0 idx off w (Q : unit -> world -> Prop) E :
  replaying I w0 idx w -> fs_geo (w_fs w0) = g -> strict g = false ->
  0 <= off -> off + 4 <= be_size ->
  (forall w', clobbered w0 off idx w' -> Q tt w') ->
  wp (clobber_or_reject_active_tail off true) Q E w.
Proof.
  intros Hrp Hg0 Hst Ho Hl HQ. unfold clobber_or_reject_active_tail.
  apply wp_bind, wp_get_fs. rewrite (replaying_geo I _ _ _ Hrp), Hg0, Hst. cbn [orb negb].
  unfold clobber_active_tail.
  apply wp_bind, wp_program_aligned; [apply Hrp | done | done | by repeat constructor |].
  intros w1 Hw1. unfold set_next_offset. apply wp_mod_fs.
  set (w2 := mk_world _ _ _). apply HQ. destruct Hrp.
  destruct (idx_ok_ext (w_fs w) (w_fs w2)) as [Hio Him]; try done;
    try (unfold w2; simpl; by rewrite (fi_fs _ _ _ Hw1)).
  split.
  - apply Hw1.
  - intros a. transitivity (mem w1 a); [done |]. rewrite (fi_mem _ _ _ Hw1).
    by apply mem_program_ext.
  - rewrite <- rp_frame. unfold w2. simpl. by rewrite (fi_fs _ _ _ Hw1).
  - done.
  - congruence.
  - done.
Qed.

(** What replay makes of the last record [r] of the active sector. *)
Lemma wp_torn_tail w0 idx off pos nread stop tail w Q E :
  let m := mem w0 in
  let r := record_at m (off + pos) in
  replaying I w0 idx w -> fs_geo (w_fs w0) = g -> strict g = false ->
  0 <= off -> 0 <= pos -> pos + 4 <= nread -> off + nread <= stop ->
  stop <= be_size -> (stop - (off + pos)) mod 4 = 0 ->
  record_erased r = false -> is_u16 (fst r) -> is_u16 (snd r) ->
  (snd r = UINT16_MAX \/ 0 < fst r < UINT16_MAX) ->
  (size idx < idx_capacity g)%nat ->
  erased_span m (off + pos + 4) (stop - (off + pos + 4)) ->
  (forall w', clobbered w0 (off + pos) idx w' -> Q (true, tail) w') ->
  (forall tail' w', replaying I w0 (apply_record idx r) w' ->
     0 < fst r < UINT16_MAX ->
     snd r = 0 \/ (0 < snd r < UINT16_MAX /\ root_present g m (snd r) (fst r)) ->
     Q (false, tail') w') ->
  wp (replay_record true (off + pos) (mem_bytes m off nread) pos nread stop tail) Q E w.
Proof.
  intros m r Hrp Hg0 Hstr Ho Hp Hn Hs Hdev Hmod Her Hu1 Hu2 Hcase Hsz Hterm HQc HQa.
  assert (Hm : forall a, mem w a = m a) by apply Hrp.
  unfold replay_record. apply wp_bind, wp_get_geo.
  rewrite (replaying_geo I _ _ _ Hrp), Hg0.
  destruct (chunk_record m off pos nread Hp Hn) as [-> ->]. fold r.
  unfold record_erased in Her. destruct r as [slot head] eqn:Hr.
  cbn [fst snd] in *. rewrite Her.
  pose proof (geo_count (g := g)) as Hgc. pose proof (geo_index (g := g)) as Hgi.
  destruct ((slot =? 0) && (head =? 0)) eqn:Hpad.
  { apply andb_true_iff in Hpad as [Hz1 Hz2]. apply Z.eqb_eq in Hz1, Hz2. lia. }
  apply wp_bind. rewrite <- (mem_bytes_ext (mem w) m off nread) by (intros; apply Hm).
  replace off with (off + pos - pos) at 2 by lia.
  apply wp_terminal; try done; try lia; [apply Hrp |].
  intros b w1 Hw1 Hb. assert (Hbt : b = true).
  { apply Hb. intros a Ha. rewrite Hm. by apply Hterm. }
  subst b. assert (Hrp1 : replaying I w0 idx w1) by by eapply replaying_flash.
  assert (Hclob : forall w2, replaying I w0 idx w2 ->
    wp (clobber_or_reject_active_tail (off + pos) true ;; ret (true, tail)) Q E w2).
  { intros w2 Hw2. apply wp_bind. eapply wp_clobber; try done; lia. }
  destruct ((slot =? 0) || (slot =? 65535) || (head =? 65535)) eqn:Hbad; [by apply Hclob |].
  rewrite !orb_false_iff, !Z.eqb_neq in Hbad. destruct Hbad as [[Hb1 Hb2] Hb3].
  unfold is_u16 in Hu1, Hu2.
  destruct (Z.eqb_spec head 0) as [-> | Hh0].
  { rewrite idx_remove_set. apply wp_bind.
    eapply (wp_index_update I w0 idx); [done | lia | lia | by rewrite Hg0 |].
    intros w2 Hw2. apply wp_ret, HQa; [done | lia | by left]. }
  destruct ((head <? index_sectors g) || (sector_count g <=? head)); [by apply Hclob |].
  apply wp_bind, wp_try. apply wp_file_root.
  - by rewrite (replaying_geo I _ _ _ Hrp1).
  - apply Hrp1.
  - intros rr w2 Hroot Hw2. rewrite idx_insert_set by done. apply wp_bind.
    assert (Hrp2 : replaying I w0 idx w2) by by eapply replaying_flash.
    eapply (wp_index_update I w0 idx); [done | lia | lia | by rewrite Hg0 |].
    intros w3 Hw3. apply wp_ret, HQa; [done | lia |]. right. split; [lia |].
    destruct Hroot as (rr' & Hrr & Htt). exists rr'. split; [| done]. rewrite <- Hrr.
    apply slot_md_ext. intros a. symmetry. apply Hrp1.
  - intros e w2 Hw2. apply Hclob. by eapply replaying_flash.
Qed.

(** ** The records before it *)

Lemma wp_chunk_prefix R : forall n w0 idx active off pos nread stop tail w
    (Q : bool * Z -> world -> Prop) E,
  let m := mem w0 in
  let rest := off + pos + 4 * zlen R in
  replaying I w0 idx w -> fs_geo (w_fs w0) = g -> (length R <= n)%nat ->
  0 <= off -> 0 <= pos -> pos + 4 * zlen R <= nread -> off + nread <= stop ->
  stop <= be_size -> (stop - (off + pos)) mod 4 = 0 ->
  records_from (length R) m (off + pos) = R ->
  Forall (record_valid g) R -> fits (idx_capacity g) idx R ->
  (active = true -> ~ erased_span m rest (stop - rest)) ->
  (forall tail' w', replaying I w0 (replay_map idx R) w' ->
     wp (replay_chunk (n - length R) active off (mem_bytes m off nread)
           (pos + 4 * zlen R) nread stop tail') Q E w') ->
  wp (replay_chunk n active off (mem_bytes m off nread) pos nread stop tail) Q E w.
Proof.
  induction R as [| r R IH]; intros n w0 idx active off pos nread stop tail w Q E m rest
    Hrp Hg0 Hn Ho Hp Hnr Hs Hdev Hmod HR Hval Hfit Hmore HQ.
  { specialize (HQ tail w Hrp). rewrite Nat.sub_0_r, Z.add_0_r in HQ. exact HQ. }
  unfold rest in Hmore. cbn [length] in *. rewrite zlen_cons in *.
  pose proof (zlen_nonneg R). destruct n as [| n]; [lia |].
  cbn [records_from] in HR.
  destruct (record_erased (record_at m (off + pos))) eqn:Her; [done |].
  injection HR as Hr HR. apply Forall_cons in Hval as [Hv1 Hv].
  apply fits_cons in Hfit as [Hsz Hfit].
  cbn [replay_chunk]. destruct (Z.ltb_spec pos nread); [| lia]. cbn [negb].
  assert (Hm : forall a, mem w a = m a) by apply Hrp.
  assert (Hrec : record_at (mem w) (off + pos) = r)
    by (rewrite <- Hr; apply record_at_ext; intros; apply Hm).
  rewrite <- (mem_bytes_ext (mem w) m off nread) by (intros; apply Hm).
  apply wp_bind, (wp_replay_record g I w0 idx); rewrite ?Hrec; try done; try lia.
  - by rewrite <- Hr.
  - intros Ha Hers _. exfalso. apply (Hmore Ha). intros a Har. rewrite <- Hm.
    apply Hers. lia.
  - intros tail1 w1 Hw1. replace (off + pos + 4) with (off + (pos + 4)) in HR by lia.
    rewrite (mem_bytes_ext (mem w) m off nread) by (intros; apply Hm).
    apply (IH n w0 (apply_record idx r)); try done; try lia.
    + replace (stop - (off + (pos + 4))) with (stop - (off + pos) + -1 * 4) by lia.
      by rewrite Z_mod_plus_full.
    + intros Ha Hers. apply (Hmore Ha). intros a Har. apply Hers. lia.
    + intros tail2 w2 Hw2. specialize (HQ tail2 w2 Hw2).
      by replace (pos + 4 + 4 * zlen R) with (pos + 4 * (1 + zlen R)) by lia.
Qed.

(** A state after the replay of a sector that ends in a torn record [r]: taken,
    or overwritten. *)
Definition torn_done (w0 : world) (off : Z) (idx : gmap Z Z) (r : Z * Z) (w : world)
  : Prop :=
  clobbered w0 off idx w \/
  (replaying I w0 (apply_record idx r) w /\ next_index_offset (fs_log (w_fs w)) = off + 4 /\
   0 < fst r < UINT16_MAX /\
   (snd r = 0 \/ (0 < snd r < UINT16_MAX /\ root_present g (mem w0) (snd r) (fst r)))).

(** The torn record [r] at [off], the last of the sector that ends at [stop]. *)
Record torn_at (m : Z -> Z) (off stop : Z) (r : Z * Z) : Prop := {
  ta_record : record_at m off = r;
  ta_erased : record_erased r = false;
  ta_u16 : is_u16 (fst r) /\ is_u16 (snd r);
  ta_case : snd r = UINT16_MAX \/ 0 < fst r < UINT16_MAX;
  ta_rest : erased_span m (off + 4) (stop - (off + 4));
}.

Lemma torn_not_erased m off stop r : torn_at m off stop r -> off + 4 <= stop ->
  ~ erased_span m off (stop - off).
Proof.
  intros [Hr Her _ _ _] Hs He. rewrite record_at_erased in Hr; [by subst r |].
  intros a Ha. apply He. lia.
Qed.

(** The chunk that holds the torn record.  When replay goes on after it, the
    rest of the chunk is erased. *)
Lemma wp_chunk_torn R n w0 idx off nread stop r tail w
    (Q : bool * Z -> world -> Prop) E :
  let m := mem w0 in
  let pos := 4 * zlen R in
  replaying I w0 idx w -> fs_geo (w_fs w0) = g -> strict g = false ->
  nread <= Z.of_nat n -> nread mod 4 = 0 ->
  0 <= off -> pos + 4 <= nread -> off + nread <= stop -> stop <= be_size ->
  (stop - off) mod 4 = 0 -> records_from (length R) m off = R ->
  Forall (record_valid g) R -> fits (idx_capacity g) idx R ->
  torn_at m (off + pos) stop r ->
  (forall tail' w', torn_done w0 (off + pos) (replay_map idx R) r w' ->
     Q (true, tail') w') ->
  (forall tail' w', pos + 4 = nread ->
     (forall w'', replaying I w0 (apply_record (replay_map idx R) r) w'' ->
        next_index_offset (fs_log (w_fs w'')) = off + nread ->
        torn_done w0 (off + pos) (replay_map idx R) r w'') ->
     replaying I w0 (apply_record (replay_map idx R) r) w' -> Q (false, tail') w') ->
  wp (replay_chunk n true off (mem_bytes m off nread) 0 nread stop tail) Q E w.
Proof.
  intros m pos Hrp Hg0 Hstr Hn Hn4 Ho Hp Hs Hdev Hmod HR Hval Hfit Htorn HQt HQf.
  pose proof (zlen_nonneg R). pose proof Htorn as [Hr Her [Hu1 Hu2] Hcase Hrest].
  assert (Hsz : (size (replay_map idx R) < idx_capacity g)%nat)
    by (apply (Hfit R []); by rewrite app_nil_r).
  apply (wp_chunk_prefix R _ w0 idx); rewrite ?Z.add_0_r; try done; try lia;
    [unfold zlen in *; lia | |].
  { intros _. apply (torn_not_erased _ _ _ r Htorn). lia. }
  intros tail1 w1 Hw1. fold pos. rewrite Z.add_0_l.
  destruct (n - length R)%nat as [| n'] eqn:Hn'; [unfold zlen in *; lia |].
  cbn [replay_chunk]. destruct (Z.ltb_spec pos nread); [| lia]. cbn [negb].
  assert (Hoff4 : (stop - (off + pos)) mod 4 = 0).
  { replace (stop - (off + pos)) with (stop - off + - zlen R * 4) by lia.
    by rewrite Z_mod_plus_full. }
  apply wp_bind, (wp_torn_tail w0 (replay_map idx R)); fold m; rewrite ?Hr; try done;
    try lia.
  { intros w2 Hw2. apply wp_ret, HQt. by left. }
  intros tail2 w2 Hw2 Hf Hh.
  assert (Hdone : forall w3, replaying I w0 (apply_record (replay_map idx R) r) w3 ->
    next_index_offset (fs_log (w_fs w3)) = off + pos + 4 ->
    torn_done w0 (off + pos) (replay_map idx R) r w3) by (intros; by right).
  destruct (Z.eq_dec (pos + 4) nread) as [Heq | Hne].
  { assert (Hstop : wp (ret (false, tail2)) Q E w2).
    { apply wp_ret, HQf; [done | | done]. intros w3 Hw3 Hoff. apply Hdone; [done | lia]. }
    destruct n'; cbn [replay_chunk]; destruct (Z.ltb_spec (pos + 4) nread); try lia;
      exact Hstop. }
  assert (Hroom : pos + 8 <= nread).
  { pose proof (Z.div_mod nread 4). unfold pos in *. lia. }
  destruct n' as [| n']; [unfold zlen in *; lia |].
  cbn [replay_chunk]. destruct (Z.ltb_spec (pos + 4) nread); [| lia]. cbn [negb].
  rewrite <- (mem_bytes_ext (mem w2) m off nread) by (intros; apply Hw2).
  apply wp_bind, (wp_replay_erased I w0 (apply_record (replay_map idx R) r));
    [done | lia | lia | |].
  { rewrite record_at_erased; [done |]. intros a Ha. rewrite (rp_mem _ _ _ _ Hw2).
    apply Hrest. lia. }
  intros w3 Hw3 Hoff. apply wp_ret, HQt, Hdone; [done |]. rewrite Hoff by done. lia.
Qed.

(** ** Sectors *)

Lemma sector_chunk off stop : off + 4 <= stop -> (stop - off) mod 4 = 0 ->
  let n0 := if stop - off <? scratch_size g then stop - off else scratch_size g in
  exists k, n0 - n0 mod 4 = 4 * Z.of_nat k /\ (0 < k)%nat /\
    off + 4 * Z.of_nat k <= stop /\ 4 * Z.of_nat k <= scratch_size g.
Proof.
  intros Hs Hmod n0. pose proof (geo_scratch (g := g)).
  pose proof (Z.div_mod n0 4). pose proof (Z.mod_pos_bound n0 4).
  exists (Z.to_nat (n0 / 4)). unfold n0 in *.
  destruct (Z.ltb_spec (stop - off) (scratch_size g)); lia.
Qed.

(** One chunk of a sector read into the scratch buffer. *)
Lemma wp_sector_chunk {A} (k : list Z -> M A) w0 idx off nread w Q E :
  replaying I w0 idx w -> fs_geo (w_fs w0) = g -> 0 <= off ->
  0 <= nread <= scratch_size g -> off + nread <= be_size ->
  (forall w', replaying I w0 idx w' ->
     fs_log (w_fs w') = fs_log (w_fs w) -> wp (k (mem_bytes (mem w0) off nread)) Q E w') ->
  wp (chunk <- flash_read_scratch off nread ;; fffs_scratch_bump ;; k chunk) Q E w.
Proof.
  intros Hrp Hg0 Ho Hn Hdev HQ.
  apply wp_bind, wp_read_scratch; [apply Hrp | done | lia | lia |].
  intros w1 Hw1. apply wp_bind, wp_mod_fs.
  assert (Hrp1 : replaying I w0 idx w1) by by eapply replaying_core.
  set (w2 := mk_world _ _ _).
  assert (Hrp2 : replaying I w0 idx w2) by by apply replaying_mod.
  rewrite (mem_bytes_ext (mem w) (mem w0)) by (intros; apply Hrp).
  apply HQ; [done |]. exact (f_equal fs_log (fc_core _ _ _ Hw1)).
Qed.

Lemma wp_sector_erased n w0 idx off stop tail w (Q : Z -> world -> Prop) E :
  replaying I w0 idx w -> fs_geo (w_fs w0) = g -> 0 <= off -> stop <= be_size ->
  stop - off <= Z.of_nat n -> (stop - off) mod 4 = 0 ->
  erased_span (mem w0) off (stop - off) ->
  next_index_offset (fs_log (w_fs w)) = off ->
  (forall w', replaying I w0 idx w' -> next_index_offset (fs_log (w_fs w')) = off ->
     Q tail w') ->
  wp (replay_sector n true off stop tail) Q E w.
Proof.
  intros Hrp Hg0 Ho Hdev Hn Hmod Her Hoff HQ. set (m := mem w0) in *.
  destruct n as [| n]; cbn [replay_sector];
    destruct (Z.leb_spec (off + 4) stop) as [Hle | Hgt]; cbn [negb]; try lia;
    [by apply wp_ret, HQ | | by apply wp_ret, HQ].
  apply wp_bind, wp_get_geo. rewrite (replaying_geo I _ _ _ Hrp), Hg0. cbv zeta.
  destruct (sector_chunk off stop Hle Hmod) as (k & Hk & Hk0 & Hks & Hscr).
  rewrite Hk. set (nread := 4 * Z.of_nat k) in *.
  apply (wp_sector_chunk _ w0 idx); [done | done | done | lia | lia |].
  intros w1 Hw1 _. fold m. destruct (Z.to_nat nread) as [| n'] eqn:Hn'; [lia |].
  apply wp_bind. cbn [replay_chunk]. destruct (Z.ltb_spec 0 nread); [| lia]. cbn [negb].
  rewrite <- (mem_bytes_ext (mem w1) m off nread) by (intros; apply Hw1).
  apply wp_bind, (wp_replay_erased I w0 idx); [done | lia | lia | |].
  { rewrite record_at_erased; [done |]. intros a Ha. rewrite (rp_mem _ _ _ _ Hw1).
    apply Her. lia. }
  intros w2 Hw2 Hoff2. apply wp_ret, wp_ret, HQ; [done |]. rewrite Hoff2 by done. lia.
Qed.

Lemma wp_sector_torn n : forall R w0 idx off stop r tail w (Q : Z -> world -> Prop) E,
  let m := mem w0 in
  replaying I w0 idx w -> fs_geo (w_fs w0) = g -> strict g = false ->
  stop - off <= Z.of_nat n -> 0 <= off -> off + 4 * zlen R + 4 <= stop ->
  stop <= be_size -> (stop - off) mod 4 = 0 -> records_from (length R) m off = R ->
  Forall (record_valid g) R -> fits (idx_capacity g) idx R ->
  torn_at m (off + 4 * zlen R) stop r ->
  (forall tail' w', torn_done w0 (off + 4 * zlen R) (replay_map idx R) r w' ->
     Q tail' w') ->
  wp (replay_sector n true off stop tail) Q E w.
Proof.
  induction n as [| n IH]; intros R w0 idx off stop r tail w Q E m Hrp Hg0 Hstr Hn Ho Hp
    Hdev Hmod HR Hval Hfit Htorn HQ; pose proof (zlen_nonneg R); [lia |].
  cbn [replay_sector]. destruct (Z.leb_spec (off + 4) stop) as [Hle | Hgt]; [| lia].
  cbn [negb]. apply wp_bind, wp_get_geo. rewrite (replaying_geo I _ _ _ Hrp), Hg0. cbv zeta.
  destruct (sector_chunk off stop Hle Hmod) as (k & Hk & Hk0 & Hks & Hscr).
  rewrite Hk. set (nread := 4 * Z.of_nat k) in *.
  assert (Hn4 : nread mod 4 = 0) by (unfold nread; rewrite Z.mul_comm; by apply Z.mod_mul).
  assert (Hmod' : (stop - (off + nread)) mod 4 = 0).
  { replace (stop - (off + nread)) with (stop - off + - Z.of_nat k * 4) by lia.
    by rewrite Z_mod_plus_full. }
  apply (wp_sector_chunk _ w0 idx); [done | done | done | lia | lia |].
  intros w1 Hw1 _. fold m. apply wp_bind.
  destruct (Z.le_gt_cases (4 * zlen R + 4) nread) as [Hin | Hout].
  - apply (wp_chunk_torn R _ w0 idx off nread stop r); try done; try lia.
    intros tail2 w2 Heq Hdone Hw2. apply wp_bind, wp_when; [intros _ | done].
    eapply wp_set_next_offset; [exact Hw2 |]. intros w3 Hw3 Hoff.
    apply (wp_sector_erased _ w0 (apply_record (replay_map idx R) r)); try done; try lia.
    + intros a Ha. apply (ta_rest _ _ _ _ Htorn). lia.
    + intros w4 Hw4 Hoff4. by apply HQ, Hdone.
  - assert (Hlt : (k <= length R)%nat) by (unfold zlen, nread in *; lia).
    rewrite <- (take_drop k R) in HR, Hval, Hfit.
    assert (Hlk : length (take k R) = k) by (rewrite length_take; lia).
    assert (Hzk : 4 * zlen (take k R) = nread) by (unfold zlen; rewrite Hlk; done).
    rewrite length_app, records_from_app, Hlk in HR.
    assert (Hpre : records_from k m off = take k R /\
      records_from (length (drop k R)) m (off + 4 * Z.of_nat k) = drop k R).
    { pose proof (length_records_from k m off) as Hb.
      destruct (Nat.ltb_spec (length (records_from k m off)) k) as [Hsh | Hge].
      - exfalso. apply (f_equal length) in HR.
        rewrite length_app, Hlk, length_drop in HR. lia.
      - apply app_inj_1 in HR; [done |]. rewrite Hlk. lia. }
    destruct Hpre as [Hp1 Hp2].
    apply Forall_app in Hval as [Hv1 Hv2]. apply fits_app in Hfit as [Hf1 Hf2].
    assert (Hzd : 4 * zlen (drop k R) = 4 * zlen R - nread)
      by (unfold zlen, nread; rewrite length_drop; lia).
    assert (Hpos : off + nread + 4 * zlen (drop k R) = off + 4 * zlen R) by lia.
    apply (wp_chunk_prefix (take k R) _ w0 idx); rewrite ?Hlk, ?Hzk, ?Z.add_0_r, ?Z.add_0_l;
      try done; try lia.
    { intros _ Hers. apply (torn_not_erased m _ stop r Htorn); [lia |].
      intros a Ha. apply Hers. lia. }
    intros tail2 w2 Hw2.
    assert (Hend : forall n', wp (replay_chunk n' true off (mem_bytes m off nread) nread
      nread stop tail2) (fun r w' => r = (false, tail2) /\ w' = w2) E w2).
    { intros [| n']; cbn [replay_chunk]; by rewrite Z.ltb_irrefl. }
    eapply wp_mono; [apply Hend | | done]. intros ? ? [-> ->].
    apply wp_bind, wp_when; [intros _ | done].
    eapply wp_set_next_offset; [exact Hw2 |]. intros w3 Hw3 _.
    apply (IH (drop k R) w0 (replay_map idx (take k R)) _ stop r); rewrite ?Hpos; try done;
      try lia.
    intros tail4 w4. rewrite <- replay_map_app, take_drop. apply HQ.
Qed.

Lemma torn_done_after w0 off idx r w w' :
  torn_done w0 off idx r w -> replaying I w (idx_map (w_fs w)) w' ->
  fs_log (w_fs w') = fs_log (w_fs w) -> torn_done w0 off idx r w'.
Proof.
  intros [[Hok Hm Hf Hio Hi Hn] | ([Hok Hm Hf Hfl Hio Hi] & Hn & Hfst & Hh)]
    [Hok' Hm' Hf' Hfl' Hio' Hi'] Hlog.
  - left. split; try done; congruence.
  - right. rewrite Hlog. split; [| done]. split; try done; congruence.
Qed.

(** A sequence whose last sector is the active one, which ends in the torn
    record. *)
Lemma wp_sectors_torn closed : forall sector tail w0 idx R r w
    (Q : Z -> world -> Prop) E,
  let m := mem w0 in
  let active := active_index_sector (fs_log (w_fs w0)) in
  let start := active * sector_size g + FFFS_HEADER_SIZE in
  let n := S (length closed) in
  replaying I w0 idx w -> fs_geo (w_fs w0) = g -> strict g = false ->
  0 <= sector < index_sectors g ->
  sequence_from n (index_sectors g) sector = closed ++ [active] ->
  Forall (fun s => s <> active) closed -> records_from (length R) m start = R ->
  start + 4 * zlen R + 4 <= (active + 1) * sector_size g ->
  torn_at m (start + 4 * zlen R) ((active + 1) * sector_size g) r ->
  let l := List.concat (sector_journal g m <$> closed) ++ R in
  Forall (record_valid g) l -> fits (idx_capacity g) idx l ->
  (forall tail' w', torn_done w0 (start + 4 * zlen R) (replay_map idx l) r w' ->
     Q tail' w') ->
  wp (replay_sectors n sector tail) Q E w.
Proof.
  induction closed as [| s closed IH]; intros sector tail w0 idx R r w Q E m active start n
    Hrp Hg0 Hstr Hs Hseq Hne HR Hroom Htorn l Hval Hfit HQ;
    unfold n in *; cbn [length sequence_from app] in Hseq;
    cbn [length replay_sectors]; apply wp_bind, wp_get_fs;
    assert (Hgeo : fs_geo (w_fs w) = g) by (by rewrite (replaying_geo I _ _ _ Hrp));
    assert (Hact : active_index_sector (fs_log (w_fs w)) = active)
      by exact (f_equal (fun fs => active_index_sector (fs_log fs)) (rp_frame _ _ _ _ Hrp));
    rewrite Hgeo, Hact; cbv zeta;
    destruct (sector_size_div4 g) as (k & Hk & Hsz & Hk62);
    pose proof (geo_count (g := g));
    destruct (sector_in_device (g := g) sector 0 (sector_size g)) as [_ Hdev]; try lia;
    assert (Hmod : ((sector + 1) * sector_size g - (sector * sector_size g + 8)) mod 4 = 0)
      by (replace ((sector + 1) * sector_size g - (sector * sector_size g + 8))
            with (k * 4) by lia; by apply Z.mod_mul).
  - injection Hseq as Hsec. rewrite Hsec, Z.eqb_refl. rewrite Hsec in Hdev, Hmod, Hs.
    apply wp_bind, (wp_sector_torn _ R w0 idx _ _ r); try done; try lia.
  - injection Hseq as Hsec Hseq. apply Forall_cons in Hne as [Hne1 Hne]. subst s.
    rewrite (proj2 (Z.eqb_neq _ _)) by done.
    unfold l in *. cbn [fmap list_fmap List.concat] in *. rewrite <- app_assoc in *.
    apply Forall_app in Hval as [Hv1 Hv2]. apply fits_app in Hfit as [Hf1 Hf2].
    assert (Hj : sector_journal g m sector =
      records_from (Z.to_nat k) m (sector * sector_size g + 8))
      by (unfold sector_journal; by rewrite Hk).
    rewrite Hj in *.
    apply wp_bind, (wp_replay_sector g I _ (Z.to_nat k) w0 idx); try done; try lia.
    intros tail1 w1 Hw1 _. fold m in Hw1.
    set (next := if index_sectors g <=? sector + 1 then 0 else sector + 1) in *.
    apply (IH next tail1 w0 (replay_map idx (records_from (Z.to_nat k) m
      (sector * sector_size g + 8))) R r); try done.
    { unfold next. destruct (Z.leb_spec (index_sectors g) (sector + 1)); lia. }
    intros tail2 w2. rewrite <- replay_map_app. apply HQ.
Qed.
End TornReplay.

(** ** The journal around the torn record *)

Lemma records_from_prefix n m off l :
  records_from n m off = l -> records_from (length l) m off = l.
Proof.
  revert off l. induction n as [| n IH]; intros off l; [by intros <- |].
  cbn [records_from]. destruct (record_erased _) eqn:Her; intros <-; [done |].
  cbn [length records_from]. rewrite Her. f_equal. by apply IH.
Qed.

Lemma zlen_record_bytes slot head : zlen (record_bytes slot head) = 4.
Proof. done. Qed.

Section TornJournal.
Context `{Backend} (g : fs_geometry) `{!GeoOk g}.

(** The memory [m] holds the journal of [m0] and the record [r] after it. *)
Record torn_journal (m0 m : Z -> Z) (l : fs_log_state) (r : Z * Z) : Prop := {
  tj_log : log_ok g m0 l;
  tj_room : next_index_offset l + 4 <= (active_index_sector l + 1) * sector_size g;
  tj_u16 : is_u16 (fst r) /\ is_u16 (snd r);
  tj_case : snd r = UINT16_MAX \/ 0 < fst r < UINT16_MAX;
  tj_mem : forall a, m a = mem_program m0 (next_index_offset l)
    (record_bytes (fst r) (snd r)) a;
}.

Lemma torn_outside_record m0 m l r a : torn_journal m0 m l r ->
  a < next_index_offset l \/ next_index_offset l + 4 <= a -> m a = m0 a.
Proof. intros Ht Ha. rewrite (tj_mem _ _ _ _ Ht). by apply mem_program_out. Qed.

Lemma torn_journal_at m0 m l r : torn_journal m0 m l r -> record_erased r = false ->
  torn_at m (next_index_offset l) ((active_index_sector l + 1) * sector_size g) r.
Proof.
  intros Ht Her. pose proof Ht as [Hl Hroom [Hu1 Hu2] Hcase Hm].
  pose proof (lk_tail _ _ _ Hl) as Htail. split; try done.
  - rewrite (record_at_ext m _ _ (fun a _ => Hm a)). destruct r.
    apply record_at_program; [| done | done]. intros a Ha. apply Htail. lia.
  - intros a Ha. rewrite (torn_outside_record _ _ _ _ _ Ht) by lia. apply Htail. lia.
Qed.

Lemma torn_journal_records m0 m l r : torn_journal m0 m l r ->
  let active := active_index_sector l in
  let R := sector_journal g m0 active in
  records_from (length R) m (active * sector_size g + FFFS_HEADER_SIZE) = R /\
  next_index_offset l = active * sector_size g + FFFS_HEADER_SIZE + 4 * zlen R /\
  sector_journal g m <$> closed_sectors g l = sector_journal g m0 <$> closed_sectors g l.
Proof.
  intros Ht active R. pose proof (tj_log _ _ _ _ Ht) as Hl.
  pose proof (lk_next _ _ _ Hl) as Hn. fold active R in Hn.
  split; [| split; [done |]].
  - rewrite (records_from_local _ m0 m).
    + unfold R, sector_journal. by eapply records_from_prefix.
    + intros a Ha. apply (torn_outside_record _ _ _ _ _ Ht). left. unfold zlen in Hn. lia.
  - apply list_fmap_ext. intros i x Hx.
    pose proof (closed_sectors_other _ _ _ Hl) as Hall.
    rewrite Forall_lookup in Hall. destruct (Hall i x Hx) as [Hxr Hxs].
    pose proof (log_ok_range g _ _ Hl) as [Hact Hnext]. pose proof (tj_room _ _ _ _ Ht).
    pose proof (sector_size_range (g := g)).
    apply sector_journal_local; [done |]. intros a Ha.
    apply (torn_outside_record _ _ _ _ _ Ht).
    destruct (Z.lt_ge_cases x (active_index_sector l)); [left; nia | right; nia].
Qed.

(** A root lies outside of the index sectors. *)
Lemma torn_journal_root m0 m l r head slot : torn_journal m0 m l r ->
  root_present g m head slot -> root_present g m0 head slot.
Proof.
  intros Ht (rr & Hrr & Htt). exists rr. split; [| done]. rewrite <- Hrr.
  pose proof (log_ok_range g _ _ (tj_log _ _ _ _ Ht)) as [Hact Hnext].
  pose proof (tj_room _ _ _ _ Ht). pose proof (sector_size_range (g := g)).
  unfold slot_md in Hrr. destruct (valid_data_sector g head) eqn:Hv; [| done].
  assert (Hh : index_sectors g <= head)
    by (unfold valid_data_sector in Hv; rewrite andb_true_iff, Z.leb_le in Hv; lia).
  symmetry. apply slot_md_in; [done |]. intros a Ha.
  apply (torn_outside_record _ _ _ _ _ Ht). right. nia.
Qed.

(** What replay leaves is a journal again. *)
Lemma torn_journal_extend m0 m l r m' r' : torn_journal m0 m l r ->
  is_u16 (fst r') -> is_u16 (snd r') -> record_erased r' = false ->
  (forall a, m' a = mem_program m0 (next_index_offset l)
     (record_bytes (fst r') (snd r')) a) ->
  let l' := set_next_index_offset (next_index_offset l + 4) l in
  log_ok g m' l' /\ journal g m' l' = journal g m0 l ++ [r'].
Proof.
  intros Ht Hu1 Hu2 Her Hm. apply log_ok_program; try done; apply Ht.
Qed.

Lemma clobbered_bytes m0 m l r a : torn_journal m0 m l r ->
  mem_program m (next_index_offset l) (record_bytes 0 0) a =
  mem_program m0 (next_index_offset l) (record_bytes 0 0) a.
Proof.
  intros Ht. unfold mem_program. rewrite zlen_record_bytes.
  destruct (Z.leb_spec (next_index_offset l) a), (Z.ltb_spec a (next_index_offset l + 4));
    cbn [andb]; try (apply (torn_outside_record _ _ _ _ _ Ht); lia).
  assert (Hz : byte_at (record_bytes 0 0) (a - next_index_offset l) = 0).
  { unfold byte_at. change (record_bytes 0 0) with [0; 0; 0; 0].
    by destruct (Z.to_nat _) as [| [| [| [| [|]]]]]. }
  by rewrite Hz, !Z.land_0_r.
Qed.
End TornJournal.

Section TornMount.
Context `{Backend} `{!NorFlash} `{!ValidBackend} (g : fs_geometry) `{!GeoOk g}.
Context (I : IndexCache) `{!CachedIndex I}.

(** The replay of a journal that ends in a record which is not erased. *)
Lemma wp_replay_torn m0 r off w (Q : unit -> world -> Prop) E :
  let l := fs_log (w_fs w) in
  let l0 := set_next_index_offset off l in
  fs_geo (w_fs w) = g -> flash_ok w -> strict g = false ->
  idx_ok (w_fs w) -> idx_map (w_fs w) = ∅ ->
  torn_journal g m0 (mem w) l0 r -> record_erased r = false ->
  Forall (record_valid g) (journal g m0 l0) ->
  fits (idx_capacity g) ∅ (journal g m0 l0) ->
  (forall w', torn_done g I w off (replay_map ∅ (journal g m0 l0)) r w' -> Q tt w') ->
  wp fffs_replay_index Q E w.
Proof.
  intros l l0 Hgeo Hok Hstr Hidx Hempty Ht Her Hval Hfit HQ.
  assert (Hrp : replaying I w ∅ w) by by split.
  pose proof (tj_log _ _ _ _ _ Ht) as Hl.
  destruct (torn_journal_records g _ _ _ _ Ht) as (HR & Hoff & Hclosed).
  pose proof (torn_journal_at g _ _ _ _ Ht Her) as Htorn.
  pose proof (tj_room _ _ _ _ _ Ht) as Hroom.
  rewrite (journal_split g _ _ Hl), <- Hclosed in Hval, Hfit, HQ.
  pose proof (lk_oldest _ _ _ Hl) as Hold. pose proof (lk_count _ _ _ Hl) as Hcnt.
  pose proof (lk_active _ _ _ Hl) as Hact.
  change (active_index_sector l0) with (active_index_sector l) in *.
  change (next_index_offset l0) with off in *.
  change (oldest_index_sector l0) with (oldest_index_sector l) in *.
  change (index_sequence_count l0) with (index_sequence_count l) in *.
  set (active := active_index_sector l) in *.
  set (R := sector_journal g m0 active) in *.
  unfold fffs_replay_index. apply wp_bind, wp_get_fs. apply wp_bind.
  eapply wp_set_next_offset; [exact Hrp |]. intros w1 Hw1 _. apply wp_bind.
  fold l.
  assert (Hn : Z.to_nat (index_sequence_count l) = S (length (closed_sectors g l0))).
  { unfold closed_sectors. rewrite length_fmap, length_seq.
    change (index_sequence_count l0) with (index_sequence_count l). lia. }
  assert (Hseq : sequence_from (S (length (closed_sectors g l0))) (index_sectors g)
    (oldest_index_sector l) = closed_sectors g l0 ++ [active]).
  { rewrite <- Hn, sequence_from_closed by done. unfold closed_sectors.
    change (index_sequence_count l0) with (index_sequence_count l).
    change (oldest_index_sector l0) with (oldest_index_sector l).
    replace (Z.to_nat (index_sequence_count l)) with
      (S (Z.to_nat (index_sequence_count l - 1))) at 1 by lia.
    rewrite seq_S, fmap_app. f_equal. simpl. f_equal. rewrite Hact. f_equal. lia. }
  rewrite Hn. apply (wp_sectors_torn g I _ _ _ w ∅ R r); try done.
  - pose proof (closed_sectors_other g _ _ Hl) as Hall.
    eapply Forall_impl; [exact Hall |]. by intros x [_ Hx].
  - fold l active. lia.
  - fold l active. by rewrite <- Hoff.
  - fold l active. rewrite <- Hoff. intros tail w2 Hw2.
    assert (Hgeo2 : fs_geo (w_fs w2) = g).
    { destruct Hw2 as [[_ _ Hf _ _ _] | [Hw2 _]].
      - rewrite <- Hgeo. exact (f_equal fs_geo Hf).
      - by rewrite (replaying_geo I _ _ _ Hw2). }
    assert (Hrp2 : replaying I w2 (idx_map (w_fs w2)) w2)
      by (destruct Hw2 as [[] | [[] _]]; by split).
    apply wp_when; intros _; [| by apply HQ].
    unfold recover_allocator_hint. apply wp_bind, wp_get_geo. apply wp_bind, wp_mod_fs.
    set (w3 := mk_world _ _ _).
    assert (Hw3 : replaying I w2 (idx_map (w_fs w2)) w3)
      by (by apply (replaying_mod I _ _ _ (fun s => set_fs_alloc
        (set_alloc_cursor _ (fs_alloc s)) s))).
    eapply (wp_recover_loop g I); [exact Hw3 | done |]. intros w4 Hw4 Hlog.
    by apply HQ, (torn_done_after g I _ _ _ _ w2).
Qed.
End TornMount.

(** ** Recovery *)

Section Recovery.
Context `{Backend} `{!NorFlash} `{!ValidBackend} (g : fs_geometry) `{!GeoOk g}.
Context (I : IndexCache) `{!CachedIndex I}.

(** A mount's replay of [w] ends with the map [idx] or with [idx] changed by
    [rec], in agreement with the journal that it leaves; only the record at the
    old end of the journal [l] may have changed. *)
Definition recovers (m0 : Z -> Z) (l : fs_log_state) (idx : gmap Z Z) (rec : Z * Z)
    (w' : world) : Prop :=
  (idx_map (w_fs w') = idx \/ idx_map (w_fs w') = apply_record idx rec) /\
  log_ok g (mem w') (fs_log (w_fs w')) /\
  idx_map (w_fs w') = replay_map ∅ (journal g (mem w') (fs_log (w_fs w'))) /\
  forall a, a < next_index_offset l \/ next_index_offset l + 4 <= a -> mem w' a = m0 a.

Lemma log_eta l o : set_next_index_offset (next_index_offset l)
  (set_next_index_offset o l) = l.
Proof. by destruct l. Qed.

(** Nothing of the record was programmed. *)
Lemma recovers_erased m0 l o rec w (Q : unit -> world -> Prop) E :
  fs_geo (w_fs w) = g -> flash_ok w -> idx_ok (w_fs w) -> idx_map (w_fs w) = ∅ ->
  fs_log (w_fs w) = set_next_index_offset o l -> (forall a, mem w a = m0 a) ->
  log_ok g m0 l -> clean_journal g I m0 l ->
  (forall w', recovers m0 l (replay_map ∅ (journal g m0 l)) rec w' -> Q tt w') ->
  wp fffs_replay_index Q E w.
Proof.
  intros Hgeo Hok Hidx Hempty Hlog Hm Hl Hclean HQ.
  destruct (clean_journal_ext g I _ _ _ o Hm Hclean) as [Hc Hj]. rewrite <- Hlog in Hc, Hj.
  eapply (wp_replay g I); try done. intros w' l' Hw' Hoff. apply HQ.
  assert (Hsj : forall s, sector_journal g (mem w) s = sector_journal g m0 s)
    by (intros; by apply records_from_ext).
  assert (Hl' : fs_log (w_fs w') = l).
  { rewrite (replaying_log I _ _ _ Hw'), Hoff. unfold l'. rewrite Hlog, Hsj.
    simpl. rewrite <- (lk_next _ _ _ Hl). by destruct l. }
  assert (Hm' : forall a, mem w' a = m0 a) by (intros; by rewrite (rp_mem _ _ _ _ Hw')).
  assert (Hj0 : forall s, sector_journal g (mem w') s = sector_journal g m0 s)
    by (intros; by apply records_from_ext).
  assert (Hmap : idx_map (w_fs w') = replay_map ∅ (journal g m0 l)).
  { rewrite (rp_idx _ _ _ _ Hw'). unfold l'. by rewrite Hj. }
  split; [by left |]. rewrite Hl'. split; [| split; [| by intros]].
  - destruct Hl. split; try done; [by rewrite Hj0 |]. intros a Ha. rewrite Hm'. auto.
  - rewrite Hmap. unfold journal. f_equal. f_equal. apply list_fmap_ext.
    intros. by rewrite Hj0.
Qed.

(** A part of the record was programmed. *)
Lemma recovers_torn m0 l o r slot head w (Q : unit -> world -> Prop) E :
  let idx := replay_map ∅ (journal g m0 l) in
  fs_geo (w_fs w) = g -> flash_ok w -> strict g = false ->
  idx_ok (w_fs w) -> idx_map (w_fs w) = ∅ ->
  fs_log (w_fs w) = set_next_index_offset o l ->
  torn_journal g m0 (mem w) l r -> record_erased r = false -> clean_journal g I m0 l ->
  snd r = UINT16_MAX \/ (fst r = slot /\ (snd r = 0 -> head = 0)) ->
  (forall s, root_present g m0 s slot -> s = head \/ idx !! slot = Some s) ->
  (forall w', recovers m0 l idx (slot, head) w' -> Q tt w') ->
  wp fffs_replay_index Q E w.
Proof.
  intros idx Hgeo Hok Hstr Hidx Hempty Hlog Ht Her [_ Hval Hfit _] Hr Huniq HQ.
  assert (Heta : set_next_index_offset (next_index_offset l) (fs_log (w_fs w)) = l)
    by (rewrite Hlog; apply log_eta).
  apply (wp_replay_torn g I m0 r (next_index_offset l)); rewrite ?Heta; try done.
  intros w' Hw'. apply HQ. fold idx in Hw'.
  assert (Hnext : forall w1, next_index_offset (fs_log (w_fs w1)) = next_index_offset l + 4 ->
    replay_frame (w_fs w1) = replay_frame (w_fs w) ->
    fs_log (w_fs w1) = set_next_index_offset (next_index_offset l + 4) l).
  { intros w1 Hn Hf. pose proof (f_equal fs_log Hf) as Hlg. simpl in Hlg.
    rewrite Hlog in Hlg. destruct (fs_log (w_fs w1)), l.
    unfold set_next_index_offset in *. simpl in *. congruence. }
  assert (Hext : forall w1 r', is_u16 (fst r') -> is_u16 (snd r') ->
    record_erased r' = false ->
    next_index_offset (fs_log (w_fs w1)) = next_index_offset l + 4 ->
    replay_frame (w_fs w1) = replay_frame (w_fs w) ->
    (forall a, mem w1 a = mem_program m0 (next_index_offset l)
       (record_bytes (fst r') (snd r')) a) ->
    idx_map (w_fs w1) = apply_record idx r' ->
    apply_record idx r' = idx \/ apply_record idx r' = apply_record idx (slot, head) ->
    recovers m0 l idx (slot, head) w1).
  { intros w1 r' Hu1 Hu2 Her' Hn Hf Hm1 Hmap Hcase. split; [by rewrite Hmap |].
    rewrite (Hnext w1 Hn Hf).
    destruct (torn_journal_extend g _ _ _ _ _ r' Ht Hu1 Hu2 Her' Hm1) as [Hl' Hj'].
    split; [done |]. split.
    - rewrite Hj', Hmap. unfold idx, replay_map. by rewrite foldl_app.
    - intros a Ha. rewrite Hm1. by apply mem_program_out. }
  destruct Hw' as [[Hok' Hm' Hf' Hio' Hi' Hn'] | ([Hok' Hm' Hf' Hfl' Hio' Hi'] & Hn' & Hfst & Hh)].
  - apply (Hext w' (0, 0)); try done; [| by left]. intros a. rewrite Hm'.
    by eapply clobbered_bytes.
  - pose proof (tj_u16 _ _ _ _ _ Ht) as [Hu1 Hu2].
    apply (Hext w' r); try done.
    { intros a. rewrite Hm'. apply (tj_mem _ _ _ _ _ Ht). }
    destruct r as [s h]. cbn [fst snd] in *.
    destruct Hh as [-> | [Hh Hroot]].
    + destruct Hr as [Hr | [-> Hz]]; [done |]. right. by rewrite (Hz eq_refl).
    + destruct Hr as [Hr | [-> _]]; [lia |].
      apply (torn_journal_root g _ _ _ _ _ _ Ht) in Hroot.
      destruct (Huniq h Hroot) as [-> | Hcur]; [by right |]. left.
      unfold apply_record. rewrite !(proj2 (Z.eqb_neq _ 0)) by lia. cbn [andb].
      by apply insert_id.
Qed.
End Recovery.

(** C12: crash consistency of an append.  The power may fail in any program of an
    append of a journal record, leaving a torn program.  When the only roots of
    the slot are the record's head and the current one, the next mount replays
    whatever was left without an error: the index stands for the map before the
    append or for the map after it, it agrees with the journal on the flash,
    the journal can be appended to again, and no byte but those of the torn
    record has changed. *)
Theorem interrupted_append_recovers `{Backend} `{!NorFlash} `{!CrashFlash}
    `{!ValidBackend} (g : fs_geometry) `{!GeoOk g} (I : IndexCache) `{!CachedIndex I}
    (slot head : Z) (e : fffs_status) (w w1 : world) :
  let l := fs_log (w_fs w) in
  fs_geo (w_fs w) = g -> strict g = false -> crash_ok (w_ctx w) -> idx_ok (w_fs w) ->
  log_ok g (mem w) l -> clean_journal g I (mem w) l ->
  idx_map (w_fs w) = replay_map ∅ (journal g (mem w) l) ->
  active_sector_full (w_fs w) = false ->
  record_proper (slot, head) -> index_takes I (w_fs w) (slot, head) ->
  (forall s, root_present g (mem w) s slot ->
     s = head \/ idx_map (w_fs w) !! slot = Some s) ->
  fffs_append_index_record slot head w = (Err e, w1) ->
  forall w2 o, fs_geo (w_fs w2) = g -> flash_ok w2 -> (forall a, mem w2 a = mem w1 a) ->
    idx_ok (w_fs w2) -> idx_map (w_fs w2) = ∅ ->
    fs_log (w_fs w2) = set_next_index_offset o l ->
    exists w3, fffs_replay_index w2 = (Ok tt, w3) /\
      (idx_map (w_fs w3) = idx_map (w_fs w) \/
       idx_map (w_fs w3) = apply_record (idx_map (w_fs w)) (slot, head)) /\
      log_ok g (mem w3) (fs_log (w_fs w3)) /\
      idx_map (w_fs w3) = replay_map ∅ (journal g (mem w3) (fs_log (w_fs w3))) /\
      forall a, a < next_index_offset l \/ next_index_offset l + 4 <= a ->
        mem w3 a = mem w a.
Proof.
  intros l Hgeo Hstr Hcok Hidx Hlog Hclean Hmap Hfull Hprop Htakes Huniq Hrun w2 o Hg2
    Hok2 Hm2 Hidx2 Hempty2 Hlog2.
  assert (Hwp : wp (fffs_append_index_record slot head) (fun _ _ => True)
    (fun _ w' => crash_left (torn_record (mem w) (next_index_offset l) slot head) w w') w)
    by by apply (wp_crash_append g I).
  unfold wp in Hwp. rewrite Hrun in Hwp. destruct Hwp as [Htorn _].
  assert (Hroom : next_index_offset l + 4 <= (active_index_sector l + 1) * sector_size g).
  { unfold active_sector_full in Hfull. by rewrite Hgeo, Z.ltb_ge in Hfull. }
  pose proof (lk_tail _ _ _ Hlog) as Htail. destruct Hprop as [Hs Hh]. cbn [fst snd] in *.
  destruct (torn_record_reads (mem w) (next_index_offset l) slot head (mem w1))
    as (r & Hu1 & Hu2 & Hm1 & Hcase);
    [intros a Ha; apply Htail; lia | unfold is_u16; lia | done | done |].
  rewrite Hmap in Huniq |- *.
  assert (Hwp : wp fffs_replay_index (fun _ w3 => recovers g I (mem w) l
    (replay_map ∅ (journal g (mem w) l)) (slot, head) w3) (fun _ _ => False) w2).
  { destruct (record_erased r) eqn:Her.
    - apply (recovers_erased g I (mem w) l o (slot, head)); try done.
      intros a. rewrite Hm2, Hm1. apply andb_true_iff in Her as [He1 He2].
      apply Z.eqb_eq in He1, He2. rewrite He1, He2.
      unfold mem_program. rewrite zlen_record_bytes. change (record_bytes 65535 65535)
        with (fill 4 255).
      destruct (Z.leb_spec (next_index_offset l) a),
        (Z.ltb_spec a (next_index_offset l + 4)); cbn [andb]; try done.
      rewrite byte_at_fill, Htail by lia. done.
    - apply (recovers_torn g I (mem w) l o r slot head); try done.
      split; try done; [destruct Hcase as [| [-> _]]; [by left | by right] |].
      intros a. by rewrite Hm2. }
  apply wp_returns in Hwp as ([] & w3 & Hrun3 & Hrec). by exists w3.
Qed.
