(* ===== verification/EmuBd.v ===== *)
(** * The emulated block device

    The operations of the littlefs block device emulator, as modified for
    FASTFFS ([tests/littlefs/bd/lfs_emubd.c]), that the flash harness uses.

    Blocks are allocated on the first change, so that a block is an option; the
    sharing of blocks by copies, which the reference counts make invisible, is
    not modelled: a copy is a value.  The disk mirror, the delays and the power
    loss emulation, which the harness does not configure, are left out, and so
    is the failure of an allocation.  [None] stands for a failed assertion. *)

From S2P Require Export Prelude.

Abbreviation LFS_ERR_CORRUPT := (-84).

Inductive lfs_emubd_badblock_behavior : Type :=
| LFS_EMUBD_BADBLOCK_PROGERROR
| LFS_EMUBD_BADBLOCK_ERASEERROR
| LFS_EMUBD_BADBLOCK_READERROR
| LFS_EMUBD_BADBLOCK_PROGNOOP
| LFS_EMUBD_BADBLOCK_ERASENOOP.

#[global] Instance badblock_eq_dec : EqDecision lfs_emubd_badblock_behavior.
Proof. solve_decision. Defined.

Record lfs_emubd_config : Type := mk_emubd_config {
  bc_read_size : Z;
  bc_prog_size : Z;
  bc_erase_size : Z;
  bc_erase_count : Z;
  bc_erase_value : Z;
  bc_erase_cycles : Z;
  bc_badblock_behavior : lfs_emubd_badblock_behavior;
}.

Record lfs_emubd_block : Type := mk_block {
  eb_wear : Z;
  eb_data : list Z;
}.

Record lfs_emubd : Type := mk_emubd {
  bd_blocks : list (option lfs_emubd_block);
  bd_readed : Z;
  bd_proged : Z;
  bd_erased : Z;
  bd_cfg : lfs_emubd_config;
}.

Record lfs_emubd_prog_fault_config : Type := mk_prog_fault {
  pf_seed : Z;
  pf_max_bits : Z;
}.

(** ** Blocks *)

Definition block_at (bd : lfs_emubd) (block : Z) : option lfs_emubd_block :=
  nth (Z.to_nat block) (bd_blocks bd) None.

Definition set_block (block : Z) (b : lfs_emubd_block) (bd : lfs_emubd) : lfs_emubd :=
  mk_emubd (<[Z.to_nat block := Some b]> (bd_blocks bd)) (bd_readed bd)
    (bd_proged bd) (bd_erased bd) (bd_cfg bd).

(** [-1] does not emulate an erased value; the data are then zero. *)
Definition erase_byte (c : lfs_emubd_config) : Z :=
  if negb (bc_erase_value c =? -1) then u8 (bc_erase_value c) else 0.

Definition lfs_emubd_mutblock (bd : lfs_emubd) (block : Z) : lfs_emubd_block :=
  match block_at bd block with
  | Some b => b
  | None => mk_block 0 (fill (bc_erase_size (bd_cfg bd)) (erase_byte (bd_cfg bd)))
  end.

Definition bad_block (c : lfs_emubd_config) (b : lfs_emubd_block) : bool :=
  negb (bc_erase_cycles c =? 0) && (bc_erase_cycles c <=? eb_wear b).

(** [LFS_ASSERT]s on a range of a block. *)
Definition range_valid (c : lfs_emubd_config) (unit block off size : Z) : bool :=
  (block <? bc_erase_count c) && (off mod unit =? 0) && (size mod unit =? 0) &&
  (u32 (off + size) <=? bc_erase_size c).

(** ** Operations *)

Definition lfs_emubd_create (c : lfs_emubd_config) : lfs_emubd :=
  mk_emubd (replicate (Z.to_nat (bc_erase_count c)) None) 0 0 0 c.

(** The status and the bytes read. *)
Definition lfs_emubd_read (bd : lfs_emubd) (block off size : Z)
  : option (Z * list Z * lfs_emubd) :=
  let c := bd_cfg bd in
  if negb (range_valid c (bc_read_size c) block off size) then None
  else
    let bd' := mk_emubd (bd_blocks bd) (usz (bd_readed bd + size)) (bd_proged bd)
                 (bd_erased bd) c in
    match block_at bd block with
    | Some b =>
        if bad_block c b &&
           bool_decide (bc_badblock_behavior c = LFS_EMUBD_BADBLOCK_READERROR)
        then Some (LFS_ERR_CORRUPT, [], bd)
        else Some (0, sublist off size (eb_data b), bd')
    | None => Some (0, fill size (erase_byte c), bd')
    end.

(** [data[off + i] &= buffer[i]] *)
Definition and_bytes (off : Z) (buffer data : list Z) : list Z :=
  splice off (zip_with Z.land (sublist off (zlen buffer) data) buffer) data.

Definition lfs_emubd_prog (bd : lfs_emubd) (block off : Z) (buffer : list Z)
  : option (Z * lfs_emubd) :=
  let c := bd_cfg bd in
  if negb (range_valid c (bc_prog_size c) block off (zlen buffer)) then None
  else
    let b := lfs_emubd_mutblock bd block in
    let bd := set_block block b bd in
    if bad_block c b &&
       bool_decide (bc_badblock_behavior c = LFS_EMUBD_BADBLOCK_PROGERROR)
    then Some (LFS_ERR_CORRUPT, bd)
    else if bad_block c b &&
      (bool_decide (bc_badblock_behavior c = LFS_EMUBD_BADBLOCK_PROGNOOP) ||
       bool_decide (bc_badblock_behavior c = LFS_EMUBD_BADBLOCK_ERASENOOP))
    then Some (0, bd)
    else
      let bd := set_block block
        (mk_block (eb_wear b) (and_bytes off buffer (eb_data b))) bd in
      Some (0, mk_emubd (bd_blocks bd) (bd_readed bd)
                 (usz (bd_proged bd + zlen buffer)) (bd_erased bd) c).

Definition lfs_emubd_erase (bd : lfs_emubd) (block : Z) : option (Z * lfs_emubd) :=
  let c := bd_cfg bd in
  if negb (block <? bc_erase_count c) then None
  else
    let b := lfs_emubd_mutblock bd block in
    let bd := set_block block b bd in
    if bad_block c b &&
       bool_decide (bc_badblock_behavior c = LFS_EMUBD_BADBLOCK_ERASEERROR)
    then Some (LFS_ERR_CORRUPT, bd)
    else if bad_block c b &&
       bool_decide (bc_badblock_behavior c = LFS_EMUBD_BADBLOCK_ERASENOOP)
    then Some (0, bd)
    else
      let wear := if negb (bc_erase_cycles c =? 0) && negb (bad_block c b)
                  then u32 (eb_wear b + 1) else eb_wear b in
      let data := if negb (bc_erase_value c =? -1)
                  then fill (bc_erase_size c) (erase_byte c) else eb_data b in
      let bd := set_block block (mk_block wear data) bd in
      Some (0, mk_emubd (bd_blocks bd) (bd_readed bd) (bd_proged bd)
                 (usz (bd_erased bd + bc_erase_size c)) c).

(** The wear, which the caller converts back from the signed type. *)
Definition lfs_emubd_wear (bd : lfs_emubd) (block : Z) : option Z :=
  if negb (block <? bc_erase_count (bd_cfg bd)) then None
  else Some (match block_at bd block with Some b => eb_wear b | None => 0 end).

Definition lfs_emubd_setwear (bd : lfs_emubd) (block wear : Z)
  : option (Z * lfs_emubd) :=
  if negb (block <? bc_erase_count (bd_cfg bd)) then None
  else Some (0, set_block block
                  (mk_block wear (eb_data (lfs_emubd_mutblock bd block))) bd).

Definition lfs_emubd_copy (bd : lfs_emubd) : lfs_emubd := bd.

(** ** Sampled faults *)

Definition lfs_emubd_prng_next (state : Z) : Z :=
  let x := if state =? 0 then 0x6d2b79f5 else state in
  let x := Z.lxor x (u32 (Z.shiftl x 13)) in
  let x := Z.lxor x (Z.shiftr x 17) in
  Z.lxor x (u32 (Z.shiftl x 5)).

(** The bits of byte [i] that the program would clear. *)
Definition byte_candidates (base data i : Z) : list Z :=
  let inflight := Z.land base data in
  let clearable := Z.land base (u8 (Z.lnot inflight)) in
  (fun bit => i * 8 + bit) <$>
    List.filter (Z.testbit clearable) [0; 1; 2; 3; 4; 5; 6; 7].

Fixpoint bit_candidates (base data : list Z) (i : Z) : list Z :=
  match base, data with
  | b :: base', d :: data' => byte_candidates b d i ++ bit_candidates base' data' (i + 1)
  | _, _ => []
  end.

(** The byte to program so that the candidate bit stays set. *)
Definition keep_bit (base : list Z) (candidate : Z) (program : list Z) : list Z :=
  let byte := candidate / 8 in
  let bit := Z.shiftl 1 (candidate mod 8) in
  let b := byte_at base byte in
  let target := Z.lor (Z.land b (byte_at program byte)) bit in
  <[Z.to_nat byte := Z.lor target (u8 (Z.lnot b))]> program.

(** The selection of [n] more candidates from position [i]. *)
Fixpoint keep_bits_loop (n : nat) (i rng : Z) (candidates base program : list Z)
  : list Z :=
  match n with
  | O => program
  | S n' =>
      let rng := lfs_emubd_prng_next rng in
      let j := i + rng mod (zlen candidates - i) in
      let tmp := byte_at candidates i in
      let candidates := <[Z.to_nat j := tmp]>
        (<[Z.to_nat i := byte_at candidates j]> candidates) in
      let rng := lfs_emubd_prng_next rng in
      let program := if negb (Z.land rng 1 =? 0)
                     then keep_bit base (byte_at candidates i) program
                     else program in
      keep_bits_loop n' (i + 1) rng candidates base program
  end.

(** The status and the number of bits sampled. *)
Definition lfs_emubd_prog_random_clear (bd : lfs_emubd) (block off : Z)
    (buffer : list Z) (fault : lfs_emubd_prog_fault_config)
  : option (Z * Z * lfs_emubd) :=
  let c := bd_cfg bd in
  let size := zlen buffer in
  if negb (range_valid c (bc_prog_size c) block off size) then None
  else
    let base := match block_at bd block with
                | Some b => sublist off size (eb_data b)
                | None => fill size (erase_byte c)
                end in
    let candidates := bit_candidates base buffer 0 in
    let selected := if (pf_max_bits fault =? 0) || (zlen candidates <? pf_max_bits fault)
                    then zlen candidates else pf_max_bits fault in
    let program := keep_bits_loop (Z.to_nat selected) 0 (pf_seed fault) candidates
                     base buffer in
    match lfs_emubd_prog bd block off program with
    | None => None
    | Some (err, bd) => Some (err, selected, bd)
    end.

Fixpoint random_bytes (n : nat) (rng : Z) : list Z :=
  match n with
  | O => []
  | S n' => let rng := lfs_emubd_prng_next rng in u8 rng :: random_bytes n' rng
  end.

Definition lfs_emubd_erase_random (bd : lfs_emubd) (block seed : Z)
  : option (Z * lfs_emubd) :=
  let c := bd_cfg bd in
  if negb (block <? bc_erase_count c) then None
  else
    let b := lfs_emubd_mutblock bd block in
    let bd := set_block block
      (mk_block (eb_wear b) (random_bytes (Z.to_nat (bc_erase_size c)) seed)) bd in
    Some (0, mk_emubd (bd_blocks bd) (bd_readed bd) (bd_proged bd)
               (usz (bd_erased bd + bc_erase_size c)) c).
