(* ===== verification/VerifyFlash.v ===== *)
(** * The flash verification harness

    [src/verify_flash.c]: a byte-addressed NOR flash over the emulated block
    device, with a log of its operations, counters, a fake clock, one injected
    failure, a sampler of faults that shows branches of the image to a
    callback, staged programs and snapshots.

    Every operation returns the status of the C function.  [None] stands for a
    failed assertion of the block device and for an access outside an array.
    The cached image, which every operation refreshes from the blocks, is not a
    part of the state: [ffsv_flash_image] computes it.  The failure of an
    allocation and the file input and output of the dumps are not modelled. *)

From Stdlib Require Import String.
From S2P Require Export EmuBd.

#[local] Open Scope string_scope.
#[local] Open Scope Z_scope.

(** ** Statuses and data *)

Abbreviation FFSV_OK := 0.
Abbreviation FFSV_ERR_INVALID := (-1).
Abbreviation FFSV_ERR_NOMEM := (-2).
Abbreviation FFSV_ERR_RANGE := (-3).
Abbreviation FFSV_ERR_ALIGNMENT := (-4).
Abbreviation FFSV_ERR_NOT_BLANK := (-5).
Abbreviation FFSV_ERR_PROGRAM_TRANSITION := (-6).
Abbreviation FFSV_ERR_STAGED_BUSY := (-7).
Abbreviation FFSV_ERR_NO_STAGED_MUTATION := (-8).
Abbreviation FFSV_ERR_INJECTED := (-9).
Abbreviation FFSV_ERR_IO := (-10).

Abbreviation FFSV_NOR_PROGRAM_PAGE_SIZE := 256.
Abbreviation SIZE_MAX := 18446744073709551615.

Inductive ffsv_op_type : Type :=
| FFSV_OP_READ
| FFSV_OP_PROGRAM
| FFSV_OP_ERASE
| FFSV_OP_BLANK_CHECK
| FFSV_OP_STAGE_PROGRAM
| FFSV_OP_COMMIT_STAGED
| FFSV_OP_DROP_STAGED
| FFSV_OP_CORRUPT.

#[global] Instance op_type_eq_dec : EqDecision ffsv_op_type.
Proof. solve_decision. Defined.

Definition op_code (type : ffsv_op_type) : Z :=
  match type with
  | FFSV_OP_READ => 0
  | FFSV_OP_PROGRAM => 1
  | FFSV_OP_ERASE => 2
  | FFSV_OP_BLANK_CHECK => 3
  | FFSV_OP_STAGE_PROGRAM => 4
  | FFSV_OP_COMMIT_STAGED => 5
  | FFSV_OP_DROP_STAGED => 6
  | FFSV_OP_CORRUPT => 7
  end.

Abbreviation FFSV_OP_COUNT := 8.

Inductive ffsv_flash_preset : Type :=
| FFSV_PRESET_TARGET_NOR_NOTES
| FFSV_PRESET_ESP32S3_MEASURED.

Inductive ffsv_failure_phase : Type :=
| FFSV_FAIL_BEFORE
| FFSV_FAIL_MIDDLE
| FFSV_FAIL_AFTER.

#[global] Instance phase_eq_dec : EqDecision ffsv_failure_phase.
Proof. solve_decision. Defined.

Inductive ffsv_failure_write_mode : Type :=
| FFSV_FAIL_WRITE_PREFIX
| FFSV_FAIL_WRITE_RANDOM_CLEAR.

#[global] Instance write_mode_eq_dec : EqDecision ffsv_failure_write_mode.
Proof. solve_decision. Defined.

Record ffsv_timing : Type := mk_timing {
  read_fixed_ns : Z;
  read_per_byte_ns : Z;
  program_fixed_ns : Z;
  program_per_byte_ns : Z;
  erase_fixed_ns : Z;
  erase_per_byte_ns : Z;
  blank_check_fixed_ns : Z;
  blank_check_per_byte_ns : Z;
}.

Record ffsv_flash_config : Type := mk_flash_config {
  vc_total_size : Z;
  vc_sector_size : Z;
  vc_program_granule : Z;
  vc_erased_value : Z;
  vc_erase_cycles : Z;
  vc_timing : ffsv_timing;
  vc_max_log_entries : Z;
}.

Record ffsv_failure_injection : Type := mk_failure {
  fi_enabled : bool;
  fi_sequence : Z;
  fi_op_mask : Z;
  fi_phase : ffsv_failure_phase;
  fi_write_mode : ffsv_failure_write_mode;
  fi_status : Z;
  fi_partial_bytes : Z;
  fi_seed : Z;
}.

Definition failure_zero : ffsv_failure_injection :=
  mk_failure false 0 0 FFSV_FAIL_BEFORE FFSV_FAIL_WRITE_PREFIX 0 0 0.

Record ffsv_op_record : Type := mk_op_record {
  or_sequence : Z;
  or_type : ffsv_op_type;
  or_offset : Z;
  or_size : Z;
  or_sector : Z;
  or_call_site : option string;
  or_time_before_ns : Z;
  or_time_after_ns : Z;
  or_result : Z;
  or_injected : bool;
  or_injected_phase : ffsv_failure_phase;
  or_committed_bytes : Z;
}.

(** [sizeof(struct ffsv_op_record)] with 64-bit pointers. *)
Abbreviation OP_RECORD_SIZE := 88.

Record ffsv_op_counts : Type := mk_op_counts {
  oc_calls : Z;
  oc_bytes : Z;
}.

Record ffsv_sector_counts : Type := mk_sector_counts {
  sc_read_calls : Z;
  sc_read_bytes : Z;
  sc_programmed_bytes : Z;
  sc_erased_bytes : Z;
  sc_blank_checked_bytes : Z;
}.

Record staged_mutation : Type := mk_staged {
  st_active : bool;
  st_offset : Z;
  st_bytes : Z;
  st_data : list Z;
}.

Definition staged_zero : staged_mutation := mk_staged false 0 0 [].

Record ffsv_flash_snapshot : Type := mk_snapshot {
  sn_cfg : ffsv_flash_config;
  sn_image : list Z;
  sn_wear : list Z;
  sn_size : Z;
  sn_sector_count : Z;
  sn_next_sequence : Z;
  sn_time_ns : Z;
}.

Record ffsv_image_view : Type := mk_view {
  vw_base : list Z;
  vw_size : Z;
  vw_overlay_offset : Z;
  vw_overlay : option (list Z);
  vw_overlay_size : Z;
}.

(** [struct ffsv_flash] but its sampler, which is a part of [vstate] below: the
    branches that the sampler's callback receives have none. *)
Record ffsv_flash : Type := mk_flash {
  vf_cfg : ffsv_flash_config;
  vf_emu : lfs_emubd;
  vf_next_sequence : Z;
  vf_time_ns : Z;
  vf_failure : ffsv_failure_injection;
  vf_counts : list ffsv_op_counts;
  vf_sector_counts : list ffsv_sector_counts;
  vf_sector_count : Z;
  vf_log : list ffsv_op_record;
  vf_log_capacity : Z;
  vf_staged : staged_mutation;
}.

Record ffsv_fault_case : Type := mk_fault_case {
  fc_type : ffsv_op_type;
  fc_sequence : Z;
  fc_offset : Z;
  fc_size : Z;
  fc_permutation : Z;
  fc_seed : Z;
  fc_sampled_bits : Z;
  fc_branch : ffsv_flash;
  fc_view : ffsv_image_view;
}.

Definition set_emu (v : lfs_emubd) (s : ffsv_flash) : ffsv_flash :=
  mk_flash (vf_cfg s) v (vf_next_sequence s) (vf_time_ns s) (vf_failure s)
    (vf_counts s) (vf_sector_counts s) (vf_sector_count s) (vf_log s)
    (vf_log_capacity s) (vf_staged s).

Definition set_failure (v : ffsv_failure_injection) (s : ffsv_flash) : ffsv_flash :=
  mk_flash (vf_cfg s) (vf_emu s) (vf_next_sequence s) (vf_time_ns s) v
    (vf_counts s) (vf_sector_counts s) (vf_sector_count s) (vf_log s)
    (vf_log_capacity s) (vf_staged s).

Definition set_staged (v : staged_mutation) (s : ffsv_flash) : ffsv_flash :=
  mk_flash (vf_cfg s) (vf_emu s) (vf_next_sequence s) (vf_time_ns s) (vf_failure s)
    (vf_counts s) (vf_sector_counts s) (vf_sector_count s) (vf_log s)
    (vf_log_capacity s) v.

Definition set_clock (sequence time : Z) (s : ffsv_flash) : ffsv_flash :=
  mk_flash (vf_cfg s) (vf_emu s) sequence time (vf_failure s)
    (vf_counts s) (vf_sector_counts s) (vf_sector_count s) (vf_log s)
    (vf_log_capacity s) (vf_staged s).

Definition set_log (v : list ffsv_op_record) (capacity : Z) (s : ffsv_flash)
  : ffsv_flash :=
  mk_flash (vf_cfg s) (vf_emu s) (vf_next_sequence s) (vf_time_ns s) (vf_failure s)
    (vf_counts s) (vf_sector_counts s) (vf_sector_count s) v capacity
    (vf_staged s).

Definition set_counts (v : list ffsv_op_counts) (vs : list ffsv_sector_counts)
    (s : ffsv_flash) : ffsv_flash :=
  mk_flash (vf_cfg s) (vf_emu s) (vf_next_sequence s) (vf_time_ns s) (vf_failure s)
    v vs (vf_sector_count s) (vf_log s) (vf_log_capacity s) (vf_staged s).

(** ** Configuration *)

Definition log_limit (cfg : ffsv_flash_config) : Z :=
  if negb (vc_max_log_entries cfg =? 0) then vc_max_log_entries cfg else 4096.

Definition initial_log_capacity (limit : Z) : Z :=
  if limit <? 128 then limit else 128.

Definition checked_config (cfg : ffsv_flash_config) : Z :=
  if (vc_total_size cfg =? 0) || (vc_sector_size cfg =? 0) ||
     (vc_program_granule cfg =? 0) then FFSV_ERR_INVALID
  else if negb (vc_total_size cfg mod vc_sector_size cfg =? 0) ||
          negb (vc_sector_size cfg mod vc_program_granule cfg =? 0)
  then FFSV_ERR_INVALID
  else FFSV_OK.

(** The configuration of a preset, without the check. *)
Definition preset_config (preset : ffsv_flash_preset) (total_size : Z)
  : ffsv_flash_config :=
  match preset with
  | FFSV_PRESET_TARGET_NOR_NOTES =>
      mk_flash_config total_size 4096 4 0xff 100000
        (mk_timing 73676 81 324295 2143 42000000 0 0 391) 4096
  | FFSV_PRESET_ESP32S3_MEASURED =>
      mk_flash_config total_size 4096 16 0xff 100000
        (mk_timing 64522 120 0 5937 21269000 0 0 135) 4096
  end.

(** The status and the configuration filled in, if any. *)
Definition ffsv_flash_config_preset (preset : ffsv_flash_preset) (total_size : Z)
  : Z * option ffsv_flash_config :=
  if total_size =? 0 then (FFSV_ERR_INVALID, None)
  else (checked_config (preset_config preset total_size),
        Some (preset_config preset total_size)).

Definition check_range (cfg : ffsv_flash_config) (offset size : Z) : Z :=
  if (vc_total_size cfg <? offset) || (vc_total_size cfg - offset <? size)
  then FFSV_ERR_RANGE else FFSV_OK.

Definition check_alignment (offset size granule : Z) : Z :=
  if negb (offset mod granule =? 0) || negb (size mod granule =? 0)
  then FFSV_ERR_ALIGNMENT else FFSV_OK.

Definition sector_of (s : ffsv_flash) (offset : Z) : Z :=
  if vc_total_size (vf_cfg s) <=? offset then vf_sector_count s
  else offset / vc_sector_size (vf_cfg s).

(** ** Counters, clock and log *)

Definition op_matches (s : ffsv_flash) (type : ffsv_op_type) (sequence : Z) : bool :=
  let f := vf_failure s in
  fi_enabled f && (fi_sequence f =? sequence) &&
  negb (Z.land (fi_op_mask f) (Z.shiftl 1 (op_code type)) =? 0).

Definition duration_for (cfg : ffsv_flash_config) (type : ffsv_op_type) (size : Z) : Z :=
  let t := vc_timing cfg in
  match type with
  | FFSV_OP_READ => usz (read_fixed_ns t + read_per_byte_ns t * size)
  | FFSV_OP_PROGRAM | FFSV_OP_STAGE_PROGRAM | FFSV_OP_COMMIT_STAGED =>
      usz (program_fixed_ns t + program_per_byte_ns t * size)
  | FFSV_OP_ERASE => usz (erase_fixed_ns t + erase_per_byte_ns t * size)
  | FFSV_OP_BLANK_CHECK =>
      usz (blank_check_fixed_ns t + blank_check_per_byte_ns t * size)
  | _ => 0
  end.

(** The change of a sector's counters, for the types that have one. *)
Definition count_sector (type : ffsv_op_type) (n : Z)
  : option (ffsv_sector_counts -> ffsv_sector_counts) :=
  match type with
  | FFSV_OP_READ => Some (fun c =>
      mk_sector_counts (usz (sc_read_calls c + 1)) (usz (sc_read_bytes c + n))
        (sc_programmed_bytes c) (sc_erased_bytes c) (sc_blank_checked_bytes c))
  | FFSV_OP_PROGRAM | FFSV_OP_STAGE_PROGRAM | FFSV_OP_COMMIT_STAGED => Some (fun c =>
      mk_sector_counts (sc_read_calls c) (sc_read_bytes c)
        (usz (sc_programmed_bytes c + n)) (sc_erased_bytes c)
        (sc_blank_checked_bytes c))
  | FFSV_OP_ERASE => Some (fun c =>
      mk_sector_counts (sc_read_calls c) (sc_read_bytes c) (sc_programmed_bytes c)
        (usz (sc_erased_bytes c + n)) (sc_blank_checked_bytes c))
  | FFSV_OP_BLANK_CHECK => Some (fun c =>
      mk_sector_counts (sc_read_calls c) (sc_read_bytes c) (sc_programmed_bytes c)
        (sc_erased_bytes c) (usz (sc_blank_checked_bytes c + n)))
  | _ => None
  end.

(** The loop over [n] sectors from [sector]; an access outside the array of
    counters is [None]. *)
Fixpoint sector_counts_loop (n : nat) (sector_size : Z) (type : ffsv_op_type)
    (offset size sector : Z) (counts : list ffsv_sector_counts)
  : option (list ffsv_sector_counts) :=
  match n with
  | O => Some counts
  | S n' =>
      let sector_start := usz (sector * sector_size) in
      let sector_end := usz (sector_start + sector_size) in
      let start := if sector_start <? offset then offset else sector_start in
      let op_end := usz (offset + size) in
      let stop := if op_end <? sector_end then op_end else sector_end in
      match count_sector type (usz (stop - start)) with
      | None => sector_counts_loop n' sector_size type offset size (sector + 1) counts
      | Some f =>
          match counts !! Z.to_nat sector with
          | None => None
          | Some c =>
              sector_counts_loop n' sector_size type offset size (sector + 1)
                (<[Z.to_nat sector := f c]> counts)
          end
      end
  end.

Definition add_sector_counts (s : ffsv_flash) (type : ffsv_op_type) (offset size : Z)
  : option (list ffsv_sector_counts) :=
  if (size =? 0) || (vc_total_size (vf_cfg s) <=? offset)
  then Some (vf_sector_counts s)
  else
    let first := offset / vc_sector_size (vf_cfg s) in
    let last := usz (offset + size - 1) / vc_sector_size (vf_cfg s) in
    sector_counts_loop (Z.to_nat (last - first + 1)) (vc_sector_size (vf_cfg s)) type
      offset size first (vf_sector_counts s).

Definition count_op (type : ffsv_op_type) (size : Z) (counts : list ffsv_op_counts)
  : list ffsv_op_counts :=
  alter (fun c => mk_op_counts (usz (oc_calls c + 1)) (usz (oc_bytes c + size)))
    (Z.to_nat (op_code type)) counts.

(** The capacity of the log for one more record, or [None] when it is full. *)
Definition grow_log (count capacity limit : Z) : option Z :=
  if count <? capacity then Some capacity
  else if limit <=? capacity then None
  else
    let next := if negb (capacity =? 0) then usz (capacity * 2)
                else initial_log_capacity limit in
    let next := if (next <? capacity) || (limit <? next) then limit else next in
    if SIZE_MAX / OP_RECORD_SIZE <? next then None else Some next.

Definition injected_status (s : ffsv_flash) : Z :=
  if negb (fi_status (vf_failure s) =? 0) then fi_status (vf_failure s)
  else FFSV_ERR_INJECTED.

(** ** Sizes and seeds of faults *)

Definition injected_partial (s : ffsv_flash) (size granule : Z) : Z :=
  let partial := if negb (fi_partial_bytes (vf_failure s) =? 0)
                 then fi_partial_bytes (vf_failure s) else size / 2 in
  let partial := if 1 <? granule then partial - partial mod granule else partial in
  let partial := if (partial =? 0) && (granule <=? size) then granule else partial in
  if size <? partial then size else partial.

Definition injected_program_partial (s : ffsv_flash) (offset size : Z) : Z :=
  let granule := vc_program_granule (vf_cfg s) in
  let partial := injected_partial s size granule in
  if negb (bool_decide (fi_write_mode (vf_failure s) = FFSV_FAIL_WRITE_RANDOM_CLEAR))
  then partial
  else
    let page_remaining := FFSV_NOR_PROGRAM_PAGE_SIZE -
      offset mod FFSV_NOR_PROGRAM_PAGE_SIZE in
    let partial := if page_remaining <? partial then page_remaining else partial in
    if 1 <? granule then partial - partial mod granule else partial.

Definition failure_seed (s : ffsv_flash) (offset size : Z) : Z :=
  let f := vf_failure s in
  let seed := if negb (fi_seed f =? 0) then fi_seed f else 0x9e3779b9 in
  let seed := Z.lxor seed (u32 (fi_sequence f)) in
  let seed := Z.lxor seed (u32 (Z.shiftr (fi_sequence f) 32)) in
  let seed := Z.lxor seed (u32 (u32 offset * 0x85ebca6b)) in
  Z.lxor seed (u32 (u32 size * 0xc2b2ae35)).

Definition sampler_seed (base : Z) (type : ffsv_op_type)
    (sequence offset size permutation : Z) : Z :=
  let seed := if negb (base =? 0) then base else 0x51f15eED in
  let seed := Z.lxor seed (u32 sequence) in
  let seed := Z.lxor seed (u32 (Z.shiftr sequence 32)) in
  let seed := Z.lxor seed (u32 (op_code type * 0x9e3779b9)) in
  let seed := Z.lxor seed (u32 (u32 offset * 0x85ebca6b)) in
  let seed := Z.lxor seed (u32 (u32 size * 0xc2b2ae35)) in
  Z.lxor seed (u32 (u32 permutation * 0x27d4eb2d)).

(** The checks that a program only clears bits are disabled in the source. *)
Definition validate_program_transition (s : ffsv_flash) (offset : Z) (data : list Z) : Z :=
  FFSV_OK.

Definition map_lfs_error (err : Z) : Z := if err =? 0 then FFSV_OK else FFSV_ERR_IO.

(** ** The image *)

(** The bytes of a block, as [refresh_image_cache] copies them. *)
Definition block_image (cfg : ffsv_flash_config) (b : option lfs_emubd_block) : list Z :=
  match b with
  | Some b => eb_data b
  | None => fill (vc_sector_size cfg) (vc_erased_value cfg)
  end.

Definition ffsv_flash_image (s : ffsv_flash) : list Z :=
  List.concat (block_image (vf_cfg s) <$> bd_blocks (vf_emu s)).

(** ** The state and its operations *)

Section Harness.
(** What the [user] pointer of the sampler's callback points to. *)
Context {U : Type}.

(** The [user] pointer itself is left out: the state holds its target. *)
Record ffsv_fault_sampler : Type := mk_sampler {
  sm_enabled : bool;
  sm_op_mask : Z;
  sm_seed : Z;
  sm_permutations_per_op : Z;
  sm_max_bits_per_permutation : Z;
  sm_program_page_size : Z;
  sm_verify : option (ffsv_fault_case -> U -> Z * U);
}.

Definition sampler_zero : ffsv_fault_sampler := mk_sampler false 0 0 0 0 0 None.

Record vstate : Type := mk_vstate {
  vs_flash : ffsv_flash;
  vs_sampler : ffsv_fault_sampler;
  vs_user : U;
}.

Definition V (A : Type) : Type := vstate -> option (A * vstate).

Definition vret {A} (a : A) : V A := fun s => Some (a, s).

Definition vbind {A B} (m : V A) (k : A -> V B) : V B := fun s =>
  match m s with
  | None => None
  | Some (a, s') => k a s'
  end.

(** A failed assertion, or an access outside an array. *)
Definition vundef {A} : V A := fun _ => None.

Definition get_flash : V ffsv_flash := fun s => Some (vs_flash s, s).

Definition get_sampler : V ffsv_fault_sampler := fun s => Some (vs_sampler s, s).

Definition mod_flash (f : ffsv_flash -> ffsv_flash) : V unit := fun s =>
  Some (tt, mk_vstate (f (vs_flash s)) (vs_sampler s) (vs_user s)).

(** A call of the block device. *)
Definition emu {A} (f : lfs_emubd -> option (A * lfs_emubd)) : V A := fun s =>
  match f (vf_emu (vs_flash s)) with
  | None => None
  | Some (a, bd) =>
      Some (a, mk_vstate (set_emu bd (vs_flash s)) (vs_sampler s) (vs_user s))
  end.

#[local] Notation "x <- m ;; k" := (vbind m (fun x => k))
  (at level 100, m at next level, right associativity).
#[local] Notation "'let*' p := m 'in' k" := (vbind m (fun p => k))
  (at level 100, p pattern, m at next level, k at level 200, right associativity).
#[local] Notation "m ;; k" := (vbind m (fun _ => k))
  (at level 100, right associativity).

(** The position of the operation's log record, if the log has room, and
    whether the injected failure applies. *)
Definition begin_op (type : ffsv_op_type) (offset size : Z)
    (call_site : option string) : V (option nat * bool) :=
  s <- get_flash ;;
  let seq := vf_next_sequence s in
  let inject := op_matches s type seq in
  match add_sector_counts s type offset size with
  | None => vundef
  | Some sector_counts =>
      mod_flash (fun s =>
        set_counts (count_op type size (vf_counts s)) sector_counts
          (set_clock (usz (seq + 1)) (vf_time_ns s) s)) ;;
      match grow_log (zlen (vf_log s)) (vf_log_capacity s) (log_limit (vf_cfg s)) with
      | None => vret (None, inject)
      | Some capacity =>
          let rec := mk_op_record seq type offset size (sector_of s offset) call_site
            (vf_time_ns s) (vf_time_ns s) FFSV_OK inject
            (if inject then fi_phase (vf_failure s) else FFSV_FAIL_BEFORE) 0 in
          mod_flash (fun s => set_log (vf_log s ++ [rec]) capacity s) ;;
          vret (Some (length (vf_log s)), inject)
      end
  end.

Definition finish_record (time result committed : Z) (r : ffsv_op_record)
  : ffsv_op_record :=
  mk_op_record (or_sequence r) (or_type r) (or_offset r) (or_size r) (or_sector r)
    (or_call_site r) (or_time_before_ns r) time result (or_injected r)
    (or_injected_phase r) committed.

(** [finish_op]: the status it is given. *)
Definition finish_op (rec : option nat) (type : ffsv_op_type)
    (size result committed : Z) : V Z :=
  s <- get_flash ;;
  let time := usz (vf_time_ns s + duration_for (vf_cfg s) type size) in
  mod_flash (set_clock (vf_next_sequence s) time) ;;
  (match rec with
   | Some i => mod_flash (fun s =>
       set_log (alter (finish_record time result committed) i (vf_log s))
         (vf_log_capacity s) s)
   | None => vret tt
   end) ;;
  vret result.

(** The sequence number of an operation whose record may be missing. *)
Definition op_sequence (rec : option nat) : V Z :=
  s <- get_flash ;;
  match rec with
  | Some i =>
      match vf_log s !! i with
      | Some r => vret (or_sequence r)
      | None => vundef
      end
  | None => vret (usz (vf_next_sequence s - 1))
  end.

(** ** Changes of the image

    The loops take one sector at a time; [n] bounds the number of rounds, each
    of at least one byte. *)

Fixpoint raw_erase_loop (n : nat) (offset remaining : Z) : V Z :=
  if remaining <=? 0 then vret FFSV_OK
  else match n with
  | O => vundef
  | S n' =>
      s <- get_flash ;;
      let sector_size := vc_sector_size (vf_cfg s) in
      let sector := offset / sector_size in
      let in_sector := offset mod sector_size in
      let n := sector_size - in_sector in
      let n := if remaining <? n then remaining else n in
      match lfs_emubd_wear (vf_emu s) (u32 sector) with
      | None => vundef
      | Some wear =>
          err <- emu (fun bd => lfs_emubd_setwear bd (u32 sector) wear) ;;
          if negb (err =? 0) then vret (map_lfs_error err)
          else
            mod_flash (fun s => set_emu (set_block sector
              (let b := lfs_emubd_mutblock (vf_emu s) sector in
               mk_block (eb_wear b)
                 (splice in_sector (fill n (vc_erased_value (vf_cfg s))) (eb_data b)))
              (vf_emu s)) s) ;;
            raw_erase_loop n' (offset + n) (remaining - n)
      end
  end.

Definition raw_erase_prefix (offset size : Z) : V Z :=
  raw_erase_loop (Z.to_nat size) offset size.

Fixpoint emu_program_loop (n : nat) (offset : Z) (data : list Z) : V Z :=
  if zlen data =? 0 then vret FFSV_OK
  else match n with
  | O => vundef
  | S n' =>
      s <- get_flash ;;
      let sector_size := vc_sector_size (vf_cfg s) in
      let block := offset / sector_size in
      let off := offset mod sector_size in
      let n := sector_size - off in
      let n := if zlen data <? n then zlen data else n in
      err <- emu (fun bd => lfs_emubd_prog bd (u32 block) (u32 off)
                              (take (Z.to_nat (u32 n)) data)) ;;
      if negb (err =? 0) then vret (map_lfs_error err)
      else emu_program_loop n' (offset + n) (drop (Z.to_nat n) data)
  end.

Definition emu_program_range (offset : Z) (data : list Z) : V Z :=
  emu_program_loop (length data) offset data.

(** [data_offset] bytes have been programmed. *)
Fixpoint emu_random_clear_loop (n : nat) (seed offset data_offset : Z)
    (data : list Z) : V Z :=
  if zlen data =? 0 then vret FFSV_OK
  else match n with
  | O => vundef
  | S n' =>
      s <- get_flash ;;
      let sector_size := vc_sector_size (vf_cfg s) in
      let block := offset / sector_size in
      let off := offset mod sector_size in
      let n := sector_size - off in
      let n := if zlen data <? n then zlen data else n in
      err <- emu (fun bd =>
        match lfs_emubd_prog_random_clear bd (u32 block) (u32 off)
          (take (Z.to_nat (u32 n)) data)
          (mk_prog_fault (Z.lxor seed (u32 data_offset)) 0) with
        | None => None
        | Some (err, _, bd) => Some (err, bd)
        end) ;;
      if negb (err =? 0) then vret (map_lfs_error err)
      else emu_random_clear_loop n' seed (offset + n) (data_offset + n)
             (drop (Z.to_nat n) data)
  end.

Definition emu_program_random_clear (offset : Z) (data : list Z) : V Z :=
  s <- get_flash ;;
  emu_random_clear_loop (length data) (failure_seed s offset (zlen data)) offset 0 data.

(** The status and the number of bytes committed. *)
Definition emu_program_injected_middle (offset : Z) (data : list Z) : V (Z * Z) :=
  s <- get_flash ;;
  let commit := injected_program_partial s offset (zlen data) in
  if commit =? 0 then vret (FFSV_OK, commit)
  else
    err <- (if bool_decide (fi_write_mode (vf_failure s) = FFSV_FAIL_WRITE_RANDOM_CLEAR)
            then emu_program_random_clear offset (take (Z.to_nat commit) data)
            else emu_program_range offset (take (Z.to_nat commit) data)) ;;
    vret (err, commit).

(** The new byte is the old one changed by the mask, or the byte given. *)
Definition corrupt_bytes (xor_data : bool) (data old : list Z) : list Z :=
  if xor_data then zip_with Z.lxor old data else data.

Fixpoint raw_corrupt_loop (n : nat) (offset : Z) (data : list Z) (xor_data : bool)
  : V Z :=
  if zlen data =? 0 then vret FFSV_OK
  else match n with
  | O => vundef
  | S n' =>
      s <- get_flash ;;
      let sector_size := vc_sector_size (vf_cfg s) in
      let sector := offset / sector_size in
      let in_sector := offset mod sector_size in
      let n := sector_size - in_sector in
      let n := if zlen data <? n then zlen data else n in
      match lfs_emubd_wear (vf_emu s) (u32 sector) with
      | None => vundef
      | Some wear =>
          err <- emu (fun bd => lfs_emubd_setwear bd (u32 sector) wear) ;;
          if negb (err =? 0) then vret (map_lfs_error err)
          else
            mod_flash (fun s => set_emu (set_block sector
              (let b := lfs_emubd_mutblock (vf_emu s) sector in
               mk_block (eb_wear b)
                 (splice in_sector
                   (corrupt_bytes xor_data (take (Z.to_nat n) data)
                      (sublist in_sector n (eb_data b))) (eb_data b)))
              (vf_emu s)) s) ;;
            raw_corrupt_loop n' (offset + n) (drop (Z.to_nat n) data) xor_data
      end
  end.

Definition raw_corrupt (offset : Z) (data : list Z) (xor_data : bool) : V Z :=
  raw_corrupt_loop (length data) offset data xor_data.

(** [n] sectors from [sector]. *)
Fixpoint load_sectors (n : nat) (sector : Z) (image : list Z)
    (wear : option (list Z)) : V Z :=
  match n with
  | O => vret FFSV_OK
  | S n' =>
      s <- get_flash ;;
      let sector_size := vc_sector_size (vf_cfg s) in
      match (match wear with
             | Some w => w !! Z.to_nat sector
             | None => lfs_emubd_wear (vf_emu s) (u32 sector)
             end) with
      | None => vundef
      | Some wear_value =>
          err <- emu (fun bd => lfs_emubd_setwear bd (u32 sector) (u32 wear_value)) ;;
          if negb (err =? 0) then vret (map_lfs_error err)
          else
            mod_flash (fun s => set_emu (set_block sector
              (mk_block (eb_wear (lfs_emubd_mutblock (vf_emu s) sector))
                 (sublist (sector * sector_size) sector_size image))
              (vf_emu s)) s) ;;
            load_sectors n' (sector + 1) image wear
      end
  end.

Definition raw_load_image (image : list Z) (size : Z) (wear : option (list Z)) : V Z :=
  s <- get_flash ;;
  if negb (size =? vc_total_size (vf_cfg s)) then vret FFSV_ERR_INVALID
  else load_sectors (Z.to_nat (vf_sector_count s)) 0 image wear.

(** ** Branches and the fault sampler *)

Definition sampler_matches (sm : ffsv_fault_sampler) (type : ffsv_op_type) : bool :=
  sm_enabled sm && bool_decide (is_Some (sm_verify sm)) &&
  negb (Z.land (sm_op_mask sm) (Z.shiftl 1 (op_code type)) =? 0).

(** [emu_branch_create]: the new handle. *)
Definition emu_branch_create (s : ffsv_flash) : ffsv_flash :=
  mk_flash (vf_cfg s) (lfs_emubd_copy (vf_emu s)) (vf_next_sequence s) (vf_time_ns s)
    failure_zero (vf_counts s) (vf_sector_counts s) (vf_sector_count s) []
    (initial_log_capacity (log_limit (vf_cfg s))) staged_zero.

Definition run_fault_case (branch : ffsv_flash) (type : ffsv_op_type)
    (sequence offset size permutation seed sampled_bits : Z) : V Z := fun st =>
  match sm_verify (vs_sampler st) with
  | None => None
  | Some verify =>
      let fault := mk_fault_case type sequence offset size permutation seed sampled_bits
        branch (mk_view (ffsv_flash_image branch)
                  (vc_total_size (vf_cfg (vs_flash st))) 0 None 0) in
      let '(err, user) := verify fault (vs_user st) in
      Some (err, mk_vstate (vs_flash st) (vs_sampler st) user)
  end.

(** The status, the branch and the number of sampled bits. *)
Definition apply_program_fault_branch (branch : ffsv_flash) (offset : Z)
    (data : list Z) (page_size max_bits seed : Z) : option (Z * ffsv_flash * Z) :=
  let cfg := vf_cfg branch in
  let size := zlen data in
  let page_remaining := page_size - offset mod page_size in
  let fault_size := if size <? page_remaining then size else page_remaining in
  let sector_remaining := vc_sector_size cfg - offset mod vc_sector_size cfg in
  let fault_size := if sector_remaining <? fault_size then sector_remaining
                    else fault_size in
  let fault_size := if 1 <? vc_program_granule cfg
                    then fault_size - fault_size mod vc_program_granule cfg
                    else fault_size in
  if fault_size =? 0 then Some (FFSV_OK, branch, 0)
  else
    let block := offset / vc_sector_size cfg in
    let off := offset mod vc_sector_size cfg in
    match lfs_emubd_prog_random_clear (vf_emu branch) (u32 block) (u32 off)
      (take (Z.to_nat (u32 fault_size)) data) (mk_prog_fault seed (u32 max_bits)) with
    | None => None
    | Some (err, sampled, bd) =>
        if negb (err =? 0) then Some (map_lfs_error err, set_emu bd branch, 0)
        else Some (FFSV_OK, set_emu bd branch, sampled)
    end.

(** The loop over [n] sectors from the address [pos]. *)
Fixpoint erase_fault_loop (n : nat) (pos seed : Z) (branch : ffsv_flash)
  : option (Z * ffsv_flash) :=
  match n with
  | O => Some (FFSV_OK, branch)
  | S n' =>
      let sector_size := vc_sector_size (vf_cfg branch) in
      let sector := u32 (pos / sector_size) in
      match lfs_emubd_erase_random (vf_emu branch) sector (Z.lxor seed sector) with
      | None => None
      | Some (err, bd) =>
          if negb (err =? 0) then Some (map_lfs_error err, set_emu bd branch)
          else erase_fault_loop n' (pos + sector_size) seed (set_emu bd branch)
      end
  end.

(** The number of rounds of [for (pos = offset; pos < offset + size; pos += step)]. *)
Definition steps (size step : Z) : nat := Z.to_nat ((size + step - 1) / step).

Definition apply_erase_fault_branch (branch : ffsv_flash) (offset size seed : Z)
  : option (Z * ffsv_flash) :=
  erase_fault_loop (steps size (vc_sector_size (vf_cfg branch))) offset seed branch.

(** [n] permutations from [p]. *)
Fixpoint program_sampler_loop (n : nat) (p : Z) (type : ffsv_op_type)
    (sequence offset : Z) (data : list Z) (page_size : Z) : V Z :=
  match n with
  | O => vret FFSV_OK
  | S n' =>
      s <- get_flash ;;
      sm <- get_sampler ;;
      let seed := sampler_seed (sm_seed sm) type sequence offset (zlen data) p in
      match apply_program_fault_branch (emu_branch_create s) offset data page_size
        (sm_max_bits_per_permutation sm) seed with
      | None => vundef
      | Some (err, branch, sampled_bits) =>
          err <- (if negb (err =? 0) then vret err
                  else run_fault_case branch type sequence offset (zlen data) p seed
                         sampled_bits) ;;
          if negb (err =? 0) then vret err
          else program_sampler_loop n' (p + 1) type sequence offset data page_size
      end
  end.

Definition run_program_fault_sampler (type : ffsv_op_type) (sequence offset : Z)
    (data : list Z) : V Z :=
  sm <- get_sampler ;;
  if negb (sampler_matches sm type) then vret FFSV_OK
  else
    let page_size := if negb (sm_program_page_size sm =? 0)
                     then sm_program_page_size sm else FFSV_NOR_PROGRAM_PAGE_SIZE in
    program_sampler_loop (Z.to_nat (sm_permutations_per_op sm)) 0 type sequence offset
      data page_size.

Fixpoint erase_sampler_loop (n : nat) (p sequence offset size : Z) : V Z :=
  match n with
  | O => vret FFSV_OK
  | S n' =>
      s <- get_flash ;;
      sm <- get_sampler ;;
      let seed := sampler_seed (sm_seed sm) FFSV_OP_ERASE sequence offset size p in
      match apply_erase_fault_branch (emu_branch_create s) offset size seed with
      | None => vundef
      | Some (err, branch) =>
          err <- (if negb (err =? 0) then vret err
                  else run_fault_case branch FFSV_OP_ERASE sequence offset size p seed
                         (usz (size * 8))) ;;
          if negb (err =? 0) then vret err
          else erase_sampler_loop n' (p + 1) sequence offset size
      end
  end.

Definition run_erase_fault_sampler (sequence offset size : Z) : V Z :=
  sm <- get_sampler ;;
  if negb (sampler_matches sm FFSV_OP_ERASE) then vret FFSV_OK
  else erase_sampler_loop (Z.to_nat (sm_permutations_per_op sm)) 0 sequence offset size.

(** ** Public operations *)

Definition fails_before (s : ffsv_flash) (inject : bool) : bool :=
  inject && bool_decide (fi_phase (vf_failure s) = FFSV_FAIL_BEFORE).

Definition fails_middle (s : ffsv_flash) (inject : bool) : bool :=
  inject && bool_decide (fi_phase (vf_failure s) = FFSV_FAIL_MIDDLE).

Definition fails_after (s : ffsv_flash) (inject : bool) : bool :=
  inject && bool_decide (fi_phase (vf_failure s) = FFSV_FAIL_AFTER).

(** The status and the bytes read so far. *)
Fixpoint emu_read_loop (n : nat) (offset size : Z) (acc : list Z) : V (Z * list Z) :=
  if size <=? 0 then vret (0, acc)
  else match n with
  | O => vundef
  | S n' =>
      s <- get_flash ;;
      let sector_size := vc_sector_size (vf_cfg s) in
      let block := offset / sector_size in
      let off := offset mod sector_size in
      let n := sector_size - off in
      let n := if size <? n then size else n in
      let* (err, bytes) := emu (fun bd =>
        lfs_emubd_read bd (u32 block) (u32 off) (u32 n)) in
      if negb (err =? 0) then vret (err, acc)
      else emu_read_loop n' (offset + n) (size - n) (acc ++ bytes)
  end.

Definition ffsv_flash_read (offset size : Z) (call_site : option string)
  : V (Z * list Z) :=
  s <- get_flash ;;
  let err := check_range (vf_cfg s) offset size in
  let* (rec, inject) := begin_op FFSV_OP_READ offset size call_site in
  if negb (err =? 0) then
    st <- finish_op rec FFSV_OP_READ size err 0 ;; vret (st, [])
  else if fails_before s inject then
    st <- finish_op rec FFSV_OP_READ size (injected_status s) 0 ;; vret (st, [])
  else
    let* (err, bytes) := emu_read_loop (Z.to_nat size) offset size [] in
    if negb (err =? 0) then
      st <- finish_op rec FFSV_OP_READ size (map_lfs_error err) 0 ;; vret (st, bytes)
    else
      st <- finish_op rec FFSV_OP_READ size
              (if inject then injected_status s else FFSV_OK) 0 ;;
      vret (st, bytes).

(** The check of [size] bytes of the image at [offset]. *)
Definition image_is_erased (cfg : ffsv_flash_config) (image : list Z)
    (offset size : Z) : bool :=
  forallb (fun b => b =? vc_erased_value cfg) (sublist offset size image).

Definition ffsv_flash_blank_check (offset size : Z) (call_site : option string) : V Z :=
  s <- get_flash ;;
  let err := check_range (vf_cfg s) offset size in
  let* (rec, inject) := begin_op FFSV_OP_BLANK_CHECK offset size call_site in
  if negb (err =? 0) then finish_op rec FFSV_OP_BLANK_CHECK size err 0
  else if fails_before s inject then
    finish_op rec FFSV_OP_BLANK_CHECK size (injected_status s) 0
  else if negb (image_is_erased (vf_cfg s) (ffsv_flash_image s) offset size) then
    finish_op rec FFSV_OP_BLANK_CHECK size FFSV_ERR_NOT_BLANK 0
  else finish_op rec FFSV_OP_BLANK_CHECK size
         (if inject then injected_status s else FFSV_OK) 0.

Definition ffsv_flash_program (offset : Z) (buffer : list Z)
    (call_site : option string) : V Z :=
  s <- get_flash ;;
  let size := zlen buffer in
  if st_active (vf_staged s) then vret FFSV_ERR_STAGED_BUSY
  else
    let err := check_range (vf_cfg s) offset size in
    let err := if err =? 0
               then check_alignment offset size (vc_program_granule (vf_cfg s))
               else err in
    let* (rec, inject) := begin_op FFSV_OP_PROGRAM offset size call_site in
    if negb (err =? 0) then finish_op rec FFSV_OP_PROGRAM size err 0
    else if fails_before s inject then
      finish_op rec FFSV_OP_PROGRAM size (injected_status s) 0
    else
      let middle := fails_middle s inject in
      let result := if middle || fails_after s inject then injected_status s
                    else FFSV_OK in
      let commit := if middle then injected_program_partial s offset size else size in
      let err := validate_program_transition s offset (take (Z.to_nat commit) buffer) in
      if negb (err =? 0) then finish_op rec FFSV_OP_PROGRAM size err 0
      else
        err <- (if inject then vret FFSV_OK
                else seq <- op_sequence rec ;;
                     run_program_fault_sampler FFSV_OP_PROGRAM seq offset buffer) ;;
        if negb (err =? 0) then finish_op rec FFSV_OP_PROGRAM size err 0
        else
          let* (err, commit) :=
            (if middle then emu_program_injected_middle offset buffer
             else if 0 <? commit then
               err <- emu_program_range offset (take (Z.to_nat commit) buffer) ;;
               vret (err, commit)
             else vret (FFSV_OK, commit)) in
          if negb (err =? 0) then finish_op rec FFSV_OP_PROGRAM size err 0
          else finish_op rec FFSV_OP_PROGRAM size result commit.

(** [n] sectors from the address [pos]. *)
Fixpoint emu_erase_loop (n : nat) (pos : Z) : V Z :=
  match n with
  | O => vret 0
  | S n' =>
      s <- get_flash ;;
      let sector_size := vc_sector_size (vf_cfg s) in
      err <- emu (fun bd => lfs_emubd_erase bd (u32 (pos / sector_size))) ;;
      if negb (err =? 0) then vret err else emu_erase_loop n' (pos + sector_size)
  end.

Definition ffsv_flash_erase (offset size : Z) (call_site : option string) : V Z :=
  s <- get_flash ;;
  let sector_size := vc_sector_size (vf_cfg s) in
  let err := check_range (vf_cfg s) offset size in
  let err := if err =? 0 then check_alignment offset size sector_size else err in
  let* (rec, inject) := begin_op FFSV_OP_ERASE offset size call_site in
  if negb (err =? 0) then finish_op rec FFSV_OP_ERASE size err 0
  else if fails_before s inject then
    finish_op rec FFSV_OP_ERASE size (injected_status s) 0
  else
    let middle := fails_middle s inject in
    let result := if middle || fails_after s inject then injected_status s
                  else FFSV_OK in
    let commit := if middle then injected_partial s size sector_size else size in
    err <- (if inject then vret FFSV_OK
            else seq <- op_sequence rec ;;
                 run_erase_fault_sampler seq offset size) ;;
    if negb (err =? 0) then finish_op rec FFSV_OP_ERASE size err 0
    else
      err <- (if commit =? size then
                err <- emu_erase_loop (steps size sector_size) offset ;;
                vret (map_lfs_error err)
              else if 0 <? commit then raw_erase_prefix offset commit
              else vret FFSV_OK) ;;
      if negb (err =? 0) then finish_op rec FFSV_OP_ERASE size err 0
      else finish_op rec FFSV_OP_ERASE size result commit.

Definition ffsv_flash_stage_program (offset : Z) (buffer : list Z)
    (call_site : option string) : V Z :=
  s <- get_flash ;;
  let size := zlen buffer in
  if st_active (vf_staged s) then vret FFSV_ERR_STAGED_BUSY
  else
    let err := check_range (vf_cfg s) offset size in
    let err := if err =? 0
               then check_alignment offset size (vc_program_granule (vf_cfg s))
               else err in
    let* (rec, inject) := begin_op FFSV_OP_STAGE_PROGRAM offset size call_site in
    if negb (err =? 0) then finish_op rec FFSV_OP_STAGE_PROGRAM size err 0
    else if fails_before s inject then
      finish_op rec FFSV_OP_STAGE_PROGRAM size (injected_status s) 0
    else
      let err := validate_program_transition s offset buffer in
      if negb (err =? 0) then finish_op rec FFSV_OP_STAGE_PROGRAM size err 0
      else
        mod_flash (set_staged (mk_staged true offset size buffer)) ;;
        finish_op rec FFSV_OP_STAGE_PROGRAM size
          (if inject then injected_status s else FFSV_OK) 0.

Definition ffsv_flash_commit_staged (call_site : option string) : V Z :=
  s <- get_flash ;;
  let staged := vf_staged s in
  let offset := st_offset staged in
  let size := st_bytes staged in
  let* (rec, inject) := begin_op FFSV_OP_COMMIT_STAGED offset size call_site in
  if negb (st_active staged) then
    finish_op rec FFSV_OP_COMMIT_STAGED 0 FFSV_ERR_NO_STAGED_MUTATION 0
  else if fails_before s inject then
    finish_op rec FFSV_OP_COMMIT_STAGED size (injected_status s) 0
  else
    let middle := fails_middle s inject in
    let result := if middle || fails_after s inject then injected_status s
                  else FFSV_OK in
    let* (err, commit) :=
      (if middle then emu_program_injected_middle offset (st_data staged)
       else if 0 <? size then
         err <- (if inject then vret FFSV_OK
                 else seq <- op_sequence rec ;;
                      run_program_fault_sampler FFSV_OP_COMMIT_STAGED seq offset
                        (st_data staged)) ;;
         if negb (err =? 0) then vret (err, size)
         else
           err <- emu_program_range offset (st_data staged) ;;
           vret (err, size)
       else vret (FFSV_OK, size)) in
    if negb (err =? 0) then finish_op rec FFSV_OP_COMMIT_STAGED size err 0
    else
      mod_flash (set_staged staged_zero) ;;
      finish_op rec FFSV_OP_COMMIT_STAGED size result commit.

Definition ffsv_flash_drop_staged (call_site : option string) : V Z :=
  s <- get_flash ;;
  let staged := vf_staged s in
  let* (rec, inject) := begin_op FFSV_OP_DROP_STAGED (st_offset staged)
    (st_bytes staged) call_site in
  if negb (st_active staged) then
    finish_op rec FFSV_OP_DROP_STAGED 0 FFSV_ERR_NO_STAGED_MUTATION 0
  else if fails_before s inject then
    finish_op rec FFSV_OP_DROP_STAGED (st_bytes staged) (injected_status s) 0
  else
    mod_flash (set_staged staged_zero) ;;
    finish_op rec FFSV_OP_DROP_STAGED (st_bytes staged)
      (if inject then injected_status s else FFSV_OK) 0.

Definition corrupt_with_injection (offset : Z) (buffer : list Z)
    (call_site : option string) (xor_data : bool) : V Z :=
  s <- get_flash ;;
  let size := zlen buffer in
  let err := check_range (vf_cfg s) offset size in
  let* (rec, inject) := begin_op FFSV_OP_CORRUPT offset size call_site in
  if negb (err =? 0) then finish_op rec FFSV_OP_CORRUPT size err 0
  else if fails_before s inject then
    finish_op rec FFSV_OP_CORRUPT size (injected_status s) 0
  else
    let middle := fails_middle s inject in
    let result := if middle || fails_after s inject then injected_status s
                  else FFSV_OK in
    let commit := if middle then injected_partial s size 1 else size in
    err <- (if 0 <? commit
            then raw_corrupt offset (take (Z.to_nat commit) buffer) xor_data
            else vret FFSV_OK) ;;
    if negb (err =? 0) then finish_op rec FFSV_OP_CORRUPT size err 0
    else finish_op rec FFSV_OP_CORRUPT size result commit.

Definition ffsv_flash_corrupt (offset : Z) (buffer : list Z)
    (call_site : option string) : V Z :=
  corrupt_with_injection offset buffer call_site false.

Definition ffsv_flash_xor (offset : Z) (mask : list Z)
    (call_site : option string) : V Z :=
  corrupt_with_injection offset mask call_site true.

Definition ffsv_flash_clear_failure : V unit := mod_flash (set_failure failure_zero).

Definition ffsv_flash_set_failure (failure : ffsv_failure_injection) : V unit :=
  mod_flash (set_failure failure).

Definition ffsv_flash_set_fault_sampler (sm : ffsv_fault_sampler) : V unit := fun s =>
  Some (tt, mk_vstate (vs_flash s) sm (vs_user s)).

Definition ffsv_flash_clear_fault_sampler : V unit :=
  ffsv_flash_set_fault_sampler sampler_zero.

Definition ffsv_flash_load_image (image : list Z) (size : Z) : V Z :=
  raw_load_image image size None.
End Harness.

(** ** Creation, copies and snapshots *)

(** The status and the new device. *)
Definition ffsv_flash_create (cfg : ffsv_flash_config) : Z * option ffsv_flash :=
  let err := checked_config cfg in
  if negb (err =? 0) then (err, None)
  else
    let count := vc_total_size cfg / vc_sector_size cfg in
    let cfg := mk_flash_config (vc_total_size cfg) (vc_sector_size cfg)
      (vc_program_granule cfg) (vc_erased_value cfg) (vc_erase_cycles cfg)
      (vc_timing cfg) (log_limit cfg) in
    let emu_cfg := mk_emubd_config 1 (u32 (vc_program_granule cfg))
      (u32 (vc_sector_size cfg)) (u32 count) (vc_erased_value cfg)
      (vc_erase_cycles cfg) LFS_EMUBD_BADBLOCK_ERASEERROR in
    (FFSV_OK, Some (mk_flash cfg (lfs_emubd_create emu_cfg) 0 0 failure_zero
       (replicate (Z.to_nat FFSV_OP_COUNT) (mk_op_counts 0 0))
       (replicate (Z.to_nat count) (mk_sector_counts 0 0 0 0 0)) count []
       (initial_log_capacity (vc_max_log_entries cfg)) staged_zero)).

Definition ffsv_flash_create_with_preset (preset : ffsv_flash_preset) (total_size : Z)
  : Z * option ffsv_flash :=
  match ffsv_flash_config_preset preset total_size with
  | (err, Some cfg) => if negb (err =? 0) then (err, None) else ffsv_flash_create cfg
  | (err, None) => (err, None)
  end.

Definition ffsv_flash_cow_clone (s : ffsv_flash) : ffsv_flash := emu_branch_create s.

Definition ffsv_flash_sector_wear (s : ffsv_flash) (sector : Z) : option Z :=
  if vf_sector_count s <=? sector then Some 0
  else lfs_emubd_wear (vf_emu s) (u32 sector).

(** The wear of [n] sectors from [i]. *)
Fixpoint snapshot_wear (n : nat) (i : Z) (s : ffsv_flash) : option (list Z) :=
  match n with
  | O => Some []
  | S n' =>
      match ffsv_flash_sector_wear s i, snapshot_wear n' (i + 1) s with
      | Some w, Some l => Some (w :: l)
      | _, _ => None
      end
  end.

Definition ffsv_flash_snapshot_create (s : ffsv_flash) : option ffsv_flash_snapshot :=
  match snapshot_wear (Z.to_nat (vf_sector_count s)) 0 s with
  | None => None
  | Some wear =>
      Some (mk_snapshot (vf_cfg s) (ffsv_flash_image s) wear (vc_total_size (vf_cfg s))
              (vf_sector_count s) (vf_next_sequence s) (vf_time_ns s))
  end.

Definition ffsv_flash_reopen_from_snapshot (snapshot : ffsv_flash_snapshot)
  : option (Z * option ffsv_flash) :=
  let cfg := sn_cfg snapshot in
  if negb (checked_config cfg =? FFSV_OK) ||
     negb (sn_size snapshot =? vc_total_size cfg) then Some (FFSV_ERR_INVALID, None)
  else if negb (sn_sector_count snapshot =? vc_total_size cfg / vc_sector_size cfg)
  then Some (FFSV_ERR_INVALID, None)
  else
    match ffsv_flash_create cfg with
    | (err, None) => Some (err, None)
    | (err, Some s) =>
        match raw_load_image (sn_image snapshot) (sn_size snapshot)
          (Some (sn_wear snapshot)) (mk_vstate s sampler_zero tt) with
        | None => None
        | Some (err, st) =>
            if negb (err =? 0) then Some (err, None)
            else Some (FFSV_OK, Some (set_clock (sn_next_sequence snapshot)
                                        (sn_time_ns snapshot) (vs_flash st)))
        end
    end.

(** ** Queries *)

Definition ffsv_flash_size (s : ffsv_flash) : Z := vc_total_size (vf_cfg s).

Definition ffsv_flash_image_byte (s : ffsv_flash) (offset : Z) : Z :=
  if vc_total_size (vf_cfg s) <=? offset then 0
  else byte_at (ffsv_flash_image s) offset.

Definition ffsv_flash_image_span_is_erased (s : ffsv_flash) (offset size : Z) : bool :=
  (check_range (vf_cfg s) offset size =? FFSV_OK) &&
  image_is_erased (vf_cfg s) (ffsv_flash_image s) offset size.

(** A record matches a pattern whose missing components match anything. *)
Definition op_matching (type : option ffsv_op_type) (size sector : Z)
    (call_site : option string) (r : ffsv_op_record) : bool :=
  match type with Some t => bool_decide (or_type r = t) | None => true end &&
  ((size =? SIZE_MAX) || (or_size r =? size)) &&
  ((sector =? SIZE_MAX) || (or_sector r =? sector)) &&
  match call_site with
  | Some site => bool_decide (or_call_site r = Some site)
  | None => true
  end.

Definition ffsv_flash_count_matching (s : ffsv_flash) (type : option ffsv_op_type)
    (size sector : Z) (call_site : option string) : Z :=
  zlen (List.filter (op_matching type size sector call_site) (vf_log s)).

(** The byte of a view at a position of its base. *)
Definition view_byte_at (view : ffsv_image_view) (pos : Z) : Z :=
  match vw_overlay view with
  | Some overlay =>
      if (vw_overlay_offset view <=? pos) &&
         (pos - vw_overlay_offset view <? vw_overlay_size view)
      then byte_at overlay (pos - vw_overlay_offset view)
      else byte_at (vw_base view) pos
  | None => byte_at (vw_base view) pos
  end.

Definition ffsv_image_view_read (view : ffsv_image_view) (offset size : Z)
  : Z * list Z :=
  if (vw_size view <? offset) || (vw_size view - offset <? size)
  then (FFSV_ERR_INVALID, [])
  else (FFSV_OK, (fun i => view_byte_at view (offset + Z.of_nat i)) <$>
                   seq 0 (Z.to_nat size)).

Definition ffsv_image_view_byte (view : ffsv_image_view) (offset : Z) : Z :=
  byte_at (snd (ffsv_image_view_read view offset 1)) 0.

(** ** Names *)

Definition ffsv_op_name (type : ffsv_op_type) : string :=
  match type with
  | FFSV_OP_READ => "read"
  | FFSV_OP_PROGRAM => "program"
  | FFSV_OP_ERASE => "erase"
  | FFSV_OP_BLANK_CHECK => "blank_check"
  | FFSV_OP_STAGE_PROGRAM => "stage_program"
  | FFSV_OP_COMMIT_STAGED => "commit_staged"
  | FFSV_OP_DROP_STAGED => "drop_staged"
  | FFSV_OP_CORRUPT => "corrupt"
  end.

Definition ffsv_status_name (status : Z) : string :=
  if status =? FFSV_OK then "ok"
  else if status =? FFSV_ERR_INVALID then "invalid"
  else if status =? FFSV_ERR_NOMEM then "nomem"
  else if status =? FFSV_ERR_RANGE then "range"
  else if status =? FFSV_ERR_ALIGNMENT then "alignment"
  else if status =? FFSV_ERR_NOT_BLANK then "not_blank"
  else if status =? FFSV_ERR_PROGRAM_TRANSITION then "program_transition"
  else if status =? FFSV_ERR_STAGED_BUSY then "staged_busy"
  else if status =? FFSV_ERR_NO_STAGED_MUTATION then "no_staged_mutation"
  else if status =? FFSV_ERR_INJECTED then "injected"
  else if status =? FFSV_ERR_IO then "io"
  else "unknown".
