(* ===== verification/EmuSpec.v ===== *)
(** * The memory of the emulated block device

    The blocks of [EmuBd] as one memory, and the effect of each operation on
    it: programming clears bits, a sampled partial program leaves every byte
    between the old one and the fully programmed one, erasing sets a block to
    the erased value. *)

From S2P Require Export EmuBd Torn.

(** ** Bytes *)

Lemma land_u8_r a b : is_u8 a -> is_u8 (Z.land a b).
Proof. intros. rewrite Z.land_comm. by apply is_u8_land. Qed.

Lemma is_u8_lor a b : is_u8 a -> is_u8 b -> is_u8 (Z.lor a b).
Proof. rewrite !is_u8_iff_land. intros Ha Hb. by rewrite Z.land_lor_distr_l, Ha, Hb. Qed.

Lemma zlen_zip_land (l k : list Z) : zlen l = zlen k -> zlen (zip_with Z.land l k) = zlen k.
Proof. unfold zlen. intros. rewrite length_zip_with. lia. Qed.

Lemma byte_at_land_bytes (l k : list Z) i : zlen l = zlen k ->
  byte_at (zip_with Z.land l k) i = Z.land (byte_at l i) (byte_at k i).
Proof.
  unfold zlen, byte_at. intros Hl. rewrite !nth_lookup, lookup_zip_with.
  destruct (l !! Z.to_nat i) as [x |] eqn:Hx; simpl.
  - destruct (k !! Z.to_nat i) as [y |] eqn:Hy; simpl; [done |].
    apply lookup_lt_Some in Hx. apply lookup_ge_None in Hy. lia.
  - by rewrite Z.land_0_l.
Qed.

Lemma Forall_zip_with_fst_land (l k : list Z) :
  is_bytes l -> is_bytes k -> is_bytes (zip_with Z.land l k).
Proof.
  revert k. induction l as [| x l IH]; intros [| y k] Hl Hk; try constructor.
  - inversion_clear Hl. by apply land_u8_r.
  - inversion_clear Hl. inversion_clear Hk. by apply IH.
Qed.

Lemma sublist_fill off n k v : 0 <= off -> 0 <= n -> off + n <= k ->
  sublist off n (fill k v) = fill n v.
Proof.
  intros. unfold sublist, fill. rewrite drop_replicate, take_replicate. f_equal. lia.
Qed.

(** ** Well-formed devices *)

Class EmuGeo (c : lfs_emubd_config) : Prop := {
  eg_read : bc_read_size c = 1;
  eg_prog : 0 < bc_prog_size c;
  eg_size : 0 < bc_erase_size c;
  eg_unit : bc_erase_size c mod bc_prog_size c = 0;
  eg_count : 0 < bc_erase_count c;
  eg_fits : bc_erase_count c * bc_erase_size c < 2 ^ 32;
  eg_value : is_u8 (bc_erase_value c);
  eg_bad : bc_badblock_behavior c = LFS_EMUBD_BADBLOCK_ERASEERROR;
}.

Definition block_wf (c : lfs_emubd_config) (b : lfs_emubd_block) : Prop :=
  zlen (eb_data b) = bc_erase_size c /\ is_bytes (eb_data b).

Record emu_wf (c : lfs_emubd_config) (bd : lfs_emubd) : Prop := {
  ew_cfg : bd_cfg bd = c;
  ew_count : zlen (bd_blocks bd) = bc_erase_count c;
  ew_blocks : forall k b, block_at bd k = Some b -> block_wf c b;
}.

Section Emu.
Context (c : lfs_emubd_config) `{!EmuGeo c}.
#[local] Abbreviation size := (bc_erase_size c).
#[local] Abbreviation count := (bc_erase_count c).

(** The byte at an address of the whole device. *)
Definition emem (bd : lfs_emubd) (a : Z) : Z :=
  if 0 <=? a then
    match block_at bd (a / size) with
    | Some b => byte_at (eb_data b) (a mod size)
    | None => bc_erase_value c
    end
  else bc_erase_value c.

Lemma erase_byte_value : erase_byte c = bc_erase_value c.
Proof.
  pose proof (eg_value (c := c)) as Hv. unfold erase_byte.
  destruct (Z.eqb_spec (bc_erase_value c) (-1)) as [Heq |]; simpl.
  - rewrite Heq in Hv. unfold is_u8 in Hv. lia.
  - by apply u8_small.
Qed.

Lemma block_at_set bd k b j : zlen (bd_blocks bd) = count -> 0 <= k < count -> 0 <= j ->
  block_at (set_block k b bd) j = if j =? k then Some b else block_at bd j.
Proof.
  intros Hl Hk Hj. unfold block_at, set_block, zlen in *. simpl. rewrite !nth_lookup.
  destruct (Z.eqb_spec j k) as [-> | Hne].
  - by rewrite list_lookup_insert_eq by lia.
  - by rewrite list_lookup_insert_ne by lia.
Qed.

Lemma block_at_nonneg bd j : exists j', 0 <= j' /\ block_at bd j = block_at bd j'.
Proof. exists (Z.of_nat (Z.to_nat j)). split; [lia |]. unfold block_at. by rewrite Nat2Z.id. Qed.

Lemma emu_wf_set bd k b : emu_wf c bd -> 0 <= k < count -> block_wf c b ->
  emu_wf c (set_block k b bd).
Proof.
  intros [Hc Hl Hb] Hk Hbk. split; [done | |].
  - unfold zlen in *. simpl. by rewrite length_insert.
  - intros j b'. destruct (block_at_nonneg (set_block k b bd) j) as (j' & Hj' & ->).
    rewrite block_at_set by done. destruct (Z.eqb_spec j' k); [by intros [= <-] |].
    apply Hb.
Qed.

Lemma in_block k a : 0 <= k -> (a / size = k <-> k * size <= a < (k + 1) * size).
Proof.
  intros Hk. pose proof (eg_size (c := c)). split.
  - intros <-. pose proof (Z.div_mod a size). pose proof (Z.mod_pos_bound a size). nia.
  - intros Ha. symmetry. apply (Z.div_unique_pos _ _ _ (a - k * size)); nia.
Qed.

Lemma emem_set bd k b a : emu_wf c bd -> 0 <= k < count ->
  emem (set_block k b bd) a =
    if (k * size <=? a) && (a <? (k + 1) * size) then byte_at (eb_data b) (a - k * size)
    else emem bd a.
Proof.
  intros Hwf Hk. pose proof (eg_size (c := c)). unfold emem.
  destruct (Z.leb_spec 0 a).
  2: { destruct (Z.leb_spec (k * size) a); [nia |]. done. }
  assert (Hd : 0 <= a / size) by (apply Z.div_pos; lia).
  rewrite block_at_set by (apply Hwf || done).
  pose proof (in_block k a ltac:(lia)) as Hin.
  destruct (Z.eqb_spec (a / size) k) as [He | Hne].
  - apply Hin in He as Hr. rewrite (proj2 (Z.leb_le _ _)), (proj2 (Z.ltb_lt _ _)) by lia.
    simpl. f_equal. rewrite <- He. pose proof (Z.div_mod a size). lia.
  - destruct (Z.leb_spec (k * size) a), (Z.ltb_spec a ((k + 1) * size)); simpl; try done.
    exfalso. apply Hne, Hin. lia.
Qed.

Lemma mutblock_wf bd k : emu_wf c bd -> block_wf c (lfs_emubd_mutblock bd k).
Proof.
  intros [Hc _ Hb]. unfold lfs_emubd_mutblock.
  destruct (block_at bd k) as [b |] eqn:Hk; [by apply (Hb k) |].
  pose proof (eg_size (c := c)). split; simpl; rewrite Hc.
  - apply zlen_fill. lia.
  - apply Forall_fill. rewrite erase_byte_value. apply eg_value.
Qed.

Lemma byte_at_mutblock bd k i : emu_wf c bd -> 0 <= k -> 0 <= i < size ->
  byte_at (eb_data (lfs_emubd_mutblock bd k)) i = emem bd (k * size + i).
Proof.
  intros Hwf Hk Hi. unfold emem. rewrite (proj2 (Z.leb_le 0 _)) by nia.
  assert (Hd : (k * size + i) / size = k) by (apply in_block; nia).
  assert (Hm : (k * size + i) mod size = i).
  { pose proof (Z.div_mod (k * size + i) size). nia. }
  rewrite Hd, Hm. unfold lfs_emubd_mutblock. destruct (block_at bd k); [done |].
  rewrite (ew_cfg _ _ Hwf). simpl. rewrite byte_at_fill by done. apply erase_byte_value.
Qed.

(** Touching a block changes nothing. *)
Lemma emem_touch bd k a : emu_wf c bd -> 0 <= k < count ->
  emem (set_block k (lfs_emubd_mutblock bd k) bd) a = emem bd a.
Proof.
  intros Hwf Hk. rewrite emem_set by done.
  destruct (Z.leb_spec (k * size) a), (Z.ltb_spec a ((k + 1) * size)); simpl; try done.
  rewrite byte_at_mutblock by (done || lia). f_equal. lia.
Qed.

Lemma emem_u8 bd a : emu_wf c bd -> is_u8 (emem bd a).
Proof.
  intros Hwf. pose proof (eg_size (c := c)). unfold emem. destruct (0 <=? a); [| apply eg_value].
  destruct (block_at bd (a / size)) as [b |] eqn:Hb; [| apply eg_value].
  destruct (ew_blocks _ _ Hwf _ _ Hb) as [Hl Hd]. apply byte_at_is_u8; [done |].
  rewrite Hl. by apply Z.mod_pos_bound.
Qed.

(** Changes of the counters. *)
Lemma emu_wf_counters bd r p e : emu_wf c bd ->
  emu_wf c (mk_emubd (bd_blocks bd) r p e c).
Proof. intros [? ? Hb]. split; [done | done |]. exact Hb. Qed.

Lemma emem_counters bd r p e a : emem (mk_emubd (bd_blocks bd) r p e c) a = emem bd a.
Proof. done. Qed.

End Emu.

(** ** The operations *)

Section EmuOps.
Context (c : lfs_emubd_config) `{!EmuGeo c}.
#[local] Abbreviation size := (bc_erase_size c).
#[local] Abbreviation count := (bc_erase_count c).

Lemma range_valid_ok unit k off n : 0 <= k < count -> 0 <= off -> 0 <= n ->
  off + n <= size -> off mod unit = 0 -> n mod unit = 0 ->
  range_valid c unit k off n = true.
Proof.
  intros Hk Ho Hn Hs Hu1 Hu2. pose proof (eg_fits (c := c)). pose proof (eg_size (c := c)).
  assert (off + n < 2 ^ 32) by nia. unfold range_valid.
  rewrite (proj2 (Z.ltb_lt k count)) by lia. rewrite Hu1, Hu2, u32_small by (unfold is_u32; lia).
  by rewrite (proj2 (Z.leb_le _ _)) by lia.
Qed.

Lemma emu_read_ok bd k off n : emu_wf c bd -> 0 <= k < count -> 0 <= off -> 0 <= n ->
  off + n <= size ->
  exists bd', lfs_emubd_read bd k off n =
      Some (0, mem_bytes (emem c bd) (k * size + off) n, bd') /\
    emu_wf c bd' /\ forall a, emem c bd' a = emem c bd a.
Proof.
  intros Hwf Hk Ho Hn Hs. unfold lfs_emubd_read. rewrite (ew_cfg _ _ Hwf), (eg_read (c := c)).
  rewrite range_valid_ok by (try apply Z.mod_1_r; done). cbn [negb]. rewrite (eg_bad (c := c)).
  set (bd' := mk_emubd _ _ _ _ _).
  assert (Hbytes : sublist off n (eb_data (lfs_emubd_mutblock bd k)) =
    mem_bytes (emem c bd) (k * size + off) n).
  { destruct (mutblock_wf c bd k Hwf) as [Hl _]. apply list_eq_byte_at.
    - by rewrite zlen_sublist, zlen_mem_bytes by lia.
    - intros i Hi. rewrite zlen_sublist in Hi by lia.
      rewrite byte_at_sublist, byte_at_mem_bytes by lia.
      rewrite (byte_at_mutblock c) by (done || lia). f_equal. lia. }
  unfold lfs_emubd_mutblock in Hbytes. exists bd'.
  destruct (block_at bd k) as [b |].
  - rewrite bool_decide_false, andb_false_r by done.
    rewrite Hbytes. split; [done |]. split; [by apply emu_wf_counters | done].
  - rewrite <- Hbytes, (ew_cfg _ _ Hwf). simpl. rewrite sublist_fill by lia.
    split; [done |]. split; [by apply emu_wf_counters | done].
Qed.

Lemma block_wf_and off buf b : block_wf c b -> 0 <= off -> off + zlen buf <= size ->
  is_bytes buf -> block_wf c (mk_block (eb_wear b) (and_bytes off buf (eb_data b))).
Proof.
  intros [Hl Hd] Ho Hs Hb. pose proof (zlen_nonneg buf). unfold and_bytes.
  assert (Hz : zlen (sublist off (zlen buf) (eb_data b)) = zlen buf)
    by (apply zlen_sublist; lia).
  split; simpl.
  - rewrite zlen_splice; [done | lia |]. rewrite zlen_zip_land; lia.
  - apply Forall_splice; [| done]. apply Forall_zip_with_fst_land; [| done].
    by apply Forall_sublist.
Qed.

Lemma emu_prog_ok bd k off buf : emu_wf c bd -> 0 <= k < count -> 0 <= off ->
  off + zlen buf <= size -> off mod bc_prog_size c = 0 ->
  zlen buf mod bc_prog_size c = 0 -> is_bytes buf ->
  exists bd', lfs_emubd_prog bd k off buf = Some (0, bd') /\ emu_wf c bd' /\
    forall a, emem c bd' a = mem_program (emem c bd) (k * size + off) buf a.
Proof.
  intros Hwf Hk Ho Hs Hu1 Hu2 Hbuf. pose proof (zlen_nonneg buf).
  unfold lfs_emubd_prog. cbv zeta. rewrite (ew_cfg _ _ Hwf).
  rewrite range_valid_ok by done. cbn [negb]. rewrite (eg_bad (c := c)).
  rewrite !bool_decide_false by done. rewrite !andb_false_r. cbn [orb andb].
  pose proof (mutblock_wf c bd k Hwf) as Hb.
  set (b := lfs_emubd_mutblock bd k) in *.
  assert (Hwf1 : emu_wf c (set_block k b bd)) by by apply emu_wf_set.
  pose proof (block_wf_and off buf b Hb Ho Hs Hbuf) as Hb'.
  assert (Htouch : forall a, emem c (set_block k b bd) a = emem c bd a)
    by (intros; by apply emem_touch).
  eexists. split; [done |]. split; [by apply emu_wf_counters, emu_wf_set |].
  intros a. rewrite emem_counters, emem_set by done. cbn [eb_data].
  unfold mem_program. destruct Hb as [Hl Hd].
  assert (Hz : zlen (sublist off (zlen buf) (eb_data b)) = zlen buf)
    by (apply zlen_sublist; lia).
  destruct (Z.leb_spec (k * size) a), (Z.ltb_spec a ((k + 1) * size));
    cbn [andb].
  2-4: rewrite Htouch;
    destruct (Z.leb_spec (k * size + off) a),
      (Z.ltb_spec a (k * size + off + zlen buf)); cbn [andb]; done || lia.
  unfold and_bytes. rewrite byte_at_splice; rewrite ?zlen_zip_land; try lia.
  assert (Hbyte : forall i, 0 <= i < size -> byte_at (eb_data b) i = emem c bd (k * size + i))
    by (intros; apply byte_at_mutblock; done || lia).
  destruct (Z.leb_spec off (a - k * size)), (Z.leb_spec (k * size + off) a); try lia;
    destruct (Z.ltb_spec (a - k * size) (off + zlen buf)),
      (Z.ltb_spec a (k * size + off + zlen buf)); try lia; cbn [andb];
    try (rewrite Hbyte by lia; f_equal; lia).
  rewrite byte_at_land_bytes by done. rewrite byte_at_sublist, Hbyte by lia.
  f_equal; f_equal; lia.
Qed.

Lemma emu_erase_ok bd k : emu_wf c bd -> bc_erase_cycles c = 0 -> 0 <= k < count ->
  exists bd', lfs_emubd_erase bd k = Some (0, bd') /\ emu_wf c bd' /\
    forall a, emem c bd' a =
      if (k * size <=? a) && (a <? (k + 1) * size) then bc_erase_value c
      else emem c bd a.
Proof.
  intros Hwf Hcyc Hk. pose proof (eg_size (c := c)) as Hsz.
  unfold lfs_emubd_erase. cbv zeta. rewrite (ew_cfg _ _ Hwf).
  rewrite (proj2 (Z.ltb_lt k count)) by lia. unfold bad_block. rewrite Hcyc. cbn [negb Z.eqb andb].
  set (b := lfs_emubd_mutblock bd k).
  pose proof (mutblock_wf c bd k Hwf) as Hb.
  assert (Hv : negb (bc_erase_value c =? -1) = true).
  { pose proof (eg_value (c := c)) as Hv. unfold is_u8 in Hv.
    destruct (Z.eqb_spec (bc_erase_value c) (-1)); [lia | done]. }
  rewrite Hv, (erase_byte_value c).
  set (b' := mk_block _ _).
  assert (Hb' : block_wf c b').
  { split; simpl; [apply zlen_fill; lia | apply Forall_fill, eg_value]. }
  assert (Hwf1 : emu_wf c (set_block k b bd)) by by apply emu_wf_set.
  assert (Htouch : forall a, emem c (set_block k b bd) a = emem c bd a)
    by (intros; by apply emem_touch).
  eexists. split; [done |]. split; [by apply emu_wf_counters, emu_wf_set |].
  intros a. rewrite emem_counters, emem_set by done.
  destruct (Z.leb_spec (k * size) a), (Z.ltb_spec a ((k + 1) * size)); cbn [andb];
    try apply Htouch.
  simpl. by rewrite byte_at_fill by lia.
Qed.

(** ** Sampled partial programs *)

(** The bytes to program when some of the candidate bits are kept. *)
Definition keeps_bits (base buffer program : list Z) : Prop :=
  zlen program = zlen buffer /\ is_bytes program /\
  forall i, bits_within (Z.land (byte_at base i) (byte_at buffer i))
    (byte_at program i).

Lemma keep_bit_keeps base buffer program k : is_bytes base -> zlen base = zlen buffer ->
  keeps_bits base buffer program -> keeps_bits base buffer (keep_bit base k program).
Proof.
  intros Hbase Hlen (Hl & Hp & Hk). unfold keep_bit. cbv zeta.
  set (i := k / 8). set (v := Z.lor _ _).
  destruct (decide (Z.to_nat i < length program)%nat) as [Hlt | Hge].
  2: { rewrite list_insert_ge by lia. done. }
  assert (Hbit : is_u8 (Z.shiftl 1 (k mod 8))).
  { pose proof (Z.mod_pos_bound k 8 ltac:(lia)). rewrite Z.shiftl_1_l. unfold is_u8.
    split; [apply Z.pow_nonneg; lia | apply Z.pow_lt_mono_r; lia]. }
  split; [unfold zlen in *; by rewrite length_insert |]. split.
  - apply Forall_insert; [done |]. unfold v.
    apply is_u8_lor; [apply is_u8_lor; [| done] | apply u8_range].
    apply is_u8_land. unfold byte_at. rewrite nth_lookup.
    destruct (program !! Z.to_nat i) as [x |] eqn:Hx; simpl; [| unfold is_u8; lia].
    by eapply (Forall_lookup_1 _ _ _ _ Hp).
  - intros j. destruct (decide (Z.to_nat j = Z.to_nat i)) as [Heq | Hne].
    + assert (Hv : byte_at (<[Z.to_nat i := v]> program) j = v).
      { unfold byte_at. rewrite nth_lookup, Heq, list_lookup_insert_eq by lia. done. }
      rewrite Hv. unfold v. apply bits_within_lor, bits_within_lor.
      assert (Hbi : forall l, byte_at l i = byte_at l j)
        by (intros; unfold byte_at; by rewrite Heq).
      rewrite !Hbi. specialize (Hk j). unfold bits_within in *.
      rewrite (Z.land_comm (byte_at base j) (byte_at program j)), Z.land_assoc, Hk.
      by rewrite (Z.land_comm (byte_at base j)), <- Z.land_assoc, Z.land_diag.
    + unfold byte_at at 3. rewrite nth_lookup, list_lookup_insert_ne by done.
      rewrite <- nth_lookup. apply Hk.
Qed.

Lemma keep_bits_keeps base buffer n : is_bytes base -> zlen base = zlen buffer ->
  forall i rng candidates program, keeps_bits base buffer program ->
  keeps_bits base buffer (keep_bits_loop n i rng candidates base program).
Proof.
  intros Hbase Hlen. induction n as [| n IH]; intros i rng candidates program Hk;
    [done |]. cbn [keep_bits_loop]. cbv zeta. apply IH.
  destruct (negb _); [by apply keep_bit_keeps | done].
Qed.

(** The block as the fault helper reads it. *)
Lemma random_clear_base bd k off n : emu_wf c bd -> 0 <= k -> 0 <= off -> 0 <= n ->
  off + n <= size ->
  match block_at bd k with
  | Some b => sublist off n (eb_data b)
  | None => fill n (erase_byte c)
  end = mem_bytes (emem c bd) (k * size + off) n.
Proof.
  intros Hwf Hk Ho Hn Hs. destruct (mutblock_wf c bd k Hwf) as [Hl _].
  transitivity (sublist off n (eb_data (lfs_emubd_mutblock bd k))).
  - unfold lfs_emubd_mutblock. destruct (block_at bd k); [done |]. simpl.
    by rewrite (ew_cfg _ _ Hwf), sublist_fill by lia.
  - apply list_eq_byte_at; rewrite ?zlen_sublist, ?zlen_mem_bytes by lia; [done |].
    intros i Hi. rewrite byte_at_sublist, byte_at_mem_bytes by lia.
    rewrite (byte_at_mutblock c) by (done || lia). f_equal. lia.
Qed.

Lemma emu_random_clear_ok bd k off buf fault : emu_wf c bd -> 0 <= k < count ->
  0 <= off -> off + zlen buf <= size -> off mod bc_prog_size c = 0 ->
  zlen buf mod bc_prog_size c = 0 -> is_bytes buf ->
  exists bd' sampled, lfs_emubd_prog_random_clear bd k off buf fault =
      Some (0, sampled, bd') /\ emu_wf c bd' /\
    torn_program (emem c bd) (k * size + off) buf (emem c bd').
Proof.
  intros Hwf Hk Ho Hs Hu1 Hu2 Hbuf. pose proof (zlen_nonneg buf) as Hn.
  unfold lfs_emubd_prog_random_clear. cbv zeta. rewrite (ew_cfg _ _ Hwf).
  rewrite range_valid_ok by done. cbn [negb].
  rewrite random_clear_base by (done || lia).
  set (base := mem_bytes _ _ _). set (sel := if _ || _ then _ else _).
  set (program := keep_bits_loop _ _ _ _ _ _).
  assert (Hkeep : keeps_bits base buf program).
  { apply keep_bits_keeps.
    - apply is_bytes_mem_bytes. intros a. by apply emem_u8.
    - by apply zlen_mem_bytes.
    - split; [done |]. split; [done |]. intros i. rewrite Z.land_comm.
      apply bits_within_land_l. }
  destruct Hkeep as (Hl & Hp & Hkeep).
  destruct (emu_prog_ok bd k off program) as (bd' & Hrun & Hwf' & Hmem);
    rewrite ?Hl; try done.
  rewrite Hrun. exists bd', sel. split; [done |]. split; [done |].
  intros a. rewrite Hmem. unfold mem_program. rewrite Hl.
  destruct (Z.leb_spec (k * size + off) a), (Z.ltb_spec a (k * size + off + zlen buf));
    cbn [andb]; try done.
  specialize (Hkeep (a - (k * size + off))).
  unfold base in Hkeep. rewrite byte_at_mem_bytes in Hkeep by lia.
  replace (k * size + off + (a - (k * size + off))) with a in Hkeep by lia.
  split; [apply bits_within_land_l |]. unfold bits_within in *.
  rewrite (Z.land_comm (emem c bd a) (byte_at program _)), Z.land_assoc, Hkeep.
  by rewrite (Z.land_comm (emem c bd a)), <- Z.land_assoc, Z.land_diag.
Qed.

Lemma random_bytes_ok n rng : zlen (random_bytes n rng) = Z.of_nat n /\
  is_bytes (random_bytes n rng).
Proof.
  revert rng. induction n as [| n IH]; intros rng; [split; [done | constructor] |].
  destruct (IH (lfs_emubd_prng_next rng)) as [Hl Hb]. simpl. split.
  - rewrite zlen_cons, Hl. lia.
  - constructor; [apply u8_range | done].
Qed.

Lemma emu_erase_random_ok bd k seed : emu_wf c bd -> 0 <= k < count ->
  exists bd', lfs_emubd_erase_random bd k seed = Some (0, bd') /\ emu_wf c bd' /\
    forall a, ~ k * size <= a < (k + 1) * size -> emem c bd' a = emem c bd a.
Proof.
  intros Hwf Hk. pose proof (eg_size (c := c)). unfold lfs_emubd_erase_random. cbv zeta.
  rewrite (ew_cfg _ _ Hwf). rewrite (proj2 (Z.ltb_lt k count)) by lia. cbn [negb].
  destruct (random_bytes_ok (Z.to_nat size) seed) as [Hl Hb].
  set (b' := mk_block _ _).
  assert (Hb' : block_wf c b') by (split; [simpl; rewrite Hl; lia | done]).
  eexists. split; [done |]. split; [by apply emu_wf_counters, emu_wf_set |].
  intros a Ha. rewrite emem_counters, emem_set by done.
  destruct (Z.leb_spec (k * size) a), (Z.ltb_spec a ((k + 1) * size)); cbn [andb];
    done || lia.
Qed.

(** ** Raw changes *)

Lemma emu_splice bd k wear off src : emu_wf c bd -> 0 <= k < count -> 0 <= off ->
  off + zlen src <= size -> is_bytes src ->
  let bd' := set_block k
    (mk_block wear (splice off src (eb_data (lfs_emubd_mutblock bd k)))) bd in
  emu_wf c bd' /\ forall a, emem c bd' a =
    if (k * size + off <=? a) && (a <? k * size + off + zlen src)
    then byte_at src (a - (k * size + off)) else emem c bd a.
Proof.
  intros Hwf Hk Ho Hs Hsrc bd'. pose proof (zlen_nonneg src).
  destruct (mutblock_wf c bd k Hwf) as [Hl Hd].
  assert (Hb : block_wf c (mk_block wear (splice off src
    (eb_data (lfs_emubd_mutblock bd k))))).
  { split; simpl; [rewrite zlen_splice; lia | by apply Forall_splice]. }
  split; [by apply emu_wf_set |]. intros a. unfold bd'. rewrite emem_set by done.
  cbn [eb_data].
  destruct (Z.leb_spec (k * size) a), (Z.ltb_spec a ((k + 1) * size)); cbn [andb].
  2-4: destruct (Z.leb_spec (k * size + off) a),
      (Z.ltb_spec a (k * size + off + zlen src)); cbn [andb]; done || lia.
  rewrite byte_at_splice by lia.
  destruct (Z.leb_spec off (a - k * size)), (Z.leb_spec (k * size + off) a); try lia;
    destruct (Z.ltb_spec (a - k * size) (off + zlen src)),
      (Z.ltb_spec a (k * size + off + zlen src)); try lia; cbn [andb];
    try (rewrite (byte_at_mutblock c) by (done || lia)); f_equal; lia.
Qed.

Lemma emu_setwear_ok bd k wear : emu_wf c bd -> 0 <= k < count ->
  exists bd', lfs_emubd_setwear bd k wear = Some (0, bd') /\ emu_wf c bd' /\
    forall a, emem c bd' a = emem c bd a.
Proof.
  intros Hwf Hk. unfold lfs_emubd_setwear. rewrite (ew_cfg _ _ Hwf).
  rewrite (proj2 (Z.ltb_lt k count)) by lia. cbn [negb].
  eexists. split; [done |]. destruct (mutblock_wf c bd k Hwf) as [Hl Hd].
  split; [by apply emu_wf_set |]. intros a. rewrite emem_set by done. cbn [eb_data].
  destruct (Z.leb_spec (k * size) a), (Z.ltb_spec a ((k + 1) * size)); cbn [andb]; try done.
  rewrite (byte_at_mutblock c) by (done || lia). f_equal. lia.
Qed.

Lemma emu_wear_ok bd k : emu_wf c bd -> 0 <= k < count ->
  exists wear, lfs_emubd_wear bd k = Some wear.
Proof.
  intros Hwf Hk. unfold lfs_emubd_wear. rewrite (ew_cfg _ _ Hwf).
  rewrite (proj2 (Z.ltb_lt k count)) by lia. by eexists.
Qed.
End EmuOps.
