(* ===== verification/VerifySpec.v ===== *)
(** * The flash harness as a NOR device

    What the operations of [VerifyFlash] do to the memory of the device: with
    no failure injected and a sampler whose callback accepts every branch they
    are those of a NOR flash; an injected failure leaves a prefix, a partial
    program or nothing; the sampler never changes the device. *)

From S2P Require Export VerifyFlash EmuSpec.

(** ** Multiples *)

Lemma mod_sub a b g : 0 < g -> a mod g = 0 -> b mod g = 0 -> (a - b) mod g = 0.
Proof.
  intros Hg Ha Hb. rewrite Zminus_mod, Ha, Hb. by apply Z.mod_0_l; lia.
Qed.

Lemma mod_add a b g : 0 < g -> a mod g = 0 -> b mod g = 0 -> (a + b) mod g = 0.
Proof. intros Hg Ha Hb. rewrite Zplus_mod, Ha, Hb. by apply Z.mod_0_l; lia. Qed.

Lemma mod_mod_unit a s g : 0 < g -> 0 < s -> s mod g = 0 -> a mod g = 0 ->
  (a mod s) mod g = 0.
Proof.
  intros Hg Hs Hsg Ha. rewrite (Z.mod_eq a s) by lia. apply mod_sub; [done.. |].
  rewrite Z.mul_comm. rewrite Zmult_mod, Hsg, Z.mul_0_r. by apply Z.mod_0_l; lia.
Qed.

(** ** Consecutive bytes *)

Lemma mem_bytes_0 m off : mem_bytes m off 0 = [].
Proof. done. Qed.

Lemma mem_bytes_app m off n k : 0 <= n -> 0 <= k ->
  mem_bytes m off (n + k) = mem_bytes m off n ++ mem_bytes m (off + n) k.
Proof.
  intros Hn Hk. apply list_eq_byte_at.
  - rewrite zlen_app, !zlen_mem_bytes by lia. done.
  - intros i Hi. rewrite zlen_mem_bytes in Hi by lia. rewrite byte_at_mem_bytes by lia.
    destruct (Z.lt_ge_cases i n).
    + rewrite byte_at_app_l by (rewrite zlen_mem_bytes; lia).
      by rewrite byte_at_mem_bytes by lia.
    + rewrite byte_at_app_r by (rewrite zlen_mem_bytes; lia).
      rewrite zlen_mem_bytes by lia. rewrite byte_at_mem_bytes by lia. f_equal. lia.
Qed.

(** ** Configurations and well-formed devices *)

Class FlashGeo (cfg : ffsv_flash_config) : Prop := {
  vg_sector : 0 < vc_sector_size cfg;
  vg_granule : 0 < vc_program_granule cfg;
  vg_total : 0 < vc_total_size cfg < 2 ^ 32;
  vg_sectors : vc_total_size cfg mod vc_sector_size cfg = 0;
  vg_unit : vc_sector_size cfg mod vc_program_granule cfg = 0;
  vg_value : is_u8 (vc_erased_value cfg);
}.

(** The block device that [ffsv_flash_create] configures. *)
Definition emu_config (cfg : ffsv_flash_config) : lfs_emubd_config :=
  mk_emubd_config 1 (u32 (vc_program_granule cfg)) (u32 (vc_sector_size cfg))
    (u32 (vc_total_size cfg / vc_sector_size cfg)) (vc_erased_value cfg)
    (vc_erase_cycles cfg) LFS_EMUBD_BADBLOCK_ERASEERROR.

Record flash_wf (cfg : ffsv_flash_config) (s : ffsv_flash) : Prop := {
  fw_cfg : vf_cfg s = cfg;
  fw_emu : emu_wf (emu_config cfg) (vf_emu s);
  fw_count : vf_sector_count s = vc_total_size cfg / vc_sector_size cfg;
  fw_counts : zlen (vf_sector_counts s) = vc_total_size cfg / vc_sector_size cfg;
}.

(** What the bookkeeping of an operation leaves alone. *)
Record same_device (s s' : ffsv_flash) : Prop := {
  sd_cfg : vf_cfg s' = vf_cfg s;
  sd_emu : vf_emu s' = vf_emu s;
  sd_failure : vf_failure s' = vf_failure s;
  sd_staged : vf_staged s' = vf_staged s;
  sd_count : vf_sector_count s' = vf_sector_count s;
  sd_counts : zlen (vf_sector_counts s') = zlen (vf_sector_counts s);
}.

#[global] Instance same_device_refl : Reflexive same_device.
Proof. by split. Qed.

#[global] Instance same_device_trans : Transitive same_device.
Proof. intros s1 s2 s3 [] []. split; congruence. Qed.

(** The log record of an operation in progress. *)
Definition rec_valid (rec : option nat) (s : ffsv_flash) : Prop :=
  match rec with Some i => is_Some (vf_log s !! i) | None => True end.

Section Geo.
Context (cfg : ffsv_flash_config) `{!FlashGeo cfg}.
#[local] Abbreviation ss := (vc_sector_size cfg).
#[local] Abbreviation total := (vc_total_size cfg).
#[local] Abbreviation sectors := (vc_total_size cfg / vc_sector_size cfg).

Lemma sectors_total : sectors * ss = total.
Proof.
  pose proof (vg_sector (cfg := cfg)). pose proof (vg_sectors (cfg := cfg)).
  pose proof (Z.div_mod total ss). lia.
Qed.

Lemma geo_ranges : 0 < ss < 2 ^ 32 /\ 0 < sectors < 2 ^ 32 /\
  0 < vc_program_granule cfg <= ss.
Proof.
  pose proof sectors_total. pose proof (vg_sector (cfg := cfg)).
  pose proof (vg_total (cfg := cfg)). pose proof (vg_granule (cfg := cfg)).
  assert (0 < sectors) by nia. split; [nia |]. split; [nia |]. split; [done |].
  destruct (Z.lt_ge_cases ss (vc_program_granule cfg)); [| done].
  pose proof (vg_unit (cfg := cfg)) as Hu. rewrite Z.mod_small in Hu by lia. lia.
Qed.

Lemma emu_config_eq : emu_config cfg = mk_emubd_config 1 (vc_program_granule cfg) ss
  sectors (vc_erased_value cfg) (vc_erase_cycles cfg) LFS_EMUBD_BADBLOCK_ERASEERROR.
Proof.
  destruct geo_ranges as (H1 & H2 & H3). unfold emu_config.
  rewrite !u32_small by (unfold is_u32; lia). done.
Qed.

#[global] Instance emu_geo : EmuGeo (emu_config cfg).
Proof.
  rewrite emu_config_eq. destruct geo_ranges as (H1 & H2 & H3).
  pose proof sectors_total. pose proof (vg_total (cfg := cfg)).
  split; simpl; first [apply vg_unit | apply vg_value | done | lia].
Qed.

(** The byte at an address of the device. *)
Definition vmem (s : ffsv_flash) (a : Z) : Z := emem (emu_config cfg) (vf_emu s) a.

Lemma same_device_wf s s' : same_device s s' -> flash_wf cfg s -> flash_wf cfg s'.
Proof. intros [] []. split; congruence. Qed.

Lemma same_device_mem s s' a : same_device s s' -> vmem s' a = vmem s a.
Proof. intros []. unfold vmem. congruence. Qed.

Lemma flash_wf_emu s bd : flash_wf cfg s -> emu_wf (emu_config cfg) bd ->
  flash_wf cfg (set_emu bd s).
Proof. intros [] ?. by split. Qed.

Lemma vmem_u8 s a : flash_wf cfg s -> is_u8 (vmem s a).
Proof. intros Hwf. apply (emem_u8 (emu_config cfg)), (fw_emu _ _ Hwf). Qed.

(** ** Bookkeeping *)

Lemma sector_counts_ok n type offset size sector counts : 0 <= sector ->
  sector + Z.of_nat n <= zlen counts ->
  exists counts', sector_counts_loop n ss type offset size sector counts = Some counts' /\
    zlen counts' = zlen counts.
Proof.
  revert sector counts. induction n as [| n IH]; intros sector counts Hs Hn;
    [by exists counts |].
  cbn [sector_counts_loop]. cbv zeta. destruct (count_sector _ _) as [f |].
  - destruct (counts !! Z.to_nat sector) as [k |] eqn:Hk.
    + destruct (IH (sector + 1) (<[Z.to_nat sector := f k]> counts)) as (c' & Hr & Hl);
        [lia | unfold zlen in *; rewrite length_insert; lia |].
      exists c'. split; [done |]. rewrite Hl. unfold zlen. by rewrite length_insert.
    + apply lookup_ge_None in Hk. unfold zlen in Hn. lia.
  - apply IH; lia.
Qed.

Lemma add_counts_ok s type offset size : flash_wf cfg s -> 0 <= offset -> 0 <= size ->
  offset + size <= total ->
  exists counts, add_sector_counts s type offset size = Some counts /\
    zlen counts = zlen (vf_sector_counts s).
Proof.
  intros Hwf Ho Hs Hr. destruct geo_ranges as (H1 & H2 & _). pose proof sectors_total as Ht.
  pose proof (vg_total (cfg := cfg)). unfold add_sector_counts. cbv zeta.
  rewrite (fw_cfg _ _ Hwf).
  destruct ((size =? 0) || (total <=? offset)) eqn:Hempty; [by eexists |].
  apply orb_false_iff in Hempty as [Hz Hlt]. apply Z.eqb_neq in Hz. apply Z.leb_gt in Hlt.
  rewrite usz_small by lia. apply sector_counts_ok; [apply Z.div_pos; lia |].
  rewrite (fw_counts _ _ Hwf).
  assert (Hlast : (offset + size - 1) / ss < sectors)
    by (apply Z.div_lt_upper_bound; nia).
  assert (Hfirst : offset / ss <= (offset + size - 1) / ss)
    by (apply Z.div_le_mono; lia).
  lia.
Qed.
End Geo.

(** ** Runs of the harness *)

Section Runs.
Context {U : Type}.
#[local] Abbreviation vst := (@vstate U).

(** The call ends, without a failed assertion or an access outside an array. *)
Definition vwp {A} (m : @V U A) (Q : A -> vst -> Prop) (st : vst) : Prop :=
  match m st with Some (a, st') => Q a st' | None => False end.

Lemma vwp_ret {A} (a : A) (Q : A -> vst -> Prop) st : Q a st -> vwp (vret a) Q st.
Proof. done. Qed.

Lemma vwp_bind {A B} (m : @V U A) (k : A -> @V U B) (Q : B -> vst -> Prop) st :
  vwp m (fun a => vwp (k a) Q) st -> vwp (vbind m k) Q st.
Proof. unfold vwp, vbind. by destruct (m st) as [[a st'] |]. Qed.

Lemma vwp_mono {A} (m : @V U A) (Q Q' : A -> vst -> Prop) st :
  vwp m Q st -> (forall a st', Q a st' -> Q' a st') -> vwp m Q' st.
Proof. unfold vwp. destruct (m st) as [[a st'] |]; auto. Qed.

Lemma vwp_get_flash (Q : ffsv_flash -> vst -> Prop) st :
  Q (vs_flash st) st -> vwp get_flash Q st.
Proof. done. Qed.

Lemma vwp_get_sampler (Q : ffsv_fault_sampler -> vst -> Prop) st :
  Q (vs_sampler st) st -> vwp get_sampler Q st.
Proof. done. Qed.

Lemma vwp_mod_flash f (Q : unit -> vst -> Prop) st :
  Q tt (mk_vstate (f (vs_flash st)) (vs_sampler st) (vs_user st)) ->
  vwp (mod_flash f) Q st.
Proof. done. Qed.

Lemma vwp_emu {A} (f : lfs_emubd -> option (A * lfs_emubd)) (Q : A -> vst -> Prop)
    st a bd :
  f (vf_emu (vs_flash st)) = Some (a, bd) ->
  Q a (mk_vstate (set_emu bd (vs_flash st)) (vs_sampler st) (vs_user st)) ->
  vwp (emu f) Q st.
Proof. unfold vwp, emu. by intros ->. Qed.

Lemma vwp_run {A} (m : @V U A) (Q : A -> vst -> Prop) st :
  vwp m Q st -> exists a st', m st = Some (a, st') /\ Q a st'.
Proof. unfold vwp. destruct (m st) as [[a st'] |]; [eauto | done]. Qed.

(** Steps of the bookkeeping. *)
Record quiet (st st' : vst) : Prop := {
  qt_device : same_device (vs_flash st) (vs_flash st');
  qt_sampler : vs_sampler st' = vs_sampler st;
}.

#[global] Instance quiet_refl : Reflexive quiet.
Proof. by split. Qed.

#[global] Instance quiet_trans : Transitive quiet.
Proof.
  intros s1 s2 s3 [H1 H2] [H3 H4]. split; [by etransitivity | congruence].
Qed.

Section Config.
Context (cfg : ffsv_flash_config) `{!FlashGeo cfg}.
#[local] Abbreviation ss := (vc_sector_size cfg).
#[local] Abbreviation total := (vc_total_size cfg).
#[local] Abbreviation granule := (vc_program_granule cfg).
#[local] Abbreviation sectors := (vc_total_size cfg / vc_sector_size cfg).

Definition state_wf (st : vst) : Prop := flash_wf cfg (vs_flash st).

Definition state_mem (st : vst) : Z -> Z := vmem cfg (vs_flash st).

Lemma quiet_wf st st' : quiet st st' -> state_wf st -> state_wf st'.
Proof. intros [Hd _]. by apply same_device_wf. Qed.

Lemma quiet_mem st st' a : quiet st st' -> state_mem st' a = state_mem st a.
Proof. intros [Hd _]. by apply same_device_mem. Qed.

Lemma vwp_begin_op type offset size site (Q : option nat * bool -> vst -> Prop) st :
  state_wf st -> 0 <= offset -> 0 <= size -> offset + size <= total ->
  (forall rec st', quiet st st' -> rec_valid rec (vs_flash st') ->
     Q (rec, op_matches (vs_flash st) type (vf_next_sequence (vs_flash st))) st') ->
  vwp (begin_op type offset size site) Q st.
Proof.
  intros Hwf Ho Hs Hr HQ. unfold begin_op. apply vwp_bind, vwp_get_flash. cbv zeta.
  destruct (add_counts_ok cfg (vs_flash st) type offset size Hwf Ho Hs Hr)
    as (counts & -> & Hl).
  apply vwp_bind, vwp_mod_flash.
  destruct (grow_log _ _ _) as [capacity |].
  - apply vwp_bind, vwp_mod_flash, vwp_ret. apply HQ; [by split |].
    cbn [vs_flash rec_valid vf_log set_log]. rewrite lookup_app_r by done.
    rewrite Nat.sub_diag. simpl. eauto.
  - apply vwp_ret, HQ; [by split | done].
Qed.

Lemma vwp_finish_op rec type size result committed (Q : Z -> vst -> Prop) st :
  (forall st', quiet st st' -> Q result st') ->
  vwp (finish_op rec type size result committed) Q st.
Proof.
  intros HQ. unfold finish_op. apply vwp_bind, vwp_get_flash. cbv zeta.
  apply vwp_bind, vwp_mod_flash. apply vwp_bind.
  destruct rec as [i |]; [apply vwp_mod_flash | apply vwp_ret]; by apply vwp_ret, HQ.
Qed.

Lemma vwp_op_sequence rec (Q : Z -> vst -> Prop) st :
  rec_valid rec (vs_flash st) -> (forall seq, Q seq st) -> vwp (op_sequence rec) Q st.
Proof.
  intros Hrec HQ. unfold op_sequence. apply vwp_bind, vwp_get_flash.
  destruct rec as [i |]; [| by apply vwp_ret]. destruct Hrec as [r ->]. by apply vwp_ret.
Qed.

(** ** Changes of the memory *)

Record changed (m : Z -> Z) (st st' : vst) : Prop := {
  ch_flash : exists bd, vs_flash st' = set_emu bd (vs_flash st);
  ch_wf : state_wf st';
  ch_mem : forall a, state_mem st' a = m a;
  ch_sampler : vs_sampler st' = vs_sampler st;
}.

Lemma changed_refl st : state_wf st -> changed (state_mem st) st st.
Proof. intros Hwf. split; try done. exists (vf_emu (vs_flash st)). by destruct (vs_flash st). Qed.

Lemma changed_ext m m' st st' : changed m st st' -> (forall a, m a = m' a) ->
  changed m' st st'.
Proof. intros [] Heq. split; try done. intros a. by rewrite ch_mem0. Qed.

Lemma changed_trans m1 m2 st1 st2 st3 : changed m1 st1 st2 -> changed m2 st2 st3 ->
  changed m2 st1 st3.
Proof.
  intros [[bd1 Hf1] _ _ Hs1] [[bd2 Hf2] Hw Hm Hs2]. split; [| done | done | congruence].
  exists bd2. rewrite Hf2, Hf1. done.
Qed.

Lemma changed_emu st bd m : state_wf st -> emu_wf (emu_config cfg) bd ->
  (forall a, emem (emu_config cfg) bd a = m a) ->
  changed m st (mk_vstate (set_emu bd (vs_flash st)) (vs_sampler st) (vs_user st)).
Proof.
  intros Hwf Hbd Hm. split; [by exists bd | by apply flash_wf_emu | exact Hm | done].
Qed.

(** A piece of an operation within one sector. *)
Lemma sector_piece off n : 0 <= off -> 0 < n -> off + n <= total ->
  let k := Z.min n (ss - off mod ss) in
  0 <= off / ss < sectors /\ 0 <= off mod ss /\ 0 < k <= n /\
  off mod ss + k <= ss /\ off / ss * ss + off mod ss = off.
Proof.
  intros Ho Hn Hr k. destruct (geo_ranges cfg) as (H1 & H2 & _).
  pose proof (sectors_total cfg) as Ht.
  pose proof (Z.mod_pos_bound off ss). pose proof (Z.div_mod off ss).
  assert (Hq : 0 <= off / ss < sectors).
  { split; [apply Z.div_pos; lia | apply Z.div_lt_upper_bound; nia]. }
  unfold k. split; [done |]. lia.
Qed.

Lemma piece_min n off : (if n <? ss - off mod ss then n else ss - off mod ss) =
  Z.min n (ss - off mod ss).
Proof. destruct (Z.ltb_spec n (ss - off mod ss)); lia. Qed.

Lemma state_emu st : state_wf st -> emu_wf (emu_config cfg) (vf_emu (vs_flash st)).
Proof. apply fw_emu. Qed.

Lemma state_cfg st : state_wf st -> vf_cfg (vs_flash st) = cfg.
Proof. apply fw_cfg. Qed.

Lemma emu_config_counts : bc_erase_size (emu_config cfg) = ss /\
  bc_erase_count (emu_config cfg) = sectors /\ bc_prog_size (emu_config cfg) = granule.
Proof. by rewrite emu_config_eq. Qed.

Lemma u32_sector k : 0 <= k < sectors -> u32 k = k.
Proof. intros Hk. destruct (geo_ranges cfg) as (_ & H2 & _). apply u32_small. unfold is_u32. lia. Qed.

Lemma u32_within k : 0 <= k <= ss -> u32 k = k.
Proof. intros Hk. destruct (geo_ranges cfg) as (H1 & _). apply u32_small. unfold is_u32. lia. Qed.

(** ** Reads *)

Lemma vwp_read_loop n : forall off size acc (Q : Z * list Z -> vst -> Prop) st,
  state_wf st -> 0 <= off -> 0 <= size <= Z.of_nat n -> off + size <= total ->
  (forall st', changed (state_mem st) st st' ->
     Q (0, acc ++ mem_bytes (state_mem st) off size) st') ->
  vwp (emu_read_loop n off size acc) Q st.
Proof.
  induction n as [| n IH]; intros off size acc Q st Hwf Ho Hs Hr HQ; cbn [emu_read_loop].
  { destruct (Z.leb_spec size 0); [| lia]. apply vwp_ret.
    replace size with 0 in HQ by lia. rewrite mem_bytes_0, app_nil_r in HQ.
    by apply HQ, changed_refl. }
  destruct (Z.leb_spec size 0).
  { apply vwp_ret. replace size with 0 in HQ by lia. rewrite mem_bytes_0, app_nil_r in HQ.
    by apply HQ, changed_refl. }
  apply vwp_bind, vwp_get_flash. cbv zeta. rewrite (state_cfg _ Hwf), piece_min.
  destruct (sector_piece off size Ho ltac:(lia) Hr) as (Hk & Hm & Hp & Hin & Hoff).
  set (k := Z.min size (ss - off mod ss)) in *.
  rewrite u32_sector, !u32_within by lia.
  destruct emu_config_counts as (Hes & Hec & _).
  destruct (emu_read_ok (emu_config cfg) (vf_emu (vs_flash st)) (off / ss) (off mod ss) k)
    as (bd & Hrun & Hwf' & Hmem); rewrite ?Hes, ?Hec; try lia; [by apply state_emu |].
  rewrite Hes, Hoff in Hrun.
  apply vwp_bind. eapply vwp_emu; [exact Hrun |]. cbn [negb Z.eqb].
  set (st1 := mk_vstate _ _ _).
  assert (Hch : changed (state_mem st) st st1) by by apply changed_emu.
  apply IH; [apply Hch | lia | lia | lia |]. intros st2 Hst2.
  rewrite <- app_assoc.
  assert (Hbytes : mem_bytes (state_mem st) off size =
    mem_bytes (state_mem st) off k ++ mem_bytes (state_mem st1) (off + k) (size - k)).
  { rewrite (mem_bytes_ext (state_mem st1) (state_mem st)) by (intros; apply (ch_mem _ _ _ Hch)).
    rewrite <- mem_bytes_app by lia. f_equal. lia. }
  change (emem (emu_config cfg) (vf_emu (vs_flash st))) with (state_mem st).
  rewrite <- Hbytes. apply HQ.
  eapply changed_ext; [by eapply changed_trans |]. apply (ch_mem _ _ _ Hch).
Qed.

(** ** Programs *)

Lemma granule_pos_cfg : 0 < granule.
Proof. apply vg_granule. Qed.

Lemma piece_aligned off n : 0 <= off -> 0 < n -> off mod granule = 0 ->
  n mod granule = 0 ->
  (off mod ss) mod granule = 0 /\ Z.min n (ss - off mod ss) mod granule = 0.
Proof.
  intros Ho Hn Hoa Hna. pose proof granule_pos_cfg. pose proof (vg_unit (cfg := cfg)).
  pose proof (vg_sector (cfg := cfg)).
  assert (Hm : (off mod ss) mod granule = 0) by by apply mod_mod_unit.
  split; [done |].
  destruct (Z.min_spec n (ss - off mod ss)) as [[_ ->] | [_ ->]]; [done | by apply mod_sub].
Qed.

Lemma vwp_program_loop n : forall off data (Q : Z -> vst -> Prop) st,
  state_wf st -> 0 <= off -> (length data <= n)%nat -> off + zlen data <= total ->
  off mod granule = 0 -> zlen data mod granule = 0 -> is_bytes data ->
  (forall st', changed (mem_program (state_mem st) off data) st st' -> Q FFSV_OK st') ->
  vwp (emu_program_loop n off data) Q st.
Proof.
  assert (Hdone : forall off data (Q : Z -> vst -> Prop) st, state_wf st ->
    zlen data = 0 ->
    (forall st', changed (mem_program (state_mem st) off data) st st' -> Q FFSV_OK st') ->
    Q FFSV_OK st).
  { intros off data Q st Hwf Hz HQ. apply HQ.
    eapply changed_ext; [by apply changed_refl |]. intros a. symmetry.
    apply mem_program_out. lia. }
  induction n as [| n IH]; intros off data Q st Hwf Ho Hn Hr Hoa Hda Hb HQ;
    cbn [emu_program_loop].
  { destruct (Z.eqb_spec (zlen data) 0); [| unfold zlen in *; lia].
    apply vwp_ret. by eapply Hdone. }
  destruct (Z.eqb_spec (zlen data) 0) as [Hz | Hz]; [apply vwp_ret; by eapply Hdone |].
  pose proof (zlen_nonneg data).
  apply vwp_bind, vwp_get_flash. cbv zeta. rewrite (state_cfg _ Hwf), piece_min.
  destruct (sector_piece off (zlen data) Ho ltac:(lia) Hr) as (Hk & Hm & Hp & Hin & Hoff).
  destruct (piece_aligned off (zlen data) Ho ltac:(lia) Hoa Hda) as [Hma Hka].
  set (k := Z.min (zlen data) (ss - off mod ss)) in *.
  rewrite u32_sector, !u32_within by lia.
  destruct emu_config_counts as (Hes & Hec & Hpg).
  assert (Htk : zlen (take (Z.to_nat k) data) = k)
    by (unfold zlen in *; rewrite length_take; lia).
  destruct (emu_prog_ok (emu_config cfg) (vf_emu (vs_flash st)) (off / ss) (off mod ss)
    (take (Z.to_nat k) data)) as (bd & Hrun & Hwf' & Hmem);
    rewrite ?Hes, ?Hec, ?Hpg, ?Htk; try lia; [by apply state_emu | by apply Forall_take |].
  apply vwp_bind. eapply vwp_emu; [exact Hrun |]. cbn [negb Z.eqb].
  set (st1 := mk_vstate _ _ _). rewrite Hes, Hoff in Hmem.
  assert (Hch : changed (mem_program (state_mem st) off (take (Z.to_nat k) data)) st st1)
    by by apply changed_emu.
  assert (Hdr : zlen (drop (Z.to_nat k) data) = zlen data - k)
    by (unfold zlen in *; rewrite length_drop; lia).
  apply IH; [apply Hch | lia | rewrite length_drop; unfold zlen in *; lia | lia | | |
    by apply Forall_drop |].
  - apply mod_add; [apply granule_pos_cfg | done | done].
  - rewrite Hdr. apply mod_sub; [apply granule_pos_cfg | done | done].
  - intros st2 Hst2. apply HQ. eapply changed_ext; [by eapply changed_trans |].
    intros a. rewrite (mem_program_ext _ (mem_program (state_mem st) off
      (take (Z.to_nat k) data))) by apply (ch_mem _ _ _ Hch).
    rewrite <- Htk at 2. rewrite mem_program_app. by rewrite take_drop.
Qed.

Lemma vwp_program_range off data (Q : Z -> vst -> Prop) st :
  state_wf st -> 0 <= off -> off + zlen data <= total ->
  off mod granule = 0 -> zlen data mod granule = 0 -> is_bytes data ->
  (forall st', changed (mem_program (state_mem st) off data) st st' -> Q FFSV_OK st') ->
  vwp (emu_program_range off data) Q st.
Proof. intros. by apply vwp_program_loop. Qed.

(** ** Erases *)

Lemma steps_exact n : 0 <= n -> n mod ss = 0 -> Z.of_nat (steps n ss) * ss = n.
Proof.
  intros Hn Hm. pose proof (vg_sector (cfg := cfg)). unfold steps.
  pose proof (Z.div_mod n ss ltac:(lia)). pose proof (Z.div_pos n ss Hn ltac:(lia)).
  replace ((n + ss - 1) / ss) with (n / ss); [lia |].
  apply (Z.div_unique_pos _ _ _ (ss - 1)); lia.
Qed.

Lemma vwp_erase_loop n : forall pos (Q : Z -> vst -> Prop) st,
  state_wf st -> vc_erase_cycles cfg = 0 -> vc_erased_value cfg = 0xff ->
  0 <= pos -> pos mod ss = 0 -> pos + Z.of_nat n * ss <= total ->
  (forall st', changed (mem_erase (state_mem st) pos (Z.of_nat n * ss)) st st' ->
     Q FFSV_OK st') ->
  vwp (emu_erase_loop n pos) Q st.
Proof.
  induction n as [| n IH]; intros pos Q st Hwf Hcyc Hval Hp Hpm Hr HQ;
    cbn [emu_erase_loop].
  { apply vwp_ret, HQ. eapply changed_ext; [by apply changed_refl |]. intros a.
    unfold mem_erase. destruct (Z.leb_spec pos a), (Z.ltb_spec a (pos + Z.of_nat 0 * ss));
      simpl; done || lia. }
  apply vwp_bind, vwp_get_flash. cbv zeta. rewrite (state_cfg _ Hwf).
  pose proof (vg_sector (cfg := cfg)).
  destruct (sector_piece pos ss Hp ltac:(lia) ltac:(nia)) as (Hk & _ & _ & _ & Hoff).
  rewrite u32_sector by done. destruct emu_config_counts as (Hes & Hec & _).
  destruct (emu_erase_ok (emu_config cfg) (vf_emu (vs_flash st)) (pos / ss))
    as (bd & Hrun & Hwf' & Hmem); rewrite ?Hec; [by apply state_emu | done | done |].
  apply vwp_bind. eapply vwp_emu; [exact Hrun |]. cbn [negb Z.eqb].
  set (st1 := mk_vstate _ _ _). rewrite Hes in Hmem. rewrite Hpm, Z.add_0_r in Hoff.
  assert (Hch : changed (mem_erase (state_mem st) pos ss) st st1).
  { apply changed_emu; [done | done |]. intros a. rewrite Hmem. unfold mem_erase.
    replace ((pos / ss + 1) * ss) with (pos + ss) by lia. rewrite Hoff.
    change (bc_erase_value (emu_config cfg)) with (vc_erased_value cfg). by rewrite Hval. }
  apply IH; [apply Hch | done | done | lia | | lia |].
  - apply mod_add; [done | done | by apply Z.mod_same; lia].
  - intros st2 Hst2. apply HQ. eapply changed_ext; [by eapply changed_trans |].
    intros a. unfold mem_erase at 1. rewrite (ch_mem _ _ _ Hch). unfold mem_erase.
    destruct (Z.leb_spec (pos + ss) a), (Z.ltb_spec a (pos + ss + Z.of_nat n * ss)),
      (Z.leb_spec pos a), (Z.ltb_spec a (pos + ss)),
      (Z.ltb_spec a (pos + Z.of_nat (S n) * ss)); simpl; done || lia.
Qed.

(** ** The fault sampler *)

(** Every branch that the callback is shown is accepted. *)
Definition sampler_accepts (st : vst) : Prop :=
  0 <= sm_program_page_size (vs_sampler st) /\
  forall verify, sm_verify (vs_sampler st) = Some verify ->
  forall fault user, fst (verify fault user) = FFSV_OK.

(** The device and the sampler are as before. *)
Definition unchanged (st st' : vst) : Prop :=
  vs_flash st' = vs_flash st /\ vs_sampler st' = vs_sampler st.

Lemma vwp_fault_case branch type seq off size p seed bits (Q : Z -> vst -> Prop) st :
  sampler_accepts st -> is_Some (sm_verify (vs_sampler st)) ->
  (forall st', unchanged st st' -> Q FFSV_OK st') ->
  vwp (run_fault_case branch type seq off size p seed bits) Q st.
Proof.
  intros [_ Hacc] [verify Hv] HQ. unfold vwp, run_fault_case. rewrite Hv.
  specialize (Hacc verify Hv). set (fault := mk_fault_case _ _ _ _ _ _ _ _ _).
  specialize (Hacc fault (vs_user st)).
  destruct (verify fault (vs_user st)) as [err user]. simpl in Hacc. subst err.
  by apply HQ.
Qed.

Lemma program_fault_branch branch off data page_size max_bits seed :
  flash_wf cfg branch -> 0 < page_size -> 0 <= off -> off + zlen data <= total ->
  off mod granule = 0 -> zlen data mod granule = 0 -> is_bytes data ->
  exists branch' n, apply_program_fault_branch branch off data page_size max_bits seed =
    Some (FFSV_OK, branch', n).
Proof.
  intros Hwf Hpg Ho Hr Hoa Hda Hb. unfold apply_program_fault_branch. cbv zeta.
  rewrite (fw_cfg _ _ Hwf). pose proof (zlen_nonneg data) as Hn.
  pose proof (Z.mod_pos_bound off page_size Hpg).
  set (f0 := if zlen data <? _ then _ else _).
  assert (Hf0 : 0 <= f0 <= zlen data)
    by (unfold f0; destruct (Z.ltb_spec (zlen data) (page_size - off mod page_size)); lia).
  pose proof (Z.mod_pos_bound off ss (vg_sector (cfg := cfg))).
  set (f1 := if _ <? f0 then _ else f0).
  assert (Hf1 : 0 <= f1 <= f0 /\ off mod ss + f1 <= ss)
    by (unfold f1; destruct (Z.ltb_spec (ss - off mod ss) f0); lia).
  pose proof granule_pos_cfg as Hg.
  set (f2 := if 1 <? granule then _ else f1).
  assert (Hf2 : 0 <= f2 <= f1 /\ f2 mod granule = 0).
  { unfold f2. pose proof (Z.mod_pos_bound f1 granule Hg). pose proof (Z.mod_le f1 granule).
    destruct (Z.ltb_spec 1 granule) as [| Hle1].
    - split; [lia |]. rewrite Zminus_mod, Zmod_mod, Z.sub_diag. by apply Z.mod_0_l; lia.
    - split; [lia |]. replace granule with 1 by lia. apply Z.mod_1_r. }
  destruct (Z.eqb_spec f2 0); [by eauto |].
  destruct (sector_piece off (zlen data) Ho ltac:(lia) Hr) as (Hk & _ & _ & _ & _).
  rewrite u32_sector, !u32_within by lia. destruct emu_config_counts as (Hes & Hec & Hpr).
  assert (Htk : zlen (take (Z.to_nat f2) data) = f2)
    by (unfold zlen in *; rewrite length_take; lia).
  destruct (emu_random_clear_ok (emu_config cfg) (vf_emu branch) (off / ss) (off mod ss)
    (take (Z.to_nat f2) data) (mk_prog_fault seed (u32 max_bits)))
    as (bd & sampled & Hrun & _); rewrite ?Hes, ?Hec, ?Hpr, ?Htk; try lia.
  - apply Hwf.
  - apply mod_mod_unit; [done | apply vg_sector | apply vg_unit | done].
  - by apply Forall_take.
  - rewrite Hrun. by eexists _, _.
Qed.

Lemma vwp_program_sampler_loop n : forall p type seq off data page_size
    (Q : Z -> vst -> Prop) st,
  state_wf st -> sampler_accepts st -> is_Some (sm_verify (vs_sampler st)) ->
  0 < page_size -> 0 <= off -> off + zlen data <= total ->
  off mod granule = 0 -> zlen data mod granule = 0 -> is_bytes data ->
  (forall st', unchanged st st' -> Q FFSV_OK st') ->
  vwp (program_sampler_loop n p type seq off data page_size) Q st.
Proof.
  induction n as [| n IH]; intros p type seq off data page_size Q st Hwf Hacc Hv Hpg Ho Hr
    Hoa Hda Hb HQ; cbn [program_sampler_loop]; [by apply vwp_ret, HQ |].
  apply vwp_bind, vwp_get_flash. apply vwp_bind, vwp_get_sampler. cbv zeta.
  set (seed := sampler_seed _ _ _ _ _ _).
  destruct (program_fault_branch (emu_branch_create (vs_flash st)) off data page_size
    (sm_max_bits_per_permutation (vs_sampler st)) seed) as (branch & bits & Hrun);
    [by destruct Hwf | done.. |]. rewrite Hrun. cbn [negb Z.eqb].
  apply vwp_bind, vwp_fault_case; [done | done |]. intros st1 [Hf1 Hs1].
  cbn [negb Z.eqb].
  assert (Hwf1 : state_wf st1) by (unfold state_wf; by rewrite Hf1).
  apply IH; try done; rewrite ?Hs1; try done.
  - unfold sampler_accepts. by rewrite Hs1.
  - intros st2 [Hf2 Hs2]. apply HQ. split; congruence.
Qed.

Lemma vwp_program_sampler type seq off data (Q : Z -> vst -> Prop) st :
  state_wf st -> sampler_accepts st -> 0 <= off -> off + zlen data <= total ->
  off mod granule = 0 -> zlen data mod granule = 0 -> is_bytes data ->
  (forall st', unchanged st st' -> Q FFSV_OK st') ->
  vwp (run_program_fault_sampler type seq off data) Q st.
Proof.
  intros Hwf Hacc Ho Hr Hoa Hda Hb HQ. unfold run_program_fault_sampler.
  apply vwp_bind, vwp_get_sampler.
  destruct (sampler_matches _ _) eqn:Hm; cbn [negb]; [| by apply vwp_ret, HQ].
  unfold sampler_matches in Hm. rewrite !andb_true_iff in Hm.
  destruct Hm as [[_ Hv] _]. apply bool_decide_eq_true in Hv.
  apply vwp_program_sampler_loop; try done. destruct Hacc as [Hpg _].
  destruct (Z.eqb_spec (sm_program_page_size (vs_sampler st)) 0); simpl; lia.
Qed.

Lemma erase_fault_branch n : forall pos seed branch, flash_wf cfg branch -> 0 <= pos ->
  pos mod ss = 0 -> pos + Z.of_nat n * ss <= total ->
  exists branch', erase_fault_loop n pos seed branch = Some (FFSV_OK, branch').
Proof.
  induction n as [| n IH]; intros pos seed branch Hwf Hp Hpm Hr; [by eexists |].
  cbn [erase_fault_loop]. cbv zeta. rewrite (fw_cfg _ _ Hwf).
  pose proof (vg_sector (cfg := cfg)).
  destruct (sector_piece pos ss Hp ltac:(lia) ltac:(nia)) as (Hk & _).
  rewrite u32_sector by done. destruct emu_config_counts as (_ & Hec & _).
  destruct (emu_erase_random_ok (emu_config cfg) (vf_emu branch) (pos / ss)
    (Z.lxor seed (pos / ss))) as (bd & Hrun & Hwf' & _);
    rewrite ?Hec; [apply Hwf | done |].
  rewrite Hrun. cbn [negb Z.eqb]. apply IH; [by apply flash_wf_emu | lia | | lia].
  apply mod_add; [done | done | by apply Z.mod_same; lia].
Qed.

Lemma vwp_erase_sampler_loop n : forall p seq off size (Q : Z -> vst -> Prop) st,
  state_wf st -> sampler_accepts st -> is_Some (sm_verify (vs_sampler st)) ->
  0 <= off -> 0 <= size -> off + size <= total -> off mod ss = 0 -> size mod ss = 0 ->
  (forall st', unchanged st st' -> Q FFSV_OK st') ->
  vwp (erase_sampler_loop n p seq off size) Q st.
Proof.
  induction n as [| n IH]; intros p seq off size Q st Hwf Hacc Hv Ho Hs Hr Hoa Hsa HQ;
    cbn [erase_sampler_loop]; [by apply vwp_ret, HQ |].
  apply vwp_bind, vwp_get_flash. apply vwp_bind, vwp_get_sampler. cbv zeta.
  set (seed := sampler_seed _ _ _ _ _ _). unfold apply_erase_fault_branch.
  assert (Hbw : flash_wf cfg (emu_branch_create (vs_flash st))) by by destruct Hwf.
  rewrite (fw_cfg _ _ Hbw).
  destruct (erase_fault_branch (steps size ss) off seed _ Hbw) as (branch & Hrun);
    [done | done | by rewrite steps_exact |]. rewrite Hrun. cbn [negb Z.eqb].
  apply vwp_bind, vwp_fault_case; [done | done |]. intros st1 [Hf1 Hs1].
  cbn [negb Z.eqb].
  assert (Hwf1 : state_wf st1) by (unfold state_wf; by rewrite Hf1).
  apply IH; try done; rewrite ?Hs1; try done.
  - unfold sampler_accepts. by rewrite Hs1.
  - intros st2 [Hf2 Hs2]. apply HQ. split; congruence.
Qed.

Lemma vwp_erase_sampler seq off size (Q : Z -> vst -> Prop) st :
  state_wf st -> sampler_accepts st -> 0 <= off -> 0 <= size -> off + size <= total ->
  off mod ss = 0 -> size mod ss = 0 ->
  (forall st', unchanged st st' -> Q FFSV_OK st') ->
  vwp (run_erase_fault_sampler seq off size) Q st.
Proof.
  intros Hwf Hacc Ho Hs Hr Hoa Hsa HQ. unfold run_erase_fault_sampler.
  apply vwp_bind, vwp_get_sampler.
  destruct (sampler_matches _ _) eqn:Hm; cbn [negb]; [| by apply vwp_ret, HQ].
  unfold sampler_matches in Hm. rewrite !andb_true_iff in Hm.
  destruct Hm as [[_ Hv] _]. apply bool_decide_eq_true in Hv.
  by apply vwp_erase_sampler_loop.
Qed.

(** ** Torn programs *)

Record torn_step (off : Z) (buf : list Z) (st st' : vst) : Prop := {
  to_flash : exists bd, vs_flash st' = set_emu bd (vs_flash st);
  to_wf : state_wf st';
  to_mem : torn_program (state_mem st) off buf (state_mem st');
  to_sampler : vs_sampler st' = vs_sampler st;
}.

Lemma changed_torn m off buf st st' : changed m st st' ->
  torn_program (state_mem st) off buf m -> torn_step off buf st st'.
Proof. intros [] Ht. split; try done. by eapply torn_ext. Qed.

Lemma vwp_random_clear_loop n : forall seed off data_off data (Q : Z -> vst -> Prop) st,
  state_wf st -> 0 <= off -> (length data <= n)%nat -> off + zlen data <= total ->
  off mod granule = 0 -> zlen data mod granule = 0 -> is_bytes data ->
  (forall st', torn_step off data st st' -> Q FFSV_OK st') ->
  vwp (emu_random_clear_loop n seed off data_off data) Q st.
Proof.
  assert (Hdone : forall off data (Q : Z -> vst -> Prop) st, state_wf st ->
    (forall st', torn_step off data st st' -> Q FFSV_OK st') -> Q FFSV_OK st).
  { intros off data Q st Hwf HQ. apply HQ. eapply changed_torn; [by apply changed_refl |].
    apply torn_refl. }
  induction n as [| n IH]; intros seed off data_off data Q st Hwf Ho Hn Hr Hoa Hda Hb HQ;
    cbn [emu_random_clear_loop].
  { destruct (Z.eqb_spec (zlen data) 0); [| unfold zlen in *; lia].
    apply vwp_ret. by eapply Hdone. }
  destruct (Z.eqb_spec (zlen data) 0) as [Hz | Hz]; [apply vwp_ret; by eapply Hdone |].
  pose proof (zlen_nonneg data).
  apply vwp_bind, vwp_get_flash. cbv zeta. rewrite (state_cfg _ Hwf), piece_min.
  destruct (sector_piece off (zlen data) Ho ltac:(lia) Hr) as (Hk & Hm & Hp & Hin & Hoff).
  destruct (piece_aligned off (zlen data) Ho ltac:(lia) Hoa Hda) as [Hma Hka].
  set (k := Z.min (zlen data) (ss - off mod ss)) in *.
  rewrite u32_sector, !u32_within by lia.
  destruct emu_config_counts as (Hes & Hec & Hpg).
  assert (Htk : zlen (take (Z.to_nat k) data) = k)
    by (unfold zlen in *; rewrite length_take; lia).
  destruct (emu_random_clear_ok (emu_config cfg) (vf_emu (vs_flash st)) (off / ss)
    (off mod ss) (take (Z.to_nat k) data) (mk_prog_fault (Z.lxor seed (u32 data_off)) 0))
    as (bd & sampled & Hrun & Hwf' & Hmem);
    rewrite ?Hes, ?Hec, ?Hpg, ?Htk; try lia; [by apply state_emu | by apply Forall_take |].
  apply vwp_bind. eapply vwp_emu; [by rewrite Hrun |]. cbn [negb Z.eqb].
  set (st1 := mk_vstate _ _ _). rewrite Hes, Hoff in Hmem.
  assert (Hwf1 : state_wf st1) by by apply flash_wf_emu.
  assert (Hdr : zlen (drop (Z.to_nat k) data) = zlen data - k)
    by (unfold zlen in *; rewrite length_drop; lia).
  apply IH; [done | lia | rewrite length_drop; unfold zlen in *; lia | lia | | |
    by apply Forall_drop |].
  - apply mod_add; [apply granule_pos_cfg | done | done].
  - rewrite Hdr. apply mod_sub; [apply granule_pos_cfg | done | done].
  - intros st2 [[bd2 Hf2] Hw2 Hm2 Hs2]. apply HQ. split.
    + exists bd2. by rewrite Hf2.
    + done.
    + rewrite <- (take_drop (Z.to_nat k) data). eapply torn_app; [exact Hmem |].
      rewrite Htk. exact Hm2.
    + by rewrite Hs2.
Qed.

(** ** The extent of an injected partial program *)

Lemma round_down x : 0 <= x -> let y := if 1 <? granule then x - x mod granule else x in
  0 <= y <= x /\ y mod granule = 0.
Proof.
  intros Hx. pose proof granule_pos_cfg as Hg. pose proof (Z.mod_pos_bound x granule Hg).
  pose proof (Z.mod_le x granule). cbv zeta. destruct (Z.ltb_spec 1 granule) as [| Hle1].
  - split; [lia |]. rewrite Zminus_mod, Zmod_mod, Z.sub_diag. by apply Z.mod_0_l; lia.
  - split; [lia |]. replace granule with 1 by lia. apply Z.mod_1_r.
Qed.

Lemma injected_partial_ok s size : 0 <= size -> size mod granule = 0 ->
  0 <= fi_partial_bytes (vf_failure s) ->
  0 <= injected_partial s size granule <= size /\
  injected_partial s size granule mod granule = 0.
Proof.
  intros Hs Hsa Hp. unfold injected_partial. cbv zeta. pose proof granule_pos_cfg as Hg.
  set (p0 := if negb _ then _ else _).
  assert (Hp0 : 0 <= p0).
  { unfold p0. destruct (Z.eqb_spec (fi_partial_bytes (vf_failure s)) 0); simpl; [| done].
    by apply Z.div_pos. }
  destruct (round_down p0 Hp0) as [Hr Hra].
  set (p1 := if 1 <? granule then _ else _) in *.
  set (p2 := if (p1 =? 0) && _ then _ else p1).
  assert (Hp2 : 0 <= p2 /\ p2 mod granule = 0).
  { unfold p2. destruct (_ && _); [split; [lia | by apply Z.mod_same; lia] | lia]. }
  destruct (Z.ltb_spec size p2); lia.
Qed.

Lemma program_partial_ok s off size : vf_cfg s = cfg -> 0 <= size ->
  size mod granule = 0 -> 0 <= fi_partial_bytes (vf_failure s) ->
  0 <= injected_program_partial s off size <= size /\
  injected_program_partial s off size mod granule = 0.
Proof.
  intros Hcfg Hs Hsa Hp. unfold injected_program_partial. cbv zeta. rewrite Hcfg.
  destruct (injected_partial_ok s size Hs Hsa Hp) as [Hr Hra].
  destruct (negb _); [done |].
  pose proof (Z.mod_pos_bound off FFSV_NOR_PROGRAM_PAGE_SIZE ltac:(lia)).
  set (p1 := if _ <? injected_partial s size granule then _ else _).
  assert (Hp1 : 0 <= p1 <= size)
    by (unfold p1; destruct (Z.ltb_spec (FFSV_NOR_PROGRAM_PAGE_SIZE -
          off mod FFSV_NOR_PROGRAM_PAGE_SIZE) (injected_partial s size granule)); lia).
  destruct (round_down p1 ltac:(lia)) as [Hr1 Hra1]. split; [lia | done].
Qed.

Lemma vwp_injected_middle off data (Q : Z * Z -> vst -> Prop) st :
  state_wf st -> 0 <= off -> off + zlen data <= total ->
  off mod granule = 0 -> zlen data mod granule = 0 -> is_bytes data ->
  0 <= fi_partial_bytes (vf_failure (vs_flash st)) ->
  (forall commit st', torn_step off data st st' -> Q (FFSV_OK, commit) st') ->
  vwp (emu_program_injected_middle off data) Q st.
Proof.
  intros Hwf Ho Hr Hoa Hda Hb Hp HQ. unfold emu_program_injected_middle.
  apply vwp_bind, vwp_get_flash. cbv zeta.
  destruct (program_partial_ok (vs_flash st) off (zlen data) (state_cfg _ Hwf)
    (zlen_nonneg _) Hda Hp) as [Hk Hka].
  set (k := injected_program_partial _ _ _) in *.
  destruct (Z.eqb_spec k 0).
  { apply vwp_ret, HQ. eapply changed_torn; [by apply changed_refl | apply torn_refl]. }
  assert (Htk : zlen (take (Z.to_nat k) data) = k)
    by (unfold zlen in *; rewrite length_take; lia).
  assert (Hbk : is_bytes (take (Z.to_nat k) data)) by by apply Forall_take.
  apply vwp_bind. destruct (bool_decide _).
  - unfold emu_program_random_clear. apply vwp_bind, vwp_get_flash.
    apply vwp_random_clear_loop; rewrite ?Htk; try done; [lia |].
    intros st' [Hf Hw Ht Hs]. apply vwp_ret, HQ. split; try done. by eapply torn_prefix.
  - apply vwp_program_range; rewrite ?Htk; try done; [lia |]. intros st' Hch.
    apply vwp_ret, HQ. eapply changed_torn; [exact Hch |].
    eapply torn_prefix, torn_full.
Qed.

(** ** Operations *)

(** The state after an operation whose effect on the memory satisfies [P]. *)
Record op_result (P : (Z -> Z) -> Prop) (st st' : vst) : Prop := {
  res_wf : state_wf st';
  res_mem : P (state_mem st');
  res_sampler : vs_sampler st' = vs_sampler st;
  res_failure : vf_failure (vs_flash st') = vf_failure (vs_flash st);
  res_staged : vf_staged (vs_flash st') = vf_staged (vs_flash st);
}.

(** The memory is [m]. *)
Definition now (m m' : Z -> Z) : Prop := forall a, m' a = m a.

Lemma quiet_result st st' : state_wf st -> quiet st st' ->
  op_result (now (state_mem st)) st st'.
Proof.
  intros Hwf Hq. split; try apply Hq; [by eapply quiet_wf |].
  intros a. by apply quiet_mem.
Qed.

(** Bookkeeping around a change. *)
Lemma result_around (P : (Z -> Z) -> Prop) st st1 st2 st3 :
  quiet st st1 -> (exists bd, vs_flash st2 = set_emu bd (vs_flash st1)) ->
  state_wf st2 -> vs_sampler st2 = vs_sampler st1 -> quiet st2 st3 ->
  (forall m m', (forall a, m' a = m a) -> P m -> P m') -> P (state_mem st2) ->
  op_result P st st3.
Proof.
  intros Hq1 [bd Hf] Hwf Hs Hq2 Hext HP. pose proof (qt_device _ _ Hq1) as [].
  pose proof (qt_device _ _ Hq2) as []. rewrite Hf in *. simpl in *.
  split; try congruence.
  - by eapply quiet_wf.
  - eapply Hext; [| exact HP]. intros a. by apply quiet_mem.
  - rewrite (qt_sampler _ _ Hq2), Hs. apply Hq1.
Qed.

Lemma result_quiet_after (P : (Z -> Z) -> Prop) st st1 st2 :
  (forall m m', (forall a, m' a = m a) -> P m -> P m') ->
  op_result P st st1 -> quiet st1 st2 -> op_result P st st2.
Proof.
  intros Hext [] Hq. pose proof (qt_device _ _ Hq) as []. split; try congruence.
  - by eapply quiet_wf.
  - eapply Hext; [| exact res_mem0]. intros a. by apply quiet_mem.
  - rewrite (qt_sampler _ _ Hq). done.
Qed.

Lemma now_ext m0 m m' : (forall a, m' a = m a) -> now m0 m -> now m0 m'.
Proof. intros Heq Hm a. by rewrite Heq. Qed.

Lemma torn_now_ext m0 off buf m m' : (forall a, m' a = m a) ->
  torn_program m0 off buf m -> torn_program m0 off buf m'.
Proof. intros Heq Ht. by eapply torn_ext. Qed.

Lemma quiet_accepts st st' : quiet st st' -> sampler_accepts st -> sampler_accepts st'.
Proof. intros [_ Hs] Hacc. unfold sampler_accepts. by rewrite Hs. Qed.

Lemma in_range_ok off n : 0 <= n -> off + n <= total -> check_range cfg off n = FFSV_OK.
Proof.
  intros Hn Hr. unfold check_range.
  by rewrite (proj2 (Z.ltb_ge _ _)), (proj2 (Z.ltb_ge (total - off) n)) by lia.
Qed.

Lemma aligned_ok off n g : off mod g = 0 -> n mod g = 0 -> check_alignment off n g = FFSV_OK.
Proof. intros Ho Hn. unfold check_alignment. by rewrite Ho, Hn. Qed.

Lemma vwp_flash_read off size site (Q : Z * list Z -> vst -> Prop) st :
  state_wf st -> 0 <= off -> 0 <= size -> off + size <= total ->
  op_matches (vs_flash st) FFSV_OP_READ (vf_next_sequence (vs_flash st)) = false ->
  (forall st', op_result (now (state_mem st)) st st' ->
     Q (FFSV_OK, mem_bytes (state_mem st) off size) st') ->
  vwp (ffsv_flash_read off size site) Q st.
Proof.
  intros Hwf Ho Hs Hr Hinj HQ. unfold ffsv_flash_read.
  apply vwp_bind, vwp_get_flash. cbv zeta. rewrite (state_cfg _ Hwf), in_range_ok by done.
  apply vwp_bind, vwp_begin_op; [done.. |]. rewrite Hinj. intros rec st1 Hq1 Hrec.
  cbn [negb Z.eqb fails_before andb].
  apply vwp_bind, vwp_read_loop; [by eapply quiet_wf | done | lia | done |].
  intros st2 Hch. cbn [negb Z.eqb app].
  apply vwp_bind, vwp_finish_op. intros st3 Hq3. apply vwp_ret.
  rewrite (mem_bytes_ext (state_mem st1) (state_mem st)) by (intros; by apply quiet_mem).
  apply HQ. eapply result_around; [exact Hq1 | apply Hch | apply Hch | apply Hch | exact Hq3
    | intros m m'; apply now_ext |].
  intros a. rewrite (ch_mem _ _ _ Hch). by apply quiet_mem.
Qed.

(** What a program leaves: the bytes programmed, or a torn program when the
    injected failure applies. *)
Definition programmed (inject : bool) (m : Z -> Z) (off : Z) (buf : list Z)
    (m' : Z -> Z) : Prop :=
  if inject then torn_program m off buf m' else now (mem_program m off buf) m'.

Lemma programmed_ext inject m off buf m1 m2 : (forall a, m2 a = m1 a) ->
  programmed inject m off buf m1 -> programmed inject m off buf m2.
Proof. destruct inject; [apply torn_now_ext | apply now_ext]. Qed.

Lemma programmed_start inject m0 m off buf m' : (forall a, m a = m0 a) ->
  programmed inject m off buf m' -> programmed inject m0 off buf m'.
Proof.
  intros Heq. destruct inject; simpl.
  - intros Ht a. specialize (Ht a). by rewrite Heq in Ht.
  - intros Hm a. rewrite Hm. by apply mem_program_ext.
Qed.

Definition op_injected (st : vst) (type : ffsv_op_type) : bool :=
  op_matches (vs_flash st) type (vf_next_sequence (vs_flash st)).

Definition op_status (st : vst) (type : ffsv_op_type) : Z :=
  if op_injected st type then injected_status (vs_flash st) else FFSV_OK.

Lemma vwp_flash_program off buf site (Q : Z -> vst -> Prop) st :
  state_wf st -> sampler_accepts st -> st_active (vf_staged (vs_flash st)) = false ->
  0 <= fi_partial_bytes (vf_failure (vs_flash st)) ->
  0 <= off -> off + zlen buf <= total ->
  off mod granule = 0 -> zlen buf mod granule = 0 -> is_bytes buf ->
  (forall st', op_result (programmed (op_injected st FFSV_OP_PROGRAM) (state_mem st) off buf)
       st st' -> Q (op_status st FFSV_OP_PROGRAM) st') ->
  vwp (ffsv_flash_program off buf site) Q st.
Proof.
  intros Hwf Hacc Hstg Hpart Ho Hr Hoa Hba Hb HQ. pose proof (zlen_nonneg buf) as Hn.
  unfold ffsv_flash_program. apply vwp_bind, vwp_get_flash. cbv zeta.
  rewrite Hstg, (state_cfg _ Hwf), in_range_ok by done. cbn [Z.eqb].
  rewrite aligned_ok by done. cbn [negb Z.eqb].
  apply vwp_bind, vwp_begin_op; [done.. |]. intros rec st1 Hq1 Hrec.
  fold (op_injected st FFSV_OP_PROGRAM). unfold op_status in HQ.
  pose proof (quiet_wf _ _ Hq1 Hwf) as Hwf1.
  assert (Hmem1 : forall a, state_mem st1 a = state_mem st a) by (intros; by apply quiet_mem).
  assert (Hfail1 : vf_failure (vs_flash st1) = vf_failure (vs_flash st))
    by apply Hq1.
  assert (Hlast : forall res c st2, (exists bd, vs_flash st2 = set_emu bd (vs_flash st1)) ->
    state_wf st2 -> vs_sampler st2 = vs_sampler st1 ->
    programmed (op_injected st FFSV_OP_PROGRAM) (state_mem st1) off buf (state_mem st2) ->
    res = (if op_injected st FFSV_OP_PROGRAM then injected_status (vs_flash st)
           else FFSV_OK) ->
    vwp (finish_op rec FFSV_OP_PROGRAM (zlen buf) res c) Q st2).
  { intros res c st2 Hf Hw Hs HP ->. apply vwp_finish_op. intros st3 Hq3. apply HQ.
    eapply result_around; [exact Hq1 | exact Hf | exact Hw | exact Hs | exact Hq3
      | intros m m'; apply programmed_ext |]. by eapply programmed_start. }
  assert (Hself : exists bd, vs_flash st1 = set_emu bd (vs_flash st1))
    by (exists (vf_emu (vs_flash st1)); by destruct (vs_flash st1)).
  destruct (op_injected st FFSV_OP_PROGRAM) eqn:Hinj; unfold fails_before, fails_middle,
    fails_after; cbn [andb].
  - destruct (fi_phase (vf_failure (vs_flash st))) eqn:Hphase;
      rewrite ?bool_decide_true, ?bool_decide_false by done; cbn [orb negb Z.eqb
      validate_program_transition].
    + apply Hlast; try done. apply torn_refl.
    + apply vwp_bind, vwp_ret. cbn [negb Z.eqb].
      apply vwp_bind, vwp_injected_middle; rewrite ?Hfail1; try done.
      intros commit st2 []. cbn [negb Z.eqb]. by apply Hlast.
    + apply vwp_bind, vwp_ret. cbn [negb Z.eqb]. apply vwp_bind.
      rewrite take_ge by (unfold zlen; lia).
      destruct (Z.ltb_spec 0 (zlen buf)).
      * apply vwp_bind, vwp_program_range; try done. intros st2 Hch. apply vwp_ret.
        cbn [negb Z.eqb]. apply Hlast; try done; try apply Hch.
        eapply torn_ext; [apply torn_full | apply (ch_mem _ _ _ Hch)].
      * apply vwp_ret. cbn [negb Z.eqb]. apply Hlast; try done. apply torn_refl.
  - cbn [orb negb Z.eqb validate_program_transition].
    apply vwp_bind, vwp_bind, vwp_op_sequence; [done |]. intros seq.
    apply vwp_program_sampler; try done; [by eapply quiet_accepts |].
    intros st2 [Hf2 Hs2]. cbn [negb Z.eqb]. rewrite take_ge by (unfold zlen; lia).
    assert (Hwf2 : state_wf st2) by (unfold state_wf; by rewrite Hf2).
    assert (Hm2 : state_mem st2 = state_mem st1) by (unfold state_mem; by rewrite Hf2).
    apply vwp_bind. destruct (Z.ltb_spec 0 (zlen buf)).
    + apply vwp_bind, vwp_program_range; try done. intros st3 Hch. apply vwp_ret.
      cbn [negb Z.eqb]. apply Hlast; try done; try apply Hch.
      * destruct (ch_flash _ _ _ Hch) as [bd Hbd]. exists bd. by rewrite Hbd, Hf2.
      * rewrite (ch_sampler _ _ _ Hch). done.
      * intros a. rewrite (ch_mem _ _ _ Hch). by rewrite Hm2.
    + apply vwp_ret. cbn [negb Z.eqb]. apply Hlast; try done.
      * destruct Hself as [bd Hbd]. exists bd. by rewrite Hf2.
      * intros a. rewrite Hm2. symmetry. apply mem_program_out. lia.
Qed.

(** ** Interrupted erases *)

Definition mem_fill (v : Z) (m : Z -> Z) (off n : Z) (a : Z) : Z :=
  if (off <=? a) && (a <? off + n) then v else m a.

Lemma vwp_raw_erase n : forall off size (Q : Z -> vst -> Prop) st,
  state_wf st -> 0 <= off -> 0 <= size <= Z.of_nat n -> off + size <= total ->
  (forall st', changed (mem_fill (vc_erased_value cfg) (state_mem st) off size) st st' ->
     Q FFSV_OK st') ->
  vwp (raw_erase_loop n off size) Q st.
Proof.
  assert (Hdone : forall off size (Q : Z -> vst -> Prop) st, state_wf st -> size <= 0 ->
    (forall st', changed (mem_fill (vc_erased_value cfg) (state_mem st) off size) st st' ->
       Q FFSV_OK st') -> Q FFSV_OK st).
  { intros off size Q st Hwf Hz HQ. apply HQ.
    eapply changed_ext; [by apply changed_refl |]. intros a. unfold mem_fill.
    destruct (Z.leb_spec off a), (Z.ltb_spec a (off + size)); simpl; done || lia. }
  induction n as [| n IH]; intros off size Q st Hwf Ho Hs Hr HQ; cbn [raw_erase_loop].
  { destruct (Z.leb_spec size 0); [apply vwp_ret; by eapply Hdone | lia]. }
  destruct (Z.leb_spec size 0) as [Hz | Hz]; [apply vwp_ret; by eapply Hdone |].
  apply vwp_bind, vwp_get_flash. cbv zeta. rewrite (state_cfg _ Hwf), piece_min.
  destruct (sector_piece off size Ho Hz Hr) as (Hk & Hm & Hp & Hin & Hoff).
  set (k := Z.min size (ss - off mod ss)) in *. rewrite u32_sector by done.
  destruct emu_config_counts as (Hes & Hec & _).
  pose proof (state_emu _ Hwf) as Hew.
  destruct (emu_wear_ok (emu_config cfg) _ (off / ss) Hew) as [wear Hwear];
    rewrite ?Hec; [done |]. rewrite Hwear.
  destruct (emu_setwear_ok (emu_config cfg) _ (off / ss) wear Hew)
    as (bd1 & Hrun & Hw1 & Hm1); rewrite ?Hec; [done |].
  apply vwp_bind. eapply vwp_emu; [exact Hrun |]. cbn [negb Z.eqb].
  apply vwp_bind, vwp_mod_flash. cbn [vs_flash vf_emu set_emu vf_cfg vs_sampler vs_user].
  rewrite (state_cfg _ Hwf).
  assert (Hz' : zlen (fill k (vc_erased_value cfg)) = k) by (apply zlen_fill; lia).
  destruct (emu_splice (emu_config cfg) bd1 (off / ss)
    (eb_wear (lfs_emubd_mutblock bd1 (off / ss))) (off mod ss)
    (fill k (vc_erased_value cfg)) Hw1) as [Hw2 Hm2]; rewrite ?Hes, ?Hec, ?Hz'; try done.
  { apply Forall_fill, vg_value. }
  rewrite Hes, Hz', Hoff in Hm2.
  set (st2 := mk_vstate _ _ _).
  assert (Hch : changed (mem_fill (vc_erased_value cfg) (state_mem st) off k) st st2).
  { split; [by eexists | apply flash_wf_emu; [by apply flash_wf_emu | done] | | done]. intros a.
    unfold state_mem at 1, vmem. cbn [vs_flash st2 vf_emu set_emu]. rewrite Hm2.
    unfold mem_fill.
    destruct (Z.leb_spec off a), (Z.ltb_spec a (off + k)); cbn [andb]; try apply Hm1.
    by rewrite byte_at_fill by lia. }
  apply IH; [apply Hch | lia | lia | lia |]. intros st3 Hst3. apply HQ.
  eapply changed_ext; [by eapply changed_trans |]. intros a. unfold mem_fill at 1.
  rewrite (ch_mem _ _ _ Hch). unfold mem_fill.
  destruct (Z.leb_spec (off + k) a), (Z.ltb_spec a (off + k + (size - k))),
    (Z.leb_spec off a), (Z.ltb_spec a (off + k)), (Z.ltb_spec a (off + size));
    simpl; done || lia.
Qed.

(** Every byte of the range is the old one or erased, the others are the old
    ones. *)
Definition partly_erased (m : Z -> Z) (off n : Z) (m' : Z -> Z) : Prop :=
  forall a, m' a = m a \/ (off <= a < off + n /\ m' a = 0xff).

Definition erased (inject : bool) (m : Z -> Z) (off n : Z) (m' : Z -> Z) : Prop :=
  if inject then partly_erased m off n m' else now (mem_erase m off n) m'.

Lemma erased_ext inject m off n m1 m2 : (forall a, m2 a = m1 a) ->
  erased inject m off n m1 -> erased inject m off n m2.
Proof.
  intros Heq. destruct inject; simpl; [| by apply now_ext].
  intros Hp a. rewrite Heq. apply Hp.
Qed.

Lemma erased_start inject m0 m off n m' : (forall a, m a = m0 a) ->
  erased inject m off n m' -> erased inject m0 off n m'.
Proof.
  intros Heq. destruct inject; simpl.
  - intros Hp a. rewrite <- Heq. apply Hp.
  - intros Hm a. rewrite Hm. unfold mem_erase. by destruct (_ && _).
Qed.

Lemma partly_erased_prefix m off n k : 0 <= k <= n ->
  partly_erased m off n (mem_fill 0xff m off k).
Proof.
  intros Hk a. unfold mem_fill.
  destruct (Z.leb_spec off a), (Z.ltb_spec a (off + k)); simpl; [right; lia | left..]; done.
Qed.

(** The sectors that an injected failure lets the erase reach. *)
Lemma erase_partial_ok s size : 0 <= size -> 0 <= fi_partial_bytes (vf_failure s) ->
  0 <= injected_partial s size ss <= size.
Proof.
  intros Hs Hp. unfold injected_partial. cbv zeta.
  pose proof (vg_sector (cfg := cfg)) as Hss.
  set (p0 := if negb _ then _ else _).
  assert (Hp0 : 0 <= p0).
  { unfold p0. destruct (Z.eqb_spec (fi_partial_bytes (vf_failure s)) 0); simpl; [| done].
    by apply Z.div_pos. }
  pose proof (Z.mod_pos_bound p0 ss Hss). pose proof (Z.mod_le p0 ss Hp0 Hss).
  set (p1 := if 1 <? ss then _ else _).
  assert (Hp1 : 0 <= p1) by (unfold p1; destruct (1 <? ss); lia).
  set (p2 := if (p1 =? 0) && _ then _ else p1).
  assert (Hp2 : 0 <= p2) by (unfold p2; destruct (_ && _); lia).
  destruct (Z.ltb_spec size p2); lia.
Qed.

Lemma vwp_flash_erase off size site (Q : Z -> vst -> Prop) st :
  state_wf st -> sampler_accepts st -> vc_erase_cycles cfg = 0 ->
  vc_erased_value cfg = 0xff -> 0 <= fi_partial_bytes (vf_failure (vs_flash st)) ->
  0 <= off -> 0 <= size -> off + size <= total -> off mod ss = 0 -> size mod ss = 0 ->
  (forall st', op_result (erased (op_injected st FFSV_OP_ERASE) (state_mem st) off size)
       st st' -> Q (op_status st FFSV_OP_ERASE) st') ->
  vwp (ffsv_flash_erase off size site) Q st.
Proof.
  intros Hwf Hacc Hcyc Hval Hpart Ho Hs Hr Hoa Hsa HQ.
  unfold ffsv_flash_erase. apply vwp_bind, vwp_get_flash. cbv zeta.
  rewrite (state_cfg _ Hwf), in_range_ok by done. cbn [Z.eqb].
  rewrite aligned_ok by done. cbn [negb Z.eqb].
  apply vwp_bind, vwp_begin_op; [done.. |]. intros rec st1 Hq1 Hrec.
  fold (op_injected st FFSV_OP_ERASE). unfold op_status in HQ.
  pose proof (quiet_wf _ _ Hq1 Hwf) as Hwf1.
  assert (Hmem1 : forall a, state_mem st1 a = state_mem st a) by (intros; by apply quiet_mem).
  assert (Hlast : forall res c st2, (exists bd, vs_flash st2 = set_emu bd (vs_flash st1)) ->
    state_wf st2 -> vs_sampler st2 = vs_sampler st1 ->
    erased (op_injected st FFSV_OP_ERASE) (state_mem st1) off size (state_mem st2) ->
    res = (if op_injected st FFSV_OP_ERASE then injected_status (vs_flash st)
           else FFSV_OK) ->
    vwp (finish_op rec FFSV_OP_ERASE size res c) Q st2).
  { intros res c st2 Hf Hw Hsm HP ->. apply vwp_finish_op. intros st3 Hq3. apply HQ.
    eapply result_around; [exact Hq1 | exact Hf | exact Hw | exact Hsm | exact Hq3
      | intros m m'; apply erased_ext |]. by eapply erased_start. }
  assert (Hself : exists bd, vs_flash st1 = set_emu bd (vs_flash st1))
    by (exists (vf_emu (vs_flash st1)); by destruct (vs_flash st1)).
  assert (Hfull : forall (Q' : Z -> vst -> Prop) st2, state_wf st2 ->
    (forall st', changed (mem_erase (state_mem st2) off size) st2 st' -> Q' FFSV_OK st') ->
    vwp (vbind (emu_erase_loop (steps size ss) off) (fun err => vret (map_lfs_error err)))
      Q' st2).
  { intros Q' st2 Hw2 HQ'. by apply vwp_bind, vwp_erase_loop; rewrite ?steps_exact. }
  assert (Hfill : forall m k a, mem_fill (vc_erased_value cfg) m off k a =
    mem_erase m off k a) by (intros; by rewrite Hval).
  destruct (op_injected st FFSV_OP_ERASE) eqn:Hinj; unfold fails_before, fails_middle,
    fails_after; cbn [andb].
  - assert (Hall : forall k m', 0 <= k <= size ->
      (forall a, m' a = mem_erase (state_mem st1) off k a) ->
      partly_erased (state_mem st1) off size m').
    { intros k m' Hk Hm' a. rewrite Hm'. by apply partly_erased_prefix. }
    assert (Hbody : forall commit c, 0 <= commit <= size ->
      vwp (vbind (if commit =? size then
          vbind (emu_erase_loop (steps size ss) off) (fun err => vret (map_lfs_error err))
          else if 0 <? commit then raw_erase_prefix off commit else vret FFSV_OK)
        (fun err => if negb (err =? 0) then finish_op rec FFSV_OP_ERASE size err 0
           else finish_op rec FFSV_OP_ERASE size (injected_status (vs_flash st)) c)) Q st1).
    { intros commit c Hc. apply vwp_bind. destruct (Z.eqb_spec commit size).
      - apply Hfull; [done |]. intros st2 Hch. cbn [negb Z.eqb].
        apply Hlast; try done; try apply Hch.
        apply (Hall size); [lia | apply (ch_mem _ _ _ Hch)].
      - destruct (Z.ltb_spec 0 commit).
        + apply vwp_raw_erase; [done | done | lia | lia |]. intros st2 Hch.
          cbn [negb Z.eqb]. apply Hlast; try done; try apply Hch.
          apply (Hall commit); [lia |]. intros a. rewrite (ch_mem _ _ _ Hch).
          apply Hfill.
        + apply vwp_ret. cbn [negb Z.eqb]. apply Hlast; try done.
          intros a. by left. }
    destruct (fi_phase (vf_failure (vs_flash st))) eqn:Hphase;
      rewrite ?bool_decide_true, ?bool_decide_false by done; cbn [orb].
    + apply Hlast; try done. intros a. by left.
    + apply vwp_bind, vwp_ret. cbn [negb Z.eqb]. apply Hbody.
      by apply erase_partial_ok.
    + apply vwp_bind, vwp_ret. cbn [negb Z.eqb]. apply Hbody. lia.
  - cbn [orb]. apply vwp_bind, vwp_bind, vwp_op_sequence; [done |]. intros seq.
    apply vwp_erase_sampler; try done; [by eapply quiet_accepts |].
    intros st2 [Hf2 Hs2]. cbn [negb Z.eqb]. rewrite Z.eqb_refl.
    assert (Hwf2 : state_wf st2) by (unfold state_wf; by rewrite Hf2).
    assert (Hm2 : state_mem st2 = state_mem st1) by (unfold state_mem; by rewrite Hf2).
    apply vwp_bind, Hfull; [done |]. intros st3 Hch. cbn [negb Z.eqb].
    apply Hlast; try done; try apply Hch.
    + destruct (ch_flash _ _ _ Hch) as [bd Hbd]. exists bd. by rewrite Hbd, Hf2.
    + rewrite (ch_sampler _ _ _ Hch). done.
    + intros a. rewrite (ch_mem _ _ _ Hch). by rewrite Hm2.
Qed.
End Config.
End Runs.
