(* ===== verification/VerifyImage.v ===== *)
(** * The image of the flash harness

    The flat image that [ffsv_flash_image] computes from the blocks is the
    memory of the device; blank checks and snapshots read it, and a device
    reopened from a snapshot is the one the snapshot was taken of. *)

From S2P Require Export VerifySpec.

(** ** Concatenation of blocks of one size *)

Section Blocks.
Context (n : Z) (Hn : 0 < n).

Lemma zlen_concat ls : Forall (fun l : list Z => zlen l = n) ls ->
  zlen (List.concat ls) = zlen ls * n.
Proof.
  induction 1 as [| l ls Hl Hls IH]; [done |]. cbn [List.concat].
  rewrite zlen_app, zlen_cons, IH, Hl. lia.
Qed.

Lemma byte_at_concat ls a : Forall (fun l : list Z => zlen l = n) ls -> 0 <= a ->
  byte_at (List.concat ls) a = byte_at (nth (Z.to_nat (a / n)) ls []) (a mod n).
Proof.
  intros Hls. revert a. induction Hls as [| l ls Hl Hls IH]; intros a Ha; cbn [List.concat].
  - unfold byte_at. by destruct (Z.to_nat a), (Z.to_nat (a / n)), (Z.to_nat (a mod n)).
  - destruct (Z.lt_ge_cases a n) as [Hlt | Hge].
    + rewrite byte_at_app_l by lia. rewrite Z.div_small, Z.mod_small by lia. done.
    + rewrite byte_at_app_r by lia. rewrite Hl, IH by lia.
      assert (Hd : a / n = (a - n) / n + 1).
      { replace a with ((a - n) + 1 * n) at 1 by lia. by rewrite Z.div_add by lia. }
      assert (Hm : a mod n = (a - n) mod n).
      { replace a with ((a - n) + 1 * n) at 1 by lia. by rewrite Z.mod_add by lia. }
      pose proof (Z.div_pos (a - n) n). rewrite Hd, Hm, Z2Nat.inj_add by lia.
      by rewrite Nat.add_1_r.
Qed.
End Blocks.

Section Image.
Context (cfg : ffsv_flash_config) `{!FlashGeo cfg}.
#[local] Abbreviation ss := (vc_sector_size cfg).
#[local] Abbreviation total := (vc_total_size cfg).
#[local] Abbreviation sectors := (vc_total_size cfg / vc_sector_size cfg).

Lemma image_blocks s : flash_wf cfg s ->
  Forall (fun l => zlen l = ss) (block_image cfg <$> bd_blocks (vf_emu s)) /\
  zlen (bd_blocks (vf_emu s)) = sectors.
Proof.
  intros [Hcfg Hemu _ _]. destruct (emu_config_counts cfg) as (Hes & Hec & _).
  split; [| by rewrite (ew_count _ _ Hemu), Hec].
  apply Forall_fmap, Forall_lookup. intros i b Hb. simpl. destruct b as [b |]; simpl.
  - destruct (ew_blocks _ _ Hemu (Z.of_nat i) b) as [Hl _]; [| by rewrite Hl, Hes].
    unfold block_at. by rewrite Nat2Z.id, nth_lookup, Hb.
  - pose proof (vg_sector (cfg := cfg)). apply zlen_fill. lia.
Qed.

Lemma zlen_image s : flash_wf cfg s -> zlen (ffsv_flash_image s) = total.
Proof.
  intros Hwf. destruct (image_blocks s Hwf) as [Hb Hl]. unfold ffsv_flash_image.
  rewrite (fw_cfg _ _ Hwf), (zlen_concat ss) by done.
  unfold zlen in *. rewrite length_fmap, Hl. apply sectors_total, _.
Qed.

Lemma byte_at_image s a : flash_wf cfg s -> 0 <= a < total ->
  byte_at (ffsv_flash_image s) a = vmem cfg s a.
Proof.
  intros Hwf Ha. destruct (image_blocks s Hwf) as [Hb Hl].
  pose proof (vg_sector (cfg := cfg)) as Hss. unfold ffsv_flash_image.
  rewrite (fw_cfg _ _ Hwf), (byte_at_concat ss) by (done || lia).
  destruct (emu_config_counts cfg) as (Hes & _ & _).
  unfold vmem, emem. rewrite (proj2 (Z.leb_le 0 a)) by lia. rewrite Hes.
  unfold block_at. rewrite !nth_lookup, list_lookup_fmap.
  pose proof (sectors_total cfg). pose proof (Z.div_pos a ss).
  assert (Hq : a / ss < sectors) by (apply Z.div_lt_upper_bound; nia).
  destruct (bd_blocks (vf_emu s) !! Z.to_nat (a / ss)) as [b |] eqn:Hlk; simpl.
  - destruct b; simpl; [done |]. apply byte_at_fill, Z.mod_pos_bound. lia.
  - apply lookup_ge_None in Hlk. unfold zlen in Hl. lia.
Qed.

Lemma image_is_bytes s : flash_wf cfg s -> is_bytes (ffsv_flash_image s).
Proof.
  intros Hwf. apply Forall_lookup. intros i x Hx.
  assert (Hi : 0 <= Z.of_nat i < total).
  { apply lookup_lt_Some in Hx. rewrite <- (zlen_image s) by done. unfold zlen. lia. }
  pose proof (byte_at_image s (Z.of_nat i) Hwf Hi) as Hb.
  unfold byte_at in Hb. rewrite Nat2Z.id, nth_lookup, Hx in Hb. simpl in Hb. subst x.
  by apply vmem_u8.
Qed.

Lemma image_ext s s' : flash_wf cfg s -> flash_wf cfg s' ->
  (forall a, 0 <= a < total -> vmem cfg s' a = vmem cfg s a) ->
  ffsv_flash_image s' = ffsv_flash_image s.
Proof.
  intros Hwf Hwf' Heq. apply list_eq_byte_at; rewrite !zlen_image by done; [done |].
  intros a Ha. rewrite !byte_at_image by done. by apply Heq.
Qed.

(** ** Blank checks *)

Lemma image_erased_iff s off n : flash_wf cfg s -> 0 <= off -> 0 <= n ->
  off + n <= total ->
  image_is_erased cfg (ffsv_flash_image s) off n = true <->
  forall a, off <= a < off + n -> vmem cfg s a = vc_erased_value cfg.
Proof.
  intros Hwf Ho Hn Hr. unfold image_is_erased. rewrite forallb_forall.
  pose proof (zlen_image s Hwf) as Hz.
  assert (Hl : zlen (sublist off n (ffsv_flash_image s)) = n) by (apply zlen_sublist; lia).
  split.
  - intros Hall a Ha. apply Z.eqb_eq, Hall.
    rewrite <- byte_at_image by (done || lia).
    replace a with (off + (a - off)) by lia. rewrite <- (byte_at_sublist _ n) by lia.
    apply nth_In. unfold zlen in Hl. lia.
  - intros Hall x Hx. apply Z.eqb_eq. apply (In_nth _ _ 0) in Hx as (i & Hi & Hxi).
    assert (Hb : byte_at (sublist off n (ffsv_flash_image s)) (Z.of_nat i) = x)
      by (unfold byte_at; by rewrite Nat2Z.id).
    unfold zlen in Hl. rewrite <- Hb, byte_at_sublist by lia.
    rewrite byte_at_image by (done || lia). apply Hall. lia.
Qed.
End Image.

(** ** Snapshots *)

Definition block_wear (bd : lfs_emubd) (k : Z) : Z :=
  match block_at bd k with Some b => eb_wear b | None => 0 end.

Section Load.
Context {U : Type} (cfg : ffsv_flash_config) `{!FlashGeo cfg}.
#[local] Abbreviation vst := (@vstate U).
#[local] Abbreviation ss := (vc_sector_size cfg).
#[local] Abbreviation total := (vc_total_size cfg).
#[local] Abbreviation sectors := (vc_total_size cfg / vc_sector_size cfg).

Definition sector_wear (st : vst) (k : Z) : Z := block_wear (vf_emu (vs_flash st)) k.

Lemma block_wear_set bd k b j : zlen (bd_blocks bd) = sectors -> 0 <= k < sectors ->
  0 <= j -> block_wear (set_block k b bd) j = if j =? k then eb_wear b else block_wear bd j.
Proof.
  intros Hl Hk Hj. destruct (emu_config_counts cfg) as (_ & Hec & _). unfold block_wear.
  rewrite (block_at_set (emu_config cfg)) by (rewrite ?Hec; done).
  by destruct (j =? k).
Qed.

(** The sectors from [k] on are loaded. *)
Record loaded (k : Z) (image wear : list Z) (st st' : vst) : Prop := {
  ld_flash : exists bd, vs_flash st' = set_emu bd (vs_flash st);
  ld_wf : flash_wf cfg (vs_flash st');
  ld_mem : forall a, state_mem cfg st' a =
    if (k * ss <=? a) && (a <? total) then byte_at image a else state_mem cfg st a;
  ld_wear : forall j, 0 <= j -> sector_wear st' j =
    if (k <=? j) && (j <? sectors) then byte_at wear j else sector_wear st j;
}.

Lemma loaded_none st image wear : flash_wf cfg (vs_flash st) ->
  loaded sectors image wear st st.
Proof.
  intros Hwf. pose proof (sectors_total cfg).
  split; [exists (vf_emu (vs_flash st)); by destruct (vs_flash st) | done | |].
  - intros a. destruct (Z.leb_spec (sectors * ss) a), (Z.ltb_spec a total); simpl;
      done || lia.
  - intros j Hj. destruct (Z.leb_spec sectors j), (Z.ltb_spec j sectors); simpl;
      done || lia.
Qed.

(** A block takes its bytes of the image. *)
Lemma load_block bd k w image : emu_wf (emu_config cfg) bd -> 0 <= k < sectors ->
  zlen image = total -> is_bytes image ->
  let bd' := set_block k (mk_block w (sublist (k * ss) ss image)) bd in
  emu_wf (emu_config cfg) bd' /\
  (forall a, emem (emu_config cfg) bd' a =
    if (k * ss <=? a) && (a <? (k + 1) * ss) then byte_at image a
    else emem (emu_config cfg) bd a) /\
  forall j, 0 <= j -> block_wear bd' j = if j =? k then w else block_wear bd j.
Proof.
  intros Hwf Hk Hl Hb bd'. destruct (emu_config_counts cfg) as (Hes & Hec & _).
  pose proof (sectors_total cfg). pose proof (vg_sector (cfg := cfg)).
  assert (Hin : 0 <= k * ss /\ (k + 1) * ss <= total) by nia.
  assert (Hbw : block_wf (emu_config cfg) (mk_block w (sublist (k * ss) ss image))).
  { split; cbn [eb_data]; [rewrite Hes; apply zlen_sublist; lia | by apply Forall_sublist]. }
  split; [by apply emu_wf_set; rewrite ?Hec |]. split.
  - intros a. unfold bd'. rewrite (emem_set (emu_config cfg)) by (rewrite ?Hec; done).
    rewrite Hes. simpl.
    destruct (Z.leb_spec (k * ss) a), (Z.ltb_spec a ((k + 1) * ss)); simpl; try done.
    rewrite byte_at_sublist by lia. f_equal. lia.
  - intros j Hj. unfold bd'. rewrite block_wear_set; try done.
    by rewrite (ew_count _ _ Hwf).
Qed.

Lemma vwp_load_sectors n : forall k image wear (Q : Z -> vst -> Prop) st,
  flash_wf cfg (vs_flash st) -> 0 <= k -> k + Z.of_nat n = sectors ->
  zlen image = total -> is_bytes image -> zlen wear = sectors -> Forall is_u32 wear ->
  (forall st', loaded k image wear st st' -> Q FFSV_OK st') ->
  vwp (load_sectors n k image (Some wear)) Q st.
Proof.
  induction n as [| n IH]; intros k image wear Q st Hwf Hk Hn Hl Hb Hwl Hwu HQ;
    cbn [load_sectors].
  { apply vwp_ret, HQ. replace k with sectors by lia. by apply loaded_none. }
  apply vwp_bind, vwp_get_flash. cbv zeta.
  destruct (lookup_lt_is_Some_2 wear (Z.to_nat k)) as [w Hw]; [unfold zlen in Hwl; lia |].
  rewrite Hw. assert (Hwk : byte_at wear k = w) by (unfold byte_at; by rewrite nth_lookup, Hw).
  assert (Hu : is_u32 w) by by eapply (Forall_lookup_1 _ _ _ _ Hwu).
  assert (Hks : 0 <= k < sectors) by lia.
  destruct (emu_config_counts cfg) as (Hes & Hec & _).
  pose proof (fw_emu _ _ Hwf) as Hew.
  destruct (emu_setwear_ok (emu_config cfg) _ k (u32 w) Hew) as (bd1 & Hrun & Hw1 & Hm1);
    rewrite ?Hec; [done |].
  rewrite (u32_sector cfg) by done.
  apply vwp_bind. eapply vwp_emu; [exact Hrun |]. cbn [negb Z.eqb].
  apply vwp_bind, vwp_mod_flash. cbn [vs_flash vf_emu set_emu vs_sampler vs_user vf_cfg].
  rewrite (fw_cfg _ _ Hwf).
  assert (Hwear1 : forall j, 0 <= j ->
    block_wear bd1 j = if j =? k then w else sector_wear st j).
  { intros j Hj. unfold lfs_emubd_setwear in Hrun. destruct (negb _); [done |].
    injection Hrun as <-. rewrite block_wear_set by (try rewrite (ew_count _ _ Hew), Hec; done).
    by rewrite u32_small by done. }
  assert (Hmut : eb_wear (lfs_emubd_mutblock bd1 k) = w).
  { pose proof (Hwear1 k Hk) as Hwe. rewrite Z.eqb_refl in Hwe. rewrite <- Hwe.
    unfold block_wear, lfs_emubd_mutblock. by destruct (block_at bd1 k). }
  rewrite Hmut.
  destruct (load_block bd1 k w image Hw1 Hks Hl Hb) as (Hw2 & Hm2 & Hwear2).
  set (st2 := mk_vstate _ _ _).
  apply IH; try done; [apply flash_wf_emu; [by apply flash_wf_emu | done] | lia | lia |].
  intros st3 [[bd3 Hf3] Hwf3 Hm3 Hwear3]. apply HQ.
  pose proof (sectors_total cfg). pose proof (vg_sector (cfg := cfg)).
  split; [by exists bd3; rewrite Hf3 | done | |].
  - intros a. rewrite Hm3. change (state_mem cfg st2 a) with
      (emem (emu_config cfg) (set_block k (mk_block w (sublist (k * ss) ss image)) bd1) a).
    rewrite Hm2, Hm1. fold (vmem cfg (vs_flash st) a). fold (state_mem cfg st a).
    destruct (Z.leb_spec ((k + 1) * ss) a), (Z.ltb_spec a total),
      (Z.leb_spec (k * ss) a), (Z.ltb_spec a ((k + 1) * ss)); simpl; done || nia.
  - intros j Hj. rewrite Hwear3 by done.
    change (sector_wear st2 j) with (block_wear
      (set_block k (mk_block w (sublist (k * ss) ss image)) bd1) j).
    rewrite Hwear2, Hwear1 by done.
    destruct (Z.leb_spec (k + 1) j), (Z.ltb_spec j sectors), (Z.leb_spec k j),
      (Z.eqb_spec j k); simpl; subst; done || lia.
Qed.
End Load.

Section Snapshot.
Context (cfg : ffsv_flash_config) `{!FlashGeo cfg}.
#[local] Abbreviation ss := (vc_sector_size cfg).
#[local] Abbreviation total := (vc_total_size cfg).
#[local] Abbreviation sectors := (vc_total_size cfg / vc_sector_size cfg).

Lemma checked_config_ok : checked_config cfg = FFSV_OK.
Proof.
  destruct (geo_ranges cfg) as (H1 & _ & H3). pose proof (vg_total (cfg := cfg)).
  unfold checked_config. rewrite !(proj2 (Z.eqb_neq _ 0)) by lia. simpl.
  by rewrite vg_sectors, vg_unit.
Qed.

(** The device that [ffsv_flash_create] makes of a configuration with its log
    limit filled in. *)
Record created (s : ffsv_flash) : Prop := {
  cr_wf : flash_wf cfg s;
  cr_mem : forall a, vmem cfg s a = vc_erased_value cfg;
  cr_log : vf_log s = [];
  cr_failure : vf_failure s = failure_zero;
  cr_staged : vf_staged s = staged_zero;
}.

Lemma create_ok : log_limit cfg = vc_max_log_entries cfg ->
  exists s, ffsv_flash_create cfg = (FFSV_OK, Some s) /\ created s.
Proof.
  intros Hlog. unfold ffsv_flash_create. rewrite checked_config_ok. cbn [negb Z.eqb].
  rewrite Hlog. eexists. split; [done |].
  assert (Heta : mk_flash_config total ss (vc_program_granule cfg) (vc_erased_value cfg)
    (vc_erase_cycles cfg) (vc_timing cfg) (vc_max_log_entries cfg) = cfg)
    by by destruct cfg.
  rewrite Heta. destruct (geo_ranges cfg) as (_ & Hsec & _).
  destruct (emu_config_counts cfg) as (_ & Hec & _).
  assert (Hnone : forall k, block_at (lfs_emubd_create (emu_config cfg)) k = None).
  { intros k. unfold block_at, lfs_emubd_create. cbn [bd_blocks]. rewrite Hec.
    rewrite nth_lookup. destruct (_ !! _) as [b |] eqn:Hb; [| done].
    by apply lookup_replicate in Hb as [-> _]. }
  assert (Hemu : emu_wf (emu_config cfg) (lfs_emubd_create (emu_config cfg))).
  { split; [done | | by intros k b; rewrite Hnone].
    unfold zlen, lfs_emubd_create. cbn [bd_blocks]. rewrite length_replicate, Hec. lia. }
  split; try done.
  - split; [done | exact Hemu | done |]. unfold zlen. cbn [vf_sector_counts].
    rewrite length_replicate. lia.
  - intros a. unfold vmem, emem. cbn [vf_emu].
    change (mk_emubd_config _ _ _ _ _ _ _) with (emu_config cfg). rewrite Hnone.
    by destruct (0 <=? a).
Qed.

Lemma sector_wear_ok s k : flash_wf cfg s -> 0 <= k < sectors ->
  ffsv_flash_sector_wear s k = Some (block_wear (vf_emu s) k).
Proof.
  intros Hwf Hk. destruct (emu_config_counts cfg) as (_ & Hec & _).
  unfold ffsv_flash_sector_wear. rewrite (fw_count _ _ Hwf), (proj2 (Z.leb_gt _ _)) by lia.
  rewrite (u32_sector cfg) by done. unfold lfs_emubd_wear.
  rewrite (ew_cfg _ _ (fw_emu _ _ Hwf)), Hec, (proj2 (Z.ltb_lt _ _)) by lia. done.
Qed.

Lemma snapshot_wear_ok s n : flash_wf cfg s -> forall k, 0 <= k ->
  k + Z.of_nat n <= sectors ->
  exists wear, snapshot_wear n k s = Some wear /\ length wear = n /\
    forall j, 0 <= j < Z.of_nat n -> byte_at wear j = block_wear (vf_emu s) (k + j).
Proof.
  intros Hwf. induction n as [| n IH]; intros k Hk Hn; cbn [snapshot_wear].
  { exists []. split; [done |]. split; [done | lia]. }
  rewrite sector_wear_ok by (done || lia).
  destruct (IH (k + 1)) as (wear & -> & Hl & Hw); [lia | lia |].
  eexists. split; [done |]. split; [simpl; lia |]. intros j Hj.
  destruct (Z.eq_dec j 0) as [-> | Hj0].
  - rewrite byte_at_cons_0. f_equal. lia.
  - rewrite byte_at_cons_pos, Hw by lia. f_equal. lia.
Qed.

(** The wear that a snapshot records. *)
Lemma snapshot_ok s : flash_wf cfg s ->
  exists wear, zlen wear = sectors /\
    (forall j, 0 <= j < sectors -> byte_at wear j = block_wear (vf_emu s) j) /\
    ffsv_flash_snapshot_create s = Some (mk_snapshot cfg (ffsv_flash_image s) wear total
      sectors (vf_next_sequence s) (vf_time_ns s)).
Proof.
  intros Hwf. destruct (geo_ranges cfg) as (_ & Hsec & _).
  destruct (snapshot_wear_ok s (Z.to_nat sectors) Hwf 0) as (wear & Hrun & Hl & Hw);
    [lia | lia |].
  exists wear. split; [unfold zlen; lia |]. split; [intros j Hj; apply (Hw j); lia |].
  unfold ffsv_flash_snapshot_create. by rewrite (fw_count _ _ Hwf), (fw_cfg _ _ Hwf), Hrun.
Qed.
End Snapshot.

(** Snapshots.  A snapshot of a well-formed device always succeeds, and the
    device reopened from it is the same one as far as a snapshot can tell (the
    configuration, the image, the wear of every sector, the sequence number and
    the clock), with an empty log, no failure to inject and nothing staged. *)
Theorem snapshot_reopen (cfg : ffsv_flash_config) `{!FlashGeo cfg} (s : ffsv_flash)
    (snapshot : ffsv_flash_snapshot) :
  flash_wf cfg s -> log_limit cfg = vc_max_log_entries cfg ->
  ffsv_flash_snapshot_create s = Some snapshot ->
  Forall is_u32 (sn_wear snapshot) ->
  exists s', ffsv_flash_reopen_from_snapshot snapshot = Some (FFSV_OK, Some s') /\
    flash_wf cfg s' /\ ffsv_flash_snapshot_create s' = Some snapshot /\
    vf_log s' = [] /\ vf_failure s' = failure_zero /\ vf_staged s' = staged_zero.
Proof.
  intros Hwf Hlog Hsn Hu. destruct (snapshot_ok cfg s Hwf) as (wear & Hl & Hw & Hsn').
  rewrite Hsn in Hsn'. injection Hsn' as ->. cbn [sn_wear] in Hu.
  unfold ffsv_flash_reopen_from_snapshot. cbn [sn_cfg sn_size sn_sector_count].
  rewrite (checked_config_ok cfg), !Z.eqb_refl. cbn [negb Z.eqb orb].
  destruct (create_ok cfg Hlog) as (s0 & -> & [Hwf0 _ Hlog0 Hf0 Hst0]).
  cbn [sn_image sn_wear sn_next_sequence sn_time_ns].
  destruct (geo_ranges cfg) as (_ & Hsec & _).
  assert (Hwp : vwp (raw_load_image (ffsv_flash_image s) (vc_total_size cfg) (Some wear))
    (fun r st' => r = FFSV_OK /\ loaded cfg 0 (ffsv_flash_image s) wear
       (mk_vstate s0 sampler_zero tt) st') (mk_vstate s0 sampler_zero tt)).
  { unfold raw_load_image. apply vwp_bind, vwp_get_flash. cbn [vs_flash].
    rewrite (fw_cfg _ _ Hwf0), (fw_count _ _ Hwf0), Z.eqb_refl. cbn [negb].
    apply (vwp_load_sectors cfg); try done; try lia;
      [by apply zlen_image | by apply (image_is_bytes cfg)]. }
  apply vwp_run in Hwp as (r & st1 & -> & -> & [[bd Hbd] Hwf1 Hm1 Hw1]).
  cbn [negb Z.eqb vs_flash] in *.
  set (s' := set_clock _ _ _). exists s'. split; [done |].
  assert (Hwf' : flash_wf cfg s') by by destruct Hwf1.
  split; [done |].
  assert (Himg : ffsv_flash_image s' = ffsv_flash_image s).
  { apply (image_ext cfg); try done. intros a Ha.
    rewrite <- (byte_at_image cfg s) by done. transitivity (state_mem cfg st1 a); [done |].
    rewrite Hm1. destruct (Z.leb_spec (0 * vc_sector_size cfg) a),
      (Z.ltb_spec a (vc_total_size cfg)); simpl; done || lia. }
  destruct (snapshot_ok cfg s' Hwf') as (wear' & Hl' & Hw' & ->). rewrite Himg.
  assert (Hwear : wear' = wear).
  { apply list_eq_byte_at; [congruence |]. intros j Hj. rewrite Hw' by lia.
    transitivity (sector_wear st1 j); [done |]. rewrite Hw1 by lia.
    by rewrite (proj2 (Z.leb_le _ _)), (proj2 (Z.ltb_lt _ _)) by lia. }
  rewrite Hwear. split; [done |]. unfold s'. rewrite Hbd.
  by split_and!.
Qed.
