(* ===== verification/HostFlash.v ===== *)
(** * The harness under the file system

    [src/fastffs_host.c]: the three callbacks that put the file system on the
    flash harness.  The device they make is a NOR flash, with or without the
    fault sampler, so that the theorems of the library hold on it; what an
    injected failure may leave; the image, its checks and its snapshots. *)

From Stdlib Require Import String.
From S2P Require Export VerifyImage Crash.

#[local] Open Scope string_scope.
#[local] Open Scope Z_scope.

(** ** The callbacks *)

Section Host.
Context {U : Type}.

(** The device that the callbacks see: [None] once the harness has failed an
    assertion, which ends the program. *)
Definition host_call {A} (m : @V U A) (dflt : A) (c : option vstate)
  : A * option vstate :=
  match c with
  | None => (dflt, None)
  | Some st => match m st with
               | None => (dflt, None)
               | Some (a, st') => (a, Some st')
               end
  end.

Definition host_read (c : option (@vstate U)) (offset size : Z)
  : Z * list Z * option vstate :=
  host_call (ffsv_flash_read offset size (Some "src/fastffs_host.c:4"))
    (FFSV_ERR_IO, []) c.

Definition host_program (c : option (@vstate U)) (offset : Z) (buffer : list Z)
  : Z * option vstate :=
  host_call (ffsv_flash_program offset buffer (Some "src/fastffs_host.c:9"))
    FFSV_ERR_IO c.

Definition host_erase (c : option (@vstate U)) (offset size : Z)
  : Z * option vstate :=
  host_call (ffsv_flash_erase offset size (Some "src/fastffs_host.c:13"))
    FFSV_ERR_IO c.

Definition fffs_host_backend_from_verify_flash (cfg : ffsv_flash_config) : Backend :=
  mk_backend (option (@vstate U)) (vc_total_size cfg) (vc_program_granule cfg)
    host_read host_program host_erase.
End Host.

(** ** A NOR flash *)

(** A configuration without wear limit, with the erased value of NOR flash. *)
Class NorConfig (cfg : ffsv_flash_config) : Prop := {
  nc_cycles : vc_erase_cycles cfg = 0;
  nc_value : vc_erased_value cfg = 0xff;
  nc_granule : vc_program_granule cfg <= FFFS_FILE_CACHE_SIZE;
}.

(** A running harness with no failure to inject. *)
Record host_ok {U} (cfg : ffsv_flash_config) (st : @vstate U) : Prop := {
  ho_wf : state_wf cfg st;
  ho_sampler : sampler_accepts st;
  ho_failure : fi_enabled (vf_failure (vs_flash st)) = false;
  ho_partial : 0 <= fi_partial_bytes (vf_failure (vs_flash st));
  ho_staged : st_active (vf_staged (vs_flash st)) = false;
}.

Section Nor.
Context {U : Type} (cfg : ffsv_flash_config) `{!FlashGeo cfg} `{!NorConfig cfg}.
#[local] Abbreviation backend := (@fffs_host_backend_from_verify_flash U cfg).

Lemma host_no_failure (st : @vstate U) type : host_ok cfg st -> op_injected st type = false.
Proof. intros Hok. unfold op_injected, op_matches. by rewrite (ho_failure _ _ Hok). Qed.

Lemma host_ok_result P (st st' : @vstate U) : host_ok cfg st -> op_result cfg P st st' ->
  host_ok cfg st'.
Proof.
  intros [_ Hs Hf Hp Hstg] [Hwf' _ Hs' Hf' Hstg']. split; rewrite ?Hf', ?Hstg'; try done.
  unfold sampler_accepts. by rewrite Hs'.
Qed.

Definition host_nor_ok (c : @be_ctx backend) : Prop :=
  match c with Some st => host_ok cfg st | None => False end.

Definition host_nor_mem (c : @be_ctx backend) (a : Z) : Z :=
  match c with Some st => state_mem cfg st a | None => 0xff end.

#[export] Program Instance host_nor : @NorFlash backend := {|
  nor_ok := host_nor_ok;
  nor_mem := host_nor_mem;
  nor_unit := vc_sector_size cfg;
|}.
Next Obligation.
  intros [st |] a Hok; [| done]. apply vmem_u8; [done | apply Hok].
Qed.
Next Obligation.
  intros [st |] off n Hok Ho Hn Hr; [| done]. simpl in *.
  assert (Hwp : vwp (ffsv_flash_read off n (Some "src/fastffs_host.c:4"))
    (fun r st' => r = (FFSV_OK, mem_bytes (state_mem cfg st) off n) /\
       op_result cfg (now (state_mem cfg st)) st st') st).
  { apply (vwp_flash_read cfg); try done; [apply Hok |].
    by apply (host_no_failure st FFSV_OP_READ). }
  apply vwp_run in Hwp as (r & st' & Hrun & -> & Hres).
  unfold host_read, host_call. rewrite Hrun. eexists. split; [done |].
  split; [by eapply host_ok_result | apply Hres].
Qed.
Next Obligation.
  intros [st |] off buf Hok Ho Hr Hb Hoa Hba; [| done]. simpl in *.
  assert (Hwp : vwp (ffsv_flash_program off buf (Some "src/fastffs_host.c:9"))
    (fun r st' => r = FFSV_OK /\
       op_result cfg (now (mem_program (state_mem cfg st) off buf)) st st') st).
  { apply (vwp_flash_program cfg); try done; try apply Hok. unfold op_status.
    rewrite (host_no_failure st FFSV_OP_PROGRAM) by done. simpl. auto. }
  apply vwp_run in Hwp as (r & st' & Hrun & -> & Hres).
  unfold host_program, host_call. rewrite Hrun. eexists. split; [done |].
  split; [by eapply host_ok_result | apply Hres].
Qed.
Next Obligation.
  intros [st |] off n Hok Ho Hn Hr Hoa Hna; [| done]. simpl in *.
  assert (Hwp : vwp (ffsv_flash_erase off n (Some "src/fastffs_host.c:13"))
    (fun r st' => r = FFSV_OK /\
       op_result cfg (now (mem_erase (state_mem cfg st) off n)) st st') st).
  { apply (vwp_flash_erase cfg); try done; try apply Hok;
      [apply nc_cycles | apply nc_value |]. unfold op_status.
    rewrite (host_no_failure st FFSV_OP_ERASE) by done. simpl. auto. }
  apply vwp_run in Hwp as (r & st' & Hrun & -> & Hres).
  unfold host_erase, host_call. rewrite Hrun. eexists. split; [done |].
  split; [by eapply host_ok_result | apply Hres].
Qed.

(** ** A device that may lose power

    Every failure that can be injected into a program is a power loss. *)

Record host_running (st : @vstate U) : Prop := {
  hr_wf : state_wf cfg st;
  hr_sampler : sampler_accepts st;
  hr_partial : 0 <= fi_partial_bytes (vf_failure (vs_flash st));
  hr_staged : st_active (vf_staged (vs_flash st)) = false;
}.

Definition host_crash_ok (c : @be_ctx backend) : Prop :=
  match c with Some st => host_running st | None => False end.

Lemma injected_status_nonzero (s : ffsv_flash) : injected_status s <> 0.
Proof.
  unfold injected_status. by destruct (Z.eqb_spec (fi_status (vf_failure s)) 0).
Qed.

#[export] Program Instance host_crash : @CrashFlash backend host_nor := {|
  crash_ok := host_crash_ok;
|}.
Next Obligation.
  intros [st |] a Hok; [| done]. apply vmem_u8; [done | apply Hok].
Qed.
Next Obligation.
  intros [st |] off buf Hok Ho Hr Hb Hoa Hba; [| done]. simpl in *.
  assert (Hwp : vwp (ffsv_flash_program off buf (Some "src/fastffs_host.c:9"))
    (fun r st' => r = op_status st FFSV_OP_PROGRAM /\ op_result cfg
       (programmed (op_injected st FFSV_OP_PROGRAM) (state_mem cfg st) off buf)
       st st') st) by (apply (vwp_flash_program cfg); try done; try apply Hok; auto).
  apply vwp_run in Hwp as (r & st' & Hrun & -> & [Hwf Hm Hsm Hf Hst]).
  unfold host_program, host_call. rewrite Hrun. eexists _, _. split; [done |].
  unfold op_status. destruct (op_injected st FFSV_OP_PROGRAM); simpl in *.
  - right. split; [apply injected_status_nonzero | exact Hm].
  - left. split; [done |]. split; [| exact Hm]. destruct Hok.
    split; rewrite ?Hf, ?Hst; try done. unfold sampler_accepts. by rewrite Hsm.
Qed.

#[export] Instance host_valid : @ValidBackend backend.
Proof.
  pose proof (vg_total (cfg := cfg)). pose proof (vg_granule (cfg := cfg)).
  split; simpl; [done | apply nc_granule | lia |].
  rewrite <- (sectors_total cfg), Zmult_mod, (vg_unit (cfg := cfg)), Z.mul_0_r.
  by apply Z.mod_0_l; lia.
Qed.
End Nor.

(** A device just created, under a sampler that accepts every branch. *)
Lemma created_host_ok {U} (cfg : ffsv_flash_config) (s : ffsv_flash)
    (sampler : @ffsv_fault_sampler U) (user : U) :
  created cfg s -> sampler_accepts (mk_vstate s sampler user) ->
  host_ok cfg (mk_vstate s sampler user).
Proof.
  intros [Hwf _ _ Hf Hst] Hacc. split; cbn [vs_flash]; rewrite ?Hf, ?Hst; done.
Qed.

(** C22: the harness as the device of the file system.  On every configuration
    that [checked_config] accepts, without wear limit, the callbacks of
    [fastffs_host.c] satisfy the laws that the file system's theorems assume of
    its flash: reads return the bytes of the image, programs clear bits and
    erases of whole sectors set bytes to [0xff], all with status [FFSV_OK], as
    long as no failure is to be injected and the sampler's callback, if any,
    accepts the branches it is shown; the memory is the image.  With any failure
    injected it is a device that may lose power in a program. *)
Theorem host_backend_is_nor {U} (cfg : ffsv_flash_config) `{!FlashGeo cfg}
    `{!NorConfig cfg} :
  @ValidBackend (@fffs_host_backend_from_verify_flash U cfg) /\
  exists (nor : @NorFlash (@fffs_host_backend_from_verify_flash U cfg))
      (crash : @CrashFlash _ nor),
    @nor_unit _ nor = vc_sector_size cfg /\
    forall st, (@nor_ok _ nor (Some st) <-> host_ok cfg st) /\
      (@crash_ok _ nor crash (Some st) <-> host_running cfg st) /\
      (host_running cfg st -> forall a, 0 <= a < vc_total_size cfg ->
        @nor_mem _ nor (Some st) a = byte_at (ffsv_flash_image (vs_flash st)) a).
Proof.
  split; [exact (host_valid cfg) |]. exists (host_nor cfg), (host_crash cfg).
  split; [done |]. intros st. split; [done |]. split; [done |].
  intros Hok a Ha. symmetry. by apply (byte_at_image cfg); [apply Hok |].
Qed.

(** ** Injected failures *)

(** C23: programs under failure injection.  A program of a valid range ends for
    every failure configured (before, in the middle, after; a prefix or random
    bits; any seed and size) and for every sampler that accepts.  Without an
    injected failure it returns [FFSV_OK] and programs exactly the buffer; with
    one it returns the configured status and leaves a torn program: every byte
    of the range has only bits of the old byte and at least those of the
    programmed one, every other byte is as before. *)
Theorem program_outcomes {U} (cfg : ffsv_flash_config) `{!FlashGeo cfg}
    (offset : Z) (buffer : list Z) (call_site : option string) (st : @vstate U) :
  state_wf cfg st -> sampler_accepts st -> st_active (vf_staged (vs_flash st)) = false ->
  0 <= fi_partial_bytes (vf_failure (vs_flash st)) ->
  0 <= offset -> offset + zlen buffer <= vc_total_size cfg ->
  offset mod vc_program_granule cfg = 0 -> zlen buffer mod vc_program_granule cfg = 0 ->
  is_bytes buffer ->
  exists status st', ffsv_flash_program offset buffer call_site st = Some (status, st') /\
    state_wf cfg st' /\ sampler_accepts st' /\
    if op_injected st FFSV_OP_PROGRAM
    then status = injected_status (vs_flash st) /\
         torn_program (state_mem cfg st) offset buffer (state_mem cfg st')
    else status = FFSV_OK /\
         forall a, state_mem cfg st' a = mem_program (state_mem cfg st) offset buffer a.
Proof.
  intros Hwf Hacc Hstg Hpart Ho Hr Hoa Hba Hb.
  assert (Hwp : vwp (ffsv_flash_program offset buffer call_site) (fun r st' =>
    r = op_status st FFSV_OP_PROGRAM /\ op_result cfg
      (programmed (op_injected st FFSV_OP_PROGRAM) (state_mem cfg st) offset buffer)
      st st') st) by (apply (vwp_flash_program cfg); auto).
  apply vwp_run in Hwp as (r & st' & Hrun & -> & [Hwf' Hm Hs _ _]).
  eexists _, st'. split; [exact Hrun |]. split; [done |].
  split; [unfold sampler_accepts; by rewrite Hs |].
  unfold op_status. by destruct (op_injected st FFSV_OP_PROGRAM).
Qed.

(** erases under failure injection.  An erase of whole sectors ends for
    every failure configured.  Without one it returns [FFSV_OK] and erases
    exactly the range; with one it returns the configured status and leaves
    every byte of the range as it was or erased, and every other byte as it
    was. *)
Theorem erase_outcomes {U} (cfg : ffsv_flash_config) `{!FlashGeo cfg} `{!NorConfig cfg}
    (offset size : Z) (call_site : option string) (st : @vstate U) :
  state_wf cfg st -> sampler_accepts st ->
  0 <= fi_partial_bytes (vf_failure (vs_flash st)) ->
  0 <= offset -> 0 <= size -> offset + size <= vc_total_size cfg ->
  offset mod vc_sector_size cfg = 0 -> size mod vc_sector_size cfg = 0 ->
  exists status st', ffsv_flash_erase offset size call_site st = Some (status, st') /\
    state_wf cfg st' /\ sampler_accepts st' /\
    if op_injected st FFSV_OP_ERASE
    then status = injected_status (vs_flash st) /\
         partly_erased (state_mem cfg st) offset size (state_mem cfg st')
    else status = FFSV_OK /\
         forall a, state_mem cfg st' a = mem_erase (state_mem cfg st) offset size a.
Proof.
  intros Hwf Hacc Hpart Ho Hs Hr Hoa Hsa.
  assert (Hwp : vwp (ffsv_flash_erase offset size call_site) (fun r st' =>
    r = op_status st FFSV_OP_ERASE /\ op_result cfg
      (erased (op_injected st FFSV_OP_ERASE) (state_mem cfg st) offset size)
      st st') st)
    by (apply (vwp_flash_erase cfg); auto; [apply nc_cycles | apply nc_value]).
  apply vwp_run in Hwp as (r & st' & Hrun & -> & [Hwf' Hm Hsm _ _]).
  eexists _, st'. split; [exact Hrun |]. split; [done |].
  split; [unfold sampler_accepts; by rewrite Hsm |].
  unfold op_status. by destruct (op_injected st FFSV_OP_ERASE).
Qed.
