(* ===== verification/HostRun.v ===== *)
(** * Programs over the flash harness

    What the crash sweeps ([CrashSweep], [ApiSweep]) share: calls of the file
    system on a flash of the harness, the settings of the harness that they
    change between the calls, and the reading of its log. *)

From S2P Require Export SlotProbe HostFlash.

#[local] Open Scope Z_scope.
#[local] Open Scope fffs_scope.

(** The [int err] of a tool: an error, or [FFFS_OK]. *)
Abbreviation result := (sum fffs_status unit).

Definition is_ok (r : result) : bool := match r with inr _ => true | inl _ => false end.

Definition status_of {A} (r : fffs_status + A) : result :=
  match r with inl err => inl err | inr _ => inr tt end.

Section HostRun.
Context {U : Type} {cfg : ffsv_flash_config}.
#[local] Abbreviation backend := (@fffs_host_backend_from_verify_flash U cfg).

(** A file system call on a flash, with its structure and its handles: the
    status or result, and what the call leaves.  [None]: no result. *)
Definition run_fs {A} (m : @M backend A) (w : @world backend)
  : option ((fffs_status + A) * @world backend) :=
  match m w with
  | (NoFuel, _) => None
  | (Ok a, w') => match w_ctx w' with Some _ => Some (inr a, w') | None => None end
  | (Err e, w') => match w_ctx w' with Some _ => Some (inl e, w') | None => None end
  end.

(** A fresh [struct fffs] over a flash. *)
Definition fresh_fs (c : @vstate U) : @world backend :=
  mk_world (Some c : @be_ctx backend) fffs_zero ∅.

(** A copy of the flash, without sampler. *)
Definition clone_flash (flash : ffsv_flash) (stats : U) : @vstate U :=
  mk_vstate (ffsv_flash_cow_clone flash) sampler_zero stats.

(** A change of the harness's settings, through the [flash] pointer. *)
Definition on_flash (f : @vstate U -> @vstate U)
    (w : @world backend) : @world backend :=
  match w_ctx w with
  | Some c => mk_world (Some (f c) : @be_ctx backend) (w_fs w) (w_files w)
  | None => w
  end.

Definition with_failure (failure : ffsv_failure_injection) (c : @vstate U)
  : @vstate U :=
  mk_vstate (set_failure failure (vs_flash c)) (vs_sampler c) (vs_user c).

Definition with_sampler (sm : @ffsv_fault_sampler U) (c : @vstate U)
  : @vstate U := mk_vstate (vs_flash c) sm (vs_user c).

Definition log_has_injected_sequence (flash : ffsv_flash) (sequence : Z) : bool :=
  existsb (fun r => (or_sequence r =? sequence) && or_injected r) (vf_log flash).

End HostRun.

Definition is_mutation (r : ffsv_op_record) : bool :=
  bool_decide (or_type r = FFSV_OP_PROGRAM) || bool_decide (or_type r = FFSV_OP_ERASE).

Definition sweep_op_mask (staged : bool) : Z :=
  let mask := Z.lor (Z.shiftl 1 (op_code FFSV_OP_PROGRAM))
                (Z.shiftl 1 (op_code FFSV_OP_ERASE)) in
  if staged then Z.lor mask (Z.shiftl 1 (op_code FFSV_OP_COMMIT_STAGED)) else mask.

(** ** Facts *)

Section HostFacts.
Context {U : Type} {cfg : ffsv_flash_config}.
#[local] Abbreviation backend := (@fffs_host_backend_from_verify_flash U cfg).

Lemma run_fs_ok {A} (m : @M backend A) w a w' :
  run_fs m w = Some (inr a, w') -> m w = (Ok a, w').
Proof.
  unfold run_fs. destruct (m w) as [[b | e |] w1]; destruct (w_ctx w1); try done.
  by intros [= <- <-].
Qed.

End HostFacts.
