(* ===== verification/DeviceCalls.v ===== *)
(** * The calls of the backend

    The file system reaches its device through the three callbacks of the
    backend only: what an operation leaves of the device is what a sequence of
    reads, programs and erases leaves of it.  One lemma for each loop and for
    each operation that others call; the [calls_tac] tactic walks the rest. *)

From S2P Require Export Fastffs HashIndex RamIndex.

Section DeviceCalls.
Context `{Backend}.

Inductive backend_call : Type :=
  | CALL_READ (offset size : Z)
  | CALL_PROGRAM (offset : Z) (buffer : list Z)
  | CALL_ERASE (offset size : Z).

(** What the call leaves of the device. *)
Definition run_call (c : be_ctx) (call : backend_call) : be_ctx :=
  match call with
  | CALL_READ offset size => snd (be_read c offset size)
  | CALL_PROGRAM offset buffer => snd (be_program c offset buffer)
  | CALL_ERASE offset size => snd (be_erase c offset size)
  end.

Definition run_calls (c : be_ctx) (calls : list backend_call) : be_ctx :=
  foldl run_call c calls.

Lemma run_calls_app c l l' : run_calls c (l ++ l') = run_calls (run_calls c l) l'.
Proof. apply foldl_app. Qed.

(** The operation makes calls of the backend, whatever its outcome. *)
Definition makes_calls {A} (m : M A) : Prop :=
  forall w, exists calls, w_ctx (snd (m w)) = run_calls (w_ctx w) calls.

Lemma calls_none {A} (m : M A) :
  (forall w, w_ctx (snd (m w)) = w_ctx w) -> makes_calls m.
Proof. intros Hm w. by exists []. Qed.

Lemma calls_bind {A B} (m : M A) (k : A -> M B) :
  makes_calls m -> (forall a, makes_calls (k a)) -> makes_calls (bind m k).
Proof.
  intros Hm Hk w. unfold bind. destruct (Hm w) as [l Hl].
  destruct (m w) as [[a | e |] w1]; cbn [snd] in Hl; [| by exists l..].
  destruct (Hk a w1) as [l' Hl']. exists (l ++ l').
  by rewrite run_calls_app, <- Hl.
Qed.

Lemma calls_try {A} (m : M A) : makes_calls m -> makes_calls (try_ m).
Proof.
  intros Hm w. unfold try_. destruct (Hm w) as [l Hl]. exists l. rewrite <- Hl.
  by destruct (m w) as [[a | e |] w1].
Qed.

Lemma calls_raw_read offset size : makes_calls (raw_read offset size).
Proof.
  intros w. exists [CALL_READ offset size]. unfold raw_read. cbn.
  by destruct (be_read (w_ctx w) offset size) as [[st buf] c].
Qed.

Lemma calls_program offset buffer : makes_calls (backend_program offset buffer).
Proof.
  intros w. exists [CALL_PROGRAM offset buffer]. unfold backend_program. cbn.
  destruct (be_program (w_ctx w) offset buffer) as [st c].
  by destruct (fffs_map_backend_status st).
Qed.

Lemma calls_erase offset size : makes_calls (backend_erase offset size).
Proof.
  intros w. exists [CALL_ERASE offset size]. unfold backend_erase. cbn.
  destruct (be_erase (w_ctx w) offset size) as [st c].
  by destruct (fffs_map_backend_status st).
Qed.

Lemma calls_ret {A} (a : A) : makes_calls (ret a).
Proof. by apply calls_none. Qed.

Lemma calls_fail {A} e : makes_calls (@fail _ A e).
Proof. by apply calls_none. Qed.

Lemma calls_diverge {A} : makes_calls (@diverge _ A).
Proof. by apply calls_none. Qed.
End DeviceCalls.

Create HintDb fffs_calls discriminated.
#[export] Hint Resolve calls_ret calls_fail calls_diverge calls_raw_read calls_program
  calls_erase : fffs_calls.

(** The structure of the program; then a lemma or an induction hypothesis for
    the call; then its definition.  The steps that only touch the memory are
    those whose world is explicit in their definition. *)
Ltac calls_head m := lazymatch m with ?f _ => calls_head f | _ => m end.

Ltac calls_step :=
  lazymatch goal with
  | |- makes_calls (bind _ _) => apply calls_bind; [| intros ?; cbv beta zeta]
  | |- makes_calls (try_ _) => apply calls_try
  | |- makes_calls (let '(_, _) := ?p in _) => destruct p
  | |- makes_calls (if ?c then _ else _) => destruct c
  | |- makes_calls (match ?x with _ => _ end) => destruct x
  | |- makes_calls (fun w => (_, _)) => apply calls_none; reflexivity
  | |- makes_calls ?m =>
      first [ solve [eauto 3 with fffs_calls nocore]
            | let h := calls_head m in unfold h; cbv beta zeta ]
  end.

Ltac calls_tac := intros; cbv beta zeta; repeat calls_step.

(** A loop on its bound [n]. *)
Tactic Notation "calls_loop" ident(n) reference(loop) :=
  induction n; intros; cbn [loop]; calls_tac.

(** ** Sectors and records *)

Section Core.
Context `{Backend}.

Lemma calls_aligned n : forall offset src done,
  makes_calls (program_aligned_loop n offset src done).
Proof. calls_loop n program_aligned_loop. Qed.

Lemma calls_span n : forall offset size, makes_calls (span_is_erased_loop n offset size).
Proof. calls_loop n span_is_erased_loop. Qed.

Lemma calls_mark_range n : forall first i,
  makes_calls (mark_range_unknown_loop n first i).
Proof. calls_loop n mark_range_unknown_loop. Qed.

Lemma calls_mark_index n : forall sector, makes_calls (mark_index_used_loop n sector).
Proof. calls_loop n mark_index_used_loop. Qed.

Lemma calls_unlink n : forall id prev cur, makes_calls (unlink_loop n id prev cur).
Proof. calls_loop n unlink_loop. Qed.
End Core.

#[export] Hint Resolve calls_aligned calls_span calls_mark_range calls_mark_index
  calls_unlink : fffs_calls.

Section Records.
Context `{Backend}.

Lemma calls_view reader sector offset size :
  makes_calls (fffs_sector_reader_view reader sector offset size).
Proof. calls_tac. Qed.

Lemma calls_aligned_program offset buffer :
  makes_calls (fffs_flash_program_aligned offset buffer).
Proof. calls_tac. Qed.
End Records.
#[export] Hint Resolve calls_view calls_aligned_program : fffs_calls.

Section Walks.
Context `{Backend}.

Lemma calls_footer window sector : makes_calls (view_footer window sector).
Proof. calls_tac. Qed.

Lemma calls_walk_next walk window : makes_calls (fffs_md_walk_next walk window).
Proof. calls_tac. Qed.
End Walks.
#[export] Hint Resolve calls_footer calls_walk_next : fffs_calls.

Section WalkLoops.
Context `{Backend}.

Lemma calls_find n : forall slot m walk window,
  makes_calls (find_record_loop n slot m walk window).
Proof. calls_loop n find_record_loop. Qed.

Lemma calls_tombstones n : forall sector slot accounting walk window,
  makes_calls (tombstone_loop n sector slot accounting walk window).
Proof. calls_loop n tombstone_loop. Qed.

Lemma calls_free_window n : forall sector slot normal walk window count stop start,
  makes_calls (free_window_loop n sector slot normal walk window count stop start).
Proof. calls_loop n free_window_loop. Qed.
End WalkLoops.
#[export] Hint Resolve calls_find calls_tombstones calls_free_window : fffs_calls.

Section RecordCalls.
Context `{Backend}.

Lemma calls_read_md sector slot m : makes_calls (read_md_for_slot sector slot m).
Proof. calls_tac. Qed.

Lemma calls_tombstone sector slot accounting :
  makes_calls (fffs_tombstone_metadata_for_slot sector slot accounting).
Proof. calls_tac. Qed.

Lemma calls_find_window sector min_free slot normal :
  makes_calls (fffs_find_sector_free_window sector min_free slot normal).
Proof. calls_tac. Qed.

Lemma calls_extent sector slot type data_off record_off footer data_len span size next live :
  makes_calls (fffs_program_extent_metadata sector slot type data_off record_off footer
    data_len span size next live).
Proof. calls_tac. Qed.
End RecordCalls.
#[export] Hint Resolve calls_read_md calls_tombstone calls_find_window calls_extent
  : fffs_calls.

Section RootCalls.
Context `{Backend}.

Lemma calls_root sector slot prefix cache :
  makes_calls (fffs_read_file_root_md sector slot prefix cache).
Proof. calls_tac. Qed.

Lemma calls_serial sector : makes_calls (fffs_read_sector_serial sector).
Proof. calls_tac. Qed.
End RootCalls.
#[export] Hint Resolve calls_root calls_serial : fffs_calls.

(** ** The index *)

(** What the file system asks of an index. *)
Class TracedIndex `{Backend} (I : IndexCache) : Prop := {
  ti_insert : forall slot head, makes_calls (index_insert slot head);
  ti_remove : forall slot, makes_calls (index_remove slot);
  ti_set : forall slot head, makes_calls (index_set slot head);
  ti_resolve : forall name cache, makes_calls (index_resolve name cache);
  ti_head : forall slot, makes_calls (index_head_for_slot slot);
  ti_iter : forall iter, makes_calls (index_iter_read iter);
  ti_current : forall pos offset slot head,
    makes_calls (index_record_is_current pos offset slot head);
}.
#[export] Hint Resolve ti_insert ti_remove ti_set ti_resolve ti_head ti_iter ti_current
  : fffs_calls.

Section Probes.
Context `{Backend}.

Lemma calls_resolve_loop head_of n : (forall slot, makes_calls (head_of slot)) ->
  forall name candidate first_free cache,
  makes_calls (resolve_loop head_of n name candidate first_free cache).
Proof. intros Hh. calls_loop n resolve_loop. Qed.

Lemma calls_hash_iter n : forall iter, makes_calls (HashIndex.iter_read_loop n iter).
Proof. calls_loop n HashIndex.iter_read_loop. Qed.

Lemma calls_ram_iter n : forall iter, makes_calls (RamIndex.iter_read_loop n iter).
Proof. calls_loop n RamIndex.iter_read_loop. Qed.
End Probes.
#[export] Hint Resolve calls_resolve_loop calls_hash_iter calls_ram_iter : fffs_calls.

#[export] Instance hash_traced `{Backend} : TracedIndex hash_index.
Proof.
  assert (Hh : forall slot, makes_calls (HashIndex.fffs_index_head_for_slot slot))
    by calls_tac.
  split; intros; cbn; calls_tac.
Qed.

#[export] Instance ram_traced `{Backend} : TracedIndex ram_index.
Proof.
  assert (Hh : forall slot, makes_calls (RamIndex.fffs_index_head_for_slot slot))
    by calls_tac.
  split; intros; cbn; calls_tac.
Qed.

(** ** The index log *)

Section LogLoops.
Context `{Backend} `{I : !IndexCache} `{!TracedIndex I}.

Lemma calls_headers n : forall i count shift off hdr s,
  makes_calls (scan_headers n i count shift off hdr s).
Proof. calls_loop n scan_headers. Qed.

Lemma calls_index_span n : forall offset size,
  makes_calls (index_span_erased_loop n offset size).
Proof. calls_loop n index_span_erased_loop. Qed.

Lemma calls_writer_append writer slot head :
  makes_calls (index_record_writer_append writer slot head).
Proof. calls_tac. Qed.

Lemma calls_reader_load reader offset : makes_calls (index_record_reader_load reader offset).
Proof. calls_tac. Qed.

Lemma calls_recover n : forall sector, makes_calls (recover_loop n sector).
Proof. calls_loop n recover_loop. Qed.
End LogLoops.
#[export] Hint Resolve calls_headers calls_index_span calls_writer_append calls_reader_load
  calls_recover : fffs_calls.

Section LogCopy.
Context `{Backend} `{I : !IndexCache} `{!TracedIndex I}.

Lemma calls_sequence n : forall probe, makes_calls (find_sequence_loop n probe).
Proof. calls_loop n find_sequence_loop. Qed.

Lemma calls_compact_copy n : forall off stop reader writer,
  makes_calls (compact_copy_loop n off stop reader writer).
Proof. calls_loop n compact_copy_loop. Qed.

Lemma calls_replay_record active off chunk pos nread stop tail :
  makes_calls (replay_record active off chunk pos nread stop tail).
Proof. calls_tac. Qed.
End LogCopy.
#[export] Hint Resolve calls_sequence calls_compact_copy calls_replay_record : fffs_calls.

Section LogReplay.
Context `{Backend} `{I : !IndexCache} `{!TracedIndex I}.

Lemma calls_replay_chunk n : forall active off chunk pos nread stop tail,
  makes_calls (replay_chunk n active off chunk pos nread stop tail).
Proof. calls_loop n replay_chunk. Qed.

Lemma calls_compact_finish sector : makes_calls (index_compact_oldest_finish sector).
Proof. calls_tac. Qed.

Lemma calls_rotate : makes_calls fffs_rotate_index.
Proof. calls_tac. Qed.
End LogReplay.
#[export] Hint Resolve calls_replay_chunk calls_compact_finish calls_rotate : fffs_calls.

Section LogSectors.
Context `{Backend} `{I : !IndexCache} `{!TracedIndex I}.

Lemma calls_append slot head : makes_calls (fffs_append_index_record slot head).
Proof. calls_tac. Qed.

Lemma calls_replay_sector n : forall active off stop tail,
  makes_calls (replay_sector n active off stop tail).
Proof. calls_loop n replay_sector. Qed.
End LogSectors.
#[export] Hint Resolve calls_append calls_replay_sector : fffs_calls.

Section LogMount.
Context `{Backend} `{I : !IndexCache} `{!TracedIndex I}.

Lemma calls_replay_sectors n : forall sector tail,
  makes_calls (replay_sectors n sector tail).
Proof. calls_loop n replay_sectors. Qed.

Lemma calls_finish_extent file sector next span size write_size live commit :
  makes_calls (fffs_finish_extent_metadata file sector next span size write_size live commit).
Proof. calls_tac. Qed.

Lemma calls_fsinfo_loop n : forall iter count bytes,
  makes_calls (fsinfo_loop n iter count bytes).
Proof. calls_loop n fsinfo_loop. Qed.
End LogMount.
#[export] Hint Resolve calls_replay_sectors calls_finish_extent calls_fsinfo_loop : fffs_calls.

(** ** Collection *)

Section GcLoops.
Context `{Backend} `{I : !IndexCache} `{!TracedIndex I} `{Fuel}.

Lemma calls_reserve n : forall i slot len, makes_calls (root_window_reserve n i slot len).
Proof. calls_loop n root_window_reserve. Qed.

Lemma calls_scan n : forall s source slot len normal,
  makes_calls (root_window_scan n s source slot len normal).
Proof. calls_loop n root_window_scan. Qed.

Lemma calls_reachable n : forall slot current sector,
  makes_calls (reachable_loop n slot current sector).
Proof. calls_loop n reachable_loop. Qed.

Lemma calls_copy_root n : forall src dst remaining,
  makes_calls (copy_root_loop n src dst remaining).
Proof. calls_loop n copy_root_loop. Qed.

Lemma calls_copied n : forall sector entry through walk window,
  makes_calls (tombstone_copied_loop n sector entry through walk window).
Proof. calls_loop n tombstone_copied_loop. Qed.
End GcLoops.
#[export] Hint Resolve calls_reserve calls_scan calls_reachable calls_copy_root calls_copied
  : fffs_calls.

Section GcRecords.
Context `{Backend} `{I : !IndexCache} `{!TracedIndex I} `{Fuel}.

Lemma calls_fsinfo flags : makes_calls (fffs_fsinfo_query flags).
Proof. calls_tac. Qed.

Lemma calls_copy_record source record relaxed :
  makes_calls (gc_copy_root_record source record relaxed).
Proof. calls_tac. Qed.

Lemma calls_classify sector record : makes_calls (gc_classify_record sector record).
Proof. calls_tac. Qed.
End GcRecords.
#[export] Hint Resolve calls_fsinfo calls_copy_record calls_classify : fffs_calls.

Section GcSteps.
Context `{Backend} `{I : !IndexCache} `{!TracedIndex I} `{Fuel}.

Lemma calls_compact_roots n : forall source relaxed entry through walk window,
  makes_calls (compact_roots_loop n source relaxed entry through walk window).
Proof. calls_loop n compact_roots_loop. Qed.

Lemma calls_finish_sector s result : makes_calls (gc_finish_sector s result).
Proof. calls_tac. Qed.

Lemma calls_erase_sector s : makes_calls (gc_erase_sector s).
Proof. calls_tac. Qed.
End GcSteps.
#[export] Hint Resolve calls_compact_roots calls_finish_sector calls_erase_sector : fffs_calls.

Section GcPasses.
Context `{Backend} `{I : !IndexCache} `{!TracedIndex I} `{Fuel}.

Lemma calls_compact_sector source relaxed :
  makes_calls (gc_compact_root_only_sector source relaxed).
Proof. calls_tac. Qed.

Lemma calls_walk_sector s window : makes_calls (gc_walk_sector s window).
Proof. calls_tac. Qed.
End GcPasses.
#[export] Hint Resolve calls_compact_sector calls_walk_sector : fffs_calls.

Section GcCalls.
Context `{Backend} `{I : !IndexCache} `{!TracedIndex I} `{Fuel}.

Lemma calls_candidates n : forall i relaxed, makes_calls (compact_candidates_loop n i relaxed).
Proof. calls_loop n compact_candidates_loop. Qed.

Lemma calls_gc_step use_map : makes_calls (gc_step use_map).
Proof. calls_tac. Qed.
End GcCalls.
#[export] Hint Resolve calls_candidates calls_gc_step : fffs_calls.

Section GcPublic.
Context `{Backend} `{I : !IndexCache} `{!TracedIndex I} `{Fuel}.

Lemma calls_step_loop n : forall skipped sectors,
  makes_calls (gc_step_loop n skipped sectors).
Proof. calls_loop n gc_step_loop. Qed.

Lemma calls_erased_pass n : forall use_map advanced sectors,
  makes_calls (until_erased_pass n use_map advanced sectors).
Proof. calls_loop n until_erased_pass. Qed.
End GcPublic.
#[export] Hint Resolve calls_step_loop calls_erased_pass : fffs_calls.

Section GcTop.
Context `{Backend} `{I : !IndexCache} `{!TracedIndex I} `{Fuel}.

Lemma calls_until_erased : makes_calls fffs_gc_until_erased.
Proof. calls_tac. Qed.

Lemma calls_gc_loop n : forall erased, makes_calls (gc_loop n erased).
Proof. calls_loop n gc_loop. Qed.
End GcTop.
#[export] Hint Resolve calls_until_erased calls_gc_loop : fffs_calls.

(** ** Allocation *)

Section AllocCalls.
Context `{Backend} `{I : !IndexCache} `{!TracedIndex I} `{Fuel}.

Lemma calls_halve ids : forall released, makes_calls (halve_loop ids released).
Proof. calls_loop ids halve_loop. Qed.

Lemma calls_reserve_after n : forall file next, makes_calls (reserve_after_loop n file next).
Proof. calls_loop n reserve_after_loop. Qed.
End AllocCalls.
#[export] Hint Resolve calls_halve calls_reserve_after : fffs_calls.

Section AllocScan.
Context `{Backend} `{I : !IndexCache} `{!TracedIndex I} `{Fuel}.

Lemma calls_alloc_window file sector data_off record_off footer :
  makes_calls (use_alloc_window file sector data_off record_off footer).
Proof. calls_tac. Qed.

Lemma calls_release file : makes_calls (fffs_alloc_release_reservation file).
Proof. calls_tac. Qed.
End AllocScan.
#[export] Hint Resolve calls_alloc_window calls_release : fffs_calls.

Section AllocLoops.
Context `{Backend} `{I : !IndexCache} `{!TracedIndex I} `{Fuel}.

Lemma calls_alloc_scan n : forall file s skip continuation,
  makes_calls (alloc_scan n file s skip continuation).
Proof. calls_loop n alloc_scan. Qed.

Lemma calls_reserve_for n : forall file i continuation,
  makes_calls (reserve_for_alloc_loop n file i continuation).
Proof. calls_loop n reserve_for_alloc_loop. Qed.
End AllocLoops.
#[export] Hint Resolve calls_alloc_scan calls_reserve_for : fffs_calls.

Section AllocTop.
Context `{Backend} `{I : !IndexCache} `{!TracedIndex I} `{Fuel}.

Lemma calls_or_no_space m1 m2 :
  makes_calls m1 -> makes_calls m2 -> makes_calls (or_no_space m1 m2).
Proof. calls_tac. Qed.

Lemma calls_alloc_once file skip : makes_calls (alloc_sector_once file skip).
Proof. calls_tac. Qed.

Lemma calls_next_sector file : makes_calls (fffs_alloc_next_sector file).
Proof. calls_tac. Qed.
End AllocTop.
#[export] Hint Resolve calls_next_sector : fffs_calls.

(** ** Files *)

Section FileLoops.
Context `{Backend} `{I : !IndexCache} `{!TracedIndex I} `{Fuel}.

Lemma calls_span_tombstones n : forall slot current i root accounted,
  makes_calls (tombstone_span n slot current i root accounted).
Proof. calls_loop n tombstone_span. Qed.

Lemma calls_flush file final : makes_calls (flush_write_cache file final).
Proof. calls_tac. Qed.
End FileLoops.
#[export] Hint Resolve calls_span_tombstones calls_flush : fffs_calls.

Section FileCalls.
Context `{Backend} `{I : !IndexCache} `{!TracedIndex I} `{Fuel}.

Lemma calls_old_chain n : forall slot current next root tombstone visited accounted,
  makes_calls (old_chain_loop n slot current next root tombstone visited accounted).
Proof. calls_loop n old_chain_loop. Qed.

Lemma calls_next_extent file : makes_calls (start_next_extent file).
Proof. calls_tac. Qed.
End FileCalls.
#[export] Hint Resolve calls_old_chain calls_next_extent : fffs_calls.

Section FileTop.
Context `{Backend} `{I : !IndexCache} `{!TracedIndex I} `{Fuel}.

Lemma calls_invalidate slot head next : makes_calls (invalidate_and_account slot head next).
Proof. calls_tac. Qed.

Lemma calls_write_loop n : forall file src, makes_calls (write_loop n file src).
Proof. calls_loop n write_loop. Qed.

Lemma calls_close_writer file : makes_calls (close_writer file).
Proof. calls_tac. Qed.
End FileTop.
#[export] Hint Resolve calls_invalidate calls_write_loop calls_close_writer : fffs_calls.

(** ** The public operations *)

Section Public.
Context `{Backend} `{I : !IndexCache} `{!TracedIndex I} `{Fuel}.

Lemma calls_format opts : makes_calls (fffs_format opts).
Proof. calls_tac. Qed.

Lemma calls_mount opts : makes_calls (fffs_mount opts).
Proof. calls_tac. Qed.

Lemma calls_open file name flags : makes_calls (fffs_open file name flags).
Proof. calls_tac. Qed.

Lemma calls_write file buffer : makes_calls (fffs_write file buffer).
Proof. calls_tac. Qed.

Lemma calls_close file : makes_calls (fffs_close file).
Proof. calls_tac. Qed.

Lemma calls_delete name : makes_calls (fffs_delete_file name).
Proof. calls_tac. Qed.

Lemma calls_gc max_steps : makes_calls (fffs_gc max_steps).
Proof. calls_tac. Qed.
End Public.
#[export] Hint Resolve calls_format calls_mount calls_open calls_write calls_close calls_delete
  calls_gc : fffs_calls.
