(* ===== verification/HostCalls.v ===== *)
(** * What the harness keeps of the calls

    The harness ([src/src/verify_flash.c]) numbers the operations that it is
    asked for, one after another, and appends a record of each to its log as
    long as the log has room.  So the log names the calls of the backend that an
    operation of the file system made ([DeviceCalls]), as many as there was room
    for. *)

From S2P Require Export DeviceCalls HostRun.

#[local] Open Scope Z_scope.

(** What identifies the operation of a record. *)
Definition log_key (r : ffsv_op_record) : Z * ffsv_op_type * Z * Z :=
  (or_sequence r, or_type r, or_offset r, or_size r).

(** A flash on which nothing is staged, with a log that can grow to its limit. *)
Record recording (s : ffsv_flash) : Prop := {
  re_idle : st_active (vf_staged s) = false;
  re_count : zlen (vf_log s) <= vf_log_capacity s;
  re_capacity : vf_log_capacity s <= log_limit (vf_cfg s);
  re_limit : log_limit (vf_cfg s) <= SIZE_MAX / OP_RECORD_SIZE;
}.

(** The records that the log still takes. *)
Definition log_room (s : ffsv_flash) : nat :=
  Z.to_nat (log_limit (vf_cfg s) - zlen (vf_log s)).

(** A change that numbers and records nothing. *)
Record same_books (s s' : ffsv_flash) : Prop := {
  sb_cfg : vf_cfg s' = vf_cfg s;
  sb_sequence : vf_next_sequence s' = vf_next_sequence s;
  sb_keys : log_key <$> vf_log s' = log_key <$> vf_log s;
  sb_capacity : vf_log_capacity s' = vf_log_capacity s;
  sb_staged : vf_staged s' = vf_staged s;
}.

(** One operation. *)
Record booked (type : ffsv_op_type) (offset size : Z) (s s' : ffsv_flash) : Prop := {
  bk_recording : recording s';
  bk_cfg : vf_cfg s' = vf_cfg s;
  bk_sequence : vf_next_sequence s' = usz (vf_next_sequence s + 1);
  bk_keys : log_key <$> vf_log s' = (log_key <$> vf_log s) ++
    take (log_room s) [(vf_next_sequence s, type, offset, size)];
}.

Lemma same_books_refl s : same_books s s.
Proof. by split. Qed.

Lemma same_books_trans s1 s2 s3 : same_books s1 s2 -> same_books s2 s3 -> same_books s1 s3.
Proof. intros [] []. split; congruence. Qed.

Lemma same_log_length s s' : same_books s s' -> zlen (vf_log s') = zlen (vf_log s).
Proof.
  intros []. apply (f_equal length) in sb_keys0. rewrite !length_fmap in sb_keys0.
  unfold zlen. by rewrite sb_keys0.
Qed.

Lemma same_recording s s' : same_books s s' -> recording s -> recording s'.
Proof.
  intros Hs []. pose proof (same_log_length _ _ Hs) as Hl. destruct Hs.
  split; rewrite ?sb_staged0, ?sb_capacity0, ?sb_cfg0, ?Hl; done.
Qed.

Lemma booked_after type offset size s s1 s2 :
  booked type offset size s s1 -> same_books s1 s2 -> booked type offset size s s2.
Proof.
  intros [] Hs. pose proof (same_recording _ _ Hs) as Hr. destruct Hs.
  split; [auto | congruence..].
Qed.

(** ** The log *)

Lemma keys_alter f (i : nat) (l : list ffsv_op_record) : (forall r, log_key (f r) = log_key r) ->
  log_key <$> alter f i l = log_key <$> l.
Proof.
  intros Hf. revert i. induction l as [| r l IH]; intros [| i]; try done.
  - cbn. f_equal. apply Hf.
  - cbn. f_equal. apply IH.
Qed.

(** The log grows until it is at its limit. *)
Lemma grow_log_room s : recording s ->
  match grow_log (zlen (vf_log s)) (vf_log_capacity s) (log_limit (vf_cfg s)) with
  | Some capacity => zlen (vf_log s) + 1 <= capacity <= log_limit (vf_cfg s) /\
      (0 < log_room s)%nat
  | None => log_room s = 0%nat
  end.
Proof.
  intros []. unfold grow_log, log_room. set (n := zlen (vf_log s)) in *.
  set (c := vf_log_capacity s) in *. set (l := log_limit (vf_cfg s)) in *.
  assert (0 <= n) by (unfold n, zlen; lia).
  assert (SIZE_MAX / OP_RECORD_SIZE < 2 ^ 60) by reflexivity.
  destruct (Z.ltb_spec n c); [lia |]. destruct (Z.leb_spec l c); [lia |].
  assert (Hi : initial_log_capacity l <= l /\ 0 < initial_log_capacity l)
    by (unfold initial_log_capacity; destruct (Z.ltb_spec l 128); lia).
  assert (Hu : usz (c * 2) = c * 2) by (apply Z.mod_small; lia).
  destruct (Z.eqb_spec c 0) as [Hc | Hc]; cbn [negb]; rewrite ?Hu;
    match goal with |- context [if ?b then l else ?x] =>
      assert (n + 1 <= (if b then l else x) <= l)
        by (destruct (Z.ltb_spec x c), (Z.ltb_spec l x); cbn [orb]; lia);
      set (next := if b then l else x) in * end;
    destruct (Z.ltb_spec (SIZE_MAX / OP_RECORD_SIZE) next); lia.
Qed.

(** ** The operations of the harness *)

Section Books.
Context {U : Type}.
#[local] Abbreviation vst := (@vstate U).

Definition keeps_books {A} (m : @V U A) : Prop := forall st a st',
  m st = Some (a, st') -> same_books (vs_flash st) (vs_flash st').

Definition books {A} (type : ffsv_op_type) (offset size : Z) (m : @V U A) : Prop :=
  forall st a st', recording (vs_flash st) -> m st = Some (a, st') ->
    booked type offset size (vs_flash st) (vs_flash st').

Lemma books_ret {A} (a : A) : keeps_books (vret a).
Proof. intros st x st' [= <- <-]. apply same_books_refl. Qed.

Lemma books_undef {A} : keeps_books (@vundef U A).
Proof. by intros st x st'. Qed.

Lemma books_bind {A B} (m : @V U A) (k : A -> @V U B) :
  keeps_books m -> (forall a, keeps_books (k a)) -> keeps_books (vbind m k).
Proof.
  intros Hm Hk st b st2. unfold vbind. destruct (m st) as [[a st1] |] eqn:H1; [| done].
  intros H2. eapply same_books_trans; [by eapply Hm | by eapply Hk].
Qed.

Lemma books_get_flash : keeps_books (@get_flash U).
Proof. intros st x st' [= <- <-]. apply same_books_refl. Qed.

Lemma books_get_sampler : keeps_books (@get_sampler U).
Proof. intros st x st' [= <- <-]. apply same_books_refl. Qed.

Lemma books_mod f : (forall s, same_books s (f s)) -> keeps_books (@mod_flash U f).
Proof. intros Hf st x st' [= <- <-]. apply Hf. Qed.

Lemma books_set_emu (f : ffsv_flash -> lfs_emubd) :
  keeps_books (@mod_flash U (fun s => set_emu (f s) s)).
Proof. by apply books_mod. Qed.

Lemma books_emu {A} (f : lfs_emubd -> option (A * lfs_emubd)) : keeps_books (@emu U A f).
Proof.
  intros st x st'. unfold emu. destruct (f _) as [[a bd] |]; [| done].
  intros [= <- <-]. by split.
Qed.

Lemma books_fault_case branch type sequence offset size p seed bits :
  keeps_books (run_fault_case branch type sequence offset size p seed bits : @V U Z).
Proof.
  intros st x st'. unfold run_fault_case. destruct (sm_verify _) as [verify |]; [| done].
  destruct (verify _ _) as [err user]. intros [= <- <-]. apply same_books_refl.
Qed.

Lemma books_finish rec type size result committed :
  keeps_books (finish_op rec type size result committed : @V U Z).
Proof.
  intros st x st'. unfold finish_op, vbind, get_flash, mod_flash, vret.
  destruct rec as [i |]; intros [= <- <-]; [| by split].
  split; [done.. | | done | done]. by apply keys_alter.
Qed.

Lemma books_begin type offset size site : books type offset size (@begin_op U type offset size site).
Proof.
  intros st x st' Hr. pose proof (grow_log_room _ Hr) as Hg. destruct Hr.
  unfold begin_op, vbind, get_flash, mod_flash, vret, vundef.
  destruct (add_sector_counts _ _ _ _) as [counts |]; [| done]. cbn [vs_flash vs_sampler vs_user].
  change (vf_log (set_counts ?a ?b (set_clock ?c ?d ?s))) with (vf_log s).
  change (vf_cfg (set_counts ?a ?b (set_clock ?c ?d ?s))) with (vf_cfg s).
  change (vf_log_capacity (set_counts ?a ?b (set_clock ?c ?d ?s))) with (vf_log_capacity s).
  destruct (grow_log _ _ _) as [capacity |]; intros [= <- <-].
  - destruct Hg as [Hc Hroom]. split; [split | done.. |]; try done; try lia.
    + cbn. unfold zlen in *. rewrite length_app. cbn. lia.
    + cbn. lia.
    + cbn. rewrite fmap_app. destruct (log_room _); [lia |]. cbn. by rewrite take_nil.
  - split; [by split | done.. |]. rewrite Hg. cbn. by rewrite app_nil_r.
Qed.

Lemma books_then {A B} type offset size (m : @V U A) (k : A -> @V U B) :
  books type offset size m -> (forall a, keeps_books (k a)) ->
  books type offset size (vbind m k).
Proof.
  intros Hm Hk st b st2 Hr. unfold vbind. destruct (m st) as [[a st1] |] eqn:H1; [| done].
  intros H2. eapply booked_after; [by eapply Hm | by eapply Hk].
Qed.
End Books.

Create HintDb host_books discriminated.
#[export] Hint Resolve books_ret books_undef books_get_flash books_get_sampler
  books_set_emu books_emu books_fault_case books_finish books_begin : host_books.

(** As [calls_tac]. *)
Ltac books_step :=
  lazymatch goal with
  | |- keeps_books (vbind _ _) => apply books_bind; [| intros ?; cbv beta zeta]
  | |- keeps_books (let '(_, _) := ?p in _) => destruct p
  | |- keeps_books (if ?c then _ else _) => destruct c
  | |- keeps_books (match ?x with _ => _ end) => destruct x
  | |- keeps_books ?m =>
      first [ solve [eauto 3 with host_books nocore]
            | let h := calls_head m in unfold h; cbv beta zeta ]
  end.

Ltac books_tac := intros; cbv beta zeta; repeat books_step.

Tactic Notation "books_loop" ident(n) reference(loop) :=
  induction n; intros; cbn [loop]; books_tac.

Section HostBooks.
Context {U : Type}.

Lemma books_raw_erase n : forall offset remaining,
  keeps_books (raw_erase_loop n offset remaining : @V U Z).
Proof. books_loop n raw_erase_loop. Qed.

Lemma books_program_loop n : forall offset data,
  keeps_books (emu_program_loop n offset data : @V U Z).
Proof. books_loop n emu_program_loop. Qed.

Lemma books_clear_loop n : forall seed offset data_offset data,
  keeps_books (emu_random_clear_loop n seed offset data_offset data : @V U Z).
Proof. books_loop n emu_random_clear_loop. Qed.

Lemma books_read_loop n : forall offset size acc,
  keeps_books (emu_read_loop n offset size acc : @V U (Z * list Z)).
Proof. books_loop n emu_read_loop. Qed.

Lemma books_erase_loop n : forall pos, keeps_books (emu_erase_loop n pos : @V U Z).
Proof. books_loop n emu_erase_loop. Qed.

Lemma books_program_sampler n : forall p type sequence offset data page,
  keeps_books (program_sampler_loop n p type sequence offset data page : @V U Z).
Proof. books_loop n program_sampler_loop. Qed.

Lemma books_erase_sampler n : forall p sequence offset size,
  keeps_books (erase_sampler_loop n p sequence offset size : @V U Z).
Proof. books_loop n erase_sampler_loop. Qed.
End HostBooks.
#[export] Hint Resolve books_raw_erase books_program_loop books_clear_loop books_read_loop
  books_erase_loop books_program_sampler books_erase_sampler : host_books.

Section HostOps.
Context {U : Type}.

Lemma books_read offset size site :
  books FFSV_OP_READ offset size (@ffsv_flash_read U offset size site).
Proof.
  intros st x st' Hr. unfold ffsv_flash_read, vbind at 1, get_flash. cbv beta zeta iota.
  apply (books_then FFSV_OP_READ offset size); [apply books_begin | | done].
  intros [rec inject]. books_tac.
Qed.

Lemma books_program offset buffer site :
  books FFSV_OP_PROGRAM offset (zlen buffer) (@ffsv_flash_program U offset buffer site).
Proof.
  intros st x st' Hr. unfold ffsv_flash_program, vbind at 1, get_flash. cbv beta zeta iota.
  rewrite (re_idle _ Hr).
  apply (books_then FFSV_OP_PROGRAM offset (zlen buffer)); [apply books_begin | | done].
  intros [rec inject]. books_tac.
Qed.

Lemma books_erase offset size site :
  books FFSV_OP_ERASE offset size (@ffsv_flash_erase U offset size site).
Proof.
  intros st x st' Hr. unfold ffsv_flash_erase, vbind at 1, get_flash. cbv beta zeta iota.
  apply (books_then FFSV_OP_ERASE offset size); [apply books_begin | | done].
  intros [rec inject]. books_tac.
Qed.
End HostOps.

(** ** The calls in the log *)

Definition call_key (numbered_call : Z * backend_call) : Z * ffsv_op_type * Z * Z :=
  let (sequence, call) := numbered_call in
  match call with
  | CALL_READ offset size => (sequence, FFSV_OP_READ, offset, size)
  | CALL_PROGRAM offset buffer => (sequence, FFSV_OP_PROGRAM, offset, zlen buffer)
  | CALL_ERASE offset size => (sequence, FFSV_OP_ERASE, offset, size)
  end.

(** The numbers of the calls, when the next one has [sequence]. *)
Fixpoint numbered (sequence : Z) (calls : list backend_call) : list (Z * backend_call) :=
  match calls with
  | [] => []
  | call :: rest => (sequence, call) :: numbered (usz (sequence + 1)) rest
  end.

(** The call is a program or an erase. *)
Definition modifies (call : backend_call) : bool :=
  match call with
  | CALL_READ _ _ => false
  | CALL_PROGRAM _ _ | CALL_ERASE _ _ => true
  end.

(** The numbers of the programs and erases among the first [room] calls. *)
Definition mutations (room : nat) (sequence : Z) (calls : list backend_call) : list Z :=
  fst <$> List.filter (fun call => modifies (snd call)) (take room (numbered sequence calls)).

Lemma mutations_of_keys l : forall calls, log_key <$> l = call_key <$> calls ->
  or_sequence <$> List.filter is_mutation l =
  fst <$> List.filter (fun call => modifies (snd call)) calls.
Proof.
  induction l as [| r l IH]; intros [| [sequence call] calls]; try done.
  rewrite !fmap_cons. intros [Hkey Hrest]%cons_eq_inj. apply IH in Hrest.
  assert (is_mutation r = modifies call /\ or_sequence r = sequence) as [Hm Hs].
  { unfold is_mutation, log_key in *. 
    destruct call; cbn [call_key] in Hkey; injection Hkey as Hs Ht _ _; by rewrite Ht. }
  cbn [List.filter snd]. rewrite Hm. destruct (modifies call); [| done].
  rewrite !fmap_cons, Hrest, Hs. done.
Qed.

Section HostCalls.
Context {U : Type} {cfg : ffsv_flash_config}.
#[local] Abbreviation backend := (@fffs_host_backend_from_verify_flash U cfg).

Lemma calls_failed calls : @run_calls backend None calls = None.
Proof. induction calls as [| [] calls IH]; done. Qed.

Lemma run_call_books call (c c' : @vstate U) : recording (vs_flash c) ->
  @run_call backend (Some c) call = Some c' ->
  let '(_, type, offset, size) := call_key (0, call) in
  booked type offset size (vs_flash c) (vs_flash c').
Proof.
  intros Hr. destruct call as [offset size | offset buffer | offset size].
  - change (snd (host_read (Some c) offset size) = Some c' ->
      booked FFSV_OP_READ offset size (vs_flash c) (vs_flash c')).
    unfold host_read, host_call.
    destruct (@ffsv_flash_read U _ _ _ _) as [[x c1] |] eqn:Hm; [| done].
    intros [= <-]. by eapply books_read.
  - change (snd (host_program (Some c) offset buffer) = Some c' ->
      booked FFSV_OP_PROGRAM offset (zlen buffer) (vs_flash c) (vs_flash c')).
    unfold host_program, host_call.
    destruct (@ffsv_flash_program U _ _ _ _) as [[x c1] |] eqn:Hm; [| done].
    intros [= <-]. by eapply books_program.
  - change (snd (host_erase (Some c) offset size) = Some c' ->
      booked FFSV_OP_ERASE offset size (vs_flash c) (vs_flash c')).
    unfold host_erase, host_call.
    destruct (@ffsv_flash_erase U _ _ _ _) as [[x c1] |] eqn:Hm; [| done].
    intros [= <-]. by eapply books_erase.
Qed.

(** The log after the calls. *)
Lemma run_calls_books calls : forall (c c' : @vstate U), recording (vs_flash c) ->
  @run_calls backend (Some c) calls = Some c' ->
  recording (vs_flash c') /\ vf_cfg (vs_flash c') = vf_cfg (vs_flash c) /\
  log_key <$> vf_log (vs_flash c') = (log_key <$> vf_log (vs_flash c)) ++
    (call_key <$> take (log_room (vs_flash c))
       (numbered (vf_next_sequence (vs_flash c)) calls)).
Proof.
  induction calls as [| call calls IH]; intros c c' Hr Hrun.
  { injection Hrun as <-. cbn [numbered]. rewrite take_nil, app_nil_r. done. }
  change (@run_calls backend (@run_call backend (Some c) call) calls = Some c') in Hrun.
  destruct (@run_call backend (Some c) call) as [c1 |] eqn:Hc; [| by rewrite calls_failed in Hrun].
  apply run_call_books in Hc; [| done].
  destruct (call_key (0, call)) as [[[z type] offset] size] eqn:Hk.
  assert (Hkey : call_key (vf_next_sequence (vs_flash c), call) =
    (vf_next_sequence (vs_flash c), type, offset, size))
    by (destruct call; cbn in *; congruence).
  destruct Hc as [Hr1 Hcfg Hseq Hkeys]. destruct (IH c1 c' Hr1 Hrun) as (Hr' & Hcfg' & Hkeys').
  split; [done |]. split; [congruence |]. rewrite Hkeys', Hkeys, <- app_assoc, Hseq. f_equal.
  assert (Hroom : log_room (vs_flash c1) = pred (log_room (vs_flash c))).
  { apply (f_equal length) in Hkeys. rewrite length_app, !length_fmap in Hkeys.
    unfold log_room, zlen in *. rewrite Hcfg, Hkeys. rewrite length_take. cbn [length]. lia. }
  rewrite Hroom. cbn [numbered]. destruct (log_room _) as [| n]; [done |].
  cbn [take pred]. rewrite take_nil, fmap_cons, Hkey. done.
Qed.
End HostCalls.
