(* ===== verification/CrashSweep.v ===== *)
(** * The crash sweep

    [src/tools/fffs_crash_sweep.c]: workloads of writes and deletions on a file
    system over the flash harness.  Before each operation is executed for good,
    it is executed on copies of the flash, where the power is lost before or
    after each of its programs and erases, or where the sampler tears them;
    every copy is mounted again and must show the files from before or from
    after the operation.

    The state of the harness's callback is the [sweep_stats] record that the
    sampler's context points to.  A failed assertion of the block device and a
    file system call that is out of fuel end the sweep without a result, except
    in the callback, where they count as a failure of the case.  The messages,
    the command line and the failure of an allocation are not modelled. *)

From Stdlib Require Import String.
From S2P Require Export Workload Inspect HostRun.

#[local] Open Scope Z_scope.
#[local] Open Scope fffs_scope.

(** ** Data *)

Abbreviation SWEEP_SECTOR_SIZE := 256.
Abbreviation SWEEP_SECTOR_COUNT := 48.
Abbreviation SWEEP_INDEX_SECTORS := 2.
Abbreviation SWEEP_FILE_COUNT := 6.
Abbreviation SWEEP_MAX_OPS := 128.
Abbreviation SWEEP_SCRATCH_SIZE := 4096.
Abbreviation SWEEP_MAX_MUTATIONS_PER_OP := 256.

Inductive sweep_op_type : Type :=
| SWEEP_OP_WRITE
| SWEEP_OP_DELETE.

#[global] Instance sweep_op_type_eq_dec : EqDecision sweep_op_type.
Proof. solve_decision. Defined.

Record sweep_op : Type := mk_op {
  op_type : sweep_op_type;
  op_file_id : Z;
  op_value : Z;
}.

(** The two arrays of [struct sweep_model] as one list of pairs. *)
Definition sweep_model : Type := list (bool * Z).

Definition model_zero : sweep_model := replicate (Z.to_nat SWEEP_FILE_COUNT) (false, 0).

Record sweep_stats : Type := mk_stats {
  crash_points : Z;
  sampled_faults : Z;
  random_workloads : Z;
  tiny_cases : Z;
  invariant_failures : Z;
}.

Definition stats_zero : sweep_stats := mk_stats 0 0 0 0 0.

Definition count_crash_point (failed : bool) (s : sweep_stats) : sweep_stats :=
  mk_stats (usz (crash_points s + 1)) (sampled_faults s) (random_workloads s)
    (tiny_cases s)
    (if failed then usz (invariant_failures s + 1) else invariant_failures s).

Definition count_sampled_fault (s : sweep_stats) : sweep_stats :=
  mk_stats (crash_points s) (usz (sampled_faults s + 1)) (random_workloads s)
    (tiny_cases s) (invariant_failures s).

Definition count_random_workload (s : sweep_stats) : sweep_stats :=
  mk_stats (crash_points s) (sampled_faults s) (usz (random_workloads s + 1))
    (tiny_cases s) (invariant_failures s).

Definition count_tiny_case (s : sweep_stats) : sweep_stats :=
  mk_stats (crash_points s) (sampled_faults s) (random_workloads s)
    (usz (tiny_cases s + 1)) (invariant_failures s).

Definition sweep_config : ffsv_flash_config :=
  let cfg := preset_config FFSV_PRESET_TARGET_NOR_NOTES
               (SWEEP_SECTOR_SIZE * SWEEP_SECTOR_COUNT) in
  mk_flash_config (vc_total_size cfg) SWEEP_SECTOR_SIZE (vc_program_granule cfg)
    (vc_erased_value cfg) (vc_erase_cycles cfg) (vc_timing cfg) 200000.

(** The status and, when it is [FFFS_OK], the new flash. *)
Definition new_flash : fffs_status * option ffsv_flash :=
  let '(err, _) := ffsv_flash_config_preset FFSV_PRESET_TARGET_NOR_NOTES
                     (SWEEP_SECTOR_SIZE * SWEEP_SECTOR_COUNT) in
  if negb (err =? FFSV_OK) then (FFFS_ERR_IO, None)
  else let '(err, flash) := ffsv_flash_create sweep_config in
       if negb (err =? FFSV_OK) then (FFFS_ERR_IO, None) else (FFFS_OK, flash).

Definition file_name (id : Z) : list Z := bytes_of_string "f"%string ++ decimal 1 id.

Definition apply_model (model : sweep_model) (op : sweep_op) : sweep_model :=
  let id := Z.to_nat (op_file_id op) in
  match op_type op with
  | SWEEP_OP_WRITE => <[id := (true, op_value op)]> model
  | SWEEP_OP_DELETE =>
      <[id := (false, snd (default (false, 0) (model !! id)))]> model
  end.

(** ** One file system over one flash *)

Abbreviation sweep_backend :=
  (@fffs_host_backend_from_verify_flash sweep_stats sweep_config).

(** The local [struct fffs_file] of the helpers; 0 is the null pointer. *)
Abbreviation local_file := 1.

Section Sweep.
Context {I : @IndexCache sweep_backend} `{Fuel} (index_heads_count : Z).

#[local] Existing Instance fffs_host_backend_from_verify_flash | 100.

(** Storage and mount; [index_heads_count] is [SWEEP_INDEX_HEADS], which the
    index mode sets. *)
Definition sweep_mount_options : fffs_mount_options :=
  mk_mount_options true (index_cache_required_size (IndexCache := I) index_heads_count)
    index_heads_count (Some (fill SWEEP_SCRATCH_SIZE 0)) SWEEP_SCRATCH_SIZE false
    (Some (fill 256 0)) 256.

Definition sweep_mount_fs : @M sweep_backend unit := fffs_mount sweep_mount_options.

Definition sweep_write_file (name data : list Z) : @M sweep_backend unit :=
  fffs_open local_file name
    (Z.lor (Z.lor FFFS_O_WRONLY FFFS_O_CREATE) FFFS_O_TRUNC) ;;
  r <- try_ (fffs_write local_file data) ;;
  match r with
  | inl err => ignore (fffs_close local_file) ;; fail err
  | inr _ => fffs_close local_file
  end.

Definition execute_op (op : sweep_op) : @M sweep_backend unit :=
  let name := file_name (op_file_id op) in
  match op_type op with
  | SWEEP_OP_WRITE => sweep_write_file name [op_value op]
  | SWEEP_OP_DELETE =>
      r <- try_ (fffs_delete_file name) ;;
      match r with
      | inl FFFS_ERR_NOT_FOUND | inr _ => ret tt
      | inl err => fail err
      end
  end.

(** One file of [compare_model]; the result is its share of [expected_count]. *)
Definition compare_file (i : Z) (expected : bool * Z) : @M sweep_backend Z :=
  r <- try_ (fffs_stat_file (file_name (u8 i))) ;;
  if negb (fst expected) then
    match r with
    | inl FFFS_ERR_NOT_FOUND => ret 0
    | _ => fail FFFS_ERR_CORRUPT
    end
  else
    match r with
    | inl _ => fail FFFS_ERR_CORRUPT
    | inr st =>
        guard_err (negb (st_size st =? 1)) FFFS_ERR_CORRUPT ;;
        fffs_open local_file (file_name (u8 i)) FFFS_O_RDONLY ;;
        data <- try_ (fffs_read local_file 1) ;;
        closed <- try_ (fffs_close local_file) ;;
        match data, closed with
        | inr [value], inr _ =>
            guard_err (negb (value =? snd expected)) FFFS_ERR_CORRUPT ;;
            ret 1
        | _, _ => fail FFFS_ERR_CORRUPT
        end
    end.

(** The files of the model from number [i] on. *)
Fixpoint compare_files (i : Z) (model : sweep_model) (expected_count : Z)
  : @M sweep_backend Z :=
  match model with
  | [] => ret expected_count
  | expected :: model =>
      n <- compare_file i expected ;;
      compare_files (i + 1) model (expected_count + n)
  end.

(** The loop over the directory: the handle and the number of entries. *)
Fixpoint count_entries_loop (n : nat) (dir : fffs_dir) (count : Z)
  : @M sweep_backend (Z * fffs_dir) :=
  match n with
  | O => diverge
  | S n' =>
      let* (entry, dir) := fffs_dir_read dir in
      match entry with
      | None => ret (count, dir)
      | Some _ => count_entries_loop n' dir (count + 1)
      end
  end.

Definition compare_model (model : sweep_model) : @M sweep_backend unit :=
  expected_count <- compare_files 0 model 0 ;;
  let '(err, dir) := fffs_dir_open None in
  check err ;;
  let* (actual_count, dir) := count_entries_loop fuel dir 0 in
  check (fffs_dir_status dir) ;;
  check (fst (fffs_dir_close dir)) ;;
  guard_err (negb (actual_count =? expected_count)) FFFS_ERR_CORRUPT.

(** The inspector's counters that must be zero. *)
Definition summary_corrupt (s : fffs_inspect_summary) : bool :=
  negb (ic_live_entries_corrupt (sum_index s) =? 0) ||
  negb (ic_corrupt_records (sum_index s) =? 0) ||
  negb (sc_corrupt (sum_sectors s) =? 0) ||
  negb (mc_corrupt (sum_md s) =? 0).

Definition check_invariants_ex (before after : sweep_model) (allow_raw_corrupt : bool)
  : @M sweep_backend unit :=
  (if allow_raw_corrupt then ret tt
   else summary <- fffs_inspect_check ;;
        guard_err (summary_corrupt summary) FFFS_ERR_CORRUPT) ;;
  r <- try_ (compare_model before) ;;
  match r with
  | inr _ => ret tt
  | inl _ => compare_model after
  end.

Definition check_invariants (before after : sweep_model) : @M sweep_backend unit :=
  check_invariants_ex before after false.
End Sweep.

(** ** Crashes of one operation *)

Section Crashes.
Context {I : @IndexCache sweep_backend} `{Fuel} (index_heads_count : Z).

(** The callback of the sampler, over the branch of the fault case. *)
Definition verify_sampled_fault (before after : sweep_model)
    (fault : ffsv_fault_case) (stats : sweep_stats) : Z * sweep_stats :=
  let w := fresh_fs (mk_vstate (fc_branch fault) sampler_zero stats) in
  let ok :=
    match run_fs (sweep_mount_fs index_heads_count) w with
    | Some (inr _, w) =>
        match run_fs (check_invariants_ex before after true) w with
        | Some (inr _, _) => true
        | _ => false
        end
    | _ => false
    end in
  let stats := count_crash_point (negb ok) (count_sampled_fault stats) in
  (if ok then FFSV_OK else FFSV_ERR_IO, stats).

(** The records of the log from [first] on; [None] when there are too many. *)
Fixpoint collect_loop (records : list ffsv_op_record) (out : list Z) : option (list Z) :=
  match records with
  | [] => Some out
  | r :: records =>
      if negb (is_mutation r) then collect_loop records out
      else if SWEEP_MAX_MUTATIONS_PER_OP <=? zlen out then None
      else collect_loop records (out ++ [or_sequence r])
  end.

Definition collect_mutations (log : list ffsv_op_record) (first : nat)
  : result * list Z :=
  match collect_loop (drop first log) [] with
  | None => (inl FFFS_ERR_RANGE, [])
  | Some out => (inr tt, out)
  end.

Definition sweep_sampler (before after : sweep_model) (workload_id op_index : Z)
    (permutations max_bits : Z) : @ffsv_fault_sampler sweep_stats :=
  mk_sampler true (sweep_op_mask true)
    (Z.lxor (Z.lxor 0x5eed0000 workload_id) (u32 (op_index * 97)))
    permutations max_bits 256 (Some (verify_sampled_fault before after)).

Definition sweep_failure (sequence : Z) (phase : ffsv_failure_phase)
  : ffsv_failure_injection :=
  mk_failure true sequence (sweep_op_mask false) phase FFSV_FAIL_WRITE_PREFIX
    FFSV_ERR_INJECTED 0 0.

(** One crash point: the operation with the failure injected at [sequence], and
    the mount and the check of what it leaves. *)
Definition crash_attempt (base_flash : ffsv_flash) (op : sweep_op)
    (before after : sweep_model) (sequence : Z) (phase : ffsv_failure_phase)
    (stats : sweep_stats) : option result :=
  match run_fs (sweep_mount_fs index_heads_count) (fresh_fs (clone_flash base_flash stats)) with
  | None => None
  | Some (inl err, _) => Some (inl err)
  | Some (inr _, w) =>
      let w := on_flash (with_failure (sweep_failure sequence phase)) w in
      match run_fs (execute_op op) w with
      | None => None
      | Some (_, w) =>
          match w_ctx (on_flash (with_failure failure_zero) w) with
          | None => None
          | Some c =>
              if negb (log_has_injected_sequence (vs_flash c) sequence)
              then Some (inl FFFS_ERR_CORRUPT)
              else
                match run_fs (sweep_mount_fs index_heads_count) (fresh_fs c) with
                | None => None
                | Some (inl err, _) => Some (inl err)
                | Some (inr _, w) =>
                    match run_fs (check_invariants before after) w with
                    | None => None
                    | Some (r, _) => Some (status_of r)
                    end
                end
          end
      end
  end.

(** The two phases of each sequence number; the first failure ends the loop. *)
Fixpoint crash_points_loop (points : list (Z * ffsv_failure_phase))
    (base_flash : ffsv_flash) (op : sweep_op) (before after : sweep_model)
    (stats : sweep_stats) : option (result * sweep_stats) :=
  match points with
  | [] => Some (inr tt, stats)
  | (sequence, phase) :: points =>
      match crash_attempt base_flash op before after sequence phase stats with
      | None => None
      | Some err =>
          let stats := count_crash_point (negb (is_ok err)) stats in
          if is_ok err
          then crash_points_loop points base_flash op before after stats
          else Some (err, stats)
      end
  end.

Definition crash_phases (mutations : list Z) : list (Z * ffsv_failure_phase) :=
  mutations ≫= (fun sequence => [(sequence, FFSV_FAIL_BEFORE); (sequence, FFSV_FAIL_AFTER)]).

(** The execution on a copy that collects the sequence numbers, with the sampler
    on if [sampled_permutations] is not zero. *)
Definition collect_run (base_flash : ffsv_flash) (op : sweep_op)
    (before after : sweep_model) (stats : sweep_stats)
    (workload_id op_index sampled_permutations sampled_max_bits : Z)
  : option (result * list Z * sweep_stats) :=
  match run_fs (sweep_mount_fs index_heads_count) (fresh_fs (clone_flash base_flash stats)) with
  | None => None
  | Some (inl err, _) => Some (inl err, [], stats)
  | Some (inr _, w) =>
      match w_ctx w with
      | None => None
      | Some c =>
          let log_before := length (vf_log (vs_flash c)) in
          let w := if negb (sampled_permutations =? 0)
                   then on_flash (with_sampler (sweep_sampler before after workload_id
                          op_index sampled_permutations sampled_max_bits)) w
                   else w in
          match run_fs (execute_op op) w with
          | None => None
          | Some (r, w) =>
              match w_ctx (on_flash (with_sampler sampler_zero) w) with
              | None => None
              | Some c =>
                  if is_ok (status_of r)
                  then let '(err, mutations) :=
                         collect_mutations (vf_log (vs_flash c)) log_before in
                       Some (err, mutations, vs_user c)
                  else Some (status_of r, [], vs_user c)
              end
          end
      end
  end.

Definition sweep_op_crashes (base_flash : ffsv_flash) (op : sweep_op)
    (before after : sweep_model) (stats : sweep_stats)
    (workload_id op_index sampled_permutations sampled_max_bits : Z)
  : option (result * sweep_stats) :=
  match collect_run base_flash op before after stats workload_id op_index
          sampled_permutations sampled_max_bits with
  | None => None
  | Some (err, mutations, stats) =>
      if is_ok err
      then crash_points_loop (crash_phases mutations) base_flash op before after stats
      else Some (err, stats)
  end.

(** ** Workloads *)

(** The operations from number [i] on, over the mounted file system. *)
Fixpoint workload_loop (i : Z) (ops : list sweep_op) (model : sweep_model)
    (workload_id sampled_permutations sampled_max_bits : Z)
    (w : @world sweep_backend) (stats : sweep_stats)
  : option (result * sweep_stats) :=
  match ops with
  | [] => Some (inr tt, stats)
  | op :: ops =>
      let after := apply_model model op in
      match w_ctx w with
      | None => None
      | Some c =>
          match sweep_op_crashes (ffsv_flash_cow_clone (vs_flash c)) op model after stats
                  workload_id i sampled_permutations sampled_max_bits with
          | None => None
          | Some (err, stats) =>
              if negb (is_ok err) then Some (err, stats)
              else
                match run_fs (execute_op op ;; check_invariants after after) w with
                | None => None
                | Some (inl err, _) => Some (inl err, stats)
                | Some (inr _, w) =>
                    workload_loop (i + 1) ops after workload_id sampled_permutations
                      sampled_max_bits w stats
                end
          end
      end
  end.

Definition sweep_format_options : fffs_format_options :=
  mk_format_options SWEEP_INDEX_SECTORS 256.

Definition run_workload (ops : list sweep_op) (stats : sweep_stats)
    (workload_id sampled_permutations sampled_max_bits : Z)
  : option (result * sweep_stats) :=
  match new_flash with
  | (err, None) => Some (inl err, stats)
  | (_, Some flash) =>
        match run_fs (fffs_format sweep_format_options ;; sweep_mount_fs index_heads_count)
                (fresh_fs (mk_vstate flash sampler_zero stats)) with
        | None => None
        | Some (inl err, _) => Some (inl err, stats)
        | Some (inr _, w) =>
            workload_loop 0 ops model_zero workload_id sampled_permutations
              sampled_max_bits w stats
        end
  end.

Definition rng_next (rng : Z) : Z := u32 (rng * 1664525 + 1013904223).

Definition random_op (r : Z) : sweep_op :=
  mk_op (if Z.land r 3 =? 0 then SWEEP_OP_DELETE else SWEEP_OP_WRITE)
    (u8 (Z.shiftr r 8 mod SWEEP_FILE_COUNT)) (u8 (Z.shiftr r 16)).

Fixpoint random_workload (rng : Z) (op_count : nat) : list sweep_op :=
  match op_count with
  | O => []
  | S n => let r := rng_next rng in random_op r :: random_workload r n
  end.

(** [n] workloads from number [i]. *)
Fixpoint run_random_loop (n : nat) (i ops_per_workload : Z) (stats : sweep_stats)
    (sampled_permutations sampled_max_bits : Z) : option (result * sweep_stats) :=
  match n with
  | O => Some (inr tt, stats)
  | S n' =>
      match run_workload (random_workload (u32 (0xc001d00d + i * 97))
                            (Z.to_nat ops_per_workload))
              stats (u32 i) sampled_permutations sampled_max_bits with
      | None => None
      | Some (err, stats) =>
          let stats := count_random_workload stats in
          if negb (is_ok err) then Some (err, stats)
          else run_random_loop n' (i + 1) ops_per_workload stats sampled_permutations
                 sampled_max_bits
      end
  end.

Definition run_random (workloads ops_per_workload : Z) (stats : sweep_stats)
    (sampled_permutations sampled_max_bits : Z) : option (result * sweep_stats) :=
  if SWEEP_MAX_OPS <? ops_per_workload then Some (inl FFFS_ERR_INVALID, stats)
  else run_random_loop (Z.to_nat workloads) 0 ops_per_workload stats
         sampled_permutations sampled_max_bits.

(** The operations that [run_tiny_exhaustive_rec] tries at a depth, in order. *)
Definition tiny_write (depth file : Z) : sweep_op :=
  mk_op SWEEP_OP_WRITE (u8 file) (u8 (depth * 17 + file)).

Definition tiny_delete (file : Z) : sweep_op := mk_op SWEEP_OP_DELETE (u8 file) 0.

(** [ops] are the entries of the array below [depth], the others are written
    before they are read; [n] is the number of levels that are left. *)
Fixpoint run_tiny_exhaustive_rec (n : nat) (ops : list sweep_op) (stats : sweep_stats)
    (sampled_permutations sampled_max_bits : Z) : option (result * sweep_stats) :=
  match n with
  | O =>
      match run_workload ops stats (u32 (Z.lor 0x80000000 (tiny_cases stats)))
              sampled_permutations sampled_max_bits with
      | None => None
      | Some (err, stats) => Some (err, count_tiny_case stats)
      end
  | S n' =>
      let files :=
        fix files (k : nat) (file : Z) (stats : sweep_stats) :=
          match k with
          | O => Some (inr tt, stats)
          | S k' =>
              match run_tiny_exhaustive_rec n' (ops ++ [tiny_write (zlen ops) file]) stats
                      sampled_permutations sampled_max_bits with
              | None => None
              | Some (err, stats) =>
                  if negb (is_ok err) then Some (err, stats)
                  else
                    match run_tiny_exhaustive_rec n' (ops ++ [tiny_delete file]) stats
                            sampled_permutations sampled_max_bits with
                    | None => None
                    | Some (err, stats) =>
                        if negb (is_ok err) then Some (err, stats)
                        else files k' (file + 1) stats
                    end
              end
          end in
      files 3%nat 0 stats
  end.

Definition run_tiny_exhaustive (depth : Z) (stats : sweep_stats)
    (sampled_permutations sampled_max_bits : Z) : option (result * sweep_stats) :=
  if SWEEP_MAX_OPS <? depth then Some (inl FFFS_ERR_INVALID, stats)
  else run_tiny_exhaustive_rec (Z.to_nat depth) [] stats sampled_permutations
         sampled_max_bits.

(** [main] after its arguments are parsed: the exit code and the counters that
    it prints. *)
Definition crash_sweep_main (random_workloads ops_per_workload tiny_depth
    sampled_permutations sampled_max_bits : Z) : option (Z * sweep_stats) :=
  match run_random random_workloads ops_per_workload stats_zero sampled_permutations
          sampled_max_bits with
  | None => None
  | Some (err, stats) =>
      match (if is_ok err && (0 <? tiny_depth)
             then run_tiny_exhaustive tiny_depth stats sampled_permutations
                    sampled_max_bits
             else Some (err, stats)) with
      | None => None
      | Some (err, stats) => Some (if is_ok err then 0 else 1, stats)
      end
  end.
End Crashes.

(** ** What the verdict of the sweep means *)

Section Verdict.
Context {I : @IndexCache sweep_backend} `{Fuel} (index_heads_count : Z).

(** What the check asks of a file, from one state to the next: a missing one is
    not found, the other has one byte, which is its value. *)
Definition file_seen (i : Z) (expected : bool * Z) (w w' : @world sweep_backend) : Prop :=
  if fst expected then
    exists st w1 w2 w3,
      fffs_stat_file (file_name (u8 i)) w = (Ok st, w1) /\ st_size st = 1 /\
      fffs_open local_file (file_name (u8 i)) FFFS_O_RDONLY w1 = (Ok tt, w2) /\
      fffs_read local_file 1 w2 = (Ok [snd expected], w3) /\
      fffs_close local_file w3 = (Ok tt, w')
  else fffs_stat_file (file_name (u8 i)) w = (Err FFFS_ERR_NOT_FOUND, w').

Inductive files_seen : Z -> sweep_model -> @world sweep_backend -> @world sweep_backend -> Prop :=
| seen_nil i w : files_seen i [] w w
| seen_cons i expected model w w1 w2 :
    file_seen i expected w w1 -> files_seen (i + 1) model w1 w2 ->
    files_seen i (expected :: model) w w2.

Definition model_count (model : sweep_model) : Z :=
  zlen (List.filter fst model).

(** All files of the model are seen, and the directory lists as many. *)
Definition model_seen (model : sweep_model) (w w' : @world sweep_backend) : Prop :=
  exists w1 dir, files_seen 0 model w w1 /\
    count_entries_loop fuel dir_zero 0 w1 = (Ok (model_count model, dir), w') /\
    d_status dir = FFFS_OK /\ d_closed dir = false.

Lemma compare_file_ok i expected (w w' : @world sweep_backend) n :
  compare_file i expected w = (Ok n, w') ->
  n = (if fst expected then 1 else 0) /\ file_seen i expected w w'.
Proof.
  unfold compare_file, file_seen, try_, bind, guard_err, ret, fail.
  destruct (fffs_stat_file (file_name (u8 i)) w) as [[st | e |] w1];
    destruct (fst expected); simpl; try done.
  - destruct (Z.eqb_spec (st_size st) 1) as [Hsize | Hsize]; simpl; [| done].
    destruct (fffs_open local_file (file_name (u8 i)) FFFS_O_RDONLY w1) as [[[] | e |] w2] eqn:Ho;
      simpl; try done.
    destruct (fffs_read local_file 1 w2) as [[data | e |] w3] eqn:Hr; simpl; try done.
    + destruct (fffs_close local_file w3) as [[[] | e' |] w4] eqn:Hc; simpl;
        destruct data as [| v [| v' data]]; simpl; try done.
      destruct (Z.eqb_spec v (snd expected)) as [-> | Hv]; simpl; [| done].
      intros [= <- <-]. split; [done |]. by exists st, w1, w2, w3.
    + destruct (fffs_close local_file w3) as [[[] | e' |] w4]; done.
  - destruct e; simpl; try done. by intros [= <- <-].
Qed.

Lemma compare_files_ok model : forall i count (w w' : @world sweep_backend) n,
  compare_files i model count w = (Ok n, w') ->
  n = count + model_count model /\ files_seen i model w w'.
Proof.
  induction model as [| expected model IH]; intros i count w w' n; simpl.
  { intros [= <- <-]. split; [unfold model_count, zlen; simpl; lia | constructor]. }
  unfold bind. destruct (compare_file i expected w) as [[k | e |] w1] eqn:Hf; try done.
  apply compare_file_ok in Hf as [-> Hseen]. intros Hrun.
  apply IH in Hrun as [-> Hrest]. split; [| by econstructor].
  unfold model_count. simpl. destruct (fst expected); rewrite ?zlen_cons; lia.
Qed.

Lemma compare_model_ok model (w w' : @world sweep_backend) :
  compare_model model w = (Ok tt, w') -> model_seen model w w'.
Proof.
  unfold compare_model, bind. destruct (compare_files 0 model 0 w) as [[n | e |] w1] eqn:Hf;
    try done.
  apply compare_files_ok in Hf as [-> Hseen]. cbn [fffs_dir_open].
  destruct (count_entries_loop fuel dir_zero 0 w1) as [[[count dir] | e |] w2] eqn:Hc;
    simpl; try done; rewrite Hc; try done.
  unfold fffs_dir_status, fffs_dir_close.
  destruct (d_status dir) eqn:Hst; simpl; try done.
  destruct (d_closed dir) eqn:Hcl; simpl; try done.
  unfold guard_err, fail, ret. destruct (Z.eqb_spec count (0 + model_count model)); simpl; try done.
  subst count. intros [= <-]. by exists w1, dir.
Qed.

(** The check by the inspector, then the files from before or from after. *)
Definition image_recovered (before after : sweep_model) (w : @world sweep_backend) : Prop :=
  exists summary w1, fffs_inspect_check w = (Ok summary, w1) /\
    summary_corrupt summary = false /\
    ((exists w2, model_seen before w1 w2) \/
     (exists err w2 w3, compare_model before w1 = (Err err, w2) /\ model_seen after w2 w3)).

Lemma check_invariants_ok before after (w w' : @world sweep_backend) :
  check_invariants before after w = (Ok tt, w') -> image_recovered before after w.
Proof.
  unfold check_invariants, check_invariants_ex, image_recovered, bind, try_, guard_err.
  destruct (fffs_inspect_check w) as [[summary | e |] w1]; try done.
  destruct (summary_corrupt summary) eqn:Hs; [done |]. simpl.
  destruct (compare_model before w1) as [[[] | e |] w2] eqn:Hb; try done; intros Hrun;
    exists summary, w1; (split; [done |]); (split; [done |]).
  - left. exists w2. by apply compare_model_ok.
  - right. exists e, w2, w'. split; [done |]. by apply compare_model_ok.
Qed.

(** What a crash of [op] at the operation number [sequence] of the harness has
    to lead to: the injected failure took place, and the flash that the crash
    left mounts and shows the files of [before] or those of [after]. *)
Definition crash_recovers (base_flash : ffsv_flash) (op : sweep_op)
    (before after : sweep_model) (sequence : Z) (phase : ffsv_failure_phase) : Prop :=
  exists stats w1 r w2 c w3,
    run_fs (sweep_mount_fs index_heads_count) (fresh_fs (clone_flash base_flash stats)) =
      Some (inr tt, w1) /\
    run_fs (execute_op op) (on_flash (with_failure (sweep_failure sequence phase)) w1) =
      Some (r, w2) /\
    w_ctx (on_flash (with_failure failure_zero) w2) = Some c /\
    log_has_injected_sequence (vs_flash c) sequence = true /\
    run_fs (sweep_mount_fs index_heads_count) (fresh_fs c) = Some (inr tt, w3) /\
    image_recovered before after w3.

Lemma crash_attempt_ok base_flash op before after sequence phase stats :
  crash_attempt index_heads_count base_flash op before after sequence phase stats =
    Some (inr tt) ->
  crash_recovers base_flash op before after sequence phase.
Proof.
  unfold crash_attempt, crash_recovers.
  destruct (run_fs (sweep_mount_fs _) (fresh_fs (clone_flash _ _))) as [[[e | []] w1] |] eqn:H1;
    try done.
  destruct (run_fs (execute_op op) _) as [[r w2] |] eqn:H2; [| done].
  destruct (w_ctx (on_flash (with_failure failure_zero) w2)) as [c |] eqn:Hc; [| done].
  destruct (log_has_injected_sequence (vs_flash c) sequence) eqn:Hi; [| done]. simpl negb.
  destruct (run_fs (sweep_mount_fs _) (fresh_fs c)) as [[[e | []] w3] |] eqn:H3; try done.
  destruct (run_fs (check_invariants before after) w3) as [[[e | []] w4] |] eqn:H4; try done.
  intros _. exists stats, w1, r, w2, c, w3. repeat (split; [done |]).
  apply run_fs_ok in H4. by eapply check_invariants_ok.
Qed.

Lemma crash_points_loop_ok points base_flash op before after : forall stats stats',
  crash_points_loop index_heads_count points base_flash op before after stats =
    Some (inr tt, stats') ->
  (forall sequence phase, (sequence, phase) ∈ points ->
     crash_recovers base_flash op before after sequence phase) /\
  invariant_failures stats' = invariant_failures stats /\
  usz (crash_points stats') = usz (crash_points stats + zlen points).
Proof.
  induction points as [| [sequence phase] points IH]; intros stats stats'; cbn [crash_points_loop].
  { intros [= <-]. rewrite Z.add_0_r. split; [| done]. intros ? ? Hin. inversion Hin. }
  destruct (crash_attempt _ base_flash op before after sequence phase stats)
    as [[e | []] |] eqn:Ha; try done.
  simpl is_ok. cbv iota. intros Hrun. apply IH in Hrun as (Hrec & -> & ->).
  split; [| split; [done |]].
  - intros seq ph [[= -> ->] | Hin]%elem_of_cons; [by eapply crash_attempt_ok | by apply Hrec].
  - cbn [count_crash_point crash_points]. rewrite usz_add_l, zlen_cons. f_equal. lia.
Qed.

Lemma zlen_crash_phases (mutations : list Z) :
  zlen (crash_phases mutations) = 2 * zlen mutations.
Proof.
  induction mutations as [| m l IH]; [done |].
  change (crash_phases (m :: l)) with
    ((m, FFSV_FAIL_BEFORE) :: (m, FFSV_FAIL_AFTER) :: crash_phases l).
  rewrite !zlen_cons, IH. lia.
Qed.

Lemma collect_loop_ok records : forall out res,
  collect_loop records out = Some res ->
  res = out ++ (or_sequence <$> List.filter is_mutation records).
Proof.
  induction records as [| r records IH]; intros out res; cbn [collect_loop List.filter].
  { intros [= <-]. by rewrite app_nil_r. }
  destruct (is_mutation r); cbn [negb]; [| apply IH].
  destruct (SWEEP_MAX_MUTATIONS_PER_OP <=? zlen out); [done |].
  intros Hrun. apply IH in Hrun as ->. by rewrite fmap_cons, <- app_assoc.
Qed.

(** The run that collects the crash points: [mutations] are the numbers of all
    programs and erases that the operation made, [stats'] the counters after the
    sampled faults. *)
Definition mutating_run (base_flash : ffsv_flash) (op : sweep_op)
    (before after : sweep_model) (stats : sweep_stats)
    (workload_id op_index sampled_permutations sampled_max_bits : Z)
    (mutations : list Z) (stats' : sweep_stats) : Prop :=
  exists w1 c1 w2 c2,
    run_fs (sweep_mount_fs index_heads_count) (fresh_fs (clone_flash base_flash stats)) =
      Some (inr tt, w1) /\ w_ctx w1 = Some c1 /\
    run_fs (execute_op op)
      (if negb (sampled_permutations =? 0)
       then on_flash (with_sampler (sweep_sampler index_heads_count before after
              workload_id op_index sampled_permutations sampled_max_bits)) w1
       else w1) = Some (inr tt, w2) /\
    w_ctx (on_flash (with_sampler sampler_zero) w2) = Some c2 /\
    mutations = or_sequence <$> List.filter is_mutation
      (drop (length (vf_log (vs_flash c1))) (vf_log (vs_flash c2))) /\
    stats' = vs_user c2.

Lemma collect_run_ok base_flash op before after stats workload_id op_index perms max_bits
    mutations stats' :
  collect_run index_heads_count base_flash op before after stats workload_id op_index
    perms max_bits = Some (inr tt, mutations, stats') ->
  mutating_run base_flash op before after stats workload_id op_index perms max_bits
    mutations stats'.
Proof.
  unfold collect_run, mutating_run.
  destruct (run_fs (sweep_mount_fs _) _) as [[[e | []] w1] |] eqn:H1; try done.
  destruct (w_ctx w1) as [c1 |] eqn:Hc1; [| done]. cbv zeta.
  destruct (run_fs (execute_op op) _) as [[r w2] |] eqn:H2; [| done].
  destruct (w_ctx (on_flash _ w2)) as [c2 |] eqn:Hc2; [| done].
  destruct r as [e | []]; [done |]. simpl is_ok. cbv iota. unfold collect_mutations.
  destruct (collect_loop _ []) as [out |] eqn:Hloop; [| done].
  apply collect_loop_ok in Hloop. simpl in Hloop. intros [= <- <-].
  exists w1, c1, w2, c2. repeat (split; [done |]). by subst.
Qed.

(** C37: The verdict on one operation.  When the sweep of an operation succeeds, the
    operation ran, and for every program and every erase that it made, a power
    loss just before it and one just after it leave a flash that mounts, on
    which the inspector finds nothing corrupt and whose files are those from
    before or from after the operation; all of these crash points are counted,
    none of them as a failure. *)
Theorem sweep_op_verdict base_flash op before after stats workload_id op_index perms
    max_bits stats' :
  sweep_op_crashes index_heads_count base_flash op before after stats workload_id
    op_index perms max_bits = Some (inr tt, stats') ->
  exists mutations stats1,
    mutating_run base_flash op before after stats workload_id op_index perms max_bits
      mutations stats1 /\
    (forall sequence phase, sequence ∈ mutations -> phase <> FFSV_FAIL_MIDDLE ->
       crash_recovers base_flash op before after sequence phase) /\
    invariant_failures stats' = invariant_failures stats1 /\
    usz (crash_points stats') = usz (crash_points stats1 + 2 * zlen mutations).
Proof.
  unfold sweep_op_crashes.
  destruct (collect_run _ _ _ _ _ _ _ _ _ _) as [[[[e | []] mutations] stats1] |] eqn:Hc;
    try done.
  simpl is_ok. cbv iota. intros Hrun. apply crash_points_loop_ok in Hrun as (Hrec & Hf & Hp).
  exists mutations, stats1. split; [by apply collect_run_ok |]. split; [| split; [done |]].
  - intros sequence phase Hin Hph. apply Hrec. unfold crash_phases.
    apply list_elem_of_bind. exists sequence. split; [| done].
    destruct phase; rewrite !elem_of_cons; auto. done.
  - by rewrite Hp, zlen_crash_phases.
Qed.
End Verdict.

(** ** The exhaustive part

    The recursion over a shared array of operations is a loop over the list of
    all sequences of the given length. *)

Section Exhaustive.
Context {I : @IndexCache sweep_backend} `{Fuel} (index_heads_count : Z).

Definition tiny_ops (depth : Z) : list sweep_op :=
  [tiny_write depth 0; tiny_delete 0; tiny_write depth 1; tiny_delete 1;
   tiny_write depth 2; tiny_delete 2].

(** All sequences of [n] operations from depth [depth] on. *)
Fixpoint tiny_sequences (n : nat) (depth : Z) : list (list sweep_op) :=
  match n with
  | O => [[]]
  | S n' => op ← tiny_ops depth; (op ::.) <$> tiny_sequences n' (depth + 1)
  end.

(** The workloads in turn, up to the first that fails. *)
Fixpoint run_cases (cases : list (list sweep_op)) (stats : sweep_stats)
    (sampled_permutations sampled_max_bits : Z) : option (result * sweep_stats) :=
  match cases with
  | [] => Some (inr tt, stats)
  | ops :: cases =>
      match run_workload index_heads_count ops stats
              (u32 (Z.lor 0x80000000 (tiny_cases stats)))
              sampled_permutations sampled_max_bits with
      | None => None
      | Some (err, stats) =>
          let stats := count_tiny_case stats in
          if is_ok err then run_cases cases stats sampled_permutations sampled_max_bits
          else Some (err, stats)
      end
  end.

Lemma run_cases_app cases1 cases2 perms bits : forall stats,
  run_cases (cases1 ++ cases2) stats perms bits =
  match run_cases cases1 stats perms bits with
  | None => None
  | Some (err, stats) =>
      if is_ok err then run_cases cases2 stats perms bits else Some (err, stats)
  end.
Proof.
  induction cases1 as [| ops cases1 IH]; intros stats; [reflexivity |].
  cbn [app run_cases]. destruct (run_workload _ ops _ _ _ _) as [[[e | []] s] |];
    cbn [is_ok]; [reflexivity | apply IH | reflexivity].
Qed.

Lemma run_cases_one_op n op depth ops cases perms bits stats :
  (forall stats, run_tiny_exhaustive_rec index_heads_count n (ops ++ [op]) stats perms bits =
     run_cases ((app (ops ++ [op])) <$> tiny_sequences n (depth + 1)) stats perms bits) ->
  run_cases ((app ops <$> ((op ::.) <$> tiny_sequences n (depth + 1))) ++ cases)
    stats perms bits =
  match run_tiny_exhaustive_rec index_heads_count n (ops ++ [op]) stats perms bits with
  | None => None
  | Some (err, stats) =>
      if is_ok err then run_cases cases stats perms bits else Some (err, stats)
  end.
Proof.
  intros Hrec. rewrite run_cases_app, Hrec, <- list_fmap_compose.
  assert (Heq : app ops ∘ (op ::.) <$> tiny_sequences n (depth + 1) =
    app (ops ++ [op]) <$> tiny_sequences n (depth + 1)).
  { apply list_fmap_ext. intros i l _. cbn. by rewrite <- app_assoc. }
  by rewrite Heq.
Qed.

Lemma tiny_rec_cases n : forall ops stats perms bits,
  run_tiny_exhaustive_rec index_heads_count n ops stats perms bits =
  run_cases (app ops <$> tiny_sequences n (zlen ops)) stats perms bits.
Proof.
  induction n as [| n IH]; intros ops stats perms bits.
  { cbn [run_tiny_exhaustive_rec tiny_sequences fmap list_fmap run_cases].
    rewrite app_nil_r.
    destruct (run_workload _ ops _ _ _ _) as [[[e | []] s] |]; reflexivity. }
  cbn [run_tiny_exhaustive_rec]. cbv zeta.
  assert (Hzlen : forall op, zlen (ops ++ [op]) = zlen ops + 1).
  { intros op. by rewrite zlen_app. }
  assert (Hstep : forall op cases stats,
    run_cases ((app ops <$> ((op ::.) <$> tiny_sequences n (zlen ops + 1))) ++ cases)
      stats perms bits =
    match run_tiny_exhaustive_rec index_heads_count n (ops ++ [op]) stats perms bits with
    | None => None
    | Some (err, stats) =>
        if is_ok err then run_cases cases stats perms bits else Some (err, stats)
    end).
  { intros op cases stats'. apply run_cases_one_op. intros s. by rewrite IH, Hzlen. }
  cbn [tiny_sequences]. unfold tiny_ops. simpl mbind. rewrite app_nil_r.
  rewrite !fmap_app, <- (app_nil_r (app ops <$> ((tiny_delete 2 ::.) <$> _))).
  change (0 + 1 + 1) with 2. change (0 + 1) with 1.
  do 6 (rewrite Hstep;
        destruct (run_tiny_exhaustive_rec _ n (ops ++ [_]) _ perms bits) as [[[? | []] ?] |];
        cbn [is_ok negb]; [reflexivity | | reflexivity]).
  reflexivity.
Qed.

(** Operation [op] is tried at depth [depth]. *)
Definition tiny_op_at (depth : Z) (op : sweep_op) : Prop :=
  exists file, 0 <= file < 3 /\ (op = tiny_write depth file \/ op = tiny_delete file).

Lemma elem_of_tiny_ops depth op : op ∈ tiny_ops depth <-> tiny_op_at depth op.
Proof.
  unfold tiny_ops, tiny_op_at. rewrite !elem_of_cons, elem_of_nil. split.
  - intros [-> | [-> | [-> | [-> | [-> | [-> | []]]]]]];
      [exists 0 | exists 0 | exists 1 | exists 1 | exists 2 | exists 2]; (split; [lia | auto]).
  - intros (file & Hf & Hop). assert (file = 0 \/ file = 1 \/ file = 2) as [-> | [-> | ->]] by lia;
      destruct Hop as [-> | ->]; auto 10.
Qed.

Lemma tiny_ops_distinct depth : NoDup (tiny_ops depth).
Proof.
  apply (NoDup_fmap_1 (fun op => (op_type op, op_file_id op))).
  by apply (bool_decide_unpack _).
Qed.

Lemma elem_of_tiny_sequences n : forall depth ops,
  ops ∈ tiny_sequences n depth <->
  length ops = n /\ forall i op, ops !! i = Some op -> tiny_op_at (depth + Z.of_nat i) op.
Proof.
  induction n as [| n IH]; intros depth ops; cbn [tiny_sequences].
  { rewrite list_elem_of_singleton. split.
    - intros ->. split; [done |]. intros i op. by rewrite lookup_nil.
    - by intros [->%nil_length_inv _]. }
  rewrite list_elem_of_bind. setoid_rewrite list_elem_of_fmap.
  setoid_rewrite elem_of_tiny_ops. setoid_rewrite IH. split.
  - intros (op & (rest & -> & Hlen & Hrest) & Hop). split; [simpl; lia |].
    intros [| i] o Ho; [injection Ho as <-; by rewrite Z.add_0_r |].
    replace (depth + Z.of_nat (S i)) with (depth + 1 + Z.of_nat i) by lia. by apply Hrest.
  - intros [Hlen Hops]. destruct ops as [| op rest]; [done |].
    exists op. split; [| rewrite <- (Z.add_0_r depth); by apply (Hops O)].
    exists rest. split; [done |]. split; [simpl in Hlen; lia |]. intros i o Ho.
    replace (depth + 1 + Z.of_nat i) with (depth + Z.of_nat (S i)) by lia. by apply Hops.
Qed.

Lemma tiny_sequences_distinct n : forall depth, NoDup (tiny_sequences n depth).
Proof.
  induction n as [| n IH]; intros depth; cbn [tiny_sequences]; [apply NoDup_singleton |].
  apply NoDup_bind; [| intros op _; apply NoDup_fmap_2; [congruence | apply IH] |
                      apply tiny_ops_distinct].
  intros o1 o2 l _ _ (r1 & -> & _)%list_elem_of_fmap (r2 & Heq & _)%list_elem_of_fmap.
  congruence.
Qed.

(** The exhaustive part is exhaustive.  Up to the first failure, it runs every
    sequence of [depth] operations exactly once, where an operation at a depth
    is one of the six that write or delete one of three files; it refuses the
    depths for which its array has no room. *)
Theorem tiny_exhaustive_complete (depth : Z) stats perms bits :
  0 <= depth ->
  exists cases,
    run_tiny_exhaustive index_heads_count depth stats perms bits =
      (if SWEEP_MAX_OPS <? depth then Some (inl FFFS_ERR_INVALID, stats)
       else run_cases cases stats perms bits) /\
    NoDup cases /\
    (forall ops, ops ∈ cases <->
       zlen ops = depth /\
       forall i op, ops !! i = Some op -> tiny_op_at (Z.of_nat i) op).
Proof.
  intros Hd. exists (tiny_sequences (Z.to_nat depth) 0).
  split; [| split; [apply tiny_sequences_distinct |]].
  - unfold run_tiny_exhaustive. destruct (SWEEP_MAX_OPS <? depth); [done |].
    rewrite tiny_rec_cases. change (zlen (@nil sweep_op)) with 0. f_equal.
    rewrite <- (list_fmap_id (tiny_sequences _ _)) at 2. by apply list_fmap_ext.
  - intros ops. rewrite elem_of_tiny_sequences. unfold zlen. split.
    + intros [Hl Hops]. split; [lia |]. exact Hops.
    + intros [Hl Hops]. split; [lia |]. exact Hops.
Qed.
End Exhaustive.
