(* ===== verification/SweepRuns.v ===== *)
(** * Runs of the crash sweep

    The sweep of [CrashSweep] on the file system with the hash-table index,
    evaluated: the whole program, from the tool to the emulated blocks, runs in
    the kernel.  The witnesses of the theorems of [CrashSweep] are here too. *)

From S2P Require Export CrashSweep HashIndex.

#[local] Existing Instance fffs_host_backend_from_verify_flash | 100.

Definition sweep_index : @IndexCache sweep_backend := hash_index.

Definition sweep_fuel : Fuel := 2000%nat.

(** A build with [FFFS_INDEX_HASH_TABLE_SIZE] set to 16. *)
Abbreviation SWEEP_INDEX_HEADS := 16.

(** The tool with the arguments [0 0 1 1 2] succeeds: for each of the six single
    operations on three files, on a new file system, every program and every
    erase is followed by a power loss before it, a power loss after it and a
    torn execution with two sampled bits, and all 135 images mount and show the
    files from before or from after the operation. *)
Theorem tiny_sweep_passes :
  @crash_sweep_main sweep_index sweep_fuel SWEEP_INDEX_HEADS 0 0 1 1 2 =
    Some (0, mk_stats 135 45 0 6 0).
Proof. vm_cast_no_check (eq_refl (Some (0, mk_stats 135 45 0 6 0))). Qed.

(** ** Witnesses *)

(** The flash of a run after the format. *)
Definition sweep_formatted : option (@vstate sweep_stats) :=
  match new_flash with
  | (_, None) => None
  | (_, Some flash) =>
      match run_fs (cfg := sweep_config) (fffs_format sweep_format_options)
              (fresh_fs (mk_vstate flash sampler_zero stats_zero)) with
      | Some (inr _, w) => w_ctx w
      | _ => None
      end
  end.

Definition sweep_flash : ffsv_flash :=
  match sweep_formatted with
  | Some c => vs_flash c
  | None => mk_flash sweep_config
              (lfs_emubd_create (mk_emubd_config 1 4 256 48 0xff 0
                 LFS_EMUBD_BADBLOCK_ERASEERROR))
              0 0 failure_zero [] [] 0 [] 0 staged_zero
  end.

Definition sweep_demo_op : sweep_op := mk_op SWEEP_OP_WRITE 0 7.

Lemma sweep_demo_run :
  @sweep_op_crashes sweep_index sweep_fuel SWEEP_INDEX_HEADS sweep_flash sweep_demo_op
    model_zero (apply_model model_zero sweep_demo_op) stats_zero 0 0 0 0 =
    Some (inr tt, mk_stats 30 0 0 0 0).
Proof.
  vm_cast_no_check (eq_refl (Some (inr tt : result, mk_stats 30 0 0 0 0))).
Qed.

Lemma sweep_op_verdict_witness :
  exists mutations stats1,
    @mutating_run sweep_index sweep_fuel SWEEP_INDEX_HEADS sweep_flash sweep_demo_op
      model_zero (apply_model model_zero sweep_demo_op) stats_zero 0 0 0 0 mutations stats1.
Proof.
  destruct (sweep_op_verdict SWEEP_INDEX_HEADS _ _ _ _ _ _ _ _ _ _ sweep_demo_run)
    as (mutations & stats1 & Hrun & _).
  exists mutations, stats1. exact Hrun.
Defined.

Lemma tiny_exhaustive_complete_witness :
  exists cases : list (list sweep_op), (forall ops, ops ∈ cases <->
    zlen ops = 3 /\ forall i op, ops !! i = Some op -> tiny_op_at (Z.of_nat i) op).
Proof.
  destruct (@tiny_exhaustive_complete sweep_index sweep_fuel SWEEP_INDEX_HEADS 3 stats_zero 0 0
    ltac:(lia)) as (cases & _ & _ & Hcases).
  exists cases. exact Hcases.
Defined.
