(* ===== verification/ApiHash.v ===== *)
(** * The hashes of the API crash sweep

    [src/tools/fffs_api_crash_sweep.c], the comparison of the file system with
    the expected files: both are reduced to an FNV-1a hash over the files in the
    order of their names, with the generated content of the expected files, and
    with what [fffs_list] and [fffs_read] return for those of the file system.
    The two hashes agree when the files do, whatever the slots and the order in
    which the file system lists them. *)

From stdpp Require Import sorting.
From S2P Require Export ApiModel HostRun.

#[local] Open Scope Z_scope.
#[local] Open Scope fffs_scope.

(** ** Strings and sorting

    Of the standard library: [strlen] stops at the first null byte, [strcmp]
    orders by bytes, [qsort] sorts.  [qsort] may order equal elements as it
    likes; the elements that are sorted here have different names. *)

Fixpoint c_str (l : list Z) : list Z :=
  match l with
  | [] => []
  | x :: l => if x =? 0 then [] else x :: c_str l
  end.

(** [strcmp(a, b) <= 0]. *)
Fixpoint strcmp_le (a b : list Z) : bool :=
  match a, b with
  | [], _ => true
  | _ :: _, [] => false
  | x :: a, y :: b => if x =? y then strcmp_le a b else x <? y
  end.

Definition name_le (a b : list Z) : Prop := strcmp_le a b = true.

#[global] Instance name_le_dec : RelDecision name_le.
Proof. intros a b. unfold name_le. apply _. Defined.

#[global] Instance name_le_total : Total name_le.
Proof.
  unfold name_le. intros a. induction a as [| x a IH]; intros b; [by left |].
  destruct b as [| y b]; [by right |]. cbn [strcmp_le]. rewrite (Z.eqb_sym y x).
  destruct (Z.eqb_spec x y) as [-> | Hne]; [apply IH |].
  destruct (Z.ltb_spec x y); [by left |]. right. by apply Z.ltb_lt; lia.
Qed.

#[global] Instance name_le_antisymm : AntiSymm (=) name_le.
Proof.
  unfold name_le. intros a. induction a as [| x a IH]; intros [| y b]; cbn [strcmp_le]; try done.
  rewrite (Z.eqb_sym y x). destruct (Z.eqb_spec x y) as [-> | Hne].
  - intros Hab Hba. f_equal. by apply IH.
  - intros ?%Z.ltb_lt ?%Z.ltb_lt. lia.
Qed.

#[global] Instance name_le_trans : Transitive name_le.
Proof.
  unfold name_le. intros a. induction a as [| x a IH]; intros [| y b] [| z c];
    cbn [strcmp_le]; try done.
  destruct (Z.eqb_spec x y) as [-> | Hxy]; destruct (Z.eqb_spec y z) as [-> | Hyz];
    intros H1 H2; try apply Z.ltb_lt in H1; try apply Z.ltb_lt in H2.
  - by eapply IH.
  - destruct (Z.eqb_spec y z); [done |]. by apply Z.ltb_lt.
  - destruct (Z.eqb_spec x z); [done |]. by apply Z.ltb_lt.
  - destruct (Z.eqb_spec x z); [lia |]. apply Z.ltb_lt. lia.
Qed.

Section NameSort.
Context {A : Type} (name : A -> list Z).

Definition by_name (a b : A) : Prop := name_le (name a) (name b).

#[global] Instance by_name_dec : RelDecision by_name.
Proof. intros a b. unfold by_name. apply _. Defined.

#[global] Instance by_name_total : Total by_name.
Proof. intros a b. apply (name_le_total (name a) (name b)). Qed.

Definition name_sort (l : list A) : list A := merge_sort by_name l.

Lemma name_sort_perm l : name_sort l ≡ₚ l.
Proof. apply merge_sort_Permutation. Qed.

Lemma name_sort_sorted l : Sorted name_le (name <$> name_sort l).
Proof.
  pose proof (Sorted_merge_sort by_name l) as Hs. unfold name_sort.
  induction Hs as [| a l' Hs IH Hd]; [constructor |]. constructor; [done |].
  destruct Hd; constructor. done.
Qed.

(** Elements with different names have one sorted order. *)
Lemma name_sorted_unique (l1 l2 : list A) :
  l1 ≡ₚ l2 -> NoDup (name <$> l1) ->
  Sorted name_le (name <$> l1) -> Sorted name_le (name <$> l2) -> l1 = l2.
Proof.
  intros Hp Hnd Hs1 Hs2.
  assert (Hn : name <$> l1 = name <$> l2)
    by (apply (Sorted_unique name_le); [done | done | by apply fmap_Permutation]).
  clear Hs1 Hs2. revert l2 Hp Hn. induction l1 as [| a l1 IH]; intros [| b l2] Hp Hn; try done.
  rewrite !fmap_cons in Hn, Hnd. injection Hn as Hab Hn. apply NoDup_cons in Hnd as [Hna Hnd].
  assert (a = b) as <-.
  { assert (Ha : a ∈ b :: l2) by (rewrite <- Hp; left).
    apply elem_of_cons in Ha as [-> | Ha]; [done |]. destruct Hna. rewrite Hn.
    by apply list_elem_of_fmap_2. }
  f_equal. apply IH; [done | by apply Permutation_cons_inv in Hp | done].
Qed.

Lemma name_sort_unique (l1 l2 : list A) :
  l1 ≡ₚ l2 -> NoDup (name <$> l1) -> name_sort l1 = name_sort l2.
Proof.
  intros Hp Hnd. apply name_sorted_unique; try apply name_sort_sorted.
  - by rewrite !name_sort_perm.
  - by rewrite name_sort_perm.
Qed.
End NameSort.

(** ** The hash function *)

Definition FNV_OFFSET : Z := 1469598103934665603.
Definition FNV_PRIME : Z := 1099511628211.

Fixpoint fnv1a_update (hash : Z) (data : list Z) : Z :=
  match data with
  | [] => hash
  | b :: data => fnv1a_update (usz (Z.lxor hash b * FNV_PRIME)) data
  end.

Definition u64_bytes (value : Z) : list Z :=
  (fun i => u8 (Z.shiftr value (Z.of_nat i * 8))) <$> seq 0 8.

Definition fnv1a_u64 (hash value : Z) : Z := fnv1a_update hash (u64_bytes value).

(** ** Generated content *)

Definition content_start (tx_id file_id : Z) : Z :=
  Z.lxor (Z.lxor 0x9e3779b9 (u32 (Z.shiftl tx_id 8))) file_id.

(** [n] bytes from index [i] on, and the generator after them. *)
Fixpoint content_loop (n : nat) (i x : Z) : list Z * Z :=
  match n with
  | O => ([], x)
  | S n' =>
      let x := u32 (x * 1664525 + 1013904223) in
      let (data, last) := content_loop n' (i + 1) x in
      (Z.lxor (u8 (Z.shiftr x 24)) (u8 i) :: data, last)
  end.

Definition make_content (tx_id file_id size : Z) : list Z :=
  fst (content_loop (Z.to_nat size) 0 (content_start tx_id file_id)).

Abbreviation HASH_CHUNK := 128.

(** The rounds from [off] on, of at most 128 bytes; each hashes a byte at least,
    so that [size] rounds are enough. *)
Fixpoint hash_content_loop (n : nat) (off size x hash : Z) : Z :=
  match n with
  | O => hash
  | S n' =>
      if off <? size then
        let k := if size - off <? HASH_CHUNK then size - off else HASH_CHUNK in
        let (buf, x) := content_loop (Z.to_nat k) off x in
        hash_content_loop n' (off + k) size x (fnv1a_update hash buf)
      else hash
  end.

Definition hash_generated_content (hash tx_id file_id size : Z) : Z :=
  hash_content_loop (Z.to_nat size) 0 size (content_start tx_id file_id) hash.

(** ** The expected files *)

Definition existing_files (model : api_model) : list model_file :=
  List.filter mf_exists model.

Definition hash_model_file (hash : Z) (file : model_file) : Z :=
  let hash := fnv1a_update hash (c_str (mf_name file) ++ [0]) in
  let hash := fnv1a_u64 hash (mf_size file) in
  hash_generated_content hash (mf_tx_id file) (mf_file_id file) (mf_size file).

Definition model_hash (model : api_model) : Z :=
  foldl hash_model_file FNV_OFFSET
    (name_sort (fun f => c_str (mf_name f)) (existing_files model)).

(** ** The files of the file system *)

(** The local [struct fffs_file] of [namespace_hash]. *)
Abbreviation hash_file := 2.
Abbreviation HASH_READ := 97.
Abbreviation HASH_ENTRIES := (API_SWEEP_FILE_COUNT + 8).

Section Namespace.
Context `{Backend} `{!IndexCache} `{Fuel}.

(** The rest of the open file.  Each round reads a byte at least, so that as
    many rounds as bytes are enough. *)
Fixpoint hash_read_loop (n : nat) (remaining hash : Z) : M Z :=
  if 0 <? remaining then
    match n with
    | O => diverge
    | S n' =>
        let want := if remaining <? HASH_READ then remaining else HASH_READ in
        r <- try_ (fffs_read hash_file want) ;;
        match r with
        | inl err => ignore (fffs_close hash_file) ;; fail err
        | inr buf =>
            if (zlen buf =? 0) || (remaining <? zlen buf)
            then ignore (fffs_close hash_file) ;; fail FFFS_ERR_CORRUPT
            else hash_read_loop n' (remaining - zlen buf) (fnv1a_update hash buf)
        end
    end
  else ret hash.

Definition hash_entry (hash : Z) (entry : fffs_stat) : M Z :=
  let hash := fnv1a_update hash (c_str (st_name entry) ++ [0]) in
  let hash := fnv1a_u64 hash (st_size entry) in
  fffs_open hash_file (c_str (st_name entry)) FFFS_O_RDONLY ;;
  hash <- hash_read_loop (Z.to_nat (st_size entry)) (st_size entry) hash ;;
  fffs_close hash_file ;;
  ret hash.

Fixpoint hash_entries (hash : Z) (entries : list fffs_stat) : M Z :=
  match entries with
  | [] => ret hash
  | entry :: entries => hash <- hash_entry hash entry ;; hash_entries hash entries
  end.

Definition namespace_hash : M Z :=
  let* (entries, count) := fffs_list HASH_ENTRIES in
  guard_err (HASH_ENTRIES <? count) FFFS_ERR_CORRUPT ;;
  hash_entries FNV_OFFSET (name_sort (fun e => c_str (st_name e)) entries).
End Namespace.

(** ** Facts *)

Lemma fnv1a_update_app d1 d2 : forall hash,
  fnv1a_update hash (d1 ++ d2) = fnv1a_update (fnv1a_update hash d1) d2.
Proof. induction d1 as [| b d1 IH]; intros hash; [done | apply IH]. Qed.

Lemma content_loop_app n m : forall i x,
  content_loop (n + m) i x =
  (fst (content_loop n i x) ++
     fst (content_loop m (i + Z.of_nat n) (snd (content_loop n i x))),
   snd (content_loop m (i + Z.of_nat n) (snd (content_loop n i x)))).
Proof.
  induction n as [| n IH]; intros i x; cbn [Nat.add content_loop].
  { rewrite Z.add_0_r. cbn [fst snd app]. apply surjective_pairing. }
  cbv zeta. rewrite IH. replace (i + Z.of_nat (S n)) with (i + 1 + Z.of_nat n) by lia.
  by destruct (content_loop n (i + 1) _).
Qed.

Lemma content_loop_length n : forall i x, length (fst (content_loop n i x)) = n.
Proof.
  induction n as [| n IH]; intros i x; [done |]. cbn [content_loop]. cbv zeta.
  specialize (IH (i + 1) (u32 (x * 1664525 + 1013904223))).
  destruct (content_loop n _ _). simpl in *. by rewrite IH.
Qed.

Lemma make_content_length tx_id file_id size : 0 <= size ->
  zlen (make_content tx_id file_id size) = size.
Proof. intros Hs. unfold zlen, make_content. rewrite content_loop_length. lia. Qed.

Lemma hash_content_loop_eq n : forall off size x hash, size - off <= Z.of_nat n ->
  hash_content_loop n off size x hash =
  fnv1a_update hash (fst (content_loop (Z.to_nat (size - off)) off x)).
Proof.
  induction n as [| n IH]; intros off size x hash Hn; cbn [hash_content_loop].
  { by replace (Z.to_nat (size - off)) with O by lia. }
  destruct (Z.ltb_spec off size) as [Hlt | Hge].
  2: { by replace (Z.to_nat (size - off)) with O by lia. }
  cbv zeta. set (k := if size - off <? HASH_CHUNK then size - off else HASH_CHUNK).
  assert (Hk : 0 < k <= size - off).
  { unfold k. destruct (Z.ltb_spec (size - off) HASH_CHUNK); lia. }
  replace (Z.to_nat (size - off)) with (Z.to_nat k + Z.to_nat (size - (off + k)))%nat by lia.
  rewrite content_loop_app. cbn [fst]. rewrite fnv1a_update_app, Z2Nat.id by lia.
  destruct (content_loop (Z.to_nat k) off x) as [buf x']. cbn [fst snd]. apply IH. lia.
Qed.

(** The hash of the generated content, in rounds of 128 bytes with the generator
    carried over, is the hash of the content that the writes take their bytes
    from. *)
Theorem hash_generated_content_is_hash (hash tx_id file_id size : Z) :
  hash_generated_content hash tx_id file_id size =
  fnv1a_update hash (make_content tx_id file_id size).
Proof.
  unfold hash_generated_content, make_content.
  rewrite hash_content_loop_eq by lia. by rewrite Z.sub_0_r.
Qed.

(** A file as the hashes see it: its name, its size and its bytes. *)
Definition hash_named_file (hash : Z) (file : list Z * Z * list Z) : Z :=
  let '(name, size, data) := file in
  fnv1a_update (fnv1a_u64 (fnv1a_update hash (name ++ [0])) size) data.

Definition expected_file (f : model_file) : list Z * Z * list Z :=
  (c_str (mf_name f), mf_size f, make_content (mf_tx_id f) (mf_file_id f) (mf_size f)).

Abbreviation file_name_of := (fun f : list Z * Z * list Z => fst (fst f)).

Lemma foldl_fmap {A B C} (f : A -> B -> A) (g : C -> B) (h : A -> C -> A) l :
  (forall a c, h a c = f a (g c)) -> forall a, foldl h a l = foldl f a (g <$> l).
Proof. intros Heq. induction l as [| c l IH]; intros a; simpl; [done |]. by rewrite Heq, IH. Qed.

(** A sorted list of files that is a permutation of those of the model. *)
Lemma model_hash_sorted model files :
  NoDup (file_name_of <$> files) -> Sorted name_le (file_name_of <$> files) ->
  files ≡ₚ expected_file <$> existing_files model ->
  model_hash model = foldl hash_named_file FNV_OFFSET files.
Proof.
  intros Hnd Hs Hp. unfold model_hash.
  rewrite (foldl_fmap hash_named_file expected_file).
  2: { intros hash f. unfold hash_model_file, hash_named_file, expected_file.
       by rewrite hash_generated_content_is_hash. }
  f_equal. symmetry. eapply (name_sorted_unique file_name_of); [| done | done |].
  - rewrite Hp. by rewrite name_sort_perm.
  - rewrite <- list_fmap_compose. apply (name_sort_sorted (fun f => c_str (mf_name f))).
Qed.

(** *** What the file system shows *)

Section NamespaceFacts.
Context `{Backend} `{!IndexCache} `{Fuel}.

(** The reads of [hash_read_loop] return [data], in pieces. *)
Inductive reads_bytes : Z -> list Z -> world -> world -> Prop :=
| reads_done remaining w : remaining <= 0 -> reads_bytes remaining [] w w
| reads_piece remaining buf rest w w1 w2 :
    0 < remaining ->
    fffs_read hash_file (Z.min remaining HASH_READ) w = (Ok buf, w1) ->
    0 < zlen buf <= remaining ->
    reads_bytes (remaining - zlen buf) rest w1 w2 ->
    reads_bytes remaining (buf ++ rest) w w2.

(** The entry opens, reads as [data] and closes. *)
Definition entry_reads (entry : fffs_stat) (data : list Z) (w w' : world) : Prop :=
  exists w1 w2,
    fffs_open hash_file (c_str (st_name entry)) FFFS_O_RDONLY w = (Ok tt, w1) /\
    reads_bytes (st_size entry) data w1 w2 /\
    fffs_close hash_file w2 = (Ok tt, w').

Inductive entries_read : list (fffs_stat * list Z) -> world -> world -> Prop :=
| read_nil w : entries_read [] w w
| read_cons entry data l w w1 w2 :
    entry_reads entry data w w1 -> entries_read l w1 w2 ->
    entries_read ((entry, data) :: l) w w2.

Definition shown_file (f : fffs_stat * list Z) : list Z * Z * list Z :=
  (c_str (st_name (fst f)), st_size (fst f), snd f).

(** The files that the file system shows to [namespace_hash], sorted. *)
Definition namespace_shows (files : list (list Z * Z * list Z)) (w w' : world) : Prop :=
  exists entries count w1 l,
    fffs_list HASH_ENTRIES w = (Ok (entries, count), w1) /\ count <= HASH_ENTRIES /\
    fst <$> l = name_sort (fun e => c_str (st_name e)) entries /\
    entries_read l w1 w' /\ files = shown_file <$> l.

Lemma hash_read_loop_ok n : forall remaining hash w h w',
  hash_read_loop n remaining hash w = (Ok h, w') ->
  exists data, reads_bytes remaining data w w' /\ h = fnv1a_update hash data.
Proof.
  induction n as [| n IH]; intros remaining hash w h w'; cbn [hash_read_loop];
    destruct (Z.ltb_spec 0 remaining) as [Hpos | Hz].
  1: done.
  1, 3: intros [= <- <-]; exists []; by split; [constructor |].
  cbv zeta. unfold bind at 1, try_.
  replace (if remaining <? HASH_READ then remaining else HASH_READ)
    with (Z.min remaining HASH_READ)
    by (destruct (Z.ltb_spec remaining HASH_READ); lia).
  destruct (fffs_read hash_file (Z.min remaining HASH_READ) w) as [[buf | e |] w1] eqn:Hread;
    [| | done].
  2: { unfold bind, ignore, try_, ret, fail, bind.
       by destruct (fffs_close hash_file w1) as [[] ?]. }
  destruct (Z.eqb_spec (zlen buf) 0); destruct (Z.ltb_spec remaining (zlen buf)); cbn [orb];
    try (unfold bind, ignore, try_, ret, fail, bind;
         by destruct (fffs_close hash_file w1) as [[] ?]).
  pose proof (zlen_nonneg buf). intros Hloop.
  apply IH in Hloop as (rest & Hrest & ->).
  exists (buf ++ rest). split; [| by rewrite fnv1a_update_app]. econstructor; try done. lia.
Qed.

Lemma hash_read_loop_run remaining data w w' : reads_bytes remaining data w w' ->
  forall n hash, remaining <= Z.of_nat n ->
  hash_read_loop n remaining hash w = (Ok (fnv1a_update hash data), w').
Proof.
  induction 1 as [remaining w Hdone | remaining buf rest w w1 w2 Hpos Hread Hlen Hrest IH]; intros n hash Hn.
  { destruct n; cbn [hash_read_loop]; by destruct (Z.ltb_spec 0 remaining); [lia |]. }
  destruct n as [| n]; [lia |]. cbn [hash_read_loop].
  destruct (Z.ltb_spec 0 remaining); [| lia]. cbv zeta. unfold bind at 1, try_.
  replace (if remaining <? HASH_READ then remaining else HASH_READ)
    with (Z.min remaining HASH_READ)
    by (destruct (Z.ltb_spec remaining HASH_READ); lia).
  rewrite Hread. destruct (Z.eqb_spec (zlen buf) 0); [lia |].
  destruct (Z.ltb_spec remaining (zlen buf)); [lia |]. cbn [orb].
  rewrite fnv1a_update_app. apply IH. lia.
Qed.

Lemma hash_entries_ok entries : forall hash w h w',
  hash_entries hash entries w = (Ok h, w') ->
  exists l, fst <$> l = entries /\ entries_read l w w' /\
    h = foldl hash_named_file hash (shown_file <$> l).
Proof.
  induction entries as [| e entries IH]; intros hash w h w'; cbn [hash_entries].
  { intros [= <- <-]. exists []. by repeat split; constructor. }
  unfold bind at 1, hash_entry, bind.
  destruct (fffs_open hash_file (c_str (st_name e)) FFFS_O_RDONLY w)
    as [[[] | err |] w1] eqn:Hopen; [| done | done].
  destruct (hash_read_loop _ _ _ w1) as [[h1 | err |] w2] eqn:Hloop; [| done | done].
  destruct (fffs_close hash_file w2) as [[[] | err |] w3] eqn:Hclose; [| done | done].
  cbn. intros Hrest. apply hash_read_loop_ok in Hloop as (data & Hdata & ->).
  apply IH in Hrest as (l & <- & Hl & ->).
  exists ((e, data) :: l). split; [done |]. split; [| done].
  econstructor; [| done]. by exists w1, w2.
Qed.

Lemma hash_entries_run l w w' : entries_read l w w' -> forall hash,
  hash_entries hash (fst <$> l) w = (Ok (foldl hash_named_file hash (shown_file <$> l)), w').
Proof.
  induction 1 as [w | e data l w w1 w2 (w3 & w4 & Hopen & Hdata & Hclose) Hl IH];
    intros hash; [done |].
  rewrite !fmap_cons. cbn [hash_entries fst]. unfold bind at 1, hash_entry, bind.
  rewrite Hopen. erewrite hash_read_loop_run; [| done | lia]. rewrite Hclose. cbn. apply IH.
Qed.

(** What the hash of the namespace is: that of the files which the file system
    shows, sorted by name; it is found exactly when all of them can be read. *)
Theorem namespace_hash_is_hash h w w' :
  namespace_hash w = (Ok h, w') <->
  exists files, namespace_shows files w w' /\ h = foldl hash_named_file FNV_OFFSET files.
Proof.
  split.
  - unfold namespace_hash, bind. intros Hrun.
    destruct (fffs_list HASH_ENTRIES w) as [[[entries count] | e |] w1] eqn:Hlist; try done.
    unfold guard_err in Hrun. destruct (Z.ltb_spec HASH_ENTRIES count) as [| Hc]; [done |].
    apply hash_entries_ok in Hrun as (l & Hl & Hread & ->).
    exists (shown_file <$> l). split; [| done]. by exists entries, count, w1, l.
  - intros (files & (entries & count & w1 & l & Hlist & Hc & Hl & Hread & ->) & ->).
    unfold namespace_hash, bind. rewrite Hlist. unfold guard_err.
    destruct (Z.ltb_spec HASH_ENTRIES count); [lia |]. cbn. rewrite <- Hl.
    by apply hash_entries_run.
Qed.
End NamespaceFacts.

(** ** The hash of the expected files

    The model's files by slot are those that the accepted steps leave by name,
    so that its hash is that of a file system which shows them. *)

(** Each existing file of the model carries the number of its slot. *)
Definition model_ids (model : api_model) : Prop :=
  forall i f, model !! i = Some f -> mf_exists f = true -> mf_file_id f = Z.of_nat i.

Lemma model_ids_zero : model_ids api_model_zero.
Proof. intros i f Hf He. by apply lookup_replicate_1 in Hf as [-> _]. Qed.

Lemma model_ids_set model i f : model_ids model ->
  (mf_exists f = true -> mf_file_id f = Z.of_nat i) -> model_ids (<[i := f]> model).
Proof.
  intros Hm Hf j g. destruct (decide (i = j)) as [<- | Hne].
  - intros Hj. apply list_lookup_insert_Some in Hj as [(_ & <- & _) | [? _]]; [done | done].
  - rewrite list_lookup_insert_ne by done. apply Hm.
Qed.

Section RunIds.
Context (content : Z -> Z -> Z -> list Z).

(** What holds of an accepted run whose steps have slots and C strings. *)
Record run_named (s : api_run) : Prop := {
  rn_ids : model_ids (ar_model s);
  rn_tx : 0 <= tx_file_id (ar_tx s) /\ c_str (tx_name (ar_tx s)) = tx_name (ar_tx s);
  rn_ns : map_Forall (fun name _ => c_str name = name) (ar_ns s);
}.

Definition step_named (step : api_step) : Prop :=
  0 <= as_file_id step /\ c_str (as_name step) = as_name step.

Lemma run_step_named s step s' : run_named s -> step_named step ->
  run_step content s step = Some s' -> run_named s'.
Proof.
  intros [Hids [Htx Hname] Hns] [Hfid Hsn]. unfold run_step.
  destruct (tx_next content (ar_tx s) step) as [tx |] eqn:Hnext; [| done].
  destruct (step_expected s step); [| done]. intros [= <-].
  split; cbn [ar_model ar_tx ar_ns].
  - unfold model_apply_step. destruct (bool_decide _ && _).
    { apply model_ids_set; [done |]. intros _. cbn. lia. }
    destruct (bool_decide _); [| done]. apply model_ids_set; [done |]. by cbn.
  - unfold tx_next in Hnext. destruct (as_type step);
      repeat case_match; simplify_eq; by cbn.
  - unfold ns_apply_step. destruct (as_type step); try done.
    + by apply map_Forall_insert_2.
    + by apply map_Forall_delete.
Qed.

Lemma run_steps_named steps : forall s s', run_named s -> Forall step_named steps ->
  run_steps content s steps = Some s' -> run_named s'.
Proof.
  induction steps as [| step steps IH]; intros s s' Hs Hst; cbn [run_steps]; [by intros [= <-] |].
  apply Forall_cons in Hst as [Hstep Hst].
  destruct (run_step content s step) as [s1 |] eqn:H1; [| done].
  apply IH; [by eapply run_step_named | done].
Qed.

Lemma run_start_named : run_named run_start.
Proof. split; [apply model_ids_zero | done | apply map_Forall_empty]. Qed.
End RunIds.

(** The files of the namespace, with the content that was written. *)
Definition named_file (f : list Z * (Z * Z * Z)) : list Z * Z * list Z :=
  let '(name, (file_id, tx_id, size)) := f in
  (name, size, make_content tx_id file_id size).

Definition namespace_files (ns : api_namespace) : list (list Z * Z * list Z) :=
  named_file <$> map_to_list ns.

Lemma existing_ids_nodup model : forall k,
  (forall i f, model !! i = Some f -> mf_exists f = true -> mf_file_id f = Z.of_nat (k + i)) ->
  NoDup (existing_files model) /\ Forall (fun f => Z.of_nat k <= mf_file_id f) (existing_files model).
Proof.
  induction model as [| f model IH]; intros k Hk; [split; constructor |].
  destruct (IH (S k)) as [Hnd Hge].
  { intros i g Hg He. rewrite (Hk (S i) g Hg He). lia. }
  unfold existing_files in *. cbn [List.filter].
  assert (Hge' : Forall (fun f => Z.of_nat k <= mf_file_id f) (List.filter mf_exists model)).
  { eapply Forall_impl; [exact Hge |]. cbn. intros g. lia. }
  destruct (mf_exists f) eqn:He; [| done].
  pose proof (Hk O f eq_refl He) as Hf. split; [| constructor; [lia | done]].
  constructor; [| done]. intros Hin. rewrite Forall_forall in Hge. apply Hge in Hin. lia.
Qed.

Lemma tracked_files_perm model ns : model_tracks model ns -> model_ids model ->
  existing_files model ≡ₚ
  (fun f : list Z * (Z * Z * Z) =>
     mk_mfile true (fst (fst (snd f))) (snd (fst (snd f))) (snd (snd f)) (fst f))
    <$> map_to_list ns.
Proof.
  intros Htr Hids. apply NoDup_Permutation.
  - by apply (existing_ids_nodup model 0).
  - apply NoDup_fmap_2; [| apply NoDup_map_to_list].
    intros [n1 [[a1 b1] c1]] [n2 [[a2 b2] c2]]. cbn. by intros [= -> -> -> ->].
  - intros f. unfold existing_files. rewrite list_elem_of_In, filter_In, <- list_elem_of_In.
    rewrite list_elem_of_fmap. split.
    + intros [Hin He]. apply list_elem_of_lookup in Hin as [i Hi].
      destruct f as [ex a b c n]. cbn in He. subst ex.
      exists (n, (a, b, c)). split; [done |]. apply elem_of_map_to_list, Htr. by exists i.
    + intros ([n [[a b] c]] & -> & Hin). apply elem_of_map_to_list, Htr in Hin as [i Hi].
      split; [| done]. by eapply list_elem_of_lookup_2.
Qed.

Lemma expected_files_perm content steps s : Forall step_named steps ->
  run_steps content run_start steps = Some s -> model_tracks (ar_model s) (ar_ns s) ->
  expected_file <$> existing_files (ar_model s) ≡ₚ namespace_files (ar_ns s).
Proof.
  intros Hst Hrun Htr.
  destruct (run_steps_named content steps _ _ run_start_named Hst Hrun) as [Hids _ Hns].
  rewrite (tracked_files_perm _ _ Htr Hids), <- list_fmap_compose. unfold namespace_files.
  apply Permutation_refl'. apply list_fmap_ext. intros i [name [[a b] c]] Hi. cbn.
  apply list_elem_of_lookup_2, elem_of_map_to_list in Hi.
  unfold expected_file. cbn. by rewrite (Hns name _ Hi).
Qed.

Lemma namespace_files_names content steps s : Forall step_named steps ->
  run_steps content run_start steps = Some s ->
  NoDup (file_name_of <$> namespace_files (ar_ns s)).
Proof.
  intros Hst Hrun. unfold namespace_files. rewrite <- list_fmap_compose.
  erewrite (list_fmap_ext _ fst); [apply NoDup_fst_map_to_list |].
  by intros i [name [[a b] c]] _.
Qed.

Section Accepts.
Context `{Backend} `{!IndexCache} `{Fuel}.

Lemma namespace_shows_sorted files w w' : namespace_shows files w w' ->
  Sorted name_le (file_name_of <$> files).
Proof.
  intros (entries & count & w1 & l & _ & _ & Hl & _ & ->).
  rewrite <- list_fmap_compose.
  assert (Heq : file_name_of ∘ shown_file <$> l =
    (fun e => c_str (st_name e)) <$> (fst <$> l)).
  { rewrite <- list_fmap_compose. by apply list_fmap_ext. }
  rewrite Heq, Hl. apply (name_sort_sorted (fun e => c_str (st_name e))).
Qed.

(** C33: The check accepts the right files.  After any steps that are accepted, with
    the files by slot those by name, a file system that shows exactly the files
    that the steps left, in whatever order it lists them, has the hash that the
    model has. *)
Theorem right_files_accepted content steps s files w w' :
  Forall step_named steps -> run_steps content run_start steps = Some s ->
  model_tracks (ar_model s) (ar_ns s) ->
  namespace_shows files w w' -> files ≡ₚ namespace_files (ar_ns s) ->
  namespace_hash w = (Ok (model_hash (ar_model s)), w').
Proof.
  intros Hst Hrun Htr Hshows Hp.
  apply namespace_hash_is_hash. exists files. split; [done |].
  apply model_hash_sorted.
  - rewrite Hp. by eapply namespace_files_names.
  - by eapply namespace_shows_sorted.
  - by rewrite Hp, (expected_files_perm content steps s).
Qed.
End Accepts.
