(* ===== verification/ApiSweep.v ===== *)
(** * The API crash sweep

    [src/tools/fffs_api_crash_sweep.c], the run of one workload: each step is
    executed on the file system, with the sampler tearing its programs and
    erases; then, for each program and erase that it made, it is executed again
    on a copy of the running system, open handle included, where the power is
    lost just after that operation; what the copy leaves is mounted and must
    have the hash of the files from before or from after the step.

    The counters are the state of the harness's callback.  A failed assertion of
    the block device and a call out of fuel give no result, except in the
    callback, where they count as a failure of the case.  Not modelled: the
    messages and the images that are written out for a failure (which read
    through the file system under test), the progress reports, the failure of an
    allocation. *)

From S2P Require Export ApiHash Inspect.

#[local] Open Scope Z_scope.
#[local] Open Scope fffs_scope.

(** ** Data *)

Abbreviation API_SWEEP_SCRATCH_SIZE := 4096.
Abbreviation API_SWEEP_ALLOC_MAP_WORDS := 512.
Abbreviation API_SWEEP_MAX_CRASH_POINTS := 262144.

Record crash_point : Type := mk_crash_point {
  cp_sequence : Z;
  cp_allowed_a : Z;
  cp_allowed_b : Z;
  cp_workload_id : Z;
  cp_step_index : Z;
  cp_step_type : api_step_type;
}.

Record wear_stats : Type := mk_wear_stats {
  wr_valid : bool;
  wr_seed : Z;
  wr_sectors : Z;
  wr_erased : Z;
  wr_min : Z;
  wr_max : Z;
  wr_total : Z;
}.

Definition wear_stats_zero : wear_stats := mk_wear_stats false 0 0 0 0 0 0.

(** [stats->crash_points++], with [sampled_faults] and [invariant_failures]. *)
Definition count_point (sampled failed : bool) (s : api_stats) : api_stats :=
  mk_api_stats (usz (st_crash_points s + 1))
    (if sampled then usz (st_sampled_faults s + 1) else st_sampled_faults s)
    (st_random_workloads s)
    (if failed then usz (st_invariant_failures s + 1) else st_invariant_failures s)
    (st_small_writes s) (st_medium_writes s) (st_large_writes s) (st_churn_deletes s)
    (st_write_bytes s) (st_generated_steps s) (st_truncated_workloads s).

(** ** The flash *)

Definition api_flash_config (config : api_sweep_config) : ffsv_flash_config :=
  let cfg := preset_config FFSV_PRESET_TARGET_NOR_NOTES (api_sweep_image_size config) in
  mk_flash_config (vc_total_size cfg) (ac_sector_size config) (vc_program_granule cfg)
    (vc_erased_value cfg) (vc_erase_cycles cfg) (vc_timing cfg) 300000.

(** The status and, when it is [FFFS_OK], the new flash. *)
Definition new_flash (config : api_sweep_config) : fffs_status * option ffsv_flash :=
  let '(err, _) := ffsv_flash_config_preset FFSV_PRESET_TARGET_NOR_NOTES
                     (api_sweep_image_size config) in
  if negb (err =? FFSV_OK) then (FFFS_ERR_IO, None)
  else let '(err, flash) := ffsv_flash_create (api_flash_config config) in
       if negb (err =? FFSV_OK) then (FFFS_ERR_IO, None) else (FFFS_OK, flash).

Abbreviation api_backend config :=
  (@fffs_host_backend_from_verify_flash api_stats (api_flash_config config)).

(** [struct fffs_file open_file] of [run_steps]; 0 is the null pointer. *)
Abbreviation open_file := 1.

Section ApiSweep.
Context (config : api_sweep_config).
Context {I : @IndexCache (api_backend config)} `{Fuel} (index_heads_count : Z).

#[local] Existing Instance fffs_host_backend_from_verify_flash | 100.

(** Storage and mount; [index_heads_count] is [API_SWEEP_INDEX_HEADS], which the
    index mode sets. *)
Definition api_mount_options : fffs_mount_options :=
  mk_mount_options true (index_cache_required_size (IndexCache := I) index_heads_count)
    index_heads_count (Some (fill API_SWEEP_SCRATCH_SIZE 0)) API_SWEEP_SCRATCH_SIZE false
    (Some (fill API_SWEEP_ALLOC_MAP_WORDS 0)) API_SWEEP_ALLOC_MAP_WORDS.

Definition api_mount_fs : @M (api_backend config) unit := fffs_mount api_mount_options.

(** [struct api_runtime_state]: the flash with the file system and its open
    handle, and the transaction. *)
Abbreviation runtime := (@world (api_backend config) * open_tx)%type.

(** The copy of a running system: the flash without what the harness injects or
    samples, the structure with fresh scratch storage, the handle of the open
    transaction alone. *)
Definition clone_fs (active : bool) (f : fffs_file) (fs : fffs) : fffs :=
  set_open_files (if active && f_open_registered f then open_file else 0)
    (set_scratch (fill API_SWEEP_SCRATCH_SIZE 0) fs).

Definition clone_tx (tx : open_tx) : open_tx :=
  mk_tx (tx_active tx) (tx_file_id tx) (tx_id tx) (tx_size tx) (tx_written tx) (tx_name tx)
    (if tx_active tx then tx_data tx else []).

Definition runtime_clone (r : runtime) : option runtime :=
  let (w, tx) := r in
  match w_ctx w with
  | None => None
  | Some c =>
      let f := file_of (w_files w) open_file in
      Some (mk_world (Some (clone_flash (vs_flash c) (vs_user c)) : @be_ctx (api_backend config))
              (clone_fs (tx_active tx) f (w_fs w))
              (if tx_active tx then {[open_file := set_f_open_next 0 (set_f_fs true f)]} else ∅),
            clone_tx tx)
  end.

(** The transaction after the step; a step that fails is the last one. *)
Definition apply_step (step : api_step) (tx : open_tx) : @M (api_backend config) open_tx :=
  match tx_next make_content tx step with
  | None => fail FFFS_ERR_INVALID
  | Some tx' =>
      match as_type step with
      | API_STEP_OPEN_WRITE =>
          fffs_open open_file (c_str (as_name step))
            (Z.lor (Z.lor FFFS_O_WRONLY FFFS_O_CREATE) FFFS_O_TRUNC)
      | API_STEP_WRITE =>
          fffs_write open_file (sublist (as_offset step) (as_size step) (tx_data tx))
      | API_STEP_CLOSE => fffs_close open_file
      | API_STEP_DELETE =>
          r <- try_ (fffs_delete_file (c_str (as_name step))) ;;
          match r with
          | inl FFFS_ERR_NOT_FOUND | inr _ => ret tt
          | inl err => fail err
          end
      | API_STEP_GC => fffs_gc (as_size step) ;; ret tt
      end ;;
      ret tx'
  end.

(** The inspector's counters that must be zero. *)
Definition image_corrupt (s : fffs_inspect_summary) : bool :=
  negb (ic_corrupt_records (sum_index s) =? 0) ||
  negb (ic_live_entries_corrupt (sum_index s) =? 0) ||
  negb (sc_corrupt (sum_sectors s) =? 0) ||
  negb (mc_corrupt (sum_md s) =? 0).

Definition check_image_ex (allowed_a allowed_b : Z) (allow_raw_corrupt inspect_internals : bool)
  : @M (api_backend config) unit :=
  (if inspect_internals
   then summary <- fffs_inspect_check ;;
        guard_err (negb allow_raw_corrupt && image_corrupt summary) FFFS_ERR_CORRUPT
   else ret tt) ;;
  actual <- namespace_hash ;;
  guard_err (negb ((actual =? allowed_a) || (actual =? allowed_b))) FFFS_ERR_CORRUPT.

(** The callback of the sampler, over the branch of the fault case. *)
Definition verify_sampled_fault (allowed_a allowed_b : Z) (inspect_internals : bool)
    (fault : ffsv_fault_case) (stats : api_stats) : Z * api_stats :=
  let ok :=
    match run_fs api_mount_fs (fresh_fs (mk_vstate (fc_branch fault) sampler_zero stats)) with
    | Some (inr _, w) =>
        match run_fs (check_image_ex allowed_a allowed_b true inspect_internals) w with
        | Some (inr _, _) => true
        | _ => false
        end
    | _ => false
    end in
  (if ok then FFSV_OK else FFSV_ERR_IO, count_point true (negb ok) stats).

(** ** Crash points *)

(** The points of the records of the log; the flag is false when the table is
    full. *)
Fixpoint collect_points (records : list ffsv_op_record) (points : list crash_point)
    (allowed_a allowed_b workload_id step_index : Z) (step_type : api_step_type)
  : bool * list crash_point :=
  match records with
  | [] => (true, points)
  | r :: records =>
      if negb (is_mutation r)
      then collect_points records points allowed_a allowed_b workload_id step_index step_type
      else if API_SWEEP_MAX_CRASH_POINTS <=? zlen points then (false, points)
      else collect_points records
             (points ++ [mk_crash_point (or_sequence r) allowed_a allowed_b workload_id
                           step_index step_type])
             allowed_a allowed_b workload_id step_index step_type
  end.

Definition collect_crash_points (log : list ffsv_op_record) (first : nat)
    (points : list crash_point) (allowed_a allowed_b workload_id step_index : Z)
    (step_type : api_step_type) : result * list crash_point :=
  let (ok, points) := collect_points (drop first log) points allowed_a allowed_b workload_id
                        (u16 step_index) step_type in
  (if ok then inr tt else inl FFFS_ERR_RANGE, points).

Definition cow_failure (sequence : Z) : ffsv_failure_injection :=
  mk_failure true sequence (sweep_op_mask false) FFSV_FAIL_AFTER FFSV_FAIL_WRITE_PREFIX
    FFSV_ERR_INJECTED 0 0.

Definition verify_cow_crash_point (base : runtime) (step : api_step) (point : crash_point)
    (inspect_internals : bool) : option result :=
  match runtime_clone base with
  | None => None
  | Some (w, tx) =>
      match run_fs (apply_step step tx)
              (on_flash (with_failure (cow_failure (cp_sequence point))) w) with
      | None => None
      | Some (_, w) =>
          match w_ctx (on_flash (with_failure failure_zero) w) with
          | None => None
          | Some c =>
              if negb (log_has_injected_sequence (vs_flash c) (cp_sequence point))
              then Some (inl FFFS_ERR_CORRUPT)
              else
                match run_fs api_mount_fs (fresh_fs c) with
                | None => None
                | Some (inl err, _) => Some (inl err)
                | Some (inr _, w) =>
                    match run_fs (check_image_ex (cp_allowed_a point) (cp_allowed_b point)
                                    true inspect_internals) w with
                    | None => None
                    | Some (r, _) => Some (status_of r)
                    end
                end
          end
      end
  end.

(** The points of one step; the first failure ends the loop. *)
Fixpoint verify_points (base : runtime) (step : api_step) (points : list crash_point)
    (inspect_internals : bool) (stats : api_stats) : option (result * api_stats) :=
  match points with
  | [] => Some (inr tt, stats)
  | point :: points =>
      match verify_cow_crash_point base step point inspect_internals with
      | None => None
      | Some err =>
          let stats := count_point false (negb (is_ok err)) stats in
          if is_ok err then verify_points base step points inspect_internals stats
          else Some (err, stats)
      end
  end.

(** ** The steps of a workload *)

Definition api_sampler (before after : Z) (workload_id step_index : Z)
    (sampled_permutations sampled_max_bits : Z) (inspect_internals : bool)
  : @ffsv_fault_sampler api_stats :=
  mk_sampler true (sweep_op_mask true)
    (Z.lxor (Z.lxor 0xa7150000 workload_id) (u32 (step_index * 131)))
    sampled_permutations sampled_max_bits 256
    (Some (verify_sampled_fault before after inspect_internals)).

Definition with_user (stats : api_stats) (c : @vstate api_stats) : @vstate api_stats :=
  mk_vstate (vs_flash c) (vs_sampler c) stats.

(** The variables of the loop. *)
Record sweep_state : Type := mk_sweep {
  sw_runtime : @world (api_backend config) * open_tx;
  sw_model : api_model;
  sw_points : list crash_point;
  sw_stats : api_stats;
}.

(** The running system when step [i] begins, with the sampler on if
    [sampled_permutations] is not zero. *)
Definition step_start (i : Z) (before after : Z) (s : sweep_state)
    (workload_id sampled_permutations sampled_max_bits : Z) (inspect_internals : bool)
  : @world (api_backend config) :=
  let w := on_flash (with_user (sw_stats s)) (fst (sw_runtime s)) in
  if negb (sampled_permutations =? 0)
  then on_flash (with_sampler (api_sampler before after workload_id i
         sampled_permutations sampled_max_bits inspect_internals)) w
  else w.

(** The execution of the step: its status, the system after it, and the log
    after it. *)
Definition execute_step (i : Z) (step : api_step) (before after : Z) (s : sweep_state)
    (workload_id sampled_permutations sampled_max_bits : Z) (inspect_internals : bool)
  : option ((fffs_status + open_tx) * @world (api_backend config) * @vstate api_stats) :=
  match run_fs (apply_step step (snd (sw_runtime s)))
          (step_start i before after s workload_id sampled_permutations sampled_max_bits
             inspect_internals) with
  | None => None
  | Some (r, w) =>
      let w := on_flash (with_sampler sampler_zero) w in
      match w_ctx w with
      | None => None
      | Some c => Some (r, w, c)
      end
  end.

(** One step of the loop of [run_steps]. *)
Definition sweep_step (i : Z) (step : api_step) (s : sweep_state)
    (workload_id sampled_permutations sampled_max_bits : Z) (inspect_internals : bool)
  : option (result * sweep_state) :=
  let (w, tx) := sw_runtime s in
  let after_model := model_apply_step (sw_model s) step tx in
  let before_hash := model_hash (sw_model s) in
  let after_hash := model_hash after_model in
  match w_ctx w, runtime_clone (sw_runtime s) with
  | Some c0, Some base =>
      let log_before := length (vf_log (vs_flash c0)) in
      match execute_step i step before_hash after_hash s workload_id sampled_permutations
              sampled_max_bits inspect_internals with
      | None => None
      | Some (inl err, w, c) =>
          Some (inl err, mk_sweep (w, tx) (sw_model s) (sw_points s) (vs_user c))
      | Some (inr tx, w, c) =>
          let point_start := length (sw_points s) in
          let '(err, points) :=
            collect_crash_points (vf_log (vs_flash c)) log_before (sw_points s)
              before_hash after_hash workload_id i (as_type step) in
          if negb (is_ok err)
          then Some (err, mk_sweep (w, tx) (sw_model s) points (vs_user c))
          else
            match verify_points base step (drop point_start points) inspect_internals
                    (vs_user c) with
            | None => None
            | Some (err, stats) =>
                Some (err, mk_sweep (w, tx) (if is_ok err then after_model else sw_model s)
                             points stats)
            end
      end
  | _, _ => None
  end.

(** The steps from number [i] on; the first failure ends the loop. *)
Fixpoint sweep_steps (i : Z) (steps : list api_step) (s : sweep_state)
    (workload_id sampled_permutations sampled_max_bits : Z) (inspect_internals : bool)
  : option (result * sweep_state) :=
  match steps with
  | [] => Some (inr tt, s)
  | step :: steps =>
      match sweep_step i step s workload_id sampled_permutations sampled_max_bits
              inspect_internals with
      | None => None
      | Some (err, s) =>
          if is_ok err
          then sweep_steps (i + 1) steps s workload_id sampled_permutations sampled_max_bits
                 inspect_internals
          else Some (err, s)
      end
  end.

(** The status, the flash, the crash points and the counters. *)
Definition run_steps (flash : ffsv_flash) (steps : list api_step) (stats : api_stats)
    (workload_id sampled_permutations sampled_max_bits : Z) (inspect_internals : bool)
  : option (result * option ffsv_flash * list crash_point * api_stats) :=
  match run_fs api_mount_fs (fresh_fs (mk_vstate flash sampler_zero stats)) with
  | None => None
  | Some (inl err, w) => Some (inl err, vs_flash <$> w_ctx w, [], stats)
  | Some (inr _, w) =>
      match sweep_steps 0 steps (mk_sweep (w, tx_zero) api_model_zero [] stats) workload_id
              sampled_permutations sampled_max_bits inspect_internals with
      | None => None
      | Some (err, s) =>
          Some (err, vs_flash <$> w_ctx (fst (sw_runtime s)), sw_points s, sw_stats s)
      end
  end.

Definition api_format_options : fffs_format_options :=
  mk_format_options (u8 (ac_index_sectors config)) (ac_format_sector_size config).

(** The status and the flash, when there is one. *)
Definition init_formatted_flash : option (result * option ffsv_flash) :=
  match new_flash config with
  | (err, None) => Some (inl err, None)
  | (_, Some flash) =>
      match run_fs (cfg := api_flash_config config) (fffs_format api_format_options)
              (fresh_fs (mk_vstate flash sampler_zero api_stats_zero)) with
      | Some (r, w) => Some (r, vs_flash <$> w_ctx w)
      | None => None
      end
  end.

(** ** Wear *)

(** The sectors from number [i] on: the sum, the extremes and the number of
    erased ones. *)
Fixpoint wear_loop (n : nat) (i : Z) (flash : ffsv_flash) (acc : wear_stats)
  : option wear_stats :=
  match n with
  | O => Some acc
  | S n' =>
      match ffsv_flash_sector_wear flash i with
      | None => None
      | Some wear =>
          wear_loop n' (i + 1) flash
            (mk_wear_stats (wr_valid acc) (wr_seed acc) (wr_sectors acc)
               (if 0 <? wear then wr_erased acc + 1 else wr_erased acc)
               (if wear <? wr_min acc then wear else wr_min acc)
               (if wr_max acc <? wear then wear else wr_max acc)
               (usz (wr_total acc + wear)))
      end
  end.

(** What [log_flash_wear] stores. *)
Definition log_flash_wear (flash : ffsv_flash) (workload_id : Z) : option wear_stats :=
  let cfg := vf_cfg flash in
  let sector_count := vc_total_size cfg / vc_sector_size cfg in
  wear_loop (Z.to_nat sector_count) 0 flash
    (mk_wear_stats true workload_id sector_count 0 UINT32_MAX 0 0).

(** The status, the crash points, the counters and [*wear_stats], which keeps
    its value when the steps fail. *)
Definition collect_workload_points (steps : list api_step) (stats : api_stats)
    (wear : wear_stats) (workload_id sampled_permutations sampled_max_bits : Z)
    (inspect_internals : bool)
  : option (result * list crash_point * api_stats * wear_stats) :=
  match init_formatted_flash with
  | None => None
  | Some (inl err, _) => Some (inl err, [], stats, wear)
  | Some (inr _, None) => None
  | Some (inr _, Some flash) =>
      match run_steps flash steps stats workload_id sampled_permutations sampled_max_bits
              inspect_internals with
      | None => None
      | Some (inl err, _, points, stats) => Some (inl err, points, stats, wear)
      | Some (inr _, None, _, _) => None
      | Some (inr _, Some flash, points, stats) =>
          match log_flash_wear flash workload_id with
          | None => None
          | Some wear => Some (inr tt, points, stats, wear)
          end
      end
  end.

Definition run_workload (steps : list api_step) (stats : api_stats) (wear : wear_stats)
    (workload_id sampled_permutations sampled_max_bits : Z) (inspect_internals : bool)
  : option (result * api_stats * wear_stats) :=
  match collect_workload_points steps stats wear workload_id sampled_permutations
          sampled_max_bits inspect_internals with
  | None => None
  | Some (err, _, stats, wear) => Some (err, stats, wear)
  end.
End ApiSweep.
