(* ===== verification/ApiVerdict.v ===== *)
(** * What the verdict of the API crash sweep means

    When the run of a workload over [ApiSweep] ends well, every step was
    executed, and each program and each erase that it made has been followed, on
    a copy of the system, by a power loss from which the file system recovers
    the files from before or from after the step, up to their hash.  The sweep
    takes these operations from the log of the harness, which stops at its limit
    and is not cleared between the steps: what the verdict covers is stated over
    the calls that the file system made of the backend ([DeviceCalls]), and the
    room that the log had left for them ([HostCalls]). *)

From S2P Require Export HostCalls ApiSweep.

#[local] Open Scope Z_scope.
#[local] Open Scope fffs_scope.

Section ApiVerdict.
Context (config : api_sweep_config).
Context {I : @IndexCache (api_backend config)} `{!TracedIndex I} `{Fuel}
  (index_heads_count : Z).

#[local] Existing Instance fffs_host_backend_from_verify_flash | 100.
#[local] Abbreviation runtime := (@world (api_backend config) * open_tx)%type.

(** The image of [c] mounts, and its files are those of one of the two models,
    as far as the hash tells: *)
Definition image_matches (before after : api_model) (inspect_internals : bool)
    (c : @vstate api_stats) : Prop :=
  exists w1 w2 w3 files,
    run_fs (api_mount_fs config index_heads_count) (fresh_fs c) = Some (inr tt, w1) /\
    (if inspect_internals then exists summary, fffs_inspect_check w1 = (Ok summary, w2)
     else w2 = w1) /\
    namespace_shows files w2 w3 /\
    (foldl hash_named_file FNV_OFFSET files = model_hash before \/
     foldl hash_named_file FNV_OFFSET files = model_hash after).

(** The power loss after the operation number [sequence] of the harness, in the
    execution of [step] on a copy of the system, took place and is recovered. *)
Definition step_recovers (base : runtime) (step : api_step) (before after : api_model)
    (inspect_internals : bool) (sequence : Z) : Prop :=
  exists w tx r w' c,
    runtime_clone config base = Some (w, tx) /\
    run_fs (apply_step config step tx) (on_flash (with_failure (cow_failure sequence)) w) =
      Some (r, w') /\
    w_ctx (on_flash (with_failure failure_zero) w') = Some c /\
    log_has_injected_sequence (vs_flash c) sequence = true /\
    image_matches before after inspect_internals c.

(** What is true of the counters after [points] crash points without failure. *)
Definition counted (points : Z) (s s' : api_stats) : Prop :=
  st_invariant_failures s' = st_invariant_failures s /\
  usz (st_crash_points s') = usz (st_crash_points s + points).

(** The verdict on one step: it was executed on the running system, and the
    programs and erases among the calls that it made of the backend, as many
    calls as the log had room for, are all recovered and counted.  The harness
    has numbered the calls, from the number that the flash had when the step
    began; the log that they leave, which is a part of the device, has a record of
    each. *)
Definition step_verdict (i : Z) (step : api_step) (s s' : sweep_state config)
    (workload_id sampled_permutations sampled_max_bits : Z) (inspect_internals : bool) : Prop :=
  let after := model_apply_step (sw_model config s) step (snd (sw_runtime config s)) in
  let start := step_start config index_heads_count i (model_hash (sw_model config s))
    (model_hash after) s workload_id sampled_permutations sampled_max_bits
    inspect_internals in
  exists base w tx c0 c calls,
    runtime_clone config (sw_runtime config s) = Some base /\
    w_ctx (fst (sw_runtime config s)) = Some c0 /\
    run_fs (apply_step config step (snd (sw_runtime config s))) start =
      Some (inr tx, w) /\
    w_ctx w = Some c /\ w_ctx w = run_calls (w_ctx start) calls /\
    (let points := mutations (log_room (vs_flash c0)) (vf_next_sequence (vs_flash c0))
                     calls in
     Forall (step_recovers base step (sw_model config s) after inspect_internals) points /\
     counted (zlen points) (vs_user c) (sw_stats config s')) /\
    sw_runtime config s' = (on_flash (with_sampler sampler_zero) w, tx) /\
    sw_model config s' = after.

Inductive steps_verdict (workload_id sampled_permutations sampled_max_bits : Z)
    (inspect_internals : bool)
  : Z -> list api_step -> sweep_state config -> sweep_state config -> Prop :=
| verdict_nil i s :
    steps_verdict workload_id sampled_permutations sampled_max_bits inspect_internals i [] s s
| verdict_cons i step steps s s1 s2 :
    step_verdict i step s s1 workload_id sampled_permutations sampled_max_bits
      inspect_internals ->
    steps_verdict workload_id sampled_permutations sampled_max_bits inspect_internals
      (i + 1) steps s1 s2 ->
    steps_verdict workload_id sampled_permutations sampled_max_bits inspect_internals
      i (step :: steps) s s2.

(** ** The parts of the check *)

Lemma check_image_ok a b inspect (w w' : @world (api_backend config)) :
  check_image_ex config a b true inspect w = (Ok tt, w') ->
  exists w2 files,
    (if inspect then exists summary, fffs_inspect_check w = (Ok summary, w2) else w2 = w) /\
    namespace_shows files w2 w' /\
    (foldl hash_named_file FNV_OFFSET files = a \/ foldl hash_named_file FNV_OFFSET files = b).
Proof.
  unfold check_image_ex, bind, guard_err. cbn [negb andb]. intros Hrun.
  assert (Hrest : exists w2,
    (if inspect then exists summary, fffs_inspect_check w = (Ok summary, w2) else w2 = w) /\
    exists h, namespace_hash w2 = (Ok h, w') /\ (h = a \/ h = b)).
  { destruct inspect.
    - destruct (fffs_inspect_check w) as [[summary | e |] w2]; try done. cbn in Hrun.
      exists w2. split; [by exists summary |].
      destruct (namespace_hash w2) as [[h | e |] w3]; try done. exists h.
      destruct (Z.eqb_spec h a), (Z.eqb_spec h b); cbn in Hrun; try done;
        injection Hrun as <-; auto.
    - exists w. split; [done |]. cbn in Hrun.
      destruct (namespace_hash w) as [[h | e |] w3]; try done. exists h.
      destruct (Z.eqb_spec h a), (Z.eqb_spec h b); cbn in Hrun; try done;
        injection Hrun as <-; auto. }
  destruct Hrest as (w2 & Hins & h & Hh & Hab).
  apply namespace_hash_is_hash in Hh as (files & Hshows & ->).
  by exists w2, files.
Qed.

Lemma verify_cow_ok base step seq before after id k ty inspect :
  verify_cow_crash_point config index_heads_count base step
    (mk_crash_point seq (model_hash before) (model_hash after) id k ty) inspect =
    Some (inr tt) ->
  step_recovers base step before after inspect seq.
Proof.
  unfold verify_cow_crash_point, step_recovers, image_matches.
  destruct (runtime_clone config base) as [[w tx] |] eqn:Hclone; [| done].
  cbn [cp_sequence cp_allowed_a cp_allowed_b].
  destruct (run_fs (apply_step config step tx) _) as [[r w'] |] eqn:Hrun; [| done].
  destruct (w_ctx (on_flash (with_failure failure_zero) w')) as [c |] eqn:Hc; [| done].
  destruct (log_has_injected_sequence (vs_flash c) seq) eqn:Hinj; [| done]. simpl negb.
  destruct (run_fs (api_mount_fs _ _) (fresh_fs c)) as [[[e | []] w1] |] eqn:Hm; try done.
  destruct (run_fs (check_image_ex _ _ _ _ _) w1) as [[[e | []] w2] |] eqn:Hch; try done.
  intros _. exists w, tx, r, w', c. repeat (split; [done |]).
  apply run_fs_ok, check_image_ok in Hch as (w3 & files & Hins & Hshows & Hh).
  by exists w1, w3, w2, files.
Qed.

Lemma collect_points_ok records : forall points a b id k ty points',
  collect_points records points a b id k ty = (true, points') ->
  points' = points ++
    ((fun seq => mk_crash_point seq a b id k ty) <$>
       (or_sequence <$> List.filter is_mutation records)).
Proof.
  induction records as [| r records IH]; intros points a b id k ty points';
    cbn [collect_points List.filter]; [intros [= <-]; by rewrite app_nil_r |].
  destruct (is_mutation r); cbn [negb]; [| apply IH].
  destruct (_ <=? _); [done |]. intros Hc. apply IH in Hc as ->.
  by rewrite !fmap_cons, <- app_assoc.
Qed.

Lemma verify_points_ok base step before after id k ty inspect mutations : forall stats stats',
  verify_points config index_heads_count base step
    ((fun seq => mk_crash_point seq (model_hash before) (model_hash after) id k ty)
       <$> mutations) inspect stats = Some (inr tt, stats') ->
  Forall (step_recovers base step before after inspect) mutations /\
  counted (zlen mutations) stats stats'.
Proof.
  induction mutations as [| seq mutations IH]; intros stats stats'.
  { intros [= <-]. split; [constructor |]. split; [done |]. by rewrite Z.add_0_r. }
  rewrite fmap_cons. cbn [verify_points].
  destruct (verify_cow_crash_point _ _ _ _ _ _) as [[e | []] |] eqn:Hv; try done.
  cbn [is_ok negb]. intros Hrest. apply IH in Hrest as (Hrest & Hf & Hp).
  split; [constructor; [by eapply verify_cow_ok | done] |].
  split; [by rewrite Hf |]. rewrite Hp. cbn [count_point st_crash_points].
  rewrite usz_add_l, zlen_cons. f_equal. lia.
Qed.

(** The system records all calls that its log has room for. *)
Definition records_all (r : runtime) : Prop :=
  exists c, w_ctx (fst r) = Some c /\ recording (vs_flash c) /\
    log_limit (vf_cfg (vs_flash c)) = 300000.

Lemma calls_apply step tx : makes_calls (apply_step config step tx).
Proof. calls_tac. Qed.

(** What a call that ends leaves of the log. *)
Lemma run_fs_calls {A} (m : @M (api_backend config) A)
    (w w' : @world (api_backend config)) c0 r :
  makes_calls m -> w_ctx w = Some c0 -> recording (vs_flash c0) ->
  run_fs m w = Some (r, w') ->
  exists calls c, w_ctx w' = run_calls (w_ctx w) calls /\ w_ctx w' = Some c /\
    recording (vs_flash c) /\ vf_cfg (vs_flash c) = vf_cfg (vs_flash c0) /\
    log_key <$> vf_log (vs_flash c) = (log_key <$> vf_log (vs_flash c0)) ++
      (call_key <$> take (log_room (vs_flash c0))
         (numbered (vf_next_sequence (vs_flash c0)) calls)).
Proof.
  intros Hm Hc0 Hr Hrun. destruct (Hm w) as [calls Hcalls].
  assert (exists c, w_ctx w' = Some c /\ snd (m w) = w') as (c & Hc & Hw').
  { unfold run_fs in Hrun. destruct (m w) as [[a | e |] w1]; [| | done];
      destruct (w_ctx w1) as [c |] eqn:Hc; try done; injection Hrun as <- <-; by exists c. }
  rewrite Hw' in Hcalls. exists calls, c. split; [done |]. split; [done |].
  apply (run_calls_books (cfg := api_flash_config config) calls c0); [done |].
  by rewrite <- Hc, Hcalls, Hc0.
Qed.

(** The flash at the beginning of a step. *)
Lemma start_flash i before after s id perms bits inspect c0 :
  w_ctx (fst (sw_runtime config s)) = Some c0 ->
  exists c1, w_ctx (step_start config index_heads_count i before after s id perms bits
    inspect) = Some c1 /\ vs_flash c1 = vs_flash c0.
Proof.
  intros Hc0. unfold step_start, on_flash. rewrite Hc0. cbn [w_ctx].
  destruct (negb (perms =? 0)); by eexists.
Qed.

(** The crash points are the programs and erases that the log has. *)
Lemma points_of_keys l l' room seq calls :
  log_key <$> l' = (log_key <$> l) ++ (call_key <$> take room (numbered seq calls)) ->
  or_sequence <$> List.filter is_mutation (drop (length l) l') = mutations room seq calls.
Proof.
  intros Hkeys. apply mutations_of_keys. rewrite fmap_drop, Hkeys.
  rewrite <- (length_fmap log_key l). by rewrite drop_app_length.
Qed.

Lemma sweep_step_ok i step s s' id perms bits inspect :
  records_all (sw_runtime config s) ->
  sweep_step config index_heads_count i step s id perms bits inspect = Some (inr tt, s') ->
  step_verdict i step s s' id perms bits inspect /\ records_all (sw_runtime config s').
Proof.
  intros (c0 & Hc0 & Hrec & Hlim). unfold sweep_step, step_verdict, execute_step.
  destruct (sw_runtime config s) as [w0 tx0] eqn:Hrt. cbn [fst snd] in *. cbv zeta.
  rewrite Hc0. destruct (runtime_clone config (w0, tx0)) as [base |] eqn:Hb; [| done].
  destruct (run_fs (apply_step config step tx0) _) as [[r w] |] eqn:Hrun; [| done].
  edestruct start_flash as (c1 & Hc1 & Hf1); [rewrite Hrt; exact Hc0 |].
  pose proof Hrun as Hcalls.
  eapply run_fs_calls in Hcalls; [| apply calls_apply | exact Hc1 | by rewrite Hf1].
  destruct Hcalls as (calls & c & Hctx & Hc & Hrec' & Hcfg & Hkeys). rewrite Hf1 in *.
  unfold on_flash at 1. rewrite Hc. cbn [w_ctx].
  destruct r as [e | tx]; [done |]. unfold collect_crash_points.
  destruct (collect_points _ _ _ _ _ _ _) as [[|] points] eqn:Hcol; cbn [is_ok negb]; [| done].
  apply collect_points_ok in Hcol as ->. rewrite drop_app_length.
  change (vs_flash (with_sampler sampler_zero c)) with (vs_flash c).
  rewrite (points_of_keys _ _ _ _ _ Hkeys).
  destruct (verify_points _ _ _ _ _ _ _) as [[[e | []] stats] |] eqn:Hv; try done.
  cbn [is_ok]. intros [= <-]. apply verify_points_ok in Hv as Hok.
  cbn [sw_runtime sw_model sw_stats]. split.
  - eexists base, w, tx, c0, c, calls. by repeat (split; [done |]).
  - exists (with_sampler sampler_zero c). unfold on_flash. rewrite Hc.
    split; [done |]. split; [done |]. cbn. by rewrite Hcfg.
Qed.

Lemma sweep_steps_ok steps id perms bits inspect : forall i s s',
  records_all (sw_runtime config s) ->
  sweep_steps config index_heads_count i steps s id perms bits inspect = Some (inr tt, s') ->
  steps_verdict id perms bits inspect i steps s s'.
Proof.
  induction steps as [| step steps IH]; intros i s s' Hr; cbn [sweep_steps].
  { intros [= <-]. constructor. }
  destruct (sweep_step _ _ _ _ _ _ _ _ _) as [[[e | []] s1] |] eqn:Hs; try done.
  cbn [is_ok]. intros Hrest. apply sweep_step_ok in Hs as [Hs Hr1]; [| done].
  econstructor; [exact Hs | by apply IH].
Qed.

(** The flash that a workload starts on. *)
Lemma formatted_recording r flash :
  init_formatted_flash config = Some (r, Some flash) ->
  recording flash /\ log_limit (vf_cfg flash) = 300000.
Proof.
  unfold init_formatted_flash, new_flash.
  destruct (ffsv_flash_config_preset _ _) as [err0 cfg0].
  destruct (negb (err0 =? FFSV_OK)); [done |]. unfold ffsv_flash_create.
  destruct (negb (checked_config (api_flash_config config) =? 0)).
  { by destruct (negb _). }
  change (negb (FFSV_OK =? FFSV_OK)) with false. cbv beta iota zeta.
  match goal with |- context [fresh_fs (mk_vstate ?f _ _)] => set (flash0 := f) end.
  assert (Hr0 : recording flash0 /\ log_limit (vf_cfg flash0) = 300000).
  { split; [split |]; cbn; try done. }
  destruct Hr0 as [Hr0 Hlim0].
  destruct (run_fs _ _) as [[r0 w] |] eqn:Hrun; [| done].
  eapply run_fs_calls in Hrun as (calls & c & _ & Hc & Hr & Hcfg & _);
    [| apply calls_format | done | exact Hr0].
  rewrite Hc. intros [= _ <-]. split; [done |]. by rewrite Hcfg.
Qed.

(** C32: The verdict on a workload.  When the run of a workload succeeds, a flash was
    created and formatted, which mounted, and every step was executed.  Of the calls
    of the backend that a step made, the sweep covers those for which the
    harness's log still had room: the log takes 300000 records, reads among
    them, and is not cleared.  For every program and every erase among these
    calls, a power loss just after it, in the execution of the step on a copy of
    the running system, was injected and leaves a flash that mounts, that the
    inspector can walk, and whose files have the hash of the expected files from
    before or from after the step; and none of these crash points is counted as
    a failure.  After the 300000 records a step has no crash points, and passes. *)
Theorem api_sweep_verdict steps stats wear workload_id perms bits inspect stats' wear' :
  run_workload config index_heads_count steps stats wear workload_id perms bits inspect =
    Some (inr tt, stats', wear') ->
  exists flash w s,
    init_formatted_flash config = Some (inr tt, Some flash) /\
    log_limit (vf_cfg flash) = 300000 /\
    run_fs (api_mount_fs config index_heads_count)
      (fresh_fs (mk_vstate flash sampler_zero stats)) = Some (inr tt, w) /\
    steps_verdict workload_id perms bits inspect 0 steps
      (mk_sweep config (w, tx_zero) api_model_zero [] stats) s /\
    stats' = sw_stats config s.
Proof.
  unfold run_workload, collect_workload_points.
  destruct (init_formatted_flash config) as [[[e | []] [flash |]] |] eqn:Hinit; try done.
  apply formatted_recording in Hinit as Hrec. destruct Hrec as [Hrec Hlim].
  unfold run_steps.
  destruct (run_fs (api_mount_fs _ _) _) as [[[e | []] w] |] eqn:Hm; try done.
  destruct (sweep_steps _ _ _ _ _ _ _ _ _) as [[[e | []] s] |] eqn:Hs; try done.
  destruct (vs_flash <$> w_ctx (fst (sw_runtime config s))) as [flash' |]; [| done].
  destruct (log_flash_wear flash' workload_id); [| done]. intros [= <- _].
  exists flash, w, s. split; [done |]. split; [done |]. split; [done |]. split; [| done].
  apply sweep_steps_ok in Hs; [done |]. cbn [sw_runtime].
  eapply run_fs_calls in Hm as (calls & c & _ & Hc & Hr & Hcfg & _);
    [| apply calls_mount | done | exact Hrec].
  exists c. split; [done |]. split; [done |]. cbn [vs_flash] in Hcfg. by rewrite Hcfg.
Qed.
End ApiVerdict.
