(* ===== verification/ApiMain.v ===== *)
(** * The driver of the API crash sweep

    [src/tools/fffs_api_crash_sweep.c]: the check of the configuration, the work
    of a thread on one seed, the sums over the threads, and the dispatcher that
    hands the seeds to the threads.

    The threads are an inductive step relation: a step is a critical section of
    the dispatcher's mutex, or the work between two of them.  Theorems hold for
    every interleaving.  Not modelled: the command line, the log files, the
    progress reports and the status table, which nothing reads but the
    reports. *)

From S2P Require Export ApiVerdict.

#[local] Open Scope Z_scope.

(** ** Configuration *)

Abbreviation API_SWEEP_MAX_THREADS := 64.

Definition UINT8_MAX : Z := 255.
Definition SIZE_MAX : Z := 2 ^ 64 - 1.

Definition sector_size_to_format (size : Z) : option Z :=
  if (size =? 256) || (size =? 512) || (size =? 1024) || (size =? 2048) ||
     (size =? 4096) || (size =? 8192)
  then Some size else None.

(** The status and the configuration with its [format_sector_size]. *)
Definition validate_flash_config (config : api_sweep_config) : result * api_sweep_config :=
  match sector_size_to_format (ac_sector_size config) with
  | None => (inl FFFS_ERR_INVALID, config)
  | Some format =>
      let config := mk_api_config (ac_sector_size config) (ac_sector_count config)
                      (ac_index_sectors config) format in
      let bad :=
        (ac_sector_count config =? 0) || (ac_index_sectors config =? 0) ||
        (ac_sector_count config <=? ac_index_sectors config) ||
        (UINT8_MAX <? ac_index_sectors config) ||
        (SIZE_MAX / ac_sector_size config <? ac_sector_count config) ||
        (UINT32_MAX <? api_sweep_image_size config) ||
        (API_SWEEP_ALLOC_MAP_WORDS <? usz (ac_sector_count config + 31) / 32) ||
        (api_sweep_file_data_per_sector config =? 0) ||
        (api_sweep_max_content config =? 0) in
      (if bad then inl FFFS_ERR_INVALID else inr tt, config)
  end.

(** What a configuration that passes the check guarantees. *)
Record config_ok (config : api_sweep_config) : Prop := {
  co_size : sector_size_to_format (ac_sector_size config) = Some (ac_format_sector_size config);
  co_index : 0 < ac_index_sectors config <= 255;
  co_sectors : ac_index_sectors config < ac_sector_count config <= 16384;
}.

Lemma format_size_power size format : sector_size_to_format size = Some format ->
  format = size /\ exists k, 0 <= k <= 5 /\ size = 2 ^ (8 + k).
Proof.
  unfold sector_size_to_format.
  destruct (Z.eqb_spec size 256) as [-> |]; [intros [= <-]; split; [done |]; by exists 0 |].
  destruct (Z.eqb_spec size 512) as [-> |]; [intros [= <-]; split; [done |]; by exists 1 |].
  destruct (Z.eqb_spec size 1024) as [-> |]; [intros [= <-]; split; [done |]; by exists 2 |].
  destruct (Z.eqb_spec size 2048) as [-> |]; [intros [= <-]; split; [done |]; by exists 3 |].
  destruct (Z.eqb_spec size 4096) as [-> |]; [intros [= <-]; split; [done |]; by exists 4 |].
  destruct (Z.eqb_spec size 8192) as [-> |]; [intros [= <-]; split; [done |]; by exists 5 |].
  done.
Qed.

Lemma validate_ok config config' :
  0 <= ac_index_sectors config -> 0 <= ac_sector_count config <= SIZE_MAX ->
  validate_flash_config config = (inr tt, config') ->
  config_ok config' /\ ac_sector_size config' = ac_sector_size config /\
  ac_sector_count config' = ac_sector_count config.
Proof.
  intros Hi Hs. unfold validate_flash_config.
  destruct (sector_size_to_format _) as [format |] eqn:Hf; [| done]. cbv zeta.
  destruct (_ || _) eqn:Hbad; [done |]. intros [= <-].
  rewrite !orb_false_iff in Hbad. cbn [ac_sector_count ac_index_sectors ac_sector_size] in *.
  destruct Hbad as [[[[[[[[H0 H1] H2] H3] H4] H5] H6] _] _].
  apply Z.eqb_neq in H0, H1. apply Z.leb_gt in H2. apply Z.ltb_ge in H3, H4, H5, H6.
  split; [| done]. split; cbn; [done | unfold UINT8_MAX in H3; lia |].
  split; [lia |].
  destruct (format_size_power _ _ Hf) as (_ & k & Hk & Hsz). rewrite Hsz in H4.
  assert (Hle : ac_sector_count config <= SIZE_MAX / 2 ^ 8).
  { etransitivity; [exact H4 |]. apply Z.div_le_compat_l; [unfold SIZE_MAX; lia |].
    split; [lia |]. apply Z.pow_le_mono_r; lia. }
  unfold usz in H6. rewrite Z.mod_small in H6.
  - assert (ac_sector_count config + 31 < (512 + 1) * 32); [| lia].
    pose proof (Z.mod_pos_bound (ac_sector_count config + 31) 32 ltac:(lia)).
    pose proof (Z.div_mod (ac_sector_count config + 31) 32 ltac:(lia)). lia.
  - change (SIZE_MAX / 2 ^ 8) with 72057594037927935 in Hle. lia.
Qed.

Lemma image_size_ok config : config_ok config ->
  api_sweep_image_size config = ac_sector_size config * ac_sector_count config.
Proof.
  intros [Hf Hi Hs]. destruct (format_size_power _ _ Hf) as (_ & k & Hk & Hsz).
  unfold api_sweep_image_size, usz. apply Z.mod_small. rewrite Hsz.
  assert (H1 : 0 < 2 ^ (8 + k)) by lia.
  assert (H2 : 2 ^ (8 + k) <= 2 ^ 13) by (apply Z.pow_le_mono_r; lia).
  change (2 ^ 13) with 8192 in H2. set (p := 2 ^ (8 + k)) in *. clearbody p.
  change (2 ^ 64) with 18446744073709551616. nia.
Qed.

(** A configuration that passes the check is not always one that the flash is
    created with.  The preset checks the size of the image against its own
    sectors of 4096 bytes before the sector size is set: the flash is created
    exactly when the image is a multiple of 4096 bytes, and the run of any
    workload fails with an I/O error otherwise. *)
Theorem new_flash_outcome config : config_ok config ->
  if api_sweep_image_size config mod 4096 =? 0
  then exists flash, new_flash config = (FFFS_OK, Some flash)
  else new_flash config = (FFFS_ERR_IO, None).
Proof.
  intros Hok. pose proof (image_size_ok _ Hok) as Himg. destruct Hok as [Hf [Hi _] [Hs _]].
  destruct (format_size_power _ _ Hf) as (_ & k & Hk & Hsz).
  assert (Hpos : 0 < ac_sector_size config) by (rewrite Hsz; lia).
  assert (Hgran : ac_sector_size config mod 4 = 0).
  { rewrite Hsz, Z.pow_add_r by lia. replace (2 ^ 8 * 2 ^ k) with (64 * 2 ^ k * 4) by lia.
    apply Z.mod_mul. lia. }
  unfold new_flash, ffsv_flash_config_preset, checked_config, preset_config.
  cbn [vc_total_size vc_sector_size vc_program_granule].
  destruct (Z.eqb_spec (api_sweep_image_size config) 0); [nia |]. cbn [orb].
  destruct (Z.eqb_spec (api_sweep_image_size config mod 4096) 0) as [Hz | Hz]; cbn [negb orb].
  2: { done. }
  change (4096 =? 0) with false. change (4 =? 0) with false.
  change (negb (4096 mod 4 =? 0)) with false. cbn [negb orb].
  change (FFSV_OK =? FFSV_OK) with true. cbn [negb].
  unfold ffsv_flash_create, checked_config, api_flash_config, preset_config.
  cbn [vc_total_size vc_sector_size vc_program_granule].
  destruct (Z.eqb_spec (api_sweep_image_size config) 0); [done |].
  destruct (Z.eqb_spec (ac_sector_size config) 0); [lia |]. change (4 =? 0) with false.
  cbn [orb]. rewrite Hgran, Himg, Z.mul_comm, Z.mod_mul by lia. by eexists.
Qed.

Lemma new_flash_outcome_witness :
  new_flash (mk_api_config 256 40 3 256) = (FFFS_ERR_IO, None).
Proof.
  refine (new_flash_outcome (mk_api_config 256 40 3 256) _). by split; cbn; lia || done.
Defined.

(** ** The work on one seed *)

Definition count_run (s : api_stats) : api_stats :=
  mk_api_stats (st_crash_points s) (st_sampled_faults s) (usz (st_random_workloads s + 1))
    (st_invariant_failures s) (st_small_writes s) (st_medium_writes s) (st_large_writes s)
    (st_churn_deletes s) (st_write_bytes s) (st_generated_steps s) (st_truncated_workloads s).

Definition count_generated (count : Z) (truncated : bool) (s : api_stats) : api_stats :=
  mk_api_stats (st_crash_points s) (st_sampled_faults s) (st_random_workloads s)
    (st_invariant_failures s) (st_small_writes s) (st_medium_writes s) (st_large_writes s)
    (st_churn_deletes s) (st_write_bytes s) (usz (st_generated_steps s + count))
    (if truncated then usz (st_truncated_workloads s + 1) else st_truncated_workloads s).

(** The constant fields of [struct dispatcher]. *)
Record sweep_options : Type := mk_sweep_options {
  so_seed_start : Z;
  so_seed_count : Z;
  so_transaction_limit : Z;
  so_target_write_multiple : Z;
  so_max_steps : Z;
  so_sampled_permutations : Z;
  so_sampled_max_bits : Z;
  so_inspect_internals : bool;
}.

Section RunSeed.
Context (config : api_sweep_config) (opts : sweep_options).
Context {I : @IndexCache (api_backend config)} `{Fuel} (index_heads_count : Z).

(** A round of the loop of [random_worker_main]. *)
Definition run_seed (seed : Z) (stats : api_stats) (wear : wear_stats)
  : option (result * api_stats * wear_stats) :=
  let (steps, stats) :=
    churn_workload seed (so_max_steps opts) (so_transaction_limit opts)
      (so_target_write_multiple opts) config stats in
  let stats := count_generated (zlen steps) (zlen steps =? so_max_steps opts) stats in
  match run_workload config index_heads_count steps stats wear seed
          (so_sampled_permutations opts) (so_sampled_max_bits opts)
          (so_inspect_internals opts) with
  | None => None
  | Some (err, stats, wear) => Some (err, count_run stats, wear)
  end.
End RunSeed.

(** ** Sums over the threads *)

Definition stats_add (dst src : api_stats) : api_stats :=
  mk_api_stats
    (usz (st_crash_points dst + st_crash_points src))
    (usz (st_sampled_faults dst + st_sampled_faults src))
    (usz (st_random_workloads dst + st_random_workloads src))
    (usz (st_invariant_failures dst + st_invariant_failures src))
    (usz (st_small_writes dst + st_small_writes src))
    (usz (st_medium_writes dst + st_medium_writes src))
    (usz (st_large_writes dst + st_large_writes src))
    (usz (st_churn_deletes dst + st_churn_deletes src))
    (usz (st_write_bytes dst + st_write_bytes src))
    (usz (st_generated_steps dst + st_generated_steps src))
    (usz (st_truncated_workloads dst + st_truncated_workloads src)).

Record wear_summary : Type := mk_wear_summary {
  wm_samples : Z;
  wm_sectors : Z;
  wm_erased : Z;
  wm_min : Z;
  wm_max : Z;
  wm_total : Z;
}.

Definition wear_summary_zero : wear_summary := mk_wear_summary 0 0 0 0 0 0.

Definition wear_summary_add (summary : wear_summary) (stats : wear_stats) : wear_summary :=
  if negb (wr_valid stats) then summary
  else
    mk_wear_summary (usz (wm_samples summary + 1))
      (usz (wm_sectors summary + wr_sectors stats))
      (usz (wm_erased summary + wr_erased stats))
      (if (wm_samples summary =? 0) || (wr_min stats <? wm_min summary)
       then wr_min stats else wm_min summary)
      (if wm_max summary <? wr_max stats then wr_max stats else wm_max summary)
      (usz (wm_total summary + wr_total stats)).

(** ** The dispatcher

    The fields that change, under the mutex. *)

Record dispatcher : Type := mk_dispatcher {
  dp_next_seed_index : Z;
  dp_err : result;
}.

(** The index and the seed that are handed out. *)
Definition dispatcher_next_seed (opts : sweep_options) (d : dispatcher)
  : option (Z * Z) * dispatcher :=
  if is_ok (dp_err d) && (dp_next_seed_index d <? so_seed_count opts)
  then (Some (dp_next_seed_index d, u32 (so_seed_start opts + u32 (dp_next_seed_index d))),
        mk_dispatcher (usz (dp_next_seed_index d + 1)) (dp_err d))
  else (None, d).

Definition dispatcher_set_error (err : result) (d : dispatcher) : dispatcher :=
  if is_ok err then d
  else if is_ok (dp_err d) then mk_dispatcher (dp_next_seed_index d) err else d.

(** Where a thread is: not created, at its start, before it asks for a seed, at
    work on a seed, before it reports an error, at its end.  [run] is the index
    whose run has failed; [None] is a failed [calloc]. *)
Inductive worker_phase : Type :=
| W_NEW
| W_START
| W_IDLE
| W_RUN (seed_index seed : Z)
| W_FAILED (run : option Z) (err : fffs_status)
| W_DONE.

(** [struct worker_ctx] with the place of the thread. *)
Record worker : Type := mk_worker {
  tw_phase : worker_phase;
  tw_stats : api_stats;
  tw_wear : wear_stats;
}.

Definition worker_zero : worker := mk_worker W_NEW api_stats_zero wear_stats_zero.

Definition set_phase (p : worker_phase) (w : worker) : worker :=
  mk_worker p (tw_stats w) (tw_wear w).

(** What is reported to [dispatcher_set_error]: that the thread [i] could not be
    created or has no memory, or that the run of an index has failed. *)
Inductive error_report : Type :=
| REPORT_NO_THREAD (i : nat)
| REPORT_NO_MEMORY (i : nat)
| REPORT_RUN (index : Z) (err : fffs_status).

(** The state of [run_random]: [started] threads have been created, [spawning]
    holds until all are or one cannot be.  [given], [ended] and [reports] are
    what has happened, in order: the indices handed out, those whose run has
    ended, with its status, and the reports of errors. *)
Record sweep_run : Type := mk_sweep_run {
  dr_disp : dispatcher;
  dr_workers : list worker;
  dr_started : nat;
  dr_spawning : bool;
  dr_err : result;
  dr_given : list Z;
  dr_ended : list (Z * result);
  dr_reports : list error_report;
}.

Definition set_worker (i : nat) (w : worker) (s : sweep_run) : sweep_run :=
  mk_sweep_run (dr_disp s) (<[i := w]> (dr_workers s)) (dr_started s) (dr_spawning s)
    (dr_err s) (dr_given s) (dr_ended s) (dr_reports s).

Section Dispatch.
Context (opts : sweep_options) (thread_count : Z).

(** The work of a thread on a seed, which is [run_seed]. *)
Context (work : Z -> api_stats -> wear_stats -> option (result * api_stats * wear_stats)).

Definition run_start : sweep_run :=
  mk_sweep_run (mk_dispatcher 0 (inr tt)) (replicate (Z.to_nat thread_count) worker_zero)
    0 true (inr tt) [] [] [].

Inductive dispatch_step : sweep_run -> sweep_run -> Prop :=
| step_spawn s w :
    dr_spawning s = true -> dr_workers s !! dr_started s = Some w ->
    dispatch_step s
      (mk_sweep_run (dr_disp s) (<[dr_started s := set_phase W_START w]> (dr_workers s))
         (S (dr_started s)) true (dr_err s) (dr_given s) (dr_ended s) (dr_reports s))
| step_spawn_fails s w :
    dr_spawning s = true -> dr_workers s !! dr_started s = Some w ->
    dispatch_step s
      (mk_sweep_run (dispatcher_set_error (inl FFFS_ERR_IO) (dr_disp s)) (dr_workers s)
         (dr_started s) false (inl FFFS_ERR_IO) (dr_given s) (dr_ended s)
         (dr_reports s ++ [REPORT_NO_THREAD (dr_started s)]))
| step_begin s i w :
    dr_workers s !! i = Some w -> tw_phase w = W_START ->
    dispatch_step s (set_worker i (set_phase W_IDLE w) s)
| step_no_memory s i w :
    dr_workers s !! i = Some w -> tw_phase w = W_START ->
    dispatch_step s (set_worker i (set_phase (W_FAILED None FFFS_ERR_NOMEM) w) s)
| step_next_seed s i w index seed d :
    dr_workers s !! i = Some w -> tw_phase w = W_IDLE ->
    dispatcher_next_seed opts (dr_disp s) = (Some (index, seed), d) ->
    dispatch_step s
      (mk_sweep_run d (<[i := set_phase (W_RUN index seed) w]> (dr_workers s)) (dr_started s)
         (dr_spawning s) (dr_err s) (dr_given s ++ [index]) (dr_ended s) (dr_reports s))
| step_no_seed s i w d :
    dr_workers s !! i = Some w -> tw_phase w = W_IDLE ->
    dispatcher_next_seed opts (dr_disp s) = (None, d) ->
    dispatch_step s (set_worker i (set_phase W_DONE w) s)
| step_work s i w index seed err stats wear :
    dr_workers s !! i = Some w -> tw_phase w = W_RUN index seed ->
    work seed (tw_stats w) (tw_wear w) = Some (err, stats, wear) ->
    dispatch_step s
      (mk_sweep_run (dr_disp s)
         (<[i := mk_worker match err with inr _ => W_IDLE | inl e => W_FAILED (Some index) e end
                   stats wear]> (dr_workers s))
         (dr_started s) (dr_spawning s) (dr_err s) (dr_given s)
         (dr_ended s ++ [(index, err)]) (dr_reports s))
| step_set_error s i w run err :
    dr_workers s !! i = Some w -> tw_phase w = W_FAILED run err ->
    dispatch_step s
      (mk_sweep_run (dispatcher_set_error (inl err) (dr_disp s))
         (<[i := set_phase W_DONE w]> (dr_workers s)) (dr_started s) (dr_spawning s)
         (dr_err s) (dr_given s) (dr_ended s)
         (dr_reports s ++ [match run with
                           | Some index => REPORT_RUN index err
                           | None => REPORT_NO_MEMORY i
                           end])).

Inductive dispatch_reach : sweep_run -> Prop :=
| reach_run_start : dispatch_reach run_start
| reach_run_step s s' : dispatch_reach s -> dispatch_step s s' -> dispatch_reach s'.

(** All created threads are joined. *)
Definition joined (s : sweep_run) : Prop :=
  (dr_spawning s = false \/ dr_started s = length (dr_workers s)) /\
  forall i w, (i < dr_started s)%nat -> dr_workers s !! i = Some w -> tw_phase w = W_DONE.

(** What [run_random] returns and sums up then. *)
Definition run_random_status (s : sweep_run) : result :=
  if is_ok (dp_err (dr_disp s)) then dr_err s else dp_err (dr_disp s).

Definition run_random_stats (stats : api_stats) (s : sweep_run) : api_stats :=
  foldl stats_add stats (tw_stats <$> dr_workers s).

Definition run_random_wear (summary : wear_summary) (s : sweep_run) : wear_summary :=
  foldl wear_summary_add summary (tw_wear <$> dr_workers s).
End Dispatch.
