(* ===== verification/Dispatch.v ===== *)
(** * The threads of the API crash sweep

    Theorems on the dispatcher of [ApiMain], for every interleaving of the
    threads: each seed is handed out once and in order, the first error stays,
    success means that every seed has been run and passed, and the run ends. *)

From S2P Require Export ApiMain.

#[local] Open Scope Z_scope.

(** ** Lists with one element changed *)

Lemma insert_split {A} (l : list A) i x : l !! i = Some x ->
  exists l1 l2, l = l1 ++ x :: l2 /\ forall y, <[i := y]> l = l1 ++ y :: l2.
Proof.
  revert i. induction l as [| a l IH]; intros [| i] Hi; try done.
  - injection Hi as ->. by exists [], l.
  - destruct (IH i Hi) as (l1 & l2 & -> & Hins). exists (a :: l1), l2.
    split; [done |]. intros y. cbn. f_equal. apply Hins.
Qed.

Definition phase_run (w : worker) : option Z :=
  match tw_phase w with W_RUN index _ => Some index | _ => None end.

(** The indices that are being run. *)
Definition running (ws : list worker) : list Z := omap phase_run ws.

Lemma running_insert ws i w w' : ws !! i = Some w -> phase_run w = None ->
  running (<[i := w']> ws) ≡ₚ
  match phase_run w' with Some index => index :: running ws | None => running ws end.
Proof.
  intros Hi Hw. destruct (insert_split ws i w Hi) as (l1 & l2 & -> & ->).
  unfold running. rewrite !omap_app. cbn [omap list_omap]. rewrite Hw.
  destruct (phase_run w') as [index |]; [| done]. by rewrite <- Permutation_middle.
Qed.

Lemma running_insert_run ws i w w' index : ws !! i = Some w -> phase_run w = Some index ->
  phase_run w' = None -> running ws ≡ₚ index :: running (<[i := w']> ws).
Proof.
  intros Hi Hw Hw'. destruct (insert_split ws i w Hi) as (l1 & l2 & -> & ->).
  unfold running. rewrite !omap_app. cbn [omap list_omap]. rewrite Hw, Hw'.
  by rewrite <- Permutation_middle.
Qed.

Lemma running_phase ws i w index : ws !! i = Some w -> phase_run w = Some index ->
  index ∈ running ws.
Proof.
  intros Hi Hw. unfold running. apply list_elem_of_omap. exists w.
  split; [by eapply list_elem_of_lookup_2 | done].
Qed.

Lemma running_none ws : (forall i w, ws !! i = Some w -> phase_run w = None) -> running ws = [].
Proof.
  intros Hws. induction ws as [| w ws IH]; [done |]. unfold running. cbn [omap list_omap].
  rewrite (Hws O w eq_refl). apply IH. intros i. apply (Hws (S i)).
Qed.

(** ** The invariant *)

Section DispatchInv.
Context (opts : sweep_options) (thread_count : Z).
Context (work : Z -> api_stats -> wear_stats -> option (result * api_stats * wear_stats)).
Context (Hcount : 0 <= so_seed_count opts <= SIZE_MAX).

(** The seed of an index. *)
Definition seed_of (index : Z) : Z := u32 (so_seed_start opts + u32 index).

(** The status of a report. *)
Definition report_status (r : error_report) : fffs_status :=
  match r with
  | REPORT_NO_THREAD _ => FFFS_ERR_IO
  | REPORT_NO_MEMORY _ => FFFS_ERR_NOMEM
  | REPORT_RUN _ err => err
  end.

(** What a report says has happened: the creation of the threads ended at the
    thread [i], the thread [i] had been created, or the run of [index] has ended
    with [err]. *)
Definition report_happened (started : nat) (spawning : bool) (ended : list (Z * result))
    (r : error_report) : Prop :=
  match r with
  | REPORT_NO_THREAD i => spawning = false /\ started = i
  | REPORT_NO_MEMORY i => (i < started)%nat
  | REPORT_RUN index err => (index, inl err) ∈ ended
  end.

(** The status of the first report. *)
Definition first_error (reports : list error_report) : result :=
  match reports with [] => inr tt | r :: _ => inl (report_status r) end.

(** A run with its status. *)
Definition run_happened (run : Z * result) : Prop :=
  exists stats wear stats' wear',
    work (seed_of (fst run)) stats wear = Some (snd run, stats', wear').

Record worker_ok (d : dispatcher) (ended : list (Z * result)) (w : worker) : Prop := {
  wo_run : forall index seed, tw_phase w = W_RUN index seed -> seed = seed_of index;
  wo_done : tw_phase w = W_DONE -> is_ok (dp_err d) = true ->
    so_seed_count opts <= dp_next_seed_index d;
  wo_failed : forall run e, tw_phase w = W_FAILED run e ->
    match run with Some index => (index, inl e) ∈ ended | None => e = FFFS_ERR_NOMEM end;
}.

Record dispatch_inv (s : sweep_run) : Prop := {
  di_next : 0 <= dp_next_seed_index (dr_disp s) <= so_seed_count opts;
  di_given : dr_given s = seqZ 0 (dp_next_seed_index (dr_disp s));
  di_split : dr_given s ≡ₚ (fst <$> dr_ended s) ++ running (dr_workers s);
  di_ended : Forall run_happened (dr_ended s);
  di_workers : Forall (worker_ok (dr_disp s) (dr_ended s)) (dr_workers s);
  di_failures : forall index e, (index, inl e) ∈ dr_ended s ->
    is_ok (dp_err (dr_disp s)) = false \/
    exists i w run e', dr_workers s !! i = Some w /\ tw_phase w = W_FAILED run e';
  di_error : dp_err (dr_disp s) = first_error (dr_reports s);
  di_reports : Forall (report_happened (dr_started s) (dr_spawning s) (dr_ended s))
    (dr_reports s);
  di_main : dr_spawning s = false \/ is_ok (dr_err s) = false ->
    is_ok (dp_err (dr_disp s)) = false;
  di_length : length (dr_workers s) = Z.to_nat thread_count;
  di_new : forall i w, dr_workers s !! i = Some w -> (dr_started s <= i)%nat ->
    tw_phase w = W_NEW;
  di_started : forall i w, dr_workers s !! i = Some w -> (i < dr_started s)%nat ->
    tw_phase w <> W_NEW;
  di_bound : (dr_started s <= length (dr_workers s))%nat;
}.

Lemma run_start_inv : dispatch_inv (run_start thread_count).
Proof.
  assert (Hz : forall i w, replicate (Z.to_nat thread_count) worker_zero !! i = Some w ->
    w = worker_zero) by (intros i w Hi; by apply lookup_replicate_1 in Hi as [-> _]).
  split; unfold run_start; cbn -[running]; try done.
  - lia.
  - rewrite running_none; [done |]. by intros i w ->%Hz.
  - apply Forall_lookup. intros i w ->%Hz. by split.
  - intros index e Hin. inversion Hin.
  - by intros [|].
  - by rewrite length_replicate.
  - by intros i w ->%Hz.
  - intros; lia.
  - lia.
Qed.

Lemma first_error_snoc reports r : first_error (reports ++ [r]) =
  if is_ok (first_error reports) then inl (report_status r) else first_error reports.
Proof. by destruct reports. Qed.

Lemma report_mono started started' spawning spawning' ended ended' r :
  (started <= started')%nat -> (spawning = false -> spawning' = false /\ started' = started) ->
  (forall run, run ∈ ended -> run ∈ ended') ->
  report_happened started spawning ended r -> report_happened started' spawning' ended' r.
Proof.
  intros Hs Hsp He. destruct r as [i | i | index e]; cbn [report_happened].
  - intros [H1 <-]. by apply Hsp.
  - lia.
  - apply He.
Qed.

(** The dispatcher only moves forward. *)
Definition disp_le (d d' : dispatcher) : Prop :=
  (is_ok (dp_err d') = true -> is_ok (dp_err d) = true) /\
  dp_next_seed_index d <= dp_next_seed_index d'.

Lemma worker_ok_mono d d' ended ended' w : disp_le d d' ->
  (forall run, run ∈ ended -> run ∈ ended') ->
  worker_ok d ended w -> worker_ok d' ended' w.
Proof.
  intros [Herr Hle] Hsrc [Hrun Hdone Hfail]. split; [done | |].
  - intros Hph Hok. specialize (Hdone Hph (Herr Hok)). lia.
  - intros run e Hph. specialize (Hfail run e Hph). destruct run; auto.
Qed.

Lemma disp_le_refl d : disp_le d d.
Proof. by split; [| lia]. Qed.

Lemma set_error_le e d : disp_le d (dispatcher_set_error (inl e) d).
Proof.
  unfold dispatcher_set_error. cbn [is_ok]. destruct (is_ok (dp_err d)) eqn:Ho.
  - split; cbn; [done | lia].
  - by split; [intros ?; congruence | lia].
Qed.

Lemma set_error_fails e d : is_ok (dp_err (dispatcher_set_error (inl e) d)) = false.
Proof. unfold dispatcher_set_error. cbn [is_ok]. by destruct (is_ok (dp_err d)) eqn:Ho. Qed.

Lemma set_error_first reports r d : dp_err d = first_error reports ->
  dp_err (dispatcher_set_error (inl (report_status r)) d) = first_error (reports ++ [r]).
Proof.
  intros Hd. rewrite first_error_snoc, <- Hd. unfold dispatcher_set_error. cbn [is_ok].
  by destruct (is_ok (dp_err d)).
Qed.

Lemma set_error_next e d :
  dp_next_seed_index (dispatcher_set_error e d) = dp_next_seed_index d.
Proof. unfold dispatcher_set_error. by repeat case_match. Qed.

(** A thread moves on, where nothing is handed out and no run ends. *)
Lemma move_inv s i w w' d started spawning err reports :
  dispatch_inv s -> dr_workers s !! i = Some w ->
  phase_run w = None -> phase_run w' = None ->
  disp_le (dr_disp s) d -> dp_next_seed_index d = dp_next_seed_index (dr_disp s) ->
  dp_err d = first_error reports ->
  Forall (report_happened started spawning (dr_ended s)) reports ->
  (is_ok (dp_err d) = false \/
   ((forall run e, tw_phase w <> W_FAILED run e) /\ spawning = dr_spawning s /\
    err = dr_err s)) ->
  worker_ok d (dr_ended s) w' ->
  (forall j v, <[i := w']> (dr_workers s) !! j = Some v -> (started <= j)%nat ->
     tw_phase v = W_NEW) ->
  (forall j v, <[i := w']> (dr_workers s) !! j = Some v -> (j < started)%nat ->
     tw_phase v <> W_NEW) ->
  (started <= length (dr_workers s))%nat ->
  dispatch_inv (mk_sweep_run d (<[i := w']> (dr_workers s)) started spawning err
                  (dr_given s) (dr_ended s) reports).
Proof.
  intros [Hn Hg Hsp He Hw Hf Hs Hrep Hm Hl Hnew Hst _] Hi Hr Hr' Hle Hnext Hsrc Hrs Herr Hok
    Hnew' Hst' Hb.
  split; cbn [dr_disp dr_workers dr_started dr_spawning dr_err dr_given dr_ended dr_reports];
    try done.
  - by rewrite Hnext.
  - by rewrite Hnext.
  - rewrite (running_insert _ _ _ w' Hi Hr), Hr'. done.
  - apply Forall_insert; [| done]. eapply Forall_impl; [exact Hw |]. intros v.
    by apply worker_ok_mono.
  - intros index e Hin. destruct Herr as [Herr | (Hnf & _ & _)]; [by left |].
    destruct (Hf _ _ Hin) as [Hd | (j & v & run & e' & Hj & Hv)].
    + left. destruct (is_ok (dp_err d)) eqn:Ho; [| done]. destruct Hle as [Hle _].
      by rewrite Hle in Hd.
    + right. exists j, v, run, e'. split; [| done]. rewrite list_lookup_insert_ne; [done |].
      intros ->. rewrite Hi in Hj. injection Hj as ->. by apply (Hnf run e').
  - destruct Herr as [Herr | (_ & -> & ->)]; [done |]. intros Hx. apply Hm in Hx.
    destruct (is_ok (dp_err d)) eqn:Ho; [| done]. destruct Hle as [Hle _]. by rewrite Hle in Hx.
  - by rewrite length_insert.
  - by rewrite length_insert.
Qed.

(** The created threads stay created, the others new. *)
Lemma keep_new s i w w' : dispatch_inv s -> dr_workers s !! i = Some w ->
  tw_phase w <> W_NEW -> tw_phase w' <> W_NEW ->
  (forall j v, <[i := w']> (dr_workers s) !! j = Some v -> (dr_started s <= j)%nat ->
     tw_phase v = W_NEW) /\
  (forall j v, <[i := w']> (dr_workers s) !! j = Some v -> (j < dr_started s)%nat ->
     tw_phase v <> W_NEW).
Proof.
  intros Hinv Hi Hw Hw'.
  assert (Hlt : (i < dr_started s)%nat).
  { destruct (le_lt_dec (dr_started s) i) as [Hle |]; [| done].
    destruct Hw. by apply (di_new s Hinv i w). }
  split; intros j v Hj Hr; destruct (decide (i = j)) as [<- | Hne].
  - lia.
  - rewrite list_lookup_insert_ne in Hj by done. by apply (di_new s Hinv j v).
  - apply list_lookup_insert_Some in Hj as [(_ & <- & _) | [? _]]; done.
  - rewrite list_lookup_insert_ne in Hj by done. by apply (di_started s Hinv j v).
Qed.

Lemma phase_run_none w : (forall index seed, tw_phase w <> W_RUN index seed) -> phase_run w = None.
Proof. intros Hw. unfold phase_run. destruct (tw_phase w) eqn:Hp; try done. by destruct (Hw seed_index seed). Qed.

(** The same, for a thread that neither runs nor reports, before and after. *)
Lemma move_idle_inv s i w p : dispatch_inv s -> dr_workers s !! i = Some w ->
  (tw_phase w = W_START \/ tw_phase w = W_IDLE) ->
  (p = W_IDLE \/ p = W_FAILED None FFFS_ERR_NOMEM \/
   p = W_DONE /\ (is_ok (dp_err (dr_disp s)) = true ->
      so_seed_count opts <= dp_next_seed_index (dr_disp s))) ->
  dispatch_inv (set_worker i (set_phase p w) s).
Proof.
  intros Hinv Hi Hw Hp.
  destruct (keep_new s i w (set_phase p w) Hinv Hi) as [Hnew Hst].
  { by destruct Hw as [-> | ->]. }
  { by destruct Hp as [-> | [-> | [-> _]]]. }
  apply move_inv with (w := w); try done; try apply disp_le_refl;
    try apply (di_error s Hinv); try apply (di_reports s Hinv); try apply (di_bound s Hinv).
  - unfold phase_run. by destruct Hw as [-> | ->].
  - unfold phase_run, set_phase. by destruct Hp as [-> | [-> | [-> _]]].
  - right. by destruct Hw as [-> | ->].
  - destruct Hp as [-> | [-> | [-> Hd]]]; split; cbn; try done.
    by intros run e [= <- <-].
Qed.

Lemma next_seed_inv s i w index seed d : dispatch_inv s -> dr_workers s !! i = Some w ->
  tw_phase w = W_IDLE -> dispatcher_next_seed opts (dr_disp s) = (Some (index, seed), d) ->
  dispatch_inv (mk_sweep_run d (<[i := set_phase (W_RUN index seed) w]> (dr_workers s))
    (dr_started s) (dr_spawning s) (dr_err s) (dr_given s ++ [index]) (dr_ended s)
    (dr_reports s)).
Proof.
  intros Hinv Hi Hw. unfold dispatcher_next_seed.
  destruct (is_ok (dp_err (dr_disp s))) eqn:Hok; [| done].
  destruct (Z.ltb_spec (dp_next_seed_index (dr_disp s)) (so_seed_count opts)) as [Hlt |];
    cbn [andb]; [| done].
  intros [= <- <- <-]. set (next := dp_next_seed_index (dr_disp s)) in *.
  destruct (keep_new s i w (set_phase (W_RUN next (seed_of next)) w) Hinv Hi) as [Hnew Hst];
    [by rewrite Hw | done |].
  destruct Hinv as [Hn Hg Hsp He Hwk Hf Hs Hrep Hm Hl _ _ Hb]. fold next in Hn, Hg.
  assert (Hwrap : usz (next + 1) = next + 1).
  { unfold usz. apply Z.mod_small. unfold SIZE_MAX in Hcount. lia. }
  split; cbn [dr_disp dr_workers dr_started dr_spawning dr_err dr_given dr_ended dr_reports
              dp_next_seed_index dp_err]; rewrite ?Hwrap; try done; try (by rewrite <- Hs).
  - lia.
  - rewrite Hg, seqZ_app by lia. done.
  - rewrite (running_insert _ _ _ _ Hi); [| unfold phase_run; by rewrite Hw].
    cbn [phase_run set_phase tw_phase].
    rewrite Hsp, <- !Permutation_middle, app_nil_r. done.
  - apply Forall_insert.
    + eapply Forall_impl; [exact Hwk |]. intros v Hv. eapply worker_ok_mono; [| done | exact Hv].
      split; cbn; [done | rewrite ?Hwrap; lia].
    + split; cbn; try done. by intros ? ? [= <- <-].
  - intros j e Hin. destruct (Hf j e Hin) as [Hd | (k & v & run & e' & Hk & Hv)];
      [by rewrite Hok in Hd |].
    right. exists k, v, run, e'. split; [| done]. rewrite list_lookup_insert_ne; [done |].
    intros ->. rewrite Hi in Hk. injection Hk as ->. by rewrite Hw in Hv.
  - by rewrite length_insert.
  - by rewrite length_insert.
Qed.

Lemma work_inv s i w index seed err stats wear : dispatch_inv s ->
  dr_workers s !! i = Some w -> tw_phase w = W_RUN index seed ->
  work seed (tw_stats w) (tw_wear w) = Some (err, stats, wear) ->
  dispatch_inv (mk_sweep_run (dr_disp s)
    (<[i := mk_worker match err with inr _ => W_IDLE | inl e => W_FAILED (Some index) e end
              stats wear]> (dr_workers s))
    (dr_started s) (dr_spawning s) (dr_err s) (dr_given s) (dr_ended s ++ [(index, err)])
    (dr_reports s)).
Proof.
  intros Hinv Hi Hw Hwork.
  set (w' := mk_worker match err with inr _ => W_IDLE | inl e => W_FAILED (Some index) e end
    stats wear).
  destruct (keep_new s i w w' Hinv Hi) as [Hnew Hst]; [by rewrite Hw | by destruct err |].
  assert (Hr' : phase_run w' = None) by (unfold phase_run; by destruct err).
  assert (Hr : phase_run w = Some index) by (unfold phase_run; by rewrite Hw).
  destruct Hinv as [Hn Hg Hsp He Hwk Hf Hs Hrep Hm Hl _ _ Hb].
  assert (Hok : worker_ok (dr_disp s) (dr_ended s) w) by (by eapply Forall_lookup_1).
  pose proof (wo_run _ _ _ Hok _ _ Hw) as ->.
  assert (Hsub : forall run, run ∈ dr_ended s -> run ∈ dr_ended s ++ [(index, err)])
    by (intros run Hrun; apply elem_of_app; by left).
  split; cbn [dr_disp dr_workers dr_started dr_spawning dr_err dr_given dr_ended dr_reports];
    try done.
  - rewrite Hsp, (running_insert_run _ _ _ w' index Hi Hr Hr'), fmap_app, <- app_assoc. done.
  - apply Forall_app. split; [done |]. constructor; [| done]. by eexists _, _, _, _.
  - apply Forall_insert.
    + eapply Forall_impl; [exact Hwk |]. intros v. apply worker_ok_mono; [apply disp_le_refl |].
      exact Hsub.
    + destruct err as [e | []]; split; cbn; try done. intros run e' [= <- <-].
      apply elem_of_app. right. by apply list_elem_of_singleton.
  - intros j e [Hin | Hin]%elem_of_app.
    + destruct (Hf j e Hin) as [Hd | (k & v & run & e' & Hk & Hv)]; [by left |].
      right. exists k, v, run, e'. split; [| done]. rewrite list_lookup_insert_ne; [done |].
      intros ->. rewrite Hi in Hk. injection Hk as ->. by rewrite Hw in Hv.
    + apply list_elem_of_singleton in Hin as [= -> <-]. right. exists i, w', (Some index), e.
      split; [| done]. apply list_lookup_insert_eq. by eapply lookup_lt_Some.
  - eapply Forall_impl; [exact Hrep |]. intros r. by apply report_mono.
  - by rewrite length_insert.
  - by rewrite length_insert.
Qed.

Lemma set_error_inv s i w run err : dispatch_inv s -> dr_workers s !! i = Some w ->
  tw_phase w = W_FAILED run err ->
  dispatch_inv (mk_sweep_run (dispatcher_set_error (inl err) (dr_disp s))
    (<[i := set_phase W_DONE w]> (dr_workers s)) (dr_started s) (dr_spawning s)
    (dr_err s) (dr_given s) (dr_ended s)
    (dr_reports s ++ [match run with
                      | Some index => REPORT_RUN index err
                      | None => REPORT_NO_MEMORY i
                      end])).
Proof.
  intros Hinv Hi Hw.
  destruct (keep_new s i w (set_phase W_DONE w) Hinv Hi) as [Hnew Hst]; [by rewrite Hw | done |].
  assert (Hok : worker_ok (dr_disp s) (dr_ended s) w)
    by (eapply Forall_lookup_1; [apply (di_workers s Hinv) | done]).
  apply move_inv with (w := w); try done; try apply disp_le_refl;
    try apply (di_error s Hinv); try apply (di_reports s Hinv); try apply (di_bound s Hinv).
  - unfold phase_run. by rewrite Hw.
  - apply set_error_le.
  - apply set_error_next.
  - pose proof (wo_failed _ _ _ Hok run err Hw) as He.
    destruct run as [index |]; [| subst err].
    + apply (set_error_first _ (REPORT_RUN index err)), (di_error s Hinv).
    + apply (set_error_first _ (REPORT_NO_MEMORY i)), (di_error s Hinv).
  - apply Forall_app. split; [apply (di_reports s Hinv) |]. constructor; [| done].
    pose proof (wo_failed _ _ _ Hok run err Hw) as He. destruct run as [index |]; [done |].
    destruct (le_lt_dec (dr_started s) i) as [Hle |]; [| done].
    by rewrite (di_new s Hinv i w Hi Hle) in Hw.
  - left. apply set_error_fails.
  - split; cbn [tw_phase set_phase]; try done. intros _. by rewrite set_error_fails.
Qed.

Lemma spawn_inv s w : dispatch_inv s -> dr_spawning s = true ->
  dr_workers s !! dr_started s = Some w ->
  dispatch_inv (mk_sweep_run (dr_disp s)
    (<[dr_started s := set_phase W_START w]> (dr_workers s)) (S (dr_started s)) true
    (dr_err s) (dr_given s) (dr_ended s) (dr_reports s)).
Proof.
  intros Hinv Hsp Hi. pose proof (di_new s Hinv _ w Hi ltac:(lia)) as Hw.
  apply move_inv with (w := w); try done; try apply disp_le_refl;
    try apply (di_error s Hinv); try apply (di_reports s Hinv); try apply (di_bound s Hinv).
  - unfold phase_run. by rewrite Hw.
  - eapply Forall_impl; [apply (di_reports s Hinv) |]. intros r.
    apply report_mono; [lia | congruence | done].
  - right. by rewrite Hw, Hsp.
  - intros j v Hj Hr. rewrite list_lookup_insert_ne in Hj by lia. apply (di_new s Hinv j v Hj). lia.
  - intros j v Hj Hr. destruct (decide (dr_started s = j)) as [<- | Hne].
    + apply list_lookup_insert_Some in Hj as [(_ & <- & _) | [? _]]; done.
    + rewrite list_lookup_insert_ne in Hj by done. apply (di_started s Hinv j v Hj). lia.
  - by apply lookup_lt_Some in Hi.
Qed.

Lemma spawn_fails_inv s : dispatch_inv s -> dr_spawning s = true ->
  dispatch_inv (mk_sweep_run (dispatcher_set_error (inl FFFS_ERR_IO) (dr_disp s))
    (dr_workers s) (dr_started s) false (inl FFFS_ERR_IO) (dr_given s) (dr_ended s)
    (dr_reports s ++ [REPORT_NO_THREAD (dr_started s)])).
Proof.
  intros [Hn Hg Hsp He Hwk Hf Hs Hrep Hm Hl Hnew Hst Hb] Hspawn.
  split; cbn [dr_disp dr_workers dr_started dr_spawning dr_err dr_given dr_ended dr_reports];
    rewrite ?set_error_next, ?set_error_fails; try done; try (by left).
  - eapply Forall_impl; [exact Hwk |]. intros v. apply worker_ok_mono; [| done].
    apply set_error_le.
  - by apply (set_error_first _ (REPORT_NO_THREAD (dr_started s))).
  - apply Forall_app. split; [| by repeat constructor].
    eapply Forall_impl; [exact Hrep |]. intros r. apply report_mono; [lia | congruence | done].
Qed.

Lemma dispatch_step_inv s s' : dispatch_inv s -> dispatch_step opts work s s' -> dispatch_inv s'.
Proof.
  intros Hinv Hstep. destruct Hstep as [s w Hsp Hi | s w Hsp Hi | s i w Hi Hw | s i w Hi Hw
    | s i w index seed d Hi Hw Hd | s i w d Hi Hw Hd | s i w index seed err stats wear Hi Hw Hk
    | s i w run err Hi Hw].
  - by apply spawn_inv.
  - by apply spawn_fails_inv.
  - apply move_idle_inv; auto.
  - apply move_idle_inv; auto.
  - by eapply next_seed_inv.
  - apply move_idle_inv; auto. right; right. split; [done |]. intros Hok.
    unfold dispatcher_next_seed in Hd. rewrite Hok in Hd. cbn [andb] in Hd.
    by destruct (Z.ltb_spec (dp_next_seed_index (dr_disp s)) (so_seed_count opts)).
  - by eapply work_inv.
  - by apply set_error_inv.
Qed.

Lemma dispatch_reach_inv s : dispatch_reach opts thread_count work s -> dispatch_inv s.
Proof.
  induction 1 as [| s s' _ IH Hstep]; [apply run_start_inv | by eapply dispatch_step_inv].
Qed.
End DispatchInv.

(** ** The run ends *)

#[global] Instance worker_phase_eq_dec : EqDecision worker_phase.
Proof. solve_decision. Defined.

(** What is left to do in a thread. *)
Definition phase_left (p : worker_phase) : Z :=
  match p with
  | W_NEW => 4
  | W_START | W_RUN _ _ => 3
  | W_IDLE => 2
  | W_FAILED _ _ => 1
  | W_DONE => 0
  end.

Definition workers_left (ws : list worker) : Z :=
  foldr (fun w n => phase_left (tw_phase w) + n) 0 ws.

(** A bound on the number of steps from [s] on. *)
Definition steps_left (opts : sweep_options) (s : sweep_run) : Z :=
  2 * (so_seed_count opts - dp_next_seed_index (dr_disp s)) + workers_left (dr_workers s) +
  (if dr_spawning s then 1 else 0).

Lemma workers_left_cons w ws :
  workers_left (w :: ws) = phase_left (tw_phase w) + workers_left ws.
Proof. done. Qed.

Lemma workers_left_insert ws i w w' : ws !! i = Some w ->
  workers_left (<[i := w']> ws) =
  workers_left ws - phase_left (tw_phase w) + phase_left (tw_phase w').
Proof.
  revert i. induction ws as [| v ws IH]; intros [| i] Hi; try done.
  - injection Hi as ->. cbn. lia.
  - change (<[S i := w']> (v :: ws)) with (v :: <[i := w']> ws).
    rewrite !workers_left_cons, (IH i Hi). lia.
Qed.

Lemma workers_left_nonneg ws : 0 <= workers_left ws.
Proof.
  induction ws as [| w ws IH]; [done |]. rewrite workers_left_cons.
  assert (0 <= phase_left (tw_phase w)) by (by destruct (tw_phase w)). lia.
Qed.

Lemma workers_left_start n : workers_left (replicate n worker_zero) = 4 * Z.of_nat n.
Proof.
  induction n as [| n IH]; [done |]. rewrite replicate_S, workers_left_cons, IH.
  cbn [phase_left tw_phase worker_zero]. lia.
Qed.

Lemma dispatch_step_left opts thread_count work s s' : 0 <= so_seed_count opts <= SIZE_MAX ->
  dispatch_inv opts thread_count work s -> dispatch_step opts work s s' ->
  steps_left opts s' < steps_left opts s.
Proof.
  intros Hc Hinv Hstep. destruct Hstep as [s w Hsp Hi | s w Hsp Hi | s i w Hi Hw | s i w Hi Hw
    | s i w index seed d Hi Hw Hd | s i w d Hi Hw Hd | s i w index seed err stats wear Hi Hw Hk
    | s i w run err Hi Hw]; unfold steps_left, set_worker;
    cbn [dr_disp dr_workers dr_spawning]; rewrite ?set_error_next;
    try (erewrite workers_left_insert by exact Hi); cbn [set_phase tw_phase]; rewrite ?Hw;
    cbn [phase_left]; try lia.
  - rewrite (di_new _ _ _ _ Hinv _ w Hi) by lia. rewrite Hsp. cbn [phase_left]. lia.
  - rewrite Hsp. lia.
  - pose proof (di_next _ _ _ _ Hinv) as Hn. unfold dispatcher_next_seed in Hd.
    destruct (is_ok _); [| done]. destruct (Z.ltb_spec (dp_next_seed_index (dr_disp s))
      (so_seed_count opts)); [| done]. cbn [andb] in Hd. injection Hd as _ _ <-.
    cbn [dp_next_seed_index]. unfold usz. rewrite Z.mod_small by (unfold SIZE_MAX in Hc; lia). lia.
  - destruct err; cbn [phase_left]; lia.
Qed.

(** A thread at its end, or in a run without a result. *)
Definition at_rest (work : Z -> api_stats -> wear_stats ->
    option (result * api_stats * wear_stats)) (w : worker) : Prop :=
  tw_phase w = W_DONE \/
  exists index seed, tw_phase w = W_RUN index seed /\
    work seed (tw_stats w) (tw_wear w) = None.

(** The threads are created, as far as they can be, and all of them rest. *)
Definition halted (work : Z -> api_stats -> wear_stats ->
    option (result * api_stats * wear_stats)) (s : sweep_run) : Prop :=
  (dr_spawning s = false \/ dr_started s = length (dr_workers s)) /\
  forall i w, (i < dr_started s)%nat -> dr_workers s !! i = Some w -> at_rest work w.

(** A thread that is neither at its end nor in a run without a result can go on. *)
Lemma worker_progress opts thread_count work s i w : dispatch_inv opts thread_count work s ->
  (i < dr_started s)%nat -> dr_workers s !! i = Some w ->
  at_rest work w \/ exists s', dispatch_step opts work s s'.
Proof.
  intros Hinv Hlt Hi. unfold at_rest. destruct (tw_phase w) as [| | | index seed | run e |] eqn:Hp.
  - by destruct (di_started _ _ _ _ Hinv i w Hi Hlt).
  - right. eexists. by eapply step_begin.
  - right. destruct (dispatcher_next_seed opts (dr_disp s)) as [[[index seed] |] d] eqn:Hd;
      eexists; [by eapply step_next_seed | by eapply step_no_seed].
  - destruct (work seed (tw_stats w) (tw_wear w)) as [[[err st] wr] |] eqn:Hk.
    + right. eexists. by eapply step_work.
    + left; right. by exists index, seed.
  - right. eexists. by eapply step_set_error.
  - left; by left.
Qed.

(** The same for the first [n] threads together. *)
Lemma workers_progress opts thread_count work s n : dispatch_inv opts thread_count work s ->
  (n <= dr_started s)%nat ->
  (forall i w, (i < n)%nat -> dr_workers s !! i = Some w -> at_rest work w) \/
  exists s', dispatch_step opts work s s'.
Proof.
  intros Hinv. induction n as [| n IH]; [left; intros; lia |]. intros Hle.
  destruct IH as [IH |]; [lia | | by right].
  destruct (dr_workers s !! n) as [w |] eqn:Hw.
  - destruct (worker_progress _ _ _ _ n w Hinv Hle Hw) as [Hend |]; [left | by right].
    intros i v Hlt Hv. destruct (Nat.eq_dec i n) as [-> |]; [| apply (IH i); [lia | done]].
    rewrite Hw in Hv. by injection Hv as <-.
  - left. intros i v Hlt Hv. destruct (Nat.eq_dec i n) as [-> |]; [congruence |].
    apply (IH i); [lia | done].
Qed.

Lemma dispatch_progress opts thread_count work s :
  dispatch_inv opts thread_count work s ->
  halted work s \/ exists s', dispatch_step opts work s s'.
Proof.
  intros Hinv.
  destruct (dr_spawning s) eqn:Hsp; [destruct (dr_workers s !! dr_started s) as [w |] eqn:Hi |].
  { right. eexists. by eapply step_spawn. }
  all: assert (Hall : dr_spawning s = false \/ dr_started s = length (dr_workers s))
    by (try (by left); right; pose proof (di_bound _ _ _ _ Hinv);
        apply lookup_ge_None in Hi; lia).
  all: pose proof (workers_progress _ _ _ _ (dr_started s) Hinv (le_n _)) as Hn.
  all: destruct Hn as [Hdone |]; [left; by split | by right].
Qed.

(** ** Theorems *)

Section DispatchTheorems.
Context (config : api_sweep_config) (opts : sweep_options) (thread_count : Z).
Context {I : @IndexCache (api_backend config)} `{Fuel} (index_heads_count : Z).
#[local] Abbreviation work := (run_seed config opts index_heads_count).
#[local] Abbreviation reach := (dispatch_reach opts thread_count work).

(** Each seed is handed out once.  At any time, whatever the interleaving of the
    threads, the indices handed out are the first ones, in order, without
    repetition; each of them is either being run by one thread or has been run,
    once; and the runs were runs of the workload of that seed. *)
Theorem seeds_handed_once s :
  0 <= so_seed_count opts <= SIZE_MAX -> reach s ->
  dr_given s = seqZ 0 (dp_next_seed_index (dr_disp s)) /\
  dp_next_seed_index (dr_disp s) <= so_seed_count opts /\
  NoDup ((fst <$> dr_ended s) ++ running (dr_workers s)) /\
  dr_given s ≡ₚ (fst <$> dr_ended s) ++ running (dr_workers s) /\
  Forall (run_happened opts work) (dr_ended s).
Proof.
  intros Hc Hs. apply dispatch_reach_inv in Hs as [Hn Hg Hsp He _ _ _ _ _ _ _ _ _]; [| done].
  split; [done |]. split; [lia |]. split; [| done]. rewrite <- Hsp, Hg. apply NoDup_seqZ.
Qed.

Lemma joined_running s : dispatch_inv opts thread_count work s -> joined s ->
  running (dr_workers s) = [].
Proof.
  intros Hinv [_ Hj]. apply running_none. intros i w Hi. unfold phase_run.
  destruct (le_lt_dec (dr_started s) i) as [Hle | Hlt].
  - by rewrite (di_new _ _ _ _ Hinv i w Hi Hle).
  - by rewrite (Hj i w Hlt Hi).
Qed.

(** C35: The verdict of the tool.  When all threads are joined, a status of
    [FFFS_OK] means that every seed has been run, exactly once, and that all of
    these runs have passed.  Any other status is the one of the first error that
    was reported, and what that report says has happened: a thread that could
    not be started ([FFFS_ERR_IO]), a thread without memory ([FFFS_ERR_NOMEM]),
    or the run of a seed, with the status that this run returned. *)
Theorem dispatch_verdict s :
  0 <= so_seed_count opts <= SIZE_MAX -> 1 <= thread_count -> reach s -> joined s ->
  match run_random_status s with
  | inr _ =>
      dr_reports s = [] /\
      (fst <$> dr_ended s) ≡ₚ seqZ 0 (so_seed_count opts) /\
      forall index, 0 <= index < so_seed_count opts ->
        exists stats wear stats' wear',
          work (seed_of opts index) stats wear = Some (inr tt, stats', wear')
  | inl e => exists report later, dr_reports s = report :: later /\
      e = report_status report /\
      match report with
      | REPORT_NO_THREAD i => dr_spawning s = false /\ dr_started s = i
      | REPORT_NO_MEMORY i => (i < dr_started s)%nat
      | REPORT_RUN index err => (index, inl err) ∈ dr_ended s /\
          exists stats wear stats' wear',
            work (seed_of opts index) stats wear = Some (inl err, stats', wear')
      end
  end.
Proof.
  intros Hc Ht Hs Hj. apply dispatch_reach_inv in Hs as Hinv; [| done].
  pose proof (joined_running s Hinv Hj) as Hrun. destruct Hj as [Hall Hdone].
  destruct Hinv as [Hn Hg Hsp He Hwk Hf Herr Hrep Hm Hl Hnew Hst _].
  rewrite Forall_forall in He.
  unfold run_random_status. destruct (is_ok (dp_err (dr_disp s))) eqn:Hok.
  2: { rewrite Herr in Hok |- *. destruct (dr_reports s) as [| report later]; [done |].
       exists report, later. split; [done |]. split; [done |].
       apply Forall_cons in Hrep as [Hrep _]. destruct report as [i | i | index err]; [done.. |].
       split; [done |]. exact (He _ Hrep). }
  assert (Hnone : dr_reports s = []).
  { rewrite Herr in Hok. by destruct (dr_reports s). }
  destruct (dr_err s) as [e | []] eqn:Hmain.
  { by discriminate (Hm (or_intror eq_refl)). }
  assert (Hstarted : dr_started s = length (dr_workers s)).
  { destruct Hall as [Hsp' | Hlen]; [by discriminate (Hm (or_introl Hsp')) | done]. }
  destruct (lookup_lt_is_Some_2 (dr_workers s) 0) as [w0 Hw0]; [lia |].
  assert (Hnext : dp_next_seed_index (dr_disp s) = so_seed_count opts).
  { pose proof (Forall_lookup_1 _ _ _ _ Hwk Hw0) as Hok0.
    pose proof (wo_done _ _ _ _ Hok0 (Hdone O w0 ltac:(lia) Hw0) Hok). lia. }
  rewrite Hrun, app_nil_r in Hsp. rewrite Hg, Hnext in Hsp.
  split; [done |]. split; [done |]. intros index Hidx.
  assert (Hin : index ∈ fst <$> dr_ended s) by (rewrite <- Hsp; by apply elem_of_seqZ; lia).
  apply list_elem_of_fmap in Hin as ([idx err] & -> & Hin).
  pose proof (He _ Hin) as (st & wr & st' & wr' & Hwork).
  cbn [fst snd] in *. destruct err as [e | []]; [| by exists st, wr, st', wr'].
  destruct (Hf _ _ Hin) as [Hd | (i & w & run & e' & Hi & Hw)]; [done |].
  apply lookup_lt_Some in Hi as Hlt. rewrite (Hdone i w ltac:(lia) Hi) in Hw. done.
Qed.

Lemma nsteps_reach n s : nsteps (dispatch_step opts work) n (run_start thread_count) s ->
  reach s.
Proof.
  revert s. induction n as [| n IH]; intros s Hn.
  - inversion Hn. constructor.
  - apply nsteps_inv_r in Hn as (s1 & Hn & Hstep). econstructor; [by apply IH | done].
Qed.

Lemma nsteps_left n s s' : 0 <= so_seed_count opts <= SIZE_MAX ->
  dispatch_inv opts thread_count work s -> nsteps (dispatch_step opts work) n s s' ->
  steps_left opts s' + Z.of_nat n <= steps_left opts s.
Proof.
  intros Hc Hinv Hn. induction Hn as [s | n s s1 s' Hstep _ IH]; [lia |].
  pose proof (dispatch_step_left _ _ _ _ _ Hc Hinv Hstep).
  specialize (IH (dispatch_step_inv _ _ _ Hc _ _ Hinv Hstep)). lia.
Qed.

(** C36: The dispatcher ends.  Whatever the interleaving, the threads take at most
    [2 * seed_count + 4 * thread_count + 1] steps, and there is no deadlock: a
    state in which no thread can go on is one where every thread that was
    created is at its end or is inside the run of a seed that has no result, and
    when no such run is left the threads are joined.  Whether the run of a seed
    ends is not a matter of the dispatcher. *)
Theorem dispatch_terminates (n : nat) s :
  0 <= so_seed_count opts <= SIZE_MAX -> 0 <= thread_count ->
  nsteps (dispatch_step opts work) n (run_start thread_count) s ->
  Z.of_nat n <= 2 * so_seed_count opts + 4 * thread_count + 1 /\
  ((exists s', dispatch_step opts work s s') \/ halted work s) /\
  (halted work s -> running (dr_workers s) = [] -> joined s).
Proof.
  intros Hc Ht Hn. pose proof (run_start_inv opts thread_count work Hc) as Hstart.
  apply nsteps_reach in Hn as Hr. apply dispatch_reach_inv in Hr as Hinv; [| done].
  split; [| split].
  2: { destruct (dispatch_progress _ _ _ _ Hinv); [by right | by left]. }
  2: { intros [Hall Hend] Hrun. split; [done |]. intros i w Hlt Hi.
       destruct (Hend i w Hlt Hi) as [| (index & seed & Hw & _)]; [done |].
       apply running_phase with (index := index) in Hi;
         [| unfold phase_run; by rewrite Hw]. by rewrite Hrun in Hi; apply elem_of_nil in Hi. }
  apply nsteps_left in Hn; [| done | done].
  pose proof (workers_left_nonneg (dr_workers s)). pose proof (di_next _ _ _ _ Hinv).
  unfold steps_left in Hn. cbn [run_start dr_disp dp_next_seed_index dr_workers dr_spawning] in Hn.
  rewrite workers_left_start in Hn. destruct (dr_spawning s); lia.
Qed.
End DispatchTheorems.
