(* ===== verification/ApiRuns.v ===== *)
(** * Runs of the API crash sweep

    The sweep of [ApiSweep] on the file system with the hash-table index,
    evaluated, and the witnesses of the theorems on the sweep. *)

From S2P Require Export Dispatch HashIndex.

#[local] Open Scope Z_scope.

#[local] Existing Instance fffs_host_backend_from_verify_flash | 100.

(** 32 sectors of 256 bytes, two of them for the journal. *)
Definition demo_api_config : api_sweep_config := mk_api_config 256 32 2 256.

Definition demo_api_index : @IndexCache (api_backend demo_api_config) := hash_index.

Definition demo_api_fuel : Fuel := 3000%nat.

(** A build with [FFFS_INDEX_HASH_TABLE_SIZE] set to 16. *)
Abbreviation API_SWEEP_INDEX_HEADS := 16.

(** One seed, twelve steps, one sample of two bits for each operation. *)
Definition sampled_options : sweep_options := mk_sweep_options 1 1 100 2 12 1 2 true.

(** The work of a thread on seed 1, cut after twelve steps: two files are written
    and one is deleted; 37 programs and erases are followed by a power loss and
    torn once, and all 74 images mount and have the hash of the files from
    before or from after the step. *)
Theorem api_sweep_seed_passes :
  @run_seed demo_api_config sampled_options demo_api_index demo_api_fuel
    API_SWEEP_INDEX_HEADS 1 api_stats_zero wear_stats_zero =
    Some (inr tt, mk_api_stats 74 37 1 0 2 0 0 1 143 12 1, mk_wear_stats true 1 32 32 1 2 33).
Proof.
  vm_cast_no_check (eq_refl (Some (inr tt : result, mk_api_stats 74 37 1 0 2 0 0 1 143 12 1,
    mk_wear_stats true 1 32 32 1 2 33))).
Qed.

(** A workload that does not fit its array is cut at the transaction that does
    not, and leaves room: it does not count as truncated. *)
Example truncated_workload_is_short :
  zlen (fst (churn_workload 1 300 100000 2 (mk_api_config 256 256 3 256) api_stats_zero)) = 152.
Proof. vm_cast_no_check (eq_refl 152). Qed.

(** ** Witnesses *)

Definition demo_steps : list api_step :=
  [mk_step API_STEP_OPEN_WRITE 0 5 0 20 [97]; mk_step API_STEP_WRITE 0 5 0 20 [97];
   mk_step API_STEP_CLOSE 0 5 0 0 [97]].

Definition demo_api_flash : ffsv_flash :=
  match init_formatted_flash demo_api_config with
  | Some (inr _, Some flash) => flash
  | _ => mk_flash (api_flash_config demo_api_config)
           (lfs_emubd_create (mk_emubd_config 1 4 256 32 0xff 0
              LFS_EMUBD_BADBLOCK_ERASEERROR))
           0 0 failure_zero [] [] 0 [] 0 staged_zero
  end.

#[local] Abbreviation demo_api_run :=
  (@run_workload demo_api_config demo_api_index demo_api_fuel API_SWEEP_INDEX_HEADS
     demo_steps api_stats_zero wear_stats_zero 1 0 0 true).

Definition run_verdict (r : option (result * api_stats * wear_stats)) : option (result * Z) :=
  match r with
  | Some (err, stats, _) => Some (err, st_crash_points stats)
  | None => None
  end.

Lemma run_verdict_ok r n : run_verdict r = Some (inr tt, n) ->
  exists stats' wear', r = Some (inr tt, stats', wear') /\ st_crash_points stats' = n.
Proof. destruct r as [[[err s] wear] |]; [| done]. intros [= -> <-]. by exists s, wear. Qed.

Lemma demo_verdict_ok : run_verdict demo_api_run = Some (inr tt, 15).
Proof. vm_cast_no_check (eq_refl (Some (inr tt : result, 15))). Qed.

(** The 15 programs and erases of the three steps. *)
Lemma api_sweep_verdict_witness : exists s0 s,
  @steps_verdict demo_api_config demo_api_index demo_api_fuel API_SWEEP_INDEX_HEADS
    1 0 0 true 0 demo_steps s0 s /\
  st_crash_points (sw_stats demo_api_config s0) = 0 /\
  st_crash_points (sw_stats demo_api_config s) = 15.
Proof.
  destruct (run_verdict_ok _ _ demo_verdict_ok) as (stats' & wear' & Hrun & Hn).
  destruct (@api_sweep_verdict demo_api_config demo_api_index hash_traced demo_api_fuel
    API_SWEEP_INDEX_HEADS _ _ _ _ _ _ _ _ _ Hrun) as (flash & w & s & _ & _ & _ & Hs & Heq).
  eexists _, s. split; [exact Hs |]. split; [reflexivity |]. by rewrite <- Heq.
Defined.

(** *** A file system with one file *)

Section Demo.
#[local] Existing Instance demo_api_index.
#[local] Existing Instance demo_api_fuel.

Definition after {A} (m : @M (api_backend demo_api_config) A)
    (w : @world (api_backend demo_api_config)) : @world (api_backend demo_api_config) :=
  snd (m w).

Lemma run_after {A} (m : @M (api_backend demo_api_config) A) w v :
  fst (m w) = Ok v -> m w = (Ok v, after m w).
Proof. unfold after. destruct (m w). by intros [= ->]. Qed.

(** The three steps on a mounted system. *)
Definition demo_session : @M (api_backend demo_api_config) unit :=
  api_mount_fs demo_api_config API_SWEEP_INDEX_HEADS ;;
  tx <- apply_step demo_api_config (nth 0 demo_steps gc_step) tx_zero ;;
  tx <- apply_step demo_api_config (nth 1 demo_steps gc_step) tx ;;
  apply_step demo_api_config (nth 2 demo_steps gc_step) tx ;;
  ret tt.

Definition demo_w0 : @world (api_backend demo_api_config) :=
  after demo_session (fresh_fs (mk_vstate demo_api_flash sampler_zero api_stats_zero)).

Definition demo_entry : fffs_stat := mk_stat [97] 20.
Definition demo_content : list Z := make_content 5 0 20.

Definition demo_w1 := after (fffs_list HASH_ENTRIES) demo_w0.
Definition demo_w2 := after (fffs_open hash_file (c_str [97]) FFFS_O_RDONLY) demo_w1.
Definition demo_w3 := after (fffs_read hash_file (Z.min 20 HASH_READ)) demo_w2.
Definition demo_w4 := after (fffs_close hash_file) demo_w3.

Lemma demo_lists : fst (fffs_list HASH_ENTRIES demo_w0) = Ok ([demo_entry], 1).
Proof. vm_compute. reflexivity. Qed.

Lemma demo_opens : fst (fffs_open hash_file (c_str [97]) FFFS_O_RDONLY demo_w1) = Ok tt.
Proof. vm_compute. reflexivity. Qed.

Lemma demo_reads : fst (fffs_read hash_file (Z.min 20 HASH_READ) demo_w2) = Ok demo_content.
Proof. vm_compute. reflexivity. Qed.

Lemma demo_closes : fst (fffs_close hash_file demo_w3) = Ok tt.
Proof. vm_compute. reflexivity. Qed.

Lemma demo_shows : namespace_shows [([97], 20, demo_content)] demo_w0 demo_w4.
Proof.
  exists [demo_entry], 1, demo_w1, [(demo_entry, demo_content)].
  split; [exact (run_after _ _ _ demo_lists) |]. split; [done |]. split; [done |].
  split; [| done]. econstructor; [| constructor].
  exists demo_w2, demo_w3. split; [exact (run_after _ _ _ demo_opens) |].
  split; [| exact (run_after _ _ _ demo_closes)].
  rewrite <- (app_nil_r demo_content). econstructor; [done | | done | by constructor].
  exact (run_after _ _ _ demo_reads).
Qed.

Definition demo_expected : api_run :=
  default ApiModel.run_start (ApiModel.run_steps make_content ApiModel.run_start demo_steps).

Lemma demo_tracks : model_tracks (ar_model demo_expected) (ar_ns demo_expected).
Proof.
  apply (tracks_set api_model_zero ∅ 0 0 5 20 [97]).
  - intros name f t z. split; [done |]. intros (i & Hi).
    by apply lookup_replicate_1 in Hi as [Hi _].
  - by apply Nat.ltb_lt; vm_compute.
  - intros j g Hj Hg. by apply lookup_replicate_1 in Hj as [-> _].
Qed.

Lemma right_files_accepted_witness :
  namespace_hash demo_w0 = (Ok (model_hash (ar_model demo_expected)), demo_w4).
Proof.
  apply (right_files_accepted make_content demo_steps demo_expected
    [([97], 20, demo_content)]).
  - by repeat constructor.
  - vm_compute. reflexivity.
  - exact demo_tracks.
  - exact demo_shows.
  - vm_compute. reflexivity.
Defined.
End Demo.

(** *** A thread that runs one seed *)

(** One seed, five steps, no samples. *)
Definition short_options : sweep_options := mk_sweep_options 1 1 100 2 5 0 0 true.

Definition short_stats : api_stats := mk_api_stats 15 0 1 0 1 0 0 0 16 5 1.
Definition short_wear : wear_stats := mk_wear_stats true 1 32 32 1 1 32.

#[local] Abbreviation short_work :=
  (@run_seed demo_api_config short_options demo_api_index demo_api_fuel
     API_SWEEP_INDEX_HEADS).

Lemma short_run : short_work 1 api_stats_zero wear_stats_zero =
  Some (inr tt, short_stats, short_wear).
Proof. vm_compute. reflexivity. Qed.

(** The only thread runs the only seed and ends. *)
Definition short_end : sweep_run :=
  mk_sweep_run (mk_dispatcher 1 (inr tt)) [mk_worker W_DONE short_stats short_wear] 1 true
    (inr tt) [0] [(0, inr tt)] [].

(** The states on the way, by the place of the thread. *)
Definition short_at (p : worker_phase) (next : Z) (given : list Z) : sweep_run :=
  mk_sweep_run (mk_dispatcher next (inr tt)) [mk_worker p api_stats_zero wear_stats_zero] 1 true
    (inr tt) given [] [].

Definition short_worked : sweep_run :=
  mk_sweep_run (mk_dispatcher 1 (inr tt)) [mk_worker W_IDLE short_stats short_wear] 1 true
    (inr tt) [0] [(0, inr tt)] [].

Lemma short_steps : nsteps (dispatch_step short_options short_work) 5 (run_start 1) short_end.
Proof.
  apply (nsteps_l _ _ _ (short_at W_START 0 []) _ (step_spawn short_options short_work
    (run_start 1) worker_zero eq_refl eq_refl)).
  apply (nsteps_l _ _ _ (short_at W_IDLE 0 []) _ (step_begin short_options short_work
    (short_at W_START 0 []) 0%nat _ eq_refl eq_refl)).
  apply (nsteps_l _ _ _ (short_at (W_RUN 0 1) 1 [0]) _ (step_next_seed short_options short_work
    (short_at W_IDLE 0 []) 0%nat _ 0 1 (mk_dispatcher 1 (inr tt)) eq_refl eq_refl eq_refl)).
  apply (nsteps_l _ _ _ short_worked _ (step_work short_options short_work
    (short_at (W_RUN 0 1) 1 [0]) 0%nat _ 0 1 (inr tt) short_stats short_wear eq_refl eq_refl short_run)).
  apply (nsteps_l _ _ _ short_end _ (step_no_seed short_options short_work
    short_worked 0%nat _ (mk_dispatcher 1 (inr tt)) eq_refl eq_refl eq_refl)).
  apply nsteps_O.
Qed.

Lemma short_reach : dispatch_reach short_options 1 short_work short_end.
Proof. exact (nsteps_reach _ _ _ _ _ _ short_steps). Qed.

Lemma short_joined : joined short_end.
Proof.
  split; [by right |]. intros i w Hi Hw. cbn in Hi. assert (i = O) as -> by lia.
  by injection Hw as <-.
Qed.

(** The only thread has no memory, reports it and ends. *)
Definition starved_end : sweep_run :=
  mk_sweep_run (mk_dispatcher 0 (inl FFFS_ERR_NOMEM))
    [mk_worker W_DONE api_stats_zero wear_stats_zero] 1 true (inr tt) [] []
    [REPORT_NO_MEMORY 0].

Lemma starved_reach : dispatch_reach short_options 1 short_work starved_end.
Proof.
  apply (reach_run_step _ _ _ (short_at (W_FAILED None FFFS_ERR_NOMEM) 0 [])).
  2: { exact (step_set_error short_options short_work
         (short_at (W_FAILED None FFFS_ERR_NOMEM) 0 []) 0%nat _ None FFFS_ERR_NOMEM
         eq_refl eq_refl). }
  apply (reach_run_step _ _ _ (short_at W_START 0 [])).
  2: { exact (step_no_memory short_options short_work (short_at W_START 0 []) 0%nat _
         eq_refl eq_refl). }
  apply (reach_run_step _ _ _ (run_start 1)); [constructor |].
  exact (step_spawn short_options short_work (run_start 1) worker_zero eq_refl eq_refl).
Qed.

Lemma starved_joined : joined starved_end.
Proof.
  split; [by right |]. intros i w Hi Hw. cbn in Hi. assert (i = O) as -> by lia.
  by injection Hw as <-.
Qed.

Lemma short_count : 0 <= so_seed_count short_options <= SIZE_MAX.
Proof. by unfold SIZE_MAX; cbn; lia. Qed.

Lemma seeds_handed_once_witness : dr_given short_end = seqZ 0 1.
Proof.
  apply (seeds_handed_once demo_api_config short_options 1 API_SWEEP_INDEX_HEADS short_end
    short_count short_reach).
Defined.

Lemma dispatch_verdict_witness :
  (exists stats wear stats' wear', short_work 1 stats wear = Some (inr tt, stats', wear')) /\
  exists report, run_random_status starved_end = inl (report_status report).
Proof.
  split.
  - destruct (dispatch_verdict demo_api_config short_options 1 API_SWEEP_INDEX_HEADS short_end
      short_count (Z.le_refl 1) short_reach short_joined) as (_ & _ & Hruns).
    exact (Hruns 0 (conj (Z.le_refl 0) Z.lt_0_1)).
  - destruct (dispatch_verdict demo_api_config short_options 1 API_SWEEP_INDEX_HEADS starved_end
      short_count (Z.le_refl 1) starved_reach starved_joined) as (report & _ & _ & Hst & _).
    exists report. cbn. by rewrite <- Hst.
Defined.

Lemma dispatch_terminates_witness :
  5 <= 2 * 1 + 4 * 1 + 1 /\
  ((exists s', dispatch_step short_options short_work short_end s') \/
   halted short_work short_end).
Proof.
  destruct (dispatch_terminates demo_api_config short_options 1 API_SWEEP_INDEX_HEADS 5 short_end
    short_count Z.le_0_1 short_steps) as (Hn & Hend & _).
  exact (conj Hn Hend).
Defined.
