(* ===== verification/ChurnProbe.v ===== *)
(** * The churn probe

    [src/tools/fffs_churn_probe.c]: the events of the churn model on a file
    system over the flash harness, with a few steps of the collector after each;
    then the live files are looked up, before and after a new mount, and read
    back.  The counts and the simulated times of the flash are collected by
    class of file, and the log of the harness is sorted into a profile.

    The constants of the build are a record.  A remainder by zero is undefined
    in C; here it has no result, like a call out of fuel.  Not modelled: the
    trace of scopes, which is off by default, the diagnostics of a full file
    system, the printing, and the image that is written at the end. *)

From S2P Require Export ChurnSpec HostRun.

#[local] Open Scope Z_scope.
#[local] Open Scope fffs_scope.

(** ** Data *)

Abbreviation FFFS_MD_SIZE := FFFS_MD_FILE_RECORD_SIZE.

(** The [FFFS_HOST_CHURN_...] constants, and [INDEX_HASH_TABLE_SIZE]. *)
Record churn_build : Type := mk_build {
  cb_flash_size : Z;
  cb_targets : churn_targets;
  cb_max_files : Z;
  cb_gc_steps_per_op : Z;
  cb_scratch_size : Z;
  cb_seed : Z;
  cb_profile : bench_churn_profile_t;
  cb_index_heads : Z;
}.

Record class_stats : Type := mk_class_stats {
  cl_ops : Z;
  cl_bytes : Z;
  cl_ns : Z;
  cl_reads : Z;
  cl_programs : Z;
  cl_erases : Z;
  cl_blank_checks : Z;
}.

Definition class_stats_zero : class_stats := mk_class_stats 0 0 0 0 0 0 0.

Inductive profile_bucket : Type :=
| PROFILE_INDEX_READ
| PROFILE_INDEX_PROGRAM
| PROFILE_MD_TAIL_READ
| PROFILE_MD_TAIL_PROGRAM
| PROFILE_FOOTER_READ
| PROFILE_FOOTER_PROGRAM
| PROFILE_FOOTER_TOMBSTONE
| PROFILE_SECTOR_SCAN_READ
| PROFILE_DATA_READ
| PROFILE_DATA_PROGRAM
| PROFILE_ERASE
| PROFILE_OTHER.

#[global] Instance profile_bucket_eq_dec : EqDecision profile_bucket.
Proof. solve_decision. Defined.

Definition profile_buckets : list profile_bucket :=
  [PROFILE_INDEX_READ; PROFILE_INDEX_PROGRAM; PROFILE_MD_TAIL_READ; PROFILE_MD_TAIL_PROGRAM;
   PROFILE_FOOTER_READ; PROFILE_FOOTER_PROGRAM; PROFILE_FOOTER_TOMBSTONE;
   PROFILE_SECTOR_SCAN_READ; PROFILE_DATA_READ; PROFILE_DATA_PROGRAM; PROFILE_ERASE;
   PROFILE_OTHER].

Record profile_stats : Type := mk_profile_stats {
  pr_calls : Z;
  pr_bytes : Z;
  pr_ns : Z;
}.

Definition profile_stats_zero : profile_stats := mk_profile_stats 0 0 0.

(** [struct profile_stats out[PROFILE_COUNT]] *)
Abbreviation flash_profile := (profile_bucket -> profile_stats).

Definition profile_zero : flash_profile := fun _ => profile_stats_zero.

(** ** Files *)

(** Byte [i] of the pattern. *)
Definition pattern_byte (seed i : Z) : Z := u8 (seed + i * 33 + Z.shiftr i 3).

Definition fill_pattern (size seed : Z) : list Z :=
  (fun i => pattern_byte seed (Z.of_nat i)) <$> seq 0 (Z.to_nat size).

(** The local [struct fffs_file] of the helpers; 0 is the null pointer. *)
Abbreviation probe_file := 1.
Abbreviation PROBE_READ := 1024.

Section Files.
Context `{Backend} `{!IndexCache} `{Fuel}.

Definition write_file (name : list Z) (size seed : Z) : M unit :=
  fffs_open probe_file name
    (Z.lor (Z.lor FFFS_O_WRONLY FFFS_O_CREATE) FFFS_O_TRUNC) ;;
  written <- try_ (fffs_write probe_file (fill_pattern size seed)) ;;
  closed <- try_ (fffs_close probe_file) ;;
  match written, closed with
  | inl err, _ | inr _, inl err => fail err
  | inr _, inr _ => ret tt
  end.

(** The bytes read so far and the rest, up to [expected_size] or more; each
    round reads a byte at least, so that [expected_size] rounds are enough. *)
Fixpoint read_file_loop (n : nat) (expected_size : Z) (buffer : list Z) : M (list Z) :=
  if zlen buffer <? expected_size then
    match n with
    | O => diverge
    | S n' =>
        let chunk := expected_size - zlen buffer in
        let chunk := if PROBE_READ <? chunk then PROBE_READ else chunk in
        r <- try_ (fffs_read probe_file chunk) ;;
        match r with
        | inl err => ignore (fffs_close probe_file) ;; fail err
        | inr data =>
            if zlen data =? 0
            then ignore (fffs_close probe_file) ;; fail FFFS_ERR_IO
            else read_file_loop n' expected_size (buffer ++ data)
        end
    end
  else ret buffer.

(** The comparison of the first [expected_size] bytes. *)
Definition matches_pattern (buffer : list Z) (expected_size seed : Z) : bool :=
  bool_decide (take (Z.to_nat expected_size) buffer = fill_pattern expected_size seed).

Definition read_file (name : list Z) (expected_size seed : Z) : M unit :=
  fffs_open probe_file name FFFS_O_RDONLY ;;
  buffer <- read_file_loop (Z.to_nat expected_size) expected_size [] ;;
  fffs_close probe_file ;;
  guard_err (negb (matches_pattern buffer expected_size seed)) FFFS_ERR_CORRUPT.

Fixpoint list_all_loop (n : nat) (dir : fffs_dir) (count : Z) : M (Z * fffs_dir) :=
  match n with
  | O => diverge
  | S n' =>
      let* (entry, dir) := fffs_dir_read dir in
      match entry with
      | None => ret (count, dir)
      | Some _ => list_all_loop n' dir (count + 1)
      end
  end.

Definition list_all : M Z :=
  let '(err, dir) := fffs_dir_open (Some []) in
  check err ;;
  let* (count, dir) := list_all_loop fuel dir 0 in
  check (fffs_dir_status dir) ;;
  check (fst (fffs_dir_close dir)) ;;
  ret count.

(** The slots in order. *)
Fixpoint validate_live_set (slots : list bench_churn_slot_t) : M unit :=
  match slots with
  | [] => ret tt
  | s :: slots =>
      (if cs_live s
       then exists_ <- fffs_exists (cs_name s) ;;
            guard_err (negb exists_) FFFS_ERR_NOT_FOUND
       else ret tt) ;;
      validate_live_set slots
  end.
End Files.

(** ** Counters and profiles *)

Definition diff_ops (before after : list ffsv_op_counts) : list ffsv_op_counts :=
  zip_with (fun a b => mk_op_counts (usz (oc_calls b - oc_calls a)) (usz (oc_bytes b - oc_bytes a)))
    before after.

Definition calls_of (ops : list ffsv_op_counts) (type : ffsv_op_type) : Z :=
  oc_calls (nth (Z.to_nat (op_code type)) ops (mk_op_counts 0 0)).

(** One operation of a class: its size, its time and its flash operations. *)
Definition add_class_op (size ns : Z) (ops : list ffsv_op_counts) (s : class_stats)
  : class_stats :=
  mk_class_stats (usz (cl_ops s + 1)) (usz (cl_bytes s + size)) (usz (cl_ns s + ns))
    (usz (cl_reads s + calls_of ops FFSV_OP_READ))
    (usz (cl_programs s + calls_of ops FFSV_OP_PROGRAM))
    (usz (cl_erases s + calls_of ops FFSV_OP_ERASE))
    (usz (cl_blank_checks s + calls_of ops FFSV_OP_BLANK_CHECK)).

(** [op_is_at_sector_offset]; no result for a sector size of 0. *)
Definition op_is_at_sector_offset (fs : fffs) (r : ffsv_op_record) (pos size : Z) : option bool :=
  let ss := sector_size (fs_geo fs) in
  if ss =? 0 then None
  else Some ((or_offset r mod ss =? pos) && (or_size r =? size)).

(** The tests of [classify_profile_op] in their order: the type, the place in the
    sector, the bucket. *)
Definition profile_tests (fs : fffs) (r : ffsv_op_record)
  : list (bool * Z * Z * profile_bucket) :=
  let ss := sector_size (fs_geo fs) in
  let md_tail_size := FFFS_MD_SIZE + FFFS_SECTOR_FOOTER_SIZE in
  let md_tail_pos := usz (ss - md_tail_size) in
  let footer_pos := usz (ss - FFFS_SECTOR_FOOTER_SIZE) in
  let tombstone_pos := usz (footer_pos + 4) in
  let read := bool_decide (or_type r = FFSV_OP_READ) in
  let program := bool_decide (or_type r = FFSV_OP_PROGRAM) in
  [(read, md_tail_pos, md_tail_size, PROFILE_MD_TAIL_READ);
   (program, md_tail_pos, md_tail_size, PROFILE_MD_TAIL_PROGRAM);
   (read, footer_pos, FFFS_SECTOR_FOOTER_SIZE, PROFILE_FOOTER_READ);
   (program, footer_pos, FFFS_SECTOR_FOOTER_SIZE, PROFILE_FOOTER_PROGRAM);
   (program, tombstone_pos, 4, PROFILE_FOOTER_TOMBSTONE);
   (read && (index_sectors (fs_geo fs) <=? or_sector r), 0, ss, PROFILE_SECTOR_SCAN_READ)].

Fixpoint first_test (fs : fffs) (r : ffsv_op_record)
    (tests : list (bool * Z * Z * profile_bucket)) : option profile_bucket :=
  match tests with
  | [] => Some (match or_type r with
                | FFSV_OP_READ => PROFILE_DATA_READ
                | FFSV_OP_PROGRAM => PROFILE_DATA_PROGRAM
                | _ => PROFILE_OTHER
                end)
  | (applies, pos, size, bucket) :: tests =>
      if applies : bool then
        match op_is_at_sector_offset fs r pos size with
        | None => None
        | Some true => Some bucket
        | Some false => first_test fs r tests
        end
      else first_test fs r tests
  end.

Definition classify_profile_op (fs : fffs) (r : ffsv_op_record) : option profile_bucket :=
  match or_type r with
  | FFSV_OP_ERASE => Some PROFILE_ERASE
  | _ =>
      if (or_sector r <? index_sectors (fs_geo fs)) && bool_decide (or_type r = FFSV_OP_READ)
      then Some PROFILE_INDEX_READ
      else if (or_sector r <? index_sectors (fs_geo fs)) &&
              bool_decide (or_type r = FFSV_OP_PROGRAM)
      then Some PROFILE_INDEX_PROGRAM
      else first_test fs r (profile_tests fs r)
  end.

Definition add_profile_op (bucket : profile_bucket) (r : ffsv_op_record) (p : flash_profile)
  : flash_profile := fun b =>
  if bool_decide (b = bucket)
  then mk_profile_stats (usz (pr_calls (p b) + 1))
         (usz (pr_bytes (p b) +
               (if negb (or_committed_bytes r =? 0) then or_committed_bytes r else or_size r)))
         (usz (pr_ns (p b) + usz (or_time_after_ns r - or_time_before_ns r)))
  else p b.

Fixpoint summarize_loop (fs : fffs) (log : list ffsv_op_record) (before_seq after_seq : Z)
    (p : flash_profile) : option flash_profile :=
  match log with
  | [] => Some p
  | r :: log =>
      if (or_sequence r <? before_seq) || (after_seq <=? or_sequence r)
      then summarize_loop fs log before_seq after_seq p
      else match classify_profile_op fs r with
           | None => None
           | Some bucket =>
               summarize_loop fs log before_seq after_seq (add_profile_op bucket r p)
           end
  end.

Definition summarize_profile (flash : ffsv_flash) (fs : fffs) (before_seq after_seq : Z)
  : option flash_profile :=
  summarize_loop fs (vf_log flash) before_seq after_seq profile_zero.

Definition add_profile (dst src : flash_profile) : flash_profile := fun b =>
  mk_profile_stats (usz (pr_calls (dst b) + pr_calls (src b)))
    (usz (pr_bytes (dst b) + pr_bytes (src b))) (usz (pr_ns (dst b) + pr_ns (src b))).

(** ** The run *)

Definition probe_flash_config (preset : ffsv_flash_preset) (b : churn_build) : ffsv_flash_config :=
  let cfg := preset_config preset (cb_flash_size b) in
  mk_flash_config (vc_total_size cfg) (vc_sector_size cfg) (vc_program_granule cfg)
    (vc_erased_value cfg) (vc_erase_cycles cfg) (vc_timing cfg) 262144.

Abbreviation probe_backend preset b :=
  (@fffs_host_backend_from_verify_flash unit (probe_flash_config preset b)).

Section Probe.
Context (preset : ffsv_flash_preset) (b : churn_build).
Context {I : @IndexCache (probe_backend preset b)} `{Fuel}.

#[local] Existing Instance fffs_host_backend_from_verify_flash | 100.

#[local] Abbreviation pworld := (@world (probe_backend preset b)).

(** [mount_fs]; the storage is static and cleared first. *)
Definition probe_mount_options : fffs_mount_options :=
  mk_mount_options true (index_cache_required_size (IndexCache := I) (cb_index_heads b))
    (cb_index_heads b) (Some (fill (cb_scratch_size b) 0)) (cb_scratch_size b) false
    (Some (fill 2048 0)) 2048.

Definition probe_mount_fs : @M (probe_backend preset b) unit := fffs_mount probe_mount_options.

(** A call with the simulated time, the operations and the sequence numbers of
    the harness before and after it. *)
Record timing : Type := mk_call_timing {
  ct_ns : Z;
  ct_ops : list ffsv_op_counts;
  ct_before_seq : Z;
  ct_after_seq : Z;
}.

Definition timed {A} (m : @M (probe_backend preset b) A) (w : pworld)
  : option ((fffs_status + A) * pworld * timing) :=
  match w_ctx w, run_fs m w with
  | Some c, Some (r, w') =>
      match w_ctx w' with
      | Some c' =>
          let f := vs_flash c in
          let f' := vs_flash c' in
          Some (r, w', mk_call_timing (usz (vf_time_ns f' - vf_time_ns f))
                         (diff_ops (vf_counts f) (vf_counts f'))
                         (vf_next_sequence f) (vf_next_sequence f'))
      | None => None
      end
  | _, _ => None
  end.

Definition class_table : Type := bench_churn_class_t -> class_stats.

Definition add_to_class (cls : bench_churn_class_t) (size : Z) (t : timing) (s : class_table)
  : class_table := fun c =>
  if bool_decide (c = cls) then add_class_op size (ct_ns t) (ct_ops t) (s c) else s c.

(** The variables of the loop. *)
Record probe_run : Type := mk_probe_run {
  ps_world : pworld;
  ps_model : bench_churn_model_t;
  ps_write_stats : class_table;
  ps_delete_stats : class_table;
  ps_gc_ns : Z;
  ps_gc_erased : Z;
  ps_gc_profile : flash_profile;
  ps_write_ops : Z;
  ps_delete_ops : Z;
  ps_slot_seed : list Z;
}.

Definition set_model (m : bench_churn_model_t) (s : probe_run) : probe_run :=
  mk_probe_run (ps_world s) m (ps_write_stats s) (ps_delete_stats s) (ps_gc_ns s)
    (ps_gc_erased s) (ps_gc_profile s) (ps_write_ops s) (ps_delete_ops s) (ps_slot_seed s).

Definition set_world (w : pworld) (s : probe_run) : probe_run :=
  mk_probe_run w (ps_model s) (ps_write_stats s) (ps_delete_stats s) (ps_gc_ns s)
    (ps_gc_erased s) (ps_gc_profile s) (ps_write_ops s) (ps_delete_ops s) (ps_slot_seed s).

(** How a round ends: the loop is left with [err], or goes on. *)
Inductive round_end : Type :=
| ROUND_LEAVE (err : result)
| ROUND_NEXT.

(** The work of the event on the file system and on the counters, before the
    collector runs. *)
Definition execute_churn_delete (event : bench_churn_event_t) (m : bench_churn_model_t)
    (s : probe_run) : option (result * probe_run) :=
  match timed (fffs_delete_file (ev_name event)) (ps_world s) with
  | None => None
  | Some (inl err, w, _) => Some (inl err, set_world w (set_model m s))
  | Some (inr _, w, t) =>
      Some (inr tt, mk_probe_run w (bench_churn_model_apply m event) (ps_write_stats s)
                      (add_to_class (ev_cls event) (ev_size event) t (ps_delete_stats s))
                      (ps_gc_ns s) (ps_gc_erased s) (ps_gc_profile s) (ps_write_ops s)
                      (u32 (ps_delete_ops s + 1)) (ps_slot_seed s))
  end.

Definition execute_churn_write (event : bench_churn_event_t) (m : bench_churn_model_t)
    (s : probe_run) : option (result * probe_run) :=
  match timed (write_file (ev_name event) (ev_size event) (ev_write_seed event)) (ps_world s) with
  | None => None
  | Some (inl err, w, _) => Some (inl err, set_world w (set_model m s))
  | Some (inr _, w, t) =>
      Some (inr tt, mk_probe_run w (bench_churn_model_apply m event)
                      (add_to_class (ev_cls event) (ev_size event) t (ps_write_stats s))
                      (ps_delete_stats s) (ps_gc_ns s) (ps_gc_erased s) (ps_gc_profile s)
                      (u32 (ps_write_ops s + 1)) (ps_delete_ops s)
                      (<[Z.to_nat (ev_slot event) := ev_write_seed event]> (ps_slot_seed s)))
  end.

(** The steps of the collector, its time and its profile; after an error the run
    ends and the erased sectors are not used. *)
Definition run_gc_steps (s : probe_run) : option (result * probe_run) :=
  if cb_gc_steps_per_op b =? 0 then Some (inr tt, s)
  else
    match timed (fffs_gc (cb_gc_steps_per_op b)) (ps_world s) with
    | None => None
    | Some (r, w, t) =>
        match w_ctx w with
        | None => None
        | Some c =>
            match summarize_profile (vs_flash c) (w_fs w) (ct_before_seq t) (ct_after_seq t) with
            | None => None
            | Some p =>
                let erased := match r with inr n => n | inl _ => 0 end in
                Some (status_of r,
                      mk_probe_run w (ps_model s) (ps_write_stats s) (ps_delete_stats s)
                        (usz (ps_gc_ns s + ct_ns t)) (usz (ps_gc_erased s + erased))
                        (add_profile (ps_gc_profile s) p) (ps_write_ops s) (ps_delete_ops s)
                        (ps_slot_seed s))
            end
        end
    end.

Definition execute_event (event : bench_churn_event_t) (m : bench_churn_model_t)
    (s : probe_run) : option (result * probe_run) :=
  match ev_type event with
  | BENCH_CHURN_EVENT_DELETE => execute_churn_delete event m s
  | _ => execute_churn_write event m s
  end.

(** One round of the loop of [run_churn]. *)
Definition probe_round (s : probe_run) : option (round_end * probe_run) :=
  let (event, m) := bench_churn_model_next (ps_model s) in
  match ev_type event with
  | BENCH_CHURN_EVENT_DONE => Some (ROUND_LEAVE (inr tt), set_model m s)
  | BENCH_CHURN_EVENT_NO_SLOT => Some (ROUND_LEAVE (inl FFFS_ERR_NO_SPACE), set_model m s)
  | _ =>
      match execute_event event m s with
      | None => None
      | Some (inl err, s) => Some (ROUND_LEAVE (inl err), s)
      | Some (inr _, s) =>
          match run_gc_steps s with
          | None => None
          | Some (inl err, s) => Some (ROUND_LEAVE (inl err), s)
          | Some (inr _, s) => Some (ROUND_NEXT, s)
          end
      end
  end.

Fixpoint probe_rounds (n : nat) (s : probe_run) : option (result * probe_run) :=
  match n with
  | O => None
  | S n' =>
      match probe_round s with
      | None => None
      | Some (ROUND_LEAVE err, s) => Some (err, s)
      | Some (ROUND_NEXT, s) => probe_rounds n' s
      end
  end.

(** The order in which the slots are read back. *)
Definition read_order (slot_count : Z) : list Z :=
  (fun pass => u32 (u32 (Z.of_nat pass * 73) + 19) mod slot_count)
    <$> seq 0 (Z.to_nat slot_count).

Definition live_slots_in (m : bench_churn_model_t) (order : list Z) : list Z :=
  List.filter (fun slot => cs_live (slot_at m slot)) order.

(** The loop that reads the live slots: the world, the counters and
    [read_files]. *)
Fixpoint read_back (slots : list Z) (m : bench_churn_model_t) (slot_seed : list Z) (w : pworld)
    (stats : class_table) (read_files : Z)
  : option (result * pworld * class_table * Z) :=
  match slots with
  | [] => Some (inr tt, w, stats, read_files)
  | slot :: slots =>
      let s := slot_at m slot in
      match timed (read_file (cs_name s) (cs_size s) (nth (Z.to_nat slot) slot_seed 0)) w with
      | None => None
      | Some (inl err, w, _) => Some (inl err, w, stats, read_files)
      | Some (inr _, w, t) =>
          read_back slots m slot_seed w (add_to_class (cs_cls s) (cs_size s) t stats)
            (read_files + 1)
      end
  end.

(** What the run has measured when its checks have passed: the churn, the list,
    the mount, the reads. *)
Record probe_report : Type := mk_report {
  rp_churn : probe_run;
  rp_listed : Z;
  rp_list : timing;
  rp_mount : timing;
  rp_read_stats : class_table;
  rp_read_files : Z;
  rp_churn_seqs : Z * Z;
  rp_read_seqs : Z * Z;
  rp_world : pworld;
}.

Definition next_sequence (w : pworld) : option Z :=
  (fun c => vf_next_sequence (vs_flash c)) <$> w_ctx w.

(** The list and the look-up of the live files on the warm file system, the mount
    of the same flash by a fresh structure, the look-up and the reads there. *)
Definition probe_checks (start_seq : Z) (s : probe_run) : option (result * option probe_report) :=
  match next_sequence (ps_world s) with
  | None => None
  | Some churn_seq =>
  match timed list_all (ps_world s) with
  | None => None
  | Some (inl err, _, _) => Some (inl err, None)
  | Some (inr listed, w, list_t) =>
  match run_fs (validate_live_set (ch_slots (ps_model s))) w with
  | None => None
  | Some (inl err, _) => Some (inl err, None)
  | Some (inr _, w) =>
  match timed probe_mount_fs (mk_world (w_ctx w) fffs_zero ∅) with
  | None => None
  | Some (inl err, _, _) => Some (inl err, None)
  | Some (inr _, w, mount_t) =>
  match run_fs (validate_live_set (ch_slots (ps_model s))) w with
  | None => None
  | Some (inl err, _) => Some (inl err, None)
  | Some (inr _, w) =>
  match next_sequence w with
  | None => None
  | Some read_seq =>
  match read_back (live_slots_in (ps_model s) (read_order (zlen (ch_slots (ps_model s)))))
          (ps_model s) (ps_slot_seed s) w (fun _ => class_stats_zero) 0 with
  | None => None
  | Some (inl err, _, _, _) => Some (inl err, None)
  | Some (inr _, w, stats, read_files) =>
  match next_sequence w with
  | None => None
  | Some end_seq =>
      Some (inr tt, Some (mk_report s listed list_t mount_t stats read_files
                            (start_seq, churn_seq) (read_seq, end_seq) w))
  end end end end end end end end.

(** The profiles that are printed: of the churn and of the list with the first
    structure, which has been unmounted by then, of the mount and of the reads
    with the second one. *)
Definition probe_profiles (r : probe_report)
  : option (flash_profile * flash_profile * flash_profile * flash_profile) :=
  match w_ctx (rp_world r) with
  | None => None
  | Some c =>
      let flash := vs_flash c in
      match summarize_profile flash fffs_zero (fst (rp_churn_seqs r)) (snd (rp_churn_seqs r)),
            summarize_profile flash fffs_zero (ct_before_seq (rp_list r))
              (ct_after_seq (rp_list r)),
            summarize_profile flash (w_fs (rp_world r)) (ct_before_seq (rp_mount r))
              (ct_after_seq (rp_mount r)),
            summarize_profile flash (w_fs (rp_world r)) (fst (rp_read_seqs r))
              (snd (rp_read_seqs r)) with
      | Some p1, Some p2, Some p3, Some p4 => Some (p1, p2, p3, p4)
      | _, _, _, _ => None
      end
  end.

Definition init_host_churn_model : option bench_churn_model_t :=
  bench_churn_model_init_profile (cb_seed b) (cb_targets b) (Some (cb_profile b))
    (cb_max_files b).

(** The variables before the loop. *)
Definition start_run (w : pworld) (m : bench_churn_model_t) : probe_run :=
  mk_probe_run w m (fun _ => class_stats_zero) (fun _ => class_stats_zero) 0 0 profile_zero 0 0
    (fill (cb_max_files b) 0).

(** [run_churn] up to the profiles: [None] when it has no result, an error of
    the checks, or what it measured. *)
Definition run_churn_checks (rounds : nat) : option (result * option probe_report) :=
  match ffsv_flash_config_preset preset (cb_flash_size b) with
  | (err, _) =>
  if negb (err =? FFSV_OK) then Some (inl FFFS_ERR_IO, None)
  else
  match ffsv_flash_create (probe_flash_config preset b) with
  | (_, None) => Some (inl FFFS_ERR_IO, None)
  | (_, Some flash) =>
  match run_fs (cfg := probe_flash_config preset b)
          (fffs_format (mk_format_options 0 0) ;; probe_mount_fs)
          (fresh_fs (mk_vstate flash sampler_zero tt)) with
  | None => None
  | Some (inl err, _) => Some (inl err, None)
  | Some (inr _, w) =>
  match init_host_churn_model, next_sequence w with
  | None, _ => Some (inl FFFS_ERR_INVALID, None)
  | _, None => None
  | Some m, Some start_seq =>
  match probe_rounds rounds (start_run w m) with
  | None => None
  | Some (inl err, _) => Some (inl err, None)
  | Some (inr _, s) => probe_checks start_seq s
  end end end end end.

(** [run_churn]: its exit code. *)
Definition run_churn (rounds : nat) : option Z :=
  match run_churn_checks rounds with
  | Some (inr _, Some r) =>
      match probe_profiles r with
      | Some _ => Some 0
      | None => None
      end
  | Some _ => Some 1
  | None => None
  end.
End Probe.

(** [main]: the two presets, the second one if the first run succeeds; the buffer
    is there. *)
Definition churn_probe_main (b : churn_build)
    {I1 : @IndexCache (probe_backend FFSV_PRESET_TARGET_NOR_NOTES b)}
    {I2 : @IndexCache (probe_backend FFSV_PRESET_ESP32S3_MEASURED b)} `{Fuel} (rounds : nat)
  : option Z :=
  match run_churn FFSV_PRESET_TARGET_NOR_NOTES b rounds with
  | Some 0 => run_churn FFSV_PRESET_ESP32S3_MEASURED b rounds
  | r => r
  end.
