(* ===== verification/ChurnProbeSpec.v ===== *)
(** * What a run of the churn probe shows

    The loop of [run_churn] ends, its writes fit the buffer, and a run whose
    checks pass has found every live file, before and after a mount, and has
    read back from each of them what its last write put there.  The profiles
    that are printed then have no result: they divide by the sector size of a
    structure that has been unmounted. *)

From S2P Require Export ChurnProbe ChurnEnds.

#[local] Open Scope Z_scope.
#[local] Open Scope fffs_scope.

(** ** Builds *)

(** [max] is [MAX_CHURN_FILE_SIZE], the size of the buffer. *)
Record build_ok (max : Z) (b : churn_build) : Prop := {
  bo_profile : profile_ok max (cb_profile b);
  bo_target : 0 <= target_written_bytes (cb_targets b) <= 2 ^ 32 - max;
  bo_forced : 350 * 1024 <= max \/
    target_written_bytes (cb_targets b) <= force_large_after_bytes (cb_targets b);
  bo_files : 0 < cb_max_files b /\ 73 * cb_max_files b + 19 < 2 ^ 32;
  bo_order : Z.gcd (cb_max_files b) 73 = 1;
}.

(** ** The order of the reads *)

Lemma read_order_nodup n : 0 < n -> 73 * n + 19 < 2 ^ 32 -> Z.gcd n 73 = 1 ->
  NoDup (read_order n).
Proof.
  intros Hn Hmax Hg. unfold read_order. apply NoDup_fmap_2_strong; [| apply NoDup_seq].
  intros x y [_ Hx]%elem_of_seq [_ Hy]%elem_of_seq Heq.
  rewrite (u32_small (Z.of_nat x * 73)), (u32_small (Z.of_nat y * 73)) in Heq
    by (unfold is_u32; lia).
  rewrite !u32_small in Heq by (unfold is_u32; lia).
  assert (Hd : (n | 73 * (Z.of_nat x - Z.of_nat y))).
  { apply Z.mod_divide; [lia |].
    replace (73 * (Z.of_nat x - Z.of_nat y))
      with ((Z.of_nat x * 73 + 19) - (Z.of_nat y * 73 + 19)) by lia.
    rewrite Zminus_mod, Heq, Z.sub_diag. by apply Zmod_0_l. }
  apply Z.gauss in Hd as [q Hq]; [| done].
  assert (Hq0 : q = 0) by nia. lia.
Qed.

(** Every slot is visited once. *)
Lemma read_order_complete n : 0 < n -> 73 * n + 19 < 2 ^ 32 -> Z.gcd n 73 = 1 ->
  read_order n ≡ₚ (Z.of_nat <$> seq 0 (Z.to_nat n)).
Proof.
  intros Hn Hmax Hg.
  assert (Hsub : read_order n ⊆+ (Z.of_nat <$> seq 0 (Z.to_nat n))).
  { apply NoDup_submseteq; [by apply read_order_nodup |]. intros z Hz.
    unfold read_order in Hz. apply list_elem_of_fmap in Hz as (x & -> & _).
    pose proof (Z.mod_pos_bound (u32 (u32 (Z.of_nat x * 73) + 19)) n Hn) as Hb.
    apply list_elem_of_fmap. eexists (Z.to_nat _). split; [symmetry; apply Z2Nat.id; lia |].
    apply elem_of_seq. lia. }
  apply submseteq_length_Permutation; [exact Hsub |].
  unfold read_order. rewrite !length_fmap. lia.
Qed.

(** Looking up the live slots in another order of the same slots. *)
Lemma live_slots_perm m order order' : order ≡ₚ order' ->
  live_slots_in m order ≡ₚ live_slots_in m order'.
Proof.
  unfold live_slots_in. induction 1 as [| x l l' _ IH | x y l |]; cbn [List.filter].
  - done.
  - destruct (cs_live _); by rewrite IH.
  - destruct (cs_live _), (cs_live _); try done. apply perm_swap.
  - by etransitivity.
Qed.

Lemma live_slots_count (slots : list bench_churn_slot_t) : forall m k,
  (forall i s, slots !! i = Some s -> slot_at m (Z.of_nat (k + i)) = s) ->
  zlen (live_slots_in m (Z.of_nat <$> seq k (length slots))) = zsum (live_one <$> slots).
Proof.
  unfold live_slots_in, zlen, zsum.
  induction slots as [| s slots IH]; intros m k Hat; [done |].
  assert (H0 : slot_at m (Z.of_nat k) = s) by (rewrite <- (Nat.add_0_r k); by apply Hat).
  specialize (IH m (S k)). cbn [length seq fmap list_fmap List.filter]. rewrite H0.
  assert (Htl : forall i t, slots !! i = Some t -> slot_at m (Z.of_nat (S k + i)) = t).
  { intros i t Hi. replace (S k + i)%nat with (k + S i)%nat by lia. by apply Hat. }
  specialize (IH Htl). cbn [foldr]. unfold live_one at 1.
  destruct (cs_live s); cbn [length]; rewrite <- IH; lia.
Qed.

(** *** What the events leave *)

Definition last_event (events : list bench_churn_event_t) (i : Z) : option bench_churn_event_t :=
  foldl (fun acc e => if ev_slot e =? i then Some e else acc) None events.

Lemma last_event_snoc events e i :
  last_event (events ++ [e]) i = if ev_slot e =? i then Some e else last_event events i.
Proof. unfold last_event. by rewrite foldl_app. Qed.

(** Slot [i] has the file of the last event on it, with [seed]. *)
Definition slot_shows (events : list bench_churn_event_t) (i : Z) (s : bench_churn_slot_t)
    (seed : Z) : Prop :=
  match last_event events i with
  | None => cs_live s = false
  | Some e =>
      match ev_type e with
      | BENCH_CHURN_EVENT_WRITE =>
          cs_live s = true /\ cs_name s = ev_name e /\ cs_size s = ev_size e /\
          cs_cls s = ev_cls e /\ seed = ev_write_seed e
      | _ => cs_live s = false
      end
  end.

Lemma event_name_fits m e : churn_ok m -> event_ok m e -> ev_type e = BENCH_CHURN_EVENT_WRITE ->
  fit_name (ev_name e) = ev_name e.
Proof.
  intros Hok He Hty. unfold event_ok in He. rewrite Hty in He. destruct He as (Hr & Hrep & ->).
  rewrite Hrep. destruct (cs_live _) eqn:Hl; [| unfold new_name; apply fit_name_fit].
  eapply fit_live_name; [exact Hok | by apply slot_at_lookup | done].
Qed.

(** The slot after the event on it. *)
Definition event_slot (e : bench_churn_event_t) (s : bench_churn_slot_t) : bench_churn_slot_t :=
  match ev_type e with
  | BENCH_CHURN_EVENT_WRITE =>
      mk_cslot true (ev_cls e) (ev_size e) (ev_write_seed e) (ev_name e)
  | _ => mk_cslot false (cs_cls s) (cs_size s) (cs_write_seed s) (cs_name s)
  end.

Lemma apply_slots m m' e : churn_ok m -> same_files m m' -> event_ok m e ->
  ev_type e = BENCH_CHURN_EVENT_DELETE \/ ev_type e = BENCH_CHURN_EVENT_WRITE ->
  0 <= ev_slot e < zlen (ch_slots m) /\
  ch_slots (bench_churn_model_apply m' e) =
    <[Z.to_nat (ev_slot e) := event_slot e (slot_at m (ev_slot e))]> (ch_slots m).
Proof.
  intros Hok Hs He Hty. unfold bench_churn_model_apply, event_slot.
  destruct Hty as [Hty | Hty]; unfold event_ok in He; rewrite Hty in He |- *.
  - destruct He as (Hr & Hl & _). split; [exact Hr |].
    rewrite (slot_at_same _ _ _ Hs), Hl. cbv zeta. cbn [ch_slots]. by rewrite (sf_slots _ _ Hs).
  - destruct He as (Hr & Hrep & Hname). split; [exact Hr |]. cbv zeta. cbn [ch_slots].
    rewrite (event_name_fits m e Hok), (sf_slots _ _ Hs); [done | | done].
    unfold event_ok. by rewrite Hty.
Qed.

(** ** The loop *)

Section Spec.
Context (preset : ffsv_flash_preset) (b : churn_build).
Context {I : @IndexCache (probe_backend preset b)} `{Fuel}.

#[local] Existing Instance fffs_host_backend_from_verify_flash | 100.

#[local] Abbreviation pworld := (@world (probe_backend preset b)).
#[local] Abbreviation prun := (probe_run preset b).
#[local] Abbreviation model s := (ps_model preset b s).
#[local] Abbreviation seeds s := (ps_slot_seed preset b s).

(** The rounds that have been run from [s0], with their events. *)
Inductive churn_trace (s0 : prun) : list bench_churn_event_t -> prun -> Prop :=
| trace_nil : churn_trace s0 [] s0
| trace_snoc events s1 event m s2 :
    churn_trace s0 events s1 ->
    bench_churn_model_next (model s1) = (event, m) ->
    probe_round preset b s1 = Some (ROUND_NEXT, s2) ->
    churn_trace s0 (events ++ [event]) s2.

Lemma run_gc_steps_keeps s r s' : run_gc_steps preset b s = Some (r, s') ->
  model s' = model s /\ seeds s' = seeds s.
Proof.
  unfold run_gc_steps. destruct (_ =? 0); [by intros [= _ <-] |].
  destruct (timed _ _ _ _) as [[[r0 w] t] |]; [| done].
  destruct (w_ctx w) as [c |]; [| done].
  destruct (summarize_profile _ _ _ _) as [p |]; [| done]. by intros [= _ <-].
Qed.

Lemma execute_event_applies event m s s' : execute_event preset b event m s = Some (inr tt, s') ->
  model s' = bench_churn_model_apply m event /\
  seeds s' = match ev_type event with
             | BENCH_CHURN_EVENT_DELETE => seeds s
             | _ => <[Z.to_nat (ev_slot event) := ev_write_seed event]> (seeds s)
             end.
Proof.
  unfold execute_event, execute_churn_delete, execute_churn_write.
  destruct (ev_type event); (destruct (timed _ _ _ _) as [[[[e | u] w] t] |]; [done | | done]);
    by intros [= <-].
Qed.

(** A round that goes on has executed the next event. *)
Lemma probe_round_next s s' : probe_round preset b s = Some (ROUND_NEXT, s') ->
  exists event m, bench_churn_model_next (model s) = (event, m) /\
    (ev_type event = BENCH_CHURN_EVENT_DELETE \/ ev_type event = BENCH_CHURN_EVENT_WRITE) /\
    model s' = bench_churn_model_apply m event /\
    seeds s' = match ev_type event with
               | BENCH_CHURN_EVENT_DELETE => seeds s
               | _ => <[Z.to_nat (ev_slot event) := ev_write_seed event]> (seeds s)
               end.
Proof.
  unfold probe_round. destruct (bench_churn_model_next _) as [event m] eqn:Hn. intros Hr.
  exists event, m. split; [done |].
  destruct (execute_event preset b event m s) as [[[e | []] s1] |] eqn:Hx;
    destruct (ev_type event) eqn:Hty; try done;
    (destruct (run_gc_steps preset b s1) as [[[e | []] s2] |] eqn:Hg; try done);
    injection Hr as <-; apply execute_event_applies in Hx as [Hm Hs];
    apply run_gc_steps_keeps in Hg as [-> ->]; rewrite Hty in Hs; auto.
Qed.

(** What holds between two rounds. *)
Record trace_inv (max : Z) (events : list bench_churn_event_t) (s : prun) : Prop := {
  ti_ok : churn_ok (model s);
  ti_bounds : churn_bounds max (model s);
  ti_slots : zlen (ch_slots (model s)) = cb_max_files b;
  ti_seeds : zlen (seeds s) = cb_max_files b;
  ti_shows : forall i, 0 <= i < cb_max_files b ->
    slot_shows events i (slot_at (model s) i) (nth (Z.to_nat i) (seeds s) 0);
}.

Lemma round_keeps_inv max events s event m s' : trace_inv max events s ->
  bench_churn_model_next (model s) = (event, m) ->
  probe_round preset b s = Some (ROUND_NEXT, s') ->
  trace_inv max (events ++ [event]) s' /\ churn_left (model s') < churn_left (model s).
Proof.
  intros [Hok Hb Hlen Hsl Hsh] Hn Hr.
  apply probe_round_next in Hr as (event' & m' & Hn' & Hty & Hm & Hseed).
  rewrite Hn in Hn'. injection Hn' as <- <-.
  destruct (churn_apply_bounds max _ _ _ Hok Hb Hn Hty) as (Hok' & Hb' & Hleft).
  destruct (churn_next_ok _ _ _ Hok Hn) as (Hs & He & _).
  destruct (apply_slots _ _ _ Hok Hs He Hty) as [Hrange Hslots].
  rewrite Hm. split; [| exact Hleft]. split; rewrite ?Hm; try done.
  - rewrite Hslots. unfold zlen in *. by rewrite length_insert.
  - rewrite Hseed. unfold zlen in *. destruct (ev_type event); by rewrite ?length_insert.
  - intros i Hi. rewrite (slot_at_update _ _ _ _ i Hrange ltac:(lia) Hslots), Hseed.
    unfold slot_shows. rewrite last_event_snoc, Z.eqb_sym.
    destruct (Z.eqb_spec i (ev_slot event)) as [-> | Hne].
    + unfold event_slot. destruct Hty as [Hty | Hty]; rewrite Hty; [done |].
      cbn. repeat (split; [done |]). rewrite nth_lookup, list_lookup_insert_eq; [done |].
      unfold zlen in *. lia.
    + specialize (Hsh i Hi). unfold slot_shows in Hsh.
      destruct Hty as [Hty | Hty]; rewrite Hty; [exact Hsh |].
      rewrite nth_lookup, list_lookup_insert_ne, <- nth_lookup by lia. exact Hsh.
Qed.

Lemma start_inv max m w : build_ok max b -> init_host_churn_model b = Some m ->
  trace_inv max [] (start_run preset b w m) /\
  churn_left m = 2 * target_written_bytes (cb_targets b).
Proof.
  intros [Hp Ht Hf [Hn Hn'] _] Hi. unfold init_host_churn_model in Hi.
  destruct (churn_init_bounds max _ _ _ _ _ Hi Hp Ht Hf ltac:(lia)) as (Hok & Hb & Hl).
  split; [| exact Hl]. unfold bench_churn_model_init_profile in Hi.
  destruct (Z.eqb_spec (cb_max_files b) 0); [done |]. apply (inj Some) in Hi as <-.
  split; cbn [start_run ps_model ps_slot_seed]; [exact Hok | exact Hb | | |].
  - cbn [ch_slots]. unfold zlen. rewrite length_replicate. lia.
  - unfold zlen, fill. rewrite length_replicate. lia.
  - intros i Hri. unfold slot_shows, last_event, slot_at. cbn [foldl ch_slots].
    by rewrite nth_lookup, lookup_replicate_2 by lia.
Qed.

Lemma trace_keeps_inv max s0 events s : trace_inv max [] s0 -> churn_trace s0 events s ->
  trace_inv max events s.
Proof.
  intros H0. induction 1 as [| events s1 event m s2 Htr IH Hn Hr]; [exact H0 |].
  by eapply round_keeps_inv.
Qed.

Lemma trace_length max s0 events s : trace_inv max [] s0 -> churn_trace s0 events s ->
  zlen events + churn_left (model s) <= churn_left (model s0).
Proof.
  intros H0. induction 1 as [| events s1 event m s2 Htr IH Hn Hr]; [unfold zlen; simpl; lia |].
  rewrite zlen_snoc. pose proof (trace_keeps_inv _ _ _ _ H0 Htr) as Hinv.
  apply (round_keeps_inv _ _ _ _ _ _ Hinv Hn) in Hr as [_ Hl]. lia.
Qed.

Lemma rounds_none max s0 n : forall events s, trace_inv max [] s0 -> churn_trace s0 events s ->
  churn_left (model s) < Z.of_nat n -> probe_rounds preset b n s = None ->
  exists events' s', churn_trace s0 events' s' /\ probe_round preset b s' = None.
Proof.
  induction n as [| n IH]; intros events s H0 Htr Hl Hr;
    pose proof (trace_keeps_inv _ _ _ _ H0 Htr) as Hinv.
  - pose proof (churn_left_nonneg _ (ti_ok _ _ _ Hinv)). lia.
  - cbn [probe_rounds] in Hr. destruct (probe_round preset b s) as [[[err |] s1] |] eqn:Hround.
    + done.
    + destruct (bench_churn_model_next (model s)) as [event m] eqn:Hn.
      destruct (round_keeps_inv _ _ _ _ _ _ Hinv Hn Hround) as [_ Hl'].
      apply (IH (events ++ [event]) s1); [exact H0 | by eapply trace_snoc | lia | exact Hr].
    + by exists events, s.
Qed.

(** The bytes written have reached their target. *)
Definition churn_done (m : bench_churn_model_t) : Prop :=
  pending_write (ch_pending m) = false /\
  target_written_bytes (ch_targets m) <= total_written (ch_counts m).

Lemma next_done m e m' : churn_ok m -> bench_churn_model_next m = (e, m') ->
  ev_type e = BENCH_CHURN_EVENT_DONE -> m' = m /\ churn_done m.
Proof.
  intros Hok. unfold bench_churn_model_next, churn_done.
  destruct (pending_write (ch_pending m)) eqn:Hw.
  - intros Hn Hty. apply next_event_ok in Hn as (_ & _ & Hp); [| done..]. by rewrite Hty in Hp.
  - destruct (Z.leb_spec (target_written_bytes (ch_targets m)) (total_written (ch_counts m))).
    + by intros [= <- <-].
    + destruct (start_pending_ok m Hok) as (Hok1 & _ & Hw1). intros Hn Hty.
      apply next_event_ok in Hn as (_ & _ & Hp); [| done..]. by rewrite Hty in Hp.
Qed.

(** The loop is left without an error when there is nothing more to do. *)
Lemma probe_round_leave s s' : churn_ok (model s) ->
  probe_round preset b s = Some (ROUND_LEAVE (inr tt), s') -> s' = s /\ churn_done (model s).
Proof.
  intros Hok. unfold probe_round. destruct (bench_churn_model_next _) as [event m] eqn:Hn.
  intros Hr.
  destruct (ev_type event) eqn:Hty; try done.
  - injection Hr as <-. destruct (next_done _ _ _ Hok Hn Hty) as [-> Hd].
    split; [by destruct s | exact Hd].
  - destruct (execute_event _ _ _ _ _) as [[[e | []] s1] |]; try done.
    by destruct (run_gc_steps _ _ _) as [[[e | []] s2] |].
  - destruct (execute_event _ _ _ _ _) as [[[e | []] s1] |]; try done.
    by destruct (run_gc_steps _ _ _) as [[[e | []] s2] |].
Qed.

Lemma rounds_done max s0 n : forall events s s', trace_inv max [] s0 -> churn_trace s0 events s ->
  probe_rounds preset b n s = Some (inr tt, s') ->
  exists events', churn_trace s0 events' s' /\ churn_done (model s').
Proof.
  induction n as [| n IH]; intros events s s' H0 Htr Hr; [done |].
  pose proof (trace_keeps_inv _ _ _ _ H0 Htr) as Hinv. cbn [probe_rounds] in Hr.
  destruct (probe_round preset b s) as [[[err |] s1] |] eqn:Hround; [| | done].
  - injection Hr as -> ->. apply probe_round_leave in Hround as [-> Hd]; [| apply Hinv].
    by exists events.
  - destruct (bench_churn_model_next (model s)) as [event m] eqn:Hn.
    apply (IH (events ++ [event]) s1); [exact H0 | by eapply trace_snoc | exact Hr].
Qed.

(** The churn ends.  For a build whose sizes are within the buffer, every
    write of the loop of [run_churn] has between one byte and as many as the
    buffer has, so that the pattern is never written past it; there are at most
    twice as many rounds as there are bytes to write, because a write brings
    the target nearer and a deletion needs a file; and with more rounds than
    that, the loop has a result unless a call of the file system in one of its
    rounds has none. *)
Theorem churn_probe_ends (max : Z) (rounds : nat) (m : bench_churn_model_t) (w : pworld) :
  build_ok max b -> init_host_churn_model b = Some m ->
  (forall events s, churn_trace (start_run preset b w m) events s ->
     zlen events <= 2 * target_written_bytes (cb_targets b) /\
     (let event := fst (bench_churn_model_next (model s)) in
      ev_type event = BENCH_CHURN_EVENT_WRITE -> 1 <= ev_size event <= max)) /\
  (2 * target_written_bytes (cb_targets b) < Z.of_nat rounds ->
   probe_rounds preset b rounds (start_run preset b w m) = None ->
   exists events s, churn_trace (start_run preset b w m) events s /\
     probe_round preset b s = None).
Proof.
  intros Hb Hi. destruct (start_inv max m w Hb Hi) as [H0 Hl]. split.
  - intros events s Htr. pose proof (trace_keeps_inv _ _ _ _ H0 Htr) as Hinv.
    pose proof (trace_length _ _ _ _ H0 Htr) as Hlen.
    pose proof (churn_left_nonneg _ (ti_ok _ _ _ Hinv)). cbn [start_run ps_model] in Hlen.
    split; [lia |]. cbv zeta. destruct (bench_churn_model_next (model s)) as [e m'] eqn:Hn.
    intros Hty. destruct (churn_next_bounds max _ _ _ (ti_ok _ _ _ Hinv) (ti_bounds _ _ _ Hinv) Hn)
      as [_ Hsz]. by apply Hsz.
  - intros Hr Hnone. eapply rounds_none; [exact H0 | constructor | | exact Hnone].
    cbn [start_run ps_model]. lia.
Qed.

(** ** The checks *)

(** The live files of the slots are looked up one after the other and are
    found. *)
Fixpoint found_all (slots : list bench_churn_slot_t) (w w' : pworld) : Prop :=
  match slots with
  | [] => w' = w
  | s :: slots =>
      if cs_live s
      then exists w1, fffs_exists (cs_name s) w = (Ok true, w1) /\ found_all slots w1 w'
      else found_all slots w w'
  end.

(** The file is opened, and its reads up to [size] bytes give the pattern. *)
Definition file_matches (name : list Z) (size seed : Z) (w w' : pworld) : Prop :=
  exists w1 w2 buffer,
    fffs_open probe_file name FFFS_O_RDONLY w = (Ok tt, w1) /\
    read_file_loop (Z.to_nat size) size [] w1 = (Ok buffer, w2) /\
    fffs_close probe_file w2 = (Ok tt, w') /\
    take (Z.to_nat size) buffer = ChurnProbe.fill_pattern size seed.

(** The files, each a name, a size and the seed of its pattern, are read one
    after the other and match. *)
Fixpoint files_read (files : list (list Z * Z * Z)) (w w' : pworld) : Prop :=
  match files with
  | [] => w' = w
  | (name, size, seed) :: files =>
      exists w1, file_matches name size seed w w1 /\ files_read files w1 w'
  end.

(** The file that the events leave in slot [i], and those in all slots. *)
Definition written_file (events : list bench_churn_event_t) (i : Z)
  : option (list Z * Z * Z) :=
  match last_event events i with
  | Some e =>
      match ev_type e with
      | BENCH_CHURN_EVENT_WRITE => Some (ev_name e, ev_size e, ev_write_seed e)
      | _ => None
      end
  | None => None
  end.

Definition written_files (events : list bench_churn_event_t) : list (list Z * Z * Z) :=
  omap (written_file events) (seqZ 0 (cb_max_files b)).

Lemma validate_live_set_ok slots : forall w w', validate_live_set slots w = (Ok tt, w') ->
  found_all slots w w'.
Proof.
  induction slots as [| s slots IH]; intros w w' Hrun; [by injection Hrun |].
  cbn [validate_live_set found_all] in *. apply bind_ok in Hrun as ([] & w1 & Hs & Hrun).
  apply IH in Hrun. destruct (cs_live s); [| by injection Hs as <-].
  apply bind_ok in Hs as ([] & w2 & Hex & Hg); [| done].
  injection Hg as <-. by exists w2.
Qed.

Lemma read_file_ok name size seed w w' : read_file name size seed w = (Ok tt, w') ->
  file_matches name size seed w w'.
Proof.
  unfold read_file, file_matches. intros Hrun.
  apply bind_ok in Hrun as ([] & w1 & Ho & Hrun). apply bind_ok in Hrun as (buf & w2 & Hl & Hrun).
  apply bind_ok in Hrun as ([] & w3 & Hc & Hg).
  destruct (matches_pattern buf size seed) eqn:Hm; [| done]. injection Hg as <-.
  exists w1, w2, buf. repeat (split; [done |]). exact (bool_decide_eq_true_1 _ Hm).
Qed.

Lemma timed_ok {A} (m : @M (probe_backend preset b) A) w a w' t :
  timed preset b m w = Some (inr a, w', t) -> m w = (Ok a, w').
Proof.
  unfold timed. destruct (w_ctx w); [| done].
  destruct (run_fs m w) as [[r w1] |] eqn:Hr; [| done]. destruct (w_ctx w1); [| done].
  intros [= -> -> _]. by apply run_fs_ok in Hr.
Qed.

(** The file that the probe expects in a slot. *)
Definition slot_file (m : bench_churn_model_t) (slot_seed : list Z) (i : Z) : list Z * Z * Z :=
  (cs_name (slot_at m i), cs_size (slot_at m i), nth (Z.to_nat i) slot_seed 0).

Lemma read_back_ok m slot_seed slots : forall w stats n w' stats' n',
  read_back preset b slots m slot_seed w stats n = Some (inr tt, w', stats', n') ->
  n' = n + zlen slots /\ files_read (slot_file m slot_seed <$> slots) w w'.
Proof.
  induction slots as [| slot slots IH]; intros w stats n w' stats' n' Hrun.
  { injection Hrun as <- _ <-. split; [unfold zlen; simpl; lia | done]. }
  cbn [read_back] in Hrun. cbv zeta in Hrun.
  destruct (timed _ _ _ _) as [[[[e | []] w1] t] |] eqn:Ht; [done | | done].
  apply timed_ok, read_file_ok in Ht. apply IH in Hrun as [-> Hall].
  split; [rewrite zlen_cons; lia |]. rewrite fmap_cons. by exists w1.
Qed.

(** The live slots, in any order of the slots, have the files of the events. *)
Lemma live_files max events s order : trace_inv max events s ->
  order ≡ₚ seqZ 0 (cb_max_files b) ->
  slot_file (model s) (seeds s) <$> live_slots_in (model s) order ≡ₚ written_files events.
Proof.
  intros Hinv Ho. rewrite (live_slots_perm _ _ _ Ho). unfold written_files, live_slots_in.
  assert (Hall : Forall (fun i => 0 <= i < cb_max_files b) (seqZ 0 (cb_max_files b)))
    by (apply Forall_forall; intros i Hi; apply elem_of_seqZ in Hi; lia).
  apply reflexive_eq. clear Ho. induction Hall as [| i l Hi _ IH]; [done |].
  cbn [List.filter omap list_omap]. unfold written_file at 1.
  pose proof (ti_shows _ _ _ Hinv i Hi) as Hsh. unfold slot_shows in Hsh.
  destruct (last_event events i) as [e |]; [destruct (ev_type e) |];
    try (by rewrite Hsh, <- IH).
  destruct Hsh as (Hl & Hn & Hs & _ & Hseed). rewrite Hl, fmap_cons, IH.
  unfold slot_file. by rewrite Hn, Hs, Hseed.
Qed.

(** What a report says of the run from [s0] with [events]: the target is reached;
    the live files are found, by the structure that wrote them; the flash that
    this leaves is mounted by a fresh structure, which finds them again; from
    there, the files that are read back, one after the other up to the end of
    the run, are those that the events have left, each once, with the name, the
    size and the pattern of its last write; and as many are counted. *)
Record probe_verdict (s0 : prun) (events : list bench_churn_event_t)
    (r : probe_report preset b) : Prop := {
  pv_trace : churn_trace s0 events (rp_churn preset b r);
  pv_done : churn_done (model (rp_churn preset b r));
  pv_checked : exists w1 w2 w3 w4 files,
    list_all (ps_world preset b (rp_churn preset b r)) = (Ok (rp_listed preset b r), w1) /\
    found_all (ch_slots (model (rp_churn preset b r))) w1 w2 /\
    probe_mount_fs preset b (mk_world (w_ctx w2) fffs_zero ∅) = (Ok tt, w3) /\
    found_all (ch_slots (model (rp_churn preset b r))) w3 w4 /\
    files_read files w4 (rp_world preset b r) /\
    files ≡ₚ written_files events;
  pv_count : rp_read_files preset b r = zlen (written_files events) /\
    rp_read_files preset b r = live_file_count (ch_counts (model (rp_churn preset b r)));
}.

Lemma checks_ok max start_seq s r events s0 : build_ok max b -> trace_inv max events s ->
  churn_trace s0 events s -> churn_done (model s) ->
  probe_checks preset b start_seq s = Some (inr tt, Some r) -> probe_verdict s0 events r.
Proof.
  intros [_ _ _ [Hn Hmax] Hg] Hinv Htr Hd. unfold probe_checks.
  destruct (next_sequence preset b (ps_world preset b s)); [| done].
  destruct (timed _ _ list_all _) as [[[[e | listed] w1] t1] |] eqn:H1; try done.
  destruct (run_fs _ w1) as [[[e | []] w2] |] eqn:H2; try done.
  destruct (timed _ _ (probe_mount_fs _ _) _) as [[[[e | []] w3] t3] |] eqn:H3; try done.
  destruct (run_fs _ w3) as [[[e | []] w4] |] eqn:H4; try done.
  destruct (next_sequence preset b w4); [| done].
  destruct (read_back _ _ _ _ _ _ _ _) as [[[[[e | []] w5] stats] read_files] |] eqn:H5; try done.
  destruct (next_sequence preset b w5); [| done]. intros [= <-].
  apply timed_ok in H1, H3. apply run_fs_ok, validate_live_set_ok in H2, H4.
  apply read_back_ok in H5 as [-> Hread]. rewrite (ti_slots _ _ _ Hinv) in *.
  assert (Hperm : read_order (cb_max_files b) ≡ₚ seqZ 0 (cb_max_files b)).
  { rewrite (read_order_complete _ Hn Hmax Hg). unfold seqZ. apply reflexive_eq.
    apply list_fmap_ext. intros i x _. lia. }
  pose proof (live_files _ _ _ _ Hinv Hperm) as Hfiles.
  split; cbn [rp_churn rp_listed rp_read_files rp_world]; [exact Htr | exact Hd | |].
  - by exists w1, w2, w3, w4, (slot_file (model s) (seeds s) <$>
      live_slots_in (model s) (read_order (cb_max_files b))).
  - rewrite Z.add_0_l. split.
    { unfold zlen. by rewrite <- Hfiles, length_fmap. }
    rewrite (co_files _ (ti_ok _ _ _ Hinv)).
    assert (Hsz : cb_max_files b = Z.of_nat (length (ch_slots (model s)))).
    { pose proof (ti_slots _ _ _ Hinv) as Hs. unfold zlen in Hs. lia. }
    assert (Hlen : zlen (live_slots_in (model s) (read_order (cb_max_files b))) =
      zlen (live_slots_in (model s) (Z.of_nat <$> seq 0 (length (ch_slots (model s)))))).
    { unfold zlen. f_equal. apply Permutation_length, live_slots_perm.
      rewrite (read_order_complete _ Hn Hmax Hg), Hsz, Nat2Z.id. done. }
    rewrite Hlen. apply live_slots_count. intros i t Hi. cbn [Nat.add]. unfold slot_at.
    by rewrite Nat2Z.id, nth_lookup, Hi.
Qed.

(** C38: What a passing run of the churn probe has shown.  For a build whose
    sizes are within the buffer and whose number of slots is coprime to the step
    of the reads, a run whose checks succeed started from a new flash, formatted
    and mounted, and has written the bytes it was to write in a sequence of
    events; every live file was found before and after the flash that the run
    left was mounted by a fresh structure; on that new mount, the files that the
    events have left (written and not deleted since) were opened and read, each
    once, and had, up to its size, the pattern of its last write; and their
    number is the one of the live files of the model. *)
Theorem churn_probe_verdict (max : Z) (rounds : nat) (r : probe_report preset b) :
  build_ok max b -> run_churn_checks preset b rounds = Some (inr tt, Some r) ->
  exists flash w m events,
    snd (ffsv_flash_create (probe_flash_config preset b)) = Some flash /\
    run_fs (fffs_format (mk_format_options 0 0) ;; probe_mount_fs preset b)
      (fresh_fs (mk_vstate flash sampler_zero tt)) = Some (inr tt, w) /\
    init_host_churn_model b = Some m /\
    probe_verdict (start_run preset b w m) events r.
Proof.
  intros Hb. unfold run_churn_checks.
  destruct (ffsv_flash_config_preset _ _) as [err cfg]. destruct (err =? FFSV_OK); [| done].
  cbn [negb]. destruct (ffsv_flash_create _) as [err' [flash |]]; [| done].
  destruct (run_fs _ (fresh_fs _)) as [[[e | []] w] |] eqn:Hrun; try done.
  destruct (init_host_churn_model b) as [m |] eqn:Hi; [| done].
  destruct (next_sequence preset b w) as [seq |]; [| done].
  destruct (probe_rounds _ _ _ _) as [[[e | []] s] |] eqn:Hr; try done. intros Hc.
  destruct (start_inv max m w Hb Hi) as [H0 _].
  apply (rounds_done max _ _ [] _ _ H0) in Hr as (events & Htr & Hd); [| constructor].
  exists flash, w, m, events. repeat (split; [done |]).
  eapply checks_ok; [exact Hb | by apply (trace_keeps_inv _ _ _ _ H0 Htr) | done..].
Qed.
End Spec.

(** ** The profiles *)

(** A read or a program has no place in the sectors of an unmounted structure. *)
Lemma unmounted_profile_undefined log before_seq after_seq : forall r p, r ∈ log ->
  before_seq <= or_sequence r < after_seq -> 0 <= or_sector r ->
  or_type r = FFSV_OP_READ \/ or_type r = FFSV_OP_PROGRAM ->
  summarize_loop fffs_zero log before_seq after_seq p = None.
Proof.
  induction log as [| r0 log IH]; intros r p Hin Hseq Hsec Hty; [by apply elem_of_nil in Hin |].
  cbn [summarize_loop]. apply elem_of_cons in Hin as [<- | Hin].
  - destruct (Z.ltb_spec (or_sequence r) before_seq); [lia |].
    destruct (Z.leb_spec after_seq (or_sequence r)); [lia |]. cbn [orb].
    assert (Hnone : classify_profile_op fffs_zero r = None); [| by rewrite Hnone].
    unfold classify_profile_op. change (index_sectors (fs_geo fffs_zero)) with 0.
    destruct (Z.ltb_spec (or_sector r) 0); [lia |].
    by destruct Hty as [Hty | Hty]; rewrite Hty; unfold profile_tests; rewrite Hty.
  - destruct (_ || _); [by apply (IH r) |].
    destruct (classify_profile_op _ _); [by apply (IH r) | done].
Qed.
