(* ===== verification/ProbeRuns.v ===== *)
(** * Runs of the churn probe

    The probe of [ChurnProbe] on the file system with the hash-table index,
    evaluated with a small build, and the witnesses of the theorems of
    [ChurnProbeSpec]. *)

From Stdlib Require Import String.
From S2P Require Export ChurnProbeSpec HashIndex.

#[local] Open Scope Z_scope.

#[local] Existing Instance fffs_host_backend_from_verify_flash | 100.

(** [host_churn_profile] of a build for small files. *)
Definition small_files_profile (min_size max_size : Z) : bench_churn_profile_t :=
  mk_profile (Some (bytes_of_string "sf"%string)) 25 false
    (mk_class_profile (bytes_of_string "small_1_5k"%string) 1000 min_size max_size)
    (mk_class_profile [] 0 0 0) (mk_class_profile [] 0 0 0).

(** The constants of the source, with and without
    [FFFS_HOST_CHURN_PROFILE_SMALL_FILES]. *)
Definition default_build : churn_build :=
  mk_build (2 * 1024 * 1024) (mk_targets (512 * 1024) (1024 * 1024) (64 * 1024) (768 * 1024))
    BENCH_CHURN_MAX_FILES 16 4096 0x4f465346 default_profile 1024.

Definition small_files_build : churn_build :=
  mk_build (4 * 1024 * 1024) (mk_targets 2308848 (8 * 1024 * 1024) (128 * 1024) (2 ^ 32 - 1))
    5000 16 4096 0x4f465346 (small_files_profile 1 (5 * 1024)) 1024.

Lemma default_build_ok : build_ok (350 * 1024) default_build.
Proof.
  split; [| vm_compute; split; discriminate | by left | done | done].
  split; [done | done | done |].
  repeat constructor; try done.
Qed.

Lemma small_files_build_ok : build_ok (5 * 1024) small_files_build.
Proof.
  split; [| vm_compute; split; discriminate | right; done | done | done].
  split; [done | done | done |].
  repeat constructor; try done.
Qed.

(** A build that the kernel can run: 64 KiB, twenty slots, files of up to 500
    bytes, 3000 bytes to write. *)
Definition demo_build : churn_build :=
  mk_build (64 * 1024) (mk_targets 1500 3000 300 (2 ^ 32 - 1)) 20 16 4096 0x4f465346
    (small_files_profile 1 500) 16.

Definition demo_probe_index : @IndexCache (probe_backend FFSV_PRESET_TARGET_NOR_NOTES demo_build) :=
  hash_index.

Definition demo_probe_fuel : Fuel := Z.to_nat 6000.

Lemma demo_build_ok : build_ok 500 demo_build.
Proof.
  split; [| vm_compute; split; discriminate | right; done | done | done].
  split; [done | done | done |].
  repeat constructor; try done.
Qed.

#[local] Abbreviation demo_checks :=
  (@run_churn_checks FFSV_PRESET_TARGET_NOR_NOTES demo_build demo_probe_index
     demo_probe_fuel 30).

Definition checks_summary {preset b} (r : option (result * option (probe_report preset b)))
  : option (result * Z * Z * Z * Z) :=
  match r with
  | Some (err, Some r) =>
      Some (err, rp_listed preset b r, rp_read_files preset b r,
            ps_write_ops preset b (rp_churn preset b r),
            ps_delete_ops preset b (rp_churn preset b r))
  | _ => None
  end.

Lemma checks_summary_ok {preset b} (r : option (result * option (probe_report preset b))) x :
  checks_summary r = Some x -> fst (fst (fst (fst x))) = inr tt ->
  exists report, r = Some (inr tt, Some report).
Proof. destruct r as [[err [rep |]] |]; [| done..]. intros [= <-]. simpl. intros ->. by exists rep. Qed.

Lemma demo_checks_summary : checks_summary demo_checks = Some (inr tt, 6, 6, 12, 0).
Proof. vm_cast_no_check (eq_refl (Some (inr tt : result, 6, 6, 12, 0))). Qed.

(** The probe cannot print its profiles.  Of a small build the checks of
    [run_churn] succeed: the files that are left are found, listed and read
    back.  But the profiles of the churn and of the warm list are made with the
    first [struct fffs], which has been unmounted by then and is all zero:
    [classify_profile_op] divides by its sector size, and the run has no
    result. *)
Theorem churn_probe_divides_by_zero :
  checks_summary demo_checks = Some (inr tt, 6, 6, 12, 0) /\
  @run_churn FFSV_PRESET_TARGET_NOR_NOTES demo_build demo_probe_index demo_probe_fuel 30 = None.
Proof.
  split; [exact demo_checks_summary |]. vm_cast_no_check (eq_refl (@None Z)).
Qed.

(** ** Witnesses *)

Lemma churn_probe_verdict_witness : exists s0 events r,
  @probe_verdict FFSV_PRESET_TARGET_NOR_NOTES demo_build demo_probe_index demo_probe_fuel
    s0 events r.
Proof.
  destruct (checks_summary_ok _ _ demo_checks_summary eq_refl) as [r Hr].
  destruct (@churn_probe_verdict FFSV_PRESET_TARGET_NOR_NOTES demo_build demo_probe_index
    demo_probe_fuel 500 30 r demo_build_ok Hr) as (flash & w & m & events & _ & _ & _ & Hv).
  by exists (start_run FFSV_PRESET_TARGET_NOR_NOTES demo_build w m), events, r.
Defined.

(** A new file system, mounted. *)
Definition mounted_world (preset : ffsv_flash_preset) (b : churn_build)
    {I : @IndexCache (probe_backend preset b)} {F : Fuel} : @world (probe_backend preset b) :=
  match ffsv_flash_create (probe_flash_config preset b) with
  | (_, Some flash) =>
      snd (bind (fffs_format (mk_format_options 0 0)) (fun _ => probe_mount_fs preset b)
             (fresh_fs (mk_vstate flash sampler_zero tt)))
  | (_, None) => mk_world (None : @be_ctx (probe_backend preset b)) fffs_zero ∅
  end.

#[local] Abbreviation small_files_start m :=
  (start_run FFSV_PRESET_ESP32S3_MEASURED small_files_build
     (@mounted_world FFSV_PRESET_ESP32S3_MEASURED small_files_build hash_index demo_probe_fuel) m).

(** The build for small files: 8 MiB to write, of at most 5 KiB each. *)
Lemma churn_probe_ends_witness :
  exists m, init_host_churn_model small_files_build = Some m /\
    forall events s,
      @churn_trace FFSV_PRESET_ESP32S3_MEASURED small_files_build hash_index demo_probe_fuel
        (small_files_start m) events s ->
      zlen events <= 16 * 1024 * 1024.
Proof.
  eexists. split; [reflexivity |]. intros events s Htr.
  exact (proj1 (proj1 (@churn_probe_ends FFSV_PRESET_ESP32S3_MEASURED small_files_build hash_index
    demo_probe_fuel (5 * 1024) 0 _ _ small_files_build_ok eq_refl) _ _ Htr)).
Defined.
