(* ===== verification/Tool.v ===== *)
(** * The command line tool

    [src/tools/fffs_tool.c]: images are made, loaded with a tree of host files,
    listed, checked and dumped.  An image file is its bytes; the host's files
    are a tree; a command gives its status, what it prints as data and, if it
    writes the image, the new image.

    Numbers of the command line are what [strtoull] makes of the arguments.
    Host calls that write the image succeed, and so does [malloc].  Not
    modelled: the texts that are printed. *)

From S2P Require Export Workload Inspect HostRun.

#[local] Open Scope Z_scope.
#[local] Open Scope fffs_scope.

(** ** The host's files *)

(** What [lstat] finds at a path; the entries are in the order of [readdir].
    [opens] and [reads]: whether [fopen] or [opendir] succeeds, and the reads of
    the contents. *)
Inductive host_node : Type :=
| HOST_MISSING
| HOST_FILE (opens reads : bool) (content : list Z)
| HOST_DIR (opens : bool) (entries : list (list Z * host_node))
| HOST_OTHER.

Definition slash : Z := 47.
Definition dot_name : list Z := [46].
Definition dot_dot_name : list Z := [46; 46].

(** The path without the slashes at its end, but for a first one. *)
Fixpoint drop_slashes (reversed : list Z) : list Z :=
  match reversed with
  | c :: (_ :: _) as rest => if c =? slash then drop_slashes rest else reversed
  | _ => reversed
  end.

Definition dup_trimmed_root (root : list Z) : list Z := rev (drop_slashes (rev root)).

Definition path_join (a b : list Z) : list Z :=
  match last a with
  | Some c => if c =? slash then a ++ b else a ++ [slash] ++ b
  | None => a ++ b
  end.

Definition relative_name (root path : list Z) : list Z :=
  match drop (length root) path with
  | c :: rel => if c =? slash then rel else c :: rel
  | [] => []
  end.

Definition is_dot_entry (name : list Z) : bool :=
  bool_decide (name = dot_name) || bool_decide (name = dot_dot_name).

Record load_plan : Type := mk_plan {
  pl_files : Z;
  pl_bytes : Z;
}.

(** The status and the plan. *)
Fixpoint scan_load_tree (root path : list Z) (node : host_node) (plan : load_plan)
  : result * load_plan :=
  match node with
  | HOST_MISSING => (inl FFFS_ERR_IO, plan)
  | HOST_FILE _ _ content =>
      let name := relative_name root path in
      if (zlen name =? 0) || (FFFS_MAX_NAME <? zlen name) then (inl FFFS_ERR_INVALID, plan)
      else (inr tt, mk_plan (usz (pl_files plan + 1)) (usz (pl_bytes plan + zlen content)))
  | HOST_DIR opens entries =>
      if negb opens then (inl FFFS_ERR_IO, plan)
      else
        (fix scan_entries (entries : list (list Z * host_node)) (plan : load_plan) :=
           match entries with
           | [] => (inr tt, plan)
           | (name, child) :: entries =>
               if is_dot_entry name then scan_entries entries plan
               else
                 match scan_load_tree root (path_join path name) child plan with
                 | (inl err, plan) => (inl err, plan)
                 | (inr _, plan) => scan_entries entries plan
                 end
           end) entries plan
  | HOST_OTHER => (inr tt, plan)
  end.

(** The local [struct fffs_file] of [load_file]; 0 is the null pointer. *)
Abbreviation tool_file := 1.
Abbreviation LOAD_CHUNK := 256.

Section Load.
Context `{Backend} `{!IndexCache} `{Fuel}.

(** The rounds of the loop: a full buffer is written and the next one read; a
    short one is the last. *)
Fixpoint load_chunks (n : nat) (reads : bool) (content : list Z) : M unit :=
  match n with
  | O => diverge
  | S n' =>
      let buffer := take (Z.to_nat LOAD_CHUNK) content in
      written <- try_ (when (0 <? zlen buffer) (fffs_write tool_file buffer)) ;;
      let last := zlen buffer <? LOAD_CHUNK in
      guard_err (last && negb reads) FFFS_ERR_IO ;;
      match written with
      | inl err => fail err
      | inr _ =>
          if last then ret tt
          else load_chunks n' reads (drop (Z.to_nat LOAD_CHUNK) content)
      end
  end.

(** The file stays open when it fails. *)
Definition load_file (opens reads : bool) (content : list Z) (fs_name : list Z) : M unit :=
  guard_err (negb opens) FFFS_ERR_IO ;;
  fffs_open tool_file fs_name (Z.lor (Z.lor FFFS_O_WRONLY FFFS_O_CREATE) FFFS_O_TRUNC) ;;
  load_chunks (S (length content)) reads content ;;
  fffs_close tool_file.

(** The number of files loaded. *)
Fixpoint load_tree (root path : list Z) (node : host_node) (loaded : Z) : M Z :=
  match node with
  | HOST_MISSING => fail FFFS_ERR_IO
  | HOST_FILE opens reads content =>
      load_file opens reads content (relative_name root path) ;;
      ret (usz (loaded + 1))
  | HOST_DIR opens entries =>
      guard_err (negb opens) FFFS_ERR_IO ;;
      (fix load_entries (entries : list (list Z * host_node)) (loaded : Z) : M Z :=
         match entries with
         | [] => ret loaded
         | (name, child) :: entries =>
             if is_dot_entry name then load_entries entries loaded
             else
               loaded <- load_tree root (path_join path name) child loaded ;;
               load_entries entries loaded
         end) entries loaded
  | HOST_OTHER => ret loaded
  end.
End Load.

(** ** Images *)

Abbreviation TOOL_SCRATCH_SIZE := 4096.

(** A device of [size] bytes. *)
Definition tool_config (size : Z) : ffsv_flash_config :=
  preset_config FFSV_PRESET_TARGET_NOR_NOTES size.

Abbreviation tool_backend size :=
  (@fffs_host_backend_from_verify_flash unit (tool_config size)).

(** [parse_size], after [strtoull]: no result unless the whole text is a number. *)
Definition parse_size (value : option Z) : fffs_status + Z :=
  match value with
  | Some v => if v =? 0 then inl FFFS_ERR_INVALID else inr v
  | None => inl FFFS_ERR_INVALID
  end.

Fixpoint sector_shift_loop (n : nat) (shift sector_size : Z) : fffs_status + Z :=
  match n with
  | O => inl FFFS_ERR_INVALID
  | S n' =>
      if Z.shiftl 256 shift =? sector_size then inr sector_size
      else sector_shift_loop n' (shift + 1) sector_size
  end.

Definition sector_enum_from_size (sector_size : Z) : fffs_status + Z :=
  if (sector_size <? Z.shiftl 256 FFFS_MIN_SECTOR_SHIFT) ||
     (Z.shiftl 256 FFFS_MAX_SECTOR_SHIFT <? sector_size)
  then inl FFFS_ERR_INVALID
  else sector_shift_loop (Z.to_nat (FFFS_MAX_SECTOR_SHIFT - FFFS_MIN_SECTOR_SHIFT + 1))
         FFFS_MIN_SECTOR_SHIFT sector_size.

Section Tool.
(** [TOOL_INDEX_HASH_TABLE_SIZE], which the index mode sets. *)
Context (index_heads : Z) (index : forall size, @IndexCache (tool_backend size)) `{Fuel}.

#[local] Existing Instance fffs_host_backend_from_verify_flash | 100.

#[local] Abbreviation UINT8_MAX := 255.
#[local] Abbreviation SIZE_MAX := (2 ^ 64 - 1).

(** [open_image]: the device with the bytes of the file, if there is one. *)
Definition open_image (image : option (list Z)) : option (fffs_status + @vstate unit) :=
  match image with
  | None => Some (inl FFFS_ERR_IO)
  | Some bytes =>
      if zlen bytes <=? 0 then Some (inl FFFS_ERR_INVALID)
      else
        match ffsv_flash_create_with_preset FFSV_PRESET_TARGET_NOR_NOTES (zlen bytes) with
        | (_, None) => Some (inl FFFS_ERR_INVALID)
        | (_, Some flash) =>
            match ffsv_flash_load_image bytes (vc_total_size (vf_cfg flash))
                    (mk_vstate flash sampler_zero tt) with
            | None => None
            | Some (err, st) =>
                if negb (err =? FFSV_OK) then Some (inl FFFS_ERR_IO) else Some (inr st)
            end
        end
  end.

Definition tool_mount_options (size : Z) : fffs_mount_options :=
  mk_mount_options true (index_cache_required_size (IndexCache := index size) index_heads)
    index_heads (Some (fill TOOL_SCRATCH_SIZE 0)) TOOL_SCRATCH_SIZE false
    (Some (fill 2048 0)) 2048.

Definition mount_tool_fs (size : Z) : @M (tool_backend size) unit :=
  @fffs_mount (tool_backend size) (index size) (tool_mount_options size).

(** A command on an image that has been opened: its status or its result, and
    the device after it. *)
Definition on_image {A} (size : Z) (st : @vstate unit) (m : @M (tool_backend size) A)
  : option ((fffs_status + A) * option (@vstate unit)) :=
  match run_fs (cfg := tool_config size) m (fresh_fs st) with
  | Some (r, w) => Some (r, w_ctx w)
  | None => None
  end.

(** ** Commands *)

Definition cmd_dump (image : option (list Z)) : option (fffs_status + list report_line) :=
  match open_image image with
  | None => None
  | Some (inl err) => Some (inl err)
  | Some (inr st) =>
      let size := vc_total_size (vf_cfg (vs_flash st)) in
      fst <$> on_image size st fffs_inspect_dump
  end.

Definition cmd_fragstats (image : option (list Z)) : option (fffs_status + list report_line) :=
  match open_image image with
  | None => None
  | Some (inl err) => Some (inl err)
  | Some (inr st) =>
      let size := vc_total_size (vf_cfg (vs_flash st)) in
      fst <$> on_image size st fffs_inspect_fragstats_dump
  end.

Definition summary_is_corrupt (s : fffs_inspect_summary) : bool :=
  negb (ic_corrupt_records (sum_index s) =? 0) ||
  negb (ic_live_entries_corrupt (sum_index s) =? 0) ||
  negb (sc_corrupt (sum_sectors s) =? 0) ||
  negb (mc_corrupt (sum_md s) =? 0).

(** The status, and the summary when it is printed. *)
Definition cmd_check (image : option (list Z)) : option (result * option fffs_inspect_summary) :=
  match open_image image with
  | None => None
  | Some (inl err) => Some (inl err, None)
  | Some (inr st) =>
      let size := vc_total_size (vf_cfg (vs_flash st)) in
      match on_image size st fffs_inspect_check with
      | None => None
      | Some (inl err, _) => Some (inl err, None)
      | Some (inr summary, _) =>
          Some (if summary_is_corrupt summary then inl FFFS_ERR_CORRUPT else inr tt, Some summary)
      end
  end.

(** The status and the entries that are printed before it is known; the status of
    the close is not used. *)
Definition list_files (size : Z) : @M (tool_backend size) (list fffs_stat * result) :=
  let dir := snd (fffs_dir_open None) in
  let* (entries, dir) := @list_loop (tool_backend size) (index size) fuel dir [] in
  ret (entries, match fffs_dir_status dir with FFFS_OK => inr tt | err => inl err end).

Definition cmd_list (image : option (list Z)) : option (result * list fffs_stat) :=
  match open_image image with
  | None => None
  | Some (inl err) => Some (inl err, [])
  | Some (inr st) =>
      let size := vc_total_size (vf_cfg (vs_flash st)) in
      match on_image size st (mount_tool_fs size ;; list_files size) with
      | None => None
      | Some (inl err, _) => Some (inl err, [])
      | Some (inr (entries, err), _) => Some (err, entries)
      end
  end.

(** [err], or the bytes of the device, which are written to the image file. *)
Definition dump_image (r : result) (st : option (@vstate unit)) : fffs_status + list Z :=
  match r, st with
  | inl err, _ => inl err
  | inr _, Some st => inr (ffsv_flash_image (vs_flash st))
  | inr _, None => inl FFFS_ERR_IO
  end.

Definition cmd_create (sector_size_text sector_count_text : option Z)
    (index_text : option (option Z)) : option (fffs_status + list Z) :=
  match parse_size sector_size_text with
  | inl err => Some (inl err)
  | inr sector_size =>
  match parse_size sector_count_text with
  | inl _ => Some (inl FFFS_ERR_INVALID)
  | inr sector_count =>
  if UINT16_MAX <? sector_count then Some (inl FFFS_ERR_INVALID)
  else
  match sector_enum_from_size sector_size with
  | inl err => Some (inl err)
  | inr format_sector_size =>
  match (match index_text with
         | None => inr FFFS_DEFAULT_INDEX_SECTORS
         | Some text =>
             match parse_size text with
             | inr n => if UINT8_MAX <? n then inl FFFS_ERR_INVALID else inr n
             | inl _ => inl FFFS_ERR_INVALID
             end
         end) with
  | inl err => Some (inl err)
  | inr index_sectors =>
  if SIZE_MAX / sector_size <? sector_count then Some (inl FFFS_ERR_INVALID)
  else
    let size := sector_size * sector_count in
    match ffsv_flash_create_with_preset FFSV_PRESET_TARGET_NOR_NOTES size with
    | (_, None) => Some (inl FFFS_ERR_INVALID)
    | (_, Some flash) =>
        match on_image size (mk_vstate flash sampler_zero tt)
                (fffs_format (mk_format_options (u8 index_sectors) format_sector_size)) with
        | None => None
        | Some (r, st) => Some (dump_image r st)
        end
    end
  end end end end.

Definition tool_workload_options (rounds : Z) : fffs_workload_options :=
  mk_workload_options 0x12345678 rounds 224 (350 * 1024).

Definition cmd_workload (size_text : option Z) (rounds_text : option (option Z))
  : option (fffs_status + list Z) :=
  match parse_size size_text with
  | inl err => Some (inl err)
  | inr size =>
  match (match rounds_text with None => inr 100 | Some text => parse_size text end) with
  | inl err => Some (inl err)
  | inr rounds =>
    match ffsv_flash_create_with_preset FFSV_PRESET_TARGET_NOR_NOTES size with
    | (_, None) => Some (inl FFFS_ERR_INVALID)
    | (_, Some flash) =>
        match on_image size (mk_vstate flash sampler_zero tt)
                (fffs_format (mk_format_options 0 0) ;; mount_tool_fs size ;;
                 bind (@fffs_workload_run (tool_backend size) (index size) _
                         tool_file (Some (tool_workload_options rounds))) (fun _ => ret tt)) with
        | None => None
        | Some (r, st) => Some (dump_image r st)
        end
    end
  end end.

(** [tree]: what [lstat] finds at the root.  The scan comes first: it changes
    nothing. *)
Definition cmd_load (image : option (list Z)) (root_arg : list Z) (tree : host_node)
  : option (fffs_status + Z * list Z) :=
  let root := dup_trimmed_root root_arg in
  match scan_load_tree root root tree (mk_plan 0 0) with
  | (inl err, _) => Some (inl err)
  | (inr _, _) =>
  match open_image image with
  | None => None
  | Some (inl err) => Some (inl err)
  | Some (inr st) =>
      let size := vc_total_size (vf_cfg (vs_flash st)) in
      match on_image size st
              (mount_tool_fs size ;;
               @load_tree (tool_backend size) (index size) _ root root tree 0) with
      | None => None
      | Some (inl err, _) => Some (inl err)
      | Some (inr loaded, Some st) => Some (inr (loaded, ffsv_flash_image (vs_flash st)))
      | Some (inr _, None) => Some (inl FFFS_ERR_IO)
      end
  end end.
End Tool.
