(* ===== verification/ToolSpec.v ===== *)
(** * What the tool's load does

    The recursion of [load_tree] over directories is the loop over the files of
    the tree in its order, with the names that the directories give them; the
    scan that comes before it has counted those files and checked their names;
    and each file is written in chunks that are its contents. *)

From S2P Require Export Tool.

#[local] Open Scope Z_scope.
#[local] Open Scope fffs_scope.

(** ** Trees *)

Section HostInd.
Context (P : host_node -> Prop).
Context (Hmissing : P HOST_MISSING) (Hother : P HOST_OTHER).
Context (Hfile : forall opens reads content, P (HOST_FILE opens reads content)).
Context (Hdir : forall opens entries, Forall (fun e => P (snd e)) entries ->
  P (HOST_DIR opens entries)).

Fixpoint host_node_rect' (node : host_node) : P node :=
  match node with
  | HOST_MISSING => Hmissing
  | HOST_FILE opens reads content => Hfile opens reads content
  | HOST_DIR opens entries =>
      Hdir opens entries
        ((fix all (entries : list (list Z * host_node))
            : Forall (fun e => P (snd e)) entries :=
            match entries with
            | [] => Forall_nil_2 _
            | e :: entries => Forall_cons_2 _ _ _ (host_node_rect' (snd e)) (all entries)
            end) entries)
  | HOST_OTHER => Hother
  end.
End HostInd.

(** A file of the tree: its name from the root, whether it can be opened and read,
    its contents. *)
Record tree_file : Type := mk_tree_file {
  tf_name : list Z;
  tf_opens : bool;
  tf_reads : bool;
  tf_content : list Z;
}.

Definition sub_name (prefix name : list Z) : list Z :=
  match prefix with [] => name | _ => prefix ++ slash :: name end.

(** The files below [prefix], in the order of the directories. *)
Fixpoint tree_files (prefix : list Z) (node : host_node) : list tree_file :=
  match node with
  | HOST_FILE opens reads content => [mk_tree_file prefix opens reads content]
  | HOST_DIR _ entries =>
      (fix entry_files (entries : list (list Z * host_node)) : list tree_file :=
         match entries with
         | [] => []
         | (name, child) :: entries =>
             (if is_dot_entry name then [] else tree_files (sub_name prefix name) child) ++
             entry_files entries
         end) entries
  | HOST_MISSING | HOST_OTHER => []
  end.

(** The names of directory entries. *)
Definition entry_name_ok (name : list Z) : Prop := name <> [] /\ slash ∉ name.

Fixpoint tree_ok (node : host_node) : Prop :=
  match node with
  | HOST_DIR _ entries =>
      (fix entries_ok (entries : list (list Z * host_node)) : Prop :=
         match entries with
         | [] => True
         | (name, child) :: entries =>
             (is_dot_entry name = false -> entry_name_ok name /\ tree_ok child) /\
             entries_ok entries
         end) entries
  | _ => True
  end.

(** *** Paths *)

(** A relative name neither starts nor ends with a slash. *)
Definition prefix_ok (prefix : list Z) : Prop :=
  head prefix <> Some slash /\ last prefix <> Some slash.

Definition path_of (root prefix : list Z) : list Z :=
  match prefix with [] => root | _ => path_join root prefix end.

Lemma last_app_cons {A} (l1 l2 : list A) x : last (l1 ++ x :: l2) = last (x :: l2).
Proof. rewrite last_app. by destruct (last (x :: l2)) eqn:Hl; [| apply last_None in Hl]. Qed.

Lemma sub_name_ok prefix name : prefix_ok prefix -> entry_name_ok name ->
  prefix_ok (sub_name prefix name).
Proof.
  intros [Hh Hl] [Hne Hs].
  assert (Hlast : last name <> Some slash).
  { intros Heq. apply Hs, (list_elem_of_In). apply last_Some in Heq as [l ->].
    apply in_or_app. right. by left. }
  assert (Hhead : head name <> Some slash).
  { destruct name as [| c name]; [done |]. intros [= ->]. apply Hs. by left. }
  unfold sub_name. destruct prefix as [| c prefix]; [done |]. split; [done |].
  rewrite last_app_cons. destruct name as [| d name]; [done |]. exact Hlast.
Qed.

Lemma path_join_sub root prefix name : prefix_ok prefix -> entry_name_ok name ->
  path_join (path_of root prefix) name = path_of root (sub_name prefix name).
Proof.
  intros [Hh Hl] [Hne Hs]. destruct prefix as [| c prefix].
  { cbn [path_of sub_name]. by destruct name. }
  assert (Hlast : last (path_join root (c :: prefix)) = last (c :: prefix)).
  { unfold path_join. destruct (last root) as [d |] eqn:Hd.
    - destruct (d =? slash); [apply last_app_cons |]. cbn [app]. rewrite last_app_cons. done.
    - apply last_None in Hd as ->. done. }
  cbn [path_of sub_name app]. unfold path_join at 1. rewrite Hlast.
  destruct (last (c :: prefix)) as [d |] eqn:Hd; [| by apply last_None in Hd].
  destruct (Z.eqb_spec d slash) as [-> |]; [done |].
  unfold path_join. destruct (last root) as [d' |]; [destruct (d' =? slash) |];
    by rewrite <- !app_assoc.
Qed.

Lemma relative_path_of root prefix : prefix_ok prefix ->
  relative_name root (path_of root prefix) = prefix.
Proof.
  intros [Hh _]. unfold relative_name. destruct prefix as [| c prefix].
  { cbn [path_of]. by rewrite drop_all. }
  cbn [path_of]. unfold path_join. assert (Hc : (c =? slash) = false).
  { apply Z.eqb_neq. intros ->. by apply Hh. }
  destruct (last root) as [d |] eqn:Hd.
  - destruct (d =? slash); rewrite drop_app_length; [by rewrite Hc |]. cbn [app].
    by rewrite Z.eqb_refl.
  - apply last_None in Hd as ->. cbn [length app drop]. by rewrite Hc.
Qed.

(** ** The recursion and the loop *)

Definition add_to_plan (plan : load_plan) (f : tree_file) : load_plan :=
  mk_plan (usz (pl_files plan + 1)) (usz (pl_bytes plan + zlen (tf_content f))).

Definition name_fits (f : tree_file) : Prop := 1 <= zlen (tf_name f) <= FFFS_MAX_NAME.

Section Spec.
Context `{Backend} `{!IndexCache} `{Fuel}.

Fixpoint load_files (files : list tree_file) (loaded : Z) : M Z :=
  match files with
  | [] => ret loaded
  | f :: files =>
      load_file (tf_opens f) (tf_reads f) (tf_content f) (tf_name f) ;;
      load_files files (usz (loaded + 1))
  end.

Lemma load_files_app a b : forall loaded w,
  load_files (a ++ b) loaded w = bind (load_files a loaded) (load_files b) w.
Proof.
  induction a as [| f a IH]; intros loaded w; [done |].
  cbn [app load_files]. unfold bind at 1 3. unfold bind at 1.
  destruct (load_file _ _ _ _ w) as [[[] | e |] w1]; [apply IH | done..].
Qed.

(** The scan's plan, the names and the load of the files below [prefix]. *)
Definition loads_files (root : list Z) (node : host_node) : Prop :=
  forall prefix plan plan', tree_ok node -> prefix_ok prefix ->
  scan_load_tree root (path_of root prefix) node plan = (inr tt, plan') ->
  let files := tree_files prefix node in
  plan' = foldl add_to_plan plan files /\ Forall name_fits files /\
  forall loaded w,
    load_tree root (path_of root prefix) node loaded w = load_files files loaded w.

Lemma tree_loads_files root node : loads_files root node.
Proof.
  induction node as [| | opens reads content | opens entries IH] using host_node_rect';
    intros prefix plan plan' Hok Hp; cbn [scan_load_tree].
  - done.
  - intros [= <-]. by split_and!.
  - rewrite relative_path_of by done. cbv zeta. cbn [tree_files foldl load_files load_tree tf_name
      tf_opens tf_reads tf_content].
    destruct (Z.eqb_spec (zlen prefix) 0), (Z.ltb_spec FFFS_MAX_NAME (zlen prefix)); try done.
    intros [= <-]. split; [done |]. split.
    + repeat constructor; cbn [tf_name]; [pose proof (zlen_nonneg prefix); lia | lia].
    + intros loaded w. by rewrite relative_path_of.
  - destruct opens; [| done]. cbn [negb tree_files load_tree tree_ok] in *. cbv zeta.
    unfold guard_err at 1. revert plan plan' Hok.
    induction IH as [| [name child] entries Hchild _ IHe]; intros plan plan' Hok Hscan.
    { injection Hscan as <-. by split_and!. }
    destruct Hok as [Hname Hok]. destruct (is_dot_entry name).
    { cbn [app]. by apply IHe. }
    destruct (Hname eq_refl) as [Hn Hc]. rewrite path_join_sub in * by done.
    destruct (scan_load_tree _ _ child plan) as [[err | []] plan1] eqn:Hs; [done |].
    apply Hchild in Hs as (-> & Hf1 & Hl1); [| done | by apply sub_name_ok].
    apply IHe in Hscan as (-> & Hf2 & Hl2); [| done].
    split; [by rewrite foldl_app |]. split; [by apply Forall_app |].
    intros loaded w. rewrite load_files_app. unfold bind in Hl2 |- *. cbn [ret] in *.
    cbn in Hl2. cbn. rewrite Hl1.
    destruct (load_files _ loaded w) as [[n | e |] w1]; [apply Hl2 | done..].
Qed.

(** ** The writes of a file *)

Fixpoint write_all (chunks : list (list Z)) : M unit :=
  match chunks with
  | [] => ret tt
  | chunk :: chunks => fffs_write tool_file chunk ;; write_all chunks
  end.

(** [content] is written in [chunks] of at most the size of the buffer. *)
Definition chunks_of (content : list Z) (chunks : list (list Z)) : Prop :=
  List.concat chunks = content /\ Forall (fun c => 1 <= zlen c <= LOAD_CHUNK) chunks.

Lemma load_chunks_writes n : forall content, (length content < n)%nat ->
  exists chunks, chunks_of content chunks /\
    forall w, load_chunks n true content w = write_all chunks w.
Proof.
  induction n as [| n IH]; intros content Hn; [lia |].
  set (buffer := take (Z.to_nat LOAD_CHUNK) content).
  assert (Hlen : zlen buffer = Z.min LOAD_CHUNK (zlen content)).
  { unfold buffer, zlen. rewrite length_take. lia. }
  assert (Hrun : forall w, load_chunks (S n) true content w =
    bind (when (0 <? zlen buffer) (fffs_write tool_file buffer)) (fun _ =>
      if zlen buffer <? LOAD_CHUNK then ret tt
      else load_chunks n true (drop (Z.to_nat LOAD_CHUNK) content)) w).
  { intros w. cbn [load_chunks]. fold buffer. cbv zeta. unfold guard_err.
    rewrite andb_false_r. unfold bind, try_.
    by destruct (when _ _ w) as [[[] | e |] w1]. }
  destruct (Z.ltb_spec (zlen content) LOAD_CHUNK) as [Hlt | Hge].
  - assert (Hb : buffer = content).
    { apply take_ge. unfold zlen in Hlt. lia. }
    rewrite Hb in *. rewrite (proj2 (Z.ltb_lt (zlen content) LOAD_CHUNK)) in Hrun by lia.
    destruct content as [| c content].
    + exists []. split; [done |]. intros w. by rewrite Hrun.
    + exists [c :: content]. rewrite zlen_cons in *. pose proof (zlen_nonneg content).
      rewrite (proj2 (Z.ltb_lt 0 _)) in Hrun by lia. split; [| exact Hrun].
      split; [by rewrite concat_cons, app_nil_r | repeat constructor; rewrite zlen_cons; lia].
  - rewrite Hlen, Z.min_l in Hrun by lia. cbn [Z.ltb Z.compare Pos.compare Pos.compare_cont] in Hrun.
    destruct (IH (drop (Z.to_nat LOAD_CHUNK) content)) as (chunks & [Hc Hf] & Hrest).
    { rewrite length_drop. unfold zlen in Hge. lia. }
    exists (buffer :: chunks). split; [split |].
    + rewrite concat_cons, Hc. apply take_drop.
    + constructor; [lia | exact Hf].
    + intros w. rewrite Hrun. cbn [write_all when]. unfold bind.
      by destruct (fffs_write tool_file buffer w) as [[[] | e |] w1].
Qed.

Lemma load_file_writes content name : exists chunks, chunks_of content chunks /\
  forall w, load_file true true content name w =
    (fffs_open tool_file name (Z.lor (Z.lor FFFS_O_WRONLY FFFS_O_CREATE) FFFS_O_TRUNC) ;;
     write_all chunks ;; fffs_close tool_file) w.
Proof.
  destruct (load_chunks_writes (S (length content)) content ltac:(lia)) as (chunks & Hc & Hw).
  exists chunks. split; [done |]. intros w. unfold load_file, guard_err. cbn [negb].
  unfold bind, ret. destruct (fffs_open _ _ _ w) as [[[] | e |] w1]; [| done..]. by rewrite Hw.
Qed.

Lemma load_files_count files : forall loaded n w w',
  load_files files loaded w = (Ok n, w') -> 0 <= loaded < 2 ^ 64 ->
  n = pl_files (foldl add_to_plan (mk_plan loaded 0) files).
Proof.
  assert (Hbytes : forall files a b c, pl_files (foldl add_to_plan (mk_plan a b) files) =
    pl_files (foldl add_to_plan (mk_plan a c) files)).
  { clear. induction files as [| f files IH]; intros a b c; [done |]. cbn [foldl]. apply IH. }
  induction files as [| f files IH]; intros loaded n w w' Hrun Hl; [by injection Hrun |].
  cbn [load_files] in Hrun. apply bind_ok in Hrun as ([] & w1 & _ & Hrun).
  apply IH in Hrun as ->; [cbn [foldl]; apply Hbytes | apply Z.mod_pos_bound; lia].
Qed.

Definition tree_bytes (files : list tree_file) : Z :=
  foldr (fun f n => zlen (tf_content f) + n) 0 files.

Lemma plan_counts files : forall a b, 0 <= a < 2 ^ 64 -> 0 <= b < 2 ^ 64 ->
  foldl add_to_plan (mk_plan a b) files =
    mk_plan (usz (a + zlen files)) (usz (b + tree_bytes files)).
Proof.
  induction files as [| f files IH]; intros a b Ha Hb.
  { cbn. by rewrite !Z.add_0_r, !usz_small. }
  cbn [foldl tree_bytes foldr]. unfold add_to_plan at 2. cbn [pl_files pl_bytes].
  rewrite IH by (apply Z.mod_pos_bound; lia). rewrite !usz_add_l, zlen_cons.
  fold (tree_bytes files). f_equal; f_equal; lia.
Qed.

(** C39: Loading a tree of host files.  When the scan of [cmd_load] accepts a tree
    (whose directory entries have names without slashes), it has counted its
    files and their bytes, every file has a name that the file system can hold,
    and [load_tree] does on any file system what a loop over the files of the
    tree does, in the order of the directories: it gives each file the path
    below the root as its name, whatever slashes end the root, and a load that
    succeeds reports the number of the files.  A file that can be read is
    opened for a new version, its contents are written in chunks of 1 to 256
    bytes that make up exactly the contents, and it is closed. *)
Theorem tool_load_writes_tree (root_arg : list Z) (tree : host_node) (plan : load_plan) :
  let root := dup_trimmed_root root_arg in
  let files := tree_files [] tree in
  tree_ok tree ->
  scan_load_tree root root tree (mk_plan 0 0) = (inr tt, plan) ->
  plan = mk_plan (usz (zlen files)) (usz (tree_bytes files)) /\
  Forall name_fits files /\
  (forall w, load_tree root root tree 0 w = load_files files 0 w) /\
  (forall n w w', load_tree root root tree 0 w = (Ok n, w') -> n = pl_files plan) /\
  forall content name, exists chunks, chunks_of content chunks /\
    forall w, load_file true true content name w =
      (fffs_open tool_file name (Z.lor (Z.lor FFFS_O_WRONLY FFFS_O_CREATE) FFFS_O_TRUNC) ;;
       write_all chunks ;; fffs_close tool_file) w.
Proof.
  intros root files Hok Hscan.
  destruct (tree_loads_files root tree [] (mk_plan 0 0) plan Hok) as (Hplan & Hnames & Hload);
    [by split | exact Hscan |].
  split; [by rewrite Hplan, plan_counts |]. split; [exact Hnames |]. split; [by apply Hload |].
  split; [| apply load_file_writes].
  intros n w w' Hrun. rewrite Hplan. cbn [path_of] in Hload. rewrite Hload in Hrun.
  by apply load_files_count in Hrun.
Qed.
End Spec.
