(* ===== verification/ToolRuns.v ===== *)
(** * Runs of the command line tool

    The commands of [Tool] on the file system with the hash-table index,
    evaluated, and the witnesses of the theorems of [ToolSpec]. *)

From Stdlib Require Import String.
From S2P Require Export ToolSpec HashIndex.

#[local] Open Scope Z_scope.

#[local] Existing Instance fffs_host_backend_from_verify_flash | 100.

Definition demo_tool_index (size : Z) : @IndexCache (tool_backend size) := hash_index.

Definition demo_tool_fuel : Fuel := Z.to_nat 6000.

(** A build with [FFFS_INDEX_HASH_TABLE_SIZE] set to 256. *)
Abbreviation TOOL_INDEX_HEADS := 256.

Definition demo_host_tree : host_node :=
  HOST_DIR true
    [(dot_name, HOST_OTHER); (dot_dot_name, HOST_OTHER);
     (bytes_of_string "a"%string, HOST_FILE true true (bytes_of_string "hello"%string));
     (bytes_of_string "d"%string, HOST_DIR true
        [(bytes_of_string "b"%string, HOST_FILE true true (repeat 7 700));
         (bytes_of_string "c"%string, HOST_FILE true true [])])].

(** An image of a command that has succeeded. *)
Definition image_of (r : option (fffs_status + list Z)) : option (list Z) :=
  match r with Some (inr image) => Some image | _ => None end.

Definition loaded_image (r : option (fffs_status + Z * list Z)) : option (list Z) :=
  match r with Some (inr (_, image)) => Some image | _ => None end.

Definition loaded_count (r : option (fffs_status + Z * list Z)) : option (fffs_status + Z) :=
  match r with
  | Some (inr (n, _)) => Some (inr n)
  | Some (inl err) => Some (inl err)
  | None => None
  end.

#[local] Abbreviation load_demo image tree :=
  (@cmd_load TOOL_INDEX_HEADS demo_tool_index demo_tool_fuel image
     (bytes_of_string "root/"%string) tree).

#[local] Abbreviation demo_image := (image_of (cmd_create (Some 4096) (Some 16) None)).
#[local] Abbreviation demo_loaded := (loaded_image (load_demo demo_image demo_host_tree)).

(** A session: an image is made, a tree is loaded into it, its files are listed
    with their paths and sizes, and the check finds nothing corrupt. *)
Example tool_session :
  loaded_count (load_demo demo_image demo_host_tree) = Some (inr 3) /\
  @cmd_list TOOL_INDEX_HEADS demo_tool_index demo_tool_fuel demo_loaded =
    Some (inr tt, [mk_stat (bytes_of_string "d/c"%string) 0;
                   mk_stat (bytes_of_string "a"%string) 5;
                   mk_stat (bytes_of_string "d/b"%string) 700]) /\
  fst <$> cmd_check demo_loaded = Some (inr tt).
Proof. split; [| split]; vm_compute; reflexivity. Qed.

(** [n] files of three bytes. *)
Definition many_files (n : nat) : host_node :=
  HOST_DIR true
    ((fun i => (decimal 3 (Z.of_nat i), HOST_FILE true true [1; 2; 3])) <$> seq 0 n).

(** The tool makes images with sectors of 256 bytes, but its device erases 4096
    at a time: 66 files fit an image of 64 KiB with sectors of 4096 bytes, and
    with sectors of 256 bytes the load ends with an I/O error. *)
Example small_sectors_fail :
  loaded_count (load_demo (image_of (cmd_create (Some 4096) (Some 16) None)) (many_files 66)) =
    Some (inr 66) /\
  loaded_count (load_demo (image_of (cmd_create (Some 256) (Some 256) None)) (many_files 66)) =
    Some (inl FFFS_ERR_IO).
Proof. split; vm_compute; reflexivity. Qed.

(** ** Witnesses *)

Lemma entry_name_check (name : list Z) :
  negb (bool_decide (name = [])) && bool_decide (slash ∉ name) = true -> entry_name_ok name.
Proof.
  intros [Hn Hs]%andb_true_iff. split; [| by apply bool_decide_eq_true_1 in Hs].
  by apply negb_true_iff, bool_decide_eq_false_1 in Hn.
Qed.

Lemma demo_host_tree_ok : tree_ok demo_host_tree.
Proof.
  cbn [demo_host_tree tree_ok]. split_and!; try done; intros _;
    (split; [by apply entry_name_check |]); try done.
  split_and!; try done; intros _; (split; [by apply entry_name_check |]); done.
Qed.

Lemma tool_load_writes_tree_witness : exists plan,
  plan = mk_plan 3 705 /\
  forall w, @load_tree (tool_backend 65536) (demo_tool_index 65536) demo_tool_fuel
    (bytes_of_string "root"%string) (bytes_of_string "root"%string) demo_host_tree 0 w =
    @load_files (tool_backend 65536) (demo_tool_index 65536) demo_tool_fuel
      (tree_files [] demo_host_tree) 0 w.
Proof.
  exists (mk_plan 3 705). split; [reflexivity |].
  exact (proj1 (proj2 (proj2 (@tool_load_writes_tree (tool_backend 65536) (demo_tool_index 65536)
    demo_tool_fuel (bytes_of_string "root//"%string) demo_host_tree (mk_plan 3 705)
    demo_host_tree_ok eq_refl)))).
Defined.
