(* ===== verification/TimeProbe.v ===== *)
(** * The time probe

    [src/tools/fffs_time_probe.c]: single calls of the file system, on a device
    of the flash harness, each with its simulated time and its flash operations;
    the texts that are printed are left out. *)

From Stdlib Require Import String.
From S2P Require Export ChurnProbe.

#[local] Open Scope Z_scope.
#[local] Open Scope fffs_scope.

(** ** Summaries of the log *)

Record op_summary : Type := mk_op_summary {
  os_calls : Z;
  os_bytes : Z;
  os_ns : Z;
}.

Definition add_op_record (r : ffsv_op_record) (s : op_summary) : op_summary :=
  mk_op_summary (usz (os_calls s + 1))
    (usz (os_bytes s +
          (if negb (or_committed_bytes r =? 0) then or_committed_bytes r else or_size r)))
    (usz (os_ns s + usz (or_time_after_ns r - or_time_before_ns r))).

(** The summaries by operation, in the order of [op_code]. *)
Fixpoint summarize_log (log : list ffsv_op_record) (before_seq after_seq : Z)
    (out : list op_summary) : list op_summary :=
  match log with
  | [] => out
  | r :: log =>
      if (or_sequence r <? before_seq) || (after_seq <=? or_sequence r)
      then summarize_log log before_seq after_seq out
      else
        let i := Z.to_nat (op_code (or_type r)) in
        summarize_log log before_seq after_seq (alter (add_op_record r) i out)
  end.

Definition summarize_ops (flash : ffsv_flash) (before_seq after_seq : Z) : list op_summary :=
  summarize_log (vf_log flash) before_seq after_seq
    (replicate (Z.to_nat FFSV_OP_COUNT) (mk_op_summary 0 0 0)).

(** ** Measured calls *)

Abbreviation TIME_PROBE_SCRATCH_SIZE := 4096.

Definition time_probe_config (preset : ffsv_flash_preset) : ffsv_flash_config :=
  let cfg := preset_config preset (4096 * 256) in
  mk_flash_config (vc_total_size cfg) (vc_sector_size cfg) (vc_program_granule cfg)
    (vc_erased_value cfg) (vc_erase_cycles cfg) (vc_timing cfg) 65536.

Abbreviation time_backend preset :=
  (@fffs_host_backend_from_verify_flash unit (time_probe_config preset)).

(** What [print_delta] prints: the name, the time, the summaries. *)
Record delta : Type := mk_delta {
  dl_name : string;
  dl_ns : Z;
  dl_ops : list op_summary;
}.

Section Probe.
Context (preset : ffsv_flash_preset) (index_heads : Z).
Context {I : @IndexCache (time_backend preset)} `{Fuel}.

#[local] Existing Instance fffs_host_backend_from_verify_flash | 100.

#[local] Abbreviation TM := (@M (time_backend preset)).

(** A call between two looks at the clock and at the sequence number. *)
Definition measured (name : string) {A} (m : TM A) : TM (A * delta) := fun w =>
  match w_ctx w with
  | None => (NoFuel, w)
  | Some c =>
      match m w with
      | (Ok a, w') =>
          match w_ctx w' with
          | None => (NoFuel, w')
          | Some c' =>
              let f := vs_flash c in
              let f' := vs_flash c' in
              (Ok (a, mk_delta name (usz (vf_time_ns f' - vf_time_ns f))
                        (summarize_ops f' (vf_next_sequence f) (vf_next_sequence f'))), w')
          end
      | (Err e, w') => (Err e, w')
      | (NoFuel, w') => (NoFuel, w')
      end
  end.

(** The local [struct fffs_file] of the helpers; it is not closed after an
    error. *)
Definition time_write_file (name data : list Z) : TM unit :=
  fffs_open probe_file name (Z.lor (Z.lor FFFS_O_WRONLY FFFS_O_CREATE) FFFS_O_TRUNC) ;;
  fffs_write probe_file data ;;
  fffs_close probe_file.

Definition time_read_file (name : list Z) (size : Z) : TM (list Z) :=
  fffs_open probe_file name FFFS_O_RDONLY ;;
  data <- fffs_read probe_file size ;;
  fffs_close probe_file ;;
  ret data.

Definition time_mount_options : fffs_mount_options :=
  mk_mount_options true (index_cache_required_size (IndexCache := I) index_heads) index_heads
    (Some (fill TIME_PROBE_SCRATCH_SIZE 0)) TIME_PROBE_SCRATCH_SIZE false (Some (fill 2048 0)) 2048.

Definition time_mount_fs : TM unit := fffs_mount time_mount_options.

(** [struct fffs remounted], on the same flash. *)
Definition second_structure : TM unit := fun w => (Ok tt, mk_world (w_ctx w) fffs_zero ∅).

(** The files [file-000] to [file-099] are written. *)
Fixpoint write_numbered (n : nat) (i : Z) : TM unit :=
  match n with
  | O => ret tt
  | S n' =>
      time_write_file (bytes_of_string "file-"%string ++ decimal 3 i)
        (bytes_of_string "v"%string ++ decimal 3 i) ;;
      write_numbered n' (i + 1)
  end.

(** The status of the listing is not asked for. *)
Definition list_root : TM Z :=
  let '(err, dir) := fffs_dir_open (Some []) in
  check err ;;
  let* (count, _) := list_all_loop fuel dir 0 in
  ret count.

Definition large_content : list Z :=
  (fun i => u8 (Z.of_nat i * 17 + Z.of_nat i / 3)) <$> seq 0 (Z.to_nat (24 * 1024)).

(** The calls on the first structure. *)
Definition probe_small_files : TM (list delta) :=
  let config := bytes_of_string "config"%string in
  let* (_, d1) := measured "format" (fffs_format (mk_format_options 0 0)) in
  let* (_, d2) := measured "mount empty" time_mount_fs in
  let* (_, d3) := measured "write 5 B new"
                    (time_write_file config (bytes_of_string "hello"%string)) in
  let* (_, d4) := measured "stat existing" (fffs_stat_file config) in
  let* (_, d5) := measured "open existing"
                    (fffs_open probe_file config FFFS_O_RDONLY ;; fffs_close probe_file) in
  let* (_, d6) := measured "open+read 5 B" (time_read_file config 32) in
  let* (_, d7) := measured "exists missing" (fffs_exists (bytes_of_string "missing"%string)) in
  let* (_, d8) := measured "overwrite 5 B"
                    (time_write_file config (bytes_of_string "world"%string)) in
  let* (_, d9) := measured "delete existing" (fffs_delete_file config) in
  ret [d1; d2; d3; d4; d5; d6; d7; d8; d9].

(** A hundred files, listed and counted. *)
Definition probe_hundred_files : TM (list delta) :=
  write_numbered 100 0 ;;
  let* (_, d1) := measured "list 100 files" list_root in
  let* (_, d2) := measured "fsinfo fast" (fffs_fsinfo_query 0) in
  let* (info, d3) := measured "fsinfo refresh 100"
                       (fffs_fsinfo_query (Z.lor FFFS_FSINFO_REFRESH_COMMITTED
                                             FFFS_FSINFO_ESTIMATE_METADATA)) in
  guard_err (negb (info_committed_file_count info =? 100)) FFFS_ERR_CORRUPT ;;
  let* (_, d4) := measured "fsinfo fast cached" (fffs_fsinfo_query 0) in
  let* (_, d5) := measured "fsinfo refresh cached"
                    (fffs_fsinfo_query FFFS_FSINFO_REFRESH_IF_NEEDED) in
  fffs_unmount ;;
  ret [d1; d2; d3; d4; d5].

(** The calls on the second structure. *)
Definition probe_remounted : TM (list delta) :=
  let large := bytes_of_string "large.bin"%string in
  second_structure ;;
  let* (_, d1) := measured "mount 100 files" time_mount_fs in
  let* (_, d2) := measured "write 24 KiB" (time_write_file large large_content) in
  let* (_, d3) := measured "open+read 24 KiB" (time_read_file large (24 * 1024)) in
  g <- get_geo ;;
  mod_gc (set_gc_cursor (index_sectors g)) ;;
  let* (_, d4) := measured "GC tombstone step" fffs_gc_step in
  let* (_, d5) := measured "GC erase step" fffs_gc_step in
  fffs_unmount ;;
  ret [d1; d2; d3; d4; d5].

(** [run_probe]: the exit code and the lines printed by a run that succeeds. *)
Definition run_time_probe : option (Z * list delta) :=
  match ffsv_flash_config_preset preset (4096 * 256) with
  | (err, _) =>
  if negb (err =? FFSV_OK) then Some (1, [])
  else
  match ffsv_flash_create (time_probe_config preset) with
  | (_, None) => Some (1, [])
  | (_, Some flash) =>
      match run_fs (cfg := time_probe_config preset)
              (l1 <- probe_small_files ;; l2 <- probe_hundred_files ;;
               l3 <- probe_remounted ;; ret (l1 ++ l2 ++ l3))
              (fresh_fs (mk_vstate flash sampler_zero tt)) with
      | None => None
      | Some (inl _, _) => Some (1, [])
      | Some (inr lines, _) => Some (0, lines)
      end
  end end.
End Probe.

(** [main]: the exit code. *)
Definition time_probe_main (index_heads : Z)
    {I1 : @IndexCache (time_backend FFSV_PRESET_TARGET_NOR_NOTES)}
    {I2 : @IndexCache (time_backend FFSV_PRESET_ESP32S3_MEASURED)} `{Fuel} : option Z :=
  match run_time_probe FFSV_PRESET_TARGET_NOR_NOTES index_heads with
  | Some (0, _) => fst <$> run_time_probe FFSV_PRESET_ESP32S3_MEASURED index_heads
  | Some (err, _) => Some err
  | None => None
  end.
