(* ===== verification/TimeRuns.v ===== *)
(** * A run of the time probe

    The probe of [TimeProbe] on the file system with the hash-table index,
    evaluated. *)

From S2P Require Export TimeProbe HashIndex.

#[local] Open Scope Z_scope.

#[local] Existing Instance fffs_host_backend_from_verify_flash | 100.

(** The reads, programs and erases of each line. *)
Definition line_calls (d : delta) : list Z := os_calls <$> take 3 (dl_ops d).

Definition first_lines (preset : ffsv_flash_preset) : option (list (list Z)) :=
  match ffsv_flash_create (time_probe_config preset) with
  | (_, Some flash) =>
      match run_fs (@probe_small_files preset 256 hash_index (Z.to_nat 40000))
              (fresh_fs (mk_vstate flash sampler_zero tt)) with
      | Some (inr lines, _) => Some (line_calls <$> lines)
      | _ => None
      end
  | (_, None) => None
  end.

(** The calls on the first structure succeed on both presets: a format takes two
    programs and an erase, opening a file three reads, a lookup of a missing
    name no read at all; the larger granule of the second preset saves programs
    in the writes. *)
Example time_probe_first_lines :
  first_lines FFSV_PRESET_TARGET_NOR_NOTES =
    Some [[0; 2; 1]; [3; 0; 0]; [13; 15; 0]; [2; 0; 0]; [3; 0; 0]; [3; 0; 0]; [0; 0; 0];
          [8; 16; 0]; [4; 3; 0]] /\
  first_lines FFSV_PRESET_ESP32S3_MEASURED =
    Some [[0; 2; 1]; [3; 0; 0]; [13; 8; 0]; [2; 0; 0]; [3; 0; 0]; [3; 0; 0]; [0; 0; 0];
          [8; 9; 0]; [4; 3; 0]].
Proof. split; vm_compute; reflexivity. Qed.
