(* ===== verification/Instances.v ===== *)
(** * Instances of the journal's theorems

    The theorems over an index contract, applied to the hash-table index and to
    the full slot-head cache on simulated devices. *)

From S2P Require Export Replay HashIndex RamIndex ReadSpec GcSpec RotateSpec.
From S2P Require Export InspectAgree InspectDump Mount CrashReplay HostFlash.

(** A device whose first index sector holds the records (9, 3), (9, 0),
    (7, 0). *)
Definition demo_records : dev :=
  mk_dev (dev_program_bytes ∅ 8 [9; 0; 3; 0; 9; 0; 0; 0; 7; 0; 0; 0]) None.

Definition demo_journal : @world Demo.backend := Demo.start demo_records.

Lemma demo_journal_ok :
  @nor_ok Demo.backend (dev_nor 2048 4) (w_ctx demo_journal).
Proof.
  split; [reflexivity |]. intros a.
  cbn [w_ctx demo_journal Demo.start demo_records dv_mem].
  rewrite dev_byte_program. apply mem_program_u8.
  - intros b. apply is_u8_255.
  - repeat constructor; lia || done.
Qed.

Lemma demo_journal_records :
  journal Demo.geo (@mem Demo.backend (dev_nor 2048 4) demo_journal)
    (fs_log Demo.fs) = [(9, 3); (9, 0); (7, 0)].
Proof. vm_compute. reflexivity. Qed.

Lemma demo_journal_clean :
  @clean_journal Demo.backend Demo.geo hash_index hash_cached
    (@mem Demo.backend (dev_nor 2048 4) demo_journal) (fs_log Demo.fs).
Proof.
  split.
  - split; vm_compute; try split; done.
  - rewrite demo_journal_records.
    repeat (apply Forall_cons; split; [right; simpl; lia |]). by apply Forall_nil.
  - rewrite demo_journal_records. intros l1 l2 Hl.
    assert (Hlen : (length l1 <= 3)%nat)
      by (apply (f_equal length) in Hl; rewrite length_app in Hl; simpl in Hl; lia).
    assert (Hl1 : l1 = take (length l1) [(9, 3); (9, 0); (7, 0)])
      by by rewrite Hl, take_app_length.
    rewrite Hl1. destruct (length l1) as [| [| [| [| n]]]]; try lia; vm_compute; lia.
  - intros slot head. change (active_index_sector (fs_log Demo.fs)) with 0.
    assert (Hj : sector_journal Demo.geo
      (@mem Demo.backend (dev_nor 2048 4) demo_journal) 0 =
      [(9, 3); (9, 0); (7, 0)]) by (vm_compute; reflexivity).
    rewrite Hj. by intros [= <- <-] [].
Qed.

Lemma replay_rebuilds_index_witness :
  exists w', @fffs_replay_index Demo.backend hash_index demo_journal =
    (Ok tt, w') /\ hash_map (w_fs w') = ∅ /\
    next_index_offset (fs_log (w_fs w')) = 20.
Proof.
  destruct (@replay_rebuilds_index Demo.backend (dev_nor 2048 4) Demo.valid
    Demo.geo Demo.geo_valid hash_index hash_cached demo_journal eq_refl
    demo_journal_ok demo_hash_ok eq_refl demo_journal_clean)
    as (w' & Hrun & _ & _ & _ & Hmap & Hlog).
  exists w'. split; [exact Hrun |]. split.
  - etransitivity; [exact Hmap |]. vm_compute. reflexivity.
  - rewrite Hlog. vm_compute. reflexivity.
Defined.

(** The blank device agrees with an empty journal. *)
Lemma demo_log_ok :
  log_ok Demo.geo (@mem Demo.backend (dev_nor 2048 4) Demo.blank) (fs_log Demo.fs).
Proof.
  split; try (vm_compute; try split; done).
Qed.

Lemma demo_blank_journal :
  journal Demo.geo (@mem Demo.backend (dev_nor 2048 4) Demo.blank)
    (fs_log Demo.fs) = [].
Proof. vm_compute. reflexivity. Qed.

Lemma append_extends_journal_witness :
  exists w', @fffs_append_index_record Demo.backend hash_index 9 3 Demo.blank =
    (Ok tt, w') /\
    journal Demo.geo (@mem Demo.backend (dev_nor 2048 4) w')
      (fs_log (w_fs w')) = [(9, 3)] /\
    hash_map (w_fs w') = {[9 := 3]}.
Proof.
  destruct (@append_extends_journal Demo.backend (dev_nor 2048 4) Demo.valid
    Demo.geo Demo.geo_valid hash_index hash_cached 9 3 Demo.blank eq_refl
    Demo.blank_ok demo_hash_ok demo_log_ok) as (w' & Hrun & _ & _ & Hj & _ & Hm).
  - vm_compute. reflexivity.
  - reflexivity.
  - split; simpl; unfold is_u16; lia.
  - left. vm_compute. lia.
  - exists w'.
    change (fs_log (w_fs Demo.blank)) with (fs_log Demo.fs) in Hj.
    rewrite demo_blank_journal in Hj.
    split; [exact Hrun |]. split; [exact Hj |].
    etransitivity; [exact Hm |]. rewrite Hj. reflexivity.
Defined.

(** A deletion appended to the journal above, before and after a remount. *)
Definition demo_before : @world Demo.backend :=
  @mk_world Demo.backend demo_records
    (set_fs_log (mk_log 0 1 0 20 0) Demo.fs) ∅.

Definition demo_after : @world Demo.backend :=
  snd (@fffs_append_index_record Demo.backend hash_index 5 0 demo_before).

(** A structure mounted again on the same flash. *)
Definition remount (w : @world Demo.backend) : @world Demo.backend :=
  Demo.start (w_ctx w).

Lemma remount_mem w a :
  @mem Demo.backend (dev_nor 2048 4) (remount w) a =
  @mem Demo.backend (dev_nor 2048 4) w a.
Proof. reflexivity. Qed.

Lemma demo_before_log_ok :
  log_ok Demo.geo (@mem Demo.backend (dev_nor 2048 4) demo_before)
    (fs_log (w_fs demo_before)).
Proof.
  split; try (vm_compute; try split; done).
  intros a Ha. unfold demo_before, mem, demo_records. simpl in Ha.
  cbn [w_ctx nor_mem dev_nor dv_mem]. rewrite dev_byte_program.
  apply mem_program_out. change (8 + zlen _) with 20. cbn in Ha. lia.
Qed.

Lemma demo_after_records :
  journal Demo.geo (@mem Demo.backend (dev_nor 2048 4) demo_after)
    (fs_log (w_fs demo_after)) = [(9, 3); (9, 0); (7, 0); (5, 0)].
Proof. vm_compute. reflexivity. Qed.

(** A journal of deletions and of one insertion at its start is clean. *)
Lemma demo_clean (m : Z -> Z) (l : fs_log_state) (records : list (Z * Z)) :
  sequence_ok Demo.geo l -> journal Demo.geo m l = records ->
  (length records < 16)%nat -> Forall (record_valid Demo.geo) records ->
  sector_journal Demo.geo m (active_index_sector l) = records ->
  (exists slot, last records = Some (slot, 0)) ->
  @clean_journal Demo.backend Demo.geo hash_index hash_cached m l.
Proof.
  intros Hs Hj Hlen Hv Ha [slot0 Hlast].
  split; [done | by rewrite Hj | |].
  - rewrite Hj. intros l1 l2 ->. rewrite length_app in Hlen.
    pose proof (size_replay_map ∅ l1) as Hsz.
    rewrite map_size_empty in Hsz. simpl. lia.
  - rewrite Ha. intros slot head Hl Hh. congruence.
Qed.

Lemma demo_after_ok :
  @nor_ok Demo.backend (dev_nor 2048 4) (w_ctx demo_after).
Proof.
  split; [vm_compute; reflexivity |]. intros a. unfold dev_byte.
  assert (Hall : map_Forall (fun _ b => 0 <= b < 256) (dv_mem (w_ctx demo_after)))
    by (refine (bool_decide_eq_true_1 _ _); vm_compute; reflexivity).
  destruct (dv_mem (w_ctx demo_after) !! a) as [b |] eqn:Hb;
    [exact (Hall a b Hb) | apply is_u8_255].
Qed.

Lemma append_survives_remount_witness :
  exists w3, @fffs_replay_index Demo.backend hash_index (remount demo_after) =
    (Ok tt, w3) /\ hash_map (w_fs w3) = hash_map (w_fs demo_after) /\
    next_index_offset (fs_log (w_fs w3)) = 24.
Proof.
  destruct (@append_survives_remount Demo.backend (dev_nor 2048 4) Demo.valid
    Demo.geo Demo.geo_valid hash_index hash_cached 5 0 demo_before demo_after
    eq_refl demo_journal_ok demo_hash_ok demo_before_log_ok)
    with (w2 := remount demo_after) as (w3 & Hrun & Hmap & Hlog).
  - vm_compute. reflexivity.
  - vm_compute. reflexivity.
  - split; simpl; unfold is_u16; lia.
  - left. vm_compute. lia.
  - vm_compute. reflexivity.
  - apply (demo_clean _ _ [(9, 3); (9, 0); (7, 0); (5, 0)]).
    + split; vm_compute; try split; done.
    + apply demo_after_records.
    + simpl. lia.
    + repeat (apply Forall_cons; split; [right; simpl; lia |]). by apply Forall_nil.
    + vm_compute. reflexivity.
    + exists 5. reflexivity.
  - reflexivity.
  - apply demo_after_ok.
  - apply remount_mem.
  - apply demo_hash_ok.
  - reflexivity.
  - exists 8. vm_compute. reflexivity.
  - exists w3. split; [exact Hrun |]. split; [exact Hmap |].
    rewrite Hlog. vm_compute. reflexivity.
Defined.

(** A collector at a sector with a torn footer. *)
Definition demo_torn : @world Demo.backend :=
  Demo.start (mk_dev (dev_program_bytes ∅ 763 [0]) None).

Lemma demo_torn_ok : @flash_ok Demo.backend (dev_nor 2048 4) demo_torn.
Proof.
  split; [reflexivity |]. intros a. cbn [w_ctx demo_torn Demo.start dv_mem].
  rewrite dev_byte_program. apply mem_program_u8.
  - intros b. apply is_u8_255.
  - repeat constructor; lia || done.
Qed.

Lemma gc_step_reclaims_witness :
  exists w', @gc_step Demo.backend hash_index true demo_torn =
    (Ok (FFFS_GC_ERASED, false), w') /\
    @mem Demo.backend (dev_nor 2048 4) w' 763 = 0xff.
Proof.
  destruct (@gc_step_reclaims Demo.backend (dev_nor 2048 4) Demo.valid Demo.geo
    Demo.geo_valid Demo.erase_unit hash_index true demo_torn eq_refl demo_torn_ok) as (w' & Hr & Hm & _).
  - reflexivity.
  - vm_compute. reflexivity.
  - vm_compute. reflexivity.
  - vm_compute. reflexivity.
  - vm_compute. reflexivity.
  - vm_compute. reflexivity.
  - exists w'. split; [exact Hr |]. rewrite Hm. vm_compute. reflexivity.
Defined.

Lemma gc_single_sector_diverges_witness :
  exists w', @fffs_gc_until_erased Demo.backend hash_index 1000%nat
    (@mk_world Demo.backend dev_blank
       (set_fs_alloc (mk_alloc (Some [7]) 2 0 [] 1)
          (set_fs_geo (mk_geometry 256 3 0 2 false 64 16) Demo.fs)) ∅) = (NoFuel, w').
Proof. apply gc_single_sector_diverges; reflexivity. Defined.

(** A file system with a file of two extents, read by an open handle: the
    world of [demo_reading] once its handle is closed. *)
Definition demo_idle : @world Demo.backend :=
  snd (@fffs_close Demo.backend hash_index 1 demo_reading).

Definition demo_idle_mem : Z -> Z := @mem Demo.backend (dev_nor 2048 4) demo_idle.

Lemma demo_idle_hash_ok : hash_ok (w_fs demo_idle) /\
  hash_map (w_fs demo_idle) = {[52512 := 7]}.
Proof.
  destruct (@idx_set Demo.backend hash_index hash_cached 52512 7 Demo.blank)
    as (w1 & Hr & _ & Hok & Hmap).
  - exact demo_hash_ok.
  - lia.
  - lia.
  - left. vm_compute. lia.
  - assert (Hw1 : w1 = snd (@index_set Demo.backend hash_index 52512 7 Demo.blank))
      by by rewrite Hr.
    destruct (@idx_ok_ext Demo.backend hash_index hash_cached (w_fs w1)
      (w_fs demo_idle) Hok) as [Hok' Hmap'].
    + rewrite Hw1. vm_compute. reflexivity.
    + rewrite Hw1. vm_compute. reflexivity.
    + rewrite Hw1. vm_compute. reflexivity.
    + split; [exact Hok' |]. etransitivity; [exact Hmap' |].
      etransitivity; [exact Hmap |]. vm_compute. reflexivity.
Qed.

(** The sanity of a sector, by evaluation. *)
Definition sane_check (g : fs_geometry) (m : Z -> Z) (sector : Z) : bool :=
  let '(l, e) := sector_records g m sector in
  match e with WEnd_corrupt => false | _ => true end &&
  forallb (fun r => forallb (fun r' => data_end r <=? md_record_start r') l &&
    (negb (md_live r) || negb (md_slot r =? 0))) l.

Lemma sane_check_ok g m sector : sane_check g m sector = true -> sector_sane g m sector.
Proof.
  unfold sane_check, sector_sane. destruct (sector_records g m sector) as [l e].
  rewrite andb_true_iff, forallb_forall. intros [He Hl] _.
  split; [by destruct e |]. split; intros r.
  - intros r' Hr Hr'. apply list_elem_of_In in Hr, Hr'.
    specialize (Hl r Hr). rewrite andb_true_iff, forallb_forall in Hl.
    destruct Hl as [Hl _]. specialize (Hl r' Hr'). by apply Z.leb_le.
  - intros Hr Hlive. apply list_elem_of_In in Hr. specialize (Hl r Hr).
    rewrite andb_true_iff, Hlive in Hl. destruct Hl as [_ Hl]. cbn [negb orb] in Hl.
    by apply negb_true_iff, Z.eqb_neq in Hl.
Qed.

Lemma demo_idle_inv : @gc_inv Demo.backend (dev_nor 2048 4) Demo.geo hash_index
  hash_cached demo_idle.
Proof.
  split; [split |].
  - vm_compute. reflexivity.
  - split; [vm_compute; reflexivity |].
    assert (Hall : map_Forall (fun _ v => is_u8 v) (dv_mem (w_ctx demo_idle)))
      by (apply (bool_decide_unpack _); vm_compute; exact I).
    intros a. unfold dev_byte. destruct (_ !! _) as [v |] eqn:Hv; simpl.
    + by apply (Hall _ _ Hv).
    + unfold is_u8. lia.
  - apply demo_idle_hash_ok.
  - intros s Hs. apply sane_check_ok. change (2 <= s < 8) in Hs.
    assert (s = 2 \/ s = 3 \/ s = 4 \/ s = 5 \/ s = 6 \/ s = 7) as
      [-> | [-> | [-> | [-> | [-> | ->]]]]] by lia; vm_compute; reflexivity.
  - apply walk_sync_inactive. vm_compute. reflexivity.
Qed.

Lemma gc_keeps_namespace_witness :
  exists r w', @fffs_gc Demo.backend hash_index 40 demo_idle = (r, w') /\
    mem_bytes (@mem Demo.backend (dev_nor 2048 4) w') 512 73 =
      fill 23 7 ++ fill 50 9.
Proof.
  destruct (@gc_keeps_namespace Demo.backend (dev_nor 2048 4) Demo.valid Demo.geo
    Demo.geo_valid Demo.erase_unit hash_index hash_cached 40 demo_idle demo_idle_inv)
    as (r & w' & Hr & _ & _ & _ & _ & Hkeep & _).
  exists r, w'. split; [exact Hr |].
  destruct (Hkeep 52512 2) as [_ Hd].
  - exists 7. split; [| vm_compute; reflexivity].
    change (hash_map (w_fs demo_idle) !! 52512 = Some 7).
    rewrite (proj2 demo_idle_hash_ok). reflexivity.
  - destruct (Hd demo_extent) as [_ Hb]; [vm_compute; reflexivity |].
    etransitivity; [exact Hb |]. vm_compute. reflexivity.
Defined.

(** A device whose first index sector is full: one record of slot 7, and
    sixty-one of slot 9, of which the last one counts. *)
Definition demo_full_records : list (Z * Z) :=
  (7, 3) :: ((fun i => (9, Z.of_nat i)) <$> seq 3 61).

Definition demo_full_dev : dev :=
  mk_dev (dev_program_bytes ∅ 8
    (List.concat ((fun r => record_bytes (fst r) (snd r)) <$> demo_full_records))) None.

Definition demo_full_log : fs_log_state := mk_log 0 1 0 256 3.

Definition demo_full_start : @world Demo.backend :=
  @mk_world Demo.backend demo_full_dev (set_fs_log demo_full_log Demo.fs) ∅.

Definition demo_full_set : @M Demo.backend unit :=
  bind (@index_set Demo.backend hash_index 7 3)
    (fun _ => @index_set Demo.backend hash_index 9 63).

Definition demo_full : @world Demo.backend := snd (demo_full_set demo_full_start).

Lemma demo_full_index :
  hash_ok (w_fs demo_full) /\ hash_map (w_fs demo_full) = {[7 := 3; 9 := 63]}.
Proof.
  destruct (@idx_set Demo.backend hash_index hash_cached 7 3 demo_full_start)
    as (w1 & Hr1 & _ & Hok1 & Hm1); [exact demo_hash_ok | lia | lia | |].
  { left. vm_compute. lia. }
  destruct (@idx_set Demo.backend hash_index hash_cached 9 63 w1)
    as (w2 & Hr2 & _ & Hok2 & Hm2); [exact Hok1 | lia | lia | |].
  { left. rewrite Hm1.
    assert (Hw1 : w1 = snd (@index_set Demo.backend hash_index 7 3 demo_full_start))
      by by rewrite Hr1.
    rewrite Hw1. vm_compute. lia. }
  assert (Hw2 : demo_full = w2) by (unfold demo_full, demo_full_set, bind; by rewrite Hr1, Hr2).
  rewrite Hw2. split; [exact Hok2 |]. etransitivity; [exact Hm2 |]. rewrite Hm1.
  vm_compute. reflexivity.
Qed.

Lemma demo_full_ok : @flash_ok Demo.backend (dev_nor 2048 4) demo_full.
Proof.
  split; [vm_compute; reflexivity |].
  assert (Hall : map_Forall (fun _ v => is_u8 v) (dv_mem (w_ctx demo_full)))
    by (apply (bool_decide_unpack _); vm_compute; exact I).
  intros a. unfold dev_byte. destruct (_ !! _) as [v |] eqn:Hv; simpl.
  - by apply (Hall _ _ Hv).
  - unfold is_u8. lia.
Qed.

Lemma demo_full_journal :
  journal Demo.geo (@mem Demo.backend (dev_nor 2048 4) demo_full)
    (fs_log (w_fs demo_full)) = demo_full_records.
Proof. vm_compute. reflexivity. Qed.

Lemma demo_full_log_ok :
  log_ok Demo.geo (@mem Demo.backend (dev_nor 2048 4) demo_full)
    (fs_log (w_fs demo_full)).
Proof. split; try (vm_compute; try split; done). intros a Ha. change (256 <= a < 256 + (256 - 256)) in Ha. lia. Qed.

Lemma demo_full_proper :
  slots_proper (journal Demo.geo (@mem Demo.backend (dev_nor 2048 4) demo_full)
    (fs_log (w_fs demo_full))).
Proof.
  rewrite demo_full_journal. apply Forall_cons. split.
  { right. simpl. unfold is_u16. lia. }
  apply Forall_fmap, Forall_forall. intros i Hi%elem_of_seq. right. simpl.
  unfold is_u16. lia.
Qed.

Lemma rotate_keeps_namespace_witness :
  exists w', @fffs_rotate_index Demo.backend hash_index demo_full = (Ok tt, w') /\
    active_index_sector (fs_log (w_fs w')) = 1 /\
    fffs_valid_index_header (mem_bytes (@mem Demo.backend (dev_nor 2048 4) w') 256 8) =
      Some (2, 0, 4).
Proof.
  destruct (@rotate_keeps_namespace Demo.backend (dev_nor 2048 4) Demo.valid
    Demo.geo Demo.geo_valid Demo.erase_unit hash_index hash_cached demo_full eq_refl demo_full_ok
    (proj1 demo_full_index) demo_full_log_ok demo_full_proper)
    as (w' & Hrun & _ & _ & Hact & Hhdr & _).
  - etransitivity; [exact (proj2 demo_full_index) |]. rewrite demo_full_journal.
    vm_compute. reflexivity.
  - vm_compute. reflexivity.
  - change ((active_index_sector (fs_log (w_fs demo_full)) + 1) mod
      index_sectors Demo.geo) with 1 in Hact.
    exists w'. split; [exact Hrun |]. split; [exact Hact |].
    rewrite Hact in Hhdr. exact Hhdr.
Defined.

Lemma append_rotates_full_sector_witness :
  exists w', @fffs_append_index_record Demo.backend hash_index 5 6 demo_full =
    (Ok tt, w') /\ hash_map (w_fs w') = {[7 := 3; 9 := 63; 5 := 6]}.
Proof.
  destruct (@append_rotates_full_sector Demo.backend (dev_nor 2048 4) Demo.valid
    Demo.geo Demo.geo_valid Demo.erase_unit hash_index hash_cached 5 6 demo_full eq_refl demo_full_ok
    (proj1 demo_full_index) demo_full_log_ok demo_full_proper)
    as (r & w' & Hrun & Hres & _).
  - etransitivity; [exact (proj2 demo_full_index) |]. rewrite demo_full_journal.
    vm_compute. reflexivity.
  - vm_compute. reflexivity.
  - vm_compute. reflexivity.
  - split; simpl; unfold is_u16; lia.
  - left. vm_compute. lia.
  - assert (Hroom : @rotation_room Demo.backend (dev_nor 2048 4) Demo.geo hash_index
      hash_cached demo_full = true) by (vm_compute; reflexivity).
    rewrite Hroom in Hres. destruct Hres as [-> Hm]. exists w'. split; [exact Hrun |].
    etransitivity; [exact Hm |].
    etransitivity; [apply (f_equal (fun m => apply_record m (5, 6)) (proj2 demo_full_index)) |].
    vm_compute. reflexivity.
Defined.

(** ** The inspector *)

Definition demo_layout : inspect_layout := mk_layout 256 8 2 0 0.

Lemma demo_layout_of : layout_of Demo.geo demo_layout.
Proof. repeat split; reflexivity. Qed.

(** Names, by evaluation. *)
Lemma names_check (m : Z -> Z) (sector : Z) :
  forallb (root_named Demo.geo m sector) (fst (sector_records Demo.geo m sector)) = true ->
  names_readable Demo.geo m sector.
Proof.
  rewrite forallb_forall. intros Hall. apply Forall_forall. intros r Hr.
  apply Hall. by apply list_elem_of_In.
Qed.

Definition demo_root : fffs_md_record :=
  match fst (@fffs_read_md_for_slot Demo.backend 7 52512 demo_idle) with
  | Ok r => r
  | _ => md_record_zero
  end.

Lemma inspector_decodes_lookup_witness :
  exists w2, @read_decoded_md Demo.backend demo_layout 7 52512 demo_idle =
    (Ok (decoded_of Demo.geo demo_idle_mem 7 demo_root, MD_VALID), w2) /\
    dm_next (decoded_of Demo.geo demo_idle_mem 7 demo_root) = 2.
Proof.
  destruct (@inspector_decodes_lookup Demo.backend (dev_nor 2048 4) Demo.valid Demo.geo
    Demo.geo_valid demo_layout 7 52512 demo_root demo_idle
    (snd (@fffs_read_md_for_slot Demo.backend 7 52512 demo_idle)))
    as (w2 & Hrun & _).
  - vm_compute. reflexivity.
  - apply demo_idle_inv.
  - exact demo_layout_of.
  - apply names_check. vm_compute. reflexivity.
  - vm_compute. reflexivity.
  - exists w2. split; [exact Hrun |]. vm_compute. reflexivity.
Defined.

Lemma inspector_agrees_with_collector_witness :
  exists w2, @record_reachable_for_slot Demo.backend demo_layout {[52512 := 7]} 52512 2
    demo_idle = (Ok true, w2).
Proof.
  destruct (@inspector_agrees_with_collector Demo.backend (dev_nor 2048 4) Demo.valid
    Demo.geo Demo.geo_valid demo_layout {[52512 := 7]} 52512 2 true demo_idle
    (snd (@sector_is_reachable_from_chain Demo.backend 52512 7 2 demo_idle)))
    as (w2 & Hrun & _).
  - vm_compute. reflexivity.
  - apply demo_idle_inv.
  - exact demo_layout_of.
  - intros s Hs. change (2 <= s < 8) in Hs. apply names_check.
    assert (s = 2 \/ s = 3 \/ s = 4 \/ s = 5 \/ s = 6 \/ s = 7) as
      [-> | [-> | [-> | [-> | [-> | ->]]]]] by lia; vm_compute; reflexivity.
  - vm_compute. reflexivity.
  - exists w2. exact Hrun.
Defined.

Lemma inspect_index_reads_active_sector_witness :
  exists heads c w', @inspect_index Demo.backend demo_layout demo_journal =
    (Ok (heads, c), w') /\ head_at heads 9 = 0 /\ ic_records c = 3.
Proof.
  destruct (@inspect_index_reads_active_sector Demo.backend (dev_nor 2048 4) Demo.valid
    Demo.geo Demo.geo_valid demo_layout demo_journal)
    as (heads & c & w' & Hrun & _ & Hmap & Hrec & _).
  - exact demo_journal_ok.
  - exact demo_layout_of.
  - simpl. change (0 <= 0 < 2). lia.
  - assert (Hj : sector_journal Demo.geo
      (@mem Demo.backend (dev_nor 2048 4) demo_journal) 0 =
      [(9, 3); (9, 0); (7, 0)]) by (vm_compute; reflexivity).
    change (il_active_index_sector demo_layout) with 0. rewrite Hj.
    repeat (apply Forall_cons; split; [simpl; lia |]). by apply Forall_nil.
  - exists heads, c, w'. split; [exact Hrun |]. split.
    + rewrite Hmap. vm_compute. reflexivity.
    + rewrite Hrec. vm_compute. reflexivity.
Defined.

(** An image whose only entry names a blank data sector. *)
Definition demo_broken : @world Demo.backend :=
  Demo.start (mk_dev (dev_program_bytes ∅ 0
    (index_header 2 0 0 ++ record_bytes 9 5)) None).

Lemma demo_broken_ok : @flash_ok Demo.backend (dev_nor 2048 4) demo_broken.
Proof.
  split; [reflexivity |].
  assert (Hall : map_Forall (fun _ v => is_u8 v) (dv_mem (w_ctx demo_broken)))
    by (apply (bool_decide_unpack _); vm_compute; exact I).
  intros a. unfold dev_byte. destruct (_ !! _) as [v |] eqn:Hv; simpl.
  - by apply (Hall _ _ Hv).
  - unfold is_u8. lia.
Qed.

Definition demo_summary : fffs_inspect_summary :=
  match fst (@fffs_inspect_check Demo.backend demo_broken) with
  | Ok s => s
  | _ => mk_summary demo_layout index_counts_zero sector_counts_zero md_counts_zero
  end.

Definition demo_lines : list report_line :=
  match fst (@fffs_inspect_dump Demo.backend demo_broken) with
  | Ok lines => lines
  | _ => []
  end.

Lemma dump_doubles_corrupt_entries_witness :
  ic_live_entries_corrupt (sum_index demo_summary) = 1 /\
  exists c, nth_error demo_lines 1 = Some (Report_summary
      (mk_summary (sum_layout demo_summary) c (sum_sectors demo_summary)
         (sum_md demo_summary))) /\
    ic_live_entries_corrupt c = 2.
Proof.
  assert (Hone : ic_live_entries_corrupt (sum_index demo_summary) = 1)
    by (vm_compute; reflexivity).
  split; [exact Hone |].
  destruct (@dump_doubles_corrupt_entries Demo.backend (dev_nor 2048 4) demo_broken
    (snd (@fffs_inspect_check Demo.backend demo_broken))
    (snd (@fffs_inspect_dump Demo.backend demo_broken)) demo_summary demo_lines
    demo_broken_ok) as (c & Hline & Htwice & _).
  - vm_compute. reflexivity.
  - vm_compute. reflexivity.
  - exists c. split; [exact Hline |]. rewrite Htwice, Hone. reflexivity.
Defined.

(** ** Discovery, mount and format *)

(** A formatted image with the records (9, 3), (9, 0), (7, 0). *)
Definition demo_image : @world Demo.backend :=
  Demo.start (mk_dev (dev_program_bytes ∅ 0
    (index_header 2 0 0 ++ [9; 0; 3; 0; 9; 0; 0; 0; 7; 0; 0; 0])) None).

Lemma demo_image_ok : @flash_ok Demo.backend (dev_nor 2048 4) demo_image.
Proof.
  split; [reflexivity |].
  assert (Hall : map_Forall (fun _ v => is_u8 v) (dv_mem (w_ctx demo_image)))
    by (apply (bool_decide_unpack _); vm_compute; exact I).
  intros a. unfold dev_byte. destruct (_ !! _) as [v |] eqn:Hv; simpl.
  - by apply (Hall _ _ Hv).
  - unfold is_u8. lia.
Qed.

Lemma demo_image_headers : @ring_headers Demo.backend Demo.geo
    (@mem Demo.backend (dev_nor 2048 4) demo_image) format_log.
Proof. demo_ring_headers. Qed.

Lemma demo_image_clean :
  @clean_journal Demo.backend Demo.geo hash_index hash_cached
    (@mem Demo.backend (dev_nor 2048 4) demo_image) format_log.
Proof.
  apply (demo_clean _ _ [(9, 3); (9, 0); (7, 0)]).
  - split; vm_compute; try split; done.
  - vm_compute. reflexivity.
  - simpl. lia.
  - repeat (apply Forall_cons; split; [right; simpl; lia |]). by apply Forall_nil.
  - vm_compute. reflexivity.
  - exists 7. reflexivity.
Qed.

Lemma discovery_finds_sequence_witness :
  exists w', @fffs_find_index_sequence Demo.backend demo_image =
    (Ok (mk_sequence 2 0 0 0 0 1), w').
Proof.
  destruct (@discovery_finds_sequence Demo.backend (dev_nor 2048 4) Demo.valid Demo.geo
    Demo.geo_valid format_log demo_image demo_image_ok demo_image_headers)
    as (w' & Hrun & _).
  exists w'. exact Hrun.
Defined.

Definition demo_options : fffs_mount_options :=
  mk_mount_options true 64 16 (Some (fill 64 0)) 64 false (Some [0]) 1.

Lemma demo_accepts :
  @mount_accepts Demo.backend Demo.geo hash_index demo_options.
Proof.
  split; try reflexivity.
  - intros _. split; [reflexivity |]. vm_compute. discriminate.
  - eexists. reflexivity.
  - exists [0]. split; [reflexivity |]. split; [reflexivity |]. vm_compute. discriminate.
Qed.

Lemma mount_recovers_namespace_witness :
  exists w', @fffs_mount Demo.backend hash_index demo_options demo_image = (Ok tt, w') /\
    hash_map (w_fs w') = ∅ /\ next_index_offset (fs_log (w_fs w')) = 20.
Proof.
  destruct (@mount_recovers_namespace Demo.backend (dev_nor 2048 4) Demo.valid Demo.geo
    Demo.geo_valid hash_index hash_cached demo_options format_log demo_image
    demo_image_ok demo_accepts demo_image_headers) as (w' & Hrun & _ & _ & _ & Hmap & Hlog).
  - vm_compute. reflexivity.
  - exact demo_image_clean.
  - exists w'. split; [exact Hrun |]. split.
    + etransitivity; [exact Hmap |]. vm_compute. reflexivity.
    + rewrite Hlog. vm_compute. reflexivity.
Defined.

(** The image formatted again, with two index sectors of 256 bytes. *)
Definition demo_formatted : @world Demo.backend :=
  snd (@fffs_format Demo.backend (mk_format_options 2 256) demo_image).

Lemma demo_formatted_ok : @flash_ok Demo.backend (dev_nor 2048 4) demo_formatted.
Proof.
  split; [vm_compute; reflexivity |].
  assert (Hall : map_Forall (fun _ v => is_u8 v) (dv_mem (w_ctx demo_formatted)))
    by (apply (bool_decide_unpack _); vm_compute; exact I).
  intros a. unfold dev_byte. destruct (_ !! _) as [v |] eqn:Hv; simpl.
  - by apply (Hall _ _ Hv).
  - unfold is_u8. lia.
Qed.

Lemma format_then_mount_witness :
  exists w3, @fffs_mount Demo.backend hash_index demo_options demo_formatted =
    (Ok tt, w3) /\ hash_map (w_fs w3) = ∅ /\ fs_log (w_fs w3) = format_log.
Proof.
  destruct (@format_then_mount Demo.backend (dev_nor 2048 4) Demo.valid Demo.geo
    Demo.geo_valid Demo.erase_unit hash_index hash_cached (mk_format_options 2 256) demo_options
    demo_image demo_image_ok) as (w1 & Hrun & _ & Hmount).
  - vm_compute. reflexivity.
  - vm_compute. reflexivity.
  - exact demo_accepts.
  - vm_compute. lia.
  - assert (Hw1 : w1 = demo_formatted) by (unfold demo_formatted; by rewrite Hrun).
    destruct (Hmount demo_formatted demo_formatted_ok) as (w3 & Hrun3 & _ & _ & _ & Hm & Hl).
    { intros a. by rewrite Hw1. }
    exists w3. split; [exact Hrun3 |]. split; [exact Hm | exact Hl].
Defined.

(** A mount of a blank device. *)
(** Without a scratch buffer the arguments do not pass; a blank device has no
    sequence; a map without words passes the first checks and fails after the
    structure was zeroed. *)
Definition demo_no_scratch : fffs_mount_options :=
  mk_mount_options true 64 16 None 64 false (Some [0]) 1.

Definition demo_short_map : fffs_mount_options :=
  mk_mount_options true 64 16 (Some (fill 64 0)) 64 false (Some []) 0.

Lemma failed_mount_unmounts_witness :
  @fffs_mount Demo.backend hash_index demo_no_scratch demo_image =
    (Err FFFS_ERR_INVALID, demo_image) /\
  (exists w', @fffs_mount Demo.backend hash_index demo_options Demo.blank =
    (Err FFFS_ERR_CORRUPT, w') /\ w_fs w' = fffs_zero) /\
  (exists w', @fffs_mount Demo.backend hash_index demo_short_map demo_image =
    (Err FFFS_ERR_INVALID, w') /\ w_fs w' = fffs_zero).
Proof.
  split; [exact (@failed_mount_unmounts Demo.backend hash_index demo_no_scratch demo_image) |].
  split; eexists; (split; [vm_compute; reflexivity |]).
  - eapply (@failed_mount_unmounts Demo.backend hash_index demo_options Demo.blank).
    vm_compute. reflexivity.
  - eapply (@failed_mount_unmounts Demo.backend hash_index demo_short_map demo_image).
    vm_compute. reflexivity.
Defined.

(** ** Limits of discovery *)

(** A ring of fifteen index sectors after two wraps of the sequence: sectors 2
    to 14 have the serials 2 to 14, the active sector 0 has the serial 15 and
    holds a record; sector 1 is the tombstoned one. *)
Definition ring15_backend : Backend := dev_backend 8192 4.

Definition ring15_dev : dev :=
  mk_dev (foldl (fun m s => dev_program_bytes m (s * 256) (index_header 15 0 s))
    (dev_program_bytes ∅ 0 (index_header 15 0 15 ++ record_bytes 9 20))
    (Z.of_nat <$> seq 2 13)) None.

Definition ring15 : @world ring15_backend :=
  @mk_world ring15_backend ring15_dev Demo.fs ∅.

(** Discovery takes sector 14 for the active one and leaves sector 0, with the
    newest records, out of the sequence: serials more than eight apart compare
    the wrong way round. *)
Lemma discovery_misses_active_sector :
  fst (@fffs_find_index_sequence ring15_backend ring15) =
    Ok (mk_sequence 15 0 14 14 2 13).
Proof. vm_compute. reflexivity. Qed.

(** A device of 512-byte sectors whose first index sector is tombstoned, and
    whose bytes at 4096, a multiple of every smaller sector size, are file data
    that look like a header of 4096-byte sectors. *)
Definition spoof_backend : Backend := dev_backend 16384 4.

Definition spoof_dev : dev :=
  mk_dev (dev_program_bytes
    (dev_program_bytes
      (dev_program_bytes ∅ 0 (take 7 (index_header 2 1 0) ++ [0x3f]))
      512 (index_header 2 1 1))
    4096 (index_header 2 4 0)) None.

Definition spoof : @world spoof_backend :=
  @mk_world spoof_backend spoof_dev Demo.fs ∅.

Lemma discovery_accepts_file_data :
  fst (@fffs_find_index_sequence spoof_backend spoof) =
    Ok (mk_sequence 2 4 0 1 1 1).
Proof. vm_compute. reflexivity. Qed.

(** A journal append whose index update fails: the hash table is full, but the
    record has been committed, so that the next replay meets it. *)
Definition full_table : @world Demo.backend :=
  @mk_world Demo.backend dev_blank
    (set_index_cache [mk_bucket 7 3]
       (set_fs_geo (mk_geometry 256 8 0 2 false 64 1) Demo.fs)) ∅.

Lemma append_commits_before_index :
  let r := @fffs_append_index_record Demo.backend hash_index 9 3 full_table in
  fst r = Err FFFS_ERR_NO_SPACE /\
  record_at (@mem Demo.backend (dev_nor 2048 4) (snd r)) 8 = (9, 3).
Proof. split; vm_compute; reflexivity. Qed.

(** ** Power loss *)

(** The power fails between the two programs of the record (9, 3). *)
Definition demo_failing : @world Demo.backend := Demo.start (mk_dev ∅ (Some 1%nat)).

Definition demo_lost : @world Demo.backend :=
  snd (@fffs_append_index_record Demo.backend hash_index 9 3 demo_failing).

Lemma demo_blank_clean :
  @clean_journal Demo.backend Demo.geo hash_index hash_cached
    (@mem Demo.backend (dev_nor 2048 4) demo_failing) (fs_log (w_fs demo_failing)).
Proof.
  assert (Hj : journal Demo.geo (@mem Demo.backend (dev_nor 2048 4) demo_failing)
    (fs_log (w_fs demo_failing)) = []) by (vm_compute; reflexivity).
  split.
  - split; vm_compute; try split; done.
  - rewrite Hj. by apply Forall_nil.
  - rewrite Hj. intros l1 l2 Hl. destruct l1; [| done]. vm_compute. lia.
  - intros slot head. assert (Hs : sector_journal Demo.geo
      (@mem Demo.backend (dev_nor 2048 4) demo_failing)
      (active_index_sector (fs_log (w_fs demo_failing))) = []) by (vm_compute; reflexivity).
    by rewrite Hs.
Qed.

Lemma demo_blank_rootless s :
  ~ root_present Demo.geo
      (@mem Demo.backend (dev_nor 2048 4) demo_failing) s 9.
Proof.
  intros (r & Hr & _). unfold slot_md in Hr.
  destruct (valid_data_sector Demo.geo s) eqn:Hv; [| done].
  unfold valid_data_sector in Hv. rewrite andb_true_iff, Z.leb_le, Z.ltb_lt in Hv.
  cbn in Hv. assert (Hs : s = 2 \/ s = 3 \/ s = 4 \/ s = 5 \/ s = 6 \/ s = 7) by lia.
  destruct Hs as [-> | [-> | [-> | [-> | [-> | ->]]]]]; vm_compute in Hr; discriminate Hr.
Qed.

Lemma demo_lost_ok :
  @nor_ok Demo.backend (dev_nor 2048 4) (w_ctx (remount demo_lost)).
Proof.
  split; [vm_compute; reflexivity |]. intros a. unfold dev_byte.
  assert (Hall : map_Forall (fun _ b => 0 <= b < 256) (dv_mem (w_ctx demo_lost)))
    by (refine (bool_decide_eq_true_1 _ _); vm_compute; reflexivity).
  cbn [w_ctx remount Demo.start].
  destruct (dv_mem (w_ctx demo_lost) !! a) as [b |] eqn:Hb;
    [exact (Hall a b Hb) | apply is_u8_255].
Qed.

(** The torn record (9, 0xffff) is overwritten and the map is as before. *)
Lemma interrupted_append_recovers_witness :
  exists w3, @fffs_replay_index Demo.backend hash_index (remount demo_lost) =
    (Ok tt, w3) /\
    log_ok Demo.geo (@mem Demo.backend (dev_nor 2048 4) w3) (fs_log (w_fs w3)).
Proof.
  destruct (@interrupted_append_recovers Demo.backend (dev_nor 2048 4)
    (dev_crash 2048 4) Demo.valid Demo.geo Demo.geo_valid hash_index hash_cached 9 3
    FFFS_ERR_IO demo_failing demo_lost) with (w2 := remount demo_lost) (o := 8)
    as (w3 & Hrun & _ & Hlog & _).
  - reflexivity.
  - reflexivity.
  - intros a. apply is_u8_255.
  - apply demo_hash_ok.
  - split; try (vm_compute; try split; done).
  - apply demo_blank_clean.
  - vm_compute. reflexivity.
  - vm_compute. reflexivity.
  - split; simpl; unfold is_u16; lia.
  - left. vm_compute. lia.
  - intros s Hs. exfalso. exact (demo_blank_rootless s Hs).
  - vm_compute. reflexivity.
  - reflexivity.
  - apply demo_lost_ok.
  - apply remount_mem.
  - apply demo_hash_ok.
  - reflexivity.
  - vm_compute. reflexivity.
  - exists w3. split; [exact Hrun | exact Hlog].
Defined.

(** ** The flash harness *)

Definition demo_cfg : ffsv_flash_config :=
  mk_flash_config 1024 256 4 0xff 0 (mk_timing 1 1 1 1 1 1 1 1) 16.

#[export] Instance demo_flash_geo : FlashGeo demo_cfg.
Proof. split; vm_compute; try split; done. Qed.

#[export] Instance demo_nor_config : NorConfig demo_cfg.
Proof. split; vm_compute; done. Qed.

(** A new device with one failure to inject. *)
Definition demo_flash (failure : ffsv_failure_injection) : ffsv_flash :=
  set_failure failure
    (default (mk_flash demo_cfg (lfs_emubd_create (emu_config demo_cfg)) 0 0 failure_zero
       [] [] 0 [] 0 staged_zero) (snd (ffsv_flash_create demo_cfg))).

Definition demo_state (failure : ffsv_failure_injection) : @vstate unit :=
  mk_vstate (demo_flash failure) sampler_zero tt.

Lemma demo_flash_wf failure : flash_wf demo_cfg (demo_flash failure).
Proof.
  destruct (create_ok demo_cfg eq_refl) as (s & Hs & [Hwf _ _ _ _]).
  unfold demo_flash. rewrite Hs. by destruct Hwf.
Qed.

Lemma demo_accepts_none : sampler_accepts (demo_state failure_zero).
Proof. by split. Qed.

(** Half of a program, with random bits. *)
Definition demo_failure : ffsv_failure_injection :=
  mk_failure true 0 6 FFSV_FAIL_MIDDLE FFSV_FAIL_WRITE_RANDOM_CLEAR 0 0 7.

Lemma host_backend_is_nor_witness :
  exists nor : @NorFlash (@fffs_host_backend_from_verify_flash unit demo_cfg),
    @nor_ok _ nor (Some (demo_state failure_zero)).
Proof.
  destruct (@host_backend_is_nor unit demo_cfg demo_flash_geo demo_nor_config)
    as (_ & nor & crash & _ & Hnor).
  exists nor. destruct (Hnor (demo_state failure_zero)) as [Hok _]. apply Hok.
  split; [apply demo_flash_wf | by split | done | done | done].
Defined.

Lemma program_outcomes_witness :
  exists st', ffsv_flash_program 8 (fill 8 0x5a) None (demo_state demo_failure) =
      Some (FFSV_ERR_INJECTED, st') /\
    torn_program (state_mem demo_cfg (demo_state demo_failure)) 8 (fill 8 0x5a)
      (state_mem demo_cfg st').
Proof.
  destruct (program_outcomes demo_cfg 8 (fill 8 0x5a) None (demo_state demo_failure))
    as (status & st' & Hrun & _ & _ & -> & Ht).
  - apply demo_flash_wf.
  - by split.
  - reflexivity.
  - vm_compute. discriminate.
  - lia.
  - vm_compute. discriminate.
  - reflexivity.
  - reflexivity.
  - repeat constructor; done.
  - exists st'. split; [exact Hrun | exact Ht].
Defined.

Lemma erase_outcomes_witness :
  exists st', ffsv_flash_erase 256 512 None (demo_state demo_failure) =
      Some (FFSV_ERR_INJECTED, st') /\
    partly_erased (state_mem demo_cfg (demo_state demo_failure)) 256 512
      (state_mem demo_cfg st').
Proof.
  destruct (erase_outcomes demo_cfg 256 512 None (demo_state demo_failure))
    as (status & st' & Hrun & _ & _ & -> & Ht).
  - apply demo_flash_wf.
  - by split.
  - vm_compute. discriminate.
  - lia.
  - lia.
  - vm_compute. discriminate.
  - reflexivity.
  - reflexivity.
  - exists st'. split; [exact Hrun | exact Ht].
Defined.

(** A device that has been written to. *)
Lemma snapshot_reopen_witness :
  exists snapshot s', ffsv_flash_snapshot_create (demo_flash failure_zero) = Some snapshot /\
    ffsv_flash_reopen_from_snapshot snapshot = Some (FFSV_OK, Some s').
Proof.
  destruct (ffsv_flash_snapshot_create (demo_flash failure_zero)) as [snapshot |] eqn:Hsn;
    [| vm_compute in Hsn; discriminate Hsn].
  destruct (snapshot_reopen demo_cfg (demo_flash failure_zero) snapshot)
    as (s' & Hrun & _).
  - apply demo_flash_wf.
  - reflexivity.
  - exact Hsn.
  - vm_compute in Hsn. injection Hsn as <-. repeat constructor; done.
  - exists snapshot, s'. split; [reflexivity | exact Hrun].
Defined.

(** A read that ends after the device updates the counters of sectors that do
    not exist before it is rejected. *)
Lemma read_past_end_overruns :
  ffsv_flash_read 1000 300 None (demo_state failure_zero) = None.
Proof. vm_compute. reflexivity. Qed.

(** The middle failure of a one-sector erase erases the whole sector. *)
Lemma middle_erase_is_complete :
  match ffsv_flash_erase 256 256 None
    (mk_vstate (set_emu (set_block 1 (mk_block 0 (fill 256 0)) (vf_emu (demo_flash
       (mk_failure true 0 4 FFSV_FAIL_MIDDLE FFSV_FAIL_WRITE_PREFIX 0 1 0))))
       (demo_flash (mk_failure true 0 4 FFSV_FAIL_MIDDLE FFSV_FAIL_WRITE_PREFIX 0 1 0)))
       sampler_zero tt) with
  | Some (status, st) => status = FFSV_ERR_INJECTED /\
      sublist 256 256 (ffsv_flash_image (vs_flash st)) = fill 256 0xff
  | None => False
  end.
Proof. vm_compute. split; reflexivity. Qed.
